(* ===== verification/_CoqProject ===== *)
-Q . S2P
Prelude.v
DynBuf.v
Sha.v
Ctype.v
Ssd.v
KvHeader.v
Fs.v
KvFile.v
KvStore.v
KvBoundary.v
KvEvict.v
KvSession.v
KvLoad.v
KvSafe.v
KvRound.v
SessionStore.v
Wrapper.v
WrapperSafe.v
ContextBlob.v
TcLines.v
TcCompress.v
TcResult.v
Strtod.v
Think.v
Json.v
JsonFacts.v
JsonRequest.v
JsonLocal.v
Stream.v
Grounding.v
JsonRead.v
GroundingSim.v
GroundingPages.v
GroundingRefine.v
GroundingVerify.v
GroundingSpec.v
WrapHttp.v
WrapHttpFacts.v
Dsml.v
DsmlFacts.v
RequestFields.v
DsmlRound.v
DsmlSafe.v
ToolMemory.v
ToolMemoryFacts.v
ToolMemoryRep.v
ToolMemoryOps.v
ToolMemorySpec.v
ToolMap.v
ToolMapFacts.v
ToolRestart.v
Dist.v
DistRoute.v
Slice.v
DistActivation.v
DistFrame.v
DistWorker.v
DistWorkerFacts.v
DistSpan.v
DistClusterFacts.v
DistSpanFacts.v
DistPipe.v
DistPipeFacts.v
DistSession.v
DistSpanExample.v
Gguf.v
GgufFormat.v
GgufLoad.v
StrTable.v
Bpe.v
BpeFacts.v
Vocab.v
AgentFile.v
AgentSearch.v
AgentGuard.v
AgentContext.v
AgentDsml.v
AgentDsmlFacts.v
AgentSage.v
AgentExample.v
