(* ===== verification/Prelude.v ===== *)
(** * Verification of ds4-studio

    ds4-studio is a local inference system for DeepSeek V4 models: an engine
    (ds4.c) with accelerator backends, an HTTP server (ds4_server.c), a terminal
    agent (ds4_agent.c), and the stores and codecs between them.  This library
    models the parts that decide what is stored, loaded, tokenized, parsed and
    sent, as executable functions, and proves what makes them correct.

    ** The parts and how they meet

    A request is JSON text, read by the cursor parsers of the server; its messages
    become tokens through the tokenizer, whose vocabulary comes from the GGUF
    model file; the reply is streamed with a hold-back for stop sequences and
    UTF-8.  The state of a conversation is kept on disk as KV checkpoints and as
    agent session files, which share one file format.  Long tool output is
    shortened only after the original is in a content-addressed blob.  The tool
    calls of a model are markup in its text: the server parses them, remembers the
    sampled text by call id, attaches it again when the client sends the call back,
    and keeps the texts of a checkpoint in a trailer of its file.

    - Growable buffer, buf.c: [DynBuf], behind the interface [GrowBuf]
      ([DynBuf.ptr, len, cap]; one definition per function).  The compressor's own
      buffer is in [TcLines], another instance of the interface.
    - Digests: [Sha] holds the block hashing both share, the SHA-1 of
      ds4_kvstore.c and the SHA-256 of ds4_context_blob.c.
    - Files: [Fs] is the part of the C library the stores use, with a history of
      every state a crash could leave and a list of faults to come.
    - KV store, ds4_kvstore.c: [KvHeader] (header codec, names), [KvStore]
      (doubles of the eviction score, state, directory scan, eviction, boundaries),
      [KvSession] (store and load protocols against the class [Engine], and a
      concrete engine); facts in [KvBoundary], [KvEvict], [KvFile], [KvLoad],
      [KvSafe], [KvRound].
    - Agent session files, ds4_agent_session_store.c: [SessionStore], a client of
      the KV file format and of [Engine].
    - Wrapper service: [Wrapper] (modes, frozen sessions and the threads of the
      connections, ds4_wrapper_state.c and the handlers of ds4_wrapper_http.c that
      move the session), a client of [SessionStore]; [WrapperSafe] (phases,
      the conversation of each mode, an example); [WrapHttp] (reading a
      request, fields, answers), [WrapHttpFacts].
    - Cache sizes, ds4_ssd.c: [Ssd].
    - Blobs, ds4_context_blob.c: [ContextBlob]; the compressor of
      ds4_tool_compress.c: [TcLines], [TcCompress], [TcResult], a client of the
      blobs and of [GrowBuf].
    - Server, ds4_server.c: [Strtod] and [Json] (cursor parsers, writers),
      [JsonFacts], [JsonRequest] (plain fields of a request), [RequestFields] (tool
      lists, messages and the other structured fields of the four protocols),
      [JsonLocal] (a value is read the same whatever follows it), [Stream] (stop
      lists, UTF-8 hold-back).
    - Tool-call markup, ds4_server.c: [Dsml] (renderer, parser of generated text,
      repair), [DsmlFacts], [DsmlRound], [DsmlSafe].
    - Tool-call memory, ds4_server.c: [ToolMemory] (entries and blocks on a heap of
      records with their list, chains and indexes, one definition per function),
      [ToolMemoryFacts] (lists in the heap), [ToolMemoryRep] (the abstract list
      and its representation), [ToolMemoryOps] (each operation against it),
      [ToolMemorySpec] (the requests of the server).
    - Tool map of a checkpoint, ds4_server.c: [ToolMap], [ToolMapFacts];
      [ToolRestart] joins it to the KV store through the trailer hooks, across a
      new process that opens the directory.
    - Distributed inference, ds4_distributed.c: [Dist] (greeting, registry of
      workers, route search, plan, and the route as it travels with the work, with
      the records on the wire), [DistRoute] (facts on registry and routes, and a
      small registry).
    - Work over a route, ds4.c and ds4_distributed.c: [Slice] (a session that
      evaluates a range of layers, against the class [Graph]);
      [DistActivation] (hidden states packed into 32, 16 or 8 bits); [DistFrame]
      (work and result frames); [DistWorker] (sessions of a worker, its checks,
      evaluation, forwarding, and results on their way back, against the class
      [WorkerEnv]), [DistWorkerFacts]; [DistSpan] (the coordinator's request, and
      machines that hear each other), [DistClusterFacts],
      [DistSpanFacts]; [DistPipe] (the three threads of the pipelined prefill over
      a ring of chunks, one connection and a flow window), [DistPipeFacts];
      [DistSession] (prompts in chunks or through the pipeline, tokens, replay of a
      transcript, and what they compute), [DistSpanExample] (three machines).
    - Terminal agent, ds4_agent.c: [AgentFile] (arguments of a tool, and the tools
      read, more, write and edit on the files of the user), [AgentSearch] (search
      in one file), [AgentGuard] (repetition of a reply, n-grams banned from the
      sampler, noise lines, the loop guard, the captured tail of a command),
      [AgentContext] (the spans of tool results in the token window, their eviction
      into blobs and retrieval, compaction, against the class
      [AgentContext.ChatEngine]), [AgentDsml] (the incremental parser of tool
      calls and the forcer that writes an [upto] marker), [AgentDsmlFacts],
      [AgentSage] (turns that compute on a Sage server, and the HTTP tool that
      reaches it), [AgentExample] (files, windows and turns on which the
      theorems apply).
    - Crawl grounding, ds4_crawl_grounding.c: [Grounding] (its string, the
      JSON checker, page extraction, judgement of a verifier's answer),
      [JsonRead] (RFC 8259 with its values and a reference
      reader), [GroundingSim], [GroundingRefine], [GroundingVerify] (the parsers
      simulate the reader), [GroundingPages] (what an excerpt is), [GroundingSpec].
    - Model file, ds4.c: [Gguf] (cursor, metadata, tensor directory, getters),
      [GgufFormat] (the format as data), [GgufLoad] (what is accepted).
    - Tokenizer, ds4.c: [StrTable] (hash tables), [Think] (thinking modes), [Bpe]
      (pre-tokenization, merging, special tokens, messages, token text),
      [BpeFacts], [Vocab] (loading the tables from a model file).

    ** What the theorems show

    - Stores: a checkpoint or session file is replaced atomically whatever fails
      ([KvSafe.store_atomic], [SessionStore.sess_store_atomic]); what is loaded is
      what was stored, under its hash ([KvLoad.try_load_safe],
      [KvRound.store_then_load], [SessionStore.sess_load_saved]); eviction meets
      its budget by removing lowest scores ([KvEvict.evict_meets_budget]); the
      longest cached prefix is found ([KvLoad.find_text_prefix_longest]); the
      header codec is exact ([KvHeader.read_header_iff]).
    - Blobs and compression: a blob is written completely or not at all and reads
      back ([ContextBlob.blob_put_safe], [ContextBlob.blob_roundtrip]);
      compression replaces a text by an excerpt only when the file of its id holds
      the original or was there before, unread ([TcResult.compress_lossless]), and
      each compressor shows exactly what its rules say.
    - Model files: the loader accepts exactly the well-formed GGUF v3 documents
      ([GgufLoad.model_open_spec]), tensors stay inside the file
      ([GgufLoad.loaded_tensors_inside]), getters cannot fail later
      ([GgufLoad.getters_correct]).
    - Tokenizer: no byte is lost and no control token is injected
      ([BpeFacts.bpe_lossless], [BpeFacts.append_message_spec],
      [BpeFacts.rendered_chat_lossless]), from the file on
      ([Vocab.loaded_vocab_lossless]); the hash table is a map
      ([StrTable.table_refines_map]).
    - Server: every parser ends and stays in its text
      ([RequestFields.request_parsers_total]), strings survive escaping
      ([JsonFacts.json_escape_roundtrip]), and a streamed reply never sends part
      of a stop sequence or of a character ([Stream.stop_streaming_safe],
      [Stream.utf8_safe_boundary]).
    - Tool calls: rendered calls whose names and values the markup can carry are
      parsed back ([DsmlRound.tool_calls_roundtrip]),
      markup in the reasoning is never executed ([DsmlSafe.reasoning_not_executed]),
      a replay is byte-exact ([DsmlSafe.tool_replay_exact]), a repair closes what
      is open ([DsmlSafe.repair_balances]) and a failed parse is reported
      ([DsmlSafe.malformed_calls_recovered]).
    - Tool memory: the pointer structure is a bounded list in the order of use
      ([ToolMemorySpec.tool_memory_refines_lru]) from which only exact texts are
      attached ([ToolMemorySpec.attach_exact]); its map survives a new process
      ([ToolMapFacts.tool_map_roundtrip], [ToolRestart.restart_restores]).
    - Distributed inference: the registry holds only workers that fit the model
      ([DistRoute.registry_invariant]); a route is found exactly if there is one,
      covers every layer once and is accepted by every worker on it
      ([DistRoute.route_plan_correct]); the check of a route accepts exactly the
      contiguous ones ([DistRoute.validate_route_iff]).
    - Distributed sessions: machines connected by their frames compute what one
      machine computes, token by token ([DistSession.distributed_eval]) and
      prompt by prompt ([DistSession.distributed_sync]); a worker that holds
      other tokens is noticed by its hash, and the transcript is replayed, except
      behind a pipelined prefill, which has shut the connection
      ([DistSpanExample.lost_while_pipelined]).  The threads of the pipeline never
      block each other for good, and what they leave is the same under every
      schedule ([DistPipeFacts.run_ends], [DistPipeFacts.run_result]).  The
      lemma behind them, [DistSpanFacts.span_runs], holds for every width of the
      hidden states: [DistSpanFacts.route_model] says what packing does to them.
    - Wrapper: at most one thread is inside a request, and as long as mode changes,
      freezes and thaws do not overlap one thread holds the session
      ([WrapperSafe.wrapper_exclusive]) and the conversations of both modes survive
      every failure ([WrapperSafe.conversations_kept]); two overlapping switches can
      lose one ([WrapperSafe.switch_race_loses]); conversations come back ([WrapperSafe.switch_restores]);
      a request is read the same however it arrives
      ([WrapHttpFacts.read_request_pieces]), an answer is JSON
      ([WrapHttpFacts.command_result_is_json]).
    - Cache sizes: the plan is the largest that fits ([Ssd.auto_cache_plan_exact]).
    - Grounding: a manifest is answered by the longest excerpt of its pages and
      refused exactly if it is not JSON ([GroundingSpec.extract_source_correct]);
      an answer is judged by its last score and the excerpts that stand in the
      source ([GroundingSpec.verify_result_correct]).
    - Terminal agent, files: a successful edit replaces exactly the one place that
      its old text names, any other answer is an error, and without failing calls
      an error changes nothing ([AgentFile.edit_exact]); pages of a file follow each other without a gap
      ([AgentFile.read_pages]); search prints the lines around its matches
      ([AgentSearch.search_prints_windows]).
    - Terminal agent, context: an evicted result can be retrieved byte for byte
      ([AgentContext.evict_lossless]); compaction keeps the system prompt and a
      tail of the transcript that starts at a user message ([AgentContext.compact_keeps_tail]).
    - Terminal agent, replies: a call is parsed the same however its text is cut
      into pieces ([AgentDsmlFacts.dsml_stream_roundtrip]), and the fuel of the parser
      never cuts a pass short ([AgentDsmlFacts.agent_dsml_parse_terminates]); the guards act
      exactly on the repetitions they are meant for ([AgentGuard.loop_guard_exact],
      [AgentGuard.repetition_exact], [AgentGuard.ngram_ban_exact],
      [AgentGuard.elide_noise_exact], [AgentGuard.tail_capture_last]).
    - Terminal agent, Sage turns: what is published is the report that the server
      validated in that turn ([AgentSage.sage_publishes_reports]); the request is
      one word of the shell command ([AgentSage.shell_quote_exact]).
    - Buffers and digests: appends keep the old bytes, streaming in pieces gives
      the digest of the whole.

    ** Conventions, bounds and fuel

    A byte is a [Z] below 256, a buffer a list of bytes, a C string the bytes
    before its first NUL ([cstr]).  Unsigned arithmetic wraps through [u8], [u32],
    [u64]; [int] conversions through [i32].  Fallible code returns an option or a
    result type; an exit of the process is the outcome [Fatal] (or [LDie]); memory
    reads of the model file that leave the mapping are [COob].

    Loops that are not structural carry fuel, and running out of it is a value of
    its own, proved unreachable: 64 doublings for a growing capacity or a power
    of two (the 65th would exceed 64 bits); the length of the text or the mapping
    for scanners, whose rounds each pass at least one byte; three times the length
    plus one for skipping a JSON value (a value, its separator and its closing
    bracket per byte at most); four rounds for the marker of a compressed result,
    whose stated length is stable after them ([Ctype.dec_fixpoint]); the number of
    entries for eviction, of symbols for merging and of slots for probing, each of
    which shrinks or is passed once per round; the number of entries on the heap
    for the lists of the tool memory, which visit each at most once; the number of
    layers plus one for the route search, each level of which starts at a later
    layer; for a connection, the events of its plan and its bytes, of which every
    call of [recv] uses one; for reading a file into the agent, blocks of 8192
    bytes up to the limit of 16 MiB, which 2050 exceed; for the incremental parser
    of tool calls, the length of the text plus one, since a round that goes on
    takes a byte; four attempts for the HTTP tool, the limit of the code; ten steps
    for each chunk of a pipelined prefill (five of the caller, three of the sender,
    two of the reader) and twelve for the ends of the threads.

    Parameters: [Engine] and [EngineLaws] (the session of ds4.c as the stores see
    it: staged payloads restore their tokens), [SessionEngine] (its size and save
    calls), [WrapperEngine] (new sessions, failed saves), [Graph] and [GraphLaws]
    (what a layer, the embedding and the output head compute, with their shapes),
    [WorkerEnv] (memory, connections, new sessions and the clock of a worker),
    the allocator of the
    compressor, of the loader and of the grounding (a function that may refuse),
    the random suffix of a temporary file, the clock, [qsort] with the comparison
    of workers (a sorted permutation) and [dup], and for the pipelined prefill its
    options, whether its threads start, and the schedule of their steps
    ([DistPipe.prefill_options]).  For the agent: [strerror],
    [fnmatch] and [regexec], the tokenizer and session behind
    [AgentContext.ChatEngine], curl and the clock of its HTTP tool, and the results
    of the tools that are not modelled.  Hypotheses about them are class
    laws; [KvSession] and [DistSpanExample] show that they can hold.  The theorems
    on distributed sessions are about machines on which nothing fails
    ([DistWorkerFacts.Healthy]), apart from sessions that are lost or hold
    something else; a route whose text is wrong is answered with a message that
    is a parameter ([we_route_text]).

    ** Not modelled

    Tensor arithmetic, sampling and the session over accelerator buffers (ds4.c,
    the CUDA, ROCm and Metal code): floating-point numerics, reached through
    [Engine] and [Graph].  Sockets and terminal handling of the server, the
    distributed mode, the agent and the wrapper: their protocols are modelled where
    listed above, their system calls are not.  Of the distributed mode, the
    prefetch queue of a worker and the KV snapshots; a request travels a whole route
    before the next one does.  The functions of the server that take a request apart
    and hand its fields to the parsers.  The wrapper's option table, its status page and
    the browser automation of the web tools.  Command lines, help texts, benchmark
    and evaluation loops; of the agent, terminal input and output with the
    markdown renderer, background commands, the walk over directories of its
    search and list tools, its web tools, the policy and skill commands, and the
    part of the turn loop that draws tokens; the quantizer's numerics; linenoise and rax, which are
    third-party (the tool memory's radix trees are finite maps); the Python and
    JavaScript services.  Of the tool map, the pass over all files of the directory
    before a prompt is rendered. *)

From Stdlib Require Export ZArith Lia.
From Stdlib Require Export Ascii.
From Stdlib Require Export String.
From stdpp Require Export base numbers strings list gmap option.

#[export] Set Default Proof Using "Type".

(** ** Machine integers *)

Open Scope Z_scope.

(** A C object of [w] bits holds a value of [0 .. 2^w-1]; conversions wrap. *)
Definition wrap (w x : Z) : Z := x mod 2 ^ w.

Definition u8 (x : Z) : Z := wrap 8 x.
Definition u32 (x : Z) : Z := wrap 32 x.
Definition u64 (x : Z) : Z := wrap 64 x.

(** Conversion to [int]. *)
Definition i32 (x : Z) : Z := let m := wrap 32 x in if m <? 2 ^ 31 then m else m - 2 ^ 32.

Definition UINT32_MAX : Z := 4294967295.
Definition UINT64_MAX : Z := 18446744073709551615.
Definition SIZE_MAX : Z := UINT64_MAX.
Definition INT64_MAX : Z := 9223372036854775807.
Definition INT_MAX : Z := 2147483647.

(** [in_u w x]: [x] is a value an unsigned [w]-bit object can hold. *)
Definition in_u (w x : Z) : Prop := 0 <= x < 2 ^ w.

Definition in_u_b (w x : Z) : bool := (0 <=? x) && (x <? 2 ^ w).

#[export] Instance in_u_dec w x : Decision (in_u w x).
Proof. unfold in_u. apply _. Defined.

(** [lia] with Euclidean division and remainder turned into equations. *)
Ltac zdiv_lia := Z.to_euclidean_division_equations; lia.

Lemma lor_add v d k : 0 <= k -> 0 <= d < 2 ^ k -> Z.lor (v * 2 ^ k) d = v * 2 ^ k + d.
Proof.
  intros Hk Hd. destruct (decide (d = 0)) as [->|Hd0]; [rewrite Z.lor_0_r; lia|].
  assert (Hland : Z.land (v * 2 ^ k) d = 0).
  - apply Z.bits_inj'. intros i Hi. rewrite Z.land_spec, Z.bits_0.
    destruct (Z.lt_ge_cases i k).
    + by rewrite Z.mul_pow2_bits_low.
    + rewrite (Z.bits_above_log2 d i), andb_false_r; [done|lia|].
      apply Z.log2_lt_pow2; [lia|]. eapply Z.lt_le_trans; [apply Hd|]. by apply Z.pow_le_mono_r.
  - pose proof (Z.add_lor_land (v * 2 ^ k) d) as Hl. rewrite Hland, Z.add_0_r in Hl. done.
Qed.

Lemma wrap_range w x : 0 <= w -> in_u w (wrap w x).
Proof. intros Hw. apply Z.mod_pos_bound, Z.pow_pos_nonneg; lia. Qed.

Lemma wrap_small w x : in_u w x -> wrap w x = x.
Proof. apply Z.mod_small. Qed.

Lemma wrap_idem w x : wrap w (wrap w x) = wrap w x.
Proof. unfold wrap. destruct (decide (2 ^ w = 0)) as [->|]; [by rewrite !Z.mod_0_r|]. by rewrite Z.mod_mod. Qed.

Lemma wrap_add_l w x y : wrap w (wrap w x + y) = wrap w (x + y).
Proof. unfold wrap. by rewrite Zplus_mod_idemp_l. Qed.

Lemma i32_small x : - 2 ^ 31 <= x < 2 ^ 31 -> i32 x = x.
Proof.
  intros Hx. unfold i32, wrap.
  destruct (Z.ltb_spec (x mod 2 ^ 32) (2 ^ 31)); zdiv_lia.
Qed.

Lemma u8_range x : 0 <= u8 x < 256.
Proof. apply (wrap_range 8); lia. Qed.

Lemma u32_range x : 0 <= u32 x < 2 ^ 32.
Proof. apply (wrap_range 32); lia. Qed.

Lemma u64_range x : 0 <= u64 x < 2 ^ 64.
Proof. apply (wrap_range 64); lia. Qed.

(** ** Bytes and C strings *)

(** A byte buffer is the list of its byte values; [char] data is read through
    [(unsigned char)], as the sources do before classifying a character. *)
Abbreviation bytes := (list Z).

Definition byte_ok (b : Z) : Prop := 0 <= b < 256.

#[export] Instance byte_ok_dec b : Decision (byte_ok b).
Proof. unfold byte_ok. apply _. Defined.

Abbreviation bytes_ok := (Forall byte_ok).

(** Character and string literals of the sources. *)
Definition ch (a : ascii) : Z := Z.of_N (N_of_ascii a).
Arguments ch a%_char_scope.

Fixpoint bs (s : string) : bytes :=
  match s with
  | EmptyString => []
  | String a s' => ch a :: bs s'
  end.

(** JSON written with apostrophes for its quotation marks. *)
Definition json_bytes (s : string) : bytes := (fun c => if c =? 39 then 34 else c) <$> bs s.

(** Length as a [size_t]-like integer. *)
Definition zlen {A} (l : list A) : Z := Z.of_nat (length l).

(** What a [const char *] pointing at these bytes denotes: the bytes before the
    first NUL. *)
Fixpoint cstr (b : bytes) : bytes :=
  match b with
  | [] => []
  | c :: b' => if c =? 0 then [] else c :: cstr b'
  end.

Definition strlen (b : bytes) : Z := zlen (cstr b).

(** No NUL byte inside. *)
Definition no_nul (b : bytes) : Prop := Forall (fun c => c <> 0) b.

Lemma ch_ok a : byte_ok (ch a).
Proof. unfold byte_ok, ch. pose proof (N_ascii_bounded a). lia. Qed.

Lemma bs_ok s : bytes_ok (bs s).
Proof. induction s; cbn; [constructor | constructor; auto using ch_ok]. Qed.

Lemma zlen_nonneg {A} (l : list A) : 0 <= zlen l.
Proof. unfold zlen. lia. Qed.

Lemma zlen_app {A} (l k : list A) : zlen (l ++ k) = zlen l + zlen k.
Proof. unfold zlen. rewrite length_app. lia. Qed.

Lemma zlen_cons {A} (x : A) l : zlen (x :: l) = 1 + zlen l.
Proof. unfold zlen. cbn. lia. Qed.

Lemma zlen_nil {A} : zlen (@nil A) = 0.
Proof. reflexivity. Qed.

Lemma zlen_map {A B} (f : A -> B) l : zlen (map f l) = zlen l.
Proof. unfold zlen. by rewrite length_map. Qed.

Lemma zlen_fmap {A B} (f : A -> B) l : zlen (f <$> l) = zlen l.
Proof. apply zlen_map. Qed.

Lemma zlen_zero_nil {A} (l : list A) : zlen l = 0 -> l = [].
Proof. destruct l; [done|]. rewrite zlen_cons. pose proof (zlen_nonneg l). lia. Qed.

Lemma zlen_take {A} (l : list A) n : zlen (take n l) = Z.min (Z.of_nat n) (zlen l).
Proof. unfold zlen. rewrite length_take. lia. Qed.

Lemma zlen_drop {A} (l : list A) n : zlen (drop n l) = Z.max 0 (zlen l - Z.of_nat n).
Proof. unfold zlen. rewrite length_drop. lia. Qed.

Lemma zlen_replicate {A} n (x : A) : zlen (replicate n x) = Z.of_nat n.
Proof. unfold zlen. by rewrite length_replicate. Qed.

Create Rewrite HintDb zlen.
#[global] Hint Rewrite @zlen_app @zlen_cons @zlen_nil @zlen_map @zlen_fmap
  @zlen_take @zlen_drop @zlen_replicate : zlen.

(** Normalise lengths, then [lia]. *)
Ltac zlen_lia := autorewrite with zlen in *; unfold zlen in *; lia.

Lemma cstr_no_nul b : no_nul b -> cstr b = b.
Proof.
  induction 1 as [|c b Hc _ IH]; cbn; [done|].
  rewrite IH. destruct (Z.eqb_spec c 0); done.
Qed.

Lemma no_nul_cstr b : no_nul (cstr b).
Proof.
  induction b as [|c b IH]; cbn; [constructor|].
  destruct (Z.eqb_spec c 0); [constructor | by constructor].
Qed.

Lemma no_nul_app a b : no_nul (a ++ b) <-> no_nul a /\ no_nul b.
Proof. apply Forall_app. Qed.

(** ** Results of fallible code *)

(** [Fatal] is a process exit through the module's error handler; [NoFuel] marks
    a loop whose fuel ran out, and is proved unreachable where it is used. *)
Inductive outcome (A : Type) : Type :=
| Done (a : A)
| Fatal (msg : bytes)
| NoFuel.
Arguments Done {A} a.
Arguments Fatal {A} msg.
Arguments NoFuel {A}.

Definition obind {A B} (x : outcome A) (k : A -> outcome B) : outcome B :=
  match x with
  | Done a => k a
  | Fatal m => Fatal m
  | NoFuel => NoFuel
  end.

Declare Scope c_scope.
Delimit Scope c_scope with c.
Notation "'do' x <- m ; k" := (obind m (fun x => k))
  (at level 10, x pattern, m at level 100, k at level 200) : c_scope.

(** [sresult]: the [bool ok, char *err] convention of the sources. *)
Inductive sresult (A : Type) : Type :=
| SOk (a : A)
| SErr (msg : bytes).
Arguments SOk {A} a.
Arguments SErr {A} msg.

(** ** Proof tools *)

Create HintDb ds4.
#[export] Hint Resolve wrap_range u8_range u32_range u64_range ch_ok bs_ok
  zlen_nonneg no_nul_cstr : ds4.

(** Case analysis on the scrutinee of the first [match] or [if] of the goal. *)
Ltac case_match_goal :=
  match goal with
  | |- context [match ?x with _ => _ end] => destruct x eqn:?
  end.

Ltac case_match_hyp H :=
  match type of H with
  | context [match ?x with _ => _ end] => destruct x eqn:?
  end.

(** Boolean comparisons in the context to propositions. *)
Ltac bool_props :=
  repeat match goal with
  | H : (_ && _)%bool = true |- _ => apply andb_true_iff in H; destruct H
  | H : (_ || _)%bool = false |- _ => apply orb_false_iff in H; destruct H
  | H : negb _ = true |- _ => apply negb_true_iff in H
  | H : negb _ = false |- _ => apply negb_false_iff in H
  | H : (_ <=? _) = true |- _ => apply Z.leb_le in H
  | H : (_ <=? _) = false |- _ => apply Z.leb_gt in H
  | H : (_ <? _) = true |- _ => apply Z.ltb_lt in H
  | H : (_ <? _) = false |- _ => apply Z.ltb_ge in H
  | H : (_ =? _) = true |- _ => apply Z.eqb_eq in H
  | H : (_ =? _) = false |- _ => apply Z.eqb_neq in H
  | H : bool_decide _ = true |- _ => apply bool_decide_eq_true in H
  | H : bool_decide _ = false |- _ => apply bool_decide_eq_false in H
  end.

Ltac bool_lia := bool_props; lia.

(** ** List lemmas shared by the components *)

Lemma take_drop_split {A} n (l : list A) : l = take n l ++ drop n l.
Proof. by rewrite take_drop. Qed.

Lemma Forall_take_drop {A} (P : A -> Prop) n l :
  Forall P l -> Forall P (take n l) /\ Forall P (drop n l).
Proof. intros H. split; [by apply Forall_take | by apply Forall_drop]. Qed.

Lemma destruct_list_last {A} (l : list A) : l = [] \/ exists y q, l = q ++ [y].
Proof. induction l using rev_ind; eauto. Qed.

(** [Forall] against stdpp's membership. *)
Lemma Forall_elem {A} (P : A -> Prop) l x : Forall P l -> x ∈ l -> P x.
Proof. intros H Hx. apply list_elem_of_In in Hx. by apply (proj1 (List.Forall_forall P l) H). Qed.

Lemma Forall_intro {A} (P : A -> Prop) l : (forall x, x ∈ l -> P x) -> Forall P l.
Proof. intros H. apply List.Forall_forall. intros x Hx. apply H. by apply list_elem_of_In. Qed.

Lemma prefix_take {A} n (l : list A) : take n l `prefix_of` l.
Proof. exists (drop n l). by rewrite take_drop. Qed.

Lemma prefix_take_eq {A} (p l : list A) : p `prefix_of` l <-> take (length p) l = p.
Proof.
  split.
  - intros [k ->]. by rewrite take_app_length.
  - intros <-. apply prefix_take.
Qed.

(** [memcmp(a, b, n) == 0] and [strcmp(a, b) == 0] on these buffers. *)
Definition bytes_eqb (a b : bytes) : bool := bool_decide (a = b).

Lemma bytes_eqb_eq a b : bytes_eqb a b = true <-> a = b.
Proof. unfold bytes_eqb. apply bool_decide_eq_true. Qed.
Lemma bytes_eqb_neq a b : bytes_eqb a b = false <-> a <> b.
Proof. unfold bytes_eqb. apply bool_decide_eq_false. Qed.
