(* ===== verification/DynBuf.v ===== *)
(** * DynBuf: the interface of growable byte buffers, and buf.c

    buf.c (shared by the server, the KV store and the evaluator) and the private
    buffer of ds4_tool_compress.c grow differently but promise the same thing:
    an append that returns leaves the old bytes followed by the new ones.  The
    text builders are written and proved against this interface. *)

From S2P Require Import Prelude.

Class GrowBuf (B : Type) := {
  gb_empty : B;
  gb_holds : B -> bytes -> Prop;      (** the buffer holds exactly these bytes *)
  gb_len : B -> Z;                    (** the [len] field *)
  gb_bytes : B -> bytes;              (** the bytes up to [len] *)
  gb_append : B -> bytes -> option B  (** [None]: the allocation failed *)
}.

Class GrowBufLaws (B : Type) `{GrowBuf B} := {
  gb_holds_empty : gb_holds gb_empty [];
  gb_holds_append b s data b' :
    gb_holds b s -> gb_append b data = Some b' -> gb_holds b' (s ++ data);
  gb_holds_len b s : gb_holds b s -> gb_len b = zlen s;
  gb_holds_bytes b s : gb_holds b s -> gb_bytes b = s
}.

(** The allocator never fails: the buffer is its contents. *)
#[export] Instance GrowBuf_bytes : GrowBuf bytes := {
  gb_empty := [];
  gb_holds b s := b = s;
  gb_len := zlen;
  gb_bytes b := b;
  gb_append b data := Some (b ++ data)
}.

#[export] Instance GrowBufLaws_bytes : GrowBufLaws bytes.
Proof.
  split; cbn; [done | | by intros ?? -> | done].
  intros b s data b' -> E. by injection E.
Qed.

(** Append several pieces, stopping at the first failure. *)
Fixpoint gb_appends {B} `{GrowBuf B} (b : B) (pieces : list bytes) : option B :=
  match pieces with
  | [] => Some b
  | p :: ps => b' ← gb_append b p; gb_appends b' ps
  end.

Lemma gb_appends_holds {B} `{GrowBufLaws B} b s pieces b' :
  gb_holds b s -> gb_appends b pieces = Some b' -> gb_holds b' (s ++ concat pieces).
Proof.
  revert b s. induction pieces as [|p ps IH]; intros b s Hh E; cbn in E.
  - injection E as <-. by rewrite app_nil_r.
  - destruct (gb_append b p) as [b1|] eqn:E1; cbn in E; [|done].
    cbn [concat]; rewrite app_assoc. eapply IH; [|done]. by eapply gb_holds_append.
Qed.

(** * The shared growable byte buffer (buf.c, buf.h)

    The allocation behind [DynBuf.ptr] is a block of cells; a cell that the
    program has not written yet is [None] (indeterminate after [realloc]).
    [g_dynbuf_error] always ends in [exit(1)] in this program (the default
    handler and the handlers installed by ds4_kvstore.c, ds4_server.c and
    ds4_eval.c), so calling it is the [Fatal] outcome.  Whether the allocator
    returns memory is an argument of each operation. *)

Open Scope c_scope.

Abbreviation block := (list (option Z)).

Record DynBuf := mkDynBuf {
  db_ptr : option block;
  db_len : Z;
  db_cap : Z
}.

(** [DynBuf b = {0}]. *)
Definition dynbuf_zero : DynBuf := mkDynBuf None 0 0.

Definition msg_overflow : bytes := bs "buffer overflow".
Definition msg_oom : bytes := bs "out of memory".

(** [realloc(p, cap)]: the old cells are kept, the new ones indeterminate. *)
Definition c_realloc (p : option block) (cap : Z) : block :=
  let old := default [] p in
  take (Z.to_nat cap) old ++ replicate (Z.to_nat cap - length old) None.

(** [memcpy(p + at, data, n)] into a block. *)
Definition block_write (blk : block) (at_ : Z) (data : bytes) : block :=
  take (Z.to_nat at_) blk ++ (Some <$> data)
    ++ drop (Z.to_nat at_ + length data) blk.

(** The loop [while (cap < need) { if (cap > SIZE_MAX / 2) err(...); cap *= 2; }]. *)
Fixpoint dynbuf_grow (fuel : nat) (cap need : Z) : outcome Z :=
  if cap <? need then
    if SIZE_MAX / 2 <? cap then Fatal msg_overflow
    else match fuel with
         | O => NoFuel
         | S fuel' => dynbuf_grow fuel' (cap * 2) need
         end
  else Done cap.

Definition grow_fuel : nat := 64.

(** [mem cap]: the allocator can return [cap] bytes. *)
Definition dynbuf_reserve (mem : Z -> bool) (b : DynBuf) (add : Z) : outcome DynBuf :=
  if SIZE_MAX - db_len b - 1 <? add then Fatal msg_overflow
  else
    let need := db_len b + add + 1 in
    if need <=? db_cap b then Done b
    else
      do cap <- dynbuf_grow grow_fuel (if db_cap b =? 0 then 256 else db_cap b) need;
      if mem cap then Done (mkDynBuf (Some (c_realloc (db_ptr b) cap)) (db_len b) cap)
      else Fatal msg_oom.

(** Write [data] and the terminating NUL at the end of a reserved buffer. *)
Definition dynbuf_put (b : DynBuf) (data : bytes) : DynBuf :=
  let blk := default [] (db_ptr b) in
  let blk := block_write blk (db_len b) data in
  let len := db_len b + zlen data in
  mkDynBuf (Some (block_write blk len [0])) len (db_cap b).

Definition dynbuf_append (mem : Z -> bool) (b : DynBuf) (data : bytes) : outcome DynBuf :=
  do b <- dynbuf_reserve mem b (zlen data);
  Done (dynbuf_put b data).

Definition dynbuf_putc (mem : Z -> bool) (b : DynBuf) (c : Z) : outcome DynBuf :=
  dynbuf_append mem b [c].

(** [s] is a C string: what is appended are the bytes before its NUL. *)
Definition dynbuf_puts (mem : Z -> bool) (b : DynBuf) (s : bytes) : outcome DynBuf :=
  dynbuf_append mem b (cstr s).

(** [vsnprintf(dst, size, ...)] of the formatted text [s]: at most [size - 1]
    bytes and a NUL, nothing when [size] is 0. *)
Definition c_vsnprintf (blk : block) (at_ size : Z) (s : bytes) : block :=
  if size =? 0 then blk
  else block_write blk at_ (take (Z.to_nat (size - 1)) s ++ [0]).

(** [formatted] is what the conversion produces, [None] when [vsnprintf] returns
    a negative count. *)
Definition dynbuf_vprintf (mem : Z -> bool) (b : DynBuf) (formatted : option bytes)
  : outcome DynBuf :=
  match formatted with
  | None => Fatal (bs "vsnprintf failed")
  | Some s =>
      do b <- dynbuf_reserve mem b (zlen s);
      let blk := default [] (db_ptr b) in
      Done (mkDynBuf (Some (c_vsnprintf blk (db_len b) (db_cap b - db_len b) s))
                     (db_len b + zlen s) (db_cap b))
  end.

(** [kv_buf_take]/[buf_take]: hand the C string over and clear the buffer.  A
    buffer that was never allocated gives a fresh empty string. *)
Definition dynbuf_take (b : DynBuf) : block * DynBuf :=
  match db_ptr b with
  | None => ([Some 0], b)
  | Some p => (p, dynbuf_zero)
  end.

(** ** Representation *)

(** Capacities are 0 or 256 doubled some number of times. *)
Definition cap_shape (cap : Z) : Prop :=
  exists k : Z, 0 <= k <= 55 /\ cap = 256 * 2 ^ k.

(** [dynbuf_rep b s]: the buffer holds exactly the bytes [s]. *)
Definition dynbuf_rep (b : DynBuf) (s : bytes) : Prop :=
  db_len b = zlen s /\
  match db_ptr b with
  | None => db_cap b = 0 /\ s = []
  | Some blk =>
      zlen blk = db_cap b /\ cap_shape (db_cap b) /\ zlen s < db_cap b /\
      take (length s) blk = Some <$> s
  end.

(** The NUL that makes [ptr] a C string. *)
Definition dynbuf_terminated (b : DynBuf) : Prop :=
  match db_ptr b with
  | None => True
  | Some blk => blk !! Z.to_nat (db_len b) = Some (Some 0)
  end.

Lemma dynbuf_rep_zero : dynbuf_rep dynbuf_zero [].
Proof. by split. Qed.

Lemma cap_shape_bounds cap : cap_shape cap -> 256 <= cap <= 2 ^ 63.
Proof.
  intros (k & Hk & ->).
  pose proof (Z.pow_le_mono_r 2 0 k). pose proof (Z.pow_le_mono_r 2 k 55). lia.
Qed.

Lemma cap_shape_double cap :
  cap_shape cap -> cap <= SIZE_MAX / 2 -> cap_shape (cap * 2).
Proof.
  intros (k & Hk & ->) Hle. exists (k + 1).
  rewrite Z.pow_add_r by lia.
  destruct (decide (k = 55)) as [->|]; [|lia].
  exfalso. revert Hle. vm_compute. by intros [].
Qed.

(** The growth loop: it always terminates within the fuel, stops at the first
    capacity that fits, and gives up exactly beyond 2^63 bytes. *)
Lemma dynbuf_grow_spec fuel cap need :
  cap_shape cap -> cap * 2 ^ Z.of_nat fuel >= 2 ^ 63 ->
  (exists cap', dynbuf_grow fuel cap need = Done cap' /\ cap_shape cap' /\
     need <= cap' /\ cap <= cap' /\ (cap' = cap \/ cap' < 2 * need) /\ need <= 2 ^ 63)
  \/ (dynbuf_grow fuel cap need = Fatal msg_overflow /\ 2 ^ 63 < need).
Proof.
  revert cap. induction fuel as [|fuel IH]; intros cap Hs Hf;
    pose proof (cap_shape_bounds _ Hs) as Hb; cbn [dynbuf_grow];
    destruct (Z.ltb_spec cap need) as [Hlt|Hge];
    try (left; exists cap; split_and!; solve [done | lia | auto]);
    change (SIZE_MAX / 2) with (2 ^ 63 - 1);
    destruct (Z.ltb_spec (2 ^ 63 - 1) cap) as [Hmax|Hmax];
    try (right; split; [done | lia]).
  - exfalso. change (Z.of_nat 0) with 0 in Hf. lia.
  - rewrite Nat2Z.inj_succ, Z.pow_succ_r in Hf by lia.
    destruct (IH (cap * 2)) as [(c & E & Hc & Hn & Hge & Hmin & Hm)|[E Hn]].
    + apply cap_shape_double; [done|]. change (SIZE_MAX / 2) with (2 ^ 63 - 1). lia.
    + lia.
    + left. exists c. repeat split; auto; try lia.
    + right. by split.
Qed.

Lemma cap_shape_initial cap :
  (cap = 0 \/ cap_shape cap) -> cap_shape (if cap =? 0 then 256 else cap).
Proof.
  intros [-> | H].
  - exists 0. cbn. lia.
  - pose proof (cap_shape_bounds _ H). by destruct (Z.eqb_spec cap 0); [lia|].
Qed.

Lemma length_block_write blk at_ data :
  0 <= at_ -> at_ + zlen data <= zlen blk ->
  zlen (block_write blk at_ data) = zlen blk.
Proof. intros. unfold block_write. autorewrite with zlen. zlen_lia. Qed.

Lemma block_write_app blk s data :
  take (length s) blk = Some <$> s -> zlen s + zlen data <= zlen blk ->
  take (length (s ++ data)) (block_write blk (zlen s) data) = Some <$> (s ++ data).
Proof.
  intros Hs Hl. unfold block_write, zlen in *.
  rewrite Nat2Z.id, Hs, fmap_app, app_assoc.
  apply take_app_length'. by rewrite <- fmap_app, length_fmap.
Qed.

Lemma block_write_lookup blk at_ c :
  0 <= at_ < zlen blk -> block_write blk at_ [c] !! Z.to_nat at_ = Some (Some c).
Proof.
  intros H. unfold block_write, zlen in *.
  rewrite lookup_app_r; rewrite length_take; [|lia].
  replace (_ - _)%nat with 0%nat by lia. done.
Qed.

Lemma block_write_keep blk s c :
  take (length s) blk = Some <$> s -> zlen s < zlen blk ->
  take (length s) (block_write blk (zlen s) [c]) = Some <$> s.
Proof.
  intros Hs Hl. unfold block_write, zlen in *.
  rewrite Nat2Z.id, Hs. apply take_app_length'. by rewrite length_fmap.
Qed.

Lemma c_realloc_spec p cap s :
  zlen s <= cap -> zlen (default [] p) <= cap ->
  take (length s) (default [] p) = Some <$> s ->
  zlen (c_realloc p cap) = cap /\ take (length s) (c_realloc p cap) = Some <$> s.
Proof.
  intros Hs Hp Ht. unfold c_realloc. unfold zlen in *.
  rewrite take_ge by lia. split.
  - rewrite length_app, length_replicate. lia.
  - assert (length s <= length (default [] p))%nat.
    { apply (f_equal length) in Ht. rewrite length_take, length_fmap in Ht. lia. }
    by rewrite take_app_le.
Qed.

(** [dynbuf_reserve] keeps the contents and makes room, or exits. *)
Lemma dynbuf_reserve_spec mem b s add :
  dynbuf_rep b s -> 0 <= add ->
  (exists b', dynbuf_reserve mem b add = Done b' /\ dynbuf_rep b' s /\
     db_len b' + add + 1 <= db_cap b' /\ (exists blk, db_ptr b' = Some blk) /\
     (db_cap b' = db_cap b \/ db_cap b' < 2 * (zlen s + add + 1) \/ db_cap b' = 256))
  \/ (dynbuf_reserve mem b add = Fatal msg_overflow /\ 2 ^ 63 < zlen s + add + 1)
  \/ (dynbuf_reserve mem b add = Fatal msg_oom /\
      exists cap, mem cap = false /\ zlen s + add + 1 <= cap).
Proof.
  intros (Hlen & Hrep) Hadd. unfold dynbuf_reserve. rewrite Hlen.
  destruct (Z.ltb_spec (SIZE_MAX - zlen s - 1) add) as [Hov|Hov].
  { right; left. split; [done|]. change SIZE_MAX with (2 ^ 64 - 1) in Hov. lia. }
  destruct (Z.leb_spec (zlen s + add + 1) (db_cap b)) as [Hfit|Hfit].
  { left. exists b. destruct (db_ptr b) as [blk|] eqn:Hp; [|zlen_lia].
    split_and!; [done | by split; [|rewrite Hp] | lia | eauto | auto]. }
  assert (Hold : zlen (default [] (db_ptr b)) = db_cap b /\
                 take (length s) (default [] (db_ptr b)) = Some <$> s /\
                 (db_cap b = 0 \/ cap_shape (db_cap b))).
  { destruct (db_ptr b); cbn; [tauto|]. destruct Hrep as [-> ->]. by auto. }
  destruct Hold as (Hzl & Htk & Hsh).
  apply cap_shape_initial in Hsh. pose proof (cap_shape_bounds _ Hsh) as Hb.
  destruct (dynbuf_grow_spec grow_fuel _ (zlen s + add + 1) Hsh)
    as [(cap & -> & Hc & Hn & Hge & Hmin & _)|[-> Hn]]; cbn [obind].
  { unfold grow_fuel. lia. }
  2: { right; left. by split. }
  destruct (mem cap) eqn:Hmem; [|right; right; split; eauto].
  left. eexists. split; [done|].
  destruct (c_realloc_spec (db_ptr b) cap s) as [Hl1 Ht1]; [lia| | done |].
  { rewrite Hzl. destruct (Z.eqb_spec (db_cap b) 0); lia. }
  split_and!; cbn.
  - split; cbn; [done|]. split_and!; [done|done|lia|done].
  - lia.
  - eauto.
  - destruct (Z.eqb_spec (db_cap b) 0); lia.
Qed.

Lemma dynbuf_put_spec b s data blk :
  dynbuf_rep b s -> db_ptr b = Some blk -> zlen s + zlen data + 1 <= db_cap b ->
  dynbuf_rep (dynbuf_put b data) (s ++ data) /\ dynbuf_terminated (dynbuf_put b data).
Proof.
  intros (Hlen & Hrep) Hp Hfit. rewrite Hp in Hrep.
  destruct Hrep as (Hzl & Hsh & Hlt & Htk).
  unfold dynbuf_put, dynbuf_rep, dynbuf_terminated. rewrite Hp, Hlen. cbn.
  assert (Hw : zlen (block_write blk (zlen s) data) = zlen blk)
    by (apply length_block_write; zlen_lia).
  rewrite <- zlen_app. split; [split; [done|]|].
  - split_and!; [rewrite length_block_write; zlen_lia | done | zlen_lia |].
    apply block_write_keep; [apply block_write_app; [done|lia] | zlen_lia].
  - apply block_write_lookup. zlen_lia.
Qed.

(** ** Properties *)

(** [dynbuf_append] appends: on a buffer that holds [s], either it returns a
    NUL-terminated buffer that holds [s] followed by the data, within 2^63 bytes,
    or the program exits, with "buffer overflow" only when the result would pass
    2^63 bytes and with "out of memory" only when the allocator refused.  The
    growth loop always terminates. *)
Lemma dynbuf_append_correct mem b s data :
  dynbuf_rep b s ->
  match dynbuf_append mem b data with
  | Done b' => dynbuf_rep b' (s ++ data) /\ dynbuf_terminated b' /\
               db_cap b' <= Z.max (db_cap b) (Z.max 256 (2 * (zlen s + zlen data) + 1))
  | Fatal m => (m = msg_overflow /\ 2 ^ 63 < zlen s + zlen data + 1) \/
               (m = msg_oom /\ exists cap, mem cap = false /\ zlen s + zlen data + 1 <= cap)
  | NoFuel => False
  end.
Proof.
  intros Hrep. unfold dynbuf_append.
  destruct (dynbuf_reserve_spec mem b s (zlen data) Hrep (zlen_nonneg data))
    as [(b' & -> & Hr & Hfit & [blk Hp] & Hcap)|[[-> H]|[-> H]]]; cbn [obind]; eauto with ds4.
  destruct (dynbuf_put_spec b' s data blk Hr Hp) as [H1 H2].
  { destruct Hr as [<- _]. lia. }
  split_and!; [done|done|]. unfold dynbuf_put. cbn. zlen_lia.
Qed.

Lemma dynbuf_append_correct_witness :
  dynbuf_rep dynbuf_zero [] /\
  match dynbuf_append (fun _ => true) dynbuf_zero (bs "abc") with
  | Done b' => dynbuf_rep b' (bs "abc") /\ dynbuf_terminated b' /\
               db_cap b' <= Z.max 0 (Z.max 256 7)
  | _ => False
  end.
Proof.
  pose proof (dynbuf_append_correct (fun _ => true) dynbuf_zero [] (bs "abc") dynbuf_rep_zero) as H.
  split; [apply dynbuf_rep_zero|].
  destruct (dynbuf_append _ _ _); cbn in *; [exact H | | exact H].
  destruct H as [[_ H]|[_ (cap & H & _)]]; [|done].
  exfalso. vm_compute in H. done.
Defined.

Lemma block_write_app2 blk at_ a c :
  0 <= at_ -> at_ + zlen a + zlen c <= zlen blk ->
  block_write (block_write blk at_ a) (at_ + zlen a) c = block_write blk at_ (a ++ c).
Proof.
  intros H0 Hl. unfold block_write, zlen in *.
  replace (Z.to_nat (at_ + Z.of_nat (length a))) with (Z.to_nat at_ + length a)%nat by lia.
  rewrite fmap_app, length_app, <- !app_assoc.
  assert (Hp : length (take (Z.to_nat at_) blk ++ (Some <$> a)) = (Z.to_nat at_ + length a)%nat)
    by (rewrite length_app, length_take, length_fmap; lia).
  rewrite !(app_assoc (take _ _)), take_app_length' by done.
  rewrite drop_app_ge by lia. rewrite Hp, drop_drop, <- !app_assoc.
  do 4 f_equal. lia.
Qed.

(** [dynbuf_vprintf] of a conversion that produces the text [s] does exactly
    what [dynbuf_append] of [s] does: the size passed to the second [vsnprintf]
    never truncates, on a fresh buffer or on one that already holds text. *)
Theorem dynbuf_vprintf_append mem b s0 s :
  dynbuf_rep b s0 -> dynbuf_vprintf mem b (Some s) = dynbuf_append mem b s.
Proof.
  intros Hrep. unfold dynbuf_vprintf, dynbuf_append.
  destruct (dynbuf_reserve_spec mem b s0 (zlen s) Hrep (zlen_nonneg s))
    as [(b' & -> & (Hl & Hr) & Hfit & [blk Hp] & _)|[[-> _]|[-> _]]]; cbn [obind]; [|done..].
  rewrite Hp in Hr. destruct Hr as (Hz & Hsh & Hlt & _).
  unfold dynbuf_put, c_vsnprintf. rewrite Hp. cbn.
  destruct (Z.eqb_spec (db_cap b' - db_len b') 0); [zlen_lia|].
  rewrite take_ge by zlen_lia.
  rewrite block_write_app2; [done | zlen_lia | zlen_lia].
Qed.

Lemma dynbuf_vprintf_append_witness :
  dynbuf_rep dynbuf_zero [] /\
  dynbuf_vprintf (fun _ => true) dynbuf_zero (Some (bs "7 tokens"))
  = dynbuf_append (fun _ => true) dynbuf_zero (bs "7 tokens").
Proof. split; [apply dynbuf_rep_zero | by apply (dynbuf_vprintf_append _ _ [])]. Defined.

(** The shared buffer as a [GrowBuf]; a [Fatal] outcome never comes back. *)
Definition dynbuf_append_opt (b : DynBuf) (data : bytes) : option DynBuf :=
  match dynbuf_append (fun _ => true) b data with
  | Done b' => Some b'
  | _ => None
  end.

(** The first [n] cells of a block, as the bytes a reader gets. *)
Definition block_bytes (blk : option block) (n : Z) : bytes :=
  map (default 0) (take (Z.to_nat n) (default [] blk)).

Lemma block_bytes_holds blk s :
  take (length s) blk = Some <$> s -> block_bytes (Some blk) (zlen s) = s.
Proof.
  intros H. unfold block_bytes, zlen. rewrite Nat2Z.id. cbn [default from_option id]. rewrite H.
  induction s as [|x s IH]; [done|]. clear H. cbn. f_equal. clear IH.
  induction s as [|y s IH]; cbn; [done|]. by rewrite IH.
Qed.

#[export] Instance GrowBuf_DynBuf : GrowBuf DynBuf := {
  gb_empty := dynbuf_zero;
  gb_holds := dynbuf_rep;
  gb_len := db_len;
  gb_bytes b := block_bytes (db_ptr b) (db_len b);
  gb_append := dynbuf_append_opt
}.

#[export] Instance GrowBufLaws_DynBuf : GrowBufLaws DynBuf.
Proof.
  split.
  - apply dynbuf_rep_zero.
  - cbn. unfold dynbuf_append_opt. intros b s data b' Hrep E.
    unfold dynbuf_append in E.
    destruct (dynbuf_reserve_spec (fun _ => true) b s (zlen data) Hrep (zlen_nonneg data))
      as [(b1 & E1 & Hr & Hfit & [blk Hp] & _)|[[E1 _]|[E1 _]]];
      rewrite E1 in E; cbn in E; simplify_eq.
    destruct (dynbuf_put_spec b1 s data blk Hr Hp); [|done].
    destruct Hr as [<- _]. lia.
  - by intros b s [? _].
  - cbn. intros b s [Hl H]. rewrite Hl. destruct (db_ptr b) as [blk|].
    + apply block_bytes_holds, H.
    + destruct H as [_ ->]. done.
Qed.
