(* ===== verification/Sha.v ===== *)
(** * Sha: block hashing shared by the two digests of the program

    SHA-1 (ds4_kvstore.c) and SHA-256 (ds4_context_blob.c) both buffer their
    input in a 64-byte block and fold a compression function over the full
    blocks.  This file holds what does not depend on the compression function:
    the buffering invariant, the padding, the big-endian length and the hex
    spelling of a digest. *)

From S2P Require Import Prelude.

(** ** Big-endian words *)

(** [((uint32_t)p[0] << 24) | (p[1] << 16) | (p[2] << 8) | p[3]]. *)
Definition be_get32 (b0 b1 b2 b3 : Z) : Z :=
  Z.lor (Z.lor (Z.lor (u32 (Z.shiftl b0 24)) (u32 (Z.shiftl b1 16)))
               (u32 (Z.shiftl b2 8))) b3.

(** The [w[0..15]] words of a block. *)
Fixpoint be_words (n : nat) (block : bytes) : list Z :=
  match n, block with
  | S n', b0 :: b1 :: b2 :: b3 :: rest => be_get32 b0 b1 b2 b3 :: be_words n' rest
  | _, _ => []
  end.

(** [out[4j..4j+3] = h[j] >> 24, 16, 8, 0]. *)
Definition be_put32 (h : Z) : bytes :=
  [u8 (Z.shiftr h 24); u8 (Z.shiftr h 16); u8 (Z.shiftr h 8); u8 h].

Definition be_put64 (v : Z) : bytes :=
  map (fun i => u8 (Z.shiftr v (8 * i))) [7; 6; 5; 4; 3; 2; 1; 0].

(** ** Hex spelling of a digest *)

Definition hex_digit (n : Z) : Z := nth (Z.to_nat n) (bs "0123456789abcdef") 0.

Fixpoint hex (digest : bytes) : bytes :=
  match digest with
  | [] => []
  | b :: ds => hex_digit (Z.shiftr b 4) :: hex_digit (Z.land b 15) :: hex ds
  end.

(** The bytes spelled by pairs of lower-case hex digits. *)
Definition hex_value (c : Z) : Z := if c <=? ch "9" then c - ch "0" else c - ch "a" + 10.

Fixpoint unhex (s : bytes) : bytes :=
  match s with
  | a :: b :: s' => 16 * hex_value a + hex_value b :: unhex s'
  | _ => []
  end.

Definition is_lower_hex (c : Z) : bool :=
  ((ch "0" <=? c) && (c <=? ch "9")) || ((ch "a" <=? c) && (c <=? ch "f")).

Lemma hex_length d : zlen (hex d) = 2 * zlen d.
Proof. induction d; cbn [hex]; zlen_lia. Qed.

(** Facts about all nibbles and all bytes are checked by computation. *)
Lemma forall_below (n : nat) (P : Z -> bool) :
  forallb (fun i => P (Z.of_nat i)) (seq 0 n) = true ->
  forall x, 0 <= x < Z.of_nat n -> P x = true.
Proof.
  intros H x Hx. rewrite forallb_forall in H.
  rewrite <- (Z2Nat.id x) by lia. apply H, in_seq. lia.
Qed.

Lemma hex_digit_lower n : 0 <= n < 16 -> is_lower_hex (hex_digit n) = true.
Proof. by apply (forall_below 16 (fun n => is_lower_hex (hex_digit n))). Qed.

Lemma nibbles_range b : byte_ok b -> 0 <= Z.shiftr b 4 < 16 /\ 0 <= Z.land b 15 < 16.
Proof.
  unfold byte_ok. intros Hb. rewrite Z.shiftr_div_pow2 by lia.
  change 15 with (Z.ones 4). rewrite Z.land_ones by lia. zdiv_lia.
Qed.

Lemma nibbles_inj a b :
  byte_ok a -> byte_ok b -> Z.shiftr a 4 = Z.shiftr b 4 -> Z.land a 15 = Z.land b 15 -> a = b.
Proof.
  unfold byte_ok. rewrite !Z.shiftr_div_pow2 by lia.
  change 15 with (Z.ones 4). rewrite !Z.land_ones by lia. intros. zdiv_lia.
Qed.

Lemma hex_digit_inj m n : 0 <= m < 16 -> 0 <= n < 16 -> hex_digit m = hex_digit n -> m = n.
Proof.
  intros Hm Hn E.
  assert (H : forallb (fun i => forallb (fun j =>
     implb (hex_digit (Z.of_nat i) =? hex_digit (Z.of_nat j)) (Z.of_nat i =? Z.of_nat j))
     (seq 0 16)) (seq 0 16) = true) by (vm_compute; done).
  pose proof (forall_below 16 (fun i => forallb (fun j =>
     implb (hex_digit i =? hex_digit (Z.of_nat j)) (i =? Z.of_nat j)) (seq 0 16)) H m Hm) as H1.
  pose proof (forall_below 16 (fun j => implb (hex_digit m =? hex_digit j) (m =? j)) H1 n Hn) as H2.
  cbn beta in H2. rewrite E, Z.eqb_refl in H2. cbn in H2. by apply Z.eqb_eq.
Qed.

Lemma hex_lower d : bytes_ok d -> forallb is_lower_hex (hex d) = true.
Proof.
  induction 1 as [|b d Hb _ IH]; cbn [hex forallb]; [done|].
  destruct (nibbles_range b Hb). by rewrite !hex_digit_lower, IH.
Qed.

Lemma hex_inj d1 d2 : bytes_ok d1 -> bytes_ok d2 -> hex d1 = hex d2 -> d1 = d2.
Proof.
  intros H1. revert d2. induction H1 as [|a d1 Ha _ IH]; intros [|b d2] H2 E; try done.
  apply Forall_cons_iff in H2 as [Hb H2]. cbn [hex] in E. injection E as Eh El E.
  destruct (nibbles_range a Ha), (nibbles_range b Hb).
  apply hex_digit_inj in Eh; [|done..]. apply hex_digit_inj in El; [|done..].
  f_equal; [by apply nibbles_inj | by apply IH].
Qed.

Lemma be_put32_ok h : bytes_ok (be_put32 h).
Proof. unfold be_put32. repeat constructor; apply u8_range. Qed.

Lemma be_put64_length v : zlen (be_put64 v) = 8.
Proof. done. Qed.

(** ** Folding a compression function over the full blocks *)

Section merkle.
Context {St : Type} (compress : St -> bytes -> St).

(** Compress every full 64-byte block of [m]; a shorter tail is left alone. *)
Fixpoint md_blocks_fuel (fuel : nat) (h : St) (m : bytes) : St :=
  match fuel with
  | O => h
  | S fuel' =>
      if (length m <? 64)%nat then h
      else md_blocks_fuel fuel' (compress h (take 64 m)) (drop 64 m)
  end.

Definition md_blocks (h : St) (m : bytes) : St := md_blocks_fuel (length m) h m.

Lemma md_blocks_fuel_enough f1 f2 h m :
  (length m <= f1)%nat -> (length m <= f2)%nat ->
  md_blocks_fuel f1 h m = md_blocks_fuel f2 h m.
Proof.
  revert f2 h m. induction f1 as [|f1 IH]; intros [|f2] h m H1 H2; [done|..].
  - destruct m; [done | cbn in H1; lia].
  - destruct m; [done | cbn in H2; lia].
  - cbn [md_blocks_fuel]. destruct (Nat.ltb_spec (length m) 64); [done|].
    apply IH; rewrite length_drop; lia.
Qed.

Lemma md_blocks_unfold h m :
  md_blocks h m =
  if (length m <? 64)%nat then h else md_blocks (compress h (take 64 m)) (drop 64 m).
Proof.
  unfold md_blocks at 1. destruct m as [|x m]; [done|].
  cbn [length md_blocks_fuel]. destruct (Nat.ltb_spec (S (length m)) 64); [done|].
  unfold md_blocks. apply md_blocks_fuel_enough; rewrite length_drop; cbn [length]; lia.
Qed.

(** A whole number of blocks in front can be folded first. *)
Lemma md_blocks_app k h a b :
  length a = (64 * k)%nat -> md_blocks h (a ++ b) = md_blocks (md_blocks h a) b.
Proof.
  revert h a. induction k as [|k IH]; intros h a Ha.
  - destruct a; [done | cbn in Ha; lia].
  - rewrite (md_blocks_unfold h (a ++ b)), (md_blocks_unfold h a), length_app.
    destruct (Nat.ltb_spec (length a + length b) 64); [lia|].
    destruct (Nat.ltb_spec (length a) 64); [lia|].
    rewrite take_app_le, drop_app_le by lia.
    apply IH. rewrite length_drop. lia.
Qed.

Lemma md_blocks_one h a : length a = 64%nat -> md_blocks h a = compress h a.
Proof.
  intros Ha. rewrite md_blocks_unfold. destruct (Nat.ltb_spec (length a) 64); [lia|].
  rewrite take_ge, drop_ge by lia. by rewrite md_blocks_unfold.
Qed.

Lemma md_blocks_short h a : (length a < 64)%nat -> md_blocks h a = h.
Proof.
  intros. rewrite md_blocks_unfold. by destruct (Nat.ltb_spec (length a) 64); [|lia].
Qed.

(** The state [(h, block, used)] has absorbed the message [m]. *)
Definition md_inv (h0 : St) (h : St) (block : bytes) (used : nat) (m : bytes) : Prop :=
  (used < 64)%nat /\ length block = 64%nat /\
  exists full, m = full ++ take used block /\ (exists k, length full = (64 * k)%nat) /\
               h = md_blocks h0 full.

Lemma md_inv_init h0 block : length block = 64%nat -> md_inv h0 h0 block 0 [].
Proof.
  intros Hb. split; [lia|]. split; [done|]. exists []. split_and!; [done| by exists 0%nat |].
  by rewrite md_blocks_short by (cbn; lia).
Qed.

(** [memcpy(block + used, p, n)] *)
Definition blk_set (block : bytes) (used : nat) (p : bytes) : bytes :=
  take used block ++ p ++ drop (used + length p) block.

Lemma blk_set_length block used p :
  length block = 64%nat -> (used + length p <= 64)%nat -> length (blk_set block used p) = 64%nat.
Proof. intros. unfold blk_set. rewrite !length_app, length_take, length_drop. lia. Qed.

Lemma blk_set_take block used p :
  (used <= length block)%nat ->
  take (used + length p) (blk_set block used p) = take used block ++ p.
Proof.
  intros. unfold blk_set. rewrite app_assoc. apply take_app_length'.
  rewrite length_app, length_take. lia.
Qed.

(** Absorbing [p], at most up to the end of the block, compressing a full one. *)
Lemma md_inv_absorb h0 h block used m p :
  md_inv h0 h block used m -> (used + length p <= 64)%nat ->
  let block' := blk_set block used p in
  let used' := (used + length p)%nat in
  if (used' =? 64)%nat
  then md_inv h0 (compress h block') block' 0 (m ++ p)
  else md_inv h0 h block' used' (m ++ p).
Proof.
  intros (Hu & Hb & full & -> & [k Hk] & ->) Hp block' used'.
  assert (Hl : length block' = 64%nat) by (by apply blk_set_length).
  assert (Ht : take used' block' = take used block ++ p) by (apply blk_set_take; lia).
  destruct (Nat.eqb_spec used' 64) as [E|E].
  - split_and!; [lia|done|]. exists (full ++ block'). rewrite app_nil_r, <- app_assoc.
    rewrite E, take_ge in Ht by lia. rewrite <- Ht.
    split_and!; [done| exists (S k); rewrite length_app; lia |].
    rewrite (md_blocks_app k h0 full) by done. symmetry. by apply md_blocks_one.
  - split_and!; [lia|done|]. exists full. rewrite Ht, app_assoc.
    split_and!; [done | by exists k | done].
Qed.

(** A message that ends on a block boundary is folded completely. *)
Lemma md_inv_aligned h0 h block m : md_inv h0 h block 0 m -> h = md_blocks h0 m.
Proof. intros (_ & _ & full & -> & _ & ->). by rewrite app_nil_r. Qed.

Lemma md_inv_used h0 h block used m : md_inv h0 h block used m -> Z.of_nat used = zlen m mod 64.
Proof.
  intros (Hu & Hb & full & -> & [k Hk] & _). unfold zlen.
  rewrite length_app, length_take, Hk. zdiv_lia.
Qed.

End merkle.

(** The 64-byte-block padding of a message of [n] bytes: a 1 bit, zeros up to 56
    modulo 64, and the bit count as a big-endian 64-bit word. *)
Definition md_pad (n : Z) : bytes :=
  0x80 :: replicate (Z.to_nat ((55 - n) mod 64)) 0 ++ be_put64 (u64 (8 * n)).

Lemma md_pad_aligned n : 0 <= n -> (n + zlen (md_pad n)) mod 64 = 0.
Proof.
  intros Hn. unfold md_pad. autorewrite with zlen. rewrite be_put64_length. zdiv_lia.
Qed.

(** The digest both programs are meant to compute. *)
Definition md_digest {St} (compress : St -> bytes -> St) (words : St -> list Z)
    (h0 : St) (m : bytes) : bytes :=
  concat (map be_put32 (words (md_blocks compress h0 (m ++ md_pad (zlen m))))).

Lemma md_digest_ok {St} (compress : St -> bytes -> St) words h0 m :
  bytes_ok (md_digest compress words h0 m).
Proof.
  unfold md_digest. induction (words _); cbn [map concat]; [constructor|].
  apply Forall_app. split; [apply be_put32_ok | done].
Qed.

(** * The digest that names KV checkpoint files (ds4_kvstore.c)

    [sha1_ctx], the compression function, the streaming interface and the hex
    spelling; the file name of a checkpoint is the SHA-1 of its rendered text. *)

Record sha1_state := mkSha1State { sa : Z; sb : Z; sc : Z; sd : Z; se : Z }.

Record sha1_ctx := mkSha1Ctx {
  s1_h : sha1_state;
  s1_bytes : Z;
  s1_block : bytes;
  s1_used : nat
}.

Definition rol32 (v n : Z) : Z := Z.lor (u32 (Z.shiftl v n)) (Z.shiftr v (32 - n)).

(** [~v] on a [uint32_t]. *)
Definition not32 (v : Z) : Z := Z.lxor v UINT32_MAX.

(** The loop that fills [w[16..79]]. *)
Fixpoint sha1_expand (n : nat) (w : list Z) : list Z :=
  match n with
  | O => w
  | S n' =>
      let i := length w in
      let at_ k := nth (i - k) w 0 in
      sha1_expand n'
        (w ++ [rol32 (Z.lxor (Z.lxor (Z.lxor (at_ 3%nat) (at_ 8%nat)) (at_ 14%nat)) (at_ 16%nat)) 1])
  end.

Definition sha1_schedule (block : bytes) : list Z := sha1_expand 64 (be_words 16 block).

(** The round function and constant of round [i]. *)
Definition sha1_fk (i : nat) (s : sha1_state) : Z * Z :=
  let '(mkSha1State _ b cc d _) := s in
  if (i <? 20)%nat then (Z.lor (Z.land b cc) (Z.land (not32 b) d), 0x5a827999)
  else if (i <? 40)%nat then (Z.lxor (Z.lxor b cc) d, 0x6ed9eba1)
  else if (i <? 60)%nat then
    (Z.lor (Z.lor (Z.land b cc) (Z.land b d)) (Z.land cc d), 0x8f1bbcdc)
  else (Z.lxor (Z.lxor b cc) d, 0xca62c1d6).

Definition sha1_round (s : sha1_state) (iw : nat * Z) : sha1_state :=
  let '(i, w) := iw in
  let '(f, k) := sha1_fk i s in
  let '(mkSha1State a b cc d e) := s in
  let tmp := u32 (rol32 a 5 + f + e + k + w) in
  mkSha1State tmp a (rol32 b 30) cc d.

Definition sha1_transform (h : sha1_state) (block : bytes) : sha1_state :=
  let s := fold_left sha1_round (combine (seq 0 80) (sha1_schedule block)) h in
  mkSha1State (u32 (sa h + sa s)) (u32 (sb h + sb s)) (u32 (sc h + sc s))
              (u32 (sd h + sd s)) (u32 (se h + se s)).

Definition sha1_h0 : sha1_state :=
  mkSha1State 0x67452301 0xefcdab89 0x98badcfe 0x10325476 0xc3d2e1f0.

(** [block] is an uninitialised array; any 64 bytes may be there. *)
Definition sha1_init (block : bytes) : sha1_ctx := mkSha1Ctx sha1_h0 0 block 0.

(** One pass of the [while (len != 0)] loop of [sha1_update] per fuel unit. *)
Fixpoint sha1_update_loop (fuel : nat) (c : sha1_ctx) (p : bytes) : sha1_ctx :=
  match fuel with
  | O => c
  | S fuel' =>
      match p with
      | [] => c
      | _ =>
          let n := Nat.min (64 - s1_used c) (length p) in
          let block := blk_set (s1_block c) (s1_used c) (take n p) in
          let used := (s1_used c + n)%nat in
          let c' :=
            if (used =? 64)%nat
            then mkSha1Ctx (sha1_transform (s1_h c) block) (s1_bytes c) block 0
            else mkSha1Ctx (s1_h c) (s1_bytes c) block used in
          sha1_update_loop fuel' c' (drop n p)
      end
  end.

Definition sha1_update (c : sha1_ctx) (p : bytes) : sha1_ctx :=
  let c := mkSha1Ctx (s1_h c) (u64 (s1_bytes c + zlen p)) (s1_block c) (s1_used c) in
  sha1_update_loop (length p) c p.

(** [while (c->used != 56) sha1_update(c, &zero, 1);] *)
Fixpoint sha1_pad_zeros (fuel : nat) (c : sha1_ctx) : outcome sha1_ctx :=
  if (s1_used c =? 56)%nat then Done c
  else match fuel with
       | O => NoFuel
       | S fuel' => sha1_pad_zeros fuel' (sha1_update c [0])
       end.

Definition sha1_words (h : sha1_state) : list Z := [sa h; sb h; sc h; sd h; se h].

Definition sha1_final (c : sha1_ctx) : outcome bytes :=
  let bits := u64 (s1_bytes c * 8) in
  let c := sha1_update c [0x80] in
  obind (sha1_pad_zeros 64 c) (fun c =>
  let c := sha1_update c (be_put64 bits) in
  Done (concat (map be_put32 (sha1_words (s1_h c))))).

Definition hex20 (digest : bytes) : bytes := hex digest.

(** [block] is the uninitialised [sha1_ctx c] of the caller's frame. *)
Definition ds4_kvstore_sha1_bytes_hex (block : bytes) (p : bytes) : outcome bytes :=
  obind (sha1_final (sha1_update (sha1_init block) p)) (fun digest => Done (hex20 digest)).

(** ** The digest it computes *)

Definition sha1_digest : bytes -> bytes := md_digest sha1_transform sha1_words sha1_h0.

(** The 40-character key of a text: what the rest of the store relies on. *)
Definition sha1_hex (p : bytes) : bytes := hex20 (sha1_digest p).

Definition sha1_inv (c : sha1_ctx) (m : bytes) : Prop :=
  md_inv sha1_transform sha1_h0 (s1_h c) (s1_block c) (s1_used c) m /\
  s1_bytes c = u64 (zlen m).

#[local] Opaque sha1_transform.

Lemma sha1_init_inv block : length block = 64%nat -> sha1_inv (sha1_init block) [].
Proof. intros. split; [by apply md_inv_init | done]. Qed.

Lemma sha1_update_loop_inv fuel c m p :
  md_inv sha1_transform sha1_h0 (s1_h c) (s1_block c) (s1_used c) m ->
  (length p <= fuel)%nat ->
  let c' := sha1_update_loop fuel c p in
  md_inv sha1_transform sha1_h0 (s1_h c') (s1_block c') (s1_used c') (m ++ p) /\
  s1_bytes c' = s1_bytes c.
Proof.
  revert c m p. induction fuel as [|fuel IH]; intros c m p Hi Hf.
  - destruct p; [|cbn in Hf; lia]. by rewrite app_nil_r.
  - destruct p as [|x p]; [by rewrite app_nil_r|].
    cbn [sha1_update_loop]. set (q := x :: p) in *.
    set (n := Nat.min (64 - s1_used c) (length q)).
    assert (Hn : (1 <= n <= length q)%nat) by (destruct Hi; subst n q; cbn [length]; lia).
    assert (Ht : length (take n q) = n) by (rewrite length_take; lia).
    pose proof (md_inv_absorb sha1_transform _ _ _ _ _ (take n q) Hi ltac:(lia)) as Hs.
    cbv zeta in Hs. rewrite Ht in Hs.
    assert (Eq : m ++ q = (m ++ take n q) ++ drop n q)
      by (by rewrite <- app_assoc, take_drop).
    rewrite Eq.
    assert (Hd : (length (drop n q) <= fuel)%nat) by (rewrite length_drop; lia).
    destruct (_ =? 64)%nat;
      match goal with |- context [sha1_update_loop fuel ?c1 _] =>
        exact (IH c1 (m ++ take n q) (drop n q) Hs Hd) end.
Qed.

(** Updating absorbs the bytes, whatever is already buffered. *)
Lemma sha1_update_inv c m p : sha1_inv c m -> sha1_inv (sha1_update c p) (m ++ p).
Proof.
  intros [Hi Hb]. unfold sha1_update.
  match goal with |- context [sha1_update_loop _ ?c1 _] =>
    destruct (sha1_update_loop_inv (length p) c1 m p) as [H1 H2] end; [done|lia|].
  split; [done|]. rewrite H2. cbn. rewrite Hb, zlen_app. unfold u64. by rewrite wrap_add_l.
Qed.

Lemma sha1_inv_used c m : sha1_inv c m -> Z.of_nat (s1_used c) = zlen m mod 64.
Proof. intros [H _]. by eapply md_inv_used. Qed.

(** The padding loop stops after [(56 - used) mod 64] zero bytes. *)
Lemma sha1_pad_zeros_inv fuel c m :
  sha1_inv c m -> (Z.to_nat ((56 - zlen m) mod 64) <= fuel)%nat ->
  exists c', sha1_pad_zeros fuel c = Done c' /\
    sha1_inv c' (m ++ replicate (Z.to_nat ((56 - zlen m) mod 64)) 0).
Proof.
  revert c m. induction fuel as [|fuel IH]; intros c m Hi Hf;
    pose proof (sha1_inv_used _ _ Hi) as Hu; cbn [sha1_pad_zeros];
    destruct (Nat.eqb_spec (s1_used c) 56) as [E|E].
  1, 3: exists c; split; [done|];
    (replace (Z.to_nat ((56 - zlen m) mod 64)) with 0%nat by zdiv_lia); by rewrite app_nil_r.
  - exfalso. zdiv_lia.
  - pose proof (sha1_update_inv c m [0] Hi) as Hi'.
    assert (En : Z.to_nat ((56 - zlen m) mod 64)
                 = S (Z.to_nat ((56 - zlen (m ++ [0%Z])) mod 64)))
      by (rewrite zlen_app; change (zlen [0]) with 1; zdiv_lia).
    rewrite En in *. destruct (IH _ _ Hi') as (c' & -> & H); [lia|].
    exists c'. split; [done|]. by rewrite <- app_assoc in H.
Qed.

Lemma sha1_final_spec c m :
  sha1_inv c m -> sha1_final c = Done (sha1_digest m).
Proof.
  intros Hi. unfold sha1_final.
  destruct (sha1_pad_zeros_inv 64 (sha1_update c [0x80]) (m ++ [0x80])) as (c1 & -> & H1).
  { by apply sha1_update_inv. } { zdiv_lia. }
  cbn [obind]. f_equal. unfold sha1_digest, md_digest. do 3 f_equal.
  set (bits := u64 (s1_bytes c * 8)).
  pose proof (sha1_update_inv _ _ (be_put64 bits) H1) as H2.
  assert (Hb : bits = u64 (8 * zlen m)).
  { subst bits. destruct Hi as [_ ->]. unfold u64, wrap.
    rewrite Zmult_mod_idemp_l. f_equal. lia. }
  assert (Em : (((m ++ [0x80]) ++ replicate (Z.to_nat ((56 - zlen (m ++ [0x80])) mod 64)) 0)
                ++ be_put64 bits) = m ++ md_pad (zlen m)).
  { unfold md_pad. rewrite Hb, <- !app_assoc. cbn [app]. do 3 f_equal.
    rewrite zlen_app. change (zlen [0x80]) with 1. f_equal. f_equal. f_equal. lia. }
  rewrite Em in H2. pose proof (sha1_inv_used _ _ H2) as Hu.
  rewrite zlen_app, md_pad_aligned in Hu by apply zlen_nonneg.
  destruct H2 as [H2 _]. replace (s1_used _) with 0%nat in H2 by lia.
  by apply md_inv_aligned in H2.
Qed.

Lemma sha1_hex_total block p :
  length block = 64%nat -> ds4_kvstore_sha1_bytes_hex block p = Done (sha1_hex p).
Proof.
  intros Hb. unfold ds4_kvstore_sha1_bytes_hex.
  rewrite (sha1_final_spec _ p); [done|].
  apply (sha1_update_inv _ [] p), sha1_init_inv, Hb.
Qed.

Lemma sha1_hex_shape p :
  zlen (sha1_hex p) = 40 /\ forallb is_lower_hex (sha1_hex p) = true /\ no_nul (sha1_hex p).
Proof.
  assert (Hlow : forallb is_lower_hex (sha1_hex p) = true)
    by (apply hex_lower, md_digest_ok).
  split_and!; [ unfold sha1_hex, hex20; rewrite hex_length; done | done |].
  rewrite forallb_forall in Hlow. apply List.Forall_forall. intros c Hc ->.
  by apply Hlow in Hc.
Qed.

(** ** Properties *)

(** Hashing in pieces: feeding the pieces one by one through [sha1_update],
    with any split and any garbage in the uninitialised block buffer, and then
    [sha1_final], ends (the padding loop terminates) with the SHA-1 of the
    concatenation: pad to a 64-byte boundary with the big-endian bit count,
    compress every block, print the state big-endian. *)
Lemma sha1_streaming_correct block pieces :
  length block = 64%nat ->
  sha1_final (fold_left sha1_update pieces (sha1_init block))
  = Done (sha1_digest (concat pieces)).
Proof.
  intros Hb. apply sha1_final_spec.
  assert (H : forall c m, sha1_inv c m ->
    sha1_inv (fold_left sha1_update pieces c) (m ++ concat pieces)).
  { induction pieces as [|p ps IH]; intros c m Hi; cbn.
    - by rewrite app_nil_r.
    - rewrite app_assoc. by apply IH, sha1_update_inv. }
  apply (H _ []), sha1_init_inv, Hb.
Qed.

Lemma sha1_streaming_correct_witness :
  length (replicate 64 170) = 64%nat /\
  sha1_final (fold_left sha1_update [bs "a"; bs "bc"] (sha1_init (replicate 64 170)))
  = Done (sha1_digest (concat [bs "a"; bs "bc"])).
Proof. split; [done | by apply sha1_streaming_correct]. Defined.

(** FIPS 180 vectors, also checked by tests of the repository. *)
Example sha1_abc :
  sha1_hex (bs "abc") = bs "a9993e364706816aba3e25717850c26c9cd0d89d".
Proof. vm_compute. reflexivity. Qed.

Example sha1_two_blocks :
  sha1_hex (bs "abcdbcdecdefdefgefghfghighijhijkijkljklmklmnlmnomnopnopq")
  = bs "84983e441c3bd26ebaae4aa1f95129e5e54670f1".
Proof. vm_compute. reflexivity. Qed.

(** * The digest of the content-addressed blobs (ds4_context_blob.c)

    The streaming context, the compression function, and [ds4_sha256_final],
    which writes the padding into the block buffer by hand. *)

Record sha256_state := mkSha256State {
  ha : Z; hb : Z; hc : Z; hd : Z; he : Z; hf : Z; hg : Z; hh : Z
}.

Record ds4_sha256_ctx := mkSha256Ctx {
  s2_h : sha256_state;
  s2_block : bytes;
  s2_bit_len : Z;
  s2_block_len : nat
}.

Definition ds4_sha256_rotr (x n : Z) : Z :=
  Z.lor (Z.shiftr x n) (u32 (Z.shiftl x (32 - n))).

(** The 64 round constants, eight to a row, as the big-endian words of these
    digits. *)
Definition ds4_sha256_k : list Z := Eval cbv in
  be_words 64 (unhex (concat (map bs [
    "428a2f9871374491b5c0fbcfe9b5dba53956c25b59f111f1923f82a4ab1c5ed5";
    "d807aa9812835b01243185be550c7dc372be5d7480deb1fe9bdc06a7c19bf174";
    "e49b69c1efbe47860fc19dc6240ca1cc2de92c6f4a7484aa5cb0a9dc76f988da";
    "983e5152a831c66db00327c8bf597fc7c6e00bf3d5a7914706ca635114292967";
    "27b70a852e1b21384d2c6dfc53380d13650a7354766a0abb81c2c92e92722c85";
    "a2bfe8a1a81a664bc24b8b70c76c51a3d192e819d6990624f40e3585106aa070";
    "19a4c1161e376c082748774c34b0bcb5391c0cb34ed8aa4a5b9cca4f682e6ff3";
    "748f82ee78a5636f84c878148cc7020890befffaa4506cebbef9a3f7c67178f2"]%string))).

Definition xor3 (a b c : Z) : Z := Z.lxor (Z.lxor a b) c.

(** The loop that fills [w[16..63]]. *)
Fixpoint sha256_expand (n : nat) (w : list Z) : list Z :=
  match n with
  | O => w
  | S n' =>
      let i := length w in
      let at_ k := nth (i - k) w 0 in
      let s0 := xor3 (ds4_sha256_rotr (at_ 15%nat) 7) (ds4_sha256_rotr (at_ 15%nat) 18)
                     (Z.shiftr (at_ 15%nat) 3) in
      let s1 := xor3 (ds4_sha256_rotr (at_ 2%nat) 17) (ds4_sha256_rotr (at_ 2%nat) 19)
                     (Z.shiftr (at_ 2%nat) 10) in
      sha256_expand n' (w ++ [u32 (at_ 16%nat + s0 + at_ 7%nat + s1)])
  end.

Definition sha256_round (s : sha256_state) (kw : Z * Z) : sha256_state :=
  let '(k, w) := kw in
  let '(mkSha256State a b c d e f g h) := s in
  let s1 := xor3 (ds4_sha256_rotr e 6) (ds4_sha256_rotr e 11) (ds4_sha256_rotr e 25) in
  let ch_ := Z.lxor (Z.land e f) (Z.land (Z.lxor e UINT32_MAX) g) in
  let temp1 := u32 (h + s1 + ch_ + k + w) in
  let s0 := xor3 (ds4_sha256_rotr a 2) (ds4_sha256_rotr a 13) (ds4_sha256_rotr a 22) in
  let maj := xor3 (Z.land a b) (Z.land a c) (Z.land b c) in
  let temp2 := u32 (s0 + maj) in
  mkSha256State (u32 (temp1 + temp2)) a b c (u32 (d + temp1)) e f g.

Definition ds4_sha256_transform (h : sha256_state) (block : bytes) : sha256_state :=
  let w := sha256_expand 48 (be_words 16 block) in
  let s := fold_left sha256_round (combine ds4_sha256_k w) h in
  mkSha256State (u32 (ha h + ha s)) (u32 (hb h + hb s)) (u32 (hc h + hc s)) (u32 (hd h + hd s))
                (u32 (he h + he s)) (u32 (hf h + hf s)) (u32 (hg h + hg s)) (u32 (hh h + hh s)).

Definition sha256_h0 : sha256_state :=
  mkSha256State 0x6a09e667 0xbb67ae85 0x3c6ef372 0xa54ff53a
                0x510e527f 0x9b05688c 0x1f83d9ab 0x5be0cd19.

Definition ds4_sha256_init (block : bytes) : ds4_sha256_ctx :=
  mkSha256Ctx sha256_h0 block 0 0.

(** The body of the [for] loop of [ds4_sha256_update]: one input byte. *)
Definition sha256_byte (ctx : ds4_sha256_ctx) (x : Z) : ds4_sha256_ctx :=
  let block := blk_set (s2_block ctx) (s2_block_len ctx) [x] in
  let len := S (s2_block_len ctx) in
  if (len =? 64)%nat
  then mkSha256Ctx (ds4_sha256_transform (s2_h ctx) block) block
                   (u64 (s2_bit_len ctx + 512)) 0
  else mkSha256Ctx (s2_h ctx) block (s2_bit_len ctx) len.

Definition ds4_sha256_update (ctx : ds4_sha256_ctx) (data : bytes) : ds4_sha256_ctx :=
  fold_left sha256_byte data ctx.

Definition sha256_words (h : sha256_state) : list Z :=
  [ha h; hb h; hc h; hd h; he h; hf h; hg h; hh h].

Definition ds4_sha256_final (ctx : ds4_sha256_ctx) : bytes :=
  let i := s2_block_len ctx in
  let block := blk_set (s2_block ctx) i [0x80] in
  let i := S i in
  (* if (i > 56) { while (i < 64) block[i++] = 0; transform; i = 0; } *)
  let '(h, block, i) :=
    if (56 <? i)%nat then
      let block := blk_set block i (replicate (64 - i) 0) in
      (ds4_sha256_transform (s2_h ctx) block, block, 0%nat)
    else (s2_h ctx, block, i) in
  let block := blk_set block i (replicate (56 - i) 0) in
  let bit_len := u64 (s2_bit_len ctx + u64 (Z.of_nat (s2_block_len ctx) * 8)) in
  let block := blk_set block 56 (be_put64 bit_len) in
  let h := ds4_sha256_transform h block in
  concat (map be_put32 (sha256_words h)).

(** [block] is the uninitialised context of the frame. *)
Definition ds4_sha256_hex (block : bytes) (data : bytes) : bytes :=
  hex (ds4_sha256_final (ds4_sha256_update (ds4_sha256_init block) data)).

Definition sha256_digest : bytes -> bytes := md_digest ds4_sha256_transform sha256_words sha256_h0.

Definition sha256_hex (data : bytes) : bytes := hex (sha256_digest data).

#[local] Opaque ds4_sha256_transform.

Definition sha256_inv (c : ds4_sha256_ctx) (m : bytes) : Prop :=
  md_inv ds4_sha256_transform sha256_h0 (s2_h c) (s2_block c) (s2_block_len c) m /\
  s2_bit_len c = u64 (512 * (zlen m / 64)).

Lemma sha256_byte_inv c m x : sha256_inv c m -> sha256_inv (sha256_byte c x) (m ++ [x]).
Proof.
  intros [Hi Hb]. pose proof (md_inv_used _ _ _ _ _ _ Hi) as Hu.
  pose proof (md_inv_absorb ds4_sha256_transform _ _ _ _ _ [x] Hi) as Hs.
  pose proof Hi as (Hlt & _). cbn [length] in Hs. rewrite Nat.add_1_r in Hs.
  specialize (Hs ltac:(lia)). unfold sha256_byte, sha256_inv. cbv zeta in Hs.
  rewrite zlen_app. change (zlen [x]) with 1.
  destruct (Nat.eqb_spec (S (s2_block_len c)) 64) as [E|E]; split; try exact Hs;
    cbn [s2_bit_len]; rewrite Hb.
  - unfold u64. rewrite wrap_add_l. f_equal. zdiv_lia.
  - f_equal. zdiv_lia.
Qed.

Lemma sha256_update_inv c m data :
  sha256_inv c m -> sha256_inv (ds4_sha256_update c data) (m ++ data).
Proof.
  unfold ds4_sha256_update. revert c m.
  induction data as [|x data IH]; intros c m Hi; cbn [fold_left].
  - by rewrite app_nil_r.
  - rewrite cons_middle, app_assoc. by apply IH, sha256_byte_inv.
Qed.

Lemma sha256_init_inv block : length block = 64%nat -> sha256_inv (ds4_sha256_init block) [].
Proof. intros. split; [by apply md_inv_init | done]. Qed.

(** [md_inv_absorb] when the piece fills the block exactly. *)
Lemma md_inv_fill {St} (f : St -> bytes -> St) h0 h block used m p :
  md_inv f h0 h block used m -> (used + length p = 64)%nat ->
  md_inv f h0 (f h (blk_set block used p)) (blk_set block used p) 0 (m ++ p).
Proof.
  intros Hi Hp. pose proof (md_inv_absorb f _ _ _ _ _ p Hi ltac:(lia)) as H.
  cbv zeta in H. by rewrite Hp in H.
Qed.

Lemma md_inv_part {St} (f : St -> bytes -> St) h0 h block used m p :
  md_inv f h0 h block used m -> (used + length p < 64)%nat ->
  md_inv f h0 h (blk_set block used p) (used + length p) (m ++ p).
Proof.
  intros Hi Hp. pose proof (md_inv_absorb f _ _ _ _ _ p Hi ltac:(lia)) as H.
  cbv zeta in H. by destruct (Nat.eqb_spec (used + length p) 64); [lia|].
Qed.

(** The first branch of [ds4_sha256_final]: no room for the length, so the block
    is filled with zeros and compressed. *)
Lemma sha256_pad_spill h block used m :
  md_inv ds4_sha256_transform sha256_h0 h block used m -> (56 < S used)%nat ->
  let block1 := blk_set (blk_set block used [0x80]) (S used) (replicate (64 - S used) 0) in
  md_inv ds4_sha256_transform sha256_h0 (ds4_sha256_transform h block1) block1 0
    (m ++ 0x80 :: replicate (64 - S used) 0).
Proof.
  intros Hi Hbig. pose proof Hi as (Hlt & Hl & _).
  destruct (decide (used = 63%nat)) as [->|E].
  - change (replicate (64 - 64) 0) with (@nil Z). cbv zeta.
    assert (Hn : length (blk_set block 63 [0x80]) = 64%nat) by (by apply blk_set_length).
    assert (En : blk_set (blk_set block 63 [0x80]) 64 [] = blk_set block 63 [0x80]).
    { unfold blk_set at 1. cbn [length app]. rewrite take_ge, drop_ge by lia. apply app_nil_r. }
    rewrite En. by apply (md_inv_fill _ _ _ _ _ _ [0x80] Hi).
  - pose proof (md_inv_part _ _ _ _ _ _ [0x80] Hi) as H.
    cbn [length] in H. rewrite Nat.add_1_r in H. specialize (H ltac:(lia)).
    apply (md_inv_fill _ _ _ _ _ _ (replicate (64 - S used) 0)) in H.
    2: { rewrite length_replicate. lia. }
    by rewrite <- app_assoc in H.
Qed.

Lemma md_inv_tail h block used m tail :
  md_inv ds4_sha256_transform sha256_h0 h block used m -> (used <= 56)%nat -> length tail = 8%nat ->
  ds4_sha256_transform h (blk_set (blk_set block used (replicate (56 - used) 0)) 56 tail)
  = md_blocks ds4_sha256_transform sha256_h0 (m ++ replicate (56 - used) 0 ++ tail).
Proof.
  intros Hi Hu Ht.
  apply (md_inv_part _ _ _ _ _ _ (replicate (56 - used) 0)) in Hi;
    rewrite length_replicate in *; [|lia].
  replace (used + (56 - used))%nat with 56%nat in Hi by lia.
  apply (md_inv_fill _ _ _ _ _ _ tail) in Hi; [|lia].
  apply md_inv_aligned in Hi. by rewrite Hi, <- app_assoc.
Qed.

Lemma sha256_final_spec c m : sha256_inv c m -> ds4_sha256_final c = sha256_digest m.
Proof.
  intros [Hi Hb]. unfold ds4_sha256_final, sha256_digest, md_digest.
  pose proof (md_inv_used _ _ _ _ _ _ Hi) as Hu. pose proof Hi as (Hlt & _).
  assert (Hbits : u64 (s2_bit_len c + u64 (Z.of_nat (s2_block_len c) * 8)) = u64 (8 * zlen m)).
  { rewrite Hb. unfold u64. rewrite wrap_add_l, Z.add_comm, wrap_add_l. f_equal. zdiv_lia. }
  rewrite Hbits. set (tail := be_put64 (u64 (8 * zlen m))).
  set (used := s2_block_len c) in *.
  set (z := Z.to_nat ((55 - zlen m) mod 64)).
  assert (Hz : if (56 <? S used)%nat then (z = (64 - S used) + 56)%nat else (z = 56 - S used)%nat).
  { unfold z. destruct (Nat.ltb_spec 56 (S used)); zdiv_lia. }
  assert (Hp : md_pad (zlen m) = 0x80 :: replicate z 0 ++ tail) by done.
  rewrite Hp. destruct (Nat.ltb_spec 56 (S used)) as [Hbig|Hsmall]; rewrite Hz.
  - pose proof (sha256_pad_spill _ _ _ _ Hi Hbig) as H.
    apply (md_inv_tail _ _ _ _ tail) in H; [|lia|done]. rewrite H.
    by rewrite replicate_add, <- !app_assoc.
  - pose proof (md_inv_part _ _ _ _ _ _ [0x80] Hi) as H.
    cbn [length] in H. rewrite Nat.add_1_r in H. specialize (H ltac:(lia)).
    apply (md_inv_tail _ _ _ _ tail) in H; [|lia|done]. rewrite H.
    by rewrite <- app_assoc.
Qed.

Lemma sha256_hex_shape data :
  zlen (sha256_hex data) = 64 /\ forallb is_lower_hex (sha256_hex data) = true.
Proof.
  split; [unfold sha256_hex; rewrite hex_length; done | apply hex_lower, md_digest_ok].
Qed.

Lemma sha256_hex_spec block data :
  length block = 64%nat -> ds4_sha256_hex block data = sha256_hex data.
Proof.
  intros Hb. unfold ds4_sha256_hex, sha256_hex. f_equal. apply sha256_final_spec.
  apply (sha256_update_inv _ [] data), sha256_init_inv, Hb.
Qed.

(** ** Properties *)

(** [ds4_sha256_final] after any sequence of updates is the SHA-256 of the
    concatenated data: the hand-written padding (one block or two, depending on
    where the data ends) and the incrementally kept bit count give exactly the
    padded message of the standard, for every content of the uninitialised block
    buffer. *)
Lemma sha256_streaming_correct block pieces :
  length block = 64%nat ->
  ds4_sha256_final (fold_left ds4_sha256_update pieces (ds4_sha256_init block))
  = sha256_digest (concat pieces).
Proof.
  intros Hb. apply sha256_final_spec.
  assert (H : forall c m, sha256_inv c m ->
    sha256_inv (fold_left ds4_sha256_update pieces c) (m ++ concat pieces)).
  { induction pieces as [|p ps IH]; intros c m Hi; cbn.
    - by rewrite app_nil_r.
    - rewrite app_assoc. by apply IH, sha256_update_inv. }
  apply (H _ []), sha256_init_inv, Hb.
Qed.

Lemma sha256_streaming_correct_witness :
  length (replicate 64 7) = 64%nat /\
  ds4_sha256_final (fold_left ds4_sha256_update [bs "ab"; bs "c"] (ds4_sha256_init (replicate 64 7)))
  = sha256_digest (concat [bs "ab"; bs "c"]).
Proof. split; [done | by apply sha256_streaming_correct]. Defined.

Example sha256_abc :
  sha256_hex (bs "abc")
  = bs "ba7816bf8f01cfea414140de5dae2223b00361a396177a9cb410ff61f20015ad".
Proof. vm_compute. reflexivity. Qed.

Example sha256_two_blocks :
  ds4_sha256_hex (replicate 64 3) (bs "abcdbcdecdefdefgefghfghighijhijkijkljklmklmnlmnomnopnopq")
  = bs "248d6a61d20638b8e5c026930c3e6039a33ce45964ff2167f6ecedd419db06c1".
Proof. vm_compute. reflexivity. Qed.
