(* ===== verification/Ctype.v ===== *)
(** * Ctype: the character classes of <ctype.h> in the C locale, and the
    <string.h> searches the sources use *)

From S2P Require Import Prelude.

Definition isdigit (c : Z) : bool := (ch "0" <=? c) && (c <=? ch "9").
Definition islower (c : Z) : bool := (ch "a" <=? c) && (c <=? ch "z").
Definition isupper (c : Z) : bool := (ch "A" <=? c) && (c <=? ch "Z").
Definition isxdigit (c : Z) : bool :=
  isdigit c || ((ch "a" <=? c) && (c <=? ch "f")) || ((ch "A" <=? c) && (c <=? ch "F")).
(** space, \t \n \v \f \r *)
Definition isspace (c : Z) : bool := (c =? 32) || ((9 <=? c) && (c <=? 13)).
Definition tolower (c : Z) : Z := if isupper c then c + 32 else c.

(** [memcmp(text, prefix, n) == 0] with [n] the length of [prefix], on a text at
    least that long; also [strncmp(text, prefix, n) == 0] on NUL-free strings. *)
Fixpoint starts_with (prefix text : bytes) : bool :=
  match prefix, text with
  | [], _ => true
  | p :: ps, t :: ts => (p =? t) && starts_with ps ts
  | _ :: _, [] => false
  end.

(** The tail of [text] from the first occurrence of [needle] on ([strstr]). *)
Fixpoint find_sub (needle text : bytes) : option bytes :=
  if starts_with needle text then Some text
  else match text with
       | [] => None
       | _ :: ts => find_sub needle ts
       end.

(** The part of [text] behind [prefix]. *)
Fixpoint strip_prefix (prefix text : bytes) : option bytes :=
  match prefix, text with
  | [], _ => Some text
  | p :: ps, c :: cs => if p =? c then strip_prefix ps cs else None
  | _ :: _, [] => None
  end.

Definition contains (needle text : bytes) : bool :=
  match find_sub needle text with Some _ => true | None => false end.

(** [strtoull(digits, NULL, 10)] of a string of digits: the value, [ERANGE] (as
    [None]) above ULLONG_MAX. *)
Fixpoint digits_value (acc : Z) (s : bytes) : Z :=
  match s with
  | [] => acc
  | c :: s' => digits_value (acc * 10 + (c - ch "0")) s'
  end.

Definition strtoull_digits (s : bytes) : option Z :=
  let v := digits_value 0 s in
  if v <=? UINT64_MAX then Some v else None.

Lemma starts_with_prefix p t : starts_with p t = true <-> p `prefix_of` t.
Proof.
  revert t. induction p as [|x p IH]; intros t; cbn.
  - split; [intros _; apply prefix_nil | done].
  - destruct t as [|y t]; [split; [done | intros [k Hk]; done]|].
    rewrite andb_true_iff, IH, Z.eqb_eq. split.
    + intros [-> H]. by apply prefix_cons.
    + intros H. split; [by eapply prefix_cons_inv_1 | by eapply prefix_cons_inv_2].
Qed.

Lemma starts_with_app p t : starts_with p (p ++ t) = true.
Proof. apply starts_with_prefix. by exists t. Qed.

Lemma strip_prefix_app p l : strip_prefix p (p ++ l) = Some l.
Proof. induction p as [|x p IH]; cbn; [by destruct l|]. by rewrite Z.eqb_refl. Qed.

Lemma strip_prefix_sound p l r : strip_prefix p l = Some r -> l = p ++ r.
Proof.
  revert l. induction p as [|x p IH]; intros [|y l] H; cbn in *; simplify_eq; [done..|].
  destruct (Z.eqb_spec x y) as [->|]; [|done]. f_equal. by apply IH.
Qed.

Lemma find_sub_sound n t r :
  find_sub n t = Some r -> n `prefix_of` r /\ exists pre, t = pre ++ r.
Proof.
  revert r. induction t as [|x t IH]; intros r; cbn; destruct (starts_with n _) eqn:E.
  1, 3: intros [= <-]; split; [by apply starts_with_prefix | by exists []].
  - done.
  - intros H. destruct (IH _ H) as [? [pre ->]]. split; [done | by exists (x :: pre)].
Qed.

Lemma contains_infix n t : contains n t = true <-> exists a b, t = a ++ n ++ b.
Proof.
  unfold contains. split.
  - destruct (find_sub n t) as [r|] eqn:E; [|done]. intros _.
    apply find_sub_sound in E as [[b ->] [a ->]]. eauto.
  - intros (a & b & ->). induction a as [|x a IH]; cbn.
    + destruct (n ++ b) eqn:E; cbn; rewrite <- ?E, starts_with_app; done.
    + by destruct (starts_with n _).
Qed.

Lemma tolower_idem c : tolower (tolower c) = tolower c.
Proof.
  unfold tolower, isupper. change (ch "A") with 65. change (ch "Z") with 90.
  destruct (Z.leb_spec 65 c), (Z.leb_spec c 90); cbn [andb]; try lia;
    destruct (Z.leb_spec 65 (c + 32)), (Z.leb_spec (c + 32) 90),
      (Z.leb_spec 65 c), (Z.leb_spec c 90); cbn [andb]; lia.
Qed.

Lemma isxdigit_range c : isxdigit c = true -> 0 <= c < 128.
Proof.
  unfold isxdigit, isdigit. rewrite !orb_true_iff, !andb_true_iff, !Z.leb_le.
  change (ch "0") with 48. change (ch "9") with 57. change (ch "a") with 97.
  change (ch "f") with 102. change (ch "A") with 65. change (ch "F") with 70. lia.
Qed.

(** ** Decimal numbers *)

(** [%zu], [%llu] and [%u] of a non-negative value below 10^20. *)
Fixpoint dec_go (fuel : nat) (n : Z) (acc : bytes) : bytes :=
  let acc := ch "0" + n mod 10 :: acc in
  match fuel with
  | O => acc
  | S fuel' => if n <? 10 then acc else dec_go fuel' (n / 10) acc
  end.

Definition dec (n : Z) : bytes := dec_go 19 n [].

(** [%d] *)
Definition dec_int (n : Z) : bytes := if n <? 0 then ch "-" :: dec (- n) else dec n.

Lemma digits_value_app s t acc : digits_value acc (s ++ t) = digits_value (digits_value acc s) t.
Proof. revert acc. induction s; intros acc; cbn; auto. Qed.

Lemma dec_go_spec fuel n acc :
  0 <= n < 10 ^ (Z.of_nat fuel + 1) ->
  exists s, dec_go fuel n acc = s ++ acc /\ digits_value 0 s = n /\ s <> [] /\
    Forall (fun c => isdigit c = true) s.
Proof.
  revert n acc. induction fuel as [|fuel IH]; intros n acc Hn; cbn [dec_go].
  - exists [ch "0" + n mod 10]. change (10 ^ (Z.of_nat 0 + 1)) with 10 in Hn.
    split_and!; [done| cbn; rewrite Z.mod_small by lia; change (ch "0") with 48; lia | done |].
    constructor; [|done]. unfold isdigit. change (ch "0") with 48. change (ch "9") with 57.
    rewrite Z.mod_small by lia. rewrite andb_true_iff, !Z.leb_le. lia.
  - assert (Hd : isdigit (ch "0" + n mod 10) = true).
    { unfold isdigit. change (ch "0") with 48. change (ch "9") with 57.
      rewrite andb_true_iff, !Z.leb_le. zdiv_lia. }
    destruct (Z.ltb_spec n 10).
    + exists [ch "0" + n mod 10]. split_and!; [done | | done | by constructor].
      cbn. rewrite Z.mod_small by lia. change (ch "0") with 48. lia.
    + destruct (IH (n / 10) (ch "0" + n mod 10 :: acc)) as (s & -> & Hs & Hne & Hf).
      { rewrite Nat2Z.inj_succ in Hn. rewrite Z.add_succ_l, Z.pow_succ_r in Hn by lia.
        split; [apply Z.div_pos; lia|]. apply Z.div_lt_upper_bound; lia. }
      exists (s ++ [ch "0" + n mod 10]). rewrite <- app_assoc. split_and!; [done| | |].
      * rewrite digits_value_app, Hs. cbn. change (ch "0") with 48. zdiv_lia.
      * by destruct s.
      * apply Forall_app. split; [done|by constructor].
Qed.

Lemma dec_spec n :
  0 <= n < 10 ^ 20 -> digits_value 0 (dec n) = n /\ dec n <> [] /\ Forall (fun c => isdigit c = true) (dec n).
Proof.
  intros Hn. destruct (dec_go_spec 19 n []) as (s & E & H). { exact Hn. }
  unfold dec. by rewrite E, app_nil_r.
Qed.

Lemma dec_go_length fuel n acc k :
  0 <= k <= Z.of_nat fuel -> 10 ^ k <= n -> zlen acc + k + 1 <= zlen (dec_go fuel n acc).
Proof.
  revert n acc k. induction fuel as [|fuel IH]; intros n acc k Hk Hn; cbn [dec_go].
  - replace k with 0 by lia. zlen_lia.
  - destruct (decide (k = 0)) as [->|Hk0].
    + destruct (Z.ltb_spec n 10); [zlen_lia|].
      pose proof (IH (n / 10) (ch "0" + n mod 10 :: acc) 0) as H0. rewrite zlen_cons in H0.
      assert (10 ^ 0 <= n / 10) by (change (10 ^ 0) with 1; zdiv_lia). lia.
    + assert (Hp : 10 ^ k = 10 * 10 ^ (k - 1)) by (rewrite <- Z.pow_succ_r by lia; f_equal; lia).
      assert (0 < 10 ^ (k - 1)) by (apply Z.pow_pos_nonneg; lia).
      destruct (Z.ltb_spec n 10); [lia|].
      pose proof (IH (n / 10) (ch "0" + n mod 10 :: acc) (k - 1)) as H'. rewrite zlen_cons in H'.
      assert (10 ^ (k - 1) <= n / 10) by (apply Z.div_le_lower_bound; lia). lia.
Qed.

Lemma dec_go_length_le fuel n acc k :
  0 <= n -> 1 <= k -> n < 10 ^ k -> zlen (dec_go fuel n acc) <= zlen acc + k.
Proof.
  revert n acc k. induction fuel as [|fuel IH]; intros n acc k Hn Hk Hlt; cbn [dec_go].
  - zlen_lia.
  - destruct (Z.ltb_spec n 10); [zlen_lia|].
    assert (Hk1 : 2 <= k).
    { destruct (decide (k = 1)) as [->|]; [change (10 ^ 1) with 10 in Hlt; lia | lia]. }
    assert (Hp : 10 ^ k = 10 * 10 ^ (k - 1)) by (rewrite <- Z.pow_succ_r by lia; f_equal; lia).
    pose proof (IH (n / 10) (ch "0" + n mod 10 :: acc) (k - 1)) as H'. rewrite zlen_cons in H'.
    assert (n / 10 < 10 ^ (k - 1)) by (apply Z.div_lt_upper_bound; lia).
    assert (0 <= n / 10) by (apply Z.div_pos; lia). lia.
Qed.

Lemma dec_go_length_max fuel n acc : zlen (dec_go fuel n acc) <= zlen acc + Z.of_nat fuel + 1.
Proof.
  revert n acc. induction fuel as [|fuel IH]; intros n acc; cbn [dec_go]; [zlen_lia|].
  destruct (n <? 10); [zlen_lia|]. pose proof (IH (n / 10) (ch "0" + n mod 10 :: acc)). zlen_lia.
Qed.

Lemma dec_length_max n : 0 <= zlen (dec n) <= 20.
Proof. split; [apply zlen_nonneg|]. pose proof (dec_go_length_max 19 n []). unfold dec. zlen_lia. Qed.

Lemma dec_int_length_max n : 0 <= zlen (dec_int n) <= 21.
Proof.
  unfold dec_int. destruct (n <? 0); [rewrite zlen_cons; pose proof (dec_length_max (- n)); lia|].
  pose proof (dec_length_max n); lia.
Qed.

(** The number of digits: [dec n] of length [k] means [10^(k-1) <= n < 10^k]. *)
Lemma dec_length_bounds n :
  0 < n < 10 ^ 20 -> 1 <= zlen (dec n) /\ 10 ^ (zlen (dec n) - 1) <= n < 10 ^ zlen (dec n).
Proof.
  intros Hn. pose proof (dec_length_max n) as Hmax.
  assert (H1 : 1 <= zlen (dec n)).
  { pose proof (dec_go_length 19 n [] 0) as H. unfold dec. change (10 ^ 0) with 1 in H. zlen_lia. }
  split; [done|]. split.
  - destruct (Z.le_gt_cases (10 ^ (zlen (dec n) - 1)) n) as [|Hlt]; [done|]. exfalso.
    destruct (decide (zlen (dec n) = 1)) as [E|]; [rewrite E in Hlt; cbn in Hlt; lia|].
    pose proof (dec_go_length_le 19 n [] (zlen (dec n) - 1)) as Hg. unfold dec in *. zlen_lia.
  - destruct (Z.lt_ge_cases n (10 ^ zlen (dec n))) as [|Hge]; [done|]. exfalso.
    assert (zlen (dec n) < 20).
    { destruct (decide (zlen (dec n) = 20)) as [E|]; [rewrite E in Hge; lia|lia]. }
    pose proof (dec_go_length 19 n [] (zlen (dec n))) as Hg. unfold dec in *. zlen_lia.
Qed.

Lemma dec_length_unique n k :
  0 < n < 10 ^ 20 -> 1 <= k -> 10 ^ (k - 1) <= n < 10 ^ k -> zlen (dec n) = k.
Proof.
  intros Hn Hk Hb. destruct (dec_length_bounds n Hn) as [H1 Hd].
  destruct (Z.lt_trichotomy (zlen (dec n)) k) as [Hlt|[|Hgt]]; [exfalso|done|exfalso].
  - pose proof (Z.pow_le_mono_r 10 (zlen (dec n)) (k - 1)). lia.
  - pose proof (Z.pow_le_mono_r 10 k (zlen (dec n) - 1)). lia.
Qed.

Lemma dec_length_mono a b : 0 < a <= b -> b < 10 ^ 20 -> zlen (dec a) <= zlen (dec b).
Proof.
  intros Hab Hb. destruct (dec_length_bounds a) as [Ha1 Ha]; [lia|].
  destruct (dec_length_bounds b) as [Hb1 Hb']; [lia|].
  destruct (Z.le_gt_cases (zlen (dec a)) (zlen (dec b))) as [|Hgt]; [done|]. exfalso.
  pose proof (Z.pow_le_mono_r 10 (zlen (dec b)) (zlen (dec a) - 1)). lia.
Qed.

(** A number that states its own printed length: starting from an estimate below
    the base, the fourth estimate is a fixed point. *)
Lemma dec_fixpoint base x0 :
  let f x := base + zlen (dec x) in
  100 <= base < 10 ^ 19 -> 0 <= x0 <= base -> f (f (f (f x0))) = f (f (f x0)).
Proof.
  intros f Hb H0.
  assert (Hf : forall x, base <= f x <= base + 20) by (intros x; unfold f; pose proof (dec_length_max x); lia).
  pose proof (Hf x0) as H1. pose proof (Hf (f x0)) as H2. pose proof (Hf (f (f x0))) as H3.
  assert (H12 : f x0 <= f (f x0)).
  { unfold f at 1 2. destruct (decide (x0 = 0)) as [->|]; [|pose proof (dec_length_mono x0 (f x0)); lia].
    destruct (dec_length_bounds (f 0)); [lia|]. change (zlen (dec 0)) with 1. lia. }
  set (x1 := f x0) in *. set (x2 := f x1) in *. set (x3 := f x2) in *.
  destruct (dec_length_bounds x1) as [Hk Hk1]; [lia|]. set (k := zlen (dec x1)) in *.
  assert (Hp : 10 ^ k = 10 * 10 ^ (k - 1)) by (rewrite <- Z.pow_succ_r by lia; f_equal; lia).
  assert (Hp' : 10 ^ (k + 1) = 10 * 10 ^ k) by (rewrite <- Z.pow_succ_r by lia; f_equal; lia).
  assert (Hx2 : x2 = base + k) by done. assert (Hx3 : x3 = base + zlen (dec x2)) by reflexivity.
  assert (Hfx : f x3 = base + zlen (dec x3)) by reflexivity.
  assert (Hle : x2 <= base + 20 /\ x3 <= base + 20) by lia.
  clearbody x3 x2 k x1. enough (zlen (dec x3) = zlen (dec x2)) by lia.
  destruct (Z.lt_ge_cases x2 (10 ^ k)) as [Hlt|Hge].
  - replace x3 with x2; [done|]. rewrite Hx3, (dec_length_unique x2 k); lia.
  - assert (Hd2 : zlen (dec x2) = k + 1).
    { apply dec_length_unique; [lia|lia|]. replace (k + 1 - 1) with k by lia. lia. }
    rewrite Hd2. apply dec_length_unique; [lia|lia|]. replace (k + 1 - 1) with k by lia. lia.
Qed.

Example dec_run : map dec [0; 7; 10; 18446744073709551615]
  = [bs "0"; bs "7"; bs "10"; bs "18446744073709551615"].
Proof. vm_compute. reflexivity. Qed.

(** ** Scanning loops *)

(** Where [while (i < n && f(p[i])) i++] stops. *)
Fixpoint span_len (f : Z -> bool) (s : bytes) : nat :=
  match s with
  | [] => O
  | c :: s' => if f c then S (span_len f s') else O
  end.

Lemma span_len_le f s : (span_len f s <= length s)%nat.
Proof. induction s; cbn; [lia|]. destruct (f _); lia. Qed.

Lemma span_len_forall f s : Forall (fun c => f c = true) (take (span_len f s) s).
Proof. induction s; cbn; [constructor|]. destruct (f _) eqn:E; cbn; by constructor. Qed.

Lemma span_len_stop f s c : s !! span_len f s = Some c -> f c = false.
Proof. induction s as [|x s IH]; cbn; [done|]. destruct (f x) eqn:E; cbn; [done|congruence]. Qed.

(** [count_substring]: the positions where [needle] starts. *)
Fixpoint count_sub (needle text : bytes) : Z :=
  match text with
  | [] => 0
  | _ :: ts => (if starts_with needle text then 1 else 0) + count_sub needle ts
  end.
