(* ===== verification/Ssd.v ===== *)
(** * Ssd: sizes of the streaming expert cache (ds4_ssd.c)

    The arguments of the command line and the automatic plan.  Locking memory is
    left out. *)

From S2P Require Import Prelude Ctype.

Definition DS4_GIB : Z := 1024 * 1024 * 1024.

(** The length without a trailing "gb" of any case. *)
Definition has_gb (s : bytes) : bool :=
  (2 <? length s)%nat && bytes_eqb (tolower <$> drop (length s - 2) s) (bs "gb").

(** [s] is not [NULL] and [bytes] is given; [None] is [false]. *)
Definition ds4_parse_gib_arg (s : bytes) : option Z :=
  let s := cstr s in
  if (length s =? 0)%nat then None
  else
    let s := if has_gb s then take (length s - 2) s else s in
    if (length s =? 0)%nat then None
    else if negb (forallb isdigit s) then None
    else if (32 <=? length s)%nat then None
    else
      v ← strtoull_digits s;
      if (v =? 0) || (UINT64_MAX / DS4_GIB <? v) then None else Some (u64 (v * DS4_GIB)).

(** The experts and the bytes; one of them is 0. *)
Definition ds4_parse_streaming_cache_experts_arg (s : bytes) : option (Z * Z) :=
  let text := cstr s in
  if (length text =? 0)%nat then None
  else if has_gb text then b ← ds4_parse_gib_arg s; Some (0, b)
  else if negb (forallb isdigit text) then None
  else
    v ← strtoull_digits text;
    if (v =? 0) || (UINT32_MAX <? v) then None else Some (u32 v, 0).

Definition ds4_ssd_cache_experts_for_byte_budget (bytes per_expert_bytes : Z) : Z :=
  if (bytes =? 0) || (per_expert_bytes =? 0) then 0
  else
    let experts := bytes / per_expert_bytes in
    if (experts =? 0) || (UINT32_MAX <? experts) then 0 else u32 experts.

Record ds4_ssd_cache_plan := mkCachePlan {
  cp_model_target_bytes : Z; cp_cache_bytes : Z; cp_effective_cache_bytes : Z; cp_cache_experts : Z
}.

Definition cache_plan_zero : ds4_ssd_cache_plan := mkCachePlan 0 0 0 0.

Definition ds4_ssd_auto_cache_plan (recommended_bytes non_routed_bytes per_expert_bytes max_model_experts : Z) : bool * ds4_ssd_cache_plan :=
  if (recommended_bytes =? 0) || (per_expert_bytes =? 0) then (false, cache_plan_zero)
  else
    let model_target_bytes := if UINT64_MAX / 4 <? recommended_bytes then UINT64_MAX else u64 (recommended_bytes * 4) / 5 in
    let cache_bytes := if non_routed_bytes <? model_target_bytes then model_target_bytes - non_routed_bytes else 0 in
    let cache_experts := cache_bytes / per_expert_bytes in
    let cache_experts := if cache_experts =? 0 then 1 else cache_experts in
    let cache_experts := if negb (max_model_experts =? 0) && (max_model_experts <? cache_experts) then max_model_experts else cache_experts in
    let cache_experts := if UINT32_MAX <? cache_experts then UINT32_MAX else cache_experts in
    let plan := mkCachePlan model_target_bytes cache_bytes (u64 (cache_experts * per_expert_bytes)) (u32 cache_experts) in
    (negb (cp_cache_experts plan =? 0), plan).

(** ** What they answer *)

(** The digits of a size in GiB, with or without its unit. *)
Definition gib_text (v : Z) (s : bytes) : Prop :=
  exists d u, s = d ++ u /\ d <> [] /\ forallb isdigit d = true /\ (length d < 32)%nat /\ digits_value 0 d = v /\
    (u = [] \/ tolower <$> u = bs "gb").

Lemma digits_nonneg s acc : forallb isdigit s = true -> 0 <= acc -> 0 <= digits_value acc s.
Proof.
  revert acc. induction s as [|c s IH]; intros acc; cbn; [done|]. intros [Hc Hs]%andb_true_iff Ha. apply IH; [done|].
  unfold isdigit in Hc. apply andb_true_iff in Hc as [H1%Z.leb_le H2%Z.leb_le]. lia.
Qed.

Lemma digit_lower c : isdigit c = true -> tolower c = c.
Proof.
  intros Hc. unfold isdigit in Hc. apply andb_true_iff in Hc as [H1%Z.leb_le H2%Z.leb_le]. change (ch "0") with 48 in H1. change (ch "9") with 57 in H2.
  unfold tolower, isupper. change (ch "A") with 65. rewrite (proj2 (Z.leb_gt 65 c)) by lia. done.
Qed.

Lemma digits_no_unit d : forallb isdigit d = true -> has_gb d = false.
Proof.
  intros Hd. unfold has_gb. apply andb_false_iff. destruct (Nat.ltb_spec 2 (length d)) as [Hl|Hl]; [right|by left].
  apply bytes_eqb_neq. destruct (drop (length d - 2) d) as [|c r] eqn:E; [done|]. cbn. intros [= Ec _].
  assert (Hc : isdigit c = true).
  { rewrite forallb_forall in Hd. apply Hd, list_elem_of_In. rewrite <- (take_drop (length d - 2) d), E. apply elem_of_app. right. by left. }
  rewrite digit_lower in Ec by done. by subst c.
Qed.

Lemma unit_split s : has_gb s = true -> s = take (length s - 2) s ++ drop (length s - 2) s /\
  take (length s - 2) s <> [] /\ tolower <$> drop (length s - 2) s = bs "gb".
Proof.
  unfold has_gb. intros [Hl%Nat.ltb_lt He%bytes_eqb_eq]%andb_true_iff. split_and!; [by rewrite take_drop| |done].
  intros E. apply (f_equal length) in E. rewrite length_take in E. cbn in E. lia.
Qed.

(** A size argument is accepted exactly if it is the digits of a positive number
    of GiB below 16 EiB, with or without the unit; nothing wraps. *)
Lemma parse_gib_arg_iff s b : no_nul s ->
  ds4_parse_gib_arg s = Some b <-> exists v, gib_text v s /\ 0 < v /\ v * DS4_GIB <= UINT64_MAX /\ b = v * DS4_GIB.
Proof.
  intros Hn. unfold ds4_parse_gib_arg. rewrite cstr_no_nul by done.
  assert (Hnum : forall d, (if (length d =? 0)%nat then None else if negb (forallb isdigit d) then None else if (32 <=? length d)%nat then None
      else v ← strtoull_digits d; if (v =? 0) || (UINT64_MAX / DS4_GIB <? v) then None else Some (u64 (v * DS4_GIB))) = Some b <->
    d <> [] /\ forallb isdigit d = true /\ (length d < 32)%nat /\ 0 < digits_value 0 d /\ digits_value 0 d * DS4_GIB <= UINT64_MAX /\
    b = digits_value 0 d * DS4_GIB).
  { intros d. destruct d as [|c d]; [split; [done|by intros [? _]]|]. change ((length (c :: d) =? 0)%nat) with false. cbv iota.
    destruct (forallb isdigit (c :: d)) eqn:Ed; cbn [negb]; [|split; [done|by intros (_ & ? & _)]].
    destruct (Nat.leb_spec 32 (length (c :: d))); [split; [done|by intros (_ & _ & ? & _); lia]|].
    pose proof (digits_nonneg _ 0 Ed ltac:(lia)) as H0. unfold strtoull_digits. set (v := digits_value 0 (c :: d)) in *.
    destruct (Z.leb_spec v UINT64_MAX) as [Hv|Hv]; cbn [mbind option_bind].
    2: { split; [done|]. intros (_ & _ & _ & _ & Hb & _). unfold DS4_GIB in Hb. lia. }
    destruct (Z.eqb_spec v 0) as [Hz|Hz]; cbn [orb]; [split; [done|by intros (_ & _ & _ & ? & _); lia]|].
    destruct (Z.ltb_spec (UINT64_MAX / DS4_GIB) v) as [Hg|Hg].
    - split; [done|]. intros (_ & _ & _ & _ & Hb & _). exfalso. change (UINT64_MAX / DS4_GIB) with 17179869183 in Hg. unfold DS4_GIB, UINT64_MAX in Hb. lia.
    - change (UINT64_MAX / DS4_GIB) with 17179869183 in Hg. assert (Hb : 0 <= v * DS4_GIB <= UINT64_MAX) by (unfold DS4_GIB, UINT64_MAX; lia).
      unfold u64. rewrite wrap_small by (unfold in_u, UINT64_MAX in *; lia). split; [intros [= <-]; split_and!; try done; lia|].
      by intros (_ & _ & _ & _ & _ & ->). }
  destruct (length s =? 0)%nat eqn:El.
  { apply Nat.eqb_eq in El. destruct s; [|done]. split; [done|]. intros (v & (d & u & E & Hd & _) & _). by destruct d. }
  rewrite Hnum. clear Hnum. split.
  - intros (Hd & Hdig & Hlen & Hpos & Hmax & ->). destruct (has_gb s) eqn:Eg.
    + destruct (unit_split s Eg) as (Es & _ & Eu). eexists. split; [|done]. exists (take (length s - 2) s), (drop (length s - 2) s). split_and!; try done. by right.
    + eexists. split; [|done]. exists s, []. rewrite app_nil_r. split_and!; try done. by left.
  - intros (v & (d & u & -> & Hd & Hdig & Hlen & <- & Hu) & Hpos & Hmax & ->).
    assert (E : (if has_gb (d ++ u) then take (length (d ++ u) - 2) (d ++ u) else d ++ u) = d).
    { destruct Hu as [->|Hu]; [rewrite app_nil_r, digits_no_unit by done; done|].
      assert (Hlu : length u = 2%nat) by (apply (f_equal length) in Hu; by rewrite length_fmap in Hu).
      assert (Hk : (length (d ++ u) - 2)%nat = length d) by (rewrite length_app, Hlu; lia).
      unfold has_gb. rewrite Hk, drop_app_length, take_app_length, Hu.
      rewrite (proj2 (Nat.ltb_lt _ _)); [done|]. rewrite length_app, Hlu. destruct d; [done|cbn; lia]. }
    by rewrite E.
Qed.

(** C39. The plan of the cache is exact: for sizes of 64 bits of which the
    recommended one and that of an expert are not 0, it has an expert; all its
    experts fit in what the target leaves, unless there is only one; there are as
    many as fit, the model has, and 32 bits hold; and their size is the exact
    product, no operation wraps.  The target is four fifths of the recommendation
    up to a quarter of the 64-bit range. *)
Theorem auto_cache_plan_exact recommended non_routed per_expert max_experts :
  in_u 64 recommended -> in_u 64 non_routed -> in_u 64 per_expert -> in_u 64 max_experts -> recommended <> 0 -> per_expert <> 0 ->
  let '(ok, plan) := ds4_ssd_auto_cache_plan recommended non_routed per_expert max_experts in
  let n := cp_cache_experts plan in
  let target := cp_model_target_bytes plan in
  ok = true /\ 1 <= n <= UINT32_MAX /\ cp_effective_cache_bytes plan = n * per_expert /\
  (n = 1 \/ non_routed + n * per_expert <= target) /\
  (max_experts <> 0 -> n <= max_experts) /\
  (n = max_experts \/ n = UINT32_MAX \/ target < non_routed + (n + 1) * per_expert) /\
  (recommended <= UINT64_MAX / 4 -> target = recommended * 4 / 5).
Proof.
  unfold in_u. intros Hr Hn Hp Hm Hr0 Hp0. unfold ds4_ssd_auto_cache_plan. rewrite (proj2 (Z.eqb_neq recommended 0)), (proj2 (Z.eqb_neq per_expert 0)) by done.
  cbn [orb]. change (UINT64_MAX / 4) with 4611686018427387903.
  set (target := if _ <? recommended then _ else _).
  assert (Ht : 0 <= target <= UINT64_MAX /\ (recommended <= 4611686018427387903 -> target = recommended * 4 / 5)).
  { unfold target, UINT64_MAX. destruct (Z.ltb_spec 4611686018427387903 recommended); [lia|]. unfold u64. rewrite wrap_small by (unfold in_u; lia).
    split; [|done]. split; [apply Z.div_pos; lia|]. apply Z.lt_succ_r, Z.div_lt_upper_bound; lia. }
  clearbody target. destruct Ht as [Ht Hrec]. set (cache := if non_routed <? target then target - non_routed else 0).
  assert (Hc : 0 <= cache <= UINT64_MAX /\ (cache = 0 \/ non_routed + cache = target) /\ target <= non_routed + cache).
  { unfold cache. destruct (Z.ltb_spec non_routed target); lia. }
  clearbody cache. destruct Hc as (Hc & Hcase & Hct). set (q := cache / per_expert).
  assert (Hq : 0 <= q /\ q * per_expert <= cache < (q + 1) * per_expert).
  { unfold q. pose proof (Z.div_pos cache per_expert ltac:(lia) ltac:(lia)). pose proof (Z.mod_pos_bound cache per_expert ltac:(lia)).
    pose proof (Z.div_mod cache per_expert ltac:(lia)). nia. }
  clearbody q. destruct Hq as [Hq0 Hq].
  set (k := if UINT32_MAX <? _ then _ else _).
  assert (Hk : 1 <= k <= UINT32_MAX /\ (k = 1 \/ k <= q) /\ (max_experts <> 0 -> k <= max_experts) /\ (k = max_experts \/ k = UINT32_MAX \/ q <= k)).
  { unfold k, UINT32_MAX. destruct (Z.eqb_spec q 0) as [E|E], (Z.eqb_spec max_experts 0) as [E'|E']; cbn [negb andb];
      repeat match goal with |- context [Z.ltb max_experts ?b] => destruct (Z.ltb_spec max_experts b) end;
      match goal with |- context [Z.ltb 4294967295 ?b] => destruct (Z.ltb_spec 4294967295 b) end; lia. }
  clearbody k. destruct Hk as (Hk & Hkq & Hkm & Hkmax). unfold UINT64_MAX, UINT32_MAX in *.
  assert (Hprod : 0 <= k * per_expert < 2 ^ 64) by (destruct Hkq as [->|]; nia).
  cbn [cp_cache_experts cp_model_target_bytes cp_effective_cache_bytes]. unfold u64, u32. rewrite !wrap_small by (unfold in_u; lia).
  rewrite (proj2 (Z.eqb_neq k 0)) by lia. split_and!; try done; try lia.
  - destruct Hkq as [->|Hkq]; [by left|]. destruct Hcase as [->|]; [|right; nia]. left. nia.
  - destruct Hkmax as [|[|Hkmax]]; [by left|by right; left|]. right. right. nia.
Qed.

Lemma auto_cache_plan_exact_witness :
  let plan := mkCachePlan 800 500 448 7 in
  ds4_ssd_auto_cache_plan 1000 300 64 256 = (true, plan) /\
  (cp_cache_experts plan = 256 \/ cp_cache_experts plan = UINT32_MAX \/
   cp_model_target_bytes plan < 300 + (cp_cache_experts plan + 1) * 64).
Proof.
  split; [vm_compute; reflexivity|].
  apply (auto_cache_plan_exact 1000 300 64 256); vm_compute; done.
Defined.
