(* ===== verification/KvHeader.v ===== *)
(** * KvHeader: the on-disk envelope of a KV checkpoint (ds4_kvstore.c)

    The 48-byte header, the rendered-text length word, the names of checkpoint
    files, and the in-memory entry they are read into. *)

From S2P Require Import Prelude Ctype DynBuf Sha.

Definition DS4_KVSTORE_FIXED_HEADER : Z := 48.
Definition KV_CACHE_VERSION : Z := 1.
Definition KV_CACHE_PAYLOAD_ABI : Z := 2.

Definition DS4_KVSTORE_EXT_TOOL_MAP : Z := 1.
Definition DS4_KVSTORE_EXT_RESPONSES_VISIBLE : Z := 2.
Definition DS4_KVSTORE_EXT_THINKING_VISIBLE : Z := 4.
Definition DS4_KVSTORE_EXT_SESSION_TITLE : Z := 8.

Definition REASON_UNKNOWN : Z := 0.
Definition REASON_COLD : Z := 1.
Definition REASON_CONTINUED : Z := 2.
Definition REASON_EVICT : Z := 3.
Definition REASON_SHUTDOWN : Z := 4.
Definition REASON_AGENT_SYSTEM : Z := 5.
Definition REASON_AGENT_SESSION : Z := 6.

(** [ds4_kvstore_entry].  [e_path] is [None] for a NULL pointer. *)
Record entry := mkEntry {
  e_sha : bytes;
  e_path : option bytes;
  e_quant_bits : Z;
  e_model_id : Z;
  e_reason : Z;
  e_tokens : Z;
  e_hits : Z;
  e_ctx_size : Z;
  e_ext_flags : Z;
  e_created_at : Z;
  e_last_used : Z;
  e_payload_bytes : Z;
  e_text_bytes : Z;
  e_file_size : Z
}.

#[export] Instance entry_eq_dec : EqDecision entry.
Proof. solve_decision. Defined.

Definition ds4_kvstore_reason_code (reason : option bytes) : Z :=
  match reason with
  | None => REASON_UNKNOWN
  | Some r =>
      if bytes_eqb r (bs "cold") then REASON_COLD
      else if bytes_eqb r (bs "continued") then REASON_CONTINUED
      else if bytes_eqb r (bs "evict") then REASON_EVICT
      else if bytes_eqb r (bs "shutdown") then REASON_SHUTDOWN
      else if bytes_eqb r (bs "agent-system") then REASON_AGENT_SYSTEM
      else if bytes_eqb r (bs "agent-session") then REASON_AGENT_SESSION
      else REASON_UNKNOWN
  end.

Definition ds4_kvstore_key_kind (ext_flags : Z) : bytes :=
  if negb (Z.land ext_flags DS4_KVSTORE_EXT_RESPONSES_VISIBLE =? 0) then bs "responses-visible"
  else if negb (Z.land ext_flags DS4_KVSTORE_EXT_THINKING_VISIBLE =? 0) then bs "thinking-visible"
  else bs "token-text".

(** ** Little-endian words *)

Definition ds4_kvstore_le_put32 (v : Z) : bytes :=
  [u8 v; u8 (Z.shiftr v 8); u8 (Z.shiftr v 16); u8 (Z.shiftr v 24)].

Definition kv_le_put64 (v : Z) : bytes :=
  map (fun i => u8 (Z.shiftr v (8 * i))) [0; 1; 2; 3; 4; 5; 6; 7].

Definition ds4_kvstore_le_get32 (p : bytes) : Z :=
  match p with
  | p0 :: p1 :: p2 :: p3 :: _ =>
      Z.lor (Z.lor (Z.lor p0 (u32 (Z.shiftl p1 8))) (u32 (Z.shiftl p2 16))) (u32 (Z.shiftl p3 24))
  | _ => 0
  end.

(** [for (int i = 7; i >= 0; i--) v = (v << 8) | p[i];] *)
Definition kv_le_get64 (p : bytes) : Z :=
  fold_left (fun v b => Z.lor (u64 (Z.shiftl v 8)) b) (rev (take 8 p)) 0.

(** ** The header *)

Definition ds4_kvstore_fill_header (model_id quant_bits reason ext_flags tokens hits ctx_size
    created_at last_used payload_bytes : Z) : bytes :=
  [ch "K"; ch "V"; ch "C"; KV_CACHE_VERSION; quant_bits; reason; ext_flags; model_id]
  ++ ds4_kvstore_le_put32 tokens ++ ds4_kvstore_le_put32 hits ++ ds4_kvstore_le_put32 ctx_size
  ++ [KV_CACHE_PAYLOAD_ABI; 0; 0; 0]
  ++ kv_le_put64 created_at ++ kv_le_put64 last_used ++ kv_le_put64 payload_bytes.

Definition header_entry (h : bytes) : entry :=
  let at_ i := nth i h 0 in {|
    e_sha := []; e_path := None;
    e_quant_bits := at_ 4%nat;
    e_model_id := at_ 7%nat;
    e_reason := if at_ 5%nat <=? REASON_AGENT_SESSION then at_ 5%nat else REASON_UNKNOWN;
    e_tokens := ds4_kvstore_le_get32 (drop 8 h);
    e_hits := ds4_kvstore_le_get32 (drop 12 h);
    e_ctx_size := ds4_kvstore_le_get32 (drop 16 h);
    e_ext_flags := at_ 6%nat;
    e_created_at := kv_le_get64 (drop 24 h);
    e_last_used := kv_le_get64 (drop 32 h);
    e_payload_bytes := kv_le_get64 (drop 40 h);
    e_text_bytes := 0; e_file_size := 0
  |}.

Definition header_magic_ok (h : bytes) : bool :=
  let at_ i := nth i h 0 in
  (at_ 0%nat =? ch "K") && (at_ 1%nat =? ch "V") && (at_ 2%nat =? ch "C")
  && (at_ 3%nat =? KV_CACHE_VERSION).

Definition set_text_bytes (e : entry) (n : Z) : entry := {|
  e_sha := e_sha e; e_path := e_path e; e_quant_bits := e_quant_bits e;
  e_model_id := e_model_id e; e_reason := e_reason e; e_tokens := e_tokens e;
  e_hits := e_hits e; e_ctx_size := e_ctx_size e; e_ext_flags := e_ext_flags e;
  e_created_at := e_created_at e; e_last_used := e_last_used e;
  e_payload_bytes := e_payload_bytes e; e_text_bytes := n; e_file_size := e_file_size e |}.

(** Read a header from a stream whose remaining bytes are [f]: the entry (whose
    [sha], [path] and [file_size] stay zero) and the stream behind the text
    length.  [None] is the [false] return; no caller looks at the entry then. *)
Definition ds4_kvstore_read_header (f : bytes) : option (entry * bytes) :=
  if zlen f <? DS4_KVSTORE_FIXED_HEADER then None
  else
    let h := take 48 f in
    if negb (header_magic_ok h) then None
    else if negb (nth 20 h 0 =? KV_CACHE_PAYLOAD_ABI) then None
    else
      let e := header_entry h in
      let f := drop 48 f in
      if zlen f <? 4 then None
      else
        let text_bytes := ds4_kvstore_le_get32 (take 4 f) in
        let e := set_text_bytes e text_bytes in
        if negb (e_tokens e =? 0) && ((e_quant_bits e =? 2) || (e_quant_bits e =? 4))
        then Some (e, drop 4 f) else None.

(** ** Names *)

Definition KV_SUFFIX : bytes := bs ".kv".

(** The lower-cased sha a directory entry name spells, if it is one. *)
Definition ds4_kvstore_sha_hex_name (name : bytes) : option bytes :=
  if negb (zlen name =? 43) || negb (bytes_eqb (drop 40 name) KV_SUFFIX) then None
  else if forallb isxdigit (take 40 name) then Some (map tolower (take 40 name))
  else None.

Definition ds4_kvstore_path_join (dir name : bytes) : bytes :=
  if (zlen dir =? 0) || negb (nth (length dir - 1) dir 0 =? ch "/")
  then dir ++ [ch "/"] ++ name else dir ++ name.

Definition ds4_kvstore_path_for_sha (dir sha : bytes) : bytes :=
  ds4_kvstore_path_join dir (take 40 sha ++ KV_SUFFIX).

(** ** Lemmas *)

Lemma lor_shift_add a b k :
  0 <= k -> 0 <= a < 2 ^ k -> Z.lor a (Z.shiftl b k) = a + b * 2 ^ k.
Proof.
  intros Hk Ha. rewrite <- Z.shiftl_mul_pow2 by lia. symmetry. apply Z.add_nocarry_lor.
  apply Z.bits_inj'. intros i Hi. rewrite Z.land_spec, Z.bits_0.
  destruct (Z.ltb_spec i k).
  - rewrite Z.shiftl_spec_low by lia. apply andb_false_r.
  - rewrite <- (Z.mod_small a (2 ^ k)), Z.mod_pow2_bits_high by lia. done.
Qed.

Lemma u8_shiftr v i : 0 <= i -> u8 (Z.shiftr v i) = v / 2 ^ i mod 256.
Proof. intros. unfold u8, wrap. by rewrite Z.shiftr_div_pow2. Qed.

Lemma le_get32_value p0 p1 p2 p3 r :
  byte_ok p0 -> byte_ok p1 -> byte_ok p2 -> byte_ok p3 ->
  ds4_kvstore_le_get32 (p0 :: p1 :: p2 :: p3 :: r)
  = p0 + p1 * 2 ^ 8 + p2 * 2 ^ 16 + p3 * 2 ^ 24.
Proof.
  unfold byte_ok. intros. unfold ds4_kvstore_le_get32, u32.
  rewrite !wrap_small by (unfold in_u; rewrite Z.shiftl_mul_pow2 by lia; lia).
  rewrite (lor_shift_add p0 p1 8), (lor_shift_add _ p2 16), (lor_shift_add _ p3 24) by lia. done.
Qed.

Lemma le_put32_ok v : bytes_ok (ds4_kvstore_le_put32 v).
Proof. unfold ds4_kvstore_le_put32. repeat constructor; apply u8_range. Qed.

Lemma zlen_put32 v : zlen (ds4_kvstore_le_put32 v) = 4.
Proof. reflexivity. Qed.

Lemma le_get_put32 v r : in_u 32 v -> ds4_kvstore_le_get32 (ds4_kvstore_le_put32 v ++ r) = v.
Proof.
  unfold in_u. intros Hv. cbn [ds4_kvstore_le_put32 app].
  rewrite le_get32_value by apply u8_range.
  rewrite !u8_shiftr by lia. unfold u8, wrap. zdiv_lia.
Qed.

Lemma le_put_get32 p : length p = 4%nat -> bytes_ok p -> ds4_kvstore_le_put32 (ds4_kvstore_le_get32 p) = p.
Proof.
  intros Hl Hp. destruct p as [|p0 [|p1 [|p2 [|p3 [|? ?]]]]]; try done.
  repeat match goal with H : Forall _ (_ :: _) |- _ => apply Forall_cons_iff in H as [? H] end.
  rewrite le_get32_value by done. unfold byte_ok in *. unfold ds4_kvstore_le_put32.
  rewrite !u8_shiftr by lia. unfold u8, wrap. repeat f_equal; zdiv_lia.
Qed.

Lemma le_get64_step v b : 0 <= v < 2 ^ 56 -> byte_ok b ->
  Z.lor (u64 (Z.shiftl v 8)) b = v * 256 + b.
Proof.
  unfold byte_ok. intros Hv Hb. unfold u64. rewrite wrap_small.
  2: { unfold in_u. rewrite Z.shiftl_mul_pow2 by lia. lia. }
  rewrite Z.lor_comm, lor_shift_add by lia. lia.
Qed.

Lemma le_get_put64 v r : in_u 64 v -> kv_le_get64 (kv_le_put64 v ++ r) = v.
Proof.
  unfold in_u. intros Hv. unfold kv_le_get64, kv_le_put64. cbn [map app take].
  rewrite take_0. cbn [rev app fold_left].
  rewrite Z.mul_0_r, Z.shiftr_0_r, Z.shiftl_0_l.
  change (u64 0) with 0. rewrite Z.lor_0_l.
  rewrite !u8_shiftr by lia.
  set (b7 := v / 2 ^ (8 * 7) mod 256). set (b6 := v / 2 ^ (8 * 6) mod 256).
  set (b5 := v / 2 ^ (8 * 5) mod 256). set (b4 := v / 2 ^ (8 * 4) mod 256).
  set (b3 := v / 2 ^ (8 * 3) mod 256). set (b2 := v / 2 ^ (8 * 2) mod 256).
  set (b1 := v / 2 ^ (8 * 1) mod 256). unfold u8, wrap.
  assert (Hb : forall x, 0 <= x mod 256 < 256) by (intros; apply Z.mod_pos_bound; lia).
  pose proof (Hb (v / 2 ^ (8 * 7))). pose proof (Hb (v / 2 ^ (8 * 6))).
  pose proof (Hb (v / 2 ^ (8 * 5))). pose proof (Hb (v / 2 ^ (8 * 4))).
  pose proof (Hb (v / 2 ^ (8 * 3))). pose proof (Hb (v / 2 ^ (8 * 2))).
  pose proof (Hb (v / 2 ^ (8 * 1))).
  set (b0 := v mod 2 ^ 8). change (2 ^ 8) with 256 in b0. pose proof (Hb v).
  rewrite (le_get64_step b7 b6), (le_get64_step _ b5), (le_get64_step _ b4), (le_get64_step _ b3),
    (le_get64_step _ b2), (le_get64_step _ b1), (le_get64_step _ b0) by (unfold byte_ok in *; lia).
  subst b0 b1 b2 b3 b4 b5 b6 b7. zdiv_lia.
Qed.

Lemma le_get32_range p : bytes_ok p -> in_u 32 (ds4_kvstore_le_get32 p).
Proof.
  intros Hp. unfold in_u. destruct p as [|p0 [|p1 [|p2 [|p3 r]]]]; cbn; try lia.
  repeat match goal with H : Forall _ (_ :: _) |- _ => apply Forall_cons_iff in H as [? H] end.
  pose proof (le_get32_value p0 p1 p2 p3 r) as E. cbn in E. unfold byte_ok in *. lia.
Qed.

Lemma le_get64_value p0 p1 p2 p3 p4 p5 p6 p7 r :
  bytes_ok [p0; p1; p2; p3; p4; p5; p6; p7] ->
  kv_le_get64 (p0 :: p1 :: p2 :: p3 :: p4 :: p5 :: p6 :: p7 :: r)
  = ((((((p7 * 256 + p6) * 256 + p5) * 256 + p4) * 256 + p3) * 256 + p2) * 256 + p1) * 256 + p0.
Proof.
  intros Hp. repeat match goal with H : Forall _ (_ :: _) |- _ => apply Forall_cons_iff in H as [? H] end.
  unfold kv_le_get64. cbn [take]. rewrite take_0. cbn [rev app fold_left].
  rewrite Z.shiftl_0_l. change (u64 0) with 0. rewrite Z.lor_0_l. unfold byte_ok in *.
  rewrite (le_get64_step p7 p6), (le_get64_step _ p5), (le_get64_step _ p4), (le_get64_step _ p3),
    (le_get64_step _ p2), (le_get64_step _ p1), (le_get64_step _ p0) by (unfold byte_ok in *; lia).
  done.
Qed.

Lemma le_get64_range p : length p = 8%nat -> bytes_ok p -> in_u 64 (kv_le_get64 p).
Proof.
  intros Hl Hp. do 8 (destruct p as [|? p]; [done|]). destruct p; [|done].
  rewrite le_get64_value by done. unfold in_u.
  repeat match goal with H : Forall _ (_ :: _) |- _ => apply Forall_cons_iff in H as [? H] end.
  unfold byte_ok in *. lia.
Qed.

Lemma le_put_get64 p : length p = 8%nat -> bytes_ok p -> kv_le_put64 (kv_le_get64 p) = p.
Proof.
  intros Hl Hp. do 8 (destruct p as [|? p]; [done|]). destruct p; [|done].
  rewrite le_get64_value by done. unfold kv_le_put64. cbn [map].
  repeat match goal with H : Forall _ (_ :: _) |- _ => apply Forall_cons_iff in H as [? H] end.
  rewrite !u8_shiftr by lia. unfold byte_ok in *. repeat f_equal; zdiv_lia.
Qed.

Lemma le_get32_take p : ds4_kvstore_le_get32 (take 4 p) = ds4_kvstore_le_get32 p.
Proof. by destruct p as [|? [|? [|? [|? ?]]]]. Qed.

Lemma le_get64_take p : kv_le_get64 (take 8 p) = kv_le_get64 p.
Proof. unfold kv_le_get64. by rewrite take_take. Qed.

(** ** The header as a codec *)

(** The field values a header can carry. *)
Definition header_fields_ok (e : entry) : Prop :=
  byte_ok (e_model_id e) /\ (e_quant_bits e = 2 \/ e_quant_bits e = 4) /\
  byte_ok (e_ext_flags e) /\ 0 < e_tokens e /\ in_u 32 (e_tokens e) /\ in_u 32 (e_hits e) /\
  in_u 32 (e_ctx_size e) /\ in_u 64 (e_created_at e) /\ in_u 64 (e_last_used e) /\
  in_u 64 (e_payload_bytes e) /\ in_u 32 (e_text_bytes e).

(** The prefix of a checkpoint file: header and text length. *)
Definition entry_prefix (e : entry) (reason : Z) : bytes :=
  ds4_kvstore_fill_header (e_model_id e) (e_quant_bits e) reason (e_ext_flags e) (e_tokens e)
    (e_hits e) (e_ctx_size e) (e_created_at e) (e_last_used e) (e_payload_bytes e)
  ++ ds4_kvstore_le_put32 (e_text_bytes e).

Definition norm_reason (r : Z) : Z := if r <=? REASON_AGENT_SESSION then r else REASON_UNKNOWN.

(** The fields of a read entry that do not come from the stream. *)
Definition entry_detached (e : entry) : Prop :=
  e_sha e = [] /\ e_path e = None /\ e_file_size e = 0.

Lemma fill_header_length m q r x t h c ca lu pb :
  length (ds4_kvstore_fill_header m q r x t h c ca lu pb) = 48%nat.
Proof. done. Qed.

Lemma header_entry_fill m q r x t h c ca lu pb :
  in_u 32 t -> in_u 32 h -> in_u 32 c -> in_u 64 ca -> in_u 64 lu -> in_u 64 pb ->
  header_entry (ds4_kvstore_fill_header m q r x t h c ca lu pb)
  = mkEntry [] None q m (norm_reason r) t h c x ca lu pb 0 0.
Proof.
  intros. unfold header_entry, ds4_kvstore_fill_header. f_equal;
    first [ done | by apply le_get_put32 | by apply le_get_put64
          | rewrite <- (app_nil_r (kv_le_put64 pb)); by apply le_get_put64 ].
Qed.

(** [ds4_kvstore_read_header] on a stream cut at its two [fread]s. *)
Lemma read_header_split h t rest :
  length h = 48%nat -> length t = 4%nat ->
  ds4_kvstore_read_header (h ++ t ++ rest) =
  let e := set_text_bytes (header_entry h) (ds4_kvstore_le_get32 t) in
  if header_magic_ok h && (nth 20 h 0 =? KV_CACHE_PAYLOAD_ABI) &&
     (negb (e_tokens e =? 0) && ((e_quant_bits e =? 2) || (e_quant_bits e =? 4)))
  then Some (e, rest) else None.
Proof.
  intros Hh Ht. unfold ds4_kvstore_read_header, DS4_KVSTORE_FIXED_HEADER.
  destruct (Z.ltb_spec (zlen (h ++ t ++ rest)) 48) as [Hl|_];
    [exfalso; autorewrite with zlen in Hl; unfold zlen in Hl; lia|].
  rewrite (take_app_length' h), (drop_app_length' h) by done.
  destruct (Z.ltb_spec (zlen (t ++ rest)) 4) as [Hl|_];
    [exfalso; autorewrite with zlen in Hl; unfold zlen in Hl; lia|].
  rewrite (take_app_length' t), (drop_app_length' t) by done.
  destruct (header_magic_ok h), (nth 20 h 0 =? KV_CACHE_PAYLOAD_ABI); done.
Qed.

Lemma read_header_short f : zlen f < 52 -> ds4_kvstore_read_header f = None.
Proof.
  intros Hf. unfold ds4_kvstore_read_header, DS4_KVSTORE_FIXED_HEADER.
  destruct (Z.ltb_spec (zlen f) 48); [done|].
  destruct (negb _); [done|]. destruct (negb _); [done|].
  destruct (Z.ltb_spec (zlen (drop 48 f)) 4) as [|Hl]; [done|].
  exfalso. rewrite zlen_drop in Hl. lia.
Qed.

Lemma read_entry_prefix e reason rest :
  header_fields_ok e -> entry_detached e -> e_reason e = norm_reason reason ->
  ds4_kvstore_read_header (entry_prefix e reason ++ rest) = Some (e, rest).
Proof.
  intros (Hm & Hq & Hx & Ht0 & Ht & Hh & Hc & Hca & Hlu & Hpb & Htb) (Hs & Hp & Hf) Er.
  unfold entry_prefix. rewrite <- app_assoc, read_header_split by done.
  rewrite header_entry_fill by done.
  rewrite <- (app_nil_r (ds4_kvstore_le_put32 _)), le_get_put32 by done.
  unfold set_text_bytes. cbn [e_sha e_path e_quant_bits e_model_id e_reason e_tokens e_hits
    e_ctx_size e_ext_flags e_created_at e_last_used e_payload_bytes e_file_size].
  destruct e; cbn in *; subst. destruct (Z.eqb_spec e_tokens0 0); [lia|].
  by destruct Hq as [-> | ->].
Qed.

(** Every accepted 48-byte header is a filled one, up to the three reserved
    bytes and the raw reason code. *)
Definition raw_header (e : entry) (reason : Z) (pad : bytes) : bytes :=
  [ch "K"; ch "V"; ch "C"; KV_CACHE_VERSION; e_quant_bits e; reason; e_ext_flags e; e_model_id e]
  ++ ds4_kvstore_le_put32 (e_tokens e) ++ ds4_kvstore_le_put32 (e_hits e)
  ++ ds4_kvstore_le_put32 (e_ctx_size e) ++ [KV_CACHE_PAYLOAD_ABI] ++ pad
  ++ kv_le_put64 (e_created_at e) ++ kv_le_put64 (e_last_used e) ++ kv_le_put64 (e_payload_bytes e).

Lemma header_entry_raw e r a b c :
  in_u 32 (e_tokens e) -> in_u 32 (e_hits e) -> in_u 32 (e_ctx_size e) ->
  in_u 64 (e_created_at e) -> in_u 64 (e_last_used e) -> in_u 64 (e_payload_bytes e) ->
  header_entry (raw_header e r [a; b; c])
  = mkEntry [] None (e_quant_bits e) (e_model_id e) (norm_reason r) (e_tokens e) (e_hits e)
      (e_ctx_size e) (e_ext_flags e) (e_created_at e) (e_last_used e) (e_payload_bytes e) 0 0.
Proof.
  intros. unfold header_entry, raw_header. f_equal;
    first [ done | by apply le_get_put32 | by apply le_get_put64
          | rewrite <- (app_nil_r (kv_le_put64 (e_payload_bytes e))); by apply le_get_put64 ].
Qed.

Lemma seg32 h i : bytes_ok h -> (i + 4 <= length h)%nat ->
  ds4_kvstore_le_put32 (ds4_kvstore_le_get32 (drop i h)) = take 4 (drop i h).
Proof.
  intros Hh Hi. rewrite <- le_get32_take. apply le_put_get32.
  - rewrite length_take, length_drop. lia.
  - by apply Forall_take, Forall_drop.
Qed.

Lemma seg64 h i : bytes_ok h -> (i + 8 <= length h)%nat ->
  kv_le_put64 (kv_le_get64 (drop i h)) = take 8 (drop i h).
Proof.
  intros Hh Hi. rewrite <- le_get64_take. apply le_put_get64.
  - rewrite length_take, length_drop. lia.
  - by apply Forall_take, Forall_drop.
Qed.

Lemma header_bytes_inv h :
  length h = 48%nat -> bytes_ok h -> header_magic_ok h = true ->
  nth 20 h 0 = KV_CACHE_PAYLOAD_ABI ->
  h = raw_header (header_entry h) (nth 5 h 0) (take 3 (drop 21 h)).
Proof.
  intros Hl Hok Hm Habi. unfold raw_header, header_entry.
  cbn [e_quant_bits e_model_id e_tokens e_hits e_ctx_size e_ext_flags e_created_at e_last_used
    e_payload_bytes].
  rewrite !seg32, !seg64 by (done || lia). unfold header_magic_ok in Hm. bool_props.
  do 48 (destruct h as [|? h]; [done|]). destruct h; [|done]. cbn in *. by subst.
Qed.

Lemma header_entry_ok h :
  length h = 48%nat -> bytes_ok h ->
  let e := header_entry h in
  byte_ok (e_model_id e) /\ byte_ok (e_ext_flags e) /\ in_u 32 (e_tokens e) /\ in_u 32 (e_hits e) /\
  in_u 32 (e_ctx_size e) /\ in_u 64 (e_created_at e) /\ in_u 64 (e_last_used e) /\
  in_u 64 (e_payload_bytes e) /\ entry_detached e.
Proof.
  intros Hl Hok e. unfold e, header_entry. cbn.
  assert (Hn : forall i, byte_ok (nth i h 0)).
  { intros i. destruct (nth_in_or_default i h 0) as [Hi | ->]; [|done].
    by apply (proj1 (List.Forall_forall _ _) Hok). }
  assert (Hd : forall i, bytes_ok (drop i h)) by (intros; by apply Forall_drop).
  assert (H8 : forall i, (i + 8 <= length h)%nat -> in_u 64 (kv_le_get64 (drop i h))).
  { intros i Hi. rewrite <- le_get64_take. apply le_get64_range; [|by apply Forall_take].
    rewrite length_take, length_drop. lia. }
  split_and!; try done; (apply le_get32_range || apply H8); first [done | lia].
Qed.

(** What an accepted stream looks like, whatever its bytes. *)
Lemma read_header_shape f e rest :
  ds4_kvstore_read_header f = Some (e, rest) ->
  52 <= zlen f /\ rest = drop 52 f /\ e_tokens e <> 0 /\
  (e_quant_bits e = 2 \/ e_quant_bits e = 4) /\ entry_detached e /\
  header_magic_ok (take 48 f) = true /\ nth 20 (take 48 f) 0 = KV_CACHE_PAYLOAD_ABI /\
  e = set_text_bytes (header_entry (take 48 f)) (ds4_kvstore_le_get32 (take 4 (drop 48 f))).
Proof.
  intros H. destruct (decide (zlen f < 52)) as [Hs|Hs].
  { by rewrite (read_header_short f) in H. }
  assert (Ef : f = take 48 f ++ take 4 (drop 48 f) ++ drop 52 f).
  { replace (drop 52 f) with (drop 4 (drop 48 f)) by (by rewrite drop_drop).
    by rewrite !take_drop. }
  rewrite Ef in H. rewrite read_header_split in H
    by (rewrite ?length_take, ?length_drop; unfold zlen in Hs; lia). cbv zeta in H.
  destruct (header_magic_ok _ && _ && _) eqn:E; [|done]. injection H as <- <-.
  rewrite !andb_true_iff, negb_true_iff, orb_true_iff, !Z.eqb_eq, Z.eqb_neq in E.
  destruct E as [[Em Ea] [Et Eq]]. split_and!; try done. lia.
Qed.

(** ** Property *)

(** The header is a codec: a stream is accepted with entry [e] and remainder
    [rest] exactly when it is the raw 48 bytes of [e] (any reserved bytes, any
    reason byte that normalises to [e]'s), followed by the 32-bit text length and
    [rest], and the fields are ones a header may carry: a non-zero token count
    and 2 or 4 quantisation bits. *)
Lemma read_header_iff f e rest :
  bytes_ok f ->
  ds4_kvstore_read_header f = Some (e, rest) <->
  exists reason pad,
    length pad = 3%nat /\ e_reason e = norm_reason reason /\ header_fields_ok e /\ entry_detached e /\
    f = raw_header e reason pad ++ ds4_kvstore_le_put32 (e_text_bytes e) ++ rest.
Proof.
  intros Hf. split.
  - intros H. destruct (decide (zlen f < 52)) as [Hs|Hs].
    { by rewrite (read_header_short f) in H. }
    assert (Hl : (52 <= length f)%nat) by (unfold zlen in Hs; lia).
    assert (Ef : f = take 48 f ++ take 4 (drop 48 f) ++ drop 52 f).
    { replace (drop 52 f) with (drop 4 (drop 48 f)) by (by rewrite drop_drop).
      by rewrite !take_drop. }
    destruct (header_entry_ok (take 48 f)) as (H1 & H2 & H3 & H4 & H5 & H6 & H7 & H8 & H9).
    { rewrite length_take. lia. } { by apply Forall_take. }
    rewrite Ef in H. rewrite read_header_split in H
      by (rewrite ?length_take, ?length_drop; lia). cbv zeta in H.
    destruct (header_magic_ok _ && _ && _) eqn:E; [|done]. injection H as <- <-.
    rewrite !andb_true_iff, negb_true_iff, orb_true_iff, !Z.eqb_eq, Z.eqb_neq in E.
    destruct E as [[Em Ea] [Et Eq]].
    exists (nth 5 (take 48 f) 0), (take 3 (drop 21 (take 48 f))).
    split_and!; [rewrite length_take, length_drop, length_take; lia | done | | done |].
    + cbn in Et, Eq |- *. split_and!; try done.
      { cbn in H3 |- *. unfold in_u in H3. lia. }
      apply le_get32_range. by apply Forall_take, Forall_drop.
    + rewrite Ef at 1. unfold set_text_bytes at 2. cbn [e_text_bytes].
      rewrite le_put_get32.
      2: { rewrite length_take, length_drop. lia. } 2: { by apply Forall_take, Forall_drop. }
      f_equal. rewrite (header_bytes_inv (take 48 f)) at 1; try done.
      { rewrite length_take. lia. } { by apply Forall_take. }
  - intros (reason & pad & Hp & Er & Hok & (Hs & Hpa & Hz) & ->).
    destruct Hok as (Hm & Hq & Hx & Ht0 & Ht & Hh & Hc & Hca & Hlu & Hpb & Htb).
    do 3 (destruct pad as [|? pad]; [done|]). destruct pad; [|done].
    rewrite read_header_split by done.
    rewrite <- (app_nil_r (ds4_kvstore_le_put32 (e_text_bytes e))), le_get_put32 by done.
    rewrite header_entry_raw by done. unfold set_text_bytes.
    cbn [e_sha e_path e_quant_bits e_model_id e_reason e_tokens e_hits
      e_ctx_size e_ext_flags e_created_at e_last_used e_payload_bytes e_file_size].
    cbn [raw_header app header_magic_ok nth]. destruct (Z.eqb_spec (e_tokens e) 0); [lia|].
    destruct e; cbn in *; subst.
    by destruct Hq as [-> | ->].
Qed.

Definition example_entry : entry :=
  mkEntry [] None 4 7 REASON_COLD 512 3 4096 8 1700000000 1700000001 10 5 0.

Lemma read_header_iff_witness :
  bytes_ok (raw_header example_entry 1 [9; 9; 9] ++ ds4_kvstore_le_put32 5 ++ bs "hello") /\
  ds4_kvstore_read_header
    (raw_header example_entry 1 [9; 9; 9] ++ ds4_kvstore_le_put32 5 ++ bs "hello")
  = Some (example_entry, bs "hello").
Proof.
  assert (H : bytes_ok (raw_header example_entry 1 [9; 9; 9] ++ ds4_kvstore_le_put32 5 ++ bs "hello"))
    by (apply (bool_decide_eq_true_1 _); vm_compute; reflexivity).
  split; [exact H|]. apply (read_header_iff _ example_entry (bs "hello") H).
  exists 1, [9; 9; 9]. split_and!; try reflexivity;
    apply (bool_decide_eq_true_1 _); vm_compute; reflexivity.
Defined.
