(* ===== verification/Fs.v ===== *)
(** * Fs: the file calls of the C library, as far as the sources use them

    A [world] holds the files, every earlier state of them (newest first, what a
    crash could leave behind), the directories, the clock and the faults still to
    come: each call that can fail takes one slot, [None] for a call that goes
    through and [Some k] for one that fails after transferring at most [k] bytes.
    When the slots run out nothing fails any more.  Writes are buffered in the
    stream and reach the file at [fflush], [fseek] and [fclose]. *)

From S2P Require Import Prelude Ctype.

Abbreviation files := (gmap bytes bytes).

Record world := mkWorld {
  w_files : files;
  w_hist : list files;
  w_dirs : gset bytes;
  w_faults : list (option nat);
  w_now : Z;
  w_ticks : list Z;
  w_order : list bytes -> list bytes
}.

Definition IO (A : Type) : Type := world -> A * world.

Definition ret {A} (a : A) : IO A := fun w => (a, w).
Definition io_bind {A B} (m : IO A) (k : A -> IO B) : IO B :=
  fun w => let '(a, w') := m w in k a w'.

Declare Scope io_scope.
Delimit Scope io_scope with io.
Notation "'let!' x := m 'in' k" := (io_bind m (fun x => k))
  (at level 10, x pattern, m at level 100, k at level 200) : io_scope.
Open Scope io_scope.

(** A change of the files; the state before it is kept. *)
Definition set_files (f : files -> files) : IO unit := fun w =>
  (tt, mkWorld (f (w_files w)) (w_files w :: w_hist w) (w_dirs w) (w_faults w)
               (w_now w) (w_ticks w) (w_order w)).

Definition get_files : IO files := fun w => (w_files w, w).

Definition next_fault : IO (option nat) := fun w =>
  match w_faults w with
  | [] => (None, w)
  | f :: fs => (f, mkWorld (w_files w) (w_hist w) (w_dirs w) fs (w_now w) (w_ticks w) (w_order w))
  end.

(** [time(NULL)]: the clock does not go back. *)
Definition c_time : IO Z := fun w =>
  let '(d, ts) := match w_ticks w with [] => (0, []) | t :: ts => (Z.max 0 t, ts) end in
  let now := w_now w + d in
  (now, mkWorld (w_files w) (w_hist w) (w_dirs w) (w_faults w) now ts (w_order w)).

(** ** Streams *)

Record stream := mkStream {
  st_path : bytes;
  st_pos : nat;
  st_buf : bytes
}.

Definition file_write_at (content : bytes) (pos : nat) (data : bytes) : bytes :=
  take pos content ++ replicate (pos - length content) 0 ++ data ++ drop (pos + length data) content.

(** Move [data] to the file at the stream's position. *)
Definition st_commit (st : stream) (data : bytes) : IO unit :=
  match data with
  | [] => ret tt
  | _ => set_files (fun fs =>
           match fs !! st_path st with
           | Some c => <[st_path st := file_write_at c (st_pos st) data]> fs
           | None => fs
           end)
  end.

(** The bytes of [pending] that a call with this fault still transfers. *)
Definition transferred (f : option nat) (pending : bytes) : bytes :=
  match f with None => pending | Some k => take k pending end.

Definition st_flush (st : stream) : IO (bool * stream) :=
let!  f := next_fault in
  let out := transferred f (st_buf st) in
let!  _ := st_commit st out in
  ret (bool_decide (f = None), mkStream (st_path st) (st_pos st + length out) []).

Definition c_fflush (st : stream) : IO (bool * stream) := st_flush st.

Definition c_fclose (st : stream) : IO bool :=
  let! (ok, _) := st_flush st in
  ret ok.

Definition c_fopen_rb (path : bytes) : IO (option stream) :=
let!  f := next_fault in
let!  fs := get_files in
  ret (match f, fs !! path with
        | None, Some _ => Some (mkStream path 0 [])
        | _, _ => None
        end).

(** Mode "r+b" opens an existing file for reading and writing, as "rb" does. *)
Definition c_fopen_rpb (path : bytes) : IO (option stream) := c_fopen_rb path.

(** Mode "wb": created or truncated. *)
Definition c_fopen_wb (path : bytes) : IO (option stream) :=
let!  f := next_fault in
  match f with
  | Some _ => ret None
  | None =>let! _ := set_files (fun fs => <[path := []]> fs) in ret (Some (mkStream path 0 []))
  end.

Definition c_fread (st : stream) (n : nat) : IO (bytes * stream) :=
let!  f := next_fault in
let!  fs := get_files in
  let got := transferred f (take n (drop (st_pos st) (default [] (fs !! st_path st)))) in
  ret (got, mkStream (st_path st) (st_pos st + length got) (st_buf st)).

(** True when all of [data] was taken. *)
Definition c_fwrite (st : stream) (data : bytes) : IO (bool * stream) :=
let!  f := next_fault in
  match f with
  | None => ret (true, mkStream (st_path st) (st_pos st) (st_buf st ++ data))
  | Some k =>
      let out := take k (st_buf st ++ data) in
let!      _ := st_commit st out in
      ret (false, mkStream (st_path st) (st_pos st + length out) [])
  end.

Definition c_fseek (st : stream) (pos : Z) : IO (bool * stream) :=
  let! (ok, st) := st_flush st in
  ret (ok, if ok then mkStream (st_path st) (Z.to_nat pos) [] else st).

Definition file_truncate (content : bytes) (n : nat) : bytes :=
  take n content ++ replicate (n - length content) 0.

Definition c_ftruncate (st : stream) (n : Z) : IO bool :=
let!  f := next_fault in
  match f with
  | Some _ => ret false
  | None =>
let!      _ := set_files (fun fs =>
            match fs !! st_path st with
            | Some c => <[st_path st := file_truncate c (Z.to_nat n)]> fs
            | None => fs
            end) in
      ret true
  end.

(** ** Names *)

Definition c_unlink (path : bytes) : IO bool :=
let!  f := next_fault in
let!  fs := get_files in
  match f, fs !! path with
  | None, Some _ =>let! _ := set_files (fun fs => delete path fs) in ret true
  | _, _ => ret false
  end.

(** No file has the empty name. *)
Definition c_rename (from to : bytes) : IO bool :=
let!  f := next_fault in
let!  fs := get_files in
  match f, (if bool_decide (to = []) then None else fs !! from) with
  | None, Some c =>let! _ := set_files (fun fs => <[to := c]> (delete from fs)) in ret true
  | _, _ => ret false
  end.

(** [access(path, F_OK) == 0] *)
Definition c_access (path : bytes) : IO bool :=
let!  f := next_fault in
let!  fs := get_files in
  ret (match f, fs !! path with None, Some _ => true | _, _ => false end).

(** [stat]: the size. *)
Definition c_stat (path : bytes) : IO (option Z) :=
let!  f := next_fault in
let!  fs := get_files in
  ret (match f, fs !! path with None, Some c => Some (zlen c) | _, _ => None end).

Inductive mkdir_result : Type := MkdirOk | MkdirExists | MkdirFail.

Definition c_mkdir (path : bytes) : IO mkdir_result := fun w =>
  let '(f, w) := next_fault w in
  match f with
  | Some _ => (MkdirFail, w)
  | None =>
      if bool_decide (path ∈ w_dirs w) || bool_decide (is_Some (w_files w !! path))
      then (MkdirExists, w)
      else (MkdirOk, mkWorld (w_files w) (w_hist w) ({[path]} ∪ w_dirs w) (w_faults w)
                             (w_now w) (w_ticks w) (w_order w))
  end.

Definition slash : Z := ch "/".

(** The names of the files directly below the directory whose path, with its
    final slash, is [dir_slash]. *)
Definition dir_names (fs : files) (dir_slash : bytes) : list bytes :=
  omap (fun p => match strip_prefix dir_slash p with
                 | Some name => if bool_decide (slash ∈ name) then None else Some name
                 | None => None
                 end) (map_to_list fs).*1.

(** [opendir] and the [readdir] loop: the names in the order of the directory. *)
Definition c_readdir (dir_slash : bytes) : IO (option (list bytes)) :=
let!  f := next_fault in
  match f with
  | Some _ => ret None
  | None => fun w => (Some (w_order w (dir_names (w_files w) dir_slash)), w)
  end.

Definition order_ok (w : world) : Prop := forall l, w_order w l ≡ₚ l.

(** ** Reasoning *)

(** [hoare P m Q]: run from a world satisfying [P], [m] ends with a value and a
    world that satisfy [Q]. *)
Definition hoare {A} (P : world -> Prop) (m : IO A) (Q : A -> world -> Prop) : Prop :=
  forall w, P w -> let '(a, w') := m w in Q a w'.

Lemma hoare_ret {A} (P : world -> Prop) (a : A) (Q : A -> world -> Prop) :
  (forall w, P w -> Q a w) -> hoare P (ret a) Q.
Proof. intros H w Hw. by apply H. Qed.

Lemma hoare_bind {A B} P (m : IO A) R (k : A -> IO B) Q :
  hoare P m R -> (forall a, hoare (R a) (k a) Q) -> hoare P (io_bind m k) Q.
Proof.
  intros Hm Hk w Hw. unfold io_bind. specialize (Hm w Hw).
  destruct (m w) as [a w1]. by apply Hk.
Qed.

Lemma hoare_weaken {A} P P' (m : IO A) Q Q' :
  hoare P m Q -> (forall w, P' w -> P w) -> (forall a w, Q a w -> Q' a w) -> hoare P' m Q'.
Proof. intros H HP HQ w Hw. specialize (H w (HP w Hw)). destruct (m w). by apply HQ. Qed.

Lemma io_bind_run {A B} (m : IO A) (k : A -> IO B) w :
  (io_bind m k) w = k (m w).1 (m w).2.
Proof. unfold io_bind. by destruct (m w). Qed.

(** All states of the files a crash can leave behind. *)
Definition states (w : world) : list files := w_files w :: w_hist w.

(** Every state of the files since [base] was the history satisfies [I]. *)
Definition since (base : list files) (I : files -> Prop) (w : world) : Prop :=
  exists new, w_hist w = new ++ base /\ Forall I (w_files w :: new).

Definition keeps {A : Type} (I : files -> Prop) (m : IO A) : Prop :=
  forall base, hoare (since base I) m (fun _ => since base I).

Lemma since_now base I w : since base I w -> I (w_files w).
Proof. intros (new & _ & H). by apply Forall_cons_iff in H as [H _]. Qed.

Lemma since_start I w : I (w_files w) -> since (w_hist w) I w.
Proof. intros H. exists []. split; [done|]. by constructor. Qed.

Lemma since_always base I w : since base I w -> Forall I base -> Forall I (states w).
Proof.
  intros (new & Hh & H) Hb. unfold states. rewrite Hh. apply Forall_cons_iff in H as [H1 H2].
  constructor; [done|]. by apply Forall_app.
Qed.

Lemma since_weaken base I J w : (forall fs, I fs -> J fs) -> since base I w -> since base J w.
Proof. intros HIJ (new & Hh & H). exists new. split; [done|]. by eapply Forall_impl. Qed.

(** A run from a state of [I]: its steps, then those of what follows. *)
Lemma since_trans base I w w' : since base I w -> since (w_hist w) I w' -> since base I w'.
Proof.
  intros (n1 & H1 & F1) (n2 & H2 & F2). exists (n2 ++ n1). rewrite H2, H1, app_assoc.
  split; [done|]. apply Forall_cons_iff in F1 as [_ F1]. apply Forall_cons_iff in F2 as [? F2].
  constructor; [done|]. by apply Forall_app.
Qed.

Lemma keeps_set_files I f :
  (forall fs, I fs -> I (f fs)) -> keeps I (set_files f).
Proof.
  intros H base w (new & Hh & Hw). cbn. exists (w_files w :: new). cbn.
  split; [by rewrite Hh|]. constructor; [|done].
  apply Forall_cons_iff in Hw as [Hw _]. by apply H.
Qed.

Lemma keeps_next_fault I : keeps I next_fault.
Proof. intros base w Hw. unfold next_fault. by destruct (w_faults w). Qed.

Lemma keeps_time I : keeps I c_time.
Proof. intros base w Hw. unfold c_time. by destruct (w_ticks w). Qed.

Lemma keeps_ret {A : Type} I (a : A) : keeps I (ret a).
Proof. intros base. by apply hoare_ret. Qed.

Lemma keeps_bind {A B : Type} I (m : IO A) (k : A -> IO B) :
  keeps I m -> (forall a, keeps I (k a)) -> keeps I (io_bind m k).
Proof. intros Hm Hk base. eapply hoare_bind; [apply Hm | intros a; apply Hk]. Qed.

Lemma keeps_get I : keeps I get_files.
Proof. by intros base w Hw. Qed.

Lemma keeps_run {A : Type} I (m : IO A) w a w' base :
  keeps I m -> m w = (a, w') -> since base I w -> since base I w'.
Proof. intros Hm E Hw. specialize (Hm base w Hw). by rewrite E in Hm. Qed.

(** Close a [keeps] goal whose leaves are calls that do not change files. *)
Create HintDb keeps.
#[export] Hint Resolve keeps_ret keeps_next_fault keeps_time keeps_get : keeps.
Ltac keeps_tac :=
  repeat match goal with
  | |- keeps _ (io_bind _ _) => apply keeps_bind; [|intros ?]
  | |- keeps _ (let '(_, _) := ?x in _) => destruct x
  | |- keeps _ (match ?x with _ => _ end) => destruct x eqn:?
  | |- keeps _ _ => solve [auto with keeps]
  end.

Lemma keeps_fopen_rb I p : keeps I (c_fopen_rb p).
Proof. unfold c_fopen_rb. keeps_tac. Qed.
Lemma keeps_fopen_rpb I p : keeps I (c_fopen_rpb p).
Proof. apply keeps_fopen_rb. Qed.
Lemma keeps_fread I st n : keeps I (c_fread st n).
Proof. unfold c_fread. keeps_tac. Qed.
Lemma keeps_access I p : keeps I (c_access p).
Proof. unfold c_access. keeps_tac. Qed.
Lemma keeps_stat I p : keeps I (c_stat p).
Proof. unfold c_stat. keeps_tac. Qed.
Lemma keeps_readdir I d : keeps I (c_readdir d).
Proof. unfold c_readdir. keeps_tac. by intros base w Hw. Qed.
#[export] Hint Resolve keeps_fopen_rb keeps_fopen_rpb keeps_fread keeps_access keeps_stat
  keeps_readdir : keeps.

(** Calls that write, for an [I] that the write respects. *)
Lemma keeps_commit I st data :
  (forall fs c, I fs -> fs !! st_path st = Some c ->
     I (<[st_path st := file_write_at c (st_pos st) data]> fs)) ->
  keeps I (st_commit st data).
Proof.
  intros H. unfold st_commit. destruct data as [|b data]; [apply keeps_ret|].
  apply keeps_set_files. intros fs Hfs. destruct (fs !! st_path st) eqn:E; [by apply H | done].
Qed.

Lemma keeps_unlink I p :
  (forall fs, I fs -> I (delete p fs)) -> keeps I (c_unlink p).
Proof. intros H. unfold c_unlink. keeps_tac. by apply keeps_set_files. Qed.

(** The directory lists exactly the files directly below it. *)
Lemma dir_names_spec fs d name :
  name ∈ dir_names fs d <-> is_Some (fs !! (d ++ name)) /\ slash ∉ name.
Proof.
  unfold dir_names. rewrite list_elem_of_omap. split.
  - intros (p & Hp & E). destruct (strip_prefix d p) as [n|] eqn:Es; [|done].
    apply strip_prefix_sound in Es. subst p.
    destruct (bool_decide (slash ∈ n)) eqn:En; [done|]. injection E as ->.
    apply bool_decide_eq_false in En. split; [|done].
    apply list_elem_of_fmap in Hp as ([p c] & Ep & Hp). cbn in Ep. subst p.
    apply elem_of_map_to_list in Hp. by rewrite Hp.
  - intros [[c Hc] Hn]. exists (d ++ name). split.
    + apply list_elem_of_fmap. exists (d ++ name, c). split; [done|]. by apply elem_of_map_to_list.
    + rewrite strip_prefix_app. by rewrite bool_decide_eq_false_2.
Qed.

Lemma dir_names_nodup fs d : NoDup (dir_names fs d).
Proof.
  unfold dir_names. pose proof (NoDup_fst_map_to_list fs) as H.
  induction H as [|p l Hp Hl IH]; cbn; [constructor|].
  destruct (strip_prefix d p) as [n|] eqn:Es; cbn; [|done].
  destruct (bool_decide _); cbn; [done|]. constructor; [|done].
  intros Hin. apply list_elem_of_omap in Hin as (p' & Hp' & E).
  destruct (strip_prefix d p') as [n'|] eqn:Es'; [|done].
  destruct (bool_decide _); [done|]. injection E as ->.
  apply strip_prefix_sound in Es, Es'. by subst.
Qed.

(** ** Runs without faults *)

Definition quiet (w : world) : Prop := w_faults w = [].

Lemma run_fault w : quiet w -> next_fault w = (None, w).
Proof. unfold quiet, next_fault. by intros ->. Qed.

Lemma run_fopen_rb w p :
  quiet w -> c_fopen_rb p w =
    (match w_files w !! p with Some _ => Some (mkStream p 0 []) | None => None end, w).
Proof. intros Hq. unfold c_fopen_rb, io_bind. by rewrite run_fault. Qed.

Lemma run_fread w st n c :
  quiet w -> w_files w !! st_path st = Some c ->
  c_fread st n w =
    (let got := take n (drop (st_pos st) c) in
     (got, mkStream (st_path st) (st_pos st + length got) (st_buf st)), w).
Proof. intros Hq Hc. unfold c_fread, io_bind, get_files. by rewrite run_fault, Hc. Qed.

Lemma run_fclose_clean w st : quiet w -> st_buf st = [] -> c_fclose st w = (true, w).
Proof. intros Hq Hb. unfold c_fclose, st_flush, io_bind. rewrite run_fault by done. by rewrite Hb. Qed.

Lemma run_fseek_clean w st pos :
  quiet w -> st_buf st = [] -> c_fseek st pos w = ((true, mkStream (st_path st) (Z.to_nat pos) []), w).
Proof. intros Hq Hb. unfold c_fseek, st_flush, io_bind. rewrite run_fault by done. by rewrite Hb. Qed.

Lemma run_stat w p : quiet w -> c_stat p w = (zlen <$> w_files w !! p, w).
Proof. intros Hq. unfold c_stat, io_bind. rewrite run_fault by done. unfold get_files. by destruct (_ !! p). Qed.

Lemma run_readdir w d : quiet w -> c_readdir d w = (Some (w_order w (dir_names (w_files w) d)), w).
Proof. intros Hq. unfold c_readdir, io_bind. by rewrite run_fault. Qed.

Lemma run_bind {A B : Type} (m : IO A) (k : A -> IO B) w a w' :
  m w = (a, w') -> (io_bind m k) w = k a w'.
Proof. intros E. unfold io_bind. by rewrite E. Qed.

(** ** Inverting runs: faults allowed *)

Lemma bind_inv {A B : Type} (m : IO A) (k : A -> IO B) w b w' :
  (io_bind m k) w = (b, w') -> exists a w1, m w = (a, w1) /\ k a w1 = (b, w').
Proof. unfold io_bind. destruct (m w) as [a w1]. eauto. Qed.

(** Split the runs of a hypothesis [io_bind m k w = r]. *)
Tactic Notation "run_inv" hyp(H) "as" simple_intropattern(x) ident(w) ident(E) :=
  apply bind_inv in H as (x & w & E & H).

Lemma fault_files w f w' : next_fault w = (f, w') -> w_files w' = w_files w.
Proof. unfold next_fault. by destruct (w_faults w); intros [= <- <-]. Qed.

Lemma fopen_rb_inv p w r w' :
  c_fopen_rb p w = (r, w') ->
  w_files w' = w_files w /\
  (forall st, r = Some st -> st = mkStream p 0 [] /\ is_Some (w_files w !! p)).
Proof.
  unfold c_fopen_rb. intros H. run_inv H as f w1 E. apply fault_files in E.
  run_inv H as fs w2 E2. injection E2 as <- <-. injection H as <- <-. split; [done|].
  rewrite E. intros st. destruct f; [done|]. destruct (w_files w !! p); [|done].
  intros [= <-]. eauto.
Qed.

Lemma fread_inv st n w got st' w' :
  c_fread st n w = ((got, st'), w') ->
  w_files w' = w_files w /\ st_path st' = st_path st /\ st_buf st' = st_buf st /\
  st_pos st' = (st_pos st + length got)%nat /\
  got `prefix_of` take n (drop (st_pos st) (default [] (w_files w !! st_path st))).
Proof.
  unfold c_fread. intros H. run_inv H as f w1 E. apply fault_files in E.
  run_inv H as fs w2 E2. injection E2 as <- <-. injection H as <- <- <-. rewrite E.
  split_and!; try done. unfold transferred. destruct f; [apply prefix_take | done].
Qed.

(** A full read is the file's bytes. *)
Lemma fread_full st n w got st' w' :
  c_fread st n w = ((got, st'), w') -> length got = n ->
  got = take n (drop (st_pos st) (default [] (w_files w !! st_path st))) /\
  (st_pos st + n <= length (default [] (w_files w !! st_path st)) \/ n = 0)%nat.
Proof.
  intros H Hl. apply fread_inv in H as (_ & _ & _ & _ & [k Hk]).
  pose proof (f_equal length Hk) as Hn. rewrite length_take, length_drop, length_app in Hn.
  assert (k = []) as -> by (destruct k; [done | cbn in Hn; lia]).
  rewrite app_nil_r in Hk. split; [done|]. cbn in Hn. lia.
Qed.

Lemma fclose_clean_files st w b w' :
  c_fclose st w = (b, w') -> st_buf st = [] -> w_files w' = w_files w.
Proof.
  unfold c_fclose, st_flush. intros H Hb. run_inv H as [ok st'] w1 E. injection H as <- <-.
  run_inv E as f w2 E2. apply fault_files in E2. rewrite Hb in E.
  assert (Ht : transferred f [] = []) by (unfold transferred; destruct f as [k|]; [by destruct k | done]).
  rewrite Ht in E. run_inv E as u w3 E3. injection E3 as <- <-. by injection E as <- <- <-.
Qed.

Lemma stat_inv p w r w' :
  c_stat p w = (r, w') -> w_files w' = w_files w /\
  (forall n, r = Some n -> exists c, w_files w !! p = Some c /\ n = zlen c).
Proof.
  unfold c_stat. intros H. run_inv H as f w1 E. apply fault_files in E.
  run_inv H as fs w2 E2. injection E2 as <- <-. injection H as <- <-. split; [done|].
  rewrite E. intros n. destruct f; [done|]. destruct (w_files w !! p); [|done].
  intros [= <-]. eauto.
Qed.

Lemma readdir_files d w r w' : c_readdir d w = (r, w') -> w_files w' = w_files w.
Proof.
  unfold c_readdir. intros H. run_inv H as f w1 E. apply fault_files in E.
  destruct f; by injection H as <- <-.
Qed.

(** [I] does not look at the file [p]. *)
Definition blind (p : bytes) (I : files -> Prop) : Prop :=
  (forall fs c, I fs -> I (<[p := c]> fs)) /\ (forall fs, I fs -> I (delete p fs)).

Lemma keeps_flush I st :
  (forall fs c k, I fs -> fs !! st_path st = Some c ->
     I (<[st_path st := file_write_at c (st_pos st) (take k (st_buf st))]> fs)) ->
  keeps I (st_flush st).
Proof.
  intros H. unfold st_flush. keeps_tac. apply keeps_commit. intros fs c Hi Hc.
  destruct a as [k|]; cbn [transferred]; [by apply H|].
  specialize (H fs c (length (st_buf st)) Hi Hc). by rewrite firstn_all in H.
Qed.

Lemma keeps_fwrite I st data :
  (forall fs c k, I fs -> fs !! st_path st = Some c ->
     I (<[st_path st := file_write_at c (st_pos st) (take k (st_buf st ++ data))]> fs)) ->
  keeps I (c_fwrite st data).
Proof.
  intros H. unfold c_fwrite. keeps_tac. apply keeps_commit. intros fs c Hi Hc. by apply H.
Qed.

Lemma keeps_fclose I st :
  (forall fs c k, I fs -> fs !! st_path st = Some c ->
     I (<[st_path st := file_write_at c (st_pos st) (take k (st_buf st))]> fs)) ->
  keeps I (c_fclose st).
Proof. intros H. unfold c_fclose. apply keeps_bind; [by apply keeps_flush|]. intros []. apply keeps_ret. Qed.

Lemma transferred_nil f : transferred f [] = [].
Proof. unfold transferred. destruct f as [k|]; [by destruct k | done]. Qed.

Lemma keeps_flush_clean I st : st_buf st = [] -> keeps I (st_flush st).
Proof. intros Hb. unfold st_flush. rewrite Hb. keeps_tac. rewrite transferred_nil. apply keeps_ret. Qed.

Lemma keeps_fclose_clean I st : st_buf st = [] -> keeps I (c_fclose st).
Proof. intros Hb. unfold c_fclose. apply keeps_bind; [by apply keeps_flush_clean|]. intros []. apply keeps_ret. Qed.

Lemma keeps_fseek_clean I st pos : st_buf st = [] -> keeps I (c_fseek st pos).
Proof. intros Hb. unfold c_fseek. apply keeps_bind; [by apply keeps_flush_clean|]. intros []. apply keeps_ret. Qed.

Lemma keeps_blind_fopen_wb I p : blind p I -> keeps I (c_fopen_wb p).
Proof. intros [H _]. unfold c_fopen_wb. keeps_tac. apply keeps_set_files. auto. Qed.

Lemma keeps_blind_unlink I p : blind p I -> keeps I (c_unlink p).
Proof. intros [_ H]. by apply keeps_unlink. Qed.

(** What the results of writing calls say about the files. *)
Lemma fault_hist w f w' : next_fault w = (f, w') -> w_hist w' = w_hist w.
Proof. unfold next_fault. by destruct (w_faults w); intros [= <- <-]. Qed.

Lemma fwrite_inv st data w ok st' w' :
  c_fwrite st data w = ((ok, st'), w') ->
  st_path st' = st_path st /\
  (ok = true -> w_files w' = w_files w /\ st' = mkStream (st_path st) (st_pos st) (st_buf st ++ data)) /\
  (ok = false -> st_buf st' = []).
Proof.
  unfold c_fwrite. intros H. run_inv H as f w1 E. apply fault_files in E. destruct f as [k|].
  - run_inv H as u w2 E2. injection H as <- <- <-. done.
  - by injection H as <- <- <-.
Qed.

Lemma commit_files st data w u w' c :
  st_commit st data w = (u, w') -> w_files w !! st_path st = Some c ->
  w_files w' = match data with [] => w_files w
               | _ => <[st_path st := file_write_at c (st_pos st) data]> (w_files w) end.
Proof.
  unfold st_commit. intros H Hc. destruct data; injection H as <- <-; [done|]. cbn. by rewrite Hc.
Qed.

Lemma fflush_inv st w ok st' w' c :
  st_flush st w = ((ok, st'), w') -> w_files w !! st_path st = Some c ->
  st_path st' = st_path st /\ st_buf st' = [] /\
  (ok = true -> st_pos st' = (st_pos st + length (st_buf st))%nat /\
     w_files w' = match st_buf st with [] => w_files w
                  | _ => <[st_path st := file_write_at c (st_pos st) (st_buf st)]> (w_files w) end).
Proof.
  unfold st_flush. intros H Hc. run_inv H as f w1 E. apply fault_files in E.
  run_inv H as u w2 E2. injection H as <- <- <-. split_and!; [done..|].
  intros Hf. apply bool_decide_eq_true in Hf as ->. split; [done|].
  rewrite <- E in Hc. rewrite (commit_files _ _ _ _ _ _ E2 Hc), E. done.
Qed.

Lemma fseek_inv st pos w ok st' w' :
  c_fseek st pos w = ((ok, st'), w') ->
  st_path st' = st_path st /\ st_buf st' = [] /\ (ok = true -> st_pos st' = Z.to_nat pos) /\
  (st_buf st = [] -> w_files w' = w_files w).
Proof.
  unfold c_fseek. intros H. run_inv H as [b s1] w1 E. injection H as <- <- <-.
  unfold st_flush in E. run_inv E as f w2 E2. apply fault_files in E2. run_inv E as u w3 E3.
  injection E as <- <- <-.
  assert (Hnil : st_buf st = [] -> w_files w3 = w_files w).
  { intros Hb. rewrite Hb in E3.
    rewrite transferred_nil in E3. by injection E3 as <- <-. }
  destruct (bool_decide (f = None)); split_and!; done.
Qed.

Lemma fopen_wb_inv p w r w' :
  c_fopen_wb p w = (r, w') ->
  forall st, r = Some st -> st = mkStream p 0 [] /\ w_files w' !! p = Some [].
Proof.
  unfold c_fopen_wb. intros H. run_inv H as f w1 E. destruct f; [by injection H as <- <-|].
  run_inv H as u w2 E2. injection E2 as <- <-. injection H as <- <-. intros st [= <-].
  split; [done|]. apply lookup_insert_eq.
Qed.

Lemma rename_inv a b w r w' :
  c_rename a b w = (r, w') ->
  (r = true -> exists c, w_files w !! a = Some c /\ w_files w' = <[b := c]> (delete a (w_files w))) /\
  (r = false -> w_files w' = w_files w).
Proof.
  unfold c_rename. intros H. run_inv H as f w1 E. apply fault_files in E.
  run_inv H as fs w2 E2. injection E2 as <- <-. rewrite E in H.
  destruct f; [by injection H as <- <-|]. case_bool_decide; [by injection H as <- <-|]. destruct (w_files w !! a) as [c|] eqn:Hc.
  - run_inv H as u w3 E3. injection E3 as <- <-. injection H as <- <-. cbn. rewrite E. split; [eauto|done].
  - by injection H as <- <-.
Qed.

(** ** Writing without faults *)

Lemma run_fwrite w st data :
  quiet w -> c_fwrite st data w = ((true, mkStream (st_path st) (st_pos st) (st_buf st ++ data)), w).
Proof. intros Hq. unfold c_fwrite, io_bind. by rewrite run_fault. Qed.

Lemma run_fopen_wb w p :
  quiet w -> exists w', c_fopen_wb p w = (Some (mkStream p 0 []), w') /\ quiet w' /\
    w_files w' = <[p := []]> (w_files w) /\ w_order w' = w_order w.
Proof. intros Hq. unfold c_fopen_wb, io_bind. rewrite run_fault by done. by eexists. Qed.

Lemma run_fflush w st c :
  quiet w -> w_files w !! st_path st = Some c ->
  exists w', c_fflush st w = ((true, mkStream (st_path st) (st_pos st + length (st_buf st)) []), w') /\
    quiet w' /\ w_order w' = w_order w /\
    w_files w' = match st_buf st with [] => w_files w
                 | _ => <[st_path st := file_write_at c (st_pos st) (st_buf st)]> (w_files w) end.
Proof.
  intros Hq Hc. unfold c_fflush, st_flush, io_bind, st_commit. rewrite run_fault by done.
  cbn [transferred]. destruct (st_buf st); eexists; split_and!; try done. cbn. by rewrite Hc.
Qed.

Lemma run_rename w a b c :
  quiet w -> w_files w !! a = Some c -> b <> [] ->
  exists w', c_rename a b w = (true, w') /\ quiet w' /\ w_order w' = w_order w /\
    w_files w' = <[b := c]> (delete a (w_files w)).
Proof.
  intros Hq Hc Hb. unfold c_rename, io_bind. rewrite run_fault by done. unfold get_files. rewrite bool_decide_eq_false_2, Hc by done. by eexists.
Qed.

Lemma run_access w p : quiet w -> c_access p w = (bool_decide (is_Some (w_files w !! p)), w).
Proof.
  intros Hq. unfold c_access, io_bind. rewrite run_fault by done. unfold get_files, ret.
  destruct (w_files w !! p); [by rewrite bool_decide_eq_true_2 by eauto|].
  rewrite bool_decide_eq_false_2; [done|]. by intros [].
Qed.

Lemma run_time_quiet w : quiet w -> exists now w', c_time w = (now, w') /\ quiet w' /\
  w_files w' = w_files w /\ w_order w' = w_order w.
Proof. intros Hq. unfold c_time. destruct (w_ticks w); do 2 eexists; done. Qed.

(** ** Descriptors: [open] with O_CREAT|O_EXCL, [write], [close] *)

Inductive open_result : Type := OpenOk (fd : stream) | OpenExists | OpenFail.

Definition c_open_excl (path : bytes) : IO open_result :=
  let! f := next_fault in
  let! fs := get_files in
  match f with
  | Some _ => ret OpenFail
  | None =>
      match fs !! path with
      | Some _ => ret OpenExists
      | None => let! _ := set_files (fun fs => <[path := []]> fs) in ret (OpenOk (mkStream path 0 []))
      end
  end.

(** One [write]: the number of bytes taken, [None] for an error.  A fault
    [Some 0] is an error, [Some k] a short write. *)
Definition c_write (fd : stream) (data : bytes) : IO (option nat * stream) :=
  let! f := next_fault in
  match f with
  | Some O => ret (None, fd)
  | _ =>
      let out := transferred f data in
      let! _ := st_commit fd out in
      ret (Some (length out), mkStream (st_path fd) (st_pos fd + length out) [])
  end.

Definition c_close (fd : stream) : IO bool :=
  let! f := next_fault in ret (bool_decide (f = None)).

Lemma keeps_open_excl I p :
  (forall fs, I fs -> fs !! p = None -> I (<[p := []]> fs)) -> keeps I (c_open_excl p).
Proof.
  intros H base w Hw. destruct (c_open_excl p w) as [r w'] eqn:E. unfold c_open_excl in E.
  run_inv E as f w1 E1. pose proof (keeps_run _ _ _ _ _ base (keeps_next_fault I) E1 Hw) as Hw1.
  run_inv E as fs w2 E2. injection E2 as <- <-. destruct f; [by injection E as <- <-|].
  destruct (w_files w1 !! p) eqn:Hp; [by injection E as <- <-|].
  run_inv E as u w3 E3. injection E as <- <-. injection E3 as <- <-.
  destruct Hw1 as (new & Hh & HF). exists (w_files w1 :: new). cbn.
  split; [by rewrite Hh|]. constructor; [|done]. apply Forall_cons_iff in HF as [HF _]. by apply H.
Qed.

Lemma keeps_close I fd : keeps I (c_close fd).
Proof. unfold c_close. keeps_tac. Qed.

Lemma keeps_mkdir I p : keeps I (c_mkdir p).
Proof.
  intros base w Hw. unfold c_mkdir. destruct (next_fault w) as [f w1] eqn:E.
  pose proof (keeps_run _ _ _ _ _ base (keeps_next_fault I) E Hw) as Hw1.
  destruct f; [done|]. by destruct (_ || _).
Qed.
#[export] Hint Resolve keeps_close keeps_mkdir : keeps.

Lemma mkdir_files p w r w' : c_mkdir p w = (r, w') -> w_files w' = w_files w.
Proof.
  unfold c_mkdir. destruct (next_fault w) as [f w1] eqn:E. apply fault_files in E.
  destruct f; [by intros [= <- <-]|]. by destruct (_ || _); intros [= <- <-].
Qed.

Lemma open_excl_inv p w r w' :
  c_open_excl p w = (r, w') ->
  match r with
  | OpenOk fd => fd = mkStream p 0 [] /\ w_files w !! p = None /\ w_files w' = <[p := []]> (w_files w)
  | OpenExists => is_Some (w_files w !! p) /\ w_files w' = w_files w
  | OpenFail => w_files w' = w_files w
  end.
Proof.
  unfold c_open_excl. intros E. run_inv E as f w1 E1. apply fault_files in E1.
  run_inv E as fs w2 E2. injection E2 as <- <-. rewrite E1 in E.
  destruct f; [by injection E as <- <-|]. destruct (w_files w !! p) eqn:Hp.
  - injection E as <- <-. rewrite E1. eauto.
  - run_inv E as u w3 E3. injection E3 as <- <-. injection E as <- <-. cbn. by rewrite E1.
Qed.

Lemma take_length_take {A : Type} n (l : list A) : take (length (take n l)) l = take n l.
Proof. rewrite length_take, <- take_take. by rewrite (take_ge l (length l)). Qed.

Lemma write_inv fd data w r fd' w' c :
  c_write fd data w = ((r, fd'), w') -> w_files w !! st_path fd = Some c ->
  st_path fd' = st_path fd /\
  match r with
  | None => w_files w' = w_files w
  | Some n => (n <= length data)%nat /\ st_pos fd' = (st_pos fd + n)%nat /\ (data <> [] -> n <> 0%nat) /\
      (data <> [] -> w_files w' = <[st_path fd := file_write_at c (st_pos fd) (take n data)]> (w_files w))
  end.
Proof.
  unfold c_write. intros E Hc. run_inv E as f w1 E1. apply fault_files in E1. rewrite <- E1 in Hc.
  destruct f as [[|k]|].
  - injection E as <- <- <-. done.
  - run_inv E as u w2 E2. injection E as <- <- <-. cbn [st_path st_pos transferred].
    pose proof (commit_files _ _ _ _ _ _ E2 Hc) as Hf. cbn [transferred] in Hf.
    split_and!; [done|rewrite length_take; lia|done| |].
    + destruct data; [done|]. cbn. lia.
    + intros Hd. rewrite Hf, E1, take_length_take. by destruct data.
  - run_inv E as u w2 E2. injection E as <- <- <-. cbn [st_path st_pos transferred].
    pose proof (commit_files _ _ _ _ _ _ E2 Hc) as Hf. cbn [transferred] in Hf.
    split_and!; [done|lia|done|by destruct data|]. intros Hd. rewrite Hf, E1, firstn_all. by destruct data.
Qed.
