(* ===== verification/KvFile.v ===== *)
(** * KvFile: the checkpoint file and the writes it survives

    A checkpoint file is a header, the text length, the text, the payload and an
    optional trailer.  Rewriting the trailer or the hit counter of a file, torn
    after any number of bytes, leaves a file with the same text and payload. *)

From S2P Require Import Prelude Ctype Sha KvHeader Fs.

(** The header bytes that identify a checkpoint: all but the reason, the
    extension flags, the hit count, the reserved bytes and the last use. *)
Definition keep_pos : list nat :=
  [0; 1; 2; 3; 4; 7; 8; 9; 10; 11; 16; 17; 18; 19; 20;
   24; 25; 26; 27; 28; 29; 30; 31; 40; 41; 42; 43; 44; 45; 46; 47]%nat.

Definition agree (h h0 : bytes) : Prop := Forall (fun i => nth i h 0 = nth i h0 0) keep_pos.

(** A header that [ds4_kvstore_read_header] accepts, for a payload of [n] bytes. *)
Definition good_header (h : bytes) (n : Z) : Prop :=
  length h = 48%nat /\ header_magic_ok h = true /\ nth 20 h 0 = KV_CACHE_PAYLOAD_ABI /\
  e_tokens (header_entry h) <> 0 /\
  (e_quant_bits (header_entry h) = 2 \/ e_quant_bits (header_entry h) = 4) /\
  e_payload_bytes (header_entry h) = n.

(** A file with the identity of header [h0]. *)
Definition ckpt (h0 text payload c : bytes) : Prop :=
  exists h trailer, length h = 48%nat /\ agree h h0 /\
    c = h ++ ds4_kvstore_le_put32 (zlen text) ++ text ++ payload ++ trailer.

Definition is_checkpoint (text payload c : bytes) : Prop :=
  exists h0, good_header h0 (zlen payload) /\ ckpt h0 text payload c.

Lemma agree_refl h : agree h h.
Proof. by apply Forall_intro. Qed.

Lemma agree_sym h h' : agree h h' -> agree h' h.
Proof. intros H. apply Forall_intro. intros i Hi. symmetry. exact (Forall_elem _ _ i H Hi). Qed.

Lemma agree_trans a b c : agree a b -> agree b c -> agree a c.
Proof.
  intros H1 H2. apply Forall_intro. intros i Hi.
  by rewrite (Forall_elem _ _ i H1 Hi), (Forall_elem _ _ i H2 Hi).
Qed.

Lemma agree_mix a b c :
  Forall (fun i => nth i c 0 = nth i a 0 \/ nth i c 0 = nth i b 0) keep_pos -> agree a b -> agree c b.
Proof.
  intros Hc Hab. apply Forall_intro. intros i Hi.
  destruct (Forall_elem _ _ i Hc Hi) as [E|E]; [|done].
  by rewrite E, (Forall_elem _ _ i Hab Hi).
Qed.

Lemma seg_nth (h : bytes) i n :
  (i + n <= length h)%nat -> take n (drop i h) = map (fun j => nth j h 0) (seq i n).
Proof.
  revert i. induction n as [|n IH]; intros i Hi; [by rewrite take_0|].
  cbn [seq map]. rewrite <- IH by lia.
  destruct (lookup_lt_is_Some_2 h i ltac:(lia)) as [x Hx].
  rewrite (drop_S h x i Hx). cbn [take]. f_equal. symmetry. by apply nth_lookup_Some.
Qed.

Lemma agree_seg h h0 i n :
  length h = 48%nat -> length h0 = 48%nat -> agree h h0 -> (i + n <= 48)%nat ->
  Forall (fun j => j ∈ keep_pos) (seq i n) -> take n (drop i h) = take n (drop i h0).
Proof.
  intros Hl Hl0 Ha Hi Hk. rewrite !seg_nth by lia. apply map_ext_in. intros j Hj.
  apply (Forall_elem _ _ j Ha). apply (Forall_elem _ _ j Hk). by apply list_elem_of_In.
Qed.

Lemma agree_nth h h0 i : agree h h0 -> bool_decide (i ∈ keep_pos) = true -> nth i h 0 = nth i h0 0.
Proof. intros Ha Hi. apply bool_decide_eq_true in Hi. exact (Forall_elem _ _ i Ha Hi). Qed.

#[local] Ltac in_keep := apply (bool_decide_eq_true_1 _); vm_compute; reflexivity.

(** The fields that [agree] fixes. *)
Lemma agree_fields h h0 :
  length h = 48%nat -> length h0 = 48%nat -> agree h h0 ->
  header_magic_ok h = header_magic_ok h0 /\ nth 20 h 0 = nth 20 h0 0 /\
  e_quant_bits (header_entry h) = e_quant_bits (header_entry h0) /\
  e_model_id (header_entry h) = e_model_id (header_entry h0) /\
  e_tokens (header_entry h) = e_tokens (header_entry h0) /\
  e_ctx_size (header_entry h) = e_ctx_size (header_entry h0) /\
  e_created_at (header_entry h) = e_created_at (header_entry h0) /\
  e_payload_bytes (header_entry h) = e_payload_bytes (header_entry h0).
Proof.
  intros Hl Hl0 Ha. unfold header_magic_ok, header_entry. cbn [e_quant_bits e_model_id e_tokens
    e_ctx_size e_created_at e_payload_bytes].
  assert (H32 : forall i, (i + 4 <= 48)%nat -> Forall (fun j => j ∈ keep_pos) (seq i 4) ->
    ds4_kvstore_le_get32 (drop i h) = ds4_kvstore_le_get32 (drop i h0)).
  { intros i Hi Hk. rewrite <- (le_get32_take (drop i h)), <- (le_get32_take (drop i h0)).
    by rewrite (agree_seg h h0). }
  assert (H64 : forall i, (i + 8 <= 48)%nat -> Forall (fun j => j ∈ keep_pos) (seq i 8) ->
    kv_le_get64 (drop i h) = kv_le_get64 (drop i h0)).
  { intros i Hi Hk. rewrite <- (le_get64_take (drop i h)), <- (le_get64_take (drop i h0)).
    by rewrite (agree_seg h h0). }
  rewrite !(agree_nth h h0) by (done || (vm_compute; reflexivity)).
  split_and!; try done; (apply H32 || apply H64); try lia; in_keep.
Qed.

Lemma agree_good h h0 n : length h = 48%nat -> agree h h0 -> good_header h0 n -> good_header h n.
Proof.
  intros Hl Ha (Hl0 & Hm & Hb & Ht & Hq & Hp).
  destruct (agree_fields h h0 Hl Hl0 Ha) as (E1 & E2 & E3 & _ & E5 & _ & _ & E8).
  unfold good_header. by rewrite E1, E2, E3, E5, E8.
Qed.

(** A checkpoint file reads back its header, text and payload. *)
Lemma checkpoint_read text payload c :
  in_u 32 (zlen text) -> is_checkpoint text payload c ->
  exists hdr trailer, ds4_kvstore_read_header c = Some (hdr, text ++ payload ++ trailer) /\
    e_text_bytes hdr = zlen text /\ e_payload_bytes hdr = zlen payload.
Proof.
  intros Ht (h0 & Hg & h & trailer & Hl & Ha & ->).
  pose proof (agree_good h h0 _ Hl Ha Hg) as (_ & Hm & Hb & Htk & Hq & Hp).
  rewrite read_header_split by done. cbv zeta. rewrite Hm, Hb.
  rewrite <- (app_nil_r (ds4_kvstore_le_put32 _)), le_get_put32 by done.
  unfold set_text_bytes. cbn [e_tokens e_quant_bits].
  destruct (Z.eqb_spec (e_tokens (header_entry h)) 0); [done|].
  exists (set_text_bytes (header_entry h) (zlen text)), trailer.
  unfold set_text_bytes. cbn [e_text_bytes e_payload_bytes].
  split_and!; [|done|done]. by destruct Hq as [-> | ->].
Qed.

(** ** Writes *)

Lemma write_tail (a b : bytes) pos data :
  (length a <= pos)%nat -> exists b', file_write_at (a ++ b) pos data = a ++ b'.
Proof.
  intros Hp. unfold file_write_at. rewrite take_app_ge by lia.
  rewrite <- app_assoc. by eexists.
Qed.

Lemma write_head (h r data : bytes) :
  (length data <= length h)%nat ->
  file_write_at (h ++ r) 0 data = (data ++ drop (length data) h) ++ r.
Proof.
  intros Hd. unfold file_write_at. rewrite take_0, Nat.sub_0_l. cbn [replicate app Nat.add].
  by rewrite drop_app_le, app_assoc by lia.
Qed.

Lemma truncate_tail (a b : bytes) : file_truncate (a ++ b) (length a) = a.
Proof.
  unfold file_truncate. rewrite take_app_length. rewrite length_app.
  replace (_ - _)%nat with 0%nat by lia. apply app_nil_r.
Qed.

Definition body_len (text payload : bytes) : nat := (52 + length text + length payload)%nat.

Lemma ckpt_split h text payload trailer :
  length h = 48%nat ->
  h ++ ds4_kvstore_le_put32 (zlen text) ++ text ++ payload ++ trailer
  = (h ++ ds4_kvstore_le_put32 (zlen text) ++ text ++ payload) ++ trailer /\
  length (h ++ ds4_kvstore_le_put32 (zlen text) ++ text ++ payload) = body_len text payload.
Proof.
  intros Hl. split; [by rewrite <- !app_assoc|]. rewrite !length_app, Hl. unfold body_len. cbn. lia.
Qed.

Lemma ckpt_write_tail h0 text payload c pos data :
  ckpt h0 text payload c -> (body_len text payload <= pos)%nat ->
  ckpt h0 text payload (file_write_at c pos data).
Proof.
  intros (h & tr & Hl & Ha & ->) Hp. destruct (ckpt_split h text payload tr Hl) as [-> Hb].
  destruct (write_tail (h ++ ds4_kvstore_le_put32 (zlen text) ++ text ++ payload) tr pos data)
    as [b' ->]; [lia|].
  exists h, b'. split_and!; [done..|]. by rewrite <- !app_assoc.
Qed.

Lemma ckpt_truncate h0 text payload c :
  ckpt h0 text payload c -> ckpt h0 text payload (file_truncate c (body_len text payload)).
Proof.
  intros (h & tr & Hl & Ha & ->). destruct (ckpt_split h text payload tr Hl) as [-> Hb].
  rewrite <- Hb, truncate_tail. exists h, []. split_and!; [done..|]. by rewrite app_nil_r.
Qed.

Lemma torn_agree h hb h0 k :
  length h = 48%nat -> length hb = 48%nat -> agree h h0 -> agree hb h0 ->
  agree (take k hb ++ drop (length (take k hb)) h) h0.
Proof.
  intros Hl Hlb Ha Hab. apply Forall_intro. intros i Hi.
  assert (H48 : (i < 48)%nat).
  { assert (HF : Forall (fun i => i < 48)%nat keep_pos) by in_keep. exact (Forall_elem _ _ i HF Hi). }
  destruct (decide (i < length (take k hb))%nat) as [Hk|Hk].
  - rewrite app_nth1 by done. rewrite length_take in Hk.
    rewrite <- (Forall_elem _ _ i Hab Hi). rewrite <- (take_drop k hb) at 2.
    rewrite app_nth1; [done | rewrite length_take; lia].
  - rewrite app_nth2 by lia. rewrite <- (Forall_elem _ _ i Ha Hi).
    set (n := length (take k hb)) in *.
    rewrite <- (take_drop n h) at 2.
    assert (Hn : (n <= 48)%nat) by (subst n; rewrite length_take; lia).
    rewrite app_nth2; rewrite length_take; [|lia]. f_equal. lia.
Qed.

(** Overwriting the header with an agreeing one, torn anywhere. *)
Lemma ckpt_write_head h0 text payload c hb k :
  ckpt h0 text payload c -> length hb = 48%nat -> agree hb h0 ->
  ckpt h0 text payload (file_write_at c 0 (take k hb)).
Proof.
  intros (h & tr & Hl & Ha & ->) Hlb Hab.
  rewrite write_head by (rewrite length_take; lia).
  exists (take k hb ++ drop (length (take k hb)) h), tr. split_and!.
  - rewrite length_app, length_drop, length_take. lia.
  - by apply torn_agree.
  - done.
Qed.

(** A header refilled with another reason, hit count, flags and last use. *)
Lemma refill_agree h reason ext hits lu :
  length h = 48%nat -> bytes_ok h -> header_magic_ok h = true ->
  nth 20 h 0 = KV_CACHE_PAYLOAD_ABI ->
  let e := header_entry h in
  agree (ds4_kvstore_fill_header (e_model_id e) (e_quant_bits e) reason ext (e_tokens e) hits
           (e_ctx_size e) (e_created_at e) lu (e_payload_bytes e)) h.
Proof.
  intros Hl Hok Hm Hb e. apply agree_sym.
  rewrite (header_bytes_inv h Hl Hok Hm Hb) at 1. fold e.
  set (pad := take 3 (drop 21 h)).
  assert (Hp : length pad = 3%nat) by (subst pad; rewrite length_take, length_drop; lia).
  clearbody pad e. destruct pad as [|a [|b [|c [|? ?]]]]; try done.
  unfold agree, keep_pos, raw_header, ds4_kvstore_fill_header, ds4_kvstore_le_put32, kv_le_put64.
  cbn [map app]. repeat constructor.
Qed.
