(* ===== verification/KvStore.v ===== *)
(** * KvStore: the disk cache of KV checkpoints

    First the double arithmetic of the eviction score: IEEE 754 binary64 through the Standard Library's [SpecFloat]: values are
    computed, and every operation rounds to nearest even. *)

From S2P Require Import Prelude Sha Ctype KvHeader Fs.
From Stdlib Require Import Floats.SpecFloat.

Abbreviation double := spec_float.

Definition d_of_Z (z : Z) : double := binary_normalize 53 1024 z 0 false.
Definition d_add : double -> double -> double := SFadd 53 1024.
Definition d_mul : double -> double -> double := SFmul 53 1024.
Definition d_div : double -> double -> double := SFdiv 53 1024.
Definition d_neg : double -> double := SFopp.
Definition d_lt (a b : double) : bool := SFltb a b.
Definition d_eq (a b : double) : bool := SFeqb a b.

Definition d_zero : double := d_of_Z 0.
Definition d_one : double := d_of_Z 1.
(** The decimal literal p/q: [p] and [q] are exact, so the division rounds once. *)
Definition d_lit (p q : Z) : double := d_div (d_of_Z p) (d_of_Z q).

(** [<] on non-NaN doubles is a strict weak order whose indifference is [==].
    The comparison of [SpecFloat] is lexicographic on sign, exponent and
    significand; [d_key] makes that explicit. *)
Definition d_is_nan (a : double) : bool :=
  match a with S754_nan => true | _ => false end.

Definition pos_key (e : Z) (m : positive) : Z * Z := (e, Zpos m).

Definition d_key (a : double) : Z * (Z * Z) :=
  match a with
  | S754_zero _ => (0, (0, 0))
  | S754_infinity false => (2, (0, 0))
  | S754_infinity true => (-2, (0, 0))
  | S754_finite false m e => (1, (e, Zpos m))
  | S754_finite true m e => (-1, (- e, Zneg m))
  | S754_nan => (3, (0, 0))
  end.

Definition key_lt (a b : Z * (Z * Z)) : Prop :=
  a.1 < b.1 \/ (a.1 = b.1 /\ (a.2.1 < b.2.1 \/ (a.2.1 = b.2.1 /\ a.2.2 < b.2.2))).

Ltac key_solve :=
  unfold key_lt; cbn; repeat match goal with
  | |- context [Z.compare ?a ?b] => destruct (Z.compare_spec a b)
  | |- context [Pos.compare_cont Eq ?a ?b] =>
      change (Pos.compare_cont Eq a b) with (Pos.compare a b)
  | |- context [Pos.compare ?a ?b] => destruct (Pos.compare_spec a b)
  end; cbn; split; intros; simplify_eq; try done; try congruence; try lia.

Lemma d_lt_key a b :
  d_is_nan a = false -> d_is_nan b = false -> d_lt a b = true <-> key_lt (d_key a) (d_key b).
Proof.
  intros Ha Hb. unfold d_lt, SFltb, SFcompare, d_key.
  destruct a as [[]|[]| |[] ma ea], b as [[]|[]| |[] mb eb]; try done; key_solve.
Qed.

Lemma d_eq_key a b :
  d_is_nan a = false -> d_is_nan b = false -> d_eq a b = true <-> d_key a = d_key b.
Proof.
  intros Ha Hb. unfold d_eq, SFeqb, SFcompare, d_key.
  destruct a as [[]|[]| |[] ma ea], b as [[]|[]| |[] mb eb]; try done; key_solve.
Qed.

Example d_lit_tenth : d_lit 1 10 = S754_finite false 7205759403792794 (-56).
Proof. vm_compute. reflexivity. Qed.

(** * The disk cache (ds4_kvstore.c)

    The store's state, its directory scan, eviction, boundary arithmetic, and the
    store and load protocols, over the files of [Fs].  The engine and the session
    (ds4.c) enter through the interface [Engine]; log lines and the wall-clock
    durations in them are left out. *)

Definition DS4_KVSTORE_DEFAULT_MB : Z := 4096.
Definition DS4_KVSTORE_HIT_HALF_LIFE_SECONDS : Z := 6 * 60 * 60.
Definition KV_CACHE_MIN_EFFECTIVE_HITS : double := d_lit 1 100.
Definition KV_CACHE_CONTINUED_PREFIX_MIN_FACTOR : double := d_lit 5 100.
Definition KV_CACHE_CONTINUED_PREFIX_HIT_FACTOR : double := d_lit 45 100.
Definition KV_CACHE_ANCHOR_REASON_SCORE_FACTOR : double := d_lit 2 1.

(** ** Data *)

Record options := mkOptions {
  o_min_tokens : Z;
  o_cold_max_tokens : Z;
  o_continued_interval_tokens : Z;
  o_boundary_trim_tokens : Z;
  o_boundary_align_tokens : Z
}.

Definition ds4_kvstore_default_options : options := mkOptions 512 30000 10000 32 2048.

Record kvstore := mkKvstore {
  kc_enabled : bool;
  kc_dir : bytes;
  kc_budget_bytes : Z;
  kc_reject_different_quant : bool;
  kc_opt : options;
  kc_continued_last_store_tokens : Z;
  kc_entry : list entry
}.

(** The store after [memset] to zero. *)
Definition kvstore_zero : kvstore := mkKvstore false [] 0 false (mkOptions 0 0 0 0 0) 0 [].

Definition set_entries (kc : kvstore) (es : list entry) : kvstore :=
  mkKvstore (kc_enabled kc) (kc_dir kc) (kc_budget_bytes kc) (kc_reject_different_quant kc)
    (kc_opt kc) (kc_continued_last_store_tokens kc) es.

Definition set_continued (kc : kvstore) (n : Z) : kvstore :=
  mkKvstore (kc_enabled kc) (kc_dir kc) (kc_budget_bytes kc) (kc_reject_different_quant kc)
    (kc_opt kc) n (kc_entry kc).

Record eviction_context := mkIncoming {
  i_text : bytes;
  i_model_id : Z;
  i_quant_bits : Z;
  i_ctx_size : Z;
  i_reject_different_quant : bool
}.

(** ** Directory scan *)

Definition kv_mkdir (path : bytes) : IO bool :=
  let! r := c_mkdir path in
  ret (match r with MkdirFail => false | _ => true end).

(** [done_] is the part of [tmp] before [p], which is what [tmp] spells when its
    slash at [p] is overwritten by a NUL. *)
Fixpoint kv_mkdir_p_loop (done_ rest : bytes) : IO bool :=
  match rest with
  | [] => kv_mkdir done_
  | c :: rest' =>
      if c =? slash then
        let! ok := kv_mkdir done_ in
        if ok then kv_mkdir_p_loop (done_ ++ [c]) rest' else ret false
      else kv_mkdir_p_loop (done_ ++ [c]) rest'
  end.

Definition kv_mkdir_p (path : bytes) : IO bool :=
  match path with
  | [] => ret false
  | c :: rest => kv_mkdir_p_loop [c] rest
  end.

Definition ds4_kvstore_clear (kc : kvstore) : kvstore := set_entries kc [].

Definition kv_cache_push (kc : kvstore) (e : entry) : kvstore :=
  set_entries kc (kc_entry kc ++ [e]).

(** [ds4_kvstore_read_header] on a stream. *)
Definition read_header_io (st : stream) : IO (option entry * stream) :=
  let! (h, st) := c_fread st 48 in
  if negb (zlen h =? DS4_KVSTORE_FIXED_HEADER) then ret (None, st)
  else if negb (header_magic_ok h) then ret (None, st)
  else if negb (nth 20 h 0 =? KV_CACHE_PAYLOAD_ABI) then ret (None, st)
  else
    let! (tb, st) := c_fread st 4 in
    if negb (zlen tb =? 4) then ret (None, st)
    else
      let e := set_text_bytes (header_entry h) (ds4_kvstore_le_get32 tb) in
      if negb (e_tokens e =? 0) && ((e_quant_bits e =? 2) || (e_quant_bits e =? 4))
      then ret (Some e, st) else ret (None, st).

Definition set_file (e : entry) (sha path : bytes) (file_size : Z) : entry := {|
  e_sha := sha; e_path := Some path; e_quant_bits := e_quant_bits e;
  e_model_id := e_model_id e; e_reason := e_reason e; e_tokens := e_tokens e;
  e_hits := e_hits e; e_ctx_size := e_ctx_size e; e_ext_flags := e_ext_flags e;
  e_created_at := e_created_at e; e_last_used := e_last_used e;
  e_payload_bytes := e_payload_bytes e; e_text_bytes := e_text_bytes e;
  e_file_size := file_size |}.

Definition ds4_kvstore_read_entry_file (path sha : bytes) : IO (option entry) :=
  let! st_size := c_stat path in
  match st_size with
  | None => ret None
  | Some size =>
      if size <? DS4_KVSTORE_FIXED_HEADER + 4 then ret None
      else
        let! fp := c_fopen_rb path in
        match fp with
        | None => ret None
        | Some fp =>
            let! (r, fp) := read_header_io fp in
            let! _ := c_fclose fp in
            match r with
            | None => ret None
            | Some e =>
                let fixed := DS4_KVSTORE_FIXED_HEADER + 4 in
                if (UINT64_MAX - fixed <? e_text_bytes e) ||
                   (UINT64_MAX - fixed - e_text_bytes e <? e_payload_bytes e)
                then ret None
                else
                  let expected := fixed + e_text_bytes e + e_payload_bytes e in
                  if size <? expected then ret None
                  else ret (Some (set_file e sha path size))
            end
        end
  end.

(** The [readdir] loop over the names still to come. *)
Fixpoint kv_cache_refresh_loop (kc : kvstore) (names : list bytes) : IO kvstore :=
  match names with
  | [] => ret kc
  | name :: names' =>
      match ds4_kvstore_sha_hex_name name with
      | None => kv_cache_refresh_loop kc names'
      | Some sha =>
          let! r := ds4_kvstore_read_entry_file (ds4_kvstore_path_join (kc_dir kc) name) sha in
          match r with
          | Some e => kv_cache_refresh_loop (kv_cache_push kc e) names'
          | None => kv_cache_refresh_loop kc names'
          end
      end
  end.

Definition kv_cache_refresh (kc : kvstore) : IO kvstore :=
  if negb (kc_enabled kc) then ret kc
  else
    let kc := ds4_kvstore_clear kc in
    let! names := c_readdir (ds4_kvstore_path_join (kc_dir kc) []) in
    match names with
    | None => ret kc
    | Some names => kv_cache_refresh_loop kc names
    end.

Definition ds4_kvstore_touch_file (path : bytes) (hits : Z) : IO bool :=
  let! fp := c_fopen_rpb path in
  match fp with
  | None => ret false
  | Some fp =>
      let! (r, fp) := read_header_io fp in
      match r with
      | None => let! _ := c_fclose fp in ret false
      | Some e =>
          let! now := c_time in
          let h := ds4_kvstore_fill_header (e_model_id e) (e_quant_bits e) (e_reason e)
                     (e_ext_flags e) (e_tokens e) hits (e_ctx_size e) (e_created_at e) now
                     (e_payload_bytes e) in
          let! (ok, fp) := c_fseek fp 0 in
          if ok then
            let! (ok, fp) := c_fwrite fp h in
            let! _ := c_fclose fp in ret ok
          else let! _ := c_fclose fp in ret false
      end
  end.

(** ** Eviction *)

Definition kv_cache_incoming_supersedes_continued (e : entry) (incoming : option eviction_context)
  : bool :=
  match incoming with
  | None => false
  | Some i =>
      if negb (e_reason e =? REASON_CONTINUED) then false
      else if (e_text_bytes e =? 0) || (SIZE_MAX <? e_text_bytes e) then false
      else if zlen (i_text i) <=? e_text_bytes e then false
      else if negb (e_model_id e =? i_model_id i) then false
      else if i_reject_different_quant i && negb (e_quant_bits e =? i_quant_bits i) then false
      else if e_ctx_size e <? i_ctx_size i then false
      else bytes_eqb (sha1_hex (take (Z.to_nat (e_text_bytes e)) (i_text i))) (e_sha e)
  end.

Definition kv_cache_reason_is_anchor (reason : Z) : bool :=
  (reason =? REASON_COLD) || (reason =? REASON_EVICT) || (reason =? REASON_SHUTDOWN).

(** [exp2] is the C library's. *)
Definition ds4_kvstore_entry_eviction_score (exp2 : double -> double) (e : entry) (now : Z)
    (incoming : option eviction_context) : double :=
  if e_file_size e =? 0 then d_zero
  else
    let effective_hits := d_of_Z (e_hits e) in
    let used_at := if e_last_used e =? 0 then e_created_at e else e_last_used e in
    let effective_hits :=
      if used_at =? 0 then d_zero
      else if used_at <? now then
        let elapsed := d_of_Z (now - used_at) in
        let eh := d_mul effective_hits
          (exp2 (d_div (d_neg elapsed) (d_of_Z DS4_KVSTORE_HIT_HALF_LIFE_SECONDS))) in
        if d_lt eh KV_CACHE_MIN_EFFECTIVE_HITS then d_zero else eh
      else effective_hits in
    let score := d_div (d_mul (d_add effective_hits d_one) (d_of_Z (e_tokens e)))
                       (d_of_Z (e_file_size e)) in
    let score := if kv_cache_reason_is_anchor (e_reason e)
                 then d_mul score KV_CACHE_ANCHOR_REASON_SCORE_FACTOR else score in
    if kv_cache_incoming_supersedes_continued e incoming then
      let h := if d_lt d_zero effective_hits
               then d_div effective_hits (d_add effective_hits d_one) else d_zero in
      d_mul score (d_add KV_CACHE_CONTINUED_PREFIX_MIN_FACTOR
                         (d_mul KV_CACHE_CONTINUED_PREFIX_HIT_FACTOR h))
    else score.

(** The test of the victim scan: [e] at score [s] goes before the candidate. *)
Definition evict_before (s : double) (e : entry) (vs : double) (ve : entry) : bool :=
  d_lt s vs || (d_eq s vs && (e_last_used e <? e_last_used ve)).

(** The scan from index [i] on with the candidate [victim]. *)
Fixpoint evict_scan (score : entry -> double) (es : list entry) (i : nat)
    (victim : nat * entry) : nat * entry :=
  match es with
  | [] => victim
  | e :: es' =>
      let victim := if evict_before (score e) e (score victim.2) victim.2
                    then (i, e) else victim in
      evict_scan score es' (S i) victim
  end.

Definition evict_victim (score : entry -> double) (es : list entry) : option (nat * entry) :=
  match es with
  | [] => None
  | e :: es' => Some (evict_scan score es' 1 (0%nat, e))
  end.

(** [while (total > target && kc->len > 0)]; every pass removes one entry. *)
Fixpoint evict_loop (fuel : nat) (score : entry -> double) (target total : Z) (es : list entry)
  : IO (list entry) :=
  match fuel with
  | O => ret es
  | S fuel' =>
      if total <=? target then ret es
      else match evict_victim score es with
      | None => ret es
      | Some (victim, e) =>
          let! ok := c_unlink (default [] (e_path e)) in
          let total := if ok then if e_file_size e <=? total then total - e_file_size e else 0
                       else 0 in
          evict_loop fuel' score target total (take victim es ++ drop (S victim) es)
      end
  end.

Definition total_size (es : list entry) : Z :=
  fold_left (fun t e => u64 (t + e_file_size e)) es 0.

Definition ds4_kvstore_evict (exp2 : double -> double) (kc : kvstore) (extra_bytes : Z)
    (incoming : option eviction_context) : IO kvstore :=
  if negb (kc_enabled kc) || (kc_budget_bytes kc =? 0) then ret kc
  else if kc_budget_bytes kc <? extra_bytes then ret kc
  else
    let! kc := kv_cache_refresh kc in
    let! now := c_time in
    let total := total_size (kc_entry kc) in
    let target := kc_budget_bytes kc - extra_bytes in
    let! es := evict_loop (length (kc_entry kc))
                 (fun e => ds4_kvstore_entry_eviction_score exp2 e now incoming)
                 target total (kc_entry kc) in
    ret (set_entries kc es).

(** [dir] is [None] for a NULL pointer. *)
Definition ds4_kvstore_open (exp2 : double -> double) (dir : option bytes) (budget_mb : Z)
    (reject_different_quant : bool) (opt : options) : IO (bool * kvstore) :=
  match dir with
  | None => ret (false, kvstore_zero)
  | Some dir =>
      let! ok := kv_mkdir_p dir in
      if negb ok then ret (false, kvstore_zero)
      else
        let budget_mb := if budget_mb =? 0 then DS4_KVSTORE_DEFAULT_MB else budget_mb in
        let kc := mkKvstore true dir (u64 (budget_mb * 1024 * 1024)) reject_different_quant opt 0 [] in
        let! kc := ds4_kvstore_evict exp2 kc 0 None in
        ret (true, kc)
  end.

Definition ds4_kvstore_close (kc : kvstore) : kvstore := kvstore_zero.

(** ** Tokens and boundaries *)

Abbreviation tokens := (list Z).

Definition ds4_kvstore_byte_prefix_match (text prefix : bytes) : bool :=
  (zlen prefix <=? zlen text) &&
  ((zlen prefix =? 0) || bytes_eqb (take (length prefix) text) prefix).

Definition ds4_kvstore_tokens_copy_prefix (src : option tokens) (n : Z) : tokens :=
  match src with
  | None => []
  | Some src => let n := if zlen src <? n then zlen src else n in take (Z.to_nat n) src
  end.

(** [ds4_tokens_starts_with] (ds4.c) *)
Fixpoint ds4_tokens_starts_with (toks prefix : tokens) : bool :=
  match prefix, toks with
  | [], _ => true
  | p :: ps, t :: ts => (t =? p) && ds4_tokens_starts_with ts ps
  | _ :: _, [] => false
  end.

Definition ds4_kvstore_store_len (kc : kvstore) (n : Z) : Z :=
  let trim := o_boundary_trim_tokens (kc_opt kc) in
  let align := o_boundary_align_tokens (kc_opt kc) in
  if o_min_tokens (kc_opt kc) + trim <? n then
    let stable := n - trim in
    let stable := if 0 <? align then stable - Z.rem stable align else stable in
    if o_min_tokens (kc_opt kc) <=? stable then stable else n
  else n.

(** The loop of [ds4_kvstore_chat_anchor_pos] from token [i] on. *)
Fixpoint chat_anchor_scan (user_id assistant_id : Z) (prompt : tokens) (i last_user : Z) : Z :=
  match prompt with
  | [] => last_user
  | token :: rest =>
      if token =? assistant_id then last_user
      else chat_anchor_scan user_id assistant_id rest (i + 1)
             (if token =? user_id then i else last_user)
  end.

Definition ds4_kvstore_chat_anchor_pos (kc : kvstore) (prompt : option tokens)
    (user_token_id assistant_token_id : Z) : Z :=
  match prompt with
  | None => -1
  | Some prompt =>
      if (user_token_id <? 0) || (assistant_token_id <? 0) then -1
      else
        let last_user := chat_anchor_scan user_token_id assistant_token_id prompt 0 (-1) in
        if o_min_tokens (kc_opt kc) <=? last_user then last_user else -1
  end.

(** Signed overflow of [step + align - 1] is undefined in C; [i32] stands for
    the wrap-around of the usual compilers. *)
Definition kv_cache_continued_step (kc : kvstore) : Z :=
  if negb (kc_enabled kc) || (o_continued_interval_tokens (kc_opt kc) <=? 0) then 0
  else
    let step := o_continued_interval_tokens (kc_opt kc) in
    let align := o_boundary_align_tokens (kc_opt kc) in
    if 0 <? align then
      let step := i32 (Z.quot (i32 (step + align - 1)) align * align) in
      if step <=? 0 then align else step
    else step.

Definition ds4_kvstore_continued_store_target (kc : kvstore) (live_tokens : Z) : Z :=
  let step := kv_cache_continued_step kc in
  if step <=? 0 then 0
  else if live_tokens <? o_min_tokens (kc_opt kc) then 0
  else if negb (Z.rem live_tokens step =? 0) then 0
  else if live_tokens <=? kc_continued_last_store_tokens kc then 0
  else live_tokens.

Definition ds4_kvstore_note_store (kc : kvstore) (n : Z) : kvstore :=
  if kc_continued_last_store_tokens kc <? n then set_continued kc n else kc.

Definition ds4_kvstore_suppress_continued_store (kc : kvstore) (n : Z) : Z * kvstore :=
  if negb (ds4_kvstore_continued_store_target kc n =? n) then (-1, kc)
  else (kc_continued_last_store_tokens kc, ds4_kvstore_note_store kc n).

Definition ds4_kvstore_restore_suppressed_continued (kc : kvstore) (old_tokens suppressed_tokens : Z)
  : kvstore :=
  if (0 <=? old_tokens) && (kc_continued_last_store_tokens kc =? suppressed_tokens)
  then set_continued kc old_tokens else kc.

(** ** Sizes *)

Definition kv_cache_file_size_bytes (text_bytes payload_bytes trailer_bytes : Z) : option Z :=
  let fixed := DS4_KVSTORE_FIXED_HEADER + 4 in
  if (UINT64_MAX - fixed <? text_bytes) ||
     (UINT64_MAX - fixed - text_bytes <? payload_bytes) ||
     (UINT64_MAX - fixed - text_bytes - payload_bytes <? trailer_bytes)
  then None
  else Some (fixed + text_bytes + payload_bytes + trailer_bytes).

Definition kv_cache_budget_required (file_bytes : Z) : option Z :=
  let slack := file_bytes / 100 in
  let slack := if file_bytes mod 100 =? 0 then slack else slack + 1 in
  if UINT64_MAX - file_bytes <? slack then None else Some (file_bytes + slack).

(** The verdict and the [file_bytes], [required_bytes] it leaves in its outputs. *)
Definition ds4_kvstore_file_size_fits (kc : option kvstore)
    (text_bytes payload_bytes trailer_bytes : Z) : bool * Z * Z :=
  match kv_cache_file_size_bytes text_bytes payload_bytes trailer_bytes with
  | None => (false, 0, 0)
  | Some file_bytes =>
      match kc with
      | None => (true, file_bytes, 0)
      | Some kc =>
          if kc_budget_bytes kc =? 0 then (true, file_bytes, 0)
          else match kv_cache_budget_required file_bytes with
          | None => (false, file_bytes, 0)
          | Some required => (required <=? kc_budget_bytes kc, file_bytes, required)
          end
      end
  end.
