(* ===== verification/KvBoundary.v ===== *)
(** * KvBoundary: where checkpoints are cut and whether they fit (ds4_kvstore.c)

    The arithmetic of [ds4_kvstore_store_len], [ds4_kvstore_chat_anchor_pos], the
    continued-store interval and [ds4_kvstore_file_size_fits]. *)

From S2P Require Import Prelude KvHeader Fs KvStore.

(** ** File sizes *)

Lemma file_size_bytes_spec t p tr :
  in_u 64 t -> in_u 64 p -> in_u 64 tr ->
  kv_cache_file_size_bytes t p tr =
  if 52 + t + p + tr <=? UINT64_MAX then Some (52 + t + p + tr) else None.
Proof.
  unfold in_u, kv_cache_file_size_bytes, DS4_KVSTORE_FIXED_HEADER, UINT64_MAX. intros.
  repeat match goal with |- context [?a <? ?b] => destruct (Z.ltb_spec a b) end; cbn [orb];
    destruct (Z.leb_spec (52 + t + p + tr) 18446744073709551615); try done; lia.
Qed.

Definition ceil_percent (n : Z) : Z := (n + 99) / 100.

Lemma budget_required_spec n :
  in_u 64 n ->
  kv_cache_budget_required n =
  if n + ceil_percent n <=? UINT64_MAX then Some (n + ceil_percent n) else None.
Proof.
  unfold in_u, kv_cache_budget_required, ceil_percent, UINT64_MAX. intros Hn.
  assert (E : (if n mod 100 =? 0 then n / 100 else n / 100 + 1) = (n + 99) / 100).
  { destruct (Z.eqb_spec (n mod 100) 0); zdiv_lia. }
  rewrite E. destruct (Z.ltb_spec (18446744073709551615 - n) ((n + 99) / 100));
    destruct (Z.leb_spec (n + (n + 99) / 100) 18446744073709551615); try done; lia.
Qed.

(** A checkpoint fits exactly when its file of header, text, payload and
    trailer has a 64-bit size and, if the store has a budget, that size plus one
    per cent rounded up is within it; no intermediate sum wraps, and the sizes
    reported are the exact ones. *)
Lemma file_size_fits_iff kc t p tr :
  in_u 64 t -> in_u 64 p -> in_u 64 tr -> in_u 64 (kc_budget_bytes kc) ->
  let size := 52 + t + p + tr in
  let '((fits, file_bytes), required) := ds4_kvstore_file_size_fits (Some kc) t p tr in
  (fits = true <-> size <= UINT64_MAX /\
     (kc_budget_bytes kc = 0 \/ size + ceil_percent size <= kc_budget_bytes kc)) /\
  (size <= UINT64_MAX -> file_bytes = size) /\
  (fits = true -> kc_budget_bytes kc <> 0 -> required = size + ceil_percent size).
Proof.
  intros Ht Hp Htr Hb size. unfold ds4_kvstore_file_size_fits.
  rewrite file_size_bytes_spec by done. fold size.
  assert (Hs0 : 0 <= size) by (unfold in_u in *; subst size; lia).
  destruct (Z.leb_spec size UINT64_MAX) as [Hs|Hs].
  2: { split_and!; [split; [done | intros [? _]; lia] | intros; lia | done]. }
  destruct (Z.eqb_spec (kc_budget_bytes kc) 0) as [Hz|Hz].
  { split_and!; [split; [auto|done] | done | done]. }
  rewrite budget_required_spec by (unfold in_u, UINT64_MAX in *; lia).
  destruct (Z.leb_spec (size + ceil_percent size) UINT64_MAX) as [Hr|Hr].
  - rewrite Z.leb_le. split_and!; [split; [auto | intros [_ [?|?]]; [done|done]] | done | done].
  - split_and!; [split; [done | intros [_ [?|?]]; [done|]] | done | done].
    unfold in_u, UINT64_MAX in *. lia.
Qed.

Definition budget_store (budget : Z) : kvstore :=
  mkKvstore true (bs "/kv") budget false ds4_kvstore_default_options 0 [].

(** 52 + 10 + 88 = 150 bytes need 152; the sum 2^64 - 52 + 52 does not fit. *)
Lemma file_size_fits_iff_witness :
  in_u 64 (kc_budget_bytes (budget_store 151)) /\
  ((ds4_kvstore_file_size_fits (Some (budget_store 151)) 10 88 0).1.1 = true <->
   52 + 10 + 88 + 0 <= UINT64_MAX /\
   (kc_budget_bytes (budget_store 151) = 0 \/
    52 + 10 + 88 + 0 + ceil_percent (52 + 10 + 88 + 0) <= kc_budget_bytes (budget_store 151))).
Proof.
  split; [apply (bool_decide_eq_true_1 _); vm_compute; reflexivity|].
  pose proof (file_size_fits_iff (budget_store 151) 10 88 0) as H.
  apply H; apply (bool_decide_eq_true_1 _); vm_compute; reflexivity.
Defined.

(** ** Cutting the prompt *)

(** [r] is where a prompt of [n] tokens may be cut. *)
Definition cut_ok (o : options) (n r : Z) : Prop :=
  o_min_tokens o <= r <= n - o_boundary_trim_tokens o /\
  (if 0 <? o_boundary_align_tokens o
   then r mod o_boundary_align_tokens o = 0 /\
        n - o_boundary_trim_tokens o < r + o_boundary_align_tokens o
   else r = n - o_boundary_trim_tokens o).

(** The stored length of a prompt of [n] tokens never exceeds [n]; if it is
    cut, at least the trim is dropped, the cut lies on the alignment, as late as
    that allows, and the minimum is kept. *)
Theorem store_len_spec kc n :
  0 <= o_min_tokens (kc_opt kc) -> 0 <= o_boundary_trim_tokens (kc_opt kc) ->
  ds4_kvstore_store_len kc n = n \/ cut_ok (kc_opt kc) n (ds4_kvstore_store_len kc n).
Proof.
  intros Hmin Htrim. unfold ds4_kvstore_store_len, cut_ok.
  set (mn := o_min_tokens _) in *. set (tr := o_boundary_trim_tokens _) in *.
  set (al := o_boundary_align_tokens _) in *.
  destruct (Z.ltb_spec (mn + tr) n) as [Hl|]; [|by left].
  destruct (Z.ltb_spec 0 al) as [Ha|Ha].
  - assert (Hr : Z.rem (n - tr) al = (n - tr) mod al) by (apply Z.rem_mod_nonneg; lia).
    rewrite Hr. pose proof (Z.mod_pos_bound (n - tr) al Ha) as Hb.
    destruct (Z.leb_spec mn (n - tr - (n - tr) mod al)); [|by left]. right.
    split_and!; try lia. rewrite Zminus_mod_idemp_r, Z.sub_diag. apply Z.mod_0_l. lia.
  - destruct (Z.leb_spec mn (n - tr)); [right; lia | by left].
Qed.

Lemma store_len_spec_witness :
  0 <= o_min_tokens ds4_kvstore_default_options /\
  (ds4_kvstore_store_len (budget_store 0) 5000 = 5000 \/
   cut_ok ds4_kvstore_default_options 5000 (ds4_kvstore_store_len (budget_store 0) 5000)).
Proof.
  split; [vm_compute; discriminate|].
  apply (store_len_spec (budget_store 0) 5000); vm_compute; discriminate.
Defined.

Example store_len_run : ds4_kvstore_store_len (budget_store 0) 5000 = 4096.
Proof. reflexivity. Qed.

(** Position [i] is in front of every assistant marker. *)
Definition no_marker_upto (a : Z) (prompt : tokens) (i : nat) : Prop :=
  forall k, (k <= i)%nat -> prompt !! k <> Some a.

(** The last user marker in front of the first assistant marker. *)
Definition is_anchor (u a : Z) (prompt : tokens) (i : nat) : Prop :=
  prompt !! i = Some u /\ no_marker_upto a prompt i /\
  forall j, (i < j)%nat -> prompt !! j = Some u -> ~ no_marker_upto a prompt j.

Lemma no_marker_cons a t prompt i :
  no_marker_upto a (t :: prompt) (S i) <-> t <> a /\ no_marker_upto a prompt i.
Proof.
  split.
  - intros H. split; [intros ->; by apply (H 0%nat); [lia|] | intros k Hk; apply (H (S k)); lia].
  - intros [Ht H] [|k] Hk; cbn; [congruence | apply H; lia].
Qed.

Lemma is_anchor_cons u a t prompt i :
  t <> a -> is_anchor u a prompt i -> is_anchor u a (t :: prompt) (S i).
Proof.
  intros Ht (Hu & Hn & Hl). split_and!; [done | by apply no_marker_cons |].
  intros [|j] Hj Hjt; [lia|]. rewrite no_marker_cons. intros [_ Hm]. by apply (Hl j); [lia| |].
Qed.

Lemma chat_anchor_scan_spec u a prompt i last :
  (chat_anchor_scan u a prompt i last = last /\
   forall j, prompt !! j = Some u -> ~ no_marker_upto a prompt j) \/
  exists k, chat_anchor_scan u a prompt i last = i + Z.of_nat k /\ is_anchor u a prompt k.
Proof.
  revert i last. induction prompt as [|t prompt IH]; intros i last; cbn [chat_anchor_scan].
  { left. split; [done|]. intros j Hj. by rewrite lookup_nil in Hj. }
  destruct (Z.eqb_spec t a) as [->|Hta].
  { left. split; [done|]. intros j _ H. by apply (H 0%nat); [lia|]. }
  destruct (IH (i + 1) (if t =? u then i else last)) as [[-> Hno]|(k & -> & Hk)].
  - destruct (Z.eqb_spec t u) as [->|Htu].
    + right. exists 0%nat. split; [lia|]. split_and!; [done| |].
      * intros [|k] Hk; [cbn; congruence | lia].
      * intros [|j] Hj Hju; [lia|]. rewrite no_marker_cons. intros [_ Hm]. by apply (Hno j).
    + left. split; [done|]. intros [|j] Hju; cbn in Hju; [congruence|].
      rewrite no_marker_cons. intros [_ Hm]. by apply (Hno j).
  - right. exists (S k). split; [lia|]. by apply is_anchor_cons.
Qed.

(** The anchor of a rendered chat is the last user marker in front of the
    first assistant marker when it leaves at least the minimum of tokens, and -1
    when that marker is missing, comes too early, or the ids are unknown. *)
Theorem chat_anchor_spec kc prompt u a :
  0 <= o_min_tokens (kc_opt kc) ->
  let r := ds4_kvstore_chat_anchor_pos kc (Some prompt) u a in
  (r = -1 /\ (u < 0 \/ a < 0 \/
     forall i, is_anchor u a prompt i -> Z.of_nat i < o_min_tokens (kc_opt kc))) \/
  (o_min_tokens (kc_opt kc) <= r /\ 0 <= u /\ 0 <= a /\ is_anchor u a prompt (Z.to_nat r)).
Proof.
  intros Hmin r. subst r. unfold ds4_kvstore_chat_anchor_pos.
  destruct (Z.ltb_spec u 0), (Z.ltb_spec a 0); cbn [orb]; try (left; split; [done|tauto]).
  destruct (chat_anchor_scan_spec u a prompt 0 (-1)) as [[-> Hno]|(k & -> & Hk)].
  - destruct (Z.leb_spec (o_min_tokens (kc_opt kc)) (-1)); [lia|]. left. split; [done|].
    do 2 right. intros i (Hu & Hn & _). by destruct (Hno i Hu).
  - rewrite Z.add_0_l. destruct (Z.leb_spec (o_min_tokens (kc_opt kc)) (Z.of_nat k)).
    + right. by rewrite Nat2Z.id.
    + left. split; [done|]. do 2 right. intros i (Hu & Hn & Hl).
      destruct (decide (i < k)%nat) as [Hik|Hik]; [|destruct (decide (k < i)%nat) as [Hki|]; [|lia]].
      * lia.
      * destruct Hk as (_ & _ & Hkl). by destruct (Hkl i Hki Hu).
Qed.

Lemma chat_anchor_spec_witness :
  0 <= o_min_tokens (kc_opt (set_continued (mkKvstore true [] 0 false (mkOptions 2 0 0 0 0) 0 []) 0)) /\
  let r := ds4_kvstore_chat_anchor_pos (mkKvstore true [] 0 false (mkOptions 2 0 0 0 0) 0 [])
             (Some [7; 1; 7; 1; 5; 2; 1]) 1 2 in
  (r = -1 /\ (1 < 0 \/ 2 < 0 \/
     forall i, is_anchor 1 2 [7; 1; 7; 1; 5; 2; 1] i -> Z.of_nat i < 2)) \/
  (2 <= r /\ 0 <= 1 /\ 0 <= 2 /\ is_anchor 1 2 [7; 1; 7; 1; 5; 2; 1] (Z.to_nat r)).
Proof.
  split; [vm_compute; discriminate|].
  apply (chat_anchor_spec (mkKvstore true [] 0 false (mkOptions 2 0 0 0 0) 0 [])).
  vm_compute. discriminate.
Defined.

Example chat_anchor_run :
  ds4_kvstore_chat_anchor_pos (mkKvstore true [] 0 false (mkOptions 2 0 0 0 0) 0 [])
    (Some [7; 1; 7; 1; 5; 2; 1]) 1 2 = 3.
Proof. reflexivity. Qed.

(** ** Continued stores *)

(** The interval, rounded up to the alignment. *)
Definition step_spec (o : options) : Z :=
  let n := o_continued_interval_tokens o in
  let a := o_boundary_align_tokens o in
  if 0 <? a then (n + a - 1) / a * a else n.

Lemma continued_step_spec kc :
  let o := kc_opt kc in
  kc_enabled kc = true -> 0 < o_continued_interval_tokens o ->
  o_boundary_align_tokens o <= INT_MAX -> o_continued_interval_tokens o <= INT_MAX ->
  o_continued_interval_tokens o + o_boundary_align_tokens o - 1 <= INT_MAX ->
  kv_cache_continued_step kc = step_spec o /\ o_continued_interval_tokens o <= step_spec o.
Proof.
  cbv zeta. unfold kv_cache_continued_step, step_spec, INT_MAX.
  set (n := o_continued_interval_tokens _). set (a := o_boundary_align_tokens _).
  intros -> Hn Ha Hn' Hs. cbn [negb orb]. destruct (Z.leb_spec n 0); [lia|].
  destruct (Z.ltb_spec 0 a) as [Hpos|]; [|done].
  rewrite (i32_small (n + a - 1)) by lia.
  rewrite Z.quot_div_nonneg by lia.
  pose proof (Z.mul_div_le (n + a - 1) a Hpos). pose proof (Z.mul_succ_div_gt (n + a - 1) a Hpos).
  assert (Hlow : n <= (n + a - 1) / a * a) by lia.
  rewrite i32_small by lia. destruct (Z.leb_spec ((n + a - 1) / a * a) 0); [lia|]. done.
Qed.

(** The continued-store bookkeeping as a state machine over the live length. *)
Inductive continued_event : Type :=
| CeStored (n : Z)                (** a store at [n] succeeded: note_store *)
| CeSuppress (n : Z)              (** a store at [n] is being made elsewhere *)
| CeRestore (old n : Z).          (** that store failed *)

Definition continued_apply (kc : kvstore) (ev : continued_event) : kvstore :=
  match ev with
  | CeStored n => ds4_kvstore_note_store kc n
  | CeSuppress n => (ds4_kvstore_suppress_continued_store kc n).2
  | CeRestore old n => ds4_kvstore_restore_suppressed_continued kc old n
  end.

Lemma target_value kc n :
  ds4_kvstore_continued_store_target kc n = n \/ ds4_kvstore_continued_store_target kc n = 0.
Proof.
  unfold ds4_kvstore_continued_store_target.
  repeat match goal with |- context [if ?b then _ else _] => destruct b end; auto.
Qed.

(** C29. Continued stores: a live length is a store target exactly when it is a
    multiple of the aligned interval, at least the minimum, and beyond the last
    noted store; noting or suppressing a target rules out every length up to it,
    so no length is stored twice; and restoring after a failed suppressed store
    gives back the state the suppression found. *)
Theorem continued_store_protocol kc n :
  let o := kc_opt kc in
  kc_enabled kc = true -> 0 < o_continued_interval_tokens o ->
  o_boundary_align_tokens o <= INT_MAX -> o_continued_interval_tokens o <= INT_MAX ->
  o_continued_interval_tokens o + o_boundary_align_tokens o - 1 <= INT_MAX ->
  0 < n -> 0 <= kc_continued_last_store_tokens kc ->
  (ds4_kvstore_continued_store_target kc n = n <->
     n mod step_spec o = 0 /\ o_min_tokens o <= n /\ kc_continued_last_store_tokens kc < n) /\
  (forall m, m <= n -> 0 < m ->
     ds4_kvstore_continued_store_target (continued_apply kc (CeStored n)) m = 0) /\
  (let '(old, kc') := ds4_kvstore_suppress_continued_store kc n in
   (ds4_kvstore_continued_store_target kc n = n -> old = kc_continued_last_store_tokens kc /\
      forall m, m <= n -> 0 < m -> ds4_kvstore_continued_store_target kc' m = 0) /\
   continued_apply kc' (CeRestore old n) = kc).
Proof.
  cbv zeta. intros He Hi Ha Hn Hs Hpos Hlast.
  destruct (continued_step_spec kc He Hi Ha Hn Hs) as [Hstep Hge].
  set (st := step_spec (kc_opt kc)) in *.
  assert (Hst : 0 < st) by lia.
  assert (Hnote : forall m, m <= n -> 0 < m ->
    ds4_kvstore_continued_store_target (ds4_kvstore_note_store kc n) m = 0).
  { intros m Hm Hm0. unfold ds4_kvstore_continued_store_target, ds4_kvstore_note_store.
    destruct (Z.ltb_spec (kc_continued_last_store_tokens kc) n);
      repeat match goal with |- context [if ?b then _ else _] => destruct b eqn:? end; try done;
      cbn in *; bool_lia. }
  assert (Htgt : ds4_kvstore_continued_store_target kc n = n <->
     n mod st = 0 /\ o_min_tokens (kc_opt kc) <= n /\ kc_continued_last_store_tokens kc < n).
  { unfold ds4_kvstore_continued_store_target. rewrite Hstep. fold st.
    destruct (Z.leb_spec st 0); [lia|]. rewrite Z.rem_mod_nonneg by lia.
    destruct (Z.ltb_spec n (o_min_tokens (kc_opt kc))); [split; intros; lia|].
    destruct (Z.eqb_spec (n mod st) 0); cbn [negb]; [|split; intros; lia].
    destruct (Z.leb_spec n (kc_continued_last_store_tokens kc)); split; intros; lia. }
  split_and!; [exact Htgt | exact Hnote |].
  unfold ds4_kvstore_suppress_continued_store.
  destruct (Z.eqb_spec (ds4_kvstore_continued_store_target kc n) n) as [Et|Et]; cbn [negb].
  - split; [intros _; split; [done|exact Hnote]|].
    apply Htgt in Et as (_ & _ & Hlt). cbn [continued_apply].
    unfold ds4_kvstore_restore_suppressed_continued, ds4_kvstore_note_store.
    destruct (Z.ltb_spec (kc_continued_last_store_tokens kc) n); [|lia].
    destruct (Z.leb_spec 0 (kc_continued_last_store_tokens kc)); [|lia].
    cbn [kc_continued_last_store_tokens set_continued]. rewrite Z.eqb_refl. by destruct kc.
  - split; [done|]. cbn. by destruct kc.
Qed.

Lemma continued_store_protocol_witness :
  kc_enabled (budget_store 0) = true /\
  (ds4_kvstore_continued_store_target (budget_store 0) 10240 = 10240 <->
     10240 mod step_spec (kc_opt (budget_store 0)) = 0 /\
     o_min_tokens (kc_opt (budget_store 0)) <= 10240 /\
     kc_continued_last_store_tokens (budget_store 0) < 10240).
Proof.
  split; [reflexivity|].
  destruct (continued_store_protocol (budget_store 0) 10240) as [H _];
    [vm_compute; (reflexivity || discriminate) .. | exact H].
Defined.

(** With the defaults the interval of 10000 is rounded up to 10240. *)
Example default_step : step_spec ds4_kvstore_default_options = 10240.
Proof. reflexivity. Qed.
