(* ===== verification/KvEvict.v ===== *)
(** * KvEvict: what the directory scan finds and what eviction removes (ds4_kvstore.c)

    The scan as a function of the files, and the checkpoint file format: header,
    text length, text, payload, optional trailer. *)

From S2P Require Import Prelude Sha Ctype KvHeader Fs KvStore.

(** What a scan makes of one file. *)
Definition file_entry (path sha content : bytes) : option entry :=
  match ds4_kvstore_read_header content with
  | None => None
  | Some (e, _) =>
      let fixed := DS4_KVSTORE_FIXED_HEADER + 4 in
      if (UINT64_MAX - fixed <? e_text_bytes e) ||
         (UINT64_MAX - fixed - e_text_bytes e <? e_payload_bytes e) then None
      else if zlen content <? fixed + e_text_bytes e + e_payload_bytes e then None
      else Some (set_file e sha path (zlen content))
  end.

Definition dir_slash (dir : bytes) : bytes := ds4_kvstore_path_join dir [].

Definition name_entry (fs : files) (dir name : bytes) : option entry :=
  sha ← ds4_kvstore_sha_hex_name name;
  content ← fs !! (dir_slash dir ++ name);
  file_entry (dir_slash dir ++ name) sha content.

(** The entries of a directory listed in the order [names]. *)
Definition scan_entries (fs : files) (dir : bytes) (names : list bytes) : list entry :=
  omap (name_entry fs dir) names.

Lemma path_join_slash dir name : ds4_kvstore_path_join dir name = dir_slash dir ++ name.
Proof.
  unfold dir_slash, ds4_kvstore_path_join.
  destruct (_ || _); [by rewrite <- !app_assoc | by rewrite app_nil_r].
Qed.

Lemma take_zlen_full (c : bytes) n :
  zlen (take n c) = Z.of_nat n <-> (n <= length c)%nat.
Proof. unfold zlen. rewrite length_take. lia. Qed.

#[local] Ltac none_case := eexists; split_and!; [reflexivity | done | done | intros ? ? [=]].

(** [read_header_io] without faults is [ds4_kvstore_read_header]. *)
Lemma run_read_header w p c :
  quiet w -> w_files w !! p = Some c ->
  exists st, read_header_io (mkStream p 0 []) w =
    ((match ds4_kvstore_read_header c with Some (e, _) => Some e | None => None end, st), w) /\
    st_path st = p /\ st_buf st = [] /\
    (forall e r, ds4_kvstore_read_header c = Some (e, r) -> drop (st_pos st) c = r).
Proof.
  intros Hq Hc. unfold read_header_io, ds4_kvstore_read_header, DS4_KVSTORE_FIXED_HEADER.
  unfold io_bind at 1. rewrite (run_fread w _ 48 c) by done. cbn [st_pos st_path st_buf]. rewrite !drop_0.
  rewrite zlen_take.
  destruct (Z.ltb_spec (zlen c) 48) as [Hs|Hl].
  { destruct (Z.eqb_spec (Z.min (Z.of_nat 48) (zlen c)) 48); [lia|]. none_case. }
  destruct (Z.eqb_spec (Z.min (Z.of_nat 48) (zlen c)) 48); [|lia]. cbn [negb].
  destruct (header_magic_ok _); cbn [negb]; [|none_case].
  destruct (_ =? KV_CACHE_PAYLOAD_ABI); cbn [negb]; [|none_case].
  unfold io_bind. rewrite (run_fread w _ 4 c) by done. cbn [st_pos st_path st_buf].
  assert (E48 : length (take 48 c) = 48%nat) by (rewrite length_take; unfold zlen in Hl; lia).
  rewrite E48. change (0 + 48)%nat with 48%nat.
  rewrite zlen_take.
  destruct (Z.ltb_spec (zlen (drop 48 c)) 4) as [Hs4|Hl4].
  { destruct (Z.eqb_spec (Z.min (Z.of_nat 4) (zlen (drop 48 c))) 4); [lia|]. none_case. }
  destruct (Z.eqb_spec (Z.min (Z.of_nat 4) (zlen (drop 48 c))) 4); [|lia]. cbn [negb].
  destruct (_ && _); [|none_case].
  eexists. split_and!; [reflexivity|done|done|]. intros e' r [= _ <-]. cbn [st_pos].
  rewrite drop_drop. do 2 f_equal. rewrite length_take. unfold zlen in Hl4. lia.
Qed.

Lemma run_read_entry_file w path sha :
  quiet w ->
  ds4_kvstore_read_entry_file path sha w = (c ← w_files w !! path; file_entry path sha c, w).
Proof.
  intros Hq. unfold ds4_kvstore_read_entry_file. unfold io_bind at 1. rewrite run_stat by done.
  destruct (w_files w !! path) as [c|] eqn:Hc; cbn [fmap option_fmap option_map mbind option_bind]; [|done].
  destruct (Z.ltb_spec (zlen c) (DS4_KVSTORE_FIXED_HEADER + 4)) as [Hs|Hl].
  { unfold file_entry. by rewrite read_header_short. }
  unfold io_bind at 1. rewrite run_fopen_rb, Hc by done.
  destruct (run_read_header w path c Hq Hc) as (st & E & _ & Hb & _).
  unfold io_bind. rewrite E, (run_fclose_clean w st) by done. unfold file_entry.
  destruct (ds4_kvstore_read_header c) as [[e r]|]; [|done].
  destruct (_ || _); [done|]. by destruct (_ <? _).
Qed.

Lemma run_refresh_loop w kc names :
  quiet w ->
  kv_cache_refresh_loop kc names w
  = (set_entries kc (kc_entry kc ++ scan_entries (w_files w) (kc_dir kc) names), w).
Proof.
  intros Hq. revert kc. induction names as [|name names IH]; intros kc; cbn [kv_cache_refresh_loop].
  - cbn. rewrite app_nil_r. by destruct kc.
  - unfold scan_entries. cbn [omap list_omap]. unfold name_entry at 1.
    destruct (ds4_kvstore_sha_hex_name name) as [sha|]; cbn [mbind option_bind]; [|apply IH].
    unfold io_bind. rewrite path_join_slash, run_read_entry_file by done. cbn [mbind option_bind].
    destruct (w_files w !! _) as [c|]; cbn [mbind option_bind]; [|apply IH].
    destruct (file_entry _ _ c) as [e|]; [|apply IH].
    rewrite IH. cbn. by rewrite <- app_assoc.
Qed.

(** Without faults a scan finds exactly the readable checkpoint files. *)
Lemma run_refresh w kc :
  quiet w -> kc_enabled kc = true ->
  kv_cache_refresh kc w =
  (set_entries kc (scan_entries (w_files w) (kc_dir kc)
                     (w_order w (dir_names (w_files w) (dir_slash (kc_dir kc))))), w).
Proof.
  intros Hq He. unfold kv_cache_refresh. rewrite He. cbn [negb].
  unfold io_bind. rewrite run_readdir by done. cbn.
  by rewrite run_refresh_loop.
Qed.

Lemma file_entry_path path sha c e :
  file_entry path sha c = Some e -> e_path e = Some path /\ e_sha e = sha /\ e_file_size e = zlen c.
Proof.
  unfold file_entry. destruct (ds4_kvstore_read_header c) as [[e0 r]|]; [|done].
  destruct (_ || _); [done|]. destruct (_ <? _); [done|]. by intros [= <-].
Qed.

Lemma name_entry_file fs dir name e :
  name_entry fs dir name = Some e ->
  exists sha c, ds4_kvstore_sha_hex_name name = Some sha /\ fs !! (dir_slash dir ++ name) = Some c /\
    file_entry (dir_slash dir ++ name) sha c = Some e.
Proof.
  unfold name_entry. intros H. apply bind_Some in H as (sha & Hs & H).
  apply bind_Some in H as (c & Hc & H). eauto.
Qed.

Lemma scan_entries_elem fs dir names e :
  e ∈ scan_entries fs dir names <-> exists name, name ∈ names /\ name_entry fs dir name = Some e.
Proof. apply list_elem_of_omap. Qed.

(** ** Reading under faults *)

Definition content (w : world) (p : bytes) : bytes := default [] (w_files w !! p).

Lemma read_header_io_inv p w r st w' :
  read_header_io (mkStream p 0 []) w = ((r, st), w') ->
  w_files w' = w_files w /\ st_path st = p /\ st_buf st = [] /\
  forall e, r = Some e -> st_pos st = 52%nat /\
    ds4_kvstore_read_header (content w p) = Some (e, drop 52 (content w p)).
Proof.
  unfold read_header_io. intros H. run_inv H as [h st1] w1 E1.
  pose proof (fread_inv _ _ _ _ _ _ E1) as (Ef1 & Ep1 & Eb1 & Epos1 & _).
  pose proof (fread_full _ _ _ _ _ _ E1) as Hfull1. cbn [st_path st_pos st_buf] in *.
  destruct (Z.eqb_spec (zlen h) DS4_KVSTORE_FIXED_HEADER) as [Hh|]; cbn [negb] in H;
    [|injection H as <- <- <-; split_and!; done].
  destruct (header_magic_ok h) eqn:Hm; cbn [negb] in H; [|injection H as <- <- <-; split_and!; done].
  destruct (nth 20 h 0 =? KV_CACHE_PAYLOAD_ABI) eqn:Ha; cbn [negb] in H;
    [|injection H as <- <- <-; split_and!; done].
  run_inv H as [tb st2] w2 E2.
  pose proof (fread_inv _ _ _ _ _ _ E2) as (Ef2 & Ep2 & Eb2 & Epos2 & _).
  pose proof (fread_full _ _ _ _ _ _ E2) as Hfull2.
  assert (HS : w_files w2 = w_files w /\ st_path st2 = p /\ st_buf st2 = []) by (split_and!; congruence).
  destruct HS as (HS1 & HS2 & HS3).
  destruct (Z.eqb_spec (zlen tb) 4) as [Ht|]; cbn [negb] in H;
    [|injection H as <- <- <-; split_and!; done].
  destruct (negb _ && _) eqn:Hq in H; [|injection H as <- <- <-; split_and!; done].
  injection H as <- <- <-. split_and!; [done..|]. intros e' [= <-].
  unfold DS4_KVSTORE_FIXED_HEADER, zlen in Hh, Ht.
  destruct Hfull1 as [Eh _]; [lia|]. destruct Hfull2 as [Et Hlen]; [lia|].
  rewrite Ef1, Ep1, Epos1 in Et, Hlen. fold (content w p) in Eh, Et, Hlen. rewrite drop_0 in Eh.
  assert (length h = 48%nat) as Hh' by lia. rewrite Hh' in *. cbn [Nat.add] in *.
  split; [lia|].
  assert (Ec : content w p = h ++ tb ++ drop 52 (content w p)).
  { rewrite Eh, Et at 1. replace (drop 52 _) with (drop 4 (drop 48 (content w p))) by (by rewrite drop_drop).
    by rewrite !take_drop. }
  rewrite Ec at 1. rewrite read_header_split by lia. cbv zeta. rewrite Hm, Ha, Hq. done.
Qed.

(** Entries of a scan: their names spell their hashes; the files stay. *)
Definition entry_named (dir : bytes) (e : entry) : Prop :=
  exists name, e_path e = Some (dir_slash dir ++ name) /\
    ds4_kvstore_sha_hex_name name = Some (e_sha e).

Lemma read_entry_file_inv path sha w r w' :
  ds4_kvstore_read_entry_file path sha w = (r, w') ->
  w_files w' = w_files w /\
  forall e, r = Some e -> exists c, w_files w !! path = Some c /\ file_entry path sha c = Some e.
Proof.
  unfold ds4_kvstore_read_entry_file. intros H. run_inv H as sz w1 E1.
  apply stat_inv in E1 as [Ef1 Hsz].
  destruct sz as [sz|]; [|by injection H as <- <-].
  destruct (Hsz sz eq_refl) as (c & Hc & ->).
  destruct (zlen c <? _) eqn:Hshort; [by injection H as <- <-|].
  run_inv H as fp w2 E2. apply fopen_rb_inv in E2 as [Ef2 Hfp].
  destruct fp as [fp|]; [|injection H as <- <-; split; [congruence|done]].
  destruct (Hfp fp eq_refl) as [-> _].
  run_inv H as [r1 st1] w3 E3. apply read_header_io_inv in E3 as (Ef3 & _ & Eb3 & Hr3).
  run_inv H as b w4 E4. apply fclose_clean_files in E4; [|done].
  assert (Ef : w_files w4 = w_files w) by congruence.
  destruct r1 as [e|]; [|by injection H as <- <-].
  destruct (Hr3 e eq_refl) as [_ Hhdr]. unfold content in Hhdr.
  rewrite Ef2, Ef1, Hc in Hhdr. cbn [default from_option id] in Hhdr.
  destruct (_ || _) eqn:Hov; [by injection H as <- <-|].
  destruct (zlen c <? DS4_KVSTORE_FIXED_HEADER + 4 + _ + _) eqn:Hsize; [by injection H as <- <-|].
  injection H as <- <-. split; [done|]. intros e' [= <-]. exists c. split; [done|].
  unfold file_entry. by rewrite Hhdr, Hov, Hsize.
Qed.

Lemma refresh_loop_inv kc names w kc' w' :
  kv_cache_refresh_loop kc names w = (kc', w') ->
  Forall (entry_named (kc_dir kc)) (kc_entry kc) ->
  w_files w' = w_files w /\ Forall (entry_named (kc_dir kc)) (kc_entry kc') /\
  kc' = set_entries kc (kc_entry kc').
Proof.
  revert kc w. induction names as [|name names IH]; intros kc w H Hk; cbn [kv_cache_refresh_loop] in H.
  - injection H as <- <-. split_and!; try done. by destruct kc.
  - destruct (ds4_kvstore_sha_hex_name name) as [sha|] eqn:Hn; [|by eapply IH].
    run_inv H as r w1 E1. apply read_entry_file_inv in E1 as [Ef Hr].
    destruct r as [e|].
    + apply IH in H as (Ef2 & HF & Heq).
      * split_and!; [congruence | done | by rewrite Heq].
      * cbn. apply Forall_app. split; [done|]. constructor; [|done].
        destruct (Hr e eq_refl) as (c & _ & Hfe).
        apply file_entry_path in Hfe as (Hp & Hs & _). rewrite path_join_slash in Hp.
        exists name. by rewrite Hs.
    + apply IH in H as (Ef2 & HF & Heq); [|done]. split_and!; [congruence|done|done].
Qed.

Lemma refresh_inv kc w kc' w' :
  kc_enabled kc = true -> kv_cache_refresh kc w = (kc', w') ->
  w_files w' = w_files w /\ Forall (entry_named (kc_dir kc)) (kc_entry kc') /\
  kc' = set_entries kc (kc_entry kc').
Proof.
  intros He. unfold kv_cache_refresh. rewrite He. cbn [negb]. intros H.
  run_inv H as names w1 E1. apply readdir_files in E1.
  destruct names as [names|].
  - apply refresh_loop_inv in H as (Ef & HF & Heq); [|by constructor].
    split_and!; [congruence | done | by rewrite Heq].
  - injection H as <- <-. split_and!; [done | constructor | done].
Qed.

(** * What eviction removes (ds4_kvstore.c)

    The victim scan picks a minimum of the score order, and the loop removes
    victims until the budget is met. *)

(** ** The score order *)

Section order.
Context (score : entry -> double).

Definition scored (es : list entry) : Prop :=
  Forall (fun e => d_is_nan (score e) = false) es.

Definition before (a b : entry) : bool := evict_before (score a) a (score b) b.

Lemma before_spec a b :
  d_is_nan (score a) = false -> d_is_nan (score b) = false ->
  before a b = true <->
  key_lt (d_key (score a)) (d_key (score b)) \/
  (d_key (score a) = d_key (score b) /\ e_last_used a < e_last_used b).
Proof.
  intros Ha Hb. unfold before, evict_before.
  rewrite orb_true_iff, andb_true_iff, d_lt_key, d_eq_key, Z.ltb_lt by done. done.
Qed.

Lemma before_trans_l a b c :
  d_is_nan (score a) = false -> d_is_nan (score b) = false -> d_is_nan (score c) = false ->
  before a b = true -> before c b = false -> before c a = false.
Proof.
  intros Ha Hb Hc Hab Hcb. apply not_true_iff_false in Hcb. apply not_true_iff_false.
  rewrite before_spec in Hab, Hcb |- * by done. intros Hca. apply Hcb. clear Hcb.
  destruct (d_key (score a)) as [a1 [a2 a3]], (d_key (score b)) as [b1 [b2 b3]],
    (d_key (score c)) as [c1 [c2 c3]].
  unfold key_lt in *. cbn in *.
  destruct Hab as [Hab|[[=] ?]], Hca as [Hca|[[=] ?]]; subst; [left; lia|left; lia|left; lia|right; split; [done|lia]].
Qed.

Lemma before_irrefl a : d_is_nan (score a) = false -> before a a = false.
Proof.
  intros Ha. apply not_true_iff_false. rewrite before_spec by done.
  unfold key_lt. lia.
Qed.

(** [es !! i = e] and no entry of [es] goes before it. *)
Definition is_victim (es : list entry) (v : nat * entry) : Prop :=
  es !! v.1 = Some v.2 /\ forall e, e ∈ es -> before e v.2 = false.

Lemma evict_scan_spec pre es v :
  scored (pre ++ es) -> is_victim pre v ->
  is_victim (pre ++ es) (evict_scan score es (length pre) v).
Proof.
  revert pre v. induction es as [|e es IH]; intros pre v Hs [Hv Hmin]; cbn.
  - by rewrite app_nil_r.
  - replace (pre ++ e :: es) with ((pre ++ [e]) ++ es) in * by (by rewrite <- app_assoc).
    replace (S (length pre)) with (length (pre ++ [e])) by (rewrite length_app; cbn; lia).
    apply IH; [done|].
    assert (Hn : forall x, x ∈ pre ++ [e] -> d_is_nan (score x) = false).
    { apply Forall_app in Hs as [Hs _]. intros x Hx. exact (Forall_elem _ _ x Hs Hx). }
    assert (Hve : v.2 ∈ pre) by (by eapply list_elem_of_lookup_2).
    destruct (evict_before _ e _ v.2) eqn:Hb; split; cbn.
    + rewrite lookup_app_r, Nat.sub_diag by done. done.
    + intros x Hx. apply elem_of_app in Hx as Hx'. destruct Hx' as [Hx'|Hx'].
      * eapply (before_trans_l e v.2 x); [apply Hn, elem_of_app; rewrite ?list_elem_of_singleton; tauto.. | done |].
        by apply Hmin.
      * apply list_elem_of_singleton in Hx' as ->. apply before_irrefl. by apply Hn.
    + by apply lookup_app_l_Some.
    + intros x Hx. apply elem_of_app in Hx as [Hx|Hx]; [by apply Hmin|].
      apply list_elem_of_singleton in Hx as ->. done.
Qed.

Lemma evict_victim_spec es v :
  scored es -> evict_victim score es = Some v -> is_victim es v.
Proof.
  intros Hs E. destruct es as [|e es]; [done|]. cbn in E. injection E as <-.
  apply (evict_scan_spec [e] es (0%nat, e)); [done|]. split; [done|].
  intros x Hx. apply list_elem_of_singleton in Hx as ->.
  apply before_irrefl. by apply Forall_cons_iff in Hs as [? _].
Qed.

Lemma evict_victim_some es : es <> [] -> is_Some (evict_victim score es).
Proof. destruct es; [done|]. by eexists. Qed.

(** ** The loop *)

Definition sizes (es : list entry) : Z := foldr (fun e t => e_file_size e + t) 0 es.

Lemma sizes_cons e es : sizes (e :: es) = e_file_size e + sizes es.
Proof. done. Qed.

Lemma sizes_perm es es' : es ≡ₚ es' -> sizes es = sizes es'.
Proof. unfold sizes. induction 1; cbn; lia. Qed.

Lemma sizes_app es es' : sizes (es ++ es') = sizes es + sizes es'.
Proof. unfold sizes. induction es; cbn; lia. Qed.

Lemma sizes_nonneg es : Forall (fun e => 0 <= e_file_size e) es -> 0 <= sizes es.
Proof. unfold sizes. induction 1; cbn in *; lia. Qed.

Definition entry_path (e : entry) : bytes := default [] (e_path e).

(** The entries name distinct existing files of non-negative sizes. *)
Definition on_disk (fs : files) (es : list entry) : Prop :=
  NoDup (map entry_path es) /\ Forall (fun e => is_Some (fs !! entry_path e)) es /\
  Forall (fun e => 0 <= e_file_size e) es.

Definition deletes (fs : files) (victims : list entry) : files :=
  fold_left (fun fs e => delete (entry_path e) fs) victims fs.

Lemma remove_nth_perm (es : list entry) i e :
  es !! i = Some e -> es ≡ₚ e :: (take i es ++ drop (S i) es).
Proof. intros H. rewrite <- (take_drop_middle es i e H) at 1. solve_Permutation. Qed.

Lemma on_disk_delete fs es i e :
  on_disk fs es -> es !! i = Some e ->
  on_disk (delete (entry_path e) fs) (take i es ++ drop (S i) es).
Proof.
  intros (Hnd & Hex & Hsz) Hi. pose proof (remove_nth_perm es i e Hi) as Hp.
  set (es' := take i es ++ drop (S i) es) in *.
  rewrite Hp in Hnd, Hex, Hsz. cbn in Hnd.
  inversion_clear Hnd as [|? ? Hni Hnd']. apply Forall_cons_iff in Hex as [_ Hex].
  apply Forall_cons_iff in Hsz as [_ Hsz]. split_and!; [done| |done].
  apply Forall_intro. intros x Hx. rewrite lookup_delete_ne.
  - by apply (Forall_elem _ _ x Hex).
  - intros E. apply Hni. rewrite E. by apply list_elem_of_fmap_2.
Qed.

Lemma c_unlink_ok w p c :
  w_faults w = [] -> w_files w !! p = Some c ->
  exists w', c_unlink p w = (true, w') /\ w_files w' = delete p (w_files w) /\ w_faults w' = [].
Proof.
  intros Hf Hp. unfold c_unlink, io_bind, next_fault, get_files, set_files, ret.
  rewrite Hf, Hp. by eexists.
Qed.

Lemma evict_loop_spec fuel target es w :
  w_faults w = [] -> scored es -> on_disk (w_files w) es -> (length es <= fuel)%nat ->
  exists victims es' w',
    evict_loop fuel score target (sizes es) es w = (es', w') /\
    es ≡ₚ victims ++ es' /\ w_files w' = deletes (w_files w) victims /\
    (sizes es' <= target \/ es' = []) /\
    (forall v e, v ∈ victims -> e ∈ es' -> before e v = false) /\
    (forall vs v, victims = vs ++ [v] -> target < sizes es' + e_file_size v).
Proof.
  revert es w. induction fuel as [|fuel IH]; intros es w Hf Hs Hd Hl.
  - destruct es; [|cbn in Hl; lia]. exists [], [], w. split_and!; try done; [by right|set_solver|].
    intros vs v E. by destruct vs.
  - cbn [evict_loop]. destruct (Z.leb_spec (sizes es) target) as [Hle|Hgt].
    { exists [], es, w. split_and!; try done; [by left|set_solver|]. intros vs v E. by destruct vs. }
    destruct (evict_victim score es) as [[i e]|] eqn:Ev.
    2: { destruct es; [|done]. exists [], [], w. split_and!; try done; [by right|by intros ? ? ?%not_elem_of_nil|].
         intros vs v E. by destruct vs. }
    pose proof (evict_victim_spec es (i, e) Hs Ev) as [Hi Hmin]. cbn in Hi, Hmin.
    pose proof (remove_nth_perm es i e Hi) as Hp.
    pose proof (on_disk_delete _ _ _ _ Hd Hi) as Hd'.
    destruct Hd as (_ & Hex & Hsz).
    rewrite Hp in Hex, Hsz. apply Forall_cons_iff in Hex as [[c Hc] _].
    apply Forall_cons_iff in Hsz as [Hse Hsz].
    destruct (c_unlink_ok w _ c Hf Hc) as (w1 & E1 & Ew1 & Hf1).
    fold (entry_path e). unfold io_bind at 1. rewrite E1.
    set (es1 := take i es ++ drop (S i) es) in *.
    assert (Esz : sizes es = e_file_size e + sizes es1) by (rewrite (sizes_perm _ _ Hp); done).
    pose proof (sizes_nonneg _ Hsz) as Hnn.
    replace (if e_file_size e <=? sizes es then sizes es - e_file_size e else 0) with (sizes es1)
      by (destruct (Z.leb_spec (e_file_size e) (sizes es)); lia).
    rewrite <- Ew1 in Hd'.
    assert (Hs1 : scored es1) by (unfold scored in *; rewrite Hp in Hs; by apply Forall_cons_iff in Hs as [_ ?]).
    destruct (IH es1 w1) as (vs & es' & w' & E & Hpm & Hw' & Hb & Hmn & Hlast); try done.
    { apply Permutation_length in Hp. cbn in Hp. lia. }
    exists (e :: vs), es', w'. split_and!; try done.
    + rewrite Hp. cbn. by constructor.
    + rewrite Hw', Ew1. done.
    + intros v x Hv Hx. apply elem_of_cons in Hv as [->|Hv]; [|by apply Hmn].
      apply Hmin. rewrite Hp, Hpm. apply elem_of_cons, or_intror, elem_of_app, or_intror, Hx.
    + intros us v E'. destruct us as [|u us]; cbn in E'; injection E' as -> E'.
      * subst vs. cbn in Hpm. rewrite <- (sizes_perm _ _ Hpm). lia.
      * by eapply Hlast.
Qed.

End order.

(** ** The scanned entries are on disk *)

Lemma name_entry_path fs dir name e :
  name_entry fs dir name = Some e -> entry_path e = dir_slash dir ++ name.
Proof.
  intros H. apply name_entry_file in H as (sha & c & _ & _ & H).
  apply file_entry_path in H as (Hp & _). unfold entry_path. by rewrite Hp.
Qed.

Lemma scan_on_disk fs dir names :
  NoDup names -> on_disk fs (scan_entries fs dir names).
Proof.
  intros Hnd. split_and!.
  - induction Hnd as [|name names Hni Hnd IH]; [constructor|].
    unfold scan_entries. cbn [omap list_omap].
    destruct (name_entry fs dir name) as [e|] eqn:E; [|done].
    cbn [map]. constructor; [|done]. intros Hin.
    apply list_elem_of_fmap in Hin as (e' & Ep & Hin).
    apply scan_entries_elem in Hin as (name' & Hn' & E').
    rewrite (name_entry_path _ _ _ _ E), (name_entry_path _ _ _ _ E') in Ep.
    apply app_inv_head in Ep. by subst.
  - apply Forall_intro. intros e He. apply scan_entries_elem in He as (name & _ & E).
    rewrite (name_entry_path _ _ _ _ E). apply name_entry_file in E as (? & c & _ & -> & _). done.
  - apply Forall_intro. intros e He. apply scan_entries_elem in He as (name & _ & E).
    apply name_entry_file in E as (? & c & _ & _ & H).
    apply file_entry_path in H as (_ & _ & ->). apply zlen_nonneg.
Qed.

Lemma total_size_sizes es :
  Forall (fun e => 0 <= e_file_size e) es -> sizes es <= UINT64_MAX -> total_size es = sizes es.
Proof.
  intros Hs Hm. unfold total_size.
  assert (H : forall t, 0 <= t -> t + sizes es <= UINT64_MAX ->
    fold_left (fun t e => u64 (t + e_file_size e)) es t = t + sizes es).
  { clear Hm. induction Hs as [|e es He Hs IH]; intros t Ht Hm; cbn [fold_left]; [cbn; lia|].
    rewrite sizes_cons in *. pose proof (sizes_nonneg _ Hs).
    assert (Eu : u64 (t + e_file_size e) = t + e_file_size e).
    { apply wrap_small. unfold in_u, UINT64_MAX in *. lia. }
    rewrite Eu, IH by lia. lia. }
  rewrite H; lia.
Qed.

Lemma run_time w : exists now w', c_time w = (now, w') /\ w_files w' = w_files w /\
  w_faults w' = w_faults w /\ w_now w <= now /\ w_hist w' = w_hist w /\ w_order w' = w_order w.
Proof. unfold c_time. destruct (w_ticks w); do 2 eexists; split_and!; cbn; done || lia. Qed.

(** ** Property *)

Definition listed (kc : kvstore) (w : world) : list entry :=
  scan_entries (w_files w) (kc_dir kc) (w_order w (dir_names (w_files w) (dir_slash (kc_dir kc)))).

(** C21. An eviction pass on an enabled store with a budget, when no call fails,
    removes exactly the files of some of the readable checkpoints, such that what
    is left plus the bytes about to be written is within the budget (or nothing
    is left); no survivor scores below a victim, nor ties with it while older;
    and before the last victim went the budget was still exceeded. *)
Theorem evict_meets_budget exp2 kc extra incoming w :
  quiet w -> order_ok w -> kc_enabled kc = true -> 0 < kc_budget_bytes kc ->
  extra <= kc_budget_bytes kc -> sizes (listed kc w) <= UINT64_MAX ->
  let score e := ds4_kvstore_entry_eviction_score exp2 e (c_time w).1 incoming in
  scored score (listed kc w) ->
  exists victims kc' w',
    ds4_kvstore_evict exp2 kc extra incoming w = (kc', w') /\
    listed kc w ≡ₚ victims ++ kc_entry kc' /\
    w_files w' = deletes (w_files w) victims /\
    (sizes (kc_entry kc') + extra <= kc_budget_bytes kc \/ kc_entry kc' = []) /\
    (forall v e, v ∈ victims -> e ∈ kc_entry kc' -> before score e v = false) /\
    (forall vs v, victims = vs ++ [v] ->
       kc_budget_bytes kc < sizes (kc_entry kc') + e_file_size v + extra).
Proof.
  intros Hq Ho He Hb Hx Hsz score Hs. unfold ds4_kvstore_evict. rewrite He. cbn [negb orb].
  destruct (Z.eqb_spec (kc_budget_bytes kc) 0); [lia|].
  destruct (Z.ltb_spec (kc_budget_bytes kc) extra); [lia|].
  unfold io_bind at 1. rewrite run_refresh by done. fold (listed kc w).
  unfold score in *. destruct (run_time w) as (now & w1 & Et & Ef & Hf & _).
  rewrite Et in *. cbn [fst] in *. unfold io_bind at 1. rewrite Et. cbn [kc_entry set_entries].
  assert (Hd : on_disk (w_files w1) (listed kc w)).
  { rewrite Ef. apply scan_on_disk. rewrite (Ho _). apply dir_names_nodup. }
  rewrite total_size_sizes by (done || apply Hd).
  destruct (evict_loop_spec (fun e => ds4_kvstore_entry_eviction_score exp2 e now incoming)
    (length (listed kc w)) (kc_budget_bytes kc - extra) (listed kc w) w1)
    as (victims & es' & w' & E & Hp & Hw & Hm & Hv & Hl); try done.
  { unfold quiet in Hq. by rewrite Hf. }
  exists victims, (set_entries kc es'), w'.
  change (kc_entry (set_entries kc es')) with es'. split_and!; try done.
  - etransitivity; [apply (run_bind _ _ _ _ _ E) | reflexivity].
  - by rewrite Hw, Ef.
  - destruct Hm as [Hm|Hm]; [left; lia | by right].
  - intros vs v Ev. specialize (Hl vs v Ev). lia.
Qed.

(** A directory with two checkpoints of 512 tokens, one of them larger. *)
Definition ex_name (d : ascii) : bytes := replicate 40 (ch d) ++ KV_SUFFIX.
Definition ex_file (tokens hits : Z) (payload : nat) : bytes :=
  ds4_kvstore_fill_header 0 2 REASON_COLD 0 tokens hits 4096 1000 1000 (Z.of_nat payload)
  ++ ds4_kvstore_le_put32 5 ++ bs "hello" ++ replicate payload 7.
Definition ex_dir : bytes := bs "/kv".
Definition ex_world : world :=
  mkWorld (list_to_map [(dir_slash ex_dir ++ ex_name "a", ex_file 512 0 100);
                        (dir_slash ex_dir ++ ex_name "b", ex_file 512 3 40)])
    [] ∅ [] 2000 [] (fun l => l).
Definition ex_store : kvstore :=
  mkKvstore true ex_dir 150 false ds4_kvstore_default_options 0 [].

Lemma evict_meets_budget_witness :
  quiet ex_world /\
  exists victims kc' w',
    ds4_kvstore_evict (fun _ => d_one) ex_store 0 None ex_world = (kc', w') /\
    listed ex_store ex_world ≡ₚ victims ++ kc_entry kc' /\
    w_files w' = deletes (w_files ex_world) victims /\
    (sizes (kc_entry kc') + 0 <= kc_budget_bytes ex_store \/ kc_entry kc' = []) /\
    (forall v e, v ∈ victims -> e ∈ kc_entry kc' ->
       before (fun e => ds4_kvstore_entry_eviction_score (fun _ => d_one) e (c_time ex_world).1 None)
         e v = false) /\
    (forall vs v, victims = vs ++ [v] ->
       kc_budget_bytes ex_store < sizes (kc_entry kc') + e_file_size v + 0).
Proof.
  split; [reflexivity|].
  apply (evict_meets_budget (fun _ => d_one) ex_store 0 None ex_world);
    [reflexivity | intros l; reflexivity | reflexivity | reflexivity | vm_compute; discriminate
    | vm_compute; discriminate |].
  apply (bool_decide_eq_true_1 _). vm_compute. reflexivity.
Defined.

(** The larger file goes; the one with more hits per byte stays. *)
Example evict_example :
  map e_sha (kc_entry (ds4_kvstore_evict (fun _ => d_one) ex_store 0 None ex_world).1)
  = [replicate 40 (ch "b")].
Proof. vm_compute. reflexivity. Qed.
