(* ===== verification/KvSession.v ===== *)
(** * KvSession: storing and loading checkpoints (ds4_kvstore.c, second half)

    The protocols that connect the store of [KvStore] with the engine: writing a
    checkpoint through a temporary file, replacing its trailer, finding the
    longest cached prefix of a prompt and restoring a session from it. *)

From S2P Require Import Prelude Sha Ctype KvHeader Fs KvStore.

(** ** What the store needs of the engine (ds4.c) *)

Class Engine := {
  Session : Type;
  eg_routed_quant_bits : Z;
  eg_model_id : Z;
  eg_token_text : Z -> bytes;
  eg_tokenize_rendered_chat : bytes -> tokens;
  eg_tokens : Session -> option tokens;
  eg_ctx : Session -> Z;
  eg_stage_payload : Session -> option bytes;         (** [None]: no valid checkpoint *)
  eg_load_payload : Session -> bytes -> bool * Session;
  eg_invalidate : Session -> Session
}.

(** What the session promises: a staged payload restores the tokens in every
    session whose context is large enough, and an invalidated session holds no
    tokens. *)
Class EngineLaws `{Engine} := {
  eg_load_staged s p s' :
    eg_stage_payload s = Some p -> eg_ctx s <= eg_ctx s' ->
    exists s'', eg_load_payload s' p = (true, s'') /\ eg_tokens s'' = eg_tokens s;
  eg_invalidate_tokens s : eg_tokens (eg_invalidate s) = Some []
}.

(** [ds4_kvstore_trailer_hooks].  [hk_write text] is what the hook writes behind
    the payload, [None] when it fails before writing; [hk_load] tells whether a
    load hook is set. *)
Record trailer_hooks := mkHooks {
  hk_ext_flag : Z;
  hk_serialized_size : option (bytes -> option Z);
  hk_write : option (bytes -> option bytes);
  hk_load : bool
}.

Definition kv_trailer_serialized_size (hooks : option trailer_hooks) (text : bytes) : option Z :=
  match hooks with
  | None => Some 0
  | Some h => match hk_serialized_size h with None => Some 0 | Some f => f text end
  end.

(** Success, the bytes written, and the stream behind them. *)
Definition kv_trailer_write (hooks : option trailer_hooks) (fp : stream) (text : bytes)
  : IO (bool * Z * stream) :=
  match hooks with
  | None => ret (true, 0, fp)
  | Some h =>
      match hk_write h with
      | None => ret (true, 0, fp)
      | Some f =>
          match f text with
          | None => ret (false, 0, fp)
          | Some data =>
              let! (ok, fp) := c_fwrite fp data in
              ret (ok, if ok then zlen data else 0, fp)
          end
      end
  end.

Section store.
Context {E : Engine} (exp2 : double -> double).

(** [tokens] may hold any ids; each is rendered by the engine. *)
Definition ds4_kvstore_render_tokens_text (toks : tokens) : bytes :=
  concat (map eg_token_text toks).

Definition ds4_kvstore_build_prompt_from_exact_prefix_and_text_suffix
    (exact_prefix : tokens) (suffix_text : bytes) : tokens :=
  exact_prefix ++ eg_tokenize_rendered_chat suffix_text.

Definition kv_cache_file_text_matches (path sha text : bytes) : IO bool :=
  if UINT32_MAX <? zlen text then ret false
  else
    let! fp := c_fopen_rb path in
    match fp with
    | None => ret false
    | Some fp =>
        let! (r, fp) := read_header_io fp in
        match r with
        | Some hdr =>
            if e_text_bytes hdr =? zlen text then
              let! (stored, fp) := c_fread fp (Z.to_nat (e_text_bytes hdr)) in
              let! _ := c_fclose fp in
              if zlen stored =? e_text_bytes hdr then
                ret (bytes_eqb (sha1_hex stored) sha &&
                     ((zlen text =? 0) || bytes_eqb stored text))
              else ret false
            else let! _ := c_fclose fp in ret false
        | None => let! _ := c_fclose fp in ret false
        end
    end.

Definition kv_cache_existing_compatible (kc : kvstore) (path sha text : bytes)
    (model_id quant_bits ctx_size : Z) : IO bool :=
  let! acc := c_access path in
  if negb acc then ret false
  else
    let! r := ds4_kvstore_read_entry_file path sha in
    match r with
    | None => ret false
    | Some e =>
        let! compatible :=
          (if (e_model_id e =? u8 model_id) &&
              (negb (kc_reject_different_quant kc) || (e_quant_bits e =? u8 quant_bits)) &&
              (e_ctx_size e <=? u32 ctx_size)
           then kv_cache_file_text_matches path sha text else ret false) in
        if negb compatible then let! _ := c_unlink path in ret false
        else ret true
    end.

Definition kv_cache_rewrite_trailer (path text : bytes) (hooks : option trailer_hooks) : IO unit :=
  match hooks with
  | None => ret tt
  | Some h =>
      match hk_write h, hk_serialized_size h, kv_trailer_serialized_size hooks text with
      | Some _, Some _, Some trailer_est =>
          if trailer_est =? 0 then ret tt
          else
            let! fp := c_fopen_rpb path in
            match fp with
            | None => ret tt
            | Some fp =>
                let! (r, fp) := read_header_io fp in
                match r with
                | None => let! _ := c_fclose fp in ret tt
                | Some hdr =>
                    let end_ := u64 (DS4_KVSTORE_FIXED_HEADER + 4 + e_text_bytes hdr
                                     + e_payload_bytes hdr) in
                    if INT64_MAX <? end_ then let! _ := c_fclose fp in ret tt
                    else
                      let! (ok, fp) := c_fseek fp end_ in
                      if negb ok then let! _ := c_fclose fp in ret tt
                      else
                        let! ok := c_ftruncate fp end_ in
                        if negb ok then let! _ := c_fclose fp in ret tt
                        else
                          let! (ok, ignored, fp) := kv_trailer_write hooks fp text in
                          if negb ok then let! _ := c_fclose fp in ret tt
                          else
                            let! (ok, fp) := c_fflush fp in
                            if negb (ok && (0 <? ignored)) then let! _ := c_fclose fp in ret tt
                            else
                              let! now := c_time in
                              let hb := ds4_kvstore_fill_header (e_model_id hdr) (e_quant_bits hdr)
                                (e_reason hdr) (u8 (Z.lor (e_ext_flags hdr) (hk_ext_flag h)))
                                (e_tokens hdr) (e_hits hdr) (e_ctx_size hdr)
                                (e_created_at hdr) now (e_payload_bytes hdr) in
                              let! (ok, fp) := c_fseek fp 0 in
                              if negb ok then let! _ := c_fclose fp in ret tt
                              else
                                let! (ok, fp) := c_fwrite fp hb in
                                if negb ok then let! _ := c_fclose fp in ret tt
                                else
                                  let! (_, fp) := c_fflush fp in
                                  let! _ := c_fclose fp in ret tt
                end
            end
      | _, _, _ => ret tt
      end
  end.

(** [ds4_session_write_staged_payload]: opening the staged file may fail. *)
Definition write_staged_payload (fp : stream) (payload : bytes) : IO (bool * stream) :=
  let! f := next_fault in
  match f with
  | Some _ => ret (false, fp)
  | None => c_fwrite fp payload
  end.

(** [ds4_session_stage_payload] *)
Definition stage_payload (session : Session) : IO (option bytes) :=
  let! f := next_fault in
  ret (match f with Some _ => None | None => eg_stage_payload session end).

(** The [&&] chain that writes the file: verdict and trailer size. *)
Definition write_checkpoint (fp : stream) (h tb text payload : bytes)
    (hooks : option trailer_hooks) : IO (bool * Z * stream) :=
  let! (ok, fp) := c_fwrite fp h in
  if negb ok then ret (false, 0, fp) else
  let! (ok, fp) := c_fwrite fp tb in
  if negb ok then ret (false, 0, fp) else
  let! (ok, fp) := c_fwrite fp text in
  if negb ok then ret (false, 0, fp) else
  let! (ok, fp) := write_staged_payload fp payload in
  if negb ok then ret (false, 0, fp) else
  let! (ok, n, fp) := kv_trailer_write hooks fp (cstr text) in
  if negb ok then ret (false, n, fp) else
  let! (ok, fp) := c_fflush fp in
  ret (ok, n, fp).

Definition tmp_path (path pid : bytes) : bytes := path ++ bs ".tmp." ++ pid.

(** The part of [ds4_kvstore_store_live_prefix_text] from the staged payload on:
    write the temporary file and rename it over [path]. *)
Definition store_file (kc : kvstore) (pid path text payload : bytes) (header : Z -> bytes)
    (hooks : option trailer_hooks) : IO bool :=
  let tmp := tmp_path path pid in
  let! fp := c_fopen_wb tmp in
  match fp with
  | None => ret false
  | Some fp =>
      let! now := c_time in
      let! (ok, trailer_bytes, fp) :=
        write_checkpoint fp (header now) (ds4_kvstore_le_put32 (zlen text)) text payload hooks in
      let! closed := c_fclose fp in
      let ok := ok && closed in
      let ok := ok && (ds4_kvstore_file_size_fits (Some kc) (zlen text) (zlen payload)
                         trailer_bytes).1.1 in
      let! ok := (if ok then c_rename tmp path else ret false) in
      if negb ok then let! _ := c_unlink tmp in ret false else ret true
  end.

(** [pid] spells [getpid()]; [None] as [cache_text_override] is NULL. *)
Definition ds4_kvstore_store_live_prefix_text (pid : bytes) (kc : kvstore) (session : Session)
    (toks : option tokens) (store_len : Z) (reason : option bytes)
    (cache_text_override : option bytes) (cache_text_ext : Z)
    (hooks : option trailer_hooks) : IO (bool * kvstore) :=
  if negb (kc_enabled kc) then ret (false, kc) else
  match toks with
  | None => ret (false, kc)
  | Some toks =>
  if store_len <? o_min_tokens (kc_opt kc) then ret (false, kc) else
  let store_tokens := ds4_kvstore_tokens_copy_prefix (Some toks) store_len in
  let quant_bits := eg_routed_quant_bits in
  if negb (quant_bits =? 2) && negb (quant_bits =? 4) then ret (false, kc) else
  let model_id := eg_model_id in
  match eg_tokens session with
  | None => ret (false, kc)
  | Some live_tokens =>
  if negb (zlen live_tokens =? zlen store_tokens) ||
     negb (ds4_tokens_starts_with live_tokens store_tokens) then ret (false, kc) else
  let '(text_override, text) :=
    match cache_text_override with
    | Some (c :: t) => (true, c :: t)
    | _ => (false, ds4_kvstore_render_tokens_text store_tokens)
    end in
  if UINT32_MAX <? zlen text then ret (false, kc) else
  match kv_trailer_serialized_size hooks (cstr text) with
  | None => ret (false, kc)
  | Some trailer_est_bytes =>
  let sha := sha1_hex text in
  let path := ds4_kvstore_path_for_sha (kc_dir kc) sha in
  let reason_code := ds4_kvstore_reason_code reason in
  let! compatible := kv_cache_existing_compatible kc path sha text model_id quant_bits (eg_ctx session) in
  if compatible then
    let! _ := kv_cache_rewrite_trailer path (cstr text) hooks in ret (true, kc)
  else
  let! staged := stage_payload session in
  match staged with
  | None => ret (false, kc)
  | Some payload =>
  let '(fits, est_file_bytes, _) :=
    ds4_kvstore_file_size_fits (Some kc) (zlen text) (zlen payload) trailer_est_bytes in
  if negb fits then ret (false, kc) else
  let incoming := mkIncoming text (u8 model_id) (u8 quant_bits) (u32 (eg_ctx session))
                    (kc_reject_different_quant kc) in
  let! kc := ds4_kvstore_evict exp2 kc est_file_bytes (Some incoming) in
  let ext_flags := match hooks with
                   | Some h => if 0 <? trailer_est_bytes then hk_ext_flag h else 0
                   | None => 0 end in
  let ext_flags := if text_override then u8 (Z.lor ext_flags cache_text_ext) else ext_flags in
  let header now := ds4_kvstore_fill_header (u8 model_id) (u8 quant_bits) reason_code ext_flags
                      (u32 (zlen store_tokens)) 0 (u32 (eg_ctx session)) now now (zlen payload) in
  let! ok := store_file kc pid path text payload header hooks in
  ret (ok, kc)
  end end end end.

Definition ds4_kvstore_store_live_prefix (pid : bytes) (kc : kvstore) (session : Session)
    (toks : option tokens) (store_len : Z) (reason : option bytes)
    (hooks : option trailer_hooks) : IO (bool * kvstore) :=
  ds4_kvstore_store_live_prefix_text pid kc session toks store_len reason None 0 hooks.

Definition ds4_kvstore_maybe_store_continued (pid : bytes) (kc : kvstore) (session : Session)
    (hooks : option trailer_hooks) : IO (bool * kvstore) :=
  match eg_tokens session with
  | None => ret (false, kc)
  | Some toks =>
      let target := ds4_kvstore_continued_store_target kc (zlen toks) in
      if target =? 0 then ret (false, kc)
      else
        let! (ok, kc) := ds4_kvstore_store_live_prefix pid kc session (Some toks) target
                           (Some (bs "continued")) hooks in
        if ok then ret (true, ds4_kvstore_note_store kc target) else ret (false, kc)
  end.

(** ** Lookup *)

(** The filters of the scan that do not depend on the current best. *)
Definition prefix_eligible (kc : kvstore) (prompt_bytes model_id quant_bits ctx_size : Z) (e : entry)
  : bool :=
  negb (prompt_bytes <? e_text_bytes e) && negb (SIZE_MAX <? e_text_bytes e)
  && negb (i32 (e_tokens e) <? o_min_tokens (kc_opt kc))
  && (e_model_id e =? u8 model_id)
  && negb (u32 ctx_size <? e_ctx_size e)
  && negb (kc_reject_different_quant kc && negb (e_quant_bits e =? u8 quant_bits)).

Definition prefix_hash_ok (prompt : bytes) (e : entry) : bool :=
  bytes_eqb (sha1_hex (take (Z.to_nat (e_text_bytes e)) prompt)) (e_sha e).

(** The [continue]s against the current best entry. *)
Definition prefix_not_better (e b : entry) : bool :=
  (e_text_bytes e <? e_text_bytes b) ||
  ((e_text_bytes e =? e_text_bytes b) && (e_tokens e <=? e_tokens b)).

Fixpoint find_text_prefix_scan (kc : kvstore) (prompt : bytes) (model_id quant_bits ctx_size : Z)
    (es : list entry) (i : Z) (best : option (Z * entry)) : option (Z * entry) :=
  match es with
  | [] => best
  | e :: es' =>
      let best :=
        if negb (prefix_eligible kc (zlen prompt) model_id quant_bits ctx_size e) then best
        else if match best with Some (_, b) => prefix_not_better e b | None => false end then best
        else if prefix_hash_ok prompt e then Some (i, e) else best in
      find_text_prefix_scan kc prompt model_id quant_bits ctx_size es' (i + 1) best
  end.

Definition ds4_kvstore_find_text_prefix (kc : kvstore) (prompt_text : option bytes)
    (model_id quant_bits ctx_size : Z) : IO (Z * kvstore) :=
  match prompt_text with
  | None => ret (-1, kc)
  | Some prompt =>
      let! kc := kv_cache_refresh kc in
      ret (match find_text_prefix_scan kc prompt model_id quant_bits ctx_size (kc_entry kc) 0 None with
           | Some (i, _) => i
           | None => -1
           end, kc)
  end.

(** ** Load *)

Record load_result := mkLoadResult {
  lr_tokens : Z;
  lr_text_bytes : Z;
  lr_quant_bits : Z;
  lr_ext_flags : Z;
  lr_consumed : bool;
  lr_path : bytes
}.

Definition load_result_zero : load_result := mkLoadResult 0 0 0 0 false [].

(** What a load leaves behind.  [lo_hook] is the stream handed to the load hook,
    when it is called. *)
Record load_outcome := mkLoadOutcome {
  lo_loaded : Z;
  lo_kc : kvstore;
  lo_session : Session;
  lo_prompt : tokens;
  lo_result : load_result;
  lo_hook : option stream
}.

(** Header, stored text and its checks: the header and the stream behind the
    text when all of them pass. *)
Definition load_check (fp : stream) (prompt sha : bytes) (model_id : Z)
  : IO (option entry * stream) :=
  let! (r, fp) := read_header_io fp in
  match r with
  | None => ret (None, fp)
  | Some hdr =>
      if negb (e_model_id hdr =? u8 model_id) then ret (None, fp)
      else if zlen prompt <? e_text_bytes hdr then ret (None, fp)
      else
        let! (cached_text, fp) := c_fread fp (Z.to_nat (e_text_bytes hdr)) in
        if negb (zlen cached_text =? e_text_bytes hdr) then ret (None, fp)
        else if negb (bytes_eqb (sha1_hex cached_text) sha) then ret (None, fp)
        else if negb (ds4_kvstore_byte_prefix_match prompt cached_text) then ret (None, fp)
        else ret (Some hdr, fp)
  end.

(** [ds4_session_load_payload] reads the payload from the stream. *)
Definition load_payload (session : Session) (fp : stream) (payload_bytes : Z)
  : IO (bool * Session * stream) :=
  let! (p, fp) := c_fread fp (Z.to_nat payload_bytes) in
  let '(ok, s) := eg_load_payload session p in
  ret (ok && (zlen p =? payload_bytes), s, fp).

Definition ds4_kvstore_try_load_text (kc : kvstore) (session : Session)
    (prompt_text : option bytes) (hooks : option trailer_hooks) : IO load_outcome :=
  let miss kc := mkLoadOutcome 0 kc session [] load_result_zero None in
  if negb (kc_enabled kc) then ret (miss kc) else
  match prompt_text with
  | None => ret (miss kc)
  | Some prompt =>
  let quant_bits := eg_routed_quant_bits in
  if negb (quant_bits =? 2) && negb (quant_bits =? 4) then ret (miss kc) else
  let model_id := eg_model_id in
  let! (idx, kc) := ds4_kvstore_find_text_prefix kc prompt_text model_id quant_bits (eg_ctx session) in
  if idx <? 0 then ret (miss kc) else
  match kc_entry kc !! Z.to_nat idx with
  | None => ret (miss kc)
  | Some e =>
  let path := default [] (e_path e) in
  let! fp := c_fopen_rb path in
  match fp with
  | None => ret (miss kc)
  | Some fp =>
  let! (hdr, fp) := load_check fp prompt (e_sha e) model_id in
  match hdr with
  | None => let! _ := c_fclose fp in ret (miss kc)
  | Some hdr =>
  let! (ok, session, fp) := load_payload session fp (e_payload_bytes hdr) in
  if negb ok then
    let! _ := c_fclose fp in
    ret (mkLoadOutcome 0 kc (eg_invalidate session) [] load_result_zero None)
  else
    let loaded := i32 (e_tokens hdr) in
    match eg_tokens session with
    | Some loaded_tokens =>
        if zlen loaded_tokens =? loaded then
          let prompt' := ds4_kvstore_build_prompt_from_exact_prefix_and_text_suffix loaded_tokens
                           (drop (Z.to_nat (e_text_bytes hdr)) prompt) in
          let hook := match hooks with
            | Some h => if hk_load h && negb (Z.land (e_ext_flags hdr) (hk_ext_flag h) =? 0)
                        then Some fp else None
            | None => None
            end in
          let! _ := c_fclose fp in
          if 0 <? loaded then
            let kc := set_continued kc loaded in
            let! consumed :=
              (if (0 <? o_cold_max_tokens (kc_opt kc)) && (o_cold_max_tokens (kc_opt kc) <? loaded)
               then let! _ := c_unlink path in ret true
               else let! _ := ds4_kvstore_touch_file path (u32 (e_hits hdr + 1)) in ret false) in
            ret (mkLoadOutcome loaded kc session prompt'
                   (mkLoadResult loaded (e_text_bytes hdr) (e_quant_bits hdr) (e_ext_flags hdr)
                      consumed path) hook)
          else ret (mkLoadOutcome loaded kc session prompt' load_result_zero hook)
        else
          let! _ := c_unlink path in
          let! _ := c_fclose fp in
          ret (mkLoadOutcome 0 kc (eg_invalidate session) [] load_result_zero None)
    | None =>
        let! _ := c_unlink path in
        let! _ := c_fclose fp in
        ret (mkLoadOutcome 0 kc (eg_invalidate session) [] load_result_zero None)
    end
  end end end end.

End store.

(** * a concrete engine for the [Engine] interface

    A session is its tokens; a payload spells them as 32-bit words.  It shows
    that the interface's laws can hold, and the witnesses run on it. *)

Record demo_session := mkDemo { dm_tokens : tokens; dm_ctx : Z; dm_valid : bool }.

Definition demo_stage (s : demo_session) : option bytes :=
  if dm_valid s && forallb (in_u_b 32) (dm_tokens s)
  then Some (concat (map ds4_kvstore_le_put32 (dm_tokens s))) else None.

Fixpoint demo_decode (p : bytes) : option tokens :=
  match p with
  | [] => Some []
  | a :: b :: c :: d :: p' => t ← demo_decode p'; Some (ds4_kvstore_le_get32 [a; b; c; d] :: t)
  | _ => None
  end.

Definition demo_load (s : demo_session) (p : bytes) : bool * demo_session :=
  match demo_decode p with
  | Some t => (true, mkDemo t (dm_ctx s) true)
  | None => (false, s)
  end.

Definition demo_engine : Engine := {|
  Session := demo_session;
  eg_routed_quant_bits := 2;
  eg_model_id := 0;
  eg_token_text t := [u8 t];
  eg_tokenize_rendered_chat b := b;
  eg_tokens s := Some (dm_tokens s);
  eg_ctx := dm_ctx;
  eg_stage_payload := demo_stage;
  eg_load_payload := demo_load;
  eg_invalidate s := mkDemo [] (dm_ctx s) false
|}.

Lemma demo_decode_encode t :
  forallb (in_u_b 32) t = true -> demo_decode (concat (map ds4_kvstore_le_put32 t)) = Some t.
Proof.
  induction t as [|x t IH]; [done|]. cbn [forallb]. intros H. apply andb_true_iff in H as [Hx Ht].
  cbn [map concat]. unfold ds4_kvstore_le_put32 at 1. cbn [app demo_decode]. rewrite IH by done.
  cbn [mbind option_bind]. f_equal. f_equal.
  change [u8 x; u8 (Z.shiftr x 8); u8 (Z.shiftr x 16); u8 (Z.shiftr x 24)]
    with (ds4_kvstore_le_put32 x).
  rewrite <- (app_nil_r (ds4_kvstore_le_put32 x)). apply le_get_put32.
  unfold in_u_b in Hx. unfold in_u. bool_lia.
Qed.

#[export] Instance demo_laws : @EngineLaws demo_engine.
Proof.
  split; cbn.
  - unfold demo_stage, demo_load. intros s p s' H _.
    destruct (dm_valid s && _) eqn:E; [|done]. injection H as <-. bool_props.
    rewrite demo_decode_encode by done. eauto.
  - done.
Qed.

Definition demo_world : world := mkWorld ∅ [] ∅ [] 1000 [5] (fun l => l).
Definition demo_faulty : world := mkWorld ∅ [] ∅ [None; None; None; None; Some 3%nat] 1000 [] (fun l => l).
Definition demo_store : kvstore :=
  mkKvstore true (bs "/kv") 100000 false (mkOptions 1 30000 10 0 0) 0 [].
Definition demo_toks : tokens := [104; 105].
Definition demo_live : demo_session := mkDemo demo_toks 4096 true.
