(* ===== verification/KvLoad.v ===== *)
(** * KvLoad: what a lookup finds and what a load may restore (ds4_kvstore.c)

    These hold whatever calls fail on the way. *)

From S2P Require Import Prelude Ctype Sha KvHeader Fs KvStore KvEvict KvSession.

(** ** The scan for the longest cached prefix *)

Section find.
Context (kc : kvstore) (prompt : bytes) (model_id quant_bits ctx_size : Z).

Definition candidate (e : entry) : bool :=
  prefix_eligible kc (zlen prompt) model_id quant_bits ctx_size e && prefix_hash_ok prompt e.

(** [r] is the first maximum of the candidates of [es], by text length and then
    by token count. *)
Definition is_longest (es : list entry) (r : option (Z * entry)) : Prop :=
  match r with
  | None => forall e, e ∈ es -> candidate e = false
  | Some (i, b) =>
      0 <= i /\ es !! Z.to_nat i = Some b /\ candidate b = true /\
      (forall e, e ∈ es -> candidate e = true -> prefix_not_better e b = true) /\
      (forall j e, es !! j = Some e -> candidate e = true -> Z.of_nat j < i ->
         prefix_not_better b e = false)
  end.

Lemma not_better_spec e b :
  prefix_not_better e b = true <->
  e_text_bytes e < e_text_bytes b \/ (e_text_bytes e = e_text_bytes b /\ e_tokens e <= e_tokens b).
Proof.
  unfold prefix_not_better. rewrite orb_true_iff, andb_true_iff, Z.ltb_lt, Z.eqb_eq, Z.leb_le. done.
Qed.

Lemma find_scan_spec pre es r :
  is_longest pre r ->
  is_longest (pre ++ es)
    (find_text_prefix_scan kc prompt model_id quant_bits ctx_size es (zlen pre) r).
Proof.
  revert pre r. induction es as [|e es IH]; intros pre r Hr; cbn [find_text_prefix_scan].
  - by rewrite app_nil_r.
  - replace (pre ++ e :: es) with ((pre ++ [e]) ++ es) by (by rewrite <- app_assoc).
    replace (zlen pre + 1) with (zlen (pre ++ [e])) by zlen_lia.
    apply IH. clear IH es.
    assert (Hkeep : forall r, is_longest pre r ->
      (match r with Some (_, b) => candidate e = true -> prefix_not_better e b = true
                  | None => candidate e = false end) -> is_longest (pre ++ [e]) r).
    { clear. intros [[i b]|] H He; cbn in *.
      - destruct H as (Hi & Hb & Hc & Hm & Hf).
        assert (Hlt : (Z.to_nat i < length pre)%nat) by (by eapply lookup_lt_Some).
        split_and!; try done.
        + by apply lookup_app_l_Some.
        + intros x Hx. apply elem_of_app in Hx as [Hx|Hx]; [by apply Hm|].
          apply list_elem_of_singleton in Hx as ->. done.
        + intros j x Hx Hcx Hj. apply (Hf j x); [|done|done].
          rewrite lookup_app_l in Hx by lia. done.
      - intros x Hx. apply elem_of_app in Hx as [Hx|Hx]; [by apply H|].
        by apply list_elem_of_singleton in Hx as ->. }
    destruct (prefix_eligible _ _ _ _ _ e) eqn:Hel; cbn [negb].
    2: { apply Hkeep; [done|]. unfold candidate. rewrite Hel. by destruct r as [[]|]. }
    destruct (match r with Some (_, b) => prefix_not_better e b | None => false end) eqn:Hnb.
    { apply Hkeep; [done|]. by destruct r as [[]|]. }
    destruct (prefix_hash_ok prompt e) eqn:Hh.
    2: { apply Hkeep; [done|]. unfold candidate. rewrite Hh, andb_false_r. by destruct r as [[]|]. }
    assert (Hce : candidate e = true) by (unfold candidate; by rewrite Hel, Hh).
    assert (Hbest : forall x, x ∈ pre -> candidate x = true ->
              prefix_not_better x e = true /\ prefix_not_better e x = false).
    { intros x Hx Hcx. destruct r as [[i b]|]; cbn in Hr; [|by rewrite Hr in Hcx].
      destruct Hr as (_ & _ & _ & Hm & _). specialize (Hm x Hx Hcx).
      apply not_true_iff_false in Hnb. rewrite not_better_spec in *.
      split; [lia|]. apply not_true_iff_false. rewrite not_better_spec. lia. }
    cbn. unfold zlen. rewrite Nat2Z.id. split_and!; [lia| |done| |].
    + by rewrite lookup_app_r, Nat.sub_diag by done.
    + intros x Hx Hcx. apply elem_of_app in Hx as [Hx|Hx]; [by apply Hbest|].
      apply list_elem_of_singleton in Hx as ->. rewrite not_better_spec. lia.
    + intros j x Hx Hcx Hj. rewrite lookup_app_l in Hx by lia.
      apply Hbest; [|done]. by eapply list_elem_of_lookup_2.
Qed.

End find.

(** [ds4_kvstore_find_text_prefix] scans the directory once and returns the
    index of the longest usable checkpoint among what the scan found: -1 exactly
    when no entry passes the size, token, model, context and quantisation filters
    with the hash of the prompt's prefix of its length; otherwise an entry that
    passes them, such that no other passing entry has a longer text, nor an
    equally long one with more tokens, the first of them on ties. *)
Lemma find_text_prefix_longest kc prompt model_id quant_bits ctx_size w :
  let '((i, kc'), w') := ds4_kvstore_find_text_prefix kc (Some prompt) model_id quant_bits ctx_size w in
  kv_cache_refresh kc w = (kc', w') /\
  exists r, is_longest kc' prompt model_id quant_bits ctx_size (kc_entry kc') r /\
    i = match r with Some (j, _) => j | None => -1 end.
Proof.
  unfold ds4_kvstore_find_text_prefix, io_bind.
  destruct (kv_cache_refresh kc w) as [kc1 w1]. cbn. split; [done|].
  eexists. split; [|done]. apply (find_scan_spec kc1 prompt model_id quant_bits ctx_size [] _ None).
  intros e He. by apply not_elem_of_nil in He.
Qed.

(** What a successful [load_check] has verified. *)
Lemma load_check_inv p w prompt sha model_id r st w' :
  load_check (mkStream p 0 []) prompt sha model_id w = ((r, st), w') ->
  w_files w' = w_files w /\ st_path st = p /\ st_buf st = [] /\
  forall hdr, r = Some hdr ->
    let text := take (Z.to_nat (e_text_bytes hdr)) (drop 52 (content w p)) in
    ds4_kvstore_read_header (content w p) = Some (hdr, drop 52 (content w p)) /\
    zlen text = e_text_bytes hdr /\ sha1_hex text = sha /\ text `prefix_of` prompt /\
    e_model_id hdr = u8 model_id /\ st_pos st = (52 + length text)%nat.
Proof.
  unfold load_check. intros H. run_inv H as [r1 st1] w1 E1.
  apply read_header_io_inv in E1 as (Ef1 & Ep1 & Eb1 & Hr1).
  destruct r1 as [hdr|]; [|injection H as <- <- <-; split_and!; done].
  destruct (Hr1 hdr eq_refl) as [Epos1 Ehdr]. clear Hr1.
  destruct (Z.eqb_spec (e_model_id hdr) (u8 model_id)) as [Hmid|]; cbn [negb] in H;
    [|injection H as <- <- <-; split_and!; done].
  destruct (Z.ltb_spec (zlen prompt) (e_text_bytes hdr)) as [|Hle];
    [injection H as <- <- <-; split_and!; done|].
  run_inv H as [t st2] w2 E2.
  pose proof (fread_inv _ _ _ _ _ _ E2) as (Ef2 & Ep2 & Eb2 & Epos2 & _).
  pose proof (fread_full _ _ _ _ _ _ E2) as Hfull2.
  assert (HS1 : w_files w2 = w_files w) by congruence.
  assert (HS2 : st_path st2 = p) by congruence. assert (HS3 : st_buf st2 = []) by congruence.
  destruct (Z.eqb_spec (zlen t) (e_text_bytes hdr)) as [Ht|]; cbn [negb] in H;
    [|injection H as <- <- <-; split_and!; done].
  destruct (bytes_eqb (sha1_hex t) sha) eqn:Hsha; cbn [negb] in H;
    [|injection H as <- <- <-; split_and!; done].
  destruct (ds4_kvstore_byte_prefix_match prompt t) eqn:Hpre; cbn [negb] in H;
    [|injection H as <- <- <-; split_and!; done].
  injection H as <- <- <-. split_and!; [done..|]. intros hdr' [= <-].
  destruct Hfull2 as [Et _]; [unfold zlen in Ht; lia|].
  rewrite Ef1, Ep1, Epos1 in Et. fold (content w p) in Et. rewrite <- Et.
  apply bytes_eqb_eq in Hsha. split_and!; try done.
  - unfold ds4_kvstore_byte_prefix_match in Hpre. bool_props.
    match goal with Hx : (_ || _) = true |- _ => apply orb_true_iff in Hx as [Hx|Hx] end.
    + apply Z.eqb_eq, zlen_zero_nil in H0 as ->. apply prefix_nil.
    + apply bytes_eqb_eq in H0. rewrite <- H0. apply prefix_take.
  - by rewrite Epos2, Epos1.
Qed.

(** ** Load safety *)

Section load.
Context {E : Engine}.

(** Nothing was loaded: no tokens, no prompt, no result; the session is as it
    was, or invalidated after a failed attempt. *)
Definition load_missed (session : Session) (lo : load_outcome) : Prop :=
  lo_loaded lo = 0 /\ lo_prompt lo = [] /\ lo_result lo = load_result_zero /\ lo_hook lo = None /\
  (lo_session lo = session \/
   exists p ok s, eg_load_payload session p = (ok, s) /\ lo_session lo = eg_invalidate s).

(** The session was restored from the file [path] with contents [c]. *)
Definition load_hit (dir prompt : bytes) (session : Session) (lo : load_outcome)
    (path c : bytes) : Prop :=
  exists name hdr rest text suffix payload toks,
    path = dir_slash dir ++ name /\
    ds4_kvstore_sha_hex_name name = Some (sha1_hex text) /\
    ds4_kvstore_read_header c = Some (hdr, rest) /\
    e_model_id hdr = u8 eg_model_id /\
    text = take (Z.to_nat (e_text_bytes hdr)) rest /\ zlen text = e_text_bytes hdr /\
    prompt = text ++ suffix /\
    payload = take (Z.to_nat (e_payload_bytes hdr)) (drop (length text) rest) /\
    zlen payload = e_payload_bytes hdr /\
    eg_load_payload session payload = (true, lo_session lo) /\
    eg_tokens (lo_session lo) = Some toks /\
    lo_loaded lo = zlen toks /\ lo_loaded lo = i32 (e_tokens hdr) /\
    lo_prompt lo = toks ++ eg_tokenize_rendered_chat suffix /\
    (lo_loaded lo <> 0 -> exists consumed,
       lo_result lo = mkLoadResult (lo_loaded lo) (e_text_bytes hdr) (e_quant_bits hdr)
                        (e_ext_flags hdr) consumed path /\
       kc_continued_last_store_tokens (lo_kc lo) = lo_loaded lo).

Lemma load_payload_inv session st n w ok s st' w' :
  load_payload session st n w = ((ok, s, st'), w') ->
  w_files w' = w_files w /\ st_path st' = st_path st /\ st_buf st' = st_buf st /\
  exists p r, eg_load_payload session p = (r, s) /\
    (ok = true -> r = true /\ zlen p = n /\
       p = take (Z.to_nat n) (drop (st_pos st) (content w (st_path st)))).
Proof.
  unfold load_payload. intros H. run_inv H as [p st1] w1 E1.
  pose proof (fread_inv _ _ _ _ _ _ E1) as (Ef1 & Ep1 & Eb1 & _).
  pose proof (fread_full _ _ _ _ _ _ E1) as Hfull.
  destruct (eg_load_payload session p) as [r s1] eqn:El. injection H as <- <- <- <-.
  split_and!; [done..|]. exists p, r. split; [done|]. intros Hok. bool_props.
  split_and!; [done..|]. apply Hfull. unfold zlen in *. lia.
Qed.

Lemma load_missed_now session kc : load_missed session (mkLoadOutcome 0 kc session [] load_result_zero None).
Proof. split_and!; try done. by left. Qed.

Lemma load_missed_invalid session kc p ok s :
  eg_load_payload session p = (ok, s) ->
  load_missed session (mkLoadOutcome 0 kc (eg_invalidate s) [] load_result_zero None).
Proof. intros H. split_and!; try done. right. eauto. Qed.

(** The outcome of [ds4_kvstore_try_load_text] when all of its reads happened:
    either of the two, on the files as they were before the call. *)
Lemma try_load_cases kc session prompt hooks w lo w' :
  ds4_kvstore_try_load_text kc session (Some prompt) hooks w = (lo, w') ->
  load_missed session lo \/
  exists path c, w_files w !! path = Some c /\ load_hit (kc_dir kc) prompt session lo path c.
Proof.
  unfold ds4_kvstore_try_load_text. destruct (kc_enabled kc) eqn:He; cbn [negb].
  2: { intros [= <- <-]. left. apply load_missed_now. }
  destruct (_ && _). { intros [= <- <-]. left. apply load_missed_now. }
  intros H. run_inv H as [idx kc1] w1 E1.
  unfold ds4_kvstore_find_text_prefix in E1. run_inv E1 as kc2 w2 E2. injection E1 as Ei <- <-.
  apply refresh_inv in E2 as (Ef2 & HF & Ekc); [|done].
  destruct (idx <? 0); [injection H as <- <-; left; apply load_missed_now|].
  destruct (kc_entry kc2 !! Z.to_nat idx) as [e|] eqn:Hidx;
    [|injection H as <- <-; left; apply load_missed_now].
  apply list_elem_of_lookup_2 in Hidx. pose proof (Forall_elem _ _ _ HF Hidx) as (name & Hpath & Hname).
  rewrite Hpath in H. cbn [default from_option id] in H. set (path := dir_slash (kc_dir kc) ++ name) in *.
  run_inv H as fp w3 E3. apply fopen_rb_inv in E3 as [Ef3 Hfp].
  destruct fp as [fp|]; [|injection H as <- <-; left; apply load_missed_now].
  destruct (Hfp fp eq_refl) as [-> [c Hc]]. clear Hfp.
  run_inv H as [r st] w4 E4. apply load_check_inv in E4 as (Ef4 & Ep4 & Eb4 & Hr).
  destruct r as [hdr|].
  2: { run_inv H as b w5 E5. injection H as <- <-. left. apply load_missed_now. }
  destruct (Hr hdr eq_refl) as (Hhdr & Htl & Hsha & [suffix Hsuf] & Hmid & Hpos). clear Hr.
  assert (Ec : content w3 path = c) by (unfold content; rewrite Ef3, Hc; done).
  rewrite Ec in *. rewrite Ef2 in Hc.
  run_inv H as [[ok s] st5] w5 E5. apply load_payload_inv in E5 as (Ef5 & Ep5 & Eb5 & p & r & El & Hok).
  assert (Ec4 : content w4 (st_path st) = c).
  { unfold content. rewrite Ef4, Ef3, Ep4, Ef2, Hc. done. }
  rewrite Ec4 in Hok.
  destruct ok; cbn [negb] in H.
  2: { run_inv H as b w6 E6. injection H as <- <-. left. by eapply load_missed_invalid. }
  destruct (Hok eq_refl) as (-> & Hpl & Hp). clear Hok.
  destruct (eg_tokens s) as [toks|] eqn:Htoks.
  2: { run_inv H as b w6 E6. run_inv H as b2 w7 E7. injection H as <- <-. left. by eapply load_missed_invalid. }
  destruct (Z.eqb_spec (zlen toks) (i32 (e_tokens hdr))) as [Hn|Hn].
  2: { run_inv H as b w6 E6. run_inv H as b2 w7 E7. injection H as <- <-. left. by eapply load_missed_invalid. }
  run_inv H as b w6 E6. right. exists path, c. split; [done|].
  set (text := take (Z.to_nat (e_text_bytes hdr)) (drop 52 c)) in *.
  rewrite Hpos, <- drop_drop in Hp.
  assert (Hd : drop (Z.to_nat (e_text_bytes hdr)) prompt = suffix).
  { rewrite Hsuf. apply drop_app_length'. rewrite <- Htl. unfold zlen. lia. }
  rewrite Hd in H.
  exists name, hdr, (drop 52 c), text, suffix, p, toks.
  destruct (Z.ltb_spec 0 (i32 (e_tokens hdr))) as [Hl|Hl].
  - run_inv H as consumed w7 E7. injection H as <- <-. cbn [lo_loaded lo_session lo_prompt lo_result lo_kc].
    split_and!; try done; [by rewrite Hsha |].
    intros _. exists consumed. done.
  - injection H as <- <-. cbn [lo_loaded lo_session lo_prompt lo_result lo_kc].
    split_and!; try done; [by rewrite Hsha |].
    pose proof (zlen_nonneg toks). lia.
Qed.

End load.

(** C9. Loading is safe whatever the directory holds and whichever calls fail:
    either nothing is reported as loaded and the session is untouched or
    invalidated, or the tokens reported are exactly those the engine restored
    from the payload of one file, whose header is valid and names this model,
    whose stored text is a byte prefix of the prompt with the hash its file name
    spells; and the effective prompt is the restored tokens followed by the
    tokenisation of precisely the rest of the prompt. *)
Theorem try_load_safe {E : Engine} kc session prompt hooks w :
  let lo := (ds4_kvstore_try_load_text kc session prompt hooks w).1 in
  load_missed session lo \/
  exists text path c, prompt = Some text /\ w_files w !! path = Some c /\
    load_hit (kc_dir kc) text session lo path c.
Proof.
  destruct prompt as [prompt|].
  - destruct (ds4_kvstore_try_load_text kc session (Some prompt) hooks w) as [lo w'] eqn:Er. cbn.
    apply try_load_cases in Er as [?|(path & c & Hc & Hh)]; [by left | right; eauto 6].
  - left. unfold ds4_kvstore_try_load_text. destruct (negb _); apply load_missed_now.
Qed.
