(* ===== verification/KvSafe.v ===== *)
(** * KvSafe: storing a checkpoint is atomic (ds4_kvstore.c)

    Every state of the files on the way, whichever calls fail, holds for each
    name either what was there, nothing, or a complete checkpoint of the text
    being stored. *)

From S2P Require Import Prelude Ctype Sha KvHeader Fs KvStore KvFile KvEvict KvSession.

(** ** Calls that change nothing *)

Lemma keeps_read_header I st : keeps I (read_header_io st).
Proof. unfold read_header_io. keeps_tac. Qed.
#[local] Hint Resolve keeps_read_header : keeps.

Lemma keeps_read_entry_file I path sha : keeps I (ds4_kvstore_read_entry_file path sha).
Proof.
  intros base w Hw. destruct (ds4_kvstore_read_entry_file path sha w) as [r w'] eqn:H.
  unfold ds4_kvstore_read_entry_file in H. run_inv H as sz w1 E1.
  apply (keeps_run _ _ _ _ _ base (keeps_stat I path) E1) in Hw.
  destruct sz as [sz|]; [|by injection H as <- <-].
  destruct (sz <? _); [by injection H as <- <-|].
  run_inv H as fp w2 E2. apply (keeps_run _ _ _ _ _ base (keeps_fopen_rb I path) E2) in Hw.
  apply fopen_rb_inv in E2 as [_ Hfp].
  destruct fp as [fp|]; [|by injection H as <- <-]. destruct (Hfp fp eq_refl) as [-> _].
  run_inv H as [r1 st] w3 E3. apply (keeps_run _ _ _ _ _ base (keeps_read_header I _) E3) in Hw.
  apply read_header_io_inv in E3 as (_ & _ & Eb & _).
  run_inv H as b w4 E4. apply (keeps_run _ _ _ _ _ base (keeps_fclose_clean I st Eb) E4) in Hw.
  destruct r1 as [e|]; [|by injection H as <- <-].
  destruct (_ || _); [by injection H as <- <-|].
  by destruct (sz <? _); injection H as <- <-.
Qed.
#[local] Hint Resolve keeps_read_entry_file : keeps.

Lemma keeps_refresh_loop I kc names : keeps I (kv_cache_refresh_loop kc names).
Proof.
  revert kc. induction names as [|name names IH]; intros k; cbn [kv_cache_refresh_loop]; [apply keeps_ret|].
  destruct (ds4_kvstore_sha_hex_name name); [|apply IH]. keeps_tac; apply IH.
Qed.
#[local] Hint Resolve keeps_refresh_loop : keeps.

Lemma keeps_refresh I kc : keeps I (kv_cache_refresh kc).
Proof. unfold kv_cache_refresh. keeps_tac. Qed.
#[local] Hint Resolve keeps_refresh : keeps.

Lemma keeps_evict_loop I fuel score target total es :
  (forall fs p, I fs -> I (delete p fs)) -> keeps I (evict_loop fuel score target total es).
Proof.
  intros HI. revert total es. induction fuel as [|n IH]; intros tot es; cbn [evict_loop]; [apply keeps_ret|].
  keeps_tac. apply keeps_unlink; auto.
Qed.

Lemma keeps_evict I exp2 kc extra incoming :
  (forall fs p, I fs -> I (delete p fs)) -> keeps I (ds4_kvstore_evict exp2 kc extra incoming).
Proof.
  intros HI. unfold ds4_kvstore_evict. keeps_tac. by apply keeps_evict_loop.
Qed.

(** ** Replacing the trailer *)

(** [path] holds a file with the identity [h0], text and payload; the other
    files are those of [fs0]. *)
Definition holds_ckpt (fs0 : files) (path h0 text payload : bytes) (fs : files) : Prop :=
  (exists c, fs !! path = Some c /\ ckpt h0 text payload c) /\
  forall p, p <> path -> fs !! p = fs0 !! p.

Section holds.
Context (fs0 : files) (path h0 text payload : bytes).
#[local] Abbreviation J := (holds_ckpt fs0 path h0 text payload).

Lemma holds_update fs c c' :
  J fs -> fs !! path = Some c -> (ckpt h0 text payload c -> ckpt h0 text payload c') ->
  J (<[path := c']> fs).
Proof.
  intros [(c0 & Hc0 & Hk) Ho] Hc Himp. rewrite Hc in Hc0. injection Hc0 as <-. split.
  - exists c'. rewrite lookup_insert_eq. auto.
  - intros p Hp. rewrite lookup_insert_ne by done. auto.
Qed.

(** Calls on a stream behind the payload. *)
Lemma holds_tail_at st :
  st_path st = path -> (body_len text payload <= st_pos st)%nat ->
  forall fs c data, J fs -> fs !! st_path st = Some c ->
    J (<[st_path st := file_write_at c (st_pos st) data]> fs).
Proof.
  intros Hp Hpos fs c data HJ Hc. rewrite Hp in *.
  eapply holds_update; [done..|]. intros. by apply ckpt_write_tail.
Qed.

(** Calls on a stream at the start whose pending bytes are an agreeing header. *)
Lemma holds_head_at st hb :
  st_path st = path -> st_pos st = 0%nat -> length hb = 48%nat -> agree hb h0 ->
  forall fs c k, J fs -> fs !! st_path st = Some c ->
    J (<[st_path st := file_write_at c (st_pos st) (take k hb)]> fs).
Proof.
  intros Hp Hpos Hl Ha fs c k HJ Hc. rewrite Hp, Hpos in *.
  eapply holds_update; [done..|]. intros. by apply ckpt_write_head.
Qed.

Lemma holds_keeps_truncate st :
  st_path st = path -> keeps J (c_ftruncate st (Z.of_nat (body_len text payload))).
Proof.
  intros Hp. unfold c_ftruncate. keeps_tac. apply keeps_set_files. intros fs HJ.
  rewrite Hp. destruct (fs !! path) as [c|] eqn:Hc; [|done].
  eapply holds_update; [done..|]. rewrite Nat2Z.id. apply ckpt_truncate.
Qed.

(** What the header of a held file reads as. *)
Lemma holds_header fs c e rest :
  J fs -> fs !! path = Some c -> bytes_ok c -> good_header h0 (zlen payload) ->
  in_u 32 (zlen text) -> ds4_kvstore_read_header c = Some (e, rest) ->
  e_text_bytes e = zlen text /\ e_payload_bytes e = zlen payload /\
  forall reason ext hits lu,
    let hb := ds4_kvstore_fill_header (e_model_id e) (e_quant_bits e) reason ext (e_tokens e) hits
                (e_ctx_size e) (e_created_at e) lu (e_payload_bytes e) in
    length hb = 48%nat /\ agree hb h0.
Proof.
  intros [(c0 & Hc0 & h & tr & Hl & Ha & Hcc) _] Hc Hok Hg Ht H. rewrite Hc in Hc0. injection Hc0 as <-.
  pose proof (agree_good h h0 _ Hl Ha Hg) as (_ & Hm & Hb & _ & _ & Hp).
  apply read_header_shape in H as (_ & _ & _ & _ & _ & _ & _ & ->).
  rewrite Hcc in *. rewrite take_app_length', drop_app_length' by done.
  rewrite (take_app_length' (ds4_kvstore_le_put32 _)) by done.
  unfold set_text_bytes. cbn [e_text_bytes e_payload_bytes e_model_id e_quant_bits e_tokens e_ctx_size
    e_created_at].
  split_and!; [rewrite <- (app_nil_r (ds4_kvstore_le_put32 _)); by apply le_get_put32 | done |].
  intros reason ext hits lu. split; [done|]. eapply agree_trans; [|exact Ha].
  apply refill_agree; try done. by apply Forall_app in Hok as [? _].
Qed.

(** The second half of the trailer rewrite: the header goes over itself. *)
Lemma rewrite_header_holds st hb w u w' base :
  st_path st = path -> st_buf st = [] -> length hb = 48%nat -> agree hb h0 -> since base J w ->
  (let! (ok, fp) := c_fseek st 0 in
   if negb ok then let! _ := c_fclose fp in ret tt
   else
     let! (ok, fp) := c_fwrite fp hb in
     if negb ok then let! _ := c_fclose fp in ret tt
     else let! (_, fp) := c_fflush fp in let! _ := c_fclose fp in ret tt) w = (u, w') ->
  since base J w'.
Proof.
  intros Hp Hb Hl Ha Hw H. run_inv H as [ok st1] w1 E1.
  apply (keeps_run _ _ _ _ _ base (keeps_fseek_clean J st 0 Hb) E1) in Hw.
  apply fseek_inv in E1 as (Ep1 & Eb1 & Hpos1 & _). rewrite Hp in Ep1.
  destruct ok; cbn [negb] in H.
  2: { run_inv H as b w2 E2. injection H as <- <-.
       exact (keeps_run _ _ _ _ _ base (keeps_fclose_clean J st1 Eb1) E2 Hw). }
  specialize (Hpos1 eq_refl). run_inv H as [ok st2] w2 E2.
  assert (Hw2 : since base J w2).
  { eapply keeps_run; [apply keeps_fwrite|exact E2|exact Hw]. rewrite Eb1. cbn [app].
    by apply holds_head_at. }
  apply fwrite_inv in E2 as (Ep2 & Hok2 & Hbad2). destruct ok; cbn [negb] in H.
  2: { run_inv H as b w3 E3. injection H as <- <-.
       exact (keeps_run _ _ _ _ _ base (keeps_fclose_clean J st2 (Hbad2 eq_refl)) E3 Hw2). }
  destruct (Hok2 eq_refl) as [_ ->]. rewrite Eb1 in H. cbn [app] in H.
  run_inv H as [ok3 st3] w3 E3.
  assert (Hw3 : since base J w3).
  { eapply keeps_run; [apply keeps_flush|exact E3|exact Hw2]. by apply holds_head_at. }
  assert (Hb3 : st_buf st3 = []).
  { unfold c_fflush, st_flush in E3. run_inv E3 as f w4 E4. run_inv E3 as u4 w5 E5. by injection E3 as <- <- <-. }
  run_inv H as b w4 E4. injection H as <- <-.
  exact (keeps_run _ _ _ _ _ base (keeps_fclose_clean J st3 Hb3) E4 Hw3).
Qed.

(** Writing the trailer and closing: nothing before the trailer changes. *)
Lemma trailer_write_holds hooks st text' w ok n st' w' base :
  st_path st = path -> st_buf st = [] -> (body_len text payload <= st_pos st)%nat ->
  since base J w -> kv_trailer_write hooks st text' w = ((ok, n, st'), w') ->
  since base J w' /\ st_path st' = path /\ st_pos st' = st_pos st \/ since base J w' /\ st_path st' = path /\ st_buf st' = [].
Proof.
  intros Hp Hb Hpos Hw H. unfold kv_trailer_write in H.
  destruct hooks as [hk|]; [|injection H as <- <- <- <-; by left].
  destruct (hk_write hk) as [f|]; [|injection H as <- <- <- <-; by left].
  destruct (f text') as [data|]; [|injection H as <- <- <- <-; by left].
  run_inv H as [ok1 st1] w1 E1. injection H as <- <- <- <-.
  assert (Hw1 : since base J w1).
  { eapply keeps_run; [apply keeps_fwrite|exact E1|exact Hw]. intros. by apply holds_tail_at. }
  apply fwrite_inv in E1 as (Ep1 & Hok1 & Hbad1). rewrite Hp in Ep1. destruct ok1.
  - destruct (Hok1 eq_refl) as [_ ->]. left. done.
  - right. auto.
Qed.

Lemma tail_close_holds st w b w' base :
  st_path st = path -> (body_len text payload <= st_pos st)%nat \/ st_buf st = [] ->
  since base J w -> c_fclose st w = (b, w') -> since base J w'.
Proof.
  intros Hp [Hpos|Hb] Hw E.
  - eapply keeps_run; [apply keeps_fclose|exact E|exact Hw]. intros. by apply holds_tail_at.
  - eapply keeps_run; [by apply keeps_fclose_clean|exact E|exact Hw].
Qed.

Lemma tail_flush_holds st w ok st' w' base :
  st_path st = path -> (body_len text payload <= st_pos st)%nat \/ st_buf st = [] ->
  since base J w -> c_fflush st w = ((ok, st'), w') ->
  since base J w' /\ st_path st' = path /\ st_buf st' = [].
Proof.
  intros Hp Hc Hw E. split.
  - destruct Hc as [Hpos|Hb].
    + eapply keeps_run; [apply keeps_flush|exact E|exact Hw]. intros. by apply holds_tail_at.
    + eapply keeps_run; [by apply keeps_flush_clean|exact E|exact Hw].
  - unfold c_fflush, st_flush in E. run_inv E as f w1 E1. run_inv E as u w2 E2. by injection E as <- <- <-.
Qed.

Lemma body_len_end :
  52 + zlen text + zlen payload <= UINT64_MAX ->
  u64 (DS4_KVSTORE_FIXED_HEADER + 4 + zlen text + zlen payload) = Z.of_nat (body_len text payload).
Proof.
  intros Hsz. unfold body_len, u64. unfold DS4_KVSTORE_FIXED_HEADER, UINT64_MAX in *.
  rewrite wrap_small; [zlen_lia|]. unfold in_u. zlen_lia.
Qed.

(** Rewriting the trailer keeps the checkpoint, torn anywhere. *)
Lemma rewrite_trailer_holds hooks w text' :
  J (w_files w) -> bytes_ok (content w path) -> good_header h0 (zlen payload) ->
  in_u 32 (zlen text) -> 52 + zlen text + zlen payload <= UINT64_MAX ->
  since (w_hist w) J (kv_cache_rewrite_trailer path text' hooks w).2.
Proof.
  intros HJ Hok Hg Ht Hsz. pose proof (since_start _ _ HJ) as Hw.
  set (base := w_hist w) in *. clearbody base.
  destruct (kv_cache_rewrite_trailer path text' hooks w) as [u w'] eqn:H. cbn.
  unfold kv_cache_rewrite_trailer in H.
  destruct hooks as [hk|]; [|by injection H as <- <-].
  destruct (hk_write hk) as [wf|] eqn:Hwf; [|by injection H as <- <-].
  destruct (hk_serialized_size hk) as [sf|] eqn:Hsf; [|by injection H as <- <-].
  destruct (kv_trailer_serialized_size _ text') as [est|]; [|by injection H as <- <-].
  destruct (est =? 0); [by injection H as <- <-|].
  run_inv H as fp w1 E1. pose proof (keeps_run _ _ _ _ _ base (keeps_fopen_rpb J path) E1 Hw) as Hw1.
  unfold c_fopen_rpb in E1. apply fopen_rb_inv in E1 as [Ef1 Hfp].
  destruct fp as [fp|]; [|by injection H as <- <-]. destruct (Hfp fp eq_refl) as [-> [c Hc]].
  run_inv H as [r st] w2 E2. pose proof (keeps_run _ _ _ _ _ base (keeps_read_header J _) E2 Hw1) as Hw2.
  apply read_header_io_inv in E2 as (Ef2 & Ep & Eb & Hr).
  destruct r as [hdr|].
  2: { run_inv H as b w3 E3. injection H as <- <-. eapply tail_close_holds; eauto. }
  destruct (Hr hdr eq_refl) as [_ Hhdr].
  assert (Ec : content w1 path = c) by (unfold content; by rewrite Ef1, Hc).
  assert (Hokc : bytes_ok c) by (unfold content in Hok; by rewrite Hc in Hok).
  rewrite Ec in Hhdr.
  destruct (holds_header _ c hdr _ HJ Hc Hokc Hg Ht Hhdr) as (Etb & Epb & Hhb).
  rewrite Etb, Epb, body_len_end in H by done.
  destruct (INT64_MAX <? _).
  { run_inv H as b w3 E3. injection H as <- <-. eapply tail_close_holds; eauto. }
  run_inv H as [ok st3] w3 E3. pose proof (fseek_inv _ _ _ _ _ _ E3) as (Ep3 & Eb3 & Hpos3 & _).
  pose proof (keeps_run _ _ _ _ _ base (keeps_fseek_clean J st _ Eb) E3 Hw2) as Hw3. rewrite Ep in Ep3.
  destruct ok; cbn [negb] in H.
  2: { run_inv H as b w4 E4. injection H as <- <-. eapply tail_close_holds; eauto. }
  specialize (Hpos3 eq_refl). rewrite Nat2Z.id in Hpos3.
  run_inv H as ok4 w4 E4.
  pose proof (keeps_run _ _ _ _ _ base (holds_keeps_truncate st3 Ep3) E4 Hw3) as Hw4.
  destruct ok4; cbn [negb] in H.
  2: { run_inv H as b w5 E5. injection H as <- <-. eapply tail_close_holds; eauto. }
  run_inv H as [[ok5 n5] st5] w5 E5.
  assert (Hst5 : since base J w5 /\ st_path st5 = path /\
                 ((body_len text payload <= st_pos st5)%nat \/ st_buf st5 = [])).
  { destruct (trailer_write_holds _ _ _ _ _ _ _ _ base Ep3 Eb3 ltac:(lia) Hw4 E5)
      as [(? & ? & Epos5)|(? & ? & ?)]; split_and!; try done; [left; lia | by right]. }
  destruct Hst5 as (Hw5 & Ep5 & Hcl5). destruct ok5; cbn [negb] in H.
  2: { run_inv H as b w6 E6. injection H as <- <-. by eapply tail_close_holds. }
  run_inv H as [ok6 st6] w6 E6.
  assert (Hst6 : since base J w6 /\ st_path st6 = path /\ st_buf st6 = []).
  { eapply tail_flush_holds; eauto. }
  destruct Hst6 as (Hw6 & Ep6 & Eb6).
  destruct (ok6 && _); cbn [negb] in H.
  2: { run_inv H as b w7 E7. injection H as <- <-. eapply tail_close_holds; eauto. }
  run_inv H as now w7 E7. pose proof (keeps_run _ _ _ _ _ base (keeps_time J) E7 Hw6) as Hw7.
  destruct (Hhb (e_reason hdr) (u8 (Z.lor (e_ext_flags hdr) (hk_ext_flag hk))) (e_hits hdr) now) as [Hl Ha].
  rewrite <- Epb in H. by eapply rewrite_header_holds.
Qed.

End holds.

(** ** An existing compatible file *)

Lemma file_text_matches_inv path sha text w b w' :
  kv_cache_file_text_matches path sha text w = (b, w') ->
  w_files w' = w_files w /\
  (b = true -> zlen text <= UINT32_MAX /\ exists hdr,
     ds4_kvstore_read_header (content w path) = Some (hdr, drop 52 (content w path)) /\
     e_text_bytes hdr = zlen text /\ take (length text) (drop 52 (content w path)) = text).
Proof.
  unfold kv_cache_file_text_matches. intros H.
  destruct (Z.ltb_spec UINT32_MAX (zlen text)) as [|Hlen]; [by injection H as <- <-|].
  run_inv H as fp w1 E1. apply fopen_rb_inv in E1 as [Ef1 Hfp].
  destruct fp as [fp|]; [|by injection H as <- <-]. destruct (Hfp fp eq_refl) as [-> _].
  run_inv H as [r st] w2 E2. apply read_header_io_inv in E2 as (Ef2 & Ep2 & Eb2 & Hr).
  destruct r as [hdr|].
  2: { run_inv H as c w3 E3. injection H as <- <-. apply fclose_clean_files in E3; [|done].
       split; [congruence|done]. }
  destruct (Hr hdr eq_refl) as [Hpos Hhdr]. unfold content in Hhdr. rewrite Ef1 in Hhdr. fold (content w path) in Hhdr.
  destruct (Z.eqb_spec (e_text_bytes hdr) (zlen text)) as [Htb|].
  2: { run_inv H as c w3 E3. injection H as <- <-. apply fclose_clean_files in E3; [|done].
       split; [congruence|done]. }
  run_inv H as [stored st3] w3 E3. pose proof (fread_inv _ _ _ _ _ _ E3) as (Ef3 & _ & Eb3 & _).
  pose proof (fread_full _ _ _ _ _ _ E3) as Hfull.
  run_inv H as c w4 E4. apply fclose_clean_files in E4; [|by rewrite Eb3].
  assert (Ef : w_files w4 = w_files w) by congruence.
  destruct (Z.eqb_spec (zlen stored) (e_text_bytes hdr)) as [Hsl|]; injection H as <- <-; [|done].
  split; [done|]. intros Hb. apply andb_true_iff in Hb as [_ Hb]. split; [done|]. exists hdr.
  destruct Hfull as [Est _]; [unfold zlen in Hsl; lia|].
  rewrite Ep2, Hpos, Ef2, Ef1, Htb in Est. unfold zlen in Est. rewrite Nat2Z.id in Est.
  fold (content w path) in Est. split_and!; [done|done|].
  apply orb_true_iff in Hb as [Hb|Hb].
  - apply Z.eqb_eq, zlen_zero_nil in Hb as ->. apply take_0.
  - apply bytes_eqb_eq in Hb. by rewrite <- Est.
Qed.

Lemma keeps_file_text_matches I path sha text : keeps I (kv_cache_file_text_matches path sha text).
Proof.
  intros base w Hw. destruct (kv_cache_file_text_matches path sha text w) as [b w'] eqn:H.
  unfold kv_cache_file_text_matches in H. destruct (_ <? _); [by injection H as <- <-|].
  run_inv H as fp w1 E1. apply (keeps_run _ _ _ _ _ base (keeps_fopen_rb I path) E1) in Hw.
  apply fopen_rb_inv in E1 as [_ Hfp].
  destruct fp as [fp|]; [|by injection H as <- <-]. destruct (Hfp fp eq_refl) as [-> _].
  run_inv H as [r st] w2 E2. apply (keeps_run _ _ _ _ _ base (keeps_read_header I _) E2) in Hw.
  apply read_header_io_inv in E2 as (_ & _ & Eb & _).
  destruct r as [hdr|]; [destruct (_ =? _)|].
  - run_inv H as [got st3] w3 E3. apply (keeps_run _ _ _ _ _ base (keeps_fread I _ _) E3) in Hw.
    apply fread_inv in E3 as (_ & _ & Eb3 & _). rewrite Eb in Eb3.
    run_inv H as c w4 E4. apply (keeps_run _ _ _ _ _ base (keeps_fclose_clean I st3 Eb3) E4) in Hw.
    by destruct (_ =? _); injection H as <- <-.
  - run_inv H as c w4 E4. injection H as <- <-.
    exact (keeps_run _ _ _ _ _ base (keeps_fclose_clean I st Eb) E4 Hw).
  - run_inv H as c w4 E4. injection H as <- <-.
    exact (keeps_run _ _ _ _ _ base (keeps_fclose_clean I st Eb) E4 Hw).
Qed.

Lemma keeps_existing_compatible I kc path sha text model_id quant_bits ctx :
  (forall fs p, I fs -> I (delete p fs)) ->
  keeps I (kv_cache_existing_compatible kc path sha text model_id quant_bits ctx).
Proof.
  intros HI. unfold kv_cache_existing_compatible. keeps_tac;
    first [apply keeps_file_text_matches | apply keeps_unlink; auto].
Qed.

(** The file format seen from an accepted header and size. *)
Lemma ckpt_of_file c hdr text :
  bytes_ok c -> ds4_kvstore_read_header c = Some (hdr, drop 52 c) ->
  e_text_bytes hdr = zlen text -> take (length text) (drop 52 c) = text ->
  DS4_KVSTORE_FIXED_HEADER + 4 + e_text_bytes hdr + e_payload_bytes hdr <= zlen c ->
  exists h0 payload, good_header h0 (zlen payload) /\ ckpt h0 text payload c /\
    e_payload_bytes hdr = zlen payload.
Proof.
  intros Hok H Htb Ht Hsz.
  apply read_header_shape in H as (Hl & _ & Htk & Hq & _ & Hm & Hb & Ehdr).
  set (h := take 48 c) in *. set (tb := take 4 (drop 48 c)) in *.
  assert (Hh : length h = 48%nat) by (subst h; rewrite length_take; unfold zlen in Hl; lia).
  assert (Htbl : length tb = 4%nat) by (subst tb; rewrite length_take, length_drop; unfold zlen in Hl; lia).
  assert (Hhok : bytes_ok h) by (by apply Forall_take).
  destruct (header_entry_ok h Hh Hhok) as (_ & _ & _ & _ & _ & _ & _ & Hp64 & _).
  assert (Epb : e_payload_bytes hdr = e_payload_bytes (header_entry h)) by (by rewrite Ehdr).
  rewrite <- Epb in Hp64. unfold in_u in Hp64.
  set (payload := take (Z.to_nat (e_payload_bytes hdr)) (drop (length text) (drop 52 c))).
  assert (Hpl : zlen payload = e_payload_bytes hdr).
  { subst payload. rewrite zlen_take, !zlen_drop. unfold DS4_KVSTORE_FIXED_HEADER in Hsz.
    rewrite Htb in Hsz. unfold zlen in *. lia. }
  exists h, payload. split_and!.
  - unfold good_header. rewrite Hpl, <- Epb. rewrite Ehdr in Htk, Hq. done.
  - exists h, (drop (Z.to_nat (e_payload_bytes hdr)) (drop (length text) (drop 52 c))).
    split_and!; [done | apply agree_refl |].
    assert (Etb : ds4_kvstore_le_put32 (zlen text) = tb).
    { rewrite <- Htb, Ehdr. unfold set_text_bytes. cbn [e_text_bytes].
      apply le_put_get32; [done|]. by apply Forall_take, Forall_drop. }
    assert (Erest : drop 52 c = text ++ payload
              ++ drop (Z.to_nat (e_payload_bytes hdr)) (drop (length text) (drop 52 c))).
    { subst payload. rewrite take_drop, <- Ht at 1. by rewrite take_drop. }
    rewrite Etb, <- Erest. subst h tb.
    replace (drop 52 c) with (drop 4 (drop 48 c)) by (by rewrite drop_drop).
    by rewrite !take_drop.
  - done.
Qed.

(** Deciding that a stored file already is the checkpoint; a wrong one goes. *)
Lemma existing_compatible_inv kc path sha text model_id quant_bits ctx w b w' :
  map_Forall (fun _ c => bytes_ok c) (w_files w) ->
  kv_cache_existing_compatible kc path sha text model_id quant_bits ctx w = (b, w') ->
  b = true ->
  w_files w' = w_files w /\ zlen text <= UINT32_MAX /\
  exists h0 payload c, w_files w !! path = Some c /\ good_header h0 (zlen payload) /\
    ckpt h0 text payload c /\ 52 + zlen text + zlen payload <= UINT64_MAX.
Proof.
  intros Hok H Hb. unfold kv_cache_existing_compatible in H. subst b.
  run_inv H as acc w1 E1.
  assert (Ef1 : w_files w1 = w_files w).
  { unfold c_access in E1. run_inv E1 as f w2 E2. apply fault_files in E2. run_inv E1 as fs w3 E3.
    injection E3 as <- <-. by injection E1 as <- <-. }
  destruct acc; cbn [negb] in H; [|by injection H].
  run_inv H as r w2 E2. apply read_entry_file_inv in E2 as [Ef2 Hr].
  destruct r as [e|]; [|by injection H]. destruct (Hr e eq_refl) as (c & Hc & Hfe).
  run_inv H as compatible w3 E3.
  destruct compatible; cbn [negb] in H.
  2: { run_inv H as u w4 E4. by injection H. }
  injection H as <-.
  destruct (_ && _ && _) in E3; [|by injection E3].
  apply file_text_matches_inv in E3 as [Ef3 Hm]. destruct (Hm eq_refl) as (Hlen & hdr & Hhdr & Htb & Ht).
  rewrite Ef1 in Hc.
  assert (Ec : content w2 path = c) by (unfold content; by rewrite Ef2, Ef1, Hc).
  rewrite Ec in *. unfold file_entry in Hfe. rewrite Hhdr in Hfe. cbv zeta in Hfe.
  destruct (_ || _) eqn:Hov; [done|]. destruct (Z.ltb_spec (zlen c) (DS4_KVSTORE_FIXED_HEADER + 4 + e_text_bytes hdr + e_payload_bytes hdr)) as [|Hsz]; [done|].
  assert (Hcok : bytes_ok c) by exact (map_Forall_lookup_1 _ _ _ _ Hok Hc).
  destruct (ckpt_of_file c hdr text Hcok Hhdr Htb Ht) as (h0 & payload & Hg & Hk & Epl); [lia|].
  split_and!; [congruence | done |]. exists h0, payload, c. split_and!; try done.
  bool_props. unfold DS4_KVSTORE_FIXED_HEADER in *. lia.
Qed.

(** ** The temporary file *)

(** Names hold what they did, nothing, or — [path] — a checkpoint of [text]; the
    temporary name may hold anything. *)
Definition store_states (old : files) (path tmp text : bytes) (fs : files) : Prop :=
  forall p, p <> tmp ->
    fs !! p = old !! p \/ fs !! p = None \/
    (p = path /\ exists c payload, fs !! p = Some c /\ is_checkpoint text payload c).

Lemma store_states_old old path tmp text : store_states old path tmp text old.
Proof. intros p _. by left. Qed.

Lemma store_states_delete old path tmp text fs p :
  store_states old path tmp text fs -> store_states old path tmp text (delete p fs).
Proof.
  intros H q Hq. destruct (decide (q = p)) as [->|Hne].
  - right; left. apply lookup_delete_eq.
  - rewrite lookup_delete_ne by done. by apply H.
Qed.

Lemma store_states_blind old path tmp text : blind tmp (store_states old path tmp text).
Proof.
  split; [|intros; by apply store_states_delete].
  intros fs c H q Hq. rewrite lookup_insert_ne by done. by apply H.
Qed.

Lemma store_states_publish old path tmp text payload fs c :
  store_states old path tmp text fs -> is_checkpoint text payload c ->
  store_states old path tmp text (<[path := c]> (delete tmp fs)).
Proof.
  intros H Hc q Hq. destruct (decide (q = path)) as [->|Hne].
  - right; right. split; [done|]. exists c, payload. by rewrite lookup_insert_eq.
  - rewrite lookup_insert_ne by done. by apply (store_states_delete old path tmp text fs tmp H).
Qed.

Lemma store_states_holds old path tmp text h0 payload fs0 fs :
  good_header h0 (zlen payload) -> store_states old path tmp text fs0 ->
  holds_ckpt fs0 path h0 text payload fs -> store_states old path tmp text fs.
Proof.
  intros Hg H [(c & Hc & Hk) Ho] q Hq. destruct (decide (q = path)) as [->|Hne].
  - right; right. split; [done|]. exists c, payload. split; [done|]. by exists h0.
  - rewrite Ho by done. by apply H.
Qed.

(** Writing to the temporary file, whatever fails. *)
Section temp.
Context (I : files -> Prop) (tmp : bytes) (Hblind : blind tmp I).

Lemma keeps_tmp_fwrite st data : st_path st = tmp -> keeps I (c_fwrite st data).
Proof using Hblind. intros Hp. apply keeps_fwrite. intros. rewrite Hp. by apply Hblind. Qed.

Lemma keeps_tmp_flush st : st_path st = tmp -> keeps I (st_flush st).
Proof using Hblind. intros Hp. apply keeps_flush. intros. rewrite Hp. by apply Hblind. Qed.

Lemma keeps_tmp_fclose st : st_path st = tmp -> keeps I (c_fclose st).
Proof using Hblind. intros Hp. apply keeps_fclose. intros. rewrite Hp. by apply Hblind. Qed.

(** A chunk that was taken sits in the buffer; nothing reached the file yet. *)
Lemma tmp_chunk data w ok st st' w' base buf :
  since base I w -> st = mkStream tmp 0 buf -> w_files w !! tmp = Some [] ->
  c_fwrite st data w = ((ok, st'), w') ->
  since base I w' /\ st_path st' = tmp /\
  (ok = true -> st' = mkStream tmp 0 (buf ++ data) /\ w_files w' !! tmp = Some []).
Proof using Hblind.
  intros Hw -> Hc E. pose proof (keeps_run _ _ _ _ _ base (keeps_tmp_fwrite (mkStream tmp 0 buf) data eq_refl) E Hw) as Hw'.
  apply fwrite_inv in E as (Ep & Hok & _). split_and!; [done|done|].
  intros Ht. destruct (Hok Ht) as [-> ->]. done.
Qed.

Lemma file_write_fresh data : file_write_at [] 0 data = data.
Proof using. unfold file_write_at. cbn. by rewrite drop_nil, app_nil_r. Qed.

(** [write_checkpoint] on the fresh temporary file. *)
Lemma write_checkpoint_spec h tb text payload hooks w ok n fp w' base :
  since base I w -> w_files w !! tmp = Some [] ->
  write_checkpoint (mkStream tmp 0 []) h tb text payload hooks w = ((ok, n, fp), w') ->
  since base I w' /\ st_path fp = tmp /\
  (ok = true -> st_buf fp = [] /\ exists trailer, n = zlen trailer /\
     w_files w' !! tmp = Some (h ++ tb ++ text ++ payload ++ trailer)).
Proof using Hblind.
  intros Hw Hc H. unfold write_checkpoint in H.
  run_inv H as [ok1 s1] w1 E1. eapply tmp_chunk in E1 as (Hw1 & Hp1 & Hk1); [|done..].
  destruct ok1; cbn [negb] in H; [|by injection H as <- <- <- <-].
  destruct (Hk1 eq_refl) as [-> Hc1].
  run_inv H as [ok2 s2] w2 E2. eapply tmp_chunk in E2 as (Hw2 & Hp2 & Hk2); [|done..].
  destruct ok2; cbn [negb] in H; [|by injection H as <- <- <- <-].
  destruct (Hk2 eq_refl) as [-> Hc2].
  run_inv H as [ok3 s3] w3 E3. eapply tmp_chunk in E3 as (Hw3 & Hp3 & Hk3); [|done..].
  destruct ok3; cbn [negb] in H; [|by injection H as <- <- <- <-].
  destruct (Hk3 eq_refl) as [-> Hc3].
  run_inv H as [ok4 s4] w4 E4. unfold write_staged_payload in E4. run_inv E4 as f w5 E5.
  pose proof (keeps_run _ _ _ _ _ base (keeps_next_fault I) E5 Hw3) as Hw5. apply fault_files in E5.
  destruct f as [k|]; [injection E4 as <- <- <-; by injection H as <- <- <- <-|].
  rewrite <- E5 in Hc3. eapply tmp_chunk in E4 as (Hw4 & Hp4 & Hk4); [|done..].
  destruct ok4; cbn [negb] in H; [|by injection H as <- <- <- <-].
  destruct (Hk4 eq_refl) as [-> Hc4]. cbn [app] in *.
  run_inv H as [[ok6 n6] s6] w6 E6.
  assert (H6 : since base I w6 /\ st_path s6 = tmp /\ (ok6 = true -> exists trailer,
    n6 = zlen trailer /\ s6 = mkStream tmp 0 (h ++ tb ++ text ++ payload ++ trailer) /\
    w_files w6 !! tmp = Some [])).
  { assert (Hnil : exists trailer, 0 = zlen trailer /\
      mkStream tmp 0 (((h ++ tb) ++ text) ++ payload)
      = mkStream tmp 0 (h ++ tb ++ text ++ payload ++ trailer) /\ w_files w4 !! tmp = Some []).
    { exists []. by rewrite app_nil_r, <- !app_assoc. }
    unfold kv_trailer_write in E6.
    destruct hooks as [hk|]; [|by injection E6 as <- <- <- <-].
    destruct (hk_write hk) as [wf|]; [|by injection E6 as <- <- <- <-].
    destruct (wf (cstr text)) as [data|]; [|by injection E6 as <- <- <- <-].
    run_inv E6 as [ok7 s7] w7 E7. injection E6 as <- <- <- <-.
    eapply tmp_chunk in E7 as (Hw7 & Hp7 & Hk7); [|done..]. split_and!; [done|done|].
    intros ->. destruct (Hk7 eq_refl) as [-> Hc7]. exists data. by rewrite <- !app_assoc. }
  destruct H6 as (Hw6 & Hp6 & Hk6).
  destruct ok6; cbn [negb] in H; [|by injection H as <- <- <- <-].
  destruct (Hk6 eq_refl) as (trailer & -> & -> & Hc6).
  run_inv H as [ok7 s7] w7 E7. injection H as <- <- <- <-.
  pose proof (keeps_run _ _ _ _ _ base (keeps_tmp_flush (mkStream tmp 0 (h ++ tb ++ text ++ payload ++ trailer)) eq_refl) E7 Hw6) as Hw7.
  eapply fflush_inv in E7 as (Ep7 & Eb7 & Hk7); [|exact Hc6]. split_and!; [done|done|].
  intros Hok. split; [done|]. exists trailer. split; [done|].
  destruct (Hk7 Hok) as [_ Hf]. cbn [st_buf st_path st_pos] in Hf. rewrite Hf.
  destruct (h ++ tb ++ text ++ payload ++ trailer) eqn:Eb; [done|].
  by rewrite lookup_insert_eq, file_write_fresh.
Qed.
End temp.

(** The file is renamed into place only when complete. *)
Lemma store_file_safe kc pid path text payload header hooks old w ok w' base :
  let tmp := tmp_path path pid in let I := store_states old path tmp text in
  (forall now, good_header (header now) (zlen payload)) -> since base I w ->
  store_file kc pid path text payload header hooks w = (ok, w') ->
  since base I w' /\
  (ok = true -> exists c, w_files w' !! path = Some c /\ is_checkpoint text payload c).
Proof.
  intros tmp I Hg Hw H. unfold store_file in H. fold tmp in H.
  pose proof (store_states_blind old path tmp text) as Hbl. fold I in Hbl.
  run_inv H as fp w1 E1. pose proof (keeps_run _ _ _ _ _ base (keeps_blind_fopen_wb I tmp Hbl) E1 Hw) as Hw1.
  destruct fp as [fp|]; [|by injection H as <- <-].
  destruct (fopen_wb_inv _ _ _ _ E1 fp eq_refl) as [-> Hc1].
  run_inv H as now w2 E2. pose proof (keeps_run _ _ _ _ _ base (keeps_time I) E2 Hw1) as Hw2.
  assert (Hc2 : w_files w2 !! tmp = Some []).
  { unfold c_time in E2. by destruct (w_ticks w1); injection E2 as <- <-. }
  run_inv H as [[ok3 n3] fp3] w3 E3.
  destruct (write_checkpoint_spec I tmp Hbl _ _ _ _ _ _ _ _ _ _ base Hw2 Hc2 E3) as (Hw3 & Hp3 & Hk3).
  run_inv H as closed w4 E4. pose proof (keeps_run _ _ _ _ _ base (keeps_tmp_fclose I tmp Hbl fp3 Hp3) E4 Hw3) as Hw4.
  destruct (ok3 && closed && _) eqn:Hok in H.
  - bool_props. destruct (Hk3 H0) as (Hb & trailer & _ & Hc3).
    apply fclose_clean_files in E4; [|done]. rewrite <- E4 in Hc3.
    set (c := header now ++ _) in Hc3.
    assert (Hck : is_checkpoint text payload c).
    { exists (header now). split; [apply Hg|]. exists (header now), trailer.
      split_and!; [apply (Hg now) | apply agree_refl | done]. }
    run_inv H as ren w5 E5.
    assert (Hw5 : since base I w5 /\ (ren = true -> w_files w5 !! path = Some c)).
    { pose proof (rename_inv _ _ _ _ _ E5) as [Ht _]. split.
      - unfold c_rename in E5. run_inv E5 as f w6 E6.
        pose proof (keeps_run _ _ _ _ _ base (keeps_next_fault I) E6 Hw4) as Hw6.
        run_inv E5 as fs w7 E7. injection E7 as <- <-. apply fault_files in E6. rewrite E6, Hc3 in E5.
        destruct f; [by injection E5 as <- <-|]. case_bool_decide; [by injection E5 as <- <-|]. run_inv E5 as u w8 E8. injection E5 as <- <-.
        destruct Hw6 as (new & Hh & HF). injection E8 as <- <-. exists (w_files w6 :: new). cbn.
        split; [by rewrite Hh|]. constructor; [|done]. apply Forall_cons_iff in HF as [HF _].
        by eapply store_states_publish.
      - intros Hren. destruct (Ht Hren) as (c' & Hc' & ->). rewrite Hc3 in Hc'. injection Hc' as <-.
        apply lookup_insert_eq. }
    destruct Hw5 as [Hw5 Hren]. destruct ren; cbn [negb] in H.
    + injection H as <- <-. split; [done|]. intros _. exists c. auto.
    + run_inv H as u w6 E6. injection H as <- <-. split; [|done].
      exact (keeps_run _ _ _ _ _ base (keeps_blind_unlink I tmp Hbl) E6 Hw5).
  - run_inv H as ren w5 E5. injection E5 as <- <-. cbn [negb] in H.
    run_inv H as u w6 E6. injection H as <- <-. split; [|done].
    exact (keeps_run _ _ _ _ _ base (keeps_blind_unlink I tmp Hbl) E6 Hw4).
Qed.

(** ** Property *)

Section atomic.
Context {E : Engine}.

(** The text a store is about: the override, or the rendered prefix. *)
Definition store_text (toks : tokens) (store_len : Z) (cache_text_override : option bytes) : bytes :=
  match cache_text_override with
  | Some (c :: t) => c :: t
  | _ => ds4_kvstore_render_tokens_text (ds4_kvstore_tokens_copy_prefix (Some toks) store_len)
  end.

Definition store_path (kc : kvstore) (text : bytes) : bytes :=
  ds4_kvstore_path_for_sha (kc_dir kc) (sha1_hex text).

Lemma filled_good m q r x t h c ca lu pb :
  (q = 2 \/ q = 4) -> 0 < t -> in_u 32 t -> in_u 64 pb ->
  good_header (ds4_kvstore_fill_header m q r x t h c ca lu pb) pb.
Proof.
  intros Hq Ht Ht32 Hpb. unfold good_header, header_entry, ds4_kvstore_fill_header.
  cbn [e_tokens e_quant_bits e_payload_bytes]. split_and!; try done.
  - assert (Et : ds4_kvstore_le_get32 (drop 8 ([ch "K"; ch "V"; ch "C"; KV_CACHE_VERSION; q; r; x; m] ++
      ds4_kvstore_le_put32 t ++ ds4_kvstore_le_put32 h ++ ds4_kvstore_le_put32 c ++
      [KV_CACHE_PAYLOAD_ABI; 0; 0; 0] ++ kv_le_put64 ca ++ kv_le_put64 lu ++ kv_le_put64 pb)) = t)
      by (by apply le_get_put32).
    rewrite Et. lia.
  - rewrite <- (app_nil_r (kv_le_put64 pb)). by apply le_get_put64.
Qed.

Lemma store_tokens_len toks n :
  0 < n <= zlen toks -> zlen (ds4_kvstore_tokens_copy_prefix (Some toks) n) = n.
Proof.
  intros Hn. unfold ds4_kvstore_tokens_copy_prefix.
  destruct (Z.ltb_spec (zlen toks) n); [lia|]. rewrite zlen_take. lia.
Qed.

Lemma fits_payload kc t (p : bytes) tr eb rb :
  ds4_kvstore_file_size_fits kc t (zlen p) tr = (true, eb, rb) -> 0 <= t -> in_u 64 (zlen p).
Proof.
  unfold ds4_kvstore_file_size_fits, kv_cache_file_size_bytes. intros H Ht.
  destruct (_ || _ || _) eqn:Ho; [done|]. bool_props. unfold in_u, UINT64_MAX, DS4_KVSTORE_FIXED_HEADER in *.
  pose proof (zlen_nonneg p). lia.
Qed.

(** C1. Storing is atomic: whichever calls fail and wherever the process dies,
    every state of the files since the call holds, under every name but that of
    the temporary file, what was there before, nothing (evicted or replaced), or
    — under the checkpoint's own name — a complete checkpoint of the text; and
    when the store reports success, that checkpoint is there. *)
Theorem store_atomic exp2 pid kc session toks store_len reason ov ext hooks w :
  map_Forall (fun _ c => bytes_ok c) (w_files w) ->
  0 < o_min_tokens (kc_opt kc) -> store_len <= zlen toks -> zlen toks <= INT_MAX ->
  let text := store_text toks store_len ov in
  let path := store_path kc text in
  let '((ok, kc'), w') := ds4_kvstore_store_live_prefix_text exp2 pid kc session (Some toks)
                            store_len reason ov ext hooks w in
  since (w_hist w) (store_states (w_files w) path (tmp_path path pid) text) w' /\
  (ok = true -> exists c payload, w_files w' !! path = Some c /\ is_checkpoint text payload c).
Proof.
  intros Hok Hmin Hsl Hmax text path.
  set (I := store_states (w_files w) path (tmp_path path pid) text).
  pose proof (since_start I w (store_states_old _ _ _ _)) as Hw.
  destruct (ds4_kvstore_store_live_prefix_text _ _ _ _ _ _ _ _ _ _ w) as [[ok kc'] w'] eqn:H.
  unfold ds4_kvstore_store_live_prefix_text in H.
  destruct (negb (kc_enabled kc)); [by injection H as <- <- <-|].
  destruct (Z.ltb_spec store_len (o_min_tokens (kc_opt kc))) as [|Hlen]; [by injection H as <- <- <-|].
  destruct (negb (eg_routed_quant_bits =? 2) && _) eqn:Hqb; [by injection H as <- <- <-|].
  destruct (eg_tokens session) as [live|]; [|by injection H as <- <- <-].
  destruct (_ || _); [by injection H as <- <- <-|].
  assert (Etext : exists tov, match ov with Some (c :: t) => (true, c :: t)
     | _ => (false, ds4_kvstore_render_tokens_text (ds4_kvstore_tokens_copy_prefix (Some toks) store_len))
     end = (tov, text)).
  { subst text. unfold store_text. destruct ov as [[|? ?]|]; eauto. }
  destruct Etext as [tov Etext]. rewrite Etext in H. clearbody text.
  destruct (UINT32_MAX <? zlen text) eqn:Htl; [by injection H as <- <- <-|].
  destruct (kv_trailer_serialized_size hooks (cstr text)) as [est|]; [|by injection H as <- <- <-].
  fold (store_path kc text) in H. fold path in H.
  run_inv H as compat w1 E1.
  assert (Hw1 : since (w_hist w) I w1).
  { eapply keeps_run; [|exact E1|exact Hw]. apply keeps_existing_compatible.
    intros. by apply store_states_delete. }
  destruct compat.
  - apply existing_compatible_inv in E1 as (Ef1 & Htl' & h0 & payload & c & Hc & Hg & Hk & Hsz); [|done|done].
    run_inv H as u w2 E2. injection H as <- <- <-.
    assert (HJ : holds_ckpt (w_files w1) path h0 text payload (w_files w1)).
    { split; [|done]. exists c. by rewrite Ef1. }
    pose proof (rewrite_trailer_holds _ path h0 text payload hooks w1 (cstr text) HJ) as Hr.
    rewrite E2 in Hr. cbn [snd] in Hr. destruct Hr as (new & Hh & HF); [ | done | | done | ].
    { unfold content. rewrite Ef1, Hc. exact (map_Forall_lookup_1 _ _ _ _ Hok Hc). }
    { unfold in_u, UINT32_MAX in *. pose proof (zlen_nonneg text). lia. }
    split.
    + eapply since_trans; [exact Hw1|]. exists new. split; [done|]. eapply Forall_impl; [|exact HF].
      intros fs Hfs. eapply store_states_holds; [exact Hg | exact (since_now _ _ _ Hw1) | exact Hfs].
    + intros _. apply Forall_cons_iff in HF as [[(c' & Hc' & Hk') _] _].
      exists c', payload. split; [done|]. by exists h0.
  - clear E1. run_inv H as staged w2 E2.
    assert (Hw2 : since (w_hist w) I w2).
    { eapply keeps_run; [|exact E2|exact Hw1]. unfold stage_payload. keeps_tac. }
    destruct staged as [payload|]; [|by injection H as <- <- <-].
    destruct (ds4_kvstore_file_size_fits (Some kc) (zlen text) (zlen payload) est) as [[fits eb] rb] eqn:Ef.
    destruct fits; cbn [negb] in H; [|by injection H as <- <- <-].
    run_inv H as kc3 w3 E3.
    assert (Hw3 : since (w_hist w) I w3).
    { eapply keeps_run; [|exact E3|exact Hw2]. apply keeps_evict. intros. by apply store_states_delete. }
    run_inv H as ok4 w4 E4. injection H as <- <- <-.
    eapply store_file_safe in E4; [|intros now; apply filled_good|exact Hw3].
    + destruct E4 as [Hw4 Hc]. split; [done|]. intros Hok4. destruct (Hc Hok4) as (c & Hc4 & Hck). eauto.
    + apply andb_false_iff in Hqb as [Hqb|Hqb]; bool_props; rewrite Hqb; vm_compute; auto.
    + rewrite store_tokens_len by lia. unfold u32. rewrite wrap_small; [lia|]. unfold in_u, INT_MAX in *. lia.
    + apply (wrap_range 32). lia.
    + eapply fits_payload; [exact Ef | apply zlen_nonneg].
Qed.

End atomic.

Lemma store_atomic_witness :
  0 < o_min_tokens (kc_opt demo_store) /\
  let text := @store_text demo_engine demo_toks 2 None in
  let path := store_path demo_store text in
  let '((ok, kc'), w') := @ds4_kvstore_store_live_prefix_text demo_engine (fun _ => d_one) (bs "42")
    demo_store demo_live (Some demo_toks) 2 (Some (bs "cold")) None 0 None demo_faulty in
  since (w_hist demo_faulty) (store_states (w_files demo_faulty) path (tmp_path path (bs "42")) text) w' /\
  (ok = true -> exists c payload, w_files w' !! path = Some c /\ is_checkpoint text payload c).
Proof.
  split; [reflexivity|].
  apply (@store_atomic demo_engine (fun _ => d_one) (bs "42") demo_store demo_live demo_toks 2
    (Some (bs "cold")) None 0 None demo_faulty);
    [apply map_Forall_empty | reflexivity | vm_compute; discriminate | vm_compute; discriminate].
Defined.
