(* ===== verification/KvRound.v ===== *)
(** * KvRound: a stored checkpoint loads back (ds4_kvstore.c)

    Without faults, in a cache directory that held no readable checkpoint. *)

From S2P Require Import Prelude Ctype Sha KvHeader Fs KvStore KvFile KvEvict.
From S2P Require Import KvSession KvLoad KvSafe.

(** ** Names of checkpoint files *)

Lemma lower_hex_facts c : is_lower_hex c = true -> isxdigit c = true /\ tolower c = c /\ c <> slash.
Proof.
  unfold is_lower_hex, isxdigit, isdigit, tolower, isupper, slash.
  change (ch "0") with 48. change (ch "9") with 57. change (ch "a") with 97. change (ch "f") with 102.
  change (ch "A") with 65. change (ch "Z") with 90. change (ch "/") with 47.
  rewrite orb_true_iff, !andb_true_iff, !Z.leb_le. intros H.
  destruct (Z.leb_spec 65 c), (Z.leb_spec c 90); cbn [andb]; try lia;
    (split; [|lia]); rewrite !orb_true_iff, !andb_true_iff, !Z.leb_le; lia.
Qed.

Lemma lower_hex_map s :
  forallb is_lower_hex s = true -> forallb isxdigit s = true /\ map tolower s = s /\ slash ∉ s.
Proof.
  induction s as [|c s IH]; cbn; [intros _; split_and!; [done|done|by intros ?%not_elem_of_nil]|].
  intros H. apply andb_true_iff in H as [Hc Hs]. destruct (IH Hs) as (-> & -> & Hn).
  destruct (lower_hex_facts c Hc) as (-> & -> & Hne). split_and!; [done..|].
  intros Hin. apply elem_of_cons in Hin as [Hin|Hin]; [congruence|done].
Qed.

Lemma sha_hex_name_path sha :
  zlen sha = 40 -> forallb is_lower_hex sha = true ->
  ds4_kvstore_sha_hex_name (sha ++ KV_SUFFIX) = Some sha.
Proof.
  intros Hl Hh. assert (Hl' : length sha = 40%nat) by (unfold zlen in Hl; lia).
  unfold ds4_kvstore_sha_hex_name.
  rewrite (drop_app_length' sha), (take_app_length' sha) by done.
  destruct (lower_hex_map sha Hh) as (-> & -> & _).
  rewrite zlen_app, Hl. done.
Qed.

Lemma store_path_name kc text :
  store_path kc text = dir_slash (kc_dir kc) ++ sha1_hex text ++ KV_SUFFIX.
Proof.
  unfold store_path, ds4_kvstore_path_for_sha. rewrite path_join_slash.
  destruct (sha1_hex_shape text) as (Hl & _ & _). rewrite take_ge; [done|]. unfold zlen in Hl. lia.
Qed.

Lemma sha_name_no_slash text : slash ∉ sha1_hex text ++ KV_SUFFIX.
Proof.
  destruct (sha1_hex_shape text) as (_ & Hh & _). destruct (lower_hex_map _ Hh) as (_ & _ & Hn).
  intros Hin. apply elem_of_app in Hin as [Hin|Hin]; [done|].
  revert Hin. apply (bool_decide_eq_false_1 _). vm_compute. reflexivity.
Qed.

Section round.
Context {E : Engine} {EL : EngineLaws}.

(** ** The file of a checkpoint, listed and read *)

Lemma checkpoint_entry path sha text payload c :
  is_checkpoint text payload c -> zlen text <= UINT32_MAX ->
  52 + zlen text + zlen payload <= UINT64_MAX ->
  exists e trailer, file_entry path sha c = Some (set_file e sha path (zlen c)) /\
    ds4_kvstore_read_header c = Some (e, text ++ payload ++ trailer) /\
    e_text_bytes e = zlen text /\ e_payload_bytes e = zlen payload.
Proof.
  intros Hc Ht Hp. pose proof (zlen_nonneg text). pose proof (zlen_nonneg payload).
  destruct (checkpoint_read text payload c) as (hdr & tr & Hh & Htb & Hpb); [|done|].
  { unfold in_u, UINT32_MAX in *. lia. }
  exists hdr, tr. split_and!; try done. unfold file_entry. rewrite Hh, Htb, Hpb. cbv zeta.
  apply read_header_shape in Hh as (Hl & Hr & _).
  unfold DS4_KVSTORE_FIXED_HEADER.
  destruct (Z.ltb_spec (UINT64_MAX - (48 + 4)) (zlen text)); [lia|].
  destruct (Z.ltb_spec (UINT64_MAX - (48 + 4) - zlen text) (zlen payload)); [lia|]. cbn [orb].
  destruct (Z.ltb_spec (zlen c) (48 + 4 + zlen text + zlen payload)) as [Hlt|]; [|done].
  exfalso. pose proof (f_equal zlen Hr) as Hz. rewrite zlen_drop in Hz.
  autorewrite with zlen in Hz. pose proof (zlen_nonneg tr). lia.
Qed.

(** [load_check] without faults on a good file. *)
Lemma run_load_check w p c e text rest suffix sha model_id :
  quiet w -> w_files w !! p = Some c ->
  ds4_kvstore_read_header c = Some (e, text ++ rest) -> e_text_bytes e = zlen text ->
  e_model_id e = u8 model_id -> sha = sha1_hex text ->
  exists st, load_check (mkStream p 0 []) (text ++ suffix) sha model_id w = ((Some e, st), w) /\
    st_path st = p /\ st_buf st = [] /\ drop (st_pos st) c = rest.
Proof.
  intros Hq Hc Hh Htb Hmid ->. unfold load_check.
  destruct (run_read_header w p c Hq Hc) as (st & Er & Hp & Hb & Hpos). rewrite Hh in Er.
  erewrite run_bind by exact Er. cbv beta iota. rewrite Hmid, Z.eqb_refl. cbn [negb].
  rewrite Htb. pose proof (zlen_nonneg suffix).
  destruct (Z.ltb_spec (zlen (text ++ suffix)) (zlen text)) as [Hlt|_]; [rewrite zlen_app in Hlt; lia|].
  rewrite <- Hp in Hc. erewrite run_bind by (by apply (run_fread w st (Z.to_nat (zlen text)) c)). cbv beta iota zeta.
  assert (Hgot : take (Z.to_nat (zlen text)) (text ++ rest) = text)
    by (unfold zlen; rewrite Nat2Z.id; apply take_app_length).
  rewrite (Hpos _ _ Hh), Hgot.
  rewrite Z.eqb_refl. cbn [negb]. rewrite (proj2 (bytes_eqb_eq _ _) eq_refl). cbn [negb].
  assert (Hpm : ds4_kvstore_byte_prefix_match (text ++ suffix) text = true).
  { unfold ds4_kvstore_byte_prefix_match. rewrite take_app_length, (proj2 (bytes_eqb_eq _ _) eq_refl), orb_true_r.
    rewrite andb_true_r. apply Z.leb_le. rewrite zlen_app. lia. }
  rewrite Hpm. cbn [negb]. eexists. split; [reflexivity|]. cbn [st_path st_buf st_pos].
  split_and!; [done|done|]. rewrite <- drop_drop, (Hpos _ _ Hh). apply drop_app_length.
Qed.

(** ** Storing without faults *)

(** The trailer the hooks write for a text, announced with its size. *)
Record trailer_is (hooks : option trailer_hooks) (text tr : bytes) : Prop := mkTrailerIs {
  ti_size : kv_trailer_serialized_size hooks text = Some (zlen tr);
  ti_write : match hooks with
             | None => tr = []
             | Some h => match hk_write h with None => tr = [] | Some f => f text = Some tr end
             end;
  ti_flag : match hooks with None => True | Some h => 0 < hk_ext_flag h < 256 end
}.

Lemma no_trailer text : trailer_is None text [].
Proof. by split. Qed.

Lemma run_trailer_write hooks p pos buf text tr w :
  trailer_is hooks text tr -> quiet w ->
  kv_trailer_write hooks (mkStream p pos buf) text w = ((true, zlen tr, mkStream p pos (buf ++ tr)), w).
Proof.
  intros [_ Ht _] Hq. unfold kv_trailer_write. destruct hooks as [h|]; [|by rewrite Ht, app_nil_r].
  destruct (hk_write h) as [f|]; [|by rewrite Ht, app_nil_r]. rewrite Ht. by erewrite run_bind by (by apply run_fwrite).
Qed.

Definition trailer_flag (hooks : option trailer_hooks) (tr : bytes) : Z :=
  match hooks with Some h => if 0 <? zlen tr then hk_ext_flag h else 0 | None => 0 end.

Definition stored_file (header text payload tr : bytes) : bytes :=
  header ++ ds4_kvstore_le_put32 (zlen text) ++ text ++ payload ++ tr.

Lemma tmp_path_ne path pid : tmp_path path pid <> path.
Proof.
  unfold tmp_path. intros H. rewrite <- (app_nil_r path) in H at 2.
  apply app_inv_head in H. done.
Qed.

Lemma path_join_nonempty dir name : name <> [] -> ds4_kvstore_path_join dir name <> [].
Proof. intros Hn. unfold ds4_kvstore_path_join. destruct (_ || _); intros Heq; apply app_eq_nil in Heq as [_ Heq]; done. Qed.

Lemma run_store_file kc pid path text payload hooks tr header w :
  quiet w -> trailer_is hooks (cstr text) tr ->
  (ds4_kvstore_file_size_fits (Some kc) (zlen text) (zlen payload) (zlen tr)).1.1 = true ->
  (forall now, header now <> []) -> path <> [] ->
  exists now w', store_file kc pid path text payload header hooks w = (true, w') /\ quiet w' /\
    w_order w' = w_order w /\
    w_files w' = <[path := stored_file (header now) text payload tr]> (delete (tmp_path path pid) (w_files w)).
Proof.
  intros Hq Htr Hfit Hne Hpath. unfold store_file. set (tmp := tmp_path path pid).
  destruct (run_fopen_wb w tmp Hq) as (w1 & E1 & Hq1 & Ef1 & Eo1). erewrite run_bind by exact E1. cbv beta iota.
  destruct (run_time_quiet w1 Hq1) as (now & w2 & E2 & Hq2 & Ef2 & Eo2). erewrite run_bind by exact E2.
  exists now. set (c := stored_file (header now) text payload tr).
  assert (Hc0 : w_files w2 !! tmp = Some []) by (rewrite Ef2, Ef1; apply lookup_insert_eq).
  assert (Hw : exists w3, write_checkpoint (mkStream tmp 0 []) (header now)
      (ds4_kvstore_le_put32 (zlen text)) text payload hooks w2
      = ((true, zlen tr, mkStream tmp (length c) []), w3) /\ quiet w3 /\ w_order w3 = w_order w2 /\
      w_files w3 = <[tmp := c]> (w_files w2)).
  { unfold write_checkpoint.
    do 3 (erewrite run_bind by (by apply run_fwrite); cbv beta iota; cbn [negb st_path st_pos st_buf]).
    unfold write_staged_payload at 1.
    erewrite run_bind by (erewrite run_bind by (by apply run_fault); by apply run_fwrite).
    cbv beta iota; cbn [negb st_path st_pos st_buf].
    erewrite run_bind by (by apply (run_trailer_write _ _ _ _ _ tr)). cbv beta iota; cbn [negb].
    destruct (run_fflush w2 (mkStream tmp 0 ((((([] ++ header now) ++ ds4_kvstore_le_put32 (zlen text)) ++ text) ++ payload) ++ tr)) []) as (w3 & E3 & Hq3 & Eo3 & Ef3);
      [done|done|].
    assert (Eb : (((([] ++ header now) ++ ds4_kvstore_le_put32 (zlen text)) ++ text) ++ payload) ++ tr = c)
      by (cbn [app]; subst c; unfold stored_file; by rewrite <- !app_assoc).
    rewrite Eb in *. cbn [st_path st_pos st_buf] in *.
    exists w3. erewrite run_bind by exact E3. split_and!; [done|done|done|].
    rewrite Ef3, file_write_fresh. destruct c eqn:Ec; [|done].
    exfalso. subst c. unfold stored_file in Ec. apply app_eq_nil in Ec as [Ec _]. by apply (Hne now). }
  destruct Hw as (w3 & E3 & Hq3 & Eo3 & Ef3). erewrite run_bind by exact E3. cbv beta iota.
  erewrite run_bind by (by apply run_fclose_clean). rewrite Hfit. cbn [andb].
  destruct (run_rename w3 tmp path c Hq3) as (w4 & E4 & Hq4 & Eo4 & Ef4).
  { rewrite Ef3. apply lookup_insert_eq. }
  { done. }
  exists w4. erewrite run_bind by exact E4. cbn [negb]. split_and!; [done|done|congruence|].
  rewrite Ef4, Ef3, Ef2, Ef1. by rewrite insert_insert_eq, delete_insert_eq.
Qed.

(** An eviction pass that finds the directory within its budget. *)
Lemma run_evict_within exp2 kc extra incoming w :
  quiet w -> kc_enabled kc = true ->
  (kc_budget_bytes kc <> 0 -> extra <= kc_budget_bytes kc -> total_size (listed kc w) <= kc_budget_bytes kc - extra) ->
  exists kc' w', ds4_kvstore_evict exp2 kc extra incoming w = (kc', w') /\ quiet w' /\
    w_files w' = w_files w /\ w_order w' = w_order w /\
    kc_dir kc' = kc_dir kc /\ kc_enabled kc' = true /\ kc_opt kc' = kc_opt kc /\
    kc_budget_bytes kc' = kc_budget_bytes kc /\
    kc_reject_different_quant kc' = kc_reject_different_quant kc.
Proof.
  intros Hq He Hl. unfold ds4_kvstore_evict. rewrite He. cbn [negb orb].
  destruct (Z.eqb_spec (kc_budget_bytes kc) 0) as [|Hb]; [by exists kc, w|].
  destruct (Z.ltb_spec (kc_budget_bytes kc) extra) as [|Hx]; [by exists kc, w|]. specialize (Hl Hb Hx).
  erewrite run_bind by (by apply run_refresh). fold (listed kc w).
  destruct (run_time_quiet w Hq) as (now & w2 & E2 & Hq2 & Ef2 & Eo2). erewrite run_bind by exact E2.
  cbn [kc_entry set_entries].
  assert (El : forall score, evict_loop (length (listed kc w)) score (kc_budget_bytes kc - extra) (total_size (listed kc w)) (listed kc w) w2
    = (listed kc w, w2)).
  { intros score. destruct (length (listed kc w)); cbn [evict_loop]; [done|]. by rewrite (proj2 (Z.leb_le _ _)). }
  erewrite run_bind by apply El. by do 2 eexists.
Qed.

(** An eviction pass over a directory without readable checkpoints. *)
Lemma run_evict_empty exp2 kc extra incoming w :
  quiet w -> kc_enabled kc = true -> listed kc w = [] ->
  exists kc' w', ds4_kvstore_evict exp2 kc extra incoming w = (kc', w') /\ quiet w' /\
    w_files w' = w_files w /\ w_order w' = w_order w /\
    kc_dir kc' = kc_dir kc /\ kc_enabled kc' = true /\ kc_opt kc' = kc_opt kc /\
    kc_budget_bytes kc' = kc_budget_bytes kc /\
    kc_reject_different_quant kc' = kc_reject_different_quant kc.
Proof. intros Hq He Hl. apply run_evict_within; [done..|]. rewrite Hl. change (total_size []) with 0. lia. Qed.

(** ** Opening the store of a directory *)

(** The store as it is configured before the first eviction pass. *)
Definition configured_store (dir : bytes) (budget_mb : Z) (reject : bool) (opt : options) : kvstore :=
  mkKvstore true dir (u64 ((if budget_mb =? 0 then DS4_KVSTORE_DEFAULT_MB else budget_mb) * 1024 * 1024)) reject opt 0 [].

Lemma run_mkdir w p : quiet w -> exists w', kv_mkdir p w = (true, w') /\ quiet w' /\ w_files w' = w_files w /\ w_order w' = w_order w.
Proof.
  intros Hq. unfold kv_mkdir. destruct (c_mkdir p w) as [r w1] eqn:Em. erewrite run_bind by exact Em.
  unfold c_mkdir in Em. rewrite run_fault in Em by done. destruct (_ || _); injection Em as <- <-; by eexists.
Qed.

Lemma run_mkdir_p_loop rest : forall done_ w, quiet w ->
  exists w', kv_mkdir_p_loop done_ rest w = (true, w') /\ quiet w' /\ w_files w' = w_files w /\ w_order w' = w_order w.
Proof.
  induction rest as [|c rest IH]; intros done_ w Hq; cbn [kv_mkdir_p_loop].
  - by apply run_mkdir.
  - destruct (c =? slash); [|by apply IH]. destruct (run_mkdir w done_ Hq) as (w1 & E1 & Hq1 & Ef1 & Eo1).
    erewrite run_bind by exact E1. cbv beta iota. destruct (IH (done_ ++ [c]) w1 Hq1) as (w2 & E2 & Hq2 & Ef2 & Eo2).
    exists w2. split_and!; [done|done|congruence|congruence].
Qed.

Lemma run_open exp2 dir budget_mb reject opt w :
  quiet w -> dir <> [] -> let kc0 := configured_store dir budget_mb reject opt in
  (kc_budget_bytes kc0 <> 0 -> total_size (listed kc0 w) <= kc_budget_bytes kc0) ->
  exists kc w', ds4_kvstore_open exp2 (Some dir) budget_mb reject opt w = ((true, kc), w') /\ quiet w' /\
    w_files w' = w_files w /\ w_order w' = w_order w /\
    kc_dir kc = dir /\ kc_enabled kc = true /\ kc_opt kc = opt /\ kc_budget_bytes kc = kc_budget_bytes kc0.
Proof.
  intros Hq Hd kc0 Hsz. unfold ds4_kvstore_open, kv_mkdir_p. destruct dir as [|c dir']; [done|].
  destruct (run_mkdir_p_loop dir' [c] w Hq) as (w1 & E1 & Hq1 & Ef1 & Eo1). erewrite run_bind by exact E1. cbv beta iota zeta. cbn [negb].
  fold (configured_store (c :: dir') budget_mb reject opt). fold kc0.
  destruct (run_evict_within exp2 kc0 0 None w1 Hq1 eq_refl) as (kc & w2 & E2 & Hq2 & Ef2 & Eo2 & H1 & H2 & H3 & H4 & _).
  { intros Hb _. specialize (Hsz Hb). unfold listed in *. rewrite Ef1, Eo1. lia. }
  erewrite run_bind by exact E2. exists kc, w2. split_and!; try done; congruence.
Qed.

(** ** The round trip *)

(** No file of the directory reads as a checkpoint. *)
Definition dir_empty (kc : kvstore) (w : world) : Prop :=
  forall name, slash ∉ name -> name_entry (w_files w) (kc_dir kc) name = None.

Lemma dir_empty_listed kc w : order_ok w -> dir_empty kc w -> listed kc w = [].
Proof.
  intros Ho Hd. unfold listed.
  destruct (scan_entries _ _ _) as [|e es] eqn:Es; [done|].
  assert (He : e ∈ e :: es) by (apply elem_of_cons; by left). rewrite <- Es in He.
  apply scan_entries_elem in He as (name & Hn & Hne).
  rewrite (Ho _) in Hn. apply dir_names_spec in Hn as [_ Hn]. by rewrite Hd in Hne.
Qed.

(** An unreadable file under the name does not stop the store. *)
Lemma run_existing_none kc text w m q ctx :
  quiet w -> dir_empty kc w ->
  kv_cache_existing_compatible kc (store_path kc text) (sha1_hex text) text m q ctx w = (false, w).
Proof.
  intros Hq Hd. unfold kv_cache_existing_compatible. erewrite run_bind by (by apply run_access).
  destruct (bool_decide _); cbn [negb]; [|done].
  erewrite run_bind by (by apply run_read_entry_file).
  specialize (Hd _ (sha_name_no_slash text)). unfold name_entry in Hd.
  destruct (sha1_hex_shape text) as (Hl & Hh & _).
  rewrite (sha_hex_name_path _ Hl Hh) in Hd. cbn [mbind option_bind] in Hd.
  rewrite store_path_name. cbn [mbind option_bind]. by rewrite Hd.
Qed.

(** The scan after the store: the new file only. *)
Lemma listed_after_store kc kc1 w w1 text payload c pid e :
  order_ok w1 -> dir_empty kc w -> kc_dir kc1 = kc_dir kc ->
  w_files w1 = <[store_path kc text := c]> (delete (tmp_path (store_path kc text) pid) (w_files w)) ->
  file_entry (store_path kc text) (sha1_hex text) c = Some e ->
  is_checkpoint text payload c ->
  e ∈ listed kc1 w1 /\ forall e', e' ∈ listed kc1 w1 -> e' = e.
Proof.
  intros Ho Hd Hdir Ef Hfe Hck. unfold listed. rewrite Hdir.
  set (name := sha1_hex text ++ KV_SUFFIX).
  assert (Hne : name_entry (w_files w1) (kc_dir kc) name = Some e).
  { unfold name_entry. destruct (sha1_hex_shape text) as (Hl & Hh & _).
    unfold name. rewrite (sha_hex_name_path _ Hl Hh). cbn [mbind option_bind].
    rewrite <- store_path_name, Ef, lookup_insert_eq. done. }
  split.
  - apply scan_entries_elem. exists name. split; [|done]. rewrite (Ho _). apply dir_names_spec.
    split; [|apply sha_name_no_slash]. unfold name. rewrite <- store_path_name, Ef, lookup_insert_eq. eauto.
  - intros e' He'. apply scan_entries_elem in He' as (n & Hn & Hn').
    rewrite (Ho _) in Hn. apply dir_names_spec in Hn as [_ Hns].
    destruct (decide (dir_slash (kc_dir kc) ++ n = store_path kc text)) as [En|En].
    + rewrite store_path_name in En. apply app_inv_head in En. fold name in En. subst n. congruence.
    + exfalso. specialize (Hd n Hns). unfold name_entry in Hn', Hd.
      destruct (ds4_kvstore_sha_hex_name n) as [sha|]; cbn [mbind option_bind] in Hn', Hd; [|done].
      rewrite Ef, lookup_insert_ne in Hn' by done.
      destruct (decide (dir_slash (kc_dir kc) ++ n = tmp_path (store_path kc text) pid)) as [Et|Et].
      * rewrite Et, lookup_delete_eq in Hn'. done.
      * rewrite lookup_delete_ne in Hn' by done.
        destruct (w_files w !! _); cbn [mbind option_bind] in Hn', Hd; congruence.
Qed.

(** Looking up a prompt when a single entry is listed and usable. *)
Lemma run_find_single kc prompt m q ctx w e :
  quiet w -> kc_enabled kc = true -> e ∈ listed kc w -> (forall e', e' ∈ listed kc w -> e' = e) ->
  candidate kc prompt m q ctx e = true ->
  exists i, ds4_kvstore_find_text_prefix kc (Some prompt) m q ctx w
            = ((i, set_entries kc (listed kc w)), w) /\
    0 <= i /\ listed kc w !! Z.to_nat i = Some e.
Proof.
  intros Hq He Hin Hone Hc. unfold ds4_kvstore_find_text_prefix.
  erewrite run_bind by (by apply run_refresh). fold (listed kc w). cbn [kc_entry set_entries].
  pose proof (find_scan_spec (set_entries kc (listed kc w)) prompt m q ctx [] (listed kc w) None) as Hs.
  cbn [app] in Hs. change (zlen []) with 0 in Hs.
  assert (Hnil : is_longest (set_entries kc (listed kc w)) prompt m q ctx [] None)
    by (intros e' He'; by apply not_elem_of_nil in He').
  specialize (Hs Hnil). destruct (find_text_prefix_scan _ _ _ _ _ _ _ _) as [[i b]|].
  - destruct Hs as (Hi & Hb & _). exists i. split_and!; [done|done|]. rewrite Hb. f_equal.
    apply Hone. by eapply list_elem_of_lookup_2.
  - exfalso. specialize (Hs e Hin). unfold candidate in *. change (prefix_eligible (set_entries kc (listed kc w)))
      with (prefix_eligible kc) in Hs. congruence.
Qed.

(** Loading from a directory whose only checkpoint is a good one of this prompt. *)
Lemma run_try_load kc session toks text payload tr suffix hooks w c e s :
  quiet w -> kc_enabled kc = true -> (eg_routed_quant_bits = 2 \/ eg_routed_quant_bits = 4) ->
  let path := store_path kc text in
  w_files w !! path = Some c -> ds4_kvstore_read_header c = Some (e, text ++ payload ++ tr) ->
  e_text_bytes e = zlen text -> e_payload_bytes e = zlen payload -> e_model_id e = u8 eg_model_id ->
  i32 (e_tokens e) = zlen toks -> 0 < zlen toks ->
  let en := set_file e (sha1_hex text) path (zlen c) in
  en ∈ listed kc w -> (forall e', e' ∈ listed kc w -> e' = en) ->
  candidate kc (text ++ suffix) eg_model_id eg_routed_quant_bits (eg_ctx session) en = true ->
  eg_load_payload session payload = (true, s) -> eg_tokens s = Some toks ->
  let lo := (ds4_kvstore_try_load_text kc session (Some (text ++ suffix)) hooks w).1 in
  lo_loaded lo = zlen toks /\ lo_session lo = s /\
  lo_prompt lo = toks ++ eg_tokenize_rendered_chat suffix /\
  (if match hooks with Some h => hk_load h && negb (Z.land (e_ext_flags e) (hk_ext_flag h) =? 0) | None => false end
   then exists st, lo_hook lo = Some st /\ st_path st = path /\ drop (st_pos st) c = tr
   else lo_hook lo = None).
Proof.
  intros Hq He Hqb path Hc Hh Htb Hpb Hmid Htk Hpos en Hin Hone Hcand Hload Htoks lo. subst lo.
  destruct (ds4_kvstore_try_load_text _ _ _ _ w) as [lo w'] eqn:Er. cbn [fst].
  unfold ds4_kvstore_try_load_text in Er. rewrite He in Er. cbn [negb] in Er.
  replace (negb (eg_routed_quant_bits =? 2) && negb (eg_routed_quant_bits =? 4)) with false in Er
    by (by destruct Hqb as [-> | ->]).
  destruct (run_find_single kc (text ++ suffix) eg_model_id eg_routed_quant_bits (eg_ctx session) w en Hq He Hin Hone Hcand)
    as (i & Ef & Hi & Hl).
  erewrite run_bind in Er by exact Ef. cbv beta iota in Er.
  destruct (Z.ltb_spec i 0); [lia|]. cbn [kc_entry set_entries] in Er. rewrite Hl in Er.
  cbn [e_path en set_file default from_option id e_sha] in Er.
  erewrite run_bind in Er by (by apply run_fopen_rb). rewrite Hc in Er. cbv beta iota in Er.
  destruct (run_load_check w path c e text (payload ++ tr) suffix (sha1_hex text) eg_model_id)
    as (st & El & Hp & Hb & Hd); try done.
  erewrite run_bind in Er by exact El. cbv beta iota in Er.
  assert (Elp : load_payload session st (e_payload_bytes e) w
    = ((true, s, mkStream path (st_pos st + length payload) []), w)).
  { unfold load_payload. rewrite <- Hp in Hc.
    erewrite run_bind by (by apply (run_fread w st _ c)). cbv beta iota zeta. rewrite Hd, Hpb.
    assert (Hg : take (Z.to_nat (zlen payload)) (payload ++ tr) = payload)
      by (unfold zlen; rewrite Nat2Z.id; apply take_app_length). rewrite Hg, Hload, Z.eqb_refl, Hp, Hb. done. }
  erewrite run_bind in Er by exact Elp. cbv beta iota in Er. cbn [negb] in Er.
  rewrite Htoks, Htk, Z.eqb_refl in Er.
  erewrite run_bind in Er by (by apply run_fclose_clean). cbv beta iota in Er.
  destruct (Z.ltb_spec 0 (zlen toks)); [|lia].
  run_inv Er as consumed w2 E2. injection Er as <- <-. cbn [lo_loaded lo_session lo_prompt lo_hook].
  split; [done|]. split; [done|]. split.
  2: { destruct hooks as [h|]; [|done]. destruct (hk_load h && _); [|done]. eexists. split; [done|]. split; [done|].
       cbn [st_pos]. rewrite <- drop_drop, Hd. apply drop_app_length. }
  unfold ds4_kvstore_build_prompt_from_exact_prefix_and_text_suffix.
  do 2 f_equal. rewrite Htb. unfold zlen. rewrite Nat2Z.id. apply drop_app_length.
Qed.

Definition stored_header (reason : option bytes) (flags : Z) (toks payload : bytes) (ctx now : Z) : bytes :=
  ds4_kvstore_fill_header (u8 eg_model_id) (u8 eg_routed_quant_bits) (ds4_kvstore_reason_code reason) flags
    (u32 (zlen toks)) 0 (u32 ctx) now now (zlen payload).

Lemma starts_with_refl toks : ds4_tokens_starts_with toks toks = true.
Proof. induction toks as [|t toks IH]; cbn; [done|]. by rewrite Z.eqb_refl. Qed.

Lemma run_store exp2 pid kc session toks payload reason hooks tr w :
  quiet w -> order_ok w -> kc_enabled kc = true -> dir_empty kc w ->
  (eg_routed_quant_bits = 2 \/ eg_routed_quant_bits = 4) ->
  eg_tokens session = Some toks -> eg_stage_payload session = Some payload ->
  let text := ds4_kvstore_render_tokens_text toks in let path := store_path kc text in
  o_min_tokens (kc_opt kc) <= zlen toks -> zlen text <= UINT32_MAX ->
  trailer_is hooks (cstr text) tr ->
  (ds4_kvstore_file_size_fits (Some kc) (zlen text) (zlen payload) (zlen tr)).1.1 = true ->
  exists kc1 w1 now, ds4_kvstore_store_live_prefix exp2 pid kc session (Some toks) (zlen toks)
      reason hooks w = ((true, kc1), w1) /\ quiet w1 /\ w_order w1 = w_order w /\
    kc_dir kc1 = kc_dir kc /\ kc_enabled kc1 = true /\ kc_opt kc1 = kc_opt kc /\
    w_files w1 = <[path := stored_file (stored_header reason (trailer_flag hooks tr) toks payload (eg_ctx session) now)
                             text payload tr]>
                   (delete (tmp_path path pid) (w_files w)).
Proof.
  intros Hq Ho He Hd Hqb Htoks Hstage text path Hmin Htext Htr Hfit.
  unfold ds4_kvstore_store_live_prefix, ds4_kvstore_store_live_prefix_text. rewrite He. cbn [negb].
  destruct (Z.ltb_spec (zlen toks) (o_min_tokens (kc_opt kc))); [lia|].
  replace (negb (eg_routed_quant_bits =? 2) && negb (eg_routed_quant_bits =? 4)) with false
    by (by destruct Hqb as [-> | ->]).
  assert (Ecp : ds4_kvstore_tokens_copy_prefix (Some toks) (zlen toks) = toks).
  { unfold ds4_kvstore_tokens_copy_prefix. rewrite Z.ltb_irrefl. apply take_ge. zlen_lia. }
  rewrite Ecp, Htoks, Z.eqb_refl, starts_with_refl. cbn [negb orb]. fold text.
  destruct (Z.ltb_spec UINT32_MAX (zlen text)); [lia|]. rewrite (ti_size _ _ _ Htr).
  fold (store_path kc text). fold path.
  erewrite run_bind by (by apply run_existing_none). cbv beta iota.
  unfold stage_payload at 1. erewrite run_bind.
  2: { erewrite run_bind by (by apply run_fault). by rewrite Hstage. }
  cbv beta iota.
  destruct (ds4_kvstore_file_size_fits (Some kc) (zlen text) (zlen payload) (zlen tr)) as [[fits eb] rb] eqn:Ef.
  cbn [fst] in Hfit. subst fits. cbn [negb].
  destruct (run_evict_empty exp2 kc eb (Some (mkIncoming text (u8 eg_model_id) (u8 eg_routed_quant_bits)
    (u32 (eg_ctx session)) (kc_reject_different_quant kc))) w Hq He)
    as (kc1 & w1 & E1 & Hq1 & Ef1 & Eo1 & Hdir & He1 & Hopt & Hbud & Hrej).
  { by apply dir_empty_listed. }
  erewrite run_bind by exact E1. cbv beta iota zeta.
  destruct (run_store_file kc1 pid path text payload hooks tr
    (fun now => stored_header reason (trailer_flag hooks tr) toks payload (eg_ctx session) now) w1 Hq1 Htr)
    as (now & w2 & E2 & Hq2 & Eo2 & Ef2).
  { unfold ds4_kvstore_file_size_fits in *. rewrite Hbud. by rewrite Ef. }
  { done. }
  { apply path_join_nonempty. by destruct (take 40 _). }
  exists kc1, w2, now. erewrite run_bind by exact E2. split_and!; try done; [congruence|].
  by rewrite Ef2, Ef1.
Qed.

(** The stored file is a checkpoint, and reads back as the entry of the store. *)
Lemma stored_file_read reason flags toks payload text tr ctx now :
  (eg_routed_quant_bits = 2 \/ eg_routed_quant_bits = 4) -> 0 < zlen toks <= INT_MAX ->
  zlen text <= UINT32_MAX -> in_u 64 (zlen payload) -> 0 <= ctx <= INT_MAX ->
  let c := stored_file (stored_header reason flags toks payload ctx now) text payload tr in
  is_checkpoint text payload c /\
  exists e, ds4_kvstore_read_header c = Some (e, text ++ payload ++ tr) /\ e_text_bytes e = zlen text /\
    e_payload_bytes e = zlen payload /\ e_model_id e = u8 eg_model_id /\
    e_quant_bits e = u8 eg_routed_quant_bits /\ e_tokens e = zlen toks /\ e_ctx_size e = ctx /\ e_ext_flags e = flags.
Proof.
  intros Hqb Htoks Htext Hp Hctx c. set (h := stored_header reason flags toks payload ctx now).
  assert (Hu32 : u32 (zlen toks) = zlen toks) by (apply wrap_small; unfold in_u, INT_MAX in *; lia).
  assert (Hc32 : u32 ctx = ctx) by (apply wrap_small; unfold in_u, INT_MAX in *; lia).
  assert (Hg : good_header h (zlen payload)).
  { unfold h, stored_header. apply filled_good; try done.
    - by destruct Hqb as [-> | ->]; [left|right].
    - lia.
    - rewrite Hu32. unfold in_u, INT_MAX in *. lia. }
  split.
  - exists h. split; [done|]. exists h, tr. split_and!; [done|apply agree_refl|done].
  - unfold c, stored_file. fold h. destruct Hg as (Hl & Hm & Hb & Ht & Hqq & Hpp).
    rewrite read_header_split by done. cbv zeta.
    rewrite Hm, Hb. rewrite <- (app_nil_r (ds4_kvstore_le_put32 _)), le_get_put32
      by (unfold in_u, UINT32_MAX in *; pose proof (zlen_nonneg text); lia).
    unfold set_text_bytes. cbn [e_tokens e_quant_bits].
    destruct (Z.eqb_spec (e_tokens (header_entry h)) 0); [done|].
    replace ((e_quant_bits (header_entry h) =? 2) || (e_quant_bits (header_entry h) =? 4)) with true
      by (by destruct Hqq as [-> | ->]).
    eexists. split; [reflexivity|]. cbn [e_text_bytes e_payload_bytes e_model_id e_quant_bits e_tokens e_ctx_size e_ext_flags].
    split_and!; [done|done|done|done| | |done].
    + transitivity (u32 (zlen toks)); [|done]. unfold h, stored_header, header_entry, ds4_kvstore_fill_header. cbn [e_tokens].
      apply le_get_put32. apply (wrap_range 32). lia.
    + transitivity (u32 ctx); [|done]. unfold h, stored_header, header_entry, ds4_kvstore_fill_header. cbn [e_ctx_size].
      apply le_get_put32. apply (wrap_range 32). lia.
Qed.

(** The load hook is called exactly if there is a trailer and a hook for it, on a
    stream with that trailer before it. *)
Definition hook_reads (w : world) (hooks : option trailer_hooks) (tr : bytes) (hook : option stream) : Prop :=
  if match hooks with Some h => hk_load h && (0 <? zlen tr) | None => false end
  then exists st c, hook = Some st /\ w_files w !! st_path st = Some c /\ drop (st_pos st) c = tr
  else hook = None.

(** The hooks of another process for the same data: only their marks must agree. *)
Definition hooks_alike (hooks hooks' : option trailer_hooks) : Prop :=
  match hooks, hooks' with
  | None, None => True
  | Some h, Some h' => hk_ext_flag h' = hk_ext_flag h /\ hk_load h' = hk_load h
  | _, _ => False
  end.

Lemma hooks_alike_refl hooks : hooks_alike hooks hooks.
Proof. by destruct hooks. Qed.

(** The file a store of [toks] leaves in the directory of [kc], and nothing else
    that reads as a checkpoint. *)
Definition stored_alone (kc : kvstore) (session : Session) (toks payload : bytes) (reason : option bytes)
    (flags : Z) (tr : bytes) (w : world) : Prop :=
  exists now en, let text := ds4_kvstore_render_tokens_text toks in
    let c := stored_file (stored_header reason flags toks payload (eg_ctx session) now) text payload tr in
    w_files w !! store_path kc text = Some c /\ file_entry (store_path kc text) (sha1_hex text) c = Some en /\
    listed kc w = [en].

Lemma listed_single kc w e : order_ok w -> e ∈ listed kc w -> (forall e', e' ∈ listed kc w -> e' = e) -> listed kc w = [e].
Proof.
  intros Ho Hin Hone. assert (Hd : on_disk (w_files w) (listed kc w)) by (apply scan_on_disk; rewrite (Ho _); apply dir_names_nodup).
  destruct Hd as [Hnd _]. destruct (listed kc w) as [|a [|b l]]; [by apply not_elem_of_nil in Hin|f_equal; apply Hone; by left|].
  exfalso. assert (a = e) as -> by (apply Hone; by left). assert (b = e) as -> by (apply Hone; right; by left).
  cbn [map] in Hnd. apply list.NoDup_cons in Hnd as [Hnd _]. apply Hnd. by left.
Qed.

Lemma fits_sizes kc (text payload tr : bytes) :
  (ds4_kvstore_file_size_fits (Some kc) (zlen text) (zlen payload) (zlen tr)).1.1 = true ->
  in_u 64 (zlen payload) /\ 52 + zlen text + zlen payload + zlen tr <= UINT64_MAX /\
  (kc_budget_bytes kc <> 0 -> 52 + zlen text + zlen payload + zlen tr <= kc_budget_bytes kc).
Proof.
  intros Hfit. destruct (ds4_kvstore_file_size_fits (Some kc) (zlen text) (zlen payload) (zlen tr)) as [[f eb] rb] eqn:Ef.
  cbn in Hfit. subst f. split; [by eapply fits_payload, zlen_nonneg|].
  unfold ds4_kvstore_file_size_fits, kv_cache_file_size_bytes in Ef.
  destruct (_ || _ || _) eqn:Hov; [done|]. bool_props. unfold DS4_KVSTORE_FIXED_HEADER in *. pose proof (zlen_nonneg tr). split; [lia|].
  intros Hb. rewrite (proj2 (Z.eqb_neq _ _) Hb) in Ef. unfold kv_cache_budget_required in Ef.
  destruct (_ <? _); [done|]. injection Ef as Hle _ _. apply Z.leb_le in Hle.
  pose proof (zlen_nonneg text). pose proof (zlen_nonneg payload).
  destruct (Z.eqb_spec ((48 + 4 + zlen text + zlen payload + zlen tr) mod 100) 0); zdiv_lia.
Qed.

Lemma store_leaves exp2 pid kc session toks payload reason hooks tr w :
  quiet w -> order_ok w -> kc_enabled kc = true -> dir_empty kc w ->
  (eg_routed_quant_bits = 2 \/ eg_routed_quant_bits = 4) ->
  eg_tokens session = Some toks -> eg_stage_payload session = Some payload ->
  let text := ds4_kvstore_render_tokens_text toks in
  0 < zlen toks <= INT_MAX -> o_min_tokens (kc_opt kc) <= zlen toks ->
  zlen text <= UINT32_MAX -> 0 <= eg_ctx session <= INT_MAX ->
  trailer_is hooks (cstr text) tr ->
  (ds4_kvstore_file_size_fits (Some kc) (zlen text) (zlen payload) (zlen tr)).1.1 = true ->
  exists kc1 w1, ds4_kvstore_store_live_prefix exp2 pid kc session (Some toks) (zlen toks) reason hooks w = ((true, kc1), w1) /\
    quiet w1 /\ order_ok w1 /\ kc_dir kc1 = kc_dir kc /\ kc_enabled kc1 = true /\ kc_opt kc1 = kc_opt kc /\
    stored_alone kc session toks payload reason (trailer_flag hooks tr) tr w1.
Proof.
  intros Hq Ho He Hd Hqb Htoks Hstage text Hlen Hmin Htext Hctx Htr Hfit.
  destruct (run_store exp2 pid kc session toks payload reason hooks tr w Hq Ho He Hd Hqb Htoks Hstage Hmin Htext Htr Hfit)
    as (kc1 & w1 & now & Est & Hq1 & Eo1 & Hdir & He1 & Hopt & Ef1). fold text in Ef1.
  destruct (fits_sizes kc text payload tr Hfit) as (Hp64 & Hsz & _). pose proof (zlen_nonneg tr).
  destruct (stored_file_read reason (trailer_flag hooks tr) toks payload text tr (eg_ctx session) now Hqb Hlen Htext Hp64 Hctx) as (Hck & _).
  set (c := stored_file _ text payload tr) in *.
  destruct (checkpoint_entry (store_path kc text) (sha1_hex text) text payload c Hck Htext ltac:(lia)) as (e & _ & Hfe & _).
  assert (Ho1 : order_ok w1) by (intros l; rewrite Eo1; apply Ho).
  destruct (listed_after_store kc kc w w1 text payload c pid _ Ho1 Hd eq_refl Ef1 Hfe Hck) as [Hin Hone].
  exists kc1, w1. split_and!; try done. exists now. eexists. split_and!; [|exact Hfe|by apply listed_single].
  rewrite Ef1. apply lookup_insert_eq.
Qed.

Lemma stored_loads kc kc2 session session' toks payload reason hooks hooks' tr suffix w :
  quiet w -> kc_enabled kc2 = true -> kc_dir kc2 = kc_dir kc -> stored_alone kc session toks payload reason (trailer_flag hooks tr) tr w ->
  (eg_routed_quant_bits = 2 \/ eg_routed_quant_bits = 4) ->
  eg_tokens session = Some toks -> eg_stage_payload session = Some payload ->
  let text := ds4_kvstore_render_tokens_text toks in
  0 < zlen toks <= INT_MAX -> o_min_tokens (kc_opt kc2) <= zlen toks ->
  zlen text <= UINT32_MAX -> 0 <= eg_ctx session <= eg_ctx session' -> eg_ctx session' <= INT_MAX ->
  trailer_is hooks (cstr text) tr -> hooks_alike hooks hooks' ->
  in_u 64 (zlen payload) -> 52 + zlen text + zlen payload <= UINT64_MAX ->
  let lo := (ds4_kvstore_try_load_text kc2 session' (Some (text ++ suffix)) hooks' w).1 in
  lo_loaded lo = zlen toks /\ eg_tokens (lo_session lo) = Some toks /\
  lo_prompt lo = toks ++ eg_tokenize_rendered_chat suffix /\
  hook_reads w hooks' tr (lo_hook lo).
Proof using EL.
  intros Hq He2 Hdir (now & en & Hf & Hfe & Hl) Hqb Htoks Hstage text Hlen Hmin Htext Hctx Hctx' Htr Hal Hp64 Hsz. fold text in Hf, Hfe.
  destruct (stored_file_read reason (trailer_flag hooks tr) toks payload text tr (eg_ctx session) now Hqb Hlen Htext Hp64) as
    (Hck & e & Hh & Htb & Hpb & Hmid & Hq' & Htk & Hcx & Hfl); [lia|].
  set (c := stored_file _ text payload tr) in *. set (path := store_path kc text) in *.
  destruct (checkpoint_entry path (sha1_hex text) text payload c Hck Htext Hsz) as (e' & tr' & Hfe' & Hh' & _).
  rewrite Hh in Hh'. injection Hh' as <- _. rewrite Hfe in Hfe'. injection Hfe' as ->.
  destruct (eg_load_staged session payload session' Hstage) as (s & Hload & Hs); [lia|].
  assert (Hpath : store_path kc2 text = path) by (unfold path, store_path; by rewrite Hdir).
  assert (Hl2 : listed kc2 w = [set_file e (sha1_hex text) path (zlen c)]) by (unfold listed; by rewrite Hdir).
  destruct (run_try_load kc2 session' toks text payload tr suffix hooks' w c e s Hq He2 Hqb) as (H1 & H2 & H3 & H4);
    rewrite ?Hpath, ?Hl2; try done.
  - rewrite Htk. apply i32_small. unfold INT_MAX in *. lia.
  - lia.
  - by left.
  - intros e' He'. by apply list_elem_of_singleton in He'.
  - unfold candidate, prefix_hash_ok, prefix_eligible.
    cbn [set_file e_text_bytes e_sha e_tokens e_model_id e_ctx_size e_quant_bits].
    rewrite Htb, Hmid, Hq', Htk, Hcx, !Z.eqb_refl.
    unfold zlen at 5. rewrite Nat2Z.id, take_app_length, (proj2 (bytes_eqb_eq _ _) eq_refl).
    rewrite i32_small by (unfold INT_MAX in *; lia).
    assert (Hc32 : u32 (eg_ctx session') = eg_ctx session') by (apply wrap_small; unfold in_u, INT_MAX in *; lia).
    rewrite Hc32. pose proof (zlen_nonneg suffix). unfold SIZE_MAX, UINT64_MAX, UINT32_MAX in *.
    destruct (Z.ltb_spec (zlen (text ++ suffix)) (zlen text)) as [Hx|_]; [rewrite zlen_app in Hx; lia|].
    destruct (Z.ltb_spec 18446744073709551615 (zlen text)); [lia|].
    destruct (Z.ltb_spec (zlen toks) (o_min_tokens (kc_opt kc2))); [lia|].
    destruct (Z.ltb_spec (eg_ctx session') (eg_ctx session)); [lia|].
    by rewrite andb_false_r.
  - congruence.
  - split_and!; [exact H1 | rewrite H2; congruence | exact H3 |]. rewrite Hfl, Hpath in H4.
    unfold hook_reads, trailer_flag in *. destruct hooks' as [h'|]; [|done]. destruct hooks as [h|]; [|done]. destruct Hal as [Hfl' Hld].
    destruct (hk_load h'); cbn [andb] in *; [|done].
    pose proof (ti_flag _ _ _ Htr) as Hflag. cbn in Hflag. rewrite Hfl' in H4. destruct (0 <? zlen tr); [|by rewrite Z.land_0_l in H4].
    rewrite Z.land_diag in H4. destruct (Z.eqb_spec (hk_ext_flag h) 0); [lia|]. cbn [negb] in H4.
    destruct H4 as (st & Hs1 & Hs2 & Hs3). exists st, c. split; [done|]. by rewrite Hs2.
Qed.

(** The next process opens the directory, finds it within the budget and removes nothing. *)
Lemma reopen_keeps exp2 budget_mb reject opt kc session toks payload reason flags tr w :
  quiet w -> kc_dir kc <> [] -> stored_alone kc session toks payload reason flags tr w ->
  let kc0 := configured_store (kc_dir kc) budget_mb reject opt in
  let text := ds4_kvstore_render_tokens_text toks in
  (kc_budget_bytes kc0 <> 0 -> 52 + zlen text + zlen payload + zlen tr <= kc_budget_bytes kc0) ->
  exists kc2 w2, ds4_kvstore_open exp2 (Some (kc_dir kc)) budget_mb reject opt w = ((true, kc2), w2) /\
    quiet w2 /\ kc_dir kc2 = kc_dir kc /\ kc_enabled kc2 = true /\ kc_opt kc2 = opt /\
    stored_alone kc session toks payload reason flags tr w2.
Proof.
  intros Hq Hdir (now & en & Hf & Hfe & Hl) kc0 text Hsz. fold text in Hf, Hfe.
  set (header := stored_header _ _ _ _ _ _) in *.
  assert (Hbudget : kc_budget_bytes kc0 < 2 ^ 64) by (apply (wrap_range 64); lia).
  pose proof (file_entry_path _ _ _ _ Hfe) as (_ & _ & Hzc). unfold stored_file in Hzc. autorewrite with zlen in Hzc.
  assert (Hzh : zlen header = 48) by (unfold zlen, header, stored_header; by rewrite fill_header_length).
  assert (Hlp : zlen (ds4_kvstore_le_put32 (zlen text)) = 4) by done.
  destruct (run_open exp2 (kc_dir kc) budget_mb reject opt w Hq Hdir) as (kc2 & w2 & Eo & Hq2 & Ef2 & Eo2 & H1 & H2 & H3 & _).
  { intros Hb. specialize (Hsz Hb). change (total_size (listed kc w) <= kc_budget_bytes kc0).
    rewrite Hl. change (u64 (0 + e_file_size en) <= kc_budget_bytes kc0).
    pose proof (zlen_nonneg text). pose proof (zlen_nonneg payload). pose proof (zlen_nonneg tr).
    unfold u64. rewrite wrap_small; unfold in_u; lia. }
  exists kc2, w2. split_and!; try done. exists now, en. unfold listed. rewrite Ef2, Eo2. by split_and!.
Qed.

Lemma store_load_hooks exp2 pid kc session session' toks payload reason hooks tr suffix w :
  quiet w -> order_ok w -> kc_enabled kc = true -> dir_empty kc w ->
  (eg_routed_quant_bits = 2 \/ eg_routed_quant_bits = 4) ->
  eg_tokens session = Some toks -> eg_stage_payload session = Some payload ->
  let text := ds4_kvstore_render_tokens_text toks in
  0 < zlen toks <= INT_MAX -> o_min_tokens (kc_opt kc) <= zlen toks ->
  zlen text <= UINT32_MAX -> 0 <= eg_ctx session <= eg_ctx session' -> eg_ctx session' <= INT_MAX ->
  trailer_is hooks (cstr text) tr ->
  (ds4_kvstore_file_size_fits (Some kc) (zlen text) (zlen payload) (zlen tr)).1.1 = true ->
  let '((ok, kc1), w1) := ds4_kvstore_store_live_prefix exp2 pid kc session (Some toks) (zlen toks)
                            reason hooks w in
  ok = true /\
  let lo := (ds4_kvstore_try_load_text kc1 session' (Some (text ++ suffix)) hooks w1).1 in
  lo_loaded lo = zlen toks /\ eg_tokens (lo_session lo) = Some toks /\
  lo_prompt lo = toks ++ eg_tokenize_rendered_chat suffix /\
  hook_reads w1 hooks tr (lo_hook lo).
Proof using EL.
  intros Hq Ho He Hd Hqb Htoks Hstage text Hlen Hmin Htext Hctx Hctx' Htr Hfit.
  destruct (fits_sizes kc text payload tr Hfit) as (Hp64 & Hsz & _). pose proof (zlen_nonneg tr).
  destruct (store_leaves exp2 pid kc session toks payload reason hooks tr w Hq Ho He Hd Hqb Htoks Hstage Hlen Hmin Htext ltac:(lia) Htr Hfit)
    as (kc1 & w1 & -> & Hq1 & _ & Hdir & He1 & Hopt & Hst). split; [done|].
  apply (stored_loads kc kc1 session session' toks payload reason hooks hooks tr suffix w1); try done; [by rewrite Hopt|apply hooks_alike_refl|].
  fold text. lia.
Qed.

(** C2. A stored checkpoint loads back: when no call fails and the cache
    directory held no readable checkpoint, storing a session's tokens succeeds
    if the payload can be staged and the file fits the budget, and a later load
    for any prompt that continues the stored text, into any session with at
    least that context, restores exactly those tokens and yields them followed
    by the tokenisation of the rest of the prompt.  If hooks wrote a trailer, the
    load hook is called on the file where exactly that trailer is left to read;
    without a trailer it is not called. *)
Theorem store_then_load exp2 pid kc session session' toks payload reason hooks tr suffix w :
  quiet w -> order_ok w -> kc_enabled kc = true -> dir_empty kc w ->
  (eg_routed_quant_bits = 2 \/ eg_routed_quant_bits = 4) ->
  eg_tokens session = Some toks -> eg_stage_payload session = Some payload ->
  let text := ds4_kvstore_render_tokens_text toks in
  0 < zlen toks <= INT_MAX -> o_min_tokens (kc_opt kc) <= zlen toks ->
  zlen text <= UINT32_MAX -> 0 <= eg_ctx session <= eg_ctx session' -> eg_ctx session' <= INT_MAX ->
  trailer_is hooks (cstr text) tr ->
  (ds4_kvstore_file_size_fits (Some kc) (zlen text) (zlen payload) (zlen tr)).1.1 = true ->
  let '((ok, kc1), w1) := ds4_kvstore_store_live_prefix exp2 pid kc session (Some toks) (zlen toks)
                            reason hooks w in
  ok = true /\
  let lo := (ds4_kvstore_try_load_text kc1 session' (Some (text ++ suffix)) hooks w1).1 in
  lo_loaded lo = zlen toks /\ eg_tokens (lo_session lo) = Some toks /\
  lo_prompt lo = toks ++ eg_tokenize_rendered_chat suffix /\
  hook_reads w1 hooks tr (lo_hook lo).
Proof using EL. intros; by eapply store_load_hooks. Qed.
End round.

(** Hooks that keep three bytes with every checkpoint. *)
Definition demo_hooks : option trailer_hooks :=
  Some (mkHooks 1 (Some (fun _ => Some 3)) (Some (fun _ => Some (bs "map"))) true).

Lemma store_then_load_witness :
  quiet demo_world /\
  let '((ok, kc1), w1) := @ds4_kvstore_store_live_prefix demo_engine (fun _ => d_one) (bs "42")
    demo_store demo_live (Some demo_toks) 2 (Some (bs "cold")) demo_hooks demo_world in
  ok = true /\
  let lo := (@ds4_kvstore_try_load_text demo_engine kc1 (mkDemo [] 4096 false)
               (Some (bs "hi" ++ bs " there")) demo_hooks w1).1 in
  lo_loaded lo = 2 /\ @eg_tokens demo_engine (lo_session lo) = Some demo_toks /\
  lo_prompt lo = demo_toks ++ bs " there" /\
  hook_reads w1 demo_hooks (bs "map") (lo_hook lo).
Proof.
  split; [reflexivity|].
  apply (@store_then_load demo_engine _ (fun _ => d_one) (bs "42") demo_store demo_live
    (mkDemo [] 4096 false) demo_toks (concat (map ds4_kvstore_le_put32 demo_toks)) (Some (bs "cold"))
    demo_hooks (bs "map") (bs " there") demo_world);
    try reflexivity; try (vm_compute; intuition discriminate).
  - intros l. reflexivity.
  - intros name _. unfold name_entry. cbn. by destruct (ds4_kvstore_sha_hex_name name).
  - by split.
Defined.

Example store_then_load_run :
  let '((ok, kc1), w1) := @ds4_kvstore_store_live_prefix demo_engine (fun _ => d_one) (bs "42")
    demo_store demo_live (Some demo_toks) 2 (Some (bs "cold")) None demo_world in
  let lo := (@ds4_kvstore_try_load_text demo_engine kc1 (mkDemo [] 4096 false)
               (Some (bs "hi there")) None w1).1 in
  (ok, lo_loaded lo, lo_prompt lo, lr_consumed (lo_result lo))
  = (true, 2, demo_toks ++ bs " there", false).
Proof. vm_compute. reflexivity. Qed.
