(* ===== verification/SessionStore.v ===== *)
(** * SessionStore: saved agent sessions (ds4_agent_session_store.c)

    A session file is a KV checkpoint with the title behind the payload.  The
    engine is reached through [Engine] and what this module asks of it besides. *)

From S2P Require Import Prelude Sha KvHeader Fs KvStore KvFile KvEvict KvSession KvLoad KvSafe.

Class SessionEngine `{Engine} := {
  eg_payload_bytes : Session -> Z;                    (** 0: no valid payload *)
  eg_save_payload : Session -> option bytes;          (** what [ds4_session_save_payload] writes *)
  eg_sync : Session -> tokens -> bool * Session;
  Snapshot : Type;
  eg_save_snapshot : Session -> option Snapshot;
  eg_snapshot_len : Snapshot -> Z;
  eg_load_snapshot : Session -> Snapshot -> bool * Session
}.

(** A saved payload has the announced size and restores the tokens. *)
Class SessionEngineLaws `{SessionEngine} := {
  eg_saved_bytes s p : eg_save_payload s = Some p -> zlen p = eg_payload_bytes s;
  eg_load_saved s p s' :
    eg_save_payload s = Some p -> eg_ctx s <= eg_ctx s' ->
    exists s'', eg_load_payload s' p = (true, s'') /\ eg_tokens s'' = eg_tokens s
}.

(** The failures, by the message they set; [SeIo] is an [errno] text. *)
Inductive sess_error : Type :=
| SeInvalid | SeSnapshot | SeNotLive | SeMismatch | SeQuant | SeTooLarge | SeNoPayload
| SeMkstemp | SeFdopen | SeWrite | SeIo | SeHeader | SeTruncatedText | SeMissingTrailer
| SeTruncatedTitle | SeModel | SeOtherQuant | SeSync | SeLoad | SeTokenCount.

Definition ds4_sess_disk_exists (path : bytes) : IO bool := c_access path.

Definition ds4_agent_kv_read_text (fp : stream) (text_bytes : Z) : IO (option bytes * stream) :=
  let! (t, fp) := c_fread fp (Z.to_nat text_bytes) in
  ret (if negb (zlen t =? text_bytes) then None else Some t, fp).

(** [title] is a C string. *)
Definition ds4_agent_kv_write_title_trailer (fp : stream) (title : option bytes) : IO (bool * stream) :=
  let title := cstr (default [] title) in
  if UINT32_MAX <? zlen title then ret (false, fp)
  else
    let! (ok, fp) := c_fwrite fp (ds4_kvstore_le_put32 (zlen title)) in
    if negb ok then ret (false, fp) else c_fwrite fp title.

(** [ftello] may fail; the cursor goes back to the payload on the failures that
    come from the file's contents and at the end. *)
Definition ds4_agent_kv_read_title_trailer (fp : stream) (hdr : entry)
  : IO ((bytes + sess_error) * stream) :=
  let! f := next_fault in
  match f with
  | Some _ => ret (inr SeIo, fp)
  | None =>
      let payload_pos := Z.of_nat (st_pos fp) in
      if INT64_MAX <? e_payload_bytes hdr then ret (inr SeIo, fp)
      else
        let! (ok, fp) := c_fseek fp (payload_pos + e_payload_bytes hdr) in
        if negb ok then ret (inr SeIo, fp)
        else
          let! (tb, fp) := c_fread fp 4 in
          if negb (zlen tb =? 4) then
            let! (_, fp) := c_fseek fp payload_pos in ret (inr SeMissingTrailer, fp)
          else
            let title_bytes := ds4_kvstore_le_get32 tb in
            let! (title, fp) := c_fread fp (Z.to_nat title_bytes) in
            if negb (zlen title =? title_bytes) then
              let! (_, fp) := c_fseek fp payload_pos in ret (inr SeTruncatedTitle, fp)
            else
              let! (ok, fp) := c_fseek fp payload_pos in
              ret (if negb ok then inr SeIo else inl title, fp)
  end.

(** The hashed bytes are the title and the time stamp. *)
Definition ds4_agent_session_identity_sha (title : option bytes) (created_at : Z) : bytes :=
  sha1_hex (cstr (default [] title) ++ kv_le_put64 created_at).

Definition ds4_agent_kv_identity_sha (hdr : entry) (text : bytes) (title : option bytes) : bytes :=
  if negb (Z.land (e_ext_flags hdr) DS4_KVSTORE_EXT_SESSION_TITLE =? 0)
  then ds4_agent_session_identity_sha title (e_created_at hdr)
  else sha1_hex text.

(** [mkstemp(path ".tmp.XXXXXX")]; [sfx] is what it puts for the X's. *)
Definition sess_tmp (path sfx : bytes) : bytes := path ++ bs ".tmp." ++ sfx.

Section Store.
Context `{SessionEngine}.

Definition ds4_sess_store_ram (session : option Session) (snap : bool) : Snapshot + sess_error :=
  match session with
  | None => inr SeInvalid
  | Some s =>
      if negb snap then inr SeInvalid
      else match eg_save_snapshot s with Some p => inl p | None => inr SeSnapshot end
  end.

Definition ds4_sess_load_ram (session : option Session) (snap : option Snapshot)
  : option Session * option sess_error :=
  match session, snap with
  | Some s, Some p =>
      if eg_snapshot_len p =? 0 then (session, Some SeInvalid)
      else let '(ok, s) := eg_load_snapshot s p in (Some s, if ok then None else Some SeSnapshot)
  | _, _ => (session, Some SeInvalid)
  end.

(** [ds4_session_save_payload] *)
Definition save_payload (session : Session) (fp : stream) : IO (bool * stream) :=
  match eg_save_payload session with
  | None => ret (false, fp)
  | Some p => c_fwrite fp p
  end.

(** The [&&] chain. *)
Definition sess_write (session : Session) (fp : stream) (h tb text : bytes) (title : option bytes)
  : IO (bool * stream) :=
  let! (ok, fp) := c_fwrite fp h in
  if negb ok then ret (false, fp) else
  let! (ok, fp) := c_fwrite fp tb in
  if negb ok then ret (false, fp) else
  let! (ok, fp) := c_fwrite fp text in
  if negb ok then ret (false, fp) else
  let! (ok, fp) := save_payload session fp in
  if negb ok then ret (false, fp) else
  let! (ok, fp) := match title with
                   | None => ret (true, fp)
                   | Some _ => ds4_agent_kv_write_title_trailer fp title
                   end in
  if negb ok then ret (false, fp) else c_fflush fp.

(** From the temporary file on. *)
Definition sess_store_file (sfx path : bytes) (session : Session) (h text : bytes) (title : option bytes)
  : IO (option sess_error) :=
  let tmp := sess_tmp path sfx in
  let! fd := c_open_excl tmp in
  match fd with
  | OpenOk fd =>
      let! f := next_fault in                              (* fdopen *)
      match f with
      | Some _ => let! _ := c_close fd in let! _ := c_unlink tmp in ret (Some SeFdopen)
      | None =>
          let! (ok, fp) := sess_write session fd h (ds4_kvstore_le_put32 (zlen text)) text title in
          let! closed := c_fclose fp in
          let ok := ok && closed in
          let! ok := (if ok then c_rename tmp path else ret false) in
          if negb ok then let! _ := c_unlink tmp in ret (Some SeWrite) else ret None
      end
  | _ => ret (Some SeMkstemp)
  end.

(** [None] is [true]. *)
Definition ds4_sess_store_disk (sfx : bytes) (session : Session) (toks : option tokens) (path : bytes)
    (title : option bytes) (created_at : Z) : IO (option sess_error) :=
  match eg_tokens session with
  | None => ret (Some SeNotLive)
  | Some live =>
      if match toks with Some t => negb (bytes_eqb live t) | None => false end
      then ret (Some SeMismatch)
      else
        let toks := default live toks in
        let quant_bits := eg_routed_quant_bits in
        if negb (quant_bits =? 2) && negb (quant_bits =? 4) then ret (Some SeQuant)
        else
          let model_id := eg_model_id in
          let text := ds4_kvstore_render_tokens_text toks in
          if UINT32_MAX <? zlen text then ret (Some SeTooLarge)
          else
            let session_identity := bool_decide (is_Some title) in
            let! now := c_time in
            let real_created_at :=
              if session_identity && negb (created_at =? 0) then created_at else now in
            let payload_bytes := eg_payload_bytes session in
            if payload_bytes =? 0 then ret (Some SeNoPayload)
            else
              let h := ds4_kvstore_fill_header (u8 model_id) (u8 quant_bits)
                (ds4_kvstore_reason_code (Some (if session_identity then bs "agent_session" else bs "agent_system")))
                (if session_identity then DS4_KVSTORE_EXT_SESSION_TITLE else 0)
                (u32 (zlen toks)) 0 (u32 (eg_ctx session)) real_created_at now payload_bytes in
              sess_store_file sfx path session h text title
  end.

(** What a load leaves behind; [out] tells whether [out_tokens] is given. *)
Record sess_load := mkSessLoad {
  sl_error : option sess_error;
  sl_session : Session;
  sl_tokens : option tokens;
  sl_result : option load_result
}.

(** The restoring part: the error, the session and the tokens handed out. *)
Definition sess_restore (session : Session) (fp : stream) (hdr : entry) (text : bytes) (out : bool)
  : IO (option sess_error * Session * option tokens) :=
  if e_payload_bytes hdr =? 0 then
    let rebuilt := eg_tokenize_rendered_chat (cstr text) in
    let '(ok, s) := eg_sync session rebuilt in
    ret (if ok then (None, s, if out then Some rebuilt else None)
         else (Some SeSync, eg_invalidate s, None))
  else
    let! (ok, s, fp) := load_payload session fp (e_payload_bytes hdr) in
    if negb ok then ret (Some SeLoad, eg_invalidate s, None)
    else if negb out then ret (None, s, None)
    else
      match eg_tokens s with
      | Some live =>
          if negb (zlen live =? i32 (e_tokens hdr)) then ret (Some SeTokenCount, eg_invalidate s, None)
          else ret (None, s, Some live)
      | None => ret (Some SeTokenCount, eg_invalidate s, None)
      end.

(** The model and quantisation checks; the second overwrites nothing. *)
Definition sess_compatible (hdr : entry) : option sess_error :=
  if e_payload_bytes hdr =? 0 then None
  else if negb (e_model_id hdr =? u8 eg_model_id) then Some SeModel
  else if negb (e_quant_bits hdr =? u8 eg_routed_quant_bits) then Some SeOtherQuant
  else None.

Definition ds4_sess_load_disk (session : Session) (path : bytes) (out : bool) : IO sess_load :=
  let failed e := mkSessLoad (Some e) session None None in
  let! fp := c_fopen_rb path in
  match fp with
  | None => ret (failed SeIo)
  | Some fp =>
      let! (hdr, fp) := read_header_io fp in
      match hdr with
      | None => let! _ := c_fclose fp in ret (failed SeHeader)
      | Some hdr =>
          let! (text, fp) := ds4_agent_kv_read_text fp (e_text_bytes hdr) in
          match text with
          | None => let! _ := c_fclose fp in ret (failed SeTruncatedText)
          | Some text =>
              let has_title := negb (Z.land (e_ext_flags hdr) DS4_KVSTORE_EXT_SESSION_TITLE =? 0) in
              let! (title, fp) := (if has_title then ds4_agent_kv_read_title_trailer fp hdr
                                   else ret (inl [], fp)) in
              match title with
              | inr e => let! _ := c_fclose fp in ret (failed e)
              | inl _ =>
                  let! (e, s, toks) :=
                    match sess_compatible hdr with
                    | Some e => ret (Some e, session, None)
                    | None => sess_restore session fp hdr text out
                    end in
                  let! _ := c_fclose fp in
                  ret (mkSessLoad e s toks
                    (match e with
                     | None => Some (mkLoadResult (i32 (e_tokens hdr)) (e_text_bytes hdr) (e_quant_bits hdr)
                                      (e_ext_flags hdr) true path)
                     | Some _ => None
                     end))
              end
          end
      end
  end.

End Store.

(** ** Saving is atomic *)

Section Atomic.
Context `{SessionEngine}.

Definition title_trailer (title : option bytes) : bytes :=
  match title with
  | None => []
  | Some t => ds4_kvstore_le_put32 (zlen (cstr t)) ++ cstr t
  end.

(** The whole file of a session saved at [now]. *)
Definition sess_file (session : Session) (toks : tokens) (title : option bytes) (created now : Z)
    (payload : bytes) : bytes :=
  let text := ds4_kvstore_render_tokens_text toks in
  let identity := bool_decide (is_Some title) in
  ds4_kvstore_fill_header (u8 eg_model_id) (u8 eg_routed_quant_bits)
    (ds4_kvstore_reason_code (Some (if identity then bs "agent_session" else bs "agent_system")))
    (if identity then DS4_KVSTORE_EXT_SESSION_TITLE else 0)
    (u32 (zlen toks)) 0 (u32 (eg_ctx session)) created now (eg_payload_bytes session)
  ++ ds4_kvstore_le_put32 (zlen text) ++ text ++ payload ++ title_trailer title.

(** [c] is a complete file of this session. *)
Definition sess_saved (session : Session) (toks : tokens) (title : option bytes) (created_at : Z) (c : bytes)
  : Prop :=
  exists now payload, eg_save_payload session = Some payload /\
    c = sess_file session toks title
          (if bool_decide (is_Some title) && negb (created_at =? 0) then created_at else now) now payload.

(** Outside the temporary file nothing differs but [path], which may hold a
    complete file instead. *)
Definition sess_states (old : files) (path tmp : bytes) (saved : bytes -> Prop) (fs : files) : Prop :=
  forall p, p <> tmp -> fs !! p = old !! p \/ (p = path /\ exists c, fs !! p = Some c /\ saved c).

Definition same_but (old : files) (tmp : bytes) (fs : files) : Prop :=
  forall p, p <> tmp -> fs !! p = old !! p.

Lemma same_but_blind old tmp : blind tmp (same_but old tmp).
Proof.
  split.
  - intros fs c Hs p Hp. rewrite lookup_insert_ne by done. by apply Hs.
  - intros fs Hs p Hp. rewrite lookup_delete_ne by done. by apply Hs.
Qed.

Lemma sess_tmp_ne path sfx : sess_tmp path sfx <> path.
Proof.
  unfold sess_tmp. intros Heq. rewrite <- (app_nil_r path) in Heq at 2. by apply app_inv_head in Heq.
Qed.

(** The chain on a fresh temporary file. *)
Lemma sess_write_spec I tmp (Hblind : blind tmp I) session h tb text title w ok fp w' base :
  since base I w -> w_files w !! tmp = Some [] ->
  sess_write session (mkStream tmp 0 []) h tb text title w = ((ok, fp), w') ->
  since base I w' /\ st_path fp = tmp /\
  (ok = true -> st_buf fp = [] /\ exists payload, eg_save_payload session = Some payload /\
     w_files w' !! tmp = Some (h ++ tb ++ text ++ payload ++ title_trailer title)).
Proof.
  intros Hw Hc Hr. unfold sess_write in Hr.
  run_inv Hr as [ok1 s1] w1 E1. eapply (tmp_chunk I tmp Hblind) in E1 as (Hw1 & Hp1 & Hk1); [|done..].
  destruct ok1; cbn [negb] in Hr; [|by injection Hr as <- <- <-].
  destruct (Hk1 eq_refl) as [-> Hc1].
  run_inv Hr as [ok2 s2] w2 E2. eapply (tmp_chunk I tmp Hblind) in E2 as (Hw2 & Hp2 & Hk2); [|done..].
  destruct ok2; cbn [negb] in Hr; [|by injection Hr as <- <- <-].
  destruct (Hk2 eq_refl) as [-> Hc2].
  run_inv Hr as [ok3 s3] w3 E3. eapply (tmp_chunk I tmp Hblind) in E3 as (Hw3 & Hp3 & Hk3); [|done..].
  destruct ok3; cbn [negb] in Hr; [|by injection Hr as <- <- <-].
  destruct (Hk3 eq_refl) as [-> Hc3].
  run_inv Hr as [ok4 s4] w4 E4. unfold save_payload in E4.
  destruct (eg_save_payload session) as [payload|]; [|injection E4 as <- <- <-; by injection Hr as <- <- <-].
  eapply (tmp_chunk I tmp Hblind) in E4 as (Hw4 & Hp4 & Hk4); [|done..].
  destruct ok4; cbn [negb] in Hr; [|by injection Hr as <- <- <-].
  destruct (Hk4 eq_refl) as [-> Hc4]. cbn [app] in *.
  run_inv Hr as [ok6 s6] w6 E6.
  assert (H6 : since base I w6 /\ st_path s6 = tmp /\ (ok6 = true ->
    s6 = mkStream tmp 0 (h ++ tb ++ text ++ payload ++ title_trailer title) /\ w_files w6 !! tmp = Some [])).
  { destruct title as [t|].
    2: { injection E6 as <- <- <-. split_and!; [done|done|]. intros _. cbn. by rewrite app_nil_r, <- !app_assoc. }
    unfold ds4_agent_kv_write_title_trailer in E6. cbn [default from_option id] in E6.
    destruct (UINT32_MAX <? zlen (cstr t)); [by injection E6 as <- <- <-|].
    run_inv E6 as [ok7 s7] w7 E7. eapply (tmp_chunk I tmp Hblind) in E7 as (Hw7 & Hp7 & Hk7); [|done..].
    destruct ok7; cbn [negb] in E6; [|by injection E6 as <- <- <-].
    destruct (Hk7 eq_refl) as [-> Hc7].
    eapply (tmp_chunk I tmp Hblind) in E6 as (Hw8 & Hp8 & Hk8); [|done..]. split_and!; [done|done|].
    intros ->. destruct (Hk8 eq_refl) as [-> Hc8]. cbn [title_trailer]. by rewrite <- !app_assoc. }
  destruct H6 as (Hw6 & Hp6 & Hk6).
  destruct ok6; cbn [negb] in Hr; [|by injection Hr as <- <- <-].
  destruct (Hk6 eq_refl) as (-> & Hc6).
  pose proof (keeps_run _ _ _ _ _ base (keeps_tmp_flush I tmp Hblind (mkStream tmp 0
    (h ++ tb ++ text ++ payload ++ title_trailer title)) eq_refl) Hr Hw6) as Hw7.
  eapply fflush_inv in Hr as (Ep7 & Eb7 & Hk7); [|exact Hc6]. split_and!; [done|done|].
  intros Hok. split; [done|]. exists payload. split; [done|].
  destruct (Hk7 Hok) as [_ Hf]. cbn [st_buf st_path st_pos] in Hf. rewrite Hf.
  destruct (h ++ tb ++ text ++ payload ++ title_trailer title) eqn:Eb.
  - done.
  - by rewrite lookup_insert_eq, file_write_fresh.
Qed.

Lemma sess_store_file_spec sfx path session h text title old saved w e w' base :
  let tmp := sess_tmp path sfx in
  (forall payload, eg_save_payload session = Some payload ->
     saved (h ++ ds4_kvstore_le_put32 (zlen text) ++ text ++ payload ++ title_trailer title)) ->
  since base (same_but old tmp) w ->
  sess_store_file sfx path session h text title w = (e, w') ->
  since base (sess_states old path tmp saved) w' /\
  (e = None -> exists c, w_files w' !! path = Some c /\ saved c) /\
  (e <> None -> same_but old tmp (w_files w')).
Proof.
  intros tmp Hsaved Hw Hr. unfold sess_store_file in Hr. fold tmp in Hr.
  pose proof (same_but_blind old tmp) as Hbl. set (I := same_but old tmp) in *.
  assert (Hfail : forall w1, since base I w1 -> since base (sess_states old path tmp saved) w1 /\ I (w_files w1)).
  { intros w1 Hw1. split; [|by eapply since_now]. eapply since_weaken; [|exact Hw1].
    intros fs Hs p Hp. left. by apply Hs. }
  assert (Hbad : forall w1 (e1 : sess_error), since base I w1 ->
    since base (sess_states old path tmp saved) w1 /\
    (Some e1 = None -> exists c, w_files w1 !! path = Some c /\ saved c) /\
    (Some e1 <> None -> I (w_files w1))).
  { intros w1 e1 Hw1. destruct (Hfail w1 Hw1). by split_and!. }
  run_inv Hr as fd w1 E1.
  assert (Hko : keeps I (c_open_excl tmp)) by (apply keeps_open_excl; intros fs Hs _; by apply Hbl).
  pose proof (keeps_run _ _ _ _ _ base Hko E1 Hw) as Hw1. apply open_excl_inv in E1.
  destruct fd as [fd| |]; [|injection Hr as <- <-; by apply Hbad|injection Hr as <- <-; by apply Hbad].
  destruct E1 as (-> & _ & Ef1).
  run_inv Hr as f w2 E2. pose proof (keeps_run _ _ _ _ _ base (keeps_next_fault I) E2 Hw1) as Hw2.
  apply fault_files in E2. destruct f as [k|].
  { run_inv Hr as b3 w3 E3. pose proof (keeps_run _ _ _ _ _ base (keeps_close I _) E3 Hw2) as Hw3.
    run_inv Hr as b4 w4 E4. pose proof (keeps_run _ _ _ _ _ base (keeps_blind_unlink I tmp Hbl) E4 Hw3).
    injection Hr as <- <-. by apply Hbad. }
  run_inv Hr as [ok fp] w3 E3.
  assert (Hc2 : w_files w2 !! tmp = Some []) by (rewrite E2, Ef1; apply lookup_insert_eq).
  destruct (sess_write_spec I tmp Hbl _ _ _ _ _ _ _ _ _ base Hw2 Hc2 E3) as (Hw3 & Hp3 & Hk3).
  run_inv Hr as closed w4 E4.
  pose proof (keeps_run _ _ _ _ _ base (keeps_tmp_fclose I tmp Hbl fp Hp3) E4 Hw3) as Hw4.
  destruct (ok && closed) eqn:Hok.
  2: { run_inv Hr as ren w5 E5. injection E5 as <- <-. cbn [negb] in Hr.
       run_inv Hr as u w6 E6. pose proof (keeps_run _ _ _ _ _ base (keeps_blind_unlink I tmp Hbl) E6 Hw4).
       injection Hr as <- <-. by apply Hbad. }
  apply andb_true_iff in Hok as [-> ->]. destruct (Hk3 eq_refl) as (Hb & payload & Hpay & Hc3).
  apply fclose_clean_files in E4; [|done]. rewrite <- E4 in Hc3. set (c := h ++ _) in Hc3.
  specialize (Hsaved payload Hpay). fold c in Hsaved.
  run_inv Hr as ren w5 E5. unfold c_rename in E5. run_inv E5 as f w6 E6.
  pose proof (keeps_run _ _ _ _ _ base (keeps_next_fault I) E6 Hw4) as Hw6. apply fault_files in E6.
  run_inv E5 as fs w7 E7. injection E7 as <- <-. rewrite E6, Hc3 in E5.
  destruct f.
  { injection E5 as <- <-. cbn [negb] in Hr. run_inv Hr as u w8 E8.
    pose proof (keeps_run _ _ _ _ _ base (keeps_blind_unlink I tmp Hbl) E8 Hw6).
    injection Hr as <- <-. by apply Hbad. }
  case_bool_decide.
  { injection E5 as <- <-. cbn [negb] in Hr. run_inv Hr as u w8 E8.
    pose proof (keeps_run _ _ _ _ _ base (keeps_blind_unlink I tmp Hbl) E8 Hw6).
    injection Hr as <- <-. by apply Hbad. }
  run_inv E5 as u w8 E8. injection E5 as <- <-. cbn [negb] in Hr. injection Hr as <- <-.
  injection E8 as <- <-. cbn [w_files]. split_and!; [|intros _; exists c; by rewrite lookup_insert_eq|done].
  destruct (since_weaken base I (sess_states old path tmp saved) w6) as (new & Hh & HF);
    [intros fs Hs p Hp; left; by apply Hs|done|].
  exists (w_files w6 :: new). cbn [w_hist w_files]. split; [by rewrite Hh|]. constructor; [|done].
  apply since_now in Hw6. intros p Hp. destruct (decide (p = path)) as [->|Hne].
  - right. split; [done|]. exists c. by rewrite lookup_insert_eq.
  - left. rewrite lookup_insert_ne, lookup_delete_ne by done. by apply Hw6.
Qed.

End Atomic.

(** Saving a session is atomic: whichever calls fail and wherever the process
    dies, no file but the temporary one ever differs from before, except that the
    session's own file may be a complete file of this very session; it is that
    exactly when the call reports success, and untouched when it reports failure. *)
Lemma sess_store_atomic `{SessionEngine} sfx session toks path title created_at w :
  let res := ds4_sess_store_disk sfx session toks path title created_at w in
  let tmp := sess_tmp path sfx in
  let saved c := exists live, eg_tokens session = Some live /\ sess_saved session live title created_at c in
  since (w_hist w) (sess_states (w_files w) path tmp saved) res.2 /\
  (res.1 = None -> exists c, w_files res.2 !! path = Some c /\ saved c) /\
  (res.1 <> None -> w_files res.2 !! path = w_files w !! path).
Proof.
  intros res tmp saved. subst res. destruct (ds4_sess_store_disk _ _ _ _ _ _ w) as [e w'] eqn:Hr. cbn [fst snd].
  assert (Hw : since (w_hist w) (same_but (w_files w) tmp) w) by (apply since_start; by intros p _).
  assert (Hnow : forall w1 (e1 : sess_error), since (w_hist w) (same_but (w_files w) tmp) w1 ->
    since (w_hist w) (sess_states (w_files w) path tmp saved) w1 /\
    (Some e1 = None -> exists c, w_files w1 !! path = Some c /\ saved c) /\
    (Some e1 <> None -> w_files w1 !! path = w_files w !! path)).
  { intros w1 e1 Hw1. split_and!; [|done|].
    - eapply since_weaken; [|exact Hw1]. intros fs Hs p Hp. left. by apply Hs.
    - intros _. apply (since_now _ _ _ Hw1). apply not_eq_sym, sess_tmp_ne. }
  unfold ds4_sess_store_disk in Hr.
  destruct (eg_tokens session) as [live|] eqn:Hlive; [|injection Hr as <- <-; by apply Hnow].
  destruct (match toks with Some t => _ | None => _ end) eqn:Hmatch; [injection Hr as <- <-; by apply Hnow|].
  assert (Et : default live toks = live).
  { destruct toks as [t|]; [|done]. apply negb_false_iff, bytes_eqb_eq in Hmatch. by cbn. }
  rewrite Et in Hr. destruct (negb _ && _); [injection Hr as <- <-; by apply Hnow|].
  destruct (UINT32_MAX <? _); [injection Hr as <- <-; by apply Hnow|].
  run_inv Hr as now w1 E1.
  pose proof (keeps_run _ _ _ _ _ (w_hist w) (keeps_time _) E1 Hw) as Hw1.
  destruct (eg_payload_bytes session =? 0); [injection Hr as <- <-; by apply Hnow|].
  match type of Hr with sess_store_file _ _ _ ?h ?text _ _ = _ =>
    assert (Hs : forall payload, eg_save_payload session = Some payload ->
      saved (h ++ ds4_kvstore_le_put32 (zlen text) ++ text ++ payload ++ title_trailer title)) end.
  { intros payload Hpay. exists live. split; [done|]. exists now, payload. split; [done|]. reflexivity. }
  destruct (sess_store_file_spec sfx path session _ _ title (w_files w) saved w1 e w' (w_hist w) Hs Hw1 Hr)
    as (H1 & H2 & H3).
  split_and!; [done|done|]. intros He. apply (H3 He). apply not_eq_sym, sess_tmp_ne.
Qed.

(** Under the empty name nothing can be saved. *)
Lemma sess_store_disk_nowhere `{SessionEngine} sfx session toks title created_at w w' :
  ds4_sess_store_disk sfx session toks [] title created_at w = (None, w') -> False.
Proof.
  unfold ds4_sess_store_disk, sess_store_file. destruct (eg_tokens session) as [live|]; [|done]. destruct (match toks with Some _ => _ | None => _ end); [done|].
  destruct (_ && _); [done|]. destruct (_ <? _); [done|]. intros Hr. run_inv Hr as now w1 E1. destruct (_ =? 0); [done|].
  run_inv Hr as fd w2 E2. destruct fd as [fd| |]; [|done..]. run_inv Hr as f w3 E3. destruct f.
  { run_inv Hr as c w4 E4. run_inv Hr as u w5 E5. done. }
  run_inv Hr as [ok fp] w4 E4. run_inv Hr as closed w5 E5. run_inv Hr as ren w6 E6.
  assert (ren = false) as ->.
  { destruct (ok && closed); [|by injection E6]. unfold c_rename in E6. run_inv E6 as g w7 E7. run_inv E6 as fs w8 E8. destruct g; by injection E6. }
  cbn [negb] in Hr. run_inv Hr as u w7 E7. done.
Qed.

(** ** Saving and loading again *)

Section Roundtrip.
Context `{SessionEngineLaws}.

(** The sizes the file format can hold. *)
Definition sess_fits (session : Session) (toks : tokens) (title : option bytes) (created now : Z) : Prop :=
  (eg_routed_quant_bits = 2 \/ eg_routed_quant_bits = 4) /\ 0 < zlen toks <= INT_MAX /\
  in_u 32 (eg_ctx session) /\ in_u 64 created /\ in_u 64 now /\
  0 < eg_payload_bytes session <= INT64_MAX /\
  in_u 32 (zlen (ds4_kvstore_render_tokens_text toks)) /\ in_u 32 (zlen (cstr (default [] title))).

Definition sess_entry (session : Session) (toks : tokens) (title : option bytes) (created now : Z) : entry := {|
  e_sha := []; e_path := None; e_quant_bits := u8 eg_routed_quant_bits; e_model_id := u8 eg_model_id;
  e_reason := REASON_UNKNOWN; e_tokens := zlen toks; e_hits := 0; e_ctx_size := eg_ctx session;
  e_ext_flags := if bool_decide (is_Some title) then DS4_KVSTORE_EXT_SESSION_TITLE else 0;
  e_created_at := created; e_last_used := now; e_payload_bytes := eg_payload_bytes session;
  e_text_bytes := zlen (ds4_kvstore_render_tokens_text toks); e_file_size := 0 |}.

(** The reason names have underscores here and hyphens in the store, so the
    header of a session file says "unknown". *)
Lemma sess_reason (title : option bytes) :
  ds4_kvstore_reason_code (Some (if bool_decide (is_Some title) then bs "agent_session" else bs "agent_system"))
  = REASON_UNKNOWN.
Proof. by case_bool_decide. Qed.

Lemma sess_file_read session toks title created now payload :
  sess_fits session toks title created now ->
  ds4_kvstore_read_header (sess_file session toks title created now payload) =
  Some (sess_entry session toks title created now,
        ds4_kvstore_render_tokens_text toks ++ payload ++ title_trailer title).
Proof.
  intros (Hq & Ht & Hctx & Hca & Hnow & Hpb & Htx & Htt).
  assert (Hu32 : u32 (zlen toks) = zlen toks) by (apply wrap_small; unfold in_u, INT_MAX in *; lia).
  assert (Huc : u32 (eg_ctx session) = eg_ctx session) by (by apply wrap_small).
  unfold sess_file. rewrite sess_reason, Hu32, Huc.
  set (e := sess_entry session toks title created now). set (rest := _ ++ payload ++ _).
  change (ds4_kvstore_read_header (entry_prefix e REASON_UNKNOWN ++ rest) = Some (e, rest)).
  apply read_entry_prefix; [|done|done].
  assert (Hq8 : u8 eg_routed_quant_bits = eg_routed_quant_bits) by (destruct Hq as [-> | ->]; done).
  unfold header_fields_ok, e. cbn. rewrite Hq8. split_and!; try done; try lia.
  - by apply u8_range.
  - by case_bool_decide.
  - unfold in_u, INT_MAX in *. lia.
  - unfold in_u, INT64_MAX in *. lia.
Qed.

Lemma run_title_trailer w st hdr c payload title rest :
  quiet w -> st_buf st = [] -> w_files w !! st_path st = Some c -> in_u 32 (zlen title) ->
  drop (st_pos st) c = payload ++ ds4_kvstore_le_put32 (zlen title) ++ title ++ rest ->
  e_payload_bytes hdr = zlen payload -> zlen payload <= INT64_MAX ->
  ds4_agent_kv_read_title_trailer st hdr w = ((inl title, mkStream (st_path st) (st_pos st) []), w).
Proof.
  intros Hq Hb Hc Ht Hd Hp Hmax. unfold ds4_agent_kv_read_title_trailer.
  erewrite run_bind by (by apply run_fault). cbv beta iota zeta. rewrite Hp.
  rewrite (proj2 (Z.ltb_ge _ _)) by lia.
  erewrite run_bind by (by apply run_fseek_clean). cbv beta iota. cbn [negb].
  set (pos := Z.to_nat _). assert (Hpos : pos = (st_pos st + length payload)%nat) by (unfold pos, zlen; lia).
  assert (Hd1 : drop pos c = ds4_kvstore_le_put32 (zlen title) ++ title ++ rest).
  { rewrite Hpos, <- drop_drop, Hd. apply drop_app_length. }
  erewrite run_bind by (apply run_fread; [done|exact Hc]). cbv beta iota zeta. cbn [st_path st_pos st_buf].
  rewrite Hd1. change (take 4 (ds4_kvstore_le_put32 (zlen title) ++ title ++ rest))
    with (ds4_kvstore_le_put32 (zlen title)).
  change (zlen (ds4_kvstore_le_put32 (zlen title)) =? 4) with true. cbn [negb].
  assert (Eget : ds4_kvstore_le_get32 (ds4_kvstore_le_put32 (zlen title)) = zlen title).
  { rewrite <- (app_nil_r (ds4_kvstore_le_put32 _)). by apply le_get_put32. }
  rewrite Eget.
  erewrite run_bind by (apply run_fread; [done|exact Hc]). cbv beta iota zeta. cbn [st_path st_pos st_buf].
  assert (Hd2 : drop (pos + length (ds4_kvstore_le_put32 (zlen title))) c = title ++ rest).
  { rewrite <- drop_drop, Hd1. apply drop_app_length. }
  assert (Htk : take (Z.to_nat (zlen title)) (title ++ rest) = title)
    by (unfold zlen; rewrite Nat2Z.id; apply take_app_length).
  rewrite Hd2, Htk, Z.eqb_refl. cbn [negb].
  erewrite run_bind by (by apply run_fseek_clean). cbv beta iota. cbn [negb st_path]. unfold ret.
  rewrite Nat2Z.id. reflexivity.
Qed.

Lemma run_load_payload session st w c payload rest n :
  quiet w -> w_files w !! st_path st = Some c -> drop (st_pos st) c = payload ++ rest -> n = zlen payload ->
  load_payload session st n w =
    ((((eg_load_payload session payload).1, (eg_load_payload session payload).2,
      mkStream (st_path st) (st_pos st + length payload) (st_buf st)), w)).
Proof.
  intros Hq Hc Hd ->. unfold load_payload. erewrite run_bind by (apply run_fread; [done|exact Hc]).
  cbv beta iota zeta.
  assert (Htk : take (Z.to_nat (zlen payload)) (payload ++ rest) = payload)
    by (unfold zlen; rewrite Nat2Z.id; apply take_app_length).
  rewrite Hd, Htk. destruct (eg_load_payload session payload) as [ok s]. cbn [fst snd]. unfold ret.
  by rewrite Z.eqb_refl, andb_true_r.
Qed.

(** A saved session comes back: when no call fails, loading the file of a
    session into any session with at least its context, under the same model and
    quantisation, restores exactly its tokens, hands them out, and reports the
    token and text sizes; a title behind the payload is found intact. *)
Lemma sess_load_saved session toks title created now payload s' path w :
  quiet w -> sess_fits session toks title created now -> eg_tokens session = Some toks ->
  eg_save_payload session = Some payload -> eg_ctx session <= eg_ctx s' ->
  w_files w !! path = Some (sess_file session toks title created now payload) ->
  let res := ds4_sess_load_disk s' path true w in
  sl_error res.1 = None /\ eg_tokens (sl_session res.1) = Some toks /\ sl_tokens res.1 = Some toks /\
  sl_result res.1 = Some (mkLoadResult (zlen toks) (zlen (ds4_kvstore_render_tokens_text toks))
    (u8 eg_routed_quant_bits) (if bool_decide (is_Some title) then DS4_KVSTORE_EXT_SESSION_TITLE else 0) true path) /\
  res.2 = w.
Proof using H1.
  intros Hq Hfit Htoks Hsave Hctx Hc res. pose proof (sess_file_read _ _ _ _ _ payload Hfit) as Hread.
  destruct Hfit as (Hqb & Hn & _ & _ & _ & Hpb & Htx & Htt).
  set (file := sess_file session toks title created now payload) in *.
  set (e := sess_entry session toks title created now) in *.
  set (text := ds4_kvstore_render_tokens_text toks) in *.
  pose proof (eg_saved_bytes _ _ Hsave) as Hpl.
  destruct (eg_load_saved _ _ s' Hsave Hctx) as (s'' & Hload & Hts).
  assert (E : ds4_sess_load_disk s' path true w = (mkSessLoad None s'' (Some toks)
     (Some (mkLoadResult (i32 (zlen toks)) (zlen text) (u8 eg_routed_quant_bits)
        (if bool_decide (is_Some title) then DS4_KVSTORE_EXT_SESSION_TITLE else 0) true path)), w)).
  { unfold ds4_sess_load_disk. erewrite run_bind by (by rewrite run_fopen_rb, Hc). cbv beta iota.
    destruct (run_read_header w path file Hq Hc) as (st & Er & Hp & Hb & Hpos). rewrite Hread in Er.
    erewrite run_bind by exact Er. cbv beta iota. specialize (Hpos _ _ Hread).
    unfold ds4_agent_kv_read_text. rewrite <- Hp in Hc.
    assert (Htk : take (Z.to_nat (zlen text)) (text ++ payload ++ title_trailer title) = text)
      by (unfold zlen; rewrite Nat2Z.id; apply take_app_length).
    erewrite run_bind.
    2: { erewrite run_bind by (apply run_fread; [done|exact Hc]). cbv beta iota zeta.
         change (e_text_bytes e) with (zlen text). rewrite Hpos, Htk, Z.eqb_refl. reflexivity. }
    cbv beta iota. cbn [negb]. set (st1 := mkStream _ _ _).
    assert (Hd1 : drop (st_pos st1) file = payload ++ title_trailer title).
    { subst st1. cbn [st_pos]. rewrite <- drop_drop, Hpos. apply drop_app_length. }
    assert (Hc1 : w_files w !! st_path st1 = Some file) by done.
    assert (Hb1 : st_buf st1 = []) by done. clearbody st1.
    assert (Htitle : exists t, (if negb (Z.land (e_ext_flags e) DS4_KVSTORE_EXT_SESSION_TITLE =? 0)
        then ds4_agent_kv_read_title_trailer st1 e else ret (inl [], st1)) w
        = ((inl t, mkStream (st_path st1) (st_pos st1) []), w)).
    { cbn [e sess_entry e_ext_flags]. destruct title as [t|].
      - exists (cstr t). change (bool_decide (is_Some (Some t))) with true. cbv iota.
        change (negb (Z.land DS4_KVSTORE_EXT_SESSION_TITLE DS4_KVSTORE_EXT_SESSION_TITLE =? 0)) with true.
        cbv iota. eapply (run_title_trailer w st1 e file payload (cstr t) []);
          [done|done|done|done| |by rewrite Hpl|rewrite Hpl; lia].
        rewrite Hd1. cbn [title_trailer]. by rewrite app_nil_r.
      - exists []. destruct st1. cbn in Hb1 |- *. by subst. }
    destruct Htitle as [t Et]. erewrite run_bind by exact Et. cbv beta iota.
    assert (Hcomp : sess_compatible e = None).
    { unfold sess_compatible. cbn [e sess_entry e_payload_bytes e_model_id e_quant_bits].
      destruct (eg_payload_bytes session =? 0); [done|]. rewrite !Z.eqb_refl. done. }
    rewrite Hcomp. set (st2 := mkStream (st_path st1) (st_pos st1) []).
    assert (Hi : i32 (zlen toks) = zlen toks) by (apply i32_small; unfold INT_MAX in *; lia).
    erewrite run_bind.
    2: { unfold sess_restore. change (e_payload_bytes e) with (eg_payload_bytes session).
         rewrite (proj2 (Z.eqb_neq _ _)) by lia.
         erewrite run_bind by (eapply (run_load_payload s' st2 w file payload); [done|done|exact Hd1|by rewrite Hpl]).
         cbv beta iota. rewrite Hload. cbn [fst snd negb]. rewrite Hts, Htoks.
         change (e_tokens e) with (zlen toks). rewrite Hi, Z.eqb_refl. reflexivity. }
    cbv beta iota. by erewrite run_bind by (by apply run_fclose_clean). }
  subst res. rewrite E. cbn [fst snd sl_error sl_session sl_tokens sl_result].
  rewrite Hts, Htoks, i32_small by (unfold INT_MAX in *; lia). done.
Qed.

End Roundtrip.

(** ** The demonstration engine *)

Definition demo_payload_bytes (s : demo_session) : Z :=
  match demo_stage s with Some p => zlen p | None => 0 end.

Definition demo_session_engine : @SessionEngine demo_engine :=
  @Build_SessionEngine demo_engine demo_payload_bytes demo_stage
    (fun s t => (true, mkDemo t (dm_ctx s) true)) bytes demo_stage zlen demo_load.

#[local] Existing Instance demo_engine.
#[local] Existing Instance demo_session_engine.

#[export] Instance demo_session_laws : @SessionEngineLaws demo_engine demo_session_engine.
Proof.
  split; cbn.
  - unfold demo_payload_bytes. by intros s p ->.
  - apply (@eg_load_staged demo_engine _).
Qed.

Definition demo_file : bytes :=
  sess_file demo_live demo_toks (Some (bs "my title")) 900 1000 (default [] (demo_stage demo_live)).

Definition demo_sess_world : world := mkWorld {[bs "/s.kv" := demo_file]} [] ∅ [] 1000 [] (fun l => l).

Lemma demo_fits : sess_fits demo_live demo_toks (Some (bs "my title")) 900 1000.
Proof. apply (bool_decide_eq_true_1 _). vm_compute. reflexivity. Qed.

Lemma sess_load_saved_witness :
  sess_fits demo_live demo_toks (Some (bs "my title")) 900 1000 /\
  let res := ds4_sess_load_disk (mkDemo [] 8192 false) (bs "/s.kv") true demo_sess_world in
  sl_error res.1 = None /\ eg_tokens (sl_session res.1) = Some demo_toks /\
  sl_tokens res.1 = Some demo_toks /\
  sl_result res.1 = Some (mkLoadResult (zlen demo_toks) (zlen (ds4_kvstore_render_tokens_text demo_toks))
    (u8 eg_routed_quant_bits)
    (if bool_decide (is_Some (Some (bs "my title"))) then DS4_KVSTORE_EXT_SESSION_TITLE else 0) true (bs "/s.kv")) /\
  res.2 = demo_sess_world.
Proof.
  split; [exact demo_fits|].
  apply (@sess_load_saved demo_engine demo_session_engine demo_session_laws demo_live demo_toks (Some (bs "my title")) 900 1000
    (default [] (demo_stage demo_live)) (mkDemo [] 8192 false) (bs "/s.kv") demo_sess_world);
    [reflexivity|exact demo_fits|reflexivity|reflexivity|cbn; lia|].
  unfold demo_sess_world. cbn [w_files]. apply lookup_singleton_eq.
Defined.

(** The save and the load together. *)
Example demo_save_and_load :
  let w0 := mkWorld ∅ [] ∅ [] 1000 [] (fun l => l) in
  let '(e, w1) := ds4_sess_store_disk (bs "a1b2c3") demo_live None (bs "/s.kv") (Some (bs "my title")) 900 w0 in
  e = None /\ bool_decide (w_files w1 !! bs "/s.kv" = Some demo_file) = true /\
  sl_tokens (ds4_sess_load_disk (mkDemo [] 8192 false) (bs "/s.kv") true w1).1 = Some demo_toks.
Proof. vm_compute. done. Qed.
