(* ===== verification/Wrapper.v ===== *)
(** * Wrapper: modes, sessions and requests of the wrapper service

    [ds4_wrapper_state.c], and the parts of [client_thread_main] in
    ds4_wrapper_http.c that change its state.  The wrapper owns one session at a
    time, for the mode that is active, and keeps the other one frozen.  The
    measured durations are left out. *)

From S2P Require Import Prelude Sha KvHeader Fs KvStore KvFile KvEvict KvSession KvLoad KvSafe SessionStore.

Inductive ds4_wrap_mode := DS4_WRAP_MODE_SERVER | DS4_WRAP_MODE_AGENT.

#[export] Instance ds4_wrap_mode_dec : EqDecision ds4_wrap_mode.
Proof. solve_decision. Defined.

Inductive ds4_wrap_state :=
| DS4_WRAP_STATE_STARTING | DS4_WRAP_STATE_READY | DS4_WRAP_STATE_BUSY
| DS4_WRAP_STATE_SWITCHING | DS4_WRAP_STATE_ERROR | DS4_WRAP_STATE_STOPPING.

#[export] Instance ds4_wrap_state_dec : EqDecision ds4_wrap_state.
Proof. solve_decision. Defined.

Inductive ds4_wrap_frozen_kind := DS4_WRAP_FROZEN_NONE | DS4_WRAP_FROZEN_RAM | DS4_WRAP_FROZEN_DISK.

#[export] Instance ds4_wrap_frozen_kind_dec : EqDecision ds4_wrap_frozen_kind.
Proof. solve_decision. Defined.

Definition ds4_wrap_mode_name (mode : ds4_wrap_mode) : bytes :=
  match mode with DS4_WRAP_MODE_SERVER => bs "server" | DS4_WRAP_MODE_AGENT => bs "agent" end.

Definition ds4_wrap_state_name (state : ds4_wrap_state) : bytes :=
  match state with
  | DS4_WRAP_STATE_STARTING => bs "starting" | DS4_WRAP_STATE_READY => bs "ready" | DS4_WRAP_STATE_BUSY => bs "busy"
  | DS4_WRAP_STATE_SWITCHING => bs "switching" | DS4_WRAP_STATE_ERROR => bs "error" | DS4_WRAP_STATE_STOPPING => bs "stopping"
  end.

Definition ds4_wrap_frozen_kind_name (kind : ds4_wrap_frozen_kind) : bytes :=
  match kind with DS4_WRAP_FROZEN_NONE => bs "none" | DS4_WRAP_FROZEN_RAM => bs "ram" | DS4_WRAP_FROZEN_DISK => bs "disk" end.

(** What the wrapper needs of the engine besides [SessionEngine]: a new session
    of a context size (which may fail for want of memory), and what a failed save
    leaves in a snapshot's buffer. *)
Class WrapperEngine `{SessionEngine} := {
  eg_create : Z -> option Session;
  eg_spoilt : Session -> option Snapshot -> option Snapshot
}.

(** A new session is empty and has the context it was asked for; a snapshot is
    not empty and restores the tokens in every session with at least the context;
    loading does not change the context. *)
Class WrapperEngineLaws `{WrapperEngine} := {
  eg_created ctx s : eg_create ctx = Some s -> eg_tokens s = Some [] /\ eg_ctx s = ctx;
  eg_restored s p s' : eg_save_snapshot s = Some p -> eg_ctx s <= eg_ctx s' ->
    eg_snapshot_len p <> 0 /\
    exists s'', eg_load_snapshot s' p = (true, s'') /\ eg_tokens s'' = eg_tokens s;
  eg_loaded_ctx s p : eg_ctx (eg_load_snapshot s p).2 = eg_ctx s
}.

(** The failures, by the message they set. *)
Inductive wrap_error :=
| WeSwitching | WeWrongMode (active required : ds4_wrap_mode) | WeBusy | WeNoSession | WeCreate
| WeStore (e : sess_error) | WeLoad (e : sess_error).

Section wrapper.
Context `{WrapperEngine}.

Record ds4_wrap_session_meta := mkMeta {
  sm_title : bytes; sm_disk_path : bytes; sm_ram : option Snapshot; sm_frozen_kind : ds4_wrap_frozen_kind;
  sm_exists : bool; sm_active : bool; sm_tokens : Z
}.

Record ds4_wrapper := mkWrapper {
  w_active_session : option Session;
  w_configured_ctx_size : Z; w_configured_tokens : Z;
  w_active_mode : ds4_wrap_mode; w_state : ds4_wrap_state; w_busy : bool;
  w_prefer_ram_freeze : bool; w_ram_freeze_max_bytes : Z;
  w_server_meta : ds4_wrap_session_meta; w_agent_meta : ds4_wrap_session_meta;
  w_total_requests : Z; w_rejected_busy : Z; w_rejected_wrong_mode : Z;
  w_switch_count : Z; w_freeze_count : Z; w_thaw_count : Z;
  w_last_error : option wrap_error
}.

(** ** Fields *)

Definition w_meta (w : ds4_wrapper) (mode : ds4_wrap_mode) : ds4_wrap_session_meta :=
  match mode with DS4_WRAP_MODE_SERVER => w_server_meta w | DS4_WRAP_MODE_AGENT => w_agent_meta w end.

Definition set_session (s : option Session) (w : ds4_wrapper) : ds4_wrapper :=
  mkWrapper s (w_configured_ctx_size w) (w_configured_tokens w) (w_active_mode w) (w_state w) (w_busy w)
    (w_prefer_ram_freeze w) (w_ram_freeze_max_bytes w) (w_server_meta w) (w_agent_meta w)
    (w_total_requests w) (w_rejected_busy w) (w_rejected_wrong_mode w) (w_switch_count w) (w_freeze_count w) (w_thaw_count w)
    (w_last_error w).

Definition set_mode (mode : ds4_wrap_mode) (w : ds4_wrapper) : ds4_wrapper :=
  mkWrapper (w_active_session w) (w_configured_ctx_size w) (w_configured_tokens w) mode (w_state w) (w_busy w)
    (w_prefer_ram_freeze w) (w_ram_freeze_max_bytes w) (w_server_meta w) (w_agent_meta w)
    (w_total_requests w) (w_rejected_busy w) (w_rejected_wrong_mode w) (w_switch_count w) (w_freeze_count w) (w_thaw_count w)
    (w_last_error w).

Definition set_state (state : ds4_wrap_state) (busy : bool) (w : ds4_wrapper) : ds4_wrapper :=
  mkWrapper (w_active_session w) (w_configured_ctx_size w) (w_configured_tokens w) (w_active_mode w) state busy
    (w_prefer_ram_freeze w) (w_ram_freeze_max_bytes w) (w_server_meta w) (w_agent_meta w)
    (w_total_requests w) (w_rejected_busy w) (w_rejected_wrong_mode w) (w_switch_count w) (w_freeze_count w) (w_thaw_count w)
    (w_last_error w).

Definition set_meta (mode : ds4_wrap_mode) (m : ds4_wrap_session_meta) (w : ds4_wrapper) : ds4_wrapper :=
  mkWrapper (w_active_session w) (w_configured_ctx_size w) (w_configured_tokens w) (w_active_mode w) (w_state w) (w_busy w)
    (w_prefer_ram_freeze w) (w_ram_freeze_max_bytes w)
    (match mode with DS4_WRAP_MODE_SERVER => m | DS4_WRAP_MODE_AGENT => w_server_meta w end)
    (match mode with DS4_WRAP_MODE_SERVER => w_agent_meta w | DS4_WRAP_MODE_AGENT => m end)
    (w_total_requests w) (w_rejected_busy w) (w_rejected_wrong_mode w) (w_switch_count w) (w_freeze_count w) (w_thaw_count w)
    (w_last_error w).

(** Requests, rejections for being busy, for the wrong mode. *)
Definition count_requests (total busy wrong : Z) (w : ds4_wrapper) : ds4_wrapper :=
  mkWrapper (w_active_session w) (w_configured_ctx_size w) (w_configured_tokens w) (w_active_mode w) (w_state w) (w_busy w)
    (w_prefer_ram_freeze w) (w_ram_freeze_max_bytes w) (w_server_meta w) (w_agent_meta w)
    (u64 (w_total_requests w + total)) (u64 (w_rejected_busy w + busy)) (u64 (w_rejected_wrong_mode w + wrong))
    (w_switch_count w) (w_freeze_count w) (w_thaw_count w) (w_last_error w).

Definition count_moves (switches freezes thaws : Z) (w : ds4_wrapper) : ds4_wrapper :=
  mkWrapper (w_active_session w) (w_configured_ctx_size w) (w_configured_tokens w) (w_active_mode w) (w_state w) (w_busy w)
    (w_prefer_ram_freeze w) (w_ram_freeze_max_bytes w) (w_server_meta w) (w_agent_meta w)
    (w_total_requests w) (w_rejected_busy w) (w_rejected_wrong_mode w)
    (u64 (w_switch_count w + switches)) (u64 (w_freeze_count w + freezes)) (u64 (w_thaw_count w + thaws)) (w_last_error w).

Definition set_last_error (e : wrap_error) (w : ds4_wrapper) : ds4_wrapper :=
  mkWrapper (w_active_session w) (w_configured_ctx_size w) (w_configured_tokens w) (w_active_mode w) (w_state w) (w_busy w)
    (w_prefer_ram_freeze w) (w_ram_freeze_max_bytes w) (w_server_meta w) (w_agent_meta w)
    (w_total_requests w) (w_rejected_busy w) (w_rejected_wrong_mode w) (w_switch_count w) (w_freeze_count w) (w_thaw_count w)
    (Some e).

Definition sm_flags (exists_ active : bool) (tokens : Z) (m : ds4_wrap_session_meta) : ds4_wrap_session_meta :=
  mkMeta (sm_title m) (sm_disk_path m) (sm_ram m) (sm_frozen_kind m) exists_ active tokens.

Definition sm_set_active (active : bool) (m : ds4_wrap_session_meta) : ds4_wrap_session_meta :=
  sm_flags (sm_exists m) active (sm_tokens m) m.

Definition sm_set_ram (ram : option Snapshot) (m : ds4_wrap_session_meta) : ds4_wrap_session_meta :=
  mkMeta (sm_title m) (sm_disk_path m) ram (sm_frozen_kind m) (sm_exists m) (sm_active m) (sm_tokens m).

Definition sm_set_kind (kind : ds4_wrap_frozen_kind) (m : ds4_wrap_session_meta) : ds4_wrap_session_meta :=
  mkMeta (sm_title m) (sm_disk_path m) (sm_ram m) kind (sm_exists m) (sm_active m) (sm_tokens m).

(** ** Start *)

(** [memset]: no title, no path, nothing frozen. *)
Definition meta_zero : ds4_wrap_session_meta := mkMeta [] [] None DS4_WRAP_FROZEN_NONE false false 0.

Definition ds4_wrapper_init (ctx_size default_tokens ram_freeze_max_mb : Z) (startup_mode : ds4_wrap_mode) : ds4_wrapper :=
  mkWrapper None ctx_size default_tokens startup_mode DS4_WRAP_STATE_STARTING false
    (0 <? ram_freeze_max_mb) (u64 (u64 (ram_freeze_max_mb * 1024) * 1024)) meta_zero meta_zero 0 0 0 0 0 0 None.

(** [ds4_session_create] may also fail for want of memory. *)
Definition session_create (ctx : Z) : IO (option Session) :=
  let! f := next_fault in
  ret (match f with Some _ => None | None => eg_create ctx end).

Definition ds4_wrapper_startup_session (w : ds4_wrapper) (mode : ds4_wrap_mode) : IO (ds4_wrapper * option wrap_error) :=
  let! session := session_create (w_configured_ctx_size w) in
  ret (match session with
       | None => (w, Some WeCreate)
       | Some s =>
           let w := set_mode mode (set_session (Some s) w) in
           (set_state DS4_WRAP_STATE_READY (w_busy w) (set_meta mode (sm_flags true true 0 (w_meta w mode)) w), None)
       end).

(** ** Requests *)

Definition ds4_wrapper_enter_request (w : ds4_wrapper) (required : ds4_wrap_mode) : ds4_wrapper * Z * option wrap_error :=
  if bool_decide (w_state w = DS4_WRAP_STATE_SWITCHING) then (w, 409, Some WeSwitching)
  else if bool_decide (w_active_mode w <> required) then
    (count_requests 0 0 1 w, 409, Some (WeWrongMode (w_active_mode w) required))
  else if w_busy w then (count_requests 0 1 0 w, 409, Some WeBusy)
  else
    match w_active_session w with
    | None => (w, 503, Some WeNoSession)
    | Some _ => (count_requests 1 0 0 (set_state DS4_WRAP_STATE_BUSY true w), 0, None)
    end.

Definition ds4_wrapper_leave_request (w : ds4_wrapper) : ds4_wrapper :=
  match w_state w with
  | DS4_WRAP_STATE_ERROR | DS4_WRAP_STATE_STOPPING => set_state (w_state w) false w
  | _ => set_state DS4_WRAP_STATE_READY false w
  end.

(** ** Freezing and thawing *)

(** [sfx] is what [mkstemp] puts into the name of a temporary file. *)
Definition ds4_wrapper_freeze_active_session (sfx : bytes) (w : ds4_wrapper) : IO (ds4_wrapper * option wrap_error) :=
  match w_active_session w with
  | None => ret (w, None)
  | Some s =>
      let mode := w_active_mode w in
      let m := w_meta w mode in
      let frozen m kind tokens :=
        count_moves 0 1 0 (set_session None (set_meta mode (sm_flags true false (zlen tokens) (sm_set_kind kind m)) w)) in
      match eg_tokens s with
      | None | Some [] =>
          ret (set_session None (set_meta mode (sm_flags false (sm_active m) 0 (sm_set_kind DS4_WRAP_FROZEN_NONE m)) w), None)
      | Some tokens =>
          let payload_bytes := eg_payload_bytes s in
          let use_ram := w_prefer_ram_freeze w && (0 <? payload_bytes) && (payload_bytes <=? w_ram_freeze_max_bytes w) in
          if use_ram then
            match ds4_sess_store_ram (Some s) true with
            | inr e => ret (set_meta mode (sm_set_ram (eg_spoilt s (sm_ram m)) m) w, Some (WeStore e))
            | inl p => ret (frozen (sm_set_ram (Some p) m) DS4_WRAP_FROZEN_RAM tokens, None)
            end
          else
            let! e := ds4_sess_store_disk sfx s (Some tokens) (sm_disk_path m) (Some (sm_title m)) 0 in
            match e with
            | Some e => ret (w, Some (WeStore e))
            | None => ret (frozen m DS4_WRAP_FROZEN_DISK tokens, None)
            end
      end
  end.

Definition ds4_wrapper_thaw_session (w : ds4_wrapper) (target : ds4_wrap_mode) : IO (ds4_wrapper * option wrap_error) :=
  let m := w_meta w target in
  let! session := session_create (w_configured_ctx_size w) in
  match session with
  | None => ret (w, Some WeCreate)
  | Some session =>
      if negb (sm_exists m) || bool_decide (sm_frozen_kind m = DS4_WRAP_FROZEN_NONE)
      then ret (count_moves 0 0 1 (set_session (Some session) w), None)
      else
        let! (session, e) :=
          match sm_frozen_kind m with
          | DS4_WRAP_FROZEN_DISK =>
              let! r := ds4_sess_load_disk session (sm_disk_path m) true in ret (Some (sl_session r), sl_error r)
          | _ => ret (ds4_sess_load_ram (Some session) (sm_ram m))
          end in
        match e with
        | Some e => ret (w, Some (WeLoad e))
        | None => ret (count_moves 0 0 1 (set_meta target (sm_set_active true m) (set_session session w)), None)
        end
  end.

(** ** Switching *)

(** The parts of [ds4_wrapper_switch_mode] under the mutex: it begins when no
    request runs, [None] if there is nothing to do. *)
Definition switch_begin (w : ds4_wrapper) (target : ds4_wrap_mode) : option ds4_wrapper :=
  if bool_decide (w_active_mode w = target) then None else Some (set_state DS4_WRAP_STATE_SWITCHING (w_busy w) w).

Definition switch_failed (e : wrap_error) (w : ds4_wrapper) : ds4_wrapper :=
  set_last_error e (set_state DS4_WRAP_STATE_ERROR (w_busy w) w).

Definition switch_end (target : ds4_wrap_mode) (w : ds4_wrapper) : ds4_wrapper :=
  let w := set_mode target w in
  let w := set_meta DS4_WRAP_MODE_SERVER (sm_set_active (bool_decide (target = DS4_WRAP_MODE_SERVER)) (w_server_meta w)) w in
  let w := set_meta DS4_WRAP_MODE_AGENT (sm_set_active (bool_decide (target = DS4_WRAP_MODE_AGENT)) (w_agent_meta w)) w in
  count_moves 1 0 0 (set_state DS4_WRAP_STATE_READY (w_busy w) w).

(** The whole call, for a caller that need not wait. *)
Definition ds4_wrapper_switch_mode (sfx : bytes) (w : ds4_wrapper) (target : ds4_wrap_mode) : IO (ds4_wrapper * Z) :=
  match switch_begin w target with
  | None => ret (w, 0)
  | Some w =>
      let! (w, e) := ds4_wrapper_freeze_active_session sfx w in
      match e with
      | Some e => ret (switch_failed e w, 500)
      | None =>
          let! (w, e) := ds4_wrapper_thaw_session w target in
          match e with
          | Some e => ret (switch_failed e w, 500)
          | None => ret (switch_end target w, 0)
          end
      end
  end.

(** ** Threads

    One thread per connection.  [TBody] and [TLeave] are inside a request; the
    constructors behind them are the unlocked parts of a change of mode, of a
    freeze and of a thaw.  [TDone] has the status of the answer, 0 where the body
    of the request chose it. *)

Inductive request := RServe (required : ds4_wrap_mode) | RSwitch (target : ds4_wrap_mode) | RFreeze | RThaw.

Inductive thread :=
| TStart (r : request)
| TBody (required : ds4_wrap_mode)
| TLeave (then_server : bool)
| TSwitchFreeze (target : ds4_wrap_mode)
| TSwitchThaw (target : ds4_wrap_mode)
| TSwitchEnd (target : ds4_wrap_mode)
| TSwitchFail (e : wrap_error)
| TFreeze
| TThaw (mode : ds4_wrap_mode)
| TMoved (e : option wrap_error)
| TDone (code : Z).

(** What a request leaves: the session, which only the agent may exchange or
    give up, whether the agent was started on the way, and whether its command
    asks for the server. *)
Record body_outcome := mkOutcome { bo_session : option Session; bo_agent_started : bool; bo_switch_to_server : bool }.

Definition request_body (required : ds4_wrap_mode) (o : body_outcome) (w : ds4_wrapper) : option (ds4_wrapper * thread) :=
  match required, o with
  | DS4_WRAP_MODE_SERVER, mkOutcome (Some s) false false => Some (set_session (Some s) w, TLeave false)
  | DS4_WRAP_MODE_SERVER, _ => None
  | DS4_WRAP_MODE_AGENT, mkOutcome (Some s) true switch =>
      Some (set_meta DS4_WRAP_MODE_AGENT (sm_flags true true (zlen (default [] (eg_tokens s))) (w_agent_meta w))
              (set_session (Some s) w), TLeave switch)
  | DS4_WRAP_MODE_AGENT, mkOutcome s _ switch => Some (set_session s w, TLeave switch)
  end.

(** The next section of a thread; [None] if it waits. *)
Definition thread_step (sfx : bytes) (w : ds4_wrapper) (t : thread) : IO (option (ds4_wrapper * thread)) :=
  match t with
  | TStart (RServe required) =>
      let '(w, code, _) := ds4_wrapper_enter_request w required in
      ret (Some (w, if code =? 0 then TBody required else TDone code))
  | TBody _ => ret None
  | TLeave then_server =>
      ret (Some (ds4_wrapper_leave_request w, if then_server then TStart (RSwitch DS4_WRAP_MODE_SERVER) else TDone 0))
  | TStart (RSwitch target) =>
      if w_busy w then ret None
      else ret (Some (match switch_begin w target with None => (w, TDone 200) | Some w => (w, TSwitchFreeze target) end))
  | TSwitchFreeze target =>
      let! (w, e) := ds4_wrapper_freeze_active_session sfx w in
      ret (Some (w, match e with None => TSwitchThaw target | Some e => TSwitchFail e end))
  | TSwitchThaw target =>
      let! (w, e) := ds4_wrapper_thaw_session w target in
      ret (Some (w, match e with None => TSwitchEnd target | Some e => TSwitchFail e end))
  | TSwitchEnd target => ret (Some (switch_end target w, TDone 200))
  | TSwitchFail e => ret (Some (switch_failed e w, TDone 500))
  | TStart RFreeze =>
      ret (Some (if w_busy w then (w, TDone 409)
                 else match w_active_session w with
                      | None => (w, TDone 200)
                      | Some _ => (set_state DS4_WRAP_STATE_SWITCHING (w_busy w) w, TFreeze)
                      end))
  | TFreeze => let! (w, e) := ds4_wrapper_freeze_active_session sfx w in ret (Some (w, TMoved e))
  | TStart RThaw =>
      ret (Some (if w_busy w then (w, TDone 409)
                 else match w_active_session w with
                      | Some _ => (w, TDone 200)
                      | None => (set_state DS4_WRAP_STATE_SWITCHING (w_busy w) w, TThaw (w_active_mode w))
                      end))
  | TThaw mode => let! (w, e) := ds4_wrapper_thaw_session w mode in ret (Some (w, TMoved e))
  | TMoved None => ret (Some (set_state DS4_WRAP_STATE_READY (w_busy w) w, TDone 200))
  | TMoved (Some e) => ret (Some (switch_failed e w, TDone 500))
  | TDone _ => ret None
  end.

Record system := mkSystem { sy_wrapper : ds4_wrapper; sy_world : world; sy_threads : gmap nat thread }.

Inductive action := Arrive (tid : nat) (r : request) | Run (tid : nat) (sfx : bytes) | Finish (tid : nat) (o : body_outcome).

(** One action of the system, if it can happen. *)
Definition exec (a : action) (σ : system) : option system :=
  match a with
  | Arrive tid r =>
      match sy_threads σ !! tid with
      | Some _ => None
      | None => Some (mkSystem (sy_wrapper σ) (sy_world σ) (<[tid := TStart r]> (sy_threads σ)))
      end
  | Run tid sfx =>
      t ← sy_threads σ !! tid;
      let '(r, io) := thread_step sfx (sy_wrapper σ) t (sy_world σ) in
      '(w, t) ← r;
      Some (mkSystem w io (<[tid := t]> (sy_threads σ)))
  | Finish tid o =>
      t ← sy_threads σ !! tid;
      match t with
      | TBody required => '(w, t) ← request_body required o (sy_wrapper σ);
                          Some (mkSystem w (sy_world σ) (<[tid := t]> (sy_threads σ)))
      | _ => None
      end
  end.

End wrapper.
