(* ===== verification/WrapperSafe.v ===== *)
(** * WrapperSafe: requests exclude each other, and no conversation is lost *)

From S2P Require Import Prelude Sha KvHeader Fs KvFile KvStore KvEvict KvSession KvLoad KvSafe SessionStore Wrapper.

Section safe.
Context `{WrapperEngineLaws}.

(** ** Which threads hold the session *)

Definition in_request (t : thread) : bool := match t with TBody _ | TLeave _ => true | _ => false end.

(** In the unlocked part of a change of mode, a freeze or a thaw. *)
Definition moving (t : thread) : bool :=
  match t with
  | TSwitchFreeze _ | TSwitchThaw _ | TSwitchEnd _ | TSwitchFail _ | TFreeze | TThaw _ | TMoved _ => true
  | _ => false
  end.

Definition occupied (t : thread) : bool := in_request t || moving t.

Definition begins_move (t : thread) : bool :=
  match t with TStart (RSwitch _) | TStart RFreeze | TStart RThaw => true | _ => false end.

Definition all_threads (P : nat -> thread -> Prop) (σ : system) : Prop := map_Forall P (sy_threads σ).

(** What is asked of the clients and of the bodies of requests: a change of mode,
    a freeze or a thaw begins only when no other is under way, and the agent's
    sessions are no larger than the configured context. *)
Definition admissible (a : action) (σ : system) : Prop :=
  match a with
  | Arrive _ _ => True
  | Run tid _ => forall t, sy_threads σ !! tid = Some t -> begins_move t = true -> all_threads (fun _ u => moving u = false) σ
  | Finish _ o => forall s, bo_session o = Some s -> eg_ctx s <= w_configured_ctx_size (sy_wrapper σ)
  end.

(** ** Phases *)

Definition idle_state (s : ds4_wrap_state) : Prop := s = DS4_WRAP_STATE_READY \/ s = DS4_WRAP_STATE_ERROR.

(** What a thread may rely on in its section. *)
Definition section_ok (t : thread) (w : ds4_wrapper) : Prop :=
  match t with
  | TBody m => w_active_mode w = m /\ is_Some (w_active_session w)
  | TSwitchThaw _ => w_active_session w = None
  | TThaw m => w_active_session w = None /\ m = w_active_mode w
  | _ => True
  end.

Inductive phase : system -> Prop :=
| phase_idle σ : all_threads (fun _ t => occupied t = false) σ ->
    w_busy (sy_wrapper σ) = false -> idle_state (w_state (sy_wrapper σ)) -> phase σ
| phase_request σ i t : sy_threads σ !! i = Some t -> in_request t = true ->
    all_threads (fun j u => occupied u = true -> j = i) σ ->
    w_busy (sy_wrapper σ) = true -> w_state (sy_wrapper σ) = DS4_WRAP_STATE_BUSY ->
    section_ok t (sy_wrapper σ) -> phase σ
| phase_move σ i t : sy_threads σ !! i = Some t -> moving t = true ->
    all_threads (fun j u => occupied u = true -> j = i) σ ->
    w_busy (sy_wrapper σ) = false -> w_state (sy_wrapper σ) = DS4_WRAP_STATE_SWITCHING ->
    section_ok t (sy_wrapper σ) -> phase σ.

(** The fields a freeze and a thaw leave alone. *)
Definition frame (w : ds4_wrapper) : ds4_wrap_mode * ds4_wrap_state * bool * Z :=
  (w_active_mode w, w_state w, w_busy w, w_configured_ctx_size w).

Lemma freeze_frame sfx w io w' e io' :
  ds4_wrapper_freeze_active_session sfx w io = ((w', e), io') ->
  frame w' = frame w /\ (e = None -> w_active_session w' = None).
Proof.
  unfold ds4_wrapper_freeze_active_session. destruct (w_active_session w) as [s|] eqn:Es; [|by intros [= <- <- <-]].
  assert (Hempty : forall io0 io1 m, ret (set_session None (set_meta (w_active_mode w) m w), None : option wrap_error) io0 = (w', e, io1) ->
    frame w' = frame w /\ (e = None -> w_active_session w' = None)).
  { by intros io0 io1 m [= <- <- <-]. }
  destruct (eg_tokens s) as [[|c l]|]; [apply Hempty| |apply Hempty].
  destruct (_ && _ && _).
  - destruct (ds4_sess_store_ram _ _); intros [= <- <- <-]; split; done.
  - intros Hr. run_inv Hr as r w1 E. destruct r; injection Hr as <- <- <-; done.
Qed.

Lemma thaw_frame w target io w' e io' :
  ds4_wrapper_thaw_session w target io = ((w', e), io') ->
  frame w' = frame w.
Proof.
  unfold ds4_wrapper_thaw_session. intros Hr. run_inv Hr as s w1 E. destruct s as [s|]; [|by injection Hr as <- <- <-].
  destruct (_ || _); [by injection Hr as <- <- <-|]. run_inv Hr as [s' r] w2 E2. by destruct r; injection Hr as <- <- <-.
Qed.

(** A step of a thread that holds nothing before and after. *)
Lemma phase_keep σ tid t t' w io :
  phase σ -> sy_threads σ !! tid = Some t -> occupied t = false -> occupied t' = false ->
  frame w = frame (sy_wrapper σ) -> w_active_session w = w_active_session (sy_wrapper σ) ->
  phase (mkSystem w io (<[tid := t']> (sy_threads σ))).
Proof.
  intros Hp Ht Ho Ho' [= F1 F2 F3 _] Hs.
  assert (Hother : forall i u, sy_threads σ !! i = Some u -> occupied u = true -> <[tid := t']> (sy_threads σ) !! i = Some u).
  { intros i u Hu Hou. rewrite lookup_insert_ne; [done|]. intros ->. congruence. }
  assert (Hok : forall u, section_ok u (sy_wrapper σ) -> section_ok u w).
  { intros u. destruct u; cbn; rewrite ?F1, ?Hs; done. }
  destruct Hp as [σ Hall Hb Hst|σ i u Hu Hr Hall Hb Hst Hsec|σ i u Hu Hr Hall Hb Hst Hsec].
  - apply phase_idle; cbn; [by apply map_Forall_insert_2|congruence|by rewrite F2].
  - apply (phase_request _ i u); cbn; [|done| |congruence|congruence|by apply Hok].
    + apply Hother; [done|]. unfold occupied. by rewrite Hr.
    + apply map_Forall_insert_2; [congruence|done].
  - apply (phase_move _ i u); cbn; [|done| |congruence|congruence|by apply Hok].
    + apply Hother; [done|]. unfold occupied. by rewrite Hr, orb_true_r.
    + apply map_Forall_insert_2; [congruence|done].
Qed.

(** From a system in which nothing is held. *)
Lemma phase_from_idle σ tid t w io :
  all_threads (fun _ u => occupied u = false) σ ->
  (occupied t = false /\ w_busy w = false /\ idle_state (w_state w)) \/
  (in_request t = true /\ w_busy w = true /\ w_state w = DS4_WRAP_STATE_BUSY /\ section_ok t w) \/
  (moving t = true /\ w_busy w = false /\ w_state w = DS4_WRAP_STATE_SWITCHING /\ section_ok t w) ->
  phase (mkSystem w io (<[tid := t]> (sy_threads σ))).
Proof.
  intros Hall Hcase. assert (Hone : map_Forall (fun j u => occupied u = true -> j = tid) (<[tid := t]> (sy_threads σ))).
  { apply map_Forall_insert_2; [done|]. intros j u Hu Ho. pose proof (Hall j u Hu) as E. cbn in E. congruence. }
  destruct Hcase as [(Ho & Hb & Hst)|[(Ho & Hb & Hst & Hsec)|(Ho & Hb & Hst & Hsec)]].
  - apply phase_idle; cbn; [by apply map_Forall_insert_2|done|done].
  - apply (phase_request _ tid t); cbn; try done. apply lookup_insert_eq.
  - apply (phase_move _ tid t); cbn; try done. apply lookup_insert_eq.
Qed.

(** A step of the thread that holds the session. *)
Lemma phase_holder σ tid t t' w io :
  sy_threads σ !! tid = Some t -> all_threads (fun j u => occupied u = true -> j = tid) σ ->
  (occupied t' = false /\ w_busy w = false /\ idle_state (w_state w)) \/
  (in_request t' = true /\ w_busy w = true /\ w_state w = DS4_WRAP_STATE_BUSY /\ section_ok t' w) \/
  (moving t' = true /\ w_busy w = false /\ w_state w = DS4_WRAP_STATE_SWITCHING /\ section_ok t' w) ->
  phase (mkSystem w io (<[tid := t']> (sy_threads σ))).
Proof.
  intros Ht Hall Hcase. rewrite <- (insert_delete_eq (sy_threads σ)).
  pose proof (phase_from_idle (mkSystem w io (delete tid (sy_threads σ))) tid t' w io) as Hidle. apply Hidle; [|done].
  intros j u Hu. cbn in Hu. apply lookup_delete_Some in Hu as [Hne Hu].
  destruct (occupied u) eqn:Ho; [|done]. exfalso. by specialize (Hall j u Hu Ho).
Qed.

(** A thread that begins. *)
Lemma phase_start σ tid r sfx w t' io :
  phase σ -> sy_threads σ !! tid = Some (TStart r) ->
  (begins_move (TStart r) = true -> all_threads (fun _ u => moving u = false) σ) ->
  thread_step sfx (sy_wrapper σ) (TStart r) (sy_world σ) = (Some (w, t'), io) ->
  phase (mkSystem w io (<[tid := t']> (sy_threads σ))).
Proof.
  intros Hp Ht Ha E.
  assert (Hkeep : forall w0 t0, ret (Some (w0, t0)) (sy_world σ) = (Some (w, t'), io) -> occupied t0 = false ->
    frame w0 = frame (sy_wrapper σ) -> w_active_session w0 = w_active_session (sy_wrapper σ) ->
    phase (mkSystem w io (<[tid := t']> (sy_threads σ)))).
  { intros w0 t0 [= <- <- <-] Ho Hf Hs. by eapply phase_keep. }
  pose proof Hp as Hp'. destruct Hp' as [σ Hall Hb Hst|σ i u Hu Hr Hall Hb Hst Hsec|σ i u Hu Hr Hall Hb Hst Hsec].
  - clear Hkeep. destruct r as [m|target| |]; cbn [thread_step] in E; rewrite ?Hb in E.
    + unfold ds4_wrapper_enter_request in E. rewrite Hb in E.
      case_bool_decide; [by destruct Hst; congruence|]. case_bool_decide as Hm.
      { injection E as <- <- <-. apply (phase_from_idle σ); [done|]. by left. }
      destruct (w_active_session (sy_wrapper σ)) as [s|] eqn:Es; injection E as <- <- <-; apply (phase_from_idle σ); try done.
      * right. left. cbn. rewrite Es. by split_and!.
      * left. by rewrite Hb.
    + unfold switch_begin in E. case_bool_decide; injection E as <- <- <-; apply (phase_from_idle σ); try done.
      * by left.
      * right. right. by rewrite Hb.
    + destruct (w_active_session (sy_wrapper σ)); injection E as <- <- <-; apply (phase_from_idle σ); try done; [by right; right|by left].
    + destruct (w_active_session (sy_wrapper σ)) eqn:Es; injection E as <- <- <-; apply (phase_from_idle σ); try done; [by left|].
      right. right. by split_and!.
  - destruct r as [m|target| |]; cbn [thread_step] in E; rewrite ?Hb in E; try done; try (by eapply Hkeep; [exact E|..]).
    unfold ds4_wrapper_enter_request in E. rewrite Hst, Hb in E. cbn in E. repeat case_bool_decide; by eapply Hkeep; [exact E|..].
  - assert (Hno : begins_move (TStart r) = false).
    { destruct (begins_move _); [|done]. specialize (Ha eq_refl i u Hu). cbn in Ha. congruence. }
    destruct r as [m|target| |]; try done. cbn [thread_step] in E.
    unfold ds4_wrapper_enter_request in E. rewrite Hst in E. cbn in E. by eapply Hkeep; [exact E|..].
Qed.

(** A thread in an unlocked part. *)
Lemma phase_moving σ tid t sfx w t' io :
  sy_threads σ !! tid = Some t -> moving t = true -> all_threads (fun j u => occupied u = true -> j = tid) σ ->
  w_busy (sy_wrapper σ) = false -> w_state (sy_wrapper σ) = DS4_WRAP_STATE_SWITCHING -> section_ok t (sy_wrapper σ) ->
  thread_step sfx (sy_wrapper σ) t (sy_world σ) = (Some (w, t'), io) ->
  phase (mkSystem w io (<[tid := t']> (sy_threads σ))).
Proof.
  intros Ht Hm Hall Hb Hst Hsec E. apply (phase_holder σ tid t); [done..|].
  destruct t as [| | |target|target|target|e| |mode|[e|]|]; try done; cbn [thread_step] in E.
  - run_inv E as [w1 e] io1 E1. apply freeze_frame in E1 as [[= F1 F2 F3 _] Hnone]. injection E as <- <- <-.
    right. right. rewrite F2, F3. destruct e; split_and!; try done. by apply Hnone.
  - run_inv E as [w1 e] io1 E1. apply thaw_frame in E1 as [= F1 F2 F3 _]. injection E as <- <- <-.
    right. right. rewrite F2, F3. by destruct e.
  - injection E as <- <- <-. left. cbn. rewrite Hb. split_and!; try done. by left.
  - injection E as <- <- <-. left. cbn. rewrite Hb. split_and!; try done. by right.
  - run_inv E as [w1 e] io1 E1. apply freeze_frame in E1 as [[= F1 F2 F3 _] Hnone]. injection E as <- <- <-.
    right. right. by rewrite F2, F3.
  - run_inv E as [w1 e] io1 E1. apply thaw_frame in E1 as [= F1 F2 F3 _]. injection E as <- <- <-.
    right. right. by rewrite F2, F3.
  - injection E as <- <- <-. left. cbn. rewrite Hb. split_and!; try done. by right.
  - injection E as <- <- <-. left. cbn. rewrite Hb. split_and!; try done. by left.
Qed.

(** The holder is the one thread that is occupied. *)
Lemma holder σ tid t : phase σ -> sy_threads σ !! tid = Some t -> occupied t = true ->
  all_threads (fun j u => occupied u = true -> j = tid) σ /\ section_ok t (sy_wrapper σ) /\
  ((in_request t = true /\ w_busy (sy_wrapper σ) = true /\ w_state (sy_wrapper σ) = DS4_WRAP_STATE_BUSY) \/
   (moving t = true /\ w_busy (sy_wrapper σ) = false /\ w_state (sy_wrapper σ) = DS4_WRAP_STATE_SWITCHING)).
Proof.
  intros Hp Ht Ho. destruct Hp as [σ Hall Hb Hst|σ i u Hu Hr Hall Hb Hst Hsec|σ i u Hu Hr Hall Hb Hst Hsec].
  - specialize (Hall tid t Ht). cbn in Hall. congruence.
  - pose proof (Hall tid t Ht Ho) as <-. rewrite Ht in Hu. injection Hu as <-. split_and!; try done. by left.
  - pose proof (Hall tid t Ht Ho) as <-. rewrite Ht in Hu. injection Hu as <-. split_and!; try done. by right.
Qed.

Lemma leave_fields w : frame (ds4_wrapper_leave_request w) =
  (w_active_mode w, match w_state w with DS4_WRAP_STATE_ERROR | DS4_WRAP_STATE_STOPPING => w_state w | _ => DS4_WRAP_STATE_READY end, false,
   w_configured_ctx_size w).
Proof. unfold ds4_wrapper_leave_request, frame. by destruct (w_state w). Qed.

Lemma phase_run σ tid t sfx w t' io :
  phase σ -> admissible (Run tid sfx) σ -> sy_threads σ !! tid = Some t ->
  thread_step sfx (sy_wrapper σ) t (sy_world σ) = (Some (w, t'), io) ->
  phase (mkSystem w io (<[tid := t']> (sy_threads σ))).
Proof.
  intros Hp Ha Ht E. destruct (occupied t) eqn:Ho.
  - destruct (holder σ tid t Hp Ht Ho) as (Hall & Hsec & [(Hr & Hb & Hst)|(Hm & Hb & Hst)]).
    + destruct t as [|m|then_server| | | | | | | |]; try done. cbn [thread_step] in E. injection E as <- <- <-.
      apply (phase_holder σ tid (TLeave then_server)); [done..|]. left.
      pose proof (leave_fields (sy_wrapper σ)) as [= _ F2 F3 _]. rewrite F2, F3, Hst.
      split_and!; [by destruct then_server|done|by left].
    + by eapply phase_moving.
  - destruct t; try done. by eapply phase_start; [..|apply (Ha _ Ht)|].
Qed.

(** Inside a request the session and the agent's meta change, nothing else. *)
Lemma body_frame required o w w' t : request_body required o w = Some (w', t) ->
  frame w' = frame w /\ (exists b, t = TLeave b) /\ w_active_session w' = bo_session o.
Proof.
  unfold request_body. destruct required, o as [[s|] [|] [|]]; intros [= <- <-]; split_and!; eauto.
Qed.

Lemma phase_step a σ σ' : phase σ -> admissible a σ -> exec a σ = Some σ' -> phase σ'.
Proof.
  intros Hp Ha. destruct a as [tid r|tid sfx|tid o]; cbn [exec].
  - destruct (sy_threads σ !! tid) eqn:Ht; [done|]. intros [= <-].
    destruct Hp as [σ Hall Hb Hst|σ i u Hu Hr Hall Hb Hst Hsec|σ i u Hu Hr Hall Hb Hst Hsec].
    + apply phase_idle; cbn; [by apply map_Forall_insert_2|done|done].
    + apply (phase_request _ i u); cbn; try done; [|by apply map_Forall_insert_2]. rewrite lookup_insert_ne by congruence. done.
    + apply (phase_move _ i u); cbn; try done; [|by apply map_Forall_insert_2]. rewrite lookup_insert_ne by congruence. done.
  - intros Hr. apply bind_Some in Hr as (t & Ht & Hr). destruct (thread_step _ _ _ _) as [r io] eqn:E.
    apply bind_Some in Hr as ([w t'] & -> & [= <-]). by eapply phase_run.
  - intros Hr. apply bind_Some in Hr as (t & Ht & Hr). destruct t as [|m| | | | | | | | |]; try done.
    apply bind_Some in Hr as ([w t'] & E & [= <-]). apply body_frame in E as ([= F1 F2 F3 _] & [b ->] & _).
    destruct (holder σ tid _ Hp Ht eq_refl) as (Hall & Hsec & [(Hr & Hb & Hst)|(Hm & Hb & Hst)]); [|done].
    apply (phase_holder σ tid (TBody m)); [done..|]. right. left. by rewrite F2, F3.
Qed.

(** ** Conversations *)

(** The conversation [t] of a mode is frozen. *)
Definition frozen (ctx : Z) (m : ds4_wrap_session_meta) (t : tokens) : Prop :=
  ((sm_exists m = false \/ sm_frozen_kind m = DS4_WRAP_FROZEN_NONE) /\ t = []) \/
  (sm_exists m = true /\ sm_frozen_kind m = DS4_WRAP_FROZEN_RAM /\
   exists s p, sm_ram m = Some p /\ eg_save_snapshot s = Some p /\ eg_tokens s = Some t /\ eg_ctx s <= ctx).

(** The mode the session belongs to: behind a thaw already the new one. *)
Definition owner (σ : system) (mode : ds4_wrap_mode) : Prop :=
  (exists i, sy_threads σ !! i = Some (TSwitchEnd mode)) \/
  ((forall i m, sy_threads σ !! i <> Some (TSwitchEnd m)) /\ w_active_mode (sy_wrapper σ) = mode).

(** [conv mode = Some t]: the conversation of this mode is known to be [t]. *)
Definition conversations := ds4_wrap_mode -> option tokens.

Definition holds (w : ds4_wrapper) (own : ds4_wrap_mode) (mode : ds4_wrap_mode) (t : tokens) : Prop :=
  match w_active_session w with
  | Some s => if bool_decide (mode = own) then eg_tokens s = Some t else frozen (w_configured_ctx_size w) (w_meta w mode) t
  | None => frozen (w_configured_ctx_size w) (w_meta w mode) t
  end.

Record keeps (w : ds4_wrapper) (own : ds4_wrap_mode) (conv : conversations) : Prop := mkKeeps {
  kp_holds mode t : conv mode = Some t -> holds w own mode t;
  kp_ctx s : w_active_session w = Some s -> eg_ctx s <= w_configured_ctx_size w;
  kp_meta mode : sm_disk_path (w_meta w mode) = [] /\ sm_frozen_kind (w_meta w mode) <> DS4_WRAP_FROZEN_DISK
}.

(** A request changes the conversation of its own mode, nothing else does. *)
Definition conv_step (a : action) (σ : system) (conv : conversations) : conversations :=
  match a with
  | Finish tid o =>
      match sy_threads σ !! tid with
      | Some (TBody m) => fun mode => if bool_decide (mode = m) then (bo_session o ≫= eg_tokens) else conv mode
      | _ => conv
      end
  | _ => conv
  end.

Inductive run (σ0 : system) (conv0 : conversations) : list action -> system -> conversations -> Prop :=
| run_nil : run σ0 conv0 [] σ0 conv0
| run_snoc l σ conv a σ' : run σ0 conv0 l σ conv -> admissible a σ -> exec a σ = Some σ' ->
    run σ0 conv0 (l ++ [a]) σ' (conv_step a σ conv).

(** [keeps] reads the session, the context and the metas. *)
Lemma keeps_same w w' own conv :
  w_active_session w' = w_active_session w -> w_configured_ctx_size w' = w_configured_ctx_size w ->
  (forall mode, w_meta w' mode = w_meta w mode) -> keeps w own conv -> keeps w' own conv.
Proof.
  intros Hs Hc Hm [K1 K2 K3]. split; intros *; rewrite ?Hs, ?Hc, ?Hm; [|apply K2|apply K3].
  unfold holds. rewrite Hs, Hc, Hm. apply K1.
Qed.

Lemma frozen_flags ctx m active : frozen ctx (sm_set_active active m) = frozen ctx m.
Proof. done. Qed.

Lemma meta_set mode mode' m w : w_meta (set_meta mode m w) mode' = if bool_decide (mode' = mode) then m else w_meta w mode'.
Proof. by destruct mode, mode'. Qed.

Lemma holds_none w own mode t : w_active_session w = None -> holds w own mode t = frozen (w_configured_ctx_size w) (w_meta w mode) t.
Proof. unfold holds. by intros ->. Qed.

(** A session that owns nothing else leaves the other mode frozen. *)
Lemma holds_other w own mode t : mode <> own -> holds w own mode t -> frozen (w_configured_ctx_size w) (w_meta w mode) t.
Proof. unfold holds. intros Hm. rewrite (bool_decide_eq_false_2 _ Hm). by destruct (w_active_session w). Qed.

(** Giving up the session once its conversation is frozen. *)
Lemma keeps_frozen w own conv m :
  keeps w own conv -> is_Some (w_active_session w) -> sm_disk_path m = [] -> sm_frozen_kind m <> DS4_WRAP_FROZEN_DISK ->
  (forall t, conv own = Some t -> frozen (w_configured_ctx_size w) m t) ->
  keeps (set_session None (set_meta own m w)) own conv.
Proof.
  intros [K1 K2 K3] [s Hs] Hd Hk Hf. split.
  - intros mode t Ht. rewrite holds_none by done. change (w_meta (set_session None ?w) mode) with (w_meta w mode).
    rewrite meta_set. case_bool_decide as Hm; [subst; by apply Hf|]. by apply (holds_other w own), K1.
  - done.
  - intros mode. change (w_meta (set_session None ?w) mode) with (w_meta w mode). rewrite meta_set. case_bool_decide; [done|apply K3].
Qed.

Lemma keeps_count own conv a b c w : keeps (count_moves a b c w) own conv <-> keeps w own conv.
Proof. split; by apply keeps_same. Qed.

Lemma freeze_keeps sfx w io w' e io' conv :
  keeps w (w_active_mode w) conv -> ds4_wrapper_freeze_active_session sfx w io = ((w', e), io') ->
  keeps w' (w_active_mode w) conv.
Proof.
  intros K. unfold ds4_wrapper_freeze_active_session. destruct (w_active_session w) as [s|] eqn:Es; [|by intros [= <- <- <-]].
  set (own := w_active_mode w) in *. destruct (kp_meta _ _ _ K own) as [Hd Hk]. pose proof (kp_ctx _ _ _ K s Es) as Hctx.
  assert (Hlive : forall t, conv own = Some t -> eg_tokens s = Some t).
  { intros t Ht. apply (kp_holds _ _ _ K) in Ht. unfold holds in Ht. by rewrite Es, bool_decide_eq_true_2 in Ht. }
  assert (Hempty : forall io0, match eg_tokens s with None | Some [] => True | _ => False end ->
    ret (set_session None (set_meta own (sm_flags false (sm_active (w_meta w own)) 0 (sm_set_kind DS4_WRAP_FROZEN_NONE (w_meta w own))) w),
         None : option wrap_error) io0 = (w', e, io') -> keeps w' own conv).
  { intros io0 Ht [= <- <- <-]. apply keeps_frozen; try done. intros t Hc. apply Hlive in Hc. left. split; [by left|].
    rewrite Hc in Ht. by destruct t. }
  destruct (eg_tokens s) as [[|c l]|] eqn:Et; [by apply Hempty| |by apply Hempty]. clear Hempty.
  destruct (_ && _ && _).
  - cbn [ds4_sess_store_ram negb]. destruct (eg_save_snapshot s) as [p|] eqn:Ep; intros [= <- <- <-].
    + apply keeps_count. apply keeps_frozen; try done. intros t Hc. right. split_and!; [done..|]. exists s, p. split_and!; try done.
      by rewrite Et, (Hlive t Hc).
    + destruct K as [K1 K2 K3]. split; [|done|].
      * intros mode t Ht. specialize (K1 mode t Ht). unfold holds in *. change (w_active_session (set_meta own ?m w)) with (w_active_session w).
        rewrite Es in *. rewrite meta_set. by case_bool_decide.
      * intros mode. rewrite meta_set. case_bool_decide; [done|apply K3].
  - intros Hr. run_inv Hr as r w1 E. rewrite Hd in E. destruct r as [r|]; [by injection Hr as <- <- <-|].
    by apply sess_store_disk_nowhere in E.
Qed.

Lemma thaw_keeps w own target io w' e io' conv :
  keeps w own conv -> w_active_session w = None -> ds4_wrapper_thaw_session w target io = ((w', e), io') ->
  match e with None => keeps w' target conv | Some _ => w' = w end.
Proof using H2.
  intros K Hs. unfold ds4_wrapper_thaw_session. intros Hr. run_inv Hr as s w1 E. destruct s as [s|]; [|by injection Hr as <- <- <-].
  assert (Hnew : eg_tokens s = Some [] /\ eg_ctx s = w_configured_ctx_size w).
  { unfold session_create in E. run_inv E as f w2 E2. destruct f; injection E as E _; [done|]. by apply eg_created. }
  destruct Hnew as [Ht Hctx]. destruct K as [K1 K2 K3].
  destruct (_ || _) eqn:Ef.
  - injection Hr as <- <- <-. apply keeps_count. split; [|by intros s' [= <-]; rewrite Hctx|done].
    intros mode t Hc. specialize (K1 mode t Hc). rewrite holds_none in K1 by done. unfold holds. cbn [w_active_session set_session].
    destruct (decide (mode = target)) as [->|Hm]; [rewrite (bool_decide_eq_true_2 (target = target)) by done|by rewrite (bool_decide_eq_false_2 (mode = target)) by done].
    destruct K1 as [[_ ->]|(Hx & Hy & _)]; [done|]. by rewrite Hx, Hy in Ef.
  - apply orb_false_iff in Ef as [E1 E2]. apply negb_false_iff in E1. apply bool_decide_eq_false in E2.
    run_inv Hr as [s' r] w2 E3. destruct r as [r|]; [by injection Hr as <- <- <-|]. injection Hr as <- <- <-.
    destruct (sm_frozen_kind (w_meta w target)) eqn:Ek; [done| |by destruct (K3 target)].
    unfold ret in E3. injection E3 as E3 _. unfold ds4_sess_load_ram in E3. destruct (sm_ram (w_meta w target)) as [p|] eqn:Ep; [|done].
    destruct (eg_snapshot_len p =? 0); [done|]. destruct (eg_load_snapshot s p) as [ok s2] eqn:El. destruct ok; [|done]. injection E3 as <-.
    apply keeps_count. split.
    + intros mode t Hc. specialize (K1 mode t Hc). rewrite holds_none in K1 by done. unfold holds. cbn [w_active_session].
      change (w_active_session (set_meta _ _ _)) with (Some s2). change (w_configured_ctx_size (set_meta _ _ _)) with (w_configured_ctx_size w).
      rewrite meta_set. case_bool_decide as Hm; [|done]. subst mode. destruct K1 as [[[Hx|Hx] _]|(_ & _ & s0 & p0 & Hp & Hsave & Hs0 & Hc0)]; [congruence..|].
      rewrite Ep in Hp. injection Hp as <-. destruct (eg_restored s0 p s Hsave ltac:(lia)) as (_ & s3 & El' & Ht'). rewrite El in El'. injection El' as <-.
      by rewrite Ht'.
    + intros s0 [= <-]. pose proof (eg_loaded_ctx s p) as Hc. rewrite El in Hc. cbn in Hc. change (w_configured_ctx_size (set_meta _ _ _)) with (w_configured_ctx_size w). lia.
    + intros mode. rewrite meta_set. case_bool_decide; [|apply K3]. subst. apply (K3 target).
Qed.

Lemma switch_end_keeps w target conv : keeps w target conv -> keeps (switch_end target w) target conv.
Proof.
  intros [K1 K2 K3]. split.
  - intros mode t Hc. specialize (K1 mode t Hc). unfold holds, switch_end in *. cbn [w_active_session count_moves set_state set_meta set_mode].
    destruct (w_active_session w); [case_bool_decide; [done|]|]; by destruct mode.
  - apply K2.
  - intros mode. destruct mode; [apply (K3 DS4_WRAP_MODE_SERVER)|apply (K3 DS4_WRAP_MODE_AGENT)].
Qed.

Lemma body_keeps required o w w' t conv :
  keeps w required conv -> (forall s, bo_session o = Some s -> eg_ctx s <= w_configured_ctx_size w) ->
  request_body required o w = Some (w', t) ->
  keeps w' required (fun mode => if bool_decide (mode = required) then (bo_session o ≫= eg_tokens) else conv mode).
Proof.
  intros [K1 K2 K3] Ho E.
  assert (Hw : w_active_session w' = bo_session o /\ w_configured_ctx_size w' = w_configured_ctx_size w /\
    (forall mode, mode <> required -> w_meta w' mode = w_meta w mode) /\
    sm_disk_path (w_meta w' required) = sm_disk_path (w_meta w required) /\
    sm_frozen_kind (w_meta w' required) = sm_frozen_kind (w_meta w required)).
  { unfold request_body in E. destruct required, o as [[s|] [|] [|]]; try discriminate E; injection E as <- <-; split_and!; try done; by intros []. }
  destruct Hw as (Hs & Hc & Hm & Hd & Hk). split.
  - intros mode t0 Ht. destruct (decide (mode = required)) as [->|Hne].
    + rewrite bool_decide_eq_true_2 in Ht by done. apply bind_Some in Ht as (s & Es & Ht). unfold holds.
      by rewrite Hs, Es, bool_decide_eq_true_2.
    + rewrite bool_decide_eq_false_2 in Ht by done. specialize (K1 mode t0 Ht). apply (holds_other w required) in K1; [|done].
      unfold holds. rewrite Hc, (Hm mode Hne), bool_decide_eq_false_2 by done. by destruct (w_active_session w').
  - rewrite Hs, Hc. apply Ho.
  - intros mode. destruct (decide (mode = required)) as [->|Hne]; [rewrite Hd, Hk|rewrite (Hm mode Hne)]; apply K3.
Qed.

(** The owner of the session, whatever the other threads do. *)
Lemma owner_mode σ : all_threads (fun _ t => forall m, t <> TSwitchEnd m) σ -> owner σ (w_active_mode (sy_wrapper σ)).
Proof. intros Hall. right. split; [|done]. intros i m Hi. by apply (Hall i _ Hi m). Qed.

Lemma owner_fixed σ tid t t' w io own :
  owner σ own -> sy_threads σ !! tid = Some t -> (forall m, t <> TSwitchEnd m) -> (forall m, t' <> TSwitchEnd m) ->
  w_active_mode w = w_active_mode (sy_wrapper σ) -> owner (mkSystem w io (<[tid := t']> (sy_threads σ))) own.
Proof.
  intros [(i & Hi)|[Hno Hm]] Ht Hne Hne' Hw.
  - left. exists i. cbn. rewrite lookup_insert_ne; [done|]. intros ->. rewrite Ht in Hi. injection Hi as ->. by apply (Hne own).
  - right. split; [|cbn; congruence]. intros i m. cbn. destruct (decide (i = tid)) as [->|Hi].
    + rewrite lookup_insert_eq. intros [= E]. by apply (Hne' m).
    + rewrite lookup_insert_ne by done. apply Hno.
Qed.

(** The steps that move no session. *)
Definition moves (t : thread) : bool :=
  match t with TSwitchFreeze _ | TSwitchThaw _ | TSwitchEnd _ | TFreeze | TThaw _ => true | _ => false end.

Lemma light_step sfx w t io w' t' io' :
  moves t = false -> thread_step sfx w t io = (Some (w', t'), io') ->
  w_active_session w' = w_active_session w /\ w_configured_ctx_size w' = w_configured_ctx_size w /\
  (forall mode, w_meta w' mode = w_meta w mode) /\ w_active_mode w' = w_active_mode w /\ (forall m, t' <> TSwitchEnd m).
Proof.
  intros Hm. destruct t as [[m|target| |]|m|b|target|target|target|e| |m|[e|]|c]; try done; cbn [thread_step].
  - unfold ds4_wrapper_enter_request. repeat case_bool_decide; try (by intros [= <- <- <-]).
    destruct (w_busy w); [by intros [= <- <- <-]|]. by destruct (w_active_session w) eqn:Es; intros [= <- <- <-].
  - destruct (w_busy w); [done|]. unfold switch_begin. by case_bool_decide; intros [= <- <- <-].
  - destruct (w_busy w); [by intros [= <- <- <-]|]. by destruct (w_active_session w) eqn:Es; intros [= <- <- <-].
  - destruct (w_busy w); [by intros [= <- <- <-]|]. by destruct (w_active_session w) eqn:Es; intros [= <- <- <-].
  - intros [= <- <- <-]. unfold ds4_wrapper_leave_request. by destruct (w_state w), b.
  - by intros [= <- <- <-].
  - by intros [= <- <- <-].
  - by intros [= <- <- <-].
Qed.

Lemma owner_active σ own : owner σ own -> all_threads (fun _ t => forall m, t <> TSwitchEnd m) σ -> own = w_active_mode (sy_wrapper σ).
Proof. intros [(i & Hi)|[_ Hm]] Hall; [|done]. exfalso. by apply (Hall i _ Hi own). Qed.

(** Only the holder can be behind a thaw. *)
Lemma no_other_end σ tid t : all_threads (fun j u => occupied u = true -> j = tid) σ -> sy_threads σ !! tid = Some t ->
  (forall m, t <> TSwitchEnd m) -> all_threads (fun _ u => forall m, u <> TSwitchEnd m) σ.
Proof.
  intros Hall Ht Hne i u Hi m ->. pose proof (Hall i _ Hi eq_refl) as ->. rewrite Ht in Hi. injection Hi as ->. by apply (Hne m).
Qed.

(** ** The invariant *)

Definition safe (σ : system) (conv : conversations) : Prop :=
  phase σ /\ exists own, owner σ own /\ keeps (sy_wrapper σ) own conv.

Lemma move_keeps σ tid t sfx w t' io own conv :
  sy_threads σ !! tid = Some t -> moves t = true -> all_threads (fun j u => occupied u = true -> j = tid) σ ->
  section_ok t (sy_wrapper σ) -> owner σ own -> keeps (sy_wrapper σ) own conv ->
  thread_step sfx (sy_wrapper σ) t (sy_world σ) = (Some (w, t'), io) ->
  exists own', owner (mkSystem w io (<[tid := t']> (sy_threads σ))) own' /\ keeps w own' conv.
Proof using H2.
  intros Ht Hm Hall Hsec Hown K E.
  assert (Hnew : forall u, (forall m, u <> TSwitchEnd m) -> owner (mkSystem w io (<[tid := u]> (sy_threads σ))) (w_active_mode w)).
  { intros u Hu. apply (owner_mode (mkSystem w io (<[tid := u]> (sy_threads σ)))). intros i v Hi m ->. change (<[tid := u]> (sy_threads σ) !! i = Some (TSwitchEnd m)) in Hi.
    destruct (decide (i = tid)) as [->|Hne]; [rewrite lookup_insert_eq in Hi; injection Hi as ->; by apply (Hu m)|].
    rewrite lookup_insert_ne in Hi by done. by pose proof (Hall i _ Hi eq_refl). }
  destruct t as [| | |target|target|target|e| |mode| |]; try done; cbn [thread_step section_ok] in E, Hsec.
  - assert (own = w_active_mode (sy_wrapper σ)) as -> by (eapply owner_active, no_other_end; done).
    run_inv E as [w1 e] io1 E1. pose proof (freeze_frame _ _ _ _ _ _ E1) as [[= F _ _ _] _]. apply (freeze_keeps _ _ _ _ _ _ _ K) in E1.
    injection E as <- <- <-. exists (w_active_mode w1). rewrite <- F in E1. split; [|done]. apply Hnew. by destruct e.
  - run_inv E as [w1 e] io1 E1. apply (thaw_keeps _ _ _ _ _ _ _ _ K Hsec) in E1. injection E as <- <- <-. destruct e as [e|].
    + subst w1. exists own. split; [|done]. by eapply owner_fixed.
    + exists target. split; [|done]. left. exists tid. apply lookup_insert_eq.
  - injection E as <- <- <-. exists target. split; [by apply (Hnew (TDone 200))|].
    assert (own = target) as ->.
    { destruct Hown as [(i & Hi)|[Hno _]]; [|by destruct (Hno tid target)]. pose proof (Hall i _ Hi eq_refl) as ->. rewrite Ht in Hi. by injection Hi. }
    by apply switch_end_keeps.
  - assert (own = w_active_mode (sy_wrapper σ)) as -> by (eapply owner_active, no_other_end; done).
    run_inv E as [w1 e] io1 E1. pose proof (freeze_frame _ _ _ _ _ _ E1) as [[= F _ _ _] _]. apply (freeze_keeps _ _ _ _ _ _ _ K) in E1.
    injection E as <- <- <-. exists (w_active_mode w1). rewrite <- F in E1. split; [|done]. by apply Hnew.
  - destruct Hsec as [Hs ->]. run_inv E as [w1 e] io1 E1. pose proof (thaw_frame _ _ _ _ _ _ E1) as [= F _ _ _].
    apply (thaw_keeps _ _ _ _ _ _ _ _ K Hs) in E1. injection E as <- <- <-. exists (w_active_mode w1). split; [by apply Hnew|].
    destruct e as [e|]; [|by rewrite F]. subst w1. by assert (own = w_active_mode (sy_wrapper σ)) as <- by (eapply owner_active, no_other_end; done).
Qed.

Lemma safe_step a σ σ' conv : safe σ conv -> admissible a σ -> exec a σ = Some σ' -> safe σ' (conv_step a σ conv).
Proof using H2.
  intros [Hp (own & Hown & K)] Ha E. split; [by eapply phase_step|]. destruct a as [tid r|tid sfx|tid o]; cbn [exec conv_step] in *.
  - destruct (sy_threads σ !! tid) eqn:Ht; [done|]. injection E as <-. exists own. split; [|done].
    destruct Hown as [(i & Hi)|[Hno Hm]].
    + left. exists i. cbn. rewrite lookup_insert_ne; [done|congruence].
    + right. split; [|done]. intros i m. cbn. destruct (decide (i = tid)) as [->|Hi]; [by rewrite lookup_insert_eq|].
      rewrite lookup_insert_ne by done. apply Hno.
  - apply bind_Some in E as (t & Ht & E). destruct (thread_step _ _ _ _) as [r io] eqn:Er.
    apply bind_Some in E as ([w t'] & -> & [= <-]). destruct (moves t) eqn:Hm.
    + destruct (holder σ tid t Hp Ht) as (Hall & Hsec & _); [by destruct t|]. by eapply move_keeps.
    + exists own. destruct (light_step _ _ _ _ _ _ _ Hm Er) as (L1 & L2 & L3 & L4 & L5). split; [|by eapply keeps_same].
      eapply owner_fixed; try done; by destruct t.
  - apply bind_Some in E as (t & Ht & E). rewrite Ht. destruct t as [|m| | | | | | | | |]; try done.
    apply bind_Some in E as ([w t'] & E & [= <-]). destruct (holder σ tid _ Hp Ht eq_refl) as (Hall & [Hmode _] & _).
    assert (own = m) as ->.
    { rewrite <- Hmode. eapply owner_active, no_other_end; done. }
    pose proof (body_frame _ _ _ _ _ E) as ([= F _ _ _] & [b ->] & _). exists m. split; [|by eapply body_keeps].
    by eapply owner_fixed.
Qed.

Lemma run_safe σ0 conv0 l σ conv : safe σ0 conv0 -> run σ0 conv0 l σ conv -> safe σ conv.
Proof using H2. intros H0' Hr. induction Hr as [|l σ conv a σ' Hr IH Ha He]; [done|]. by eapply safe_step. Qed.

(** A wrapper that was started, with no request yet. *)
Definition started (w : ds4_wrapper) : Prop :=
  exists ctx default_tokens ram_mb mode0 mode io io',
    ds4_wrapper_startup_session (ds4_wrapper_init ctx default_tokens ram_mb mode0) mode io = ((w, None), io').

Definition start (w : ds4_wrapper) (io : world) : system := mkSystem w io ∅.

(** Both conversations are empty at first. *)
Definition no_words : conversations := fun _ => Some [].

Lemma started_safe w io : started w -> safe (start w io) no_words.
Proof using H2.
  intros (ctx & tok & mb & mode0 & mode & io0 & io1 & E). unfold ds4_wrapper_startup_session in E. run_inv E as s w1 E1.
  destruct s as [s|]; [|done]. assert (Hnew : eg_tokens s = Some [] /\ eg_ctx s = ctx).
  { unfold session_create in E1. run_inv E1 as f w2 E2. destruct f; injection E1 as E1 _; [done|]. by apply eg_created. }
  destruct Hnew as [Ht Hc]. injection E as <- _. split.
  - apply phase_idle; cbn; [apply map_Forall_empty|done|by left].
  - exists mode. split; [by right|]. split; cbn.
    + intros m t [= <-]. unfold holds. cbn. case_bool_decide as Hm; [done|]. left. destruct m, mode; try done; cbn; by split; [left|].
    + intros s0 [= <-]. lia.
    + by intros []; destruct mode.
Qed.

(** Everything a thaw needs goes well. *)
Definition thawable (w : ds4_wrapper) (io : world) : Prop := quiet io /\ is_Some (eg_create (w_configured_ctx_size w)).

Lemma thaw_restores w target t io :
  thawable w io -> frozen (w_configured_ctx_size w) (w_meta w target) t ->
  exists w' s, ds4_wrapper_thaw_session w target io = ((w', None), io) /\ w_active_session w' = Some s /\ eg_tokens s = Some t.
Proof using H2.
  intros [Hq [s0 Hs0]] Hf. destruct (eg_created _ _ Hs0) as [Ht Hctx]. unfold ds4_wrapper_thaw_session.
  erewrite run_bind by (unfold session_create; erewrite run_bind by (by apply run_fault); reflexivity). rewrite Hs0. cbv beta iota.
  destruct Hf as [[Hne ->]|(He & Hk & s & p & Hram & Hsave & Hs & Hc)].
  - assert (negb (sm_exists (w_meta w target)) || bool_decide (sm_frozen_kind (w_meta w target) = DS4_WRAP_FROZEN_NONE) = true) as ->.
    { destruct Hne as [-> | ->]; [done|]. by rewrite bool_decide_eq_true_2, orb_true_r. }
    by eexists _, s0.
  - rewrite He, Hk. cbn [negb orb]. rewrite bool_decide_eq_false_2 by done. rewrite Hram. cbn [ds4_sess_load_ram].
    destruct (eg_restored s p s0 Hsave ltac:(lia)) as (Hlen & s1 & El & Ht1). rewrite (proj2 (Z.eqb_neq _ _) Hlen), El.
    erewrite run_bind by reflexivity. cbv beta iota. eexists _, s1. split; [done|]. split; [done|congruence].
Qed.

(** The session can be given up: it is empty, or can be saved within the limit. *)
Definition freezable (w : ds4_wrapper) : Prop :=
  match w_active_session w with
  | Some s =>
      match eg_tokens s with
      | Some (_ :: _) => w_prefer_ram_freeze w = true /\ 0 < eg_payload_bytes s <= w_ram_freeze_max_bytes w /\ is_Some (eg_save_snapshot s)
      | _ => True
      end
  | None => True
  end.

Lemma freeze_succeeds sfx w io : freezable w -> exists w', ds4_wrapper_freeze_active_session sfx w io = ((w', None), io).
Proof.
  unfold freezable, ds4_wrapper_freeze_active_session. destruct (w_active_session w) as [s|]; [|by eexists].
  destruct (eg_tokens s) as [[|c l]|]; [by eexists| |by eexists]. intros (Hr & Hb & [p Hp]). rewrite Hr.
  rewrite (proj2 (Z.ltb_lt _ _)), (proj2 (Z.leb_le _ _)) by lia. cbn [andb ds4_sess_store_ram negb]. rewrite Hp. by eexists.
Qed.

(** ** Runs, computed *)

Definition admissibleb (a : action) (σ : system) : bool :=
  match a with
  | Arrive _ _ => true
  | Run tid _ =>
      match sy_threads σ !! tid with
      | Some t => negb (begins_move t) || forallb (fun u => negb (moving u)) (map_to_list (sy_threads σ)).*2
      | None => true
      end
  | Finish _ o => match bo_session o with Some s => eg_ctx s <=? w_configured_ctx_size (sy_wrapper σ) | None => true end
  end.

Fixpoint exec_all (l : list action) (σ : system) (conv : conversations) : option (system * conversations) :=
  match l with
  | [] => Some (σ, conv)
  | a :: l => if admissibleb a σ then σ' ← exec a σ; exec_all l σ' (conv_step a σ conv) else None
  end.

Lemma admissibleb_sound a σ : admissibleb a σ = true -> admissible a σ.
Proof.
  destruct a as [| |tid o]; cbn; [done|..].
  - intros Hb t Ht Hm i u Hu. rewrite Ht, Hm in Hb. cbn in Hb. rewrite forallb_forall in Hb.
    apply negb_true_iff, Hb, list_elem_of_In, list_elem_of_fmap. exists (i, u). split; [done|]. by apply elem_of_map_to_list.
  - intros Hb s Es. rewrite Es in Hb. by apply Z.leb_le.
Qed.

Lemma exec_all_run l σ0 conv0 l0 σ conv σ' conv' :
  run σ0 conv0 l0 σ conv -> exec_all l σ conv = Some (σ', conv') -> run σ0 conv0 (l0 ++ l) σ' conv'.
Proof.
  revert l0 σ conv. induction l as [|a l IH]; intros l0 σ conv Hr; cbn [exec_all].
  - intros [= <- <-]. by rewrite app_nil_r.
  - destruct (admissibleb a σ) eqn:Ea; [|done]. intros He. apply bind_Some in He as (σ1 & E1 & He).
    change (a :: l) with ([a] ++ l). rewrite app_assoc. eapply IH; [|exact He]. eapply run_snoc; [exact Hr|by apply admissibleb_sound|done].
Qed.

(** A thread that changes the mode with nobody else about does what the call does. *)
Lemma switch_thread sfx σ tid target w' io' :
  sy_threads σ !! tid = Some (TStart (RSwitch target)) -> w_busy (sy_wrapper σ) = false -> w_active_mode (sy_wrapper σ) <> target ->
  ds4_wrapper_switch_mode sfx (sy_wrapper σ) target (sy_world σ) = ((w', 0), io') ->
  exists threads, foldl (fun σ a => σ ≫= exec a) (Some σ) (replicate 4 (Run tid sfx)) = Some (mkSystem w' io' threads) /\
    threads !! tid = Some (TDone 200).
Proof.
  destruct σ as [w io th]. cbn [sy_threads sy_wrapper sy_world]. intros Ht Hb Hm. unfold ds4_wrapper_switch_mode, switch_begin.
  rewrite bool_decide_eq_false_2 by done. intros Hr. run_inv Hr as [w1 e1] io1 E1. destruct e1; [done|].
  run_inv Hr as [w2 e2] io2 E2. destruct e2; [done|]. injection Hr as <- <-.
  cbn [replicate foldl mbind option_bind exec sy_threads sy_wrapper sy_world]. rewrite Ht. cbn [mbind option_bind thread_step]. rewrite Hb.
  unfold switch_begin. rewrite bool_decide_eq_false_2 by done. cbn [ret mbind option_bind sy_threads sy_wrapper sy_world exec].
  rewrite lookup_insert_eq. cbn [mbind option_bind thread_step]. unfold io_bind at 1. rewrite E1.
  cbn [ret mbind option_bind sy_threads sy_wrapper sy_world exec]. rewrite lookup_insert_eq. cbn [mbind option_bind thread_step].
  unfold io_bind at 1. rewrite E2. cbn [ret mbind option_bind sy_threads sy_wrapper sy_world exec]. rewrite lookup_insert_eq.
  cbn [mbind option_bind thread_step ret]. eexists. split; [reflexivity|]. apply lookup_insert_eq.
Qed.

(** What a phase means for the threads. *)
Lemma phase_exclusive σ : phase σ ->
  (forall i j t u, sy_threads σ !! i = Some t -> sy_threads σ !! j = Some u -> occupied t = true -> occupied u = true -> i = j) /\
  (w_state (sy_wrapper σ) = DS4_WRAP_STATE_SWITCHING <-> exists i t, sy_threads σ !! i = Some t /\ moving t = true) /\
  (forall i m, sy_threads σ !! i = Some (TBody m) -> w_active_mode (sy_wrapper σ) = m /\ is_Some (w_active_session (sy_wrapper σ))).
Proof.
  intros Hp. split_and!.
  - intros i j t u Hi Hj Ht Hu. destruct (holder σ j _ Hp Hj Hu) as (Hall & _). by apply (Hall i t).
  - split.
    + intros Hst. destruct Hp as [σ Hall _ Hst'|σ i t Hi Ht _ _ Hst' _|σ i t Hi Ht _ _ _ _]; [destruct Hst'; congruence|congruence|eauto].
    + intros (i & t & Hi & Ht). destruct (holder σ i t Hp Hi) as (_ & _ & [[? _]|(_ & _ & ?)]); [unfold occupied; by rewrite Ht, orb_true_r|by destruct t|done].
  - intros i m Hi. by destruct (holder σ i _ Hp Hi eq_refl) as (_ & Hsec & _).
Qed.

(** ** Without any assumption on the clients *)

(** States that threads reach in any order of their sections, changes of mode on
    top of each other included. *)
Inductive reached (σ0 : system) : system -> Prop :=
| reached_start : reached σ0 σ0
| reached_step σ a σ' : reached σ0 σ -> exec a σ = Some σ' -> reached σ0 σ'.

Lemma run_reached σ0 conv0 l σ conv : run σ0 conv0 l σ conv -> reached σ0 σ.
Proof. induction 1; [apply reached_start|by eapply reached_step]. Qed.

(** A thread is in a request exactly when the wrapper is busy, and it is the only one. *)
Definition one_request (σ : system) : Prop :=
  if w_busy (sy_wrapper σ)
  then exists i t, sy_threads σ !! i = Some t /\ in_request t = true /\ all_threads (fun j u => in_request u = true -> j = i) σ
  else all_threads (fun _ u => in_request u = false) σ.

(** A section that does not enter or leave a request. *)
Lemma one_request_keep σ tid t t' w io :
  one_request σ -> sy_threads σ !! tid = Some t -> in_request t = in_request t' -> w_busy w = w_busy (sy_wrapper σ) ->
  one_request (mkSystem w io (<[tid := t']> (sy_threads σ))).
Proof.
  unfold one_request. cbn [sy_wrapper sy_threads]. intros Hone Ht Hr ->. destruct (w_busy (sy_wrapper σ)).
  - destruct Hone as (i & u & Hu & Hur & Hall). destruct (decide (i = tid)) as [->|Hne].
    + exists tid, t'. rewrite lookup_insert_eq. split; [done|]. split; [congruence|]. apply map_Forall_insert_2; [done|exact Hall].
    + exists i, u. rewrite lookup_insert_ne by done. split; [done|]. split; [done|].
      apply map_Forall_insert_2; [|exact Hall]. cbn. intros Ht'. rewrite <- Hr in Ht'. by apply (Hall tid t).
  - apply map_Forall_insert_2; [|exact Hone]. cbn. rewrite <- Hr. by apply (Hone tid t).
Qed.

Lemma one_request_enter σ tid t t' w io :
  one_request σ -> sy_threads σ !! tid = Some t -> in_request t' = true -> w_busy (sy_wrapper σ) = false -> w_busy w = true ->
  one_request (mkSystem w io (<[tid := t']> (sy_threads σ))).
Proof.
  unfold one_request. cbn [sy_wrapper sy_threads]. intros Hone Ht Hr Hb ->. rewrite Hb in Hone. exists tid, t'.
  rewrite lookup_insert_eq. split; [done|]. split; [done|]. apply map_Forall_insert_2; [done|].
  intros j u Hu Hur. specialize (Hone j u Hu). cbn in Hone. congruence.
Qed.

Lemma one_request_leave σ tid t t' w io :
  one_request σ -> sy_threads σ !! tid = Some t -> in_request t = true -> in_request t' = false -> w_busy w = false ->
  one_request (mkSystem w io (<[tid := t']> (sy_threads σ))).
Proof.
  unfold one_request. cbn [sy_wrapper sy_threads]. intros Hone Ht Hr Hr' ->. destruct (w_busy (sy_wrapper σ)).
  - destruct Hone as (i & u & Hu & Hur & Hall). pose proof (Hall tid t Ht Hr) as Ei. cbn in Ei. subst i.
    apply map_Forall_lookup_2. intros j v Hj. cbn [sy_threads] in Hj. apply lookup_insert_Some in Hj as [[_ <-]|[Hne Hj]]; [done|].
    destruct (in_request v) eqn:Hv; [|done]. by pose proof (Hall j v Hj Hv).
  - specialize (Hone tid t Ht). cbn in Hone. congruence.
Qed.

(** A section that ends with its thread where it was, as far as requests go. *)
Ltac keep_request :=
  match goal with
  | E : _ = (Some _, _), K : forall w0 t0, _ -> in_request ?t = _ -> _ -> one_request _ |- _ =>
      injection E as <- <- _; eapply K; [reflexivity|try reflexivity; try done|try reflexivity; try congruence]
  end.

Lemma one_request_run σ tid t sfx w t' io :
  one_request σ -> sy_threads σ !! tid = Some t -> thread_step sfx (sy_wrapper σ) t (sy_world σ) = (Some (w, t'), io) ->
  one_request (mkSystem w io (<[tid := t']> (sy_threads σ))).
Proof.
  intros Hone Ht E.
  assert (Hkeep : forall w0 t0, (w0, t0) = (w, t') -> in_request t = in_request t0 -> w_busy w0 = w_busy (sy_wrapper σ) ->
    one_request (mkSystem w io (<[tid := t']> (sy_threads σ)))).
  { intros w0 t0 [= <- <-] Hr Hb. by eapply one_request_keep. }
  destruct t as [[m|target| |]|m|b|target|target|target|e| |m|[e|]|c]; cbn [thread_step] in E; try discriminate E.
  - unfold ds4_wrapper_enter_request in E. repeat case_bool_decide; try by keep_request.
    destruct (w_busy (sy_wrapper σ)) eqn:Hb; [by keep_request|].
    destruct (w_active_session (sy_wrapper σ)); [|by keep_request]. injection E as <- <- _. by eapply one_request_enter.
  - destruct (w_busy (sy_wrapper σ)) eqn:Hb; [done|]. unfold switch_begin in E. case_bool_decide; by keep_request.
  - destruct (w_busy (sy_wrapper σ)) eqn:Hb; [by keep_request|]. destruct (w_active_session (sy_wrapper σ)); by keep_request.
  - destruct (w_busy (sy_wrapper σ)) eqn:Hb; [by keep_request|]. destruct (w_active_session (sy_wrapper σ)); by keep_request.
  - injection E as <- <- _. eapply one_request_leave; [done|exact Ht|done|by destruct b|].
    pose proof (leave_fields (sy_wrapper σ)) as [= _ _ F _]. exact F.
  - run_inv E as [w1 e] io1 E1. apply freeze_frame in E1 as [[= _ _ F _] _]. destruct e; by keep_request.
  - run_inv E as [w1 e] io1 E1. apply thaw_frame in E1 as [= _ _ F _]. destruct e; by keep_request.
  - by keep_request.
  - by keep_request.
  - run_inv E as [w1 e] io1 E1. apply freeze_frame in E1 as [[= _ _ F _] _]. by keep_request.
  - run_inv E as [w1 e] io1 E1. apply thaw_frame in E1 as [= _ _ F _]. by keep_request.
  - by keep_request.
  - by keep_request.
Qed.

Lemma one_request_step a σ σ' : one_request σ -> exec a σ = Some σ' -> one_request σ'.
Proof.
  intros Hone. destruct a as [tid r|tid sfx|tid o]; cbn [exec].
  - destruct (sy_threads σ !! tid) eqn:Ht; [done|]. intros [= <-]. unfold one_request in *. cbn [sy_wrapper sy_threads].
    destruct (w_busy (sy_wrapper σ)).
    + destruct Hone as (i & u & Hu & Hur & Hall). exists i, u. rewrite lookup_insert_ne by congruence. split; [done|]. split; [done|].
      by apply map_Forall_insert_2.
    + by apply map_Forall_insert_2.
  - intros Hr. apply bind_Some in Hr as (t & Ht & Hr). destruct (thread_step _ _ _ _) as [r io] eqn:E.
    apply bind_Some in Hr as ([w t'] & -> & [= <-]). by eapply one_request_run.
  - intros Hr. apply bind_Some in Hr as (t & Ht & Hr). destruct t as [|m| | | | | | | | |]; try done.
    apply bind_Some in Hr as ([w t'] & E & [= <-]). apply body_frame in E as ([= _ _ F _] & [b ->] & _).
    by eapply one_request_keep.
Qed.

Lemma reached_one_request σ0 σ : one_request σ0 -> reached σ0 σ -> one_request σ.
Proof. intros H0' Hr. induction Hr as [|σ a σ' _ IH He]; [done|]. by eapply one_request_step. Qed.

Lemma started_one_request w io : started w -> one_request (start w io).
Proof using H2.
  intros Hw. destruct (started_safe w io Hw) as [Hp _]. unfold one_request. cbn [start sy_wrapper sy_threads].
  destruct (w_busy w) eqn:Hb; [|apply map_Forall_empty].
  inversion Hp as [σ _ Hb' _|σ i t Hi|σ i t Hi]; subst; cbn in *; [congruence|by rewrite lookup_empty in Hi..].
Qed.

End safe.

(** C18. In every state that threads can reach, in whatever order their sections
    run and whatever calls fail, at most one thread is inside a request, and the
    wrapper is busy exactly then.  If moreover no change of mode, freeze or thaw
    began while another was under way -- which the code leaves to its clients, and
    without which it does not hold ([switch_race]) -- and the agent's sessions are
    no larger than the configured context ([admissible]), then at most one thread
    holds the session: it serves a request or is in an unlocked part of such a move; the
    request is one for the active mode and finds a session; and the state is
    SWITCHING exactly during the unlocked parts, so nobody enters. *)
Theorem wrapper_exclusive `{WrapperEngineLaws} w io σ :
  started w -> reached (start w io) σ ->
  (forall i j t u, sy_threads σ !! i = Some t -> sy_threads σ !! j = Some u -> in_request t = true -> in_request u = true -> i = j) /\
  (w_busy (sy_wrapper σ) = true <-> exists i t, sy_threads σ !! i = Some t /\ in_request t = true) /\
  (forall l conv, run (start w io) no_words l σ conv ->
     (forall i j t u, sy_threads σ !! i = Some t -> sy_threads σ !! j = Some u -> occupied t = true -> occupied u = true -> i = j) /\
     (w_state (sy_wrapper σ) = DS4_WRAP_STATE_SWITCHING <-> exists i t, sy_threads σ !! i = Some t /\ moving t = true) /\
     (forall i m, sy_threads σ !! i = Some (TBody m) -> w_active_mode (sy_wrapper σ) = m /\ is_Some (w_active_session (sy_wrapper σ)))).
Proof.
  intros Hw Hr. pose proof (reached_one_request _ _ (started_one_request w io Hw) Hr) as Hone. unfold one_request in Hone. split_and!.
  - intros i j t u Hi Hj Ht Hu. destruct (w_busy (sy_wrapper σ)).
    + destruct Hone as (k & v & _ & _ & Hall). by rewrite (Hall i t Hi Ht), (Hall j u Hj Hu).
    + specialize (Hone i t Hi). cbn in Hone. congruence.
  - destruct (w_busy (sy_wrapper σ)); split; try done.
    + intros _. destruct Hone as (k & v & Hk & Hv & _). by exists k, v.
    + intros (i & t & Hi & Ht). specialize (Hone i t Hi). cbn in Hone. congruence.
  - intros l conv Hrun. destruct (run_safe _ _ _ _ _ (started_safe w io Hw) Hrun) as [Hp _]. by apply phase_exclusive.
Qed.

(** C6. No conversation is lost, as long as no change of mode, freeze or thaw
    begins while another is under way, and the agent's sessions are no larger than
    the configured context ([admissible]; the code does not enforce the first, and
    two changes of mode at once do lose a conversation, [switch_race_loses]).
    Follow what each mode's conversation is: empty at first, and changed only by
    the requests of that mode.  In every state that threads can so reach, whatever
    calls failed on the way, the conversation of each mode is there once no thread
    holds the session: the session of the active mode has exactly these tokens, and
    where there is no session, or it is the other mode's, a thaw with enough memory
    brings them back. *)
Theorem conversations_kept `{WrapperEngineLaws} w io l σ conv :
  started w -> run (start w io) no_words l σ conv -> all_threads (fun _ t => occupied t = false) σ ->
  let w := sy_wrapper σ in
  forall mode t, conv mode = Some t ->
  (w_active_mode w = mode /\ exists s, w_active_session w = Some s /\ eg_tokens s = Some t) \/
  ((w_active_session w = None \/ w_active_mode w <> mode) /\
   forall io, thawable w io -> exists w' s, ds4_wrapper_thaw_session w mode io = ((w', None), io) /\
     w_active_session w' = Some s /\ eg_tokens s = Some t).
Proof.
  intros Hw Hr Hidle v mode t Ht. destruct (run_safe _ _ _ _ _ (started_safe w io Hw) Hr) as [_ (own & Hown & K)].
  assert (own = w_active_mode v) as ->.
  { eapply owner_active; [done|]. intros i u Hi m ->. by pose proof (Hidle i _ Hi). }
  apply (kp_holds _ _ _ K) in Ht. unfold holds in Ht. fold v in Ht. destruct (w_active_session v) as [s|] eqn:Es.
  - case_bool_decide as Hm; [left; split; [done|by exists s]|]. right. split; [right; congruence|]. intros io0 Hio. by apply thaw_restores.
  - right. split; [by left|]. intros io0 Hio. by apply thaw_restores.
Qed.

(** A change of mode brings the other conversation back.  In every reachable
    state in which no thread holds the session, if the session can be saved within
    the limit and a new one be made, switching succeeds, the target is active, and
    its session has exactly the tokens of its conversation; the one left is kept. *)
Lemma switch_restores `{WrapperEngineLaws} w io l σ conv sfx target t io' :
  started w -> run (start w io) no_words l σ conv -> all_threads (fun _ t => occupied t = false) σ ->
  let w := sy_wrapper σ in
  w_active_mode w <> target -> conv target = Some t -> freezable w -> thawable w io' ->
  exists w' s, ds4_wrapper_switch_mode sfx w target io' = ((w', 0), io') /\
    w_active_mode w' = target /\ w_active_session w' = Some s /\ eg_tokens s = Some t /\
    forall t', conv (w_active_mode w) = Some t' -> frozen (w_configured_ctx_size w') (w_meta w' (w_active_mode w)) t'.
Proof.
  intros Hw Hr Hidle v Hne Ht Hf Htw. destruct (run_safe _ _ _ _ _ (started_safe w io Hw) Hr) as [_ (own & Hown & K)].
  assert (own = w_active_mode v) as ->.
  { eapply owner_active; [done|]. intros i u Hi m ->. by pose proof (Hidle i _ Hi). }
  fold v in K. unfold ds4_wrapper_switch_mode, switch_begin. rewrite bool_decide_eq_false_2 by done.
  set (v1 := set_state DS4_WRAP_STATE_SWITCHING (w_busy v) v).
  assert (K1 : keeps v1 (w_active_mode v1) conv) by (by eapply keeps_same, K).
  destruct (freeze_succeeds sfx v1 io') as [v2 E2]; [done|].
  destruct (freeze_frame _ _ _ _ _ _ E2) as [[= F1 _ _ F4] Hnone]. specialize (Hnone eq_refl).
  pose proof (freeze_keeps _ _ _ _ _ _ _ K1 E2) as K2.
  assert (Hfz : forall m t', conv m = Some t' -> frozen (w_configured_ctx_size v2) (w_meta v2 m) t').
  { intros m t' Hc. apply (kp_holds _ _ _ K2) in Hc. by rewrite holds_none in Hc. }
  destruct (thaw_restores v2 target t io') as (v3 & s & E3 & Hs & Hts); [|by apply Hfz|].
  { unfold thawable. by rewrite F4. }
  pose proof (thaw_keeps _ _ _ _ _ _ _ _ K2 Hnone E3) as K3. apply switch_end_keeps in K3.
  exists (switch_end target v3), s. split_and!; try done.
  - erewrite run_bind by exact E2. cbv beta iota. by erewrite run_bind by exact E3.
  - intros t' Hc. apply (kp_holds _ _ _ K3) in Hc. by apply (holds_other (switch_end target v3) target).
Qed.

(** * A wrapper that runs, and what two changes of mode at once do *)

#[local] Existing Instance demo_engine.

(** The engine of [KvSession]; a snapshot is the payload, counted with a header byte. *)
Definition demo_wrap_session : SessionEngine :=
  @Build_SessionEngine demo_engine (fun s => match demo_stage s with Some p => zlen p + 1 | None => 0 end) demo_stage
    (fun s t => (true, mkDemo t (dm_ctx s) true)) bytes demo_stage (fun p => zlen p + 1) demo_load.

#[local] Existing Instance demo_wrap_session.

Definition demo_wrap_engine : WrapperEngine :=
  @Build_WrapperEngine demo_engine demo_wrap_session (fun ctx => Some (mkDemo [] ctx true)) (fun _ p => p).

#[local] Existing Instance demo_wrap_engine.

#[export] Instance demo_wrap_laws : @WrapperEngineLaws demo_engine demo_wrap_session demo_wrap_engine.
Proof.
  split; cbn.
  - by intros ctx s [= <-].
  - intros s p s' Hs Hc. split; [pose proof (zlen_nonneg p); lia|]. by apply (@eg_load_staged demo_engine _).
  - intros s p. unfold demo_load. by destruct (demo_decode p).
Qed.

(** A wrapper that was started for the server, with 1 MB for frozen sessions. *)
Definition demo_started : ds4_wrapper :=
  (ds4_wrapper_startup_session (ds4_wrapper_init 4096 100 1 DS4_WRAP_MODE_SERVER) DS4_WRAP_MODE_SERVER demo_world).1.1.

Lemma demo_is_started : started demo_started.
Proof. exists 4096, 100, 1, DS4_WRAP_MODE_SERVER, DS4_WRAP_MODE_SERVER, demo_world. eexists. reflexivity. Qed.

(** A completion, a change to the agent, a turn of the agent; a second client is
    turned away meanwhile. *)
Definition demo_actions : list action :=
  [Arrive 1 (RServe DS4_WRAP_MODE_SERVER); Run 1 []; Arrive 2 (RServe DS4_WRAP_MODE_SERVER); Run 2 [];
   Finish 1 (mkOutcome (Some (mkDemo [104; 105] 4096 true)) false false); Run 1 [];
   Arrive 3 (RSwitch DS4_WRAP_MODE_AGENT); Run 3 []; Run 3 []; Run 3 []; Run 3 [];
   Arrive 4 (RServe DS4_WRAP_MODE_AGENT); Run 4 []; Finish 4 (mkOutcome (Some (mkDemo [7] 4096 true)) true false); Run 4 []].

Definition demo_end : system * conversations :=
  default (start demo_started demo_world, no_words) (exec_all demo_actions (start demo_started demo_world) no_words).

Lemma demo_run : run (start demo_started demo_world) no_words demo_actions demo_end.1 demo_end.2.
Proof.
  apply (exec_all_run demo_actions _ _ [] (start demo_started demo_world) no_words); [apply run_nil|].
  assert (Hsome : match exec_all demo_actions (start demo_started demo_world) no_words with Some _ => true | None => false end = true) by (vm_compute; reflexivity).
  unfold demo_end. by destruct (exec_all _ _ _) as [[σ conv]|].
Qed.

Lemma demo_idle : all_threads (fun _ t => occupied t = false) demo_end.1.
Proof.
  assert (Hb : forallb (fun u => negb (occupied u)) (map_to_list (sy_threads demo_end.1)).*2 = true) by (vm_compute; reflexivity).
  intros i u Hu. rewrite forallb_forall in Hb. apply negb_true_iff, Hb, list_elem_of_In, list_elem_of_fmap. exists (i, u). split; [done|].
  by apply elem_of_map_to_list.
Qed.

Lemma wrapper_exclusive_witness :
  w_busy (sy_wrapper demo_end.1) = false /\ sy_threads demo_end.1 !! 2%nat = Some (TDone 409) /\
  ~ exists i t, sy_threads demo_end.1 !! i = Some t /\ in_request t = true.
Proof.
  split; [vm_compute; reflexivity|]. split; [vm_compute; reflexivity|].
  intros Hx. apply (proj1 (proj2 (wrapper_exclusive _ _ _ demo_is_started (run_reached _ _ _ _ _ demo_run)))) in Hx.
  vm_compute in Hx. discriminate.
Defined.

Lemma conversations_kept_witness :
  demo_end.2 DS4_WRAP_MODE_SERVER = Some [104; 105] /\ demo_end.2 DS4_WRAP_MODE_AGENT = Some [7] /\
  (exists s, w_active_session (sy_wrapper demo_end.1) = Some s /\ eg_tokens s = Some [7]) /\
  exists w' s, ds4_wrapper_thaw_session (sy_wrapper demo_end.1) DS4_WRAP_MODE_SERVER demo_world = ((w', None), demo_world) /\
    w_active_session w' = Some s /\ eg_tokens s = Some [104; 105].
Proof.
  pose proof (conversations_kept _ _ _ _ _ demo_is_started demo_run demo_idle) as Hk.
  split; [vm_compute; reflexivity|]. split; [vm_compute; reflexivity|]. split.
  - destruct (Hk DS4_WRAP_MODE_AGENT [7]) as [[_ Hs]|[[Hn|Hn] _]]; [vm_compute; reflexivity|exact Hs|..]; exfalso.
    + vm_compute in Hn. discriminate.
    + apply Hn. vm_compute. reflexivity.
  - destruct (Hk DS4_WRAP_MODE_SERVER [104; 105]) as [[Hn _]|[_ Hs]]; [vm_compute; reflexivity|exfalso; vm_compute in Hn; discriminate|].
    apply Hs. split; [reflexivity|]. eexists. reflexivity.
Defined.

Lemma switch_restores_witness :
  exists w' s, ds4_wrapper_switch_mode [] (sy_wrapper demo_end.1) DS4_WRAP_MODE_SERVER demo_world = ((w', 0), demo_world) /\
    w_active_session w' = Some s /\ eg_tokens s = Some [104; 105].
Proof.
  destruct (switch_restores _ _ _ _ _ [] DS4_WRAP_MODE_SERVER [104; 105] demo_world demo_is_started demo_run demo_idle)
    as (w' & s & E & _ & Hs & Ht & _).
  - vm_compute. discriminate.
  - vm_compute. reflexivity.
  - unfold freezable. replace (w_active_session (sy_wrapper demo_end.1)) with (Some (mkDemo [7] 4096 true)) by (vm_compute; reflexivity).
    split_and!; [vm_compute; reflexivity|vm_compute; reflexivity|vm_compute; discriminate|by eexists].
  - split; [reflexivity|]. by eexists.
  - exists w', s. split; [exact E|]. split; [exact Hs|exact Ht].
Defined.

(** ** Two changes of mode at once

    Without the restriction: two clients ask for the agent while the server is
    active.  Both find the wrapper not busy and the old mode, both pass; the first
    ends and a turn of the agent begins, and then the second replaces the session
    under the running turn. *)
Definition race_actions : list action :=
  [Arrive 1 (RSwitch DS4_WRAP_MODE_AGENT); Arrive 2 (RSwitch DS4_WRAP_MODE_AGENT); Run 1 []; Run 2 []; Run 1 []; Run 2 [];
   Run 1 []; Run 1 []; Arrive 3 (RServe DS4_WRAP_MODE_AGENT); Run 3 []; Run 2 []].

Definition race_threads : gmap nat thread :=
  default ∅ (sy_threads <$> foldl (fun σ a => σ ≫= exec a) (Some (start demo_started demo_world)) race_actions).

Lemma switch_race :
  race_threads !! 3%nat = Some (TBody DS4_WRAP_MODE_AGENT) /\ race_threads !! 2%nat = Some (TSwitchEnd DS4_WRAP_MODE_AGENT).
Proof. split; vm_compute; reflexivity. Qed.

(** The same two clients, but the agent's turn has ended when the second goes on:
    its thaw puts another session in the place of the one with the turn's tokens,
    which nothing keeps, although nobody holds the session in the end. *)
Definition race_lost : list action :=
  [Arrive 1 (RSwitch DS4_WRAP_MODE_AGENT); Arrive 2 (RSwitch DS4_WRAP_MODE_AGENT); Run 1 []; Run 2 []; Run 1 []; Run 2 [];
   Run 1 []; Run 1 []; Arrive 3 (RServe DS4_WRAP_MODE_AGENT); Run 3 [];
   Finish 3 (mkOutcome (Some (mkDemo [7] 4096 true)) false false); Run 3 []; Run 2 []; Run 2 []].

Definition race_end : option (system * conversations) :=
  foldl (fun r a => '(σ, conv) ← r; σ' ← exec a σ; Some (σ', conv_step a σ conv)) (Some (start demo_started demo_world, no_words)) race_lost.

Lemma switch_race_loses :
  match race_end with
  | Some (σ, conv) =>
      conv DS4_WRAP_MODE_AGENT = Some [7] /\
      forallb (fun u => negb (occupied u)) (map_to_list (sy_threads σ)).*2 = true /\
      w_active_mode (sy_wrapper σ) = DS4_WRAP_MODE_AGENT /\
      (s ← w_active_session (sy_wrapper σ); eg_tokens s) <> Some [7]
  | None => False
  end.
Proof. vm_compute. split_and!; done. Qed.
