(* ===== verification/ContextBlob.v ===== *)
(** * ContextBlob: exact originals of compressed tool output (ds4_context_blob.c)

    A blob is a file named by the SHA-256 of its bytes; the tool compressor puts
    the original there before it shortens anything. *)

From S2P Require Import Prelude Ctype Sha Fs.

Definition PATH_MAX : Z := 4096.
Definition BLOB_PATH_LEN : Z := 1024.

(** The failures, by the message they set. *)
Inductive blob_error : Type :=
| BeMissingDir | BeMkdir (dir : bytes) | BeInvalidPath | BePathTooLong | BeDirTooLong
| BeCreate | BeWrite | BeClose | BeInvalidId | BeTooLarge | BeOpen | BeSeek | BeTell | BeRead.

Record blob_ref := mkBlobRef {
  br_id : bytes;
  br_path : bytes;
  br_bytes : Z;
  br_created_at : Z
}.

Definition blob_result (A : Type) : Type := (A + blob_error)%type.

(** [mkdir(tmp) != 0 && errno != EEXIST] *)
Definition blob_mkdir (dir : bytes) : IO (blob_result unit) :=
  let! r := c_mkdir dir in
  ret (match r with MkdirFail => inr (BeMkdir dir) | _ => inl tt end).

Fixpoint ds4_blob_mkdir_p_loop (done_ rest : bytes) : IO (blob_result unit) :=
  match rest with
  | [] => blob_mkdir done_
  | c :: rest' =>
      if c =? slash then
        let! r := blob_mkdir done_ in
        match r with
        | inr e => ret (inr e)
        | inl _ => ds4_blob_mkdir_p_loop (done_ ++ [c]) rest'
        end
      else ds4_blob_mkdir_p_loop (done_ ++ [c]) rest'
  end.

Definition ds4_blob_mkdir_p (path : bytes) : IO (blob_result unit) :=
  match path with
  | [] => ret (inr BeMissingDir)
  | c :: rest => ds4_blob_mkdir_p_loop [c] rest
  end.

(** [snprintf(path, path_len, "%s/sha256/%s.txt", base_dir, hex)] that fits. *)
Definition ds4_blob_join_path (base_dir : option bytes) (hex_ : bytes) (path_len : Z)
  : blob_result bytes :=
  match base_dir with
  | None | Some [] => inr BeInvalidPath
  | Some base =>
      if negb (zlen hex_ =? 64) then inr BeInvalidPath
      else
        let path := base ++ bs "/sha256/" ++ hex_ ++ bs ".txt" in
        if path_len <=? zlen path then inr BePathTooLong else inl path
  end.

Definition BLOB_ID_PREFIX : bytes := bs "sha256:".

Definition ds4_context_blob_id_valid (id : option bytes) : bool :=
  match id with
  | None => false
  | Some id =>
      match strip_prefix BLOB_ID_PREFIX id with
      | None => false
      | Some hex_ => (zlen hex_ =? 64) && forallb is_lower_hex hex_
      end
  end.

(** The loop of [ds4_blob_write_all]; every pass takes at least one byte.  An
    interrupted call is retried at once and is not a step here. *)
Fixpoint ds4_blob_write_all (fuel : nat) (fd : stream) (p : bytes) : IO (bool * stream) :=
  match p with
  | [] => ret (true, fd)
  | _ =>
      match fuel with
      | O => ret (false, fd)
      | S fuel' =>
          let! (wr, fd) := c_write fd p in
          match wr with
          | None | Some O => ret (false, fd)
          | Some n => ds4_blob_write_all fuel' fd (drop n p)
          end
      end
  end.

(** [sha_block] is the uninitialised block of the digest's context. *)
Definition ds4_context_blob_put_text (sha_block : bytes) (base_dir : option bytes) (text : bytes)
  : IO (blob_result blob_ref) :=
  let hex_ := ds4_sha256_hex sha_block text in
  let id := BLOB_ID_PREFIX ++ hex_ in
  let! now := c_time in
  let algo_dir := default [] base_dir ++ bs "/sha256" in
  if PATH_MAX <=? zlen algo_dir then ret (inr BeDirTooLong)
  else
    let! r := ds4_blob_mkdir_p algo_dir in
    match r with
    | inr e => ret (inr e)
    | inl _ =>
        match ds4_blob_join_path base_dir hex_ BLOB_PATH_LEN with
        | inr e => ret (inr e)
        | inl path =>
            let ref := mkBlobRef id path (zlen text) now in
            let! fd := c_open_excl path in
            match fd with
            | OpenExists => ret (inl ref)
            | OpenFail => ret (inr BeCreate)
            | OpenOk fd =>
                let! (ok, fd) := ds4_blob_write_all (length text) fd text in
                let! closed := c_close fd in
                if ok && closed then ret (inl ref)
                else
                  let! _ := c_unlink path in
                  ret (inr (if ok then BeClose else BeWrite))
            end
        end
    end.

Definition ds4_context_blob_read_range (base_dir : option bytes) (id : option bytes)
    (offset length_ : Z) : IO (blob_result bytes) :=
  if negb (ds4_context_blob_id_valid id) then ret (inr BeInvalidId)
  else if SIZE_MAX - 1 <? length_ then ret (inr BeTooLarge)
  else
    match ds4_blob_join_path base_dir (drop 7 (default [] id)) PATH_MAX with
    | inr e => ret (inr e)
    | inl path =>
        let! fp := c_fopen_rb path in
        match fp with
        | None => ret (inr BeOpen)
        | Some fp =>
            let! f := next_fault in                      (* fseeko to the end *)
            match f with
            | Some _ => let! _ := c_fclose fp in ret (inr BeSeek)
            | None =>
                let! fs := get_files in
                let end_ := zlen (default [] (fs !! path)) in
                if (end_ <=? offset) || (length_ =? 0) then let! _ := c_fclose fp in ret (inl [])
                else
                  let length_ := if end_ - offset <? length_ then end_ - offset else length_ in
                  if INT64_MAX <? offset then let! _ := c_fclose fp in ret (inr BeSeek)
                  else
                    let! (ok, fp) := c_fseek fp offset in
                    if negb ok then let! _ := c_fclose fp in ret (inr BeSeek)
                    else
                      let! (buf, fp) := c_fread fp (Z.to_nat length_) in
                      if negb (zlen buf =? length_) then let! _ := c_fclose fp in ret (inr BeRead)
                      else let! _ := c_fclose fp in ret (inl buf)
            end
        end
    end.

(** ** Storing *)

(** While a fresh blob is written its file holds a prefix of the text; nothing
    else changes. *)
Definition blob_states (old : files) (path text : bytes) (fs : files) : Prop :=
  (forall q, q <> path -> fs !! q = old !! q) /\
  (fs !! path = old !! path \/ (old !! path = None /\ exists k, fs !! path = Some (take k text))).

Definition blob_path (base text : bytes) : bytes :=
  base ++ bs "/sha256/" ++ sha256_hex text ++ bs ".txt".

Lemma keeps_blob_mkdir_loop I done_ rest : keeps I (ds4_blob_mkdir_p_loop done_ rest).
Proof.
  revert done_. induction rest as [|c rest IH]; intros done_; cbn [ds4_blob_mkdir_p_loop].
  - unfold blob_mkdir. keeps_tac.
  - destruct (c =? slash); [|apply IH]. unfold blob_mkdir. keeps_tac; apply IH.
Qed.

Lemma blob_mkdir_files d w r w' : blob_mkdir d w = (r, w') -> w_files w' = w_files w.
Proof. unfold blob_mkdir. intros H. run_inv H as m w1 E1. apply mkdir_files in E1. by injection H as <- <-. Qed.

Lemma blob_mkdir_loop_files done_ rest w r w' :
  ds4_blob_mkdir_p_loop done_ rest w = (r, w') -> w_files w' = w_files w.
Proof.
  revert done_ w. induction rest as [|c rest IH]; intros done_ w; cbn [ds4_blob_mkdir_p_loop].
  - apply blob_mkdir_files.
  - destruct (c =? slash); [|apply IH]. intros H. run_inv H as m w1 E1. apply blob_mkdir_files in E1.
    destruct m; [apply IH in H; congruence | by injection H as <- <-].
Qed.

Lemma file_write_app (a b : bytes) : file_write_at a (length a) b = a ++ b.
Proof.
  unfold file_write_at. rewrite firstn_all, Nat.sub_diag, drop_ge by lia. cbn. by rewrite app_nil_r.
Qed.

(** The writing loop: a prefix of the text at every step, all of it at the end. *)
Lemma blob_write_all_spec old path text fuel p fd w ok fd' w' base :
  st_path fd = path -> old !! path = None -> since base (blob_states old path text) w ->
  (exists pre, text = pre ++ p /\ w_files w !! path = Some pre /\ st_pos fd = length pre) ->
  (length p <= fuel)%nat ->
  ds4_blob_write_all fuel fd p w = ((ok, fd'), w') ->
  since base (blob_states old path text) w' /\ (ok = true -> w_files w' !! path = Some text).
Proof.
  intros Hp Ho. revert fd p w Hp. induction fuel as [|fuel IH]; intros fd p w Hp Hw (pre & Et & Hc & Hpos) Hf H.
  - destruct p; [|cbn in Hf; lia]. injection H as <- <- <-. by rewrite app_nil_r in Et; subst.
  - destruct p as [|x p]; [injection H as <- <- <-; by rewrite app_nil_r in Et; subst|].
    cbn [ds4_blob_write_all] in H. run_inv H as [wr fd1] w1 E1.
    assert (Hc' : w_files w !! st_path fd = Some pre) by (by rewrite Hp).
    pose proof (write_inv _ _ _ _ _ _ _ E1 Hc') as [Ep1 Hr].
    assert (Hw1 : since base (blob_states old path text) w1 /\
      forall n, wr = Some n -> w_files w1 !! path = Some (pre ++ take n (x :: p))).
    { unfold c_write in E1. run_inv E1 as f w2 E2.
      pose proof (keeps_run _ _ _ _ _ base (keeps_next_fault _) E2 Hw) as Hw2.
      pose proof (fault_files _ _ _ E2) as Ef2.
      assert (Hgen : forall out u w3, st_commit fd out w2 = (u, w3) -> out `prefix_of` (x :: p) ->
        since base (blob_states old path text) w3).
      { intros out u w3 E3 Hout. destruct Hw2 as (new & Hh & HF). pose proof HF as HF0.
        apply Forall_cons_iff in HF0 as [[Hq _] _].
        unfold st_commit in E3. destruct out as [|y out]; [injection E3 as <- <-; by exists new|].
        injection E3 as <- <-. exists (w_files w2 :: new). cbn. split; [by rewrite Hh|].
        constructor; [|done]. rewrite Hp, Ef2, Hc, Hpos, file_write_app. rewrite Ef2 in Hq. split.
        - intros q Hne. rewrite lookup_insert_ne by done. by apply Hq.
        - right. split; [done|]. exists (length (pre ++ y :: out)). rewrite lookup_insert_eq.
          f_equal. destruct Hout as [k Hk]. rewrite Et, Hk, app_assoc. by rewrite take_app_length. }
      split.
      - destruct f as [[|k]|]; [injection E1 as <- <- <-; done| |];
          run_inv E1 as u w3 E3; injection E1 as <- <- <-; (eapply Hgen; [exact E3|]);
          [apply prefix_take | done].
      - intros n ->. destruct Hr as (_ & _ & _ & Hf1). rewrite (Hf1 ltac:(done)), Hp, lookup_insert_eq, Hpos.
        by rewrite file_write_app. }
    destruct Hw1 as [Hw1 Hc1]. destruct wr as [[|n]|]; [by injection H as <- <- <-| |by injection H as <- <- <-].
    destruct Hr as (Hn & Hpos1 & _ & _). eapply IH; [| |..|exact H]; try done; [congruence| |].
    + exists (pre ++ take (S n) (x :: p)). rewrite <- app_assoc, take_drop. split_and!; [done|auto|].
      rewrite Hpos1, Hpos, length_app, length_take. lia.
    + rewrite length_drop. cbn [length] in *. lia.
Qed.

Lemma blob_join_path_inv base hex_ n path :
  ds4_blob_join_path base hex_ n = inl path ->
  exists b, base = Some b /\ b <> [] /\ path = b ++ bs "/sha256/" ++ hex_ ++ bs ".txt".
Proof.
  unfold ds4_blob_join_path. destruct base as [[|x b]|]; [done| |done].
  destruct (negb _); [done|]. destruct (_ <=? _); [done|]. intros [= <-]. by exists (x :: b).
Qed.

Lemma blob_put_facts sha_block base text w :
  length sha_block = 64%nat ->
  let '(r, w') := ds4_context_blob_put_text sha_block base text w in
  let path := blob_path (default [] base) text in
  since (w_hist w) (blob_states (w_files w) path text) w' /\
  (forall ref, r = inl ref ->
     br_id ref = BLOB_ID_PREFIX ++ sha256_hex text /\ br_path ref = path /\ br_bytes ref = zlen text /\
     w_files w' !! path = match w_files w !! path with Some c => Some c | None => Some text end).
Proof.
  intros Hsb. destruct (ds4_context_blob_put_text sha_block base text w) as [r w'] eqn:H.
  set (path := blob_path (default [] base) text). set (I := blob_states (w_files w) path text).
  assert (Hw : since (w_hist w) I w) by (apply since_start; split; [done|by left]).
  unfold ds4_context_blob_put_text in H.
  assert (Ehex : ds4_sha256_hex sha_block text = sha256_hex text) by (by apply sha256_hex_spec).
  rewrite Ehex in H.
  run_inv H as now w1 E1. pose proof (keeps_run _ _ _ _ _ _ (keeps_time I) E1 Hw) as Hw1.
  assert (Ef1 : w_files w1 = w_files w).
  { unfold c_time in E1. by destruct (w_ticks w); injection E1 as <- <-. }
  destruct (PATH_MAX <=? _); [by injection H as <- <-|].
  run_inv H as mk w2 E2.
  assert (H2 : since (w_hist w) I w2 /\ w_files w2 = w_files w).
  { unfold ds4_blob_mkdir_p in E2. destruct (_ ++ _) as [|c rest]; [by injection E2 as <- <-|].
    split; [exact (keeps_run _ _ _ _ _ _ (keeps_blob_mkdir_loop I _ _) E2 Hw1)|].
    apply blob_mkdir_loop_files in E2. congruence. }
  destruct H2 as [Hw2 Ef2]. destruct mk as [u|e]; [|by injection H as <- <-].
  destruct (ds4_blob_join_path base (sha256_hex text) BLOB_PATH_LEN) as [p|e] eqn:Ej; [|by injection H as <- <-].
  apply blob_join_path_inv in Ej as (b & -> & _ & ->). change (b ++ bs "/sha256/" ++ sha256_hex text ++ bs ".txt") with path in H.
  run_inv H as fd w3 E3. pose proof (open_excl_inv _ _ _ _ E3) as Hopen.
  assert (Hw3 : since (w_hist w) I w3).
  { eapply keeps_run; [|exact E3|exact Hw2]. apply keeps_open_excl. intros fs [Hq Hp] Hnone. split.
    - intros q Hne. rewrite lookup_insert_ne by done. by apply Hq.
    - right. split; [destruct Hp as [Hp|[Hp _]]; congruence|]. exists 0%nat. by rewrite lookup_insert_eq, take_0. }
  destruct fd as [fd| |].
  - destruct Hopen as (-> & Hnone & Ef3). rewrite Ef2 in Hnone, Ef3.
    run_inv H as [ok fd4] w4 E4.
    destruct (blob_write_all_spec (w_files w) path text (length text) text (mkStream path 0 []) w3 ok fd4 w4 (w_hist w)
      eq_refl Hnone Hw3) as [Hw4 Hok]; [|lia|exact E4|].
    { exists []. split_and!; [done| |done]. rewrite Ef3. apply lookup_insert_eq. }
    run_inv H as closed w5 E5. pose proof (keeps_run _ _ _ _ _ _ (keeps_close I fd4) E5 Hw4) as Hw5.
    assert (Ef5 : w_files w5 = w_files w4).
    { unfold c_close in E5. run_inv E5 as f w6 E6. apply fault_files in E6. by injection E5 as <- <-. }
    destruct (ok && closed) eqn:Hoc.
    + injection H as <- <-. split; [done|]. intros ref [= <-]. cbn [br_id br_path br_bytes]. split_and!; [done..|].
      apply andb_true_iff in Hoc as [Hok' _]. by rewrite Ef5, Hnone, Hok.
    + run_inv H as un w6 E6. injection H as <- <-. split; [|by destruct ok].
      eapply keeps_run; [|exact E6|exact Hw5]. apply keeps_unlink. intros fs [Hq _]. split.
      * intros q Hne. rewrite lookup_delete_ne by done. by apply Hq.
      * left. by rewrite lookup_delete_eq.
  - injection H as <- <-. destruct Hopen as [[c Hc] Ef3]. split; [done|]. intros ref [= <-].
    cbn [br_id br_path br_bytes]. split_and!; [done..|]. rewrite Ef2 in Hc, Ef3. by rewrite Ef3, Hc.
  - by injection H as <- <-.
Qed.

Lemma blob_put_text_inv sha_block base text w ref w1 :
  length sha_block = 64%nat ->
  ds4_context_blob_put_text sha_block (Some base) text w = (inl ref, w1) ->
  br_id ref = BLOB_ID_PREFIX ++ sha256_hex text /\
  w_files w1 !! blob_path base text =
    match w_files w !! blob_path base text with Some c => Some c | None => Some text end.
Proof.
  intros Hsb H. pose proof (blob_put_facts sha_block (Some base) text w Hsb) as Hp. rewrite H in Hp.
  destruct Hp as [_ Hr]. destruct (Hr ref eq_refl) as (Hid & _ & _ & Hc). done.
Qed.

(** C34. Storing a blob, whichever calls fail: under every name other than the
    blob's nothing changes, and the blob's file holds what it did or, if it is
    new, a prefix of the text, in every state on the way; a returned reference
    names the SHA-256 of the text, and the file is the exact text unless one of
    that name was already there; on an error no reference is returned. *)
Theorem blob_put_safe sha_block base text w :
  length sha_block = 64%nat ->
  let '(r, w') := ds4_context_blob_put_text sha_block base text w in
  let path := blob_path (default [] base) text in
  since (w_hist w) (blob_states (w_files w) path text) w' /\
  (forall ref, r = inl ref ->
     br_id ref = BLOB_ID_PREFIX ++ sha256_hex text /\ br_path ref = path /\ br_bytes ref = zlen text /\
     w_files w' !! path = match w_files w !! path with Some c => Some c | None => Some text end).
Proof. apply blob_put_facts. Qed.

Definition blob_example : world := mkWorld ∅ [] ∅ [None; None; None; Some 2%nat] 7 [] (fun l => l).

Lemma blob_put_safe_witness :
  length (replicate 64 0) = 64%nat /\
  let '(r, w') := ds4_context_blob_put_text (replicate 64 0) (Some (bs "/b")) (bs "hello") blob_example in
  let path := blob_path (default [] (Some (bs "/b"))) (bs "hello") in
  since (w_hist blob_example) (blob_states (w_files blob_example) path (bs "hello")) w' /\
  (forall ref, r = inl ref ->
     br_id ref = BLOB_ID_PREFIX ++ sha256_hex (bs "hello") /\ br_path ref = path /\
     br_bytes ref = zlen (bs "hello") /\
     w_files w' !! path = match w_files blob_example !! path with
                          | Some c => Some c | None => Some (bs "hello") end).
Proof.
  split; [reflexivity|].
  apply (blob_put_safe (replicate 64 0) (Some (bs "/b")) (bs "hello") blob_example). reflexivity.
Defined.

(** With a short write in the middle the blob is still complete. *)
Example blob_put_run :
  let '(r, w') := ds4_context_blob_put_text (replicate 64 0) (Some (bs "/b")) (bs "hello") blob_example in
  w_files w' !! blob_path (bs "/b") (bs "hello") = Some (bs "hello") /\ length (w_hist w') = 3%nat.
Proof. vm_compute. done. Qed.

(** ** Reading back *)

(** The bytes of [c] from [offset] on, at most [n] of them. *)
Definition range (c : bytes) (offset n : Z) : bytes := take (Z.to_nat n) (drop (Z.to_nat offset) c).

Lemma id_valid_strip id :
  ds4_context_blob_id_valid (Some id) = true -> id = BLOB_ID_PREFIX ++ drop 7 id.
Proof.
  unfold ds4_context_blob_id_valid. destruct (strip_prefix BLOB_ID_PREFIX id) as [h|] eqn:E; [|done].
  apply strip_prefix_sound in E as ->. intros _. by rewrite drop_app_length'.
Qed.

Lemma read_range_inv base id offset n w r w' :
  0 <= offset -> 0 <= n ->
  ds4_context_blob_read_range base id offset n w = (r, w') ->
  w_files w' = w_files w /\
  forall b, r = inl b ->
    exists base' id', base = Some base' /\ id = Some id' /\ ds4_context_blob_id_valid id = true /\
      exists c, w_files w !! (base' ++ bs "/sha256/" ++ drop 7 id' ++ bs ".txt") = Some c /\
        b = range c offset n.
Proof.
  intros Ho Hn. unfold ds4_context_blob_read_range. intros H.
  destruct (ds4_context_blob_id_valid id) eqn:Hv; cbn [negb] in H; [|by injection H as <- <-].
  destruct (SIZE_MAX - 1 <? n); [by injection H as <- <-|].
  destruct id as [id0|]; [|done]. change (default [] (Some id0)) with id0 in H.
  destruct (ds4_blob_join_path base (drop 7 id0) PATH_MAX) as [path|] eqn:Ej; [|by injection H as <- <-].
  apply blob_join_path_inv in Ej as (base' & -> & _ & Epath).
  run_inv H as fp w1 E1. apply fopen_rb_inv in E1 as [Ef1 Hfp].
  destruct fp as [fp|]; [|by injection H as <- <-]. destruct (Hfp fp eq_refl) as [-> [c Hc]].
  run_inv H as f w2 E2. apply fault_files in E2. assert (Ef2 : w_files w2 = w_files w) by congruence.
  assert (Hdone : forall st w0 b0 w3, c_fclose st w0 = (b0, w3) -> st_buf st = [] ->
            w_files w0 = w_files w -> w_files w3 = w_files w).
  { intros st w0 b0 w3 E Hb Hw0. apply fclose_clean_files in E; [congruence|done]. }
  destruct f.
  { run_inv H as b3 w3 E3. injection H as <- <-. split; [by eapply Hdone|done]. }
  run_inv H as fs w3 E3. injection E3 as <- <-. rewrite Ef2, Hc in H. cbn [default from_option id] in H.
  destruct ((zlen c <=? offset) || (n =? 0)) eqn:Hemp.
  { run_inv H as b4 w4 E4. injection H as <- <-. split; [by eapply Hdone|].
    intros b [= <-]. exists base', id0. split_and!; [done..|]. exists c. rewrite <- Epath. split; [done|].
    unfold range. apply orb_true_iff in Hemp as [Hl|Hz]; bool_props.
    - rewrite drop_ge by zlen_lia. by destruct (Z.to_nat n).
    - rewrite Hz. by rewrite take_0. }
  set (len := if zlen c - offset <? n then zlen c - offset else n) in H.
  destruct (INT64_MAX <? offset).
  { run_inv H as b4 w4 E4. injection H as <- <-. split; [by eapply Hdone|done]. }
  run_inv H as [ok st] w4 E4. apply fseek_inv in E4 as (Ep4 & Eb4 & Epos & Hf4). specialize (Hf4 eq_refl).
  assert (Ef4 : w_files w4 = w_files w) by congruence.
  destruct ok; cbn [negb] in H.
  2: { run_inv H as b5 w5 E5. injection H as <- <-. split; [by eapply Hdone|done]. }
  run_inv H as [buf st5] w5 E5. pose proof (fread_inv _ _ _ _ _ _ E5) as (Ef5 & _ & Eb5 & _).
  pose proof (fread_full _ _ _ _ _ _ E5) as Hfull. rewrite Eb4 in Eb5.
  assert (Ef5' : w_files w5 = w_files w) by congruence.
  destruct (Z.eqb_spec (zlen buf) len) as [Hlen|]; cbn [negb] in H;
    run_inv H as b6 w6 E6; injection H as <- <-; (split; [by eapply Hdone|]); [|done].
  intros b [= <-]. exists base', id0. split_and!; [done..|]. exists c. rewrite <- Epath. split; [done|].
  destruct Hfull as [-> _]; [unfold zlen in Hlen; lia|].
  rewrite (Epos eq_refl), Ep4, Ef4. cbn [st_path]. rewrite Hc. cbn [default from_option id].
  unfold range, len in *. bool_props. destruct (Z.ltb_spec (zlen c - offset) n); [|done].
  rewrite !take_ge; [done| |]; rewrite length_drop; unfold zlen in *; lia.
Qed.

Lemma blob_id_valid text : ds4_context_blob_id_valid (Some (BLOB_ID_PREFIX ++ sha256_hex text)) = true.
Proof.
  unfold ds4_context_blob_id_valid. destruct (sha256_hex_shape text) as [Hl Hh].
  change (strip_prefix BLOB_ID_PREFIX (BLOB_ID_PREFIX ++ sha256_hex text)) with (Some (sha256_hex text)).
  cbv beta iota. by rewrite Hl, Hh.
Qed.

(** The arguments a read accepts. *)
Definition read_ok (base text : bytes) (offset n : Z) : Prop :=
  base <> [] /\ zlen (blob_path base text) < PATH_MAX /\ 0 <= offset <= INT64_MAX /\ 0 <= n < SIZE_MAX.

(** When nothing fails the read returns. *)
Lemma read_range_quiet base text offset n w :
  quiet w -> read_ok base text offset n -> w_files w !! blob_path base text = Some text ->
  ds4_context_blob_read_range (Some base) (Some (BLOB_ID_PREFIX ++ sha256_hex text)) offset n w
  = (inl (range text offset n), w).
Proof.
  intros Hq (Hne & Hpl & Ho & Hn) Hc. unfold ds4_context_blob_read_range. rewrite blob_id_valid. cbn [negb].
  rewrite (proj2 (Z.ltb_ge _ _)) by lia. cbn [default from_option id].
  change (drop 7 (BLOB_ID_PREFIX ++ sha256_hex text)) with (sha256_hex text).
  assert (Ej : ds4_blob_join_path (Some base) (sha256_hex text) PATH_MAX = inl (blob_path base text)).
  { unfold ds4_blob_join_path. destruct base as [|x base]; [done|].
    destruct (sha256_hex_shape text) as [-> _]. rewrite Z.eqb_refl. cbn [negb].
    fold (blob_path (x :: base) text). by rewrite (proj2 (Z.leb_gt _ _)). }
  rewrite Ej. cbv beta iota. set (path := blob_path base text) in *.
  erewrite run_bind by (by rewrite run_fopen_rb, Hc).
  cbv beta iota. erewrite run_bind by (by apply run_fault). cbv beta iota. erewrite run_bind by reflexivity.
  rewrite Hc. cbn [default from_option id].
  set (r := range text offset n).
  destruct ((zlen text <=? offset) || (n =? 0)) eqn:He.
  { erewrite run_bind by (by apply run_fclose_clean). unfold ret, r, range.
    apply orb_true_iff in He as [Hl|Hz]; bool_props.
    - rewrite drop_ge by zlen_lia. by rewrite take_nil.
    - by rewrite Hz. }
  bool_props. rewrite (proj2 (Z.ltb_ge INT64_MAX offset)) by lia.
  set (len := if zlen text - offset <? n then _ else n).
  assert (Hseek : c_fseek (mkStream path 0 []) offset w = ((true, mkStream path (Z.to_nat offset) []), w)).
  { by apply run_fseek_clean. }
  erewrite run_bind by exact Hseek. cbv beta iota. cbn [negb].
  erewrite run_bind by (apply run_fread; [done|exact Hc]). cbv beta iota zeta. cbn [st_pos st_path st_buf].
  assert (Er : take (Z.to_nat len) (drop (Z.to_nat offset) text) = r).
  { unfold r, range, len. destruct (Z.ltb_spec (zlen text - offset) n); [|done].
    rewrite !take_ge; [done| |]; rewrite length_drop; unfold zlen in *; lia. }
  assert (Hlen : (zlen r =? len) = true).
  { rewrite <- Er. apply Z.eqb_eq. rewrite zlen_take, zlen_drop. unfold len.
    destruct (Z.ltb_spec (zlen text - offset) n); lia. }
  rewrite Er, Hlen. cbn [negb]. by erewrite run_bind by (by apply run_fclose_clean).
Qed.

Lemma roundtrip_of_put base text id w1 w2 offset n :
  id = BLOB_ID_PREFIX ++ sha256_hex text -> w_files w1 !! blob_path base text = Some text ->
  w_files w2 = w_files w1 -> 0 <= offset -> 0 <= n ->
  let '(r, w3) := ds4_context_blob_read_range (Some base) (Some id) offset n w2 in
  w_files w3 = w_files w1 /\ (forall b, r = inl b -> b = range text offset n) /\
  (quiet w2 -> read_ok base text offset n -> r = inl (range text offset n)).
Proof.
  intros -> Hc Ef2 Ho Hn.
  destruct (ds4_context_blob_read_range _ _ _ _ w2) as [r w3] eqn:Hr.
  pose proof Hr as Hr2. apply read_range_inv in Hr2 as [Ef3 Hb]; [|done..]. split; [congruence|].
  split; [|intros Hq Hok; rewrite read_range_quiet in Hr by (rewrite ?Ef2; done); by injection Hr].
  intros b Eb. destruct (Hb b Eb) as (base' & id' & [= <-] & [= <-] & _ & c & Hc' & ->).
  change (w_files w2 !! blob_path base text = Some c) in Hc'. congruence.
Qed.

(** What was stored comes back exactly: if a blob was stored successfully
    under a free name, then any later read of its id that succeeds on those
    files, whichever calls fail in either operation, returns precisely the
    requested range of the original text; and when no call fails, an accepted
    read does succeed. *)
Lemma blob_roundtrip sha_block base text ref w w1 offset n w2 :
  length sha_block = 64%nat ->
  w_files w !! blob_path base text = None ->
  ds4_context_blob_put_text sha_block (Some base) text w = (inl ref, w1) ->
  w_files w2 = w_files w1 -> 0 <= offset -> 0 <= n ->
  let '(r, w3) := ds4_context_blob_read_range (Some base) (Some (br_id ref)) offset n w2 in
  w_files w3 = w_files w1 /\ (forall b, r = inl b -> b = range text offset n) /\
  (quiet w2 -> read_ok base text offset n -> r = inl (range text offset n)).
Proof.
  intros Hsb Hfree Hput Ef2 Ho Hn.
  destruct (blob_put_text_inv sha_block base text w ref w1 Hsb Hput) as (Hid & Hc). rewrite Hfree in Hc.
  by apply roundtrip_of_put.
Qed.

Definition blob_ref_example : blob_ref :=
  mkBlobRef (BLOB_ID_PREFIX ++ sha256_hex (bs "hello")) (blob_path (bs "/b") (bs "hello")) 5 7.

Definition blob_w1 : world :=
  (ds4_context_blob_put_text (replicate 64 0) (Some (bs "/b")) (bs "hello") blob_example).2.

Lemma blob_example_ref :
  (ds4_context_blob_put_text (replicate 64 0) (Some (bs "/b")) (bs "hello") blob_example).1
  = inl blob_ref_example.
Proof. vm_compute. reflexivity. Qed.

Lemma blob_example_put :
  ds4_context_blob_put_text (replicate 64 0) (Some (bs "/b")) (bs "hello") blob_example
  = (inl blob_ref_example, blob_w1).
Proof.
  unfold blob_w1. pose proof blob_example_ref as H.
  destruct (ds4_context_blob_put_text _ _ _ _) as [r w1]. cbn [fst] in H. by rewrite H.
Qed.

Lemma blob_roundtrip_witness :
  ds4_context_blob_put_text (replicate 64 0) (Some (bs "/b")) (bs "hello") blob_example
  = (inl blob_ref_example, blob_w1) /\
  let '(r, w3) := ds4_context_blob_read_range (Some (bs "/b")) (Some (br_id blob_ref_example)) 1 3 blob_w1 in
  w_files w3 = w_files blob_w1 /\ (forall b, r = inl b -> b = range (bs "hello") 1 3) /\
  (quiet blob_w1 -> read_ok (bs "/b") (bs "hello") 1 3 -> r = inl (range (bs "hello") 1 3)).
Proof.
  split; [exact blob_example_put|].
  apply (blob_roundtrip (replicate 64 0) (bs "/b") (bs "hello") blob_ref_example blob_example blob_w1 1 3 blob_w1
    eq_refl (lookup_empty (blob_path (bs "/b") (bs "hello"))) blob_example_put eq_refl); lia.
Defined.

Example blob_roundtrip_run :
  (ds4_context_blob_read_range (Some (bs "/b")) (Some (br_id blob_ref_example)) 1 3 blob_w1).1
  = inl (bs "ell").
Proof. vm_compute. reflexivity. Qed.

(** A name that already exists is trusted: after a crash in the middle of a first
    store, a second one reports success over the truncated file. *)
Example blob_put_trusts_existing :
  let path := blob_path (bs "/b") (bs "hello") in
  let w := mkWorld {[path := bs "he"]} [] ∅ [] 7 [] (fun l => l) in
  let '(r, w') := ds4_context_blob_put_text (replicate 64 0) (Some (bs "/b")) (bs "hello") w in
  (match r with inl _ => true | inr _ => false end, w_files w' !! path) = (true, Some (bs "he")).
Proof. vm_compute. reflexivity. Qed.
