(* ===== verification/TcLines.v ===== *)
(** * TcLines: the buffer of the tool compressor, and its lines (ds4_tool_compress.c)

    The private buffer grows from 1024 bytes and reports a failed allocation instead of ending
    the process; to its clients it is another [GrowBuf]. *)

From S2P Require Import Prelude DynBuf Ctype.

Record ds4_tc_buf := mkTcBuf {
  tb_ptr : option block;
  tb_len : Z;
  tb_cap : Z
}.

Definition tc_buf_zero : ds4_tc_buf := mkTcBuf None 0 0.

(** No object is larger than this; [realloc] of more fails. *)
Definition PTRDIFF_MAX : Z := INT64_MAX.

(** [while (cap < need) ...]: [cap] of at least one byte doubles, so 64 passes
    reach any [size_t]. *)
Fixpoint tc_grow (fuel : nat) (cap need : Z) : Z :=
  match fuel with
  | O => cap
  | S fuel' =>
      if cap <? need then
        if SIZE_MAX / 2 <? cap then need else tc_grow fuel' (cap * 2) need
      else cap
  end.

Definition ds4_tc_buf_reserve (mem : Z -> bool) (b : ds4_tc_buf) (add : Z) : option ds4_tc_buf :=
  if SIZE_MAX - tb_len b - 1 <? add then None
  else
    let need := tb_len b + add + 1 in
    if need <=? tb_cap b then Some b
    else
      let cap := if tb_cap b =? 0 then 1024 else u64 (tb_cap b * 2) in
      let cap := tc_grow 64 cap need in
      if mem cap && (cap <=? PTRDIFF_MAX)
      then Some (mkTcBuf (Some (c_realloc (tb_ptr b) cap)) (tb_len b) cap) else None.

Definition ds4_tc_buf_append (mem : Z -> bool) (b : ds4_tc_buf) (s : bytes) : option ds4_tc_buf :=
  match s with
  | [] => Some b
  | _ =>
      b ← ds4_tc_buf_reserve mem b (zlen s);
      let blk := block_write (default [] (tb_ptr b)) (tb_len b) s in
      let len := tb_len b + zlen s in
      Some (mkTcBuf (Some (block_write blk len [0])) len (tb_cap b))
  end.

(** [s] is a C string. *)
Definition ds4_tc_buf_puts (mem : Z -> bool) (b : ds4_tc_buf) (s : bytes) : option ds4_tc_buf :=
  ds4_tc_buf_append mem b (cstr s).

(** [formatted] is what the conversion produces, [None] for a negative count. *)
Definition ds4_tc_buf_printf (mem : Z -> bool) (b : ds4_tc_buf) (formatted : option bytes)
  : option ds4_tc_buf :=
  s ← formatted;
  b ← ds4_tc_buf_reserve mem b (zlen s);
  Some (mkTcBuf (Some (c_vsnprintf (default [] (tb_ptr b)) (tb_len b) (tb_cap b - tb_len b) s))
                (tb_len b + zlen s) (tb_cap b)).

(** The string and the cleared buffer; [mem 1] decides about an empty one. *)
Definition ds4_tc_buf_take (mem : Z -> bool) (b : ds4_tc_buf) : option (block * ds4_tc_buf) :=
  match tb_ptr b with
  | None => if mem 1 then Some ([Some 0], tc_buf_zero) else None
  | Some p => Some (p, tc_buf_zero)
  end.

Definition tc_rep (b : ds4_tc_buf) (s : bytes) : Prop :=
  tb_len b = zlen s /\
  match tb_ptr b with
  | None => tb_cap b = 0 /\ s = []
  | Some blk => zlen blk = tb_cap b /\ 1024 <= tb_cap b <= PTRDIFF_MAX /\ zlen s < tb_cap b /\
                take (length s) blk = Some <$> s
  end.

Lemma tc_grow_ge fuel cap need :
  1 <= cap -> need <= SIZE_MAX -> 2 ^ 64 <= cap * 2 ^ Z.of_nat fuel ->
  need <= tc_grow fuel cap need /\ cap <= tc_grow fuel cap need.
Proof.
  revert cap. induction fuel as [|fuel IH]; intros cap Hc Hn Hf; cbn [tc_grow].
  - change (Z.of_nat 0) with 0 in Hf. unfold SIZE_MAX, UINT64_MAX in Hn. lia.
  - destruct (Z.ltb_spec cap need); [|lia].
    destruct (Z.ltb_spec (SIZE_MAX / 2) cap); [lia|].
    rewrite Nat2Z.inj_succ, Z.pow_succ_r in Hf by lia.
    destruct (IH (cap * 2)); lia.
Qed.

Lemma tc_reserve_spec mem b s add b' :
  tc_rep b s -> 0 <= add -> ds4_tc_buf_reserve mem b add = Some b' ->
  tc_rep b' s /\ zlen s + add + 1 <= tb_cap b' /\ exists blk, tb_ptr b' = Some blk.
Proof.
  intros (Hlen & Hrep) Hadd. unfold ds4_tc_buf_reserve. rewrite Hlen.
  pose proof (zlen_nonneg s) as Hs0.
  destruct (Z.ltb_spec (SIZE_MAX - zlen s - 1) add) as [|Hov]; [done|].
  destruct (Z.leb_spec (zlen s + add + 1) (tb_cap b)) as [Hfit|Hfit].
  { intros [= <-]. destruct (tb_ptr b) as [blk|] eqn:Hp; [|zlen_lia].
    split_and!; [by split; [|rewrite Hp] | done | eauto]. }
  set (cap0 := if tb_cap b =? 0 then 1024 else u64 (tb_cap b * 2)).
  assert (Hold : zlen (default [] (tb_ptr b)) = tb_cap b /\
                 take (length s) (default [] (tb_ptr b)) = Some <$> s /\
                 (tb_cap b = 0 \/ 1024 <= tb_cap b <= PTRDIFF_MAX)).
  { destruct (tb_ptr b); cbn; [tauto|]. destruct Hrep as [-> ->]. by auto. }
  destruct Hold as (Hzl & Htk & Hsh).
  assert (Hcap0 : 1 <= cap0 /\ tb_cap b <= cap0).
  { subst cap0. destruct (Z.eqb_spec (tb_cap b) 0); [lia|]. destruct Hsh as [|Hsh]; [lia|].
    unfold u64. rewrite wrap_small; [lia|]. unfold in_u, PTRDIFF_MAX, INT64_MAX in *. lia. }
  destruct (tc_grow_ge 64 cap0 (zlen s + add + 1)) as [Hg Hg2]; [lia|lia| |].
  { change (Z.of_nat 64) with 64. lia. }
  set (cap := tc_grow 64 cap0 _) in *.
  destruct (mem cap && (cap <=? PTRDIFF_MAX)) eqn:Hm; [|done]. intros [= <-]. bool_props.
  destruct (c_realloc_spec (tb_ptr b) cap s) as [Hl1 Ht1]; [lia|lia|done|].
  cbn [tb_ptr tb_cap]. split_and!; [|lia|eauto]. split; [done|]. cbn [tb_ptr tb_cap].
  split_and!; try done; try lia.
  subst cap0. destruct (Z.eqb_spec (tb_cap b) 0); [|lia]. lia.
Qed.

Lemma tc_append_spec mem b s data b' :
  tc_rep b s -> ds4_tc_buf_append mem b data = Some b' -> tc_rep b' (s ++ data).
Proof.
  intros Hr. unfold ds4_tc_buf_append. destruct data as [|x data]; [intros [= <-]; by rewrite app_nil_r|].
  set (d := x :: data). intros H. apply bind_Some in H as (b1 & E1 & H). injection H as <-.
  destruct (tc_reserve_spec _ _ _ _ _ Hr (zlen_nonneg d) E1) as ((Hl & Hrep) & Hfit & blk & Hp).
  rewrite Hp in *. cbn [default from_option id]. destruct Hrep as (Hz & Hc & Hlt & Htk).
  rewrite Hl in *.
  assert (Hw : zlen (block_write blk (zlen s) d) = zlen blk) by (apply length_block_write; zlen_lia).
  rewrite <- zlen_app. split; [done|]. cbn [tb_ptr tb_cap]. split_and!; try lia.
  - rewrite length_block_write; zlen_lia.
  - zlen_lia.
  - apply block_write_keep; [apply block_write_app; [done|lia] | zlen_lia].
Qed.

(** Formatted text of at least one byte is appended like any other. *)
Lemma tc_printf_append mem b s0 s :
  tc_rep b s0 -> s <> [] -> ds4_tc_buf_printf mem b (Some s) = ds4_tc_buf_append mem b s.
Proof.
  intros Hr Hne. unfold ds4_tc_buf_printf, ds4_tc_buf_append. cbn [mbind option_bind].
  destruct s as [|x s']; [done|]. set (s := x :: s') in *.
  destruct (ds4_tc_buf_reserve mem b (zlen s)) as [b1|] eqn:E1; [|done]. cbn [mbind option_bind].
  destruct (tc_reserve_spec _ _ _ _ _ Hr (zlen_nonneg s) E1) as ((Hl & Hrep) & Hfit & blk & Hp).
  rewrite Hp in *. destruct Hrep as (Hz & Hc & Hlt & _). cbn [default from_option id].
  unfold c_vsnprintf. destruct (Z.eqb_spec (tb_cap b1 - tb_len b1) 0); [zlen_lia|].
  rewrite take_ge by zlen_lia. rewrite block_write_app2; [done|zlen_lia|zlen_lia].
Qed.

(** With an allocator that may refuse; the instance is the one that never does. *)
Definition GrowBuf_tc_mem (mem : Z -> bool) : GrowBuf ds4_tc_buf := {|
  gb_empty := tc_buf_zero;
  gb_holds := tc_rep;
  gb_len := tb_len;
  gb_bytes b := block_bytes (tb_ptr b) (tb_len b);
  gb_append := ds4_tc_buf_append mem
|}.

Lemma GrowBufLaws_tc_mem mem : @GrowBufLaws ds4_tc_buf (GrowBuf_tc_mem mem).
Proof.
  split; cbn.
  - by split.
  - intros b s data b'. apply tc_append_spec.
  - by intros b s [? _].
  - intros b s [Hl H]. rewrite Hl. destruct (tb_ptr b) as [blk|].
    + apply block_bytes_holds, H.
    + destruct H as [_ ->]. done.
Qed.

#[export] Instance GrowBuf_tc : GrowBuf ds4_tc_buf := GrowBuf_tc_mem (fun _ => true).

#[export] Instance GrowBufLaws_tc : GrowBufLaws ds4_tc_buf := GrowBufLaws_tc_mem _.

(** * Lines and classification of tool output (ds4_tool_compress.c)

    A text is the list of its bytes; in memory a NUL follows it.  Offsets are the
    indices of that list. *)

Definition DS4_TOOL_COMPRESS_MIN_BYTES : Z := 4096.
Definition DS4_TOOL_COMPRESS_HUGE_BYTES : Z := 32768.
Definition DS4_TOOL_COMPRESS_MAX_INLINE_BYTES : Z := 12000.

Record ds4_tc_line := mkTcLine {
  ln_start : nat;
  ln_content_end : nat;
  ln_end : nat
}.

Record ds4_tc_lines := mkTcLines {
  lns_v : list ds4_tc_line;
  lns_cap : Z
}.

Definition ds4_tc_lines_zero : ds4_tc_lines := mkTcLines [] 0.

(** [sizeof(ds4_tc_line)]; [mem n]: an allocation of [n] bytes succeeds. *)
Definition SIZEOF_TC_LINE : Z := 24.

Definition ds4_tc_lines_push (mem : Z -> bool) (lines : ds4_tc_lines) (line : ds4_tc_line)
  : option ds4_tc_lines :=
  if zlen (lns_v lines) =? lns_cap lines then
    let cap := if lns_cap lines =? 0 then 256 else u64 (lns_cap lines * 2) in
    if mem (u64 (cap * SIZEOF_TC_LINE)) then Some (mkTcLines (lns_v lines ++ [line]) cap) else None
  else Some (mkTcLines (lns_v lines ++ [line]) (lns_cap lines)).

Definition is_eol (c : Z) : bool := (c =? 10) || (c =? 13).

(** One pass of the loop: the line that starts at [pos < len]. *)
Definition tc_line_at (text : bytes) (pos : nat) : ds4_tc_line :=
  let content_end := (pos + span_len (fun c => negb (is_eol c)) (drop pos text))%nat in
  let e :=
    if (content_end <? length text)%nat then
      if bool_decide (text !! content_end = Some 13) && bool_decide (text !! S content_end = Some 10)
      then (content_end + 2)%nat else S content_end
    else content_end in
  mkTcLine pos content_end e.

Fixpoint ds4_tc_split_loop (fuel : nat) (mem : Z -> bool) (text : bytes) (pos : nat)
    (lines : ds4_tc_lines) : option ds4_tc_lines :=
  match fuel with
  | O => Some lines
  | S fuel' =>
      if (pos <? length text)%nat then
        let line := tc_line_at text pos in
        lines ← ds4_tc_lines_push mem lines line;
        ds4_tc_split_loop fuel' mem text (ln_end line) lines
      else Some lines
  end.

(** Every pass consumes a byte. *)
Definition ds4_tc_split_lines (mem : Z -> bool) (text : bytes) : option (list ds4_tc_line) :=
  lns_v <$> ds4_tc_split_loop (length text) mem text 0 ds4_tc_lines_zero.

(** The bytes of a line, without and with its end-of-line. *)
Definition line_content (text : bytes) (l : ds4_tc_line) : bytes :=
  take (ln_content_end l - ln_start l) (drop (ln_start l) text).

Definition line_text (text : bytes) (l : ds4_tc_line) : bytes :=
  take (ln_end l - ln_start l) (drop (ln_start l) text).

Definition ds4_tc_line_starts_with (text : bytes) (l : ds4_tc_line) (prefix : bytes) : bool :=
  starts_with prefix (line_content text l).

(** The inner loop: the needle at the front, up to case. *)
Fixpoint starts_with_ci (needle text : bytes) : bool :=
  match needle, text with
  | [], _ => true
  | b :: needle', a :: text' => (tolower a =? tolower b) && starts_with_ci needle' text'
  | _ :: _, [] => false
  end.

Fixpoint contains_ci_loop (needle text : bytes) : bool :=
  starts_with_ci needle text ||
  match text with
  | [] => false
  | _ :: text' => contains_ci_loop needle text'
  end.

Definition ds4_tc_line_contains_ci (text : bytes) (l : ds4_tc_line) (needle : bytes) : bool :=
  let content := line_content text l in
  if (zlen needle =? 0) || (zlen content <? zlen needle) then false
  else contains_ci_loop needle content.

Definition important_needles : list bytes :=
  [bs "error"; bs "fatal"; bs "failed"; bs "traceback"; bs "panic"; bs "exception";
   bs "warning"; bs "undefined reference"; bs "segmentation fault"; bs "todo"; bs "fail"].

Definition ds4_tc_line_important (text : bytes) (l : ds4_tc_line) : bool :=
  existsb (ds4_tc_line_contains_ci text l) important_needles.

(** The offset of the first byte that is no space. *)
Definition ds4_tc_first_nonspace (text : bytes) : nat := span_len isspace text.

Definition ds4_tc_count_substring (text needle : bytes) : Z :=
  if (zlen needle =? 0) || (zlen text <? zlen needle) then 0 else count_sub needle text.

Definition byte_is (s : bytes) (i : nat) (c : Z) : bool := bool_decide (s !! i = Some c).

Definition is_blank (c : Z) : bool := (c =? 32) || (c =? 9).

Definition ds4_tc_looks_grep_line (p : bytes) : bool :=
  let n := length p in
  if (n =? 0)%nat || byte_is p 0 32 || byte_is p 0 9 then false
  else
    let i := span_len (fun c => negb (c =? ch ":") && negb (is_eol c)) p in
    if (i =? 0)%nat || (n <=? i + 2)%nat || negb (byte_is p i (ch ":")) then false
    else
      let i := S i in
      let digits := span_len isdigit (drop i p) in
      let i := (i + digits)%nat in
      (0 <? digits)%nat && (i <? n)%nat && byte_is p i (ch ":").

Definition ds4_tc_looks_numbered_match_line (p : bytes) : bool :=
  let n := length p in
  let i := span_len is_blank p in
  let digits := span_len isdigit (drop i p) in
  let i := (i + digits)%nat in
  (0 <? digits)%nat && (i <? n)%nat && (byte_is p i 32 || byte_is p i 9).

Inductive ds4_tool_content_kind : Type :=
| DS4_TOOL_CONTENT_UNKNOWN
| DS4_TOOL_CONTENT_SEARCH
| DS4_TOOL_CONTENT_LOG
| DS4_TOOL_CONTENT_JSON_ARRAY
| DS4_TOOL_CONTENT_DIFF
| DS4_TOOL_CONTENT_FILE
| DS4_TOOL_CONTENT_TRACE.

#[export] Instance kind_eq_dec : EqDecision ds4_tool_content_kind.
Proof. solve_decision. Defined.

Definition ds4_tool_content_kind_name (kind : ds4_tool_content_kind) : bytes :=
  match kind with
  | DS4_TOOL_CONTENT_SEARCH => bs "search"
  | DS4_TOOL_CONTENT_LOG => bs "log"
  | DS4_TOOL_CONTENT_JSON_ARRAY => bs "json_array"
  | DS4_TOOL_CONTENT_DIFF => bs "diff"
  | DS4_TOOL_CONTENT_FILE => bs "file"
  | DS4_TOOL_CONTENT_TRACE => bs "trace"
  | DS4_TOOL_CONTENT_UNKNOWN => bs "unknown"
  end.

(** [tool_name && !strcmp(tool_name, s)] for one of the names. *)
Definition tool_in (tool_name : option bytes) (names : list string) : bool :=
  match tool_name with
  | None => false
  | Some t => existsb (fun s => bytes_eqb t (bs s)) names
  end.

(** The lines like grep output and like numbered matches among the first 300; a
    failed allocation leaves none. *)
Definition tc_match_counts (mem : Z -> bool) (text : bytes) : nat * nat :=
  let lines := take 300 (default [] (ds4_tc_split_lines mem text)) in
  (length (List.filter (fun l => ds4_tc_looks_grep_line (line_content text l)) lines),
   length (List.filter (fun l => ds4_tc_looks_numbered_match_line (line_content text l)) lines)).

Definition ds4_tool_classify_output (mem : Z -> bool) (tool_name : option bytes) (text : bytes)
  : ds4_tool_content_kind :=
  let str := cstr text in
  if tool_in tool_name ["retrieve_context_blob"%string] then DS4_TOOL_CONTENT_UNKNOWN
  else if tool_in tool_name ["read"; "more"; "cat"; "crawl"]%string then DS4_TOOL_CONTENT_FILE
  else
    let p := drop (ds4_tc_first_nonspace text) text in
    if starts_with (bs "diff --git") p || contains (10 :: bs "diff --git ") str
       || (2 <=? ds4_tc_count_substring text (10 :: bs "@@ "))
    then DS4_TOOL_CONTENT_DIFF
    else if byte_is p 0 (ch "[") && contains (bs "{") (cstr p)
            && (DS4_TOOL_COMPRESS_MIN_BYTES <? zlen text)
    then DS4_TOOL_CONTENT_JSON_ARRAY
    else
      let is_search := tool_in tool_name ["search"%string] in
      let searched :=
        if is_search || contains (bs "matches shown" ++ [10]) str
           || (20 <? ds4_tc_count_substring text (bs ":"))
        then
          let '(grepish, numbered) := tc_match_counts mem text in
          (8 <=? grepish)%nat || (8 <=? numbered)%nat || is_search
        else false in
      if searched then DS4_TOOL_CONTENT_SEARCH
      else if existsb (fun s => contains (bs s) str)
                ["Traceback"; "FAILED"; "panic"; "error:"; "warning:"; "Exception";
                 "undefined reference"]%string
      then DS4_TOOL_CONTENT_LOG
      else if tool_in tool_name ["bash"; "bash_status"; "bash_stop"]%string
      then DS4_TOOL_CONTENT_LOG
      else if (contains (bs "Tool result") str
               && (contains (bs "(read)") str || contains (bs "(more)") str))
              || contains (bs "continue_offset=") str || contains (bs "[Read truncated") str
      then DS4_TOOL_CONTENT_FILE
      else DS4_TOOL_CONTENT_UNKNOWN.

(** ** The lines partition the text *)

(** [chain pos lines e]: the lines lie end to end from [pos] to [e]. *)
Fixpoint chain (pos : nat) (lines : list ds4_tc_line) (e : nat) : Prop :=
  match lines with
  | [] => pos = e
  | l :: ls => ln_start l = pos /\ (pos <= ln_content_end l <= ln_end l)%nat /\
               (pos < ln_end l)%nat /\ chain (ln_end l) ls e
  end.

Lemma chain_snoc pos lines e l :
  chain pos lines e -> ln_start l = e -> (e <= ln_content_end l <= ln_end l)%nat -> (e < ln_end l)%nat ->
  chain pos (lines ++ [l]) (ln_end l).
Proof.
  revert pos. induction lines as [|x xs IH]; intros pos; cbn.
  - intros -> <- ? ?. done.
  - intros (? & ? & ? & Hc) ? ? ?. split_and!; try done; try lia. by apply IH.
Qed.

Lemma tc_line_at_props text pos :
  (pos < length text)%nat ->
  let l := tc_line_at text pos in
  ln_start l = pos /\ (pos <= ln_content_end l <= ln_end l)%nat /\ (pos < ln_end l)%nat /\
  (ln_end l <= length text)%nat.
Proof.
  intros Hp l. subst l. unfold tc_line_at. cbn [ln_start ln_content_end ln_end].
  pose proof (span_len_le (fun c => negb (is_eol c)) (drop pos text)) as Hs. rewrite length_drop in Hs.
  destruct (Nat.ltb_spec (pos + span_len (fun c => negb (is_eol c)) (drop pos text)) (length text)).
  - destruct (bool_decide (_ !! _ = Some 13) && bool_decide (_ !! _ = Some 10)) eqn:E.
    + bool_props. repeat match goal with H : _ !! _ = Some _ |- _ => apply lookup_lt_Some in H end. lia.
    + lia.
  - lia.
Qed.

Lemma split_loop_chain fuel mem text pos lines r :
  chain 0 (lns_v lines) pos -> (pos <= length text)%nat -> (length text <= pos + fuel)%nat ->
  ds4_tc_split_loop fuel mem text pos lines = Some r -> chain 0 (lns_v r) (length text).
Proof.
  revert pos lines. induction fuel as [|fuel IH]; intros pos lines Hc Hp Hf; cbn [ds4_tc_split_loop].
  - intros [= <-]. by replace (length text) with pos by lia.
  - destruct (Nat.ltb_spec pos (length text)) as [Hlt|]; [|intros [= <-]; by replace (length text) with pos by lia].
    destruct (tc_line_at_props text pos Hlt) as (H1 & H2 & H3 & H4).
    unfold ds4_tc_lines_push. intros H. apply bind_Some in H as (lines' & E & H).
    eapply IH; [| | |exact H]; [|lia|lia].
    destruct (_ =? _) in E; [destruct (mem _) in E; [|done]|]; injection E as <-; cbn [lns_v];
      by apply chain_snoc with (e := pos).
Qed.

Lemma split_lines_chain mem text lines :
  ds4_tc_split_lines mem text = Some lines -> chain 0 lines (length text).
Proof.
  unfold ds4_tc_split_lines. intros H. apply fmap_Some in H as (r & E & ->).
  eapply split_loop_chain; [| | |exact E]; [done|lia|lia].
Qed.

Lemma chain_concat text pos lines e :
  chain pos lines e -> (e <= length text)%nat ->
  concat (line_text text <$> lines) = take (e - pos) (drop pos text) /\ (pos <= e)%nat.
Proof.
  revert pos. induction lines as [|l ls IH]; intros pos; cbn.
  - intros -> _. by rewrite Nat.sub_diag.
  - intros (<- & ? & ? & Hc) He. destruct (IH _ Hc He) as [-> Hle]. split; [|lia].
    unfold line_text. set (a := ln_start l) in *. set (b := ln_end l) in *.
    replace (drop b text) with (drop (b - a) (drop a text)) by (rewrite drop_drop; f_equal; lia).
    rewrite <- (take_drop (b - a) (take (e - a) (drop a text))).
    rewrite take_take. f_equal; [f_equal; lia|].
    rewrite skipn_firstn_comm. f_equal. lia.
Qed.

Lemma split_lines_concat mem text lines :
  ds4_tc_split_lines mem text = Some lines -> concat (line_text text <$> lines) = text.
Proof.
  intros H. apply split_lines_chain in H.
  destruct (chain_concat text 0 lines (length text) H) as [-> _]; [done|].
  rewrite drop_0, Nat.sub_0_r. by apply take_ge.
Qed.

(** With memory the loop returns. *)
Lemma split_loop_total fuel text pos lines :
  exists r, ds4_tc_split_loop fuel (fun _ => true) text pos lines = Some r.
Proof.
  revert pos lines. induction fuel as [|fuel IH]; intros pos lines; cbn [ds4_tc_split_loop]; [eauto|].
  destruct (_ <? _)%nat; [|eauto]. unfold ds4_tc_lines_push.
  destruct (zlen (lns_v lines) =? lns_cap lines); cbn; apply IH.
Qed.

(** One line: its content has no end-of-line byte and is followed by a whole
    end-of-line, or ends the text. *)
Definition line_ok (text : bytes) (l : ds4_tc_line) : Prop :=
  exists eol, line_text text l = line_content text l ++ eol /\
    Forall (fun c => is_eol c = false) (line_content text l) /\
    (eol = [10] \/ eol = [13; 10] \/ (eol = [13] /\ text !! ln_end l <> Some 10) \/
     (eol = [] /\ ln_end l = length text)).

Lemma take_lookup_2 {A} (l : list A) x y :
  l !! 0%nat = Some x -> l !! 1%nat = Some y -> take 2 l = [x; y].
Proof. intros ??. destruct l as [|a [|b l]]; by simplify_eq/=. Qed.

Lemma take_lookup_1 {A} (l : list A) x : l !! 0%nat = Some x -> take 1 l = [x].
Proof. intros ?. destruct l; by simplify_eq/=. Qed.

Lemma tc_line_at_ok text pos : (pos < length text)%nat -> line_ok text (tc_line_at text pos).
Proof.
  intros Hp. destruct (tc_line_at_props text pos Hp) as (_ & Hce & _ & He).
  unfold line_ok, line_text, line_content. unfold tc_line_at in *. cbn [ln_start ln_content_end ln_end] in *.
  set (f := fun c => negb (is_eol c)) in *. set (n := span_len f (drop pos text)) in *.
  assert (Hstop : forall c, text !! (pos + n)%nat = Some c -> c = 10 \/ c = 13).
  { intros c Hc. rewrite <- lookup_drop in Hc. apply span_len_stop in Hc. unfold f, is_eol in Hc.
    apply negb_false_iff, orb_true_iff in Hc. rewrite !Z.eqb_eq in Hc. done. }
  assert (Hfree : Forall (fun c => is_eol c = false) (take n (drop pos text))).
  { eapply Forall_impl; [|apply span_len_forall]. intros c Hc. by apply negb_true_iff in Hc. }
  replace (pos + n - pos)%nat with n by lia. exists (drop n (take
    ((if (pos + n <? length text)%nat then if bool_decide (text !! (pos + n)%nat = Some 13) &&
       bool_decide (text !! S (pos + n) = Some 10) then (pos + n + 2)%nat else S (pos + n) else (pos + n)%nat) - pos)
    (drop pos text))).
  assert (Hsplit : forall k, (n <= k)%nat ->
    take k (drop pos text) = take n (drop pos text) ++ drop n (take k (drop pos text))).
  { intros k Hk. rewrite <- (take_drop n (take k _)) at 1. by rewrite take_take, Nat.min_l by lia. }
  split; [apply Hsplit; lia|]. split; [done|].
  destruct (Nat.ltb_spec (pos + n) (length text)) as [Hlt|Hge].
  - destruct (lookup_lt_is_Some_2 text (pos + n) Hlt) as [c Hc].
    assert (Hd : forall i, drop n (drop pos text) !! i = text !! (pos + n + i)%nat)
      by (intros i; rewrite drop_drop, lookup_drop; done).
    rewrite skipn_firstn_comm.
    case_bool_decide as H13; [case_bool_decide as H10|]; cbn [andb].
    + right; left. replace (pos + n + 2 - pos - n)%nat with 2%nat by lia.
      apply take_lookup_2; rewrite Hd; [by rewrite Nat.add_0_r|by rewrite Nat.add_1_r].
    + right; right; left. replace (S (pos + n) - pos - n)%nat with 1%nat by lia.
      split; [apply take_lookup_1; rewrite Hd; by rewrite Nat.add_0_r | done].
    + left. replace (S (pos + n) - pos - n)%nat with 1%nat by lia.
      apply take_lookup_1. rewrite Hd, Nat.add_0_r, Hc. destruct (Hstop c Hc) as [->| ->]; done.
  - right; right; right. split; [|lia].
    apply nil_length_inv. rewrite length_drop, length_take, length_drop. lia.
Qed.

Lemma split_loop_ok fuel mem text pos lines r :
  Forall (line_ok text) (lns_v lines) ->
  ds4_tc_split_loop fuel mem text pos lines = Some r -> Forall (line_ok text) (lns_v r).
Proof.
  revert pos lines. induction fuel as [|fuel IH]; intros pos lines Hl; cbn [ds4_tc_split_loop].
  - by intros [= <-].
  - destruct (Nat.ltb_spec pos (length text)) as [Hlt|]; [|by intros [= <-]].
    unfold ds4_tc_lines_push. intros H. apply bind_Some in H as (lines' & E & H).
    eapply IH; [|exact H].
    destruct (_ =? _) in E; [destruct (mem _) in E; [|done]|]; injection E as <-; cbn [lns_v];
      (apply Forall_app; split; [done|]; constructor; [by apply tc_line_at_ok|done]).
Qed.

Lemma split_loop_none fuel mem text pos lines :
  ds4_tc_split_loop fuel mem text pos lines = None -> exists n, mem n = false.
Proof.
  revert pos lines. induction fuel as [|fuel IH]; intros pos lines; cbn [ds4_tc_split_loop]; [done|].
  destruct (_ <? _)%nat; [|done]. unfold ds4_tc_lines_push.
  destruct (_ =? _); [|cbn; apply IH].
  destruct (mem _) eqn:Em; cbn; [apply IH|eauto].
Qed.

(** Splitting: the pieces put end to end are the text, byte for byte; each
    piece is a content without CR or LF followed by one whole end-of-line (LF,
    CR LF, or a CR that no LF follows), which only the last line may lack.  The
    loop gives up only when an allocation fails. *)
Lemma split_lines_correct mem text :
  match ds4_tc_split_lines mem text with
  | Some lines => concat (line_text text <$> lines) = text /\ Forall (line_ok text) lines /\
                  chain 0 lines (length text)
  | None => exists n, mem n = false
  end.
Proof.
  destruct (ds4_tc_split_lines mem text) as [lines|] eqn:E.
  - split; [by eapply split_lines_concat|]. split; [|by eapply split_lines_chain].
    unfold ds4_tc_split_lines in E. apply fmap_Some in E as (r & E & ->).
    eapply split_loop_ok; [|exact E]. constructor.
  - unfold ds4_tc_split_lines in E. apply fmap_None in E. by eapply split_loop_none.
Qed.

Example split_lines_run :
  let text := bs "ab" ++ [13; 10; 10] ++ bs "c" ++ [13] ++ bs "d" in
  option_map (map (line_content text)) (ds4_tc_split_lines (fun _ => true) text)
  = Some [bs "ab"; []; bs "c"; bs "d"].
Proof. vm_compute. reflexivity. Qed.

Example grep_lines :
  map ds4_tc_looks_grep_line [bs "a.c:12: x"; bs "a.c:12:"; bs " a.c:12: x"; bs "a.c:x: y"]
  = [true; true; false; false].
Proof. vm_compute. reflexivity. Qed.
