(* ===== verification/TcCompress.v ===== *)
(** * TcCompress: the lossy compressors of tool output (ds4_tool_compress.c)

    Written against [GrowBuf]; [mem] decides the other allocations.  A candidate
    without text is one that ran out of memory.  Counters of type [int] stay below
    the number of lines of the text. *)

From S2P Require Import Prelude Ctype DynBuf TcLines.

Record ds4_tc_candidate := mkCandidate {
  cd_text : option bytes;
  cd_omitted_lines : Z;
  cd_strategy : bytes
}.

Definition nl : bytes := [10].

(** A line of a header: the text and its newline. *)
Definition bl (s : string) : bytes := bs s ++ nl.
Arguments bl s%_string_scope.

Definition nat_dec (n : nat) : bytes := dec (Z.of_nat n).

Definition count_true (show : list bool) : nat := length (List.filter id show).

(** [lines.len > shown ? (uint64_t)(lines.len - shown) : 0] *)
Definition omitted_of (n shown : nat) : Z := if (shown <? n)%nat then Z.of_nat (n - shown) else 0.

Section Compressors.
  Context {B : Type} `{GrowBuf B}.

Definition ds4_tc_append_line (b : B) (text : bytes) (l : ds4_tc_line) : option B :=
  gb_append b (line_text text l).

(** ** Logs *)

(** The marks of the first [head] lines and those from [tail_start] on. *)
Definition log_marks (n : nat) : list bool :=
  let head := Nat.min n 40 in
  let tail_start := if (80 <? n)%nat then (n - 80)%nat else O in
  map (fun i => (i <? head)%nat || (tail_start <=? i)%nat) (seq 0 n).

Fixpoint log_important (text : bytes) (lines : list ds4_tc_line) (show : list bool) (added : nat)
  : list bool :=
  match lines, show with
  | l :: lines', s :: show' =>
      if (added <? 200)%nat then
        if ds4_tc_line_important text l
        then true :: log_important text lines' show' (if s then added else S added)
        else s :: log_important text lines' show' added
      else show
  | _, _ => show
  end.

Definition log_header (n shown : nat) (omitted : Z) : bytes :=
  bl "[log output compressed]" ++ bs "original_lines: " ++ nat_dec n ++ nl ++
  bs "shown_lines: " ++ nat_dec shown ++ nl ++ bs "omitted_lines: " ++ dec omitted ++ nl ++ nl ++
  bl "important/head/tail lines:".

(** The output loop from line [i] on: the buffer and the omitted lines. *)
Fixpoint log_emit (text : bytes) (shown : nat) (lines : list ds4_tc_line) (show : list bool)
    (i : nat) (b : B) (omitted : Z) : option (B * Z) :=
  match lines, show with
  | l :: lines', s :: show' =>
      if negb s then log_emit text shown lines' show' (S i) b omitted
      else if DS4_TOOL_COMPRESS_MAX_INLINE_BYTES <? gb_len b
      then Some (b, u64 (omitted + u64 (Z.of_nat shown - Z.of_nat i)))
      else
        b ← ds4_tc_append_line b text l;
        log_emit text shown lines' show' (S i) b omitted
  | _, _ => Some (b, omitted)
  end.

Definition ds4_tc_compress_log (mem : Z -> bool) (text : bytes) : ds4_tc_candidate :=
  let strategy := bs "log_compressor" in
  match ds4_tc_split_lines mem text with
  | None => mkCandidate None 0 strategy
  | Some lines =>
      let n := length lines in
      if negb (mem (Z.max 1 (Z.of_nat n))) then mkCandidate None 0 strategy
      else
        let show := log_important text lines (log_marks n) 0 in
        let shown := count_true show in
        let omitted := omitted_of n shown in
        match (b ← gb_append gb_empty (log_header n shown omitted);
               log_emit text shown lines show 0 b omitted) with
        | Some (b, omitted) => mkCandidate (Some (gb_bytes b)) omitted strategy
        | None => mkCandidate None omitted strategy
        end
  end.

(** ** Search results *)

(** The 192 bytes of a name hold 191 and a NUL. *)
Record ds4_tc_file_stat := mkStat {
  fs_name : bytes;
  fs_total : Z;
  fs_shown : Z
}.

Definition NAME_MAX_BYTES : nat := 191.
Definition STATS_MAX : nat := 96.

Fixpoint find_file_loop (stats : list ds4_tc_file_stat) (name : bytes) (i : nat) : option nat :=
  match stats with
  | [] => None
  | s :: stats' => if bytes_eqb (cstr (fs_name s)) name then Some i else find_file_loop stats' name (S i)
  end.

Definition ds4_tc_find_file (stats : list ds4_tc_file_stat) (name : bytes) : option nat :=
  find_file_loop stats (take NAME_MAX_BYTES name) 0.

Definition new_stat (name : bytes) : ds4_tc_file_stat := mkStat (take NAME_MAX_BYTES name) 0 0.

(** [stats], [current_file] with its length, and the mark of each line seen. *)
Record search_state := mkSearch {
  ss_stats : list ds4_tc_file_stat;
  ss_current : option bytes;
  ss_show : list bool
}.

(** A header line of the search tool: the file of the lines below it. *)
Definition search_file_line (st : search_state) (content : bytes) : search_state :=
  let stats := ss_stats st in
  let stats :=
    if (length stats <? STATS_MAX)%nat && bool_decide (ds4_tc_find_file stats content = None)
    then stats ++ [new_stat content] else stats in
  mkSearch stats (Some content) (ss_show st ++ [true]).

(** A match in [file_name], if there is one. *)
Definition search_match_line (st : search_state) (text : bytes) (l : ds4_tc_line)
    (file_name : option bytes) : search_state :=
  let stats := ss_stats st in
  let si := f ← file_name; ds4_tc_find_file stats f in
  let '(stats, si) :=
    match si with
    | Some i => (stats, Some i)
    | None =>
        if (length stats <? STATS_MAX)%nat
        then (stats ++ [new_stat (default [] file_name)], Some (length stats))
        else (stats, None)
    end in
  let important := ds4_tc_line_important text l in
  match si with
  | Some i =>
      let s := default (new_stat []) (stats !! i) in
      let s := mkStat (fs_name s) (fs_total s + 1) (fs_shown s) in
      let show := (fs_shown s <? 5) || important in
      let s := if show then mkStat (fs_name s) (fs_total s) (fs_shown s + 1) else s in
      mkSearch (<[i := s]> stats) (ss_current st) (ss_show st ++ [show])
  | None => mkSearch stats (ss_current st) (ss_show st ++ [important])
  end.

(** The body of the loop; [strstr(lp, ...)] looks to the end of the text. *)
Definition search_line (text : bytes) (st : search_state) (l : ds4_tc_line) : search_state :=
  let lp := drop (ln_start l) text in
  let content := line_content text l in
  if (length content =? 0)%nat then mkSearch (ss_stats st) (ss_current st) (ss_show st ++ [false])
  else if ds4_tc_looks_grep_line content then
    search_match_line st text l (Some (take (span_len (fun c => negb (c =? ch ":")) content) content))
  else if ds4_tc_looks_numbered_match_line content && bool_decide (is_Some (ss_current st)) then
    search_match_line st text l (ss_current st)
  else if negb (byte_is content 0 32) && negb (byte_is content 0 9) &&
          negb (contains (bs "matches shown") (cstr lp))
  then search_file_line st content
  else mkSearch (ss_stats st) (ss_current st) (ss_show st ++ [false]).

Definition search_scan (text : bytes) (lines : list ds4_tc_line) : search_state :=
  fold_left (search_line text) lines (mkSearch [] None []).

Definition search_header (n shown : nat) (omitted : Z) : bytes :=
  bl "[search output compressed]" ++ bs "original_lines: " ++ nat_dec n ++ nl ++
  bs "shown_lines: " ++ nat_dec shown ++ nl ++ bs "omitted_lines: " ++ dec omitted ++ nl ++
  bl "matches_by_file:".

Definition stat_line (s : ds4_tc_file_stat) : bytes :=
  bs "- " ++ cstr (fs_name s) ++ bs ": " ++ dec_int (fs_total s) ++ bs " matches, shown " ++
  dec_int (fs_shown s) ++ nl.

Fixpoint search_stats_emit (stats : list ds4_tc_file_stat) (b : B) : option B :=
  match stats with
  | [] => Some b
  | s :: stats' =>
      match cstr (fs_name s) with
      | [] => search_stats_emit stats' b
      | _ => b ← gb_append b (stat_line s); search_stats_emit stats' b
      end
  end.

(** The marked lines, until the buffer is over the limit. *)
Fixpoint tc_emit_shown (text : bytes) (lines : list ds4_tc_line) (show : list bool) (b : B) : option B :=
  match lines, show with
  | l :: lines', s :: show' =>
      if negb s then tc_emit_shown text lines' show' b
      else if DS4_TOOL_COMPRESS_MAX_INLINE_BYTES <? gb_len b then Some b
      else b ← ds4_tc_append_line b text l; tc_emit_shown text lines' show' b
  | _, _ => Some b
  end.

Definition ds4_tc_compress_search (mem : Z -> bool) (text : bytes) : ds4_tc_candidate :=
  let strategy := bs "search_compressor" in
  match ds4_tc_split_lines mem text with
  | None => mkCandidate None 0 strategy
  | Some lines =>
      let n := length lines in
      if negb (mem (Z.max 1 (Z.of_nat n))) then mkCandidate None 0 strategy
      else
        let st := search_scan text lines in
        let shown := count_true (ss_show st) in
        let omitted := omitted_of n shown in
        mkCandidate
          (gb_bytes <$>
            (b ← gb_append gb_empty (search_header n shown omitted);
             b ← search_stats_emit (ss_stats st) b;
             b ← gb_append b (nl ++ bl "Top matches:");
             tc_emit_shown text lines (ss_show st) b))
          omitted strategy
  end.

(** ** Diffs *)

Record diff_state := mkDiff {
  ds_files : nat;
  ds_plus : nat;
  ds_minus : nat;
  ds_shown : nat;
  ds_body : B
}.

Definition diff_count (text : bytes) (st : diff_state) (l : ds4_tc_line) : option diff_state :=
  let starts s := ds4_tc_line_starts_with text l (bs s) in
  let content := line_content text l in
  let '(mkDiff files plus minus shown body) := st in
  if starts "diff --git"%string then Some (mkDiff (S files) plus minus shown body)
  else if starts "@@ "%string then Some st
  else if starts "+++ "%string || starts "--- "%string then Some st
  else if byte_is content 0 (ch "+") && negb (starts "+++"%string)
  then Some (mkDiff files (S plus) minus shown body)
  else if byte_is content 0 (ch "-") && negb (starts "---"%string)
  then Some (mkDiff files plus (S minus) shown body)
  else None.

Definition diff_line (text : bytes) (st : diff_state) (l : ds4_tc_line) : diff_state :=
  match diff_count text st l with
  | None => st
  | Some (mkDiff files plus minus shown body) =>
      if gb_len body <? DS4_TOOL_COMPRESS_MAX_INLINE_BYTES then
        match ds4_tc_append_line body text l with
        | Some body => mkDiff files plus minus (S shown) body
        | None => mkDiff files plus minus shown body
        end
      else mkDiff files plus minus shown body
  end.

Definition diff_header (files plus minus shown : nat) (omitted : Z) : bytes :=
  bl "[diff compressed]" ++ bs "files_changed: " ++ nat_dec files ++ nl ++
  bs "summary: +" ++ nat_dec plus ++ bs " -" ++ nat_dec minus ++ nl ++
  bs "shown_lines: " ++ nat_dec shown ++ nl ++ bs "omitted_lines: " ++ dec omitted ++ nl ++
  bl "shown_hunks:".

Definition ds4_tc_compress_diff (mem : Z -> bool) (text : bytes) : ds4_tc_candidate :=
  let strategy := bs "diff_compressor" in
  match ds4_tc_split_lines mem text with
  | None => mkCandidate None 0 strategy
  | Some lines =>
      let '(mkDiff files plus minus shown body) :=
        fold_left (diff_line text) lines (mkDiff 0 0 0 0 gb_empty) in
      let omitted := omitted_of (length lines) shown in
      mkCandidate
        (gb_bytes <$>
          (b ← gb_append gb_empty (diff_header files plus minus shown omitted);
           gb_append b (cstr (gb_bytes body))))
        omitted strategy
  end.

(** ** JSON arrays *)

Definition last_is_nl (b : B) : bool := bool_decide (List.last (gb_bytes b) 0 = 10).

Definition json_header (objects head : nat) (tail : bool) : bytes :=
  bl "[json array compressed]" ++ bs "estimated_items: " ++ nat_dec objects ++ nl ++
  bs "shown: first " ++ nat_dec head ++ bs " bytes" ++
  (if tail then bs " + last 4000 bytes" else []) ++ nl ++ nl ++ bl "sample_first:".

Definition ds4_tc_compress_json_array (text : bytes) : ds4_tc_candidate :=
  let len := length text in
  let objects := length (List.filter (fun c => c =? ch "{") text) in
  let head := Nat.min len (Z.to_nat 6000) in
  let tail := if (head + Z.to_nat 4000 <? len)%nat then Z.to_nat 4000 else O in
  mkCandidate
    (gb_bytes <$>
      (b ← gb_append gb_empty (json_header objects head (0 <? tail)%nat);
       b ← gb_append b (take head text);
       b ← (if (0 <? head)%nat && negb (last_is_nl b) then gb_append b nl else Some b);
       if (0 <? tail)%nat then
         b ← gb_append b (nl ++ bl "sample_last:");
         b ← gb_append b (drop (len - tail) text);
         if negb (last_is_nl b) then gb_append b nl else Some b
       else Some b))
    0 (bs "json_array_compressor").

(** ** Files *)

(** A run of lines, until the buffer is over the limit. *)
Fixpoint tc_emit (text : bytes) (lines : list ds4_tc_line) (b : B) : option B :=
  match lines with
  | [] => Some b
  | l :: lines' =>
      if DS4_TOOL_COMPRESS_MAX_INLINE_BYTES <? gb_len b then Some b
      else b ← ds4_tc_append_line b text l; tc_emit text lines' b
  end.

Definition file_header (n head : nat) (tail : bool) (omitted : Z) : bytes :=
  bl "[file content compressed]" ++ bs "original_lines: " ++ nat_dec n ++ nl ++
  bs "shown: head " ++ nat_dec head ++ bs " lines" ++
  (if tail then bs " + tail 80 lines" else []) ++ nl ++
  bs "omitted_lines: " ++ dec omitted ++ nl ++ nl ++ bl "head:".

Definition ds4_tc_compress_file (mem : Z -> bool) (text strategy : bytes) : ds4_tc_candidate :=
  match ds4_tc_split_lines mem text with
  | None => mkCandidate None 0 strategy
  | Some lines =>
      let n := length lines in
      let head := Nat.min n 100 in
      let tail := if (head + 80 <? n)%nat then 80%nat else O in
      let omitted := omitted_of n (head + tail) in
      mkCandidate
        (gb_bytes <$>
          (b ← gb_append gb_empty (file_header n head (0 <? tail)%nat omitted);
           b ← tc_emit text (take head lines) b;
           if (0 <? tail)%nat then
             b ← gb_append b (nl ++ bl "tail:");
             tc_emit text (drop (n - tail) lines) b
           else Some b))
        omitted strategy
  end.

End Compressors.
Arguments diff_state B : clear implicits.

(** ** What the loops keep *)

(** The lines whose mark is set. *)
Fixpoint pick {A} (lines : list A) (show : list bool) : list A :=
  match lines, show with
  | l :: lines', s :: show' => if s then l :: pick lines' show' else pick lines' show'
  | _, _ => []
  end.

Lemma pick_sublist {A} (lines : list A) show : pick lines show `sublist_of` lines.
Proof.
  revert show. induction lines as [|l ls IH]; intros [|s show]; cbn;
    [constructor | constructor | apply sublist_nil_l |].
  destruct s; by constructor.
Qed.

Lemma pick_length {A} (lines : list A) show :
  length show = length lines -> length (pick lines show) = count_true show.
Proof.
  revert show. induction lines as [|l ls IH]; intros [|s show] Hl; cbn in *; try lia.
  unfold count_true in *. destruct s; cbn; rewrite IH; lia.
Qed.

Lemma sublist_concat_length {A} (xs ys : list (list A)) :
  xs `sublist_of` ys -> (length (concat xs) <= length (concat ys))%nat.
Proof. induction 1; cbn; rewrite ?length_app; lia. Qed.

Definition lines_text (text : bytes) (ls : list ds4_tc_line) : bytes := concat (line_text text <$> ls).

Lemma lines_text_bound mem text lines sel :
  ds4_tc_split_lines mem text = Some lines -> sel `sublist_of` lines ->
  zlen (lines_text text sel) <= zlen text.
Proof.
  intros H Hs. apply split_lines_concat in H. apply (f_equal length) in H.
  unfold lines_text, zlen. rewrite <- H. apply inj_le, sublist_concat_length. by apply fmap_sublist.
Qed.

Section Facts.
  Context {B : Type} `{GrowBufLaws B}.
  #[local] Set Default Proof Using "All".

Lemma tc_emit_shown_pick text lines show (b : B) :
  tc_emit_shown text lines show b = tc_emit text (pick lines show) b.
Proof.
  revert show b. induction lines as [|l ls IH]; intros [|s show] b; cbn; try done.
  destruct s; cbn; [|apply IH]. destruct (_ <? _); [done|].
  destruct (ds4_tc_append_line b text l); cbn; [apply IH|done].
Qed.

Lemma log_emit_fst text shown lines show i (b : B) omitted :
  fst <$> log_emit text shown lines show i b omitted = tc_emit text (pick lines show) b.
Proof.
  revert show i b. induction lines as [|l ls IH]; intros [|s show] i b; cbn; try done.
  destruct s; cbn; [|apply IH]. destruct (_ <? _); [done|].
  destruct (ds4_tc_append_line b text l); cbn; [apply IH|done].
Qed.

(** A run of lines ends at the last line or over the limit. *)
Lemma tc_emit_holds text lines (b b' : B) s :
  gb_holds b s -> tc_emit text lines b = Some b' ->
  exists k, (k <= length lines)%nat /\ gb_holds b' (s ++ lines_text text (take k lines)) /\
    (k = length lines \/ DS4_TOOL_COMPRESS_MAX_INLINE_BYTES < zlen (s ++ lines_text text (take k lines))).
Proof.
  revert b s. induction lines as [|l ls IH]; intros b s Hs E; cbn in E.
  - injection E as <-. exists O. cbn. rewrite app_nil_r. auto.
  - rewrite (gb_holds_len _ _ Hs) in E.
    destruct (Z.ltb_spec DS4_TOOL_COMPRESS_MAX_INLINE_BYTES (zlen s)).
    + injection E as <-. exists O. cbn. rewrite app_nil_r. split; [lia|]. auto.
    + apply bind_Some in E as (b1 & E1 & E).
      pose proof (gb_holds_append _ _ _ _ Hs E1) as Hs1.
      destruct (IH _ _ Hs1 E) as (k & Hk & Hh & Hend). exists (S k). cbn [take length].
      unfold lines_text in *. cbn [fmap list_fmap concat]. rewrite app_assoc.
      split; [lia|]. split; [done|]. destruct Hend; [left; lia | by right].
Qed.

(** A log that stays within the limit omits nothing more. *)
Lemma log_emit_within text shown lines show i (b b' : B) omitted o s :
  gb_holds b s -> log_emit text shown lines show i b omitted = Some (b', o) ->
  zlen (s ++ lines_text text (pick lines show)) <= DS4_TOOL_COMPRESS_MAX_INLINE_BYTES -> o = omitted.
Proof.
  revert show i b s. induction lines as [|l ls IH]; intros [|s0 show] i b s Hs E Hm; cbn in E.
  1-3: by injection E.
  destruct s0; cbn in E; [|by eapply IH].
  rewrite (gb_holds_len _ _ Hs) in E.
  destruct (Z.ltb_spec DS4_TOOL_COMPRESS_MAX_INLINE_BYTES (zlen s)).
  { exfalso. revert Hm. rewrite zlen_app. pose proof (zlen_nonneg (lines_text text (pick (l :: ls) (true :: show)))). lia. }
  apply bind_Some in E as (b1 & E1 & E). pose proof (gb_holds_append _ _ _ _ Hs E1) as Hs1.
  eapply IH; [exact Hs1|exact E|]. unfold lines_text in *. cbn in Hm. by rewrite app_assoc in Hm.
Qed.

End Facts.

(** ** The log excerpt *)

Lemma length_log_important text lines show added :
  length (log_important text lines show added) = length show.
Proof.
  revert show added. induction lines as [|l ls IH]; intros [|s show] added; try done.
  cbn [log_important]. destruct (_ <? _)%nat; [|done].
  destruct (ds4_tc_line_important _ _); cbn [length]; by rewrite IH.
Qed.

(** The important lines among these that their mark does not show yet. *)
Definition unmarked_important (text : bytes) (lines : list ds4_tc_line) (marks : list bool) : nat :=
  length (List.filter (fun p => ds4_tc_line_important text p.1 && negb p.2) (zip lines marks)).

Lemma log_important_lookup text lines marks added i l m :
  lines !! i = Some l -> marks !! i = Some m ->
  log_important text lines marks added !! i =
  Some (m || (ds4_tc_line_important text l &&
              (added + unmarked_important text (take i lines) (take i marks) <? 200)%nat)).
Proof.
  revert marks added i. induction lines as [|x xs IH]; intros [|s marks] added i Hl Hm; try done.
  cbn [log_important]. destruct i as [|i].
  - cbn in Hl, Hm. injection Hl as ->. injection Hm as ->.
    unfold unmarked_important. cbn [take zip zip_with List.filter length]. rewrite Nat.add_0_r.
    destruct (_ <? _)%nat; [|cbn; by rewrite andb_false_r, orb_false_r].
    destruct (ds4_tc_line_important text l); cbn; by rewrite ?orb_true_r, ?orb_false_r.
  - cbn in Hl, Hm. destruct (Nat.ltb_spec added 200).
    + unfold unmarked_important. cbn [take zip zip_with List.filter fst snd].
      destruct (ds4_tc_line_important text x); cbn [andb].
      * cbn [lookup list_lookup]. rewrite (IH marks _ i Hl Hm). unfold unmarked_important.
        destruct s; cbn [negb length]; [done|]. rewrite Nat.add_succ_r. done.
      * cbn [lookup list_lookup]. rewrite (IH marks _ i Hl Hm). done.
    + cbn [lookup list_lookup]. rewrite Hm. f_equal.
      destruct (Nat.ltb_spec (added + unmarked_important text (take (S i) (x :: xs)) (take (S i) (s :: marks))) 200);
        [lia|]. by rewrite andb_false_r, orb_false_r.
Qed.

Lemma length_log_marks n : length (log_marks n) = n.
Proof. unfold log_marks. by rewrite length_map, length_seq. Qed.

Lemma log_marks_lookup n i :
  (i < n)%nat -> log_marks n !! i = Some (bool_decide (i < 40 \/ n <= i + 80)%nat).
Proof.
  intros Hi. unfold log_marks.
  change (map ?f ?l) with (f <$> l). rewrite list_lookup_fmap, lookup_seq_lt by done.
  cbn [fmap option_fmap option_map]. rewrite Nat.add_0_l. f_equal. apply eq_iff_eq_true.
  rewrite orb_true_iff, Nat.ltb_lt, Nat.leb_le, bool_decide_eq_true. destruct (Nat.ltb_spec 80 n); lia.
Qed.

(** Which lines a log of [lines] shows. *)
Definition log_show (text : bytes) (lines : list ds4_tc_line) (i : nat) (l : ds4_tc_line) : bool :=
  bool_decide (i < 40 \/ length lines <= i + 80)%nat ||
  (ds4_tc_line_important text l &&
   (unmarked_important text (take i lines) (take i (log_marks (length lines))) <? 200)%nat).

Lemma omitted_of_sub n shown : (shown <= n)%nat -> omitted_of n shown = Z.of_nat n - Z.of_nat shown.
Proof. unfold omitted_of. destruct (Nat.ltb_spec shown n); lia. Qed.

Lemma count_true_le show : (count_true show <= length show)%nat.
Proof. unfold count_true. apply List.filter_length_le. Qed.

Section LogFacts.
  Context {B : Type} `{GrowBufLaws B}.
  #[local] Set Default Proof Using "All".

Lemma compress_log_inv mem text t :
  cd_text (ds4_tc_compress_log (B := B) mem text) = Some t ->
  exists lines show k,
    ds4_tc_split_lines mem text = Some lines /\ length show = length lines /\
    (forall i l, lines !! i = Some l -> show !! i = Some (log_show text lines i l)) /\
    let n := length lines in
    let shown := count_true show in
    t = log_header n shown (Z.of_nat n - Z.of_nat shown) ++ lines_text text (take k (pick lines show)) /\
    (k = shown \/ DS4_TOOL_COMPRESS_MAX_INLINE_BYTES < zlen t) /\
    (zlen t <= DS4_TOOL_COMPRESS_MAX_INLINE_BYTES ->
     cd_omitted_lines (ds4_tc_compress_log (B := B) mem text) = Z.of_nat n - Z.of_nat shown).
Proof.
  unfold ds4_tc_compress_log. destruct (ds4_tc_split_lines mem text) as [lines|] eqn:El; [|done].
  destruct (mem (Z.max 1 _)); cbn [negb]; [|done].
  set (show := log_important text lines (log_marks (length lines)) 0).
  assert (Hlen : length show = length lines)
    by (unfold show; by rewrite length_log_important, length_log_marks).
  rewrite omitted_of_sub by (rewrite <- Hlen; apply count_true_le).
  set (h := log_header _ _ _). destruct (gb_append gb_empty h) as [b0|] eqn:E0; cbn [mbind option_bind]; [|done].
  destruct (log_emit _ _ _ _ _ _ _) as [[b o]|] eqn:E1; [|done]. cbn [cd_text cd_omitted_lines]. intros [= <-].
  pose proof (gb_holds_append _ _ _ _ gb_holds_empty E0) as Hb0. rewrite app_nil_l in Hb0.
  pose proof (f_equal (fmap fst) E1) as E2. rewrite log_emit_fst in E2. cbn in E2.
  destruct (tc_emit_holds _ _ _ _ _ Hb0 E2) as (k & Hk & Hb & Hend).
  rewrite (gb_holds_bytes _ _ Hb). rewrite pick_length in * by done.
  exists lines, show, k. split_and!; try done.
  - intros i l Hl. pose proof (lookup_lt_Some _ _ _ Hl).
    unfold show. erewrite log_important_lookup; [|exact Hl|by apply log_marks_lookup]. done.
  - intros Hsm. eapply log_emit_within; [exact Hb0|exact E1|].
    destruct Hend as [->|Hend]; [|lia]. rewrite take_ge in Hsm by (by rewrite pick_length). done.
Qed.

End LogFacts.

Section Excerpts.
  Context {B : Type} `{GrowBufLaws B}.
  #[local] Set Default Proof Using "All".

Lemma search_stats_holds stats (b b' : B) s :
  gb_holds b s -> search_stats_emit stats b = Some b' ->
  exists named, named `sublist_of` stats /\ gb_holds b' (s ++ concat (stat_line <$> named)).
Proof.
  revert b s. induction stats as [|st stats IH]; intros b s Hs E; cbn [search_stats_emit] in E.
  - injection E as <-. exists []. split; [constructor|]. cbn. by rewrite app_nil_r.
  - destruct (cstr (fs_name st)).
    + destruct (IH _ _ Hs E) as (named & Hn & Hh). exists named. split; [by constructor|done].
    + apply bind_Some in E as (b1 & E1 & E).
      destruct (IH _ _ (gb_holds_append _ _ _ _ Hs E1) E) as (named & Hn & Hh).
      exists (st :: named). split; [by constructor|]. cbn [fmap list_fmap concat]. by rewrite app_assoc.
Qed.

Lemma compress_search_inv mem text t :
  cd_text (ds4_tc_compress_search (B := B) mem text) = Some t ->
  exists lines named k,
    ds4_tc_split_lines mem text = Some lines /\
    let st := search_scan text lines in
    named `sublist_of` ss_stats st /\
    t = search_header (length lines) (count_true (ss_show st)) (omitted_of (length lines) (count_true (ss_show st)))
        ++ concat (stat_line <$> named) ++ nl ++ bl "Top matches:"
        ++ lines_text text (take k (pick lines (ss_show st))) /\
    (k = length (pick lines (ss_show st)) \/ DS4_TOOL_COMPRESS_MAX_INLINE_BYTES < zlen t).
Proof.
  unfold ds4_tc_compress_search. destruct (ds4_tc_split_lines mem text) as [lines|] eqn:El; [|done].
  destruct (mem (Z.max 1 _)); cbn [negb]; [|done]. set (st := search_scan text lines).
  cbn [cd_text]. intros E. apply fmap_Some in E as (b & E & ->).
  apply bind_Some in E as (b0 & E0 & E). apply bind_Some in E as (b1 & E1 & E).
  apply bind_Some in E as (b2 & E2 & E).
  pose proof (gb_holds_append _ _ _ _ gb_holds_empty E0) as H1.
  destruct (search_stats_holds _ _ _ _ H1 E1) as (named & Hn & H2).
  pose proof (gb_holds_append _ _ _ _ H2 E2) as H3. rewrite tc_emit_shown_pick in E.
  destruct (tc_emit_holds _ _ _ _ _ H3 E) as (k & Hk & H4 & Hend).
  rewrite app_nil_l, <- !app_assoc in H4. rewrite app_nil_l, <- !app_assoc in Hend.
  rewrite (gb_holds_bytes _ _ H4). exists lines, named, k. by split_and!.
Qed.

(** A diff shows the lines it counts, as long as its body is short. *)
Lemma diff_fold_holds text lines st s :
  gb_holds (ds_body st) s ->
  exists sel, sel `sublist_of` lines /\
    gb_holds (ds_body (fold_left (diff_line text) lines st)) (s ++ lines_text text sel) /\
    ds_shown (fold_left (diff_line text) lines st) = (ds_shown st + length sel)%nat.
Proof.
  revert st s. induction lines as [|l ls IH]; intros st s Hs; cbn [fold_left].
  - exists []. cbn. rewrite app_nil_r, Nat.add_0_r. by split; [constructor|].
  - assert (Hstep : gb_holds (ds_body (diff_line text st l)) s /\ ds_shown (diff_line text st l) = ds_shown st \/
                    gb_holds (ds_body (diff_line text st l)) (s ++ line_text text l) /\
                    ds_shown (diff_line text st l) = S (ds_shown st)).
    { unfold diff_line. destruct (diff_count text st l) as [[f p m sh bd]|] eqn:Ed; [|by left].
      assert (Hkeep : bd = ds_body st /\ sh = ds_shown st).
      { unfold diff_count in Ed. destruct st. repeat case_match; by simplify_eq. }
      destruct Hkeep as [-> ->]. destruct (_ <? _); [|by left].
      destruct (ds4_tc_append_line _ _ _) eqn:Ea; [right|by left].
      split; [by eapply gb_holds_append|done]. }
    destruct Hstep as [[Hh Hc]|[Hh Hc]]; destruct (IH _ _ Hh) as (sel & Hsel & Hb & Hn).
    + exists sel. split; [by constructor|]. split; [done|lia].
    + exists (l :: sel). split; [by constructor|]. unfold lines_text in *. cbn.
      rewrite app_assoc. split; [done|lia].
Qed.

Lemma compress_diff_inv mem text t :
  cd_text (ds4_tc_compress_diff (B := B) mem text) = Some t ->
  exists lines sel files plus minus,
    ds4_tc_split_lines mem text = Some lines /\ sel `sublist_of` lines /\
    t = diff_header files plus minus (length sel) (Z.of_nat (length lines) - Z.of_nat (length sel))
        ++ cstr (lines_text text sel).
Proof.
  unfold ds4_tc_compress_diff. destruct (ds4_tc_split_lines mem text) as [lines|] eqn:El; [|done].
  destruct (diff_fold_holds text lines (mkDiff 0 0 0 0 gb_empty) [] gb_holds_empty) as (sel & Hsel & Hb & Hn).
  destruct (fold_left _ _ _) as [files plus minus shown body]. cbn in Hb, Hn. subst shown.
  cbn [cd_text]. intros E. apply fmap_Some in E as (b & E & ->). apply bind_Some in E as (b0 & E0 & E).
  rewrite omitted_of_sub in E0 by by apply sublist_length.
  pose proof (gb_holds_append _ _ _ _ gb_holds_empty E0) as H1.
  pose proof (gb_holds_append _ _ _ _ H1 E) as H2. rewrite (gb_holds_bytes _ _ H2).
  rewrite (gb_holds_bytes _ _ Hb), app_nil_l. by exists lines, sel, files, plus, minus.
Qed.

Lemma compress_file_inv mem text strategy t :
  cd_text (ds4_tc_compress_file (B := B) mem text strategy) = Some t ->
  exists lines k1 k2,
    ds4_tc_split_lines mem text = Some lines /\
    let n := length lines in
    let front := take 100 lines in
    let back := if bool_decide (180 < n)%nat then drop (n - 80) lines else [] in
    let body := lines_text text (take k1 front) ++
                (if bool_decide (180 < n)%nat then nl ++ bl "tail:" else []) ++
                lines_text text (take k2 back) in
    t = file_header n (length front) (bool_decide (180 < n)%nat)
          (Z.of_nat n - Z.of_nat (length front) - Z.of_nat (length back)) ++ body /\
    ((k1 = length front /\ k2 = length back) \/ DS4_TOOL_COMPRESS_MAX_INLINE_BYTES < zlen t).
Proof.
  unfold ds4_tc_compress_file. destruct (ds4_tc_split_lines mem text) as [lines|] eqn:El; [|done].
  set (n := length lines). cbn [cd_text]. intros E. apply fmap_Some in E as (b & E & ->).
  apply bind_Some in E as (b0 & E0 & E). apply bind_Some in E as (b1 & E1 & E).
  pose proof (gb_holds_append _ _ _ _ gb_holds_empty E0) as H1. rewrite app_nil_l in H1.
  destruct (tc_emit_holds _ _ _ _ _ H1 E1) as (k1 & Hk1 & H2 & Hend1).
  rewrite length_take in Hk1, Hend1. fold n in Hk1, Hend1.
  assert (Hmin : take (Nat.min n 100) lines = take 100 lines).
  { destruct (Nat.min_spec n 100) as [[Hm ->]|[Hm ->]]; [|done]. rewrite !take_ge; [done|lia..]. }
  rewrite Hmin in *.
  assert (Hlf : length (take 100 lines) = Nat.min n 100) by (rewrite length_take; lia).
  assert (Hd : (Nat.min n 100 + 80 <? n)%nat = bool_decide (180 < n)%nat).
  { apply eq_iff_eq_true. rewrite Nat.ltb_lt, bool_decide_eq_true. lia. }
  rewrite Hd in *. exists lines, k1. fold n. rewrite Hlf. case_bool_decide as Hn.
  - change (0 <? 80)%nat with true in *. cbn [andb] in *.
    apply bind_Some in E as (b2 & E2 & E). pose proof (gb_holds_append _ _ _ _ H2 E2) as H3.
    destruct (tc_emit_holds _ _ _ _ _ H3 E) as (k2 & Hk2 & H4 & Hend2).
    rewrite <- !app_assoc in H4. rewrite <- !app_assoc in Hend2. rewrite (gb_holds_bytes _ _ H4).
    assert (Hlb : length (drop (n - 80) lines) = 80%nat) by (rewrite length_drop; lia).
    rewrite omitted_of_sub in * by lia. exists k2. split; [done|]. rewrite Hlb, <- !app_assoc.
    replace (Z.of_nat n - Z.of_nat (Nat.min n 100 + 80))
      with (Z.of_nat n - Z.of_nat (Nat.min n 100) - Z.of_nat 80) in * by lia.
    split; [done|]. destruct Hend2 as [->|]; [|by right]. destruct Hend1 as [->|Hend1]; [left; lia|].
    right. eapply Z.lt_le_trans; [exact Hend1|]. rewrite !zlen_app.
    pose proof (zlen_nonneg (lines_text text (take (length (drop (n - 80) lines)) (drop (n - 80) lines)))).
    pose proof (zlen_nonneg nl). pose proof (zlen_nonneg (bl "tail:")). lia.
  - change (0 <? 0)%nat with false in *. injection E as ->. rewrite (gb_holds_bytes _ _ H2).
    rewrite Nat.add_0_r, omitted_of_sub in * by lia. exists O. split; [done|].
    rewrite take_nil. change (lines_text text []) with (@nil Z). rewrite !app_nil_r, Z.sub_0_r. split; [done|].
    destruct Hend1 as [->|]; [left; split; [lia|done] | by right].
Qed.

End Excerpts.

(** ** The claims on excerpts *)

(** Some allocation failed. *)
Definition out_of_memory (B : Type) `{GrowBuf B} (mem : Z -> bool) : Prop :=
  (exists n, mem n = false) \/ (exists (b : B) data, gb_append b data = None).

Lemma split_lines_none mem text : ds4_tc_split_lines mem text = None -> exists n, mem n = false.
Proof. intros E. unfold ds4_tc_split_lines in E. apply fmap_None in E. by eapply split_loop_none. Qed.

Lemma tc_emit_none {B} `{GrowBuf B} mem text lines (b : B) :
  tc_emit text lines b = None -> out_of_memory B mem.
Proof.
  revert b. induction lines as [|l ls IH]; intros b; cbn [tc_emit]; [done|].
  destruct (_ <? _); [done|]. destruct (ds4_tc_append_line b text l) as [b1|] eqn:E; cbn; [apply IH|].
  intros _. right. by exists b, (line_text text l).
Qed.

(** Chains of appends fail only with the allocator. *)
Ltac append_none :=
  repeat match goal with
  | H : (_ <$> _) = None |- _ => apply fmap_None in H
  | H : mbind _ _ = None |- _ => apply bind_None in H; destruct H as [H|(? & ? & H)]
  | H : gb_append ?b ?d = None |- _ => right; by exists b, d
  | H : tc_emit _ _ _ = None |- _ => exact (tc_emit_none _ _ _ _ H)
  end.

(** The log excerpt.  It shows exactly the first 40 lines, the last 80 and,
    between them, each line with one of the alarm words as long as fewer than 200
    such lines lie before it; it states the numbers of lines, shown lines and
    omitted lines, and quotes the shown lines byte for byte and in order, all of
    them unless the text is over the inline limit.  Nothing is produced only when
    an allocation fails. *)
Lemma compress_log_spec {B} `{GrowBufLaws B} mem text :
  let c := ds4_tc_compress_log (B := B) mem text in
  match cd_text c with
  | None => out_of_memory B mem
  | Some t =>
      exists lines show k,
        ds4_tc_split_lines mem text = Some lines /\ length show = length lines /\
        (forall i l, lines !! i = Some l -> show !! i = Some (log_show text lines i l)) /\
        let n := length lines in
        let shown := count_true show in
        t = log_header n shown (Z.of_nat n - Z.of_nat shown) ++ lines_text text (take k (pick lines show)) /\
        (k = shown \/ DS4_TOOL_COMPRESS_MAX_INLINE_BYTES < zlen t) /\
        (zlen t <= DS4_TOOL_COMPRESS_MAX_INLINE_BYTES ->
         cd_omitted_lines c = Z.of_nat n - Z.of_nat shown)
  end.
Proof.
  intros c. destruct (cd_text c) as [t|] eqn:E; [by apply compress_log_inv|]. subst c.
  unfold ds4_tc_compress_log in E. destruct (ds4_tc_split_lines mem text) as [lines|] eqn:El;
    [|left; by eapply split_lines_none].
  destruct (mem (Z.max 1 _)) eqn:Em; cbn [negb] in E; [|left; eauto].
  destruct (mbind _ _) as [[b o]|] eqn:Eb; [done|]. append_none.
  apply (f_equal (fmap fst)) in Eb. rewrite log_emit_fst in Eb. cbn [fmap option_fmap option_map] in Eb.
  append_none.
Qed.

Definition log_witness_text : bytes := bl "make: start" ++ bl "x.c:3: error: no such file".

Lemma compress_log_spec_witness :
  let c := ds4_tc_compress_log (B := bytes) (fun _ => true) log_witness_text in
  match cd_text c with
  | None => out_of_memory bytes (fun _ => true)
  | Some t =>
      exists lines show k,
        ds4_tc_split_lines (fun _ => true) log_witness_text = Some lines /\ length show = length lines /\
        (forall i l, lines !! i = Some l -> show !! i = Some (log_show log_witness_text lines i l)) /\
        let n := length lines in
        let shown := count_true show in
        t = log_header n shown (Z.of_nat n - Z.of_nat shown)
            ++ lines_text log_witness_text (take k (pick lines show)) /\
        (k = shown \/ DS4_TOOL_COMPRESS_MAX_INLINE_BYTES < zlen t) /\
        (zlen t <= DS4_TOOL_COMPRESS_MAX_INLINE_BYTES ->
         cd_omitted_lines c = Z.of_nat n - Z.of_nat shown)
  end.
Proof. exact (compress_log_spec (B := bytes) (fun _ => true) log_witness_text). Defined.

Example compress_log_run :
  cd_text (ds4_tc_compress_log (B := bytes) (fun _ => true) log_witness_text)
  = Some (log_header 2 2 0 ++ log_witness_text).
Proof. vm_compute. reflexivity. Qed.

(** When the limit stops the output, the count of omitted lines mixes the number
    of marked lines with a line index: 300 lines of which 42 are quoted report
    120 - 222 more, 78 in all. *)
Example log_omitted_count :
  let text := concat (replicate 221 (bs "x" ++ nl)) ++ replicate (Z.to_nat 12100) 120 ++ nl
              ++ concat (replicate 78 (bs "x" ++ nl)) in
  let c := ds4_tc_compress_log (B := bytes) (fun _ => true) text in
  (cd_omitted_lines c,
   match cd_text c with Some t => length (List.filter (fun c => c =? 10) t) | None => O end)
  = (78, (6 + 42)%nat).
Proof. vm_compute. reflexivity. Qed.

(** The file excerpt: the first 100 lines and, of a text of more than 180
    lines, the last 80, quoted byte for byte and in order with the exact numbers
    of all and of omitted lines in the header; both runs are complete unless the
    text is over the inline limit. *)
Lemma compress_file_spec {B} `{GrowBufLaws B} mem text strategy :
  match cd_text (ds4_tc_compress_file (B := B) mem text strategy) with
  | None => out_of_memory B mem
  | Some t =>
      exists lines k1 k2,
        ds4_tc_split_lines mem text = Some lines /\
        let n := length lines in
        let front := take 100 lines in
        let back := if bool_decide (180 < n)%nat then drop (n - 80) lines else [] in
        let body := lines_text text (take k1 front) ++
                    (if bool_decide (180 < n)%nat then nl ++ bl "tail:" else []) ++
                    lines_text text (take k2 back) in
        t = file_header n (length front) (bool_decide (180 < n)%nat)
              (Z.of_nat n - Z.of_nat (length front) - Z.of_nat (length back)) ++ body /\
        ((k1 = length front /\ k2 = length back) \/ DS4_TOOL_COMPRESS_MAX_INLINE_BYTES < zlen t)
  end.
Proof.
  destruct (cd_text _) as [t|] eqn:E; [by eapply compress_file_inv|].
  unfold ds4_tc_compress_file in E. destruct (ds4_tc_split_lines mem text) as [lines|] eqn:El;
    [|left; by eapply split_lines_none].
  cbn [cd_text] in E. append_none. destruct (0 <? _)%nat in E; [|done]. append_none.
Qed.

Lemma compress_file_spec_witness :
  match cd_text (ds4_tc_compress_file (B := bytes) (fun _ => true) log_witness_text (bs "s")) with
  | None => out_of_memory bytes (fun _ => true)
  | Some t =>
      exists lines k1 k2,
        ds4_tc_split_lines (fun _ => true) log_witness_text = Some lines /\
        let n := length lines in
        let front := take 100 lines in
        let back := if bool_decide (180 < n)%nat then drop (n - 80) lines else [] in
        let body := lines_text log_witness_text (take k1 front) ++
                    (if bool_decide (180 < n)%nat then nl ++ bl "tail:" else []) ++
                    lines_text log_witness_text (take k2 back) in
        t = file_header n (length front) (bool_decide (180 < n)%nat)
              (Z.of_nat n - Z.of_nat (length front) - Z.of_nat (length back)) ++ body /\
        ((k1 = length front /\ k2 = length back) \/ DS4_TOOL_COMPRESS_MAX_INLINE_BYTES < zlen t)
  end.
Proof. exact (compress_file_spec (B := bytes) (fun _ => true) log_witness_text (bs "s")). Defined.

(** A search header is not recognised as such when the words appear anywhere
    below it: the grep lines under it are then counted without a file line. *)
Example search_file_line_shadowed :
  let text := bl "file.c" ++ bl "  12 int x" in
  let text' := text ++ bl "2 matches shown" in
  let scan t := ss_show (search_scan t (default [] (ds4_tc_split_lines (fun _ => true) t))) in
  (scan text, scan text') = ([true; true], [false; false; false]).
Proof. vm_compute. reflexivity. Qed.
