(* ===== verification/TcResult.v ===== *)
(** * TcResult: compressing one tool result (ds4_tool_compress.c)

    The original goes to the blob store before anything shorter is returned.  The
    arguments [out] and [text] are not NULL. *)

From S2P Require Import Prelude Ctype DynBuf Sha Fs ContextBlob.
From S2P Require Import TcLines TcCompress.

Record ds4_tool_compress_result := mkResult {
  cr_changed : bool;
  cr_original_saved : bool;
  cr_kind : ds4_tool_content_kind;
  cr_strategy : bytes;
  cr_blob_id : bytes;
  cr_original_bytes : Z;
  cr_compressed_bytes : Z;
  cr_omitted_lines : Z;
  cr_text : option bytes
}.

(** The failures, by the message they set. *)
Inductive tc_error : Type :=
| TceMissingBlobDir
| TceBlob (e : blob_error)
| TceMarkerMemory.

Definition marker_header (r : ds4_tool_compress_result) (compressed_bytes : Z) : bytes :=
  bl "[ds4 compressed tool output]" ++
  bs "strategy: " ++ cstr (cr_strategy r) ++ nl ++
  bs "kind: " ++ ds4_tool_content_kind_name (cr_kind r) ++ nl ++
  bs "original_bytes: " ++ dec (cr_original_bytes r) ++ nl ++
  bs "compressed_bytes: " ++ dec compressed_bytes ++ nl ++
  bs "blob_id: " ++ cstr (cr_blob_id r) ++ nl ++
  bs "retrieve: retrieve_context_blob id=" ++ cstr (cr_blob_id r) ++ bl " offset=0 length=20000" ++
  bl "note: lossy live-zone compression; use retrieve_context_blob for exact original bytes." ++ nl.

Section Result.
  Context {B : Type} `{GrowBuf B} (mem : Z -> bool).

Definition ds4_tc_build_marker (r : ds4_tool_compress_result) (compressed_bytes : Z) (body : bytes)
  : option bytes :=
  gb_bytes <$> (b ← gb_append (B := B) gb_empty (marker_header r compressed_bytes);
                gb_append b (cstr body)).

(** The passes of [for (int i = 0; i < 4; i++)]: the length and the text. *)
Fixpoint marker_loop (passes : nat) (r : ds4_tool_compress_result) (body : bytes)
    (compressed_bytes : Z) (final : bytes) : option (Z * bytes) :=
  match passes with
  | O => Some (compressed_bytes, final)
  | S passes' =>
      final ← ds4_tc_build_marker r compressed_bytes body;
      let actual := strlen final in
      if actual =? compressed_bytes then Some (compressed_bytes, final)
      else marker_loop passes' r body actual final
  end.

(** The [memset], the size and the kind. *)
Definition result_init (tool_name : option bytes) (text : bytes) : ds4_tool_compress_result :=
  mkResult false false (ds4_tool_classify_output mem tool_name text) [] [] (u64 (zlen text)) 0 0 None.

Definition set_kind (r : ds4_tool_compress_result) (kind : ds4_tool_content_kind)
  : ds4_tool_compress_result :=
  mkResult (cr_changed r) (cr_original_saved r) kind (cr_strategy r) (cr_blob_id r)
    (cr_original_bytes r) (cr_compressed_bytes r) (cr_omitted_lines r) (cr_text r).

(** The [switch]: the kind and the candidate. *)
Definition tc_candidate (kind : ds4_tool_content_kind) (text : bytes)
  : ds4_tool_content_kind * ds4_tc_candidate :=
  match kind with
  | DS4_TOOL_CONTENT_SEARCH => (kind, ds4_tc_compress_search (B := B) mem text)
  | DS4_TOOL_CONTENT_DIFF => (kind, ds4_tc_compress_diff (B := B) mem text)
  | DS4_TOOL_CONTENT_JSON_ARRAY => (kind, ds4_tc_compress_json_array (B := B) text)
  | DS4_TOOL_CONTENT_FILE =>
      (kind, ds4_tc_compress_file (B := B) mem text (bs "file_head_tail_compressor"))
  | DS4_TOOL_CONTENT_LOG => (kind, ds4_tc_compress_log (B := B) mem text)
  | DS4_TOOL_CONTENT_UNKNOWN | DS4_TOOL_CONTENT_TRACE =>
      if DS4_TOOL_COMPRESS_HUGE_BYTES <=? zlen text
      then (DS4_TOOL_CONTENT_FILE,
            ds4_tc_compress_file (B := B) mem text (bs "generic_head_tail_compressor"))
      else (kind, mkCandidate None 0 [])
  end.

(** [n * RATIO_DEN >= len * RATIO_NUM]: not worth it. *)
Definition too_long (n len : Z) : bool := u64 (len * 4) <=? u64 (n * 5).

Definition min_bytes (tool_name : option bytes) : Z :=
  if tool_in tool_name ["read"; "more"; "cat"]%string
  then DS4_TOOL_COMPRESS_HUGE_BYTES else DS4_TOOL_COMPRESS_MIN_BYTES.

(** The original is saved: the fields set before the marker. *)
Definition result_saved (r : ds4_tool_compress_result) (cand : ds4_tc_candidate) (id : bytes)
  : ds4_tool_compress_result :=
  mkResult (cr_changed r) true (cr_kind r) (take 63 (cd_strategy cand)) (take 79 id)
    (cr_original_bytes r) (cr_compressed_bytes r) (cd_omitted_lines cand) (cr_text r).

Definition result_changed (r : ds4_tool_compress_result) (compressed_bytes : Z) (final : bytes)
  : ds4_tool_compress_result :=
  mkResult true (cr_original_saved r) (cr_kind r) (cr_strategy r) (cr_blob_id r)
    (cr_original_bytes r) compressed_bytes (cr_omitted_lines r) (Some final).

(** [*out], and the error of a call that returns [false]. *)
Definition ds4_tool_compress_result_text (sha_block : bytes) (tool_name : option bytes) (text : bytes)
    (blob_base_dir : option bytes) : IO (ds4_tool_compress_result * option tc_error) :=
  let len := zlen text in
  let out := result_init tool_name text in
  if tool_in tool_name ["retrieve_context_blob"%string] then ret (out, None)
  else if len <? min_bytes tool_name then ret (out, None)
  else
    let '(kind, cand) := tc_candidate (cr_kind out) text in
    let out := set_kind out kind in
    match cd_text cand with
    | None => ret (out, None)
    | Some cand_text =>
        let cand_len := strlen cand_text in
        if too_long cand_len len then ret (out, None)
        else
          match blob_base_dir with
          | None | Some [] => ret (out, Some TceMissingBlobDir)
          | Some _ =>
              let! r := ds4_context_blob_put_text sha_block blob_base_dir text in
              match r with
              | inr e => ret (out, Some (TceBlob e))
              | inl ref =>
                  let out := result_saved out cand (br_id ref) in
                  match marker_loop 4 out cand_text cand_len [] with
                  | None => ret (out, Some TceMarkerMemory)
                  | Some (compressed_bytes, final) =>
                      if too_long compressed_bytes len then ret (result_init tool_name text, None)
                      else ret (result_changed out compressed_bytes final, None)
                  end
              end
          end
    end.

End Result.
Arguments ds4_tc_build_marker B {_}.
Arguments marker_loop B {_}.
Arguments tc_candidate B {_}.
Arguments ds4_tool_compress_result_text B {_}.

(** ** Sizes *)

(** Lengths of literals. *)
Ltac zlen_bs :=
  unfold nl, nat_dec in *;
  repeat match goal with
  | |- context [zlen (bl ?s)] => let n := eval vm_compute in (zlen (bl s)) in change (zlen (bl s)) with n
  | |- context [zlen (bs ?s)] => let n := eval vm_compute in (zlen (bs s)) in change (zlen (bs s)) with n
  | |- context [zlen [10]] => change (zlen [10]) with 1
  | |- context [zlen (dec ?n)] =>
      lazymatch goal with
      | _ : 0 <= zlen (dec n) <= 20 |- _ => fail
      | _ => pose proof (dec_length_max n)
      end
  | |- context [zlen (dec_int ?n)] =>
      lazymatch goal with
      | _ : 0 <= zlen (dec_int n) <= 21 |- _ => fail
      | _ => pose proof (dec_int_length_max n)
      end
  end.

(** At most 96 slots, each name in its field. *)
Definition stats_ok (stats : list ds4_tc_file_stat) : Prop :=
  (length stats <= STATS_MAX)%nat /\ Forall (fun s => (length (fs_name s) <= NAME_MAX_BYTES)%nat) stats.

Lemma new_stat_ok name : (length (fs_name (new_stat name)) <= NAME_MAX_BYTES)%nat.
Proof. cbn [new_stat fs_name]. rewrite length_take. lia. Qed.

Lemma stats_ok_snoc stats name :
  stats_ok stats -> (length stats <? STATS_MAX)%nat = true -> stats_ok (stats ++ [new_stat name]).
Proof.
  intros [Hn Hf] Hl%Nat.ltb_lt. split; [rewrite length_app; cbn [length]; lia|].
  apply Forall_app. split; [done|]. constructor; [apply new_stat_ok|done].
Qed.

Lemma search_match_stats st text l name :
  stats_ok (ss_stats st) -> stats_ok (ss_stats (search_match_line st text l name)).
Proof.
  intros Hs. unfold search_match_line.
  assert (Hgen : forall stats i s, stats_ok stats ->
            (length (fs_name s) <= NAME_MAX_BYTES)%nat -> stats_ok (<[i := s]> stats)).
  { intros stats i s [Hn Hf] Hl. split; [by rewrite length_insert|]. by apply Forall_insert. }
  assert (Hname : forall stats i, stats_ok stats ->
            (length (fs_name (default (new_stat []) (stats !! i))) <= NAME_MAX_BYTES)%nat).
  { intros stats i [_ Hf]. destruct (stats !! i) eqn:E; [|apply new_stat_ok].
    by apply (Forall_lookup_1 _ _ _ _ Hf) in E. }
  destruct (mbind _ name) as [i|]; [|destruct (_ <? STATS_MAX)%nat eqn:El; [|done]]; cbn [ss_stats].
  - apply Hgen; [done|]. destruct (_ || _); by apply Hname.
  - pose proof (stats_ok_snoc _ (default [] name) Hs El) as Hs'.
    apply Hgen; [done|]. destruct (_ || _); by apply Hname.
Qed.

Lemma search_file_stats st content :
  stats_ok (ss_stats st) -> stats_ok (ss_stats (search_file_line st content)).
Proof.
  intros Hs. unfold search_file_line. cbn [ss_stats]. destruct (_ && _) eqn:E; [|done].
  apply andb_true_iff in E as [E _]. by apply stats_ok_snoc.
Qed.

Lemma search_line_stats text st l : stats_ok (ss_stats st) -> stats_ok (ss_stats (search_line text st l)).
Proof.
  intros Hs. unfold search_line. destruct (_ =? 0)%nat; [done|].
  destruct (ds4_tc_looks_grep_line _); [by apply search_match_stats|].
  destruct (_ && _); [by apply search_match_stats|].
  destruct (_ && _); [by apply search_file_stats | done].
Qed.

Lemma search_scan_stats text lines : stats_ok (ss_stats (search_scan text lines)).
Proof.
  unfold search_scan.
  assert (Hinv : forall st, stats_ok (ss_stats st) ->
            stats_ok (ss_stats (fold_left (search_line text) lines st))).
  { induction lines as [|l ls IH]; intros st Hs; cbn [fold_left]; [done|].
    by apply IH, search_line_stats. }
  apply Hinv. split; [cbn; lia|constructor].
Qed.

Lemma cstr_length s : zlen (cstr s) <= zlen s.
Proof. induction s as [|c s IH]; cbn; [done|]. destruct (c =? 0); zlen_lia. Qed.

Lemma stat_line_length s : (length (fs_name s) <= NAME_MAX_BYTES)%nat -> zlen (stat_line s) <= 300.
Proof.
  intros Hs. unfold stat_line. pose proof (cstr_length (fs_name s)). unfold NAME_MAX_BYTES in Hs.
  rewrite !zlen_app. zlen_bs. unfold zlen in *. lia.
Qed.

Lemma stat_lines_length named :
  Forall (fun s => (length (fs_name s) <= NAME_MAX_BYTES)%nat) named ->
  zlen (concat (stat_line <$> named)) <= 300 * zlen named.
Proof.
  induction 1 as [|s named Hs _ IH]; [done|]. cbn [fmap list_fmap concat]. rewrite zlen_app, zlen_cons.
  pose proof (stat_line_length s Hs). fold (stat_line <$> named). lia.
Qed.

Lemma log_header_length n s o : zlen (log_header n s o) <= 300.
Proof. unfold log_header. rewrite !zlen_app. zlen_bs. lia. Qed.

Lemma search_header_length n s o : zlen (search_header n s o) <= 300.
Proof. unfold search_header. rewrite !zlen_app. zlen_bs. lia. Qed.

Lemma diff_header_length a b c d e : zlen (diff_header a b c d e) <= 300.
Proof. unfold diff_header. rewrite !zlen_app. zlen_bs. lia. Qed.

Lemma json_header_length a b c : zlen (json_header a b c) <= 300.
Proof. unfold json_header. destruct c; rewrite !zlen_app; zlen_bs; rewrite ?zlen_nil; lia. Qed.

Lemma file_header_length a b c d : zlen (file_header a b c d) <= 300.
Proof. unfold file_header. destruct c; rewrite !zlen_app; zlen_bs; rewrite ?zlen_nil; lia. Qed.

Lemma sublist_take_trans {A} k (l m : list A) : l `sublist_of` m -> take k l `sublist_of` m.
Proof. intros H. etrans; [apply sublist_take|done]. Qed.

Section Bounds.
  Context {B : Type} `{GrowBufLaws B}.
  #[local] Set Default Proof Using "All".

Lemma json_bound text t :
  cd_text (ds4_tc_compress_json_array (B := B) text) = Some t -> zlen t <= 2 * zlen text + 40000.
Proof.
  unfold ds4_tc_compress_json_array. cbn [cd_text]. intros E. apply fmap_Some in E as (b & E & ->).
  apply bind_Some in E as (b0 & E0 & E). apply bind_Some in E as (b1 & E1 & E).
  apply bind_Some in E as (b2 & E2 & E).
  pose proof (gb_holds_append _ _ _ _ gb_holds_empty E0) as H1.
  pose proof (gb_holds_append _ _ _ _ H1 E1) as H2. rewrite app_nil_l in H2.
  set (hd := json_header _ _ _) in *. assert (Hh : zlen hd <= 300) by apply json_header_length.
  assert (Hnl : forall (b3 b4 : B) s c, gb_holds b3 s -> (if (c : bool) then gb_append b3 nl else Some b3) = Some b4 ->
            exists s', gb_holds b4 s' /\ zlen s' <= zlen s + 1).
  { intros b3 b4 s c Hs Ec. destruct c.
    - exists (s ++ nl). split; [by eapply gb_holds_append|]. rewrite zlen_app. zlen_bs. lia.
    - injection Ec as <-. exists s. split; [done|lia]. }
  destruct (Hnl _ _ _ _ H2 E2) as (s2 & H3 & Hl3). rewrite zlen_app in Hl3.
  pose proof (zlen_nonneg text). rewrite zlen_take in Hl3.
  destruct (0 <? _)%nat eqn:Et.
  - apply bind_Some in E as (b3 & E3 & E). apply bind_Some in E as (b4 & E4 & E).
    pose proof (gb_holds_append _ _ _ _ H3 E3) as G4.
    pose proof (gb_holds_append _ _ _ _ G4 E4) as G5.
    destruct (Hnl _ _ _ (negb (last_is_nl b4)) G5 E) as (s5 & H6 & Hl6). rewrite (gb_holds_bytes _ _ H6).
    rewrite !zlen_app, zlen_drop in Hl6. change (zlen nl) with 1 in Hl6.
    change (zlen (bl "sample_last:")) with 13 in Hl6. zlen_lia.
  - injection E as <-. rewrite (gb_holds_bytes _ _ H3). lia.
Qed.

(** No candidate is much longer than the text. *)
Lemma candidate_bound mem kind text kind' cand t :
  tc_candidate B mem kind text = (kind', cand) -> cd_text cand = Some t ->
  zlen t <= 2 * zlen text + 40000.
Proof.
  pose proof (zlen_nonneg text) as H0t.
  assert (Hfile : forall s, cd_text (ds4_tc_compress_file (B := B) mem text s) = Some t ->
                            zlen t <= 2 * zlen text + 40000).
  { intros s E. apply compress_file_inv in E as (lines & k1 & k2 & El & -> & _).
    set (h := file_header _ _ _ _). assert (zlen h <= 300) by apply file_header_length.
    pose proof (lines_text_bound mem text lines (take k1 (take 100 lines)) El) as G1.
    pose proof (lines_text_bound mem text lines (take k2 (if bool_decide (180 < length lines)%nat
      then drop (length lines - 80) lines else [])) El) as G2.
    rewrite !zlen_app.
    assert (H1' : zlen (lines_text text (take k1 (take 100 lines))) <= zlen text)
      by (apply G1; do 2 apply sublist_take_trans; done).
    assert (H2' : zlen (lines_text text (take k2 (if bool_decide (180 < length lines)%nat
      then drop (length lines - 80) lines else []))) <= zlen text).
    { apply G2, sublist_take_trans. case_bool_decide; [apply sublist_drop|apply sublist_nil_l]. }
    case_bool_decide; rewrite ?zlen_app; zlen_bs; rewrite ?zlen_nil in *; lia. }
  destruct kind; cbn [tc_candidate]; intros E Et.
  1, 7: destruct (_ <=? _); injection E as <- <-; [by eapply Hfile|done].
  all: injection E as <- <-.
  - apply compress_search_inv in Et as (lines & named & k & El & Hn & -> & _).
    destruct (search_scan_stats text lines) as [Hs1 Hs2].
    pose proof (sublist_length _ _ Hn) as Hnl. unfold STATS_MAX in Hs1.
    assert (Hb : zlen (concat (stat_line <$> named)) <= 300 * zlen named).
    { apply stat_lines_length, Forall_intro. intros s Hin. apply (Forall_elem _ _ _ Hs2).
      by eapply elem_of_sublist. }
    pose proof (search_header_length (length lines) (count_true (ss_show (search_scan text lines)))
      (omitted_of (length lines) (count_true (ss_show (search_scan text lines))))) as Hh.
    assert (Hp : zlen (lines_text text (take k (pick lines (ss_show (search_scan text lines))))) <= zlen text)
      by (eapply lines_text_bound; [exact El|]; apply sublist_take_trans, pick_sublist).
    rewrite !zlen_app. zlen_bs. unfold zlen in *. lia.
  - apply compress_log_inv in Et as (lines & show & k & El & _ & _ & -> & _).
    assert (Hp : zlen (lines_text text (take k (pick lines show))) <= zlen text)
      by (eapply lines_text_bound; [exact El|]; apply sublist_take_trans, pick_sublist).
    rewrite zlen_app. set (h := log_header _ _ _). assert (zlen h <= 300) by apply log_header_length. lia.
  - by apply json_bound.
  - apply compress_diff_inv in Et as (lines & sel & f & p & m & El & Hs & ->).
    pose proof (lines_text_bound mem text lines sel El Hs). pose proof (cstr_length (lines_text text sel)).
    rewrite zlen_app. set (h := diff_header _ _ _ _ _). assert (zlen h <= 300) by apply diff_header_length. lia.
  - by eapply Hfile.
Qed.

End Bounds.

(** ** The marker *)

Lemma no_nul_lit s : forallb (fun c => negb (c =? 0)) (bs s) = true -> no_nul (bs s).
Proof.
  intros Hf. apply Forall_intro. intros c Hc. rewrite forallb_forall in Hf.
  apply list_elem_of_In in Hc. specialize (Hf c Hc). by apply negb_true_iff, Z.eqb_neq in Hf.
Qed.

Lemma no_nul_dec n : 0 <= n < 10 ^ 20 -> no_nul (dec n).
Proof.
  intros Hn. destruct (dec_spec n Hn) as (_ & _ & Hd). eapply Forall_impl; [|exact Hd].
  intros c Hc ->. by vm_compute in Hc.
Qed.

Lemma no_nul_kind k : no_nul (ds4_tool_content_kind_name k).
Proof. destruct k; by apply no_nul_lit. Qed.

(** The header without the number. *)
Definition marker_front (r : ds4_tool_compress_result) : bytes :=
  bl "[ds4 compressed tool output]" ++
  bs "strategy: " ++ cstr (cr_strategy r) ++ nl ++
  bs "kind: " ++ ds4_tool_content_kind_name (cr_kind r) ++ nl ++
  bs "original_bytes: " ++ dec (cr_original_bytes r) ++ nl ++
  bs "compressed_bytes: ".

Definition marker_back (r : ds4_tool_compress_result) : bytes :=
  nl ++ bs "blob_id: " ++ cstr (cr_blob_id r) ++ nl ++
  bs "retrieve: retrieve_context_blob id=" ++ cstr (cr_blob_id r) ++ bl " offset=0 length=20000" ++
  bl "note: lossy live-zone compression; use retrieve_context_blob for exact original bytes." ++ nl.

Lemma marker_header_split r n : marker_header r n = marker_front r ++ dec n ++ marker_back r.
Proof. unfold marker_header, marker_front, marker_back. by rewrite <- !app_assoc. Qed.

(** The length of a marker with its body, the number aside. *)
Definition marker_base (r : ds4_tool_compress_result) (body : bytes) : Z :=
  zlen (marker_front r) + zlen (marker_back r) + zlen (cstr body).

Lemma marker_base_ge r body : 100 + zlen (cstr body) <= marker_base r body.
Proof.
  unfold marker_base, marker_front, marker_back. rewrite !zlen_app. zlen_bs.
  pose proof (zlen_nonneg (cstr (cr_strategy r))). pose proof (zlen_nonneg (cstr (cr_blob_id r))).
  pose proof (zlen_nonneg (ds4_tool_content_kind_name (cr_kind r))). lia.
Qed.

Lemma marker_header_no_nul r n :
  0 <= cr_original_bytes r < 10 ^ 20 -> 0 <= n < 10 ^ 20 -> no_nul (marker_header r n).
Proof.
  intros Ho Hn. unfold marker_header, bl, nl.
  repeat (apply no_nul_app; split); try (by apply no_nul_lit); try apply no_nul_cstr;
    try (by apply no_nul_dec); try apply no_nul_kind; by repeat constructor.
Qed.

(** The marked text with a given number in it. *)
Definition marked (r : ds4_tool_compress_result) (body : bytes) (n : Z) : bytes :=
  marker_header r n ++ cstr body.

Lemma marked_strlen r body n :
  0 <= cr_original_bytes r < 10 ^ 20 -> 0 <= n < 10 ^ 20 ->
  strlen (marked r body n) = marker_base r body + zlen (dec n).
Proof.
  intros Ho Hn. unfold strlen, marked. rewrite cstr_no_nul.
  - rewrite marker_header_split, !zlen_app. unfold marker_base. lia.
  - apply no_nul_app. split; [by apply marker_header_no_nul | apply no_nul_cstr].
Qed.

Section Marker.
  Context {B : Type} `{GrowBufLaws B}.
  #[local] Set Default Proof Using "All".

Lemma build_marker_inv r n body t :
  ds4_tc_build_marker B r n body = Some t -> t = marked r body n.
Proof.
  unfold ds4_tc_build_marker. intros E. apply fmap_Some in E as (b & E & ->).
  apply bind_Some in E as (b0 & E0 & E).
  pose proof (gb_holds_append _ _ _ _ gb_holds_empty E0) as G1.
  pose proof (gb_holds_append _ _ _ _ G1 E) as G2. by rewrite (gb_holds_bytes _ _ G2), app_nil_l.
Qed.

(** Four passes end with a text that states its own length. *)
Lemma marker_loop_fix r body n final :
  0 <= cr_original_bytes r < 10 ^ 20 -> zlen (cstr body) < 2 ^ 62 -> marker_base r body < 2 ^ 63 ->
  marker_loop B 4 r body (strlen body) [] = Some (n, final) ->
  final = marked r body n /\ n = zlen final /\ no_nul final.
Proof.
  intros Ho Hb Hbase. pose proof (marker_base_ge r body) as Hge.
  set (f := fun x => marker_base r body + zlen (dec x)).
  assert (Hf : forall x, 0 <= f x < 10 ^ 20).
  { intros x. unfold f. pose proof (dec_length_max x). pose proof (zlen_nonneg (cstr body)). lia. }
  assert (Hx0 : 0 <= strlen body < 10 ^ 20) by (unfold strlen; pose proof (zlen_nonneg (cstr body)); lia).
  assert (Hfix : f (f (f (f (strlen body)))) = f (f (f (strlen body)))).
  { apply (dec_fixpoint (marker_base r body) (strlen body)); unfold strlen;
      pose proof (zlen_nonneg (cstr body)); lia. }
  assert (Hstep : forall p x t, 0 <= x < 10 ^ 20 -> marker_loop B (S p) r body x t =
     match ds4_tc_build_marker B r x body with
     | None => None
     | Some t' => if f x =? x then Some (x, marked r body x) else marker_loop B p r body (f x) (marked r body x)
     end).
  { intros p x t Hx. cbn [marker_loop]. destruct (ds4_tc_build_marker B r x body) as [t'|] eqn:E; [|done].
    apply build_marker_inv in E as ->. cbn [mbind option_bind]. by rewrite marked_strlen. }
  assert (Hend : forall x, 0 <= x < 10 ^ 20 -> f x = x ->
     marked r body x = marked r body x /\ x = zlen (marked r body x) /\ no_nul (marked r body x)).
  { intros x Hx Hfx. split; [done|].
    assert (Hn : no_nul (marked r body x))
      by (apply no_nul_app; split; [by apply marker_header_no_nul | apply no_nul_cstr]).
    split; [|done]. rewrite <- Hfx at 1. unfold f. rewrite <- marked_strlen by done.
    unfold strlen. by rewrite cstr_no_nul. }
  rewrite Hstep by done. destruct (ds4_tc_build_marker _ _ _ _); [|done].
  destruct (Z.eqb_spec (f (strlen body)) (strlen body)) as [E|]; [intros [= <- <-]; by apply Hend|].
  rewrite Hstep by done. destruct (ds4_tc_build_marker _ _ _ _); [|done].
  destruct (Z.eqb_spec (f (f (strlen body))) (f (strlen body))) as [E|]; [intros [= <- <-]; by apply Hend|].
  rewrite Hstep by done. destruct (ds4_tc_build_marker _ _ _ _); [|done].
  destruct (Z.eqb_spec (f (f (f (strlen body)))) (f (f (strlen body)))) as [E|]; [intros [= <- <-]; by apply Hend|].
  rewrite Hstep by done. destruct (ds4_tc_build_marker _ _ _ _); [|done].
  rewrite Hfix, Z.eqb_refl. intros [= <- <-]. by apply Hend.
Qed.

End Marker.

Lemma marker_base_le r body :
  (length (cr_strategy r) <= 63)%nat -> (length (cr_blob_id r) <= 79)%nat ->
  marker_base r body <= 1000 + zlen (cstr body).
Proof.
  intros Hs Hi. unfold marker_base, marker_front, marker_back. rewrite !zlen_app. zlen_bs.
  pose proof (cstr_length (cr_strategy r)). pose proof (cstr_length (cr_blob_id r)).
  assert (zlen (ds4_tool_content_kind_name (cr_kind r)) <= 10) by (by destruct (cr_kind r)).
  unfold zlen in *. lia.
Qed.

Lemma too_long_spec n len :
  0 <= n < 2 ^ 61 -> 0 <= len < 2 ^ 61 -> too_long n len = (4 * len <=? 5 * n).
Proof.
  intros Hn Hl. unfold too_long, u64. rewrite !wrap_small by (unfold in_u; lia).
  by rewrite (Z.mul_comm len), (Z.mul_comm n).
Qed.

Section Compressed.
  Context {B : Type} `{GrowBufLaws B}.
  #[local] Set Default Proof Using "All".

(** A shortened result: what the caller gets and what the store holds. *)
Definition shortened (mem : Z -> bool) (tool_name : option bytes) (text : bytes) (base : option bytes)
    (w w' : world) (out : ds4_tool_compress_result) : Prop :=
  cr_original_saved out = true /\
  cr_blob_id out = BLOB_ID_PREFIX ++ sha256_hex text /\
  cr_original_bytes out = zlen text /\
  (exists b, base = Some b /\ b <> []) /\
  (let path := blob_path (default [] base) text in
   w_files w' !! path = match w_files w !! path with Some c => Some c | None => Some text end) /\
  exists cand body t,
    tc_candidate B mem (ds4_tool_classify_output mem tool_name text) text = (cr_kind out, cand) /\
    cd_text cand = Some body /\ cr_omitted_lines out = cd_omitted_lines cand /\
    cr_text out = Some t /\ t = marked out body (cr_compressed_bytes out) /\
    cr_compressed_bytes out = zlen t /\ 5 * zlen t < 4 * zlen text.

Lemma compress_text_facts mem sha_block tool_name text base w :
  length sha_block = 64%nat -> zlen text < 2 ^ 59 ->
  let '((out, e), w') := ds4_tool_compress_result_text B mem sha_block tool_name text base w in
  since (w_hist w) (blob_states (w_files w) (blob_path (default [] base) text) text) w' /\
  (cr_changed out = false /\ cr_text out = None \/
   cr_changed out = true /\ e = None /\ shortened mem tool_name text base w w' out).
Proof.
  intros Hsb Hlen. pose proof (zlen_nonneg text) as H0t.
  assert (Hw : since (w_hist w) (blob_states (w_files w) (blob_path (default [] base) text) text) w)
    by (apply since_start; split; [done|by left]).
  unfold ds4_tool_compress_result_text.
  destruct (tool_in tool_name _); [by split; [|left]|].
  destruct (zlen text <? _); [by split; [|left]|].
  destruct (tc_candidate B mem _ text) as [kind cand] eqn:Ec. cbn [result_init cr_kind] in Ec.
  destruct (cd_text cand) as [body|] eqn:Eb; [|by split; [|left]].
  destruct (too_long (strlen body) (zlen text)); [by split; [|left]|].
  destruct base as [[|x b]|]; [by split; [|left]| |by split; [|left]]. set (base := x :: b) in *.
  pose proof (blob_put_facts sha_block (Some base) text w Hsb) as Hput. unfold io_bind.
  destruct (ds4_context_blob_put_text sha_block (Some base) text w) as [r w1].
  destruct Hput as [Hsince Hput]. destruct r as [ref|]; [|by split; [|left]].
  destruct (Hput ref eq_refl) as (Hid & _ & _ & Hc). set (out := result_saved _ _ _).
  destruct (marker_loop B 4 out body (strlen body) []) as [[n final]|] eqn:Em; [|by split; [|left]].
  assert (Hbl : zlen (cstr body) <= 2 * zlen text + 40000).
  { pose proof (cstr_length body). pose proof (candidate_bound _ _ _ _ _ _ Ec Eb). lia. }
  destruct (sha256_hex_shape text) as [Hhl _].
  assert (Hid79 : take 79 (br_id ref) = BLOB_ID_PREFIX ++ sha256_hex text).
  { rewrite Hid. apply take_ge. rewrite length_app. change (length BLOB_ID_PREFIX) with 7%nat. unfold zlen in Hhl. lia. }
  assert (Hu : u64 (zlen text) = zlen text) by (apply wrap_small; unfold in_u; lia).
  assert (Hmb : marker_base out body <= 1000 + zlen (cstr body)).
  { apply marker_base_le; cbn [out result_saved cr_strategy cr_blob_id]; rewrite length_take; lia. }
  apply marker_loop_fix in Em as (Hfin & Hn & _);
    [|cbn [out result_saved set_kind result_init cr_original_bytes]; rewrite Hu; lia|lia|lia].
  assert (Hzf : zlen final <= marker_base out body + 20).
  { rewrite Hfin. unfold marked. rewrite marker_header_split, !zlen_app. pose proof (dec_length_max n).
    unfold marker_base. lia. }
  pose proof (zlen_nonneg final).
  rewrite too_long_spec by lia.
  destruct (Z.leb_spec (4 * zlen text) (5 * n)); [by split; [|left]|].
  split; [done|]. right. split_and!; [done..|].
  unfold shortened. cbn [result_changed cr_original_saved cr_blob_id cr_original_bytes cr_kind cr_omitted_lines
    cr_text cr_compressed_bytes out result_saved set_kind result_init].
  split_and!; [done|done|done|by exists base|done|].
  exists cand, body, final. split_and!; try done. lia.
Qed.

(** The original can be asked for again. *)
Definition range_readable (base text id : bytes) (fs : files) : Prop :=
  forall w (offset n : Z), w_files w = fs -> 0 <= offset -> 0 <= n ->
  let r := (ds4_context_blob_read_range (Some base) (Some id) offset n w).1 in
  (forall b, r = inl b -> b = range text offset n) /\
  (quiet w -> read_ok base text offset n -> r = inl (range text offset n)).

(** C28. Compressing a tool result does not lose the original, whichever calls
    fail: if the result is marked changed, the call has succeeded, the result names
    the SHA-256 of the original, the returned text is the marker of exactly its own
    length followed by the excerpt, and it is shorter than four fifths of the
    original.  Under that name the blob store then holds the original, provided that
    there was no such file or it held the original, and reading the name back gives
    every range of the original.  A file of that name with another content is
    trusted unread and stays ([blob_put_trusts_existing]): then the store does not
    hold the original.  Otherwise nothing is returned in place of the original.  At
    every moment no file but that blob differs, and the blob holds a prefix of the
    original. *)
Theorem compress_lossless mem sha_block tool_name text base w :
  length sha_block = 64%nat -> zlen text < 2 ^ 59 ->
  let res := ds4_tool_compress_result_text B mem sha_block tool_name text base w in
  let out := res.1.1 in
  since (w_hist w) (blob_states (w_files w) (blob_path (default [] base) text) text) res.2 /\
  (cr_changed out = false /\ cr_text out = None \/
   cr_changed out = true /\ res.1.2 = None /\ shortened mem tool_name text base w res.2 out /\
   forall b, base = Some b -> w_files w !! blob_path b text = None \/ w_files w !! blob_path b text = Some text ->
     w_files res.2 !! blob_path b text = Some text /\ range_readable b text (cr_blob_id out) (w_files res.2)).
Proof.
  intros Hsb Hlen. pose proof (compress_text_facts mem sha_block tool_name text base w Hsb Hlen) as Hf.
  destruct (ds4_tool_compress_result_text _ _ _ _ _ _ _) as [[out e] w']. cbn [fst snd].
  destruct Hf as [Hs [?|(Hch & He & Hsh)]]; [by split; [|left]|]. split; [done|]. right. split_and!; [done..|].
  intros b -> Hfree. destruct Hsh as (_ & Hid & _ & _ & Hc & _). cbn [default from_option id] in Hc.
  assert (Hc' : w_files w' !! blob_path b text = Some text) by (by destruct Hfree as [E|E]; rewrite E in Hc).
  split; [done|]. intros w2 offset n Ef Ho Hn.
  pose proof (roundtrip_of_put b text (cr_blob_id out) w' w2 offset n Hid Hc' Ef Ho Hn) as Hr.
  destruct (ds4_context_blob_read_range _ _ _ _ w2) as [r w3]. by destruct Hr as (_ & ? & ?).
Qed.

(** The way back: whenever a result was shortened into a store that had no
    blob of that name, reading the blob id of the result afterwards yields the
    requested range of the original, byte for byte, and fails only if a call
    fails. *)
Lemma compress_then_retrieve mem sha_block tool_name text base w out e w1 w2 offset n :
  length sha_block = 64%nat -> zlen text < 2 ^ 59 ->
  w_files w !! blob_path base text = None ->
  ds4_tool_compress_result_text B mem sha_block tool_name text (Some base) w = ((out, e), w1) ->
  cr_changed out = true -> w_files w2 = w_files w1 -> 0 <= offset -> 0 <= n ->
  let res := ds4_context_blob_read_range (Some base) (Some (cr_blob_id out)) offset n w2 in
  w_files res.2 = w_files w1 /\ (forall b, res.1 = inl b -> b = range text offset n) /\
  (quiet w2 -> read_ok base text offset n -> res.1 = inl (range text offset n)).
Proof.
  intros Hsb Hlen Hfree Hrun Hch Ef2 Ho Hn.
  pose proof (compress_text_facts mem sha_block tool_name text (Some base) w Hsb Hlen) as Hf.
  rewrite Hrun in Hf. destruct Hf as [_ [[Hno _]|(_ & _ & Hs)]]; [congruence|].
  destruct Hs as (_ & Hid & _ & _ & Hc & _). cbn [default from_option id] in Hc. rewrite Hfree in Hc.
  pose proof (roundtrip_of_put base text (cr_blob_id out) w1 w2 offset n Hid Hc Ef2 Ho Hn) as Hr.
  by destruct (ds4_context_blob_read_range _ _ _ _ w2).
Qed.

End Compressed.
Arguments shortened B {_}.

(** ** A run *)

Definition tc_example_bytes : bytes :=
  bl "diff --git a/f b/f" ++ bl "@@ -1,3 +1,3 @@" ++ concat (replicate 21 (replicate 200 32 ++ nl)) ++ bl "+x".

Definition tc_example_world : world := mkWorld ∅ [] ∅ [] 7 [] (fun l => l).

Definition tc_example_run : (ds4_tool_compress_result * option tc_error) * world :=
  ds4_tool_compress_result_text ds4_tc_buf (fun _ => true) (replicate 64 0) (Some (bs "bash"))
    tc_example_bytes (Some (bs "/b")) tc_example_world.

(** A diff of 24 lines, most of them context, is shortened to three. *)
Lemma tc_example_changed : cr_changed tc_example_run.1.1 = true.
Proof. vm_cast_no_check (eq_refl true). Qed.

Lemma tc_example_eq :
  ds4_tool_compress_result_text ds4_tc_buf (fun _ => true) (replicate 64 0) (Some (bs "bash"))
    tc_example_bytes (Some (bs "/b")) tc_example_world
  = ((tc_example_run.1.1, tc_example_run.1.2), tc_example_run.2).
Proof. unfold tc_example_run. by destruct (ds4_tool_compress_result_text _ _ _ _ _ _ _) as [[??]?]. Qed.

Lemma tc_example_length : zlen tc_example_bytes < 2 ^ 59.
Proof. vm_compute. reflexivity. Qed.

Lemma compress_lossless_witness :
  zlen tc_example_bytes < 2 ^ 59 /\ cr_changed tc_example_run.1.1 = true /\
  shortened ds4_tc_buf (fun _ => true) (Some (bs "bash")) tc_example_bytes (Some (bs "/b"))
    tc_example_world tc_example_run.2 tc_example_run.1.1 /\
  w_files tc_example_run.2 !! blob_path (bs "/b") tc_example_bytes = Some tc_example_bytes /\
  range_readable (bs "/b") tc_example_bytes (cr_blob_id tc_example_run.1.1) (w_files tc_example_run.2).
Proof.
  split; [exact tc_example_length|]. split; [exact tc_example_changed|].
  destruct (compress_lossless (B := ds4_tc_buf) (fun _ => true) (replicate 64 0) (Some (bs "bash"))
    tc_example_bytes (Some (bs "/b")) tc_example_world eq_refl tc_example_length) as [_ [[Hno _]|(_ & _ & Hs & Hst)]].
  { fold tc_example_run in Hno. by rewrite tc_example_changed in Hno. }
  split; [exact Hs|]. apply Hst; [done|]. left. apply lookup_empty.
Defined.

Lemma compress_then_retrieve_witness :
  cr_changed tc_example_run.1.1 = true /\
  let res := ds4_context_blob_read_range (Some (bs "/b")) (Some (cr_blob_id tc_example_run.1.1))
    1 30 tc_example_run.2 in
  w_files res.2 = w_files tc_example_run.2 /\
  (forall b, res.1 = inl b -> b = range tc_example_bytes 1 30) /\
  (quiet tc_example_run.2 -> read_ok (bs "/b") tc_example_bytes 1 30 ->
   res.1 = inl (range tc_example_bytes 1 30)).
Proof.
  split; [exact tc_example_changed|].
  exact (compress_then_retrieve (B := ds4_tc_buf) (fun _ => true) (replicate 64 0) (Some (bs "bash"))
    tc_example_bytes (bs "/b") tc_example_world tc_example_run.1.1 tc_example_run.1.2
    tc_example_run.2 tc_example_run.2 1 30 eq_refl tc_example_length
    (lookup_empty (blob_path (bs "/b") tc_example_bytes)) tc_example_eq tc_example_changed eq_refl
    ltac:(lia) ltac:(lia)).
Defined.
