(* ===== verification/Strtod.v ===== *)
(** * Strtod: [strtod] in the C locale

    The longest prefix that is a number (decimal, hexadecimal, infinity or NaN)
    and its correctly rounded binary64 value. *)

From S2P Require Import Prelude Ctype KvStore.
From Stdlib Require Import Floats.SpecFloat.

(** A prefix up to case. *)
Fixpoint strip_ci (lit s : bytes) : option bytes :=
  match lit, s with
  | [], _ => Some s
  | a :: lit', c :: s' => if tolower c =? a then strip_ci lit' s' else None
  | _ :: _, [] => None
  end.

Definition hex_digit_value (c : Z) : Z :=
  if isdigit c then c - ch "0" else tolower c - ch "a" + 10.

Fixpoint hex_value_of (acc : Z) (s : bytes) : Z :=
  match s with
  | [] => acc
  | c :: s' => hex_value_of (acc * 16 + hex_digit_value c) s'
  end.

(** The digits before and after the point, and the rest; [None] without a digit.
    A point without a digit after it still belongs to the number. *)
Definition scan_digits (f : Z -> bool) (s : bytes) : option (bytes * bytes * bytes) :=
  let n := span_len f s in
  let ip := take n s in
  let s1 := drop n s in
  let '(fp, s2) :=
    match s1 with
    | c :: s1' => if c =? ch "." then let k := span_len f s1' in (take k s1', drop k s1') else ([], s1)
    | [] => ([], s1)
    end in
  match ip, fp with
  | [], [] => None
  | _, _ => Some (ip, fp, s2)
  end.

(** An exponent [e], sign and digits; without digits the [e] is left alone. *)
Definition scan_exponent (e : Z) (s : bytes) : Z * bytes :=
  match s with
  | c :: s1 =>
      if tolower c =? e then
        let '(neg, s2) :=
          match s1 with
          | d :: s2 => if d =? ch "-" then (true, s2) else if d =? ch "+" then (false, s2) else (false, s1)
          | [] => (false, s1)
          end in
        match span_len isdigit s2 with
        | O => (0, s)
        | k => let v := digits_value 0 (take k s2) in ((if neg then - v else v), drop k s2)
        end
      else (0, s)
  | [] => (0, s)
  end.

(** [m * 10^e], rounded once. *)
Definition d_of_decimal (neg : bool) (m e : Z) : double :=
  match m with
  | Zpos p =>
      if 0 <=? e then binary_normalize 53 1024 (if neg then - (m * 10 ^ e) else m * 10 ^ e) 0 neg
      else
        let '(q, x, l) := SFdiv_core_binary 53 1024 m 0 (10 ^ (- e)) 0 in
        binary_round_aux 53 1024 neg q x l
  | _ => S754_zero neg
  end.

Definition d_of_hex (neg : bool) (m e : Z) : double :=
  binary_normalize 53 1024 (if neg then - m else m) e neg.

(** After "nan": an optional sequence in parentheses. *)
Definition nan_tail (s : bytes) : bytes :=
  match s with
  | c :: s1 =>
      if c =? ch "(" then
        let k := span_len (fun c => isdigit c || islower (tolower c) || (c =? ch "_")) s1 in
        match drop k s1 with
        | d :: s2 => if d =? ch ")" then s2 else s
        | [] => s
        end
      else s
  | [] => s
  end.

Definition scan_decimal (neg : bool) (s : bytes) : option (double * bytes) :=
  '(ip, fp, s1) ← scan_digits isdigit s;
  let '(e, s2) := scan_exponent (ch "e") s1 in
  Some (d_of_decimal neg (digits_value 0 (ip ++ fp)) (e - zlen fp), s2).

Definition scan_hex (neg : bool) (s : bytes) : option (double * bytes) :=
  s0 ← strip_ci (bs "0x") s;
  '(ip, fp, s1) ← scan_digits isxdigit s0;
  let '(e, s2) := scan_exponent (ch "p") s1 in
  Some (d_of_hex neg (hex_value_of 0 (ip ++ fp)) (e - 4 * zlen fp), s2).

Definition strtod_unsigned (neg : bool) (s : bytes) : option (double * bytes) :=
  match strip_ci (bs "infinity") s, strip_ci (bs "inf") s, strip_ci (bs "nan") s with
  | Some s1, _, _ => Some (S754_infinity neg, s1)
  | None, Some s1, _ => Some (S754_infinity neg, s1)
  | None, None, Some s1 => Some (S754_nan, nan_tail s1)
  | None, None, None =>
      match scan_hex neg s with
      | Some r => Some r
      | None => scan_decimal neg s
      end
  end.

(** [strtod(s, &end)]: the value and the text from [end] on; [None] when nothing
    is converted.  The source has skipped white space already. *)
Definition strtod (s : bytes) : option (double * bytes) :=
  let s := drop (span_len isspace s) s in
  match s with
  | c :: s1 => if c =? ch "-" then strtod_unsigned true s1
               else if c =? ch "+" then strtod_unsigned false s1 else strtod_unsigned false s
  | [] => None
  end.

(** [(int)v]: toward zero; undefined ([None]) for NaN and outside the range. *)
Definition d_to_int (v : double) : option Z :=
  let t := match v with
           | S754_zero _ => Some 0
           | S754_finite s m e =>
               let a := if 0 <=? e then Z.shiftl (Zpos m) e else Z.shiftr (Zpos m) (- e) in
               Some (if s then - a else a)
           | _ => None
           end in
  z ← t; if (- 2 ^ 31 <=? z) && (z <? 2 ^ 31) then Some z else None.

(** ** A conversion consumes at least one byte *)

Lemma strip_ci_length lit s r :
  strip_ci lit s = Some r -> (length r + length lit = length s)%nat.
Proof.
  revert s. induction lit as [|a lit IH]; intros s; cbn; [intros [= ->]; lia|].
  destruct s as [|c s]; [done|]. destruct (_ =? _); [|done]. intros H%IH. cbn. lia.
Qed.

Lemma scan_exponent_le e s v r : scan_exponent e s = (v, r) -> (length r <= length s)%nat.
Proof.
  unfold scan_exponent. destruct s as [|c s]; [intros [= <- <-]; lia|].
  destruct (_ =? _); [|intros [= <- <-]; lia].
  set (p := match s with [] => _ | _ :: _ => _ end).
  assert (Hp : (length p.2 <= length s)%nat)
    by (subst p; destruct s as [|d s2]; [done|]; repeat case_match; simplify_eq; cbn [snd length]; lia).
  destruct p as [neg s2]. cbn in Hp.
  destruct (span_len isdigit s2); intros [= <- <-]; rewrite ?length_drop; cbn [length] in *; lia.
Qed.

Lemma scan_digits_lt f s ip fp r :
  scan_digits f s = Some (ip, fp, r) -> (length r < length s)%nat.
Proof.
  unfold scan_digits. pose proof (span_len_le f s) as Hn.
  destruct (drop (span_len f s) s) as [|c s1] eqn:Ed; apply (f_equal length) in Ed;
    rewrite length_drop in Ed; cbn [length] in Ed.
  - destruct (take _ s) eqn:Et; [done|]. intros [= <- <- <-].
    apply (f_equal length) in Et. rewrite length_take in Et. cbn in *. lia.
  - destruct (c =? ch ".").
    + assert (Hr : (length (drop (span_len f s1) s1) < length s)%nat) by (rewrite length_drop; lia).
      destruct (take _ s); [|by intros [= <- <- <-]].
      destruct (take _ s1); [done|by intros [= <- <- <-]].
    + destruct (take _ s) eqn:Et; [done|]. intros [= <- <- <-].
      apply (f_equal length) in Et. rewrite length_take in Et. cbn in *. lia.
Qed.

Lemma scan_decimal_lt neg s v r : scan_decimal neg s = Some (v, r) -> (length r < length s)%nat.
Proof.
  unfold scan_decimal. intros H. apply bind_Some in H as ([[ip fp] s1] & E & H).
  apply scan_digits_lt in E. destruct (scan_exponent (ch "e") s1) as [e s2] eqn:Ee.
  apply scan_exponent_le in Ee. injection H as <- <-. lia.
Qed.

Lemma scan_hex_lt neg s v r : scan_hex neg s = Some (v, r) -> (length r < length s)%nat.
Proof.
  unfold scan_hex. intros H. apply bind_Some in H as (s0 & E0 & H). apply strip_ci_length in E0.
  apply bind_Some in H as ([[ip fp] s1] & E & H). apply scan_digits_lt in E.
  destruct (scan_exponent (ch "p") s1) as [e s2] eqn:Ee. apply scan_exponent_le in Ee.
  injection H as <- <-. lia.
Qed.

Lemma nan_tail_le s : (length (nan_tail s) <= length s)%nat.
Proof.
  unfold nan_tail. destruct s as [|c s1]; [done|]. destruct (c =? _); [|done].
  destruct (drop _ s1) as [|d s2] eqn:E; [done|]. apply (f_equal length) in E.
  rewrite length_drop in E. cbn [length] in *. destruct (d =? _); cbn [length]; lia.
Qed.

Lemma strtod_unsigned_lt neg s v r : strtod_unsigned neg s = Some (v, r) -> (length r < length s)%nat.
Proof.
  unfold strtod_unsigned.
  destruct (strip_ci (bs "infinity") s) as [s1|] eqn:E1.
  { intros [= <- <-]. apply strip_ci_length in E1. cbn in E1. lia. }
  destruct (strip_ci (bs "inf") s) as [s1|] eqn:E2.
  { intros [= <- <-]. apply strip_ci_length in E2. cbn in E2. lia. }
  destruct (strip_ci (bs "nan") s) as [s1|] eqn:E3.
  { intros [= <- <-]. apply strip_ci_length in E3. pose proof (nan_tail_le s1). cbn in E3. lia. }
  destruct (scan_hex neg s) as [[v' r']|] eqn:E4.
  - intros [= <- <-]. by eapply scan_hex_lt.
  - apply scan_decimal_lt.
Qed.

Lemma strtod_lt s v r : strtod s = Some (v, r) -> (length r < length s)%nat.
Proof.
  unfold strtod. destruct (drop _ s) as [|c s1] eqn:E; [done|]. apply (f_equal length) in E.
  rewrite length_drop in E. cbn [length] in E.
  destruct (c =? _); [intros H%strtod_unsigned_lt; lia|].
  destruct (c =? _); intros H%strtod_unsigned_lt; cbn [length] in *; lia.
Qed.

Example strtod_runs :
  map (fun s => match strtod (bs s) with Some (v, r) => (d_to_int v, length r) | None => (None, 99%nat) end)
    ["12,"; "-3.75e1x"; "0x1p4 "; "1e"; "1."; ".5"; "."; "nan"; "2147483648"; "0.1"]%string
  = zip [Some 12; Some (-37); Some 16; Some 1; Some 1; Some 0; None; None; None; Some 0]
        [1; 1; 1; 1; 0; 0; 99; 0; 0; 0]%nat.
Proof. vm_compute. reflexivity. Qed.

Example strtod_tenth : fst <$> strtod (bs "0.1") = Some (S754_finite false 7205759403792794 (-56)).
Proof. vm_compute. reflexivity. Qed.

(** ** The rest is a tail of the text *)

Lemma strip_ci_suffix lit s r : strip_ci lit s = Some r -> r `suffix_of` s.
Proof.
  revert s. induction lit as [|a lit IH]; intros s; cbn; [by intros [= ->]|].
  destruct s as [|c s]; [done|]. destruct (_ =? _); [|done]. intros H%IH. by apply suffix_cons_r.
Qed.

Lemma suffix_drop n (s : bytes) : drop n s `suffix_of` s.
Proof. exists (take n s). by rewrite take_drop. Qed.

Lemma scan_exponent_suffix e s v r : scan_exponent e s = (v, r) -> r `suffix_of` s.
Proof.
  unfold scan_exponent. destruct s as [|c s]; [by intros [= <- <-]|].
  destruct (_ =? _); [|by intros [= <- <-]].
  set (p := match s with [] => _ | _ :: _ => _ end).
  assert (Hp : p.2 `suffix_of` s).
  { subst p. destruct s as [|d s2]; [done|]; repeat case_match; simplify_eq; cbn [snd]; try done;
      by apply suffix_cons_r. }
  destruct p as [neg s2]. cbn in Hp.
  destruct (span_len isdigit s2); intros [= <- <-]; [done|]. apply suffix_cons_r. etrans; [apply suffix_drop|done].
Qed.

Lemma scan_digits_suffix f s ip fp r : scan_digits f s = Some (ip, fp, r) -> r `suffix_of` s.
Proof.
  unfold scan_digits. pose proof (suffix_drop (span_len f s) s) as Hs.
  destruct (drop (span_len f s) s) as [|c s1].
  - by destruct (take _ s); intros [= <- <- <-].
  - assert (Hr : drop (span_len f s1) s1 `suffix_of` s)
      by (etrans; [apply suffix_drop|]; etrans; [|exact Hs]; by apply suffix_cons_r).
    destruct (c =? ch "."); destruct (take _ s); try destruct (take _ s1); by intros [= <- <- <-].
Qed.

Lemma strtod_unsigned_suffix neg s v r : strtod_unsigned neg s = Some (v, r) -> r `suffix_of` s.
Proof.
  unfold strtod_unsigned.
  destruct (strip_ci (bs "infinity") s) eqn:E1; [intros [= <- <-]; by eapply strip_ci_suffix|].
  destruct (strip_ci (bs "inf") s) eqn:E2; [intros [= <- <-]; by eapply strip_ci_suffix|].
  destruct (strip_ci (bs "nan") s) as [s1|] eqn:E3.
  { intros [= <- <-]. etrans; [|by eapply strip_ci_suffix]. unfold nan_tail.
    destruct s1 as [|c s1]; [done|]. destruct (c =? _); [|done].
    pose proof (suffix_drop (span_len (fun c => isdigit c || islower (tolower c) || (c =? ch "_")) s1) s1) as Hd.
    destruct (drop _ s1) as [|d s2]; [done|]. destruct (d =? _); [|done].
    apply suffix_cons_r. etrans; [|exact Hd]. by apply suffix_cons_r. }
  destruct (scan_hex neg s) as [[v' r']|] eqn:E4.
  - intros [= <- <-]. unfold scan_hex in E4. apply bind_Some in E4 as (s0 & E0 & H). apply strip_ci_suffix in E0.
    apply bind_Some in H as ([[ip fp] s1] & E & H). apply scan_digits_suffix in E.
    destruct (scan_exponent (ch "p") s1) as [e s2] eqn:Ee. apply scan_exponent_suffix in Ee.
    injection H as <- <-. etrans; [exact Ee|]. by etrans.
  - unfold scan_decimal. intros H. apply bind_Some in H as ([[ip fp] s1] & E & H).
    apply scan_digits_suffix in E. destruct (scan_exponent (ch "e") s1) as [e s2] eqn:Ee.
    apply scan_exponent_suffix in Ee. injection H as <- <-. by etrans.
Qed.

Lemma strtod_suffix s v r : strtod s = Some (v, r) -> r `suffix_of` s.
Proof.
  unfold strtod. pose proof (suffix_drop (span_len isspace s) s) as Hd.
  destruct (drop _ s) as [|c s1]; [done|]. intros H.
  assert (Hr : r `suffix_of` c :: s1).
  { destruct (c =? ch "-"); [|destruct (c =? ch "+")]; apply strtod_unsigned_suffix in H; try done;
      by apply suffix_cons_r. }
  by etrans.
Qed.
