(* ===== verification/Think.v ===== *)
(** * Think: the thinking modes (ds4.h, ds4.c) *)

From S2P Require Import Prelude.

Inductive ds4_think_mode : Type := DS4_THINK_NONE | DS4_THINK_HIGH | DS4_THINK_MAX.

Definition ds4_think_mode_enabled (mode : ds4_think_mode) : bool :=
  match mode with DS4_THINK_HIGH | DS4_THINK_MAX => true | DS4_THINK_NONE => false end.

Definition ds4_think_mode_name (mode : ds4_think_mode) : bytes :=
  match mode with
  | DS4_THINK_NONE => bs "none"
  | DS4_THINK_HIGH => bs "high"
  | DS4_THINK_MAX => bs "max"
  end.

Definition DS4_THINK_MAX_MIN_CONTEXT : Z := 393216.

Definition ds4_think_mode_for_context (mode : ds4_think_mode) (ctx_size : Z) : ds4_think_mode :=
  match mode with
  | DS4_THINK_MAX => if u32 (if 0 <? ctx_size then ctx_size else 0) <? DS4_THINK_MAX_MIN_CONTEXT
                     then DS4_THINK_HIGH else DS4_THINK_MAX
  | m => m
  end.

Definition DS4_REASONING_EFFORT_MAX_PREFIX : bytes :=
  bs "Reasoning Effort: Absolute maximum with no shortcuts permitted." ++ [10] ++
  bs "You MUST be very thorough in your thinking and comprehensively decompose the problem to resolve the root cause, rigorously stress-testing your logic against all potential paths, edge cases, and adversarial scenarios." ++ [10] ++
  bs "Explicitly write out your entire deliberation process, documenting every intermediate step, considered alternative, and rejected hypothesis to ensure absolutely no assumption is left unchecked." ++ [10; 10].
