(* ===== verification/Json.v ===== *)
(** * Json: the request parser and the string writer (ds4_server.c)

    A [const char *] cursor into a C string is the list of the bytes from it up
    to the terminating NUL; reading behind the end yields 0.  A [buf] is its
    contents: an append that does not hold them ends the process (DynBuf.v). *)

From S2P Require Import Prelude Ctype KvStore Strtod.

(** [true] with the value and the new cursor, or [false]; the third is proved
    unreachable. *)
Inductive jres (A : Type) : Type :=
| JOk (a : A) (p : bytes)
| JFail
| JNoFuel.
Arguments JOk {A} a p.
Arguments JFail {A}.
Arguments JNoFuel {A}.

Definition jbind {A B} (m : jres A) (k : A -> bytes -> jres B) : jres B :=
  match m with
  | JOk a p => k a p
  | JFail => JFail
  | JNoFuel => JNoFuel
  end.

Declare Scope json_scope.
Delimit Scope json_scope with json.
Notation "'let?' ( x , p ) := m 'in' k" := (jbind m (fun x p => k))
  (at level 10, x name, p name, m at level 100, k at level 200) : json_scope.
Open Scope json_scope.

Definition of_option {A} (o : option (A * bytes)) : jres A :=
  match o with Some (a, p) => JOk a p | None => JFail end.

(** [**p] *)
Definition peek (p : bytes) : Z := match p with c :: _ => c | [] => 0 end.

(** [**p == c] with a character literal. *)
Definition at_ch (p : bytes) (a : ascii) : bool := peek p =? ch a.
Arguments at_ch p a%_char_scope.

Definition quote : Z := 34.
Definition backslash : Z := 92.

Definition json_ws (p : bytes) : bytes := drop (span_len isspace p) p.

Definition json_lit (p lit : bytes) : option bytes := strip_prefix lit p.

Definition json_hex (c : Z) : Z :=
  if (ch "0" <=? c) && (c <=? ch "9") then c - ch "0"
  else if (ch "a" <=? c) && (c <=? ch "f") then 10 + c - ch "a"
  else if (ch "A" <=? c) && (c <=? ch "F") then 10 + c - ch "A"
  else -1.

(** The bytes appended to the buffer; [(char)] keeps the low eight bits. *)
Definition utf8_put (cp : Z) : bytes :=
  let cont k := u8 (Z.lor 128 (Z.land (Z.shiftr cp k) 63)) in
  if cp <=? 127 then [u8 cp]
  else if cp <=? 2047 then [u8 (Z.lor 192 (Z.shiftr cp 6)); cont 0]
  else if cp <=? 65535 then [u8 (Z.lor 224 (Z.shiftr cp 12)); cont 6; cont 0]
  else [u8 (Z.lor 240 (Z.shiftr cp 18)); cont 12; cont 6; cont 0].

(** The loop over the hex digits. *)
Fixpoint json_u16_loop (n : nat) (p : bytes) (cp : Z) : option (Z * bytes) :=
  match n with
  | O => Some (cp, p)
  | S n' =>
      let h := json_hex (peek p) in
      if h <? 0 then None else json_u16_loop n' (tail p) (u32 (Z.lor (Z.shiftl cp 4) h))
  end.

Definition json_u16 (p : bytes) : option (Z * bytes) :=
  match p with
  | a :: b :: p' => if (a =? backslash) && (b =? ch "u") then json_u16_loop 4 p' 0 else None
  | _ => None
  end.

(** The one-character escapes. *)
Definition json_simple_escape (c : Z) : option Z :=
  if c =? quote then Some quote
  else if c =? backslash then Some backslash
  else if c =? ch "/" then Some (ch "/")
  else if c =? ch "b" then Some 8
  else if c =? ch "f" then Some 12
  else if c =? ch "n" then Some 10
  else if c =? ch "r" then Some 13
  else if c =? ch "t" then Some 9
  else None.

Definition is_high (cp : Z) : bool := (0xd800 <=? cp) && (cp <=? 0xdbff).
Definition is_low (cp : Z) : bool := (0xdc00 <=? cp) && (cp <=? 0xdfff).

(** [case 'u'], with the cursor back on the backslash. *)
Definition json_unicode_escape (p : bytes) : option (Z * bytes) :=
  '(cp, p) ← json_u16 p;
  if is_high cp then
    match json_u16 p with
    | Some (lo, p') =>
        if is_low lo
        then Some (u32 (u32 (0x10000 + Z.shiftl (u32 (cp - 0xd800)) 10) + u32 (lo - 0xdc00)), p')
        else Some (cp, p')
    | None => Some (cp, p)
    end
  else Some (cp, p).

(** The loop of [json_string]: the decoded text and the cursor behind the closing
    quote; every pass consumes a byte. *)
Fixpoint json_string_loop (fuel : nat) (p b : bytes) : jres bytes :=
  match fuel with
  | O => JNoFuel
  | S fuel' =>
      match p with
      | [] => JFail
      | c :: p1 =>
          if c =? 0 then JFail
          else if c =? quote then JOk b p1
          else if negb (c =? backslash) then json_string_loop fuel' p1 (b ++ [c])
          else
            match p1 with
            | [] => JFail
            | e :: p2 =>
                match json_simple_escape e with
                | Some x => json_string_loop fuel' p2 (b ++ [x])
                | None =>
                    if e =? ch "u" then
                      match json_unicode_escape p with
                      | None => JFail
                      | Some (cp, p') => json_string_loop fuel' p' (b ++ utf8_put cp)
                      end
                    else JFail
                end
            end
      end
  end.

Definition json_string (p : bytes) : jres bytes :=
  let p := json_ws p in
  if negb (peek p =? quote) then JFail
  else json_string_loop (length p) (tail p) [].

Definition json_number (p : bytes) : option (double * bytes) := strtod (json_ws p).

(** The inner option: [(int)v] of a NaN is undefined. *)
Definition json_int (p : bytes) : jres (option Z) :=
  match json_number p with
  | None => JFail
  | Some (v, p) =>
      let v := if d_lt v d_zero then d_zero else v in
      let v := if d_lt (d_of_Z INT_MAX) v then d_of_Z INT_MAX else v in
      JOk (d_to_int v) p
  end.

Definition json_bool (p : bytes) : jres bool :=
  let p := json_ws p in
  match json_lit p (bs "true") with
  | Some p => JOk true p
  | None => match json_lit p (bs "false") with Some p => JOk false p | None => JFail end
  end.

(** ** Skipping values *)

Definition JSON_MAX_NESTING : Z := 256.

(** The literals and numbers at the end of [json_skip_value_depth]. *)
Definition json_skip_scalar (p : bytes) : jres unit :=
  match json_lit p (bs "true"), json_lit p (bs "false"), json_lit p (bs "null") with
  | Some p, _, _ | None, Some p, _ | None, None, Some p => JOk tt p
  | None, None, None => match json_number p with Some (_, p) => JOk tt p | None => JFail end
  end.

Fixpoint json_skip_value_depth (fuel : nat) (p : bytes) (depth : Z) {struct fuel} : jres unit :=
  match fuel with
  | O => JNoFuel
  | S fuel' =>
      let p := json_ws p in
      if peek p =? quote then let? (_, p) := json_string p in JOk tt p
      else if at_ch p "{" then json_skip_object_depth fuel' p depth
      else if at_ch p "[" then json_skip_array_depth fuel' p depth
      else json_skip_scalar p
  end
with json_skip_array_depth (fuel : nat) (p : bytes) (depth : Z) {struct fuel} : jres unit :=
  match fuel with
  | O => JNoFuel
  | S fuel' =>
      if JSON_MAX_NESTING <=? depth then JFail
      else
        let p := json_ws p in
        if negb (at_ch p "[") then JFail
        else
          let p := json_ws (tail p) in
          if at_ch p "]" then JOk tt (tail p) else json_skip_array_loop fuel' p depth
  end
with json_skip_array_loop (fuel : nat) (p : bytes) (depth : Z) {struct fuel} : jres unit :=
  match fuel with
  | O => JNoFuel
  | S fuel' =>
      let? (_, p) := json_skip_value_depth fuel' p (depth + 1) in
      let p := json_ws p in
      if at_ch p "]" then JOk tt (tail p)
      else if negb (at_ch p ",") then JFail else json_skip_array_loop fuel' (tail p) depth
  end
with json_skip_object_depth (fuel : nat) (p : bytes) (depth : Z) {struct fuel} : jres unit :=
  match fuel with
  | O => JNoFuel
  | S fuel' =>
      if JSON_MAX_NESTING <=? depth then JFail
      else
        let p := json_ws p in
        if negb (at_ch p "{") then JFail
        else
          let p := json_ws (tail p) in
          if at_ch p "}" then JOk tt (tail p) else json_skip_object_loop fuel' p depth
  end
with json_skip_object_loop (fuel : nat) (p : bytes) (depth : Z) {struct fuel} : jres unit :=
  match fuel with
  | O => JNoFuel
  | S fuel' =>
      let? (_, p) := json_string p in
      let p := json_ws p in
      if negb (at_ch p ":") then JFail
      else
        let? (_, p) := json_skip_value_depth fuel' (tail p) (depth + 1) in
        let p := json_ws p in
        if at_ch p "}" then JOk tt (tail p)
        else if negb (at_ch p ",") then JFail else json_skip_object_loop fuel' (tail p) depth
  end.

(** A value takes at most three calls per byte. *)
Definition json_skip_value (p : bytes) : jres unit :=
  json_skip_value_depth (3 * length p + 1) p 0.

Definition json_raw_value (p : bytes) : jres bytes :=
  let start := json_ws p in
  let? (_, p) := json_skip_value start in
  JOk (take (length start - length p) start) p.

(** The loop of [json_minify_raw_value] over the bytes of a value. *)
Fixpoint json_minify_loop (s : bytes) (in_string escape : bool) : bytes :=
  match s with
  | [] => []
  | c :: s' =>
      if in_string then
        c :: (if escape then json_minify_loop s' true false
              else if c =? backslash then json_minify_loop s' true true
              else json_minify_loop s' (negb (c =? quote)) false)
      else if c =? quote then c :: json_minify_loop s' true escape
      else if negb (isspace c) then c :: json_minify_loop s' false escape
      else json_minify_loop s' false escape
  end.

Definition json_minify_raw_value (json : option bytes) : bytes :=
  let json := default (bs "null") json in
  let start := json_ws json in
  match json_skip_value start with
  | JOk _ p => json_minify_loop (take (length start - length p) start) false false
  | _ => json
  end.

(** ** Writing strings *)

Definition hex4 (c : Z) : bytes :=
  let d k := nth (Z.to_nat (Z.land (Z.shiftr c k) 15)) (bs "0123456789abcdef") 0 in
  [d 12; d 8; d 4; d 0].

Definition escape_char (c : Z) : bytes :=
  if (c =? quote) || (c =? backslash) then [backslash; c]
  else if c =? 10 then [backslash; ch "n"]
  else if c =? 13 then [backslash; ch "r"]
  else if c =? 9 then [backslash; ch "t"]
  else if c <? 32 then backslash :: ch "u" :: hex4 c
  else [c].

(** [s] as a C string; the result is what is appended. *)
Definition json_escape (s : bytes) : bytes := [quote] ++ flat_map escape_char (cstr s) ++ [quote].

Definition json_escape_n (s : bytes) (n : nat) : bytes := json_escape (take n s).

Definition json_escape_fragment_n (s : bytes) (n : nat) : bytes := flat_map escape_char (take n s).
