(* ===== verification/JsonFacts.v ===== *)
(** * JsonFacts: every parser of the request reader stays in its text; strings

    A parser either rejects or returns a cursor into the same string, never
    behind the end, and its loops end. *)

From S2P Require Import Prelude Sha Ctype KvStore Strtod Json.

(** [r] is a cursor into [p], at least [n] bytes on. *)
Definition behind (n : nat) (p r : bytes) : Prop := exists k, (n <= k)%nat /\ r = drop k p /\ (k <= length p)%nat.

Definition parser_ok {A} (n : nat) (p : bytes) (m : jres A) : Prop :=
  match m with
  | JOk _ r => behind n p r
  | JFail => True
  | JNoFuel => False
  end.

Lemma behind_length n p r : behind n p r -> (length r + n <= length p)%nat.
Proof. intros (k & Hn & -> & Hk). rewrite length_drop. lia. Qed.

Lemma behind_refl p : behind 0 p p.
Proof. exists O. rewrite drop_0. split_and!; [lia|done|lia]. Qed.

Lemma behind_trans n m p q r : behind n p q -> behind m q r -> behind (n + m) p r.
Proof.
  intros (k & Hn & -> & Hk) (j & Hm & -> & Hj). rewrite length_drop in Hj.
  exists (k + j)%nat. rewrite drop_drop. split_and!; [lia|done|lia].
Qed.

Lemma behind_weaken n m p r : (m <= n)%nat -> behind n p r -> behind m p r.
Proof. intros Hle (k & Hn & Hr & Hk). exists k. split; [lia|done]. Qed.

Lemma behind_ws p : behind 0 p (json_ws p).
Proof. exists (span_len isspace p). split_and!; [lia|done|apply span_len_le]. Qed.

Lemma behind_tail p c : peek p = c -> c <> 0 -> behind 1 p (tail p).
Proof.
  destruct p as [|x p]; cbn; [done|]. intros _ _. exists 1%nat. cbn. rewrite drop_0. split_and!; [lia|done|lia].
Qed.

Lemma behind_cons c p r n : behind n p r -> behind (S n) (c :: p) r.
Proof. intros (k & Hn & -> & Hk). exists (S k). cbn. split_and!; [lia|done|lia]. Qed.

Lemma behind_app p r t : p = t ++ r -> behind (length t) p r.
Proof. intros ->. exists (length t). rewrite drop_app_length, length_app. split_and!; [lia|done|lia]. Qed.

Lemma at_ch_true p a : at_ch p a = true -> peek p = ch a.
Proof. apply Z.eqb_eq. Qed.

Lemma behind_at p a : at_ch p a = true -> ch a <> 0 -> behind 1 p (tail p).
Proof. intros H%at_ch_true. by apply behind_tail. Qed.

Lemma parser_weaken {A} n m p (r : jres A) : (m <= n)%nat -> parser_ok n p r -> parser_ok m p r.
Proof. destruct r; cbn; try done. by apply behind_weaken. Qed.

(** Sequencing. *)
Lemma parser_bind {A B} n m p q (r : jres A) (k : A -> bytes -> jres B) :
  behind n p q -> parser_ok m q r ->
  (forall x s, behind (n + m) p s -> parser_ok (n + m) p (k x s)) ->
  parser_ok (n + m) p (jbind r k).
Proof. intros Hq Hr Hk. destruct r; cbn in *; try done. apply Hk. by eapply behind_trans. Qed.

Lemma parser_from {A} n m p q (r : jres A) :
  behind n p q -> parser_ok m q r -> parser_ok (n + m) p r.
Proof. destruct r; cbn; try done. apply behind_trans. Qed.

(** ** Strings *)

Lemma json_u16_loop_behind n p cp v r : json_u16_loop n p cp = Some (v, r) -> behind n p r.
Proof.
  revert p cp. induction n as [|n IH]; intros p cp; cbn [json_u16_loop].
  - intros [= <- <-]. apply behind_refl.
  - destruct (json_hex (peek p) <? 0) eqn:Eh; [done|]. intros H%IH.
    destruct p as [|c p]; [by vm_compute in Eh|]. by apply behind_cons.
Qed.

Lemma json_u16_behind p v r : json_u16 p = Some (v, r) -> behind 6 p r.
Proof.
  unfold json_u16. destruct p as [|a [|b p]]; try done. destruct (_ && _); [|done].
  intros H%json_u16_loop_behind. by do 2 apply behind_cons.
Qed.

Lemma json_unicode_behind p v r : json_unicode_escape p = Some (v, r) -> behind 6 p r.
Proof.
  unfold json_unicode_escape. intros H. apply bind_Some in H as ([cp q] & E & H).
  apply json_u16_behind in E. destruct (is_high cp); [|by injection H as <- <-].
  destruct (json_u16 q) as [[lo q']|] eqn:E2; [|by injection H as <- <-].
  apply json_u16_behind in E2. assert (behind 6 p q') by (eapply behind_weaken; [|by eapply behind_trans]; lia).
  by destruct (is_low lo); injection H as <- <-.
Qed.

Lemma json_string_loop_ok fuel p b : (length p < fuel)%nat -> parser_ok 1 p (json_string_loop fuel p b).
Proof.
  revert p b. induction fuel as [|fuel IH]; intros p b Hf; [lia|]. cbn [json_string_loop].
  destruct p as [|c p1]; [done|]. cbn [length] in Hf. destruct (c =? 0); [done|].
  destruct (c =? quote). { cbn. apply behind_cons, behind_refl. }
  destruct (c =? backslash); cbn [negb].
  2: { apply (parser_weaken 2); [lia|]. apply (parser_from 1 1 _ p1); [apply behind_cons, behind_refl|apply IH; lia]. }
  destruct p1 as [|e p2]; [done|]. cbn [length] in Hf. destruct (json_simple_escape e).
  { apply (parser_weaken 3); [lia|]. apply (parser_from 2 1 _ p2); [|apply IH; lia].
    do 2 apply behind_cons. apply behind_refl. }
  destruct (e =? ch "u"); [|done]. destruct (json_unicode_escape _) as [[cp p']|] eqn:E; [|done].
  apply json_unicode_behind in E. pose proof (behind_length _ _ _ E). cbn [length] in *.
  apply (parser_weaken 7); [lia|]. apply (parser_from 6 1 _ p'); [done|]. apply IH. lia.
Qed.

Lemma json_string_ok p : parser_ok 2 p (json_string p).
Proof.
  unfold json_string. destruct (Z.eqb_spec (peek (json_ws p)) quote) as [Hq|]; cbn [negb]; [|done].
  pose proof (behind_tail _ _ Hq ltac:(done)) as Ht. pose proof (behind_length _ _ _ Ht).
  apply (parser_from 1 1 _ (tail (json_ws p))); [|apply json_string_loop_ok; lia].
  apply (behind_trans 0 1 _ (json_ws p)); [apply behind_ws|done].
Qed.

(** ** Values *)

Lemma json_lit_behind p lit r : json_lit p lit = Some r -> behind (length lit) p r.
Proof. intros H%strip_prefix_sound. by apply behind_app. Qed.

Lemma json_number_behind p v r : json_number p = Some (v, r) -> behind 1 p r.
Proof.
  intros H. apply (behind_trans 0 1 _ (json_ws p)); [apply behind_ws|]. unfold json_number in H.
  pose proof (strtod_lt _ _ _ H) as Hl. apply strtod_suffix in H as [t Ht]. rewrite Ht in Hl.
  rewrite length_app in Hl. eapply behind_weaken; [|by apply behind_app]. lia.
Qed.

Lemma json_scalar_ok p : parser_ok 1 p (json_skip_scalar p).
Proof.
  unfold json_skip_scalar.
  assert (Hl : forall lit r, json_lit p lit = Some r -> lit <> [] -> behind 1 p r).
  { intros lit r H Hne. apply json_lit_behind in H. destruct lit; [done|].
    eapply behind_weaken; [|exact H]. cbn. lia. }
  destruct (json_lit p (bs "true")) eqn:E1; [by apply (Hl _ _ E1)|].
  destruct (json_lit p (bs "false")) eqn:E2; [by apply (Hl _ _ E2)|].
  destruct (json_lit p (bs "null")) eqn:E3; [by apply (Hl _ _ E3)|].
  destruct (json_number p) as [[v r]|] eqn:E4; [|done]. by apply json_number_behind in E4.
Qed.

(** The fuel of the mutual recursion: three calls for a byte. *)
Definition skip_ok (fuel : nat) : Prop :=
  (forall p d, (3 * length p + 1 <= fuel)%nat -> parser_ok 1 p (json_skip_value_depth fuel p d)) /\
  (forall p d, (3 * length p <= fuel)%nat -> p <> [] -> parser_ok 1 p (json_skip_array_depth fuel p d)) /\
  (forall p d, (3 * length p + 2 <= fuel)%nat -> parser_ok 1 p (json_skip_array_loop fuel p d)) /\
  (forall p d, (3 * length p <= fuel)%nat -> p <> [] -> parser_ok 1 p (json_skip_object_depth fuel p d)) /\
  (forall p d, (3 * length p + 2 <= fuel)%nat -> parser_ok 1 p (json_skip_object_loop fuel p d)).

Lemma at_ch_cons p a : at_ch p a = true -> ch a <> 0 -> p <> [].
Proof. intros H%at_ch_true Hne ->. by rewrite <- H in Hne. Qed.

(** What follows an opening bracket. *)
Lemma behind_open p a :
  at_ch (json_ws p) a = true -> ch a <> 0 -> behind 1 p (json_ws (tail (json_ws p))).
Proof.
  intros H Hne. apply (behind_trans 0 1 _ (json_ws p)); [apply behind_ws|].
  apply (behind_trans 1 0 _ (tail (json_ws p))); [by eapply behind_at|apply behind_ws].
Qed.

Lemma behind_close p a :
  at_ch (json_ws p) a = true -> ch a <> 0 -> behind 1 p (tail (json_ws p)).
Proof. intros H Hne. apply (behind_trans 0 1 _ (json_ws p)); [apply behind_ws | by eapply behind_at]. Qed.

Lemma skip_all fuel : skip_ok fuel.
Proof.
  induction fuel as [|fuel (IHv & IHa & IHal & IHo & IHol)].
  { split_and!; intros p d Hf; try lia; destruct p; try done; cbn in Hf; lia. }
  pose proof behind_length as Hbl.
  split_and!; intros p d Hf; [|intros Hne| |intros Hne|].
  - cbn [json_skip_value_depth]. set (q := json_ws p).
    assert (Hq : behind 0 p q) by apply behind_ws. pose proof (Hbl _ _ _ Hq).
    destruct (peek q =? quote).
    { pose proof (json_string_ok q) as Hs. destruct (json_string q); cbn in *; try done.
      eapply behind_weaken; [|eapply behind_trans; [exact Hq|exact Hs]]. lia. }
    destruct (at_ch q "{") eqn:Eo; [apply (parser_from 0 1 _ q); [done|]; apply IHo; [lia|by eapply at_ch_cons]|].
    destruct (at_ch q "[") eqn:Ea; [apply (parser_from 0 1 _ q); [done|]; apply IHa; [lia|by eapply at_ch_cons]|].
    apply (parser_from 0 1 _ q); [done|apply json_scalar_ok].
  - cbn [json_skip_array_depth]. destruct (_ <=? _); [done|].
    destruct (at_ch (json_ws p) "[") eqn:Ea; cbn [negb]; [|done].
    pose proof (behind_open _ _ Ea ltac:(done)) as Hb. pose proof (Hbl _ _ _ Hb).
    destruct (at_ch (json_ws (tail (json_ws p))) "]") eqn:Ec.
    + cbn. eapply behind_weaken; [|eapply behind_trans; [exact Hb|by eapply behind_at]]. lia.
    + eapply parser_weaken; [|eapply parser_from; [exact Hb|apply IHal; lia]]. lia.
  - cbn [json_skip_array_loop]. pose proof (IHv p (d + 1) ltac:(lia)) as Hv.
    destruct (json_skip_value_depth fuel p (d + 1)) as [[] q| |]; cbn [jbind] in *; try done. cbn in Hv.
    pose proof (Hbl _ _ _ Hv). destruct (at_ch (json_ws q) "]") eqn:Ec.
    + cbn. eapply behind_weaken; [|eapply behind_trans; [exact Hv|eapply behind_close; [exact Ec|done]]]. lia.
    + destruct (at_ch (json_ws q) ",") eqn:Em; cbn [negb]; [|done].
      assert (Ht : behind 1 q (tail (json_ws q))) by (eapply behind_close; [exact Em|done]).
      pose proof (Hbl _ _ _ Ht). eapply parser_weaken; [|eapply parser_from;
        [eapply behind_trans; [exact Hv|exact Ht]|apply IHal; lia]]. lia.
  - cbn [json_skip_object_depth]. destruct (_ <=? _); [done|].
    destruct (at_ch (json_ws p) "{") eqn:Ea; cbn [negb]; [|done].
    pose proof (behind_open _ _ Ea ltac:(done)) as Hb. pose proof (Hbl _ _ _ Hb).
    destruct (at_ch (json_ws (tail (json_ws p))) "}") eqn:Ec.
    + cbn. eapply behind_weaken; [|eapply behind_trans; [exact Hb|by eapply behind_at]]. lia.
    + eapply parser_weaken; [|eapply parser_from; [exact Hb|apply IHol; lia]]. lia.
  - cbn [json_skip_object_loop]. pose proof (json_string_ok p) as Hs.
    destruct (json_string p) as [key q| |]; cbn [jbind] in *; try done. cbn in Hs.
    destruct (at_ch (json_ws q) ":") eqn:E1; cbn [negb]; [|done].
    assert (Ht : behind 1 q (tail (json_ws q))) by (eapply behind_close; [exact E1|done]).
    pose proof (Hbl _ _ _ Hs). pose proof (Hbl _ _ _ Ht).
    pose proof (IHv (tail (json_ws q)) (d + 1) ltac:(lia)) as Hv.
    destruct (json_skip_value_depth fuel _ (d + 1)) as [[] q2| |]; cbn [jbind] in *; try done. cbn in Hv.
    pose proof (behind_trans _ _ _ _ _ Hs (behind_trans _ _ _ _ _ Ht Hv)) as Hv2. pose proof (Hbl _ _ _ Hv2).
    destruct (at_ch (json_ws q2) "}") eqn:Ec.
    + cbn. eapply behind_weaken; [|eapply behind_trans; [exact Hv2|eapply behind_close; [exact Ec|done]]]. lia.
    + destruct (at_ch (json_ws q2) ",") eqn:Em; cbn [negb]; [|done].
      assert (Ht2 : behind 1 q2 (tail (json_ws q2))) by (eapply behind_close; [exact Em|done]).
      pose proof (Hbl _ _ _ Ht2). eapply parser_weaken; [|eapply parser_from;
        [eapply behind_trans; [exact Hv2|exact Ht2]|apply IHol; lia]]. lia.
Qed.

Lemma json_skip_value_ok p : parser_ok 1 p (json_skip_value p).
Proof. apply (proj1 (skip_all _)). done. Qed.

Lemma json_raw_value_ok p : parser_ok 1 p (json_raw_value p).
Proof.
  unfold json_raw_value. pose proof (json_skip_value_ok (json_ws p)) as H.
  destruct (json_skip_value _); cbn in *; try done.
  apply (behind_trans 0 1 _ (json_ws p)); [apply behind_ws|done].
Qed.

Lemma json_bool_ok p : parser_ok 1 p (json_bool p).
Proof.
  unfold json_bool. destruct (json_lit _ (bs "true")) as [r|] eqn:E1.
  - apply (parser_from 0 1 _ (json_ws p)); [apply behind_ws|]. apply json_lit_behind in E1.
    eapply behind_weaken; [|exact E1]. cbn. lia.
  - destruct (json_lit _ (bs "false")) as [r|] eqn:E2; [|done].
    apply (parser_from 0 1 _ (json_ws p)); [apply behind_ws|]. apply json_lit_behind in E2.
    eapply behind_weaken; [|exact E2]. cbn. lia.
Qed.

Lemma json_int_ok p : parser_ok 1 p (json_int p).
Proof.
  unfold json_int. destruct (json_number p) as [[v r]|] eqn:E; [|done]. by apply json_number_behind in E.
Qed.

Create HintDb json.
#[export] Hint Resolve json_string_ok json_skip_value_ok json_raw_value_ok json_bool_ok json_int_ok : json.

(** * JSON strings, written and read back (ds4_server.c) *)

(** Any fuel above the length gives the same result. *)
Lemma json_string_loop_fuel f1 f2 p b :
  (length p < f1)%nat -> (length p < f2)%nat -> json_string_loop f1 p b = json_string_loop f2 p b.
Proof.
  revert f2 p b. induction f1 as [|f1 IH]; intros [|f2] p b H1 H2; try lia. cbn [json_string_loop].
  destruct p as [|c p1]; [done|]. cbn [length] in *. destruct (c =? 0); [done|].
  destruct (c =? quote); [done|]. destruct (c =? backslash); cbn [negb]; [|apply IH; lia].
  destruct p1 as [|e p2]; [done|]. cbn [length] in *. destruct (json_simple_escape e); [apply IH; lia|].
  destruct (e =? ch "u"); [|done]. destruct (json_unicode_escape _) as [[cp p']|] eqn:E; [|done].
  apply json_unicode_behind, behind_length in E. cbn [length] in E. apply IH; lia.
Qed.

(** The loop with just enough fuel. *)
Definition string_body (p b : bytes) : jres bytes := json_string_loop (S (length p)) p b.

Lemma json_string_quote p : json_string (quote :: p) = string_body p [].
Proof. reflexivity. Qed.

Lemma body_end q b : string_body (quote :: q) b = JOk b q.
Proof. reflexivity. Qed.

Lemma body_plain c q b :
  c <> 0 -> c <> quote -> c <> backslash -> string_body (c :: q) b = string_body q (b ++ [c]).
Proof.
  intros H1 H2 H3. unfold string_body at 1. cbn [json_string_loop].
  destruct (Z.eqb_spec c 0), (Z.eqb_spec c quote), (Z.eqb_spec c backslash); try done.
Qed.

Lemma body_simple e x q b :
  json_simple_escape e = Some x -> string_body (backslash :: e :: q) b = string_body q (b ++ [x]).
Proof.
  intros He. unfold string_body at 1. cbn [json_string_loop].
  change (backslash =? 0) with false. change (backslash =? quote) with false.
  change (backslash =? backslash) with true. cbn [negb]. rewrite He. apply json_string_loop_fuel; cbn [length]; lia.
Qed.

Lemma body_unicode q0 q cp b :
  json_unicode_escape (backslash :: ch "u" :: q0) = Some (cp, q) ->
  string_body (backslash :: ch "u" :: q0) b = string_body q (b ++ utf8_put cp).
Proof.
  intros He. unfold string_body at 1. cbn [json_string_loop].
  change (backslash =? 0) with false. change (backslash =? quote) with false.
  change (backslash =? backslash) with true. cbn [negb].
  change (json_simple_escape (ch "u")) with (@None Z). change (ch "u" =? ch "u") with true. cbv iota.
  rewrite He. apply json_unicode_behind, behind_length in He. cbn [length] in He.
  apply json_string_loop_fuel; cbn [length]; lia.
Qed.

(** ** Four hex digits *)

Lemma nibble c k : Z.land (Z.shiftr c k) 15 = (Z.shiftr c k) mod 16.
Proof. by rewrite (Z.land_ones _ 4). Qed.

Lemma json_hex_digit n : 0 <= n < 16 -> json_hex (nth (Z.to_nat n) (bs "0123456789abcdef") 0) = n.
Proof.
  intros Hn. apply Z.eqb_eq. revert n Hn.
  by apply (forall_below 16 (fun n => json_hex (nth (Z.to_nat n) (bs "0123456789abcdef") 0) =? n)).
Qed.

(** Disjoint bits add up. *)
Lemma hex_step v d : 0 <= v < 2 ^ 24 -> 0 <= d < 16 -> u32 (Z.lor (Z.shiftl v 4) d) = v * 16 + d.
Proof.
  intros Hv Hd. rewrite Z.shiftl_mul_pow2 by lia. rewrite lor_add by lia. change (2 ^ 4) with 16.
  apply wrap_small. unfold in_u. lia.
Qed.

Lemma u16_hex4 c q : 0 <= c < 65536 -> json_u16 (backslash :: ch "u" :: hex4 c ++ q) = Some (c, q).
Proof.
  intros Hc. unfold json_u16. change ((backslash =? backslash) && (ch "u" =? ch "u")) with true. cbv iota.
  unfold hex4. set (d := fun k => Z.land (Z.shiftr c k) 15).
  assert (Hd : forall k, 0 <= d k < 16) by (intros k; unfold d; rewrite nibble; apply Z.mod_pos_bound; lia).
  cbn [app json_u16_loop peek tail]. fold (d 12) (d 8) (d 4) (d 0). rewrite !json_hex_digit by done.
  assert (Hneg : forall k, (d k <? 0) = false) by (intros k; apply Z.ltb_ge; specialize (Hd k); lia).
  rewrite !Hneg. pose proof (Hd 12). pose proof (Hd 8). pose proof (Hd 4). pose proof (Hd 0).
  rewrite (hex_step 0), (hex_step (0 * 16 + d 12)), (hex_step ((0 * 16 + d 12) * 16 + d 8)), hex_step by lia.
  do 2 f_equal. unfold d. rewrite !nibble, !Z.shiftr_div_pow2 by lia.
  change (2 ^ 12) with 4096. change (2 ^ 8) with 256. change (2 ^ 4) with 16. change (2 ^ 0) with 1. zdiv_lia.
Qed.

(** ** Writing and reading back *)

Lemma json_simple_self c : c = quote \/ c = backslash -> json_simple_escape c = Some c.
Proof. by intros [-> | ->]. Qed.

Lemma body_escape_char c q b :
  0 < c < 256 -> string_body (escape_char c ++ q) b = string_body q (b ++ [c]).
Proof.
  intros Hc. unfold escape_char.
  destruct ((c =? quote) || (c =? backslash)) eqn:E1.
  { apply body_simple, json_simple_self. rewrite orb_true_iff, !Z.eqb_eq in E1. done. }
  apply orb_false_iff in E1 as [E1 E2]. apply Z.eqb_neq in E1, E2.
  destruct (Z.eqb_spec c 10) as [->|]; [by apply body_simple|].
  destruct (Z.eqb_spec c 13) as [->|]; [by apply body_simple|].
  destruct (Z.eqb_spec c 9) as [->|]; [by apply body_simple|].
  destruct (Z.ltb_spec c 32); [|by apply body_plain; [lia|..]].
  cbn [app]. erewrite body_unicode.
  2: { unfold json_unicode_escape. rewrite u16_hex4 by lia. cbn [mbind option_bind].
       replace (is_high c) with false; [reflexivity|]. symmetry. apply andb_false_iff. left. apply Z.leb_gt. lia. }
  unfold utf8_put. rewrite (proj2 (Z.leb_le c 127)) by lia.
  unfold u8. rewrite wrap_small by (unfold in_u; lia). done.
Qed.

Lemma body_escape s q b :
  no_nul s -> bytes_ok s -> string_body (flat_map escape_char s ++ q) b = string_body q (b ++ s).
Proof.
  intros Hn Hb. revert b. induction s as [|c s IH]; intros b; cbn [flat_map]; [by rewrite app_nil_r|].
  apply Forall_cons_iff in Hn as [Hc Hn]. apply Forall_cons_iff in Hb as [Hr Hb]. unfold byte_ok in Hr.
  rewrite <- app_assoc, body_escape_char, IH by (done || lia). by rewrite <- app_assoc.
Qed.

Lemma json_escape_read s rest :
  no_nul s -> bytes_ok s -> json_string (json_escape s ++ rest) = JOk s rest.
Proof.
  intros Hn Hb. unfold json_escape. rewrite cstr_no_nul by done. rewrite <- !app_assoc.
  change ([quote] ++ ?x) with (quote :: x). rewrite json_string_quote, body_escape by done. apply body_end.
Qed.

(** ** Code points *)

(** A Unicode scalar value. *)
Definition scalar (cp : Z) : Prop := 0 <= cp < 0xd800 \/ 0xe000 <= cp <= 0x10ffff.

(** The escape a JSON writer uses for any code point: one unit, or a surrogate
    pair above the basic plane. *)
Definition unicode_escape (cp : Z) : bytes :=
  let unit c := backslash :: ch "u" :: hex4 c in
  if cp <? 0x10000 then unit cp
  else unit (0xd800 + (cp - 0x10000) / 1024) ++ unit (0xdc00 + (cp - 0x10000) mod 1024).

(** Strict UTF-8: shortest forms of scalar values only. *)
Definition utf8_decode (s : bytes) : option Z :=
  let cont c := (128 <=? c) && (c <? 192) in
  match s with
  | [a] => if (0 <=? a) && (a <? 128) then Some a else None
  | [a; b] =>
      let v := (a - 192) * 64 + (b - 128) in
      if cont b && (128 <=? v) && (v <? 2048) then Some v else None
  | [a; b; c] =>
      let v := (a - 224) * 4096 + (b - 128) * 64 + (c - 128) in
      if cont b && cont c && (2048 <=? v) && (v <? 65536) && negb (is_high v || is_low v) then Some v else None
  | [a; b; c; d] =>
      let v := (a - 240) * 262144 + (b - 128) * 4096 + (c - 128) * 64 + (d - 128) in
      if cont b && cont c && cont d && (65536 <=? v) && (v <=? 0x10ffff) then Some v else None
  | _ => None
  end.

Lemma u8_lead v k d : 0 <= k -> 0 <= v -> 0 <= d < 2 ^ k -> v * 2 ^ k + d < 256 ->
  u8 (Z.lor (v * 2 ^ k) d) = v * 2 ^ k + d.
Proof. intros. rewrite lor_add by lia. apply wrap_small. unfold in_u. nia. Qed.

Lemma cont_byte cp k : 0 <= cp -> 0 <= k ->
  u8 (Z.lor 128 (Z.land (Z.shiftr cp k) 63)) = 128 + (cp / 2 ^ k) mod 64.
Proof.
  intros Hc Hk. rewrite (Z.land_ones _ 6), Z.shiftr_div_pow2 by lia.
  pose proof (Z.mod_pos_bound (cp / 2 ^ k) (2 ^ 6) ltac:(lia)).
  change 128 with (2 * 2 ^ 6) at 1. rewrite u8_lead by lia. change (2 ^ 6) with 64. lia.
Qed.

Lemma utf8_decode_put cp : scalar cp -> utf8_decode (utf8_put cp) = Some cp.
Proof.
  unfold scalar. intros Hs. unfold utf8_put.
  destruct (Z.leb_spec cp 127).
  { unfold u8. rewrite wrap_small by (unfold in_u; lia). cbn. by rewrite (proj2 (Z.leb_le 0 cp)), (proj2 (Z.ltb_lt cp 128)) by lia. }
  assert (H0 : cp / 2 ^ 0 = cp) by (change (2 ^ 0) with 1; apply Z.div_1_r).
  destruct (Z.leb_spec cp 2047); [|destruct (Z.leb_spec cp 65535)]; rewrite !cont_byte, H0 by lia;
    rewrite Z.shiftr_div_pow2 by lia.
  - change 192 with (6 * 2 ^ 5). rewrite u8_lead by zdiv_lia. cbn [utf8_decode].
    set (v := _ * 64 + _). assert (Hv : v = cp) by (subst v; zdiv_lia). rewrite Hv.
    rewrite (proj2 (Z.leb_le 128 (128 + _))), (proj2 (Z.ltb_lt (128 + _) 192)) by zdiv_lia.
    by rewrite (proj2 (Z.leb_le 128 cp)), (proj2 (Z.ltb_lt cp 2048)) by lia.
  - change 224 with (14 * 2 ^ 4). rewrite u8_lead by zdiv_lia. cbn [utf8_decode].
    set (v := _ * 4096 + _ + _). assert (Hv : v = cp) by (subst v; zdiv_lia). rewrite Hv.
    assert (Hsur : is_high cp || is_low cp = false).
    { unfold is_high, is_low. apply orb_false_iff; split; apply andb_false_iff; rewrite !Z.leb_gt; lia. }
    rewrite Hsur. rewrite !(proj2 (Z.leb_le 128 (128 + _))), !(proj2 (Z.ltb_lt (128 + _) 192)) by zdiv_lia.
    by rewrite (proj2 (Z.leb_le 2048 cp)), (proj2 (Z.ltb_lt cp 65536)) by lia.
  - change 240 with (30 * 2 ^ 3). rewrite u8_lead by zdiv_lia. cbn [utf8_decode].
    set (v := _ * 262144 + _ + _ + _). assert (Hv : v = cp) by (subst v; zdiv_lia). rewrite Hv.
    rewrite !(proj2 (Z.leb_le 128 (128 + _))), !(proj2 (Z.ltb_lt (128 + _) 192)) by zdiv_lia.
    by rewrite (proj2 (Z.leb_le 65536 cp)), (proj2 (Z.leb_le cp 0x10ffff)) by lia.
Qed.

Lemma unicode_escape_read cp q :
  scalar cp -> json_unicode_escape (unicode_escape cp ++ q) = Some (cp, q).
Proof.
  unfold scalar. intros Hs. unfold unicode_escape, json_unicode_escape.
  destruct (Z.ltb_spec cp 0x10000).
  - cbn [app]. rewrite u16_hex4 by lia. cbn [mbind option_bind].
    replace (is_high cp) with false; [done|]. symmetry. apply andb_false_iff. rewrite !Z.leb_gt. lia.
  - rewrite <- app_assoc. cbn [app]. set (hi := 0xd800 + _). set (lo := 0xdc00 + _).
    assert (Hhi : 0xd800 <= hi <= 0xdbff) by (subst hi; zdiv_lia).
    assert (Hlo : 0xdc00 <= lo <= 0xdfff) by (subst lo; zdiv_lia).
    rewrite u16_hex4 by lia. cbn [mbind option_bind].
    replace (is_high hi) with true by (symmetry; apply andb_true_iff; rewrite !Z.leb_le; lia).
    rewrite u16_hex4 by lia.
    replace (is_low lo) with true by (symmetry; apply andb_true_iff; rewrite !Z.leb_le; lia).
    do 2 f_equal. rewrite Z.shiftl_mul_pow2 by lia. unfold u32. change (2 ^ 10) with 1024.
    rewrite (wrap_small 32 (hi - 0xd800)), (wrap_small 32 (lo - 0xdc00)) by (unfold in_u; lia).
    rewrite (wrap_small 32 (0x10000 + _)) by (unfold in_u; lia). rewrite wrap_small by (unfold in_u; lia).
    subst hi lo. zdiv_lia.
Qed.

(** ** The claims *)

(** A string the server writes is a string it reads: parsing the JSON literal
    of any C string, whatever follows it, gives back exactly that string and
    stops right behind the closing quote. *)
Lemma json_escape_roundtrip s rest :
  no_nul s -> bytes_ok s -> json_string (json_escape s ++ rest) = JOk s rest.
Proof. apply json_escape_read. Qed.

Lemma json_escape_roundtrip_witness :
  no_nul (bs "a b" ++ [10; 34; 92; 1; 200]) /\
  json_string (json_escape (bs "a b" ++ [10; 34; 92; 1; 200]) ++ bs ", ")
  = JOk (bs "a b" ++ [10; 34; 92; 1; 200]) (bs ", ").
Proof.
  assert (Hn : no_nul (bs "a b" ++ [10; 34; 92; 1; 200])) by (repeat constructor; done).
  split; [exact Hn|]. apply json_escape_roundtrip; [exact Hn|]. repeat constructor; done.
Defined.

(** Unicode escapes: for every scalar value, the [\u] escape of a unit or of a
    surrogate pair decodes to the UTF-8 encoding of that very code point, in its
    shortest form. *)
Lemma json_unicode_correct cp q b :
  scalar cp ->
  string_body (unicode_escape cp ++ q) b = string_body q (b ++ utf8_put cp) /\
  utf8_decode (utf8_put cp) = Some cp.
Proof.
  intros Hs. split; [|by apply utf8_decode_put].
  assert (E : unicode_escape cp ++ q = backslash :: ch "u" :: drop 2 (unicode_escape cp ++ q))
    by (unfold unicode_escape; by destruct (cp <? _)).
  rewrite E. apply body_unicode. rewrite <- E. by apply unicode_escape_read.
Qed.

Lemma json_unicode_correct_witness :
  scalar 0x1f600 /\
  string_body (unicode_escape 0x1f600 ++ bs "x") [] = string_body (bs "x") ([] ++ utf8_put 0x1f600) /\
  utf8_decode (utf8_put 0x1f600) = Some 0x1f600.
Proof.
  assert (Hs : scalar 0x1f600) by (unfold scalar; lia).
  split; [exact Hs|]. exact (json_unicode_correct 0x1f600 (bs "x") [] Hs).
Defined.

(** A lone high surrogate swallows the escape behind it: the A is lost, and what
    is stored for the surrogate is not UTF-8. *)
Example json_lone_surrogate :
  json_string (quote :: backslash :: bs "ud83d" ++ backslash :: bs "u0041" ++ [quote])
  = JOk [237; 160; 189] [] /\ utf8_decode [237; 160; 189] = None.
Proof. vm_compute. done. Qed.

Example json_int_nan : json_int (bs "nan") = JOk None [] /\ json_int (bs "-7,") = JOk (Some 0) (bs ",")
  /\ json_int (bs "1e10") = JOk (Some INT_MAX) [] /\ json_int (bs " 42.9") = JOk (Some 42) [].
Proof. vm_compute. done. Qed.
