(* ===== verification/JsonRequest.v ===== *)
(** * JsonRequest: the fields of a request (ds4_server.c)

    The object and array loops of the request parsers have one shape, which is
    written once here with the treatment of a field or an element as an argument.
    RequestFields holds the tools, messages and other structured fields.
    A parser that rejects also leaves its output half filled; the request is
    dropped then, and no state is returned here. *)

From S2P Require Import Prelude Ctype Think Json JsonFacts.

(** [json_ws(p); if ( **p == ',') ( *p)++; json_ws(p);] *)
Definition json_opt_comma (p : bytes) : bytes :=
  let p := json_ws p in
  json_ws (if at_ch p "," then tail p else p).

(** [while ( **p && **p != '}')]: a key, a colon, a field.  The cursor ends on the
    brace or at the end of the text.  Keys are compared as C strings. *)
Fixpoint fields_loop {S} (fuel : nat) (field : bytes -> S -> bytes -> jres S) (st : S) (p : bytes)
  : jres S :=
  match fuel with
  | O => JNoFuel
  | Datatypes.S fuel' =>
      if (peek p =? 0) || at_ch p "}" then JOk st p
      else
        let? (key, p) := json_string p in
        let p := json_ws p in
        if negb (at_ch p ":") then JFail
        else
          let? (st, p) := field (cstr key) st (tail p) in
          fields_loop fuel' field st (json_opt_comma p)
  end.

(** The loop with its closing brace, from behind the opening one. *)
Definition json_fields {S} (field : bytes -> S -> bytes -> jres S) (st : S) (p : bytes) : jres S :=
  let p := json_ws p in
  let? (st, p) := fields_loop (Datatypes.S (length p)) field st p in
  if negb (at_ch p "}") then JFail else JOk st (tail p).

(** [while ( **p && **p != ']')] *)
Fixpoint elements_loop {S} (fuel : nat) (element : S -> bytes -> jres S) (st : S) (p : bytes) : jres S :=
  match fuel with
  | O => JNoFuel
  | Datatypes.S fuel' =>
      if (peek p =? 0) || at_ch p "]" then JOk st p
      else
        let? (st, p) := element st p in
        elements_loop fuel' element st (json_opt_comma p)
  end.

Definition json_elements {S} (element : S -> bytes -> jres S) (st : S) (p : bytes) : jres S :=
  let p := json_ws p in
  let? (st, p) := elements_loop (Datatypes.S (length p)) element st p in
  if negb (at_ch p "]") then JFail else JOk st (tail p).

(** A value that is skipped keeps the state. *)
Definition skip_field {S} (st : S) (p : bytes) : jres S := let? (_, p) := json_skip_value p in JOk st p.

Definition key_is (key : bytes) (s : string) : bool := bytes_eqb key (bs s).
Arguments key_is key s%_string_scope.

(** ** Message content *)

Definition content_field (key b : bytes) (p : bytes) : jres bytes :=
  if key_is key "text" then let? (s, p) := json_string p in JOk (b ++ cstr s) p
  else skip_field b p.

Definition content_element (b : bytes) (p : bytes) : jres bytes :=
  if peek p =? quote then let? (s, p) := json_string p in JOk (b ++ cstr s) p
  else if at_ch p "{" then json_fields content_field b (tail p)
  else skip_field b p.

Definition json_content (p : bytes) : jres bytes :=
  let p := json_ws p in
  if peek p =? quote then json_string p
  else
    match json_lit p (bs "null") with
    | Some p => JOk [] p
    | None => if negb (at_ch p "[") then skip_field [] p else json_elements content_element [] (tail p)
    end.

(** ** Thinking and effort *)

Definition think_mode_from_enabled (enabled : bool) (effort : ds4_think_mode) : ds4_think_mode :=
  if negb enabled then DS4_THINK_NONE
  else match effort with
       | DS4_THINK_NONE => DS4_THINK_NONE
       | DS4_THINK_MAX => DS4_THINK_MAX
       | DS4_THINK_HIGH => DS4_THINK_HIGH
       end.

Definition parse_reasoning_effort_name (s : bytes) : option ds4_think_mode :=
  if key_is s "max" then Some DS4_THINK_MAX
  else if key_is s "xhigh" || key_is s "high" || key_is s "medium" || key_is s "low" || key_is s "minimal"
  then Some DS4_THINK_HIGH
  else if key_is s "none" then Some DS4_THINK_NONE
  else None.

Definition parse_reasoning_effort_value (out : ds4_think_mode) (p : bytes) : jres ds4_think_mode :=
  let p := json_ws p in
  match json_lit p (bs "null") with
  | Some p => JOk out p
  | None =>
      let? (effort, p) := json_string p in
      match parse_reasoning_effort_name (cstr effort) with
      | Some out => JOk out p
      | None => JFail
      end
  end.

Definition thinking_field (key : bytes) (enabled : bool) (p : bytes) : jres bool :=
  if key_is key "type" then
    let? (type, p) := json_string p in
    JOk (if key_is (cstr type) "enabled" then true
         else if key_is (cstr type) "disabled" then false else enabled) p
  else skip_field enabled p.

Definition parse_thinking_control_value (thinking_enabled : bool) (p : bytes) : jres bool :=
  let p := json_ws p in
  match json_lit p (bs "null") with
  | Some p => JOk thinking_enabled p
  | None =>
      if at_ch p "t" || at_ch p "f" then json_bool p
      else if negb (at_ch p "{") then skip_field thinking_enabled p
      else json_fields thinking_field thinking_enabled (tail p)
  end.

Definition effort_field (key : bytes) (effort : ds4_think_mode) (p : bytes) : jres ds4_think_mode :=
  if key_is key "effort" then parse_reasoning_effort_value effort p else skip_field effort p.

Definition parse_output_config_effort (effort : ds4_think_mode) (p : bytes) : jres ds4_think_mode :=
  let p := json_ws p in
  match json_lit p (bs "null") with
  | Some p => JOk effort p
  | None =>
      if negb (at_ch p "{") then skip_field effort p else json_fields effort_field effort (tail p)
  end.

Definition model_alias_disables_thinking (model : option bytes) : bool :=
  match model with Some m => key_is m "deepseek-chat" | None => false end.

Definition model_alias_enables_thinking (model : option bytes) : bool :=
  match model with Some m => key_is m "deepseek-reasoner" | None => false end.

Definition server_model_alias_known (id : option bytes) : bool :=
  match id with Some i => key_is i "deepseek-v4-flash" || key_is i "deepseek-v4-pro" | None => false end.

(** ** Stream options *)

Definition stream_options_field (key : bytes) (include_usage : bool) (p : bytes) : jres bool :=
  if key_is key "include_usage" then json_bool p else skip_field include_usage p.

Definition parse_stream_options (include_usage : bool) (p : bytes) : jres bool :=
  let p := json_ws p in
  if negb (at_ch p "{") then skip_field include_usage p
  else json_fields stream_options_field include_usage (tail p).

(** ** Tool calls *)

Record tool_call := mkToolCall {
  tc_id : option bytes;
  tc_name : option bytes;
  tc_arguments : option bytes
}.

Definition tool_call_zero : tool_call := mkToolCall None None None.

Definition function_call_field (key : bytes) (tc : tool_call) (p : bytes) : jres tool_call :=
  if key_is key "name" then
    let? (s, p) := json_string p in JOk (mkToolCall (tc_id tc) (Some s) (tc_arguments tc)) p
  else if key_is key "arguments" then
    let p := json_ws p in
    let? (s, p) := (if peek p =? quote then json_string p else json_raw_value p) in
    JOk (mkToolCall (tc_id tc) (tc_name tc) (Some s)) p
  else skip_field tc p.

Definition parse_function_call (tc : tool_call) (p : bytes) : jres tool_call :=
  let p := json_ws p in
  if negb (at_ch p "{") then JFail else json_fields function_call_field tc (tail p).

Definition tool_call_field (key : bytes) (tc : tool_call) (p : bytes) : jres tool_call :=
  if key_is key "id" then
    let? (s, p) := json_string p in JOk (mkToolCall (Some s) (tc_name tc) (tc_arguments tc)) p
  else if key_is key "function" then parse_function_call tc p
  else skip_field tc p.

(** A call without a name or arguments is dropped. *)
Definition tool_calls_element (calls : list tool_call) (p : bytes) : jres (list tool_call) :=
  if negb (at_ch p "{") then JFail
  else
    let? (tc, p) := json_fields tool_call_field tool_call_zero (tail p) in
    JOk (match tc_name tc, tc_arguments tc with
         | Some _, Some _ => calls ++ [tc]
         | _, _ => calls
         end) p.

Definition parse_tool_calls_value (calls : list tool_call) (p : bytes) : jres (list tool_call) :=
  let p := json_ws p in
  match json_lit p (bs "null") with
  | Some p => JOk calls p
  | None => if negb (at_ch p "[") then JFail else json_elements tool_calls_element calls (tail p)
  end.

(** ** The parsers end and stay in the text *)

Lemma behind_opt_comma p : behind 0 p (json_opt_comma p).
Proof.
  unfold json_opt_comma. apply (behind_trans 0 0 _ (json_ws p)); [apply behind_ws|].
  destruct (at_ch (json_ws p) ",") eqn:E; [|apply behind_ws].
  eapply (behind_weaken 1); [lia|]. apply (behind_trans 1 0 _ (tail (json_ws p))); [by eapply behind_at|apply behind_ws].
Qed.

Section Loops.
  Context {S : Type}.

Lemma fields_loop_ok (field : bytes -> S -> bytes -> jres S) fuel st p :
  (forall key st q, parser_ok 0 q (field key st q)) -> (length p < fuel)%nat ->
  parser_ok 0 p (fields_loop fuel field st p).
Proof.
  intros Hf. revert st p. induction fuel as [|fuel IH]; intros st p Hl; [lia|]. cbn [fields_loop].
  destruct (_ || _); [apply behind_refl|].
  pose proof (json_string_ok p) as Hs. destruct (json_string p) as [key q| |]; cbn [jbind] in *; try done.
  cbn in Hs. destruct (at_ch (json_ws q) ":") eqn:Ec; cbn [negb]; [|done].
  pose proof (behind_trans _ _ _ _ _ Hs (behind_close _ _ Ec ltac:(done))) as Hq.
  pose proof (Hf (cstr key) st (tail (json_ws q))) as Hfd.
  destruct (field _ _ _) as [st' q2| |]; cbn [jbind] in *; try done. cbn in Hfd.
  pose proof (behind_trans _ _ _ _ _ Hq (behind_trans _ _ _ _ _ Hfd (behind_opt_comma q2))) as Hq2.
  pose proof (behind_length _ _ _ Hq2). eapply parser_weaken; [|eapply parser_from; [exact Hq2|apply IH; lia]]. lia.
Qed.

Lemma elements_loop_ok (element : S -> bytes -> jres S) fuel st p :
  (forall st q, parser_ok 1 q (element st q)) -> (length p < fuel)%nat ->
  parser_ok 0 p (elements_loop fuel element st p).
Proof.
  intros Hf. revert st p. induction fuel as [|fuel IH]; intros st p Hl; [lia|]. cbn [elements_loop].
  destruct (_ || _); [apply behind_refl|].
  pose proof (Hf st p) as He. destruct (element st p) as [st' q| |]; cbn [jbind] in *; try done. cbn in He.
  pose proof (behind_trans _ _ _ _ _ He (behind_opt_comma q)) as Hq. pose proof (behind_length _ _ _ Hq).
  eapply parser_weaken; [|eapply parser_from; [exact Hq|apply IH; lia]]. lia.
Qed.

Lemma json_fields_ok (field : bytes -> S -> bytes -> jres S) st p :
  (forall key st q, parser_ok 0 q (field key st q)) -> parser_ok 1 p (json_fields field st p).
Proof.
  intros Hf. unfold json_fields.
  pose proof (fields_loop_ok field (Datatypes.S (length (json_ws p))) st (json_ws p) Hf ltac:(lia)) as H.
  destruct (fields_loop _ _ _ _) as [st' q| |]; cbn [jbind] in *; try done. cbn in H.
  destruct (at_ch q "}") eqn:E; cbn [negb]; [|done].
  apply (behind_trans 0 1 _ (json_ws p)); [apply behind_ws|].
  apply (behind_trans 0 1 _ q); [done|by eapply behind_at].
Qed.

Lemma json_elements_ok (element : S -> bytes -> jres S) st p :
  (forall st q, parser_ok 1 q (element st q)) -> parser_ok 1 p (json_elements element st p).
Proof.
  intros Hf. unfold json_elements.
  pose proof (elements_loop_ok element (Datatypes.S (length (json_ws p))) st (json_ws p) Hf ltac:(lia)) as H.
  destruct (elements_loop _ _ _ _) as [st' q| |]; cbn [jbind] in *; try done. cbn in H.
  destruct (at_ch q "]") eqn:E; cbn [negb]; [|done].
  apply (behind_trans 0 1 _ (json_ws p)); [apply behind_ws|].
  apply (behind_trans 0 1 _ q); [done|by eapply behind_at].
Qed.

Lemma skip_field_ok (st : S) p : parser_ok 1 p (skip_field st p).
Proof.
  unfold skip_field. pose proof (json_skip_value_ok p) as H. by destruct (json_skip_value p).
Qed.

End Loops.

(** A parser followed by a pure function. *)
Lemma parser_map {A B} n p (m : jres A) (f : A -> B) :
  parser_ok n p m -> parser_ok n p (let? (x, q) := m in JOk (f x) q).
Proof. by destruct m. Qed.

Lemma parser_any {A} p (m : jres A) : parser_ok 1 p m -> parser_ok 0 p m.
Proof. apply parser_weaken. lia. Qed.

Lemma string_ok p : parser_ok 1 p (json_string p).
Proof. apply (parser_weaken 2); [lia|apply json_string_ok]. Qed.

Lemma lit_ok {A} n p lit r (a : A) : json_lit p lit = Some r -> (n <= length lit)%nat -> parser_ok n p (JOk a r).
Proof. intros H%json_lit_behind Hn. by eapply behind_weaken. Qed.

(** Skips leading space. *)
Lemma parser_ws {A} n p (m : jres A) : parser_ok n (json_ws p) m -> parser_ok n p m.
Proof. intros H. apply (parser_from 0 n _ (json_ws p)); [apply behind_ws|done]. Qed.

(** Behind an opening bracket. *)
Lemma parser_open {A} p a (m : jres A) :
  at_ch p a = true -> ch a <> 0 -> parser_ok 1 (tail p) m -> parser_ok 1 p m.
Proof.
  intros Ha Hne H. apply (parser_weaken 2); [lia|]. apply (parser_from 1 1 _ (tail p)); [|done].
  by eapply behind_at.
Qed.

#[export] Hint Resolve skip_field_ok string_ok json_raw_value_ok json_bool_ok : json.

Ltac parser_tac :=
  repeat match goal with
  | |- parser_ok _ _ (match json_lit ?p ?l with _ => _ end) =>
      destruct (json_lit p l) eqn:?; [eapply lit_ok; [eassumption|cbn; lia]|]
  | |- parser_ok _ _ (if negb (at_ch ?p ?a) then _ else _) => destruct (at_ch p a) eqn:?; cbn [negb]
  | |- parser_ok _ _ (if at_ch ?p ?a then _ else _) => destruct (at_ch p a) eqn:?
  | |- parser_ok _ _ (if _ then _ else _) => case_match
  | |- parser_ok 0 _ _ => apply parser_any
  | |- parser_ok _ _ (jbind _ (fun _ _ => JOk _ _)) => apply parser_map
  | |- parser_ok _ _ JFail => exact I
  | |- parser_ok _ _ _ => solve [auto with json]
  end.

Lemma content_field_ok key b p : parser_ok 0 p (content_field key b p).
Proof. unfold content_field. parser_tac. Qed.

Lemma content_element_ok b p : parser_ok 1 p (content_element b p).
Proof.
  unfold content_element. parser_tac. eapply parser_open; [eassumption|done|].
  apply json_fields_ok, content_field_ok.
Qed.

Lemma json_content_ok p : parser_ok 1 p (json_content p).
Proof.
  unfold json_content. apply parser_ws. parser_tac. eapply parser_open; [eassumption|done|].
  apply json_elements_ok, content_element_ok.
Qed.

Lemma parse_effort_ok out p : parser_ok 1 p (parse_reasoning_effort_value out p).
Proof.
  unfold parse_reasoning_effort_value. apply parser_ws. parser_tac.
  pose proof (string_ok (json_ws p)) as H. destruct (json_string _); cbn [jbind]; try done. by case_match.
Qed.

Lemma thinking_field_ok key st p : parser_ok 0 p (thinking_field key st p).
Proof. unfold thinking_field. parser_tac. Qed.

Lemma parse_thinking_ok st p : parser_ok 1 p (parse_thinking_control_value st p).
Proof.
  unfold parse_thinking_control_value. apply parser_ws. parser_tac.
  eapply parser_open; [eassumption|done|]. apply json_fields_ok, thinking_field_ok.
Qed.

Lemma effort_field_ok key st p : parser_ok 0 p (effort_field key st p).
Proof. unfold effort_field. parser_tac. apply parse_effort_ok. Qed.

Lemma parse_output_config_ok st p : parser_ok 1 p (parse_output_config_effort st p).
Proof.
  unfold parse_output_config_effort. apply parser_ws. parser_tac.
  eapply parser_open; [eassumption|done|]. apply json_fields_ok, effort_field_ok.
Qed.

Lemma stream_options_field_ok key st p : parser_ok 0 p (stream_options_field key st p).
Proof. unfold stream_options_field. parser_tac. Qed.

Lemma parse_stream_options_ok st p : parser_ok 1 p (parse_stream_options st p).
Proof.
  unfold parse_stream_options. apply parser_ws. parser_tac.
  eapply parser_open; [eassumption|done|]. apply json_fields_ok, stream_options_field_ok.
Qed.

Lemma function_call_field_ok key st p : parser_ok 0 p (function_call_field key st p).
Proof.
  unfold function_call_field. parser_tac; apply parser_ws; parser_tac.
Qed.

Lemma parse_function_call_ok tc p : parser_ok 1 p (parse_function_call tc p).
Proof.
  unfold parse_function_call. apply parser_ws. parser_tac.
  eapply parser_open; [eassumption|done|]. apply json_fields_ok, function_call_field_ok.
Qed.

Lemma tool_call_field_ok key st p : parser_ok 0 p (tool_call_field key st p).
Proof. unfold tool_call_field. parser_tac. apply parse_function_call_ok. Qed.

Lemma tool_calls_element_ok calls p : parser_ok 1 p (tool_calls_element calls p).
Proof.
  unfold tool_calls_element. parser_tac. eapply parser_open; [eassumption|done|].
  apply json_fields_ok, tool_call_field_ok.
Qed.

Lemma parse_tool_calls_ok calls p : parser_ok 1 p (parse_tool_calls_value calls p).
Proof.
  unfold parse_tool_calls_value. apply parser_ws. parser_tac.
  eapply parser_open; [eassumption|done|]. apply json_elements_ok, tool_calls_element_ok.
Qed.

(** Tool calls: what is parsed is appended to the calls already there, and
    every appended call has a name and arguments. *)
Lemma tool_calls_complete calls p :
  match parse_tool_calls_value calls p with
  | JOk calls' _ => exists new, calls' = calls ++ new /\
      Forall (fun tc => is_Some (tc_name tc) /\ is_Some (tc_arguments tc)) new
  | _ => True
  end.
Proof.
  assert (Hloop : forall fuel st q, match elements_loop fuel tool_calls_element st q with
    | JOk st' _ => exists new, st' = st ++ new /\
        Forall (fun tc => is_Some (tc_name tc) /\ is_Some (tc_arguments tc)) new
    | _ => True end).
  { induction fuel as [|fuel IH]; intros st q; cbn [elements_loop]; [done|].
    destruct (_ || _); [exists []; by rewrite app_nil_r|].
    destruct (tool_calls_element st q) as [st' q'| |] eqn:E; cbn [jbind]; try done.
    specialize (IH st' (json_opt_comma q')). destruct (elements_loop _ _ _ _); try done.
    destruct IH as (new & -> & Hnew). unfold tool_calls_element in E.
    destruct (negb (at_ch q "{")); [done|].
    destruct (json_fields _ _ _) as [tc q2| |]; cbn [jbind] in E; try done.
    destruct (tc_name tc) eqn:En; [|injection E as <- <-; by exists new].
    destruct (tc_arguments tc) eqn:Ea; injection E as <- <-; [|by exists new].
    exists (tc :: new). split; [by rewrite <- app_assoc|]. constructor; [|done]. rewrite En, Ea. eauto. }
  unfold parse_tool_calls_value. destruct (json_lit _ _); [exists []; by rewrite app_nil_r|].
  destruct (negb _); [done|]. unfold json_elements.
  specialize (Hloop (S (length (json_ws (tail (json_ws p))))) calls (json_ws (tail (json_ws p)))).
  destruct (elements_loop _ _ _ _); cbn [jbind]; try done. by destruct (negb _).
Qed.

Example tool_calls_run :
  match parse_tool_calls_value [] (flat_map (fun c => if c =? ch "'" then [quote] else [c])
    (bs "[{'id':'c1','function':{'name':'ls','arguments':{'a':[1]}}},{'id':'c2'}]")) with
  | JOk calls p => (calls, p) = ([mkToolCall (Some (bs "c1")) (Some (bs "ls"))
      (Some ([123; 34] ++ bs "a" ++ [34] ++ bs ":[1]}"))], [])
  | _ => False
  end.
Proof. vm_compute. reflexivity. Qed.
