(* ===== verification/JsonLocal.v ===== *)
(** * JsonLocal: a JSON value ends where it ends

    Skipping a value and reading a string do not depend on what follows, when
    that begins with a comma or a closing bracket. *)

From S2P Require Import Prelude Ctype KvStore Strtod Json JsonFacts.

(** A byte that ends a value. *)
Definition is_stop (c : Z) : Prop := c = ch "," \/ c = ch "}" \/ c = ch "]".

(** Properties of these bytes are decided by evaluation. *)
Lemma stop_case (P : Z -> Prop) c : is_stop c -> P (ch ",") -> P (ch "}") -> P (ch "]") -> P c.
Proof. by intros [->|[->| ->]]. Qed.

Ltac stop_eval :=
  match goal with H : is_stop ?c |- ?g =>
    let P := eval pattern c in g in
    match P with ?f _ => apply (stop_case f c H); (reflexivity || discriminate || (vm_compute; reflexivity)) end
  end.

Section Follow.
Context (c : Z) (r : bytes) (Hc : is_stop c).
#[local] Set Default Proof Using "All".

#[local] Abbreviation follow s := (s ++ c :: r).

Lemma span_follow f s : f c = false -> span_len f (follow s) = span_len f s.
Proof. intros Hf. induction s as [|x s IH]; cbn; [by rewrite Hf|]. by rewrite IH. Qed.

Lemma take_span_follow f s : f c = false -> take (span_len f (follow s)) (follow s) = take (span_len f s) s.
Proof. intros Hf. rewrite span_follow by done. by rewrite take_app_le by apply span_len_le. Qed.

Lemma drop_span_follow f s : f c = false -> drop (span_len f (follow s)) (follow s) = follow (drop (span_len f s) s).
Proof. intros Hf. rewrite span_follow by done. by rewrite drop_app_le by apply span_len_le. Qed.

Lemma json_ws_follow s : json_ws (follow s) = follow (json_ws s).
Proof. unfold json_ws. rewrite drop_span_follow; [done|]. stop_eval. Qed.

Lemma strip_prefix_follow lit s : c ∉ lit -> strip_prefix lit (follow s) = (fun q => follow q) <$> strip_prefix lit s.
Proof.
  revert s. induction lit as [|x lit IH]; intros s Hl; cbn; [by destruct s|].
  apply not_elem_of_cons in Hl as [Hx Hl]. destruct s as [|y s]; cbn.
  - destruct (Z.eqb_spec x c); [congruence|done].
  - destruct (x =? y); [by apply IH|done].
Qed.

Lemma strip_ci_follow lit s : tolower c ∉ lit -> strip_ci lit (follow s) = (fun q => follow q) <$> strip_ci lit s.
Proof.
  revert s. induction lit as [|x lit IH]; intros s Hl; cbn; [by destruct s|].
  apply not_elem_of_cons in Hl as [Hx Hl]. destruct s as [|y s]; cbn.
  - destruct (Z.eqb_spec (tolower c) x); [congruence|done].
  - destruct (tolower y =? x); [by apply IH|done].
Qed.

(** ** Numbers *)

Lemma scan_digits_follow f s :
  f c = false -> scan_digits f (follow s) = (fun '(ip, fp, q) => (ip, fp, follow q)) <$> scan_digits f s.
Proof.
  intros Hf. unfold scan_digits. rewrite take_span_follow, drop_span_follow by done.
  destruct (drop (span_len f s) s) as [|x s1]; cbn [app].
  - assert ((c =? ch ".") = false) as -> by stop_eval. by destruct (take _ s).
  - destruct (x =? ch "."); [rewrite take_span_follow, drop_span_follow by done|];
      destruct (take (span_len f s) s); [destruct (take _ s1)| |..]; done.
Qed.

Lemma scan_exponent_follow e s :
  tolower c <> e -> scan_exponent e (follow s) = (fun '(v, q) => (v, follow q)) (scan_exponent e s).
Proof.
  intros He. destruct s as [|x s]; cbn [app scan_exponent].
  { destruct (Z.eqb_spec (tolower c) e); done. }
  destruct (tolower x =? e); [|done].
  assert (Hd : isdigit c = false) by stop_eval.
  assert (Hfin : forall neg s2,
    (match span_len isdigit (follow s2) with
     | O => (0, x :: follow s)
     | k => let v := digits_value 0 (take k (follow s2)) in ((if neg : bool then - v else v), drop k (follow s2))
     end) = (fun '(v, q) => (v, follow q))
    (match span_len isdigit s2 with
     | O => (0, x :: s)
     | k => let v := digits_value 0 (take k s2) in ((if neg then - v else v), drop k s2)
     end)).
  { intros neg s2. rewrite span_follow by done. destruct (span_len isdigit s2) as [|k] eqn:Ek; [done|].
    cbv beta iota zeta. pose proof (span_len_le isdigit s2). rewrite take_app_le, drop_app_le by lia. done. }
  destruct s as [|d s2]; cbn [app].
  - assert ((c =? ch "-") = false) as -> by stop_eval. assert ((c =? ch "+") = false) as -> by stop_eval.
    exact (Hfin false []).
  - destruct (d =? ch "-"); [apply (Hfin true)|]. destruct (d =? ch "+"); [apply (Hfin false)|].
    apply (Hfin false (d :: s2)).
Qed.

Lemma scan_decimal_follow neg s :
  scan_decimal neg (follow s) = (fun '(v, q) => (v, follow q)) <$> scan_decimal neg s.
Proof.
  unfold scan_decimal. rewrite scan_digits_follow by stop_eval.
  destruct (scan_digits isdigit s) as [[[ip fp] s1]|]; cbn [mbind option_bind fmap option_fmap option_map]; [|done].
  rewrite scan_exponent_follow by stop_eval. by destruct (scan_exponent (ch "e") s1).
Qed.

Lemma scan_hex_follow neg s :
  scan_hex neg (follow s) = (fun '(v, q) => (v, follow q)) <$> scan_hex neg s.
Proof.
  unfold scan_hex. rewrite strip_ci_follow.
  2: { assert (bool_decide (tolower c ∉ bs "0x") = true) as Hd by stop_eval. by apply bool_decide_eq_true in Hd. }
  destruct (strip_ci _ s) as [s0|]; cbn [mbind option_bind fmap option_fmap option_map]; [|done].
  rewrite scan_digits_follow by stop_eval.
  destruct (scan_digits isxdigit s0) as [[[ip fp] s1]|]; cbn [mbind option_bind fmap option_fmap option_map]; [|done].
  rewrite scan_exponent_follow by stop_eval. by destruct (scan_exponent (ch "p") s1).
Qed.

Lemma nan_tail_follow s : nan_tail (follow s) = follow (nan_tail s).
Proof.
  destruct s as [|x s]; cbn [app nan_tail].
  { assert ((c =? ch "(") = false) as -> by stop_eval. done. }
  destruct (x =? ch "("); [|done]. rewrite drop_span_follow by stop_eval.
  destruct (drop _ s) as [|d s2]; cbn [app].
  - assert ((c =? ch ")") = false) as -> by stop_eval. done.
  - by destruct (d =? ch ")").
Qed.

Lemma strtod_unsigned_follow neg s :
  strtod_unsigned neg (follow s) = (fun '(v, q) => (v, follow q)) <$> strtod_unsigned neg s.
Proof.
  unfold strtod_unsigned.
  assert (Hl : forall lit, lit ∈ [bs "infinity"; bs "inf"; bs "nan"] -> tolower c ∉ lit).
  { intros lit Hin. assert (forallb (fun l => bool_decide (tolower c ∉ l)) [bs "infinity"; bs "inf"; bs "nan"] = true) as Ha
      by stop_eval.
    rewrite forallb_forall in Ha. apply list_elem_of_In, Ha in Hin. by apply bool_decide_eq_true in Hin. }
  rewrite !strip_ci_follow by (apply Hl; apply (bool_decide_unpack _); vm_compute; exact I).
  destruct (strip_ci (bs "infinity") s), (strip_ci (bs "inf") s), (strip_ci (bs "nan") s);
    cbn [fmap option_fmap option_map]; rewrite ?nan_tail_follow; try done.
  rewrite scan_hex_follow, scan_decimal_follow. by destruct (scan_hex neg s).
Qed.

Lemma strtod_follow s : strtod (follow s) = (fun '(v, q) => (v, follow q)) <$> strtod s.
Proof.
  unfold strtod. rewrite drop_span_follow by stop_eval. destruct (drop _ s) as [|x s1]; cbn [app].
  - assert ((c =? ch "-") = false) as -> by stop_eval. assert ((c =? ch "+") = false) as -> by stop_eval.
    transitivity (strtod_unsigned false (follow [])); [done|]. by rewrite strtod_unsigned_follow.
  - destruct (x =? ch "-"); [apply strtod_unsigned_follow|]. destruct (x =? ch "+"); [apply strtod_unsigned_follow|].
    apply (strtod_unsigned_follow false (x :: s1)).
Qed.

(** ** Strings *)

Lemma json_u16_loop_follow n p cp :
  json_u16_loop n (follow p) cp = (fun '(v, q) => (v, follow q)) <$> json_u16_loop n p cp.
Proof.
  revert p cp. induction n as [|n IH]; intros p cp; cbn [json_u16_loop]; [done|].
  destruct p as [|x p]; cbn [app peek tail].
  - assert ((json_hex c <? 0) = true) as -> by stop_eval. done.
  - destruct (json_hex x <? 0); [done|]. apply IH.
Qed.

Lemma json_u16_follow p : json_u16 (follow p) = (fun '(v, q) => (v, follow q)) <$> json_u16 p.
Proof.
  destruct p as [|x [|y p]]; cbn [app json_u16].
  - destruct r as [|z r']; [done|]. assert ((c =? backslash) = false) as -> by stop_eval. done.
  - assert ((c =? ch "u") = false) as -> by stop_eval. by rewrite andb_false_r.
  - destruct (_ && _); [|done]. apply json_u16_loop_follow.
Qed.

Lemma json_unicode_escape_follow p :
  json_unicode_escape (follow p) = (fun '(v, q) => (v, follow q)) <$> json_unicode_escape p.
Proof.
  unfold json_unicode_escape. rewrite json_u16_follow.
  destruct (json_u16 p) as [[cp q]|]; cbn [mbind option_bind fmap option_fmap option_map]; [|done].
  destruct (is_high cp); [|done]. rewrite json_u16_follow.
  destruct (json_u16 q) as [[lo q']|]; cbn [fmap option_fmap option_map]; [|done]. by destruct (is_low lo).
Qed.

Lemma json_string_loop_follow fuel fuel' p b v q :
  (fuel <= fuel')%nat -> json_string_loop fuel p b = JOk v q ->
  json_string_loop fuel' (follow p) b = JOk v (follow q).
Proof.
  revert fuel' p b. induction fuel as [|fuel IH]; intros [|fuel'] p b Hf; try done; [lia|].
  cbn [json_string_loop]. destruct p as [|x p1]; [done|]. cbn [app].
  destruct (x =? 0); [done|]. destruct (x =? quote); [by intros [= -> ->]|].
  destruct (negb (x =? backslash)); [apply IH; lia|].
  destruct p1 as [|e p2]; [done|]. cbn [app]. destruct (json_simple_escape e); [apply IH; lia|].
  destruct (e =? ch "u"); [|done]. pose proof (json_unicode_escape_follow (x :: e :: p2)) as Hu. cbn [app] in Hu.
  rewrite Hu. destruct (json_unicode_escape (x :: e :: p2)) as [[cp p']|]; cbn [fmap option_fmap option_map]; [|done].
  apply IH. lia.
Qed.

Lemma json_string_follow p v q : json_string p = JOk v q -> json_string (follow p) = JOk v (follow q).
Proof.
  unfold json_string. rewrite json_ws_follow. destruct (json_ws p) as [|x s] eqn:E; [done|]. cbn [app peek tail].
  destruct (negb _); [done|]. apply json_string_loop_follow. cbn. rewrite length_app. lia.
Qed.

(** ** Values *)

Lemma json_skip_scalar_follow p q :
  json_skip_scalar p = JOk tt q -> json_skip_scalar (follow p) = JOk tt (follow q).
Proof.
  unfold json_skip_scalar, json_lit, json_number.
  assert (Hl : forall lit, lit ∈ [bs "true"; bs "false"; bs "null"] -> c ∉ lit).
  { intros lit Hin. assert (forallb (fun l => bool_decide (c ∉ l)) [bs "true"; bs "false"; bs "null"] = true) as Ha
      by stop_eval.
    rewrite forallb_forall in Ha. apply list_elem_of_In, Ha in Hin. by apply bool_decide_eq_true in Hin. }
  rewrite !strip_prefix_follow by (apply Hl; apply (bool_decide_unpack _); vm_compute; exact I).
  rewrite json_ws_follow, strtod_follow.
  destruct (strip_prefix (bs "true") p), (strip_prefix (bs "false") p), (strip_prefix (bs "null") p);
    cbn [fmap option_fmap option_map]; try (by intros [= ->]).
  destruct (strtod (json_ws p)) as [[v s]|]; cbn [fmap option_fmap option_map]; [by intros [= ->]|done].
Qed.

Lemma skip_scalar_nil q : json_skip_scalar [] <> JOk tt q.
Proof. by vm_compute. Qed.

Definition skip_follow_at (fuel : nat) : Prop :=
  forall fuel' p d q, (fuel <= fuel')%nat ->
  (json_skip_value_depth fuel p d = JOk tt q -> json_skip_value_depth fuel' (follow p) d = JOk tt (follow q)) /\
  (json_skip_array_depth fuel p d = JOk tt q -> json_skip_array_depth fuel' (follow p) d = JOk tt (follow q)) /\
  (json_skip_array_loop fuel p d = JOk tt q -> json_skip_array_loop fuel' (follow p) d = JOk tt (follow q)) /\
  (json_skip_object_depth fuel p d = JOk tt q -> json_skip_object_depth fuel' (follow p) d = JOk tt (follow q)) /\
  (json_skip_object_loop fuel p d = JOk tt q -> json_skip_object_loop fuel' (follow p) d = JOk tt (follow q)).

(** The tests of the cursor, on a text that is not empty. *)
Lemma at_ch_follow a s : s <> [] -> at_ch (follow s) a = at_ch s a /\ tail (follow s) = follow (tail s).
Proof using. by destruct s. Qed.

Lemma skip_follow_all fuel : skip_follow_at fuel.
Proof.
  induction fuel as [|fuel IH]; intros [|fuel'] p d q Hf; try lia; [split_and!; done|split_and!; done|].
  assert (IHv : forall p d q, json_skip_value_depth fuel p d = JOk tt q -> _)
    by (intros p0 d0 q0; apply (IH fuel' p0 d0 q0); lia).
  assert (IHa : forall p d q, json_skip_array_depth fuel p d = JOk tt q -> _)
    by (intros p0 d0 q0; apply (IH fuel' p0 d0 q0); lia).
  assert (IHal : forall p d q, json_skip_array_loop fuel p d = JOk tt q -> _)
    by (intros p0 d0 q0; apply (IH fuel' p0 d0 q0); lia).
  assert (IHo : forall p d q, json_skip_object_depth fuel p d = JOk tt q -> _)
    by (intros p0 d0 q0; apply (IH fuel' p0 d0 q0); lia).
  assert (IHol : forall p d q, json_skip_object_loop fuel p d = JOk tt q -> _)
    by (intros p0 d0 q0; apply (IH fuel' p0 d0 q0); lia).
  assert (Hloop : forall close s (k k' : bytes -> jres unit), s <> [] ->
    (forall t, k t = JOk tt q -> k' (follow t) = JOk tt (follow q)) ->
    (if at_ch s close then JOk tt (tail s) else if negb (at_ch s ",") then JFail else k (tail s)) = JOk tt q ->
    (if at_ch (follow s) close then JOk tt (tail (follow s))
     else if negb (at_ch (follow s) ",") then JFail else k' (tail (follow s))) = JOk tt (follow q)).
  { intros close s k k' Hs Hk. rewrite !(proj1 (at_ch_follow _ _ Hs)), (proj2 (at_ch_follow "," _ Hs)).
    destruct (at_ch s close); [by intros [= ->]|]. destruct (negb _); [done|]. apply Hk. }
  split_and!; cbn [json_skip_value_depth json_skip_array_depth json_skip_array_loop
                   json_skip_object_depth json_skip_object_loop].
  - rewrite json_ws_follow. destruct (json_ws p) as [|x s] eqn:E.
    { intros H. by apply skip_scalar_nil in H. }
    unfold at_ch. cbn [app peek]. destruct (x =? quote).
    { destruct (json_string (x :: s)) as [v s'| |] eqn:Es; cbn [jbind]; try done. intros [= ->].
      pose proof (json_string_follow _ _ _ Es) as Hs. cbn [app] in Hs. by rewrite Hs. }
    destruct (x =? ch "{"); [apply (IHo (x :: s))|]. destruct (x =? ch "["); [apply (IHa (x :: s))|].
    apply (json_skip_scalar_follow (x :: s)).
  - destruct (_ <=? d); [done|]. rewrite json_ws_follow. destruct (json_ws p) as [|x s]; [done|].
    unfold at_ch. cbn [app peek tail]. destruct (x =? ch "["); cbn [negb]; [|done]. rewrite json_ws_follow.
    destruct (json_ws s) as [|y s']; [cbn [peek]; intros H; exfalso; revert H; clear; destruct fuel as [|[|f]]; by vm_compute|].
    cbn [app peek tail]. destruct (y =? ch "]"); [by intros [= ->]|]. apply (IHal (y :: s')).
  - destruct (json_skip_value_depth fuel p (d + 1)) as [[] s| |] eqn:Es; cbn [jbind]; try done.
    rewrite (IHv _ _ _ Es). cbn [jbind]. rewrite json_ws_follow.
    destruct (json_ws s) as [|y s']; [discriminate|]. apply (Hloop "]"%char (y :: s') (fun t => json_skip_array_loop fuel t d) (fun t => json_skip_array_loop fuel' t d)); [done|].
    intros t. apply IHal.
  - destruct (_ <=? d); [done|]. rewrite json_ws_follow. destruct (json_ws p) as [|x s]; [done|].
    unfold at_ch. cbn [app peek tail]. destruct (x =? ch "{"); cbn [negb]; [|done]. rewrite json_ws_follow.
    destruct (json_ws s) as [|y s']; [cbn [peek]; intros H; exfalso; revert H; clear; destruct fuel as [|f]; by vm_compute|].
    cbn [app peek tail]. destruct (y =? ch "}"); [by intros [= ->]|]. apply (IHol (y :: s')).
  - destruct (json_string p) as [v s| |] eqn:Es; cbn [jbind]; try done.
    rewrite (json_string_follow _ _ _ Es). cbn [jbind]. rewrite json_ws_follow.
    destruct (json_ws s) as [|x s']; [done|]. cbn [app tail].
    rewrite (eq_refl : at_ch (x :: s' ++ c :: r) ":" = at_ch (x :: s') ":").
    destruct (at_ch (x :: s') ":"); cbn [negb]; [|done].
    destruct (json_skip_value_depth fuel s' (d + 1)) as [[] s2| |] eqn:Es2; cbn [jbind]; try done.
    rewrite (IHv _ _ _ Es2). cbn [jbind]. rewrite json_ws_follow.
    destruct (json_ws s2) as [|y s3]; [discriminate|]. apply (Hloop "}"%char (y :: s3) (fun t => json_skip_object_loop fuel t d) (fun t => json_skip_object_loop fuel' t d)); [done|].
    intros t. apply IHol.
Qed.

(** A value keeps its end whatever follows the byte that ends it. *)
Lemma json_skip_value_follow p q :
  json_skip_value p = JOk tt q -> json_skip_value (follow p) = JOk tt (follow q).
Proof. apply skip_follow_all. rewrite length_app. lia. Qed.

Lemma json_raw_value_follow v :
  json_ws v = v -> json_skip_value v = JOk tt [] -> json_raw_value (follow v) = JOk v (c :: r).
Proof.
  intros Hw Hs. unfold json_raw_value. rewrite json_ws_follow, Hw, (json_skip_value_follow _ _ Hs).
  cbn [jbind app]. f_equal. rewrite length_app.
  replace (_ + _ - _)%nat with (length v) by (cbn [length]; lia). by apply take_app_length.
Qed.
End Follow.
