(* ===== verification/Stream.v ===== *)
(** * Stream: what a streaming reply may already send (ds4_server.c)

    Stop sequences and incomplete UTF-8 characters are held back until the next
    token decides about them. *)

From S2P Require Import Prelude Ctype Json JsonFacts JsonRequest.

(** ** Stop sequences *)

Record stop_list := mkStops {
  sl_v : list bytes;
  sl_cap : Z;
  sl_max_len : Z
}.

Definition stop_list_clear (stops : stop_list) : stop_list := mkStops [] (sl_cap stops) 0.

(** [s] is a C string. *)
Definition stop_list_push (stops : stop_list) (s : bytes) : stop_list :=
  match cstr s with
  | [] => stops
  | s =>
      let cap := if zlen (sl_v stops) =? sl_cap stops
                 then (if sl_cap stops =? 0 then 4 else sl_cap stops * 2) else sl_cap stops in
      let n := zlen s in
      mkStops (sl_v stops ++ [s]) cap (if sl_max_len stops <? n then n else sl_max_len stops)
  end.

Definition stop_element (stops : stop_list) (p : bytes) : jres stop_list :=
  if peek p =? quote then let? (s, p) := json_string p in JOk (stop_list_push stops s) p
  else skip_field stops p.

Definition parse_stop (out : stop_list) (p : bytes) : jres stop_list :=
  let p := json_ws p in
  let out := stop_list_clear out in
  if peek p =? quote then let? (s, p) := json_string p in JOk (stop_list_push out s) p
  else if negb (at_ch p "[") then skip_field out p
  else json_elements stop_element out (tail p).

(** The offset of the first occurrence. *)
Fixpoint sub_pos (needle text : bytes) : option nat :=
  if starts_with needle text then Some O
  else match text with
       | [] => None
       | _ :: text' => S <$> sub_pos needle text'
       end.

(** The loop: the best position and length so far. *)
Fixpoint stop_find_loop (stops : list bytes) (text : bytes) (from : nat) (best : option (nat * nat))
  : option (nat * nat) :=
  match stops with
  | [] => best
  | s :: stops' =>
      let best :=
        match sub_pos s (drop from text) with
        | None => best
        | Some i =>
            let ppos := (from + i)%nat in
            match best with
            | Some (bp, _) => if (ppos <? bp)%nat then Some (ppos, length s) else best
            | None => Some (ppos, length s)
            end
        end in
      stop_find_loop stops' text from best
  end.

(** [text] is a C string and [from] at most its length. *)
Definition stop_list_find_from (stops : stop_list) (text : bytes) (from : nat) : option (nat * nat) :=
  stop_find_loop (sl_v stops) text from None.

Definition stop_list_stream_safe_len (stops : stop_list) (text_len : Z) : Z :=
  if (zlen (sl_v stops) =? 0) || (sl_max_len stops <=? 1) then text_len
  else
    let hold := sl_max_len stops - 1 in
    if hold <? text_len then text_len - hold else 0.

(** ** UTF-8 *)

Definition utf8_expected_len (c : Z) : nat :=
  if c <? 0x80 then 1
  else if (0xc2 <=? c) && (c <=? 0xdf) then 2
  else if (0xe0 <=? c) && (c <=? 0xef) then 3
  else if (0xf0 <=? c) && (c <=? 0xf4) then 4
  else 1.

Definition is_cont (c : Z) : bool := Z.land c 0xc0 =? 0x80.

(** The loop back over at most four continuation bytes. *)
Fixpoint utf8_back (cont : nat) (s : bytes) (start p : nat) : nat :=
  match cont with
  | O => p
  | S cont' =>
      if (start <? p)%nat && is_cont (nth (p - 1) s 0%Z) then utf8_back cont' s start (p - 1) else p
  end.

Definition utf8_stream_safe_len (s : bytes) (start limit : nat) (final : bool) : nat :=
  if final || (limit <=? start)%nat then limit
  else
    let p := utf8_back 4 s start limit in
    if (p =? limit)%nat then
      (if (1 <? utf8_expected_len (nth (limit - 1) s 0%Z))%nat then (limit - 1)%nat else limit)
    else if (p =? start)%nat && is_cont (nth p s 0%Z) then start
    else
      let lead := (p - 1)%nat in
      let need := utf8_expected_len (nth lead s 0%Z) in
      if (limit - lead <? need)%nat then lead else limit.

(** ** Stop sequences are found early enough *)

Definition occurs_at (s text : bytes) (i : nat) : Prop := s `prefix_of` drop i text.

Lemma sub_pos_spec s text :
  match sub_pos s text with
  | Some i => occurs_at s text i /\ forall j, (j < i)%nat -> ~ occurs_at s text j
  | None => forall j, ~ (occurs_at s text j /\ (j <= length text)%nat)
  end.
Proof.
  unfold occurs_at. induction text as [|c text IH]; cbn [sub_pos]; destruct (starts_with s _) eqn:E.
  1, 3: apply starts_with_prefix in E; split; [by rewrite drop_0 | lia].
  - intros j [H Hj]. cbn in Hj. replace j with O in H by lia. rewrite drop_0 in H.
    apply starts_with_prefix in H. congruence.
  - assert (H0 : ~ s `prefix_of` c :: text) by (rewrite <- starts_with_prefix; congruence).
    destruct (sub_pos s text) as [i|]; cbn [fmap option_fmap option_map].
    + destruct IH as [H1 H2]. split; [done|]. intros [|j] Hj; [by rewrite drop_0|]. apply H2. lia.
    + intros [|j] [H Hj]; [by rewrite drop_0 in H|]. apply (IH j). split; [done|]. cbn in Hj. lia.
Qed.

(** The best candidate among the stops seen. *)
Definition best_of (stops : list bytes) (text : bytes) (from : nat) (best : option (nat * nat)) : Prop :=
  match best with
  | Some (pos, len) =>
      (from <= pos)%nat /\ (exists s, s ∈ stops /\ len = length s /\ occurs_at s text pos) /\
      forall s j, s ∈ stops -> (from <= j < pos)%nat -> ~ occurs_at s text j
  | None => forall s j, s ∈ stops -> (from <= j <= length text)%nat -> ~ occurs_at s text j
  end.

Lemma occurs_drop s text from i : occurs_at s (drop from text) i <-> occurs_at s text (from + i)%nat.
Proof. unfold occurs_at. by rewrite drop_drop. Qed.

Lemma occurs_le s text i : s <> [] -> occurs_at s text i -> (i + length s <= length text)%nat.
Proof.
  unfold occurs_at. intros Hs H. apply prefix_length in H. rewrite length_drop in H.
  destruct s; [done|]. cbn [length] in *. lia.
Qed.

Lemma stop_find_step stops s text from best :
  s <> [] -> (from <= length text)%nat -> best_of stops text from best ->
  best_of (stops ++ [s]) text from
    (match sub_pos s (drop from text) with
     | None => best
     | Some i =>
         match best with
         | Some (bp, _) => if (from + i <? bp)%nat then Some ((from + i)%nat, length s) else best
         | None => Some ((from + i)%nat, length s)
         end
     end).
Proof.
  intros Hs Hfrom Hb. pose proof (sub_pos_spec s (drop from text)) as Hp.
  assert (Hin : forall x, x ∈ stops ++ [s] <-> x ∈ stops \/ x = s)
    by (intros x; rewrite elem_of_app, list_elem_of_singleton; done).
  destruct (sub_pos s (drop from text)) as [i|].
  - destruct Hp as [Hi Hmin]. rewrite occurs_drop in Hi.
    assert (Hearly : forall j, (from <= j < from + i)%nat -> ~ occurs_at s text j).
    { intros j Hj Ho. apply (Hmin (j - from)%nat); [lia|]. rewrite occurs_drop.
      by replace (from + (j - from))%nat with j by lia. }
    destruct best as [[bp bl]|].
    + destruct Hb as (Hge & (s0 & Hs0 & Hl & Ho) & Hno). destruct (Nat.ltb_spec (from + i) bp).
      * split; [lia|]. split; [exists s; rewrite Hin; auto|].
        intros x j [Hx| ->]%Hin Hj; [apply Hno; [done|lia]|by apply Hearly].
      * split; [done|]. split; [exists s0; rewrite Hin; auto|].
        intros x j [Hx| ->]%Hin Hj; [by apply Hno|apply Hearly; lia].
    + split; [lia|]. split; [exists s; rewrite Hin; auto|].
      intros x j [Hx| ->]%Hin Hj; [|by apply Hearly]. pose proof (occurs_le _ _ _ Hs Hi).
      apply Hb; [done|lia].
  - assert (Hnone : forall j, (from <= j)%nat -> ~ occurs_at s text j).
    { intros j Hj Ho. apply (Hp (j - from)%nat). rewrite occurs_drop.
      replace (from + (j - from))%nat with j by lia. split; [done|].
      pose proof (occurs_le _ _ _ Hs Ho). rewrite length_drop. lia. }
    destruct best as [[bp bl]|].
    + destruct Hb as (Hge & (s0 & Hs0 & Hl & Ho) & Hno). split; [done|].
      split; [exists s0; rewrite Hin; auto|].
      intros x j [Hx| ->]%Hin Hj; [by apply Hno|apply Hnone; lia].
    + intros x j [Hx| ->]%Hin Hj; [by apply Hb|apply Hnone; lia].
Qed.

Lemma stop_find_loop_spec rest seen text from best :
  Forall (fun s => s <> []) rest -> (from <= length text)%nat -> best_of seen text from best ->
  best_of (seen ++ rest) text from (stop_find_loop rest text from best).
Proof.
  revert seen best. induction rest as [|s rest IH]; intros seen best Hne Hf Hb; cbn [stop_find_loop].
  - by rewrite app_nil_r.
  - apply Forall_cons_iff in Hne as [Hs Hne]. change (s :: rest) with ([s] ++ rest). rewrite app_assoc.
    apply IH; [done..|]. by apply stop_find_step.
Qed.

(** The list a request can build: no empty stop, and [max_len] bounds them. *)
Definition stops_ok (stops : stop_list) : Prop :=
  Forall (fun s => s <> [] /\ zlen s <= sl_max_len stops) (sl_v stops).

Lemma stop_push_ok stops s : stops_ok stops -> stops_ok (stop_list_push stops s).
Proof.
  unfold stop_list_push. intros H. destruct (cstr s) as [|c s']; [done|]. set (t := c :: s').
  unfold stops_ok in *. cbn [sl_v sl_max_len]. apply Forall_app. split.
  - eapply Forall_impl; [|exact H]. intros x [Hx Hl]. split; [done|]. destruct (Z.ltb_spec (sl_max_len stops) (zlen t)); lia.
  - constructor; [|done]. split; [done|]. destruct (Z.ltb_spec (sl_max_len stops) (zlen t)); lia.
Qed.

Lemma parse_stop_inv out p stops q : parse_stop out p = JOk stops q -> stops_ok stops.
Proof.
  assert (H0 : stops_ok (stop_list_clear out)) by constructor.
  unfold parse_stop. destruct (peek _ =? quote).
  { destruct (json_string _); cbn [jbind]; try done. intros [= <- <-]. by apply stop_push_ok. }
  destruct (negb _).
  { unfold skip_field. destruct (json_skip_value _); cbn [jbind]; try done. by intros [= <- <-]. }
  unfold json_elements. set (q0 := json_ws _). generalize (stop_list_clear out) H0. intros st Hst.
  assert (Hloop : forall fuel st p st' p', stops_ok st -> elements_loop fuel stop_element st p = JOk st' p' -> stops_ok st').
  { clear. induction fuel as [|fuel IH]; intros st p st' p' Hst; cbn [elements_loop]; [done|].
    destruct (_ || _); [by intros [= <- <-]|].
    destruct (stop_element st p) as [st1 p1| |] eqn:E; cbn [jbind]; try done. intros H. eapply IH; [|exact H].
    unfold stop_element in E. destruct (peek p =? quote).
    - destruct (json_string p); cbn [jbind] in E; try done. injection E as <- <-. by apply stop_push_ok.
    - unfold skip_field in E. destruct (json_skip_value p); cbn [jbind] in E; try done. by injection E as <- <-. }
  destruct (elements_loop _ _ st _) as [st' p'| |] eqn:E; cbn [jbind]; try done.
  destruct (negb _); [done|]. intros [= <- <-]. by eapply Hloop.
Qed.

(** C38. The stop list of any accepted request: the search returns the earliest
    occurrence of any stop at or behind the start, and nothing only if there is
    none; and a stop that begins inside the part a stream may already send lies
    completely inside the text generated so far, so no client ever gets the
    beginning of a stop sequence that is completed later. *)
Theorem stop_streaming_safe out p stops q text more from :
  parse_stop out p = JOk stops q -> (from <= length text)%nat ->
  best_of (sl_v stops) text from (stop_list_find_from stops text from) /\
  forall s i, s ∈ sl_v stops -> occurs_at s (text ++ more) i ->
    Z.of_nat i < stop_list_stream_safe_len stops (zlen text) -> (i + length s <= length text)%nat.
Proof.
  intros Hp Hf. apply parse_stop_inv in Hp. split.
  - apply (stop_find_loop_spec (sl_v stops) [] text from None); [|done|by intros ? ? ?%not_elem_of_nil].
    eapply Forall_impl; [|exact Hp]. by intros x [].
  - intros s i Hs Ho Hi. destruct (Forall_elem _ _ _ Hp Hs) as [Hne Hl].
    unfold stop_list_stream_safe_len in Hi.
    destruct (zlen (sl_v stops) =? 0) eqn:E0.
    { apply Z.eqb_eq, zlen_zero_nil in E0. rewrite E0 in Hs. by apply not_elem_of_nil in Hs. }
    cbn [orb] in Hi. unfold zlen in *. destruct s as [|c s]; [done|]. cbn [length] in *.
    destruct (Z.leb_spec (sl_max_len stops) 1); [lia|].
    destruct (Z.ltb_spec (sl_max_len stops - 1) (Z.of_nat (length text))); lia.
Qed.

Definition stop_example_request : bytes := [91; 34] ++ bs "END" ++ [34; 44; 34] ++ bs "E" ++ [34; 93].

Definition stop_example : stop_list := mkStops [bs "END"; bs "E"] 4 3.

Lemma stop_streaming_safe_witness :
  parse_stop (mkStops [] 0 0) stop_example_request = JOk stop_example [] /\
  best_of (sl_v stop_example) (bs "the E") 0 (stop_list_find_from stop_example (bs "the E") 0) /\
  forall s i, s ∈ sl_v stop_example -> occurs_at s (bs "the E" ++ bs "ND.") i ->
    Z.of_nat i < stop_list_stream_safe_len stop_example (zlen (bs "the E")) ->
    (i + length s <= length (bs "the E"))%nat.
Proof.
  assert (E : parse_stop (mkStops [] 0 0) stop_example_request = JOk stop_example []) by (vm_compute; reflexivity).
  split; [exact E|].
  apply (stop_streaming_safe (mkStops [] 0 0) stop_example_request stop_example [] (bs "the E") (bs "ND.") 0 E).
  cbn; lia.
Defined.

(** ** UTF-8 *)

(** A lead byte with at most three continuation bytes. *)
Definition utf8_unit (lead : Z) (conts : bytes) : Prop :=
  is_cont lead = false /\ Forall (fun c => is_cont c = true) conts /\ (length conts <= 3)%nat.

Lemma utf8_back_spec n pre lead conts start j :
  utf8_unit lead conts -> (start <= length pre)%nat -> (j <= length conts)%nat -> (j < n)%nat ->
  utf8_back n (pre ++ lead :: conts) start (length pre + 1 + j) = (length pre + 1)%nat.
Proof.
  intros (Hl & Hc & _) Hs. revert n. induction j as [|j IH]; intros n Hj Hn; (destruct n as [|n]; [lia|]); cbn [utf8_back].
  - replace (length pre + 1 + 0 - 1)%nat with (length pre + 0)%nat by lia.
    rewrite app_nth2_plus. cbn [nth]. rewrite Hl, andb_false_r. lia.
  - replace (length pre + 1 + S j - 1)%nat with (length pre + S j)%nat by lia.
    rewrite app_nth2_plus. cbn [nth]. rewrite (proj2 (Nat.ltb_lt start _)) by lia.
    assert (Hjc : is_cont (nth j conts 0) = true).
    { destruct (nth_in_or_default j conts 0) as [Hin|Hd].
      - by apply (proj1 (List.Forall_forall _ _) Hc).
      - destruct (lookup_lt_is_Some_2 conts j ltac:(lia)) as [x Hx]. erewrite nth_lookup_Some by exact Hx.
        apply (Forall_lookup_1 _ _ _ _ Hc Hx). }
    rewrite Hjc. cbn [andb]. replace (length pre + S j)%nat with (length pre + 1 + j)%nat by lia. apply IH; lia.
Qed.

Lemma utf8_safe_unit pre lead conts start :
  utf8_unit lead conts -> (start <= length pre)%nat ->
  let s := pre ++ lead :: conts in
  utf8_stream_safe_len s start (length s) false =
    if (S (length conts) <? utf8_expected_len lead)%nat then length pre else length s.
Proof.
  intros Hu Hs s. pose proof Hu as (Hl & Hc & H3).
  assert (Hlen : length s = (length pre + 1 + length conts)%nat) by (subst s; rewrite length_app; cbn; lia).
  assert (Hnth : nth (length pre) s 0 = lead).
  { subst s. rewrite <- (Nat.add_0_r (length pre)) at 1. by rewrite app_nth2_plus. }
  unfold utf8_stream_safe_len. cbn [orb]. rewrite (proj2 (Nat.leb_gt _ _)) by lia.
  assert (Hb : utf8_back 4 s start (length s) = (length pre + 1)%nat)
    by (rewrite Hlen; apply utf8_back_spec; [done|lia..]).
  rewrite Hb, Hlen. destruct (Nat.eqb_spec (length pre + 1) (length pre + 1 + length conts)) as [He|He].
  - replace (length pre + 1 + length conts - 1)%nat with (length pre) by lia. rewrite Hnth.
    replace (length conts) with O by lia.
    destruct (Nat.ltb_spec 1 (utf8_expected_len lead)); lia.
  - destruct (Nat.eqb_spec (length pre + 1) start); [lia|]. cbn [andb].
    replace (length pre + 1 - 1)%nat with (length pre) by lia. rewrite Hnth.
    replace (length pre + 1 + length conts - length pre)%nat with (S (length conts)) by lia. done.
Qed.

Lemma exists_last_or_nil {A} (l : list A) : l = [] \/ exists i x, l = i ++ [x].
Proof. induction l as [|x l _] using rev_ind; [by left | right; by exists l, x]. Qed.

(** A complete character. *)
Definition utf8_char (s : bytes) : Prop :=
  exists lead conts, s = lead :: conts /\ utf8_unit lead conts /\ utf8_expected_len lead = S (length conts).

(** The beginning of a character. *)
Definition utf8_partial (s : bytes) : Prop :=
  exists lead conts, s = lead :: conts /\ utf8_unit lead conts /\ (S (length conts) < utf8_expected_len lead)%nat.

(** A stream never splits a character: of a text that continues what was sent
    with whole UTF-8 characters and possibly the beginning of one more, exactly
    the whole characters may be sent. *)
Lemma utf8_safe_boundary sent chars partial :
  Forall utf8_char chars -> partial = [] \/ utf8_partial partial ->
  let s := sent ++ concat chars ++ partial in
  utf8_stream_safe_len s (length sent) (length s) false = length (sent ++ concat chars).
Proof.
  intros Hc Hp s. destruct Hp as [-> | (lead & conts & -> & Hu & Hlt)].
  - destruct (exists_last_or_nil chars) as [->|(init & c & ->)].
    { subst s. cbn. rewrite !app_nil_r. unfold utf8_stream_safe_len. by rewrite Nat.leb_refl. }
    apply Forall_app in Hc as [_ Hc]. apply Forall_cons_iff in Hc as [(lead & conts & -> & Hu & He) _].
    assert (Es : s = (sent ++ concat init) ++ lead :: conts).
    { subst s. by rewrite concat_app, app_nil_r, app_assoc; cbn; rewrite app_nil_r. }
    rewrite Es, utf8_safe_unit by (rewrite ?length_app; done || lia).
    rewrite He, Nat.ltb_irrefl. rewrite concat_app, !length_app. cbn. rewrite app_nil_r. lia.
  - assert (Es : s = (sent ++ concat chars) ++ lead :: conts) by (subst s; by rewrite app_assoc).
    rewrite Es, utf8_safe_unit by (rewrite ?length_app; done || lia). by rewrite (proj2 (Nat.ltb_lt _ _)).
Qed.

Lemma utf8_safe_boundary_witness :
  utf8_char [195; 169] /\ utf8_partial [226; 130] /\
  let s := bs "ab" ++ concat [[195; 169]; [120]] ++ [226; 130] in
  utf8_stream_safe_len s (length (bs "ab")) (length s) false
  = length (bs "ab" ++ concat [[195; 169]; [120]]).
Proof.
  assert (H1 : utf8_char [195; 169]) by (exists 195, [169]; repeat constructor).
  assert (H2 : utf8_char [120]) by (exists 120, []; repeat constructor).
  assert (H3 : utf8_partial [226; 130]) by (exists 226, [130]; repeat constructor).
  split; [exact H1|]. split; [exact H3|].
  apply (utf8_safe_boundary (bs "ab") [[195; 169]; [120]] [226; 130]); [by repeat constructor|by right].
Defined.
