(* ===== verification/Grounding.v ===== *)
(** * Grounding: page manifests and verifier answers (ds4_crawl_grounding.c)

    First the growable string of the crawl parsers.  It grows from 64 bytes, keeps a NUL behind its bytes, and remembers apart
    whether the text it stands for has a NUL, which it does not store.  To its
    clients it is another [GrowBuf]. *)

From S2P Require Import Prelude DynBuf Ctype KvStore TcLines Strtod.

Record ds4_string := mkString {
  ds_data : option block;
  ds_len : Z;
  ds_cap : Z;
  ds_nul : bool
}.

(** [ds4_string s = {0}]. *)
Definition ds4_string_zero : ds4_string := mkString None 0 0 false.

Definition msg_too_large : bytes := bs "string is too large".

(** The message of the error, or the string with room for [extra] bytes.  The loop
    that doubles the capacity is the compressor's. *)
Definition ds4_string_reserve (mem : Z -> bool) (s : ds4_string) (extra : Z) : bytes + ds4_string :=
  if SIZE_MAX - ds_len s - 1 <? extra then inl msg_too_large
  else
    let needed := ds_len s + extra + 1 in
    if needed <=? ds_cap s then inr s
    else
      let capacity := if ds_cap s =? 0 then 64 else ds_cap s in
      let capacity := tc_grow 64 capacity needed in
      if mem capacity && (capacity <=? PTRDIFF_MAX)
      then inr (mkString (Some (c_realloc (ds_data s) capacity)) (ds_len s) capacity (ds_nul s))
      else inl msg_oom.

Definition ds4_string_append (mem : Z -> bool) (s : ds4_string) (data : bytes) : bytes + ds4_string :=
  match ds4_string_reserve mem s (zlen data) with
  | inl msg => inl msg
  | inr s =>
      let blk := if 0 <? zlen data then block_write (default [] (ds_data s)) (ds_len s) data
                 else default [] (ds_data s) in
      let len := ds_len s + zlen data in
      inr (mkString (Some (block_write blk len [0])) len (ds_cap s) (ds_nul s))
  end.

Definition set_nul (s : ds4_string) : ds4_string := mkString (ds_data s) (ds_len s) (ds_cap s) true.

(** The bytes a reader of [data] and [len] gets. *)
Definition ds_bytes (s : ds4_string) : bytes := block_bytes (ds_data s) (ds_len s).

(** ** Representation *)

Definition ds_rep (s : ds4_string) (b : bytes) : Prop :=
  ds_len s = zlen b /\
  match ds_data s with
  | None => ds_cap s = 0 /\ b = []
  | Some blk => zlen blk = ds_cap s /\ 64 <= ds_cap s <= PTRDIFF_MAX /\ zlen b < ds_cap s /\
                take (length b) blk = Some <$> b
  end.

Lemma ds_rep_zero : ds_rep ds4_string_zero [].
Proof. by split. Qed.

Lemma ds_rep_nul s b : ds_rep s b -> ds_rep (set_nul s) b.
Proof. done. Qed.

Lemma ds_rep_bytes s b : ds_rep s b -> ds_bytes s = b.
Proof.
  intros [Hl H]. unfold ds_bytes. rewrite Hl. destruct (ds_data s) as [blk|]; [apply block_bytes_holds, H|].
  destruct H as [_ ->]. done.
Qed.

Lemma tc_grow_le fuel cap need : 1 <= cap -> 0 <= need -> need < 2 ^ 62 -> tc_grow fuel cap need <= Z.max cap (2 * need).
Proof.
  revert cap. induction fuel as [|fuel IH]; intros cap Hc Hn Hb; cbn [tc_grow]; [lia|].
  destruct (Z.ltb_spec cap need); [|lia]. destruct (Z.ltb_spec (SIZE_MAX / 2) cap); [lia|].
  specialize (IH (cap * 2)). lia.
Qed.

(** The allocator turned down a size an object may have. *)
Definition refused (mem : Z -> bool) : Prop := exists n, 0 <= n <= PTRDIFF_MAX /\ mem n = false.

Lemma ds_reserve_spec mem s b extra :
  ds_rep s b -> 0 <= extra -> zlen b + extra < 2 ^ 61 ->
  match ds4_string_reserve mem s extra with
  | inr s' => ds_rep s' b /\ ds_nul s' = ds_nul s /\ zlen b + extra + 1 <= ds_cap s' /\ is_Some (ds_data s')
  | inl _ => refused mem
  end.
Proof.
  intros (Hlen & Hrep) He Hb. unfold ds4_string_reserve. rewrite Hlen. pose proof (zlen_nonneg b) as Hb0.
  rewrite (proj2 (Z.ltb_ge _ _)) by (unfold SIZE_MAX, UINT64_MAX; lia).
  destruct (Z.leb_spec (zlen b + extra + 1) (ds_cap s)) as [Hfit|Hfit].
  { destruct (ds_data s) as [blk|] eqn:Hd; [|lia]. split_and!; [by split; [|rewrite Hd]|done|done|by eexists]. }
  set (cap0 := if ds_cap s =? 0 then 64 else ds_cap s).
  assert (Hold : zlen (default [] (ds_data s)) = ds_cap s /\ take (length b) (default [] (ds_data s)) = Some <$> b /\
                 (ds_cap s = 0 \/ 64 <= ds_cap s <= PTRDIFF_MAX)).
  { destruct (ds_data s); cbn; [tauto|]. destruct Hrep as [-> ->]. by auto. }
  destruct Hold as (Hzl & Htk & Hsh).
  assert (Hcap0 : 64 <= cap0 /\ ds_cap s <= cap0 <= Z.max 64 (ds_cap s)) by (subst cap0; destruct (Z.eqb_spec (ds_cap s) 0); lia).
  destruct (tc_grow_ge 64 cap0 (zlen b + extra + 1)) as [Hg Hg2]; [lia|unfold SIZE_MAX, UINT64_MAX; lia| |].
  { change (Z.of_nat 64) with 64. lia. }
  pose proof (tc_grow_le 64 cap0 (zlen b + extra + 1) ltac:(lia) ltac:(lia) ltac:(lia)) as Hg3.
  set (cap := tc_grow 64 cap0 _) in *.
  assert (Hp : cap <= PTRDIFF_MAX) by (unfold PTRDIFF_MAX, INT64_MAX; lia).
  rewrite (proj2 (Z.leb_le _ _) Hp), andb_true_r. destruct (mem cap) eqn:Em; [|exists cap; split; [lia|done]].
  destruct (c_realloc_spec (ds_data s) cap b) as [Hl1 Ht1]; [lia|lia|done|]. cbn [ds_data ds_cap ds_nul].
  split_and!; [|done|lia|by eexists]. split; [done|]. cbn [ds_data ds_cap]. split_and!; try done; lia.
Qed.

Lemma ds_append_spec mem s b data :
  ds_rep s b -> zlen b + zlen data < 2 ^ 61 ->
  match ds4_string_append mem s data with
  | inr s' => ds_rep s' (b ++ data) /\ ds_nul s' = ds_nul s /\ is_Some (ds_data s')
  | inl _ => refused mem
  end.
Proof.
  intros Hr Hb. unfold ds4_string_append. pose proof (ds_reserve_spec mem s b (zlen data) Hr (zlen_nonneg data) Hb) as H.
  destruct (ds4_string_reserve mem s (zlen data)) as [msg|s1]; [done|].
  destruct H as ((Hl & H) & Hn & Hfit & blk & Hd). rewrite Hd in *. cbn [default from_option id]. destruct H as (Hz & Hc & Hlt & Htk).
  rewrite Hl in *. split_and!; [|done|by eexists].
  assert (Eb : (if 0 <? zlen data then block_write blk (zlen b) data else blk) = block_write blk (zlen b) data).
  { destruct (Z.ltb_spec 0 (zlen data)); [done|]. destruct data as [|x data]; [|rewrite zlen_cons in *; pose proof (zlen_nonneg data); lia].
    unfold block_write. cbn. by rewrite Nat.add_0_r, take_drop. }
  rewrite Eb.
  assert (Hw : zlen (block_write blk (zlen b) data) = zlen blk) by (apply length_block_write; zlen_lia).
  rewrite <- zlen_app. split; [done|]. cbn [ds_data ds_cap]. split_and!; try lia.
  - rewrite length_block_write; zlen_lia.
  - zlen_lia.
  - apply block_write_keep; [apply block_write_app; [done|lia] | zlen_lia].
Qed.

(** * Page manifests and verifier answers (ds4_crawl_grounding.c)

    A strict JSON reader that skips what it does not need: the text of the crawled
    pages is taken out of a manifest, the scores and the evidence out of a
    verifier's answer.  The cursor is the list of bytes up to [end]. *)

Definition DS4_JSON_MAX_DEPTH : Z := 128.

(** An error carries its message and the cursor; [ds4_set_error] keeps the first. *)
Inductive parsed (A : Type) :=
| POk (a : A) (p : bytes)
| PErr (msg : bytes) (p : bytes)
| PNoFuel.
Arguments POk {A}.
Arguments PErr {A}.
Arguments PNoFuel {A}.

Definition pbind {A B} (m : parsed A) (k : A -> bytes -> parsed B) : parsed B :=
  match m with POk a p => k a p | PErr msg p => PErr msg p | PNoFuel => PNoFuel end.

Declare Scope parsed_scope.
Delimit Scope parsed_scope with parsed.
Notation "'try' a ',' p <- m ; k" := (pbind m (fun a p => k))
  (at level 10, a name, p name, m at level 100, k at level 200) : parsed_scope.
#[local] Open Scope parsed_scope.

(** What [ds4_set_error] leaves in a buffer of [err_len] bytes; [offset] is that of
    the cursor. *)
Definition json_error_text (err_len offset : Z) (msg : bytes) : bytes :=
  take (Z.to_nat (err_len - 1)) (bs "invalid JSON at byte " ++ dec offset ++ bs ": " ++ msg).

Definition is_json_space (c : Z) : bool := (c =? ch " ") || (c =? 9) || (c =? 10) || (c =? 13).

Definition ds4_skip_space (p : bytes) : bytes := drop (span_len is_json_space p) p.

Definition ds4_hex_digit (byte : Z) : Z :=
  if (ch "0" <=? byte) && (byte <=? ch "9") then byte - ch "0"
  else if (ch "a" <=? byte) && (byte <=? ch "f") then byte - ch "a" + 10
  else if (ch "A" <=? byte) && (byte <=? ch "F") then byte - ch "A" + 10
  else -1.

(** The loop over the digits. *)
Fixpoint hex4_loop (digits : bytes) (result : Z) : option Z :=
  match digits with
  | [] => Some result
  | d :: digits' =>
      let digit := ds4_hex_digit d in
      if digit <? 0 then None else hex4_loop digits' (u32 (result * 16 + digit))
  end.

Definition ds4_parse_hex4 (p : bytes) : parsed Z :=
  if zlen p <? 4 then PErr (bs "incomplete Unicode escape") p
  else
    match hex4_loop (take 4 p) 0 with
    | None => PErr (bs "invalid Unicode escape") p
    | Some value => POk value (drop 4 p)
    end.

Definition is_cont (c : Z) : bool := Z.land c 0xc0 =? 0x80.

Definition ds4_raw_utf8_length (s : bytes) : nat :=
  match s with
  | [] => 0%nat
  | s0 :: r =>
      if s0 <? 0x80 then 1%nat
      else if (0xc2 <=? s0) && (s0 <=? 0xdf) then
        match r with
        | s1 :: _ => if is_cont s1 then 2%nat else 0%nat
        | _ => 0%nat
        end
      else if (0xe0 <=? s0) && (s0 <=? 0xef) then
        match r with
        | s1 :: s2 :: _ =>
            if negb (is_cont s2) then 0%nat
            else if (s0 =? 0xe0) && ((s1 <? 0xa0) || (0xbf <? s1)) then 0%nat
            else if (s0 =? 0xed) && ((s1 <? 0x80) || (0x9f <? s1)) then 0%nat
            else if negb (s0 =? 0xe0) && negb (s0 =? 0xed) && negb (is_cont s1) then 0%nat
            else 3%nat
        | _ => 0%nat
        end
      else if (0xf0 <=? s0) && (s0 <=? 0xf4) then
        match r with
        | s1 :: s2 :: s3 :: _ =>
            if negb (is_cont s2) || negb (is_cont s3) then 0%nat
            else if (s0 =? 0xf0) && ((s1 <? 0x90) || (0xbf <? s1)) then 0%nat
            else if (s0 =? 0xf4) && ((s1 <? 0x80) || (0x8f <? s1)) then 0%nat
            else if negb (s0 =? 0xf0) && negb (s0 =? 0xf4) && negb (is_cont s1) then 0%nat
            else 4%nat
        | _ => 0%nat
        end
      else 0%nat
  end.

(** The bytes of [encoded]. *)
Definition encode_codepoint (codepoint : Z) : bytes :=
  let cont k := u8 (Z.lor 0x80 (Z.land (Z.shiftr codepoint k) 0x3f)) in
  if codepoint <=? 0x7f then [u8 codepoint]
  else if codepoint <=? 0x7ff then [u8 (Z.lor 0xc0 (Z.shiftr codepoint 6)); cont 0]
  else if codepoint <=? 0xffff then [u8 (Z.lor 0xe0 (Z.shiftr codepoint 12)); cont 6; cont 0]
  else [u8 (Z.lor 0xf0 (Z.shiftr codepoint 18)); cont 12; cont 6; cont 0].

Section parsers.
(** [mem n]: the allocator can return [n] bytes. *)
Context (mem : Z -> bool).

(** An append to [decoded], if the caller wants the text. *)
Definition add_text (decoded : option ds4_string) (data p : bytes) : parsed (option ds4_string) :=
  match decoded with
  | None => POk None p
  | Some s => match ds4_string_append mem s data with inl msg => PErr msg p | inr s => POk (Some s) p end
  end.

Definition ds4_append_codepoint (decoded : option ds4_string) (codepoint : Z) (p : bytes) : parsed (option ds4_string) :=
  if codepoint =? 0 then POk (set_nul <$> decoded) p
  else add_text decoded (encode_codepoint codepoint) p.

Definition ds4_string_equals (s : ds4_string) (literal : bytes) : bool :=
  negb (ds_nul s) && bytes_eqb (ds_bytes s) literal.

Definition is_high_surrogate (cp : Z) : bool := (0xd800 <=? cp) && (cp <=? 0xdbff).
Definition is_low_surrogate (cp : Z) : bool := (0xdc00 <=? cp) && (cp <=? 0xdfff).

(** [case 'u']: the code point of one escape or of a pair. *)
Definition parse_unicode_escape (p : bytes) : parsed Z :=
  try codepoint, p <- ds4_parse_hex4 p;
  if is_high_surrogate codepoint then
    match p with
    | b :: u :: p' =>
        if (zlen p <? 6) || negb (b =? 92) || negb (u =? ch "u") then PErr (bs "high surrogate lacks low surrogate") p
        else
          try low, p <- ds4_parse_hex4 p';
          if negb (is_low_surrogate low) then PErr (bs "invalid low surrogate") p
          else POk (u32 (0x10000 + Z.shiftl (codepoint - 0xd800) 10 + (low - 0xdc00))) p
    | _ => PErr (bs "high surrogate lacks low surrogate") p
    end
  else if is_low_surrogate codepoint then PErr (bs "unexpected low surrogate") p
  else POk codepoint p.

(** What the letter behind a backslash stands for. *)
Definition escaped_char (c : Z) : option Z :=
  if (c =? 34) || (c =? 92) || (c =? ch "/") then Some c
  else if c =? ch "b" then Some 8
  else if c =? ch "f" then Some 12
  else if c =? ch "n" then Some 10
  else if c =? ch "r" then Some 13
  else if c =? ch "t" then Some 9
  else None.

(** The loop of [ds4_parse_string]; every round passes a byte. *)
Fixpoint string_loop (fuel : nat) (decoded : option ds4_string) (p : bytes) : parsed (option ds4_string) :=
  match fuel with
  | O => PNoFuel
  | S fuel' =>
      match p with
      | [] => PErr (bs "unterminated string") []
      | byte :: p1 =>
          if byte =? 34 then
            match decoded with
            | Some s => match ds_data s with None => add_text decoded [] p1 | Some _ => POk decoded p1 end
            | None => POk decoded p1
            end
          else if byte <? 0x20 then PErr (bs "unescaped control character in string") p1
          else if byte =? 92 then
            match p1 with
            | [] => PErr (bs "incomplete string escape") []
            | escaped :: p2 =>
                match escaped_char escaped with
                | Some e => try decoded, p <- add_text decoded [e] p2; string_loop fuel' decoded p
                | None =>
                    if escaped =? ch "u" then
                      try codepoint, p <- parse_unicode_escape p2;
                      try decoded, p <- ds4_append_codepoint decoded codepoint p;
                      string_loop fuel' decoded p
                    else PErr (bs "unknown string escape") p2
                end
            end
          else if 0x80 <=? byte then
            match ds4_raw_utf8_length p with
            | O => PErr (bs "invalid UTF-8 in string") p1
            | length =>
                try decoded, q <- add_text decoded (take length p) p1;
                string_loop fuel' decoded (drop length p)
            end
          else try decoded, p <- add_text decoded [byte] p1; string_loop fuel' decoded p
      end
  end.

(** [decoded] is [NULL] unless [want]. *)
Definition ds4_parse_string (want : bool) (p : bytes) : parsed (option ds4_string) :=
  match p with
  | c :: p' =>
      if c =? 34 then string_loop (S (length p')) (if want then Some ds4_string_zero else None) p'
      else PErr (bs "expected string") p
  | [] => PErr (bs "expected string") p
  end.

(** ** Values that are skipped *)

Definition starts_at (c : Z) (p : bytes) : bool := match p with x :: _ => x =? c | [] => false end.

(** The loop over the elements of an array; [elem] reads one and acts on it. *)
Fixpoint array_loop {S} (elem : bytes -> S -> parsed S) (msg_end msg_next : bytes) (fuel : nat) (p : bytes) (s : S)
  : parsed S :=
  match fuel with
  | O => PNoFuel
  | S fuel' =>
      try s, p <- elem p s;
      match ds4_skip_space p with
      | [] => PErr msg_end []
      | c :: p' =>
          if c =? ch "]" then POk s p'
          else if negb (c =? ch ",") then PErr msg_next p'
          else array_loop elem msg_end msg_next fuel' (ds4_skip_space p') s
      end
  end.

(** The loop over the fields of an object; [field] has the key, if it is wanted,
    and reads the value. *)
Fixpoint object_loop {S} (want : bool) (field : option ds4_string -> bytes -> S -> parsed S)
    (msg_colon msg_end msg_next : bytes) (fuel : nat) (p : bytes) (s : S) : parsed S :=
  match fuel with
  | O => PNoFuel
  | S fuel' =>
      try key, p <- ds4_parse_string want p;
      let p := ds4_skip_space p in
      if negb (starts_at (ch ":") p) then PErr msg_colon (tail p)
      else
        try s, p <- field key (ds4_skip_space (tail p)) s;
        match ds4_skip_space p with
        | [] => PErr msg_end []
        | c :: p' =>
            if c =? ch "}" then POk s p'
            else if negb (c =? ch ",") then PErr msg_next p'
            else object_loop want field msg_colon msg_end msg_next fuel' (ds4_skip_space p') s
        end
  end.

(** Behind the opening bracket: nothing, or the loop. *)
Definition bracketed {S} (close : Z) (loop : bytes -> S -> parsed S) (p : bytes) (s : S) : parsed S :=
  let p := ds4_skip_space (tail p) in
  if starts_at close p then POk s (tail p) else loop p s.

Definition ds4_parse_array (value : Z -> bytes -> parsed unit) (fuel : nat) (depth : Z) (p : bytes) : parsed unit :=
  if DS4_JSON_MAX_DEPTH <? depth then PErr (bs "nesting is too deep") p
  else
    bracketed (ch "]")
      (array_loop (fun p _ => value (depth + 1) p) (bs "unterminated array") (bs "expected ',' or ']' in array") fuel) p tt.

Definition ds4_parse_object (value : Z -> bytes -> parsed unit) (fuel : nat) (depth : Z) (p : bytes) : parsed unit :=
  if DS4_JSON_MAX_DEPTH <? depth then PErr (bs "nesting is too deep") p
  else
    bracketed (ch "}")
      (object_loop false (fun _ p _ => value (depth + 1) p) (bs "expected ':' after object key")
         (bs "unterminated object") (bs "expected ',' or '}' in object") fuel) p tt.

(** At least one digit. *)
Definition skip_digits (msg p : bytes) : parsed unit :=
  match span_len isdigit p with
  | O => PErr msg p
  | n => POk tt (drop n p)
  end.

Definition ds4_parse_number (p : bytes) : parsed unit :=
  let p := if starts_at (ch "-") p then tail p else p in
  match p with
  | [] => PErr (bs "incomplete number") []
  | c :: p' =>
      try _, p <- (if c =? ch "0" then POk tt p' else skip_digits (bs "invalid number") p);
      try _, p <- (if starts_at (ch ".") p then skip_digits (bs "invalid number fraction") (tail p) else POk tt p);
      if starts_at (ch "e") p || starts_at (ch "E") p then
        let p := tail p in
        let p := if starts_at (ch "+") p || starts_at (ch "-") p then tail p else p in
        skip_digits (bs "invalid number exponent") p
      else POk tt p
  end.

Definition ds4_parse_literal (p literal : bytes) : parsed unit :=
  match strip_prefix literal p with
  | Some p => POk tt p
  | None => PErr (bs "invalid literal") p
  end.

Fixpoint ds4_parse_value (fuel : nat) (depth : Z) (p : bytes) : parsed unit :=
  match fuel with
  | O => PNoFuel
  | S fuel' =>
      let p := ds4_skip_space p in
      match p with
      | [] => PErr (bs "expected value") []
      | c :: _ =>
          if c =? ch "{" then ds4_parse_object (ds4_parse_value fuel') fuel' depth p
          else if c =? ch "[" then ds4_parse_array (ds4_parse_value fuel') fuel' depth p
          else if c =? 34 then try _, p <- ds4_parse_string false p; POk tt p
          else if c =? ch "t" then ds4_parse_literal p (bs "true")
          else if c =? ch "f" then ds4_parse_literal p (bs "false")
          else if c =? ch "n" then ds4_parse_literal p (bs "null")
          else if (c =? ch "-") || isdigit c then ds4_parse_number p
          else PErr (bs "unexpected value") p
      end
  end.

(** A value for which there is enough fuel. *)
Definition parse_value (depth : Z) (p : bytes) : parsed unit := ds4_parse_value (S (length p)) depth p.

(** ** The text of a manifest *)

Record manifest_state := mkManifest { ms_found : bool; ms_truncated : bool; ms_source : ds4_string }.

Definition is_blank (c : Z) : bool := (c =? ch " ") || (c =? 9) || (c =? 10) || (c =? 13) || (c =? 12) || (c =? 11).

Definition ds4_has_nonspace (text : bytes) : bool := existsb (fun c => negb (is_blank c)) (cstr text).

Definition ds4_valid_codepoint_length (text : bytes) : nat :=
  let lead := hd 0 text in
  let length := if lead <? 0x80 then 1%nat else if lead <? 0xe0 then 2%nat else if lead <? 0xf0 then 3%nat else 4%nat in
  if (length <=? List.length text)%nat then length else 0%nat.

Definition page_separator : bytes := [10; 10] ++ bs "--- PAGE BREAK ---" ++ [10; 10].

Definition set_truncated (ms : manifest_state) : manifest_state := mkManifest (ms_found ms) true (ms_source ms).
Definition set_source (ms : manifest_state) (s : ds4_string) : manifest_state := mkManifest (ms_found ms) (ms_truncated ms) s.

(** The loop over the code points of a page. *)
Fixpoint page_loop (max_bytes : Z) (fuel : nat) (content : bytes) (ms : manifest_state) : option (bytes + manifest_state) :=
  match content with
  | [] => Some (inr ms)
  | _ =>
      match fuel with
      | O => None
      | S fuel' =>
          let length := ds4_valid_codepoint_length content in
          if (length =? 0)%nat || (max_bytes - ds_len (ms_source ms) <? Z.of_nat length) then Some (inr (set_truncated ms))
          else
            match ds4_string_append mem (ms_source ms) (take length content) with
            | inl msg => Some (inl msg)
            | inr s => page_loop max_bytes fuel' (drop length content) (set_source ms s)
            end
      end
  end.

Definition ds4_append_page (max_bytes : Z) (ms : manifest_state) (content : bytes) : option (bytes + manifest_state) :=
  if ms_truncated ms then Some (inr ms)
  else if 0 <? ds_len (ms_source ms) then
    let first := ds4_valid_codepoint_length content in
    let needed := zlen page_separator + Z.of_nat first in
    if max_bytes - ds_len (ms_source ms) <? needed then Some (inr (set_truncated ms))
    else
      match ds4_string_append mem (ms_source ms) page_separator with
      | inl msg => Some (inl msg)
      | inr s => page_loop max_bytes (length content) content (set_source ms s)
      end
  else page_loop max_bytes (length content) content ms.

(** A field of a page: the last strings under "state" and "content" are kept. *)
Definition page_field (depth : Z) (key : option ds4_string) (p : bytes) (sc : ds4_string * ds4_string)
  : parsed (ds4_string * ds4_string) :=
  let key := default ds4_string_zero key in
  if ds4_string_equals key (bs "state") && starts_at 34 p then
    try replacement, p <- ds4_parse_string true p; POk (default ds4_string_zero replacement, sc.2) p
  else if ds4_string_equals key (bs "content") && starts_at 34 p then
    try replacement, p <- ds4_parse_string true p; POk (sc.1, default ds4_string_zero replacement) p
  else try _, p <- parse_value (depth + 1) p; POk sc p.

(** Behind [done], when the page was read. *)
Definition page_done (max_bytes : Z) (sc : ds4_string * ds4_string) (p : bytes) (ms : manifest_state) : parsed manifest_state :=
  let '(state, content) := sc in
  if bool_decide (is_Some (ds_data state)) && bool_decide (is_Some (ds_data content)) &&
     ds4_string_equals state (bs "succeeded")
  then
    if ds_nul content then PErr (bs "NUL is not supported in succeeded page content") p
    else if ds4_has_nonspace (ds_bytes content) then
      match ds4_append_page max_bytes (mkManifest true (ms_truncated ms) (ms_source ms)) (ds_bytes content) with
      | None => PNoFuel
      | Some (inl msg) => PErr msg p
      | Some (inr ms) => POk ms p
      end
    else POk ms p
  else POk ms p.

Definition ds4_parse_page (max_bytes depth : Z) (p : bytes) (ms : manifest_state) : parsed manifest_state :=
  try sc, p <-
    bracketed (ch "}")
      (object_loop true (page_field depth) (bs "expected ':' after page key") (bs "unterminated page object")
         (bs "expected ',' or '}' in page object") (S (length p))) p (ds4_string_zero, ds4_string_zero);
  page_done max_bytes sc p ms.

Definition pages_elem (max_bytes depth : Z) (p : bytes) (ms : manifest_state) : parsed manifest_state :=
  if starts_at (ch "{") p then ds4_parse_page max_bytes (depth + 1) p ms
  else try _, p <- parse_value (depth + 1) p; POk ms p.

Definition ds4_parse_pages (max_bytes depth : Z) (p : bytes) (ms : manifest_state) : parsed manifest_state :=
  bracketed (ch "]")
    (array_loop (pages_elem max_bytes depth) (bs "unterminated pages array") (bs "expected ',' or ']' in pages array")
       (S (length p))) p ms.

Definition root_field (max_bytes : Z) (key : option ds4_string) (p : bytes) (ms : manifest_state) : parsed manifest_state :=
  if ds4_string_equals (default ds4_string_zero key) (bs "pages") && starts_at (ch "[") p
  then ds4_parse_pages max_bytes 1 p ms
  else try _, p <- parse_value 1 p; POk ms p.

Definition ds4_parse_root_object (max_bytes : Z) (p : bytes) (ms : manifest_state) : parsed manifest_state :=
  bracketed (ch "}")
    (object_loop true (root_field max_bytes) (bs "expected ':' after root key") (bs "unterminated root object")
       (bs "expected ',' or '}' in root object") (S (length p))) p ms.

Inductive ds4_crawl_source_status := DS4_CRAWL_SOURCE_OK | DS4_CRAWL_SOURCE_INVALID | DS4_CRAWL_SOURCE_EMPTY.

(** The status, [*source_out], [*truncated_out] and the error text. *)
Record extraction := mkExtraction {
  x_status : ds4_crawl_source_status; x_source : option bytes; x_truncated : bool; x_err : bytes
}.

Definition source_invalid (err : bytes) : extraction := mkExtraction DS4_CRAWL_SOURCE_INVALID None false err.

(** [None]: the fuel ran out. *)
Definition ds4_crawl_extract_source (manifest : option bytes) (max_bytes : Z) (outputs : bool) (err_len : Z) : option extraction :=
  if negb outputs then Some (source_invalid (take (Z.to_nat (err_len - 1)) (bs "output pointers are required")))
  else
    match manifest with
    | None => Some (mkExtraction DS4_CRAWL_SOURCE_EMPTY None false [])
    | Some manifest =>
        let text := cstr manifest in
        let ms := mkManifest false false ds4_string_zero in
        let invalid msg p := Some (source_invalid (json_error_text err_len (zlen text - zlen p) msg)) in
        let p := ds4_skip_space text in
        let parsed := if starts_at (ch "{") p then ds4_parse_root_object max_bytes p ms
                      else try _, p <- parse_value 0 p; POk ms p in
        match parsed with
        | PNoFuel => None
        | PErr msg p => invalid msg p
        | POk ms p =>
            let p := ds4_skip_space p in
            if negb (zlen p =? 0) then invalid (bs "trailing data") p
            else if negb (ms_found ms) then Some (mkExtraction DS4_CRAWL_SOURCE_EMPTY None false [])
            else
              match ds_data (ms_source ms) with
              | None =>
                  match ds4_string_append mem (ms_source ms) [] with
                  | inl msg => invalid msg p
                  | inr s => Some (mkExtraction DS4_CRAWL_SOURCE_OK (Some (ds_bytes s)) (ms_truncated ms) [])
                  end
              | Some _ => Some (mkExtraction DS4_CRAWL_SOURCE_OK (Some (ds_bytes (ms_source ms))) (ms_truncated ms) [])
              end
        end
    end.

(** ** The answer of the verifier *)

(** The evidence array doubles from 8 pointers. *)
Record ds4_evidence_list := mkEvidence { ev_items : list bytes; ev_cap : Z }.

Definition ds4_evidence_push (l : ds4_evidence_list) (item : bytes) : option ds4_evidence_list :=
  if zlen (ev_items l) =? ev_cap l then
    let cap := if ev_cap l =? 0 then 8 else ev_cap l * 2 in
    if mem (cap * 8) then Some (mkEvidence (ev_items l ++ [item]) cap) else None
  else Some (mkEvidence (ev_items l ++ [item]) (ev_cap l)).

(** The loop of [ds4_normalize_ws]. *)
Fixpoint normalize_loop (text : bytes) (pending started : bool) (out : bytes) : bytes :=
  match text with
  | [] => out
  | c :: text' =>
      if is_blank c then normalize_loop text' started started out
      else normalize_loop text' false true (out ++ (if pending then [ch " "] else []) ++ [c])
  end.

Definition ds4_normalize_ws (text : bytes) : option bytes :=
  if mem (strlen text + 1) then Some (normalize_loop (cstr text) false false []) else None.

Record verifier_state := mkVerifier { vs_have_score : bool; vs_score : double; vs_evidence : ds4_evidence_list }.

Definition set_score (v : double) (vs : verifier_state) : verifier_state := mkVerifier true v (vs_evidence vs).
Definition set_evidence (l : ds4_evidence_list) (vs : verifier_state) : verifier_state :=
  mkVerifier (vs_have_score vs) (vs_score vs) l.

Definition evidence_elem (p : bytes) (l : ds4_evidence_list) : parsed ds4_evidence_list :=
  let p := ds4_skip_space p in
  if starts_at 34 p then
    try item, p <- ds4_parse_string true p;
    let item := default ds4_string_zero item in
    let owned := match ds_data item with
                 | Some _ => Some (ds_bytes item)
                 | None => if mem 1 then Some [] else None
                 end in
    match (owned ← owned; ds4_evidence_push l owned) with
    | Some l => POk l p
    | None => PErr msg_oom p
    end
  else try _, p <- parse_value 1 p; POk l p.

Definition ds4_parse_evidence_array (p : bytes) (l : ds4_evidence_list) : parsed ds4_evidence_list :=
  bracketed (ch "]")
    (array_loop evidence_elem (bs "unterminated evidence array") (bs "expected ',' or ']' in evidence array") (S (length p))) p l.

Definition ds4_verifier_key_is_score (key : ds4_string) : bool :=
  ds4_string_equals key (bs "semantic_support") || ds4_string_equals key (bs "semantic_score") ||
  ds4_string_equals key (bs "support") || ds4_string_equals key (bs "score").

(** [strtod(s, NULL)]: 0 when there is no number. *)
Definition strtod_value (s : bytes) : double := match strtod s with Some (v, _) => v | None => d_zero end.

Definition verifier_field (key : option ds4_string) (p : bytes) (vs : verifier_state) : parsed verifier_state :=
  let key := default ds4_string_zero key in
  if ds4_verifier_key_is_score key && (starts_at (ch "-") p || match p with c :: _ => isdigit c | [] => false end) then
    try _, p' <- ds4_parse_number p; POk (set_score (strtod_value p) vs) p'
  else if ds4_verifier_key_is_score key && starts_at 34 p then
    try value, p <- ds4_parse_string true p;
    let value := default ds4_string_zero value in
    POk (match ds_data value with Some _ => set_score (strtod_value (ds_bytes value)) vs | None => vs end) p
  else if ds4_string_equals key (bs "evidence") && starts_at (ch "[") p then
    try l, p <- ds4_parse_evidence_array p (vs_evidence vs); POk (set_evidence l vs) p
  else try _, p <- parse_value 1 p; POk vs p.

Definition ds4_parse_verifier_object (p : bytes) (vs : verifier_state) : parsed verifier_state :=
  bracketed (ch "}")
    (object_loop true verifier_field (bs "expected ':' after key") (bs "unterminated verifier object")
       (bs "expected ',' or '}' in verifier object") (S (length p))) p vs.

Record ds4_crawl_verification := mkVerification {
  semantic_score : Z; evidence_total : Z; evidence_found : Z; accuracy_score : Z
}.

(** [Undefined]: the conversion of a NaN to [int]. *)
Inductive verified := Verified (v : ds4_crawl_verification) | NotVerified (err : bytes) | Undefined | VerifyNoFuel.

(** The excerpts that are not blank, and those found in the source. *)
Fixpoint count_evidence (source : bytes) (items : list bytes) (total found : Z) : Z * Z :=
  match items with
  | [] => (total, found)
  | item :: items' =>
      match ds4_normalize_ws item with
      | None => count_evidence source items' total found
      | Some excerpt =>
          if zlen excerpt =? 0 then count_evidence source items' total found
          else count_evidence source items' (total + 1) (if contains excerpt source then found + 1 else found)
      end
  end.

Definition semantic_of (score : double) : option Z :=
  if d_lt score d_zero then Some 0
  else if d_lt (d_of_Z 100) score then Some 100
  else d_to_int (d_add score (d_lit 1 2)).

Definition accuracy_of (semantic total found : Z) : option Z :=
  accuracy ← (if total =? 0 then Some semantic
              else
                let evidence_pct := d_div (d_mul (d_of_Z 100) (d_of_Z found)) (d_of_Z total) in
                d_to_int (d_add (d_add (d_mul (d_lit 8 10) (d_of_Z semantic)) (d_mul (d_lit 2 10) evidence_pct)) (d_lit 1 2)));
  Some (if accuracy <? 0 then 0 else if 100 <? accuracy then 100 else accuracy).

Definition ds4_crawl_verify_result (source verifier_json : option bytes) (out : bool) (err_len : Z) : verified :=
  let fail msg := NotVerified (take (Z.to_nat (err_len - 1)) msg) in
  match source, verifier_json, out with
  | Some source, Some verifier_json, true =>
      let text := cstr verifier_json in
      match find_sub [ch "{"] text with
      | None => fail (bs "no JSON object in verifier response")
      | Some brace =>
          match ds4_parse_verifier_object brace (mkVerifier false d_zero (mkEvidence [] 0)) with
          | PNoFuel => VerifyNoFuel
          | PErr msg p => NotVerified (json_error_text err_len (zlen text - zlen p) msg)
          | POk vs _ =>
              if negb (vs_have_score vs) then fail (bs "verifier response missing semantic support score")
              else
                match semantic_of (vs_score vs) with
                | None => Undefined
                | Some semantic =>
                    match ds4_normalize_ws source with
                    | None => fail msg_oom
                    | Some normalized_source =>
                        let '(total, found) := count_evidence normalized_source (ev_items (vs_evidence vs)) 0 0 in
                        match accuracy_of semantic total found with
                        | None => Undefined
                        | Some accuracy => Verified (mkVerification semantic total found accuracy)
                        end
                    end
                end
          end
      end
  | _, _, _ => fail (bs "invalid arguments")
  end.
End parsers.
