(* ===== verification/JsonRead.v ===== *)
(** * JsonRead: JSON texts, what they stand for, and a reference reader

    The grammar of RFC 8259 on bytes, with UTF-8 outside of escapes and surrogates
    only in pairs.  A string is its code points, a number its text, an object its
    fields in the order they are written. *)

From S2P Require Import Prelude DynBuf Ctype KvStore TcLines Strtod Json JsonFacts Grounding.

Inductive json :=
| JNull
| JBool (b : bool)
| JNumber (t : bytes)
| JString (s : list Z)
| JArray (l : list json)
| JObject (m : list (list Z * json)).

Definition ws (w : bytes) : Prop := Forall (fun c => c = 32 \/ c = 9 \/ c = 10 \/ c = 13) w.

(** ** Strings *)

(** The letters behind a backslash. *)
Definition short_escapes : list (Z * Z) :=
  [(34, 34); (92, 92); (ch "/", ch "/"); (ch "b", 8); (ch "f", 12); (ch "n", 10); (ch "r", 13); (ch "t", 9)].

(** Four hexadecimal digits. *)
Definition hex_text (v : Z) (h : bytes) : Prop :=
  length h = 4%nat /\ Forall (fun c => isxdigit c = true) h /\ hex_value_of 0 h = v.

Inductive char_text : Z -> bytes -> Prop :=
| char_raw cp t : utf8_decode t = Some cp -> 32 <= cp -> cp <> 34 -> cp <> 92 -> char_text cp t
| char_short e cp : (e, cp) ∈ short_escapes -> char_text cp [92; e]
| char_unit cp h : hex_text cp h -> ~ (0xd800 <= cp <= 0xdfff) -> char_text cp ([92; ch "u"] ++ h)
| char_pair hi lo h k : hex_text hi h -> hex_text lo k -> 0xd800 <= hi <= 0xdbff -> 0xdc00 <= lo <= 0xdfff ->
    char_text (0x10000 + (hi - 0xd800) * 1024 + (lo - 0xdc00)) ([92; ch "u"] ++ h ++ [92; ch "u"] ++ k).

Inductive chars_text : list Z -> bytes -> Prop :=
| chars_nil : chars_text [] []
| chars_cons cp s t r : char_text cp t -> chars_text s r -> chars_text (cp :: s) (t ++ r).

Definition string_text (s : list Z) (t : bytes) : Prop := exists b, chars_text s b /\ t = [34] ++ b ++ [34].

(** ** Numbers *)

Definition digits (d : bytes) : Prop := Forall (fun c => isdigit c = true) d.

Inductive int_text : bytes -> Prop :=
| int_zero : int_text [ch "0"]
| int_digits c d : isdigit c = true -> c <> ch "0" -> digits d -> int_text (c :: d).

Inductive frac_text : bytes -> Prop :=
| frac_none : frac_text []
| frac_some d : digits d -> d <> [] -> frac_text (ch "." :: d).

Inductive exp_text : bytes -> Prop :=
| exp_none : exp_text []
| exp_some e s d : e = ch "e" \/ e = ch "E" -> s = [] \/ s = [ch "+"] \/ s = [ch "-"] -> digits d -> d <> [] ->
    exp_text (e :: s ++ d).

Definition number_text (t : bytes) : Prop :=
  exists s i f e, (s = [] \/ s = [ch "-"]) /\ int_text i /\ frac_text f /\ exp_text e /\ t = s ++ i ++ f ++ e.

(** ** Values *)

(** [value_text d v t]: at depth [d], below at most as many brackets as the limit
    allows, [t] is the text of [v]. *)
Definition max_depth : Z := 128.

Inductive value_text : Z -> json -> bytes -> Prop :=
| vt_null d : value_text d JNull (bs "null")
| vt_true d : value_text d (JBool true) (bs "true")
| vt_false d : value_text d (JBool false) (bs "false")
| vt_number d t : number_text t -> value_text d (JNumber t) t
| vt_string d s t : string_text s t -> value_text d (JString s) t
| vt_array_nil d w : d <= max_depth -> ws w -> value_text d (JArray []) ([ch "["] ++ w ++ [ch "]"])
| vt_array d l t : d <= max_depth -> elements_text (d + 1) l t -> value_text d (JArray l) ([ch "["] ++ t ++ [ch "]"])
| vt_object_nil d w : d <= max_depth -> ws w -> value_text d (JObject []) ([ch "{"] ++ w ++ [ch "}"])
| vt_object d m t : d <= max_depth -> members_text (d + 1) m t -> value_text d (JObject m) ([ch "{"] ++ t ++ [ch "}"])
with elements_text : Z -> list json -> bytes -> Prop :=
| et_last d v w t w' : ws w -> value_text d v t -> ws w' -> elements_text d [v] (w ++ t ++ w')
| et_more d v l w t w' r : ws w -> value_text d v t -> ws w' -> elements_text d l r ->
    elements_text d (v :: l) (w ++ t ++ w' ++ [ch ","] ++ r)
with members_text : Z -> list (list Z * json) -> bytes -> Prop :=
| mt_last d k v w kt w1 w2 t w' : ws w -> string_text k kt -> ws w1 -> ws w2 -> value_text d v t -> ws w' ->
    members_text d [(k, v)] (w ++ kt ++ w1 ++ [ch ":"] ++ w2 ++ t ++ w')
| mt_more d k v m w kt w1 w2 t w' r : ws w -> string_text k kt -> ws w1 -> ws w2 -> value_text d v t -> ws w' ->
    members_text d m r ->
    members_text d ((k, v) :: m) (w ++ kt ++ w1 ++ [ch ":"] ++ w2 ++ t ++ w' ++ [ch ","] ++ r).

Scheme value_text_mut := Minimality for value_text Sort Prop
  with elements_text_mut := Minimality for elements_text Sort Prop
  with members_text_mut := Minimality for members_text Sort Prop.
Combined Scheme json_text_mutind from value_text_mut, elements_text_mut, members_text_mut.

(** A JSON text. *)
Definition json_text (v : json) (t : bytes) : Prop :=
  exists w b w', ws w /\ value_text 0 v b /\ ws w' /\ t = w ++ b ++ w'.

(** * A reference reader of JSON texts

    It reads a value and keeps it, one definition per rule of the grammar; what it
    reads are exactly the texts of the grammar. *)

(** ** Characters *)

Lemma byte_cases (P : Z -> bool) c : byte_ok c -> forallb P (Z.of_nat <$> seq 0 256) = true -> P c = true.
Proof.
  intros Hc H. rewrite forallb_forall in H. apply H. apply list_elem_of_In, list_elem_of_fmap.
  exists (Z.to_nat c). unfold byte_ok in Hc. split; [lia|]. apply elem_of_seq. lia.
Qed.

Lemma is_cont_range c : byte_ok c -> is_cont c = (128 <=? c) && (c <? 192).
Proof.
  intros Hc. apply eqb_prop, (byte_cases (fun c => eqb (is_cont c) ((128 <=? c) && (c <? 192))) c Hc). vm_compute. reflexivity.
Qed.

Lemma hex_digit_xdigit c : ds4_hex_digit c = if isxdigit c then hex_digit_value c else -1.
Proof.
  unfold ds4_hex_digit, isxdigit, hex_digit_value, isdigit, tolower, isupper.
  change (ch "0") with 48. change (ch "9") with 57. change (ch "a") with 97. change (ch "f") with 102.
  change (ch "A") with 65. change (ch "F") with 70. change (ch "Z") with 90.
  repeat match goal with |- context [?a <=? ?b] => destruct (Z.leb_spec a b); cbn [andb orb] end; try lia.
Qed.

Lemma hex_digit_range c : isxdigit c = true -> 0 <= hex_digit_value c < 16.
Proof.
  unfold isxdigit, hex_digit_value, isdigit, tolower, isupper.
  change (ch "0") with 48. change (ch "9") with 57. change (ch "a") with 97. change (ch "f") with 102.
  change (ch "A") with 65. change (ch "F") with 70. change (ch "Z") with 90.
  repeat match goal with |- context [?a <=? ?b] => destruct (Z.leb_spec a b); cbn [andb orb] end; try lia; discriminate.
Qed.

Lemma hex4_loop_spec h acc :
  0 <= acc -> (acc + 1) * 16 ^ zlen h <= 2 ^ 32 ->
  hex4_loop h acc = if forallb isxdigit h then Some (hex_value_of acc h) else None.
Proof.
  revert acc. induction h as [|c h IH]; intros acc Ha Hb; [done|]. cbn [hex4_loop forallb hex_value_of].
  rewrite hex_digit_xdigit. destruct (isxdigit c) eqn:E; [|done]. apply hex_digit_range in E as Hr. cbn [andb].
  rewrite (proj2 (Z.ltb_ge _ _)) by lia. rewrite zlen_cons, Z.pow_add_r in Hb by (pose proof (zlen_nonneg h); lia).
  pose proof (Z.pow_pos_nonneg 16 (zlen h) ltac:(lia) (zlen_nonneg h)).
  unfold u32. rewrite wrap_small by (unfold in_u; nia). apply IH; [lia|nia].
Qed.

Lemma parse_hex4_iff p v q :
  ds4_parse_hex4 p = POk v q <-> exists h, p = h ++ q /\ hex_text v h.
Proof.
  unfold ds4_parse_hex4, hex_text. split.
  - destruct (Z.ltb_spec (zlen p) 4); [done|].
    rewrite hex4_loop_spec; [|lia|]. 2: { rewrite zlen_take. rewrite Z.min_l by lia. done. }
    destruct (forallb isxdigit (take 4 p)) eqn:E; [|done]. intros [= <- <-]. exists (take 4 p). rewrite take_drop.
    rewrite length_take. split_and!; [done|unfold zlen in *; lia| |done]. apply Forall_forall. rewrite forallb_forall in E.
    intros x Hx. by apply E.
  - intros (h & -> & Hl & Hx & <-). rewrite (proj2 (Z.ltb_ge _ _)) by (rewrite zlen_app; unfold zlen; lia).
    rewrite take_app_length', drop_app_length' by done.
    rewrite hex4_loop_spec; [|lia|unfold zlen; rewrite Hl; done].
    assert (forallb isxdigit h = true) as ->; [|done]. apply forallb_forall. intros x Hi. rewrite Forall_forall in Hx.
    by apply Hx.
Qed.

Lemma hex_text_range v h : hex_text v h -> 0 <= v < 65536.
Proof.
  intros (Hl & Hx & <-). assert (forall acc, 0 <= acc -> 0 <= hex_value_of acc h < (acc + 1) * 16 ^ zlen h) as H.
  { clear Hl. induction Hx as [|c h Hc _ IH]; intros acc Ha; cbn [hex_value_of]; [unfold zlen; cbn; lia|].
    apply hex_digit_range in Hc. rewrite zlen_cons, Z.pow_add_r by (pose proof (zlen_nonneg h); lia).
    specialize (IH (acc * 16 + hex_digit_value c) ltac:(lia)). pose proof (Z.pow_pos_nonneg 16 (zlen h) ltac:(lia) (zlen_nonneg h)). nia. }
  specialize (H 0 ltac:(lia)). unfold zlen in H. rewrite Hl in H. exact H.
Qed.

(** The code points of Unicode escapes. *)
Definition unicode_text (cp : Z) (t : bytes) : Prop :=
  (hex_text cp t /\ ~ (0xd800 <= cp <= 0xdfff)) \/
  exists hi lo h k, hex_text hi h /\ hex_text lo k /\ 0xd800 <= hi <= 0xdbff /\ 0xdc00 <= lo <= 0xdfff /\
    cp = 0x10000 + (hi - 0xd800) * 1024 + (lo - 0xdc00) /\ t = h ++ [92; ch "u"] ++ k.

Lemma parse_unicode_sound p cp q : parse_unicode_escape p = POk cp q -> exists t, p = t ++ q /\ unicode_text cp t.
Proof.
  unfold parse_unicode_escape. destruct (ds4_parse_hex4 p) as [hi p1| |] eqn:E1; cbn [pbind]; [|done..].
  apply parse_hex4_iff in E1 as (h & -> & Hh). destruct (is_high_surrogate hi) eqn:Es.
  - unfold is_high_surrogate in Es. bool_props. destruct p1 as [|b [|u p1]]; [done..|]. destruct (_ || _ || _) eqn:Eb; [done|].
    apply orb_false_iff in Eb as [[_ E2]%orb_false_iff E3]. apply negb_false_iff, Z.eqb_eq in E2, E3. subst b u.
    destruct (ds4_parse_hex4 p1) as [lo p2| |] eqn:E4; cbn [pbind]; [|done..]. apply parse_hex4_iff in E4 as (k & -> & Hk).
    destruct (is_low_surrogate lo) eqn:El; cbn [negb]; [|done]. unfold is_low_surrogate in El. bool_props. intros [= <- <-].
    exists (h ++ [92; ch "u"] ++ k). split; [by rewrite <- !app_assoc|]. right. exists hi, lo, h, k.
    split_and!; try done; try lia. rewrite Z.shiftl_mul_pow2 by lia. change (2 ^ 10) with 1024. apply wrap_small. unfold in_u. lia.
  - destruct (is_low_surrogate hi) eqn:El; [done|]. intros [= <- <-]. exists h. split; [done|]. left. split; [done|].
    unfold is_high_surrogate, is_low_surrogate in *. apply andb_false_iff in Es, El. rewrite !Z.leb_gt in *. lia.
Qed.

Lemma parse_unicode_complete cp t q : unicode_text cp t -> parse_unicode_escape (t ++ q) = POk cp q.
Proof.
  unfold parse_unicode_escape. intros [[Hh Hn]|(hi & lo & h & k & Hh & Hk & Hhi & Hlo & -> & ->)].
  - rewrite (proj2 (parse_hex4_iff _ _ q)) by eauto. cbn [pbind]. unfold is_high_surrogate, is_low_surrogate.
    destruct (Z.leb_spec 0xd800 cp), (Z.leb_spec cp 0xdbff), (Z.leb_spec 0xdc00 cp), (Z.leb_spec cp 0xdfff); cbn [andb]; try done; lia.
  - rewrite <- !app_assoc. rewrite (proj2 (parse_hex4_iff _ hi ([92; ch "u"] ++ k ++ q))) by eauto. cbn [pbind app].
    unfold is_high_surrogate. rewrite (proj2 (Z.leb_le _ _)), (proj2 (Z.leb_le hi _)) by lia. cbn [andb].
    assert (E : (zlen (92 :: ch "u" :: k ++ q) <? 6) = false).
    { apply Z.ltb_ge. destruct Hk as [Hl _]. rewrite !zlen_cons, zlen_app. unfold zlen. lia. }
    rewrite E, !Z.eqb_refl. cbn [negb orb]. rewrite (proj2 (parse_hex4_iff _ lo q)) by eauto. cbn [pbind].
    unfold is_low_surrogate. rewrite (proj2 (Z.leb_le _ _)), (proj2 (Z.leb_le lo _)) by lia. cbn [andb negb].
    f_equal. rewrite Z.shiftl_mul_pow2 by lia. change (2 ^ 10) with 1024. apply wrap_small. unfold in_u. lia.
Qed.


(** Comparisons the context settles are evaluated, the others split. *)
Ltac decide_ineqs := repeat (match goal with
  | |- context [?a <=? ?b] => (rewrite (proj2 (Z.leb_le a b)) by lia) || (rewrite (proj2 (Z.leb_gt a b)) by lia) || destruct (Z.leb_spec a b)
  | |- context [?a <? ?b] => (rewrite (proj2 (Z.ltb_lt a b)) by lia) || (rewrite (proj2 (Z.ltb_ge a b)) by lia) || destruct (Z.ltb_spec a b)
  | |- context [?a =? ?b] => (rewrite (proj2 (Z.eqb_eq a b)) by lia) || (rewrite (proj2 (Z.eqb_neq a b)) by lia) || destruct (Z.eqb_spec a b) end; cbn [andb orb negb]).

Definition cont (c : Z) : bool := (128 <=? c) && (c <? 192).

Lemma decode2 c d : utf8_decode [c; d] <> None <-> cont d = true /\ 194 <= c <= 223.
Proof.
  cbn [utf8_decode]. fold (cont d). destruct (cont d) eqn:E; [|split; [done|by intros []]]. unfold cont in E. bool_props.
  cbn [andb]. destruct (_ && _) eqn:E2; bool_props; (split; [|done || intros [_ ?]]); try done; try lia.
Qed.
Lemma decode3 c d e : utf8_decode [c; d; e] <> None <->
  cont d = true /\ cont e = true /\ 224 <= c <= 239 /\ (c = 224 -> 160 <= d) /\ (c = 237 -> d < 160).
Proof.
  cbn [utf8_decode]. fold (cont d) (cont e). destruct (cont d) eqn:E1; [|split; [done|by intros []]].
  destruct (cont e) eqn:E2; [|split; [done|by intros (?&?&?)]]. unfold cont, is_high, is_low in *. bool_props.
  set (v := _ + (e - 128)).
  assert (Hb : (true && true && (2048 <=? v) && (v <? 65536) && negb ((0xd800 <=? v) && (v <=? 0xdbff) || (0xdc00 <=? v) && (v <=? 0xdfff))) = true <->
    2048 <= v < 65536 /\ ~ (0xd800 <= v <= 0xdfff)).
  { rewrite !andb_true_iff, negb_true_iff, orb_false_iff, !andb_false_iff, !Z.leb_le, Z.ltb_lt, !Z.leb_gt. lia. }
  destruct (_ && negb _); [destruct Hb as [Hb _]; specialize (Hb eq_refl)|destruct Hb as [_ Hb]]; subst v; split; try done.
  - lia.
  - intros (_ & _ & Hx). exfalso. enough (false = true) by done. apply Hb. lia.
Qed.
Lemma decode4 c d e f : utf8_decode [c; d; e; f] <> None <->
  cont d = true /\ cont e = true /\ cont f = true /\ 240 <= c <= 244 /\ (c = 240 -> 144 <= d) /\ (c = 244 -> d < 144).
Proof.
  cbn [utf8_decode]. fold (cont d) (cont e) (cont f). destruct (cont d) eqn:E1; [|split; [done|by intros []]].
  destruct (cont e) eqn:E2; [|split; [done|by intros (?&?&?)]]. destruct (cont f) eqn:E3; [|split; [done|by intros (?&?&?&?)]].
  unfold cont in *. bool_props. set (v := _ + (f - 128)).
  assert (Hb : (true && true && true && (65536 <=? v) && (v <=? 1114111)) = true <-> 65536 <= v <= 1114111).
  { rewrite !andb_true_iff, !Z.leb_le. lia. }
  destruct (_ && _ && _ && _ && _); [destruct Hb as [Hb _]; specialize (Hb eq_refl)|destruct Hb as [_ Hb]]; subst v; split; try done.
  - lia.
  - intros (_ & _ & _ & Hx). exfalso. enough (false = true) by done. apply Hb. lia.
Qed.

Lemma raw_some p n : bytes_ok p -> ds4_raw_utf8_length p = S n -> (S n <= length p)%nat /\ utf8_decode (take (S n) p) <> None.
Proof.
  intros Hp. destruct p as [|c r]; [done|]. apply Forall_cons_iff in Hp as [Hc Hr]. cbn [ds4_raw_utf8_length]. unfold byte_ok in Hc.
  destruct (Z.ltb_spec c 0x80).
  { intros [= <-]. split; [cbn; lia|]. cbn. by rewrite (proj2 (Z.leb_le 0 c)), (proj2 (Z.ltb_lt c 128)) by lia. }
  destruct ((0xc2 <=? c) && (c <=? 0xdf)) eqn:E2.
  { bool_props. destruct r as [|d r]; [done|]. apply Forall_cons_iff in Hr as [Hd _]. rewrite is_cont_range by done. fold (cont d).
    destruct (cont d) eqn:Ed; [|done]. intros [= <-]. split; [cbn; lia|]. change (take 2 _) with [c; d]. apply decode2. done. }
  destruct ((0xe0 <=? c) && (c <=? 0xef)) eqn:E3.
  { bool_props. destruct r as [|d [|e r]]; [done..|]. apply Forall_cons_iff in Hr as [Hd [He _]%Forall_cons_iff]. rewrite !is_cont_range by done.
    fold (cont d) (cont e). destruct (cont e) eqn:Ee; cbn [negb]; [|done].
    destruct ((c =? 0xe0) && _) eqn:E4; [done|]. destruct ((c =? 0xed) && _) eqn:E5; [done|].
    destruct (negb _ && _ && _) eqn:E6; [done|]. intros [= <-]. split; [cbn; lia|]. change (take 3 _) with [c; d; e]. apply decode3.
    unfold byte_ok in *. rewrite !andb_false_iff, ?orb_false_iff, ?negb_false_iff, ?Z.eqb_neq, ?Z.eqb_eq, ?Z.ltb_ge in *.
    unfold cont in *. rewrite !andb_true_iff, ?Z.leb_le, ?Z.ltb_lt in *. lia. }
  destruct ((0xf0 <=? c) && (c <=? 0xf4)) eqn:E4; [|done].
  bool_props. destruct r as [|d [|e [|f r]]]; [done..|]. apply Forall_cons_iff in Hr as [Hd [He [Hf _]%Forall_cons_iff]%Forall_cons_iff].
  rewrite !is_cont_range by done. fold (cont d) (cont e) (cont f). destruct (cont e) eqn:Ee; cbn [negb orb]; [|done].
  destruct (cont f) eqn:Ef; cbn [negb orb]; [|done].
  destruct ((c =? 0xf0) && _) eqn:E4; [done|]. destruct ((c =? 0xf4) && _) eqn:E5; [done|].
  destruct (negb _ && _ && _) eqn:E6; [done|]. intros [= <-]. split; [cbn; lia|]. change (take 4 _) with [c; d; e; f]. apply decode4.
  unfold byte_ok in *. rewrite !andb_false_iff, ?orb_false_iff, ?negb_false_iff, ?Z.eqb_neq, ?Z.eqb_eq, ?Z.ltb_ge in *.
  unfold cont in *. rewrite !andb_true_iff, ?Z.leb_le, ?Z.ltb_lt in *. lia.
Qed.

Lemma raw_complete t cp q : utf8_decode t = Some cp -> ds4_raw_utf8_length (t ++ q) = length t.
Proof.
  intros H. assert (Hn : utf8_decode t <> None) by congruence.
  destruct t as [|c [|d [|e [|f [|? ?]]]]]; try done; cbn [app ds4_raw_utf8_length length].
  - cbn in H. destruct (_ && _) eqn:E; [|done]. bool_props. by rewrite (proj2 (Z.ltb_lt c 0x80)) by lia.
  - apply decode2 in Hn as [Hd Hc]. assert (Hb : byte_ok d) by (unfold cont, byte_ok in *; bool_props; lia).
    rewrite is_cont_range by done. fold (cont d). rewrite Hd. decide_ineqs. done.
  - apply decode3 in Hn as (Hd & He & Hc). assert (Hb : byte_ok d /\ byte_ok e) by (unfold cont, byte_ok in *; bool_props; lia).
    rewrite !is_cont_range by apply Hb. fold (cont d) (cont e). rewrite Hd, He. cbn [negb].  unfold cont in Hd. bool_props. decide_ineqs; lia.
  - apply decode4 in Hn as (Hd & He & Hf & Hc). assert (Hb : byte_ok d /\ byte_ok e /\ byte_ok f) by (unfold cont, byte_ok in *; bool_props; lia).
    rewrite !is_cont_range by apply Hb. fold (cont d) (cont e) (cont f). rewrite Hd, He, Hf. cbn [negb orb]. unfold cont in Hd. bool_props. decide_ineqs; lia.
Qed.

(** ** Reading a string *)

(** One character, the cursor not on a quote. *)
Definition ref_char (p : bytes) : option (Z * bytes) :=
  match p with
  | [] => None
  | c :: p1 =>
      if c <? 32 then None
      else if c =? 92 then
        match p1 with
        | [] => None
        | e :: p2 =>
            match escaped_char e with
            | Some x => Some (x, p2)
            | None =>
                if e =? ch "u" then
                  match parse_unicode_escape p2 with POk cp q => Some (cp, q) | _ => None end
                else None
            end
        end
      else
        let n := ds4_raw_utf8_length p in
        cp ← utf8_decode (take n p); Some (cp, drop n p)
  end.

Fixpoint ref_chars (fuel : nat) (p : bytes) : option (list Z * bytes) :=
  match fuel with
  | O => None
  | S fuel' =>
      if starts_at 34 p then Some ([], tail p)
      else '(cp, q) ← ref_char p; '(s, q) ← ref_chars fuel' q; Some (cp :: s, q)
  end.

Definition ref_string (p : bytes) : option (list Z * bytes) :=
  if starts_at 34 p then ref_chars (length p) (tail p) else None.

Lemma escaped_char_iff e x : escaped_char e = Some x <-> (e, x) ∈ short_escapes.
Proof.
  unfold escaped_char, short_escapes. rewrite !elem_of_cons, elem_of_nil. rewrite !pair_equal_spec. split.
  - destruct (Z.eqb_spec e 34), (Z.eqb_spec e 92), (Z.eqb_spec e (ch "/")); cbn [orb]; try (intros [= ->]; tauto).
    destruct (Z.eqb_spec e (ch "b")), (Z.eqb_spec e (ch "f")), (Z.eqb_spec e (ch "n")), (Z.eqb_spec e (ch "r")), (Z.eqb_spec e (ch "t"));
      intros H; try (injection H as <-; tauto); done.
  - intros H; repeat destruct H as [[-> ->]|H]; (reflexivity || done).
Qed.

Lemma utf8_decode_head c t v : utf8_decode (c :: t) = Some v -> t = [] /\ v = c /\ 0 <= c < 128 \/ 128 <= v <= 0x10ffff /\ 194 <= c <= 244.
Proof.
  intros Hv. assert (Hn : utf8_decode (c :: t) <> None) by congruence.
  destruct t as [|d [|e [|f [|? ?]]]]; [|right..|done]; cbn [utf8_decode] in Hv.
  - destruct (_ && _) eqn:E; [|done]. injection Hv as <-. bool_props. left. split; [done|]. lia.
  - apply decode2 in Hn. destruct (_ && _) eqn:E; [|done]. injection Hv as <-. bool_props. lia.
  - apply decode3 in Hn. destruct (_ && _) eqn:E; [|done]. injection Hv as <-. bool_props. lia.
  - apply decode4 in Hn. destruct (_ && _) eqn:E; [|done]. injection Hv as <-. bool_props. lia.
Qed.

Lemma utf8_put_decode t v : utf8_decode t = Some v -> utf8_put v = t.
Proof.
  intros Hv. assert (Hn : utf8_decode t <> None) by congruence.
  assert (H0 : forall x, x / 2 ^ 0 = x) by (intros x; change (2 ^ 0) with 1; apply Z.div_1_r).
  destruct t as [|c [|d [|e [|f [|? ?]]]]]; try done; cbn [utf8_decode] in Hv.
  - destruct (_ && _) eqn:E; [|done]. injection Hv as <-. bool_props. unfold utf8_put. rewrite (proj2 (Z.leb_le c 127)) by lia.
    f_equal. apply wrap_small. unfold in_u. lia.
  - apply decode2 in Hn. destruct (_ && _) eqn:E; [|done]. injection Hv as <-. unfold cont in Hn. destruct Hn as [Hd Hc]. bool_props.
    set (v := _ + (d - 128)) in *. unfold utf8_put.
    rewrite (proj2 (Z.leb_gt v 127)), (proj2 (Z.leb_le v 2047)), cont_byte, H0, Z.shiftr_div_pow2 by lia.
    change 192 with (6 * 2 ^ 5) at 1. rewrite u8_lead by (subst v; zdiv_lia). subst v. f_equal; [zdiv_lia|]. f_equal. zdiv_lia.
  - apply decode3 in Hn. destruct (_ && _) eqn:E; [|done]. injection Hv as <-. unfold cont in Hn. destruct Hn as (Hd & He & Hc). bool_props.
    set (v := _ + (e - 128)) in *. unfold utf8_put.
    rewrite (proj2 (Z.leb_gt v 127)), (proj2 (Z.leb_gt v 2047)), (proj2 (Z.leb_le v 65535)), !cont_byte, H0, Z.shiftr_div_pow2 by lia.
    change 224 with (14 * 2 ^ 4) at 1. rewrite u8_lead by (subst v; zdiv_lia). subst v. repeat f_equal; zdiv_lia.
  - apply decode4 in Hn. destruct (_ && _) eqn:E; [|done]. injection Hv as <-. unfold cont in Hn. destruct Hn as (Hd & He & Hf & Hc). bool_props.
    set (v := _ + (f - 128)) in *. unfold utf8_put.
    rewrite (proj2 (Z.leb_gt v 127)), (proj2 (Z.leb_gt v 2047)), (proj2 (Z.leb_gt v 65535)), !cont_byte, H0, Z.shiftr_div_pow2 by lia.
    change 240 with (30 * 2 ^ 3) at 1. rewrite u8_lead by (subst v; zdiv_lia). subst v. repeat f_equal; zdiv_lia.
Qed.

Lemma ref_char_sound p cp q : bytes_ok p -> starts_at 34 p = false -> ref_char p = Some (cp, q) -> exists t, p = t ++ q /\ char_text cp t.
Proof.
  intros Hp Hq. destruct p as [|c p1]; [done|]. cbn [starts_at] in Hq. apply Z.eqb_neq in Hq. cbn [ref_char].
  destruct (Z.ltb_spec c 32); [done|]. destruct (Z.eqb_spec c 92) as [->|H92].
  - destruct p1 as [|e p2]; [done|]. destruct (escaped_char e) as [x|] eqn:Ee.
    { intros [= <- <-]. exists [92; e]. split; [done|]. apply char_short. by apply escaped_char_iff. }
    destruct (Z.eqb_spec e (ch "u")) as [->|]; [|done]. destruct (parse_unicode_escape p2) as [v r| |] eqn:Eu; [|done..].
    intros [= <- <-]. apply parse_unicode_sound in Eu as (t & -> & [[Hh Hn]|(hi & lo & h & k & H1 & H2 & H3 & H4 & -> & ->)]).
    + exists ([92; ch "u"] ++ t). split; [done|]. by apply char_unit.
    + exists ([92; ch "u"] ++ h ++ [92; ch "u"] ++ k). split; [by rewrite <- !app_assoc|]. by apply char_pair.
  - intros H1. apply bind_Some in H1 as (v & Hv & H1). injection H1 as <- <-.
    exists (take (ds4_raw_utf8_length (c :: p1)) (c :: p1)). split; [symmetry; apply take_drop|].
    pose proof Hv as Hv'. destruct (ds4_raw_utf8_length (c :: p1)) as [|n]; [done|]. cbn [take] in Hv'.
    apply utf8_decode_head in Hv' as Hh. apply char_raw; [done|lia..].
Qed.

Lemma ref_char_complete cp t q : char_text cp t -> ref_char (t ++ q) = Some (cp, q) /\ starts_at 34 (t ++ q) = false.
Proof.
  destruct 1 as [cp t Hd H1 H2 H3|e cp He|cp h Hh Hn|hi lo h k Hh Hk Hhi Hlo].
  - destruct t as [|c t]; [done|]. apply utf8_decode_head in Hd as Hc. pose proof (raw_complete (c :: t) cp q Hd) as Hl.
    cbn [app ref_char starts_at] in *. rewrite (proj2 (Z.ltb_ge c 32)), (proj2 (Z.eqb_neq c 92)), (proj2 (Z.eqb_neq c 34)) by lia.
    split; [|done]. cbv zeta. rewrite Hl. change (c :: t ++ q) with ((c :: t) ++ q). rewrite take_app_length, drop_app_length, Hd. done.
  - cbn. by rewrite (proj2 (escaped_char_iff e cp) He).
  - split; [|done]. cbn [app ref_char Z.eqb Z.ltb Z.compare Pos.compare Pos.compare_cont Pos.eqb]. change (escaped_char (ch "u")) with (@None Z).
    rewrite Z.eqb_refl, (parse_unicode_complete cp h q); [done|]. by left.
  - split; [|done]. cbn [app ref_char Z.eqb Z.ltb Z.compare Pos.compare Pos.compare_cont Pos.eqb]. change (escaped_char (ch "u")) with (@None Z).
    rewrite Z.eqb_refl. pose proof (parse_unicode_complete _ (h ++ [92; ch "u"] ++ k) q
      ltac:(right; exists hi, lo, h, k; split_and!; reflexivity || exact Hh || exact Hk || lia)) as E. cbn [app] in E. rewrite E. done.
Qed.

Lemma ref_chars_sound fuel p s q : bytes_ok p -> ref_chars fuel p = Some (s, q) ->
  exists b, p = b ++ [34] ++ q /\ chars_text s b.
Proof.
  revert p s. induction fuel as [|fuel IH]; intros p s Hp; cbn [ref_chars]; [done|].
  destruct (starts_at 34 p) eqn:Es.
  - intros [= <- <-]. destruct p as [|c p]; [done|]. cbn in Es. apply Z.eqb_eq in Es as ->. exists []. split; [done|constructor].
  - intros H. apply bind_Some in H as ([cp p1] & Hc & H). apply bind_Some in H as ([s1 q1] & Hs & [= <- <-]).
    destruct (ref_char_sound p cp p1 Hp Es Hc) as (t & -> & Ht). apply Forall_app in Hp as [_ Hp].
    destruct (IH p1 s1 Hp Hs) as (b & -> & Hb). exists (t ++ b). split; [by rewrite <- app_assoc|by constructor].
Qed.

Lemma char_text_length cp t : char_text cp t -> (1 <= length t)%nat.
Proof. destruct 1 as [cp t Hd _ _ _| | |]; [destruct t; [done|]|..]; cbn; lia. Qed.

Lemma ref_chars_complete s b q fuel : chars_text s b -> (length b < fuel)%nat -> ref_chars fuel (b ++ [34] ++ q) = Some (s, q).
Proof.
  intros Hb. revert fuel. induction Hb as [|cp s t r Ht _ IH]; intros fuel Hf; (destruct fuel as [|fuel]; [lia|]); [done|].
  cbn [ref_chars]. rewrite <- app_assoc. destruct (ref_char_complete cp t (r ++ [34] ++ q) Ht) as [Hc Hs]. rewrite Hs, Hc. cbn [mbind option_bind].
  rewrite length_app in Hf. pose proof (char_text_length _ _ Ht). rewrite IH by lia. done.
Qed.

Lemma ref_string_sound p s q : bytes_ok p -> ref_string p = Some (s, q) -> exists t, p = t ++ q /\ string_text s t.
Proof.
  intros Hp. unfold ref_string. destruct p as [|c p]; [done|]. cbn [starts_at tail]. destruct (Z.eqb_spec c 34) as [->|]; [|done].
  apply Forall_cons_iff in Hp as [_ Hp]. intros H. apply ref_chars_sound in H as (b & -> & Hb); [|done].
  exists ([34] ++ b ++ [34]). split; [by rewrite <- !app_assoc|]. by exists b.
Qed.

Lemma ref_string_complete s t q : string_text s t -> ref_string (t ++ q) = Some (s, q).
Proof.
  intros (b & Hb & ->). rewrite <- !app_assoc. unfold ref_string. cbn [app starts_at tail Z.eqb Pos.eqb].
  apply (ref_chars_complete s b q); [done|]. cbn [length]. rewrite !length_app. cbn. lia.
Qed.

(** ** Reading a number *)

(** What may follow a number. *)
Definition number_end (q : bytes) : Prop :=
  match q with [] => True | c :: _ => isdigit c = false /\ c <> ch "." /\ c <> ch "e" /\ c <> ch "E" end.

Lemma starts_at_cons c p : starts_at c p = true -> p = c :: tail p.
Proof. destruct p as [|x p]; cbn; [done|]. by intros ->%Z.eqb_eq. Qed.

Lemma starts_at_neq c x p : x <> c -> starts_at c (x :: p) = false.
Proof. intros H. cbn. by apply Z.eqb_neq. Qed.

Lemma skip_digits_sound msg p q : skip_digits msg p = POk tt q -> exists d, p = d ++ q /\ digits d /\ d <> [].
Proof.
  unfold skip_digits. destruct (span_len isdigit p) as [|n] eqn:E; [done|]. intros H. injection H as <-.
  exists (take (S n) p). split; [symmetry; apply take_drop|]. split; [rewrite <- E; apply span_len_forall|].
  destruct p; [done|]. done.
Qed.

Lemma span_app_stop f d q : Forall (fun c => f c = true) d -> match q with [] => True | c :: _ => f c = false end ->
  span_len f (d ++ q) = length d.
Proof.
  induction 1 as [|c d Hc _ IH]; intros Hq; cbn; [|rewrite Hc, IH; done]. destruct q as [|c q]; [done|]. cbn. by rewrite Hq.
Qed.

Lemma skip_digits_complete msg d q : digits d -> d <> [] -> match q with [] => True | c :: _ => isdigit c = false end ->
  skip_digits msg (d ++ q) = POk tt q.
Proof.
  intros Hd Hne Hq. unfold skip_digits. rewrite (span_app_stop isdigit d q Hd Hq). destruct d as [|c d]; [done|]. cbn [length].
  change (S (length d)) with (length (c :: d)). by rewrite drop_app_length.
Qed.

Lemma parse_number_sound p q : ds4_parse_number p = POk tt q -> exists t, p = t ++ q /\ number_text t.
Proof.
  unfold ds4_parse_number. set (s := if starts_at (ch "-") p then [ch "-"] else []).
  set (p1 := if starts_at (ch "-") p then tail p else p).
  assert (Ep : p = s ++ p1 /\ (s = [] \/ s = [ch "-"])).
  { subst s p1. destruct (starts_at (ch "-") p) eqn:E; [|auto]. apply starts_at_cons in E. rewrite E at 1. auto. }
  clearbody s p1. destruct p1 as [|c p1']; [done|]. destruct Ep as [-> Hs].
  destruct (if c =? ch "0" then _ else _) as [[] p2| |] eqn:E1; cbn [pbind]; [|done..].
  assert (Hi : exists i, c :: p1' = i ++ p2 /\ int_text i).
  { destruct (Z.eqb_spec c (ch "0")) as [->|Hc].
    - injection E1 as <-. exists [ch "0"]. split; [done|constructor].
    - apply skip_digits_sound in E1 as ([|x d] & Ed & Hd & Hne); [done|]. injection Ed as <- ->. exists (c :: d). split; [done|].
      apply Forall_cons_iff in Hd as [Hx Hd]. by constructor. }
  destruct Hi as (i & Ei & Hi). rewrite Ei. clear E1 Ei c p1'.
  destruct (if starts_at (ch ".") p2 then _ else _) as [[] p3| |] eqn:E2; cbn [pbind]; [|done..].
  assert (Hf : exists f, p2 = f ++ p3 /\ frac_text f).
  { destruct (starts_at (ch ".") p2) eqn:E.
    - apply starts_at_cons in E. apply skip_digits_sound in E2 as (d & Ed & Hd & Hne). exists (ch "." :: d).
      split; [rewrite E, Ed; done|by constructor].
    - injection E2 as <-. exists []. split; [done|constructor]. }
  destruct Hf as (f & -> & Hf). clear E2. intros H3.
  assert (He : exists e, p3 = e ++ q /\ exp_text e).
  { destruct (starts_at (ch "e") p3 || starts_at (ch "E") p3) eqn:E.
    - set (p4 := tail p3) in *. set (sg := if starts_at (ch "+") p4 then [ch "+"] else if starts_at (ch "-") p4 then [ch "-"] else []).
      apply skip_digits_sound in H3 as (d & Ed & Hd & Hne).
      assert (E4 : p4 = sg ++ d ++ q /\ (sg = [] \/ sg = [ch "+"] \/ sg = [ch "-"])).
      { subst sg. destruct (starts_at (ch "+") p4) eqn:Ea; [|destruct (starts_at (ch "-") p4) eqn:Eb]; cbn [orb] in Ed; [| |by auto].
        - apply starts_at_cons in Ea. rewrite Ea, Ed. auto.
        - apply starts_at_cons in Eb. rewrite Eb, Ed. auto. }
      destruct E4 as [E4 Hsg]. apply orb_true_iff in E as [E|E]; apply starts_at_cons in E; fold p4 in E.
      + exists (ch "e" :: sg ++ d). split; [rewrite E, E4; cbn; by rewrite <- app_assoc|]. constructor; auto.
      + exists (ch "E" :: sg ++ d). split; [rewrite E, E4; cbn; by rewrite <- app_assoc|]. constructor; auto.
    - injection H3 as <-. exists []. split; [done|constructor]. }
  destruct He as (e & -> & He). exists (s ++ i ++ f ++ e). split; [by rewrite <- !app_assoc|]. exists s, i, f, e. split_and!; done.
Qed.

Lemma digits_head d q : digits d -> d <> [] -> exists c r, d ++ q = c :: r /\ isdigit c = true.
Proof. intros Hd Hne. destruct d as [|c d]; [done|]. apply Forall_cons_iff in Hd as [Hc _]. cbn. eauto. Qed.

Lemma exp_head e q : exp_text e -> number_end q -> match e ++ q with [] => True | c :: _ => isdigit c = false /\ c <> ch "." end.
Proof. intros [|x s d [->| ->] _ _ _] Hq; cbn [app]; [destruct q; [done|]; split; apply Hq|done..]. Qed.

Lemma frac_head f e q : frac_text f -> exp_text e -> number_end q -> match f ++ e ++ q with [] => True | c :: _ => isdigit c = false end.
Proof.
  intros [|d Hd Hne] He Hq; cbn [app]; [|done]. pose proof (exp_head e q He Hq) as H. destruct (e ++ q); [done|apply H].
Qed.

Lemma isdigit_range c : isdigit c = true -> 48 <= c <= 57.
Proof. unfold isdigit. intros H. bool_props. change (ch "0") with 48 in *. change (ch "9") with 57 in *. lia. Qed.

Lemma parse_number_complete t q : number_text t -> number_end q -> ds4_parse_number (t ++ q) = POk tt q.
Proof.
  intros (s & i & f & e & Hs & Hi & Hf & He & ->) Hq. rewrite <- !app_assoc. unfold ds4_parse_number.
  assert (Ei : forall r, starts_at (ch "-") (i ++ r) = false).
  { intros r. destruct Hi as [|c d Hc _ _]; [done|]. apply isdigit_range in Hc. apply starts_at_neq. change (ch "-") with 45. lia. }
  assert (Es : (if starts_at (ch "-") (s ++ i ++ f ++ e ++ q) then tail (s ++ i ++ f ++ e ++ q) else s ++ i ++ f ++ e ++ q) = i ++ f ++ e ++ q).
  { destruct Hs as [->| ->]; cbn [app]; [by rewrite Ei|done]. }
  rewrite Es. pose proof (frac_head f e q Hf He Hq) as Hfq. pose proof (exp_head e q He Hq) as Heq.
  set (r := f ++ e ++ q) in *.
  assert (E1 : exists c p', i ++ r = c :: p' /\ (if c =? ch "0" then POk tt p' else skip_digits (bs "invalid number") (i ++ r)) = POk tt r).
  { destruct Hi as [|c d Hc H0 Hd]; [by exists (ch "0"), r|]. exists c, (d ++ r). split; [done|]. rewrite (proj2 (Z.eqb_neq _ _)) by done.
    apply skip_digits_complete; [by constructor|done|done]. }
  destruct E1 as (c & p' & E1 & E2). rewrite E1 in E2 |- *. rewrite E2. cbn [pbind]. subst r.
  assert (E3 : (if starts_at (ch ".") (f ++ e ++ q) then skip_digits (bs "invalid number fraction") (tail (f ++ e ++ q)) else POk tt (f ++ e ++ q)) = POk tt (e ++ q)).
  { destruct Hf as [|d Hd Hne]; cbn [app].
    - destruct (e ++ q) as [|x y]; [done|]. rewrite starts_at_neq by apply Heq. done.
    - cbn [starts_at]. rewrite Z.eqb_refl. cbn [tail]. apply skip_digits_complete; [done..|]. destruct (e ++ q); [done|apply Heq]. }
  rewrite E3. cbn [pbind]. destruct He as [|x sg d Hx Hsg Hd Hne]; cbn [app].
  - destruct q as [|x q]; [done|]. destruct Hq as (H1 & H2 & H3 & H4). rewrite !starts_at_neq by done. done.
  - assert (Ex : starts_at (ch "e") (x :: (sg ++ d) ++ q) || starts_at (ch "E") (x :: (sg ++ d) ++ q) = true) by (destruct Hx as [->| ->]; done).
    rewrite Ex. cbn [tail]. rewrite <- app_assoc.
    assert (Ed : (if starts_at (ch "+") (sg ++ d ++ q) || starts_at (ch "-") (sg ++ d ++ q) then tail (sg ++ d ++ q) else sg ++ d ++ q) = d ++ q).
    { destruct Hsg as [->|[->| ->]]; [|done..]. destruct (digits_head d q Hd Hne) as (y & z & Ey & Hy). cbn [app]. rewrite Ey.
      apply isdigit_range in Hy. rewrite !starts_at_neq by (change (ch "+") with 43; change (ch "-") with 45; lia). done. }
    rewrite Ed. apply skip_digits_complete; [done..|]. destruct q; [done|apply Hq].
Qed.

(** ** Reading a value *)

Fixpoint ref_elements (value : bytes -> option (json * bytes)) (fuel : nat) (p : bytes) : option (list json * bytes) :=
  match fuel with
  | O => None
  | S fuel' =>
      '(v, p) ← value p;
      match ds4_skip_space p with
      | [] => None
      | c :: p' =>
          if c =? ch "]" then Some ([v], p')
          else if negb (c =? ch ",") then None
          else '(l, q) ← ref_elements value fuel' (ds4_skip_space p'); Some (v :: l, q)
      end
  end.

(** The reader of a field's value may depend on the name. *)
Fixpoint ref_members (value : list Z -> bytes -> option (json * bytes)) (fuel : nat) (p : bytes)
  : option (list (list Z * json) * bytes) :=
  match fuel with
  | O => None
  | S fuel' =>
      '(k, p) ← ref_string p;
      let p := ds4_skip_space p in
      if negb (starts_at (ch ":") p) then None
      else
        '(v, p) ← value k (ds4_skip_space (tail p));
        match ds4_skip_space p with
        | [] => None
        | c :: p' =>
            if c =? ch "}" then Some ([(k, v)], p')
            else if negb (c =? ch ",") then None
            else '(m, q) ← ref_members value fuel' (ds4_skip_space p'); Some ((k, v) :: m, q)
        end
  end.

(** Behind the opening bracket: nothing, or the loop. *)
Definition ref_bracketed {A} (close : Z) (loop : bytes -> option (list A * bytes)) (p : bytes) : option (list A * bytes) :=
  let p := ds4_skip_space (tail p) in
  if starts_at close p then Some ([], tail p) else loop p.

Definition ref_literal (v : json) (p literal : bytes) : option (json * bytes) := q ← strip_prefix literal p; Some (v, q).

Fixpoint ref_value (fuel : nat) (d : Z) (p : bytes) : option (json * bytes) :=
  match fuel with
  | O => None
  | S fuel' =>
      let p := ds4_skip_space p in
      match p with
      | [] => None
      | c :: _ =>
          if c =? ch "{" then
            if max_depth <? d then None
            else '(m, q) ← ref_bracketed (ch "}") (ref_members (fun _ => ref_value fuel' (d + 1)) fuel') p; Some (JObject m, q)
          else if c =? ch "[" then
            if max_depth <? d then None
            else '(l, q) ← ref_bracketed (ch "]") (ref_elements (ref_value fuel' (d + 1)) fuel') p; Some (JArray l, q)
          else if c =? 34 then '(s, q) ← ref_string p; Some (JString s, q)
          else if c =? ch "t" then ref_literal (JBool true) p (bs "true")
          else if c =? ch "f" then ref_literal (JBool false) p (bs "false")
          else if c =? ch "n" then ref_literal JNull p (bs "null")
          else if (c =? ch "-") || isdigit c then
            match ds4_parse_number p with
            | POk _ q => Some (JNumber (take (length p - length q) p), q)
            | _ => None
            end
          else None
      end
  end.

(** ** What is read is in the grammar *)

Lemma is_json_space_iff c : is_json_space c = true <-> c = 32 \/ c = 9 \/ c = 10 \/ c = 13.
Proof. unfold is_json_space. rewrite !orb_true_iff, !Z.eqb_eq. change (ch " ") with 32. tauto. Qed.

Lemma skip_space_split p : exists w, ws w /\ p = w ++ ds4_skip_space p.
Proof.
  exists (take (span_len is_json_space p) p). split; [|symmetry; apply take_drop].
  eapply Forall_impl; [|apply span_len_forall]. intros c. apply is_json_space_iff.
Qed.

(** [p] does not begin with white space. *)
Definition token (p : bytes) : Prop := match p with [] => True | c :: _ => is_json_space c = false end.

Lemma skip_token p : token p -> ds4_skip_space p = p.
Proof. unfold ds4_skip_space. destruct p as [|c p]; cbn; [done|]. by intros ->. Qed.

Lemma skip_ws w p : ws w -> ds4_skip_space (w ++ p) = ds4_skip_space p.
Proof.
  induction 1 as [|c w Hc _ IH]; [done|]. apply is_json_space_iff in Hc. rewrite <- IH. unfold ds4_skip_space. cbn. by rewrite Hc.
Qed.

Lemma skip_is_token p : token (ds4_skip_space p).
Proof.
  unfold ds4_skip_space. induction p as [|c p IH]; cbn; [done|]. destruct (is_json_space c) eqn:E; [done|]. cbn. exact E.
Qed.

Lemma skip_idem p : ds4_skip_space (ds4_skip_space p) = ds4_skip_space p.
Proof. apply skip_token, skip_is_token. Qed.

Lemma strip_literal_app lit p : strip_prefix lit (lit ++ p) = Some p.
Proof. apply strip_prefix_app. Qed.

Definition value_sound (value : bytes -> option (json * bytes)) (d : Z) : Prop :=
  forall p v q, bytes_ok p -> value p = Some (v, q) -> exists w t, ws w /\ p = w ++ t ++ q /\ value_text d v t.

Lemma bytes_ok_app a b : bytes_ok (a ++ b) -> bytes_ok b.
Proof. by intros [_ H]%Forall_app. Qed.

Lemma bytes_ok_cons c b : bytes_ok (c :: b) -> bytes_ok b.
Proof. by intros [_ H]%Forall_cons_iff. Qed.

Lemma bytes_ok_skip p : bytes_ok p -> bytes_ok (ds4_skip_space p).
Proof. destruct (skip_space_split p) as (w & _ & E). rewrite E at 1. apply bytes_ok_app. Qed.

Lemma elements_sound value d fuel p l q :
  value_sound value d -> bytes_ok p -> ref_elements value fuel p = Some (l, q) ->
  exists t, p = t ++ [ch "]"] ++ q /\ elements_text d l t.
Proof.
  intros Hv. revert p l. induction fuel as [|fuel IH]; intros p l Hp; cbn [ref_elements]; [done|].
  intros H. apply bind_Some in H as ([v p1] & E1 & H). destruct (Hv p v p1 Hp E1) as (w & t & Hw & -> & Ht).
  apply bytes_ok_app, bytes_ok_app in Hp. destruct (skip_space_split p1) as (w' & Hw' & E2). pose proof (bytes_ok_skip _ Hp) as Hp'.
  destruct (ds4_skip_space p1) as [|c p2]; [done|]. destruct (Z.eqb_spec c (ch "]")) as [->|Hc].
  - injection H as <- <-. exists (w ++ t ++ w'). split; [rewrite E2, <- !app_assoc; done|]. by constructor.
  - destruct (Z.eqb_spec c (ch ",")) as [->|]; cbn [negb] in H; [|done]. apply bind_Some in H as ([l1 q1] & E3 & H). injection H as <- <-.
    apply bytes_ok_cons in Hp'. destruct (skip_space_split p2) as (w2 & Hw2 & E4).
    destruct (IH _ _ (bytes_ok_skip _ Hp') E3) as (r & E5 & Hr). exists (w ++ t ++ w' ++ [ch ","] ++ w2 ++ r).
    split; [rewrite E2, E4, E5, <- !app_assoc; done|]. apply et_more; [done..|].
    destruct Hr as [d v' w3 t' w4 H1 H2 H3|d v' l' w3 t' w4 r' H1 H2 H3 H4]; rewrite app_assoc; constructor; try done; by apply Forall_app.
Qed.

Lemma members_sound value d fuel p m q :
  (forall k, value_sound (value k) d) -> bytes_ok p -> ref_members value fuel p = Some (m, q) ->
  exists t, p = t ++ [ch "}"] ++ q /\ members_text d m t.
Proof.
  intros Hv. revert p m. induction fuel as [|fuel IH]; intros p m Hp; cbn [ref_members]; [done|].
  intros H. apply bind_Some in H as ([k p1] & E1 & H). apply ref_string_sound in E1 as (kt & -> & Hk); [|done]. apply bytes_ok_app in Hp.
  destruct (skip_space_split p1) as (w1 & Hw1 & E1). pose proof (bytes_ok_skip _ Hp) as Hp1.
  destruct (starts_at (ch ":") (ds4_skip_space p1)) eqn:Ec; cbn [negb] in H; [|done]. apply starts_at_cons in Ec.
  rewrite Ec in E1, Hp1. apply bytes_ok_cons in Hp1. set (p2 := tail (ds4_skip_space p1)) in *.
  apply bind_Some in H as ([v p3] & E3 & H). destruct (skip_space_split p2) as (w2 & Hw2 & E2).
  destruct (Hv k _ v p3 (bytes_ok_skip _ Hp1) E3) as (w2' & t & Hw2' & E4 & Ht).
  assert (Hp3 : bytes_ok p3). { apply bytes_ok_skip in Hp1. rewrite E4 in Hp1. by apply bytes_ok_app, bytes_ok_app in Hp1. }
  destruct (skip_space_split p3) as (w' & Hw' & E5). pose proof (bytes_ok_skip _ Hp3) as Hp4.
  assert (Hww : ws (w2 ++ w2')) by by apply Forall_app.
  destruct (ds4_skip_space p3) as [|c p4]; [done|]. destruct (Z.eqb_spec c (ch "}")) as [->|Hc].
  - injection H as <- <-. exists ([] ++ kt ++ w1 ++ [ch ":"] ++ (w2 ++ w2') ++ t ++ w').
    split; [rewrite E1, E2, E4, E5, <- !app_assoc; done|]. constructor; done || constructor.
  - destruct (Z.eqb_spec c (ch ",")) as [->|]; cbn [negb] in H; [|done]. apply bind_Some in H as ([m1 q1] & E6 & H). injection H as <- <-.
    apply bytes_ok_cons in Hp4. destruct (skip_space_split p4) as (w3 & Hw3 & E7).
    destruct (IH _ _ (bytes_ok_skip _ Hp4) E6) as (r & E8 & Hr). exists ([] ++ kt ++ w1 ++ [ch ":"] ++ (w2 ++ w2') ++ t ++ w' ++ [ch ","] ++ (w3 ++ r)).
    split; [rewrite E1, E2, E4, E5, E7, E8, <- !app_assoc; done|]. apply mt_more; try done; [constructor|].
    destruct Hr as [d k' v' w4 kt' w5 w6 t' w7|d k' v' m' w4 kt' w5 w6 t' w7 r']; rewrite app_assoc; constructor; try done; by apply Forall_app.
Qed.

Lemma bracketed_sound {A} close loop p (l : list A) q :
  ref_bracketed close loop p = Some (l, q) ->
  exists w, ws w /\ tail p = w ++ ds4_skip_space (tail p) /\
    (l = [] /\ ds4_skip_space (tail p) = close :: q \/ loop (ds4_skip_space (tail p)) = Some (l, q)).
Proof.
  unfold ref_bracketed. destruct (skip_space_split (tail p)) as (w & Hw & E). exists w. split; [done|]. split; [done|].
  destruct (starts_at close _) eqn:Es; [|by right]. injection H as <- <-. left. split; [done|]. by apply starts_at_cons.
Qed.

Lemma elements_ws d l w t : ws w -> elements_text d l t -> elements_text d l (w ++ t).
Proof. intros Hw [? ? ? ? ? ? ? ?|? ? ? ? ? ? ? ? ? ? ?]; rewrite app_assoc; constructor; try done; by apply Forall_app. Qed.

Lemma members_ws d m w t : ws w -> members_text d m t -> members_text d m (w ++ t).
Proof. intros Hw []; rewrite app_assoc; constructor; try done; by apply Forall_app. Qed.

Lemma ref_value_sound fuel d : value_sound (ref_value fuel d) d.
Proof.
  revert d. induction fuel as [|fuel IH]; intros d p v q Hp; cbn [ref_value]; [done|].
  destruct (skip_space_split p) as (w & Hw & E). apply bytes_ok_skip in Hp. set (p1 := ds4_skip_space p) in *. intros H.
  enough (exists t, p1 = t ++ q /\ value_text d v t) as (t & Et & Ht) by (exists w, t; split_and!; [done|congruence|done]).
  clearbody p1. clear E Hw w p. destruct p1 as [|c p]; [done|].
  assert (Hlit : forall lit x, ref_literal x (c :: p) lit = Some (v, q) -> c :: p = lit ++ q /\ v = x).
  { intros lit x Hl. apply bind_Some in Hl as (r & Hr & [= -> ->]). split; [by apply strip_prefix_sound|done]. }
  destruct (Z.eqb_spec c (ch "{")) as [->|_].
  { destruct (Z.ltb_spec max_depth d); [done|]. apply bind_Some in H as ([m r] & Hb & [= <- <-]).
    apply bracketed_sound in Hb as (w & Hw & E & [[-> Es]|Hl]); cbn [tail] in *.
    - exists ([ch "{"] ++ w ++ [ch "}"]). split; [rewrite E, Es, <- !app_assoc; done|]. by constructor.
    - apply bytes_ok_cons, bytes_ok_skip in Hp. destruct (members_sound _ _ _ _ _ _ (fun _ => IH (d + 1)) Hp Hl) as (t & Et & Ht).
      exists ([ch "{"] ++ (w ++ t) ++ [ch "}"]). split; [rewrite E, Et, <- !app_assoc; done|]. constructor; [done|]. by apply members_ws. }
  destruct (Z.eqb_spec c (ch "[")) as [->|_].
  { destruct (Z.ltb_spec max_depth d); [done|]. apply bind_Some in H as ([l r] & Hb & [= <- <-]).
    apply bracketed_sound in Hb as (w & Hw & E & [[-> Es]|Hl]); cbn [tail] in *.
    - exists ([ch "["] ++ w ++ [ch "]"]). split; [rewrite E, Es, <- !app_assoc; done|]. by constructor.
    - apply bytes_ok_cons, bytes_ok_skip in Hp. destruct (elements_sound _ _ _ _ _ _ (IH (d + 1)) Hp Hl) as (t & Et & Ht).
      exists ([ch "["] ++ (w ++ t) ++ [ch "]"]). split; [rewrite E, Et, <- !app_assoc; done|]. constructor; [done|]. by apply elements_ws. }
  destruct (c =? 34).
  { apply bind_Some in H as ([s r] & Hs & [= <- <-]). apply ref_string_sound in Hs as (t & -> & Ht); [|done]. exists t. split; [done|]. by constructor. }
  destruct (c =? ch "t"); [apply Hlit in H as [-> ->]; exists (bs "true"); split; [done|constructor]|].
  destruct (c =? ch "f"); [apply Hlit in H as [-> ->]; exists (bs "false"); split; [done|constructor]|].
  destruct (c =? ch "n"); [apply Hlit in H as [-> ->]; exists (bs "null"); split; [done|constructor]|].
  destruct (_ || _); [|done]. destruct (ds4_parse_number (c :: p)) as [[] r| |] eqn:En; [|done..].
  apply parse_number_sound in En as (t & Et & Ht). rewrite Et, length_app in H.
  replace (length t + length r - length r)%nat with (length t) in H by lia. rewrite take_app_length in H. injection H as <- <-.
  exists t. split; [done|]. by constructor.
Qed.

(** ** Every text of the grammar is read *)

(** What follows a value inside a text. *)
Definition value_end (q : bytes) : Prop :=
  match q with [] => True | c :: _ => is_json_space c = true \/ c = ch "," \/ c = ch "]" \/ c = ch "}" end.

Lemma value_end_number q : value_end q -> number_end q.
Proof.
  destruct q as [|c q]; [done|]. cbn. intros [Hc|[->|[->| ->]]]; [|vm_compute; repeat split; discriminate..].
  apply is_json_space_iff in Hc as [->|[->|[->| ->]]]; vm_compute; repeat split; discriminate.
Qed.

Lemma value_end_ws w q : ws w -> value_end q -> value_end (w ++ q).
Proof. intros [|c w' Hc _] Hq; [done|]. cbn. left. by apply is_json_space_iff. Qed.

Lemma value_head d v t : value_text d v t ->
  exists c r, t = c :: r /\ is_json_space c = false /\ c <> ch "]" /\ c <> ch "}".
Proof.
  destruct 1 as [d|d|d|d t (s & i & f & e & Hs & Hi & _ & _ & ->)|d s t (b & _ & ->)|d w _ _|d l t _ _|d w _ _|d m t _ _];
    try (by eexists _, _; split_and!).
  assert (Hd : forall c, isdigit c = true -> is_json_space c = false /\ c <> ch "]" /\ c <> ch "}").
  { intros c Hc. apply isdigit_range in Hc. change (ch "]") with 93. change (ch "}") with 125. split; [|lia].
    destruct (is_json_space c) eqn:E; [|done]. apply is_json_space_iff in E. lia. }
  destruct Hs as [->| ->]; [|by eexists _, _; split_and!].
  destruct Hi as [|c i Hc _ _]; cbn [app]; eexists _, _; (split; [done|]); by apply Hd.
Qed.

Lemma value_token d v t q : value_text d v t -> token (t ++ q).
Proof. intros H. apply value_head in H as (c & r & -> & Hc & _). exact Hc. Qed.

Lemma string_token s t q : string_text s t -> token (t ++ q).
Proof. by intros (b & _ & ->). Qed.

Definition value_reads (d : Z) (v : json) (t : bytes) : Prop :=
  forall fuel w q, ws w -> value_end q -> (length (t ++ q) < fuel)%nat -> ref_value fuel d (w ++ t ++ q) = Some (v, q).

Definition elements_read (d : Z) (l : list json) (t : bytes) : Prop :=
  forall fuel fuel' q, (length (t ++ [ch "]"] ++ q) < fuel)%nat -> (length (t ++ [ch "]"] ++ q) < fuel')%nat ->
    ref_elements (ref_value fuel d) fuel' (ds4_skip_space (t ++ [ch "]"] ++ q)) = Some (l, q) /\
    starts_at (ch "]") (ds4_skip_space (t ++ [ch "]"] ++ q)) = false.

Definition members_read (d : Z) (m : list (list Z * json)) (t : bytes) : Prop :=
  forall fuel fuel' q, (length (t ++ [ch "}"] ++ q) < fuel)%nat -> (length (t ++ [ch "}"] ++ q) < fuel')%nat ->
    ref_members (fun _ => ref_value fuel d) fuel' (ds4_skip_space (t ++ [ch "}"] ++ q)) = Some (m, q) /\
    starts_at (ch "}") (ds4_skip_space (t ++ [ch "}"] ++ q)) = false.

Lemma ref_bracketed_nil {A} (loop : bytes -> option (list A * bytes)) o close w q :
  ws w -> is_json_space close = false -> ref_bracketed close loop (o :: w ++ [close] ++ q) = Some ([], q).
Proof.
  intros Hw Hc. unfold ref_bracketed. cbn [tail]. rewrite skip_ws by done. rewrite skip_token by done. cbn. by rewrite Z.eqb_refl.
Qed.

Ltac lengths :=
  repeat first [rewrite length_app | progress (cbn [length app]) |
    match goal with H : (_ < _)%nat |- _ => progress (rewrite ?length_app in H; cbn [length app] in H)
                  | H : (_ <= _)%nat |- _ => progress (rewrite ?length_app in H; cbn [length app] in H) end]; lia.

(** One element, or one field, and what follows it. *)
Lemma element_step fuel fuel' d v w t w' q r :
  ws w -> value_text d v t -> value_reads d v t -> ws w' -> is_json_space r = false ->
  (length (t ++ w' ++ r :: q) < fuel)%nat -> (r = ch "," \/ r = ch "]") ->
  ref_elements (ref_value fuel d) (S fuel') (ds4_skip_space (w ++ t ++ w' ++ r :: q)) =
    (if r =? ch "]" then Some ([v], q)
     else '(l, q) ← ref_elements (ref_value fuel d) fuel' (ds4_skip_space q); Some (v :: l, q)) /\
  starts_at (ch "]") (ds4_skip_space (w ++ t ++ w' ++ r :: q)) = false.
Proof.
  intros Hw Ht Hr Hw' Hs Hf Hor. rewrite skip_ws by done. rewrite skip_token by (by eapply value_token).
  destruct (value_head _ _ _ Ht) as (c & rest & Et & Hc & Hn & _). split.
  2: { rewrite Et. cbn. by apply Z.eqb_neq. }
  cbn [ref_elements]. pose proof (Hr fuel [] (w' ++ r :: q) ltac:(constructor)) as E. cbn [app] in E. rewrite E.
  - cbn [mbind option_bind]. rewrite skip_ws by done. rewrite skip_token by done. by destruct Hor as [->| ->].
  - apply value_end_ws; [done|]. cbn. tauto.
  - done.
Qed.

Lemma member_step fuel fuel' d k v w kt w1 w2 t w' q r :
  ws w -> string_text k kt -> ws w1 -> ws w2 -> value_text d v t -> value_reads d v t -> ws w' -> is_json_space r = false ->
  (length (t ++ w' ++ r :: q) < fuel)%nat -> (r = ch "," \/ r = ch "}") ->
  let p := ds4_skip_space (w ++ kt ++ w1 ++ [ch ":"] ++ w2 ++ t ++ w' ++ r :: q) in
  ref_members (fun _ => ref_value fuel d) (S fuel') p =
    (if r =? ch "}" then Some ([(k, v)], q)
     else '(m, q) ← ref_members (fun _ => ref_value fuel d) fuel' (ds4_skip_space q); Some ((k, v) :: m, q)) /\
  starts_at (ch "}") p = false.
Proof.
  intros Hw Hk Hw1 Hw2 Ht Hr Hw' Hs Hf Hor. rewrite skip_ws by done. rewrite skip_token by (by eapply string_token). split.
  2: { destruct Hk as (b & _ & ->). done. }
  cbn [ref_members]. rewrite (ref_string_complete k kt _ Hk). cbn [mbind option_bind]. rewrite skip_ws by done.
  rewrite skip_token by done. cbn [app starts_at tail]. rewrite Z.eqb_refl. cbn [negb].
  rewrite skip_ws by done. rewrite skip_token by (by eapply value_token).
  pose proof (Hr fuel [] (w' ++ r :: q) ltac:(constructor)) as E. cbn [app] in E. rewrite E.
  - cbn [mbind option_bind]. rewrite skip_ws by done. rewrite skip_token by done. by destruct Hor as [->| ->].
  - apply value_end_ws; [done|]. cbn. tauto.
  - done.
Qed.

Lemma ref_value_complete :
  (forall d v t, value_text d v t -> value_reads d v t) /\
  (forall d l t, elements_text d l t -> elements_read d l t) /\
  (forall d m t, members_text d m t -> members_read d m t).
Proof.
  assert (Hstart : forall d v t, value_text d v t ->
    (forall fuel q, value_end q -> (length (t ++ q) < S fuel)%nat -> ref_value (S fuel) d (t ++ q) = Some (v, q)) -> value_reads d v t).
  { intros d v t Ht H fuel w q Hw Hq Hf. destruct fuel as [|fuel]; [lia|]. rewrite <- (H fuel q Hq Hf). cbn [ref_value].
    by rewrite skip_ws. }
  apply json_text_mutind.
  - intros d. apply Hstart; [constructor|]. done.
  - intros d. apply Hstart; [constructor|]. done.
  - intros d. apply Hstart; [constructor|]. done.
  - intros d t Ht. assert (Hv : value_text d (JNumber t) t) by by constructor. apply Hstart; [done|]. intros fuel q Hq _. cbn [ref_value].
    rewrite skip_token by (by eapply value_token). apply value_end_number in Hq. rewrite (parse_number_complete t q Ht Hq).
    destruct Ht as (s & i & f & e & Hs & Hi & _ & _ & Et).
    assert (Hh : exists c r, t = c :: r /\ (c = 45 \/ 48 <= c <= 57)).
    { rewrite Et. destruct Hs as [->| ->]; [|by eexists _, _; split; [|left]]. destruct Hi as [|c i Hc _ _]; cbn [app]; eexists _, _; (split; [done|]).
      - right. done. - right. by apply isdigit_range. }
    destruct Hh as (c & r & Ec & Hc). assert (Ed : take (length (t ++ q) - length q) (t ++ q) = t).
    { rewrite length_app. replace (length t + length q - length q)%nat with (length t) by lia. by rewrite take_app_length. }
    rewrite Ed. rewrite Ec. cbn [app].
    change (ch "{") with 123. change (ch "[") with 91. change (ch "t") with 116. change (ch "f") with 102. change (ch "n") with 110.
    rewrite !(proj2 (Z.eqb_neq c _)) by lia. change (ch "-") with 45. unfold isdigit. change (ch "0") with 48. change (ch "9") with 57.
    destruct Hc as [->|Hc]; [done|]. rewrite (proj2 (Z.leb_le 48 c)), (proj2 (Z.leb_le c 57)), orb_true_r by lia. done.
  - intros d s t Hs. assert (Hv : value_text d (JString s) t) by by constructor. apply Hstart; [done|]. intros fuel q _ _. cbn [ref_value].
    rewrite skip_token by (by eapply value_token). rewrite (ref_string_complete s t q Hs). destruct Hs as (b & _ & ->). done.
  - intros d w Hd Hw. apply Hstart; [by constructor|]. intros fuel q _ _. rewrite <- !app_assoc. cbn [app ref_value].
    rewrite skip_token by done. change (ch "[" =? ch "{") with false. rewrite Z.eqb_refl, (proj2 (Z.ltb_ge _ _)) by done. cbv match.
    pose proof (ref_bracketed_nil (ref_elements (ref_value fuel (d + 1)) fuel) (ch "[") (ch "]") w q Hw eq_refl) as E. cbn [app] in E. by rewrite E.
  - intros d l t Hd Hl IH. apply Hstart; [by apply vt_array|]. intros fuel q _ Hf. rewrite <- !app_assoc in Hf |- *. cbn [app ref_value] in Hf |- *.
    rewrite skip_token by done. change (ch "[" =? ch "{") with false. rewrite Z.eqb_refl, (proj2 (Z.ltb_ge _ _)) by done. cbv match.
    unfold ref_bracketed. cbn [tail]. destruct (IH fuel fuel q) as [E1 E2]; [lengths..|]. cbn [app] in E1, E2. by rewrite E2, E1.
  - intros d w Hd Hw. apply Hstart; [by constructor|]. intros fuel q _ _. rewrite <- !app_assoc. cbn [app ref_value].
    rewrite skip_token by done. rewrite Z.eqb_refl, (proj2 (Z.ltb_ge _ _)) by done. cbv match.
    pose proof (ref_bracketed_nil (ref_members (fun _ => ref_value fuel (d + 1)) fuel) (ch "{") (ch "}") w q Hw eq_refl) as E. cbn [app] in E. by rewrite E.
  - intros d m t Hd Hm IH. apply Hstart; [by apply vt_object|]. intros fuel q _ Hf. rewrite <- !app_assoc in Hf |- *. cbn [app ref_value] in Hf |- *.
    rewrite skip_token by done. rewrite Z.eqb_refl, (proj2 (Z.ltb_ge _ _)) by done. cbv match.
    unfold ref_bracketed. cbn [tail]. destruct (IH fuel fuel q) as [E1 E2]; [lengths..|]. cbn [app] in E1, E2. by rewrite E2, E1.
  - intros d v w t w' Hw Ht IH Hw' fuel fuel' q Hf Hf'. destruct fuel' as [|fuel']; [lia|]. rewrite <- !app_assoc in Hf |- *. cbn [app] in *.
    destruct (element_step fuel fuel' d v w t w' q (ch "]") Hw Ht IH Hw') as [E1 E2]; [done|lengths|by right|]. by rewrite E1, E2.
  - intros d v l w t w' r Hw Ht IH Hw' Hl IHl fuel fuel' q Hf Hf'. destruct fuel' as [|fuel']; [lia|]. rewrite <- !app_assoc in Hf, Hf' |- *. cbn [app] in *.
    destruct (element_step fuel fuel' d v w t w' (r ++ ch "]" :: q) (ch ",") Hw Ht IH Hw') as [E1 E2]; [done|lengths|by left|].
    rewrite E1, E2. destruct (IHl fuel fuel' q) as [E3 _]; [lengths..|]. cbn [app] in E3. cbn [Z.eqb]. change (ch "," =? ch "]") with false. cbv match.
    by rewrite E3.
  - intros d k v w kt w1 w2 t w' Hw Hk Hw1 Hw2 Ht IH Hw' fuel fuel' q Hf Hf'. destruct fuel' as [|fuel']; [lia|]. rewrite <- !app_assoc in Hf |- *. cbn [app] in *.
    destruct (member_step fuel fuel' d k v w kt w1 w2 t w' q (ch "}") Hw Hk Hw1 Hw2 Ht IH Hw') as [E1 E2]; [done|lengths|by right|]. cbn [app] in E1, E2. by rewrite E1, E2.
  - intros d k v m w kt w1 w2 t w' r Hw Hk Hw1 Hw2 Ht IH Hw' Hm IHm fuel fuel' q Hf Hf'. destruct fuel' as [|fuel']; [lia|].
    rewrite <- !app_assoc in Hf, Hf' |- *. cbn [app] in *.
    destruct (member_step fuel fuel' d k v w kt w1 w2 t w' (r ++ ch "}" :: q) (ch ",") Hw Hk Hw1 Hw2 Ht IH Hw') as [E1 E2]; [done|lengths|by left|].
    cbn [app] in E1, E2. rewrite E1, E2. destruct (IHm fuel fuel' q) as [E3 _]; [lengths..|]. cbn [app] in E3. change (ch "," =? ch "}") with false. cbv match.
    by rewrite E3.
Qed.

(** A byte string is the text of a value exactly if the reference reader takes all
    of it; so it is the text of at most one value. *)
Lemma json_text_iff v t : bytes_ok t ->
  json_text v t <-> exists q, ref_value (S (length t)) 0 t = Some (v, q) /\ ds4_skip_space q = [].
Proof.
  intros Ht. split.
  - intros (w & b & w' & Hw & Hv & Hw' & ->). exists w'. split.
    + destruct ref_value_complete as [H _]. apply (H 0 v b Hv); [done| |lengths].
      rewrite <- (app_nil_r w'). by apply value_end_ws.
    + rewrite <- (app_nil_r w'). by apply skip_ws.
  - intros (q & Hr & Hq). destruct (ref_value_sound _ _ _ _ _ Ht Hr) as (w & b & Hw & E & Hv).
    destruct (skip_space_split q) as (w' & Hw' & E'). rewrite Hq, app_nil_r in E'. subst q. by exists w, b, w'.
Qed.

Lemma json_text_unique v v' t : bytes_ok t -> json_text v t -> json_text v' t -> v = v'.
Proof. intros Ht (q & H & _)%json_text_iff (q' & H' & _)%json_text_iff; [congruence|done..]. Qed.

(** ** Depth, and objects that something follows *)

Lemma value_text_mono :
  (forall d v t, value_text d v t -> forall d', d' <= d -> value_text d' v t) /\
  (forall d l t, elements_text d l t -> forall d', d' <= d -> elements_text d' l t) /\
  (forall d m t, members_text d m t -> forall d', d' <= d -> members_text d' m t).
Proof.
  apply json_text_mutind; intros; try (by constructor); try (constructor; eauto with lia; lia);
    match goal with IH : forall d', _ -> elements_text _ _ _ |- value_text _ _ _ => apply vt_array
                  | IH : forall d', _ -> members_text _ _ _ |- value_text _ _ _ => apply vt_object end; eauto with lia.
Qed.

Lemma elements_mono value value' fuel fuel' p r :
  (forall p r, value p = Some r -> value' p = Some r) -> (fuel <= fuel')%nat ->
  ref_elements value fuel p = Some r -> ref_elements value' fuel' p = Some r.
Proof.
  intros Hv. revert fuel' p r. induction fuel as [|fuel IH]; intros fuel' p r Hf; [done|]. destruct fuel' as [|fuel']; [lia|]. cbn [ref_elements].
  intros H. apply bind_Some in H as ([v q] & E & H). rewrite (Hv _ _ E). cbn [mbind option_bind].
  destruct (ds4_skip_space q) as [|c p']; [done|]. destruct (c =? ch "]"); [done|]. destruct (negb _); [done|].
  apply bind_Some in H as ([l q'] & E' & H). by rewrite (IH fuel' _ _ ltac:(lia) E').
Qed.

Lemma members_mono value value' fuel fuel' p r :
  (forall k p r, value k p = Some r -> value' k p = Some r) -> (fuel <= fuel')%nat ->
  ref_members value fuel p = Some r -> ref_members value' fuel' p = Some r.
Proof.
  intros Hv. revert fuel' p r. induction fuel as [|fuel IH]; intros fuel' p r Hf; [done|]. destruct fuel' as [|fuel']; [lia|]. cbn [ref_members].
  intros H. apply bind_Some in H as ([k p1] & E & H). rewrite E. cbn [mbind option_bind]. destruct (negb _); [done|].
  apply bind_Some in H as ([v q] & E1 & H). rewrite (Hv _ _ _ E1). cbn [mbind option_bind].
  destruct (ds4_skip_space q) as [|c p']; [done|]. destruct (c =? ch "}"); [done|]. destruct (negb _); [done|].
  apply bind_Some in H as ([l q'] & E' & H). by rewrite (IH fuel' _ _ ltac:(lia) E').
Qed.

Lemma bracketed_mono {A} close (loop loop' : bytes -> option (list A * bytes)) p r :
  (forall p r, loop p = Some r -> loop' p = Some r) -> ref_bracketed close loop p = Some r -> ref_bracketed close loop' p = Some r.
Proof. intros H. unfold ref_bracketed. destruct (starts_at _ _); [done|apply H]. Qed.

Lemma ref_value_mono fuel fuel' d d' p r : (fuel <= fuel')%nat -> d' <= d -> ref_value fuel d p = Some r -> ref_value fuel' d' p = Some r.
Proof.
  revert fuel' d d' p r. induction fuel as [|fuel IH]; intros fuel' d d' p r Hf Hd; [done|]. destruct fuel' as [|fuel']; [lia|]. cbn [ref_value].
  destruct (ds4_skip_space p) as [|c q]; [done|].
  destruct (c =? ch "{").
  { destruct (Z.ltb_spec max_depth d); [done|]. rewrite (proj2 (Z.ltb_ge _ _)) by lia. intros Hv. apply bind_Some in Hv as ([m s] & E & Hv).
    eapply bracketed_mono in E; [rewrite E; exact Hv|]. intros ? ? Hm. eapply members_mono; [| |exact Hm]; [|lia].
    intros ? ? ?. apply IH; lia. }
  destruct (c =? ch "["); [|done].
  destruct (Z.ltb_spec max_depth d); [done|]. rewrite (proj2 (Z.ltb_ge _ _)) by lia. intros Hv. apply bind_Some in Hv as ([m s] & E & Hv).
  eapply bracketed_mono in E; [rewrite E; exact Hv|]. intros ? ? Hm. eapply elements_mono; [| |exact Hm]; [|lia]. intros ? ?. apply IH; lia.
Qed.

(** An object is read whatever follows it. *)
Lemma object_complete fuel d m t q :
  value_text d (JObject m) t -> (length (t ++ q) <= fuel)%nat ->
  ref_bracketed (ch "}") (ref_members (fun _ => ref_value fuel (d + 1)) fuel) (t ++ q) = Some (m, q).
Proof.
  intros Ht Hf. inversion Ht as [| | | | | | |d0 w Hd Hw|d0 m0 t0 Hd Hm]; subst.
  - rewrite <- !app_assoc. by apply ref_bracketed_nil.
  - destruct ref_value_complete as (_ & _ & H). rewrite <- !app_assoc in Hf |- *. cbn [app] in Hf |- *.
    destruct (H (d + 1) m t0 Hm fuel fuel q) as [E1 E2]; [cbn [length] in Hf; lengths..|]. unfold ref_bracketed. cbn [tail app] in *. by rewrite E2.
Qed.
