(* ===== verification/GroundingSim.v ===== *)
(** * GroundingSim: the crawl parsers read what the reference reader reads

    Every parser either does to its state what the value read says, fails where
    there is no value or the value is not acceptable, or fails because the
    allocator refused. *)

From S2P Require Import Prelude Ctype KvStore Strtod Json JsonFacts DynBuf TcLines Grounding JsonRead.

(** The bytes a decoded string stores. *)
Definition str_bytes (s : list Z) : bytes := flat_map (fun cp => if cp =? 0 then [] else utf8_put cp) s.

Definition is_error {A} (r : parsed A) : Prop := exists msg q, r = PErr msg q.

Section sim.
Context (mem : Z -> bool) (text : bytes).
Context (Htext : bytes_ok text) (Hsize : zlen text < 2 ^ 60).
#[local] Set Default Proof Using "All".

(** [p] is what remains of the text. *)
Definition rest (p : bytes) : Prop := p `suffix_of` text.

Lemma rest_app a p : rest (a ++ p) -> rest p.
Proof using. apply suffix_app_l. Qed.

Lemma rest_ok p : rest p -> bytes_ok p /\ zlen p < 2 ^ 60.
Proof.
  intros [k E]. rewrite E in *. apply Forall_app in Htext. rewrite zlen_app in Hsize. pose proof (zlen_nonneg k). split; [tauto|lia].
Qed.

(** The outcome [r] against what the reference reader gives, [k] being what the
    value does to the abstract state [t] ([None]: not acceptable). *)
Definition sim {A S T} (R : S -> T -> Prop) (r : parsed S) (ref : option (A * bytes)) (k : A -> T -> option T) (t : T) : Prop :=
  match ref with
  | Some (a, q) =>
      match k a t with
      | Some t' => exists s', r = POk s' q /\ R s' t'
      | None => is_error r
      end
  | None => is_error r
  end \/ is_error r /\ refused mem.

(** A string as it is kept. *)
Definition string_rep (s : ds4_string) (cps : list Z) : Prop :=
  ds_rep s (str_bytes cps) /\ ds_nul s = bool_decide (0 ∈ cps).

Definition key_rep (want : bool) (key : option ds4_string) (cps : list Z) : Prop :=
  if want then exists s, key = Some s /\ string_rep s cps /\ is_Some (ds_data s) else key = None.

(** A string that is being read. *)
Definition partial_rep (want : bool) (d : option ds4_string) (cps : list Z) : Prop :=
  if want then exists s, d = Some s /\ string_rep s cps else d = None.

Lemma encode_is_utf8 cp : encode_codepoint cp = utf8_put cp.
Proof using. reflexivity. Qed.

Lemma add_text_sim want d cps data x p :
  partial_rep want d cps -> str_bytes (cps ++ [x]) = str_bytes cps ++ data -> x <> 0 -> zlen (str_bytes cps) + zlen data < 2 ^ 61 ->
  (exists d', add_text mem d data p = POk d' p /\ partial_rep want d' (cps ++ [x])) \/ is_error (add_text mem d data p) /\ refused mem.
Proof using.
  intros Hd Hx H0 Hz. destruct want; cbn in Hd.
  - destruct Hd as (s & -> & Hs & Hn). cbn [add_text]. pose proof (ds_append_spec mem s _ data Hs Hz) as H.
    destruct (ds4_string_append mem s data) as [msg|s']; [right; split; [by do 2 eexists|done]|]. left. eexists. split; [done|].
    destruct H as (H1 & H2 & _). exists s'. split; [done|]. split; [by rewrite Hx|]. rewrite H2, Hn. apply bool_decide_ext.
    rewrite elem_of_app, list_elem_of_singleton. split; [auto|]. intros [|]; [done|congruence].
  - subst d. left. by exists None.
Qed.

(** ** Strings *)

Definition char_bytes (cp : Z) : bytes := if cp =? 0 then [] else utf8_put cp.

Lemma str_bytes_app s cp : str_bytes (s ++ [cp]) = str_bytes s ++ char_bytes cp.
Proof using. unfold str_bytes, char_bytes. rewrite flat_map_app. cbn. by rewrite app_nil_r. Qed.

Lemma put_nul want d cps : partial_rep want d cps -> partial_rep want (set_nul <$> d) (cps ++ [0]).
Proof using.
  destruct want; cbn; [|by intros ->]. intros (s & -> & Hs & Hn). exists (set_nul s). split; [done|]. split.
  - rewrite str_bytes_app, app_nil_r. exact Hs.
  - cbn. symmetry. apply bool_decide_eq_true. apply elem_of_app. right. by apply list_elem_of_singleton.
Qed.

(** One character of the code, when the reference reader has one. *)
Lemma append_sim want d cps cp p :
  partial_rep want d cps -> zlen (str_bytes cps) + zlen (utf8_put cp) < 2 ^ 61 ->
  (exists d', ds4_append_codepoint mem d cp p = POk d' p /\ partial_rep want d' (cps ++ [cp])) \/
  is_error (ds4_append_codepoint mem d cp p) /\ refused mem.
Proof using.
  intros Hd Hz. unfold ds4_append_codepoint. destruct (Z.eqb_spec cp 0) as [->|H0].
  - left. eexists. split; [done|]. by apply put_nul.
  - rewrite encode_is_utf8. apply add_text_sim; try done. rewrite str_bytes_app. unfold char_bytes. by rewrite (proj2 (Z.eqb_neq _ _)).
Qed.

Lemma put_length cp : 1 <= zlen (utf8_put cp) <= 4.
Proof using. unfold utf8_put. repeat case_match; unfold zlen; cbn; lia. Qed.

(** What one turn of the loop does. *)
Definition char_step (want : bool) (d : option ds4_string) (cps : list Z) (p : bytes) (r : parsed (option ds4_string))
    (next : option ds4_string -> bytes -> parsed (option ds4_string)) : Prop :=
  match ref_char p with
  | Some (cp, q) => (exists d', r = next d' q /\ partial_rep want d' (cps ++ [cp])) \/ is_error r /\ refused mem
  | None => is_error r
  end.

Lemma bind_step want cps cp p q (next k : option ds4_string -> bytes -> parsed (option ds4_string))
    (m : parsed (option ds4_string)) :
  (forall d', k d' p = next d' q) ->
  (exists d', m = POk d' p /\ partial_rep want d' (cps ++ [cp])) \/ is_error m /\ refused mem ->
  (exists d', pbind m k = next d' q /\ partial_rep want d' (cps ++ [cp])) \/ is_error (pbind m k) /\ refused mem.
Proof using.
  intros Hk [(d' & -> & Hd)|[(msg & x & ->) Hr]]; [left|right]; cbn; [exists d'; by rewrite Hk|]. split; [by do 2 eexists|done].
Qed.

Ltac fails := do 2 eexists; reflexivity.

Lemma unicode_fuel p : parse_unicode_escape p <> PNoFuel.
Proof using.
  unfold parse_unicode_escape, ds4_parse_hex4, pbind. repeat (case_match; simplify_eq; try done).
Qed.

Lemma string_step want fuel d cps p :
  rest p -> partial_rep want d cps -> zlen (str_bytes cps) + zlen p < 2 ^ 61 - 4 -> p <> [] -> starts_at 34 p = false ->
  char_step want d cps p (string_loop mem (S fuel) d p) (string_loop mem fuel).
Proof.
  intros Hp Hd Hz Hne Hq. apply rest_ok in Hp as [Hok _]. destruct p as [|c p1]; [done|]. cbn [starts_at] in Hq. unfold char_step.
  cbn [string_loop ref_char]. rewrite Hq. destruct (Z.ltb_spec c 32) as [H32|H32]; [fails|].
  pose proof (zlen_nonneg (str_bytes cps)) as Hz0. rewrite zlen_cons in Hz. pose proof (zlen_nonneg p1).
  destruct (Z.eqb_spec c 92) as [->|H92].
  - destruct p1 as [|e p2]; [fails|]. destruct (escaped_char e) as [x|] eqn:Ee.
    { apply bind_step with (p := p2); [done|]. assert (Hx : 0 < x < 128).
      { apply escaped_char_iff in Ee. unfold short_escapes in Ee. repeat (apply elem_of_cons in Ee as [Ee|Ee]; [by injection Ee as -> ->|]).
        by apply elem_of_nil in Ee. }
      apply add_text_sim; [done| |lia|unfold zlen at 2; cbn; lia]. rewrite str_bytes_app. unfold char_bytes, utf8_put.
      rewrite (proj2 (Z.eqb_neq _ _)), (proj2 (Z.leb_le x 127)) by lia. do 2 f_equal. apply wrap_small. unfold in_u. lia. }
    destruct (e =? ch "u"); [|fails]. destruct (parse_unicode_escape p2) as [cp q|msg q|] eqn:Eu; cbn [pbind]; [|fails|].
    + apply bind_step with (p := q); [done|]. apply append_sim; [done|]. pose proof (put_length cp). lia.
    + by apply unicode_fuel in Eu.
  - apply Forall_cons_iff in Hok as Hok'. destruct Hok' as [Hc _]. unfold byte_ok in Hc.
    destruct (Z.leb_spec 128 c) as [H128|H128].
    + destruct (ds4_raw_utf8_length (c :: p1)) as [|n] eqn:En.
      { rewrite take_0. cbn [utf8_decode mbind option_bind]. fails. }
      apply raw_some in En as [Hl Hv]; [|done]. destruct (utf8_decode (take (S n) (c :: p1))) as [v|] eqn:Ev; [|done]. cbn [mbind option_bind].
      change (drop n p1) with (drop (S n) (c :: p1)).
      apply bind_step with (p := p1); [done|].
      pose proof (utf8_put_decode _ _ Ev) as Hput. cbn [take] in Ev, Hput. apply utf8_decode_head in Ev as Hv1.
      change (c :: take n p1) with (take (S n) (c :: p1)) in Hput. apply add_text_sim; [done| |lia|].
      * rewrite str_bytes_app. unfold char_bytes. rewrite (proj2 (Z.eqb_neq _ _)) by lia. by rewrite Hput.
      * rewrite <- Hput. pose proof (put_length v). lia.
    + cbn [ds4_raw_utf8_length]. rewrite (proj2 (Z.ltb_lt c 128)) by lia. cbn [take utf8_decode].
      rewrite (proj2 (Z.leb_le 0 c)), (proj2 (Z.ltb_lt c 128)) by lia. cbn [andb mbind option_bind drop].
      apply bind_step with (p := p1); [done|]. apply add_text_sim; [done| |lia|unfold zlen at 2; cbn; lia].
      rewrite str_bytes_app. unfold char_bytes, utf8_put. rewrite (proj2 (Z.eqb_neq _ _)), (proj2 (Z.leb_le c 127)) by lia.
      do 2 f_equal. apply wrap_small. unfold in_u. lia.
Qed.

Lemma char_bytes_le cp t : char_text cp t -> zlen (char_bytes cp) <= zlen t.
Proof using.
  assert (H4 : zlen (char_bytes cp) <= 4) by (unfold char_bytes; destruct (cp =? 0); [done|]; pose proof (put_length cp); lia).
  destruct 1 as [cp t Hd _ _ _|e cp He|cp h [Hl _] _|hi lo h k [Hl _] [Hk _] _ _].
  - unfold char_bytes. rewrite (utf8_put_decode _ _ Hd). destruct (cp =? 0); [apply zlen_nonneg|lia].
  - change (zlen [92; e]) with 2. unfold char_bytes. assert (Hx : 0 < cp < 128).
    { unfold short_escapes in He. repeat (apply elem_of_cons in He as [He|He]; [by injection He as -> ->|]). by apply elem_of_nil in He. }
    unfold utf8_put. rewrite (proj2 (Z.eqb_neq _ _)), (proj2 (Z.leb_le cp 127)) by lia. done.
  - rewrite zlen_app. unfold zlen at 2 3. rewrite Hl. cbn. lia.
  - rewrite !zlen_app. unfold zlen at 2 3 4 5. rewrite Hl. cbn. lia.
Qed.

Lemma ref_char_behind p cp q : rest p -> starts_at 34 p = false -> ref_char p = Some (cp, q) ->
  rest q /\ zlen (char_bytes cp) + zlen q <= zlen p /\ (length q < length p)%nat.
Proof.
  intros Hp Hq H. destruct (ref_char_sound p cp q (proj1 (rest_ok p Hp)) Hq H) as (t & -> & Ht).
  pose proof (char_bytes_le _ _ Ht). pose proof (char_text_length _ _ Ht). rewrite zlen_app, length_app. split_and!; [by eapply rest_app|lia|lia].
Qed.

(** The result of reading a string. *)
Definition string_sim (want : bool) (cps : list Z) (r : parsed (option ds4_string)) (ref : option (list Z * bytes)) : Prop :=
  match ref with
  | Some (s, q) => exists key, r = POk key q /\ key_rep want key (cps ++ s)
  | None => is_error r
  end \/ is_error r /\ refused mem.

Lemma string_loop_sim want fuel fuel' d cps p :
  rest p -> partial_rep want d cps -> zlen (str_bytes cps) + zlen p < 2 ^ 61 - 4 ->
  (length p < fuel)%nat -> (length p < fuel')%nat ->
  string_sim want cps (string_loop mem fuel d p) (ref_chars fuel' p).
Proof.
  revert fuel' d cps p. induction fuel as [|fuel IH]; intros fuel' d cps p Hp Hd Hz Hf Hf'; [lia|]. destruct fuel' as [|fuel']; [lia|].
  cbn [ref_chars]. destruct (starts_at 34 p) eqn:Eq.
  - apply starts_at_cons in Eq. rewrite Eq in *. cbn [string_loop tail Z.eqb Pos.eqb]. unfold string_sim. destruct want; cbn in Hd.
    + destruct Hd as (s & -> & Hs & Hn). destruct (ds_data s) as [blk|] eqn:Ed.
      * left. eexists. split; [done|]. rewrite app_nil_r. exists s. split; [done|]. split; [done|]. by rewrite Ed.
      * cbn [add_text]. pose proof (ds_append_spec mem s _ [] Hs ltac:(rewrite zlen_nil; pose proof (zlen_nonneg (34 :: tail p)); lia)) as H.
        destruct (ds4_string_append mem s []) as [msg|s']; [right; split; [fails|done]|]. left. eexists. split; [done|].
        destruct H as (H1 & H2 & H3). rewrite app_nil_r in H1 |- *. exists s'. split; [done|]. split; [|done]. split; [done|congruence].
    + left. exists None. by rewrite app_nil_r, Hd.
  - destruct p as [|c p1]; [left; cbn; fails|]. set (p := c :: p1) in *.
    pose proof (string_step want fuel d cps p Hp Hd Hz ltac:(done) Eq) as Hs. unfold char_step in Hs.
    destruct (ref_char p) as [[cp q]|] eqn:Er; cbn [mbind option_bind]; [|by left].
    destruct Hs as [(d' & -> & Hd')|Hs]; [|by right]. destruct (ref_char_behind _ _ _ Hp Eq Er) as (Hq & Hc & Hl).
    specialize (IH fuel' d' (cps ++ [cp]) q Hq Hd'). rewrite str_bytes_app, zlen_app in IH. specialize (IH ltac:(lia) ltac:(lia) ltac:(lia)).
    destruct IH as [H|H]; [left|by right]. destruct (ref_chars fuel' q) as [[s q']|]; [|done]. cbn [mbind option_bind].
    by rewrite <- app_assoc in H.
Qed.

Lemma parse_string_sim want p : rest p -> string_sim want [] (ds4_parse_string mem want p) (ref_string p).
Proof.
  intros Hp. unfold ds4_parse_string, ref_string. destruct p as [|c p]; [left; fails|]. cbn [starts_at tail].
  destruct (c =? 34); [|left; fails]. assert (Hp' : rest p) by by apply (rest_app [c]).
  apply string_loop_sim; try done; cbn [length]; try lia.
  - destruct want; [|done]. exists ds4_string_zero. split; [done|]. split; [apply ds_rep_zero|done].
  - apply rest_ok in Hp' as [_ Hp']. change (zlen (str_bytes [])) with 0. lia.
Qed.

Lemma ref_string_behind p s q : rest p -> ref_string p = Some (s, q) -> rest q /\ (length q < length p)%nat.
Proof.
  intros Hp H. destruct (ref_string_sound p s q (proj1 (rest_ok p Hp)) H) as (t & -> & (b & _ & ->)). split; [by eapply rest_app|].
  rewrite !length_app. cbn. lia.
Qed.

Lemma char_scalar cp t : char_text cp t -> scalar cp.
Proof using.
  unfold scalar. destruct 1 as [cp t Hd _ _ _|e cp He|cp h Hh Hn|hi lo h k _ _ Hhi Hlo].
  - destruct t as [|c [|d [|e [|f [|? ?]]]]]; cbn in Hd; try done; destruct (_ && _) eqn:E in Hd; try done; injection Hd as <-;
      unfold is_high, is_low in E; rewrite ?andb_true_iff, ?negb_true_iff, ?orb_false_iff, ?andb_false_iff, ?Z.leb_le, ?Z.ltb_lt, ?Z.leb_gt in E; lia.
  - unfold short_escapes in He. repeat (apply elem_of_cons in He as [He|He]; [injection He as -> ->; left; done|]). by apply elem_of_nil in He.
  - apply hex_text_range in Hh. lia.
  - lia.
Qed.

Lemma chars_scalar s b : chars_text s b -> Forall scalar s.
Proof using. induction 1 as [|cp s' t r Ht _ IH]; constructor; [by eapply char_scalar|done]. Qed.

Lemma ref_string_scalar p s q : rest p -> ref_string p = Some (s, q) -> Forall scalar s.
Proof.
  intros Hp H. destruct (ref_string_sound p s q (proj1 (rest_ok p Hp)) H) as (t & _ & (b & Hb & _)). by eapply chars_scalar.
Qed.

(** ** Arrays and objects *)

(** What a list of values does, one after the other. *)
Fixpoint fold_k {A T} (k : A -> T -> option T) (l : list A) (t : T) : option T :=
  match l with
  | [] => Some t
  | a :: l' => t ← k a t; fold_k k l' t
  end.

Lemma bind_error {A B} (m : parsed A) (k : A -> bytes -> parsed B) : is_error m -> is_error (pbind m k).
Proof using. intros (msg & q & ->). cbn. fails. Qed.

(** As [sim], but where what follows cannot follow a value the state may be any:
    the caller fails then. *)
Definition sim_end {A S T} (R : S -> T -> Prop) (r : parsed S) (ref : option (A * bytes)) (k : A -> T -> option T) (t : T) : Prop :=
  match ref with
  | Some (a, q) =>
      match k a t with
      | Some t' => exists s', r = POk s' q /\ (R s' t' \/ ~ value_end q)
      | None => is_error r
      end
  | None => is_error r
  end \/ is_error r /\ refused mem.

Lemma sim_sim_end {A S T} (R : S -> T -> Prop) r (ref : option (A * bytes)) k t : sim R r ref k t -> sim_end R r ref k t.
Proof using mem.
  intros [H|H]; [left|by right]. destruct ref as [[a q]|]; [|done]. destruct (k a t); [|done]. destruct H as (s & E & H). exists s. auto.
Qed.

Lemma not_value_end q : ~ value_end q -> exists c p, q = c :: p /\ ds4_skip_space q = q /\ (c =? ch "]") = false /\ (c =? ch "}") = false /\ (c =? ch ",") = false.
Proof using mem.
  destruct q as [|c p]; cbn [value_end]; [tauto|]. intros H. exists c, p. rewrite !Z.eqb_neq. split_and!; try tauto.
  apply skip_token. cbn. destruct (is_json_space c); [tauto|done].
Qed.

(** A reader of the reference grammar goes forward. *)
Definition forward {A} (value : bytes -> option (A * bytes)) : Prop :=
  forall p a q, rest p -> value p = Some (a, q) -> rest q /\ (length q <= length p)%nat.

Lemma rest_skip p : rest p -> rest (ds4_skip_space p) /\ (length (ds4_skip_space p) <= length p)%nat.
Proof using.
  intros Hp. destruct (skip_space_split p) as (w & _ & E). split; [rewrite E in Hp; by eapply rest_app|].
  unfold ds4_skip_space. rewrite length_drop. lia.
Qed.

Lemma rest_tail c p : rest (c :: p) -> rest p.
Proof using. apply (rest_app [c]). Qed.

Lemma array_loop_sim {S T} (R : S -> T -> Prop) elem value (k : json -> T -> option T) m1 m2 n :
  forward value ->
  (forall p s t, rest p -> token p -> (length p < n)%nat -> R s t -> sim_end R (elem p s) (value p) k t) ->
  forall fuel fuel' p s t, rest p -> token p -> (length p < n)%nat -> (length p < fuel)%nat -> (length p < fuel')%nat -> R s t ->
    sim R (array_loop elem m1 m2 fuel p s) (ref_elements value fuel' p) (fold_k k) t.
Proof using.
  intros Hfw Helem. induction fuel as [|fuel IH]; intros fuel' p s t Hp Htk Hn Hf Hf' Hr; [lia|]. destruct fuel' as [|fuel']; [lia|].
  cbn [array_loop ref_elements]. destruct (Helem p s t Hp Htk Hn Hr) as [H|[He Href]]; [|right; split; [by apply bind_error|done]].
  destruct (value p) as [[v q]|] eqn:Ev; cbn [mbind option_bind]; [|left; by apply bind_error].
  destruct (Hfw p v q Hp Ev) as [Hq Hlq]. destruct (rest_skip q Hq) as [Hsq Hls].
  assert (Hgo : forall c p', ds4_skip_space q = c :: p' -> rest (ds4_skip_space p') /\ (length (ds4_skip_space p') < length p)%nat).
  { intros c p' E. rewrite E in Hsq, Hls. apply rest_tail, rest_skip in Hsq as [H1 H2]. cbn in Hls. split; [done|lia]. }
  destruct (k v t) as [t1|] eqn:Ek.
  - destruct H as (s1 & -> & [H1|H1]); cbn [pbind].
    2: { left. apply not_value_end in H1 as (c & p' & -> & -> & -> & _ & ->). fails. }
    destruct (ds4_skip_space q) as [|c p']; [left; fails|].
    destruct (c =? ch "]").
    { left. cbn. rewrite Ek. cbn. by exists s1. }
    destruct (c =? ch ","); cbn [negb]; [|left; fails]. destruct (Hgo c p' eq_refl) as [H2 H3].
    destruct (IH fuel' (ds4_skip_space p') s1 t1 H2 (skip_is_token p') ltac:(lia) ltac:(lia) ltac:(lia) H1) as [H4|H4]; [left|by right].
    destruct (ref_elements value fuel' (ds4_skip_space p')) as [[l q']|]; [|done]. cbn. by rewrite Ek.
  - left. assert (He : is_error (pbind (elem p s) (fun s p => match ds4_skip_space p with
        | [] => PErr m1 []
        | c :: p' => if c =? ch "]" then POk s p' else if negb (c =? ch ",") then PErr m2 p'
                     else array_loop elem m1 m2 fuel (ds4_skip_space p') s end))) by by apply bind_error.
    destruct (ds4_skip_space q) as [|c p']; [done|]. destruct (c =? ch "]"); [cbn; by rewrite Ek|].
    destruct (c =? ch ","); cbn [negb]; [|done]. destruct (ref_elements _ _ _) as [[l q']|]; cbn; [by rewrite Ek|done].
Qed.

(** A field of an object does something with its key. *)
Lemma object_loop_sim {S T} (R : S -> T -> Prop) want field value (k : list Z * json -> T -> option T) m0 m1 m2 n :
  (forall cps, forward (value cps)) ->
  (forall key cps p s t, rest p -> token p -> (length p < n)%nat -> key_rep want key cps -> Forall scalar cps -> R s t ->
     sim_end R (field key p s) (value cps p) (fun v => k (cps, v)) t) ->
  forall fuel fuel' p s t, rest p -> (length p < n)%nat -> (length p < fuel)%nat -> (length p < fuel')%nat -> R s t ->
    sim R (object_loop mem want field m0 m1 m2 fuel p s) (ref_members value fuel' p) (fold_k k) t.
Proof.
  intros Hfw Hfield. induction fuel as [|fuel IH]; intros fuel' p s t Hp Hn Hf Hf' Hr; [lia|]. destruct fuel' as [|fuel']; [lia|].
  cbn [object_loop ref_members]. destruct (parse_string_sim want p Hp) as [Hk|[He Href]]; [|right; split; [by apply bind_error|done]].
  destruct (ref_string p) as [[cps p1]|] eqn:Es; cbn [mbind option_bind]; [|left; by apply bind_error].
  destruct Hk as (key & -> & Hkey). cbn [pbind app] in *. destruct (ref_string_behind _ _ _ Hp Es) as [Hp1 Hl1].
  destruct (rest_skip p1 Hp1) as [Hp2 Hl2]. destruct (starts_at (ch ":") (ds4_skip_space p1)) eqn:Ec; cbn [negb]; [|left; fails].
  apply starts_at_cons in Ec. rewrite Ec in Hp2, Hl2. apply rest_tail in Hp2. cbn [length] in Hl2. set (p2 := tail (ds4_skip_space p1)) in *.
  destruct (rest_skip p2 Hp2) as [Hp3 Hl3]. set (p3 := ds4_skip_space p2) in *.
  destruct (Hfield key cps p3 s t Hp3 (skip_is_token p2) ltac:(lia) Hkey (ref_string_scalar _ _ _ Hp Es) Hr) as [H|[He Href]]; [|right; split; [by apply bind_error|done]].
  destruct (value cps p3) as [[v q]|] eqn:Ev; cbn [mbind option_bind]; [|left; by apply bind_error].
  destruct (Hfw cps p3 v q Hp3 Ev) as [Hq Hlq]. destruct (rest_skip q Hq) as [Hsq Hls].
  assert (Hgo : forall c p', ds4_skip_space q = c :: p' -> rest (ds4_skip_space p') /\ (length (ds4_skip_space p') < length p)%nat).
  { intros c p' E. rewrite E in Hsq, Hls. apply rest_tail, rest_skip in Hsq as [H1 H2]. cbn in Hls. split; [done|lia]. }
  destruct (k (cps, v) t) as [t1|] eqn:Ek.
  - destruct H as (s1 & -> & [H1|H1]); cbn [pbind].
    2: { left. apply not_value_end in H1 as (c & p' & -> & -> & _ & -> & ->). fails. }
    destruct (ds4_skip_space q) as [|c p']; [left; fails|].
    destruct (c =? ch "}").
    { left. cbn. rewrite Ek. cbn. by exists s1. }
    destruct (c =? ch ","); cbn [negb]; [|left; fails]. destruct (Hgo c p' eq_refl) as [H2 H3].
    destruct (IH fuel' (ds4_skip_space p') s1 t1 H2 ltac:(lia) ltac:(lia) ltac:(lia) H1) as [H4|H4]; [left|by right].
    destruct (ref_members value fuel' (ds4_skip_space p')) as [[l q']|]; [|done]. cbn. by rewrite Ek.
  - left. match goal with |- context [pbind (field key p3 s) ?K] => assert (He : is_error (pbind (field key p3 s) K)) by by apply bind_error end.
    destruct (ds4_skip_space q) as [|c p']; [done|]. destruct (c =? ch "}"); [cbn; by rewrite Ek|].
    destruct (c =? ch ","); cbn [negb]; [|done]. destruct (ref_members _ _ _) as [[l q']|]; cbn; [by rewrite Ek|done].
Qed.

Lemma bracketed_sim {A S T} (R : S -> T -> Prop) close (loop : bytes -> S -> parsed S) (ref : bytes -> option (list A * bytes)) k c p s t :
  rest (c :: p) -> R s t ->
  (forall p', rest p' -> token p' -> (length p' <= length p)%nat -> sim R (loop p' s) (ref p') (fold_k k) t) ->
  sim R (bracketed close loop (c :: p) s) (ref_bracketed close ref (c :: p)) (fold_k k) t.
Proof using.
  intros Hp Hr H. unfold bracketed, ref_bracketed. cbn [tail]. apply rest_tail, rest_skip in Hp as [Hp Hl].
  destruct (starts_at close (ds4_skip_space p)); [|apply H; [done|apply skip_is_token|done]]. left. cbn. by exists s.
Qed.

(** ** Values that are skipped *)

Definition keep {A T} (_ : A) (t : T) : option T := Some t.
Definition nothing {S T} (_ : S) (_ : T) : Prop := True.

Lemma fold_keep {A T} (l : list A) (t : T) : fold_k keep l t = Some t.
Proof using. induction l; [done|]. exact IHl. Qed.

Lemma sim_fold_keep {A S T} (R : S -> T -> Prop) r (ref : option (list A * bytes)) t : sim R r ref (fold_k keep) t -> sim R r ref keep t.
Proof using. destruct ref as [[l q]|]; [|done]. unfold sim. by rewrite fold_keep. Qed.

Lemma ref_value_forward fuel d : forward (ref_value fuel d).
Proof.
  intros p v q Hp H. destruct (ref_value_sound _ _ _ _ _ (proj1 (rest_ok p Hp)) H) as (w & t & _ & -> & _).
  split; [by apply rest_app in Hp; apply rest_app in Hp|]. rewrite !length_app. lia.
Qed.

Lemma skipped_sim {A B} (r : parsed unit) (ref : option (A * bytes)) (f : A -> B) :
  sim nothing r ref keep tt -> sim nothing r (match ref with Some (a, q) => Some (f a, q) | None => None end) keep tt.
Proof using. by destruct ref as [[a q]|]. Qed.

Lemma literal_sim v p lit : sim nothing (ds4_parse_literal p lit) (ref_literal v p lit) keep tt.
Proof using.
  left. unfold ds4_parse_literal, ref_literal. destruct (strip_prefix lit p) as [q|]; cbn; [by exists tt|fails].
Qed.

Lemma value_sim fuel fuel' d p : rest p -> (length p < fuel)%nat -> (length p < fuel')%nat ->
  sim nothing (ds4_parse_value mem fuel d p) (ref_value fuel' d p) keep tt.
Proof.
  revert fuel' d p. induction fuel as [|fuel IH]; intros fuel' d p Hp Hf Hf'; [lia|]. destruct fuel' as [|fuel']; [lia|].
  cbn [ds4_parse_value ref_value]. destruct (rest_skip p Hp) as [Hsp Hls]. destruct (ds4_skip_space p) as [|c p1]; [left; fails|].
  cbn [length] in Hls. assert (Hnum : sim nothing (ds4_parse_number (c :: p1))
    (match ds4_parse_number (c :: p1) with POk _ q => Some (JNumber (take (length (c :: p1) - length q) (c :: p1)), q) | _ => None end) keep tt).
  { left. destruct (ds4_parse_number (c :: p1)) as [u q|msg q|] eqn:En; cbn; [by exists tt; destruct u|fails|].
    exfalso. revert En. unfold ds4_parse_number, skip_digits, pbind. repeat (case_match; simplify_eq; try done). }
  destruct (c =? ch "{").
  { unfold ds4_parse_object. change DS4_JSON_MAX_DEPTH with max_depth. destruct (max_depth <? d); [left; fails|].
    apply (skipped_sim _ _ JObject), sim_fold_keep, bracketed_sim; [done|done|]. intros p' Hp' Htk Hl'.
    apply (object_loop_sim nothing) with (n := Datatypes.S (length p1)); try done; try lia; [intros; apply ref_value_forward|].
    intros key cps q s t Hq _ Hn _ _ _. destruct t. apply sim_sim_end, IH; [done|lia..]. }
  destruct (c =? ch "[").
  { unfold ds4_parse_array. change DS4_JSON_MAX_DEPTH with max_depth. destruct (max_depth <? d); [left; fails|].
    apply (skipped_sim _ _ JArray), sim_fold_keep, bracketed_sim; [done|done|]. intros p' Hp' Htk Hl'.
    apply (array_loop_sim nothing) with (n := Datatypes.S (length p1)); try done; try lia; [apply ref_value_forward|].
    intros q s t Hq _ Hn _. destruct t. apply sim_sim_end, IH; [done|lia..]. }
  destruct (c =? 34).
  { destruct (parse_string_sim false (c :: p1) Hsp) as [H|[He Href]]; [left|right; split; [by apply bind_error|done]].
    destruct (ref_string (c :: p1)) as [[s q]|]; cbn [mbind option_bind]; [|by apply bind_error]. destruct H as (key & -> & _). by exists tt. }
  destruct (c =? ch "t"); [apply literal_sim|]. destruct (c =? ch "f"); [apply literal_sim|]. destruct (c =? ch "n"); [apply literal_sim|].
  destruct (_ || _); [exact Hnum|left; fails].
Qed.

(** A value that is skipped leaves the state alone. *)
Lemma skip_sim {S T} (R : S -> T -> Prop) fuel d p s t :
  rest p -> (length p < fuel)%nat -> R s t ->
  sim R (pbind (parse_value mem d p) (fun _ p => POk s p)) (ref_value fuel d p) keep t.
Proof.
  intros Hp Hf Hr. destruct (value_sim (Datatypes.S (length p)) fuel d p Hp ltac:(lia) Hf) as [H|[He Href]]; [left|right; split; [by apply bind_error|done]].
  unfold parse_value. destruct (ref_value fuel d p) as [[v q]|]; cbn in *; [|by apply bind_error]. destruct H as (u & -> & _). by exists s.
Qed.
End sim.
