(* ===== verification/GroundingPages.v ===== *)
(** * GroundingPages: the excerpt of the crawled pages

    What a manifest says its pages are, and that the text handed out is the longest
    run of whole characters of them that fits, pages apart by the separator. *)

From S2P Require Import Prelude Ctype KvStore Strtod Json JsonFacts DynBuf TcLines Grounding JsonRead GroundingSim.

(** ** What a manifest says *)

(** The last string under a name. *)
Definition last_string (name : list Z) (m : list (list Z * json)) : option (list Z) :=
  fold_left (fun acc kv => match kv with
    | (k, JString s) => if bool_decide (k = name) then Some s else acc
    | _ => acc
    end) m None.

(** The text of a page that was fetched. *)
Definition page_content (m : list (list Z * json)) : option (list Z) :=
  if bool_decide (last_string (bs "state") m = Some (bs "succeeded")) then last_string (bs "content") m else None.

Definition array_contents (l : list json) : list (list Z) :=
  flat_map (fun v => match v with JObject m => match page_content m with Some s => [s] | None => [] end | _ => [] end) l.

Definition page_contents (v : json) : list (list Z) :=
  match v with
  | JObject m => flat_map (fun kv => match kv with
      | (k, JArray l) => if bool_decide (k = bs "pages") then array_contents l else []
      | _ => []
      end) m
  | _ => []
  end.

Definition blank (s : list Z) : bool := forallb is_blank s.

Definition manifest_pages (v : json) : list (list Z) := List.filter (fun s => negb (blank s)) (page_contents v).

(** A page whose text has a NUL cannot be handed out as a C string. *)
Definition readable (v : json) : Prop := Forall (fun s => 0 ∉ s) (page_contents v).

(** ** Excerpts *)

Definition utf8s (s : list Z) : bytes := flat_map utf8_put s.

(** The pages one after the other. *)
Definition join_pages (ps : list (list Z)) : list Z :=
  match ps with
  | [] => []
  | p :: ps => p ++ flat_map (fun q => page_separator ++ q) ps
  end.

(** What comes before a further page. *)
Definition before_page (ps : list (list Z)) : list Z := flat_map (fun p => p ++ page_separator) ps.

(** Where the text may end: nowhere inside a separator nor right behind one. *)
Definition cut (ps : list (list Z)) (r : list Z) : Prop :=
  r = [] \/ exists before p after pre post,
    ps = before ++ p :: after /\ p = pre ++ post /\ pre <> [] /\ r = before_page before ++ pre.

(** The longest text of at most [max] bytes. *)
Definition excerpt (max : Z) (ps : list (list Z)) (r : list Z) : Prop :=
  cut ps r /\ zlen (utf8s r) <= max /\ forall r', cut ps r' -> zlen (utf8s r') <= max -> zlen (utf8s r') <= zlen (utf8s r).

Lemma utf8s_app a b : utf8s (a ++ b) = utf8s a ++ utf8s b.
Proof. apply flat_map_app. Qed.

Lemma before_app a b : before_page (a ++ b) = before_page a ++ before_page b.
Proof. apply flat_map_app. Qed.

Lemma join_snoc ps p : join_pages (ps ++ [p]) = before_page ps ++ p.
Proof.
  destruct ps as [|q ps]; [apply app_nil_r|]. cbn [join_pages app]. revert q. induction ps as [|x ps IH]; intros q.
  - unfold before_page. cbn [flat_map app]. by rewrite !app_nil_r, <- app_assoc.
  - cbn [app flat_map]. rewrite <- (app_assoc page_separator), (IH x). unfold before_page. cbn [flat_map]. by rewrite <- !app_assoc.
Qed.

Lemma before_join ps : ps <> [] -> before_page ps = join_pages ps ++ page_separator.
Proof.
  intros H. destruct (destruct_list_last ps) as [->|(p & ps' & ->)]; [done|]. rewrite join_snoc, before_app. cbn. by rewrite app_nil_r, app_assoc.
Qed.

Lemma zlen_utf8s_app a b : zlen (utf8s (a ++ b)) = zlen (utf8s a) + zlen (utf8s b).
Proof. by rewrite utf8s_app, zlen_app. Qed.

Lemma cut_snoc ps p r : cut (ps ++ [p]) r <-> cut ps r \/ exists pre post, p = pre ++ post /\ pre <> [] /\ r = before_page ps ++ pre.
Proof.
  split.
  - intros [->|(b & q & a & pre & post & E & Eq & Hne & ->)]; [by left; left|].
    destruct (destruct_list_last a) as [->|(y & a' & ->)].
    + apply app_inj_tail in E as [-> ->]. right. by exists pre, post.
    + rewrite app_comm_cons, app_assoc in E. apply app_inj_tail in E as [-> ->]. left. right. by exists b, q, a', pre, post.
  - intros [[->|(b & q & a & pre & post & -> & Eq & Hne & ->)]|(pre & post & -> & Hne & ->)]; [by left|right..].
    + exists b, q, (a ++ [p]), pre, post. by rewrite <- app_assoc.
    + by exists ps, (pre ++ post), [], pre, post.
Qed.

Lemma cut_le ps r : cut ps r -> zlen (utf8s r) <= zlen (utf8s (join_pages ps)).
Proof.
  induction ps as [|p ps IH] using rev_ind.
  - intros [->|(b & q & a & pre & post & E & _)]; [done|]. by destruct b.
  - rewrite join_snoc. intros [H|(pre & post & -> & _ & ->)]%cut_snoc.
    + apply IH in H. destruct ps as [|q ps]; [|rewrite before_join by done; rewrite !zlen_utf8s_app;
        pose proof (zlen_nonneg (utf8s page_separator)); pose proof (zlen_nonneg (utf8s p)); lia].
      cbn in *. pose proof (zlen_nonneg (utf8s p)). unfold zlen in *. cbn in *. lia.
    + rewrite !zlen_utf8s_app. pose proof (zlen_nonneg (utf8s post)). lia.
Qed.

Lemma cut_join ps : Forall (fun p => p <> []) ps -> cut ps (join_pages ps).
Proof.
  intros H. destruct (destruct_list_last ps) as [->|(p & ps' & ->)]; [by left|]. rewrite join_snoc. apply cut_snoc. right.
  exists p, []. rewrite app_nil_r. split_and!; try done. apply Forall_app in H as [_ H]. by apply Forall_cons_iff in H as [H _].
Qed.

Lemma excerpt_all max ps : Forall (fun p => p <> []) ps -> zlen (utf8s (join_pages ps)) <= max -> excerpt max ps (join_pages ps).
Proof. intros H Hm. split; [by apply cut_join|]. split; [done|]. intros r Hr _. by apply cut_le. Qed.

(** A page behind text that is too long already. *)
Lemma excerpt_full max ps p r : max < zlen (utf8s (join_pages ps)) -> excerpt max ps r ->
  excerpt max (ps ++ [p]) r /\ max < zlen (utf8s (join_pages (ps ++ [p]))).
Proof.
  intros Hm (Hc & Hl & Hmax). assert (Hb : forall x, zlen (utf8s (join_pages ps)) <= zlen (utf8s (before_page ps ++ x))).
  { intros x. destruct ps as [|q ps]; [apply zlen_nonneg|]. rewrite before_join by done. rewrite !zlen_utf8s_app.
    pose proof (zlen_nonneg (utf8s page_separator)). pose proof (zlen_nonneg (utf8s x)). lia. }
  split; [|rewrite join_snoc; specialize (Hb p); lia]. split; [apply cut_snoc; by left|]. split; [done|].
  intros r' [H|(pre & post & -> & _ & ->)]%cut_snoc Hr; [by apply Hmax|]. specialize (Hb pre). lia.
Qed.

Lemma prefix_split {A} (a b c d : list A) : a ++ b = c ++ d -> (length c <= length a)%nat \/ exists x r, c = a ++ x :: r.
Proof.
  intros E. destruct (le_lt_dec (length c) (length a)) as [H|H]; [by left|]. right. revert c H E.
  induction a as [|y a IH]; intros c H E; cbn in *; [destruct c as [|x r]; [cbn in H; lia|by exists x, r]|].
  destruct c as [|z c]; cbn in *; [lia|]. injection E as <- E. destruct (IH c ltac:(lia) E) as (x & r & ->). by exists x, r.
Qed.

(** A page that fits only in part, or not at all. *)
Lemma excerpt_part max ps p pre x post :
  Forall (fun p => p <> []) ps -> p = pre ++ x :: post -> (pre <> [] \/ ps = []) ->
  zlen (utf8s (before_page ps ++ pre)) <= max < zlen (utf8s (before_page ps ++ pre ++ [x])) ->
  excerpt max (ps ++ [p]) (before_page ps ++ pre) /\ max < zlen (utf8s (join_pages (ps ++ [p]))).
Proof.
  intros Hne -> Hpre [Hl Hm]. split.
  2: { rewrite join_snoc. change (pre ++ x :: post) with (pre ++ [x] ++ post). rewrite !zlen_utf8s_app in *.
       pose proof (zlen_nonneg (utf8s post)). lia. }
  split; [|split; [done|]].
  - destruct (decide (pre = [])) as [->|Hp]; [destruct Hpre as [| ->]; [done|by left]|]. apply cut_snoc. right. by exists pre, (x :: post).
  - intros r' [H|(pre' & post' & E & _ & ->)]%cut_snoc Hr.
    + apply cut_le in H. destruct ps as [|q ps]; [cbn in H; pose proof (zlen_nonneg (utf8s pre)); cbn; unfold zlen in *; cbn in *; lia|].
      rewrite before_join by done. rewrite !zlen_utf8s_app. pose proof (zlen_nonneg (utf8s page_separator)). pose proof (zlen_nonneg (utf8s pre)). lia.
    + destruct (prefix_split _ _ _ _ E) as [H|(y & r & ->)].
      * assert (Hpp : exists t, pre = pre' ++ t).
        { exists (drop (length pre') pre). rewrite <- (take_drop (length pre') pre) at 1. f_equal.
          pose proof (f_equal (take (length pre')) E) as Et. rewrite take_app_length in Et. rewrite take_app_le in Et by done. done. }
        destruct Hpp as [t ->]. rewrite !zlen_utf8s_app. pose proof (zlen_nonneg (utf8s t)). lia.
      * rewrite <- app_assoc in E. apply app_inv_head in E. injection E as <- _. change (pre ++ x :: r) with (pre ++ [x] ++ r) in Hr.
        rewrite !zlen_utf8s_app in *. pose proof (zlen_nonneg (utf8s r)). lia.
Qed.

(** Not even the separator and one character fit. *)
Lemma excerpt_none max ps p x post :
  ps <> [] -> Forall (fun p => p <> []) ps -> p = x :: post -> zlen (utf8s (join_pages ps)) <= max < zlen (utf8s (before_page ps ++ [x])) ->
  excerpt max (ps ++ [p]) (join_pages ps) /\ max < zlen (utf8s (join_pages (ps ++ [p]))).
Proof.
  intros Hps Hne -> [Hl Hm]. split.
  2: { rewrite join_snoc. change (x :: post) with ([x] ++ post). rewrite !zlen_utf8s_app in *. pose proof (zlen_nonneg (utf8s post)). lia. }
  split; [apply cut_snoc; left; by apply cut_join|]. split; [done|]. intros r' [H|(pre & post' & E & Hp & ->)]%cut_snoc Hr; [by apply cut_le|].
  destruct pre as [|y pre]; [done|]. injection E as <- _. change (x :: pre) with ([x] ++ pre) in Hr. rewrite !zlen_utf8s_app in *.
  pose proof (zlen_nonneg (utf8s pre)). lia.
Qed.
