(* ===== verification/GroundingRefine.v ===== *)
(** * GroundingRefine: the manifest parser hands out the excerpt *)

From S2P Require Import Prelude Ctype KvStore Strtod Json JsonFacts DynBuf TcLines Grounding JsonRead GroundingSim GroundingPages.

(** ** Strings against literals *)

Definition ascii_text (lit : bytes) : Prop := Forall (fun c => 0 < c < 128) lit.

Lemma put_ascii cp : 0 <= cp < 128 -> utf8_put cp = [cp].
Proof. intros H. unfold utf8_put. rewrite (proj2 (Z.leb_le cp 127)) by lia. f_equal. apply wrap_small. unfold in_u. lia. Qed.

Lemma put_head cp : 128 <= cp -> exists c r, utf8_put cp = c :: r /\ (cp <= 0x10ffff -> 192 <= c).
Proof.
  intros H. unfold utf8_put. rewrite (proj2 (Z.leb_gt cp 127)) by lia.
  destruct (Z.leb_spec cp 2047); [|destruct (Z.leb_spec cp 65535)]; eexists _, _; (split; [reflexivity|]); intros Hm; rewrite Z.shiftr_div_pow2 by lia.
  - change 192 with (6 * 2 ^ 5) at 2. rewrite u8_lead by zdiv_lia. zdiv_lia.
  - change 224 with (14 * 2 ^ 4). rewrite u8_lead by zdiv_lia. zdiv_lia.
  - change 240 with (30 * 2 ^ 3). rewrite u8_lead by zdiv_lia. zdiv_lia.
Qed.

Lemma str_bytes_ascii lit : ascii_text lit -> str_bytes lit = lit.
Proof.
  induction 1 as [|c lit Hc _ IH]; [done|]. change (str_bytes (c :: lit)) with (char_bytes c ++ str_bytes lit). rewrite IH. unfold char_bytes.
  rewrite (proj2 (Z.eqb_neq c 0)), put_ascii by lia. done.
Qed.

Lemma str_bytes_inj s lit : Forall scalar s -> 0 ∉ s -> ascii_text lit -> str_bytes s = lit -> s = lit.
Proof.
  intros Hs. revert lit. induction Hs as [|cp s Hc _ IH]; intros lit H0 Hl; [done|]. apply not_elem_of_cons in H0 as [H1 H2].
  change (str_bytes (cp :: s)) with (char_bytes cp ++ str_bytes s). unfold char_bytes. rewrite (proj2 (Z.eqb_neq cp 0)) by done.
  unfold scalar in Hc. destruct (Z.lt_ge_cases cp 128) as [H|H].
  - rewrite put_ascii by lia. destruct lit as [|c lit]; [done|]. cbn. intros [= <- E]. f_equal. apply IH; [done| |done].
    by apply Forall_cons_iff in Hl as [_ Hl].
  - destruct (put_head cp H) as (c & r & -> & Hc'). destruct lit as [|d lit]; [done|]. cbn. intros [= <- E].
    apply Forall_cons_iff in Hl as [Hl _]. lia.
Qed.

Lemma string_equals_rep s cps lit : string_rep s cps -> Forall scalar cps -> ascii_text lit ->
  ds4_string_equals s lit = bool_decide (cps = lit).
Proof.
  intros [Hr Hn] Hs Hl. unfold ds4_string_equals. rewrite (ds_rep_bytes _ _ Hr), Hn. apply Bool.eq_iff_eq_true.
  rewrite andb_true_iff, negb_true_iff, bool_decide_eq_false, bytes_eqb_eq, bool_decide_eq_true. split.
  - intros [H0 E]. by apply str_bytes_inj.
  - intros ->. split; [|by apply str_bytes_ascii]. intros Hin. unfold ascii_text in Hl. apply (Forall_elem _ _ _ Hl) in Hin. lia.
Qed.

Lemma utf8s_str s : 0 ∉ s -> str_bytes s = utf8s s.
Proof.
  induction s as [|c s IH]; [done|]. intros [H1 H2]%not_elem_of_cons. change (str_bytes (c :: s)) with (char_bytes c ++ str_bytes s).
  change (utf8s (c :: s)) with (utf8_put c ++ utf8s s). rewrite IH by done. unfold char_bytes. by rewrite (proj2 (Z.eqb_neq c 0)) by done.
Qed.

Lemma put_bytes cp : scalar cp -> Forall (fun b => 0 <= b) (utf8_put cp) /\ (cp <> 0 -> no_nul (utf8_put cp)).
Proof.
  intros Hs. unfold scalar in Hs. destruct (Z.lt_ge_cases cp 128) as [H|H].
  - rewrite put_ascii by lia. split; [by repeat constructor; lia|]. intros Hc. by repeat constructor.
  - destruct (put_head cp H) as (c & r & E & Hc). specialize (Hc ltac:(lia)). revert E. unfold utf8_put.
    rewrite (proj2 (Z.leb_gt cp 127)) by lia.
    assert (Hcont : forall k, 0 <= k -> 128 <= u8 (Z.lor 128 (Z.land (Z.shiftr cp k) 63))) by (intros k Hk; rewrite cont_byte by lia; zdiv_lia).
    assert (H0 : 128 <= u8 (Z.lor 128 (Z.land (Z.shiftr cp 0) 63))) by (by apply Hcont).
    assert (H6 : 128 <= u8 (Z.lor 128 (Z.land (Z.shiftr cp 6) 63))) by (by apply Hcont).
    assert (H12 : 128 <= u8 (Z.lor 128 (Z.land (Z.shiftr cp 12) 63))) by (by apply Hcont).
    destruct (cp <=? 2047); [|destruct (cp <=? 65535)]; intros [= -> <-]; split; [|intros _| |intros _| |intros _];
      repeat (constructor; [lia|]); constructor.
Qed.

Lemma utf8s_no_nul s : Forall scalar s -> 0 ∉ s -> no_nul (utf8s s).
Proof.
  induction 1 as [|c s Hc _ IH]; [constructor|]. intros [H1 H2]%not_elem_of_cons. cbn. apply no_nul_app. split; [|by apply IH].
  by apply put_bytes.
Qed.

Lemma nonspace_blank s : Forall scalar s -> 0 ∉ s -> ds4_has_nonspace (utf8s s) = negb (blank s).
Proof.
  intros Hs H0. unfold ds4_has_nonspace. rewrite cstr_no_nul by by apply utf8s_no_nul. induction Hs as [|c s Hc _ IH]; [done|].
  apply not_elem_of_cons in H0 as [H1 H2]. specialize (IH H2). change (utf8s (c :: s)) with (utf8_put c ++ utf8s s). rewrite existsb_app, IH. change (blank (c :: s)) with (is_blank c && blank s). unfold scalar in Hc.
  destruct (Z.lt_ge_cases c 128) as [H|H].
  - rewrite put_ascii by lia. cbn. rewrite orb_false_r. by destruct (is_blank c), (blank s).
  - destruct (put_head c H) as (d & r & -> & Hd). specialize (Hd ltac:(lia)). cbn.
    assert (E : forall x, 128 <= x -> is_blank x = false).
    { intros x Hx. unfold is_blank. change (ch " ") with 32. by rewrite !(proj2 (Z.eqb_neq x _)) by lia. }
    by rewrite !E by lia.
Qed.

Lemma codepoint_length cp post : scalar cp -> cp <> 0 ->
  ds4_valid_codepoint_length (utf8s (cp :: post)) = length (utf8_put cp).
Proof.
  intros Hs H0. unfold ds4_valid_codepoint_length. change (utf8s (cp :: post)) with (utf8_put cp ++ utf8s post). rewrite length_app.
  unfold scalar in Hs. unfold utf8_put. destruct (Z.leb_spec cp 127).
  { cbn [app hd]. unfold u8. rewrite wrap_small by (unfold in_u; lia). by rewrite (proj2 (Z.ltb_lt cp 0x80)) by lia. }
  destruct (Z.leb_spec cp 2047); [|destruct (Z.leb_spec cp 65535)]; cbn [app hd length]; rewrite Z.shiftr_div_pow2 by lia.
  - change 192 with (6 * 2 ^ 5). rewrite u8_lead by zdiv_lia. decide_ineqs; try zdiv_lia. done.
  - change 224 with (14 * 2 ^ 4). rewrite u8_lead by zdiv_lia.
    rewrite (proj2 (Z.ltb_ge _ 0x80)), (proj2 (Z.ltb_ge _ 0xe0)), (proj2 (Z.ltb_lt _ 0xf0)) by zdiv_lia. done.
  - change 240 with (30 * 2 ^ 3). rewrite u8_lead by zdiv_lia.
    rewrite (proj2 (Z.ltb_ge _ 0x80)), (proj2 (Z.ltb_ge _ 0xe0)), (proj2 (Z.ltb_ge _ 0xf0)) by zdiv_lia. done.
Qed.

(** ** The first byte tells the kind *)

Definition is_string (v : json) : bool := match v with JString _ => true | _ => false end.
Definition is_array (v : json) : bool := match v with JArray _ => true | _ => false end.
Definition is_object (v : json) : bool := match v with JObject _ => true | _ => false end.
Definition is_number (v : json) : bool := match v with JNumber _ => true | _ => false end.
Definition number_start (p : bytes) : bool := starts_at (ch "-") p || match p with c :: _ => isdigit c | [] => false end.

Lemma ref_value_shape fuel d p v q : token p -> ref_value fuel d p = Some (v, q) ->
  is_string v = starts_at 34 p /\ is_array v = starts_at (ch "[") p /\ is_object v = starts_at (ch "{") p /\ is_number v = number_start p.
Proof.
  intros Hp. destruct fuel as [|fuel]; [done|]. cbn [ref_value]. rewrite (skip_token p Hp). destruct p as [|c p]; [done|].
  unfold number_start. cbn [starts_at]. unfold isdigit. change (ch "{") with 123. change (ch "[") with 91. change (ch "-") with 45. change (ch "0") with 48. change (ch "9") with 57.
  change (ch "t") with 116. change (ch "f") with 102. change (ch "n") with 110.
  destruct (Z.eqb_spec c 123) as [->|]. { destruct (_ <? _); [done|]. intros H. apply bind_Some in H as ([x y] & _ & [= <- <-]). done. }
  destruct (Z.eqb_spec c 91) as [->|]. { destruct (_ <? _); [done|]. intros H. apply bind_Some in H as ([x y] & _ & [= <- <-]). done. }
  destruct (Z.eqb_spec c 34) as [->|]. { intros H. apply bind_Some in H as ([x y] & _ & [= <- <-]). done. }
  destruct (Z.eqb_spec c 116) as [->|]. { intros H. apply bind_Some in H as (x & _ & [= <- <-]). done. }
  destruct (Z.eqb_spec c 102) as [->|]. { intros H. apply bind_Some in H as (x & _ & [= <- <-]). done. }
  destruct (Z.eqb_spec c 110) as [->|]. { intros H. apply bind_Some in H as (x & _ & [= <- <-]). done. }
  destruct (_ || _) eqn:E; [|done]. destruct (ds4_parse_number _) as [u r| |]; [|done..]. by intros [= <- <-].
Qed.

Lemma ref_value_string fuel d p : token p -> starts_at 34 p = true ->
  ref_value (S fuel) d p = '(s, q) ← ref_string p; Some (JString s, q).
Proof. intros Hp Hs. apply starts_at_cons in Hs. cbn [ref_value]. rewrite (skip_token p Hp), Hs. done. Qed.

Lemma ref_value_array fuel d p : token p -> starts_at (ch "[") p = true -> d <= max_depth ->
  ref_value (S fuel) d p = '(l, q) ← ref_bracketed (ch "]") (ref_elements (ref_value fuel (d + 1)) fuel) p; Some (JArray l, q).
Proof.
  intros Hp Hs Hd. apply starts_at_cons in Hs. cbn [ref_value]. rewrite (skip_token p Hp), Hs. by rewrite (proj2 (Z.ltb_ge _ _)) by done.
Qed.

Lemma ref_value_object fuel d p : token p -> starts_at (ch "{") p = true -> d <= max_depth ->
  ref_value (S fuel) d p = '(m, q) ← ref_bracketed (ch "}") (ref_members (fun _ => ref_value fuel (d + 1)) fuel) p; Some (JObject m, q).
Proof.
  intros Hp Hs Hd. apply starts_at_cons in Hs. cbn [ref_value]. rewrite (skip_token p Hp), Hs. by rewrite (proj2 (Z.ltb_ge _ _)) by done.
Qed.

Section refine.
Context (mem : Z -> bool) (text : bytes).
Context (Htext : bytes_ok text) (Hsize : zlen text < 2 ^ 60).
Context (max : Z) (Hmax : 0 <= max < 2 ^ 60).
#[local] Set Default Proof Using "All".

Local Abbreviation rest := (rest text).
Local Abbreviation sim := (sim mem).

Ltac fails := do 2 eexists; reflexivity.

(** ** Copying a page *)

Lemma page_loop_sim fuel post ms s0 :
  Forall scalar post -> 0 ∉ post -> (length (utf8s post) <= fuel)%nat ->
  ds_rep (ms_source ms) (utf8s s0) -> zlen (utf8s s0) <= max ->
  (exists pre more ms', post = pre ++ more /\ page_loop mem max fuel (utf8s post) ms = Some (inr ms') /\
     ds_rep (ms_source ms') (utf8s (s0 ++ pre)) /\ zlen (utf8s (s0 ++ pre)) <= max /\ ms_found ms' = ms_found ms /\
     match more with
     | [] => ms_truncated ms' = ms_truncated ms
     | cp :: _ => ms_truncated ms' = true /\ max < zlen (utf8s (s0 ++ pre ++ [cp]))
     end) \/
  (exists msg, page_loop mem max fuel (utf8s post) ms = Some (inl msg)) /\ refused mem.
Proof.
  revert fuel ms s0. induction post as [|cp post IH]; intros fuel ms s0 Hs H0 Hf Hr Hz.
  { left. exists [], [], ms. rewrite !app_nil_r. split_and!; try done. by destruct fuel. }
  apply Forall_cons_iff in Hs as [Hc Hs]. apply not_elem_of_cons in H0 as [H1 H2]. apply not_eq_sym in H1.
  pose proof (put_length cp) as Hlen. pose proof (codepoint_length cp post Hc H1) as Hl.
  change (utf8s (cp :: post)) with (utf8_put cp ++ utf8s post) in *.
  assert (Hcons : exists b t, utf8_put cp ++ utf8s post = b :: t).
  { destruct (utf8_put cp) as [|b t] eqn:E; [unfold zlen in Hlen; cbn in Hlen; lia|]. by eexists _, _. }
  rewrite length_app in Hf. unfold zlen in Hlen. destruct fuel as [|fuel]; [lia|].
  destruct Hcons as (b & t & Ebt). cbn [page_loop]. rewrite Ebt in Hl |- *. rewrite Hl, <- Ebt. destruct Hr as [Hrl Hr']. pose proof (conj Hrl Hr' : ds_rep _ _) as Hr.
  rewrite (proj2 (Nat.eqb_neq _ _)) by lia. cbn [orb]. rewrite Hrl, take_app_length, drop_app_length.
  destruct (Z.ltb_spec (max - zlen (utf8s s0)) (Z.of_nat (length (utf8_put cp)))) as [Hlt|Hge].
  - left. exists [], (cp :: post), (set_truncated ms). rewrite !app_nil_r. split_and!; try done. rewrite zlen_utf8s_app. unfold zlen at 2.
    cbn [app utf8s flat_map]. rewrite app_nil_r. lia.
  - pose proof (ds_append_spec mem (ms_source ms) (utf8s s0) (utf8_put cp) Hr ltac:(unfold zlen in *; lia)) as Ha.
    destruct (ds4_string_append mem (ms_source ms) (utf8_put cp)) as [msg|s]; [right; split; [by eexists|done]|].
    destruct Ha as (Ha & _ & _). specialize (IH fuel (set_source ms s) (s0 ++ [cp]) Hs H2 ltac:(lia)).
    rewrite utf8s_app in IH. cbn [utf8s flat_map app] in IH. rewrite app_nil_r in IH.
    destruct (IH Ha) as [(pre & more & ms' & -> & E & H3 & H4 & H5 & H6)|H]; [rewrite zlen_app; unfold zlen in *; lia| |by right].
    left. exists (cp :: pre), more, ms'. change (s0 ++ cp :: pre) with (s0 ++ [cp] ++ pre). rewrite app_assoc. split_and!; try done.
    destruct more; [done|]. by rewrite <- app_assoc in H6.
Qed.

(** The state against the pages taken so far. *)
Definition ms_rep (ms : manifest_state) (ps : list (list Z)) : Prop :=
  Forall (fun p => p <> []) ps /\ ms_found ms = negb (bool_decide (ps = [])) /\
  exists r, ds_rep (ms_source ms) (utf8s r) /\ excerpt max ps r /\
    if ms_truncated ms then max < zlen (utf8s (join_pages ps)) else r = join_pages ps.

Lemma utf8s_separator : utf8s page_separator = page_separator.
Proof using. vm_compute. reflexivity. Qed.

Lemma append_page_sim ms ps p :
  Forall scalar p -> 0 ∉ p -> p <> [] -> ms_rep ms ps ->
  (exists ms', ds4_append_page mem max (mkManifest true (ms_truncated ms) (ms_source ms)) (utf8s p) = Some (inr ms') /\ ms_rep ms' (ps ++ [p])) \/
  (exists msg, ds4_append_page mem max (mkManifest true (ms_truncated ms) (ms_source ms)) (utf8s p) = Some (inl msg)) /\ refused mem.
Proof.
  intros Hs H0 Hne (Hps & Hfound & r & Hr & Hex & Htr). unfold ds4_append_page. cbn [ms_truncated ms_source].
  assert (Hne' : Forall (fun p => p <> []) (ps ++ [p])) by (apply Forall_app; by repeat constructor).
  assert (Hf : true = negb (bool_decide (ps ++ [p] = []))).
  { rewrite bool_decide_eq_false_2; [done|]. by destruct ps. }
  destruct (ms_truncated ms) eqn:Et.
  { left. eexists. split; [done|]. destruct (excerpt_full max ps p r Htr Hex) as [H1 H2]. split_and!; [done|done|]. exists r. by split_and!. }
  subst r. destruct Hex as (_ & Hjl & _). set (base := before_page ps).
  assert (Hgo : forall ms1, ms_found ms1 = true -> ms_truncated ms1 = false -> ds_rep (ms_source ms1) (utf8s base) -> zlen (utf8s base) <= max ->
    (ps <> [] -> exists cp t, p = cp :: t /\ zlen (utf8s (base ++ [cp])) <= max) ->
    (exists ms', page_loop mem max (length (utf8s p)) (utf8s p) ms1 = Some (inr ms') /\ ms_rep ms' (ps ++ [p])) \/
    (exists msg, page_loop mem max (length (utf8s p)) (utf8s p) ms1 = Some (inl msg)) /\ refused mem).
  { intros ms1 Hf1 Ht1 Hr1 Hl1 Hfit. destruct (page_loop_sim (length (utf8s p)) p ms1 base Hs H0 ltac:(lia) Hr1 Hl1)
      as [(pre & more & ms' & E & H1 & H2 & H3 & H4 & H5)|H]; [left|by right]. exists ms'. split; [done|]. split; [done|]. split; [congruence|].
    exists (base ++ pre). split; [done|]. destruct more as [|cp more].
    - rewrite app_nil_r in E. subst pre. rewrite H5, Ht1. unfold base in H3 |- *. rewrite <- join_snoc in H3 |- *. split; [by apply excerpt_all|done].
    - destruct H5 as [-> H5]. eapply excerpt_part; [done|exact E| |done].
      destruct (decide (ps = [])) as [|Hps']; [by right|left]. destruct (Hfit Hps') as (cp' & t & -> & Hfit'). intros ->. injection E as -> _. cbn in H5. lia. }
  destruct Hr as [Hrl Hr']. pose proof (conj Hrl Hr' : ds_rep _ _) as Hr. rewrite Hrl.
  destruct (Z.ltb_spec 0 (zlen (utf8s (join_pages ps)))) as [Hpos|Hzero].
  - assert (Hps' : ps <> []) by (intros ->; cbn in Hpos; done). destruct p as [|cp t]; [done|]. apply Forall_cons_iff in Hs as Hs'. destruct Hs' as [Hcp _].
    apply not_elem_of_cons in H0 as H0'. destruct H0' as [Hcp0 _]. rewrite codepoint_length by done.
    assert (Eb : zlen (utf8s (base ++ [cp])) = zlen (utf8s (join_pages ps)) + (zlen page_separator + Z.of_nat (length (utf8_put cp)))).
    { unfold base. rewrite before_join by done. rewrite !zlen_utf8s_app, utf8s_separator. unfold utf8s at 2. cbn [flat_map]. rewrite app_nil_r. unfold zlen. lia. }
    destruct (Z.ltb_spec (max - zlen (utf8s (join_pages ps))) (zlen page_separator + Z.of_nat (length (utf8_put cp)))) as [Hlt|Hge].
    + left. eexists. split; [done|]. split; [done|]. split; [done|]. exists (join_pages ps). split; [done|].
      apply (excerpt_none max ps (cp :: t) cp t); [done..|]. fold base. lia.
    + pose proof (ds_append_spec mem (ms_source ms) (utf8s (join_pages ps)) page_separator Hr ltac:(lia)) as Ha.
      destruct (ds4_string_append mem (ms_source ms) page_separator) as [msg|s]; [right; split; [by eexists|done]|].
      destruct Ha as (Ha & _ & _). apply Hgo; [done|done| | |].
      * unfold base. rewrite before_join by done. by rewrite utf8s_app, utf8s_separator.
      * rewrite zlen_utf8s_app in Eb. unfold base in *. pose proof (zlen_nonneg (utf8s [cp])). lia.
      * intros _. exists cp, t. split; [done|]. lia.
  - assert (Hps' : ps = []).
    { destruct ps as [|q ps]; [done|]. exfalso. apply Forall_cons_iff in Hps as [Hq _]. destruct q as [|c q]; [done|]. cbn [join_pages app] in Hzero.
      change (utf8s (c :: ?x)) with (utf8_put c ++ utf8s x) in Hzero. rewrite zlen_app in Hzero. pose proof (put_length c).
      match type of Hzero with _ + zlen ?x <= 0 => pose proof (zlen_nonneg x) end. lia. }
    subst ps. apply Hgo; done.
Qed.

(** ** Reading a page *)

Lemma sim_weaken {A S T} (R : S -> T -> Prop) r (ref : option (A * bytes)) (k k' : A -> T -> option T) t :
  sim R r ref k t -> (forall a q, ref = Some (a, q) -> k' a t = k a t) -> sim R r ref k' t.
Proof using. unfold GroundingSim.sim. destruct ref as [[a q]|]; [|done]. intros H Hk. by rewrite (Hk a q eq_refl). Qed.

Lemma sim_map {A B S T} (R : S -> T -> Prop) r (ref : option (A * bytes)) (f : A -> B) k t :
  sim R r ref (fun a => k (f a)) t -> sim R r ('(a, q) ← ref; Some (f a, q)) k t.
Proof using. by destruct ref as [[a q]|]. Qed.

(** A string that may be missing. *)
Definition opt_rep (s : ds4_string) (o : option (list Z)) : Prop :=
  match o with
  | None => ds_data s = None
  | Some cps => string_rep s cps /\ is_Some (ds_data s) /\ Forall scalar cps
  end.

(** A string value that is wanted. *)
Lemma want_string_sim {S T} (R : S -> T -> Prop) fuel d p (f : ds4_string -> S) (k : json -> T -> option T) t :
  rest p -> token p -> (length p < fuel)%nat -> starts_at 34 p = true ->
  (forall s cps, opt_rep s (Some cps) -> exists t', k (JString cps) t = Some t' /\ R (f s) t') ->
  sim R (pbind (ds4_parse_string mem true p) (fun r p => POk (f (default ds4_string_zero r)) p)) (ref_value fuel d p) k t.
Proof.
  intros Hp Htk Hf Hq Hk. destruct fuel as [|fuel]; [lia|]. rewrite (ref_value_string fuel d p Htk Hq). apply sim_map.
  destruct (parse_string_sim mem text Htext Hsize true p Hp) as [H|[He Href]]; [left|right; split; [by apply bind_error|done]].
  destruct (ref_string p) as [[cps q]|] eqn:Er; [|by apply bind_error]. destruct H as (key & -> & (s & -> & Hs & Hd)). cbn [pbind default from_option id].
  destruct (Hk s cps) as (t' & -> & Ht'); [|by eexists]. split; [done|]. split; [done|]. by eapply (ref_string_scalar mem text).
Qed.

Definition page_rep (sc : ds4_string * ds4_string) (st : option (list Z) * option (list Z)) : Prop :=
  opt_rep sc.1 st.1 /\ opt_rep sc.2 st.2.

Definition page_field_k (kv : list Z * json) (st : option (list Z) * option (list Z)) : option (option (list Z) * option (list Z)) :=
  Some (match kv with
        | (k, JString s) => if bool_decide (k = bs "state") then (Some s, st.2)
                            else if bool_decide (k = bs "content") then (st.1, Some s) else st
        | _ => st
        end).

Lemma page_field_sim d key cps p sc st fuel :
  rest p -> token p -> (length p < fuel)%nat -> key_rep true key cps -> Forall scalar cps -> page_rep sc st ->
  sim page_rep (page_field mem d key p sc) (ref_value fuel (d + 1) p) (fun v => page_field_k (cps, v)) st.
Proof.
  intros Hp Htk Hf (s & -> & Hs & _) Hsc [H1 H2]. unfold page_field. cbn [default from_option id].
  rewrite !(string_equals_rep s cps) by (done || by repeat constructor).
  destruct (starts_at 34 p) eqn:Eq; rewrite ?andb_true_r, ?andb_false_r.
  - destruct (bool_decide (cps = bs "state")) eqn:E1.
    { apply want_string_sim with (f := fun r => (r, sc.2)); try done. intros r cps' Hr. eexists. unfold page_field_k. rewrite E1. split; [done|]. by split. }
    destruct (bool_decide (cps = bs "content")) eqn:E2.
    { apply want_string_sim with (f := fun r => (sc.1, r)); try done. intros r cps' Hr. eexists. unfold page_field_k. rewrite E1, E2. split; [done|]. by split. }
    eapply sim_weaken; [by apply (skip_sim mem text)|]. intros v q _. unfold page_field_k, keep. rewrite E1, E2. by destruct v.
  - eapply sim_weaken; [by apply (skip_sim mem text)|]. intros v q Hv. destruct (ref_value_shape _ _ _ _ _ Htk Hv) as [Hk _].
    unfold page_field_k, keep. rewrite Eq in Hk. by destruct v.
Qed.

Lemma fold_page_fields m st : fold_k page_field_k m st =
  Some (match last_string (bs "state") m with Some s => Some s | None => st.1 end,
        match last_string (bs "content") m with Some s => Some s | None => st.2 end).
Proof using.
  assert (Hl : forall name m acc, fold_left (fun acc (kv : list Z * json) => match kv with
      | (k, JString s) => if bool_decide (k = name) then Some s else acc | _ => acc end) m acc =
      match last_string name m with Some s => Some s | None => acc end).
  { intros name m0. induction m0 as [|[k v] m0 IH] using rev_ind; intros acc; [done|]. unfold last_string. rewrite !fold_left_app. cbn.
    destruct v; try apply IH. destruct (bool_decide (k = name)); [done|apply IH]. }
  revert st. induction m as [|[k v] m IH]; intros [a b]; [done|]. cbn [fold_k]. unfold page_field_k at 2. cbn [mbind option_bind]. rewrite IH.
  unfold last_string at 3 4. cbn [fold_left]. rewrite !Hl. cbn [fst snd].
  destruct v as [| | |s| |]; try (by destruct (last_string (bs "state") m), (last_string (bs "content") m)).
  destruct (bool_decide (k = bs "state")) eqn:E1.
  - apply bool_decide_eq_true in E1 as ->. rewrite bool_decide_eq_false_2 by done.
    by destruct (last_string (bs "state") m), (last_string (bs "content") m).
  - by destruct (bool_decide (k = bs "content")), (last_string (bs "state") m), (last_string (bs "content") m).
Qed.

(** What a page adds. *)
Definition page_end (s : list Z) (ps : list (list Z)) : option (list (list Z)) :=
  if bool_decide (0 ∈ s) then None else if blank s then Some ps else Some (ps ++ [s]).

Definition page_k (m : list (list Z * json)) (ps : list (list Z)) : option (list (list Z)) :=
  match page_content m with Some s => page_end s ps | None => Some ps end.

Lemma page_done_sim sc st q ms ps :
  page_rep sc st -> ms_rep ms ps ->
  match (if bool_decide (st.1 = Some (bs "succeeded")) then st.2 else None) with
  | Some s => match page_end s ps with
              | Some ps' => exists ms', page_done mem max sc q ms = POk ms' q /\ ms_rep ms' ps'
              | None => is_error (page_done mem max sc q ms)
              end
  | None => page_done mem max sc q ms = POk ms q
  end \/ is_error (page_done mem max sc q ms) /\ refused mem.
Proof.
  intros [H1 H2] Hm. unfold page_done. destruct sc as [s c], st as [os oc]. cbn [fst snd] in *.
  destruct os as [scps|]; cbn [opt_rep] in H1.
  2: { left. rewrite H1. cbn. done. }
  destruct H1 as (Hs & Hds & Hss). rewrite (bool_decide_eq_true_2 (is_Some (ds_data s))) by done.
  rewrite (string_equals_rep s scps) by (done || by repeat constructor).
  assert (Es : bool_decide (Some scps = Some (bs "succeeded")) = bool_decide (scps = bs "succeeded")) by (apply bool_decide_ext; split; [by intros [= ->]|by intros ->]).
  rewrite Es. destruct oc as [ccps|]; cbn [opt_rep] in H2.
  2: { left. rewrite H2. cbn. by destruct (bool_decide (scps = _)). }
  destruct H2 as ((Hc & Hcn) & Hdc & Hsc). rewrite (bool_decide_eq_true_2 (is_Some (ds_data c))) by done. cbn [andb].
  destruct (bool_decide (scps = _)); [|by left]. rewrite Hcn. unfold page_end.
  destruct (bool_decide (0 ∈ ccps)) eqn:E0; [left; fails|]. apply bool_decide_eq_false in E0.
  rewrite (ds_rep_bytes _ _ Hc), utf8s_str, nonspace_blank by done. destruct (blank ccps) eqn:Eb; cbn [negb].
  { left. by exists ms. }
  assert (Hne : ccps <> []) by (by intros ->). destruct (append_page_sim ms ps ccps Hsc E0 Hne Hm) as [(ms' & -> & Hms)|[(msg & ->) Href]].
  - left. by exists ms'.
  - right. split; [fails|done].
Qed.

Lemma page_sim fuel p ms ps :
  rest p -> token p -> starts_at (ch "{") p = true -> (length p < fuel)%nat -> ms_rep ms ps ->
  sim ms_rep (ds4_parse_page mem max 2 p ms) (ref_value fuel 2 p) (fun v => match v with JObject m => page_k m | _ => keep v end) ps.
Proof.
  intros Hp Htk Hb Hf Hm. destruct fuel as [|fuel]; [lia|]. rewrite (ref_value_object fuel 2 p Htk Hb) by done. apply sim_map.
  unfold ds4_parse_page. pose proof (starts_at_cons _ _ Hb) as Ep. set (p1 := tail p) in *. clearbody p1. subst p. cbn [length] in *.
  set (loop := object_loop mem true _ _ _ _ _).
  assert (H : sim page_rep (bracketed (ch "}") loop (ch "{" :: p1) (ds4_string_zero, ds4_string_zero))
    (ref_bracketed (ch "}") (ref_members (fun _ => ref_value fuel (2 + 1)) fuel) (ch "{" :: p1)) (fold_k page_field_k) (None, None)).
  { apply (bracketed_sim mem text); [done|by split|]. intros p' Hp' Htk' Hl'.
    apply (object_loop_sim mem text Htext Hsize page_rep) with (n := Datatypes.S (length p1)); try done; try lia; [intros; by apply (ref_value_forward mem text)|].
    intros key cps q s t Hq Htq Hn Hk Hsc Hr. apply (sim_sim_end mem), page_field_sim; try done; lia. }
  destruct H as [H|[He Href]]; [|right; split; [by apply bind_error|done]].
  destruct (ref_bracketed _ _ _) as [[m q]|]; [|left; by apply bind_error]. rewrite fold_page_fields in H. destruct H as (sc & -> & Hsc). cbn [pbind].
  destruct (page_done_sim sc _ q ms ps Hsc Hm) as [H|H]; [left|by right]. cbn [fst snd] in H. unfold page_k, page_content.
  destruct (last_string (bs "state") m) as [s|], (last_string (bs "content") m) as [c|]; try exact H;
    destruct (bool_decide _); try (exists ms; split; [exact H|exact Hm]); try exact H.
Qed.

(** ** Reading the manifest *)

Definition elem_k (v : json) (ps : list (list Z)) : option (list (list Z)) :=
  match v with JObject m => page_k m ps | _ => Some ps end.

Definition root_k (kv : list Z * json) (ps : list (list Z)) : option (list (list Z)) :=
  match kv with
  | (k, JArray l) => if bool_decide (k = bs "pages") then fold_k elem_k l ps else Some ps
  | _ => Some ps
  end.

Definition value_k (v : json) (ps : list (list Z)) : option (list (list Z)) :=
  match v with JObject m => fold_k root_k m ps | _ => Some ps end.

Lemma pages_elem_sim fuel p ms ps :
  rest p -> token p -> (length p < fuel)%nat -> ms_rep ms ps -> sim ms_rep (pages_elem mem max 1 p ms) (ref_value fuel 2 p) elem_k ps.
Proof.
  intros Hp Htk Hf Hm. unfold pages_elem. destruct (starts_at (ch "{") p) eqn:Eb.
  - eapply sim_weaken; [by apply page_sim|]. intros v q _. by destruct v.
  - eapply sim_weaken; [by apply (skip_sim mem text)|]. intros v q Hv.
    destruct (ref_value_shape _ _ _ _ _ Htk Hv) as (_ & _ & Hk & _). rewrite Eb in Hk. by destruct v.
Qed.

Lemma pages_sim fuel p ms ps :
  rest p -> token p -> starts_at (ch "[") p = true -> (length p < fuel)%nat -> ms_rep ms ps ->
  sim ms_rep (ds4_parse_pages mem max 1 p ms) (ref_value fuel 1 p) (fun v => match v with JArray l => fold_k elem_k l | _ => keep v end) ps.
Proof.
  intros Hp Htk Hb Hf Hm. destruct fuel as [|fuel]; [lia|]. rewrite (ref_value_array fuel 1 p Htk Hb) by done. apply sim_map.
  unfold ds4_parse_pages. pose proof (starts_at_cons _ _ Hb) as Ep. set (p1 := tail p) in *. clearbody p1. subst p. cbn [length] in *.
  apply (bracketed_sim mem text); [done|done|]. intros p' Hp' Htk' Hl'.
  apply (array_loop_sim mem text) with (n := Datatypes.S (length p1)); try done; try lia; [by apply (ref_value_forward mem text)|].
  intros q s t Hq Htq Hn Hr. apply (sim_sim_end mem), pages_elem_sim; try done; lia.
Qed.

Lemma root_field_sim key cps p ms ps fuel :
  rest p -> token p -> (length p < fuel)%nat -> key_rep true key cps -> Forall scalar cps -> ms_rep ms ps ->
  sim ms_rep (root_field mem max key p ms) (ref_value fuel 1 p) (fun v => root_k (cps, v)) ps.
Proof.
  intros Hp Htk Hf (s & -> & Hs & _) Hsc Hm. unfold root_field. cbn [default from_option id].
  rewrite (string_equals_rep s cps) by (done || by repeat constructor).
  destruct (bool_decide (cps = bs "pages")) eqn:Ek; cbn [andb]; [destruct (starts_at (ch "[") p) eqn:Eb|].
  - eapply sim_weaken; [by apply pages_sim|]. intros v q _. unfold root_k. destruct v; try done. by rewrite Ek.
  - eapply sim_weaken; [by apply (skip_sim mem text)|]. intros v q Hv.
    destruct (ref_value_shape _ _ _ _ _ Htk Hv) as (_ & Hk & _). rewrite Eb in Hk. by destruct v.
  - eapply sim_weaken; [by apply (skip_sim mem text)|]. intros v q _. unfold root_k, keep. destruct v; try done. by rewrite Ek.
Qed.

Lemma root_sim fuel p ms ps :
  rest p -> token p -> (length p < fuel)%nat -> ms_rep ms ps ->
  sim ms_rep (if starts_at (ch "{") p then ds4_parse_root_object mem max p ms
              else pbind (parse_value mem 0 p) (fun _ p => POk ms p)) (ref_value fuel 0 p) value_k ps.
Proof.
  intros Hp Htk Hf Hm. destruct (starts_at (ch "{") p) eqn:Hb.
  2: { eapply sim_weaken; [by apply (skip_sim mem text)|]. intros v q Hv.
       destruct (ref_value_shape _ _ _ _ _ Htk Hv) as (_ & _ & Hk & _). rewrite Hb in Hk. by destruct v. }
  destruct fuel as [|fuel]; [lia|]. rewrite (ref_value_object fuel 0 p Htk Hb) by done. apply sim_map. cbn [value_k].
  unfold ds4_parse_root_object. pose proof (starts_at_cons _ _ Hb) as Ep. set (p1 := tail p) in *. clearbody p1. subst p. cbn [length] in *.
  apply (bracketed_sim mem text); [done|done|]. intros p' Hp' Htk' Hl'.
  apply (object_loop_sim mem text Htext Hsize ms_rep) with (n := Datatypes.S (length p1)); try done; try lia; [intros; by apply (ref_value_forward mem text)|].
  intros key cps q s t Hq Htq Hn Hk Hsc Hr. apply (sim_sim_end mem), root_field_sim; try done; lia.
Qed.
End refine.

Lemma fold_k_app {A T} (k : A -> T -> option T) l l' t : fold_k k (l ++ l') t = (fold_k k l t ≫= fold_k k l').
Proof. revert t. induction l as [|a l IH]; intros t; [done|]. cbn. destruct (k a t); [apply IH|done]. Qed.

Lemma elements_contents l ps : fold_k elem_k l ps = fold_k page_end (array_contents l) ps.
Proof.
  revert ps. induction l as [|v l IH]; intros ps; [done|]. cbn [fold_k array_contents flat_map].
  destruct v; try apply IH. cbn [elem_k]. unfold page_k. destruct (page_content m) as [s|]; [|apply IH]. cbn [app fold_k].
  destruct (page_end s ps); [apply IH|done].
Qed.

Lemma value_contents v ps : value_k v ps = fold_k page_end (page_contents v) ps.
Proof.
  destruct v as [| | | | |m]; try done. revert ps. induction m as [|[k v] m IH]; intros ps; [done|]. cbn [value_k fold_k page_contents flat_map] in *.
  rewrite fold_k_app. destruct v as [| | | |l|]; cbn [root_k mbind option_bind fold_k]; try apply IH.
  destruct (bool_decide (k = bs "pages")); [|apply IH]. rewrite elements_contents. destruct (fold_k page_end _ ps); [apply IH|done].
Qed.

Lemma fold_page_end cs ps :
  fold_k page_end cs ps = if bool_decide (Forall (fun s => 0 ∉ s) cs) then Some (ps ++ List.filter (fun s => negb (blank s)) cs) else None.
Proof.
  revert ps. induction cs as [|s cs IH]; intros ps; cbn [fold_k List.filter].
  { rewrite bool_decide_eq_true_2 by constructor. by rewrite app_nil_r. }
  unfold page_end at 2. destruct (bool_decide (0 ∈ s)) eqn:E0.
  { rewrite bool_decide_eq_false_2; [done|]. intros [H _]%Forall_cons_iff. by apply bool_decide_eq_true in E0. }
  apply bool_decide_eq_false in E0.
  assert (Eb : bool_decide (Forall (fun s => 0 ∉ s) (s :: cs)) = bool_decide (Forall (fun s => 0 ∉ s) cs)).
  { apply bool_decide_ext. rewrite Forall_cons_iff. tauto. }
  rewrite Eb. destruct (blank s); cbn [negb mbind option_bind]; rewrite IH; [done|]. by rewrite <- app_assoc.
Qed.
