(* ===== verification/GroundingVerify.v ===== *)
(** * GroundingVerify: the answer of the verifier

    The score and the evidence are those of the object the answer holds; evidence
    is found if its words occur in the words of the source. *)

From S2P Require Import Prelude Ctype KvStore Strtod Json JsonFacts DynBuf TcLines Grounding JsonRead GroundingSim GroundingPages GroundingRefine.

(** ** Numbers *)

Definition frac_digits (f : bytes) : bytes := tail f.

Lemma scan_digits_number i f r : int_text i -> frac_text f ->
  match r with [] => True | c :: _ => isdigit c = false /\ c <> ch "." end ->
  scan_digits isdigit (i ++ f ++ r) = Some (i, frac_digits f, r).
Proof.
  intros Hi Hf Hr. assert (Hd : digits i /\ i <> []).
  { destruct Hi as [|c d Hc _ Hd]; [split; [by repeat constructor|done]|]. split; [by constructor|done]. }
  destruct Hd as [Hd Hne]. assert (Hfr : match f ++ r with [] => True | c :: _ => isdigit c = false end).
  { destruct Hf; cbn [app]; [destruct r; [done|apply Hr]|done]. }
  unfold scan_digits. rewrite (span_app_stop isdigit i (f ++ r) Hd Hfr), take_app_length, drop_app_length.
  destruct Hf as [|d Hdd Hdn]; cbn [app frac_digits tail].
  - destruct r as [|c r]; [by destruct i|]. destruct Hr as [_ Hr]. rewrite (proj2 (Z.eqb_neq _ _)) by done. by destruct i.
  - rewrite Z.eqb_refl, (span_app_stop isdigit d r Hdd), take_app_length, drop_app_length; [by destruct i|]. destruct r; [done|apply Hr].
Qed.

Lemma scan_exponent_number e q : exp_text e -> number_end q -> exists v, forall q', number_end q' -> scan_exponent (ch "e") (e ++ q') = (v, q').
Proof.
  intros He _. assert (Hlow : forall c, c <> ch "e" -> c <> ch "E" -> (tolower c =? ch "e") = false).
  { intros c H1 H2. apply Z.eqb_neq. unfold tolower. destruct (isupper c) eqn:E; [|done]. change (ch "e") with 101 in *. change (ch "E") with 69 in *. lia. }
  destruct He as [|x sg d Hx Hsg Hd Hne].
  - exists 0. intros q' Hq. destruct q' as [|c q']; [done|]. destruct Hq as (_ & _ & H1 & H2). cbn. by rewrite Hlow.
  - assert (Hspan : forall q', number_end q' -> span_len isdigit (d ++ q') = length d).
    { intros q' Hq. apply span_app_stop; [done|]. destruct q'; [done|apply Hq]. }
    assert (Hl : exists k, length d = S k) by (destruct d; [done|]; by eexists). destruct Hl as [k Hk].
    exists (let v := digits_value 0 d in if starts_at (ch "-") sg then - v else v). intros q' Hq.
    cbn [app scan_exponent]. assert (Ex : (tolower x =? ch "e") = true) by (destruct Hx as [->| ->]; reflexivity). rewrite Ex.
    destruct Hsg as [->|[->| ->]]; cbn [app].
    + destruct (digits_head d q' Hd Hne) as (y & z & Ey & Hy). rewrite Ey. apply isdigit_range in Hy.
      rewrite !(proj2 (Z.eqb_neq y _)) by (change (ch "-") with 45; change (ch "+") with 43; lia). rewrite <- Ey, (Hspan q' Hq), Hk. cbv beta iota zeta.
      rewrite <- Hk, take_app_length, drop_app_length. done.
    + change (ch "+" =? ch "-") with false. change (ch "+" =? ch "+") with true. cbv iota. rewrite (Hspan q' Hq), Hk. cbv beta iota zeta.
      rewrite <- Hk, take_app_length, drop_app_length. done.
    + change (ch "-" =? ch "-") with true. cbv iota. rewrite (Hspan q' Hq), Hk. cbv beta iota zeta.
      rewrite <- Hk, take_app_length, drop_app_length. done.
Qed.

Lemma strip_ci_head x lit c r : tolower c <> x -> strip_ci (x :: lit) (c :: r) = None.
Proof. intros H. cbn. by rewrite (proj2 (Z.eqb_neq _ _)). Qed.

Lemma tolower_digit c : isdigit c = true -> tolower c = c.
Proof.
  intros H. apply isdigit_range in H. unfold tolower, isupper. change (ch "A") with 65. by rewrite (proj2 (Z.leb_gt 65 c)) by lia.
Qed.

Lemma not_hex i f e q : int_text i -> frac_text f -> exp_text e -> value_end q -> strip_ci (bs "0x") (i ++ f ++ e ++ q) = None.
Proof.
  intros Hi Hf He Hq. change (bs "0x") with [48; 120]. destruct Hi as [|c d Hc H0 Hd].
  - cbn [app strip_ci]. change (tolower (ch "0") =? 48) with true. cbv iota.
    destruct Hf as [|fd _ _]; [destruct He as [|x sg d Hx _ _ _]; [destruct q as [|c q]|]|]; cbn [app strip_ci]; try done.
    + assert (E : (tolower c =? 120) = false); [|by rewrite E]. cbn in Hq.
      destruct Hq as [Hq|[->|[->| ->]]]; [|reflexivity..]. apply is_json_space_iff in Hq as [->|[->|[->| ->]]]; reflexivity.
    + destruct Hx as [->| ->]; reflexivity.
  - cbn [app]. apply strip_ci_head. rewrite (tolower_digit _ Hc). exact H0.
Qed.

Lemma strtod_number t : number_text t -> exists v, forall q, value_end q -> strtod (t ++ q) = Some (v, q).
Proof.
  intros (s & i & f & e & Hs & Hi & Hf & He & ->). destruct (scan_exponent_number e [] He I) as (ev & Hev).
  assert (Hu : forall neg q, value_end q -> strtod_unsigned neg (i ++ f ++ e ++ q) =
    Some (d_of_decimal neg (digits_value 0 (i ++ frac_digits f)) (ev - zlen (frac_digits f)), q)).
  { intros neg q Hq. assert (Hh : exists c r, i ++ f ++ e ++ q = c :: r /\ isdigit c = true) by (destruct Hi; cbn; eauto).
    destruct Hh as (c & r & Ec & Hc). unfold strtod_unsigned, scan_hex. rewrite (not_hex i f e q) by done. rewrite Ec.
    assert (Hn : forall x lit, x <> c -> strip_ci (x :: lit) (c :: r) = None) by (intros x lit Hx; apply strip_ci_head; rewrite tolower_digit by done; congruence).
    apply isdigit_range in Hc. change (bs "infinity") with (105 :: bs "nfinity"). change (bs "inf") with (105 :: bs "nf"). change (bs "nan") with (110 :: bs "an").
    rewrite !Hn by lia. cbn [mbind option_bind]. rewrite <- Ec. unfold scan_decimal. apply value_end_number in Hq.
    rewrite (scan_digits_number i f (e ++ q) Hi Hf) by (by apply exp_head). cbn [mbind option_bind]. by rewrite Hev. }
  exists (d_of_decimal (starts_at (ch "-") s) (digits_value 0 (i ++ frac_digits f)) (ev - zlen (frac_digits f))). intros q Hq.
  rewrite <- !app_assoc. unfold strtod. assert (Hh : exists c r, i ++ f ++ e ++ q = c :: r /\ isdigit c = true) by (destruct Hi; cbn; eauto).
  destruct Hh as (c & r & Ec & Hc). apply isdigit_range in Hc. destruct Hs as [->| ->]; cbn [app].
  - rewrite Ec. cbn [span_len]. assert (isspace c = false) as ->.
    { unfold isspace. rewrite (proj2 (Z.eqb_neq c 32)), (proj2 (Z.leb_gt c 13)), andb_false_r by lia. done. }
    cbn [drop]. rewrite !(proj2 (Z.eqb_neq c _)) by (change (ch "-") with 45; change (ch "+") with 43; lia). rewrite <- Ec. by apply Hu.
  - cbn [span_len]. change (isspace (ch "-")) with false. cbn [drop]. rewrite Z.eqb_refl. by apply Hu.
Qed.

Lemma strtod_value_number t q : number_text t -> value_end q -> strtod_value (t ++ q) = strtod_value t.
Proof.
  intros Ht Hq. destruct (strtod_number t Ht) as (v & Hv). unfold strtod_value. rewrite (Hv q Hq).
  pose proof (Hv [] I) as H. rewrite app_nil_r in H. by rewrite H.
Qed.

(** ** Words *)

(** The stretches between blanks. *)
Fixpoint split_blank (t : bytes) : list bytes :=
  match t with
  | [] => [[]]
  | c :: t' =>
      if is_blank c then [] :: split_blank t'
      else match split_blank t' with w :: ws => (c :: w) :: ws | [] => [[c]] end
  end.

Definition nonempty (w : bytes) : bool := match w with [] => false | _ => true end.

Definition words (t : bytes) : list bytes := List.filter nonempty (split_blank t).

Definition spaced (ws : list bytes) : bytes := flat_map (fun w => ch " " :: w) ws.

Definition unwords (ws : list bytes) : bytes := match ws with [] => [] | w :: ws => w ++ spaced ws end.

Lemma normalize_words t :
  normalize_loop t false false [] = unwords (words t) /\
  (forall out, normalize_loop t true true out = out ++ spaced (words t)) /\
  (forall out, normalize_loop t false true out = out ++ match split_blank t with w :: ws => w ++ spaced (List.filter nonempty ws) | [] => [] end).
Proof.
  induction t as [|c t (IH1 & IH2 & IH3)]; [split_and!; intros; by rewrite ?app_nil_r|].
  unfold words in *. cbn [normalize_loop split_blank]. destruct (is_blank c).
  - cbn [List.filter nonempty app]. split_and!; [exact IH1|intros out; apply IH2|intros out; apply IH2].
  - assert (Hs : exists w ws, split_blank t = w :: ws) by (destruct t as [|x t]; cbn; [eauto|]; destruct (is_blank x); [eauto|destruct (split_blank t); eauto]).
    destruct Hs as (w & ws & Ew). rewrite Ew in *. cbn [List.filter nonempty unwords spaced flat_map app]. split_and!.
    + rewrite IH3. done.
    + intros out. rewrite IH3, <- !app_assoc. done.
    + intros out. rewrite IH3, <- !app_assoc. done.
Qed.

(** ** What the answer says *)

Definition score_keys : list bytes := [bs "semantic_support"; bs "semantic_score"; bs "support"; bs "score"].

(** The last score. *)
Definition score_of (m : list (list Z * json)) : option double :=
  fold_left (fun acc (kv : list Z * json) => if bool_decide (kv.1 ∈ score_keys) then
      match kv.2 with
      | JNumber t => Some (strtod_value t)
      | JString s => Some (strtod_value (str_bytes s))
      | _ => acc
      end else acc) m None.

Definition array_strings (l : list json) : list bytes :=
  flat_map (fun v => match v with JString s => [str_bytes s] | _ => [] end) l.

(** All evidence. *)
Definition evidence_of (m : list (list Z * json)) : list bytes :=
  flat_map (fun kv : list Z * json => if bool_decide (kv.1 = bs "evidence") then
      match kv.2 with JArray l => array_strings l | _ => [] end else []) m.

(** The excerpts with a word, and those whose words stand in the source. *)
Definition excerpts (m : list (list Z * json)) : list (list bytes) := List.filter (fun ws => negb (bool_decide (ws = []))) (words <$> (cstr <$> evidence_of m)).
Definition quoted (source : bytes) (ws : list bytes) : bool := contains (unwords ws) (unwords (words (cstr source))).

Section verify.
Context (mem : Z -> bool) (Hmem : forall n, mem n = true) (text : bytes).
Context (Htext : bytes_ok text) (Hsize : zlen text < 2 ^ 60).
#[local] Set Default Proof Using "All".

Local Abbreviation rest := (rest text).
Local Abbreviation sim := (sim mem).
Local Abbreviation sim_end := (sim_end mem).

Definition evidence_rep (l : ds4_evidence_list) (ev : list bytes) : Prop := ev_items l = ev.

Definition evidence_k (v : json) (ev : list bytes) : option (list bytes) :=
  Some (match v with JString s => ev ++ [str_bytes s] | _ => ev end).

Lemma evidence_push l item : exists l', ds4_evidence_push mem l item = Some l' /\ ev_items l' = ev_items l ++ [item].
Proof. unfold ds4_evidence_push. rewrite Hmem. destruct (_ =? _); by eexists. Qed.

Lemma evidence_elem_sim fuel p l ev :
  rest p -> token p -> (length p < fuel)%nat -> evidence_rep l ev -> sim evidence_rep (evidence_elem mem p l) (ref_value fuel 1 p) evidence_k ev.
Proof.
  intros Hp Htk Hf Hl. unfold evidence_elem. rewrite (skip_token p Htk). destruct (starts_at 34 p) eqn:Eq.
  - destruct fuel as [|fuel]; [lia|]. rewrite (ref_value_string fuel 1 p Htk Eq). apply (sim_map mem).
    destruct (parse_string_sim mem text Htext Hsize true p Hp) as [H|[He Href]]; [left|right; split; [by apply bind_error|done]].
    destruct (ref_string p) as [[cps q]|] eqn:Er; [|by apply bind_error]. destruct H as (key & -> & (s & -> & [Hs _] & [blk Hd])).
    cbn [pbind default from_option id]. rewrite Hd. cbn [mbind option_bind]. destruct (evidence_push l (ds_bytes s)) as (l' & -> & Hl').
    cbn. exists l'. split; [done|]. unfold evidence_rep in *. rewrite Hl', Hl. by rewrite (ds_rep_bytes _ _ Hs).
  - eapply (sim_weaken mem); [by apply (skip_sim mem text)|]. intros v q Hv.
    destruct (ref_value_shape _ _ _ _ _ Htk Hv) as [Hk _]. rewrite Eq in Hk. by destruct v.
Qed.

Lemma fold_evidence l ev : fold_k evidence_k l ev = Some (ev ++ array_strings l).
Proof using.
  revert ev. induction l as [|v l IH]; intros ev; cbn [fold_k array_strings flat_map]; [by rewrite app_nil_r|].
  unfold evidence_k at 2. cbn [mbind option_bind]. rewrite IH. destruct v; try done. cbn [app]. by rewrite <- app_assoc.
Qed.

Lemma evidence_array_sim fuel c p l ev :
  rest (c :: p) -> (length p < fuel)%nat -> evidence_rep l ev ->
  sim evidence_rep (ds4_parse_evidence_array mem (c :: p) l)
    (ref_bracketed (ch "]") (ref_elements (ref_value fuel 1) fuel) (c :: p)) (fold_k evidence_k) ev.
Proof.
  intros Hp Hf Hl. unfold ds4_parse_evidence_array. apply (bracketed_sim mem text); [done|done|]. intros p' Hp' Htk' Hl'. cbn [length].
  apply (array_loop_sim mem text) with (n := S (length p)); try done; try lia; [by apply (ref_value_forward mem text)|].
  intros q s t Hq Htq Hn Hr. apply (sim_sim_end mem), evidence_elem_sim; try done; lia.
Qed.

Lemma ref_value_number fuel d p : token p -> number_start p = true ->
  ref_value (S fuel) d p = match ds4_parse_number p with
                           | POk _ q => Some (JNumber (take (length p - length q) p), q)
                           | _ => None
                           end.
Proof using.
  intros Hp Hn. cbn [ref_value]. rewrite (skip_token p Hp). destruct p as [|c p]; [done|]. unfold number_start in Hn. cbn [starts_at] in Hn.
  assert (Hc : c = 45 \/ 48 <= c <= 57) by (apply orb_true_iff in Hn as [Hn|Hn]; [apply Z.eqb_eq in Hn as ->; by left|right; by apply isdigit_range]).
  change (ch "{") with 123. change (ch "[") with 91. change (ch "t") with 116. change (ch "f") with 102. change (ch "n") with 110.
  rewrite !(proj2 (Z.eqb_neq c 123)), (proj2 (Z.eqb_neq c 91)), (proj2 (Z.eqb_neq c 34)), (proj2 (Z.eqb_neq c 116)), (proj2 (Z.eqb_neq c 102)), (proj2 (Z.eqb_neq c 110)) by lia.
  by rewrite Hn.
Qed.

(** The reader of a field: evidence is read one level higher than it stands. *)
Definition answer_value (fuel : nat) (k : list Z) (p : bytes) : option (json * bytes) :=
  if bool_decide (k = bs "evidence") && starts_at (ch "[") p
  then '(l, q) ← ref_bracketed (ch "]") (ref_elements (ref_value fuel 1) fuel) p; Some (JArray l, q)
  else ref_value fuel 1 p.

Definition verifier_rep (vs : verifier_state) (t : option double * list bytes) : Prop :=
  vs_have_score vs = bool_decide (is_Some t.1) /\ vs_score vs = default d_zero t.1 /\ evidence_rep (vs_evidence vs) t.2.

Definition verifier_k (kv : list Z * json) (t : option double * list bytes) : option (option double * list bytes) :=
  Some (match kv.2 with
        | JNumber x => if bool_decide (kv.1 ∈ score_keys) then (Some (strtod_value x), t.2) else t
        | JString s => if bool_decide (kv.1 ∈ score_keys) then (Some (strtod_value (str_bytes s)), t.2) else t
        | JArray l => if bool_decide (kv.1 = bs "evidence") then (t.1, t.2 ++ array_strings l) else t
        | _ => t
        end).

Lemma key_is_score s cps : string_rep s cps -> Forall scalar cps -> ds4_verifier_key_is_score s = bool_decide (cps ∈ score_keys).
Proof using.
  intros Hs Hsc. unfold ds4_verifier_key_is_score. rewrite !(string_equals_rep s cps) by (done || by repeat constructor).
  apply Bool.eq_iff_eq_true. rewrite !orb_true_iff, !bool_decide_eq_true. unfold score_keys. rewrite !elem_of_cons, elem_of_nil. tauto.
Qed.

Lemma value_end_cases q : value_end q \/ ~ value_end q.
Proof using.
  destruct q as [|c q]; [by left|]. cbn [value_end]. destruct (is_json_space c); [tauto|].
  destruct (Z.eq_dec c (ch ",")), (Z.eq_dec c (ch "]")), (Z.eq_dec c (ch "}")); try tauto. right. intros [|[|[|]]]; done.
Qed.

Lemma number_field_sim fuel cps p vs t :
  rest p -> token p -> (length p < fuel)%nat -> verifier_rep vs t -> cps ∈ score_keys -> number_start p = true ->
  sim_end verifier_rep (pbind (ds4_parse_number p) (fun _ p' => POk (set_score (strtod_value p) vs) p')) (ref_value fuel 1 p)
    (fun v => verifier_k (cps, v)) t.
Proof using.
  intros Hp Htk Hf (H1 & H2 & H3) Hk Hn. left. destruct fuel as [|fuel]; [lia|]. rewrite (ref_value_number fuel 1 p Htk Hn).
  destruct (ds4_parse_number p) as [[] q|msg q|] eqn:En; cbn [pbind]; [|do 2 eexists; reflexivity|].
  2: { exfalso. revert En. unfold ds4_parse_number, skip_digits, pbind. repeat (case_match; simplify_eq; try done). }
  apply parse_number_sound in En as (x & -> & Hx). rewrite length_app. replace (length x + length q - length q)%nat with (length x) by lia.
  rewrite take_app_length. unfold verifier_k. cbn [fst snd]. rewrite bool_decide_eq_true_2 by done. eexists. split; [done|].
  destruct (value_end_cases q) as [Hq|Hq]; [left|by right]. split_and!; [done| |done]. cbn. by apply strtod_value_number.
Qed.

Lemma verifier_field_sim key cps p vs t fuel :
  rest p -> token p -> (length p < fuel)%nat -> key_rep true key cps -> Forall scalar cps -> verifier_rep vs t ->
  sim_end verifier_rep (verifier_field mem key p vs) (answer_value fuel cps p) (fun v => verifier_k (cps, v)) t.
Proof.
  intros Hp Htk Hf (s & -> & Hs & _) Hsc Hr. unfold verifier_field. cbn [default from_option id].
  rewrite (key_is_score s cps), (string_equals_rep s cps) by (done || by repeat constructor).
  fold (number_start p). pose proof Hr as (H1 & H2 & H3). unfold answer_value.
  destruct (bool_decide (cps ∈ score_keys)) eqn:Ek; cbn [andb].
  - apply bool_decide_eq_true in Ek as Hk. assert (Hne : bool_decide (cps = bs "evidence") = false).
    { apply bool_decide_eq_false. intros ->. unfold score_keys in Hk. rewrite !elem_of_cons, elem_of_nil in Hk. repeat destruct Hk as [Hk|Hk]; done. }
    rewrite Hne. cbn [andb]. destruct (number_start p) eqn:En; [by apply number_field_sim|].
    destruct (starts_at 34 p) eqn:Eq.
    + apply (sim_sim_end mem). apply (want_string_sim mem text Htext Hsize 0 ltac:(lia) verifier_rep fuel 1 p
        (fun v => match ds_data v with Some _ => set_score (strtod_value (ds_bytes v)) vs | None => vs end)); try done.
      intros r cps' ([Hrep _] & [blk Hd] & _). unfold verifier_k. cbn [fst snd]. rewrite Ek, Hd. eexists. split; [done|].
      split_and!; [done| |done]. cbn. by rewrite (ds_rep_bytes _ _ Hrep).
    + apply (sim_sim_end mem). eapply (sim_weaken mem); [by apply (skip_sim mem text)|]. intros v q Hv.
      destruct (ref_value_shape _ _ _ _ _ Htk Hv) as (Hk1 & _ & _ & Hk2). rewrite Eq in Hk1. rewrite En in Hk2.
      unfold verifier_k. cbn [fst snd]. destruct v; try done. by rewrite Hne.
  - destruct (bool_decide (cps = bs "evidence")) eqn:Ee; cbn [andb]; [destruct (starts_at (ch "[") p) eqn:Eb|].
    + apply (sim_sim_end mem). apply starts_at_cons in Eb as Ep. set (p1 := tail p) in *. clearbody p1. subst p.
      apply (sim_map mem).
      destruct (evidence_array_sim fuel (ch "[") p1 (vs_evidence vs) t.2 Hp ltac:(cbn in Hf; lia) H3) as [H|[He Href]];
        [left|right; split; [by apply bind_error|done]].
      destruct (ref_bracketed _ _ _) as [[l q]|]; [|by apply bind_error]. rewrite fold_evidence in H. destruct H as (l' & -> & Hl'). cbn [pbind].
      unfold verifier_k. cbn [fst snd]. rewrite Ee. eexists. split; [done|]. by split_and!.
    + apply (sim_sim_end mem). eapply (sim_weaken mem); [by apply (skip_sim mem text)|]. intros v q Hv.
      destruct (ref_value_shape _ _ _ _ _ Htk Hv) as (_ & Hk & _). rewrite Eb in Hk.
      unfold verifier_k. cbn [fst snd]. destruct v; try done; by rewrite Ek.
    + apply (sim_sim_end mem). eapply (sim_weaken mem); [by apply (skip_sim mem text)|]. intros v q Hv.
      unfold verifier_k, keep. cbn [fst snd]. destruct v; try done; by rewrite ?Ek, ?Ee.
Qed.

Lemma fold_verifier m t : fold_k verifier_k m t = Some (match score_of m with Some v => Some v | None => t.1 end, t.2 ++ evidence_of m).
Proof using.
  assert (Hl : forall m acc, fold_left (fun acc (kv : list Z * json) => if bool_decide (kv.1 ∈ score_keys) then
      match kv.2 with JNumber t => Some (strtod_value t) | JString s => Some (strtod_value (str_bytes s)) | _ => acc end else acc) m acc =
      match score_of m with Some v => Some v | None => acc end).
  { intros m0. induction m0 as [|kv m0 IH] using rev_ind; intros acc; [done|]. unfold score_of. rewrite !fold_left_app. cbn [fold_left].
    destruct (bool_decide (kv.1 ∈ score_keys)); [|apply IH]. destruct kv.2; try apply IH; done. }
  revert t. induction m as [|[k v] m IH]; intros [sc ev]; cbn [fold_k evidence_of flat_map]; [by rewrite app_nil_r|].
  unfold verifier_k at 2. cbn [mbind option_bind fst snd]. rewrite IH. unfold score_of at 2. cbn [fold_left fst snd]. rewrite Hl.
  assert (Hd : bool_decide (k ∈ score_keys) = true -> bool_decide (k = bs "evidence") = false).
  { rewrite bool_decide_eq_true, bool_decide_eq_false. intros Hk ->. unfold score_keys in Hk. rewrite !elem_of_cons, elem_of_nil in Hk.
    repeat destruct Hk as [Hk|Hk]; done. }
  destruct (bool_decide (k ∈ score_keys)) eqn:Es.
  - rewrite (Hd eq_refl). destruct v; cbn [fst snd app]; try done; by destruct (score_of m).
  - destruct (bool_decide (k = bs "evidence")); destruct v; cbn [fst snd app]; rewrite ?app_assoc; try done; by destruct (score_of m).
Qed.

Lemma verifier_sim fuel p vs t :
  rest p -> starts_at (ch "{") p = true -> (length p <= fuel)%nat -> verifier_rep vs t ->
  sim verifier_rep (ds4_parse_verifier_object mem p vs) (ref_bracketed (ch "}") (ref_members (answer_value fuel) fuel) p) (fold_k verifier_k) t.
Proof.
  intros Hp Hb Hf Hr. unfold ds4_parse_verifier_object. apply starts_at_cons in Hb as Ep. set (p1 := tail p) in *. clearbody p1. subst p. cbn [length] in *.
  apply (bracketed_sim mem text); [done|done|]. intros p' Hp' Htk' Hl'.
  apply (object_loop_sim mem text Htext Hsize verifier_rep) with (n := S (length p1)); try done; try lia.
  - intros cps q v q' Hq. unfold answer_value. destruct (bool_decide _ && starts_at (ch "[") q) eqn:Eb; [|by apply (ref_value_forward mem text)].
    apply andb_true_iff in Eb as [_ Eb]. intros H. apply bind_Some in H as ([l q1] & H & [= <- <-]).
    apply bracketed_sound in H as (w & _ & Ew & H). apply starts_at_cons in Eb. rewrite Eb, Ew in Hq |- *. apply (rest_tail text), (rest_app text) in Hq.
    destruct H as [[-> E]|H].
    + rewrite E in Hq |- *. split; [by apply (rest_tail text) in Hq|]. cbn. rewrite length_app. cbn. lia.
    + apply (elements_sound _ 1) in H as (t' & Et & _); [|apply ref_value_sound|by apply (rest_ok mem text Htext Hsize)].
      rewrite Et in Hq |- *. rewrite app_assoc in Hq. split; [by apply (rest_app text) in Hq|]. cbn. rewrite !length_app. cbn [length]. lia.
  - intros key cps q s t' Hq Htq Hn Hk Hsc Hr'. apply verifier_field_sim; try done; lia.
Qed.
End verify.
