(* ===== verification/GroundingSpec.v ===== *)
(** * GroundingSpec: what the two entry points answer *)

From S2P Require Import Prelude DynBuf Ctype KvStore TcLines Strtod Json JsonFacts Grounding JsonRead GroundingSim GroundingPages GroundingRefine GroundingVerify.

Lemma ref_value_skip fuel d p : ref_value fuel d (ds4_skip_space p) = ref_value fuel d p.
Proof. destruct fuel; [done|]. cbn [ref_value]. by rewrite skip_idem. Qed.

Lemma cstr_bytes_ok b : bytes_ok b -> bytes_ok (cstr b).
Proof. induction 1 as [|c b Hc _ IH]; cbn; [constructor|]. destruct (c =? 0); constructor; done. Qed.

Lemma ms_rep_init max : 0 <= max -> ms_rep max (mkManifest false false ds4_string_zero) [].
Proof.
  intros Hm. split; [constructor|]. split; [done|]. exists []. split; [apply ds_rep_zero|]. split; [|done].
  apply (excerpt_all max []); [constructor|done].
Qed.

(** C16. A manifest of crawled pages is answered by what it says, whatever the
    allocator does: the text handed out is the longest excerpt of its pages that
    fits in the limit, cut between characters and never inside or right behind a
    separator, and the flag tells if something is missing; it is empty exactly if
    no page has text; it is invalid exactly if it is not a JSON text, nested at
    most 129 deep, or if the text of a page has a NUL; otherwise an allocation
    was refused. *)
Theorem extract_source_correct mem manifest max err_len :
  bytes_ok manifest -> zlen (cstr manifest) < 2 ^ 60 -> 0 <= max < 2 ^ 60 ->
  exists x, ds4_crawl_extract_source mem (Some manifest) max true err_len = Some x /\
  match x_status x with
  | DS4_CRAWL_SOURCE_OK => exists v r,
      json_text v (cstr manifest) /\ readable v /\ manifest_pages v <> [] /\ excerpt max (manifest_pages v) r /\
      x_source x = Some (utf8s r) /\ x_truncated x = bool_decide (r <> join_pages (manifest_pages v))
  | DS4_CRAWL_SOURCE_EMPTY => exists v, json_text v (cstr manifest) /\ readable v /\ manifest_pages v = []
  | DS4_CRAWL_SOURCE_INVALID => x_source x = None /\ ((forall v, json_text v (cstr manifest) -> ~ readable v) \/ refused mem)
  end.
Proof.
  intros Hb Hsize Hmax. apply cstr_bytes_ok in Hb as Ht. set (text := cstr manifest) in *.
  set (p := ds4_skip_space text). set (ms := mkManifest false false ds4_string_zero).
  assert (Hrest : rest text p) by (apply rest_skip; by exists []).
  assert (Hlen : (length p < S (length text))%nat) by (unfold p, ds4_skip_space; rewrite length_drop; lia).
  pose proof (root_sim mem text Ht Hsize max Hmax (S (length text)) p ms [] Hrest (skip_is_token text) Hlen (ms_rep_init max ltac:(lia))) as H.
  pose proof (ref_value_skip (S (length text)) 0 text) as Esk. fold p in Esk. rewrite Esk in H.
  unfold ds4_crawl_extract_source. cbn [negb]. cbv zeta. fold text p ms.
  set (parsed := if starts_at (ch "{") p then _ else _) in *.
  destruct H as [H|[(msg & q & ->) Href]]; [|eexists; split; [done|]; cbn; tauto].
  destruct (ref_value (S (length text)) 0 text) as [[v q]|] eqn:Er.
  2: { destruct H as (msg & q & ->). eexists. split; [done|]. cbn. split; [done|]. left. intros v Hv.
       apply json_text_iff in Hv as (q' & Hv & _); [|done]. congruence. }
  rewrite value_contents, fold_page_end in H. fold (readable v) (manifest_pages v) in H. cbn [app] in H.
  assert (Huniq : forall v', json_text v' text -> v' = v /\ ds4_skip_space q = []).
  { intros v' Hv. apply json_text_iff in Hv as (q' & Hv & Hq); [|done]. rewrite Er in Hv. by injection Hv as -> ->. }
  destruct (bool_decide (readable v)) eqn:Erd.
  2: { apply bool_decide_eq_false in Erd. destruct H as (msg & q' & ->). eexists. split; [done|]. cbn. split; [done|]. left.
       intros v' Hv. by destruct (Huniq v' Hv) as [-> _]. }
  apply bool_decide_eq_true in Erd. destruct H as (ms' & -> & Hne & Hfound & r & Hr & Hex & Htr).
  destruct (Z.eqb_spec (zlen (ds4_skip_space q)) 0) as [Eq|Eq]; cbn [negb].
  2: { eexists. split; [done|]. cbn. split; [done|]. left. intros v' Hv. destruct (Huniq v' Hv) as [_ E]. by rewrite E in Eq. }
  assert (Hv : json_text v text) by (apply json_text_iff; [done|]; exists q; split; [done|by apply zlen_zero_nil]).
  rewrite Hfound, negb_involutive. destruct (bool_decide (manifest_pages v = [])) eqn:Ep.
  { apply bool_decide_eq_true in Ep. eexists. split; [done|]. by exists v. }
  apply bool_decide_eq_false in Ep.
  assert (Htr' : ms_truncated ms' = bool_decide (r <> join_pages (manifest_pages v))).
  { destruct (ms_truncated ms'); symmetry; [apply bool_decide_eq_true|apply bool_decide_eq_false; tauto].
    intros ->. destruct Hex as (_ & Hex & _). lia. }
  destruct (ds_data (ms_source ms')) as [blk|] eqn:Ed.
  - eexists. split; [done|]. cbn. exists v, r. split_and!; try done. by rewrite (ds_rep_bytes _ _ Hr).
  - pose proof (ds_append_spec mem _ _ [] Hr ltac:(destruct Hex as (_ & Hl & _); rewrite zlen_nil; lia)) as Ha.
    destruct (ds4_string_append mem (ms_source ms') []) as [msg|s]; [eexists; split; [done|]; cbn; tauto|].
    destruct Ha as (Ha & _ & _). rewrite app_nil_r in Ha. eexists. split; [done|]. cbn. exists v, r. split_and!; try done.
    by rewrite (ds_rep_bytes _ _ Ha).
Qed.

(** * How a verifier's answer is judged *)

Lemma count_evidence_spec mem source items total found :
  (forall n, mem n = true) ->
  let ex := List.filter (fun ws => negb (bool_decide (ws = []))) (words <$> (cstr <$> items)) in
  count_evidence mem source items total found = (total + zlen ex, found + zlen (List.filter (fun ws => contains (unwords ws) source) ex)).
Proof.
  intros Hmem. revert total found. induction items as [|item items IH]; intros total found; cbn [count_evidence fmap list_fmap List.filter].
  { by rewrite !Z.add_0_r. }
  unfold ds4_normalize_ws. rewrite Hmem. destruct (normalize_words (cstr item)) as [-> _].
  assert (Hw : Forall (fun w => w <> []) (words (cstr item))).
  { unfold words. apply Forall_intro. intros w Hw. apply list_elem_of_In, filter_In in Hw as [_ Hw]. by destruct w. }
  destruct (words (cstr item)) as [|w ws] eqn:Ew; cbn [unwords].
  - cbn [bool_decide_eq_true negb]. rewrite bool_decide_eq_true_2 by done. cbn [negb]. change (zlen [] =? 0) with true. apply IH.
  - rewrite bool_decide_eq_false_2 by done. cbn [negb]. apply Forall_cons_iff in Hw as [Hw _].
    assert (E : (zlen (w ++ spaced ws) =? 0) = false).
    { apply Z.eqb_neq. rewrite zlen_app. pose proof (zlen_nonneg (spaced ws)). destruct w; [done|]. rewrite zlen_cons. pose proof (zlen_nonneg w). lia. }
    rewrite E, IH, zlen_cons. cbn [List.filter unwords]. destruct (contains (w ++ spaced ws) source); rewrite ?zlen_cons; f_equal; lia.
Qed.

Lemma answer_sound fuel p m q : bytes_ok p -> starts_at (ch "{") p = true ->
  ref_bracketed (ch "}") (ref_members (answer_value fuel) fuel) p = Some (m, q) ->
  exists t, p = t ++ q /\ value_text (-1) (JObject m) t.
Proof.
  intros Hp Hb H. apply starts_at_cons in Hb. apply bracketed_sound in H as (w & Hw & E & [[-> Es]|Hl]).
  - exists ([ch "{"] ++ w ++ [ch "}"]). split; [rewrite Hb, E, Es, <- !app_assoc; done|]. by constructor.
  - rewrite Hb, E in Hp. apply bytes_ok_cons, bytes_ok_app in Hp. apply (members_sound _ 0) in Hl as (t & Et & Ht); [|clear -fuel|done].
    + exists ([ch "{"] ++ (w ++ t) ++ [ch "}"]). split; [rewrite Hb, E, Et, <- !app_assoc; done|]. constructor; [done|]. by apply members_ws.
    + intros k x v r Hx. unfold answer_value. destruct (bool_decide _ && starts_at (ch "[") x) eqn:Ek.
      * apply andb_true_iff in Ek as [_ Ek]. apply starts_at_cons in Ek. intros H. apply bind_Some in H as ([l y] & H & [= <- <-]).
        apply bracketed_sound in H as (w & Hw & E & [[-> Es]|Hl]); exists [].
        -- exists ([ch "["] ++ w ++ [ch "]"]). split; [constructor|]. split; [rewrite Ek, E, Es; cbn; by rewrite <- !app_assoc|]. by constructor.
        -- rewrite Ek, E in Hx. apply bytes_ok_cons, bytes_ok_app in Hx. apply (elements_sound _ 1) in Hl as (t & Et & Ht); [|apply ref_value_sound|done].
           exists ([ch "["] ++ (w ++ t) ++ [ch "]"]). split; [constructor|]. split; [rewrite Ek, E, Et; cbn; by rewrite <- !app_assoc|].
           constructor; [done|]. by apply elements_ws.
      * intros H. apply ref_value_sound in H as (w & t & Hw & E & Ht); [|done]. exists w, t. split_and!; [done|done|].
        destruct value_text_mono as [Hm _]. by apply (Hm 1).
Qed.

Lemma answer_complete fuel p m t q : p = t ++ q -> value_text 0 (JObject m) t -> (length p <= fuel)%nat ->
  ref_bracketed (ch "}") (ref_members (answer_value fuel) fuel) p = Some (m, q).
Proof.
  intros -> Ht Hf. eapply bracketed_mono; [|by apply (object_complete fuel 0)]. intros x r Hm. eapply members_mono; [| |exact Hm]; [|done].
  intros k y z Hy. change (0 + 1) with 1 in Hy. unfold answer_value. destruct (bool_decide _ && starts_at (ch "[") y) eqn:Ek; [|exact Hy].
  apply andb_true_iff in Ek as [_ Ek]. apply starts_at_cons in Ek as Ey.
  destruct fuel as [|fuel]; [done|]. rewrite (ref_value_array fuel 1 y) in Hy by (done || (by rewrite Ey)).
  apply bind_Some in Hy as ([l s] & E & Hy). eapply bracketed_mono in E; [rewrite E; exact Hy|].
  intros a b Hab. eapply elements_mono; [| |exact Hab]; [|lia]. intros u w. apply ref_value_mono; lia.
Qed.

Lemma find_brace text : match find_sub [ch "{"] text with
  | Some brace => exists before, text = before ++ brace /\ (ch "{" ∉ before) /\ starts_at (ch "{") brace = true
  | None => ch "{" ∉ text
  end.
Proof.
  induction text as [|c text IH]; [apply not_elem_of_nil|]. cbn [find_sub starts_with]. rewrite andb_true_r. destruct (Z.eqb_spec (ch "{") c) as [<-|Hc].
  - exists []. split; [done|]. split; [apply not_elem_of_nil|]. cbn. by rewrite Z.eqb_refl.
  - destruct (find_sub [ch "{"] text) as [brace|]; [|by apply not_elem_of_cons]. destruct IH as (before & -> & Hb & Hs). exists (c :: before).
    split; [done|]. split; [by apply not_elem_of_cons|done].
Qed.

Lemma first_brace before before' t t' : ch "{" ∉ before -> ch "{" ∉ before' -> starts_at (ch "{") t = true -> starts_at (ch "{") t' = true ->
  before ++ t = before' ++ t' -> before = before' /\ t = t'.
Proof.
  revert before'. induction before as [|c before IH]; intros [|c' before'] H H' Hs Hs' E; [done|..]; cbn in E.
  - exfalso. apply starts_at_cons in Hs. rewrite Hs in E. injection E as <- _. by apply not_elem_of_cons in H' as [? _].
  - exfalso. apply starts_at_cons in Hs'. rewrite Hs' in E. injection E as -> _. by apply not_elem_of_cons in H as [? _].
  - injection E as -> E. apply not_elem_of_cons in H as [_ H]. apply not_elem_of_cons in H' as [_ H'].
    by destruct (IH before' H H' Hs Hs' E) as [-> ->].
Qed.

Lemma object_head d m t : value_text d (JObject m) t -> starts_at (ch "{") t = true.
Proof. by inversion 1. Qed.

(** C33. The judgement of an answer: with memory at hand, the object that begins at
    the first brace of the answer decides, whatever stands before and behind it.
    The scores are computed from its last score; all its evidence is counted that
    has a word, and as found exactly that whose words occur one after the other in
    the source, however they are spaced.  The answer is refused exactly if there is
    no such object or no score, up to one level of nesting. *)
Theorem verify_result_correct mem source answer err_len :
  (forall n, mem n = true) -> bytes_ok answer -> zlen (cstr answer) < 2 ^ 60 ->
  match ds4_crawl_verify_result mem (Some source) (Some answer) true err_len with
  | Verified v => exists before t after m score,
      cstr answer = before ++ t ++ after /\ (ch "{" ∉ before) /\ value_text (-1) (JObject m) t /\ score_of m = Some score /\
      semantic_of score = Some (semantic_score v) /\
      evidence_total v = zlen (excerpts m) /\ evidence_found v = zlen (List.filter (quoted source) (excerpts m)) /\
      accuracy_of (semantic_score v) (evidence_total v) (evidence_found v) = Some (accuracy_score v)
  | Undefined => exists before t after m score,
      cstr answer = before ++ t ++ after /\ (ch "{" ∉ before) /\ value_text (-1) (JObject m) t /\ score_of m = Some score /\
      forall semantic, semantic_of score = Some semantic ->
        accuracy_of semantic (zlen (excerpts m)) (zlen (List.filter (quoted source) (excerpts m))) = None
  | NotVerified _ => forall before t after m,
      cstr answer = before ++ t ++ after -> ch "{" ∉ before -> value_text 0 (JObject m) t -> score_of m = None
  | VerifyNoFuel => False
  end.
Proof.
  intros Hmem Hb Hsize. apply cstr_bytes_ok in Hb as Ht. unfold ds4_crawl_verify_result. set (text := cstr answer) in *. clearbody text.
  pose proof (find_brace text) as Hf. destruct (find_sub [ch "{"] text) as [brace|].
  2: { intros before t after m -> _ Hv. apply object_head, starts_at_cons in Hv. rewrite Hv in Hf.
       apply not_elem_of_app in Hf as [_ Hf]. by apply not_elem_of_cons in Hf as [? _]. }
  destruct Hf as (before & -> & Hbefore & Hs).
  assert (Hfirst : forall before' t after m, before ++ brace = before' ++ t ++ after -> ch "{" ∉ before' -> value_text 0 (JObject m) t -> brace = t ++ after).
  { intros before' t after m E H' Hv. apply object_head in Hv. symmetry.
    assert (Hs' : starts_at (ch "{") (t ++ after) = true) by (apply starts_at_cons in Hv; by rewrite Hv).
    by destruct (first_brace _ _ _ _ Hbefore H' Hs Hs' E). }
  set (vs0 := mkVerifier false d_zero (mkEvidence [] 0)).
  assert (Hrest : rest (before ++ brace) brace) by by exists before.
  pose proof (verifier_sim mem Hmem (before ++ brace) Ht Hsize (length brace) brace vs0 (None, []) Hrest Hs ltac:(done) ltac:(by split_and!)) as H.
  assert (Hok : bytes_ok brace) by by apply bytes_ok_app in Ht.
  destruct H as [H|[_ (n & _ & Hn)]]; [|by rewrite Hmem in Hn].
  destruct (ref_bracketed _ _ brace) as [[m q]|] eqn:Er.
  2: { destruct H as (msg & q & ->). intros before' t after m E H' Hv. pose proof (Hfirst _ _ _ _ E H' Hv) as Eb.
       by rewrite (answer_complete (length brace) brace m t after Eb Hv) in Er. }
  rewrite fold_verifier in H. cbn [fst snd app] in H. destruct H as (vs & -> & H1 & H2 & H3). unfold evidence_rep in H3. cbn [fst snd] in H1, H2, H3.
  destruct (answer_sound _ _ _ _ Hok Hs Er) as (t & -> & Hv). rewrite H1. destruct (score_of m) as [score|] eqn:Es.
  2: { cbn. intros before' t' after m' E H' Hv'. pose proof (Hfirst _ _ _ _ E H' Hv') as Eb.
       rewrite (answer_complete _ _ m' t' after Eb Hv') in Er by done. injection Er as -> _. done. }
  rewrite bool_decide_eq_true_2 by done. cbn [negb default from_option id] in *. rewrite H2.
  assert (Hc : forall src, count_evidence mem src (ev_items (vs_evidence vs)) 0 0 =
    (zlen (excerpts m), zlen (List.filter (fun ws => contains (unwords ws) src) (excerpts m)))).
  { intros src. rewrite count_evidence_spec by done. rewrite H3. by rewrite !Z.add_0_l. }
  destruct (semantic_of score) as [semantic|] eqn:Esem.
  2: { exists before, t, q, m, score. split_and!; try done. by rewrite Esem. }
  unfold ds4_normalize_ws at 1. rewrite Hmem. destruct (normalize_words (cstr source)) as [-> _]. rewrite Hc. fold (quoted source).
  destruct (accuracy_of semantic _ _) as [accuracy|] eqn:Ea; exists before, t, q, m, score; split_and!; try done.
  rewrite Esem. intros s [= <-]. exact Ea.
Qed.

(** * A crawl of three pages, and a verifier's answer *)

Definition any_memory (n : Z) : bool := true.

Definition example_manifest : bytes :=
  json_bytes "{'pages':[{'state':'succeeded','content':'hello w\u00e9'},{'state':'failed','content':'x'},{'content':'second','state':'succeeded','k':[1,2.5e-3,{}]}]} ".

Definition example_extracted : bytes := utf8s (bs "hello w" ++ [233]) ++ page_separator ++ bs "sec".

(** Thirty-four bytes hold the first page, the separator and half of the last page. *)
Lemma extract_source_correct_witness :
  exists x, ds4_crawl_extract_source any_memory (Some example_manifest) 34 true 256 = Some x /\
    x_status x = DS4_CRAWL_SOURCE_OK /\ x_source x = Some example_extracted /\ x_truncated x = true /\
    exists v r, json_text v (cstr example_manifest) /\ readable v /\ manifest_pages v <> [] /\
      excerpt 34 (manifest_pages v) r /\ utf8s r = example_extracted /\ r <> join_pages (manifest_pages v).
Proof.
  destruct (extract_source_correct any_memory example_manifest 34 256) as (x & E & H).
  - apply (bool_decide_unpack _). vm_compute. exact I.
  - reflexivity.
  - split; [done|reflexivity].
  - exists x. split; [exact E|]. vm_compute in E. injection E as <-. cbn [x_status x_source x_truncated] in H |- *.
    split_and!; try reflexivity. destruct H as (v & r & H1 & H2 & H3 & H4 & H5 & H6). exists v, r. split_and!; try done.
    + by injection H5 as <-.
    + by apply eq_sym, bool_decide_eq_true in H6.
Defined.

Definition example_source : bytes := json_bytes "the quick  brown fox".

Definition example_answer : bytes := json_bytes "Sure! {'score': 87.5, 'evidence':['quick brown', ' nope ', 3]} bye".

Lemma verify_result_correct_witness :
  ds4_crawl_verify_result any_memory (Some example_source) (Some example_answer) true 100 = Verified (mkVerification 88 2 1 80) /\
  exists before t after m score,
    cstr example_answer = before ++ t ++ after /\ (ch "{" ∉ before) /\ value_text (-1) (JObject m) t /\ score_of m = Some score /\
    semantic_of score = Some 88 /\ zlen (excerpts m) = 2 /\ zlen (List.filter (quoted example_source) (excerpts m)) = 1.
Proof.
  pose proof (verify_result_correct any_memory example_source example_answer 100 ltac:(done)
    ltac:(apply (bool_decide_unpack _); vm_compute; exact I) ltac:(reflexivity)) as H.
  split; [vm_compute; reflexivity|].
  replace (ds4_crawl_verify_result any_memory (Some example_source) (Some example_answer) true 100)
    with (Verified (mkVerification 88 2 1 80)) in H by (vm_compute; reflexivity).
  destruct H as (before & t & after & m & score & H1 & H2 & H3 & H4 & H5 & H6 & H7 & _).
  exists before, t, after, m, score. split_and!; by try done.
Defined.
