(* ===== verification/WrapHttp.v ===== *)
(** * WrapHttp: requests and answers of the wrapper service (ds4_wrapper_http.c)

    A connection is the bytes its client sends and a plan of how [recv] hands them
    out.  [mem] is the allocator. *)

From S2P Require Import Prelude Ctype Json Sha.

Definition MAX_HEADER : Z := 64 * 1024.
Definition MAX_BODY : Z := 64 * 1024 * 1024.
Definition WRAP_JSON_STRING_MAX : Z := MAX_BODY.

(** ** The connection *)

(** [RvBytes k]: at most [k] bytes (but one) are there. *)
Inductive recv_event := RvInterrupted | RvError | RvBytes (k : Z).

Record conn := mkConn { cn_in : bytes; cn_plan : list recv_event }.

Inductive received := RvGot (data : bytes) | RvAgain | RvEnd.

Definition recv_some (c : conn) (plan : list recv_event) (n : Z) : received * conn :=
  match cn_in c with
  | [] => (RvEnd, mkConn [] plan)
  | _ => (RvGot (take (Z.to_nat n) (cn_in c)), mkConn (drop (Z.to_nat n) (cn_in c)) plan)
  end.

(** [recv(fd, buf, want, 0)]; behind its plan the connection gives what is asked. *)
Definition recv (c : conn) (want : Z) : received * conn :=
  match cn_plan c with
  | RvInterrupted :: plan => (RvAgain, mkConn (cn_in c) plan)
  | RvError :: plan => (RvEnd, mkConn (cn_in c) plan)
  | RvBytes k :: plan => recv_some c plan (Z.min want (Z.max 1 k))
  | [] => recv_some c [] want
  end.

(** ** The head of a request *)

(** Behind the first occurrence. *)
Definition end_of (pat p : bytes) : option Z :=
  match find_sub pat p with Some r => Some (zlen p - zlen r + zlen pat) | None => None end.

Definition crlf2 : bytes := [13; 10; 13; 10].
Definition lf2 : bytes := [10; 10].

Definition find_header_end (p : bytes) : option Z :=
  match end_of crlf2 p with Some e => Some e | None => end_of lf2 p end.

Definition LONG_MAX : Z := INT64_MAX.

(** [strtol(s, NULL, 10)]; [None]: it reads on behind [s]. *)
Definition strtol10 (s : bytes) : option Z :=
  let s := drop (span_len isspace s) s in
  let '(neg, s) := match s with
                   | c :: s' => if c =? ch "-" then (true, s') else if c =? ch "+" then (false, s') else (false, s)
                   | [] => (false, [])
                   end in
  let n := span_len isdigit s in
  if (length s <=? n)%nat then None
  else
    let v := digits_value 0 (take n s) in
    Some (if neg then Z.max (- LONG_MAX - 1) (- v) else Z.min LONG_MAX v).

(** A line without its carriage return. *)
Definition strip_cr (line : bytes) : bytes :=
  match reverse line with c :: r => if c =? 13 then reverse r else line | [] => [] end.

Definition content_length_name : bytes := bs "Content-Length:".

(** [h] is the head, [behind] what was received behind it. *)
Fixpoint content_length_loop (fuel : nat) (h behind : bytes) : option Z :=
  match fuel, h with
  | S fuel, _ :: _ =>
      let n := span_len (fun c => negb (c =? 10)) h in
      let line := strip_cr (take n h) in
      if (15 <=? length line)%nat && bytes_eqb (tolower <$> take 15 line) (tolower <$> content_length_name) then
        strtol10 (drop (15 + span_len isspace (drop 15 line)) h ++ behind)
      else content_length_loop fuel (tail (drop n h)) behind
  | _, _ => Some 0
  end.

Definition get_content_length (h behind : bytes) : option Z := content_length_loop (length h) h behind.

(** [%<width>s] of [sscanf]. *)
Definition scan_word (width : nat) (s : bytes) : option (bytes * bytes) :=
  let s := drop (span_len isspace s) s in
  let n := Nat.min width (span_len (fun c => negb (isspace c)) s) in
  if (n =? 0)%nat then None else Some (take n s, drop n s).

(** Method and path of the first line, of which 511 bytes count. *)
Definition request_line (buf : bytes) : option (bytes * bytes) :=
  let line := cstr (take 511 (take (span_len (fun c => negb (c =? 10)) buf) buf)) in
  '(method, line) ← scan_word 15 line;
  '(path, _) ← scan_word 255 line;
  Some (method, take (span_len (fun c => negb (c =? ch "?")) path) path).

(** ** Reading a request *)

Record wrap_http_request := mkRequest { rq_method : bytes; rq_path : bytes; rq_body : bytes }.

(** [ReadsBehind]: bytes are read that were never received. *)
Inductive read_result := RequestRead (r : wrap_http_request) | RequestRefused | ReadsBehind | ReadNoFuel.

Section reading.
Variable mem : Z -> bool.

(** The doubling of the buffer up to the header limit. *)
Fixpoint grow_header (fuel : nat) (cap need : Z) : option Z :=
  if need <=? cap then Some cap
  else
    match fuel with
    | O => None
    | S fuel =>
        if (MAX_HEADER + 1 <=? cap) || (SIZE_MAX / 2 <? cap) then None
        else grow_header fuel (Z.min (cap * 2) (MAX_HEADER + 1)) need
    end.

Inductive header_result := HeaderRead (hend : Z) (buf : bytes) (cap : Z) (c : conn) | HeaderRefused | HeaderNoFuel.

Fixpoint header_loop (fuel : nat) (c : conn) (buf : bytes) (cap : Z) : header_result :=
  match fuel with
  | O => HeaderNoFuel
  | S fuel =>
      if MAX_HEADER <=? zlen buf then HeaderRefused
      else
        let want := Z.min 1024 (MAX_HEADER - zlen buf) in
        if (want =? 0) || (SIZE_MAX - want - 1 <? zlen buf) then HeaderRefused
        else
          let need_cap := zlen buf + want + 1 in
          match (if cap <? need_cap then (cap ← grow_header 64 cap need_cap; if mem cap then Some cap else None) else Some cap) with
          | None => HeaderRefused
          | Some cap =>
              match recv c want with
              | (RvAgain, c) => header_loop fuel c buf cap
              | (RvEnd, _) => HeaderRefused
              | (RvGot data, c) =>
                  let buf := buf ++ data in
                  match find_header_end buf with
                  | Some hend => HeaderRead hend buf cap c
                  | None => header_loop fuel c buf cap
                  end
              end
          end
  end.

Fixpoint body_loop (fuel : nat) (c : conn) (buf : bytes) (total : Z) : option (option bytes) :=
  if total <=? zlen buf then Some (Some buf)
  else
    match fuel with
    | O => None
    | S fuel =>
        match recv c (total - zlen buf) with
        | (RvAgain, c) => body_loop fuel c buf total
        | (RvEnd, _) => Some None
        | (RvGot data, c) => body_loop fuel c (buf ++ data) total
        end
    end.

(** Every call of [recv] uses up an event of the plan or a byte. *)
Definition conn_fuel (c : conn) : nat := S (length (cn_plan c) + length (cn_in c)).

Definition read_request (c : conn) : read_result :=
  if negb (mem 4096) then RequestRefused
  else
    match header_loop (conn_fuel c) c [] 4096 with
    | HeaderNoFuel => ReadNoFuel
    | HeaderRefused => RequestRefused
    | HeaderRead hend buf cap c =>
        match request_line buf with
        | None => RequestRefused
        | Some (method, path) =>
            match get_content_length (take (Z.to_nat hend) buf) (drop (Z.to_nat hend) buf) with
            | None => ReadsBehind
            | Some clen =>
                if (clen <? 0) || (MAX_BODY <? clen) then RequestRefused
                else if SIZE_MAX - clen - 1 <? hend then RequestRefused
                else
                  let total_needed := hend + clen in
                  if (cap <? total_needed + 1) && negb (mem (total_needed + 1)) then RequestRefused
                  else
                    match body_loop (conn_fuel c) c buf total_needed with
                    | None => ReadNoFuel
                    | Some None => RequestRefused
                    | Some (Some buf) =>
                        if negb (mem (clen + 1)) then RequestRefused
                        else RequestRead (mkRequest method path (take (Z.to_nat clen) (drop (Z.to_nat hend) buf)))
                    end
            end
        end
    end.

(** ** Fields of a request's body *)

(** [JsReadsBehind]: the end of the text is passed. *)
Inductive json_field := JsNone | JsString (s : bytes) | JsReadsBehind.

(** The capacity before a byte or two are written. *)
Definition grow_value (len cap : Z) : option Z :=
  if cap <=? len + 2 then
    if WRAP_JSON_STRING_MAX + 1 <=? cap then None
    else
      let new_cap := if SIZE_MAX / 2 <? cap then WRAP_JSON_STRING_MAX + 1 else cap * 2 in
      let new_cap := Z.min new_cap (WRAP_JSON_STRING_MAX + 1) in
      if (new_cap <=? cap) || negb (mem new_cap) then None else Some new_cap
  else Some cap.

Fixpoint value_loop (p val : bytes) (cap : Z) : json_field :=
  match p with
  | [] => JsString val
  | c :: p =>
      if c =? quote then JsString val
      else
        match grow_value (zlen val) cap with
        | None => JsNone
        | Some cap =>
            if c =? backslash then
              match p with
              | [] => JsReadsBehind
              | e :: p =>
                  let out := if e =? ch "n" then [10] else if e =? ch "r" then [13] else if e =? ch "t" then [9]
                             else if (e =? quote) || (e =? backslash) || (e =? ch "/") then [e] else [backslash; e] in
                  value_loop p (val ++ out) cap
              end
            else value_loop p (val ++ [c]) cap
        end
  end.

Definition parse_json_string (json : option bytes) (key : bytes) : json_field :=
  match json with
  | None => JsNone
  | Some json =>
      let pattern := take 127 ([quote] ++ cstr key ++ [quote]) in
      match find_sub pattern (cstr json) with
      | None => JsNone
      | Some p =>
          match find_sub [ch ":"] (drop (length pattern) p) with
          | None => JsNone
          | Some p =>
              let p := tail p in
              match drop (span_len isspace p) p with
              | c :: p => if c =? quote then if mem 256 then value_loop p [] 256 else JsNone else JsNone
              | [] => JsNone
              end
          end
      end
  end.

(** The mode of a switch-mode request. *)
Definition is_mode_lead (c : Z) : bool := (c =? ch ":") || (c =? ch " ") || (c =? 9) || (c =? quote) || (c =? 39).

Definition switch_mode_target (body : bytes) : option bool :=
  p ← find_sub ([quote] ++ bs "mode" ++ [quote]) (cstr body);
  p ← find_sub [ch ":"] (drop 6 p);
  let p := drop (span_len is_mode_lead p) p in
  if starts_with (bs "agent") p then Some true else if starts_with (bs "server") p then Some false else None.

(** ** Answers *)

(** One byte of [wrap_json_escape_dup]. *)
Definition wrap_escape_char (c : Z) : bytes :=
  if (c =? quote) || (c =? backslash) then [backslash; c]
  else if c =? 10 then [backslash; ch "n"]
  else if c =? 13 then [backslash; ch "r"]
  else if c =? 9 then [backslash; ch "t"]
  else if c <? 0x20 then [backslash; ch "u"] ++ hex4 c
  else [c].

Definition wrap_json_escape_dup (s : option bytes) : option bytes :=
  let s := cstr (default [] s) in
  if mem (zlen s * 6 + 1) then Some (flat_map wrap_escape_char s) else None.

Record ds4_agent_command_result := mkCommandResult {
  cr_ok : bool; cr_http_status : Z; cr_switch_to_server : bool; cr_command : bytes; cr_message : option bytes; cr_data_json : option bytes
}.

Definition json_flag (b : bool) : bytes := if b then bs "true" else bs "false".

Definition quoted_text (s : bytes) : bytes := [quote] ++ s ++ [quote].

Definition native_agent_result_json (result : ds4_agent_command_result) (active : bool) : option bytes :=
  message ← wrap_json_escape_dup (cr_message result);
  let body :=
    bs "{" ++ quoted_text (bs "ok") ++ bs ":" ++ json_flag (cr_ok result) ++
    bs "," ++ quoted_text (bs "command") ++ bs ":" ++ quoted_text (cstr (cr_command result)) ++
    bs "," ++ quoted_text (bs "message") ++ bs ":" ++ quoted_text message ++
    bs "," ++ quoted_text (bs "data") ++ bs ":" ++ cstr (default (bs "null") (cr_data_json result)) ++
    bs "," ++ quoted_text (bs "active") ++ bs ":" ++ json_flag active ++ bs "}" ++ [10] in
  if mem (zlen body + 1) then Some body else None.

Definition json_error_body (err_code msg : bytes) : bytes :=
  bs "{" ++ quoted_text (bs "ok") ++ bs ":false," ++ quoted_text (bs "error") ++ bs ":" ++ quoted_text (cstr err_code) ++
  bs "," ++ quoted_text (bs "message") ++ bs ":" ++ quoted_text (cstr msg) ++ bs "}" ++ [10].

End reading.
