(* ===== verification/WrapHttpFacts.v ===== *)
(** * WrapHttpFacts: requests in pieces, and answers that are JSON *)

From S2P Require Import Prelude DynBuf Sha Ctype KvStore TcLines Strtod Json JsonFacts Grounding JsonRead GroundingSim GroundingPages GroundingRefine WrapHttp.

(** ** Searching in what has been received so far *)










(** ** The loops *)

Section loops.
Context (mem : Z -> bool) (Hmem : forall n, mem n = true).






End loops.

(** ** The head, whatever follows it *)







(** ** Texts in answers and requests *)

Lemma wrap_escape_same c : wrap_escape_char c = escape_char c.
Proof. reflexivity. Qed.

(** What the reader of the wrapper undoes: everything but the other controls. *)
Definition plain (c : Z) : Prop := 32 <= c \/ c = 9 \/ c = 10 \/ c = 13.

Section values.
Context (mem : Z -> bool) (Hmem : forall n, mem n = true).

Lemma grow_value_ok len cap : 256 <= cap <= WRAP_JSON_STRING_MAX + 1 -> len + 2 < WRAP_JSON_STRING_MAX + 1 -> len <= cap ->
  exists cap', grow_value mem len cap = Some cap' /\ cap <= cap' <= WRAP_JSON_STRING_MAX + 1 /\ len + 2 < cap'.
Proof using Hmem.
  intros Hc Hl Hlc. unfold grow_value. destruct (Z.leb_spec cap (len + 2)); [|exists cap; split; [done|lia]].
  rewrite (proj2 (Z.leb_gt _ _)) by lia.
  assert (Hs : WRAP_JSON_STRING_MAX + 1 <= SIZE_MAX / 2) by (vm_compute; discriminate).
  rewrite (proj2 (Z.ltb_ge _ _)) by lia. rewrite Hmem. cbn [negb]. rewrite orb_false_r, (proj2 (Z.leb_gt _ _)) by lia.
  eexists. split; [done|]. lia.
Qed.

Lemma value_loop_escape s val cap rest :
  Forall plain s -> zlen val + zlen s + 2 < WRAP_JSON_STRING_MAX + 1 -> 256 <= cap <= WRAP_JSON_STRING_MAX + 1 -> zlen val <= cap ->
  value_loop mem (flat_map wrap_escape_char s ++ quote :: rest) val cap = JsString (val ++ s).
Proof using Hmem.
  revert val cap. induction s as [|c s IH]; intros val cap Hs Hl Hc Hv; [cbn; by rewrite app_nil_r|].
  apply Forall_cons_iff in Hs as [Hp Hs]. rewrite zlen_cons in Hl. pose proof (zlen_nonneg s). pose proof (zlen_nonneg val).
  destruct (grow_value_ok (zlen val) cap) as (cap' & Eg & Hc' & Hl'); [done|lia|done|].
  assert (Hnext : value_loop mem (flat_map wrap_escape_char s ++ quote :: rest) (val ++ [c]) cap' = JsString (val ++ c :: s)).
  { rewrite IH; [by rewrite <- app_assoc|done|rewrite zlen_app, zlen_cons, zlen_nil; lia|lia|rewrite zlen_app, zlen_cons, zlen_nil; lia]. }
  cbn [flat_map]. unfold wrap_escape_char at 1.
  destruct ((c =? quote) || (c =? backslash)) eqn:E1.
  { cbn [app value_loop]. change (backslash =? quote) with false. rewrite Eg. change (backslash =? backslash) with true. cbv iota.
    rewrite <- Hnext. apply orb_true_iff in E1 as [E%Z.eqb_eq|E%Z.eqb_eq]; by subst c. }
  apply orb_false_iff in E1 as [E1 E2].
  destruct (Z.eqb_spec c 10) as [->|N1].
  { cbn [app value_loop]. change (backslash =? quote) with false. rewrite Eg. exact Hnext. }
  destruct (Z.eqb_spec c 13) as [->|N2].
  { cbn [app value_loop]. change (backslash =? quote) with false. rewrite Eg. exact Hnext. }
  destruct (Z.eqb_spec c 9) as [->|N3].
  { cbn [app value_loop]. change (backslash =? quote) with false. rewrite Eg. exact Hnext. }
  destruct Hp as [Hp|[|[|]]]; [|done..]. rewrite (proj2 (Z.ltb_ge _ _)) by lia.
  cbn [app value_loop]. rewrite E1, Eg, E2. exact Hnext.
Qed.

End values.

(** A text that the wrapper puts into an answer is what it finds in a request:
    escaping it, and reading the field that holds it, give the text back, if its
    only control characters are tabs and line ends and it is below the size limit. *)
Lemma message_roundtrip mem key s rest :
  (forall n, mem n = true) -> no_nul s -> Forall plain s -> zlen s + 2 <= WRAP_JSON_STRING_MAX ->
  no_nul key -> zlen key <= 125 ->
  exists t, wrap_json_escape_dup mem (Some s) = Some t /\
    parse_json_string mem (Some (bs "{" ++ quoted_text key ++ bs ":" ++ quoted_text t ++ rest)) key = JsString s.
Proof.
  intros Hmem Hn Hp Hl Hk Hkl. unfold wrap_json_escape_dup. cbn [default from_option id]. rewrite Hmem, cstr_no_nul by done.
  eexists. split; [done|]. set (t := flat_map wrap_escape_char s). unfold parse_json_string. rewrite (cstr_no_nul key) by done.
  change ([quote] ++ key ++ [quote]) with (quoted_text key).
  assert (Hlen : (length (quoted_text key) <= 127)%nat).
  { unfold quoted_text. rewrite !length_app. cbn [length]. unfold zlen in Hkl. lia. }
  rewrite take_ge by done.
  assert (Ht : no_nul t).
  { unfold t. clear -Hn Hp. induction s as [|c s IH]; [constructor|]. apply Forall_cons_iff in Hn as [Hc Hn]. apply Forall_cons_iff in Hp as [Hpc Hp].
    cbn [flat_map]. apply no_nul_app. split; [|by apply IH]. unfold wrap_escape_char.
    destruct (_ || _); [by repeat constructor|]. destruct (Z.eqb_spec c 10); [by repeat constructor|]. destruct (Z.eqb_spec c 13); [by repeat constructor|].
    destruct (Z.eqb_spec c 9); [by repeat constructor|]. destruct Hpc as [Hpc|[|[|]]]; [|done..]. rewrite (proj2 (Z.ltb_ge _ _)) by lia. by repeat constructor. }
  assert (Hc : cstr (bs "{" ++ quoted_text key ++ bs ":" ++ quoted_text t ++ rest) =
               bs "{" ++ quoted_text key ++ bs ":" ++ [quote] ++ t ++ quote :: cstr rest).
  { set (a := bs "{" ++ quoted_text key ++ bs ":" ++ [quote] ++ t ++ [quote]).
    assert (Ha : no_nul a). { unfold a, quoted_text. rewrite !no_nul_app. by repeat split; try (by repeat constructor). }
    transitivity (cstr (a ++ rest)); [f_equal; unfold a, quoted_text; by rewrite <- !app_assoc|].
    assert (Hcut : forall x, no_nul x -> cstr (x ++ rest) = x ++ cstr rest).
    { intros x Hx. induction Hx as [|c x Hcx Hx IH]; [done|]. cbn. rewrite (proj2 (Z.eqb_neq _ _)) by done. by rewrite IH. }
    rewrite (Hcut a Ha). unfold a. rewrite <- !app_assoc. done. }
  rewrite Hc. clear Hc.
  assert (Hfind : find_sub (quoted_text key) (bs "{" ++ quoted_text key ++ bs ":" ++ [quote] ++ t ++ quote :: cstr rest) =
                  Some (quoted_text key ++ bs ":" ++ [quote] ++ t ++ quote :: cstr rest)).
  { change (bs "{" ++ ?x) with (ch "{" :: x). cbn [find_sub]. change (starts_with (quoted_text key) (ch "{" :: ?x)) with false. cbv iota.
    set (x := _ ++ _ ++ _). destruct x eqn:Ex; [done|]. rewrite <- Ex. unfold x. unfold find_sub. destruct (quoted_text key ++ _) eqn:E; [done|].
    rewrite <- E, starts_with_app. done. }
  rewrite Hfind, drop_app_length. change (bs ":" ++ ?x) with (ch ":" :: x).
  change (find_sub [ch ":"] (ch ":" :: ?x)) with (Some (ch ":" :: x)). cbv beta iota zeta. cbn [tail app].
  change (span_len isspace (quote :: ?x)) with 0%nat. rewrite drop_0. change (quote =? quote) with true. cbv iota. rewrite Hmem.
  unfold t. rewrite (value_loop_escape mem Hmem); [done|done|rewrite zlen_nil; lia|by split; vm_compute|by rewrite zlen_nil].
Qed.

(** * The answers of the wrapper are JSON *)

Lemma utf8_put_high cp : scalar cp -> 128 <= cp -> Forall (fun b => 128 <= b) (utf8_put cp).
Proof.
  intros Hs Hh. unfold scalar in Hs. destruct (put_head cp Hh) as (c & r & E & Hc). specialize (Hc ltac:(lia)). revert E. unfold utf8_put.
  rewrite (proj2 (Z.leb_gt cp 127)) by lia.
  assert (Hcont : forall k, 0 <= k -> 128 <= u8 (Z.lor 128 (Z.land (Z.shiftr cp k) 63))) by (intros k Hk; rewrite cont_byte by lia; zdiv_lia).
  assert (H0 : 128 <= u8 (Z.lor 128 (Z.land (Z.shiftr cp 0) 63))) by (by apply Hcont).
  assert (H6 : 128 <= u8 (Z.lor 128 (Z.land (Z.shiftr cp 6) 63))) by (by apply Hcont).
  assert (H12 : 128 <= u8 (Z.lor 128 (Z.land (Z.shiftr cp 12) 63))) by (by apply Hcont).
  destruct (cp <=? 2047); [|destruct (cp <=? 65535)]; intros [= -> <-]; repeat (constructor; [lia|]); constructor.
Qed.

(** One character, escaped. *)
Lemma wrap_char_text cp : scalar cp -> cp <> 0 -> char_text cp (flat_map wrap_escape_char (utf8_put cp)).
Proof.
  intros Hs Hz. assert (H0 : 0 <= cp) by (destruct Hs; lia).
  destruct (Z.ltb_spec cp 128) as [Hlow|Hhigh].
  - rewrite put_ascii by lia. cbn [flat_map]. rewrite app_nil_r. unfold wrap_escape_char.
    destruct ((cp =? quote) || (cp =? backslash)) eqn:E1.
    { apply orb_true_iff in E1 as [->%Z.eqb_eq| ->%Z.eqb_eq]; apply char_short; apply (bool_decide_unpack _); vm_compute; exact I. }
    apply orb_false_iff in E1 as [E1%Z.eqb_neq E2%Z.eqb_neq].
    destruct (Z.eqb_spec cp 10) as [->|]; [apply char_short; apply (bool_decide_unpack _); vm_compute; exact I|].
    destruct (Z.eqb_spec cp 13) as [->|]; [apply char_short; apply (bool_decide_unpack _); vm_compute; exact I|].
    destruct (Z.eqb_spec cp 9) as [->|]; [apply char_short; apply (bool_decide_unpack _); vm_compute; exact I|].
    destruct (Z.ltb_spec cp 0x20) as [Hc|Hc].
    + apply char_unit; [|lia]. assert (Hall : forallb (fun n => let c := Z.of_nat n in
        (length (hex4 c) =? 4)%nat && forallb isxdigit (hex4 c) && (hex_value_of 0 (hex4 c) =? c)) (seq 0 32) = true) by (vm_compute; reflexivity).
      rewrite forallb_forall in Hall. specialize (Hall (Z.to_nat cp)). rewrite Z2Nat.id in Hall by lia.
      assert (Hin : In (Z.to_nat cp) (seq 0 32)) by (apply in_seq; lia). specialize (Hall Hin). cbv zeta in Hall.
      apply andb_true_iff in Hall as [Hall E3%Z.eqb_eq]. apply andb_true_iff in Hall as [E4%Nat.eqb_eq E5].
      split_and!; [done| |done]. apply Forall_intro. intros x Hx. rewrite forallb_forall in E5. by apply E5, list_elem_of_In.
    + apply char_raw; [|done|done|done]. by rewrite <- (put_ascii cp) at 1 by lia; apply utf8_decode_put.
  - assert (E : flat_map wrap_escape_char (utf8_put cp) = utf8_put cp).
    { pose proof (utf8_put_high cp Hs Hhigh) as Hb. clear -Hb. induction Hb as [|b l Hb _ IH]; [done|]. cbn [flat_map]. rewrite IH.
      unfold wrap_escape_char, quote, backslash. rewrite !(proj2 (Z.eqb_neq _ _)) by lia. by rewrite (proj2 (Z.ltb_ge _ _)) by lia. }
    rewrite E. apply char_raw; [by apply utf8_decode_put|lia|lia|lia].
Qed.

Lemma wrap_chars_text s : Forall scalar s -> 0 ∉ s -> chars_text s (flat_map wrap_escape_char (utf8s s)).
Proof.
  intros Hs Hz. induction Hs as [|cp s Hc _ IH]; [constructor|]. apply not_elem_of_cons in Hz as [Hz Hz'].
  unfold utf8s in *. cbn [flat_map]. rewrite flat_map_app. constructor; [by apply wrap_char_text|by apply IH].
Qed.

Lemma ascii_string s : Forall (fun c => 32 <= c < 127 /\ c <> quote /\ c <> backslash) s -> string_text s (quoted_text s).
Proof.
  intros Hs. exists s. split; [|done]. induction Hs as [|c s (Hc & Hq & Hb) _ IH]; [constructor|].
  change (c :: s) with ([c] ++ s) at 2. constructor; [|done]. apply char_raw; try done; [|lia].
  rewrite <- (put_ascii c) by lia. apply utf8_decode_put. left. lia.
Qed.

(** A field without spaces. *)
Lemma field_text d k kt v t : string_text k kt -> value_text d v t -> members_text d [(k, v)] (kt ++ bs ":" ++ t).
Proof.
  intros Hk Hv. rewrite <- (app_nil_r t). change (members_text d [(k, v)] ([] ++ kt ++ [] ++ [ch ":"] ++ [] ++ t ++ [])). by apply mt_last; try constructor.
Qed.

Lemma fields_text d k kt v t m r : string_text k kt -> value_text d v t -> members_text d m r ->
  members_text d ((k, v) :: m) (kt ++ bs ":" ++ t ++ bs "," ++ r).
Proof.
  intros Hk Hv Hm. change (members_text d ((k, v) :: m) ([] ++ kt ++ [] ++ [ch ":"] ++ [] ++ t ++ [] ++ [ch ","] ++ r)). by apply mt_more; try constructor.
Qed.

Lemma flag_text d b : value_text d (JBool b) (json_flag b).
Proof. destruct b; constructor. Qed.

Ltac key_text := apply ascii_string; repeat constructor; done.

(** The answer to a command of the agent is JSON that says what the command
    said: whatever characters the message has, quotes, line ends and controls
    included, the text is an object whose fields hold the flags, the command, the
    message character by character, and the data as they were given. *)
Lemma command_result_is_json mem result active command message data :
  (forall n, mem n = true) ->
  cr_command result = command -> Forall (fun c => 32 <= c < 127 /\ c <> quote /\ c <> backslash) command ->
  cr_message result = Some (utf8s message) -> Forall scalar message -> 0 ∉ message ->
  value_text 1 data (cstr (default (bs "null") (cr_data_json result))) ->
  exists body, native_agent_result_json mem result active = Some body /\
    json_text (JObject [(bs "ok", JBool (cr_ok result)); (bs "command", JString command); (bs "message", JString message);
                        (bs "data", data); (bs "active", JBool active)]) body.
Proof.
  intros Hmem <- Hcmd Hmsg Hs Hz Hd. unfold native_agent_result_json, wrap_json_escape_dup. rewrite Hmsg. cbn [default from_option id].
  rewrite !Hmem. cbn [mbind option_bind]. rewrite Hmem. rewrite (cstr_no_nul (utf8s message)) by (by apply utf8s_no_nul).
  rewrite (cstr_no_nul (cr_command result)) by (eapply Forall_impl; [|exact Hcmd]; cbn; lia).
  eexists. split; [reflexivity|]. set (data_text := cstr _) in *.
  eexists [], _, [10]. split; [constructor|]. split; [|split; [constructor; [tauto|constructor]|]].
  - apply vt_object; [done|]. apply fields_text; [key_text|apply flag_text|]. apply fields_text; [key_text|apply vt_string; by apply ascii_string|].
    eapply (fields_text _ _ _ _ (quoted_text (flat_map wrap_escape_char (utf8s message)))); [key_text| |].
    { apply vt_string. exists (flat_map wrap_escape_char (utf8s message)). split; [by apply wrap_chars_text|reflexivity]. }
    apply fields_text; [key_text|exact Hd|]. apply field_text; [key_text|apply flag_text].
  - cbn [app]. rewrite <- !app_assoc. reflexivity.
Qed.

(** ** Examples

    Texts are written with bars for line ends and apostrophes for quotation marks. *)

Definition http_bytes (s : string) : bytes := flat_map (fun c => if c =? ch "|" then [13; 10] else if c =? ch "'" then [quote] else [c]) (bs s).

Definition all_memory (n : Z) : bool := true.




Definition demo_message : bytes := http_bytes "say 'hi'|and \ go".

Lemma message_roundtrip_witness :
  exists t, wrap_json_escape_dup all_memory (Some demo_message) = Some t /\
    parse_json_string all_memory (Some (bs "{" ++ quoted_text (bs "message") ++ bs ":" ++ quoted_text t ++ bs "}")) (bs "message") = JsString demo_message.
Proof.
  apply (message_roundtrip all_memory (bs "message") demo_message (bs "}")).
  - done.
  - apply (bool_decide_unpack _). vm_compute. exact I.
  - apply Forall_intro. intros c Hc. unfold plain. apply (Forall_elem (fun c => 32 <= c \/ c = 9 \/ c = 10 \/ c = 13) demo_message); [|done].
    apply (bool_decide_unpack _). vm_compute. exact I.
  - vm_compute. discriminate.
  - apply (bool_decide_unpack _). vm_compute. exact I.
  - vm_compute. discriminate.
Defined.

Definition demo_result : ds4_agent_command_result := mkCommandResult true 200 false (bs "list") (Some (utf8s [104; 233; 10; 1; 34])) (Some (bs "[]")).

Lemma command_result_is_json_witness :
  exists body, native_agent_result_json all_memory demo_result true = Some body /\
    json_text (JObject [(bs "ok", JBool true); (bs "command", JString (bs "list")); (bs "message", JString [104; 233; 10; 1; 34]);
                        (bs "data", JArray []); (bs "active", JBool true)]) body.
Proof.
  apply (command_result_is_json all_memory demo_result true (bs "list") [104; 233; 10; 1; 34] (JArray [])).
  - done.
  - done.
  - apply (bool_decide_unpack _). vm_compute. exact I.
  - done.
  - unfold scalar. apply (bool_decide_unpack _). vm_compute. exact I.
  - apply (bool_decide_unpack _). vm_compute. exact I.
  - apply (vt_array_nil 1 []); [done|constructor].
Defined.
