(* ===== verification/Dsml.v ===== *)
(** * Dsml: tool calls as the model writes and reads them (ds4_server.c)

    The renderer turns a structured tool call into the markup of the prompt, the
    parser turns sampled markup back into structured calls, and the repair closes
    a truncated block.  Texts are C strings: the bytes up to the NUL. *)

From S2P Require Import Prelude Ctype Json JsonFacts JsonRequest.

(** ** Structures *)

(** [raw_dsml] is the sampled block, kept for exact replay. *)
Record tool_calls := mkCalls {
  tcs_v : list tool_call;
  tcs_raw_dsml : option bytes
}.

Definition tool_calls_zero : tool_calls := mkCalls [] None.

Definition tool_calls_free (calls : tool_calls) : tool_calls := tool_calls_zero.

Definition tool_calls_push (calls : tool_calls) (tc : tool_call) : tool_calls :=
  mkCalls (tcs_v calls ++ [tc]) (tcs_raw_dsml calls).

Record json_arg := mkArg {
  ja_key : bytes;
  ja_value : bytes;
  ja_is_string : bool;
  ja_used : bool
}.

Definition json_args_find_unused (args : list json_arg) (key : bytes) : option nat :=
  fst <$> list_find (fun a => negb (ja_used a) && bytes_eqb (ja_key a) key) args.

(** One member of the object.  Keys and values are only read as C strings. *)
Definition json_args_field (key : bytes) (args : list json_arg) (p : bytes) : jres (list json_arg) :=
  let p := json_ws p in
  if peek p =? quote then
    let? (value, p) := json_string p in JOk (args ++ [mkArg key (cstr value) true false]) p
  else
    let? (raw, p) := json_raw_value p in
    JOk (args ++ [mkArg key (json_minify_raw_value (Some raw)) false false]) p.

Definition json_args_parse (json : option bytes) : jres (list json_arg) :=
  let p := json_ws (cstr (default [] json)) in
  if negb (at_ch p "{") then JFail else json_fields json_args_field [] (tail p).

(** ** Markup *)

Definition DS4_DSML : bytes := bs "｜DSML｜".
Definition DS4_DSML_SHORT : bytes := bs "DSML｜".

(** The six tags of one spelling: the token, the token without its first bar, and
    plain XML. *)
Record markup := mkMarkup {
  tool_calls_start : bytes;
  tool_calls_end : bytes;
  invoke_start : bytes;
  invoke_end : bytes;
  param_start : bytes;
  param_end : bytes
}.

Definition markup_of (mark : bytes) : markup := {|
  tool_calls_start := bs "<" ++ mark ++ bs "tool_calls>";
  tool_calls_end := bs "</" ++ mark ++ bs "tool_calls>";
  invoke_start := bs "<" ++ mark ++ bs "invoke";
  invoke_end := bs "</" ++ mark ++ bs "invoke>";
  param_start := bs "<" ++ mark ++ bs "parameter";
  param_end := bs "</" ++ mark ++ bs "parameter>"
|}.

Definition dsml_markup : markup := markup_of DS4_DSML.
Definition short_markup : markup := markup_of DS4_DSML_SHORT.
Definition xml_markup : markup := markup_of [].

(** ** The renderer *)

Definition attr_char (c : Z) : bytes :=
  if c =? ch "&" then bs "&amp;"
  else if c =? ch "<" then bs "&lt;"
  else if c =? ch ">" then bs "&gt;"
  else if c =? quote then bs "&quot;"
  else [c].

Definition append_dsml_attr_escaped (s : bytes) : bytes := flat_map attr_char (cstr s).

(** The three writers that only protect a closing tag: where it begins, its first
    byte is replaced. *)
Fixpoint protect (close repl s : bytes) : bytes :=
  match s with
  | [] => []
  | c :: s' => (if starts_with close s then repl else [c]) ++ protect close repl s'
  end.

Definition append_dsml_parameter_text (s : bytes) : bytes :=
  protect (param_end dsml_markup) (bs "&lt;") (cstr s).

Definition append_tool_result_text (s : bytes) : bytes :=
  protect (bs "</tool_result>") (bs "&lt;") (cstr s).

Definition append_dsml_json_literal (s : bytes) : bytes :=
  protect (param_end dsml_markup) (backslash :: bs "u003c") (cstr s).

Definition append_dsml_arg (a : json_arg) : bytes :=
  bs "<｜DSML｜parameter name=" ++ [quote] ++ append_dsml_attr_escaped (ja_key a) ++
  [quote] ++ bs " string=" ++ [quote] ++ (if ja_is_string a then bs "true" else bs "false") ++
  [quote] ++ bs ">" ++
  (if ja_is_string a then append_dsml_parameter_text (ja_value a)
   else append_dsml_json_literal (ja_value a)) ++
  bs "</｜DSML｜parameter>" ++ [10].

(** The arguments in the order of the tool's schema first. *)
Fixpoint append_ordered_args (order : list bytes) (args : list json_arg) : bytes * list json_arg :=
  match order with
  | [] => ([], args)
  | prop :: order' =>
      match json_args_find_unused args prop with
      | None => append_ordered_args order' args
      | Some idx =>
          match args !! idx with
          | None => append_ordered_args order' args
          | Some a =>
              let '(b, args) := append_ordered_args order'
                (<[idx := mkArg (ja_key a) (ja_value a) (ja_is_string a) true]> args) in
              (append_dsml_arg a ++ b, args)
          end
      end
  end.

(** [JFail] is the return value [false]. *)
Definition append_dsml_arguments_from_json (json : option bytes) (order : option (list bytes)) : jres bytes :=
  let? (args, p) := json_args_parse json in
  let '(b, args) := append_ordered_args (default [] order) args in
  JOk (b ++ flat_map (fun a => if ja_used a then [] else append_dsml_arg a) args) p.

Definition append_json_arg_pair (a : json_arg) : bytes :=
  json_escape (ja_key a) ++ bs ":" ++
  (if ja_is_string a then json_escape (ja_value a) else cstr (ja_value a)).

Fixpoint append_json_arg_pairs (wrote : bool) (args : list json_arg) : bytes :=
  match args with
  | [] => []
  | a :: args' => (if wrote then bs "," else []) ++ append_json_arg_pair a ++ append_json_arg_pairs true args'
  end.

Definition append_json_object_or_empty (json : option bytes) : bytes :=
  match json_args_parse json with
  | JOk args _ => bs "{" ++ append_json_arg_pairs false args ++ bs "}"
  | _ => bs "{}"
  end.

Definition append_dsml_invoke (tc : tool_call) : bytes :=
  bs "<｜DSML｜invoke name=" ++ [quote] ++ append_dsml_attr_escaped (default [] (tc_name tc)) ++
  [quote] ++ bs ">" ++ [10] ++
  match append_dsml_arguments_from_json (tc_arguments tc) None with
  | JOk b _ => b
  | _ => bs "<｜DSML｜parameter name=" ++ [quote] ++ bs "arguments" ++ [quote] ++ bs " string=" ++
         [quote] ++ bs "true" ++ [quote] ++ bs ">" ++
         append_dsml_parameter_text (default [] (tc_arguments tc)) ++
         bs "</｜DSML｜parameter>" ++ [10]
  end ++
  bs "</｜DSML｜invoke>" ++ [10].

Definition append_dsml_tool_calls_text (calls : tool_calls) : bytes :=
  match tcs_v calls with
  | [] => []
  | _ :: _ =>
      match cstr (default [] (tcs_raw_dsml calls)) with
      | [] =>
          [10; 10] ++ bs "<｜DSML｜tool_calls>" ++ [10] ++
          flat_map append_dsml_invoke (tcs_v calls) ++ bs "</｜DSML｜tool_calls>"
      | raw => raw
      end
  end.

Definition append_json_object_string (json : option bytes) : bytes :=
  json_escape (append_json_object_or_empty json).

(** ** Searching *)

(** [strchr]: the text from the first [c] on. *)
Fixpoint strchr (p : bytes) (c : Z) : option bytes :=
  match p with
  | [] => None
  | x :: p' => if x =? c then Some p else strchr p' c
  end.

(** [strstr] *)
Definition strstr (p needle : bytes) : option bytes := find_sub needle p.

(** [q - p] for a cursor [q] behind [p]. *)
Definition offset (p q : bytes) : nat := (length p - length q)%nat.

(** The earliest of the candidates: the longest rest. *)
Definition earliest (candidates : list (option bytes)) : option bytes :=
  fold_left (fun best c =>
    match c, best with
    | Some s, None => Some s
    | Some s, Some b => if (length b <? length s)%nat then Some s else best
    | None, _ => best
    end) candidates None.

Definition find_any_tool_start (s : bytes) : option bytes :=
  earliest [strstr s (tool_calls_start dsml_markup); strstr s (tool_calls_start short_markup);
            strstr s (bs "<tool_calls>")].

Definition find_any_tool_end (s : bytes) : option bytes :=
  earliest [strstr s (tool_calls_end dsml_markup); strstr s (tool_calls_end short_markup);
            strstr s (bs "</tool_calls>")].

(** The three flags the decoding loop carries. *)
Record tool_markers := mkMarkers { saw_start : bool; saw_end : bool; orphan_end : bool }.

Definition observe_tool_markers (scan : option bytes) (m : tool_markers) : tool_markers :=
  match scan with
  | None => m
  | Some scan =>
      let had_start := saw_start m in
      let start := find_any_tool_start scan in
      let saw := match start with Some _ => true | None => saw_start m end in
      let end_scan := if had_start then Some scan else start in
      let end_ := s ← end_scan; find_any_tool_end s in
      match end_ with
      | Some _ => mkMarkers saw true (orphan_end m)
      | None =>
          if negb had_start && bool_decide (start = None) &&
             bool_decide (find_any_tool_end scan <> None)
          then mkMarkers saw (saw_end m) true
          else mkMarkers saw (saw_end m) (orphan_end m)
      end
  end.

(** The new limit. *)
Fixpoint trim_tool_separator_ws (raw : bytes) (start limit : nat) : nat :=
  match limit with
  | O => O
  | S l => if (start <? limit)%nat && isspace (nth l raw 0%Z) then trim_tool_separator_ws raw start l else limit
  end.

Definition skip_ascii_ws (p : bytes) : bytes := drop (span_len isspace p) p.

(** [while ((p = strstr(p, needle)) != NULL)] *)
Fixpoint find_last_loop (fuel : nat) (p needle : bytes) (last : option bytes) : option bytes :=
  match fuel with
  | O => last
  | S fuel' =>
      match strstr p needle with
      | None => last
      | Some p => find_last_loop fuel' (tail p) needle (Some p)
      end
  end.

(** Every round drops a byte. *)
Definition find_last_substr (s needle : bytes) : option bytes :=
  match needle with
  | [] => None
  | _ => find_last_loop (S (length s)) s needle None
  end.

(** ** Attributes and values *)

(** The loop has passed the [skip] bytes behind the one it last looked at. *)
Fixpoint dsml_unescape_from (skip : nat) (s : bytes) : bytes :=
  match s with
  | [] => []
  | c :: s' =>
      match skip with
      | S k => dsml_unescape_from k s'
      | O =>
          if negb (c =? ch "&") then c :: dsml_unescape_from 0 s'
          else if starts_with (bs "&amp;") s then ch "&" :: dsml_unescape_from 4 s'
          else if starts_with (bs "&lt;") s then ch "<" :: dsml_unescape_from 3 s'
          else if starts_with (bs "&gt;") s then ch ">" :: dsml_unescape_from 3 s'
          else if starts_with (bs "&quot;") s then quote :: dsml_unescape_from 5 s'
          else if starts_with (bs "&apos;") s then ch "'" :: dsml_unescape_from 5 s'
          else ch "&" :: dsml_unescape_from 0 s'
      end
  end.

Definition dsml_unescape_text (s : bytes) : bytes := dsml_unescape_from 0 s.

(** [pat] is a buffer of 64 bytes. *)
Definition dsml_attr (tag name : bytes) : option bytes :=
  let pat := take 63 (name ++ bs "=" ++ [quote]) in
  p ← strstr tag pat;
  let p := drop (length pat) p in
  q ← strchr p quote;
  Some (dsml_unescape_text (take (offset p q) p)).

Definition is_true_type (type : bytes) : bool := bytes_eqb type (bs "true").

Definition tool_call_json_args_add (args name value : bytes) (is_string : bytes) : bytes :=
  args ++ (match args with [] => [] | _ => bs ", " end) ++ json_escape name ++ bs ": " ++
  (if is_true_type is_string then json_escape value
   else match json_minify_raw_value (Some value) with
        | [] => bs "null"
        | min => min
        end).

(** The value of a parameter of the given type. *)
Definition param_value (type raw_value : bytes) : bytes :=
  if is_true_type type then dsml_unescape_text raw_value else raw_value.

(** ** The parser of generated text *)

(** A tag at the cursor: its text with the closing bracket, and the rest. *)
Definition tag_at (p : bytes) : option (bytes * bytes) :=
  tag_end ← strchr p (ch ">");
  Some (take (offset p tag_end + 1) p, tail tag_end).

(** [JFail] is the return value [false]. *)
Definition dsml_parse_leaf_param_json (p pstart pend out : bytes) : jres bytes :=
  if negb (starts_with pstart p) then JFail
  else
    match tag_at p with
    | None => JFail
    | Some (tag, value_start) =>
        match dsml_attr tag (bs "name") with
        | None => JFail
        | Some name =>
            match strstr value_start pend with
            | None => JFail
            | Some value_end =>
                let raw_value := take (offset value_start value_end) value_start in
                let type := default (bs "true") (dsml_attr tag (bs "string")) in
                JOk (tool_call_json_args_add out name (param_value type raw_value) type)
                    (drop (length pend) value_end)
            end
        end
    end.

(** The members read, and whether there was one. *)
Fixpoint nested_loop (fuel : nat) (p pstart pend members : bytes) (any : bool) : jres (bytes * bool) :=
  match fuel with
  | O => JNoFuel
  | S fuel' =>
      let p := skip_ascii_ws p in
      if negb (starts_with pstart p) then JOk (members, any) p
      else
        let? (members, p) := dsml_parse_leaf_param_json p pstart pend members in
        nested_loop fuel' p pstart pend members true
  end.

Definition dsml_parse_nested_params_object (p pstart pend out : bytes) : jres bytes :=
  let? (r, p) := nested_loop (S (length p)) p pstart pend [] false in
  if negb (snd r) then JFail else JOk (out ++ bs "{" ++ fst r ++ bs "}") p.

Definition split_reasoning_content (text : bytes) : bytes * option bytes :=
  let body := match strip_prefix (bs "<think>") text with Some b => b | None => text end in
  match strstr body (bs "</think>") with
  | Some think_end => (drop 8 think_end, Some (take (offset body think_end) body))
  | None => (text, None)
  end.

(** One parameter of an invocation, with the cursor on its tag. *)
Definition parse_param (m : markup) (p args : bytes) : jres bytes :=
  match tag_at p with
  | None => JFail
  | Some (tag, value_start) =>
      match dsml_attr tag (bs "name") with
      | None => JFail
      | Some param_name =>
          let param_is_string := dsml_attr tag (bs "string") in
          if bool_decide (param_is_string = None) &&
             starts_with (param_start m) (skip_ascii_ws value_start) then
            let? (nested, nested_p) :=
              dsml_parse_nested_params_object value_start (param_start m) (param_end m) [] in
            let args := tool_call_json_args_add args param_name nested (bs "false") in
            let p := skip_ascii_ws nested_p in
            JOk args (match strip_prefix (param_end m) p with Some p => p | None => p end)
          else
            match strstr value_start (param_end m) with
            | None => JFail
            | Some value_end =>
                let raw_value := take (offset value_start value_end) value_start in
                let type := default (bs "true") param_is_string in
                JOk (tool_call_json_args_add args param_name (param_value type raw_value) type)
                    (drop (length (param_end m)) value_end)
            end
      end
  end.

(** [while (true)] over the parameters of an invocation. *)
Fixpoint params_loop (fuel : nat) (m : markup) (p args : bytes) : jres bytes :=
  match fuel with
  | O => JNoFuel
  | S fuel' =>
      let p := skip_ascii_ws p in
      match strip_prefix (invoke_end m) p with
      | Some p => JOk args p
      | None =>
          if negb (starts_with (param_start m) p) then JFail
          else let? (args, p) := parse_param m p args in params_loop fuel' m p args
      end
  end.

(** One invocation, with the cursor on its tag. *)
Definition parse_invoke (m : markup) (p : bytes) : jres tool_call :=
  if negb (starts_with (invoke_start m) p) then JFail
  else
    match tag_at p with
    | None => JFail
    | Some (tag, p) =>
        match dsml_attr tag (bs "name") with
        | None => JFail
        | Some name =>
            let? (args, p) := params_loop (S (length p)) m p [] in
            JOk (mkToolCall None (Some name) (Some (bs "{" ++ args ++ bs "}"))) p
        end
    end.

(** [for (;;)] over the invocations.  A failure leaves the calls pushed so far. *)
Inductive block_res :=
| BlockOk (calls : tool_calls) (p : bytes)
| BlockBad (calls : tool_calls)
| BlockNoFuel.

Fixpoint calls_loop (fuel : nat) (m : markup) (p : bytes) (calls : tool_calls) : block_res :=
  match fuel with
  | O => BlockNoFuel
  | S fuel' =>
      let p := skip_ascii_ws p in
      match strip_prefix (tool_calls_end m) p with
      | Some p => BlockOk calls p
      | None =>
          match parse_invoke m p with
          | JOk tc p => calls_loop fuel' m p (tool_calls_push calls tc)
          | JFail => BlockBad calls
          | JNoFuel => BlockNoFuel
          end
      end
  end.

(** Where the block starts, and its spelling: the first kind that occurs. *)
Definition find_block (tool_search : bytes) : option (bytes * markup) :=
  let try needle m := (fun start => (start, m)) <$> strstr tool_search needle in
  let first m rest :=
    match try ([10; 10] ++ tool_calls_start m) m with
    | Some r => Some r
    | None => match try (tool_calls_start m) m with Some r => Some r | None => rest end
    end in
  first dsml_markup (first short_markup (first xml_markup None)).

(** The two text outputs of a parse; [None] where the code leaves or sets NULL. *)
Record message := mkMessage {
  msg_content : option bytes;
  msg_reasoning : option bytes;
  msg_calls : tool_calls
}.

Definition split_message (text : bytes) (calls : tool_calls) : message :=
  let '(content, reasoning) := split_reasoning_content text in mkMessage (Some content) reasoning calls.

(** The returned flag and the outputs; [None] is proved unreachable. *)
Definition parse_generated_message_ex (text : bytes) (require_thinking_closed : bool) (calls : tool_calls)
  : option (bool * message) :=
  let tool_search :=
    if require_thinking_closed
    then drop 8 <$> find_last_substr text (bs "</think>")
    else Some text in
  match tool_search ≫= find_block with
  | None => Some (true, split_message text calls)
  | Some (start, m) =>
      let content_len := trim_tool_separator_ws text 0 (offset text start) in
      match strstr start (tool_calls_start m) with
      | None => Some (false, mkMessage None None calls)
      | Some p =>
          let p := drop (length (tool_calls_start m)) p in
          match calls_loop (S (length p)) m p calls with
          | BlockOk calls p =>
              Some (true, split_message (take content_len text)
                            (mkCalls (tcs_v calls) (Some (take (offset start p) start))))
          | BlockBad calls => Some (false, mkMessage None None calls)
          | BlockNoFuel => None
          end
      end
  end.

(** ** Repair and recovery *)

(** Which of the six tags starts at the cursor, in the order of the code. *)
Inductive tag_kind := TCallsStart | TCallsEnd | TInvokeStart | TInvokeEnd | TParamStart | TParamEnd.

Definition tag_text (m : markup) (k : tag_kind) : bytes :=
  match k with
  | TCallsStart => tool_calls_start m
  | TCallsEnd => tool_calls_end m
  | TInvokeStart => invoke_start m
  | TInvokeEnd => invoke_end m
  | TParamStart => param_start m
  | TParamEnd => param_end m
  end.

Definition tag_kinds : list tag_kind :=
  [TCallsStart; TCallsEnd; TInvokeStart; TInvokeEnd; TParamStart; TParamEnd].

Definition tag_here (m : markup) (p : bytes) : option tag_kind :=
  snd <$> list_find (fun k => starts_with (tag_text m k) p) tag_kinds.

Record tag_counts := mkCounts { tos : nat; toe : nat; ios : nat; ioe : nat; pos : nat; poe : nat }.

Definition count_tag (c : tag_counts) (k : tag_kind) : tag_counts :=
  match k with
  | TCallsStart => mkCounts (S (tos c)) (toe c) (ios c) (ioe c) (pos c) (poe c)
  | TCallsEnd => mkCounts (tos c) (S (toe c)) (ios c) (ioe c) (pos c) (poe c)
  | TInvokeStart => mkCounts (tos c) (toe c) (S (ios c)) (ioe c) (pos c) (poe c)
  | TInvokeEnd => mkCounts (tos c) (toe c) (ios c) (S (ioe c)) (pos c) (poe c)
  | TParamStart => mkCounts (tos c) (toe c) (ios c) (ioe c) (S (pos c)) (poe c)
  | TParamEnd => mkCounts (tos c) (toe c) (ios c) (ioe c) (pos c) (S (poe c))
  end.

(** The scan; [skip] bytes of the last tag are still to pass. *)
Fixpoint count_tags (m : markup) (skip : nat) (p : bytes) (c : tag_counts) : tag_counts :=
  match p with
  | [] => c
  | _ :: p' =>
      match skip with
      | S k => count_tags m k p' c
      | O =>
          match tag_here m p with
          | Some k => count_tags m (length (tag_text m k) - 1) p' (count_tag c k)
          | None => count_tags m 0 p' c
          end
      end
  end.

Definition repair_markup (scan_start : bytes) : option markup :=
  if contains (tool_calls_start dsml_markup) scan_start then Some dsml_markup
  else if contains (tool_calls_start short_markup) scan_start then Some short_markup
  else if contains (bs "<tool_calls>") scan_start then Some xml_markup
  else None.

Definition repeat_tag (n : nat) (tag : bytes) : bytes := concat (replicate n tag).

(** The scanned part: all of it, or what follows the last closed thinking. *)
Definition repair_scan (s : bytes) : bytes :=
  match find_last_substr s (bs "</think>") with Some e => drop 8 e | None => s end.

(** The repaired text where the code returns [true]; [len] is [strlen(s)]. *)
Definition try_repair_dsml (s : bytes) : option bytes :=
  match s with
  | [] => None
  | _ =>
      let scan_start := repair_scan s in
      m ← repair_markup scan_start;
      let c := count_tags m 0 scan_start (mkCounts 0 0 0 0 0 0) in
      if ((tos c =? toe c) && (ios c =? ioe c) && (pos c =? poe c))%nat then None
      else if ((tos c <? toe c) || (ios c <? ioe c) || (pos c <? poe c))%nat then None
      else Some (s ++ repeat_tag (pos c - poe c) (param_end m) ++
                 repeat_tag (ios c - ioe c) (invoke_end m) ++
                 repeat_tag (tos c - toe c) (tool_calls_end m))
  end.

Definition tool_parse_failure_recovery_finish (finish : bytes) : bytes :=
  if bytes_eqb finish (bs "length") then bs "length" else bs "stop".

(** What the caller sees: the flag, the outputs, the finish reason, the error text
    where one is written, and whether the turn may be retried. *)
Record response := mkResponse {
  rs_ok : bool;
  rs_message : message;
  rs_finish : option bytes;
  rs_err : option bytes;
  rs_recovered : bool
}.

(** The callers pass [finish_io], a buffer of at least 20 bytes for [err] and
    [recovered_out]. *)
Definition parse_generated_message_for_response (text : bytes)
  (has_tools saw_tool_start require_thinking_closed : bool) (finish_io : option bytes)
  (calls : tool_calls) : option response :=
  '(parsed_ok, msg) ← parse_generated_message_ex text require_thinking_closed calls;
  if (parsed_ok : bool) then Some (mkResponse true msg finish_io None false)
  else
    let msg := mkMessage (Some text) None (tool_calls_free (msg_calls msg)) in
    let finish := default (bs "stop") finish_io in
    Some (if has_tools && saw_tool_start && negb (bytes_eqb finish (bs "error"))
          then mkResponse false msg (Some (tool_parse_failure_recovery_finish finish))
                 (Some (bs "invalid tool call")) true
          else mkResponse false msg finish_io None false).

(** ** The calls of a reply *)

(** The call's own id, or one made of the prefix and the position; the buffer has
    128 bytes. *)
Definition call_id_or (tc : tool_call) (id_prefix : bytes) (i : Z) : bytes :=
  default (take 127 (cstr id_prefix ++ bs "_tool_" ++ dec_int i)) (tc_id tc).

(** The members both forms share. *)
Definition call_json_tail (tc : tool_call) (id_prefix : bytes) (i : Z) : bytes :=
  json_escape (call_id_or tc id_prefix i) ++
  bs "," ++ [quote] ++ bs "type" ++ [quote] ++ bs ":" ++ [quote] ++ bs "function" ++ [quote] ++
  bs "," ++ [quote] ++ bs "function" ++ [quote] ++ bs ":{" ++ [quote] ++ bs "name" ++ [quote] ++ bs ":" ++
  json_escape (default [] (tc_name tc)) ++
  bs "," ++ [quote] ++ bs "arguments" ++ [quote] ++ bs ":" ++
  append_json_object_string (tc_arguments tc) ++ bs "}}".

Fixpoint tool_calls_json_loop (head : Z -> bytes) (i : Z) (calls : list tool_call) (id_prefix : bytes) : bytes :=
  match calls with
  | [] => []
  | tc :: calls' =>
      (if i =? 0 then [] else bs ",") ++ head i ++ call_json_tail tc id_prefix i ++
      tool_calls_json_loop head (i + 1) calls' id_prefix
  end.

Definition append_tool_calls_json (calls : tool_calls) (id_prefix : bytes) : bytes :=
  bs "[" ++
  tool_calls_json_loop (fun _ => bs "{" ++ [quote] ++ bs "id" ++ [quote] ++ bs ":") 0 (tcs_v calls) id_prefix ++
  bs "]".

Definition append_tool_call_deltas_json (calls : tool_calls) (id_prefix : bytes) : bytes :=
  bs "[" ++
  tool_calls_json_loop
    (fun i => bs "{" ++ [quote] ++ bs "index" ++ [quote] ++ bs ":" ++ dec_int i ++
              bs "," ++ [quote] ++ bs "id" ++ [quote] ++ bs ":") 0 (tcs_v calls) id_prefix ++
  bs "]".
