(* ===== verification/DsmlFacts.v ===== *)
(** * DsmlFacts: searching, escaping and the termination of the markup parser *)

From S2P Require Import Prelude Ctype Json JsonFacts JsonRequest Dsml.

(** ** Searching in a concatenation *)

Lemma find_sub_skip n pre rest :
  (forall x post, (exists pre', pre = pre' ++ x :: post) -> ~ n `prefix_of` x :: post ++ rest) ->
  find_sub n (pre ++ rest) = find_sub n rest.
Proof.
  induction pre as [|x pre IH]; intros H; cbn [app]; [done|]. cbn [find_sub].
  destruct (starts_with n (x :: pre ++ rest)) eqn:E.
  - apply starts_with_prefix in E. exfalso. apply (H x pre); [by exists []|done].
  - apply IH. intros y post [pre' ->]. apply (H y post). by exists (x :: pre').
Qed.

Lemma find_sub_here n rest : n <> [] -> find_sub n (n ++ rest) = Some (n ++ rest).
Proof.
  intros Hn. destruct n as [|x n]; [done|]. cbn [find_sub app].
  change (x :: n ++ rest) with ((x :: n) ++ rest). by rewrite starts_with_app.
Qed.

(** A prefix that avoids [c] ends before it. *)
Lemma prefix_avoid (c : Z) (t a b : bytes) : c ∉ t -> t `prefix_of` a ++ c :: b -> t `prefix_of` a.
Proof.
  revert a. induction t as [|x t IH]; intros a Hc H; [apply prefix_nil|].
  apply not_elem_of_cons in Hc as [Hx Hc]. destruct a as [|y a]; cbn in H.
  - apply prefix_cons_inv_1 in H. done.
  - pose proof (prefix_cons_inv_1 _ _ _ _ H) as ->. apply prefix_cons_inv_2 in H.
    apply prefix_cons. by apply IH.
Qed.

Lemma contains_prefix n pre r : n `prefix_of` r -> contains n (pre ++ r) = true.
Proof. intros [k ->]. apply contains_infix. by exists pre, k. Qed.

Lemma contains_app n a b : contains n (a ++ b) = false -> contains n a = false /\ contains n b = false.
Proof.
  rewrite <- !not_true_iff_false, !contains_infix. intros H. split; intros (p & q & ->); apply H.
  - exists p, (q ++ b). by rewrite <- !app_assoc.
  - exists (a ++ p), q. by rewrite <- !app_assoc.
Qed.

(** A needle whose first byte does not occur again in it is found where it is
    written, when nothing before contains it. *)
Lemma find_sub_first (c : Z) (t a b : bytes) :
  c ∉ t -> contains (c :: t) a = false -> find_sub (c :: t) (a ++ c :: t ++ b) = Some (c :: t ++ b).
Proof.
  intros Hc Ha. rewrite find_sub_skip.
  - change (c :: t ++ b) with ((c :: t) ++ b). by apply find_sub_here.
  - intros x post [pre ->] H. pose proof (prefix_cons_inv_1 _ _ _ _ H) as <-.
    apply prefix_cons_inv_2 in H. apply prefix_avoid in H; [|done].
    rewrite contains_prefix in Ha; [done|]. by apply prefix_cons.
Qed.

(** Nothing is found in front of a byte the needle does not have. *)
Lemma find_sub_avoid (n : bytes) (c : Z) (a b : bytes) :
  c ∉ n -> n <> [] -> contains n a = false -> find_sub n (a ++ c :: b) = find_sub n b.
Proof.
  intros Hc Hn Ha. change (c :: b) with ([c] ++ b). rewrite app_assoc. apply find_sub_skip.
  intros x post [pre E] H. destruct (destruct_list_last post) as [->|(y & q & ->)].
  - destruct n as [|z n]; [done|]. apply prefix_cons_inv_1 in H as <-.
    apply app_inj_tail in E as [_ ->]. apply Hc. left.
  - change (pre ++ x :: q ++ [y]) with (pre ++ (x :: q) ++ [y]) in E. rewrite app_assoc in E.
    apply app_inj_tail in E as [-> ->]. cbn in H. rewrite <- app_assoc in H.
    change (x :: q ++ [y] ++ b) with ((x :: q) ++ y :: b) in H. apply prefix_avoid in H; [|done].
    rewrite contains_prefix in Ha; done.
Qed.

Lemma strchr_first (c : Z) (a b : bytes) : c ∉ a -> strchr (a ++ c :: b) c = Some (c :: b).
Proof.
  induction a as [|x a IH]; intros H; cbn.
  - by rewrite Z.eqb_refl.
  - apply not_elem_of_cons in H as [Hx H]. destruct (Z.eqb_spec x c); [done|]. by apply IH.
Qed.

Lemma offset_app a b : offset (a ++ b) b = length a.
Proof. unfold offset. rewrite length_app. lia. Qed.

Lemma tag_at_app a b : ch ">" ∉ a -> tag_at (a ++ ch ">" :: b) = Some (a ++ [ch ">"], b).
Proof.
  intros H. unfold tag_at. rewrite strchr_first by done. cbn [mbind option_bind tail].
  rewrite offset_app. do 2 f_equal. change (ch ">" :: b) with ([ch ">"] ++ b). rewrite app_assoc.
  apply take_app_length'. by rewrite length_app.
Qed.

(** ** Attributes *)

Lemma attr_char_unescape c r : dsml_unescape_from 0 (attr_char c ++ r) = c :: dsml_unescape_from 0 r.
Proof.
  unfold attr_char.
  destruct (Z.eqb_spec c (ch "&")) as [->|Ha]; [done|].
  destruct (Z.eqb_spec c (ch "<")) as [->|]; [done|].
  destruct (Z.eqb_spec c (ch ">")) as [->|]; [done|].
  destruct (Z.eqb_spec c quote) as [->|]; [done|].
  cbn [app dsml_unescape_from]. by rewrite (proj2 (Z.eqb_neq _ _) Ha).
Qed.

Lemma attr_unescape s : no_nul s -> dsml_unescape_text (append_dsml_attr_escaped s) = s.
Proof.
  intros Hn. unfold append_dsml_attr_escaped, dsml_unescape_text. rewrite cstr_no_nul by done. clear Hn.
  induction s as [|c s IH]; cbn [flat_map]; [done|]. by rewrite attr_char_unescape, IH.
Qed.

(** Neither a quote nor an angle bracket is left. *)
Lemma attr_clean s x : x = quote \/ x = ch "<" \/ x = ch ">" -> x ∉ append_dsml_attr_escaped s.
Proof.
  intros Hx. unfold append_dsml_attr_escaped. induction (cstr s) as [|c t IH]; cbn [flat_map].
  - apply not_elem_of_nil.
  - apply not_elem_of_app. split; [|done]. unfold attr_char.
    repeat match goal with |- context [if ?a =? ?b then _ else _] => destruct (Z.eqb_spec a b) end;
      try (rewrite list_elem_of_singleton; intros ->; intuition congruence);
      destruct Hx as [->|[->| ->]]; apply (bool_decide_unpack _); vm_compute; exact I.
Qed.

(** What [dsml_attr] returns for an attribute that is the first match. *)
Lemma dsml_attr_value tag name a v b :
  (length name < 60)%nat -> strstr tag (name ++ bs "=" ++ [quote]) = Some (name ++ bs "=" ++ [quote] ++ a) ->
  a = v ++ quote :: b -> quote ∉ v ->
  dsml_attr tag name = Some (dsml_unescape_text v).
Proof.
  intros Hl Hs -> Hv. unfold dsml_attr. rewrite take_ge by (rewrite length_app; cbn; lia). rewrite Hs.
  cbn [mbind option_bind].
  replace (name ++ bs "=" ++ [quote] ++ v ++ quote :: b)
    with ((name ++ bs "=" ++ [quote]) ++ v ++ quote :: b) by (by rewrite <- !app_assoc).
  rewrite drop_app_length, strchr_first by done. cbn [mbind option_bind].
  by rewrite offset_app, take_app_length.
Qed.

(** The second attribute, behind one whose value has no quote: the pattern is not
    found at the end of that value. *)
Lemma find_sub_quoted (w v rest : bytes) :
  quote ∉ w -> quote ∉ v -> ~ w `suffix_of` v ->
  find_sub (w ++ [quote]) (v ++ quote :: rest) = find_sub (w ++ [quote]) (quote :: rest).
Proof.
  intros Hw Hv Hs. apply find_sub_skip. intros x post [pre ->] [k H].
  assert (Hq : quote ∉ x :: post) by (intros Hin; apply Hv, elem_of_app; by right).
  apply Hs. exists pre. f_equal.
  assert (forall a b k1 k2 : bytes, quote ∉ a -> quote ∉ b -> a ++ quote :: k1 = b ++ quote :: k2 -> a = b) as Hinj.
  { induction a as [|y a IH]; intros [|z b] k1 k2 Ha Hb E; cbn in E; [done|..].
    - injection E as <- _. exfalso. apply Hb. left.
    - injection E as -> _. exfalso. apply Ha. left.
    - injection E as -> E. f_equal. apply not_elem_of_cons in Ha as [_ Ha], Hb as [_ Hb]. by eapply IH. }
  rewrite <- app_assoc in H. change (x :: post ++ quote :: rest) with ((x :: post) ++ quote :: rest) in H.
  symmetry. eapply Hinj; [exact Hw|exact Hq|symmetry; exact H].
Qed.

(** ** Protected text *)

(** The replacement cannot complete a tag or an entity that the text begins. *)
Lemma protect_prefix close r0 repl t s :
  r0 ∉ t -> t `prefix_of` protect close (r0 :: repl) s -> t `prefix_of` s.
Proof.
  revert t. induction s as [|c s IH]; intros t Ht H; cbn [protect] in H; [done|].
  destruct t as [|x t]; [apply prefix_nil|]. apply not_elem_of_cons in Ht as [Hx Ht].
  destruct (starts_with close (c :: s)); cbn [app] in H; pose proof (prefix_cons_inv_1 _ _ _ _ H) as E.
  - congruence.
  - subst x. apply prefix_cons. apply IH; [done|]. by eapply prefix_cons_inv_2.
Qed.

(** The protected text does not contain the tag. *)
Lemma protect_clean c t r0 repl s :
  r0 <> c -> r0 ∉ t -> c ∉ repl -> contains (c :: t) (protect (c :: t) (r0 :: repl) s) = false.
Proof.
  intros Hr Ht Hrep. rewrite <- not_true_iff_false, contains_infix. intros (a & b & E).
  assert (Hp : exists pre, protect (c :: t) (r0 :: repl) s = pre ++ c :: t ++ b) by (exists a; done).
  clear E a. induction s as [|x s IH]; destruct Hp as [pre Hp]; cbn [protect] in Hp.
  { by destruct pre. }
  destruct (starts_with (c :: t) (x :: s)) eqn:E.
  - apply IH. cbn [app] in Hp. destruct pre as [|y pre]; injection Hp as <- Hp; [done|].
    assert (Hc : forall l, c ∉ l -> forall pre, l ++ protect (c :: t) (r0 :: repl) s = pre ++ c :: t ++ b ->
              exists pre', protect (c :: t) (r0 :: repl) s = pre' ++ c :: t ++ b).
    { clear E Hp IH. induction l as [|z l IHl]; intros Hl pre0 H; [by exists pre0|].
      apply not_elem_of_cons in Hl as [Hz Hl]. destruct pre0 as [|u pre0]; injection H as <- H; [done|].
      by eapply IHl. }
    by eapply Hc.
  - cbn [app] in Hp. destruct pre as [|y pre]; injection Hp as -> Hp; [|apply IH; by exists pre].
    assert (H : t `prefix_of` s) by (eapply protect_prefix; [exact Ht|rewrite Hp; by exists b]).
    enough (starts_with (c :: t) (c :: s) = true) by congruence.
    apply starts_with_prefix. by apply prefix_cons.
Qed.

(** Text without the tag is copied. *)
Lemma protect_id close repl s : contains close s = false -> protect close repl s = s.
Proof.
  unfold contains. induction s as [|c s IH]; cbn [find_sub protect]; [done|].
  destruct (starts_with close (c :: s)); [done|]. intros H. cbn [app]. f_equal. by apply IH.
Qed.

Definition entities : list bytes := [bs "&amp;"; bs "&lt;"; bs "&gt;"; bs "&quot;"; bs "&apos;"].

(** No byte starts an entity the parser knows. *)
Definition entity_free (s : bytes) : bool := forallb (fun e => negb (contains e s)) entities.

Lemma entity_free_cons c s :
  entity_free (c :: s) = true -> (forall e, e ∈ entities -> starts_with e (c :: s) = false) /\ entity_free s = true.
Proof.
  unfold entity_free. rewrite !forallb_forall. intros H. split.
  - intros e He. apply list_elem_of_In, H in He. apply negb_true_iff in He.
    unfold contains in He. cbn [find_sub] in He. by destruct (starts_with e (c :: s)).
  - intros e He. apply H in He. apply negb_true_iff in He. apply negb_true_iff.
    by apply (contains_app e [c] s).
Qed.

Lemma unescape_plain s :
  (forall e, e ∈ entities -> starts_with e s = false) ->
  dsml_unescape_from 0 s = match s with [] => [] | c :: s' => c :: dsml_unescape_from 0 s' end.
Proof.
  intros H. destruct s as [|c s]; [done|]. cbn [dsml_unescape_from].
  destruct (Z.eqb_spec c (ch "&")) as [->|]; cbn [negb]; [|done].
  by rewrite !H by (apply (bool_decide_unpack _); vm_compute; exact I).
Qed.

(** String values survive the markup when they contain no entity. *)
Lemma parameter_text_unescape s :
  no_nul s -> entity_free s = true -> dsml_unescape_text (append_dsml_parameter_text s) = s.
Proof.
  intros Hn He. unfold append_dsml_parameter_text, dsml_unescape_text. rewrite cstr_no_nul by done. clear Hn.
  induction s as [|c s IH]; cbn [protect]; [done|]. apply entity_free_cons in He as [He Hs].
  destruct (starts_with (param_end dsml_markup) (c :: s)) eqn:E.
  - apply starts_with_prefix in E. change (param_end dsml_markup) with (ch "<" :: tail (param_end dsml_markup)) in E.
    apply prefix_cons_inv_1 in E as <-.
    transitivity (ch "<" :: dsml_unescape_from 0 (protect (param_end dsml_markup) (bs "&lt;") s)); [done|].
    f_equal. by apply IH.
  - cbn [app]. rewrite unescape_plain; [f_equal; by apply IH|].
    intros e Hin. apply not_true_is_false. intros Hp%starts_with_prefix.
    assert (Ht : e = ch "&" :: tail e /\ ch "&" ∉ tail e).
    { unfold entities in Hin. repeat (apply elem_of_cons in Hin as [->|Hin];
        [split; [done|apply (bool_decide_unpack _); vm_compute; exact I]|]). by apply not_elem_of_nil in Hin. }
    destruct Ht as [Hee Ht]. rewrite Hee in Hp. pose proof (prefix_cons_inv_1 _ _ _ _ Hp) as <-.
    apply prefix_cons_inv_2 in Hp. apply (protect_prefix _ _ (tail (bs "&lt;"))) in Hp; [|done].
    specialize (He e Hin). rewrite Hee in He. apply not_true_iff_false in He. apply He.
    apply starts_with_prefix. by apply prefix_cons.
Qed.

(** ** The last occurrence *)

Lemma contains_skip (c : Z) (t u after : bytes) :
  c ∉ u -> contains (c :: t) after = false -> contains (c :: t) (u ++ after) = false.
Proof.
  intros Hu H. rewrite <- not_true_iff_false, contains_infix in *. intros (a & b & E). apply H.
  apply app_eq_app in E as (l & [[-> E]|[-> E]]).
  - destruct l as [|x l].
    + exists [], b. by rewrite app_nil_l in *.
    + injection E as <- E. exfalso. apply Hu, elem_of_app. right. left.
  - exists l, b. done.
Qed.

Lemma find_last_loop_none fuel p n last : contains n p = false -> find_last_loop fuel p n last = last.
Proof.
  unfold contains. destruct fuel as [|fuel]; cbn [find_last_loop]; [done|]. unfold strstr.
  by destruct (find_sub n p).
Qed.

Lemma find_last_loop_some fuel (c : Z) (t r after : bytes) last :
  c ∉ t -> contains (c :: t) after = false -> (length r < fuel)%nat ->
  find_last_loop fuel (r ++ c :: t ++ after) (c :: t) last = Some (c :: t ++ after).
Proof.
  intros Hc Ha. revert r last. induction fuel as [|fuel IH]; intros r last Hf; [lia|].
  cbn [find_last_loop]. unfold strstr.
  assert (Hin : contains (c :: t) (r ++ c :: t ++ after) = true) by (apply contains_infix; eauto).
  unfold contains in Hin. destruct (find_sub _ _) as [q|] eqn:Eq; [|done].
  apply find_sub_sound in Eq as [[k ->] [pre E]]. cbn [app] in E.
  apply app_eq_app in E as (l & [[-> E]|[-> E]]).
  - destruct l as [|x l]; cbn [app tail] in *.
    + injection E as E. apply app_inv_head in E as <-. apply find_last_loop_none. by apply contains_skip.
    + injection E as -> E. rewrite E. apply IH. rewrite length_app in Hf. cbn [length] in Hf. lia.
  - destruct l as [|x l]; cbn [app tail] in *.
    + injection E as E. apply app_inv_head in E as <-. apply find_last_loop_none. by apply contains_skip.
    + exfalso. injection E as <- E.
      assert (Hno : contains (c :: t) (t ++ after) = false) by by apply contains_skip.
      rewrite E in Hno. rewrite (contains_prefix (c :: t) l (c :: t ++ k)) in Hno; [done|]. by exists k.
Qed.

Definition THINK_END : bytes := bs "</think>".

Lemma find_last_think_none s : contains THINK_END s = false -> find_last_substr s THINK_END = None.
Proof. intros H. by apply find_last_loop_none. Qed.

Lemma find_last_think_some r after :
  contains THINK_END after = false -> find_last_substr (r ++ THINK_END ++ after) THINK_END = Some (THINK_END ++ after).
Proof.
  intros H. apply (find_last_loop_some _ (ch "<") (tail THINK_END)); [|exact H|rewrite length_app; lia].
  apply (bool_decide_unpack _). vm_compute. exact I.
Qed.

(** ** The parser ends *)

Lemma behind_skip_ws p : behind 0 p (skip_ascii_ws p).
Proof. exact (behind_ws p). Qed.

Lemma behind_find_sub n p r : find_sub n p = Some r -> behind 0 p r.
Proof. intros [_ [pre ->]]%find_sub_sound. eapply behind_weaken; [|by apply behind_app]. lia. Qed.

Lemma strchr_behind p c r : strchr p c = Some r -> behind 0 p r /\ r <> [].
Proof.
  induction p as [|x p IH]; cbn; [done|]. destruct (x =? c); [intros [= <-]; split; [apply behind_refl|done]|].
  intros [H Hr]%IH. split; [|done]. eapply behind_weaken; [|by apply behind_cons]. lia.
Qed.

Lemma tag_at_behind p tag r : tag_at p = Some (tag, r) -> behind 1 p r.
Proof.
  unfold tag_at. destruct (strchr p (ch ">")) as [q|] eqn:E; cbn [mbind option_bind]; [|done].
  intros [= _ <-]. apply strchr_behind in E as [H Hq]. apply (behind_trans 0 1 _ q); [done|].
  destruct q; [done|]. apply behind_cons, behind_refl.
Qed.

Lemma behind_drop n p q : behind n p q -> forall k, behind n p (drop k q).
Proof.
  intros (j & Hn & -> & Hj) k. destruct (decide (j + k <= length p)%nat).
  - exists (j + k)%nat. rewrite drop_drop. split_and!; [lia|done|lia].
  - exists (length p). rewrite drop_drop, !drop_ge by lia. split_and!; [lia|done|lia].
Qed.

Lemma behind_strip_prefix t p r : strip_prefix t p = Some r -> behind 0 p r.
Proof. intros ->%strip_prefix_sound. eapply behind_weaken; [|by apply behind_app]. lia. Qed.

(** A value up to its closing tag. *)
Lemma behind_value n p v t q k :
  behind n p v -> find_sub t v = Some q -> behind n p (drop k q).
Proof.
  intros H1 H2%behind_find_sub. apply behind_drop.
  pose proof (behind_trans _ _ _ _ _ H1 H2). by rewrite Nat.add_0_r in *.
Qed.

Lemma leaf_ok p pstart pend out : parser_ok 1 p (dsml_parse_leaf_param_json p pstart pend out).
Proof.
  unfold dsml_parse_leaf_param_json. destruct (negb _); [done|].
  destruct (tag_at p) as [[tag v]|] eqn:Et; [|done]. apply tag_at_behind in Et.
  destruct (dsml_attr tag _); [|done]. destruct (strstr v pend) as [q|] eqn:Ev; [|done].
  by apply (behind_value _ _ _ _ _ _ Et Ev).
Qed.

Lemma nested_loop_ok fuel p pstart pend members any :
  (length p < fuel)%nat -> parser_ok 0 p (nested_loop fuel p pstart pend members any).
Proof.
  revert p members any. induction fuel as [|fuel IH]; intros p members any Hf; [lia|]. cbn [nested_loop].
  pose proof (behind_skip_ws p) as Hw. destruct (negb _); [done|].
  pose proof (leaf_ok (skip_ascii_ws p) pstart pend members) as Hl.
  destruct (dsml_parse_leaf_param_json _ _ _ _) as [mem q| |]; cbn [jbind]; try done.
  pose proof (behind_trans _ _ _ _ _ Hw Hl) as Hq. pose proof (behind_length _ _ _ Hq).
  eapply (parser_weaken 1 0); [lia|]. apply (parser_from 1 0 _ _ _ Hq), IH. lia.
Qed.

Lemma parse_param_ok m p args : parser_ok 1 p (parse_param m p args).
Proof.
  unfold parse_param. destruct (tag_at p) as [[tag v]|] eqn:Et; [|done]. apply tag_at_behind in Et.
  destruct (dsml_attr tag (bs "name")); [|done]. destruct (_ && _).
  - unfold dsml_parse_nested_params_object.
    pose proof (nested_loop_ok (S (length v)) v (param_start m) (param_end m) [] false ltac:(lia)) as Hn.
    destruct (nested_loop _ _ _ _ _ _) as [r q| |]; cbn [jbind]; try done. destruct (negb _); cbn [jbind]; [done|].
    cbn in Hn. pose proof (behind_trans _ _ _ _ _ (behind_trans _ _ _ _ _ Et Hn) (behind_skip_ws q)) as Hq.
    destruct (strip_prefix _ _) eqn:E; cbn.
    + apply behind_strip_prefix in E. exact (behind_trans _ _ _ _ _ Hq E).
    + exact Hq.
  - destruct (strstr v _) as [q|] eqn:Ev; [|done]. by apply (behind_value _ _ _ _ _ _ Et Ev).
Qed.

Lemma params_loop_ok fuel m p args : (length p < fuel)%nat -> parser_ok 0 p (params_loop fuel m p args).
Proof.
  revert p args. induction fuel as [|fuel IH]; intros p args Hf; [lia|]. cbn [params_loop].
  pose proof (behind_skip_ws p) as Hw. destruct (strip_prefix _ _) eqn:E.
  { apply behind_strip_prefix in E. exact (behind_trans _ _ _ _ _ Hw E). }
  destruct (negb _); [done|]. pose proof (parse_param_ok m (skip_ascii_ws p) args) as Hp.
  destruct (parse_param _ _ _) as [a q| |]; cbn [jbind]; try done.
  pose proof (behind_trans _ _ _ _ _ Hw Hp) as Hq. pose proof (behind_length _ _ _ Hq).
  eapply (parser_weaken 1 0); [lia|]. apply (parser_from 1 0 _ _ _ Hq), IH. lia.
Qed.

Lemma parse_invoke_ok m p : parser_ok 1 p (parse_invoke m p).
Proof.
  unfold parse_invoke. destruct (negb _); [done|]. destruct (tag_at p) as [[tag v]|] eqn:Et; [|done].
  apply tag_at_behind in Et. destruct (dsml_attr _ _); [|done].
  pose proof (params_loop_ok (S (length v)) m v [] ltac:(lia)) as Hp.
  destruct (params_loop _ _ _ _) as [a q| |]; cbn [jbind]; try done. exact (behind_trans _ _ _ _ _ Et Hp).
Qed.

(** The calls are only extended, and the cursor stays in the text. *)
Lemma calls_loop_ok fuel m p calls :
  (length p < fuel)%nat ->
  match calls_loop fuel m p calls with
  | BlockOk calls' q => behind 0 p q /\ tcs_raw_dsml calls' = tcs_raw_dsml calls
  | BlockBad _ => True
  | BlockNoFuel => False
  end.
Proof.
  revert p calls. induction fuel as [|fuel IH]; intros p calls Hf; [lia|]. cbn [calls_loop].
  pose proof (behind_skip_ws p) as Hw. destruct (strip_prefix _ _) eqn:E.
  { apply behind_strip_prefix in E. split; [|done]. exact (behind_trans _ _ _ _ _ Hw E). }
  pose proof (parse_invoke_ok m (skip_ascii_ws p)) as Hp.
  destruct (parse_invoke _ _) as [tc q| |]; try done.
  pose proof (behind_trans _ _ _ _ _ Hw Hp) as Hq. pose proof (behind_length _ _ _ Hq).
  specialize (IH q (tool_calls_push calls tc) ltac:(lia)).
  destruct (calls_loop fuel _ _ _); try done. destruct IH as [IH ->]. split; [|done].
  eapply (behind_weaken 1); [lia|]. exact (behind_trans _ _ _ _ _ Hq IH).
Qed.

Lemma parse_generated_total text require calls :
  exists ok msg, parse_generated_message_ex text require calls = Some (ok, msg).
Proof.
  unfold parse_generated_message_ex. destruct (_ ≫= find_block) as [[start m]|]; [|by eauto].
  destruct (strstr start _) as [p|]; [|by eauto].
  set (q := drop _ p). pose proof (calls_loop_ok (S (length q)) m q calls ltac:(lia)).
  destruct (calls_loop _ _ _ _); [by eauto..|done].
Qed.

(** The text splits at the last occurrence. *)
Lemma last_occurrence n s :
  n <> [] -> contains n s = true -> exists r after, s = r ++ n ++ after /\ contains n after = false.
Proof.
  intros Hn. remember (length s) as l eqn:Hl. revert s Hl.
  induction l as [l IH] using lt_wf_ind. intros s -> H. apply contains_infix in H as (a & b & ->).
  destruct (contains n b) eqn:E; [|by exists a, b].
  destruct (IH (length b)) with (s := b) as (r & after & Hb & Ha); [|done..|].
  - rewrite !length_app. destruct n; [done|]. cbn. lia.
  - exists (a ++ n ++ r), after. split; [|done]. by rewrite Hb at 1; rewrite <- !app_assoc.
Qed.

(** Nothing is found across the start of a tag. *)
Lemma contains_tagged (c : Z) (t a b : bytes) :
  c ∉ t -> (b = [] \/ exists b', b = c :: b') ->
  contains (c :: t) a = false -> contains (c :: t) b = false -> contains (c :: t) (a ++ b) = false.
Proof.
  intros Hc Hb Ha Hcb. rewrite <- not_true_iff_false, contains_infix in Hcb |- *. intros (p & q & E). apply Hcb.
  apply app_eq_app in E as (l & [[-> E]|[-> E]]); [|by exists l, q].
  destruct l as [|x l]; [by exists [], q|]. exfalso. cbn [app] in E. injection E as <- E.
  destruct Hb as [->|[b' ->]].
  - rewrite app_nil_r in E. subst l. by rewrite contains_prefix in Ha by (by exists q).
  - assert (Ht : t `prefix_of` l) by (eapply (prefix_avoid c _ _ b'); [done|rewrite <- E; by exists q]).
    rewrite contains_prefix in Ha; [done|]. by apply prefix_cons.
Qed.
