(* ===== verification/RequestFields.v ===== *)
(** * RequestFields: tools, messages and the other structured fields (ds4_server.c)

    The parsers of the fields that JsonRequest does not hold: the tool list, the
    messages of the three chat protocols, the system prompt, the reasoning control
    and the prompt of a completion.  A helper that the code gives a cursor of its
    own ([const char *p = raw]) returns that cursor too, and fails where the code
    returns NULL. *)

From S2P Require Import Prelude Ctype KvHeader KvStore Think Json JsonFacts JsonRequest Stream Dsml.

(** * Loops that keep what they have done when they stop *)

(** A local loop that leaves by [return] or [goto] in the middle, with its state
    still in use: the state, and how it ended. *)
Fixpoint fields_keep {S} (fuel : nat) (field : bytes -> S -> bytes -> S * jres unit) (st : S) (p : bytes) : S * jres unit :=
  match fuel with
  | O => (st, JNoFuel)
  | Datatypes.S fuel' =>
      if (peek p =? 0) || at_ch p "}" then (st, JOk tt p)
      else
        match json_string p with
        | JOk key p =>
            let p := json_ws p in
            if negb (at_ch p ":") then (st, JFail)
            else
              match field (cstr key) st (tail p) with
              | (st, JOk _ p) => fields_keep fuel' field st (json_opt_comma p)
              | r => r
              end
        | JFail => (st, JFail)
        | JNoFuel => (st, JNoFuel)
        end
  end.

Fixpoint elements_keep {S} (fuel : nat) (element : S -> bytes -> S * jres unit) (st : S) (p : bytes) : S * jres unit :=
  match fuel with
  | O => (st, JNoFuel)
  | Datatypes.S fuel' =>
      if (peek p =? 0) || at_ch p "]" then (st, JOk tt p)
      else
        match element st p with
        | (st, JOk _ p) => elements_keep fuel' element st (json_opt_comma p)
        | r => r
        end
  end.

(** The fields of an object, from its opening brace to where the loop stops; the
    closing brace is not asked for. *)
Definition object_fields {S} (field : bytes -> S -> bytes -> jres S) (st : S) (raw : bytes) : jres S :=
  let p := json_ws raw in
  if negb (at_ch p "{") then JFail
  else let p := json_ws (tail p) in fields_loop (Datatypes.S (length p)) field st p.

(** [if (!json_string(p, &x)) ...] into a slot, and the same for a raw value. *)
Definition string_or_raw (p : bytes) : jres bytes :=
  let p := json_ws p in if peek p =? quote then json_string p else json_raw_value p.

Definition c_is (s : option bytes) (t : string) : bool := match s with Some s => key_is (cstr s) t | None => false end.
Arguments c_is s t%_string_scope.

(** [x && x[0]] *)
Definition c_nonempty (s : option bytes) : bool := match s with Some s => negb (bool_decide (cstr s = [])) | None => false end.

Definition one_of (s : bytes) (l : list string) : bool := existsb (fun t => key_is s t) l.

(** * Tools *)

Record tool_schema_order := mkToolSchemaOrder {
  ts_name : option bytes;
  ts_wire_name : option bytes;
  ts_namespace : option bytes;
  ts_responses_tool_search : bool;
  ts_prop : list bytes
}.

Definition tool_schema_order_zero : tool_schema_order := mkToolSchemaOrder None None None false [].

Definition tool_schema_order_prop_push (o : tool_schema_order) (prop : bytes) : tool_schema_order :=
  mkToolSchemaOrder (ts_name o) (ts_wire_name o) (ts_namespace o) (ts_responses_tool_search o) (ts_prop o ++ [cstr prop]).

Definition order_set_name (s : bytes) (o : tool_schema_order) : tool_schema_order :=
  mkToolSchemaOrder (Some s) (ts_wire_name o) (ts_namespace o) (ts_responses_tool_search o) (ts_prop o).

Definition order_named (name : bytes) (o : tool_schema_order) : bool :=
  match ts_name o with Some n => bytes_eqb (cstr n) (cstr name) | None => false end.

Definition tool_schema_orders_find_index (orders : list tool_schema_order) (name : option bytes) : option nat :=
  name ← name; fst <$> list_find (fun o => order_named name o = true) orders.

(** An order of a known name replaces the old one. *)
Definition tool_schema_orders_push (orders : list tool_schema_order) (order : tool_schema_order) : list tool_schema_order :=
  match tool_schema_orders_find_index orders (ts_name order) with
  | Some idx => <[idx := order]> orders
  | None => orders ++ [order]
  end.

Definition tool_schema_orders_find (orders : list tool_schema_order) (name : option bytes) : option tool_schema_order :=
  idx ← tool_schema_orders_find_index orders name; orders !! idx.

Definition append_raw_json_line (b json : bytes) : bytes :=
  match cstr json with
  | [] => b
  | json => (if bool_decide (b = []) then b else b ++ [10]) ++ json
  end.

(** The loop that looks for the wrapped schema. *)
Fixpoint function_loop (fuel : nat) (p : bytes) : jres bytes :=
  match fuel with
  | O => JNoFuel
  | S fuel' =>
      if (peek p =? 0) || at_ch p "}" then JFail
      else
        let? (key, p) := json_string p in
        let p := json_ws p in
        if negb (at_ch p ":") then JFail
        else if key_is (cstr key) "function" then json_raw_value (tail p)
        else let? (_, p) := json_skip_value (tail p) in function_loop fuel' (json_opt_comma p)
  end.

Definition openai_function_schema_from_tool (raw : bytes) : jres bytes :=
  let p := json_ws raw in
  if negb (at_ch p "{") then JFail
  else let p := json_ws (tail p) in function_loop (S (length p)) p.

(** The strings and raw values that the schema readers collect. *)
Record tool_item := mkToolItem {
  ti_type : option bytes;
  ti_name : option bytes;
  ti_description : option bytes;
  ti_parameters : option bytes;
  ti_tools : option bytes
}.

Definition tool_item_zero : tool_item := mkToolItem None None None None None.

Definition special_field (key : bytes) (t : tool_item) (p : bytes) : jres tool_item :=
  if key_is key "type" then
    let? (s, p) := json_string p in JOk (mkToolItem (Some s) (ti_name t) (ti_description t) (ti_parameters t) (ti_tools t)) p
  else if key_is key "description" then
    let? (s, p) := json_string p in JOk (mkToolItem (ti_type t) (ti_name t) (Some s) (ti_parameters t) (ti_tools t)) p
  else if key_is key "parameters" then
    let? (s, p) := json_raw_value p in JOk (mkToolItem (ti_type t) (ti_name t) (ti_description t) (Some s) (ti_tools t)) p
  else skip_field t p.

(** Double quotes written as apostrophes. *)
Definition dquoted (s : string) : bytes := map (fun c => if c =? ch "'" then quote else c) (bs s).
Arguments dquoted s%_string_scope.

Definition no_parameters : bytes := dquoted "{'type':'object','properties':{}}".

Definition responses_special_schema_from_tool (raw : bytes) : jres bytes :=
  let? (t, p) := object_fields special_field tool_item_zero raw in
  if c_is (ti_type t) "tool_search" then
    JOk (dquoted "{'name':'tool_search','description':" ++
         json_escape (default (bs "Search available tools.") (ti_description t)) ++
         dquoted ",'parameters':" ++ cstr (default no_parameters (ti_parameters t)) ++ bs "}") p
  else JFail.

Definition namespace_function_field (key : bytes) (t : tool_item) (p : bytes) : jres tool_item :=
  if key_is key "type" then
    let? (s, p) := json_string p in JOk (mkToolItem (Some s) (ti_name t) (ti_description t) (ti_parameters t) (ti_tools t)) p
  else if key_is key "name" then
    let? (s, p) := json_string p in JOk (mkToolItem (ti_type t) (Some s) (ti_description t) (ti_parameters t) (ti_tools t)) p
  else if key_is key "description" then
    let? (s, p) := json_string p in JOk (mkToolItem (ti_type t) (ti_name t) (Some s) (ti_parameters t) (ti_tools t)) p
  else if key_is key "parameters" || key_is key "input_schema" then
    let? (s, p) := json_raw_value p in JOk (mkToolItem (ti_type t) (ti_name t) (ti_description t) (Some s) (ti_tools t)) p
  else skip_field t p.

(** The schema and the name on the wire. *)
Definition responses_namespace_function_schema_from_tool (raw : bytes) (namespace : option bytes) : jres (bytes * bytes) :=
  let? (t, p) := object_fields namespace_function_field tool_item_zero raw in
  match namespace, ti_name t with
  | Some namespace, Some name =>
      if (bool_decide (ti_type t = None) || c_is (ti_type t) "function") && c_nonempty (Some name) then
        JOk (dquoted "{'name':" ++ json_escape (cstr namespace ++ cstr name) ++
             dquoted ",'description':" ++ json_escape (default [] (ti_description t)) ++
             dquoted ",'parameters':" ++ cstr (default no_parameters (ti_parameters t)) ++ bs "}", cstr name) p
      else JFail
  | _, _ => JFail
  end.

(** The properties of a schema; what was pushed stays when the rest is bad. *)
Definition property_field (prop : bytes) (order : tool_schema_order) (p : bytes) : tool_schema_order * jres unit :=
  (tool_schema_order_prop_push order prop, json_skip_value p).

Definition schema_field (key : bytes) (order : tool_schema_order) (p : bytes) : tool_schema_order * jres unit :=
  if key_is key "properties" then
    let p := json_ws p in
    if negb (at_ch p "{") then (order, JFail)
    else
      let p := json_ws (tail p) in
      match fields_keep (S (length p)) property_field order p with
      | (order, JOk _ p) => (order, if negb (at_ch p "}") then JFail else JOk tt (tail p))
      | r => r
      end
  else (order, json_skip_value p).

Definition parse_schema_properties (json : bytes) (order : tool_schema_order) : tool_schema_order * jres unit :=
  let p := json_ws json in
  if negb (at_ch p "{") then (order, JFail)
  else
    let p := json_ws (tail p) in
    match fields_keep (S (length p)) schema_field order p with
    | (order, JOk _ p) => (order, if at_ch p "}" then JOk tt p else JFail)
    | r => r
    end.

Definition order_field (key : bytes) (order : tool_schema_order) (p : bytes) : jres tool_schema_order :=
  if key_is key "name" then let? (s, p) := json_string p in JOk (order_set_name s order) p
  else if key_is key "input_schema" || key_is key "parameters" then
    let? (schema, p) := json_raw_value p in
    match parse_schema_properties schema order with
    | (_, JNoFuel) => JNoFuel
    | (order, _) => JOk order p
    end
  else skip_field order p.

(** The orders afterwards; nothing is added when the schema is bad or has no name. *)
Definition tool_schema_orders_add_json_wire (orders : list tool_schema_order) (json : bytes)
    (namespace wire_name : option bytes) (responses_tool_search : bool) : jres (list tool_schema_order) :=
  match object_fields order_field tool_schema_order_zero json with
  | JNoFuel => JNoFuel
  | JFail => JOk orders json
  | JOk order p =>
      JOk (match ts_name order with
           | None => orders
           | Some _ =>
               let set x old := if c_nonempty x then cstr <$> x else old in
               tool_schema_orders_push orders
                 (mkToolSchemaOrder (ts_name order) (set wire_name (ts_wire_name order)) (set namespace (ts_namespace order))
                    responses_tool_search (ts_prop order))
           end) p
  end.

Definition tool_schema_orders_add_json (orders : list tool_schema_order) (json : bytes) : jres (list tool_schema_order) :=
  tool_schema_orders_add_json_wire orders json None None false.

Definition namespace_field (key : bytes) (t : tool_item) (p : bytes) : jres tool_item :=
  if key_is key "type" then
    let? (s, p) := json_string p in JOk (mkToolItem (Some s) (ti_name t) (ti_description t) (ti_parameters t) (ti_tools t)) p
  else if key_is key "name" then
    let? (s, p) := json_string p in JOk (mkToolItem (ti_type t) (Some s) (ti_description t) (ti_parameters t) (ti_tools t)) p
  else if key_is key "tools" then
    let? (s, p) := json_raw_value p in JOk (mkToolItem (ti_type t) (ti_name t) (ti_description t) (ti_parameters t) (Some s)) p
  else skip_field t p.

(** The schemas so far, the orders, and whether one was appended. *)
Definition schema_state : Type := (bytes * list tool_schema_order * bool).

Definition namespace_element (name : bytes) (st : schema_state) (p : bytes) : schema_state * jres unit :=
  let '((schemas, orders), appended) := st in
  match json_raw_value p with
  | JNoFuel => (st, JNoFuel)
  | JFail => (st, JFail)
  | JOk tool_raw p =>
      match responses_namespace_function_schema_from_tool tool_raw (Some name) with
      | JNoFuel => (st, JNoFuel)
      | JFail => (st, JOk tt p)
      | JOk (schema, wire_name) _ =>
          match tool_schema_orders_add_json_wire orders schema (Some name) (Some wire_name) false with
          | JOk orders _ => ((append_raw_json_line schemas schema, orders, true), JOk tt p)
          | JFail => (st, JFail)
          | JNoFuel => (st, JNoFuel)
          end
      end
  end.

(** Whatever was appended before a bad element stays. *)
Definition append_responses_namespace_tool_schemas (schemas : bytes) (orders : list tool_schema_order) (raw : bytes)
  : schema_state * jres unit :=
  let st := (schemas, orders, false) in
  match object_fields namespace_field tool_item_zero raw with
  | JNoFuel => (st, JNoFuel)
  | JFail => (st, JFail)
  | JOk t p =>
      match ti_name t, ti_tools t with
      | Some name, Some tools =>
          if negb (c_is (ti_type t) "namespace") then (st, JFail)
          else
            let tp := json_ws tools in
            if negb (at_ch tp "[") then (st, JFail)
            else
              let tp := json_ws (tail tp) in
              elements_keep (S (length tp)) (namespace_element name) st tp
      | _, _ => (st, JFail)
      end
  end.

(** One tool: unwrapped, flattened out of its namespace, special, or as it is. *)
Definition tools_element (st : bytes * list tool_schema_order) (p : bytes) : jres (bytes * list tool_schema_order) :=
  let '(schemas, orders) := st in
  let? (raw, p) := json_raw_value p in
  match openai_function_schema_from_tool raw with
  | JNoFuel => JNoFuel
  | JOk function _ =>
      let? (orders, _) := tool_schema_orders_add_json orders function in
      JOk (append_raw_json_line schemas function, orders) p
  | JFail =>
      match append_responses_namespace_tool_schemas schemas orders raw with
      | (_, JNoFuel) => JNoFuel
      | (((schemas, orders), true), _) => JOk (schemas, orders) p
      | (((schemas, orders), false), _) =>
          match responses_special_schema_from_tool raw with
          | JNoFuel => JNoFuel
          | JOk special _ =>
              let? (orders, _) := tool_schema_orders_add_json_wire orders special None None true in
              JOk (append_raw_json_line schemas special, orders) p
          | JFail =>
              let? (orders, _) := tool_schema_orders_add_json orders raw in
              JOk (append_raw_json_line schemas raw, orders) p
          end
      end
  end.

Definition parse_tools_value (orders : list tool_schema_order) (p : bytes) : jres (bytes * list tool_schema_order) :=
  let p := json_ws p in
  match json_lit p (bs "null") with
  | Some p => JOk ([], orders) p
  | None => if negb (at_ch p "[") then JFail else json_elements tools_element ([], orders) (tail p)
  end.

(** * Messages *)

(** [tool_call_id] is the first id, [tool_call_ids] all of them. *)
Record chat_msg := mkChatMsg {
  cm_role : option bytes;
  cm_content : option bytes;
  cm_reasoning : option bytes;
  cm_tool_call_id : option bytes;
  cm_tool_call_ids : list bytes;
  cm_calls : tool_calls
}.

Definition chat_msg_zero : chat_msg := mkChatMsg None None None None [] tool_calls_zero.

Definition msg_role (s : bytes) (m : chat_msg) : chat_msg :=
  mkChatMsg (Some s) (cm_content m) (cm_reasoning m) (cm_tool_call_id m) (cm_tool_call_ids m) (cm_calls m).
Definition msg_content (s : option bytes) (m : chat_msg) : chat_msg :=
  mkChatMsg (cm_role m) s (cm_reasoning m) (cm_tool_call_id m) (cm_tool_call_ids m) (cm_calls m).
Definition msg_reasoning (s : bytes) (m : chat_msg) : chat_msg :=
  mkChatMsg (cm_role m) (cm_content m) (Some s) (cm_tool_call_id m) (cm_tool_call_ids m) (cm_calls m).
Definition msg_calls (calls : tool_calls) (m : chat_msg) : chat_msg :=
  mkChatMsg (cm_role m) (cm_content m) (cm_reasoning m) (cm_tool_call_id m) (cm_tool_call_ids m) calls.

Definition chat_msg_add_tool_call_id (m : chat_msg) (id : option bytes) : chat_msg :=
  match cstr (default [] id) with
  | [] => m
  | id =>
      let first := match cm_tool_call_id m with None => Some id | old => old end in
      mkChatMsg (cm_role m) (cm_content m) (cm_reasoning m) first
        (if existsb (fun x => bytes_eqb (cstr x) id) (cm_tool_call_ids m) then cm_tool_call_ids m
         else cm_tool_call_ids m ++ [id]) (cm_calls m)
  end.

(** [if (!msg.role) ...; if (!msg.content) ...] before the push. *)
Definition msg_complete (m : chat_msg) : chat_msg :=
  let m := match cm_role m with None => msg_role (bs "user") m | Some _ => m end in
  match cm_content m with None => msg_content (Some []) m | Some _ => m end.

Definition message_field (key : bytes) (m : chat_msg) (p : bytes) : jres chat_msg :=
  if key_is key "role" then let? (s, p) := json_string p in JOk (msg_role s m) p
  else if key_is key "content" then let? (s, p) := json_content p in JOk (msg_content (Some s) m) p
  else if key_is key "reasoning_content" then let? (s, p) := json_content p in JOk (msg_reasoning s m) p
  else if key_is key "tool_call_id" then let? (id, p) := json_string p in JOk (chat_msg_add_tool_call_id m (Some id)) p
  else if key_is key "tool_calls" then
    let? (calls, p) := parse_tool_calls_value [] p in JOk (msg_calls (mkCalls calls None) m) p
  else skip_field m p.

Definition messages_element (msgs : list chat_msg) (p : bytes) : jres (list chat_msg) :=
  if negb (at_ch p "{") then JFail
  else let? (m, p) := json_fields message_field chat_msg_zero (tail p) in JOk (msgs ++ [msg_complete m]) p.

Definition parse_messages (msgs : list chat_msg) (p : bytes) : jres (list chat_msg) :=
  let p := json_ws p in
  if negb (at_ch p "[") then JFail else json_elements messages_element msgs (tail p).

(** ** The blocks of an Anthropic message *)

Definition append_anthropic_block_content (dst text : bytes) : bytes := dst ++ cstr text.

Record content_block := mkContentBlock {
  cb_type : option bytes;
  cb_text : option bytes;
  cb_thinking : option bytes;
  cb_id : option bytes;
  cb_name : option bytes;
  cb_input : option bytes;
  cb_tool_result : option bytes
}.

Definition content_block_zero : content_block := mkContentBlock None None None None None None None.

Definition block_field (key : bytes) (b : content_block) (p : bytes) : jres content_block :=
  let '(mkContentBlock type text thinking id name input tool_result) := b in
  if key_is key "type" then
    let? (s, p) := json_string p in JOk (mkContentBlock (Some s) text thinking id name input tool_result) p
  else if key_is key "text" then
    let? (s, p) := json_content p in JOk (mkContentBlock type (Some s) thinking id name input tool_result) p
  else if key_is key "thinking" then
    let? (s, p) := json_content p in JOk (mkContentBlock type text (Some s) id name input tool_result) p
  else if key_is key "id" || key_is key "tool_use_id" then
    let? (s, p) := json_string p in JOk (mkContentBlock type text thinking (Some s) name input tool_result) p
  else if key_is key "name" then
    let? (s, p) := json_string p in JOk (mkContentBlock type text thinking id (Some s) input tool_result) p
  else if key_is key "input" then
    let? (s, p) := json_raw_value p in JOk (mkContentBlock type text thinking id name (Some s) tool_result) p
  else if key_is key "content" then
    let? (s, p) := json_content p in JOk (mkContentBlock type text thinking id name input (Some s)) p
  else skip_field b p.

(** What a block adds to its message, by its own type. *)
Definition add_block (m : chat_msg) (b : content_block) : chat_msg :=
  if c_is (cb_type b) "tool_use" then
    msg_calls (tool_calls_push (cm_calls m)
      (mkToolCall (cstr <$> cb_id b) (Some (cstr (default [] (cb_name b)))) (Some (cstr (default (bs "{}") (cb_input b)))))) m
  else if c_is (cb_type b) "tool_result" then
    let m := chat_msg_add_tool_call_id m (cb_id b) in
    msg_content (Some (cstr (default [] (cm_content m)) ++ bs "<tool_result>" ++
      append_tool_result_text (default [] (cb_tool_result b)) ++ bs "</tool_result>")) m
  else
    let m := match cb_text b with
             | Some text => msg_content (Some (append_anthropic_block_content (cstr (default [] (cm_content m))) text)) m
             | None => m
             end in
    match cb_thinking b with
    | Some thinking => msg_reasoning (append_anthropic_block_content (cstr (default [] (cm_reasoning m))) thinking) m
    | None => m
    end.

Definition parse_anthropic_content_block (m : chat_msg) (p : bytes) : jres chat_msg :=
  if negb (at_ch p "{") then JFail
  else let? (b, p) := json_fields block_field content_block_zero (tail p) in JOk (add_block m b) p.

Definition anthropic_content_element (m : chat_msg) (p : bytes) : jres chat_msg :=
  if peek p =? quote then
    let? (s, p) := json_string p in JOk (msg_content (Some (cstr (default [] (cm_content m)) ++ cstr s)) m) p
  else if at_ch p "{" then parse_anthropic_content_block m p
  else skip_field m p.

Definition parse_anthropic_content (m : chat_msg) (p : bytes) : jres chat_msg :=
  let p := json_ws p in
  if peek p =? quote then let? (s, p) := json_string p in JOk (msg_content (Some s) m) p
  else
    match json_lit p (bs "null") with
    | Some p => JOk (msg_content (Some []) m) p
    | None =>
        if negb (at_ch p "[") then skip_field m p
        else
          let? (m, p) := json_elements anthropic_content_element m (tail p) in
          JOk (match cm_content m with None => msg_content (Some []) m | Some _ => m end) p
    end.

Definition anthropic_message_field (key : bytes) (m : chat_msg) (p : bytes) : jres chat_msg :=
  if key_is key "role" then let? (s, p) := json_string p in JOk (msg_role s m) p
  else if key_is key "content" then parse_anthropic_content (msg_content None m) p
  else skip_field m p.

Definition anthropic_messages_element (msgs : list chat_msg) (p : bytes) : jres (list chat_msg) :=
  if negb (at_ch p "{") then JFail
  else let? (m, p) := json_fields anthropic_message_field chat_msg_zero (tail p) in JOk (msgs ++ [msg_complete m]) p.

Definition parse_anthropic_messages (msgs : list chat_msg) (p : bytes) : jres (list chat_msg) :=
  let p := json_ws p in
  if negb (at_ch p "[") then JFail else json_elements anthropic_messages_element msgs (tail p).

(** ** The system prompt *)

Definition anthropic_system_part_is_private (s : bytes) : bool := starts_with (bs "x-anthropic-") s.

Definition append_anthropic_system_part (b s : bytes) : bytes :=
  let s := cstr s in
  if bool_decide (s = []) || anthropic_system_part_is_private s then b
  else (match list.last b with Some c => if c =? 10 then b else b ++ [10] | None => b end) ++ s.

Definition system_object_field (key b : bytes) (p : bytes) : jres bytes :=
  if key_is key "text" then let? (text, p) := json_string p in JOk (append_anthropic_system_part b text) p
  else skip_field b p.

Definition parse_anthropic_system_object (out p : bytes) : jres bytes :=
  if negb (at_ch p "{") then JFail else json_fields system_object_field out (tail p).

Definition anthropic_system_element (b p : bytes) : jres bytes :=
  if peek p =? quote then let? (text, p) := json_string p in JOk (append_anthropic_system_part b text) p
  else if at_ch p "{" then parse_anthropic_system_object b p
  else skip_field b p.

Definition parse_anthropic_system (p : bytes) : jres bytes :=
  let p := json_ws p in
  if peek p =? quote then let? (text, p) := json_string p in JOk (append_anthropic_system_part [] text) p
  else
    match json_lit p (bs "null") with
    | Some p => JOk [] p
    | None => if negb (at_ch p "[") then skip_field [] p else json_elements anthropic_system_element [] (tail p)
    end.

(** * The items of a Responses request *)

Definition text_field (key : bytes) (t : tool_item) (p : bytes) : jres tool_item :=
  if key_is key "type" then
    let? (s, p) := json_string p in JOk (mkToolItem (Some s) (ti_name t) (ti_description t) (ti_parameters t) (ti_tools t)) p
  else if key_is key "text" then
    let p := json_ws p in
    let text s := mkToolItem (ti_type t) (ti_name t) (Some s) (ti_parameters t) (ti_tools t) in
    match json_lit p (bs "null") with
    | Some p => JOk (text []) p
    | None => let? (s, p) := json_string p in JOk (text s) p
    end
  else skip_field t p.

Definition text_block_types : list string := ["input_text"; "output_text"; "text"; "summary_text"; "reasoning_text"]%string.

(** A string or a typed text object; [ti_description] holds the text. *)
Definition responses_content_element (b p : bytes) : jres bytes :=
  if peek p =? quote then let? (s, p) := json_string p in JOk (b ++ cstr s) p
  else if at_ch p "{" then
    let? (t, p) := json_fields text_field tool_item_zero (tail p) in
    match ti_type t, ti_description t with
    | Some type, Some text => if one_of (cstr type) text_block_types then JOk (b ++ cstr text) p else JFail
    | _, _ => JFail
    end
  else JFail.

Definition parse_responses_content_array (p : bytes) : jres bytes :=
  let p := json_ws p in
  if peek p =? quote then json_string p
  else
    match json_lit p (bs "null") with
    | Some p => JOk [] p
    | None => if negb (at_ch p "[") then JFail else json_elements responses_content_element [] (tail p)
    end.

(** The variables of one item, each named like its key. *)
Definition responses_item : Type := gmap bytes bytes.

Definition item_slot (i : responses_item) (key : string) : option bytes := (i : gmap bytes bytes) !! bs key.
Arguments item_slot i key%_string_scope.

Definition item_value (key : bytes) (p : bytes) : option (jres bytes) :=
  if one_of key ["type"; "role"; "name"; "namespace"; "call_id"; "id"; "status"]%string then Some (json_string p)
  else if one_of key ["content"; "summary"]%string then Some (parse_responses_content_array p)
  else if one_of key ["arguments"; "input"; "result"]%string then Some (string_or_raw p)
  else if key_is key "output" then
    let p := json_ws p in
    Some (if at_ch p "[" then parse_responses_content_array p else string_or_raw p)
  else if one_of key ["action"; "tools"]%string then Some (json_raw_value p)
  else None.

Definition item_field (key : bytes) (i : responses_item) (p : bytes) : jres responses_item :=
  match item_value key p with
  | Some m => let? (s, p) := m in JOk (<[key := s]> (i : gmap bytes bytes)) p
  | None => skip_field i p
  end.

(** The messages, the reasoning not yet attached, and where discovered tools go
    (the schemas and the orders; [None] for the NULL pointers). *)
Record responses_state := mkResponses {
  rs_msgs : list chat_msg;
  rs_pending_reasoning : bytes;
  rs_tools : option (bytes * list tool_schema_order)
}.

Definition assistant_msg (reasoning : option bytes) (calls : list tool_call) : chat_msg :=
  mkChatMsg (Some (bs "assistant")) (Some []) reasoning None [] (mkCalls calls None).

(** [if (pending_reasoning.len) x = buf_take(...)] *)
Definition taken (pending : bytes) : option bytes := if bool_decide (pending = []) then None else Some pending.

(** An empty assistant message for reasoning that nothing else takes. *)
Definition flush_reasoning (st : responses_state) : responses_state :=
  match taken (rs_pending_reasoning st) with
  | Some r => mkResponses (rs_msgs st ++ [assistant_msg (Some r) []]) [] (rs_tools st)
  | None => st
  end.

(** A call joins the assistant message before it, or becomes one. *)
Definition add_call (tc : tool_call) (st : responses_state) : responses_state :=
  let pending := rs_pending_reasoning st in
  match list.last (rs_msgs st) with
  | Some m =>
      if c_is (cm_role m) "assistant" then
        let takes := negb (bool_decide (pending = [])) && negb (c_nonempty (cm_reasoning m)) in
        let m := if takes then msg_reasoning pending m else m in
        mkResponses (removelast (rs_msgs st) ++ [msg_calls (tool_calls_push (cm_calls m) tc) m])
          (if takes then [] else pending) (rs_tools st)
      else mkResponses (rs_msgs st ++ [assistant_msg (taken pending) [tc]]) [] (rs_tools st)
  | None => mkResponses (rs_msgs st ++ [assistant_msg (taken pending) [tc]]) [] (rs_tools st)
  end.

Definition tool_msg (content : bytes) (i : responses_item) : chat_msg :=
  chat_msg_add_tool_call_id
    (mkChatMsg (Some (bs "tool")) (Some content) None None [] tool_calls_zero)
    (match item_slot i "call_id" with None => item_slot i "id" | id => id end).

Definition push_msg (m : chat_msg) (st : responses_state) : responses_state :=
  mkResponses (rs_msgs st ++ [m]) (rs_pending_reasoning st) (rs_tools st).

Definition orelse (a b : option bytes) : option bytes := match a with None => b | a => a end.

Definition item_id (i : responses_item) : bytes := cstr (default [] (orelse (item_slot i "call_id") (item_slot i "id"))).

Definition is_consuming (t : bytes) (i : responses_item) : bool :=
  (key_is t "message" && c_is (item_slot i "role") "assistant") ||
  one_of t ["function_call"; "custom_tool_call"; "local_shell_call"; "web_search_call"; "tool_search_call"; "image_generation_call"]%string.

Definition is_bookkeeping (t : bytes) : bool := one_of t ["compaction"; "context_compaction"]%string.

(** [buf_putc] of a line feed between two pieces of reasoning. *)
Definition append_reasoning (pending : bytes) (s : option bytes) : bytes :=
  match cstr (default [] s) with
  | [] => pending
  | s => (if bool_decide (pending = []) then pending else pending ++ [10]) ++ s
  end.

Definition message_item (i : responses_item) (st : responses_state) : responses_state :=
  let m := mkChatMsg (Some (cstr (default (bs "user") (item_slot i "role")))) (Some (default [] (item_slot i "content")))
             None None [] tool_calls_zero in
  match taken (rs_pending_reasoning st) with
  | Some r =>
      if c_is (cm_role m) "assistant"
      then mkResponses (rs_msgs st ++ [msg_reasoning r m]) [] (rs_tools st) else push_msg m st
  | None => push_msg m st
  end.

Definition call_item (t : bytes) (i : responses_item) (st : responses_state) : responses_state :=
  let name := item_slot i "name" in
  let namespace := item_slot i "namespace" in
  let args := default (bs "{}") (orelse (item_slot i "arguments") (item_slot i "input")) in
  let name := if negb (key_is t "custom_tool_call") && c_nonempty namespace && c_nonempty name
              then cstr (default [] namespace) ++ cstr (default [] name) else cstr (default [] name) in
  add_call (mkToolCall (Some (item_id i)) (Some name) (Some (cstr args))) st.

Definition hosted_call_item (t : bytes) (i : responses_item) (st : responses_state) : responses_state :=
  let name := if key_is t "tool_search_call" then bs "tool_search"
              else if key_is t "local_shell_call" then bs "local_shell" else t in
  let args := default (bs "{}") (orelse (item_slot i "action") (orelse (item_slot i "arguments") (item_slot i "input"))) in
  add_call (mkToolCall (Some (item_id i)) (Some name) (Some (cstr args))) st.

(** Tools that a search discovered are loaded before its output is shown. *)
Definition load_discovered (t : bytes) (i : responses_item) (st : responses_state) (p : bytes) : jres responses_state :=
  match item_slot i "tools", rs_tools st with
  | Some tools, Some (loaded, orders) =>
      if key_is t "tool_search_output" then
        let? (found, _) := parse_tools_value orders tools in
        let '(schemas, orders) := found in
        let loaded := match cstr schemas with
                      | [] => loaded
                      | schemas => (if bool_decide (loaded = []) then loaded else loaded ++ [10]) ++ schemas
                      end in
        JOk (mkResponses (rs_msgs st) (rs_pending_reasoning st) (Some (loaded, orders))) p
      else JOk st p
  | _, _ => JOk st p
  end.

Definition hosted_output_item (t : bytes) (i : responses_item) (st : responses_state) (p : bytes) : jres responses_state :=
  let? (st, p) := load_discovered t i st p in
  let body := default [] (orelse (item_slot i "output") (orelse (item_slot i "result") (item_slot i "tools"))) in
  JOk (push_msg (tool_msg (cstr body) i) st) p.

(** What an item does to the history. *)
Definition add_item (i : responses_item) (st : responses_state) (p : bytes) : jres responses_state :=
  let t := cstr (default (bs "message") (item_slot i "type")) in
  if c_nonempty (item_slot i "status") && negb (c_is (item_slot i "status") "completed") then JFail
  else
    let st := if negb (is_consuming t i) && negb (is_bookkeeping t) then flush_reasoning st else st in
    if key_is t "message" then JOk (message_item i st) p
    else if one_of t ["function_call"; "custom_tool_call"]%string then JOk (call_item t i st) p
    else if one_of t ["function_call_output"; "custom_tool_call_output"]%string then
      JOk (push_msg (tool_msg (default [] (item_slot i "output")) i) st) p
    else if key_is t "reasoning" then
      let pending := append_reasoning (append_reasoning (rs_pending_reasoning st) (item_slot i "summary")) (item_slot i "content") in
      JOk (mkResponses (rs_msgs st) pending (rs_tools st)) p
    else if one_of t ["local_shell_call"; "web_search_call"; "tool_search_call"; "image_generation_call"]%string
    then JOk (hosted_call_item t i st) p
    else if one_of t ["local_shell_call_output"; "web_search_call_output"; "tool_search_output";
                      "tool_search_call_output"; "image_generation_call_output"]%string
    then hosted_output_item t i st p
    else if negb (is_bookkeeping t) then JFail
    else JOk st p.

Definition input_element (st : responses_state) (p : bytes) : jres responses_state :=
  if negb (at_ch p "{") then JFail
  else let? (i, p) := json_fields item_field (∅ : gmap bytes bytes) (tail p) in add_item i st p.

Definition parse_responses_input (msgs : list chat_msg) (tools : option (bytes * list tool_schema_order)) (p : bytes)
  : jres responses_state :=
  let p := json_ws p in
  if negb (at_ch p "[") then JFail
  else
    let? (st, p) := json_elements input_element (mkResponses msgs [] tools) (tail p) in
    JOk (flush_reasoning st) p.

(** ** Reasoning *)

Record reasoning_control := mkReasoning {
  rc_effort : ds4_think_mode;
  rc_summary_opted_in : bool;
  rc_effort_seen : bool
}.

Definition reasoning_field (key : bytes) (r : reasoning_control) (p : bytes) : jres reasoning_control :=
  if key_is key "effort" then
    let p := json_ws p in
    match json_lit p (bs "null") with
    | Some p => JOk r p
    | None =>
        let? (effort, p) := parse_reasoning_effort_value (rc_effort r) p in
        JOk (mkReasoning effort (rc_summary_opted_in r) true) p
    end
  else if key_is key "summary" then
    let p := json_ws p in
    match json_lit p (bs "null") with
    | Some p => JOk r p
    | None =>
        if peek p =? quote then
          let? (mode, p) := json_string p in
          JOk (if one_of (cstr mode) ["auto"; "concise"; "detailed"]%string
               then mkReasoning (rc_effort r) true (rc_effort_seen r) else r) p
        else skip_field r p
    end
  else skip_field r p.

Definition parse_responses_reasoning (r : reasoning_control) (p : bytes) : jres reasoning_control :=
  let p := json_ws p in
  match json_lit p (bs "null") with
  | Some p => JOk r p
  | None => if negb (at_ch p "{") then skip_field r p else json_fields reasoning_field r (tail p)
  end.

(** * The prompt of a completion *)

(** The elements behind the first are skipped. *)
Fixpoint prompt_loop (fuel : nat) (p : bytes) : jres unit :=
  match fuel with
  | O => JNoFuel
  | S fuel' =>
      if (peek p =? 0) || at_ch p "]" then JOk tt p
      else
        let p := json_ws p in
        if at_ch p "," then let? (_, p) := json_skip_value (tail p) in prompt_loop fuel' p else JOk tt p
  end.

Definition parse_prompt (p : bytes) : jres bytes :=
  let p := json_ws p in
  if peek p =? quote then json_string p
  else if negb (at_ch p "[") then skip_field [] p
  else
    let p := json_ws (tail p) in
    let? (out, p) := (if peek p =? quote then json_string p
                      else if (peek p =? 0) || at_ch p "]" then JOk [] p else skip_field [] p) in
    let? (_, p) := prompt_loop (S (length p)) p in
    if negb (at_ch p "]") then JFail else JOk out (tail p).

(** * The parsers end and stay in the text *)

(** One parser after another on the same text. *)
Lemma parser_then {A B} n p (m : jres A) (k : A -> bytes -> jres B) :
  parser_ok n p m -> (forall a q, parser_ok 0 q (k a q)) -> parser_ok n p (jbind m k).
Proof.
  intros Hm Hk. destruct m as [a q| |]; cbn in *; try done. apply (parser_weaken (n + 0)); [lia|].
  by eapply parser_from.
Qed.

(** A pure step at the end, whose cursor is that of the parser. *)
Lemma parser_opt {A B} n p (m : jres A) (f : A -> bytes -> jres B) :
  parser_ok n p m -> (forall a q, f a q = JFail \/ exists b, f a q = JOk b q) -> parser_ok n p (jbind m f).
Proof. intros Hm Hf. destruct m as [a q| |]; cbn in *; try done. by destruct (Hf a q) as [->|[b ->]]. Qed.

Definition keep_ok {S} (p : bytes) (r : S * jres unit) : Prop := parser_ok 0 p r.2.

Lemma keep_from {S} n m p q (r : S * jres unit) : behind (n + m) p q -> keep_ok q r -> keep_ok p r.
Proof. intros H Hr. apply (parser_weaken (n + m + 0)); [lia|]. by eapply parser_from. Qed.

Lemma fields_keep_ok {S} (field : bytes -> S -> bytes -> S * jres unit) fuel st p :
  (forall key st q, keep_ok q (field key st q)) -> (length p < fuel)%nat -> keep_ok p (fields_keep fuel field st p).
Proof.
  intros Hf. revert st p. induction fuel as [|fuel IH]; intros st p Hl; [lia|]. cbn [fields_keep].
  destruct (_ || _); [apply behind_refl|].
  pose proof (json_string_ok p) as Hs. destruct (json_string p) as [key q| |]; cbn in Hs; [|done..].
  destruct (at_ch (json_ws q) ":") eqn:Ec; cbn [negb]; [|done].
  pose proof (behind_trans _ _ _ _ _ Hs (behind_close _ _ Ec ltac:(done))) as Hq.
  pose proof (Hf (cstr key) st (tail (json_ws q))) as Hfd. unfold keep_ok in Hfd.
  destruct (field _ _ _) as [st' [u q2| |]]; cbn [snd] in Hfd; try done. cbn in Hfd.
  pose proof (behind_trans _ _ _ _ _ Hq (behind_trans _ _ _ _ _ Hfd (behind_opt_comma q2))) as Hq2.
  pose proof (behind_length _ _ _ Hq2). eapply keep_from; [exact Hq2|]. apply IH. lia.
Qed.

Lemma elements_keep_ok {S} (element : S -> bytes -> S * jres unit) fuel st p :
  (forall st q, parser_ok 1 q (element st q).2) -> (length p < fuel)%nat -> keep_ok p (elements_keep fuel element st p).
Proof.
  intros Hf. revert st p. induction fuel as [|fuel IH]; intros st p Hl; [lia|]. cbn [elements_keep].
  destruct (_ || _); [apply behind_refl|].
  pose proof (Hf st p) as He. destruct (element st p) as [st' [u q| |]]; cbn [snd] in He; try done. cbn in He.
  pose proof (behind_trans _ _ _ _ _ He (behind_opt_comma q)) as Hq. pose proof (behind_length _ _ _ Hq).
  eapply keep_from; [exact Hq|]. apply IH. lia.
Qed.

Lemma behind_open_ws p a : at_ch (json_ws p) a = true -> ch a <> 0 -> behind 1 p (json_ws (tail (json_ws p))).
Proof.
  intros Ha Hc. apply (behind_trans 0 1 _ (json_ws p)); [apply behind_ws|].
  apply (behind_trans 1 0 _ (tail (json_ws p))); [by eapply behind_at|apply behind_ws].
Qed.

Lemma object_fields_ok {S} (field : bytes -> S -> bytes -> jres S) st raw :
  (forall key st q, parser_ok 0 q (field key st q)) -> parser_ok 0 raw (object_fields field st raw).
Proof.
  intros Hf. unfold object_fields. destruct (at_ch (json_ws raw) "{") eqn:E; cbn [negb]; [|done].
  apply (parser_weaken 1); [lia|]. apply (parser_from 1 0 _ (json_ws (tail (json_ws raw)))); [by eapply behind_open_ws|].
  apply fields_loop_ok; [done|lia].
Qed.

Lemma string_or_raw_ok p : parser_ok 1 p (string_or_raw p).
Proof. unfold string_or_raw. apply parser_ws. parser_tac. Qed.

#[export] Hint Resolve string_or_raw_ok json_content_ok json_skip_value_ok parse_effort_ok : json.

(** ** Tools *)

Lemma function_loop_ok fuel p : (length p < fuel)%nat -> parser_ok 0 p (function_loop fuel p).
Proof.
  revert p. induction fuel as [|fuel IH]; intros p Hl; [lia|]. cbn [function_loop].
  destruct (_ || _); [done|]. pose proof (json_string_ok p) as Hs. destruct (json_string p) as [key q| |]; cbn [jbind] in *; try done.
  cbn in Hs. destruct (at_ch (json_ws q) ":") eqn:Ec; cbn [negb]; [|done].
  pose proof (behind_trans _ _ _ _ _ Hs (behind_close _ _ Ec ltac:(done))) as Hq.
  case_match.
  { eapply parser_weaken; [|eapply parser_from; [exact Hq|apply json_raw_value_ok]]. lia. }
  pose proof (json_skip_value_ok (tail (json_ws q))) as Hv. destruct (json_skip_value _) as [u q2| |]; cbn [jbind] in *; try done.
  pose proof (behind_trans _ _ _ _ _ Hq (behind_trans _ _ _ _ _ Hv (behind_opt_comma q2))) as Hq2.
  pose proof (behind_length _ _ _ Hq2). eapply parser_weaken; [|eapply parser_from; [exact Hq2|apply IH; lia]]. lia.
Qed.

Lemma function_schema_ok raw : parser_ok 0 raw (openai_function_schema_from_tool raw).
Proof.
  unfold openai_function_schema_from_tool. destruct (at_ch (json_ws raw) "{") eqn:E; cbn [negb]; [|done].
  apply (parser_weaken 1); [lia|]. apply (parser_from 1 0 _ (json_ws (tail (json_ws raw)))); [by eapply behind_open_ws|].
  apply function_loop_ok. lia.
Qed.

Lemma special_schema_ok raw : parser_ok 0 raw (responses_special_schema_from_tool raw).
Proof.
  unfold responses_special_schema_from_tool. apply parser_opt; [|intros t q; case_match; eauto].
  apply object_fields_ok. intros key t q. unfold special_field. parser_tac.
Qed.

Lemma namespace_schema_ok raw ns : parser_ok 0 raw (responses_namespace_function_schema_from_tool raw ns).
Proof.
  unfold responses_namespace_function_schema_from_tool. apply parser_opt; [|intros t q; repeat case_match; eauto].
  apply object_fields_ok. intros key t q. unfold namespace_function_field. parser_tac.
Qed.

Lemma skip_keep {S} (st : S) p : keep_ok p (st, json_skip_value p).
Proof. apply parser_any, json_skip_value_ok. Qed.

Lemma schema_field_ok key order p : keep_ok p (schema_field key order p).
Proof.
  unfold schema_field. case_match; [|apply skip_keep]. destruct (at_ch (json_ws p) "{") eqn:E; cbn [negb]; [|done].
  set (q := json_ws (tail (json_ws p))). assert (Hq : behind 1 p q) by (by eapply behind_open_ws).
  pose proof (fields_keep_ok property_field (Datatypes.S (length q)) order q ltac:(intros; apply skip_keep) ltac:(lia)) as Hk.
  unfold keep_ok in *. destruct (fields_keep _ _ _ _) as [o [u q2| |]]; cbn [snd] in *; try done. cbn in Hk.
  destruct (at_ch q2 "}") eqn:E2; cbn [negb]; [|done]. eapply (behind_weaken (1 + (0 + 1))); [lia|].
  eapply behind_trans; [exact Hq|]. eapply behind_trans; [exact Hk|by eapply behind_at].
Qed.

Lemma schema_properties_ok json order : keep_ok json (parse_schema_properties json order).
Proof.
  unfold parse_schema_properties. destruct (at_ch (json_ws json) "{") eqn:E; cbn [negb]; [|done].
  set (q := json_ws (tail (json_ws json))). assert (Hq : behind 1 json q) by (by eapply behind_open_ws).
  pose proof (fields_keep_ok schema_field (Datatypes.S (length q)) order q schema_field_ok ltac:(lia)) as Hk.
  unfold keep_ok in *. destruct (fields_keep _ _ _ _) as [o [u q2| |]]; cbn [snd] in *; try done. cbn in Hk.
  destruct (at_ch q2 "}"); [|done]. eapply (behind_weaken (1 + 0)); [lia|]. by eapply behind_trans.
Qed.

Lemma order_field_ok key order p : parser_ok 0 p (order_field key order p).
Proof.
  unfold order_field. parser_tac. apply parser_opt; [apply json_raw_value_ok|]. intros schema q.
  pose proof (schema_properties_ok schema order) as Hk. unfold keep_ok in Hk.
  destruct (parse_schema_properties _ _) as [o [| |]]; cbn [snd] in Hk; eauto. done.
Qed.

(** The helper never fails, and does not run out of fuel. *)
Lemma orders_add_ok orders json ns wire search :
  exists orders' q, tool_schema_orders_add_json_wire orders json ns wire search = JOk orders' q.
Proof.
  unfold tool_schema_orders_add_json_wire.
  pose proof (object_fields_ok order_field tool_schema_order_zero json order_field_ok) as H.
  destruct (object_fields _ _ _); [by eexists _, _..|done].
Qed.

Lemma namespace_element_ok name st p : parser_ok 1 p (namespace_element name st p).2.
Proof.
  destruct st as [[schemas orders] appended]. unfold namespace_element.
  pose proof (json_raw_value_ok p) as Hr. destruct (json_raw_value p) as [raw q| |]; cbn in Hr; [|done..].
  pose proof (namespace_schema_ok raw (Some name)) as Hn.
  destruct (responses_namespace_function_schema_from_tool _ _) as [[schema wire] q2| |]; [|done..].
  by destruct (orders_add_ok orders schema (Some name) (Some wire) false) as (orders' & q3 & ->).
Qed.

Lemma namespace_schemas_ok schemas orders raw :
  (append_responses_namespace_tool_schemas schemas orders raw).2 <> JNoFuel.
Proof.
  unfold append_responses_namespace_tool_schemas.
  pose proof (object_fields_ok namespace_field tool_item_zero raw ltac:(intros; unfold namespace_field; parser_tac)) as H.
  destruct (object_fields _ _ _) as [t q| |]; [|done..]. destruct (ti_name t) as [name|], (ti_tools t) as [tools|]; try done.
  case_match; [done|]. destruct (at_ch (json_ws tools) "[") eqn:E; cbn [negb]; [|done]. set (tp := json_ws (tail (json_ws tools))).
  pose proof (elements_keep_ok (namespace_element name) (Datatypes.S (length tp)) (schemas, orders, false) tp
    (namespace_element_ok name) ltac:(lia)) as Hk. unfold keep_ok in Hk. by intros E2; rewrite E2 in Hk.
Qed.

Lemma tools_element_ok st p : parser_ok 1 p (tools_element st p).
Proof.
  destruct st as [schemas orders]. unfold tools_element. apply parser_opt; [apply json_raw_value_ok|]. intros raw q.
  pose proof (function_schema_ok raw) as Hf. destruct (openai_function_schema_from_tool raw) as [f q2| |]; [| |done].
  { destruct (orders_add_ok orders f None None false) as (o & q3 & E). unfold tool_schema_orders_add_json. rewrite E. right. by eexists. }
  pose proof (namespace_schemas_ok schemas orders raw) as Hn.
  destruct (append_responses_namespace_tool_schemas _ _ _) as [[[sc os] [|]] [| |]]; cbn [snd] in Hn; try done; eauto.
  all: pose proof (special_schema_ok raw) as Hs; destruct (responses_special_schema_from_tool raw) as [sp q2| |]; [| |done];
    unfold tool_schema_orders_add_json; match goal with |- context [tool_schema_orders_add_json_wire ?a ?b ?c ?d ?e] =>
      destruct (orders_add_ok a b c d e) as (o & q3 & ->) end; right; by eexists.
Qed.

Lemma parse_tools_ok orders p : parser_ok 1 p (parse_tools_value orders p).
Proof.
  unfold parse_tools_value. apply parser_ws. parser_tac. eapply parser_open; [eassumption|done|].
  apply json_elements_ok, tools_element_ok.
Qed.

(** ** Messages *)

(** An array of objects, each read by the fields [field]. *)
Lemma objects_ok {S T} (field : bytes -> S -> bytes -> jres S) st0 (f : list T -> S -> list T) l p :
  (forall key st q, parser_ok 0 q (field key st q)) ->
  parser_ok 1 p (json_elements (fun l p => if negb (at_ch p "{") then JFail
                                           else let? (m, p) := json_fields field st0 (tail p) in JOk (f l m) p) l p).
Proof.
  intros Hf. apply json_elements_ok. intros l' q. parser_tac. eapply parser_open; [eassumption|done|]. by apply json_fields_ok.
Qed.

Lemma message_field_ok key m p : parser_ok 0 p (message_field key m p).
Proof. unfold message_field. parser_tac. apply parse_tool_calls_ok. Qed.

Lemma parse_messages_ok msgs p : parser_ok 1 p (parse_messages msgs p).
Proof.
  unfold parse_messages. apply parser_ws. parser_tac. eapply parser_open; [eassumption|done|].
  apply (objects_ok message_field chat_msg_zero (fun msgs m => msgs ++ [msg_complete m])), message_field_ok.
Qed.

Lemma block_field_ok key b p : parser_ok 0 p (block_field key b p).
Proof. destruct b. unfold block_field. parser_tac. Qed.

Lemma content_block_ok m p : parser_ok 1 p (parse_anthropic_content_block m p).
Proof.
  unfold parse_anthropic_content_block. parser_tac. eapply parser_open; [eassumption|done|].
  apply json_fields_ok, block_field_ok.
Qed.

#[local] Hint Resolve content_block_ok : json.

Lemma anthropic_element_ok m p : parser_ok 1 p (anthropic_content_element m p).
Proof. unfold anthropic_content_element. parser_tac. Qed.

Lemma parse_anthropic_content_ok m p : parser_ok 1 p (parse_anthropic_content m p).
Proof.
  unfold parse_anthropic_content. apply parser_ws. parser_tac. eapply parser_open; [eassumption|done|].
  apply json_elements_ok, anthropic_element_ok.
Qed.

#[local] Hint Resolve parse_anthropic_content_ok : json.

Lemma parse_anthropic_messages_ok msgs p : parser_ok 1 p (parse_anthropic_messages msgs p).
Proof.
  unfold parse_anthropic_messages. apply parser_ws. parser_tac. eapply parser_open; [eassumption|done|].
  apply (objects_ok anthropic_message_field chat_msg_zero (fun msgs m => msgs ++ [msg_complete m])).
  intros key m q. unfold anthropic_message_field. parser_tac.
Qed.

Lemma system_object_ok out p : parser_ok 1 p (parse_anthropic_system_object out p).
Proof.
  unfold parse_anthropic_system_object. parser_tac. eapply parser_open; [eassumption|done|].
  apply json_fields_ok. intros key b q. unfold system_object_field. parser_tac.
Qed.

#[local] Hint Resolve system_object_ok : json.

Lemma parse_anthropic_system_ok p : parser_ok 1 p (parse_anthropic_system p).
Proof.
  unfold parse_anthropic_system. apply parser_ws. parser_tac. eapply parser_open; [eassumption|done|].
  apply json_elements_ok. intros b q. unfold anthropic_system_element. parser_tac.
Qed.

(** ** Responses *)

Lemma text_field_ok key t p : parser_ok 0 p (text_field key t p).
Proof.
  unfold text_field. parser_tac. all: apply parser_ws; parser_tac.
Qed.

Lemma responses_element_ok b p : parser_ok 1 p (responses_content_element b p).
Proof.
  unfold responses_content_element. parser_tac. eapply parser_open; [eassumption|done|].
  apply parser_opt; [apply json_fields_ok, text_field_ok|]. intros t q. repeat case_match; eauto.
Qed.

Lemma responses_content_ok p : parser_ok 1 p (parse_responses_content_array p).
Proof.
  unfold parse_responses_content_array. apply parser_ws. parser_tac. eapply parser_open; [eassumption|done|].
  apply json_elements_ok, responses_element_ok.
Qed.

#[local] Hint Resolve responses_content_ok : json.

Lemma item_field_ok key i p : parser_ok 0 p (item_field key i p).
Proof.
  unfold item_field. destruct (item_value key p) as [m|] eqn:E; [|parser_tac]. apply parser_any, parser_map.
  unfold item_value in E. repeat case_match; simplify_eq; auto with json.
  all: apply parser_ws; auto with json.
Qed.

Lemma load_discovered_ok t i st p : load_discovered t i st p = JFail \/ exists st', load_discovered t i st p = JOk st' p.
Proof.
  unfold load_discovered. repeat case_match; eauto.
  all: match goal with |- context [parse_tools_value ?l ?b] => pose proof (parse_tools_ok l b) as Hp;
    destruct (parse_tools_value l b) as [[sc os] q| |] end; [right; by eexists|by left|done].
Qed.

Lemma add_item_ok i st p : add_item i st p = JFail \/ exists st', add_item i st p = JOk st' p.
Proof.
  unfold add_item. destruct (_ && _); [by left|]. set (st1 := if _ && _ then _ else _). clearbody st1.
  repeat case_match; eauto. unfold hosted_output_item.
  edestruct load_discovered_ok as [->|[st' ->]]; cbn [jbind]; eauto.
Qed.

Lemma parse_responses_input_ok msgs tools p : parser_ok 1 p (parse_responses_input msgs tools p).
Proof.
  unfold parse_responses_input. apply parser_ws. parser_tac. eapply parser_open; [eassumption|done|].
  apply json_elements_ok. intros st q. unfold input_element. parser_tac.
  eapply parser_open; [eassumption|done|]. apply parser_opt; [apply json_fields_ok, item_field_ok|].
  intros i q'. apply add_item_ok.
Qed.

Lemma reasoning_field_ok key r p : parser_ok 0 p (reasoning_field key r p).
Proof. unfold reasoning_field. parser_tac; apply parser_ws; parser_tac. Qed.

Lemma parse_responses_reasoning_ok r p : parser_ok 1 p (parse_responses_reasoning r p).
Proof.
  unfold parse_responses_reasoning. apply parser_ws. parser_tac. eapply parser_open; [eassumption|done|].
  apply json_fields_ok, reasoning_field_ok.
Qed.

(** ** Stops and prompts *)

Lemma stop_element_ok stops p : parser_ok 1 p (stop_element stops p).
Proof. unfold stop_element. parser_tac. Qed.

Lemma parse_stop_ok out p : parser_ok 1 p (parse_stop out p).
Proof.
  unfold parse_stop. apply parser_ws. parser_tac. eapply parser_open; [eassumption|done|].
  apply json_elements_ok, stop_element_ok.
Qed.

Lemma prompt_loop_ok fuel p : (length p < fuel)%nat -> parser_ok 0 p (prompt_loop fuel p).
Proof.
  revert p. induction fuel as [|fuel IH]; intros p Hl; [lia|]. cbn [prompt_loop].
  destruct (_ || _); [apply behind_refl|]. destruct (at_ch (json_ws p) ",") eqn:E; [|apply behind_ws].
  assert (Hq : behind 1 p (tail (json_ws p))).
  { apply (behind_trans 0 1 _ (json_ws p)); [apply behind_ws|by eapply behind_at]. }
  pose proof (json_skip_value_ok (tail (json_ws p))) as Hv. destruct (json_skip_value _) as [u q| |]; cbn [jbind] in *; try done.
  pose proof (behind_trans _ _ _ _ _ Hq Hv) as Hq2. pose proof (behind_length _ _ _ Hq2).
  apply (parser_weaken (1 + 1 + 0)); [lia|]. eapply parser_from; [exact Hq2|]. apply IH. lia.
Qed.

Lemma parse_prompt_ok p : parser_ok 1 p (parse_prompt p).
Proof.
  unfold parse_prompt. apply parser_ws. parser_tac. eapply parser_open; [eassumption|done|]. set (q := tail (json_ws p)).
  apply (parser_weaken (0 + 1)); [lia|]. apply (parser_from 0 1 _ (json_ws q)); [apply behind_ws|].
  set (r := json_ws q).
  assert (Hfirst : parser_ok 0 r (if peek r =? quote then json_string r
                                  else if (peek r =? 0) || at_ch r "]" then JOk [] r else skip_field [] r)).
  { case_match; [apply parser_any, string_ok|]. case_match; [apply behind_refl|apply parser_any, skip_field_ok]. }
  destruct (if peek r =? quote then _ else _) as [out s| |]; cbn [jbind] in *; try done. cbn in Hfirst.
  pose proof (prompt_loop_ok (S (length s)) s ltac:(lia)) as Hl. destruct (prompt_loop _ _) as [u s'| |]; cbn [jbind] in *; try done.
  destruct (at_ch s' "]") eqn:E; cbn [negb]; [|done]. apply (behind_weaken (0 + (0 + 1))); [lia|].
  eapply behind_trans; [exact Hfirst|]. eapply behind_trans; [exact Hl|by eapply behind_at].
Qed.

(** C36. Every parser that the request handlers call for the value of a field
    ends, whatever the text: with the fuel it is given none of its loops or
    recursive calls is cut short, and an accepted value leaves the cursor inside
    the text, at least one byte on.  These are the parsers of plain values and of
    values that are skipped, the stop list, the thinking, effort and stream
    options, the tools, the messages of the chat, Anthropic and Responses
    protocols with their calls, contents and blocks, the Anthropic system prompt,
    the Responses reasoning and the prompt of a completion. *)
Theorem request_parsers_total p :
  parser_ok 1 p (json_skip_value p) /\ parser_ok 2 p (json_string p) /\ parser_ok 1 p (json_raw_value p) /\
  parser_ok 1 p (of_option (json_number p)) /\ parser_ok 1 p (json_int p) /\ parser_ok 1 p (json_bool p) /\
  parser_ok 1 p (json_content p) /\
  (forall stops, parser_ok 1 p (parse_stop stops p)) /\
  (forall out, parser_ok 1 p (parse_reasoning_effort_value out p)) /\
  (forall st, parser_ok 1 p (parse_thinking_control_value st p)) /\
  (forall st, parser_ok 1 p (parse_output_config_effort st p)) /\
  (forall st, parser_ok 1 p (parse_stream_options st p)) /\
  (forall calls, parser_ok 1 p (parse_tool_calls_value calls p)) /\
  (forall orders, parser_ok 1 p (parse_tools_value orders p)) /\
  (forall msgs, parser_ok 1 p (parse_messages msgs p)) /\
  (forall m, parser_ok 1 p (parse_anthropic_content m p)) /\
  (forall msgs, parser_ok 1 p (parse_anthropic_messages msgs p)) /\
  parser_ok 1 p (parse_anthropic_system p) /\
  parser_ok 1 p (parse_responses_content_array p) /\
  (forall msgs tools, parser_ok 1 p (parse_responses_input msgs tools p)) /\
  (forall r, parser_ok 1 p (parse_responses_reasoning r p)) /\
  parser_ok 1 p (parse_prompt p).
Proof.
  assert (Hnum : parser_ok 1 p (of_option (json_number p))).
  { destruct (json_number p) as [[v q]|] eqn:E; cbn; [|done]. by eapply json_number_behind. }
  split_and!; intros; auto using json_skip_value_ok, json_string_ok, json_raw_value_ok, json_int_ok,
    json_bool_ok, json_content_ok, parse_stop_ok, parse_effort_ok, parse_thinking_ok, parse_output_config_ok,
    parse_stream_options_ok, parse_tool_calls_ok, parse_tools_ok, parse_messages_ok, parse_anthropic_content_ok,
    parse_anthropic_messages_ok, parse_anthropic_system_ok, responses_content_ok, parse_responses_input_ok,
    parse_responses_reasoning_ok, parse_prompt_ok.
Qed.

(** ** Runs *)

(** Tools of a namespace: one line for the prompt, and an order with the name on
    the wire and the parameters in their order. *)
Definition demo_namespace_tools : bytes :=
  dquoted "[{'type':'namespace','name':'mcp__p__','tools':[{'type':'function','name':'search','parameters':{'properties':{'query':{'type':'string'},'limit':1}}},{'type':'other','name':'x'}]}]".

Definition demo_namespace_schema : bytes :=
  dquoted "{'name':'mcp__p__search','description':'','parameters':{'properties':{'query':{'type':'string'},'limit':1}}}".

Definition demo_namespace_order : tool_schema_order :=
  mkToolSchemaOrder (Some (bs "mcp__p__search")) (Some (bs "search")) (Some (bs "mcp__p__")) false [bs "query"; bs "limit"].

Example tools_run :
  parse_tools_value [] demo_namespace_tools = JOk (demo_namespace_schema, [demo_namespace_order]) [] /\
  parse_tools_value [] (dquoted "[{'type':'function','function':{'name':'ls'}}, {'name':'ls','input_schema':{'properties':{'p':0}}}]") =
    JOk (dquoted "{'name':'ls'}" ++ [10] ++ dquoted "{'name':'ls','input_schema':{'properties':{'p':0}}}",
         [mkToolSchemaOrder (Some (bs "ls")) None None false [bs "p"]]) [] /\
  parse_tools_value [] (dquoted "[{'type':'tool_search'}]") =
    JOk (dquoted "{'name':'tool_search','description':'Search available tools.','parameters':{'type':'object','properties':{}}}",
         [mkToolSchemaOrder (Some (bs "tool_search")) None None true []]) [].
Proof. split_and!; vm_compute; reflexivity. Qed.

(** Tools that a search discovered are loaded; reasoning joins the call behind it,
    and an output carries its call's id. *)
Example input_run :
  parse_responses_input [] (Some ([], []))
    (dquoted "[{'type':'reasoning','summary':[{'type':'summary_text','text':'why'}]},{'type':'tool_search_call','call_id':'c1','arguments':{'query':'p'}},{'type':'tool_search_output','call_id':'c1','status':'completed','tools':" ++
     demo_namespace_tools ++ dquoted "},{'role':'user','content':'hi'}]") =
  JOk (mkResponses
    [assistant_msg (Some (bs "why")) [mkToolCall (Some (bs "c1")) (Some (bs "tool_search")) (Some (dquoted "{'query':'p'}"))];
     mkChatMsg (Some (bs "tool")) (Some demo_namespace_tools) None (Some (bs "c1")) [bs "c1"] tool_calls_zero;
     mkChatMsg (Some (bs "user")) (Some (bs "hi")) None None [] tool_calls_zero] []
    (Some (demo_namespace_schema, [demo_namespace_order]))) [].
Proof. vm_compute. reflexivity. Qed.

(** A tool list that is no array, an unknown item and an unfinished one are
    refused. *)
Example input_refused :
  parse_responses_input [] (Some ([], [])) (dquoted "[{'type':'tool_search_output','tools':{'not':'a tool array'}}]") = JFail /\
  parse_responses_input [] None (dquoted "[{'type':'item_of_tomorrow'}]") = JFail /\
  parse_responses_input [] None (dquoted "[{'role':'user','content':'x','status':'in_progress'}]") = JFail.
Proof. split_and!; vm_compute; reflexivity. Qed.

(** The blocks of an Anthropic turn, the content before the role. *)
Example anthropic_run :
  parse_anthropic_messages []
    (dquoted "[{'content':[{'type':'thinking','thinking':'t'},{'type':'text','text':'a'},{'type':'tool_use','id':'u1','name':'ls','input':{'p':1}}],'role':'assistant'},{'role':'user','content':[{'type':'tool_result','tool_use_id':'u1','content':'x</tool_result>'}]}]") =
  JOk [mkChatMsg (Some (bs "assistant")) (Some (bs "a")) (Some (bs "t")) None []
         (mkCalls [mkToolCall (Some (bs "u1")) (Some (bs "ls")) (Some (dquoted "{'p':1}"))] None);
       mkChatMsg (Some (bs "user")) (Some (bs "<tool_result>x&lt;/tool_result></tool_result>")) None (Some (bs "u1")) [bs "u1"]
         tool_calls_zero] [].
Proof. vm_compute. reflexivity. Qed.

(** A text that breaks off is refused, not read behind its end. *)
Example cut_off : parse_messages [] (dquoted "[{'role':'user','content':'x'},") = JFail /\ parse_prompt (dquoted "['a',1") = JFail.
Proof. split; vm_compute; reflexivity. Qed.
