(* ===== verification/DsmlRound.v ===== *)
(** * DsmlRound: tool calls survive the markup

    The parser reads back the calls the renderer wrote: their names and, through
    the JSON argument parser, their arguments. *)

From S2P Require Import Prelude Ctype Json JsonFacts JsonRequest JsonLocal Dsml DsmlFacts.

(** Membership in closed lists. *)
Ltac by_eval := apply (bool_decide_unpack _); vm_compute; exact I.

(** ** One argument *)

(** The literal of a non-string argument: a JSON value without outer white space
    that minifying does not change. *)
Record literal_ok (v : bytes) : Prop := mkLiteralOk {
  lit_no_nul : no_nul v;
  lit_plain : (isspace (peek v) || (peek v =? quote)) = false;
  lit_skip : json_skip_value v = JOk tt [];
  lit_minified : json_minify_raw_value (Some v) = v;
  lit_no_tag : contains (param_end dsml_markup) v = false
}.

(** What an argument must satisfy to survive: no entity in a string (the parser
    would decode it), and a key that does not forge the second attribute. *)
Record arg_ok (a : json_arg) : Prop := mkArgOk {
  arg_unused : ja_used a = false;
  key_no_nul : no_nul (ja_key a);
  key_bytes : bytes_ok (ja_key a);
  key_no_attr : ~ bs "string=" `suffix_of` ja_key a;
  arg_value :
    if ja_is_string a
    then no_nul (ja_value a) /\ bytes_ok (ja_value a) /\ entity_free (ja_value a) = true
    else literal_ok (ja_value a)
}.

Definition type_of (a : json_arg) : bytes := if ja_is_string a then bs "true" else bs "false".

Definition body_of (a : json_arg) : bytes :=
  if ja_is_string a then append_dsml_parameter_text (ja_value a) else append_dsml_json_literal (ja_value a).

(** The member the parser adds for it. *)
Definition add_arg (args : bytes) (a : json_arg) : bytes :=
  tool_call_json_args_add args (ja_key a) (ja_value a) (type_of a).

Definition tag_of (a : json_arg) : bytes :=
  param_start dsml_markup ++ bs " name=" ++ [quote] ++ append_dsml_attr_escaped (ja_key a) ++
  [quote] ++ bs " string=" ++ [quote] ++ type_of a ++ [quote].

Lemma append_dsml_arg_eq a rest :
  append_dsml_arg a ++ rest = tag_of a ++ ch ">" :: body_of a ++ param_end dsml_markup ++ 10 :: rest.
Proof.
  unfold append_dsml_arg, tag_of, body_of, type_of.
  change (bs "<｜DSML｜parameter name=") with (param_start dsml_markup ++ bs " name=").
  change (bs "</｜DSML｜parameter>") with (param_end dsml_markup). change (bs ">") with [ch ">"].
  by rewrite <- !app_assoc.
Qed.

Lemma tag_of_clean a : ch ">" ∉ tag_of a.
Proof.
  unfold tag_of, type_of. rewrite !not_elem_of_app. split_and!; try by_eval; [by apply attr_clean; auto|].
  destruct (ja_is_string a); by_eval.
Qed.

(** A suffix of the escaped text without a semicolon is one of the text. *)
Lemma attr_suffix w s :
  ch ";" ∉ w -> w `suffix_of` flat_map attr_char s -> w `suffix_of` s.
Proof.
  revert s. induction w as [|y w IH] using rev_ind; intros s Hw H; [apply suffix_nil|].
  apply not_elem_of_app in Hw as [Hw Hy].
  destruct (destruct_list_last s) as [->|(c & t & ->)].
  { apply suffix_nil_inv in H. by destruct w. }
  rewrite flat_map_app in H. cbn [flat_map] in H. rewrite app_nil_r in H.
  assert (Hend : (exists pre, attr_char c = pre ++ [ch ";"]) \/ attr_char c = [c]).
  { unfold attr_char. repeat match goal with |- context [if ?b then _ else _] => destruct b end; [left..|by right].
    - by exists (bs "&amp").
    - by exists (bs "&lt").
    - by exists (bs "&gt").
    - by exists (bs "&quot"). }
  destruct Hend as [[pre E]|E]; rewrite E in H.
  - rewrite app_assoc in H. apply suffix_snoc_inv_1 in H as ->. exfalso. apply Hy. left.
  - pose proof (suffix_snoc_inv_1 _ _ _ _ H) as ->. apply suffix_snoc_inv_2 in H.
    apply suffix_snoc. by apply IH.
Qed.

Lemma tag_name a : no_nul (ja_key a) -> dsml_attr (tag_of a ++ [ch ">"]) (bs "name") = Some (ja_key a).
Proof.
  intros Hn. transitivity (Some (dsml_unescape_text (append_dsml_attr_escaped (ja_key a))));
    [|by rewrite attr_unescape]. unfold tag_of.
  eapply dsml_attr_value; [cbn; lia| | |].
  - rewrite <- !app_assoc. reflexivity.
  - reflexivity.
  - by apply attr_clean; auto.
Qed.

Lemma tag_string a :
  no_nul (ja_key a) -> ~ bs "string=" `suffix_of` ja_key a ->
  dsml_attr (tag_of a ++ [ch ">"]) (bs "string") = Some (type_of a).
Proof.
  intros Hn Hs. transitivity (Some (dsml_unescape_text (type_of a)));
    [|unfold type_of; by destruct (ja_is_string a)].
  assert (Hk : ~ bs "string=" `suffix_of` append_dsml_attr_escaped (ja_key a)).
  { unfold append_dsml_attr_escaped. rewrite cstr_no_nul by done. intros H. apply Hs.
    eapply attr_suffix; [|exact H]. by_eval. }
  eapply (dsml_attr_value _ _ (type_of a ++ quote :: [ch ">"]) (type_of a) [ch ">"]); [cbn; lia| |done|].
  - unfold tag_of, strstr. rewrite <- !app_assoc.
    assert (Hq : quote ∉ append_dsml_attr_escaped (ja_key a)) by (apply attr_clean; auto).
    transitivity (find_sub (bs "string=" ++ [quote])
      (append_dsml_attr_escaped (ja_key a) ++ quote :: bs " string=" ++ [quote] ++ type_of a ++ [quote] ++ [ch ">"])).
    + reflexivity.
    + rewrite find_sub_quoted by (done || by_eval). reflexivity.
  - unfold type_of. destruct (ja_is_string a); by_eval.
Qed.

(** The value text ends at its own closing tag. *)
Lemma value_end a rest :
  strstr (body_of a ++ param_end dsml_markup ++ rest) (param_end dsml_markup)
  = Some (param_end dsml_markup ++ rest).
Proof.
  change (param_end dsml_markup) with (ch "<" :: tail (param_end dsml_markup)).
  apply find_sub_first; [by_eval|]. unfold body_of, append_dsml_parameter_text, append_dsml_json_literal.
  change (param_end dsml_markup) with (ch "<" :: tail (param_end dsml_markup)).
  destruct (ja_is_string a); apply protect_clean; (done || by_eval).
Qed.

Lemma body_value a : arg_ok a -> param_value (type_of a) (body_of a) = ja_value a.
Proof.
  intros Ha. pose proof (arg_value _ Ha) as Hv. unfold param_value, type_of, body_of.
  destruct (ja_is_string a).
  - destruct Hv as (Hn & _ & He). by apply parameter_text_unescape.
  - cbn. unfold append_dsml_json_literal. rewrite cstr_no_nul by apply Hv. by apply protect_id, Hv.
Qed.

Lemma parse_param_arg a rest args :
  arg_ok a -> parse_param dsml_markup (append_dsml_arg a ++ rest) args = JOk (add_arg args a) (10 :: rest).
Proof.
  intros Ha. rewrite append_dsml_arg_eq. unfold parse_param. rewrite tag_at_app by apply tag_of_clean.
  rewrite tag_name by apply Ha. rewrite tag_string by apply Ha.
  rewrite bool_decide_eq_false_2 by done. cbn [andb]. rewrite value_end, offset_app, take_app_length.
  change (default (bs "true") (Some (type_of a))) with (type_of a). rewrite body_value by done.
  reflexivity.
Qed.

(** ** One call *)

Definition add_args (args : list json_arg) : bytes := fold_left add_arg args [].

Lemma skip_ws_newline r : skip_ascii_ws (10 :: r) = skip_ascii_ws r.
Proof. reflexivity. Qed.

Lemma skip_ws_tag r : skip_ascii_ws (ch "<" :: r) = ch "<" :: r.
Proof. reflexivity. Qed.

Lemma skip_ws_end r : skip_ascii_ws (invoke_end dsml_markup ++ r) = invoke_end dsml_markup ++ r.
Proof. apply skip_ws_tag. Qed.

Lemma arg_not_end a r : strip_prefix (invoke_end dsml_markup) (append_dsml_arg a ++ r) = None.
Proof. by rewrite append_dsml_arg_eq. Qed.

Lemma arg_start a r :
  skip_ascii_ws (append_dsml_arg a ++ r) = append_dsml_arg a ++ r /\
  starts_with (param_start dsml_markup) (append_dsml_arg a ++ r) = true.
Proof.
  rewrite append_dsml_arg_eq. unfold tag_of. rewrite <- !app_assoc. split; [apply skip_ws_tag|apply starts_with_app].
Qed.

Lemma params_loop_args fuel args r acc :
  Forall arg_ok args -> (length (flat_map append_dsml_arg args ++ invoke_end dsml_markup ++ r) < fuel)%nat ->
  params_loop fuel dsml_markup (flat_map append_dsml_arg args ++ invoke_end dsml_markup ++ r) acc
  = JOk (fold_left add_arg args acc) r.
Proof.
  intros Hargs. revert fuel acc. induction Hargs as [|a args Ha _ IH]; intros [|fuel] acc Hf;
    [cbn in Hf; lia| |cbn in Hf; lia|]; cbn [params_loop flat_map app fold_left].
  - by rewrite skip_ws_end, strip_prefix_app.
  - rewrite <- !app_assoc. destruct (arg_start a (flat_map append_dsml_arg args ++ invoke_end dsml_markup ++ r)) as [-> Hs].
    rewrite arg_not_end, Hs. cbn [negb]. rewrite parse_param_arg by done. cbn [jbind].
    cbn [flat_map] in Hf. rewrite <- app_assoc, length_app in Hf.
    assert (1 < length (append_dsml_arg a))%nat by (unfold append_dsml_arg; rewrite length_app; cbn; lia).
    destruct fuel as [|fuel]; [lia|]. rewrite <- (IH (S fuel)) by lia. cbn [params_loop]. by rewrite skip_ws_newline.
Qed.

(** The arguments the renderer writes: those of the object, or the whole text as
    one argument when it is not one. *)
Definition rendered_args (tc : tool_call) : list json_arg :=
  match json_args_parse (tc_arguments tc) with
  | JOk args _ => args
  | _ => [mkArg (bs "arguments") (cstr (default [] (tc_arguments tc))) true false]
  end.

Record call_ok (tc : tool_call) : Prop := mkCallOk {
  call_name : no_nul (default [] (tc_name tc));
  call_args : Forall arg_ok (rendered_args tc)
}.

(** The call as it is read back. *)
Definition reread (tc : tool_call) : tool_call :=
  mkToolCall None (Some (default [] (tc_name tc))) (Some (bs "{" ++ add_args (rendered_args tc) ++ bs "}")).

Lemma flat_map_unused args :
  Forall (fun a => ja_used a = false) args ->
  flat_map (fun a => if ja_used a then [] else append_dsml_arg a) args = flat_map append_dsml_arg args.
Proof. induction 1 as [|a args Ha _ IH]; cbn [flat_map]; [done|]. by rewrite Ha, IH. Qed.

Lemma append_arguments_eq tc :
  Forall (fun a => ja_used a = false) (rendered_args tc) ->
  match append_dsml_arguments_from_json (tc_arguments tc) None with
  | JOk b _ => b
  | _ => bs "<｜DSML｜parameter name=" ++ [quote] ++ bs "arguments" ++ [quote] ++ bs " string=" ++
         [quote] ++ bs "true" ++ [quote] ++ bs ">" ++
         append_dsml_parameter_text (default [] (tc_arguments tc)) ++ bs "</｜DSML｜parameter>" ++ [10]
  end = flat_map append_dsml_arg (rendered_args tc).
Proof.
  assert (Hc : forall s, append_dsml_parameter_text (cstr s) = append_dsml_parameter_text s)
    by (intros s; unfold append_dsml_parameter_text; by rewrite (cstr_no_nul _ (no_nul_cstr s))).
  unfold rendered_args, append_dsml_arguments_from_json. intros Hu.
  destruct (json_args_parse (tc_arguments tc)); cbn [jbind default append_ordered_args] in *;
    [by apply flat_map_unused| |]; cbn [flat_map]; rewrite app_nil_r;
    unfold append_dsml_arg; cbn [ja_key ja_value ja_is_string]; by rewrite Hc.
Qed.

Definition invoke_tag (tc : tool_call) : bytes :=
  invoke_start dsml_markup ++ bs " name=" ++ [quote] ++
  append_dsml_attr_escaped (default [] (tc_name tc)) ++ [quote].

Lemma append_dsml_invoke_eq tc r :
  Forall (fun a => ja_used a = false) (rendered_args tc) ->
  append_dsml_invoke tc ++ r =
  invoke_tag tc ++ ch ">" :: 10 :: flat_map append_dsml_arg (rendered_args tc) ++
  invoke_end dsml_markup ++ 10 :: r.
Proof.
  intros Hu. unfold append_dsml_invoke, invoke_tag. rewrite append_arguments_eq by done.
  change (bs "<｜DSML｜invoke name=") with (invoke_start dsml_markup ++ bs " name=").
  change (bs "</｜DSML｜invoke>") with (invoke_end dsml_markup). change (bs ">") with [ch ">"].
  by rewrite <- !app_assoc.
Qed.

Lemma call_unused tc : call_ok tc -> Forall (fun a => ja_used a = false) (rendered_args tc).
Proof. intros H. eapply Forall_impl; [|apply (call_args _ H)]. intros a Ha. apply Ha. Qed.

Lemma parse_invoke_call tc r :
  call_ok tc -> parse_invoke dsml_markup (append_dsml_invoke tc ++ r) = JOk (reread tc) (10 :: r).
Proof.
  intros Hc. rewrite append_dsml_invoke_eq by by apply call_unused. unfold parse_invoke.
  assert (Hs : forall x, starts_with (invoke_start dsml_markup) (invoke_tag tc ++ x) = true)
    by (intros x; unfold invoke_tag; rewrite <- !app_assoc; apply starts_with_app).
  rewrite Hs. cbn [negb]. rewrite tag_at_app.
  2: { unfold invoke_tag. rewrite !not_elem_of_app. split_and!; try by_eval. apply attr_clean; auto. }
  assert (Hn : dsml_attr (invoke_tag tc ++ [ch ">"]) (bs "name") = Some (default [] (tc_name tc))).
  { transitivity (Some (dsml_unescape_text (append_dsml_attr_escaped (default [] (tc_name tc)))));
      [|by rewrite attr_unescape by apply Hc]. unfold invoke_tag.
    eapply dsml_attr_value; [cbn; lia|rewrite <- !app_assoc; reflexivity|reflexivity|by apply attr_clean; auto]. }
  rewrite Hn. set (body := flat_map _ _ ++ _).
  assert (Hp : params_loop (S (length (10 :: body))) dsml_markup (10 :: body) []
               = params_loop (S (length (10 :: body))) dsml_markup body [])
    by (cbn [params_loop]; by rewrite skip_ws_newline).
  rewrite Hp. subst body. rewrite params_loop_args by (apply Hc || (cbn; lia)). done.
Qed.

Lemma invoke_not_end tc r : strip_prefix (tool_calls_end dsml_markup) (append_dsml_invoke tc ++ r) = None.
Proof. reflexivity. Qed.

Lemma invoke_no_ws tc r : skip_ascii_ws (append_dsml_invoke tc ++ r) = append_dsml_invoke tc ++ r.
Proof. reflexivity. Qed.

Lemma calls_loop_calls fuel tcs r calls :
  Forall call_ok tcs -> (length (flat_map append_dsml_invoke tcs ++ tool_calls_end dsml_markup ++ r) < fuel)%nat ->
  calls_loop fuel dsml_markup (flat_map append_dsml_invoke tcs ++ tool_calls_end dsml_markup ++ r) calls
  = BlockOk (mkCalls (tcs_v calls ++ map reread tcs) (tcs_raw_dsml calls)) r.
Proof.
  intros Htcs. revert fuel calls. induction Htcs as [|tc tcs Htc _ IH]; intros [|fuel] calls Hf;
    [cbn in Hf; lia| |cbn in Hf; lia|]; cbn [calls_loop flat_map app map].
  - change (skip_ascii_ws (tool_calls_end dsml_markup ++ r)) with (tool_calls_end dsml_markup ++ r).
    rewrite strip_prefix_app, app_nil_r. by destruct calls.
  - rewrite <- !app_assoc, invoke_no_ws, invoke_not_end, parse_invoke_call by done.
    cbn [flat_map] in Hf. rewrite <- app_assoc, length_app in Hf.
    assert (1 < length (append_dsml_invoke tc))%nat by (unfold append_dsml_invoke; rewrite length_app; cbn; lia).
    destruct fuel as [|fuel]; [lia|].
    transitivity (calls_loop (S fuel) dsml_markup
      (flat_map append_dsml_invoke tcs ++ tool_calls_end dsml_markup ++ r) (tool_calls_push calls (reread tc))).
    { cbn [calls_loop]. by rewrite skip_ws_newline. }
    rewrite IH by lia. unfold tool_calls_push. cbn [tcs_v tcs_raw_dsml]. by rewrite <- app_assoc.
Qed.

(** ** The JSON text of the arguments *)

Definition member_value (a : json_arg) : bytes :=
  if ja_is_string a then json_escape (ja_value a) else ja_value a.

Definition member (a : json_arg) : bytes := json_escape (ja_key a) ++ bs ": " ++ member_value a.

Lemma literal_not_nil v : literal_ok v -> v <> [].
Proof. intros [_ _ Hs _ _] ->. by vm_compute in Hs. Qed.

Lemma add_arg_eq acc a :
  arg_ok a -> add_arg acc a = acc ++ (match acc with [] => [] | _ => bs ", " end) ++ member a.
Proof.
  intros Ha. pose proof (arg_value _ Ha) as Hv.
  unfold add_arg, tool_call_json_args_add, member, member_value, type_of. destruct (ja_is_string a); [done|].
  change (is_true_type (bs "false")) with false. cbv iota. rewrite (lit_minified _ Hv).
  pose proof (literal_not_nil _ Hv). by destruct (ja_value a).
Qed.

Lemma member_cons a : exists m, member a = quote :: m.
Proof. unfold member, json_escape. by eexists. Qed.

Lemma add_args_tail args acc :
  Forall arg_ok args -> acc <> [] ->
  fold_left add_arg args acc = acc ++ flat_map (fun a => bs ", " ++ member a) args.
Proof.
  intros Hargs. revert acc. induction Hargs as [|a args Ha _ IH]; intros acc Hn; cbn [fold_left flat_map].
  - by rewrite app_nil_r.
  - rewrite add_arg_eq by done. destruct acc as [|x acc]; [done|]. rewrite IH by done. by rewrite <- !app_assoc.
Qed.

Lemma add_args_eq a args :
  arg_ok a -> Forall arg_ok args ->
  add_args (a :: args) = member a ++ flat_map (fun a => bs ", " ++ member a) args.
Proof.
  intros Ha Hargs. unfold add_args. cbn [fold_left]. rewrite add_arg_eq by done. cbn [app].
  apply add_args_tail; [done|]. destruct (member_cons a) as [m ->]. done.
Qed.

(** What stands behind a member. *)
Definition members_rest (args : list json_arg) : bytes := flat_map (fun a => bs ", " ++ member a) args ++ bs "}".

Lemma members_rest_stop args : exists c r, members_rest args = c :: r /\ is_stop c.
Proof. unfold members_rest, is_stop. destruct args as [|a args]; cbn; eauto 6. Qed.

Lemma members_rest_comma args :
  json_opt_comma (members_rest args)
  = match args with [] => bs "}" | a :: args' => member a ++ members_rest args' end.
Proof.
  destruct args as [|a args]; [done|]. unfold members_rest. cbn [flat_map]. rewrite <- !app_assoc.
  destruct (member_cons a) as [m ->]. reflexivity.
Qed.

Lemma json_ws_plain p : isspace (peek p) = false -> json_ws p = p.
Proof. intros H. destruct p as [|c p]; [done|]. unfold json_ws. cbn in *. by rewrite H. Qed.

(** One member is read back. *)
Lemma json_args_field_member a st c r :
  arg_ok a -> is_stop c -> json_args_field (ja_key a) st (32 :: member_value a ++ c :: r) = JOk (st ++ [a]) (c :: r).
Proof.
  intros Ha Hc. pose proof (arg_value _ Ha) as Hv. pose proof (arg_unused _ Ha) as Hu.
  unfold json_args_field, member_value. change (json_ws (32 :: ?x)) with (json_ws x).
  destruct a as [key v is_str used]. cbn [ja_key ja_value ja_is_string ja_used] in *. subst used.
  destruct is_str.
  - destruct Hv as (Hn & Hb & _). unfold json_escape at 1 2. rewrite <- !app_assoc. cbn [app].
    rewrite (json_ws_plain (quote :: _)) by done. change (peek (quote :: ?x) =? quote) with true. cbv iota.
    change (quote :: flat_map escape_char (cstr v) ++ quote :: c :: r)
      with (([quote] ++ flat_map escape_char (cstr v)) ++ [quote] ++ c :: r).
    rewrite <- app_assoc, (app_assoc _ [quote]), (app_assoc [quote]).
    change ([quote] ++ flat_map escape_char (cstr v) ++ [quote]) with (json_escape v).
    rewrite json_escape_read by done. cbn [jbind]. by rewrite cstr_no_nul.
  - pose proof (lit_plain _ Hv) as Hp. apply orb_false_iff in Hp as [Hsp Hq]. pose proof (literal_not_nil _ Hv) as Hne.
    assert (Hpk : peek (v ++ c :: r) = peek v) by by destruct v.
    assert (Hw : json_ws v = v) by by apply json_ws_plain.
    rewrite json_ws_plain, Hpk, Hq by by rewrite Hpk.
    rewrite (json_raw_value_follow _ _ Hc _ Hw (lit_skip _ Hv)). cbn [jbind]. by rewrite (lit_minified _ Hv).
Qed.

(** One round of the loop over the members. *)
Lemma fields_loop_member fuel a args st :
  arg_ok a ->
  fields_loop (S fuel) json_args_field st (member a ++ members_rest args)
  = fields_loop fuel json_args_field (st ++ [a]) (json_opt_comma (members_rest args)).
Proof.
  intros Ha. destruct (members_rest_stop args) as (c & r & -> & Hc).
  cbn [fields_loop]. unfold member. rewrite <- !app_assoc. unfold at_ch.
  change (peek (json_escape (ja_key a) ++ ?x)) with quote.
  change ((quote =? 0) || (quote =? ch "}")) with false. cbv iota.
  rewrite json_escape_read by apply Ha. cbn [jbind].
  rewrite (json_ws_plain (bs ": " ++ _)) by done.
  change (negb (peek (bs ": " ++ ?x) =? ch ":")) with false. cbv iota.
  change (tail (bs ": " ++ ?x)) with (32 :: x). rewrite (cstr_no_nul _ (key_no_nul _ Ha)).
  by rewrite json_args_field_member.
Qed.

Lemma member_length a : (0 < length (member a))%nat.
Proof. destruct (member_cons a) as [m ->]. cbn. lia. Qed.

Lemma fields_loop_members fuel a args st :
  arg_ok a -> Forall arg_ok args -> (length (member a ++ members_rest args) < fuel)%nat ->
  fields_loop fuel json_args_field st (member a ++ members_rest args) = JOk (st ++ a :: args) (bs "}").
Proof.
  intros Ha Hargs. revert fuel a st Ha. induction Hargs as [|b args Hb Hargs IH]; intros [|fuel] a st Ha Hf; try lia;
    rewrite fields_loop_member, members_rest_comma by done; rewrite length_app in Hf; pose proof (member_length a).
  - destruct fuel; [|done]. unfold members_rest in Hf. cbn in Hf. lia.
  - rewrite IH; [by rewrite <- app_assoc|done|]. unfold members_rest in *. cbn [flat_map] in Hf.
    rewrite <- !app_assoc, !length_app in *. cbn [length] in *. lia.
Qed.

Lemma escape_no_nul s : no_nul s -> no_nul (flat_map escape_char s).
Proof.
  induction 1 as [|c s Hc _ IH]; cbn [flat_map]; [constructor|]. apply no_nul_app. split; [|done].
  unfold escape_char.
  repeat match goal with |- context [if ?b then _ else _] => destruct b end; try (by repeat constructor).
  do 2 (constructor; [done|]). unfold hex4.
  assert (Hd : forall k, nth (Z.to_nat (Z.land (Z.shiftr c k) 15)) (bs "0123456789abcdef") 0 <> 0).
  { intros k E. rewrite nibble in E. pose proof (Z.mod_pos_bound (Z.shiftr c k) 16 ltac:(lia)) as Hm.
    pose proof (json_hex_digit _ Hm) as Hx. rewrite E in Hx. change (json_hex 0) with (-1) in Hx. lia. }
  repeat constructor; apply Hd.
Qed.

Lemma member_no_nul a : arg_ok a -> no_nul (member a).
Proof.
  intros Ha. pose proof (arg_value _ Ha) as Hv. unfold member, member_value, json_escape.
  rewrite !no_nul_app. split; [split_and!; [by repeat constructor| |by repeat constructor]|split; [by repeat constructor|]].
  - rewrite cstr_no_nul by apply Ha. apply escape_no_nul, Ha.
  - destruct (ja_is_string a); [|apply Hv]. rewrite !no_nul_app. split_and!; [by repeat constructor| |by repeat constructor].
    rewrite cstr_no_nul by apply Hv. apply escape_no_nul, Hv.
Qed.

Lemma members_no_nul args : Forall arg_ok args -> no_nul (flat_map (fun a => bs ", " ++ member a) args).
Proof.
  induction 1 as [|a args Ha _ IH]; cbn [flat_map]; [constructor|]. rewrite !no_nul_app.
  split_and!; [by repeat constructor|by apply member_no_nul|done].
Qed.

(** The arguments of a call that was read back are those that were written. *)
Lemma reread_args tc : call_ok tc -> json_args_parse (tc_arguments (reread tc)) = JOk (rendered_args tc) [].
Proof.
  intros [_ Hargs]. cbn [reread tc_arguments]. unfold json_args_parse. cbn [default].
  destruct Hargs as [|a args Ha Hargs]; [reflexivity|]. rewrite add_args_eq by done. rewrite <- app_assoc.
  fold (members_rest args). cbv beta delta [default from_option id].
  rewrite cstr_no_nul.
  2: { unfold members_rest. rewrite !no_nul_app. split_and!; [by repeat constructor|by apply member_no_nul|by apply members_no_nul|by repeat constructor]. }
  rewrite (json_ws_plain (bs "{" ++ _)) by done. change (negb (at_ch (bs "{" ++ ?x) "{")) with false. cbv iota.
  change (tail (bs "{" ++ ?x)) with x. unfold json_fields.
  rewrite json_ws_plain by (destruct (member_cons a) as [m ->]; done).
  rewrite fields_loop_members by (done || lia). reflexivity.
Qed.

(** ** The whole block *)

Definition rendered (tcs : list tool_call) : bytes := append_dsml_tool_calls_text (mkCalls tcs None).

Definition block_body (tcs : list tool_call) : bytes :=
  [10] ++ flat_map append_dsml_invoke tcs ++ tool_calls_end dsml_markup.

Lemma rendered_eq tcs :
  tcs <> [] -> rendered tcs = [10; 10] ++ tool_calls_start dsml_markup ++ block_body tcs.
Proof. intros Hn. unfold rendered, append_dsml_tool_calls_text. by destruct tcs. Qed.

(** The call that is read back renders to the same markup. *)
Lemma reread_rendered tcs : Forall call_ok tcs -> rendered (map reread tcs) = rendered tcs.
Proof.
  intros Htcs. destruct tcs as [|tc tcs]; [done|]. rewrite !rendered_eq by done. unfold block_body.
  do 4 f_equal. induction Htcs as [|t ts Ht _ IH]; cbn [map flat_map]; [done|]. f_equal; [|exact IH].
  assert (Hr : rendered_args (reread t) = rendered_args t)
    by (unfold rendered_args at 1; by rewrite reread_args).
  pose proof (call_unused _ Ht) as Hu.
  rewrite <- (app_nil_r (append_dsml_invoke (reread t))), <- (app_nil_r (append_dsml_invoke t)).
  rewrite !append_dsml_invoke_eq by (rewrite ?Hr; done). by rewrite Hr.
Qed.

Lemma start_tag_cons : tool_calls_start dsml_markup = ch "<" :: tail (tool_calls_start dsml_markup).
Proof. reflexivity. Qed.

(** The block is found where it was written. *)
Lemma find_block_rendered content tcs after :
  tcs <> [] -> contains (tool_calls_start dsml_markup) content = false ->
  find_block (content ++ rendered tcs ++ after) = Some (rendered tcs ++ after, dsml_markup).
Proof.
  intros Hn Hc. unfold find_block. rewrite rendered_eq by done. rewrite <- !app_assoc.
  set (T := tool_calls_start dsml_markup) in *. set (rest := block_body tcs ++ after).
  enough (Hs : strstr (content ++ [10; 10] ++ T ++ rest) ([10; 10] ++ T) = Some ([10; 10] ++ T ++ rest))
    by by rewrite Hs.
  unfold strstr. rewrite find_sub_skip.
  { rewrite (app_assoc [10; 10] T). apply find_sub_here. done. }
  intros x post [pre ->] H.
  assert (Hx : x :: post ++ [10; 10] ++ T ++ rest = (x :: post) ++ [10; 10] ++ T ++ rest) by done.
  rewrite Hx in H. clear Hx. destruct post as [|y post]; cbn [app] in H.
  { do 2 apply prefix_cons_inv_2 in H. unfold T in H. rewrite start_tag_cons in H.
    by apply prefix_cons_inv_1 in H. }
  do 2 apply prefix_cons_inv_2 in H.
  apply (prefix_avoid 10 T post) in H; [|by_eval].
  enough (contains T (pre ++ x :: y :: post) = true) by congruence.
  apply (contains_prefix T (pre ++ [x; y]) post) in H. by rewrite <- app_assoc in H.
Qed.

(** Trailing white space of the text before the block is dropped. *)
Definition rtrim (s : bytes) : bytes := take (trim_tool_separator_ws s 0 (length s)) s.

Lemma trim_app a b n : (n <= length a)%nat -> trim_tool_separator_ws (a ++ b) 0 n = trim_tool_separator_ws a 0 n.
Proof.
  induction n as [|n IH]; intros Hn; cbn [trim_tool_separator_ws]; [done|].
  rewrite app_nth1 by lia. rewrite IH by lia. done.
Qed.

Lemma trim_le s st n : (trim_tool_separator_ws s st n <= n)%nat.
Proof. induction n as [|n IH]; cbn; [lia|]. destruct (_ && _); lia. Qed.

Lemma rtrim_app a b : take (trim_tool_separator_ws (a ++ b) 0 (length a)) (a ++ b) = rtrim a.
Proof. unfold rtrim. rewrite trim_app by lia. by rewrite take_app_le by apply trim_le. Qed.

(** Where the search for the block begins: behind the last closed thinking when
    that is required. *)
Definition search_from (require : bool) (before content block : bytes) : Prop :=
  if require
  then (exists reasoning, before = reasoning ++ THINK_END ++ content) /\ contains THINK_END (content ++ block) = false
  else content = before.

Lemma search_from_start require before content block :
  search_from require before content block ->
  (if require then drop 8 <$> find_last_substr (before ++ block) (bs "</think>") else Some (before ++ block))
  = Some (content ++ block).
Proof.
  unfold search_from. destruct require; [|by intros ->].
  intros [[reasoning ->] Hc]. change (bs "</think>") with THINK_END. rewrite <- !app_assoc.
  by rewrite find_last_think_some.
Qed.

Lemma parse_rendered before content tcs after require calls :
  tcs <> [] -> Forall call_ok tcs -> search_from require before content (rendered tcs ++ after) ->
  contains (tool_calls_start dsml_markup) content = false ->
  parse_generated_message_ex (before ++ rendered tcs ++ after) require calls
  = Some (true, split_message (rtrim before)
                  (mkCalls (tcs_v calls ++ map reread tcs) (Some (rendered tcs)))).
Proof.
  intros Hn Htcs Hs Hc. unfold parse_generated_message_ex. rewrite (search_from_start _ _ _ _ Hs).
  cbn [mbind option_bind]. rewrite find_block_rendered by done. rewrite offset_app, rtrim_app.
  assert (Hst : strstr (rendered tcs ++ after) (tool_calls_start dsml_markup)
                = Some (tool_calls_start dsml_markup ++ block_body tcs ++ after)).
  { rewrite rendered_eq by done. rewrite <- !app_assoc, start_tag_cons. apply find_sub_first; [by_eval|done]. }
  rewrite Hst, drop_app_length. unfold block_body. rewrite <- !app_assoc.
  set (body := flat_map _ _ ++ _).
  assert (Hl : calls_loop (S (length ([10] ++ body))) dsml_markup ([10] ++ body) calls
               = calls_loop (S (length ([10] ++ body))) dsml_markup body calls)
    by (cbn [calls_loop]; cbn [app]; by rewrite skip_ws_newline).
  rewrite Hl. subst body. rewrite calls_loop_calls by (done || (cbn; lia)). cbn [tcs_v].
  by rewrite offset_app, take_app_length.
Qed.

(** ** The claims *)

(** What is kept of a call: its name and its arguments. *)
Definition same_call (tc tc' : tool_call) : Prop :=
  tc_name tc' = Some (default [] (tc_name tc)) /\
  json_args_parse (tc_arguments tc') = JOk (rendered_args tc) [].

(** C11. Tool calls that meet [call_ok] survive the markup.  Rendered into the
    prompt behind a text without an opening tag of its own and parsed again, such
    calls come back with their names and arguments in order, the text before the
    block is what remains of the message, and the calls read back render to the
    same bytes, so the prompt prefix stays valid.  [call_ok] asks for names
    without a NUL; for arguments whose keys do not spell the attribute that tells
    text from JSON, whose text values hold neither a NUL nor an entity the parser
    would decode, and whose other values are read back as JSON; [search_from], when
    the parser first looks for the end of the thinking, that no later closing tag
    hides the calls.  These are needed: [entity_decoded], [key_forges_type] and
    [think_tag_hides_call] are calls that do not come back. *)
Theorem tool_calls_roundtrip before content tcs after require :
  tcs <> [] -> Forall call_ok tcs -> search_from require before content (rendered tcs ++ after) ->
  contains (tool_calls_start dsml_markup) content = false ->
  exists tcs',
    parse_generated_message_ex (before ++ rendered tcs ++ after) require tool_calls_zero
    = Some (true, split_message (rtrim before) (mkCalls tcs' (Some (rendered tcs)))) /\
    Forall2 same_call tcs tcs' /\ rendered tcs' = rendered tcs.
Proof.
  intros Hn Htcs Hs Hc. exists (map reread tcs). split_and!.
  - by rewrite (parse_rendered _ content).
  - clear -Htcs. induction Htcs as [|tc tcs Htc _ IH]; cbn [map]; constructor; [|done].
    split; [done|by apply reread_args].
  - by apply reread_rendered.
Qed.

(** A text value around a closing tag and a number: [{"cmd": "ls </...> & x", "n": 7}]. *)
Definition demo_arguments : bytes :=
  bs "{" ++ json_escape (bs "cmd") ++ bs ": " ++ json_escape (bs "ls </｜DSML｜parameter> & x") ++
  bs ", " ++ json_escape (bs "n") ++ bs ": 7}".

Definition demo_call : tool_call := mkToolCall None (Some (bs "ba<sh")) (Some demo_arguments).

Definition demo_args : list json_arg :=
  [mkArg (bs "cmd") (bs "ls </｜DSML｜parameter> & x") true false; mkArg (bs "n") (bs "7") false false].

Lemma demo_call_ok : call_ok demo_call.
Proof.
  assert (E : rendered_args demo_call = demo_args) by (vm_compute; reflexivity).
  constructor; [by_eval|]. rewrite E. constructor; [|constructor; [|constructor]].
  - constructor; [reflexivity|by_eval..|]. split; [by_eval|]. split; [by_eval|vm_compute; reflexivity].
  - constructor; [reflexivity|by_eval..|]. constructor; [by_eval|vm_compute; reflexivity..].
Qed.

Definition demo_before : bytes := bs "<think>the </｜DSML｜tool_calls> tag</think>Looking: ".

Lemma tool_calls_roundtrip_witness :
  exists tcs',
    parse_generated_message_ex (demo_before ++ rendered [demo_call; demo_call] ++ []) true tool_calls_zero
    = Some (true, split_message (rtrim demo_before) (mkCalls tcs' (Some (rendered [demo_call; demo_call])))) /\
    Forall2 same_call [demo_call; demo_call] tcs' /\ rendered tcs' = rendered [demo_call; demo_call].
Proof.
  apply (tool_calls_roundtrip demo_before (bs "Looking: ") [demo_call; demo_call] [] true).
  - discriminate.
  - constructor; [exact demo_call_ok|constructor; [exact demo_call_ok|constructor]].
  - split; [exists (bs "<think>the </｜DSML｜tool_calls> tag"); vm_compute; reflexivity|vm_compute; reflexivity].
  - vm_compute. reflexivity.
Defined.

(** The calls a text yields, as names and argument texts. *)
Definition parsed_calls (text : bytes) (require : bool) : option (list (option bytes * option bytes)) :=
  '(_, msg) ← parse_generated_message_ex text require tool_calls_zero;
  Some (map (fun tc => (tc_name tc, tc_arguments tc)) (tcs_v (msg_calls msg))).

Definition one_arg_call (key value : bytes) : tool_call :=
  mkToolCall None (Some (bs "w")) (Some (bs "{" ++ json_escape key ++ bs ":" ++ json_escape value ++ bs "}")).

(** The renderer does not escape an ampersand in a text value, the parser decodes
    the entity all the same: the argument [a&lt;b] comes back as [a<b]. *)
Example entity_decoded :
  parsed_calls (rendered [one_arg_call (bs "text") (bs "a&lt;b")]) false
  = Some [(Some (bs "w"), Some (bs "{" ++ json_escape (bs "text") ++ bs ": " ++ json_escape (bs "a<b") ++ bs "}"))].
Proof. vm_compute. reflexivity. Qed.

(** A key that ends in [string=] is taken for the type attribute: the text value
    comes back as a bare literal and the arguments are no JSON any more. *)
Example key_forges_type :
  parsed_calls (rendered [one_arg_call (bs "string=") (bs "x")]) false
  = Some [(Some (bs "w"), Some (bs "{" ++ json_escape (bs "string=") ++ bs ": x}"))].
Proof. vm_compute. reflexivity. Qed.

(** A closing thinking tag inside an argument hides the call: with thinking on, the
    search begins behind it, and the turn parses without any call. *)
Example think_tag_hides_call :
  parsed_calls (bs "<think>t</think>" ++ rendered [one_arg_call (bs "text") (bs "</think>")]) true = Some [] /\
  parsed_calls (bs "<think>t</think>" ++ rendered [one_arg_call (bs "text") (bs "</think>")]) false <> Some [].
Proof. vm_compute. split; [reflexivity|discriminate]. Qed.
