(* ===== verification/DsmlSafe.v ===== *)
(** * DsmlSafe: reasoning is not executed, replay is exact, repair balances

    What the server may rely on for text a model sampled, whatever it is. *)

From S2P Require Import Prelude Ctype Json JsonFacts JsonRequest Dsml DsmlFacts DsmlRound.

(** ** Reasoning *)

(** The block and the calls only depend on the text searched. *)
Definition parse_from (search : bytes) (calls : tool_calls) : option (bool * tool_calls) :=
  match find_block search with
  | None => Some (true, calls)
  | Some (start, m) =>
      match strstr start (tool_calls_start m) with
      | None => Some (false, calls)
      | Some p =>
          let p := drop (length (tool_calls_start m)) p in
          match calls_loop (S (length p)) m p calls with
          | BlockOk calls p => Some (true, mkCalls (tcs_v calls) (Some (take (offset start p) start)))
          | BlockBad calls => Some (false, calls)
          | BlockNoFuel => None
          end
      end
  end.

Definition outcome_of (r : option (bool * message)) : option (bool * tool_calls) :=
  (fun '(ok, msg) => (ok, msg_calls msg)) <$> r.

Lemma split_message_calls text calls : msg_calls (split_message text calls) = calls.
Proof. unfold split_message. by destruct (split_reasoning_content text). Qed.

Lemma parse_generated_calls text (require : bool) calls search :
  (if require then drop 8 <$> find_last_substr text (bs "</think>") else Some text) = Some search ->
  outcome_of (parse_generated_message_ex text require calls) = parse_from search calls.
Proof.
  intros Hs. unfold parse_generated_message_ex, parse_from. rewrite Hs. cbn [mbind option_bind].
  destruct (find_block search) as [[start m]|]; [|cbn; by rewrite split_message_calls].
  destruct (strstr start _) as [p|]; [|done]. destruct (calls_loop _ _ _ _); [|done..].
  unfold outcome_of. cbn [fmap option_fmap option_map]. by rewrite split_message_calls.
Qed.

(** C19. Markup in the reasoning is never executed.  When thinking must be closed,
    a text without a closing tag yields no call, and otherwise the calls are those
    of the text behind the last closing tag alone, whatever the reasoning says. *)
Theorem reasoning_not_executed text reasoning answer calls :
  (contains THINK_END text = false ->
   outcome_of (parse_generated_message_ex text true calls) = Some (true, calls)) /\
  (contains THINK_END answer = false ->
   outcome_of (parse_generated_message_ex (reasoning ++ THINK_END ++ answer) true calls)
   = outcome_of (parse_generated_message_ex answer false calls)).
Proof.
  split; intros H.
  - unfold parse_generated_message_ex. change (bs "</think>") with THINK_END.
    rewrite find_last_think_none by done. cbn. by rewrite split_message_calls.
  - rewrite (parse_generated_calls _ _ _ answer).
    + by rewrite (parse_generated_calls _ _ _ answer).
    + change (bs "</think>") with THINK_END. by rewrite find_last_think_some.
Qed.

(** ** Replay *)

Lemma calls_loop_end fuel m p calls calls' q :
  calls_loop fuel m p calls = BlockOk calls' q -> exists pre, p = pre ++ tool_calls_end m ++ q.
Proof.
  revert p calls. induction fuel as [|fuel IH]; intros p calls; cbn [calls_loop]; [done|].
  destruct (behind_skip_ws p) as (k & _ & Hk & _).
  assert (Hp : exists w, p = w ++ skip_ascii_ws p) by (exists (take k p); by rewrite Hk, take_drop).
  destruct Hp as [w Hw]. destruct (strip_prefix _ _) as [p'|] eqn:E.
  { intros [= _ <-]. apply strip_prefix_sound in E. exists w. by rewrite Hw, E. }
  pose proof (parse_invoke_ok m (skip_ascii_ws p)) as Hi.
  destruct (parse_invoke _ _) as [tc p'| |]; try done. intros [pre ->]%IH.
  destruct Hi as (j & _ & Hj & _). exists (w ++ take j (skip_ascii_ws p) ++ pre).
  rewrite Hw at 1. by rewrite <- (take_drop j (skip_ascii_ws p)) at 1; rewrite <- Hj, <- !app_assoc.
Qed.

Lemma find_block_suffix s start m :
  find_block s = Some (start, m) ->
  (exists pre, s = pre ++ start) /\ In m [dsml_markup; short_markup; xml_markup].
Proof.
  unfold find_block, strstr. intros H.
  repeat match goal with
  | H : context [find_sub ?n s] |- _ =>
      let E := fresh in destruct (find_sub n s) eqn:E; cbn [fmap option_fmap option_map] in H;
      [injection H as <- <-; apply find_sub_sound in E as [_ E]; split; [exact E|cbn; tauto]|clear E]
  end. done.
Qed.

Lemma search_suffix text (require : bool) search :
  (if require then drop 8 <$> find_last_substr text (bs "</think>") else Some text) = Some search ->
  exists pre, text = pre ++ search.
Proof.
  destruct require; [|by intros [= ->]; exists []]. change (bs "</think>") with THINK_END.
  destruct (contains THINK_END text) eqn:Hc; [|by rewrite find_last_think_none].
  apply last_occurrence in Hc as (r & after & -> & Ha); [|done]. rewrite find_last_think_some by done.
  intros [= <-]. exists (r ++ THINK_END). by rewrite <- app_assoc.
Qed.

Lemma block_not_nil w m body : In m [dsml_markup; short_markup; xml_markup] -> w ++ tool_calls_start m ++ body ++ tool_calls_end m <> [].
Proof. intros [<-|[<-|[<-|[]]]] H; apply app_eq_nil in H as [_ H]; done. Qed.

(** C32. Replay is exact.  When a parse yields calls, the text splits into what
    precedes the block, the block and the rest; the message is split from the
    first part, and rendering the calls again gives the sampled bytes of the block
    unchanged. *)
Theorem tool_replay_exact text require msg :
  no_nul text -> parse_generated_message_ex text require tool_calls_zero = Some (true, msg) ->
  tcs_v (msg_calls msg) <> [] ->
  exists before block after m,
    text = before ++ block ++ after /\ In m [dsml_markup; short_markup; xml_markup] /\
    tool_calls_end m `suffix_of` block /\
    append_dsml_tool_calls_text (msg_calls msg) = block /\
    msg = split_message (rtrim before) (msg_calls msg).
Proof.
  intros Hn H Hcalls. unfold parse_generated_message_ex in H.
  destruct (_ ≫= find_block) as [[start m]|] eqn:Eb;
    [|injection H as <-; by rewrite split_message_calls in Hcalls].
  apply bind_Some in Eb as (search & Es & Eb). apply search_suffix in Es as [pre0 ->].
  apply find_block_suffix in Eb as [[pre1 ->] Hm].
  destruct (strstr start _) as [p|] eqn:Ep; [|done]. apply find_sub_sound in Ep as [[p' ->] [w ->]].
  rewrite drop_app_length in H. destruct (calls_loop _ _ _ _) as [calls q| |] eqn:Ec; [|done..].
  injection H as <-. rewrite split_message_calls in Hcalls |- *. cbn [tcs_v] in Hcalls.
  apply calls_loop_end in Ec as [body ->].
  set (block := w ++ tool_calls_start m ++ body ++ tool_calls_end m).
  assert (E : pre0 ++ pre1 ++ w ++ tool_calls_start m ++ body ++ tool_calls_end m ++ q = (pre0 ++ pre1) ++ block ++ q)
    by (subst block; by rewrite <- !app_assoc).
  assert (Es : w ++ tool_calls_start m ++ body ++ tool_calls_end m ++ q = block ++ q)
    by (subst block; by rewrite <- !app_assoc).
  rewrite E in Hn |- *. rewrite Es, offset_app, take_app_length.
  exists (pre0 ++ pre1), block, q, m. split_and!; [done..| | |].
  - exists (w ++ tool_calls_start m ++ body). subst block. by rewrite <- !app_assoc.
  - unfold append_dsml_tool_calls_text. cbn [tcs_v tcs_raw_dsml]. destruct (tcs_v calls); [done|].
    cbv beta delta [default from_option id]. rewrite cstr_no_nul by (by apply no_nul_app in Hn as [_ [Hn _]%no_nul_app]).
    destruct block eqn:Eblock; [|done]. exfalso. by apply (block_not_nil w m body).
  - f_equal. by rewrite offset_app, rtrim_app.
Qed.

Definition replay_text : bytes := bs "ok " ++ rendered [demo_call] ++ bs " tail".

Definition replay_msg : message :=
  match parse_generated_message_ex replay_text false tool_calls_zero with
  | Some (_, msg) => msg
  | None => mkMessage None None tool_calls_zero
  end.

Lemma tool_replay_exact_witness :
  exists before block after m,
    replay_text = before ++ block ++ after /\ In m [dsml_markup; short_markup; xml_markup] /\
    tool_calls_end m `suffix_of` block /\
    append_dsml_tool_calls_text (msg_calls replay_msg) = block /\
    replay_msg = split_message (rtrim before) (msg_calls replay_msg).
Proof.
  apply (tool_replay_exact replay_text false replay_msg); [by_eval|vm_compute; reflexivity|].
  vm_compute. discriminate.
Defined.

Lemma reasoning_not_executed_witness :
  (contains THINK_END (rendered [demo_call]) = false /\
   outcome_of (parse_generated_message_ex (rendered [demo_call]) true tool_calls_zero) = Some (true, tool_calls_zero)) /\
  outcome_of (parse_generated_message_ex (rendered [demo_call] ++ THINK_END ++ bs "no") true tool_calls_zero)
  = outcome_of (parse_generated_message_ex (bs "no") false tool_calls_zero).
Proof.
  assert (H : contains THINK_END (rendered [demo_call]) = false) by (vm_compute; reflexivity).
  split; [split; [exact H|]|].
  - apply (reasoning_not_executed (rendered [demo_call]) [] [] tool_calls_zero). exact H.
  - apply (reasoning_not_executed [] (rendered [demo_call]) (bs "no") tool_calls_zero). vm_compute. reflexivity.
Defined.

(** * A truncated block is closed, a malformed one is handed back *)

(** ** Counting over a concatenation *)

Lemma tag_text_cons m k : In m [dsml_markup; short_markup; xml_markup] ->
  tag_text m k = ch "<" :: tail (tag_text m k) /\ ch "<" ∉ tail (tag_text m k).
Proof. intros [<-|[<-|[<-|[]]]]; destruct k; (split; [done|by_eval]). Qed.

Lemma starts_with_tagged m k x p b :
  In m [dsml_markup; short_markup; xml_markup] ->
  starts_with (tag_text m k) (x :: p ++ ch "<" :: b) = starts_with (tag_text m k) (x :: p).
Proof.
  intros Hm. destruct (tag_text_cons m k Hm) as [-> Ht]. apply Bool.eq_iff_eq_true.
  rewrite !starts_with_prefix. split; intros H; pose proof (prefix_cons_inv_1 _ _ _ _ H) as <-;
    apply prefix_cons_inv_2 in H; apply prefix_cons.
  - by eapply prefix_avoid.
  - destruct H as [q ->]. exists (q ++ ch "<" :: b). by rewrite <- app_assoc.
Qed.

Lemma tag_here_app m x p b :
  In m [dsml_markup; short_markup; xml_markup] -> tag_here m (x :: p ++ ch "<" :: b) = tag_here m (x :: p).
Proof.
  intros Hm. unfold tag_here, tag_kinds. cbn [list_find].
  by rewrite !(starts_with_tagged m) by done.
Qed.

Lemma tag_here_length m p k : tag_here m p = Some k -> (length (tag_text m k) <= length p)%nat.
Proof.
  unfold tag_here. intros H. apply fmap_Some in H as ([i k'] & H & ->).
  apply list_find_Some in H as (_ & H & _). apply Is_true_true, starts_with_prefix in H.
  by apply prefix_length in H.
Qed.

Lemma count_tags_app m skip p b c :
  In m [dsml_markup; short_markup; xml_markup] -> (skip <= length p)%nat ->
  count_tags m skip (p ++ ch "<" :: b) c = count_tags m 0 (ch "<" :: b) (count_tags m skip p c).
Proof.
  intros Hm. revert skip c. induction p as [|x p IH]; intros skip c Hs; cbn [app].
  - cbn in Hs. by replace skip with O by lia.
  - cbn [count_tags]. cbn [length] in Hs. destruct skip as [|skip]; [|apply IH; lia].
    rewrite tag_here_app by done. destruct (tag_here m (x :: p)) as [k|] eqn:E; [|apply IH; lia].
    apply tag_here_length in E. cbn [length] in E. apply IH. lia.
Qed.

(** A closing tag is counted as one. *)
Inductive closing : tag_kind -> Prop :=
| CloseParam : closing TParamEnd
| CloseInvoke : closing TInvokeEnd
| CloseCalls : closing TCallsEnd.

Lemma count_closing m k r c :
  In m [dsml_markup; short_markup; xml_markup] -> closing k ->
  count_tags m 0 (tag_text m k ++ r) c = count_tags m 0 r (count_tag c k).
Proof. by intros [<-|[<-|[<-|[]]]] []. Qed.

Lemma repeat_tag_S n tag : repeat_tag (S n) tag = tag ++ repeat_tag n tag.
Proof. reflexivity. Qed.

Lemma count_repeat m k n r c :
  In m [dsml_markup; short_markup; xml_markup] -> closing k ->
  count_tags m 0 (repeat_tag n (tag_text m k) ++ r) c
  = count_tags m 0 r (Nat.iter n (fun c => count_tag c k) c).
Proof.
  intros Hm Hk. revert c. induction n as [|n IH]; intros c; [done|].
  rewrite repeat_tag_S, <- app_assoc, count_closing, IH by done. by rewrite Nat.iter_succ_r.
Qed.

Lemma iter_count n c k :
  closing k ->
  Nat.iter n (fun c => count_tag c k) c =
  match k with
  | TParamEnd => mkCounts (tos c) (toe c) (ios c) (ioe c) (pos c) (poe c + n)
  | TInvokeEnd => mkCounts (tos c) (toe c) (ios c) (ioe c + n) (pos c) (poe c)
  | _ => mkCounts (tos c) (toe c + n) (ios c) (ioe c) (pos c) (poe c)
  end.
Proof.
  intros Hk. induction n as [|n IH].
  - destruct Hk, c; cbn; by rewrite Nat.add_0_r.
  - rewrite Nat.iter_succ, IH. by destruct Hk, c; cbn; rewrite Nat.add_succ_r.
Qed.

(** ** What is appended *)

(** The missing closing tags, innermost first. *)
Definition closers (m : markup) (c : tag_counts) : bytes :=
  repeat_tag (pos c - poe c) (param_end m) ++ repeat_tag (ios c - ioe c) (invoke_end m) ++
  repeat_tag (tos c - toe c) (tool_calls_end m).

Lemma tagged_app (a b : bytes) :
  (a = [] \/ exists a', a = ch "<" :: a') -> (b = [] \/ exists b', b = ch "<" :: b') ->
  a ++ b = [] \/ exists r, a ++ b = ch "<" :: r.
Proof. intros [->|[a' ->]] Hb; [done|]. right. by eexists. Qed.

Lemma repeat_tagged m k n : In m [dsml_markup; short_markup; xml_markup] ->
  repeat_tag n (tag_text m k) = [] \/ exists r, repeat_tag n (tag_text m k) = ch "<" :: r.
Proof.
  intros Hm. destruct n as [|n]; [by left|]. right. rewrite repeat_tag_S.
  destruct (tag_text_cons m k Hm) as [-> _]. by eexists.
Qed.

Lemma closers_tagged m c : In m [dsml_markup; short_markup; xml_markup] ->
  closers m c = [] \/ exists r, closers m c = ch "<" :: r.
Proof.
  intros Hm. repeat apply tagged_app.
  - by apply (repeat_tagged m TParamEnd).
  - by apply (repeat_tagged m TInvokeEnd).
  - by apply (repeat_tagged m TCallsEnd).
Qed.

(** A tag that occurs in no closing tag does not occur in the closers. *)
Lemma closers_avoid (t : bytes) m c :
  In m [dsml_markup; short_markup; xml_markup] -> ch "<" ∉ t ->
  forallb (fun k => negb (contains (ch "<" :: t) (tag_text m k))) [TParamEnd; TInvokeEnd; TCallsEnd] = true ->
  contains (ch "<" :: t) (closers m c) = false.
Proof.
  intros Hm Ht Hk. cbn [forallb] in Hk. rewrite !andb_true_iff, !negb_true_iff in Hk.
  destruct Hk as (H1 & H2 & H3 & _).
  assert (Hrep : forall n k, contains (ch "<" :: t) (tag_text m k) = false ->
                   contains (ch "<" :: t) (repeat_tag n (tag_text m k)) = false).
  { intros n k H. induction n as [|n IH]; [done|]. rewrite repeat_tag_S.
    apply contains_tagged; [done|by apply repeat_tagged|done..]. }
  apply contains_tagged; [done| |by apply (Hrep _ TParamEnd)|].
  - apply tagged_app; [by apply (repeat_tagged m TInvokeEnd)|by apply (repeat_tagged m TCallsEnd)].
  - apply contains_tagged; [done|by apply (repeat_tagged m TCallsEnd)|by apply (Hrep _ TInvokeEnd)|by apply (Hrep _ TCallsEnd)].
Qed.

Lemma contains_closers (t : bytes) m c s :
  In m [dsml_markup; short_markup; xml_markup] -> ch "<" ∉ t ->
  forallb (fun k => negb (contains (ch "<" :: t) (tag_text m k))) [TParamEnd; TInvokeEnd; TCallsEnd] = true ->
  contains (ch "<" :: t) (s ++ closers m c) = contains (ch "<" :: t) s.
Proof.
  intros Hm Ht Hk. destruct (contains (ch "<" :: t) s) eqn:E.
  - apply contains_infix in E as (a & b & ->). rewrite <- !app_assoc. apply contains_prefix.
    by exists (b ++ closers m c).
  - apply contains_tagged; [done|by apply closers_tagged|done|by apply closers_avoid].
Qed.

Lemma repair_markup_in s m : repair_markup s = Some m -> In m [dsml_markup; short_markup; xml_markup].
Proof. unfold repair_markup. repeat case_match_goal; intros [= <-]; cbn; tauto. Qed.

Lemma repair_markup_closers s m c :
  In m [dsml_markup; short_markup; xml_markup] -> repair_markup (s ++ closers m c) = repair_markup s.
Proof.
  intros Hm. unfold repair_markup.
  change (tool_calls_start dsml_markup) with (ch "<" :: tail (tool_calls_start dsml_markup)).
  change (tool_calls_start short_markup) with (ch "<" :: tail (tool_calls_start short_markup)).
  change (bs "<tool_calls>") with (ch "<" :: bs "tool_calls>").
  rewrite !contains_closers; [done|done|by_eval|..];
    try by_eval; try done; by destruct Hm as [<-|[<-|[<-|[]]]].
Qed.

Lemma repair_scan_closers s m c :
  In m [dsml_markup; short_markup; xml_markup] -> repair_scan (s ++ closers m c) = repair_scan s ++ closers m c.
Proof.
  intros Hm. unfold repair_scan. change (bs "</think>") with THINK_END.
  assert (Hc : forall s, contains THINK_END (s ++ closers m c) = contains THINK_END s).
  { intros s0. change THINK_END with (ch "<" :: tail THINK_END).
    apply contains_closers; [done|by_eval|]. by destruct Hm as [<-|[<-|[<-|[]]]]. }
  destruct (contains THINK_END s) eqn:E.
  - apply last_occurrence in E as (r & after & -> & Ha); [|done].
    rewrite <- !app_assoc. rewrite !find_last_think_some by (rewrite ?Hc; done). done.
  - by rewrite !find_last_think_none by (rewrite ?Hc; done).
Qed.

Definition zero_counts : tag_counts := mkCounts 0 0 0 0 0 0.

Lemma count_closers s m :
  In m [dsml_markup; short_markup; xml_markup] ->
  let c := count_tags m 0 s zero_counts in
  (toe c <= tos c)%nat -> (ioe c <= ios c)%nat -> (poe c <= pos c)%nat ->
  count_tags m 0 (s ++ closers m c) zero_counts = mkCounts (tos c) (tos c) (ios c) (ios c) (pos c) (pos c).
Proof.
  intros Hm c H1 H2 H3.
  assert (E : count_tags m 0 (s ++ closers m c) zero_counts = count_tags m 0 (closers m c) c).
  { destruct (closers_tagged m c Hm) as [->|[r ->]]; [by rewrite app_nil_r|]. apply count_tags_app; [done|lia]. }
  rewrite E. unfold closers. clearbody c.
  rewrite (count_repeat m TParamEnd), (iter_count _ _ TParamEnd) by (done || constructor).
  rewrite (count_repeat m TInvokeEnd), (iter_count _ _ TInvokeEnd) by (done || constructor).
  rewrite <- (app_nil_r (repeat_tag _ (tool_calls_end m))).
  rewrite (count_repeat m TCallsEnd), (iter_count _ _ TCallsEnd) by (done || constructor).
  cbn [count_tags tos toe ios ioe pos poe]. f_equal; lia.
Qed.

(** ** The claims *)

Definition balanced (c : tag_counts) : Prop := tos c = toe c /\ ios c = ioe c /\ pos c = poe c.

(** A repair closes what is open and nothing else: the text is only extended,
    by closing tags in the order parameter, invocation, block; afterwards every
    kind of tag is balanced in the part that is searched for calls, so a second
    repair declines.  Without a repair the text was balanced already, had no block,
    or had a closing tag too many. *)
Lemma repair_balances s :
  match try_repair_dsml s with
  | Some out =>
      exists m c,
        repair_markup (repair_scan s) = Some m /\ out = s ++ closers m c /\ closers m c <> [] /\
        repair_markup (repair_scan out) = Some m /\
        balanced (count_tags m 0 (repair_scan out) zero_counts) /\ try_repair_dsml out = None
  | None =>
      match repair_markup (repair_scan s) with
      | None => True
      | Some m =>
          let c := count_tags m 0 (repair_scan s) zero_counts in
          s = [] \/ balanced c \/ (tos c < toe c)%nat \/ (ios c < ioe c)%nat \/ (pos c < poe c)%nat
      end
  end.
Proof.
  unfold try_repair_dsml. destruct s as [|x s]; [vm_compute; done|]. set (t := x :: s).
  destruct (repair_markup (repair_scan t)) as [m|] eqn:Em; cbn [mbind option_bind]; [|done].
  pose proof (repair_markup_in _ _ Em) as Hm.
  change (mkCounts 0 0 0 0 0 0) with zero_counts. set (c := count_tags m 0 (repair_scan t) zero_counts).
  destruct ((tos c =? toe c) && (ios c =? ioe c) && (pos c =? poe c))%nat eqn:Eb.
  { rewrite !andb_true_iff, !Nat.eqb_eq in Eb. cbv zeta. right. left. unfold balanced. tauto. }
  destruct ((tos c <? toe c) || (ios c <? ioe c) || (pos c <? poe c))%nat eqn:El.
  { rewrite !orb_true_iff, !Nat.ltb_lt in El. cbv zeta. tauto. }
  rewrite !orb_false_iff, !Nat.ltb_ge in El. destruct El as [[H1 H2] H3].
  exists m, c. change (repeat_tag (pos c - poe c) (param_end m) ++ _) with (closers m c).
  assert (Hcount := count_closers (repair_scan t) m Hm H1 H2 H3). fold c in Hcount.
  assert (Hmark : repair_markup (repair_scan (t ++ closers m c)) = Some m)
    by (by rewrite repair_scan_closers, repair_markup_closers).
  rewrite <- (repair_scan_closers t) in Hcount by done. split_and!; [done|done| |done| |].
  - intros E. rewrite E, app_nil_r in Hcount. fold c in Hcount.
    rewrite Hcount in Eb. cbn [tos toe ios ioe pos poe] in Eb. by rewrite !Nat.eqb_refl in Eb.
  - rewrite Hcount. done.
  - destruct (t ++ closers m c) as [|y u] eqn:Eu; [done|]. rewrite Hmark. cbn [mbind option_bind].
    change (mkCounts 0 0 0 0 0 0) with zero_counts. rewrite Hcount. cbn [tos toe ios ioe pos poe].
    by rewrite !Nat.eqb_refl.
Qed.

(** C37. The outcome of a turn that cannot be parsed.  The parser returns on every
    text.  When it fails, the client gets the whole text as content and no call;
    with tools on and a block begun the finish reason is a plain stop, or the
    length stop the generation ended with, and the turn may be retried, but an
    error stays an error. *)
Theorem malformed_calls_recovered text has_tools saw_tool_start require finish calls :
  exists r, parse_generated_message_for_response text has_tools saw_tool_start require finish calls = Some r /\
    (if rs_ok r then
       parse_generated_message_ex text require calls = Some (true, rs_message r) /\
       rs_finish r = finish /\ rs_err r = None /\ rs_recovered r = false
     else
       rs_message r = mkMessage (Some text) None tool_calls_zero /\
       (if rs_recovered r then
          has_tools = true /\ saw_tool_start = true /\ finish <> Some (bs "error") /\
          rs_err r = Some (bs "invalid tool call") /\
          rs_finish r = Some (if bool_decide (finish = Some (bs "length")) then bs "length" else bs "stop")
        else rs_err r = None /\ rs_finish r = finish /\
             (has_tools = false \/ saw_tool_start = false \/ finish = Some (bs "error")))).
Proof.
  unfold parse_generated_message_for_response.
  destruct (parse_generated_total text require calls) as (ok & msg & ->). cbn [mbind option_bind].
  destruct ok; [by eexists|].
  set (f := default (bs "stop") finish).
  destruct (bytes_eqb f (bs "error")) eqn:Ee.
  - apply bytes_eqb_eq in Ee. rewrite andb_false_r. eexists. split; [done|]. cbn. split_and!; try done.
    right. right. unfold f in Ee. destruct finish as [fin|]; [|done]. cbn in Ee. by rewrite Ee.
  - rewrite andb_true_r. destruct (has_tools && saw_tool_start) eqn:Et; eexists; (split; [done|]); cbn.
    + apply andb_true_iff in Et as [-> ->]. split_and!; try done.
      * intros ->. unfold f in Ee. by vm_compute in Ee.
      * f_equal. unfold tool_parse_failure_recovery_finish, bytes_eqb, f. destruct finish as [fin|]; [|done].
        cbn [default]. destruct (decide (fin = bs "length")) as [->|Hne]; [done|].
        rewrite (bool_decide_eq_false_2 _ Hne), bool_decide_eq_false_2; [done|]. by intros E%(inj Some).
    + apply andb_false_iff in Et. split_and!; try done. tauto.
Qed.
