(* ===== verification/ToolMemory.v ===== *)
(** * ToolMemory: the sampled markup of tool calls, by id (ds4_server.c)

    Entries and blocks live in a heap: an entry is on a doubly linked list in the
    order of use, in the index by id and on the singly linked list of its block; a
    block is in the index by text and is freed with its last entry.  The radix
    trees are finite maps.  [None] is an access through a null or dangling pointer
    or a call of [die]; it is proved unreachable. *)

From S2P Require Import Prelude Ctype Json JsonRequest Dsml.
From stdpp Require Import gmap.
#[local] Open Scope Z_scope.

Inductive tool_memory_source := TOOL_MEMORY_RAM | TOOL_MEMORY_DISK.

Definition is_ram (s : tool_memory_source) : bool :=
  match s with TOOL_MEMORY_RAM => true | TOOL_MEMORY_DISK => false end.

(** A pointer; [None] is [NULL]. *)
Abbreviation addr := Z.
Abbreviation ptr := (option addr).

Record tool_memory_block := mkBlock {
  b_dsml : bytes;
  b_len : Z;
  b_bytes : Z;
  b_refs : Z;
  b_seen : Z;
  b_entries : ptr
}.

Record tool_memory_entry := mkEntry {
  e_id : bytes;
  e_block : ptr;
  e_bytes : Z;
  e_stamp : Z;
  e_source : tool_memory_source;
  e_prev : ptr;
  e_next : ptr;
  e_block_next : ptr
}.

(** The structure, with the heap it points into. *)
Record tool_memory := mkMemory {
  by_id : option (gmap bytes addr);
  by_block : option (gmap bytes addr);
  head : ptr;
  tail : ptr;
  entries : Z;
  max_entries : Z;
  mbytes : Z;
  max_bytes : Z;
  clock : Z;
  scan_clock : Z;
  eheap : gmap addr tool_memory_entry;
  bheap : gmap addr tool_memory_block;
  next_addr : addr
}.

(** [sizeof] of the two structures on a 64-bit target. *)
Definition sizeof_block : Z := 48.
Definition sizeof_entry : Z := 64.

Definition DS4_TOOL_MEMORY_DEFAULT_MAX_IDS : Z := 100000.
Definition DS4_TOOL_MEMORY_MAX_BYTES : Z := 512 * 1024 * 1024.

Definition tool_memory_max_entries (m : tool_memory) : Z :=
  if 0 <? max_entries m then max_entries m else DS4_TOOL_MEMORY_DEFAULT_MAX_IDS.

Definition tool_memory_max_bytes (m : tool_memory) : Z :=
  if 0 <? max_bytes m then max_bytes m else DS4_TOOL_MEMORY_MAX_BYTES.

(** [raxInsert] of a new key; it fails for a key that is there, and the callers
    end the process then. *)
Definition rax_insert (t : option (gmap bytes addr)) (k : bytes) (v : addr) : option (gmap bytes addr) :=
  t ← t; match t !! k with Some _ => None | None => Some (<[k := v]> t) end.

(** ** Assignments *)

Definition set_index (i b : option (gmap bytes addr)) (m : tool_memory) : tool_memory :=
  mkMemory i b (head m) (tail m) (entries m) (max_entries m) (mbytes m) (max_bytes m) (clock m)
    (scan_clock m) (eheap m) (bheap m) (next_addr m).
Definition set_ends (h t : ptr) (m : tool_memory) : tool_memory :=
  mkMemory (by_id m) (by_block m) h t (entries m) (max_entries m) (mbytes m) (max_bytes m) (clock m)
    (scan_clock m) (eheap m) (bheap m) (next_addr m).
Definition set_counts (n b c : Z) (m : tool_memory) : tool_memory :=
  mkMemory (by_id m) (by_block m) (head m) (tail m) n (max_entries m) b (max_bytes m) c
    (scan_clock m) (eheap m) (bheap m) (next_addr m).
Definition set_scan_clock (c : Z) (m : tool_memory) : tool_memory :=
  mkMemory (by_id m) (by_block m) (head m) (tail m) (entries m) (max_entries m) (mbytes m) (max_bytes m)
    (clock m) c (eheap m) (bheap m) (next_addr m).
Definition set_heaps (e : gmap addr tool_memory_entry) (b : gmap addr tool_memory_block) (n : addr)
  (m : tool_memory) : tool_memory :=
  mkMemory (by_id m) (by_block m) (head m) (tail m) (entries m) (max_entries m) (mbytes m) (max_bytes m)
    (clock m) (scan_clock m) e b n.

Definition set_head (h : ptr) (m : tool_memory) := set_ends h (tail m) m.
Definition set_tail (t : ptr) (m : tool_memory) := set_ends (head m) t m.
Definition set_bytes (b : Z) (m : tool_memory) := set_counts (entries m) b (clock m) m.
Definition set_clock (c : Z) (m : tool_memory) := set_counts (entries m) (mbytes m) c m.

(** An assignment through a pointer. *)
Definition upd_entry (a : addr) (f : tool_memory_entry -> tool_memory_entry) (m : tool_memory)
  : option tool_memory :=
  e ← eheap m !! a; Some (set_heaps (<[a := f e]> (eheap m)) (bheap m) (next_addr m) m).

Definition upd_block (a : addr) (f : tool_memory_block -> tool_memory_block) (m : tool_memory)
  : option tool_memory :=
  b ← bheap m !! a; Some (set_heaps (eheap m) (<[a := f b]> (bheap m)) (next_addr m) m).

Definition with_prev (p : ptr) (e : tool_memory_entry) :=
  mkEntry (e_id e) (e_block e) (e_bytes e) (e_stamp e) (e_source e) p (e_next e) (e_block_next e).
Definition with_next (n : ptr) (e : tool_memory_entry) :=
  mkEntry (e_id e) (e_block e) (e_bytes e) (e_stamp e) (e_source e) (e_prev e) n (e_block_next e).
Definition with_block_next (n : ptr) (e : tool_memory_entry) :=
  mkEntry (e_id e) (e_block e) (e_bytes e) (e_stamp e) (e_source e) (e_prev e) (e_next e) n.
Definition with_stamp (s : Z) (e : tool_memory_entry) :=
  mkEntry (e_id e) (e_block e) (e_bytes e) s (e_source e) (e_prev e) (e_next e) (e_block_next e).
Definition with_source (s : tool_memory_source) (e : tool_memory_entry) :=
  mkEntry (e_id e) (e_block e) (e_bytes e) (e_stamp e) s (e_prev e) (e_next e) (e_block_next e).
Definition with_entries (p : ptr) (b : tool_memory_block) :=
  mkBlock (b_dsml b) (b_len b) (b_bytes b) (b_refs b) (b_seen b) p.
Definition with_refs (r : Z) (b : tool_memory_block) :=
  mkBlock (b_dsml b) (b_len b) (b_bytes b) r (b_seen b) (b_entries b).
Definition with_seen (s : Z) (b : tool_memory_block) :=
  mkBlock (b_dsml b) (b_len b) (b_bytes b) (b_refs b) s (b_entries b).

(** ** The list in the order of use *)

Definition tool_memory_link_head (m : tool_memory) (e : addr) : option tool_memory :=
  m ← upd_entry e (with_prev None) m;
  m ← upd_entry e (with_next (head m)) m;
  m ← match head m with
      | Some h => upd_entry h (with_prev (Some e)) m
      | None => Some (set_tail (Some e) m)
      end;
  Some (set_head (Some e) m).

Definition tool_memory_unlink (m : tool_memory) (e : addr) : option tool_memory :=
  en ← eheap m !! e;
  m ← match e_prev en with
      | Some p => upd_entry p (with_next (e_next en)) m
      | None => Some (set_head (e_next en) m)
      end;
  en ← eheap m !! e;
  m ← match e_next en with
      | Some n => upd_entry n (with_prev (e_prev en)) m
      | None => Some (set_tail (e_prev en) m)
      end;
  upd_entry e (fun en => with_prev None (with_next None en)) m.

Definition tool_memory_touch (m : tool_memory) (e : addr) : option tool_memory :=
  let m := set_clock (u64 (clock m + 1)) m in
  m ← upd_entry e (with_stamp (clock m)) m;
  if bool_decide (head m = Some e) then Some m
  else
    m ← tool_memory_unlink m e;
    tool_memory_link_head m e.

(** ** Blocks *)

(** What [p] points to: the field of the block or of an entry. *)
Inductive slot := BlockEntries (b : addr) | BlockNext (e : addr).

Definition read_slot (m : tool_memory) (s : slot) : option ptr :=
  match s with
  | BlockEntries b => b_entries <$> bheap m !! b
  | BlockNext e => e_block_next <$> eheap m !! e
  end.

Definition write_slot (m : tool_memory) (s : slot) (v : ptr) : option tool_memory :=
  match s with
  | BlockEntries b => upd_block b (with_entries v) m
  | BlockNext e => upd_entry e (with_block_next v) m
  end.

Fixpoint block_unlink_loop (fuel : nat) (m : tool_memory) (p : slot) (e : addr) : option tool_memory :=
  match fuel with
  | O => None
  | S fuel' =>
      v ← read_slot m p;
      match v with
      | None => Some m
      | Some a =>
          if bool_decide (a = e) then
            en ← eheap m !! e;
            m ← write_slot m p (e_block_next en);
            upd_entry e (with_block_next None) m
          else block_unlink_loop fuel' m (BlockNext a) e
      end
  end.

(** The chain has at most every entry on it. *)
Definition tool_block_unlink_entry (m : tool_memory) (b e : addr) : option tool_memory :=
  block_unlink_loop (S (size (eheap m))) m (BlockEntries b) e.

Definition tool_memory_find_block_locked (m : tool_memory) (dsml : bytes) : ptr :=
  match by_block m, dsml with
  | Some t, _ :: _ => t !! dsml
  | _, _ => None
  end.

(** A fresh block is in the index before it has an entry. *)
Definition tool_memory_get_block_locked (m : tool_memory) (dsml : bytes) : option (tool_memory * addr) :=
  match tool_memory_find_block_locked m dsml with
  | Some b => Some (m, b)
  | None =>
      let b := next_addr m in
      let blk := mkBlock dsml (zlen dsml) (u64 (zlen dsml + 1 + sizeof_block)) 0 0 None in
      t ← rax_insert (by_block m) dsml b;
      let m := set_heaps (eheap m) (<[b := blk]> (bheap m)) (b + 1) m in
      let m := set_index (by_id m) (Some t) m in
      Some (set_bytes (u64 (mbytes m + b_bytes blk)) m, b)
  end.

Definition tool_memory_release_block_locked (m : tool_memory) (b : ptr) : option tool_memory :=
  match b with
  | None => Some m
  | Some b =>
      blk ← bheap m !! b;
      let refs := b_refs blk - 1 in
      m ← upd_block b (with_refs refs) m;
      if 0 <? refs then Some m
      else
        let m := set_index (by_id m) (delete (b_dsml blk) <$> by_block m) m in
        let m := set_bytes (if b_bytes blk <=? mbytes m then mbytes m - b_bytes blk else 0) m in
        Some (set_heaps (eheap m) (delete b (bheap m)) (next_addr m) m)
  end.

(** ** Entries *)

Definition tool_memory_remove_entry_locked (m : tool_memory) (e : ptr) : option tool_memory :=
  match e with
  | None => Some m
  | Some e =>
      en ← eheap m !! e;
      let m := set_index (delete (e_id en) <$> by_id m) (by_block m) m in
      m ← tool_memory_unlink m e;
      m ← match e_block en with
          | Some b => tool_block_unlink_entry m b e
          | None => Some m
          end;
      let m := set_bytes (if e_bytes en <=? mbytes m then mbytes m - e_bytes en else 0) m in
      let m := set_counts (if 0 <? entries m then entries m - 1 else entries m) (mbytes m) (clock m) m in
      m ← tool_memory_release_block_locked m (e_block en);
      Some (set_heaps (delete e (eheap m)) (bheap m) (next_addr m) m)
  end.

Fixpoint prune_loop (fuel : nat) (m : tool_memory) : option tool_memory :=
  match fuel with
  | O => None
  | S fuel' =>
      if (tool_memory_max_entries m <? entries m) || (tool_memory_max_bytes m <? mbytes m) then
        match tail m with
        | None => Some m
        | Some t => m ← tool_memory_remove_entry_locked m (Some t); prune_loop fuel' m
        end
      else Some m
  end.

(** Every round removes an entry. *)
Definition tool_memory_prune_locked (m : tool_memory) : option tool_memory :=
  prune_loop (S (size (eheap m))) m.

(** Ids are C strings; an empty one and NULL are not looked up. *)
Definition tool_memory_find_entry_locked (m : tool_memory) (id : bytes) : ptr :=
  match by_id m, id with
  | Some t, _ :: _ => t !! id
  | _, _ => None
  end.

Definition tool_memory_init_locked (m : tool_memory) : tool_memory :=
  match by_id m, by_block m with
  | Some _, Some _ => m
  | _, _ => set_index (Some ∅) (Some ∅) m
  end.

(** The entry of a new id, linked into its block. *)
Definition put_entry (m : tool_memory) (id : bytes) (b : addr) (source : tool_memory_source)
  : option (tool_memory * addr) :=
  blk ← bheap m !! b;
  let e := next_addr m in
  let m := set_clock (u64 (clock m + 1)) m in
  let en := mkEntry id (Some b) (u64 (zlen id + 1 + sizeof_entry)) (clock m) source None None (b_entries blk) in
  let blk := with_refs (b_refs blk + 1) (with_entries (Some e) blk) in
  Some (set_heaps (<[e := en]> (eheap m)) (<[b := blk]> (bheap m)) (e + 1) m, e).

(** A new entry at the front. *)
Definition put_new (m : tool_memory) (id dsml : bytes) (source : tool_memory_source) : option tool_memory :=
  '(m, b) ← tool_memory_get_block_locked m dsml;
  '(m, e) ← put_entry m id b source;
  t ← rax_insert (by_id m) id e;
  let m := set_index (Some t) (by_block m) m in
  m ← tool_memory_link_head m e;
  Some (set_counts (entries m + 1) (u64 (mbytes m + u64 (zlen id + 1 + sizeof_entry))) (clock m) m).

Definition tool_memory_put_locked (m : tool_memory) (id dsml : bytes) (source : tool_memory_source)
  : option tool_memory :=
  match id, dsml with
  | [], _ | _, [] => Some m
  | _, _ =>
      let m := tool_memory_init_locked m in
      let old := tool_memory_find_entry_locked m id in
      same ← match old with
             | Some o =>
                 en ← eheap m !! o;
                 match e_block en with
                 | Some b => blk ← bheap m !! b; Some (bool_decide (b_dsml blk = dsml))
                 | None => Some false
                 end
             | None => Some false
             end;
      match old, same with
      | Some o, true =>
          m ← (if is_ram source then upd_entry o (with_source TOOL_MEMORY_RAM) m else Some m);
          m ← tool_memory_touch m o;
          tool_memory_prune_locked m
      | _, _ =>
          m ← tool_memory_remove_entry_locked m old;
          m ← put_new m id dsml source;
          tool_memory_prune_locked m
      end
  end.

Fixpoint free_loop (fuel : nat) (m : tool_memory) : option tool_memory :=
  match fuel with
  | O => None
  | S fuel' =>
      match tail m with
      | None => Some m
      | Some t => m ← tool_memory_remove_entry_locked m (Some t); free_loop fuel' m
      end
  end.

(** The zeroed structure; what is left on the heap is leaked. *)
Definition tool_memory_free (m : tool_memory) : option tool_memory :=
  m ← free_loop (S (size (eheap m))) m;
  Some (mkMemory None None None None 0 0 0 0 0 0 (eheap m) (bheap m) (next_addr m)).

(** The text, the source and the block of an id. *)
Definition tool_memory_lookup_locked (m : tool_memory) (id : bytes)
  : option (tool_memory * option (bytes * tool_memory_source * addr)) :=
  match tool_memory_find_entry_locked m id with
  | None => Some (m, None)
  | Some e =>
      en ← eheap m !! e;
      match e_block en with
      | None => Some (m, None)
      | Some b =>
          m ← tool_memory_touch m e;
          blk ← bheap m !! b;
          Some (m, Some (b_dsml blk, e_source en, b))
      end
  end.
