(* ===== verification/ToolMemoryFacts.v ===== *)
(** * ToolMemoryFacts: the pointer structures of the tool memory

    Views of the entry heap, the doubly linked list, the chains of the blocks, and
    what the primitive operations do to them. *)

From S2P Require Import Prelude Ctype Json JsonRequest Dsml.
From stdpp Require Import gmap.
From S2P Require Import ToolMemory.
#[local] Open Scope Z_scope.

(** ** Views of the entries *)

Definition V_link (e : tool_memory_entry) : ptr * ptr := (e_prev e, e_next e).
Definition V_data (e : tool_memory_entry) : bytes * ptr * Z := (e_id e, e_block e, e_bytes e).

Definition links (m : tool_memory) : gmap addr (ptr * ptr) := V_link <$> eheap m.
Definition datas (m : tool_memory) : gmap addr (bytes * ptr * Z) := V_data <$> eheap m.
Definition sources (m : tool_memory) : gmap addr tool_memory_source := e_source <$> eheap m.
Definition bnexts (m : tool_memory) : gmap addr ptr := e_block_next <$> eheap m.

Lemma view_update {B} (v : tool_memory_entry -> B) a e e' (h : gmap addr tool_memory_entry) :
  h !! a = Some e -> v e' = v e -> v <$> <[a := e']> h = v <$> h.
Proof. intros Hl Hv. rewrite fmap_insert, Hv. apply insert_id. by rewrite lookup_fmap, Hl. Qed.

Lemma view_lookup {B} (v : tool_memory_entry -> B) (h : gmap addr tool_memory_entry) a x :
  (v <$> h) !! a = Some x <-> exists e, h !! a = Some e /\ v e = x.
Proof. rewrite lookup_fmap, fmap_Some. naive_solver. Qed.

(** ** Doubly linked lists *)

Definition hd_or (l : list addr) (n : ptr) : ptr := match l with [] => n | a :: _ => Some a end.
Fixpoint last_or (p : ptr) (l : list addr) : ptr := match l with [] => p | a :: l' => last_or (Some a) l' end.

Fixpoint dll (k : gmap addr (ptr * ptr)) (p : ptr) (l : list addr) (n : ptr) : Prop :=
  match l with
  | [] => True
  | a :: l' => k !! a = Some (p, hd_or l' n) /\ dll k (Some a) l' n
  end.

Lemma hd_or_app l r n : hd_or (l ++ r) n = hd_or l (hd_or r n).
Proof. by destruct l. Qed.

Lemma last_or_app p l r : last_or p (l ++ r) = last_or (last_or p l) r.
Proof. revert p. induction l as [|a l IH]; intros p; [done|]. apply IH. Qed.

Lemma dll_app k p l r n : dll k p (l ++ r) n <-> dll k p l (hd_or r n) /\ dll k (last_or p l) r n.
Proof.
  revert p. induction l as [|a l IH]; intros p; cbn [dll app last_or]; [tauto|].
  rewrite IH, hd_or_app. tauto.
Qed.

Lemma dll_frame k k' p l n : (forall a, a ∈ l -> k' !! a = k !! a) -> dll k p l n -> dll k' p l n.
Proof.
  revert p. induction l as [|a l IH]; intros p Hf; cbn [dll]; [done|]. intros [Ha Hl]. split.
  - rewrite Hf; [done|left].
  - apply IH; [|done]. intros x Hx. apply Hf. by right.
Qed.

Lemma dll_insert k p l n a v : a ∉ l -> dll k p l n -> dll (<[a := v]> k) p l n.
Proof. intros Ha. apply dll_frame. intros x Hx. rewrite lookup_insert_ne; [done|]. by intros ->. Qed.

Lemma dll_delete k p l n a : a ∉ l -> dll k p l n -> dll (delete a k) p l n.
Proof. intros Ha. apply dll_frame. intros x Hx. rewrite lookup_delete_ne; [done|]. by intros ->. Qed.

(** Where the list is followed by something else. *)
Lemma dll_set_next k p l x n n' :
  x ∉ l -> dll k p (l ++ [x]) n -> dll (<[x := (last_or p l, n')]> k) p (l ++ [x]) n'.
Proof.
  intros Hx. rewrite !dll_app. cbn [dll hd_or]. intros (Hl & _ & _). split_and!; [|by rewrite lookup_insert_eq|done].
  by apply dll_insert.
Qed.

Lemma dll_set_prev k p p' x l n :
  x ∉ l -> dll k p (x :: l) n -> dll (<[x := (p', hd_or l n)]> k) p' (x :: l) n.
Proof.
  intros Hx [_ Hl]. split; [by rewrite lookup_insert_eq|]. by apply dll_insert.
Qed.

(** ** Chains of a block *)

Fixpoint chain (k : gmap addr ptr) (p : ptr) (cs : list addr) : Prop :=
  match cs with
  | [] => p = None
  | a :: cs' => p = Some a /\ exists n, k !! a = Some n /\ chain k n cs'
  end.

Lemma chain_frame k k' p cs : (forall a, a ∈ cs -> k' !! a = k !! a) -> chain k p cs -> chain k' p cs.
Proof.
  revert p. induction cs as [|a cs IH]; intros p Hf; cbn [chain]; [done|].
  intros (-> & n & Hn & Hc). split; [done|]. exists n. split.
  - rewrite Hf; [done|left].
  - apply IH; [|done]. intros x Hx. apply Hf. by right.
Qed.

Lemma chain_insert k p cs a v : a ∉ cs -> chain k p cs -> chain (<[a := v]> k) p cs.
Proof. intros Ha. apply chain_frame. intros x Hx. rewrite lookup_insert_ne; [done|]. by intros ->. Qed.

Lemma chain_delete k p cs a : a ∉ cs -> chain k p cs -> chain (delete a k) p cs.
Proof. intros Ha. apply chain_frame. intros x Hx. rewrite lookup_delete_ne; [done|]. by intros ->. Qed.

(** ** Assignments through pointers *)

Lemma upd_entry_spec a (f : tool_memory_entry -> tool_memory_entry) m e :
  eheap m !! a = Some e -> upd_entry a f m = Some (set_heaps (<[a := f e]> (eheap m)) (bheap m) (next_addr m) m).
Proof. intros H. unfold upd_entry. by rewrite H. Qed.

(** What an operation on the list of use leaves alone. *)
Record same_but_links (m m' : tool_memory) : Prop := mkSame {
  s_by_id : by_id m' = by_id m;
  s_by_block : by_block m' = by_block m;
  s_entries : entries m' = entries m;
  s_max_entries : max_entries m' = max_entries m;
  s_mbytes : mbytes m' = mbytes m;
  s_max_bytes : max_bytes m' = max_bytes m;
  s_bheap : bheap m' = bheap m;
  s_next : next_addr m' = next_addr m;
  s_datas : datas m' = datas m;
  s_sources : sources m' = sources m;
  s_bnexts : bnexts m' = bnexts m
}.

#[global] Instance same_but_links_preorder : PreOrder same_but_links.
Proof.
  split; [by split|]. intros m1 m2 m3 [] []. split; congruence.
Qed.

Lemma same_set_ends h t m : same_but_links m (set_ends h t m).
Proof. by split. Qed.

Lemma same_set_clock c m : same_but_links m (set_clock c m).
Proof. by split. Qed.

(** An update of the link fields. *)
Lemma same_upd a (f : tool_memory_entry -> tool_memory_entry) e m :
  eheap m !! a = Some e -> V_data (f e) = V_data e -> e_source (f e) = e_source e ->
  e_block_next (f e) = e_block_next e ->
  same_but_links m (set_heaps (<[a := f e]> (eheap m)) (bheap m) (next_addr m) m).
Proof.
  intros He Hd Hs Hb. split; cbn; try done; unfold datas, sources, bnexts; cbn; by eapply view_update.
Qed.

Lemma links_upd a (f : tool_memory_entry -> tool_memory_entry) e m :
  links (set_heaps (<[a := f e]> (eheap m)) (bheap m) (next_addr m) m) = <[a := V_link (f e)]> (links m).
Proof. unfold links. cbn. by rewrite fmap_insert. Qed.

Lemma links_lookup m a p n : links m !! a = Some (p, n) ->
  exists e, eheap m !! a = Some e /\ e_prev e = p /\ e_next e = n.
Proof. unfold links. intros (e & He & [= Hp Hn])%view_lookup. eauto. Qed.

Lemma V_link_next n e : V_link (with_next n e) = (e_prev e, n).
Proof. done. Qed.

Lemma V_link_prev p e : V_link (with_prev p e) = (p, e_next e).
Proof. done. Qed.

(** ** Linking at the head *)

Definition list_at (m : tool_memory) (l : list addr) : Prop :=
  dll (links m) None l None /\ head m = hd_or l None /\ tail m = last_or None l.

Lemma link_head_spec m l a e :
  list_at m l -> NoDup (a :: l) -> eheap m !! a = Some e ->
  exists m', tool_memory_link_head m a = Some m' /\ list_at m' (a :: l) /\ same_but_links m m'.
Proof.
  intros (Hd & Hh & Ht) [Ha Hn]%NoDup_cons He. unfold tool_memory_link_head.
  rewrite (upd_entry_spec _ _ _ _ He). cbn [mbind option_bind]. set (m1 := set_heaps _ _ _ m).
  assert (He1 : eheap m1 !! a = Some (with_prev None e)) by (cbn; apply lookup_insert_eq).
  rewrite (upd_entry_spec _ _ _ _ He1). cbn [mbind option_bind]. set (m2 := set_heaps _ _ _ m1).
  assert (Hs2 : same_but_links m m2).
  { transitivity m1; [by apply same_upd|by apply same_upd]. }
  assert (Hk2 : links m2 = <[a := (None, head m)]> (links m)).
  { subst m2. rewrite links_upd. subst m1. rewrite links_upd, insert_insert_eq. done. }
  change (head m2) with (head m). rewrite Hh in *. destruct l as [|h l]; cbn [hd_or] in *.
  - eexists. split; [done|]. split; [|etrans; [exact Hs2|by split]].
    split_and!; [|done|done]. change (links (set_head _ _)) with (links m2). split; [|done].
    rewrite Hk2. apply lookup_insert_eq.
  - destruct Hd as [Hkh Hd]. apply not_elem_of_cons in Ha as [Hah Ha]. apply NoDup_cons in Hn as [Hhl Hn].
    assert (Hkh2 : links m2 !! h = Some (None, hd_or l None)) by (rewrite Hk2, lookup_insert_ne; done).
    apply links_lookup in Hkh2 as (eh & Heh & Hp & Hnx).
    rewrite (upd_entry_spec _ _ _ _ Heh). cbn [mbind option_bind]. eexists. split; [done|].
    split; [|etrans; [exact Hs2|]; etrans; [by apply (same_upd h (with_prev (Some a)) eh)|by split]].
    split_and!; [|done|done].
    set (m3 := set_heaps (<[h := with_prev (Some a) eh]> (eheap m2)) (bheap m2) (next_addr m2) m2).
    change (links (set_head _ _)) with (links m3).
    assert (Hk3 : links m3 = <[h := (Some a, hd_or l None)]> (links m2)).
    { subst m3. by rewrite links_upd, V_link_prev, Hnx. }
    rewrite Hk3, Hk2. cbn [dll hd_or]. split_and!.
    + rewrite lookup_insert_ne, lookup_insert_eq; done.
    + apply lookup_insert_eq.
    + apply dll_insert, dll_insert; [done|done|]. exact Hd.
Qed.

(** ** Unlinking *)

(** The two assignments around the entry, as one step on the links. *)
Lemma set_around m p n (l r : list addr) a :
  dll (links m) None (l ++ a :: r) None -> NoDup (l ++ a :: r) ->
  p = last_or None l -> n = hd_or r None ->
  exists m1 m2,
    (match p with
     | Some p => upd_entry p (with_next n) m
     | None => Some (set_head n m)
     end) = Some m1 /\
    (match n with
     | Some n => upd_entry n (with_prev p) m1
     | None => Some (set_tail p m1)
     end) = Some m2 /\
    dll (links m2) None (l ++ r) None /\ same_but_links m m1 /\ same_but_links m1 m2 /\
    (forall x, x = a \/ x ∉ l ++ r -> links m1 !! x = links m !! x /\ links m2 !! x = links m !! x) /\
    (head m2 = match p with Some _ => head m | None => n end) /\
    (tail m2 = match n with Some _ => tail m | None => p end).
Proof.
  intros Hd Hn Hp Hnx. apply dll_app in Hd as [Hl [Ha Hr]]. cbn [hd_or] in Hl.
  rewrite <- Hp in Ha. apply NoDup_app in Hn as (Hnl & Hlr & [Har Hnr]%NoDup_cons).
  assert (H1 : exists m1, (match p with
     | Some p => upd_entry p (with_next n) m
     | None => Some (set_head n m)
     end) = Some m1 /\ dll (links m1) None l n /\ dll (links m1) (Some a) r None /\ same_but_links m m1 /\
     (forall x, x ∉ l -> links m1 !! x = links m !! x) /\
     head m1 = (match p with Some _ => head m | None => n end) /\ tail m1 = tail m).
  { destruct (destruct_list_last l) as [->|(x & l' & ->)]; subst p; cbn [last_or].
    - eexists. split; [done|]. split_and!; done.
    - rewrite last_or_app. cbn [last_or]. apply NoDup_app in Hnl as (_ & Hx & _).
      assert (Hxl : x ∉ l') by (intros Hin; apply (Hx x Hin); left).
      assert (Hxr : x ∉ r) by (intros Hin; apply (Hlr x); [apply elem_of_app; right; left|by right]).
      pose proof (proj2 (proj1 (dll_app _ _ _ _ _) Hl)) as [Hkx _]. apply links_lookup in Hkx as (e & He & He1 & He2).
      rewrite (upd_entry_spec _ _ _ _ He). eexists. split; [done|]. rewrite links_upd.
      rewrite V_link_next, He1. split_and!; try done.
      + by apply (dll_set_next _ _ _ _ _ n) in Hl.
      + by apply dll_insert.
      + by apply (same_upd x (with_next n) e).
      + intros y Hy. rewrite lookup_insert_ne; [done|]. intros ->. apply Hy, elem_of_app. right. left. }
  destruct H1 as (m1 & E1 & Hl1 & Hr1 & Hs1 & Hf1 & Hh1 & Ht1). exists m1.
  destruct r as [|y r]; subst n; cbn [hd_or].
  - eexists. split; [done|]. split; [done|]. rewrite app_nil_r. split_and!; try done.
    intros x Hx. split; apply Hf1; (destruct Hx as [->|Hx]; [intros Hin; apply (Hlr a Hin); left|done]).
  - assert (Hyl : y ∉ l) by (intros Hin; apply (Hlr y Hin); right; left).
    apply NoDup_cons in Hnr as [Hyr Hnr]. destruct Hr1 as [Hky Hr1].
    pose proof Hky as Hky'. apply links_lookup in Hky' as (e & He & He1 & He2).
    rewrite (upd_entry_spec _ _ _ _ He). eexists. split; [done|]. split; [done|]. rewrite links_upd.
    rewrite V_link_prev, He2. split_and!.
    + apply dll_app. rewrite <- Hp. split; [by apply dll_insert|].
      apply (dll_set_prev _ (Some a)); [done|]. by split.
    + done.
    + by apply (same_upd y (with_prev p) e).
    + intros x Hx. assert (Hxl : x ∉ l).
      { destruct Hx as [->|Hx]; [intros Hin; apply (Hlr a Hin); left|]. intros Hin. apply Hx, elem_of_app. by left. }
      assert (x <> y).
      { intros ->. destruct Hx as [->|Hx]; [apply Har; left|]. apply Hx, elem_of_app. right. left. }
      rewrite lookup_insert_ne by done. by rewrite !Hf1.
    + done.
    + done.
Qed.

Lemma last_or_some x l : exists y, last_or (Some x) l = Some y.
Proof. revert x. induction l as [|a l IH]; intros x; [by exists x|]. apply IH. Qed.

Lemma unlink_spec m l a r :
  list_at m (l ++ a :: r) -> NoDup (l ++ a :: r) ->
  exists m', tool_memory_unlink m a = Some m' /\ list_at m' (l ++ r) /\ same_but_links m m'.
Proof.
  intros (Hd & Hh & Ht) Hn. pose proof (proj2 (proj1 (dll_app _ _ _ _ _) Hd)) as [Ha _].
  destruct (set_around m _ _ l r a Hd Hn eq_refl eq_refl) as (m1 & m2 & E1 & E2 & Hd2 & Hs1 & Hs2 & Hf & Hh2 & Ht2).
  pose proof (proj1 (Hf a (or_introl eq_refl))) as Ha1. rewrite Ha in Ha1.
  pose proof (proj2 (Hf a (or_introl eq_refl))) as Ha2. rewrite Ha in Ha2.
  apply links_lookup in Ha as (e & He & Hp & Hx), Ha1 as (e1 & He1 & Hp1 & Hx1), Ha2 as (e2 & He2 & _).
  unfold tool_memory_unlink. rewrite He. cbn [mbind option_bind]. rewrite Hp, Hx, E1. cbn [mbind option_bind].
  rewrite He1. cbn [mbind option_bind]. rewrite Hp1, Hx1, E2. cbn [mbind option_bind].
  rewrite (upd_entry_spec _ _ _ _ He2). eexists. split; [done|].
  assert (Har : a ∉ l ++ r).
  { apply NoDup_app in Hn as (_ & Hlr & [Har _]%NoDup_cons). rewrite elem_of_app. intros [Hin|Hin]; [|done].
    apply (Hlr a Hin). left. }
  split; [|etrans; [exact Hs1|]; etrans; [exact Hs2|];
    by apply (same_upd a (fun en => with_prev None (with_next None en)) e2)].
  split_and!.
  - rewrite links_upd. by apply dll_insert.
  - cbn [head set_heaps]. rewrite Hh2, Hh. destruct l as [|x l]; [done|]. cbn [last_or].
    by destruct (last_or_some x l) as [y ->].
  - cbn [tail set_heaps]. rewrite Ht2, Ht, !last_or_app. by destruct r.
Qed.

(** Taking an entry to the front, in the order and the clock. *)
Lemma touch_spec m l a r :
  list_at m (l ++ a :: r) -> NoDup (l ++ a :: r) ->
  exists m', tool_memory_touch m a = Some m' /\ list_at m' (a :: l ++ r) /\ same_but_links m m'.
Proof.
  intros Hl Hn. pose proof Hl as (Hd & Hh & Ht). unfold tool_memory_touch.
  set (m0 := set_clock (u64 (clock m + 1)) m).
  pose proof (proj2 (proj1 (dll_app _ _ _ _ _) Hd)) as [Ha _]. apply links_lookup in Ha as (e & He & Hp & Hx).
  assert (He0 : eheap m0 !! a = Some e) by done. rewrite (upd_entry_spec _ _ _ _ He0). cbn [mbind option_bind].
  set (m1 := set_heaps _ _ _ m0). assert (Hs1 : same_but_links m m1).
  { transitivity m0; [apply same_set_clock|by apply (same_upd a (with_stamp (clock m0)) e)]. }
  assert (Hk1 : links m1 = links m).
  { subst m1. rewrite links_upd. apply insert_id. apply view_lookup. by exists e. }
  assert (Hl1 : list_at m1 (l ++ a :: r)) by (split_and!; [by rewrite Hk1|done..]).
  destruct l as [|x l].
  - cbn [hd_or app] in *. exists m1. rewrite bool_decide_eq_true_2 by done. done.
  - rewrite bool_decide_eq_false_2.
    2: { change (head m1) with (head m). rewrite Hh. intros [= ->].
         apply NoDup_cons in Hn as [Hn _]. apply Hn, elem_of_app. right. left. }
    destruct (unlink_spec _ _ _ _ Hl1 Hn) as (m2 & -> & Hl2 & Hs2). cbn [mbind option_bind].
    assert (He2 : exists e2, eheap m2 !! a = Some e2).
    { assert (Hd2 : is_Some (datas m2 !! a)).
      { rewrite (s_datas _ _ Hs2), (s_datas _ _ Hs1). exists (V_data e). apply view_lookup. by exists e. }
      destruct Hd2 as [d (e2 & He2 & _)%view_lookup]. by exists e2. }
    destruct He2 as [e2 He2].
    destruct (link_head_spec m2 _ a e2 Hl2) as (m3 & E3 & Hl3 & Hs3); [|done|].
    { by rewrite Permutation_middle. }
    exists m3. split; [done|]. split; [done|]. etrans; [exact Hs1|]. by etrans.
Qed.

(** ** Unlinking from the chain of a block *)

(** The slot that points to the entry. *)
Definition slot_before (s : slot) (cs : list addr) : slot :=
  match last cs with Some x => BlockNext x | None => s end.

Lemma slot_before_cons s c cs : slot_before s (c :: cs) = slot_before (BlockNext c) cs.
Proof.
  unfold slot_before. destruct cs as [|d cs]; [done|]. change (last (c :: d :: cs)) with (last (d :: cs)).
  destruct (last (d :: cs)) eqn:E; [done|]. by apply last_None in E.
Qed.

Lemma block_unlink_loop_spec fuel m s e p cs1 cs2 :
  read_slot m s = Some p -> chain (bnexts m) p (cs1 ++ e :: cs2) -> NoDup (cs1 ++ e :: cs2) ->
  (length cs1 < fuel)%nat ->
  block_unlink_loop fuel m s e =
  (en ← eheap m !! e;
   m ← write_slot m (slot_before s cs1) (e_block_next en);
   upd_entry e (with_block_next None) m).
Proof.
  revert fuel s p. induction cs1 as [|c cs1 IH]; intros [|fuel] s p Hs Hc Hn Hf; cbn in Hf; try lia;
    cbn [block_unlink_loop]; rewrite Hs; cbn [mbind option_bind]; destruct Hc as (-> & n & Hk & Hc).
  - by rewrite bool_decide_eq_true_2.
  - apply NoDup_cons in Hn as [Hce Hn]. rewrite bool_decide_eq_false_2.
    2: { intros ->. apply Hce, elem_of_app. right. left. }
    rewrite (IH fuel (BlockNext c) n); [|by rewrite <- Hk; unfold bnexts; rewrite lookup_fmap|done|done|lia].
    by rewrite slot_before_cons.
Qed.

(** What an operation on the chains leaves alone. *)
Record same_but_chain (b : addr) (es : list addr) (m m' : tool_memory) : Prop := mkSameC {
  c_by_id : by_id m' = by_id m;
  c_by_block : by_block m' = by_block m;
  c_head : head m' = head m;
  c_tail : tail m' = tail m;
  c_entries : entries m' = entries m;
  c_max_entries : max_entries m' = max_entries m;
  c_mbytes : mbytes m' = mbytes m;
  c_max_bytes : max_bytes m' = max_bytes m;
  c_next : next_addr m' = next_addr m;
  c_links : links m' = links m;
  c_datas : datas m' = datas m;
  c_sources : sources m' = sources m;
  c_bnexts : forall a, a ∉ es -> bnexts m' !! a = bnexts m !! a
}.

Lemma bnexts_upd a n e m :
  bnexts (set_heaps (<[a := with_block_next n e]> (eheap m)) (bheap m) (next_addr m) m) = <[a := n]> (bnexts m).
Proof. unfold bnexts. cbn. by rewrite fmap_insert. Qed.

Lemma same_chain_upd b es a n e m :
  eheap m !! a = Some e -> a ∈ es ->
  same_but_chain b es m (set_heaps (<[a := with_block_next n e]> (eheap m)) (bheap m) (next_addr m) m).
Proof.
  intros He Ha. split; try done; try (unfold links, datas, sources; cbn; by eapply view_update).
  intros x Hx. rewrite bnexts_upd, lookup_insert_ne; [done|]. by intros ->.
Qed.

Lemma chain_dom k p cs a : chain k p cs -> a ∈ cs -> is_Some (k !! a).
Proof.
  revert p. induction cs as [|c cs IH]; intros p; [by intros _ ?%not_elem_of_nil|].
  intros (_ & n & Hn & Hc) [->|Ha]%elem_of_cons; [by exists n|by eapply IH].
Qed.

Lemma nodup_size {B} (h : gmap addr B) (cs : list addr) :
  NoDup cs -> (forall a, a ∈ cs -> is_Some (h !! a)) -> (length cs <= size h)%nat.
Proof.
  intros Hn Hin. rewrite <- (size_list_to_set (C := gset addr)) by done. rewrite <- (size_dom (D := gset addr) h).
  apply subseteq_size. intros a Ha%elem_of_list_to_set. by apply elem_of_dom, Hin.
Qed.

(** Bypassing the element behind [x]. *)
Lemma chain_bypass k p cs x e n ds :
  chain k p (cs ++ x :: e :: ds) -> NoDup (cs ++ x :: e :: ds) -> k !! e = Some n ->
  chain (<[x := n]> k) p (cs ++ x :: ds).
Proof.
  revert p. induction cs as [|c cs IH]; intros p Hc Hn He; cbn [app chain] in *.
  - destruct Hc as (-> & q & Hx & -> & q' & Hq' & Hc). split; [done|]. exists n. split; [apply lookup_insert_eq|].
    assert (q' = n) as -> by congruence. apply chain_insert; [|done].
    apply NoDup_cons in Hn as [Hn _]. intros Hin. apply Hn. by right.
  - destruct Hc as (-> & q & Hq & Hc). apply NoDup_cons in Hn as [Hcn Hn]. split; [done|]. exists q.
    split; [|by apply IH]. rewrite lookup_insert_ne; [done|]. intros ->. apply Hcn, elem_of_app. right. left.
Qed.

Lemma block_unlink_spec m b e blk cs1 cs2 :
  bheap m !! b = Some blk -> chain (bnexts m) (b_entries blk) (cs1 ++ e :: cs2) -> NoDup (cs1 ++ e :: cs2) ->
  exists m' p, tool_block_unlink_entry m b e = Some m' /\
    bheap m' = <[b := with_entries p blk]> (bheap m) /\
    chain (bnexts m') p (cs1 ++ cs2) /\ same_but_chain b (cs1 ++ e :: cs2) m m'.
Proof.
  intros Hb Hc Hn. unfold tool_block_unlink_entry.
  assert (Hsz : (length (cs1 ++ e :: cs2) <= size (eheap m))%nat).
  { apply nodup_size; [done|]. intros a Ha. apply (chain_dom _ _ _ _ Hc) in Ha as [n Ha].
    apply view_lookup in Ha as (x & Hx & _). by exists x. }
  rewrite length_app in Hsz. cbn [length] in Hsz.
  rewrite (block_unlink_loop_spec _ _ _ _ (b_entries blk) cs1 cs2); [|cbn; by rewrite Hb|done|done|lia].
  assert (He : exists en, eheap m !! e = Some en).
  { assert (is_Some (bnexts m !! e)) as [n Ha] by (eapply chain_dom; [exact Hc|apply elem_of_app; right; left]).
    apply view_lookup in Ha as (x & Hx & _). by exists x. }
  destruct He as [en He]. rewrite He. cbn [mbind option_bind].
  assert (Hbe : bnexts m !! e = Some (e_block_next en)) by (apply view_lookup; by exists en).
  destruct (destruct_list_last cs1) as [->|(x & cs & ->)].
  - cbn [app] in *. unfold slot_before. cbn [last write_slot]. unfold upd_block. rewrite Hb. cbn [mbind option_bind].
    set (m1 := set_heaps _ _ _ m). assert (He1 : eheap m1 !! e = Some en) by done.
    rewrite (upd_entry_spec _ _ _ _ He1). do 2 eexists. split; [done|]. split; [done|].
    destruct Hc as (Hp & n & Hk & Hc). assert (n = e_block_next en) as -> by congruence.
    apply NoDup_cons in Hn as [Hen Hn]. split.
    + rewrite bnexts_upd. by apply chain_insert.
    + split; try done; try (unfold links, datas, sources; cbn; by eapply view_update).
      intros y Hy. rewrite bnexts_upd, lookup_insert_ne; [done|]. intros ->. apply Hy. left.
  - assert (Hexp : exists ex, eheap m !! x = Some ex).
    { assert (is_Some (bnexts m !! x)) as [n Ha].
      { eapply chain_dom; [exact Hc|]. apply elem_of_app. left. apply elem_of_app. right. left. }
      apply view_lookup in Ha as (y & Hy & _). by exists y. }
    destruct Hexp as [ex Hx]. unfold slot_before. rewrite last_snoc. cbn [write_slot].
    rewrite (upd_entry_spec _ _ _ _ Hx). cbn [mbind option_bind]. rewrite <- !app_assoc in *. cbn [app] in *.
    assert (Hxe : x <> e).
    { intros ->. apply NoDup_app in Hn as (_ & _ & [Hn _]%NoDup_cons). apply Hn. left. }
    set (m1 := set_heaps _ _ _ m).
    assert (He1 : eheap m1 !! e = Some en) by (cbn; by rewrite lookup_insert_ne).
    rewrite (upd_entry_spec _ _ _ _ He1). exists (set_heaps (<[e := with_block_next None en]> (eheap m1)) (bheap m1) (next_addr m1) m1), (b_entries blk).
    split; [done|]. split; [cbn; symmetry; apply insert_id; by destruct blk|]. split.
    + rewrite bnexts_upd. subst m1. rewrite bnexts_upd. apply chain_insert.
      * rewrite elem_of_app, elem_of_cons. apply NoDup_app in Hn as (_ & Hcs & [_ [Hn _]%NoDup_cons]%NoDup_cons).
        intros [Hin|[->|Hin]]; [|done|done]. apply (Hcs e Hin). right. left.
      * by eapply chain_bypass.
    + assert (S1 : same_but_chain b (cs ++ x :: e :: cs2) m m1).
      { apply same_chain_upd; [done|]. apply elem_of_app. right. left. }
      assert (S2 : same_but_chain b (cs ++ x :: e :: cs2) m1
                (set_heaps (<[e := with_block_next None en]> (eheap m1)) (bheap m1) (next_addr m1) m1)).
      { apply same_chain_upd; [done|]. apply elem_of_app. right. right. left. }
      destruct S1, S2. split; try congruence. intros y Hy. by rewrite c_bnexts1, c_bnexts0.
Qed.
