(* ===== verification/ToolMemoryRep.v ===== *)
(** * ToolMemoryRep: the tool memory is a bounded list in the order of use

    The abstract memory is a list of items, the most recently used first.  The
    heap represents it; every operation is defined on a represented memory and
    does to the list what its abstract counterpart does. *)

From S2P Require Import Prelude Ctype Json JsonRequest Dsml.
From stdpp Require Import gmap.
From S2P Require Import ToolMemory ToolMemoryFacts.
#[local] Open Scope Z_scope.

(** ** The abstract memory *)

Record item := mkItem { it_id : bytes; it_dsml : bytes; it_source : tool_memory_source }.

Definition entry_size (id : bytes) : Z := zlen id + 1 + sizeof_entry.
Definition block_size (dsml : bytes) : Z := zlen dsml + 1 + sizeof_block.

(** A text is stored once. *)
Fixpoint lru_bytes (l : list item) : Z :=
  match l with
  | [] => 0
  | it :: l' =>
      entry_size (it_id it) + (if bool_decide (it_dsml it ∈ it_dsml <$> l') then 0 else block_size (it_dsml it)) +
      lru_bytes l'
  end.

Definition lru_over (maxe maxb : Z) (l : list item) : bool := (maxe <? zlen l) || (maxb <? lru_bytes l).

(** Drop from the end while a limit is exceeded. *)
Fixpoint lru_prune_n (n : nat) (maxe maxb : Z) (l : list item) : list item :=
  match n with
  | O => l
  | S n' => if lru_over maxe maxb l then lru_prune_n n' maxe maxb (take (length l - 1) l) else l
  end.

Definition lru_prune (maxe maxb : Z) (l : list item) : list item := lru_prune_n (length l) maxe maxb l.

Definition lru_remove (id : bytes) (l : list item) : list item := List.filter (fun it => negb (bytes_eqb (it_id it) id)) l.
Definition lru_find (id : bytes) (l : list item) : option item := List.find (fun it => bytes_eqb (it_id it) id) l.

(** The source of what is stored again only improves. *)
Definition put_source (l : list item) (id dsml : bytes) (source : tool_memory_source) : tool_memory_source :=
  match lru_find id l with
  | Some it => if bytes_eqb (it_dsml it) dsml then (if is_ram source then TOOL_MEMORY_RAM else it_source it) else source
  | None => source
  end.

Definition lru_put (maxe maxb : Z) (l : list item) (id dsml : bytes) (source : tool_memory_source) : list item :=
  lru_prune maxe maxb (mkItem id dsml (put_source l id dsml source) :: lru_remove id l).

(** A lookup moves the item to the front. *)
Definition lru_touch (id : bytes) (l : list item) : list item :=
  match lru_find id l with Some it => it :: lru_remove id l | None => l end.

Lemma lru_bytes_nonneg l : 0 <= lru_bytes l.
Proof.
  induction l as [|it l IH]; cbn [lru_bytes]; [lia|]. unfold entry_size, block_size, sizeof_entry, sizeof_block.
  pose proof (zlen_nonneg (it_id it)). pose proof (zlen_nonneg (it_dsml it)). destruct (bool_decide _); lia.
Qed.

Lemma bool_decide_iff (P Q : Prop) `{Decision P} `{Decision Q} : (P <-> Q) -> bool_decide P = bool_decide Q.
Proof. intros HPQ. apply bool_decide_ext. exact HPQ. Qed.

Lemma lru_bytes_perm l l' : l ≡ₚ l' -> lru_bytes l = lru_bytes l'.
Proof.
  induction 1 as [|it l l' Hp IH|it1 it2 l|]; cbn [lru_bytes]; [done| | |congruence].
  - rewrite IH, (bool_decide_iff (it_dsml it ∈ it_dsml <$> l) (it_dsml it ∈ it_dsml <$> l')); [done|].
    by rewrite Hp.
  - rewrite !fmap_cons.
    destruct (decide (it_dsml it1 = it_dsml it2)) as [E|E].
    + rewrite E, !(bool_decide_eq_true_2 (_ ∈ _ :: _)) by left. lia.
    + rewrite (bool_decide_iff (it_dsml it2 ∈ it_dsml it1 :: (it_dsml <$> l)) (it_dsml it2 ∈ it_dsml <$> l)).
      2: { rewrite elem_of_cons. intuition congruence. }
      rewrite (bool_decide_iff (it_dsml it1 ∈ it_dsml it2 :: (it_dsml <$> l)) (it_dsml it1 ∈ it_dsml <$> l)).
      2: { rewrite elem_of_cons. intuition congruence. }
      lia.
Qed.

(** ** The representation *)

Definition item_ok (it : item) : Prop :=
  it_id it <> [] /\ it_dsml it <> [] /\ zlen (it_id it) < 2 ^ 62 /\ zlen (it_dsml it) < 2 ^ 62.

(** A block has the entries that point to it, at least one, on its chain. *)
Definition block_ok (m : tool_memory) (b : addr) (blk : tool_memory_block) : Prop :=
  b_len blk = zlen (b_dsml blk) /\ b_bytes blk = block_size (b_dsml blk) /\
  exists cs, chain (bnexts m) (b_entries blk) cs /\ NoDup cs /\ b_refs blk = zlen cs /\ cs <> [] /\
    forall a, a ∈ cs <-> exists id sz, datas m !! a = Some (id, Some b, sz).

Definition index_of (t : option (gmap bytes addr)) : gmap bytes addr := default ∅ t.

Record rep (m : tool_memory) (L : list (addr * item)) : Prop := mkRep {
  r_list : list_at m L.*1;
  r_nodup : NoDup L.*1;
  r_dom : forall a, is_Some (datas m !! a) <-> a ∈ L.*1;
  r_item : forall a it, (a, it) ∈ L -> exists b blk,
    datas m !! a = Some (it_id it, Some b, entry_size (it_id it)) /\ sources m !! a = Some (it_source it) /\
    bheap m !! b = Some blk /\ b_dsml blk = it_dsml it;
  r_ids : forall id a, index_of (by_id m) !! id = Some a <-> exists it, (a, it) ∈ L /\ it_id it = id;
  r_blocks : forall d b, index_of (by_block m) !! d = Some b <-> exists blk, bheap m !! b = Some blk /\ b_dsml blk = d;
  r_block : forall b blk, bheap m !! b = Some blk -> block_ok m b blk;
  r_bytes : mbytes m = lru_bytes L.*2;
  r_entries : entries m = zlen L;
  r_ok : Forall item_ok L.*2;
  r_fresh : forall a, is_Some (datas m !! a) \/ is_Some (bheap m !! a) -> a < next_addr m
}.

Lemma rep_unique m L a it it' : rep m L -> (a, it) ∈ L -> (a, it') ∈ L -> it = it'.
Proof.
  intros H H1 H2. apply list_elem_of_lookup in H1 as [i Hi], H2 as [j Hj].
  assert (i = j) as ->; [|congruence].
  eapply (NoDup_lookup L.*1); [apply H|by rewrite list_lookup_fmap, Hi|by rewrite list_lookup_fmap, Hj].
Qed.

Lemma rep_find m L id a : rep m L -> id <> [] -> tool_memory_find_entry_locked m id = Some a <-> exists it, (a, it) ∈ L /\ it_id it = id.
Proof.
  intros H Hid. rewrite <- (r_ids _ _ H). unfold tool_memory_find_entry_locked, index_of.
  destruct (by_id m), id; done.
Qed.

(** Blocks are determined by their text. *)
Lemma rep_block_inj m L b b' blk blk' :
  rep m L -> bheap m !! b = Some blk -> bheap m !! b' = Some blk' -> b_dsml blk = b_dsml blk' -> b = b'.
Proof.
  intros H Hb Hb' E.
  assert (H1 : index_of (by_block m) !! b_dsml blk = Some b) by (apply (r_blocks _ _ H); eauto).
  assert (H2 : index_of (by_block m) !! b_dsml blk = Some b') by (apply (r_blocks _ _ H); eauto). congruence.
Qed.

(** ** Removing an entry *)

Lemma upd_block_spec b (f : tool_memory_block -> tool_memory_block) m blk :
  bheap m !! b = Some blk -> upd_block b f m = Some (set_heaps (eheap m) (<[b := f blk]> (bheap m)) (next_addr m) m).
Proof. intros H. unfold upd_block. by rewrite H. Qed.

Lemma release_spec m b blk :
  bheap m !! b = Some blk ->
  exists m', tool_memory_release_block_locked m (Some b) = Some m' /\
    eheap m' = eheap m /\ head m' = head m /\ tail m' = tail m /\ entries m' = entries m /\
    max_entries m' = max_entries m /\ max_bytes m' = max_bytes m /\ next_addr m' = next_addr m /\ by_id m' = by_id m /\
    if 0 <? b_refs blk - 1
    then bheap m' = <[b := with_refs (b_refs blk - 1) blk]> (bheap m) /\ by_block m' = by_block m /\ mbytes m' = mbytes m
    else bheap m' = delete b (bheap m) /\ by_block m' = delete (b_dsml blk) <$> by_block m /\
         mbytes m' = if b_bytes blk <=? mbytes m then mbytes m - b_bytes blk else 0.
Proof.
  intros Hb. unfold tool_memory_release_block_locked. rewrite Hb. cbn [mbind option_bind].
  rewrite (upd_block_spec _ _ _ _ Hb). cbn [mbind option_bind]. destruct (0 <? b_refs blk - 1).
  - eexists. split; [done|]. split_and!; done.
  - eexists. split; [done|]. split_and!; try done. cbn. by rewrite delete_insert_eq.
Qed.

Lemma item_in_cons {A} (x : A) l r y : y ∈ l ++ x :: r <-> y = x \/ y ∈ l ++ r.
Proof. rewrite !elem_of_app, elem_of_cons. tauto. Qed.

(** The chain of the block without the entry, and what is left of the items. *)
Lemma rep_block_others m L1 a it L2 b blk cs1 cs2 :
  rep m (L1 ++ (a, it) :: L2) -> datas m !! a = Some (it_id it, Some b, entry_size (it_id it)) ->
  bheap m !! b = Some blk -> b_dsml blk = it_dsml it -> NoDup (cs1 ++ a :: cs2) ->
  (forall c, c ∈ cs1 ++ a :: cs2 <-> exists id sz, datas m !! c = Some (id, Some b, sz)) ->
  cs1 ++ cs2 = [] <-> it_dsml it ∉ it_dsml <$> (L1 ++ L2).*2.
Proof.
  intros H Ha Hb Hd Hn Hcs.
  assert (HaL : a ∉ (L1 ++ L2).*1).
  { pose proof (r_nodup _ _ H) as HN. rewrite fmap_app in *. cbn in HN.
    apply NoDup_app in HN as (_ & H1 & [H2 _]%NoDup_cons).
    rewrite elem_of_app. intros [Hin|Hin]; [|done]. apply (H1 a Hin). left. }
  assert (Hac : a ∉ cs1 ++ cs2).
  { apply NoDup_app in Hn as (_ & H1 & [H2 _]%NoDup_cons). rewrite elem_of_app. intros [Hin|Hin]; [|done]. apply (H1 a Hin). left. }
  split.
  - intros Hnil Hin. apply list_elem_of_fmap in Hin as (it' & Hi & Hin). apply list_elem_of_fmap in Hin as ([a' it''] & -> & Hin).
    cbn [snd] in Hi. destruct (r_item _ _ H a' it'') as (b' & blk' & Hd' & _ & Hb' & Hdd); [apply item_in_cons; by right|].
    assert (b' = b) as -> by (eapply rep_block_inj; [exact H|exact Hb'|exact Hb|congruence]).
    assert (Hc : a' ∈ cs1 ++ a :: cs2) by (apply Hcs; eauto). apply item_in_cons in Hc as [->|Hc].
    + apply HaL. apply list_elem_of_fmap. by exists (a, it'').
    + rewrite Hnil in Hc. by apply not_elem_of_nil in Hc.
  - intros Hout. destruct (cs1 ++ cs2) as [|c cs] eqn:E; [done|]. exfalso. apply Hout.
    assert (Hc : c ∈ cs1 ++ a :: cs2) by (apply item_in_cons; right; rewrite E; left).
    pose proof (proj1 (Hcs c) Hc) as (id & sz & Hdc).
    assert (Hcl : c ∈ (L1 ++ (a, it) :: L2).*1) by (apply (r_dom _ _ H); by eexists).
    apply list_elem_of_fmap in Hcl as ([c' it'] & Ec & Hin). cbn [fst] in Ec. subst c'.
    destruct (r_item _ _ H c it' Hin) as (b' & blk' & Hd' & _ & Hb' & Hdd).
    assert (b' = b) as -> by congruence. assert (blk' = blk) as -> by congruence.
    apply item_in_cons in Hin as [[= -> ->]|Hin]; [exfalso; apply Hac; left|].
    apply list_elem_of_fmap. exists it'. split; [congruence|]. apply list_elem_of_fmap. by exists (c, it').
Qed.

(** What stays when entries go. *)
Record kept (m m' : tool_memory) : Prop := mkKept {
  k_max_entries : max_entries m' = max_entries m;
  k_max_bytes : max_bytes m' = max_bytes m;
  k_next : next_addr m' = next_addr m;
  k_by_id : is_Some (by_id m) -> is_Some (by_id m');
  k_by_block : is_Some (by_block m) -> is_Some (by_block m')
}.

#[global] Instance kept_preorder : PreOrder kept.
Proof. split; [by split|]. intros m1 m2 m3 [] []. split; try congruence; auto. Qed.

Lemma is_some_index (t : option (gmap bytes addr)) k v : index_of t !! k = Some v -> is_Some t.
Proof. destruct t; [done|]. by unfold index_of. Qed.

Lemma index_delete (t : option (gmap bytes addr)) k : index_of (delete k <$> t) = delete k (index_of t).
Proof. destruct t; cbn; [done|]. by rewrite delete_empty. Qed.

(** The state behind a removal, view by view. *)
Record removed (m : tool_memory) (a b : addr) (it : item) (l : list addr) (cs : list addr) (m' : tool_memory) : Prop := mkRemoved {
  d_list : list_at m' l;
  d_datas : datas m' = delete a (datas m);
  d_sources : sources m' = delete a (sources m);
  d_by_id : by_id m' = delete (it_id it) <$> by_id m;
  d_entries : entries m' = if 0 <? entries m then entries m - 1 else entries m;
  d_chains : forall p xs, chain (bnexts m) p xs -> a ∉ xs -> (forall x, x ∈ xs -> x ∉ cs) -> chain (bnexts m') p xs;
  d_bheap : forall b', b' <> b -> bheap m' !! b' = bheap m !! b';
  d_block : if bool_decide (cs = []) then bheap m' !! b = None
            else exists p blk, bheap m !! b = Some blk /\
                   bheap m' !! b = Some (with_refs (b_refs blk - 1) (with_entries p blk)) /\
                   chain (bnexts m') p cs;
  d_by_block : by_block m' = if bool_decide (cs = []) then delete (it_dsml it) <$> by_block m else by_block m;
  d_bytes : mbytes m' = mbytes m - entry_size (it_id it) - (if bool_decide (cs = []) then block_size (it_dsml it) else 0);
  d_kept : kept m m'
}.

(** The bytes an item accounts for. *)
Lemma lru_bytes_middle l1 it l2 :
  lru_bytes (l1 ++ it :: l2) =
  entry_size (it_id it) + (if bool_decide (it_dsml it ∈ it_dsml <$> (l1 ++ l2)) then 0 else block_size (it_dsml it)) +
  lru_bytes (l1 ++ l2).
Proof. rewrite (lru_bytes_perm (l1 ++ it :: l2) (it :: l1 ++ l2)); [done|]. by rewrite Permutation_middle. Qed.

Lemma remove_views m L1 a it L2 :
  rep m (L1 ++ (a, it) :: L2) ->
  exists m' b cs1 cs2, tool_memory_remove_entry_locked m (Some a) = Some m' /\
    datas m !! a = Some (it_id it, Some b, entry_size (it_id it)) /\
    NoDup (cs1 ++ a :: cs2) /\ (forall c, c ∈ cs1 ++ a :: cs2 <-> exists id sz, datas m !! c = Some (id, Some b, sz)) /\
    removed m a b it (L1 ++ L2).*1 (cs1 ++ cs2) m'.
Proof.
  intros H. destruct (r_item _ _ H a it) as (b & blk & Ha & Hsrc & Hb & Hd); [apply item_in_cons; by left|].
  pose proof Ha as Ha'. apply view_lookup in Ha' as (en & Hen & Hv). injection Hv as Hid Hblk Hsz.
  destruct (r_block _ _ H b blk Hb) as (Hlen & Hbb & cs & Hch & Hcn & Hrefs & _ & Hcs).
  assert (Hac : a ∈ cs) by (apply Hcs; eauto). apply list_elem_of_split in Hac as (cs1 & cs2 & ->).
  pose proof (rep_block_others _ _ _ _ _ _ _ _ _ H Ha Hb Hd Hcn Hcs) as Hlast.
  pose proof (r_bytes _ _ H) as Hby. rewrite fmap_app, fmap_cons, lru_bytes_middle in Hby. cbn [snd] in Hby. rewrite fmap_app in Hlast.
  pose proof (lru_bytes_nonneg (L1.*2 ++ L2.*2)) as Hnn.
  assert (Hpos : 0 <= block_size (it_dsml it)).
  { unfold block_size, sizeof_block. pose proof (zlen_nonneg (it_dsml it)). lia. }
  unfold tool_memory_remove_entry_locked. rewrite Hen. cbn [mbind option_bind].
  set (m1 := set_index _ _ m).
  assert (Hl1 : list_at m1 (L1.*1 ++ a :: L2.*1)) by (pose proof (r_list _ _ H) as Hl; by rewrite fmap_app in Hl).
  assert (Hnd : NoDup (L1.*1 ++ a :: L2.*1)) by (pose proof (r_nodup _ _ H) as Hl; by rewrite fmap_app in Hl).
  destruct (unlink_spec m1 _ _ _ Hl1 Hnd) as (m2 & -> & Hl2 & Hs2). cbn [mbind option_bind]. rewrite Hblk.
  assert (Hb2 : bheap m2 !! b = Some blk) by (by rewrite (s_bheap _ _ Hs2)).
  assert (Hch2 : chain (bnexts m2) (b_entries blk) (cs1 ++ a :: cs2)) by (by rewrite (s_bnexts _ _ Hs2)).
  destruct (block_unlink_spec m2 b a blk cs1 cs2 Hb2 Hch2 Hcn) as (m3 & p & -> & Hbh3 & Hch3 & Hs3).
  cbn [mbind option_bind]. rewrite Hsz.
  assert (Hby3 : mbytes m3 = mbytes m) by (by rewrite (c_mbytes _ _ _ _ Hs3), (s_mbytes _ _ Hs2)).
  assert (Hen3 : entries m3 = entries m) by (by rewrite (c_entries _ _ _ _ Hs3), (s_entries _ _ Hs2)).
  set (m4 := set_counts _ _ _ _).
  assert (Hb4 : bheap m4 !! b = Some (with_entries p blk)) by (cbn; rewrite Hbh3; apply lookup_insert_eq).
  destruct (release_spec m4 b _ Hb4) as (m5 & -> & Heh & Hhd & Htl & Hent & Hme & Hmb & Hna & Hbi & Hrel).
  cbn [mbind option_bind]. set (m' := set_heaps _ _ _ m5).
  exists m', b, cs1, cs2. split; [done|]. split; [done|]. split; [done|]. split; [done|].
  assert (Hview : forall B (v : tool_memory_entry -> B), v <$> eheap m' = delete a (v <$> eheap m3))
    by (intros B v; cbn; by rewrite Heh, fmap_delete).
  assert (Hmb4 : mbytes m4 = mbytes m - entry_size (it_id it)).
  { cbn. rewrite Hby3. rewrite (proj2 (Z.leb_le _ _)); [done|]. rewrite Hby. destruct (bool_decide _); lia. }
  change (b_refs (with_entries p blk)) with (b_refs blk) in Hrel. change (b_dsml (with_entries p blk)) with (b_dsml blk) in Hrel.
  change (b_bytes (with_entries p blk)) with (b_bytes blk) in Hrel. rewrite Hmb4, Hd, Hbb, Hd, Hrefs in Hrel.
  assert (Hz : (0 <? zlen (cs1 ++ a :: cs2) - 1) = negb (bool_decide (cs1 ++ cs2 = []))).
  { unfold zlen. rewrite length_app. cbn [length]. destruct cs1 as [|c cs1], cs2 as [|d cs2]; cbn;
      repeat (rewrite bool_decide_eq_true_2 by done || rewrite bool_decide_eq_false_2 by done); cbn;
      try apply Z.ltb_lt; try apply Z.ltb_ge; lia. }
  rewrite Hz in Hrel.
  split.
  - rewrite fmap_app. destruct Hl2 as (Hl & Hh & Ht). split_and!.
    + unfold links at 1. rewrite Hview. fold (links m3). rewrite (c_links _ _ _ _ Hs3). apply dll_delete; [|exact Hl].
      apply NoDup_app in Hnd as (_ & H1 & [H2 _]%NoDup_cons). rewrite elem_of_app. intros [Hin|Hin]; [|done]. apply (H1 a Hin). left.
    + cbn. rewrite Hhd. cbn. by rewrite (c_head _ _ _ _ Hs3).
    + cbn. rewrite Htl. cbn. by rewrite (c_tail _ _ _ _ Hs3).
  - unfold datas at 1. rewrite Hview. fold (datas m3). by rewrite (c_datas _ _ _ _ Hs3), (s_datas _ _ Hs2).
  - unfold sources at 1. rewrite Hview. fold (sources m3). by rewrite (c_sources _ _ _ _ Hs3), (s_sources _ _ Hs2).
  - cbn. rewrite Hbi. cbn. rewrite (c_by_id _ _ _ _ Hs3), (s_by_id _ _ Hs2). cbn. by rewrite Hid.
  - cbn. rewrite Hent. cbn. by rewrite Hen3.
  - intros q xs Hq Hax Hxs. unfold bnexts at 1. rewrite Hview. fold (bnexts m3). apply chain_delete; [done|].
    eapply chain_frame; [|exact Hq]. intros x Hx.
    rewrite (c_bnexts _ _ _ _ Hs3), (s_bnexts _ _ Hs2); [done|]. rewrite item_in_cons. intros [->|Hin]; [done|]. by apply (Hxs x).
  - intros b' Hne. cbn. destruct (bool_decide (cs1 ++ cs2 = [])); cbn in Hrel; destruct Hrel as (-> & _); cbn; rewrite Hbh3.
    + by rewrite lookup_delete_ne, lookup_insert_ne, (s_bheap _ _ Hs2) by congruence.
    + by rewrite insert_insert_eq, lookup_insert_ne, (s_bheap _ _ Hs2) by congruence.
  - change (bheap m') with (bheap m5).
    destruct (bool_decide (cs1 ++ cs2 = [])); cbn in Hrel; destruct Hrel as (-> & _); [apply lookup_delete_eq|].
    exists p, blk. split; [done|]. split; [rewrite Hrefs; apply lookup_insert_eq|].
    unfold bnexts at 1. rewrite Hview. fold (bnexts m3). apply chain_delete; [|done].
    apply NoDup_app in Hcn as (_ & H1 & [H2 _]%NoDup_cons). rewrite elem_of_app. intros [Hin|Hin]; [|done]. apply (H1 a Hin). left.
  - cbn. destruct (bool_decide (cs1 ++ cs2 = [])); cbn in Hrel; destruct Hrel as (_ & -> & _); cbn;
      by rewrite (c_by_block _ _ _ _ Hs3), (s_by_block _ _ Hs2).
  - cbn. destruct (bool_decide (cs1 ++ cs2 = [])) eqn:Eb; cbn in Hrel; destruct Hrel as (_ & _ & ->); [|lia].
    apply bool_decide_eq_true in Eb. apply Hlast in Eb. rewrite (bool_decide_eq_false_2 _ Eb) in Hby.
    rewrite (proj2 (Z.leb_le _ _)); lia.
  - assert (K : forall t t' : option (gmap bytes addr), (t' = t \/ exists k, t' = delete k <$> t) -> is_Some t -> is_Some t').
    { intros t t' [->|[k ->]] [x ->]; by eexists. }
    split; cbn.
    + by rewrite Hme; cbn; rewrite (c_max_entries _ _ _ _ Hs3), (s_max_entries _ _ Hs2).
    + by rewrite Hmb; cbn; rewrite (c_max_bytes _ _ _ _ Hs3), (s_max_bytes _ _ Hs2).
    + by rewrite Hna; cbn; rewrite (c_next _ _ _ _ Hs3), (s_next _ _ Hs2).
    + rewrite Hbi. cbn. rewrite (c_by_id _ _ _ _ Hs3), (s_by_id _ _ Hs2). cbn. apply K. right. eauto.
    + destruct (bool_decide (cs1 ++ cs2 = [])); cbn in Hrel; destruct Hrel as (_ & -> & _); cbn;
        rewrite (c_by_block _ _ _ _ Hs3), (s_by_block _ _ Hs2); cbn; apply K; eauto.
Qed.

Lemma bool_decide_not (P : Prop) `{Decision P} (Q : Prop) `{Decision Q} :
  (P <-> ~ Q) -> bool_decide P = negb (bool_decide Q).
Proof.
  intros HPQ. destruct (decide Q) as [HQ|HQ].
  - rewrite (bool_decide_eq_true_2 Q HQ). apply bool_decide_eq_false_2. tauto.
  - rewrite (bool_decide_eq_false_2 Q HQ). apply bool_decide_eq_true_2. tauto.
Qed.

Lemma nodup_middle {A} (l r : list A) a : NoDup (l ++ a :: r) -> (a ∉ l ++ r) /\ NoDup (l ++ r).
Proof. intros H. rewrite <- Permutation_middle in H. by apply NoDup_cons in H. Qed.

(** The blocks behind a removal. *)
Lemma removed_blocks m L1 a it L2 b cs1 cs2 m' :
  rep m (L1 ++ (a, it) :: L2) -> datas m !! a = Some (it_id it, Some b, entry_size (it_id it)) ->
  NoDup (cs1 ++ a :: cs2) ->
  (forall c, c ∈ cs1 ++ a :: cs2 <-> exists id sz, datas m !! c = Some (id, Some b, sz)) ->
  removed m a b it (L1 ++ L2).*1 (cs1 ++ cs2) m' ->
  forall b' blk', bheap m' !! b' = Some blk' ->
    block_ok m' b' blk' /\ exists blk0, bheap m !! b' = Some blk0 /\ b_dsml blk' = b_dsml blk0.
Proof.
  intros H Ha Hn Hcs R b' blk' Hb'. apply nodup_middle in Hn as [Hac Hn].
  assert (Hdat : forall c id sz, c <> a -> datas m' !! c = Some (id, Some b', sz) <-> datas m !! c = Some (id, Some b', sz))
    by (intros c id sz Hc; by rewrite (d_datas _ _ _ _ _ _ _ R), lookup_delete_ne by congruence).
  assert (Hda : datas m' !! a = None) by (rewrite (d_datas _ _ _ _ _ _ _ R); apply lookup_delete_eq).
  destruct (decide (b' = b)) as [->|Hne].
  - pose proof (d_block _ _ _ _ _ _ _ R) as Hblk. destruct (decide (cs1 ++ cs2 = [])) as [Hnil|Hnil].
    { rewrite bool_decide_eq_true_2 in Hblk by done. congruence. }
    rewrite bool_decide_eq_false_2 in Hblk by done. destruct Hblk as (p & blk & Hb & Hbm & Hch).
    assert (blk' = with_refs (b_refs blk - 1) (with_entries p blk)) as -> by congruence. split; [|by exists blk].
    destruct (r_block _ _ H b blk Hb) as (Hlen & Hbb & xs & _ & Hxn & Hrefs & _ & Hxs).
    split; [done|]. split; [done|]. exists (cs1 ++ cs2). split; [done|]. split; [done|].
    split; [|split; [done|]].
    + cbn. rewrite Hrefs. assert (Hp : xs ≡ₚ a :: cs1 ++ cs2).
      { apply NoDup_Permutation; [done|by constructor|]. intros c. rewrite Hxs, <- Hcs, item_in_cons, elem_of_cons. done. }
      apply Permutation_length in Hp. unfold zlen. rewrite Hp. cbn [length]. lia.
    + intros c. split.
      * intros Hc. assert (c <> a) by (by intros ->). assert (Hc' : c ∈ cs1 ++ a :: cs2) by (apply item_in_cons; by right).
        apply Hcs in Hc' as (id & sz & Hc'). exists id, sz. by apply Hdat.
      * intros (id & sz & Hc). assert (c <> a) by (intros ->; by rewrite Hda in Hc). apply Hdat in Hc; [|done].
        assert (Hc' : c ∈ cs1 ++ a :: cs2) by (apply Hcs; eauto). by apply item_in_cons in Hc' as [->|].
  - rewrite (d_bheap _ _ _ _ _ _ _ R) in Hb' by done. split; [|by exists blk'].
    destruct (r_block _ _ H b' blk' Hb') as (Hlen & Hbb & xs & Hch & Hxn & Hrefs & Hxne & Hxs).
    assert (Hax : a ∉ xs) by (intros (id & sz & Hin)%Hxs; congruence).
    split; [done|]. split; [done|]. exists xs. split.
    { apply (d_chains _ _ _ _ _ _ _ R); [done..|]. intros x (id & sz & Hx)%Hxs Hxc.
      assert (Hxc' : x ∈ cs1 ++ a :: cs2) by (apply item_in_cons; by right).
      apply Hcs in Hxc' as (id' & sz' & Hx'). congruence. }
    split_and!; [done..|]. intros c. rewrite Hxs. split; intros (id & sz & Hc); exists id, sz.
    + apply Hdat; [|done]. intros ->. apply Hax, Hxs. eauto.
    + apply Hdat; [|done]. intros ->. by rewrite Hda in Hc.
Qed.

Lemma remove_rep m L1 a it L2 :
  rep m (L1 ++ (a, it) :: L2) ->
  exists m', tool_memory_remove_entry_locked m (Some a) = Some m' /\ rep m' (L1 ++ L2) /\ kept m m'.
Proof.
  intros H. destruct (remove_views _ _ _ _ _ H) as (m' & b & cs1 & cs2 & E & Ha & Hn & Hcs & R).
  exists m'. split; [done|]. split; [|apply R].
  pose proof (removed_blocks _ _ _ _ _ _ _ _ _ H Ha Hn Hcs R) as HB.
  assert (HaL : (a ∉ (L1 ++ L2).*1) /\ NoDup (L1 ++ L2).*1).
  { pose proof (r_nodup _ _ H) as HN. rewrite fmap_app in *. by apply nodup_middle. }
  destruct HaL as [HaL HN].
  destruct (r_item _ _ H a it) as (b0 & blk & Ha0 & _ & Hb & Hd); [apply item_in_cons; by left|].
  assert (b0 = b) as -> by congruence.
  pose proof (rep_block_others _ _ _ _ _ _ _ _ _ H Ha Hb Hd Hn Hcs) as Hlast.
  assert (Hneq : forall x y, (x, y) ∈ L1 ++ L2 -> x <> a).
  { intros x y Hin ->. apply HaL, list_elem_of_fmap. by exists (a, y). }
  assert (Hbk : forall a' it', (a', it') ∈ L1 ++ L2 -> exists b' blk', datas m !! a' = Some (it_id it', Some b', entry_size (it_id it')) /\
            sources m !! a' = Some (it_source it') /\ bheap m' !! b' = Some blk' /\ b_dsml blk' = it_dsml it').
  { intros a' it' Hin. destruct (r_item _ _ H a' it') as (b' & blk' & Hda & Hsa & Hb' & Hdd); [apply item_in_cons; by right|].
    exists b'. destruct (decide (b' = b)) as [->|Hne].
    - assert (blk' = blk) as -> by congruence. pose proof (d_block _ _ _ _ _ _ _ R) as Hblk.
      rewrite bool_decide_eq_false_2 in Hblk.
      + destruct Hblk as (p & blk1 & Hb1 & -> & _). eexists. split_and!; [done..|]. cbn. congruence.
      + intros Hnil. apply Hlast in Hnil. apply Hnil, list_elem_of_fmap. exists it'. split; [congruence|].
        apply list_elem_of_fmap. by exists (a', it').
    - exists blk'. by rewrite (d_bheap _ _ _ _ _ _ _ R). }
  split.
  - apply R.
  - done.
  - intros x. rewrite (d_datas _ _ _ _ _ _ _ R). destruct (decide (x = a)) as [->|Hx].
    + rewrite lookup_delete_eq. split; [by intros []|done].
    + rewrite lookup_delete_ne, (r_dom _ _ H), !fmap_app by done. cbn. rewrite item_in_cons. naive_solver.
  - intros a' it' Hin. destruct (Hbk a' it' Hin) as (b' & blk' & H1 & H2 & H3 & H4). exists b', blk'.
    rewrite (d_datas _ _ _ _ _ _ _ R), (d_sources _ _ _ _ _ _ _ R).
    by rewrite !lookup_delete_ne by (symmetry; by eapply Hneq).
  - intros id x. rewrite (d_by_id _ _ _ _ _ _ _ R), index_delete, lookup_delete_Some, (r_ids _ _ H). split.
    + intros (Hid & it' & [[= -> ->]|Hin]%item_in_cons & <-); [done|]. by exists it'.
    + intros (it' & Hin & <-). split; [|exists it'; split; [apply item_in_cons; by right|done]].
      intros Eid. apply (Hneq _ _ Hin).
      assert (H1 : index_of (by_id m) !! it_id it = Some x) by (apply (r_ids _ _ H); exists it'; split; [apply item_in_cons; by right|done]).
      assert (H2 : index_of (by_id m) !! it_id it = Some a) by (apply (r_ids _ _ H); exists it; split; [apply item_in_cons; by left|done]).
      congruence.
  - intros d b'. rewrite (d_by_block _ _ _ _ _ _ _ R). pose proof (d_block _ _ _ _ _ _ _ R) as Hblk.
    destruct (decide (b' = b)) as [->|Hne].
    + destruct (bool_decide (cs1 ++ cs2 = [])).
      * rewrite index_delete, lookup_delete_Some, (r_blocks _ _ H), Hblk. split; [|by intros (? & ? & _)].
        intros (Hd' & blk' & Hb' & E'). congruence.
      * destruct Hblk as (p & blk1 & Hb1 & -> & _). rewrite (r_blocks _ _ H). split.
        -- intros (blk' & Hb' & <-). eexists. split; [done|]. cbn. congruence.
        -- intros (blk' & [= <-] & <-). by exists blk1.
    + rewrite (d_bheap _ _ _ _ _ _ _ R), <- (r_blocks _ _ H) by done. destruct (bool_decide _); [|done].
      rewrite index_delete, lookup_delete_Some. split; [by intros []|]. intros Hdb. split; [|done].
      intros <-. apply Hne. apply (r_blocks _ _ H) in Hdb as (blk' & Hb' & E').
      eapply rep_block_inj; [exact H|exact Hb'|exact Hb|congruence].
  - intros b' blk' Hb'. by apply HB.
  - rewrite (d_bytes _ _ _ _ _ _ _ R), (r_bytes _ _ H), fmap_app, fmap_cons, lru_bytes_middle. cbn [snd].
    rewrite <- fmap_app. rewrite (bool_decide_not _ _ Hlast). destruct (bool_decide _); cbn; lia.
  - rewrite (d_entries _ _ _ _ _ _ _ R), (r_entries _ _ H). unfold zlen. rewrite !length_app. cbn [length].
    rewrite (proj2 (Z.ltb_lt _ _)); lia.
  - pose proof (r_ok _ _ H) as Hok. rewrite fmap_app in *. cbn in Hok. rewrite <- Permutation_middle in Hok.
    by apply Forall_cons in Hok as [_ Hok].
  - intros x Hx. rewrite (k_next _ _ (d_kept _ _ _ _ _ _ _ R)). apply (r_fresh _ _ H). destruct Hx as [Hx|[blk' Hx]].
    + left. rewrite (d_datas _ _ _ _ _ _ _ R) in Hx. destruct Hx as [v [_ Hv]%lookup_delete_Some]. by exists v.
    + right. apply HB in Hx as (_ & blk0 & Hx & _). by exists blk0.
Qed.
