(* ===== verification/ToolMemoryOps.v ===== *)
(** * ToolMemoryOps: the operations do what the abstract memory does *)

From S2P Require Import Prelude Ctype Json JsonRequest Dsml.
From stdpp Require Import gmap.
From S2P Require Import ToolMemory ToolMemoryFacts ToolMemoryRep.
#[local] Open Scope Z_scope.

(** ** Order and source *)

Lemma rep_same m m' L L' :
  rep m L -> same_but_links m m' -> list_at m' L'.*1 -> L' ≡ₚ L -> rep m' L'.
Proof.
  intros H S Hl Hp. destruct S.
  assert (Hin : forall x, x ∈ L' <-> x ∈ L) by (intros x; by rewrite Hp).
  split.
  - done.
  - rewrite Hp. apply H.
  - intros a. rewrite s_datas, Hp. apply H.
  - intros a it Ha. rewrite s_datas, s_sources, s_bheap. apply (r_item _ _ H). by apply Hin.
  - intros id a. rewrite s_by_id, (r_ids _ _ H). split; intros (it & Ha & E); exists it; (split; [by apply Hin|done]).
  - intros d b. rewrite s_by_block, s_bheap. apply (r_blocks _ _ H).
  - intros b blk. rewrite s_bheap. unfold block_ok. rewrite s_bnexts, s_datas. apply (r_block _ _ H).
  - rewrite s_mbytes, (r_bytes _ _ H). apply lru_bytes_perm. by rewrite Hp.
  - rewrite s_entries, (r_entries _ _ H). unfold zlen. by rewrite Hp.
  - rewrite Hp. apply H.
  - intros a. rewrite s_datas, s_bheap, s_next. apply H.
Qed.

Lemma kept_same m m' : same_but_links m m' -> kept m m'.
Proof. intros []. split; congruence. Qed.

Lemma rep_list m L1 a it L2 : rep m (L1 ++ (a, it) :: L2) ->
  list_at m (L1.*1 ++ a :: L2.*1) /\ NoDup (L1.*1 ++ a :: L2.*1).
Proof.
  intros H. pose proof (r_list _ _ H) as Hl. pose proof (r_nodup _ _ H) as Hn. by rewrite fmap_app in Hl, Hn.
Qed.

Lemma touch_rep m L1 a it L2 :
  rep m (L1 ++ (a, it) :: L2) ->
  exists m', tool_memory_touch m a = Some m' /\ rep m' ((a, it) :: L1 ++ L2) /\ kept m m'.
Proof.
  intros H. destruct (rep_list _ _ _ _ _ H) as [Hl Hn].
  destruct (touch_spec m _ _ _ Hl Hn) as (m' & E & Hl' & Hs). exists m'. split; [done|].
  split; [|by apply kept_same]. eapply rep_same; [exact H|done|cbn; by rewrite fmap_app|].
  by rewrite Permutation_middle.
Qed.

Definition set_item_source (s : tool_memory_source) (it : item) : item := mkItem (it_id it) (it_dsml it) s.

Lemma source_rep m L1 a it L2 s :
  rep m (L1 ++ (a, it) :: L2) ->
  exists m', upd_entry a (with_source s) m = Some m' /\ rep m' (L1 ++ (a, set_item_source s it) :: L2) /\ kept m m'.
Proof.
  intros H. destruct (r_item _ _ H a it) as (b & blk & Ha & Hsrc & Hb & Hd); [apply item_in_cons; by left|].
  pose proof Ha as Ha'. apply view_lookup in Ha' as (en & Hen & _). rewrite (upd_entry_spec _ _ _ _ Hen).
  set (m' := set_heaps _ _ _ m). exists m'. split; [done|]. split; [|by split].
  assert (Hv : forall B (v : tool_memory_entry -> B), v (with_source s en) = v en -> v <$> eheap m' = v <$> eheap m)
    by (intros B v Hv; by eapply view_update).
  assert (Hk : links m' = links m) by by apply Hv. assert (Hda : datas m' = datas m) by by apply Hv.
  assert (Hbn : bnexts m' = bnexts m) by by apply Hv.
  assert (Hso : sources m' = <[a := s]> (sources m)) by (unfold sources; cbn; by rewrite fmap_insert).
  assert (H1 : (L1 ++ (a, set_item_source s it) :: L2).*1 = (L1 ++ (a, it) :: L2).*1) by (by rewrite !fmap_app).
  assert (Hi : it_id <$> (L1 ++ (a, set_item_source s it) :: L2).*2 = it_id <$> (L1 ++ (a, it) :: L2).*2)
    by (by rewrite !fmap_app).
  assert (HaL : a ∉ (L1 ++ L2).*1).
  { pose proof (r_nodup _ _ H) as Hn. rewrite fmap_app in Hn |- *. by apply nodup_middle in Hn as [Hn _]. }
  split.
  - rewrite H1. destruct (r_list _ _ H) as (Hl & Hh & Ht). split_and!; [by rewrite Hk|done|done].
  - rewrite H1. apply H.
  - intros x. rewrite H1, Hda. apply H.
  - intros x it' [[= -> ->]|Hin]%item_in_cons.
    + exists b, blk. rewrite Hda, Hso, lookup_insert_eq. done.
    + destruct (r_item _ _ H x it') as (b' & blk' & Hx); [apply item_in_cons; by right|]. exists b', blk'.
      rewrite Hda, Hso, lookup_insert_ne; [done|]. intros <-. apply HaL, list_elem_of_fmap. by exists (a, it').
  - intros id x. change (by_id m') with (by_id m). rewrite (r_ids _ _ H). split.
    + intros (it' & [[= -> ->]|Hin]%item_in_cons & E); [exists (set_item_source s it)|exists it'];
        (split; [apply item_in_cons; tauto|done]).
    + intros (it' & [[= -> ->]|Hin]%item_in_cons & E); [exists it|exists it']; (split; [apply item_in_cons; tauto|done]).
  - apply (r_blocks _ _ H).
  - intros b' blk' Hb'. pose proof (r_block _ _ H b' blk' Hb') as Hok. unfold block_ok in *. by rewrite Hbn, Hda.
  - change (mbytes m') with (mbytes m). rewrite (r_bytes _ _ H), !fmap_app, !fmap_cons, !lru_bytes_middle. done.
  - change (entries m') with (entries m). rewrite (r_entries _ _ H). unfold zlen. by rewrite !length_app.
  - pose proof (r_ok _ _ H) as Hok. rewrite fmap_app in *. cbn in *. rewrite !Forall_app, !Forall_cons in *. tauto.
  - intros x. rewrite Hda. apply (r_fresh _ _ H).
Qed.

(** ** Pruning *)

Lemma rep_size m L : rep m L -> size (eheap m) = length L.
Proof.
  intros H. rewrite <- (size_dom (D := gset addr) (eheap m)).
  assert (E : dom (eheap m) = (list_to_set L.*1 : gset addr)).
  { apply set_eq. intros a. rewrite elem_of_list_to_set, <- (r_dom _ _ H), elem_of_dom. unfold datas. rewrite lookup_fmap.
    by rewrite fmap_is_Some. }
  rewrite E, size_list_to_set by apply H. by rewrite length_fmap.
Qed.

Lemma rep_tail m L : rep m L ->
  match tail m with
  | None => L = []
  | Some a => exists L0 it, L = L0 ++ [(a, it)]
  end.
Proof.
  intros H. destruct (r_list _ _ H) as (_ & _ & Ht). destruct (destruct_list_last L) as [->|([a it] & L0 & ->)].
  - by rewrite Ht.
  - rewrite Ht, fmap_app, last_or_app. cbn. by exists L0, it.
Qed.

Lemma kept_limits m m' : kept m m' ->
  tool_memory_max_entries m' = tool_memory_max_entries m /\ tool_memory_max_bytes m' = tool_memory_max_bytes m.
Proof. intros [E1 E2 _ _ _]. unfold tool_memory_max_entries, tool_memory_max_bytes. by rewrite E1, E2. Qed.

Lemma take_snoc {A} (l : list A) x : take (length (l ++ [x]) - 1) (l ++ [x]) = l.
Proof. rewrite length_app. cbn. replace (length l + 1 - 1)%nat with (length l) by lia. by apply take_app_length. Qed.

Lemma prune_loop_rep fuel m L :
  rep m L -> (length L < fuel)%nat ->
  exists m' L', prune_loop fuel m = Some m' /\ rep m' L' /\ kept m m' /\
    L'.*2 = lru_prune_n (length L) (tool_memory_max_entries m) (tool_memory_max_bytes m) L.*2.
Proof.
  revert m L. induction fuel as [|fuel IH]; intros m L H Hf; [lia|]. cbn [prune_loop].
  pose proof (rep_tail _ _ H) as Ht.
  assert (Hov : (tool_memory_max_entries m <? entries m) || (tool_memory_max_bytes m <? mbytes m)
                = lru_over (tool_memory_max_entries m) (tool_memory_max_bytes m) L.*2).
  { unfold lru_over. rewrite (r_entries _ _ H), (r_bytes _ _ H). by rewrite zlen_fmap. }
  rewrite Hov. destruct (tail m) as [a|].
  - destruct Ht as (L0 & it & ->). rewrite length_app. cbn [length]. rewrite Nat.add_1_r. cbn [lru_prune_n].
    destruct (lru_over _ _ _) eqn:E.
    2: { exists m, (L0 ++ [(a, it)]). split; [done|]. by split_and!. }
    destruct (remove_rep _ _ _ _ _ H) as (m1 & -> & H1 & K1). cbn [mbind option_bind]. rewrite app_nil_r in H1.
    destruct (IH m1 L0 H1) as (m2 & L2 & -> & H2 & K2 & E2); [rewrite length_app in Hf; cbn in Hf; lia|].
    exists m2, L2. split; [done|]. split; [done|]. split; [by etrans|].
    destruct (kept_limits _ _ K1) as [<- <-]. rewrite E2. rewrite fmap_app. cbn [fmap list_fmap snd]. by rewrite take_snoc.
  - subst L. exists m, []. destruct (lru_over _ _ _); (split; [done|]; by split_and!).
Qed.

Lemma prune_rep m L :
  rep m L ->
  exists m' L', tool_memory_prune_locked m = Some m' /\ rep m' L' /\ kept m m' /\
    L'.*2 = lru_prune (tool_memory_max_entries m) (tool_memory_max_bytes m) L.*2.
Proof.
  intros H. unfold tool_memory_prune_locked, lru_prune. rewrite length_fmap.
  apply prune_loop_rep; [done|]. rewrite (rep_size _ _ H). lia.
Qed.

(** ** Adding an entry *)

(** The block of a text, found or made. *)
Definition block_state (m m1 : tool_memory) (dsml : bytes) (b : addr) (blk : tool_memory_block) (cs : list addr) : Prop :=
  bheap m1 !! b = Some blk /\ b_dsml blk = dsml /\ b_len blk = zlen dsml /\ b_bytes blk = block_size dsml /\
  chain (bnexts m) (b_entries blk) cs /\ NoDup cs /\ b_refs blk = zlen cs /\
  (forall a, a ∈ cs <-> exists id sz, datas m !! a = Some (id, Some b, sz)) /\
  (forall b', b' <> b -> bheap m1 !! b' = bheap m !! b') /\
  (forall d b', index_of (by_block m1) !! d = Some b' <->
     (b' = b /\ d = dsml) \/ (b' <> b /\ exists blk', bheap m !! b' = Some blk' /\ b_dsml blk' = d)) /\
  mbytes m1 = mbytes m + (if bool_decide (cs = []) then block_size dsml else 0) /\
  b < next_addr m1 /\ (cs <> [] -> bheap m !! b = Some blk).

Lemma datas_block m L a id b sz : rep m L -> datas m !! a = Some (id, Some b, sz) ->
  exists it blk, (a, it) ∈ L /\ bheap m !! b = Some blk /\ b_dsml blk = it_dsml it.
Proof.
  intros H Ha. assert (Hin : a ∈ L.*1) by (apply (r_dom _ _ H); by eexists).
  apply list_elem_of_fmap in Hin as ([a' it] & -> & Hin). cbn [fst] in Ha.
  destruct (r_item _ _ H a' it Hin) as (b' & blk & Ha' & _ & Hb & Hd). exists it, blk. by simplify_eq.
Qed.

Lemma block_size_small dsml : zlen dsml < 2 ^ 62 -> u64 (zlen dsml + 1 + sizeof_block) = block_size dsml.
Proof.
  intros Hs. unfold u64, block_size, sizeof_block. pose proof (zlen_nonneg dsml). apply wrap_small. unfold in_u. lia.
Qed.

Lemma get_block_rep m L dsml :
  rep m L -> dsml <> [] -> zlen dsml < 2 ^ 62 -> is_Some (by_block m) -> lru_bytes L.*2 + block_size dsml < 2 ^ 64 ->
  exists m1 b blk cs, tool_memory_get_block_locked m dsml = Some (m1, b) /\ block_state m m1 dsml b blk cs /\
    (cs = [] <-> dsml ∉ it_dsml <$> L.*2) /\
    eheap m1 = eheap m /\ head m1 = head m /\ tail m1 = tail m /\ entries m1 = entries m /\
    by_id m1 = by_id m /\ max_entries m1 = max_entries m /\ max_bytes m1 = max_bytes m /\
    next_addr m <= next_addr m1 /\ is_Some (by_block m1).
Proof.
  intros H Hne Hsm [t Ht] Hfit. unfold tool_memory_get_block_locked, tool_memory_find_block_locked.
  rewrite Ht. assert (Hidx : index_of (by_block m) = t) by by rewrite Ht.
  assert (Hin : forall b blk, bheap m !! b = Some blk -> b_dsml blk = dsml -> dsml ∈ it_dsml <$> L.*2).
  { intros b blk Hb Hd. destruct (r_block _ _ H b blk Hb) as (_ & _ & cs & _ & _ & _ & Hcs & Hm).
    destruct cs as [|c cs]; [done|]. destruct (proj1 (Hm c)) as (id & sz & Hc); [left|].
    destruct (datas_block _ _ _ _ _ _ H Hc) as (it & blk' & Hit & Hb' & Hd'). simplify_eq.
    apply list_elem_of_fmap. exists it. split; [done|]. apply list_elem_of_fmap. by exists (c, it). }
  destruct dsml as [|x dsml0]; [done|]. set (dsml := x :: dsml0) in *.
  destruct (t !! dsml) as [b|] eqn:Eb.
  - rewrite <- Hidx in Eb. apply (r_blocks _ _ H) in Eb as (blk & Hb & Hd).
    destruct (r_block _ _ H b blk Hb) as (Hlen & Hbb & cs & Hch & Hn & Hrefs & Hcs & Hm).
    exists m, b, blk, cs. split; [done|]. split; [|split; [|split_and!; done]].
    + unfold block_state. rewrite Hd in Hlen, Hbb. split_and!; try done.
      * intros d b'. rewrite (r_blocks _ _ H). split.
        -- intros (blk' & Hb' & Hd'). destruct (decide (b' = b)) as [->|]; [left; split; [done|]; congruence|right; eauto].
        -- intros [[-> ->]|[_ Hx]]; [by exists blk|done].
      * rewrite bool_decide_eq_false_2 by done. lia.
      * apply (r_fresh _ _ H). right. by exists blk.
    + split; [done|]. intros Hout. exfalso. apply Hout. by eapply Hin.
  - unfold rax_insert. cbn [mbind option_bind]. rewrite Eb.
    assert (Hnb : forall b blk, bheap m !! b = Some blk -> b_dsml blk <> dsml).
    { intros b blk Hb Hd. assert (E : index_of (by_block m) !! dsml = Some b) by (apply (r_blocks _ _ H); eauto).
      rewrite Hidx in E. congruence. }
    assert (Hfresh : bheap m !! next_addr m = None).
    { destruct (bheap m !! next_addr m) eqn:E; [|done]. exfalso.
      assert (next_addr m < next_addr m) by (apply (r_fresh _ _ H); right; by eexists). lia. }
    rewrite (block_size_small _ Hsm). eexists _, _, _, []. split; [done|]. cbn [head tail entries by_id max_entries max_bytes next_addr eheap
      set_bytes set_counts set_index set_heaps by_block mbytes].
    split; [|split; [|split_and!; try done; lia]].
    + unfold block_state. cbn [bheap set_bytes set_counts set_index set_heaps by_block mbytes next_addr].
      split_and!; [apply lookup_insert_eq|done|done|done|by cbn|by apply NoDup_nil_2|done| | | | |lia|done].
      * intros a. split; [by intros ?%not_elem_of_nil|]. intros (id & sz & Ha).
        destruct (datas_block _ _ _ _ _ _ H Ha) as (it & blk & _ & Hb & _). congruence.
      * intros b' Hb'. by rewrite lookup_insert_ne.
      * intros d b'. unfold index_of. cbn [default]. cbv beta delta [from_option id]. rewrite lookup_insert_Some. split.
        -- intros [[<- <-]|[Hd Hb']]; [by left|]. right. rewrite <- Hidx in Hb'. apply (r_blocks _ _ H) in Hb' as (blk' & Hb' & Hd').
           split; [congruence|eauto].
        -- intros [[-> ->]|[Hb' (blk' & Hbl & Hd)]]; [by left|right]. split; [intros <-; by eapply Hnb|].
           rewrite <- Hidx. apply (r_blocks _ _ H). eauto.
      * rewrite bool_decide_eq_true_2 by done. cbn [b_bytes]. unfold u64. rewrite wrap_small; [done|].
        unfold in_u. rewrite (r_bytes _ _ H). pose proof (lru_bytes_nonneg L.*2).
        pose proof (zlen_nonneg dsml). unfold block_size, sizeof_block in *. lia.
    + split; [|done]. intros _ Hout. apply list_elem_of_fmap in Hout as (it & E & Hout).
      apply list_elem_of_fmap in Hout as ([a it'] & -> & Hout). cbn [snd] in E.
      destruct (r_item _ _ H a it' Hout) as (b & blk & _ & _ & Hb & Hd). apply (Hnb b blk Hb). congruence.
Qed.

Lemma entry_size_small id : zlen id < 2 ^ 62 -> u64 (zlen id + 1 + sizeof_entry) = entry_size id.
Proof.
  intros Hs. unfold u64, entry_size, sizeof_entry. pose proof (zlen_nonneg id). apply wrap_small. unfold in_u. lia.
Qed.

(** The heap with the new entry, before it is linked. *)
Lemma put_entry_views m1 id b source blk m2 e :
  bheap m1 !! b = Some blk -> put_entry m1 id b source = Some (m2, e) -> eheap m1 !! next_addr m1 = None ->
  zlen id < 2 ^ 62 ->
  e = next_addr m1 /\ links m2 = <[e := (None, None)]> (links m1) /\
  datas m2 = <[e := (id, Some b, entry_size id)]> (datas m1) /\ sources m2 = <[e := source]> (sources m1) /\
  bnexts m2 = <[e := b_entries blk]> (bnexts m1) /\
  bheap m2 = <[b := with_refs (b_refs blk + 1) (with_entries (Some e) blk)]> (bheap m1) /\
  next_addr m2 = e + 1 /\ head m2 = head m1 /\ tail m2 = tail m1 /\ entries m2 = entries m1 /\ mbytes m2 = mbytes m1 /\
  by_id m2 = by_id m1 /\ by_block m2 = by_block m1 /\ max_entries m2 = max_entries m1 /\ max_bytes m2 = max_bytes m1 /\
  is_Some (eheap m2 !! e).
Proof.
  intros Hb Hp Hfr Hid. unfold put_entry in Hp. rewrite Hb in Hp. cbn [mbind option_bind] in Hp. injection Hp as <- <-.
  rewrite (entry_size_small _ Hid). split_and!; try done;
    try (unfold links, datas, sources, bnexts; cbn; by rewrite fmap_insert).
  cbn. rewrite lookup_insert_eq. by eexists.
Qed.

Lemma fresh_addr m L a : rep m L -> next_addr m <= a -> eheap m !! a = None /\ bheap m !! a = None.
Proof.
  intros H Ha. split.
  - destruct (eheap m !! a) eqn:E; [|done]. exfalso.
    assert (a < next_addr m); [|lia]. apply (r_fresh _ _ H). left. unfold datas. rewrite lookup_fmap, E. by eexists.
  - destruct (bheap m !! a) eqn:E; [|done]. exfalso.
    assert (a < next_addr m); [|lia]. apply (r_fresh _ _ H). right. by eexists.
Qed.

Lemma view_none {B} (v : tool_memory_entry -> B) (h : gmap addr tool_memory_entry) a : h !! a = None -> (v <$> h) !! a = None.
Proof. intros E. by rewrite lookup_fmap, E. Qed.

(** The pieces of the new state. *)
Record pushed (m m' : tool_memory) (e b : addr) (id dsml : bytes) (source : tool_memory_source)
  (l : list addr) (blk : tool_memory_block) (cs : list addr) : Prop := mkPushed {
  p_fresh : eheap m !! e = None;
  p_list : list_at m' (e :: l);
  p_datas : datas m' = <[e := (id, Some b, entry_size id)]> (datas m);
  p_sources : sources m' = <[e := source]> (sources m);
  p_bnexts : bnexts m' = <[e := b_entries blk]> (bnexts m);
  p_block : bheap m' !! b = Some (with_refs (b_refs blk + 1) (with_entries (Some e) blk));
  p_bheap : forall b', b' <> b -> bheap m' !! b' = bheap m !! b';
  p_index : exists t, by_id m = Some t /\ by_id m' = Some (<[id := e]> t);
  p_blocks : forall d b', index_of (by_block m') !! d = Some b' <->
     (b' = b /\ d = dsml) \/ (b' <> b /\ exists blk', bheap m !! b' = Some blk' /\ b_dsml blk' = d);
  p_some : is_Some (by_block m');
  p_entries : entries m' = entries m + 1;
  p_bytes : mbytes m' = mbytes m + (if bool_decide (cs = []) then block_size dsml else 0) + entry_size id;
  p_max : max_entries m' = max_entries m /\ max_bytes m' = max_bytes m;
  p_next : next_addr m <= e < next_addr m' /\ b < next_addr m'
}.

Lemma put_new_views m L id dsml source t :
  rep m L -> by_id m = Some t -> is_Some (by_block m) -> item_ok (mkItem id dsml source) -> t !! id = None ->
  lru_bytes L.*2 + block_size dsml + entry_size id < 2 ^ 64 ->
  exists m' m1 b blk cs e, put_new m id dsml source = Some m' /\
    block_state m m1 dsml b blk cs /\ (cs = [] <-> dsml ∉ it_dsml <$> L.*2) /\
    pushed m m' e b id dsml source L.*1 blk cs.
Proof.
  intros H Hti Htb (Hid & Hds & Hsi & Hsd) Hno Hfit. cbn [it_id it_dsml] in *.
  pose proof (zlen_nonneg id). pose proof (zlen_nonneg dsml). pose proof (lru_bytes_nonneg L.*2).
  unfold entry_size, block_size, sizeof_entry, sizeof_block in Hfit.
  destruct (get_block_rep m L dsml H Hds Hsd Htb) as (m1 & b & blk & cs & E1 & B & Hcs & Heh & Hhd & Htl & Hen & Hbi & Hme & Hmb & Hnx & Hbb).
  { unfold block_size, sizeof_block. lia. }
  pose proof B as (Hb & _ & _ & _ & _ & _ & _ & _ & Hoth & Hidx & Hby & Hbn & _).
  destruct (fresh_addr m L (next_addr m1) H Hnx) as [Hfe _]. rewrite <- Heh in Hfe.
  unfold put_new. rewrite E1. cbn [mbind option_bind].
  destruct (put_entry m1 id b source) as [[m2 e]|] eqn:E2; [|unfold put_entry in E2; by rewrite Hb in E2].
  cbn [mbind option_bind].
  destruct (put_entry_views _ _ _ _ _ _ _ Hb E2 Hfe Hsi) as (He & Hk & Hd & Hs & Hbx & Hbh & Hn2 & Hh2 & Ht2 & En2 & By2 & Bi2 & Bb2 & Me2 & Mb2 & [en Hen2]).
  rewrite Bi2, Hbi, Hti. unfold rax_insert. cbn [mbind option_bind]. rewrite Hno. cbn [mbind option_bind]. set (m3 := set_index (Some (<[id := e]> t)) (by_block m2) m2).
  assert (Hel : e ∉ L.*1).
  { intros Hin. apply (r_dom _ _ H) in Hin. unfold datas in Hin. rewrite lookup_fmap, <- Heh, He, Hfe in Hin. by destruct Hin. }
  assert (Hl3 : list_at m3 L.*1).
  { destruct (r_list _ _ H) as (Hl & Hh & Ht). split_and!; cbn; [|congruence|congruence]. fold (links m2). rewrite Hk.
    apply dll_insert; [done|]. unfold links in *. by rewrite Heh. }
  destruct (link_head_spec m3 L.*1 e en Hl3) as (m4 & -> & Hl4 & S4); [apply NoDup_cons; split; [done|apply H]|done|].
  cbn [mbind option_bind]. destruct S4.
  eexists _, m1, b, blk, cs, e. split; [done|]. split; [done|]. split; [done|].
  assert (Hfe' : eheap m !! e = None) by (rewrite <- Heh; by rewrite He).
  split.
  - done.
  - destruct Hl4 as (? & ? & ?). by split_and!.
  - change (datas (set_counts _ _ _ m4)) with (datas m4). rewrite s_datas. change (datas m3) with (datas m2). rewrite Hd. unfold datas. by rewrite Heh.
  - change (sources (set_counts _ _ _ m4)) with (sources m4). rewrite s_sources. change (sources m3) with (sources m2). rewrite Hs. unfold sources. by rewrite Heh.
  - change (bnexts (set_counts _ _ _ m4)) with (bnexts m4). rewrite s_bnexts. change (bnexts m3) with (bnexts m2). rewrite Hbx. unfold bnexts. by rewrite Heh.
  - cbn. rewrite s_bheap. cbn. rewrite Hbh. apply lookup_insert_eq.
  - intros b' Hb'. cbn. rewrite s_bheap. cbn. rewrite Hbh, lookup_insert_ne by congruence. by apply Hoth.
  - exists t. split; [done|]. cbn. by rewrite s_by_id.
  - intros d b'. cbn. rewrite s_by_block. cbn. rewrite Bb2. apply Hidx.
  - cbn. rewrite s_by_block. cbn. by rewrite Bb2.
  - cbn. rewrite s_entries. cbn. congruence.
  - cbn. rewrite s_mbytes. cbn. rewrite By2, Hby, (entry_size_small _ Hsi), (r_bytes _ _ H). unfold u64.
    rewrite wrap_small; [done|]. unfold in_u, entry_size, block_size, sizeof_entry, sizeof_block. destruct (bool_decide _); lia.
  - cbn. rewrite s_max_entries, s_max_bytes. cbn. split; congruence.
  - cbn. rewrite s_next. cbn. rewrite Hn2. lia.
Qed.

Lemma push_rep m L id dsml source t :
  rep m L -> by_id m = Some t -> is_Some (by_block m) -> item_ok (mkItem id dsml source) -> t !! id = None ->
  lru_bytes L.*2 + block_size dsml + entry_size id < 2 ^ 64 ->
  exists m' e, put_new m id dsml source = Some m' /\ rep m' ((e, mkItem id dsml source) :: L) /\
    max_entries m' = max_entries m /\ max_bytes m' = max_bytes m /\ is_Some (by_id m') /\ is_Some (by_block m').
Proof.
  intros H Hti Htb Hok Hno Hfit.
  destruct (put_new_views _ _ _ _ _ _ H Hti Htb Hok Hno Hfit) as (m' & m1 & b & blk & cs & e & E & B & Hcs & P).
  exists m', e. split; [done|].
  destruct B as (Hb & Hbd & Hbl & Hbb & Hch & Hcn & Hrefs & Hm & Hoth & _ & _ & _ & Hwas).
  pose proof (p_max _ _ _ _ _ _ _ _ _ _ P) as [Hmx Hmy]. destruct (p_index _ _ _ _ _ _ _ _ _ _ P) as (t' & Ht' & Hti').
  assert (t' = t) as -> by congruence. split; [|split_and!; [done|done|by eexists|apply P]].
  assert (Hde : datas m !! e = None) by (apply view_none, P).
  assert (Hel : e ∉ L.*1) by (intros Hin%(r_dom _ _ H); rewrite Hde in Hin; by destruct Hin).
  assert (Hec : e ∉ cs) by (intros (id' & sz & Hc)%Hm; congruence).
  assert (Hne : forall a it, (a, it) ∈ L -> a <> e).
  { intros a it Hin ->. apply Hel, list_elem_of_fmap. by exists (e, it). }
  assert (Hold : forall b' blk', b' <> b -> bheap m' !! b' = Some blk' -> bheap m !! b' = Some blk')
    by (intros b' blk' Hb' E'; by rewrite <- (p_bheap _ _ _ _ _ _ _ _ _ _ P)).
  assert (Hnt : forall a, index_of (by_id m) !! id <> Some a) by (intros a; unfold index_of; rewrite Hti; cbn; congruence).
  split.
  - apply P.
  - cbn. apply NoDup_cons. split; [done|apply H].
  - intros a. rewrite (p_datas _ _ _ _ _ _ _ _ _ _ P). cbn. rewrite lookup_insert_is_Some', (r_dom _ _ H), elem_of_cons.
    intuition congruence.
  - intros a it [[= -> ->]|Hin]%elem_of_cons; rewrite (p_datas _ _ _ _ _ _ _ _ _ _ P), (p_sources _ _ _ _ _ _ _ _ _ _ P).
    + rewrite !lookup_insert_eq. do 2 eexists. split_and!; [done|done|apply P|done].
    + rewrite !lookup_insert_ne by (apply not_eq_sym; by eapply Hne).
      destruct (r_item _ _ H a it Hin) as (b' & blk' & H1 & H2 & H3 & H4). exists b'.
      destruct (decide (b' = b)) as [->|Hb']; [|exists blk'; by rewrite (p_bheap _ _ _ _ _ _ _ _ _ _ P)].
      assert (Hac : a ∈ cs) by (apply Hm; eauto).
      assert (Hcne : cs <> []) by (intros ->; by apply not_elem_of_nil in Hac).
      assert (blk' = blk) as -> by (specialize (Hwas Hcne); congruence).
      eexists. split_and!; [done|done|apply P|done].
  - assert (Hids : forall i a, t !! i = Some a <-> exists it, (a, it) ∈ L /\ it_id it = i)
      by (intros i a; rewrite <- (r_ids _ _ H), Hti; done).
    intros id' a. rewrite Hti'. change (index_of (Some ?x)) with x. rewrite lookup_insert_Some. split.
    + intros [[<- <-]|[Hi Ha]]; [eexists; split; [left|done]|]. apply Hids in Ha as (it & Hin & <-).
      exists it. split; [by right|done].
    + intros (it & [[= -> ->]|Hin]%elem_of_cons & <-); [by left|]. right.
      assert (Ha : t !! it_id it = Some a) by (apply Hids; eauto). split; [|done]. intros E'. congruence.
  - intros d b'. rewrite (p_blocks _ _ _ _ _ _ _ _ _ _ P). split.
    + intros [[-> ->]|(Hb' & blk' & Hbl' & Hd')]; [eexists; split; [apply P|done]|].
      exists blk'. by rewrite (p_bheap _ _ _ _ _ _ _ _ _ _ P).
    + intros (blk' & Hbl' & Hd'). destruct (decide (b' = b)) as [->|Hb'].
      * left. split; [done|]. pose proof (p_block _ _ _ _ _ _ _ _ _ _ P). simplify_eq. done.
      * right. split; [done|]. exists blk'. by rewrite <- (p_bheap _ _ _ _ _ _ _ _ _ _ P).
  - intros b' blk' Hb'. unfold block_ok. rewrite (p_bnexts _ _ _ _ _ _ _ _ _ _ P), (p_datas _ _ _ _ _ _ _ _ _ _ P).
    destruct (decide (b' = b)) as [->|Hnb].
    + pose proof (p_block _ _ _ _ _ _ _ _ _ _ P). simplify_eq. cbn. split; [congruence|]. split; [congruence|].
      exists (e :: cs). cbn [chain]. split; [|split_and!].
      * split; [done|]. exists (b_entries blk). split; [apply lookup_insert_eq|]. by apply chain_insert.
      * by apply NoDup_cons.
      * rewrite Hrefs. unfold zlen. cbn [length]. lia.
      * done.
      * intros a. rewrite elem_of_cons. destruct (decide (a = e)) as [->|Ha].
        -- rewrite lookup_insert_eq. split; [eauto|by left].
        -- rewrite lookup_insert_ne by congruence. rewrite Hm. intuition congruence.
    + destruct (r_block _ _ H b' blk' (Hold _ _ Hnb Hb')) as (H1 & H2 & xs & Hx1 & Hx2 & Hx3 & Hx4 & Hx5).
      assert (Hex : e ∉ xs) by (intros (id' & sz & Hc)%Hx5; congruence).
      split; [done|]. split; [done|]. exists xs. split_and!; [by apply chain_insert|done..|].
      intros a. rewrite Hx5. destruct (decide (a = e)) as [->|Ha].
      * rewrite lookup_insert_eq, Hde. split; [by intros (? & ? & ?)|intros (? & ? & ?); congruence].
      * by rewrite lookup_insert_ne by congruence.
  - rewrite (p_bytes _ _ _ _ _ _ _ _ _ _ P), (r_bytes _ _ H). cbn [fmap list_fmap snd lru_bytes it_id it_dsml].
    rewrite (bool_decide_not _ _ Hcs). destruct (bool_decide _); cbn; lia.
  - rewrite (p_entries _ _ _ _ _ _ _ _ _ _ P), (r_entries _ _ H). unfold zlen. cbn [length]. lia.
  - cbn. constructor; [done|apply H].
  - pose proof (p_next _ _ _ _ _ _ _ _ _ _ P) as [Hnx Hny]. intros a [[v Ha]|[blk' Ha]].
    + rewrite (p_datas _ _ _ _ _ _ _ _ _ _ P) in Ha. apply lookup_insert_Some in Ha as [[<- _]|[_ Ha]]; [lia|].
      assert (a < next_addr m); [|lia]. apply (r_fresh _ _ H). left. by exists v.
    + destruct (decide (a = b)) as [->|Hab]; [lia|].
      assert (a < next_addr m); [|lia]. apply (r_fresh _ _ H). right. exists blk'. by apply Hold.
Qed.

(** ** Finding by id *)

Lemma lru_absent id l : (forall it, it ∈ l -> it_id it <> id) -> lru_find id l = None /\ lru_remove id l = l.
Proof.
  intros H. unfold lru_find, lru_remove. induction l as [|it l IH]; [done|]. cbn.
  assert (E : bytes_eqb (it_id it) id = false).
  { unfold bytes_eqb. apply bool_decide_eq_false_2, H. left. }
  rewrite E. cbn. destruct IH as [-> ->]; [|done]. intros it' Hin. apply H. by right.
Qed.

Lemma find_app_none {A} (f : A -> bool) l r : List.find f l = None -> List.find f (l ++ r) = List.find f r.
Proof. induction l as [|x l IH]; cbn; [done|]. by destruct (f x). Qed.

Lemma lru_middle id l1 it l2 :
  it_id it = id -> (forall it', it' ∈ l1 ++ l2 -> it_id it' <> id) ->
  lru_find id (l1 ++ it :: l2) = Some it /\ lru_remove id (l1 ++ it :: l2) = l1 ++ l2.
Proof.
  intros Hid H. assert (E : bytes_eqb (it_id it) id = true) by by apply bytes_eqb_eq.
  destruct (lru_absent id l1) as [F1 R1]; [intros it' Hin; apply H, elem_of_app; by left|].
  destruct (lru_absent id l2) as [F2 R2]; [intros it' Hin; apply H, elem_of_app; by right|].
  unfold lru_find, lru_remove in *. rewrite find_app_none, List.filter_app, R1 by done. cbn. by rewrite E, R2.
Qed.

Lemma rep_split m L a it : rep m L -> (a, it) ∈ L ->
  exists L1 L2, L = L1 ++ (a, it) :: L2 /\
    lru_find (it_id it) L.*2 = Some it /\ lru_remove (it_id it) L.*2 = (L1 ++ L2).*2.
Proof.
  intros H Hin. pose proof Hin as Hin'. apply list_elem_of_split in Hin' as (L1 & L2 & ->).
  exists L1, L2. split; [done|]. rewrite !fmap_app, fmap_cons. cbn [snd]. apply lru_middle; [done|].
  rewrite <- fmap_app. intros it' Hx E. apply list_elem_of_fmap in Hx as ([a' it''] & -> & Hx). cbn [snd] in E.
  assert (H1 : index_of (by_id m) !! it_id it = Some a) by (apply (r_ids _ _ H); eauto).
  assert (H2 : index_of (by_id m) !! it_id it = Some a').
  { apply (r_ids _ _ H). exists it''. split; [apply item_in_cons; by right|done]. }
  assert (a' = a) as -> by congruence. assert (HaL : a ∉ (L1 ++ L2).*1).
  { pose proof (r_nodup _ _ H) as Hn. rewrite fmap_app in Hn |- *. by apply nodup_middle in Hn as [Hn _]. }
  apply HaL, list_elem_of_fmap. by exists (a, it'').
Qed.

Lemma rep_absent m L id : rep m L -> tool_memory_find_entry_locked m id = None -> id <> [] ->
  (forall it, it ∈ L.*2 -> it_id it <> id).
Proof.
  intros H Hf Hid it Hin E. apply list_elem_of_fmap in Hin as ([a it'] & -> & Hin). cbn [snd] in E.
  assert (Hs : tool_memory_find_entry_locked m id = Some a) by (apply (rep_find _ _ _ _ H Hid); eauto). congruence.
Qed.

(** ** Storing *)

(** The empty memory. *)
Lemma rep_nil m :
  head m = None -> tail m = None -> (forall a, datas m !! a = None) -> (forall b, bheap m !! b = None) ->
  index_of (by_id m) = ∅ -> index_of (by_block m) = ∅ -> mbytes m = 0 -> entries m = 0 -> rep m [].
Proof.
  intros Hh Ht Hd Hb Hi Hk Hby He. split; try done.
  - by constructor.
  - intros a. rewrite Hd. split; [by intros []|by intros ?%not_elem_of_nil].
  - intros a it Hin. by apply not_elem_of_nil in Hin.
  - intros id a. rewrite Hi, lookup_empty. split; [done|]. intros (it & Hin & _). by apply not_elem_of_nil in Hin.
  - intros d b. rewrite Hk, lookup_empty. split; [done|]. intros (blk & E & _). by rewrite Hb in E.
  - intros b blk E. by rewrite Hb in E.
  - intros a Ha. rewrite Hd, Hb in Ha. by destruct Ha as [[]|[]].
Qed.

Lemma rep_nil_inv m : rep m [] ->
  head m = None /\ tail m = None /\ (forall a, datas m !! a = None) /\ (forall b, bheap m !! b = None) /\
  mbytes m = 0 /\ entries m = 0.
Proof.
  intros H. destruct (r_list _ _ H) as (_ & Hh & Ht).
  assert (Hd : forall a, datas m !! a = None).
  { intros a. destruct (datas m !! a) eqn:E; [|done]. exfalso.
    assert (Hin : a ∈ ([] : list (addr * item)).*1) by (apply (r_dom _ _ H); by eexists). by apply not_elem_of_nil in Hin. }
  split_and!; try done; [|apply H..].
  intros b. destruct (bheap m !! b) as [blk|] eqn:E; [|done]. exfalso.
  destruct (r_block _ _ H b blk E) as (_ & _ & cs & _ & _ & _ & Hne & Hm). destruct cs as [|x cs]; [done|].
  destruct (proj1 (Hm x)) as (id & sz & Hx); [left|]. by rewrite Hd in Hx.
Qed.

Lemma init_rep m L : rep m L ->
  let m' := tool_memory_init_locked m in
  rep m' L /\ (exists t, by_id m' = Some t) /\ is_Some (by_block m') /\
  max_entries m' = max_entries m /\ max_bytes m' = max_bytes m.
Proof.
  intros H m'. assert (Hc : by_id m = None \/ by_block m = None \/ (is_Some (by_id m) /\ is_Some (by_block m)))
    by (destruct (by_id m), (by_block m); eauto).
  assert (Hnil : by_id m = None \/ by_block m = None -> L = []).
  { intros Hn. destruct L as [|[a it] L]; [done|]. exfalso. destruct Hn as [Hn|Hn].
    - assert (E : index_of (by_id m) !! it_id it = Some a) by (apply (r_ids _ _ H); exists it; split; [left|done]).
      apply is_some_index in E. rewrite Hn in E. by destruct E.
    - destruct (r_item _ _ H a it) as (b & blk & _ & _ & Hb & _); [left|].
      assert (E : index_of (by_block m) !! b_dsml blk = Some b) by (apply (r_blocks _ _ H); eauto).
      apply is_some_index in E. rewrite Hn in E. by destruct E. }
  subst m'. unfold tool_memory_init_locked. destruct Hc as [Hc|[Hc|[[t Ht] [u Hu]]]].
  3: { rewrite Ht, Hu. split_and!; try done; by eexists. }
  all: specialize (Hnil ltac:(auto)); subst L; destruct (rep_nil_inv _ H) as (Hh & Ht & Hd & Hb & Hby & He).
  all: destruct (by_id m), (by_block m); try done.
  all: split; [by apply rep_nil|split_and!; try done; by eexists].
Qed.

Lemma lru_bytes_remove l1 it l2 : lru_bytes (l1 ++ l2) <= lru_bytes (l1 ++ it :: l2).
Proof.
  rewrite lru_bytes_middle. unfold entry_size, block_size, sizeof_entry, sizeof_block.
  pose proof (zlen_nonneg (it_id it)). pose proof (zlen_nonneg (it_dsml it)). destruct (bool_decide _); lia.
Qed.

(** A new entry and the pruning. *)
Lemma put_new_rep m L id dsml source t maxe maxb :
  rep m L -> by_id m = Some t -> is_Some (by_block m) -> item_ok (mkItem id dsml source) -> t !! id = None ->
  lru_bytes L.*2 <= 2 ^ 62 -> tool_memory_max_entries m = maxe -> tool_memory_max_bytes m = maxb ->
  exists m' L', (m ← put_new m id dsml source; tool_memory_prune_locked m) = Some m' /\ rep m' L' /\
    L'.*2 = lru_prune maxe maxb (mkItem id dsml source :: L.*2) /\
    max_entries m' = max_entries m /\ max_bytes m' = max_bytes m.
Proof.
  intros H Ht Hb Hok Hno Hfit <- <-. pose proof Hok as (_ & _ & Hs1 & Hs2). cbn in Hs1, Hs2.
  destruct (push_rep _ _ _ _ _ _ H Ht Hb Hok Hno) as (m1 & e & -> & H1 & Hme & Hmb & _).
  { unfold block_size, entry_size, sizeof_block, sizeof_entry. lia. }
  cbn [mbind option_bind]. destruct (prune_rep _ _ H1) as (m2 & L2 & -> & H2 & K2 & E2).
  exists m2, L2. split; [done|]. split; [done|]. split.
  - rewrite E2. unfold tool_memory_max_entries, tool_memory_max_bytes. by rewrite Hme, Hmb.
  - destruct K2. split; congruence.
Qed.

Lemma put_rep m L id dsml source :
  rep m L -> item_ok (mkItem id dsml source) -> lru_bytes L.*2 <= 2 ^ 62 ->
  exists m' L', tool_memory_put_locked m id dsml source = Some m' /\ rep m' L' /\
    L'.*2 = lru_put (tool_memory_max_entries m) (tool_memory_max_bytes m) L.*2 id dsml source /\
    max_entries m' = max_entries m /\ max_bytes m' = max_bytes m.
Proof.
  intros H0 Hok Hfit. pose proof Hok as (Hid & Hds & _). cbn in Hid, Hds.
  destruct (init_rep _ _ H0) as (H & [t Ht] & Hb & Hme & Hmb). unfold tool_memory_put_locked.
  destruct id as [|i0 id0]; [done|]. destruct dsml as [|d0 dsml0]; [done|].
  set (id := i0 :: id0) in *. set (dsml := d0 :: dsml0) in *. set (m1 := tool_memory_init_locked m) in *. cbv zeta.
  assert (Hlim : tool_memory_max_entries m = tool_memory_max_entries m1 /\ tool_memory_max_bytes m = tool_memory_max_bytes m1)
    by (unfold tool_memory_max_entries, tool_memory_max_bytes; by rewrite Hme, Hmb).
  destruct Hlim as [-> ->]. rewrite <- Hme, <- Hmb. unfold lru_put, put_source.
  destruct (tool_memory_find_entry_locked m1 id) as [o|] eqn:Ef.
  - pose proof (proj1 (rep_find _ _ _ _ H Hid) Ef) as (it & Hin & Hit).
    destruct (r_item _ _ H o it Hin) as (b & blk & Ho & _ & Hbl & Hd).
    apply view_lookup in Ho as (en & Hen & Hv). injection Hv as Hv1 Hv2 Hv3. rewrite Hen. cbn [mbind option_bind].
    rewrite Hv2, Hbl. cbn [mbind option_bind]. rewrite Hd.
    destruct (rep_split _ _ _ _ H Hin) as (L1 & L2 & -> & Hfi & Hre). rewrite Hit in Hfi, Hre. rewrite Hfi, Hre.
    unfold bytes_eqb. destruct (bool_decide (it_dsml it = dsml)) eqn:Es.
    + apply bool_decide_eq_true in Es.
      assert (Hsrc : exists m2, (if is_ram source then upd_entry o (with_source TOOL_MEMORY_RAM) m1 else Some m1) = Some m2 /\
        rep m2 (L1 ++ (o, mkItem id dsml (if is_ram source then TOOL_MEMORY_RAM else it_source it)) :: L2) /\ kept m1 m2).
      { destruct (is_ram source).
        - destruct (source_rep _ _ _ _ _ TOOL_MEMORY_RAM H) as (m2 & E & H2 & K). exists m2. split; [done|]. split; [|done].
          unfold set_item_source in H2. by rewrite Hit, Es in H2.
        - exists m1. split; [done|]. split; [|done]. rewrite <- Hit, <- Es. by destruct it. }
      destruct Hsrc as (m2 & -> & H2 & K2). cbn [mbind option_bind].
      destruct (touch_rep _ _ _ _ _ H2) as (m3 & -> & H3 & K3). cbn [mbind option_bind].
      destruct (prune_rep _ _ H3) as (m4 & L4 & -> & H4 & K4 & E4). exists m4, L4. split; [done|]. split; [done|].
      assert (K : kept m1 m3) by (by etrans). destruct (kept_limits _ _ K) as [<- <-]. split; [exact E4|].
      destruct K, K4. split; congruence.
    + destruct (remove_rep _ _ _ _ _ H) as (m2 & -> & H2 & K2). cbn [mbind option_bind].
      destruct (k_by_id _ _ K2 (ex_intro _ t Ht)) as [t2 Ht2].
      destruct (put_new_rep m2 (L1 ++ L2) id dsml source t2 (tool_memory_max_entries m2) (tool_memory_max_bytes m2) H2 Ht2 (k_by_block _ _ K2 Hb) Hok) as (m3 & L3 & E3 & H3 & El & E1 & E2).
      * destruct (t2 !! id) as [x|] eqn:Ex; [|done]. exfalso.
        assert (Hx : index_of (by_id m2) !! id = Some x) by by rewrite Ht2.
        apply (r_ids _ _ H2) in Hx as (it' & Hin' & Hid').
        assert (Hf2 : tool_memory_find_entry_locked m1 id = Some x).
        { apply (rep_find _ _ _ _ H Hid). exists it'. split; [apply item_in_cons; by right|done]. }
        assert (x = o) as -> by congruence. pose proof (r_nodup _ _ H) as Hn. rewrite fmap_app in Hn.
        apply nodup_middle in Hn as [Hn _]. apply Hn. change (o ∈ L1.*1 ++ L2.*1). rewrite <- fmap_app.
        apply list_elem_of_fmap. by exists (o, it').
      * rewrite fmap_app. etrans; [apply lru_bytes_remove|]. rewrite fmap_app, fmap_cons in Hfit. exact Hfit.
      * reflexivity.
      * reflexivity.
      * destruct (kept_limits _ _ K2) as [Ke1 Ke2]. rewrite Ke1, Ke2 in El. exists m3, L3.
        split; [exact E3|]. split; [done|]. split; [exact El|]. destruct K2. split; congruence.
  - destruct (lru_absent id L.*2) as [-> ->]; [by eapply rep_absent|]. cbn [mbind option_bind].
    destruct (put_new_rep m1 L id dsml source t (tool_memory_max_entries m1) (tool_memory_max_bytes m1) H Ht Hb Hok) as (m3 & L3 & E3 & H3 & El & E1 & E2); [|done|reflexivity|reflexivity|].
    + destruct (t !! id) as [x|] eqn:Ex; [|done]. unfold tool_memory_find_entry_locked in Ef. rewrite Ht in Ef. cbn in Ef. congruence.
    + exists m3, L3. split; [exact E3|]. split; [done|]. by split.
Qed.

(** ** Looking up *)

Lemma lookup_rep m L id :
  rep m L -> id <> [] ->
  exists m' L' r, tool_memory_lookup_locked m id = Some (m', r) /\ rep m' L' /\ L'.*2 = lru_touch id L.*2 /\
    (fun '(d, s, _) => (d, s)) <$> r = (fun it => (it_dsml it, it_source it)) <$> lru_find id L.*2 /\
    (forall d s b, r = Some (d, s, b) -> exists blk, bheap m' !! b = Some blk /\ b_dsml blk = d) /\
    bheap m' = bheap m /\ max_entries m' = max_entries m /\ max_bytes m' = max_bytes m.
Proof.
  intros H Hid. unfold tool_memory_lookup_locked, lru_touch.
  destruct (tool_memory_find_entry_locked m id) as [a|] eqn:Ef.
  - pose proof (proj1 (rep_find _ _ _ _ H Hid) Ef) as (it & Hin & Hit).
    destruct (r_item _ _ H a it Hin) as (b & blk & Ha & Hs & Hb & Hd).
    apply view_lookup in Ha as (en & Hen & Hv). injection Hv as Hv1 Hv2 Hv3. rewrite Hen. cbn [mbind option_bind]. rewrite Hv2.
    apply view_lookup in Hs as (en' & Hen' & Hs). assert (en' = en) as -> by congruence.
    destruct (rep_split _ _ _ _ H Hin) as (L1 & L2 & -> & Hfi & Hre). rewrite Hit in Hfi, Hre. rewrite Hfi, Hre.
    destruct (rep_list _ _ _ _ _ H) as [Hl Hn]. destruct (touch_spec m _ _ _ Hl Hn) as (m1 & -> & Hl1 & S1).
    cbn [mbind option_bind]. rewrite (s_bheap _ _ S1), Hb. cbn [mbind option_bind].
    eexists m1, ((a, it) :: L1 ++ L2), _. split; [done|]. split.
    { eapply rep_same; [exact H|done|cbn; by rewrite fmap_app|by rewrite Permutation_middle]. }
    split; [done|]. split; [cbn; congruence|]. split; [|destruct S1; split_and!; congruence].
    intros d s b' [= <- <- <-]. exists blk. split; [by rewrite (s_bheap _ _ S1)|done].
  - destruct (lru_absent id L.*2) as [-> _]; [by eapply rep_absent|].
    exists m, L, None. by split_and!.
Qed.
