(* ===== verification/ToolMemorySpec.v ===== *)
(** * ToolMemorySpec: what the server does with the tool memory

    The calls of a finished turn are remembered by id; when the client sends the
    calls back, the sampled text is attached to them again if all their ids are
    known with the same text.  Every sequence of such requests, from the empty
    memory, behaves as on the abstract list. *)

From S2P Require Import Prelude Ctype Json JsonFacts JsonRequest Dsml.
From stdpp Require Import gmap.
From S2P Require Import ToolMemory ToolMemoryFacts ToolMemoryRep ToolMemoryOps.
#[local] Open Scope Z_scope.

(** An argument that may be NULL, as the C string it is read as. *)
Definition c_arg (s : option bytes) : bytes := cstr (default [] s).

(** ** The server's entry points; [off] is [disable_exact_dsml_tool_replay] *)

Fixpoint remember_loop (m : tool_memory) (calls : list tool_call) (raw : bytes) : option tool_memory :=
  match calls with
  | [] => Some m
  | tc :: calls' => m ← tool_memory_put_locked m (c_arg (tc_id tc)) raw TOOL_MEMORY_RAM; remember_loop m calls' raw
  end.

Definition tool_memory_remember (off : bool) (m : tool_memory) (calls : tool_calls) : option tool_memory :=
  if off then Some m
  else match c_arg (tcs_raw_dsml calls) with
       | [] => Some m
       | raw => remember_loop m (tcs_v calls) raw
       end.

Definition tool_memory_put_source (off : bool) (m : tool_memory) (id dsml : bytes) (source : tool_memory_source)
  : option tool_memory :=
  if off then Some m
  else match id, dsml with
       | [], _ | _, [] => Some m
       | _, _ => tool_memory_put_locked m id dsml source
       end.

Definition tool_memory_has_id (off : bool) (m : tool_memory) (id : bytes) : bool :=
  negb off && bool_decide (is_Some (tool_memory_find_entry_locked m id)).

Record tool_replay_stats := mkStats { st_mem : Z; st_disk : Z; st_canonical : Z; st_missing_ids : Z }.

Definition count_canonical (missing : Z) (st : tool_replay_stats) : tool_replay_stats :=
  mkStats (st_mem st) (st_disk st) (st_canonical st + 1) (st_missing_ids st + missing).
Definition count_replay (source : tool_memory_source) (st : tool_replay_stats) : tool_replay_stats :=
  match source with
  | TOOL_MEMORY_RAM => mkStats (st_mem st + 1) (st_disk st) (st_canonical st) (st_missing_ids st)
  | TOOL_MEMORY_DISK => mkStats (st_mem st) (st_disk st + 1) (st_canonical st) (st_missing_ids st)
  end.

(** The local variables of one message. *)
Record matching := mkMatching {
  mt_block : ptr;
  mt_source : tool_memory_source;
  mt_exact : bool;
  mt_missing : Z
}.

Definition attach_call (m : tool_memory) (k : matching) (tc : tool_call) : option (tool_memory * matching) :=
  '(m, r) ← tool_memory_lookup_locked m (c_arg (tc_id tc));
  match r with
  | None => Some (m, mkMatching (mt_block k) (mt_source k) false (mt_missing k + 1))
  | Some (_, source, b) =>
      let k := match mt_block k with
               | None => mkMatching (Some b) source (mt_exact k) (mt_missing k)
               | Some b' => if bool_decide (b' = b) then k
                            else mkMatching (mt_block k) (mt_source k) false (mt_missing k)
               end in
      let k := if is_ram source then mkMatching (mt_block k) TOOL_MEMORY_RAM (mt_exact k) (mt_missing k) else k in
      Some (m, k)
  end.

Fixpoint attach_loop (m : tool_memory) (k : matching) (calls : list tool_call) : option (tool_memory * matching) :=
  match calls with
  | [] => Some (m, k)
  | tc :: calls' => '(m, k) ← attach_call m k tc; attach_loop m k calls'
  end.

Definition skips (calls : tool_calls) : bool :=
  match tcs_v calls, tcs_raw_dsml calls with [], _ | _, Some _ => true | _, None => false end.

(** One message: its calls afterwards and the counts. *)
Definition attach_message (m : tool_memory) (st : tool_replay_stats) (calls : tool_calls)
  : option (tool_memory * tool_replay_stats * tool_calls) :=
  if skips calls then Some (m, st, calls)
  else
    '(m, k) ← attach_loop m (mkMatching None TOOL_MEMORY_DISK true 0) (tcs_v calls);
    match mt_exact k, mt_block k with
    | true, Some b =>
        blk ← bheap m !! b;
        Some (m, count_replay (mt_source k) st, mkCalls (tcs_v calls) (Some (b_dsml blk)))
    | _, _ => Some (m, count_canonical (mt_missing k) st, calls)
    end.

Fixpoint attach_messages (m : tool_memory) (st : tool_replay_stats) (msgs : list tool_calls)
  : option (tool_memory * tool_replay_stats * list tool_calls) :=
  match msgs with
  | [] => Some (m, st, [])
  | calls :: msgs' =>
      '(m, st, calls) ← attach_message m st calls;
      '(m, st, msgs') ← attach_messages m st msgs';
      Some (m, st, calls :: msgs')
  end.

(** The messages are given by their calls. *)
Definition tool_memory_attach_to_messages (off : bool) (m : tool_memory) (st : tool_replay_stats) (msgs : list tool_calls)
  : option (tool_memory * tool_replay_stats * list tool_calls) :=
  if off then
    Some (m, fold_left (fun st calls => if skips calls then st else count_canonical (zlen (tcs_v calls)) st) msgs st, msgs)
  else attach_messages m st msgs.

(** The empty memory of a server with the configured limits. *)
Definition tool_memory_empty (maxe maxb : Z) : tool_memory := mkMemory None None None None 0 maxe 0 maxb 0 0 ∅ ∅ 1.

(** ** The abstract server *)

Fixpoint lru_remember (maxe maxb : Z) (l : list item) (calls : list tool_call) (raw : bytes) : list item :=
  match calls with
  | [] => l
  | tc :: calls' =>
      let l := match c_arg (tc_id tc) with [] => l | id => lru_put maxe maxb l id raw TOOL_MEMORY_RAM end in
      lru_remember maxe maxb l calls' raw
  end.

Definition found_items (l : list item) (calls : list tool_call) : list (option item) :=
  (fun tc => match c_arg (tc_id tc) with [] => None | _ => lru_find (c_arg (tc_id tc)) l end) <$> calls.

(** The text all ids have. *)
Definition common_text (fs : list (option item)) : option bytes :=
  match fs with
  | Some it :: fs' =>
      if forallb (fun f => match f with Some it' => bytes_eqb (it_dsml it') (it_dsml it) | None => false end) fs'
      then Some (it_dsml it) else None
  | _ => None
  end.

Definition is_disk_item (f : option item) : bool :=
  match f with Some it => negb (is_ram (it_source it)) | None => true end.
Definition is_missing (f : option item) : bool := match f with Some _ => false | None => true end.

Definition common_source (fs : list (option item)) : tool_memory_source :=
  if forallb is_disk_item fs then TOOL_MEMORY_DISK else TOOL_MEMORY_RAM.

Definition lru_touch_call (l : list item) (tc : tool_call) : list item :=
  match c_arg (tc_id tc) with [] => l | _ => lru_touch (c_arg (tc_id tc)) l end.

Definition lru_attach_message (l : list item) (st : tool_replay_stats) (calls : tool_calls)
  : list item * tool_replay_stats * tool_calls :=
  if skips calls then (l, st, calls)
  else
    let fs := found_items l (tcs_v calls) in
    let l' := fold_left lru_touch_call (tcs_v calls) l in
    match common_text fs with
    | Some d => (l', count_replay (common_source fs) st, mkCalls (tcs_v calls) (Some d))
    | None => (l', count_canonical (zlen (List.filter is_missing fs)) st, calls)
    end.

Fixpoint lru_attach (l : list item) (st : tool_replay_stats) (msgs : list tool_calls)
  : list item * tool_replay_stats * list tool_calls :=
  match msgs with
  | [] => (l, st, [])
  | calls :: msgs' =>
      let '(l, st, calls) := lru_attach_message l st calls in
      let '(l, st, msgs') := lru_attach l st msgs' in
      (l, st, calls :: msgs')
  end.

(** ** Requests *)

Inductive request :=
| Remember (calls : tool_calls)
| PutSource (id dsml : bytes) (source : tool_memory_source)
| Attach (msgs : list tool_calls).

Definition stats_zero : tool_replay_stats := mkStats 0 0 0 0.

(** The answer of a request: the counts and the messages. *)
Definition answer : Type := tool_replay_stats * list tool_calls.

Definition serve (m : tool_memory) (r : request) : option (tool_memory * answer) :=
  match r with
  | Remember calls => m ← tool_memory_remember false m calls; Some (m, (stats_zero, []))
  | PutSource id dsml source => m ← tool_memory_put_source false m id dsml source; Some (m, (stats_zero, []))
  | Attach msgs => '(m, st, msgs) ← tool_memory_attach_to_messages false m stats_zero msgs; Some (m, (st, msgs))
  end.

Fixpoint serve_all (m : tool_memory) (rs : list request) : option (tool_memory * list answer) :=
  match rs with
  | [] => Some (m, [])
  | r :: rs' => '(m, a) ← serve m r; '(m, az) ← serve_all m rs'; Some (m, a :: az)
  end.

Definition lru_serve (maxe maxb : Z) (l : list item) (r : request) : list item * answer :=
  match r with
  | Remember calls =>
      (match c_arg (tcs_raw_dsml calls) with [] => l | raw => lru_remember maxe maxb l (tcs_v calls) raw end, (stats_zero, []))
  | PutSource id dsml source =>
      (match id, dsml with [], _ | _, [] => l | _, _ => lru_put maxe maxb l id dsml source end, (stats_zero, []))
  | Attach msgs => let '(l, st, msgs) := lru_attach l stats_zero msgs in (l, (st, msgs))
  end.

Fixpoint lru_serve_all (maxe maxb : Z) (l : list item) (rs : list request) : list item * list answer :=
  match rs with
  | [] => (l, [])
  | r :: rs' =>
      let '(l, a) := lru_serve maxe maxb l r in
      let '(l, az) := lru_serve_all maxe maxb l rs' in (l, a :: az)
  end.

(** ** The limits *)

Definition within (maxe maxb : Z) (l : list item) : Prop := l = [] \/ lru_over maxe maxb l = false.

Lemma prune_n_within n maxe maxb l : (length l <= n)%nat -> within maxe maxb (lru_prune_n n maxe maxb l).
Proof.
  revert l. induction n as [|n IH]; intros l Hn; cbn [lru_prune_n].
  - left. by destruct l; [|cbn in Hn; lia].
  - destruct (lru_over maxe maxb l) eqn:E; [|by right]. destruct l as [|it l]; [by apply IH; cbn; lia|].
    apply IH. rewrite length_take. cbn in *. lia.
Qed.

Lemma lru_prune_within maxe maxb l : within maxe maxb (lru_prune maxe maxb l).
Proof. by apply prune_n_within. Qed.

Lemma within_bytes maxe maxb l : maxb <= 2 ^ 62 -> within maxe maxb l -> lru_bytes l <= 2 ^ 62.
Proof. intros Hm [->|[_ H%Z.ltb_ge]%orb_false_iff]; [cbn; lia|lia]. Qed.

Lemma within_perm maxe maxb l l' : l ≡ₚ l' -> within maxe maxb l -> within maxe maxb l'.
Proof.
  intros Hp [->|H].
  - left. apply Permutation_nil_l in Hp. done.
  - right. unfold lru_over, zlen in *. by rewrite <- (Permutation_length Hp), <- (lru_bytes_perm _ _ Hp).
Qed.

(** The memory holds the list, within its limits. *)
Record represents (maxe maxb : Z) (m : tool_memory) (l : list item) : Prop := mkRepresents {
  rs_rep : exists L, rep m L /\ L.*2 = l;
  rs_entries : tool_memory_max_entries m = maxe;
  rs_bytes : tool_memory_max_bytes m = maxb;
  rs_within : within maxe maxb l
}.

#[local] Set Default Proof Using "Type*".

Section limits.
Context (maxe maxb : Z) (Hmaxb : maxb <= 2 ^ 62).

Definition small_text (b : bytes) : Prop := zlen b < 2 ^ 62.

Lemma put_represents m l id dsml source :
  represents maxe maxb m l -> id <> [] -> dsml <> [] -> small_text id -> small_text dsml ->
  exists m', tool_memory_put_locked m id dsml source = Some m' /\
    represents maxe maxb m' (lru_put maxe maxb l id dsml source).
Proof.
  intros [(L & H & <-) He Hb Hw] Hid Hd Hs1 Hs2.
  destruct (put_rep m L id dsml source H) as (m' & L' & E & H' & El & E1 & E2);
    [by split_and!|by eapply within_bytes|].
  exists m'. split; [done|]. rewrite He, Hb in El. split; [by exists L'| | |apply lru_prune_within].
  - unfold tool_memory_max_entries in *. by rewrite E1.
  - unfold tool_memory_max_bytes in *. by rewrite E2.
Qed.

Lemma find_nil_id m : tool_memory_find_entry_locked m [] = None.
Proof. unfold tool_memory_find_entry_locked. by destruct (by_id m). Qed.

(** One lookup: the item found, and its block. *)
Lemma lookup_represents m l id :
  represents maxe maxb m l ->
  exists m' r, tool_memory_lookup_locked m id = Some (m', r) /\
    represents maxe maxb m' (match id with [] => l | _ => lru_touch id l end) /\ bheap m' = bheap m /\
    match (match id with [] => None | _ => lru_find id l end) with
    | None => r = None
    | Some it => exists b blk, r = Some (it_dsml it, it_source it, b) /\ bheap m !! b = Some blk /\ b_dsml blk = it_dsml it
    end.
Proof.
  intros HR. pose proof HR as [(L & H & <-) He Hb Hw]. destruct (decide (id = [])) as [->|Hid].
  { exists m, None. split; [|done]. unfold tool_memory_lookup_locked. by rewrite find_nil_id. }
  destruct (lookup_rep m L id H Hid) as (m' & L' & r & E & H' & El & Er & Hbl & Eh & E1 & E2).
  exists m', r. split; [done|]. destruct id as [|c id']; [done|]. split; [|split; [done|]].
  - split; [by exists L'|unfold tool_memory_max_entries in *; by rewrite E1|unfold tool_memory_max_bytes in *; by rewrite E2|].
    eapply within_perm; [|exact Hw]. unfold lru_touch.
    destruct (tool_memory_find_entry_locked m (c :: id')) as [a|] eqn:Ef.
    + apply (rep_find _ _ _ _ H Hid) in Ef as (it & Hin & Hit).
      destruct (rep_split _ _ _ _ H Hin) as (L1 & L2 & EL & Hf & Hr). rewrite Hit in Hf, Hr. rewrite Hf, Hr, EL.
      rewrite !fmap_app. cbn. by rewrite Permutation_middle.
    + destruct (lru_absent (c :: id') L.*2) as [-> _]; [by eapply rep_absent|done].
  - rewrite Eh in Hbl. destruct (lru_find (c :: id') L.*2) as [it|].
    + destruct r as [[[d s] b]|]; [|done]. cbn in Er. injection Er as -> ->.
      destruct (Hbl _ _ _ eq_refl) as (blk & Hb1 & Hb2). by exists b, blk.
    + by destruct r.
Qed.

Lemma remember_represents raw calls m l :
  represents maxe maxb m l -> raw <> [] -> small_text raw -> Forall (fun tc => small_text (c_arg (tc_id tc))) calls ->
  exists m', remember_loop m calls raw = Some m' /\ represents maxe maxb m' (lru_remember maxe maxb l calls raw).
Proof.
  intros H Hr Hs Hc. revert m l H. induction Hc as [|tc calls Htc _ IH]; intros m l H; cbn [remember_loop lru_remember].
  - by exists m.
  - destruct (c_arg (tc_id tc)) as [|c id] eqn:Eid.
    + cbn [tool_memory_put_locked mbind option_bind]. by apply IH.
    + destruct (put_represents m l (c :: id) raw TOOL_MEMORY_RAM H) as (m1 & -> & H1); [done..|]. by apply IH.
Qed.

(** *** One message *)

Lemma find_remove_other id id' l : id' <> id -> lru_find id' (lru_remove id l) = lru_find id' l.
Proof.
  intros Hne. unfold lru_find, lru_remove. induction l as [|it l IH]; [done|]. cbn.
  destruct (bytes_eqb (it_id it) id) eqn:E; cbn.
  - apply bytes_eqb_eq in E. rewrite (proj2 (bytes_eqb_neq (it_id it) id')); [done|congruence].
  - by rewrite IH.
Qed.

(** Touching changes no lookup. *)
Lemma find_touch id id' l : lru_find id' (lru_touch id l) = lru_find id' l.
Proof.
  unfold lru_touch. destruct (lru_find id l) as [it|] eqn:E; [|done].
  pose proof E as E'. unfold lru_find in E'. apply find_some in E' as [_ E']. apply bytes_eqb_eq in E'.
  destruct (decide (id' = id)) as [->|Hne].
  - unfold lru_find at 1. cbn. rewrite (proj2 (bytes_eqb_eq _ _) E'). done.
  - rewrite <- (find_remove_other id id' l Hne). unfold lru_find at 1. cbn.
    by rewrite (proj2 (bytes_eqb_neq (it_id it) id')) by congruence.
Qed.

Lemma found_touch l tc calls : found_items (lru_touch_call l tc) calls = found_items l calls.
Proof.
  unfold found_items. apply list_fmap_ext. intros _ tc' _. unfold lru_touch_call. destruct (c_arg (tc_id tc)); [done|].
  destruct (c_arg (tc_id tc')); [done|]. apply find_touch.
Qed.

Fixpoint first_text (fs : list (option item)) : option bytes :=
  match fs with [] => None | Some it :: _ => Some (it_dsml it) | None :: fs' => first_text fs' end.

Definition same_text (d : bytes) (f : option item) : bool :=
  match f with Some it => bytes_eqb (it_dsml it) d | None => false end.

Definition exact_match (fs : list (option item)) : bool :=
  match first_text fs with Some d => forallb (same_text d) fs | None => bool_decide (fs = []) end.

Lemma common_text_exact fs : common_text fs = if exact_match fs then first_text fs else None.
Proof.
  unfold exact_match. destruct fs as [|[it|] fs]; [done| |].
  - cbn. unfold bytes_eqb at 2. rewrite bool_decide_eq_true_2 by done. done.
  - cbn. by destruct (first_text fs).
Qed.

Lemma first_text_app fs fs' : first_text (fs ++ fs') = match first_text fs with Some d => Some d | None => first_text fs' end.
Proof. induction fs as [|[it|] fs IH]; cbn; done. Qed.

Lemma exact_snoc_none fs : exact_match (fs ++ [None]) = false.
Proof.
  unfold exact_match. rewrite first_text_app. destruct (first_text fs).
  - rewrite forallb_app. cbn. by rewrite andb_false_r.
  - cbn. apply bool_decide_eq_false_2. by destruct fs.
Qed.

Lemma exact_snoc_some fs it :
  exact_match (fs ++ [Some it]) = match first_text fs with Some d => exact_match fs && bytes_eqb (it_dsml it) d | None => exact_match fs end.
Proof.
  unfold exact_match. rewrite first_text_app. destruct (first_text fs) as [d|] eqn:E; cbn.
  - rewrite forallb_app. cbn. by rewrite andb_true_r.
  - destruct fs as [|[it'|] fs]; [|done|]; cbn; [|done].
    unfold bytes_eqb. by rewrite bool_decide_eq_true_2.
Qed.

(** The local variables after the lookups with results [fs]. *)
Record matches (m : tool_memory) (fs : list (option item)) (k : matching) : Prop := mkMatches {
  mc_block : match first_text fs with
             | None => mt_block k = None
             | Some d => exists b blk, mt_block k = Some b /\ bheap m !! b = Some blk /\ b_dsml blk = d
             end;
  mc_source : mt_source k = common_source fs;
  mc_exact : mt_exact k = exact_match fs;
  mc_missing : mt_missing k = zlen (List.filter is_missing fs)
}.

Lemma no_text_disk fs : first_text fs = None -> forallb is_disk_item fs = true.
Proof. by induction fs as [|[it|] fs IH]. Qed.

Lemma common_source_snoc fs f :
  common_source (fs ++ [f]) = if is_disk_item f then common_source fs else TOOL_MEMORY_RAM.
Proof.
  unfold common_source. rewrite forallb_app. cbn. rewrite andb_true_r.
  destruct (forallb is_disk_item fs), (is_disk_item f); done.
Qed.

Lemma attach_call_spec m l fs k tc :
  represents maxe maxb m l -> matches m fs k ->
  exists m' k', attach_call m k tc = Some (m', k') /\ represents maxe maxb m' (lru_touch_call l tc) /\
    matches m' (fs ++ found_items l [tc]) k'.
Proof.
  intros H [Kb Ks Ke Km]. destruct (lookup_represents m l (c_arg (tc_id tc)) H) as (m1 & r & E1 & H1 & Eh & Hr).
  unfold attach_call. rewrite E1. cbn [mbind option_bind]. unfold found_items. cbn [fmap list_fmap].
  destruct (match c_arg (tc_id tc) with [] => None | _ => _ end) as [it|].
  - destruct Hr as (b & blk & -> & Hb1 & Hb2). eexists m1, _. split; [done|]. split; [done|]. destruct H as [(L & H & _) _ _ _].
    split; rewrite ?Eh.
    + rewrite first_text_app. destruct (first_text fs) as [d|].
      * destruct Kb as (b0 & blk0 & Eb & Hx & Hy). exists b0, blk0. split; [|done]. rewrite Eb.
        by destruct (is_ram _), (bool_decide (b0 = b)).
      * rewrite Kb. exists b, blk. split; [|done]. by destruct (is_ram _).
    + rewrite common_source_snoc. cbn [is_disk_item]. destruct (first_text fs) as [d|] eqn:Ef.
      * destruct Kb as (b0 & blk0 & Eb & _). rewrite Eb. by destruct (it_source it), (bool_decide (b0 = b)).
      * rewrite Kb. unfold common_source. rewrite no_text_disk by done. by destruct (it_source it).
    + rewrite exact_snoc_some. destruct (first_text fs) as [d|] eqn:Ef.
      * destruct Kb as (b0 & blk0 & Eb & Hx & Hy). rewrite Eb.
        assert (E : bytes_eqb (it_dsml it) d = bool_decide (b0 = b)).
        { unfold bytes_eqb. apply bool_decide_iff. split; [|by intros ->; congruence].
          intros Hd. eapply rep_block_inj; [exact H|exact Hx|exact Hb1|congruence]. }
        rewrite E, <- Ke. by destruct (is_ram _), (bool_decide (b0 = b)); cbn; rewrite ?andb_true_r, ?andb_false_r.
      * rewrite Kb, <- Ke. by destruct (is_ram _).
    + rewrite List.filter_app. cbn [List.filter is_missing]. rewrite app_nil_r, <- Km.
      destruct (mt_block k); [destruct (bool_decide _)|]; by destruct (is_ram _).
  - subst r. eexists m1, _. split; [done|]. split; [done|]. split; rewrite ?Eh; cbn [mt_block mt_source mt_exact mt_missing].
    + rewrite first_text_app. by destruct (first_text fs).
    + by rewrite common_source_snoc.
    + by rewrite exact_snoc_none.
    + rewrite List.filter_app. cbn. rewrite zlen_app, <- Km. done.
Qed.

Lemma attach_loop_spec calls m l fs k :
  represents maxe maxb m l -> matches m fs k ->
  exists m' k', attach_loop m k calls = Some (m', k') /\
    represents maxe maxb m' (fold_left lru_touch_call calls l) /\ matches m' (fs ++ found_items l calls) k'.
Proof.
  revert m l fs k. induction calls as [|tc calls IH]; intros m l fs k H K; cbn [attach_loop fold_left].
  - exists m, k. unfold found_items. cbn. by rewrite app_nil_r.
  - destruct (attach_call_spec _ _ _ _ tc H K) as (m1 & k1 & -> & H1 & K1). cbn [mbind option_bind].
    destruct (IH _ _ _ _ H1 K1) as (m2 & k2 & -> & H2 & K2). exists m2, k2. split; [done|]. split; [done|].
    rewrite found_touch, <- app_assoc in K2. exact K2.
Qed.

Lemma attach_message_spec m l st calls :
  represents maxe maxb m l ->
  let '(l', st', calls') := lru_attach_message l st calls in
  exists m', attach_message m st calls = Some (m', st', calls') /\ represents maxe maxb m' l'.
Proof.
  intros H. unfold lru_attach_message, attach_message. destruct (skips calls); [by exists m|].
  destruct (attach_loop_spec (tcs_v calls) m l [] (mkMatching None TOOL_MEMORY_DISK true 0) H) as (m1 & k & -> & H1 & K).
  { by split. }
  cbn [mbind option_bind app] in *. destruct K as [Kb -> -> ->]. rewrite common_text_exact.
  destruct (first_text (found_items l (tcs_v calls))) as [d|].
  - destruct Kb as (b & blk & -> & Hb & <-). destruct (exact_match _); [|by exists m1]. rewrite Hb. by exists m1.
  - rewrite Kb. destruct (exact_match _); by exists m1.
Qed.

Lemma attach_spec msgs m l st :
  represents maxe maxb m l ->
  let '(l', st', msgs') := lru_attach l st msgs in
  exists m', attach_messages m st msgs = Some (m', st', msgs') /\ represents maxe maxb m' l'.
Proof.
  revert m l st. induction msgs as [|calls msgs IH]; intros m l st H; cbn [lru_attach attach_messages].
  - by exists m.
  - pose proof (attach_message_spec m l st calls H) as Hc. destruct (lru_attach_message l st calls) as [[l1 st1] calls1].
    destruct Hc as (m1 & -> & H1). specialize (IH m1 l1 st1 H1). destruct (lru_attach l1 st1 msgs) as [[l2 st2] msgs2].
    destruct IH as (m2 & E2 & H2). cbn [mbind option_bind]. rewrite E2. by exists m2.
Qed.

(** *** A sequence of requests *)

Definition request_ok (r : request) : Prop :=
  match r with
  | Remember calls =>
      small_text (c_arg (tcs_raw_dsml calls)) /\ Forall (fun tc => small_text (c_arg (tc_id tc))) (tcs_v calls)
  | PutSource id dsml _ => small_text id /\ small_text dsml
  | Attach _ => True
  end.

Lemma serve_spec m l r :
  represents maxe maxb m l -> request_ok r ->
  exists m', serve m r = Some (m', (lru_serve maxe maxb l r).2) /\ represents maxe maxb m' (lru_serve maxe maxb l r).1.
Proof.
  intros H Hr. destruct r as [calls|id dsml source|msgs]; cbn [serve lru_serve fst snd].
  - destruct Hr as [Hr1 Hr2]. unfold tool_memory_remember. destruct (c_arg (tcs_raw_dsml calls)) as [|c raw]; [by exists m|].
    destruct (remember_represents (c :: raw) (tcs_v calls) m l H) as (m1 & -> & H1); [done..|]. by exists m1.
  - destruct Hr as [Hr1 Hr2]. unfold tool_memory_put_source. destruct id as [|c id]; [by exists m|].
    destruct dsml as [|d dsml]; [by exists m|].
    destruct (put_represents m l (c :: id) (d :: dsml) source H) as (m1 & -> & H1); [done..|]. by exists m1.
  - pose proof (attach_spec msgs m l stats_zero H) as Ha. unfold tool_memory_attach_to_messages.
    destruct (lru_attach l stats_zero msgs) as [[l1 st1] msgs1]. destruct Ha as (m1 & -> & H1). by exists m1.
Qed.

Lemma serve_all_spec rs m l :
  represents maxe maxb m l -> Forall request_ok rs ->
  exists m', serve_all m rs = Some (m', (lru_serve_all maxe maxb l rs).2) /\
    represents maxe maxb m' (lru_serve_all maxe maxb l rs).1.
Proof.
  intros H Hrs. revert m l H. induction Hrs as [|r rs Hr _ IH]; intros m l H; cbn [serve_all lru_serve_all]; [by exists m|].
  destruct (serve_spec m l r H Hr) as (m1 & -> & H1). cbn [mbind option_bind]. destruct (lru_serve maxe maxb l r) as [l1 a].
  destruct (IH m1 l1 H1) as (m2 & -> & H2). destruct (lru_serve_all maxe maxb l1 rs) as [l2 az]. by exists m2.
Qed.

End limits.

(** ** The empty memory and the end *)

Lemma empty_represents maxe maxb :
  let m := tool_memory_empty maxe maxb in represents (tool_memory_max_entries m) (tool_memory_max_bytes m) m [].
Proof.
  intros m. split; [|done|done|by left]. exists []. split; [|done]. apply rep_nil; try done; intros a; apply lookup_empty.
Qed.

Lemma free_loop_rep fuel m L :
  rep m L -> (length L < fuel)%nat -> exists m', free_loop fuel m = Some m' /\ rep m' [].
Proof.
  revert m L. induction fuel as [|fuel IH]; intros m L H Hf; [lia|]. cbn [free_loop].
  pose proof (rep_tail _ _ H) as Ht. destruct (tail m) as [a|]; [|subst L; by exists m].
  destruct Ht as (L0 & it & ->). destruct (remove_rep _ _ _ _ _ H) as (m1 & -> & H1 & _). cbn [mbind option_bind].
  rewrite app_nil_r in H1. apply (IH m1 L0 H1). rewrite length_app in Hf. cbn in Hf. lia.
Qed.

(** Everything allocated is freed. *)
Lemma free_spec m L : rep m L -> exists m', tool_memory_free m = Some m' /\ eheap m' = ∅ /\ bheap m' = ∅.
Proof.
  intros H. unfold tool_memory_free.
  destruct (free_loop_rep (S (size (eheap m))) m L H) as (m1 & -> & H1); [rewrite (rep_size _ _ H); lia|].
  destruct (rep_nil_inv _ H1) as (_ & _ & Hd & Hb & _). eexists. split; [done|]. cbn [eheap bheap]. split; apply map_empty; intros a.
  - specialize (Hd a). unfold datas in Hd. rewrite lookup_fmap in Hd. by destruct (eheap m1 !! a).
  - apply Hb.
Qed.

Lemma has_id_rep m L id :
  rep m L -> tool_memory_has_id false m id = bool_decide (id ∈ it_id <$> L.*2).
Proof.
  intros H. unfold tool_memory_has_id. cbn [negb andb]. apply bool_decide_iff. rewrite list_elem_of_fmap. destruct (decide (id = [])) as [->|Hid].
  - rewrite find_nil_id. split; [by intros []|]. intros (it & E & Hin). pose proof (r_ok _ _ H) as Hok.
    rewrite Forall_forall in Hok. by destruct (Hok it Hin).
  - split.
    + intros [a (it & Hin & E)%(rep_find _ _ _ _ H Hid)]. exists it. split; [done|]. apply list_elem_of_fmap. by exists (a, it).
    + intros (it & -> & Hin). apply list_elem_of_fmap in Hin as ([a it'] & -> & Hin). exists a.
      apply (rep_find _ _ _ _ H Hid). by exists it'.
Qed.

(** Pruning keeps the most recent items that fit. *)
Lemma prune_n_prefix n maxe maxb l : (length l <= n)%nat ->
  exists k, lru_prune_n n maxe maxb l = take k l /\ forall j, (k < j <= length l)%nat -> lru_over maxe maxb (take j l) = true.
Proof.
  revert l. induction n as [|n IH]; intros l Hn; cbn [lru_prune_n].
  - exists (length l). rewrite take_ge by lia. split; [done|lia].
  - destruct (lru_over maxe maxb l) eqn:E.
    2: { exists (length l). rewrite take_ge by lia. split; [done|lia]. }
    destruct (IH (take (length l - 1) l)) as (k & -> & Hk); [rewrite length_take; lia|].
    exists (k `min` (length l - 1))%nat. rewrite take_take. split; [done|]. intros j Hj.
    destruct (decide (j = length l)) as [->|]; [by rewrite take_ge by lia|].
    specialize (Hk j). rewrite take_take, length_take in Hk. rewrite Nat.min_l in Hk by lia. rewrite (Nat.min_l j) in Hk by lia. apply Hk. lia.
Qed.

Lemma lru_prune_prefix maxe maxb l :
  exists k, lru_prune maxe maxb l = take k l /\ forall j, (k < j <= length l)%nat -> lru_over maxe maxb (take j l) = true.
Proof. by apply prune_n_prefix. Qed.

Lemma common_text_iff fs d :
  common_text fs = Some d <-> fs <> [] /\ Forall (fun f => exists it, f = Some it /\ it_dsml it = d) fs.
Proof.
  destruct fs as [|[it|] fs].
  - split; [done|by intros []].
  - cbn. split.
    + destruct (forallb _ fs) eqn:E; [|done]. intros [= <-]. split; [done|]. constructor; [by exists it|].
      apply Forall_forall. intros f Hf. rewrite forallb_forall in E. specialize (E f (proj1 (list_elem_of_In _ _) Hf)).
      destruct f as [it'|]; [|done]. apply bytes_eqb_eq in E. by exists it'.
    + intros [_ Hf]. apply Forall_cons in Hf as [(it0 & [= <-] & <-) Hf].
      rewrite (proj2 (forallb_forall _ _)); [done|]. intros f Hin%list_elem_of_In. rewrite Forall_forall in Hf.
      destruct (Hf f Hin) as (it' & -> & Ed). by apply bytes_eqb_eq.
  - cbn. split; [done|]. intros [_ Hf]. apply Forall_cons in Hf as [(it & E & _) _]. done.
Qed.

(** ** Theorems *)

(** C10.  Any sequence of requests from the empty memory runs without touching a
    dangling pointer, gives the answers of the abstract list of the most recently
    used items, stays within the configured numbers of entries and bytes, knows
    exactly the ids of the list, and freeing the memory at the end leaves nothing
    allocated. *)
Theorem tool_memory_refines_lru cfg_entries cfg_bytes rs :
  let m0 := tool_memory_empty cfg_entries cfg_bytes in
  let maxe := tool_memory_max_entries m0 in
  let maxb := tool_memory_max_bytes m0 in
  let l := (lru_serve_all maxe maxb [] rs).1 in
  maxb <= 2 ^ 62 -> Forall request_ok rs ->
  exists m, serve_all m0 rs = Some (m, (lru_serve_all maxe maxb [] rs).2) /\
    entries m = zlen l /\ mbytes m = lru_bytes l /\ entries m <= maxe /\ mbytes m <= maxb /\
    (forall id, tool_memory_has_id false m id = bool_decide (id ∈ it_id <$> l)) /\
    exists m', tool_memory_free m = Some m' /\ eheap m' = ∅ /\ bheap m' = ∅.
Proof.
  intros m0 maxe maxb l Hb Hrs.
  destruct (serve_all_spec maxe maxb Hb rs m0 [] (empty_represents _ _) Hrs) as (m & E & [(L & H & EL) _ _ Hw]).
  fold l in EL, Hw. exists m. split; [done|]. rewrite (r_entries _ _ H), (r_bytes _ _ H), EL.
  split; [by rewrite <- EL, zlen_fmap|]. split; [done|].
  assert (Hpos : 0 < maxe /\ 0 < maxb).
  { subst maxe maxb. unfold tool_memory_max_entries, tool_memory_max_bytes.
    destruct (0 <? max_entries m0) eqn:E1, (0 <? max_bytes m0) eqn:E2; rewrite ?Z.ltb_lt in *; split; done. }
  assert (Hlim : zlen L <= maxe /\ lru_bytes l <= maxb).
  { rewrite <- (zlen_fmap snd), EL. destruct Hw as [->|[Hw1%Z.ltb_ge Hw2%Z.ltb_ge]%orb_false_iff]; [cbn; unfold zlen; cbn; lia|done]. }
  split; [apply Hlim|]. split; [apply Hlim|]. split; [|by eapply free_spec].
  intros id. rewrite <- EL. by apply has_id_rep.
Qed.

(**  The sampled text is attached to a message only if every call of the
    message has a known id and all ids were stored with that same text; then it is
    that text, byte for byte.  A message that has a text keeps it. *)
Lemma attach_exact maxe maxb m l st calls d :
  maxb <= 2 ^ 62 -> represents maxe maxb m l -> tcs_raw_dsml calls = None -> tcs_v calls <> [] ->
  exists m' st' calls', attach_message m st calls = Some (m', st', calls') /\ tcs_v calls' = tcs_v calls /\
    (tcs_raw_dsml calls' = Some d <->
     Forall (fun tc => c_arg (tc_id tc) <> [] /\
       exists it, lru_find (c_arg (tc_id tc)) l = Some it /\ it_dsml it = d) (tcs_v calls)).
Proof.
  intros Hb H Hraw Hne. pose proof (attach_message_spec maxe maxb Hb m l st calls H) as Hs. unfold lru_attach_message in Hs.
  assert (Hsk : skips calls = false) by (unfold skips; rewrite Hraw; by destruct (tcs_v calls)). rewrite Hsk in Hs.
  assert (Hiff : common_text (found_items l (tcs_v calls)) = Some d <->
    Forall (fun tc => c_arg (tc_id tc) <> [] /\ exists it, lru_find (c_arg (tc_id tc)) l = Some it /\ it_dsml it = d) (tcs_v calls)).
  { rewrite common_text_iff. unfold found_items. rewrite Forall_fmap. unfold compose.
    assert (Hx : forall tc, (exists it, match c_arg (tc_id tc) with [] => None | _ => lru_find (c_arg (tc_id tc)) l end = Some it /\ it_dsml it = d)
      <-> (c_arg (tc_id tc) <> [] /\ exists it, lru_find (c_arg (tc_id tc)) l = Some it /\ it_dsml it = d)).
    { intros tc. destruct (c_arg (tc_id tc)); [|naive_solver]. split; [by intros (? & ? & ?)|by intros []]. }
    split.
    - intros [_ Hf]. eapply Forall_impl; [exact Hf|]. intros tc Htc. by apply Hx.
    - intros Hf. split; [by destruct (tcs_v calls)|]. eapply Forall_impl; [exact Hf|]. intros tc Htc. by apply Hx. }
  destruct (common_text (found_items l (tcs_v calls))) as [d'|]; destruct Hs as (m1 & E & _); eexists _, _, _; (split; [exact E|]);
    (split; [done|]); cbn [tcs_raw_dsml]; rewrite <- Hiff, ?Hraw; done.
Qed.
