(* ===== verification/ToolMap.v ===== *)
(** * ToolMap: the tool-call texts kept with a KV checkpoint (ds4_server.c)

    The trailer of a checkpoint holds the id and the text of every remembered
    call whose text occurs in the saved transcript.  Measuring, writing and loading
    it; the hooks are what the KV store calls. *)

From S2P Require Import Prelude Ctype KvHeader Json JsonFacts JsonRequest Dsml.
From stdpp Require Import gmap.
From S2P Require Import ToolMemory ToolMemoryFacts ToolMemoryRep ToolMemoryOps ToolMemorySpec.
#[local] Open Scope Z_scope.

Definition KV_TOOL_MAP_HEADER : Z := 8.
Definition KV_TOOL_MAP_VERSION : Z := 1.

(** ** The blocks of a transcript *)

Definition block_forms : list (bytes * bytes) :=
  flat_map (fun m => [([10; 10] ++ tool_calls_start m, tool_calls_end m); (tool_calls_start m, tool_calls_end m)])
    [dsml_markup; short_markup; xml_markup].

(** The start and the end of the first block: the rests of the text there. *)
Definition next_block_form (p : bytes) (best : option (bytes * bytes)) (form : bytes * bytes) : option (bytes * bytes) :=
  match strstr p (fst form) with
  | None => best
  | Some s =>
      if match best with Some (b, _) => (length s <=? length b)%nat | None => false end then best
      else match strstr s (snd form) with
           | None => best
           | Some e => Some (s, drop (length (snd form)) e)
           end
  end.

Definition find_next_dsml_tool_block (p : bytes) : option (bytes * bytes) :=
  fold_left (next_block_form p) block_forms None.

(** ** Lists of ids *)

Definition id_list_contains (ids : list bytes) (id : bytes) : bool :=
  match id with [] => false | _ => existsb (fun v => bytes_eqb v id) ids end.

Definition id_list_push_unique (ids : list bytes) (id : option bytes) : list bytes :=
  match c_arg id with
  | [] => ids
  | i => if id_list_contains ids i then ids else ids ++ [i]
  end.

(** ** Scanning *)

(** [for (e = b->entries; e; e = e->block_next)] *)
Fixpoint chain_entries (fuel : nat) (m : tool_memory) (p : ptr) : option (list tool_memory_entry) :=
  match p with
  | None => Some []
  | Some e =>
      match fuel with
      | O => None
      | S fuel' => en ← eheap m !! e; ens ← chain_entries fuel' m (e_block_next en); Some (en :: ens)
      end
  end.

Definition block_entries (m : tool_memory) (blk : tool_memory_block) : option (list tool_memory_entry) :=
  chain_entries (size (eheap m)) m (b_entries blk).

(** The block with the text, unless this scan has seen it. *)
Definition visit_block (m : tool_memory) (scan : Z) (text : bytes) : option (tool_memory * option tool_memory_block) :=
  match tool_memory_find_block_locked m text with
  | None => Some (m, None)
  | Some b =>
      blk ← bheap m !! b;
      if b_seen blk =? scan then Some (m, None)
      else m ← upd_block b (with_seen scan) m; Some (m, Some blk)
  end.

Definition next_scan (m : tool_memory) : tool_memory := set_scan_clock (u64 (scan_clock m + 1)) m.

Definition map_too_long (blk : tool_memory_block) (en : tool_memory_entry) : bool :=
  (UINT32_MAX <? zlen (e_id en)) || (UINT32_MAX <? b_len blk).

(** The count and the size so far; [None] is the return value [false]. *)
Definition measure_entry (blk : tool_memory_block) (acc : option (Z * Z)) (en : tool_memory_entry) : option (Z * Z) :=
  '(count, bytes) ← acc;
  if map_too_long blk en then Some (count, bytes)
  else if count =? UINT32_MAX then None
  else if (UINT64_MAX - bytes <? 8) || (UINT64_MAX - bytes - 8 <? zlen (e_id en)) ||
          (UINT64_MAX - bytes - 8 - zlen (e_id en) <? b_len blk) then None
  else Some (count + 1, bytes + (8 + zlen (e_id en) + b_len blk)).

Fixpoint measure_loop (fuel : nat) (m : tool_memory) (scan : Z) (p : bytes) (acc : Z * Z)
  : option (tool_memory * option (Z * Z)) :=
  match fuel with
  | O => None
  | S fuel' =>
      match find_next_dsml_tool_block p with
      | None => Some (m, Some acc)
      | Some (start, rest) =>
          '(m, blk) ← visit_block m scan (take (offset start rest) start);
          match blk with
          | None => measure_loop fuel' m scan rest acc
          | Some blk =>
              ens ← block_entries m blk;
              match fold_left (measure_entry blk) ens (Some acc) with
              | None => Some (m, None)
              | Some acc => measure_loop fuel' m scan rest acc
              end
          end
      end
  end.

Definition kv_tool_map_measure_locked (m : tool_memory) (text : bytes) : option (tool_memory * option (Z * Z)) :=
  let m := next_scan m in
  '(m, r) ← measure_loop (S (length text)) m (scan_clock m) text (0, KV_TOOL_MAP_HEADER);
  Some (m, option_map (fun cb => (fst cb, if fst cb =? 0 then 0 else snd cb)) r).

Definition kv_tool_map_serialized_size (off : bool) (m : tool_memory) (text : bytes)
  : option (tool_memory * option Z) :=
  match off, text with
  | true, _ | _, [] => Some (m, Some 0)
  | _, _ => '(m, r) ← kv_tool_map_measure_locked m text; Some (m, option_map snd r)
  end.

Definition write_entry (blk : tool_memory_block) (en : tool_memory_entry) : bytes :=
  if map_too_long blk en then []
  else ds4_kvstore_le_put32 (u32 (zlen (e_id en))) ++ ds4_kvstore_le_put32 (u32 (b_len blk)) ++
       e_id en ++ b_dsml blk.

Fixpoint write_loop (fuel : nat) (m : tool_memory) (scan : Z) (p out : bytes) : option (tool_memory * bytes) :=
  match fuel with
  | O => None
  | S fuel' =>
      match find_next_dsml_tool_block p with
      | None => Some (m, out)
      | Some (start, rest) =>
          '(m, blk) ← visit_block m scan (take (offset start rest) start);
          match blk with
          | None => write_loop fuel' m scan rest out
          | Some blk => ens ← block_entries m blk; write_loop fuel' m scan rest (out ++ flat_map (write_entry blk) ens)
          end
      end
  end.

Definition tool_map_header (count : Z) : bytes :=
  [ch "K"; ch "T"; ch "M"; KV_TOOL_MAP_VERSION] ++ ds4_kvstore_le_put32 count.

(** The bytes handed to the stream and the reported size; [None] is the return
    value [false]. *)
Definition kv_tool_map_write (off : bool) (m : tool_memory) (text : bytes) : option (tool_memory * option (bytes * Z)) :=
  match off, text with
  | true, _ | _, [] => Some (m, Some ([], 0))
  | _, _ =>
      '(m, r) ← kv_tool_map_measure_locked m text;
      match r with
      | None => Some (m, None)
      | Some (count, bytes) =>
          if count =? 0 then Some (m, Some ([], 0))
          else
            let m := next_scan m in
            '(m, out) ← write_loop (S (length text)) m (scan_clock m) text (tool_map_header count);
            Some (m, Some (out, bytes))
      end
  end.

(** ** Loading *)

(** [fread(buf, 1, n, fp)] on what is left of the file. *)
Definition fread (n : Z) (p : bytes) : bytes * bytes := (take (Z.to_nat n) p, drop (Z.to_nat n) p).

Definition is_wanted (wanted : option (list bytes)) (id : bytes) : bool :=
  match wanted with None => true | Some ids => id_list_contains ids id end.

(** The memory and the number of loaded entries. *)
Fixpoint load_entries (n : nat) (m : tool_memory) (wanted : option (list bytes)) (p : bytes) (loaded : Z)
  : option (tool_memory * Z) :=
  match n with
  | O => Some (m, loaded)
  | S n' =>
      let '(lens, p) := fread 8 p in
      if negb (zlen lens =? 8) then Some (m, loaded)
      else
        let id_len := ds4_kvstore_le_get32 lens in
        let dsml_len := ds4_kvstore_le_get32 (drop 4 lens) in
        if (id_len =? 0) || (256 <? id_len) || (dsml_len =? 0) || (DS4_TOOL_MEMORY_MAX_BYTES <? dsml_len)
        then Some (m, loaded)
        else
          let '(id, p) := fread id_len p in
          let '(dsml, p) := fread dsml_len p in
          let ok := (zlen id =? id_len) && (zlen dsml =? dsml_len) in
          if negb ok then Some (m, loaded)
          else if is_wanted wanted (cstr id) then
            m ← tool_memory_put_source false m (cstr id) (cstr dsml) TOOL_MEMORY_DISK;
            load_entries n' m wanted p (loaded + 1)
          else load_entries n' m wanted p loaded
  end.

Definition kv_tool_map_load_from_pos (off : bool) (m : tool_memory) (wanted : option (list bytes)) (p : bytes)
  : option (tool_memory * Z) :=
  if off then Some (m, 0)
  else
    let '(h, p) := fread KV_TOOL_MAP_HEADER p in
    if negb (zlen h =? KV_TOOL_MAP_HEADER) then Some (m, 0)
    else if negb (bytes_eqb (take 4 h) [ch "K"; ch "T"; ch "M"; KV_TOOL_MAP_VERSION]) then Some (m, 0)
    else
      let count := ds4_kvstore_le_get32 (drop 4 h) in
      if tool_memory_max_entries m * 4 <? count then Some (m, 0)
      else load_entries (Z.to_nat count) m wanted p 0.
