(* ===== verification/ToolMapFacts.v ===== *)
(** * ToolMapFacts: what is written behind a checkpoint is what is loaded *)

From S2P Require Import Prelude Ctype KvHeader Json JsonFacts JsonRequest Dsml DsmlFacts.
From stdpp Require Import gmap.
From S2P Require Import ToolMemory ToolMemoryFacts ToolMemoryRep ToolMemoryOps ToolMemorySpec ToolMap.
#[local] Open Scope Z_scope.

(** ** The blocks of a text *)

Lemma strstr_behind p needle s : strstr p needle = Some s -> (length s <= length p)%nat /\ starts_with needle s = true.
Proof.
  unfold strstr. induction p as [|c p IH]; cbn.
  - destruct (starts_with needle []) eqn:E; [|done]. by intros [= <-].
  - destruct (starts_with needle (c :: p)) eqn:E; [by intros [= <-]|]. intros [Hl Hs]%IH. split; [lia|done].
Qed.

(** A block found is not empty and ends behind its start. *)
Definition block_found (p : bytes) (b : option (bytes * bytes)) : Prop :=
  match b with
  | None => True
  | Some (start, rest) => (length rest < length start)%nat /\ (length start <= length p)%nat
  end.

Lemma next_form_found p best form : snd form <> [] -> block_found p best -> block_found p (next_block_form p best form).
Proof.
  intros Hne Hb. unfold next_block_form. destruct (strstr p _) as [s|] eqn:Es; [|done].
  destruct (match best with None => _ | Some _ => _ end); [done|]. destruct (strstr s _) as [e|] eqn:Ee; [|done].
  apply strstr_behind in Es as [Hs _]. apply strstr_behind in Ee as [He Hp]. cbn. split; [|done].
  rewrite length_drop. apply starts_with_prefix in Hp as [k ->]. rewrite length_app in *.
  destruct (snd form); [done|]. cbn in *. lia.
Qed.

Lemma find_next_found p : block_found p (find_next_dsml_tool_block p).
Proof. unfold find_next_dsml_tool_block. cbn [fold_left block_forms flat_map app]. by repeat apply next_form_found. Qed.

Lemma find_next_some p start rest : find_next_dsml_tool_block p = Some (start, rest) ->
  (length rest < length start)%nat /\ (length start <= length p)%nat.
Proof. intros E. pose proof (find_next_found p) as H. by rewrite E in H. Qed.

(** The texts of the blocks of a transcript, in order. *)
Fixpoint block_texts (fuel : nat) (p : bytes) : list bytes :=
  match fuel with
  | O => []
  | S fuel' =>
      match find_next_dsml_tool_block p with
      | None => []
      | Some (start, rest) => take (offset start rest) start :: block_texts fuel' rest
      end
  end.

Definition transcript_blocks (text : bytes) : list bytes := block_texts (S (length text)) text.

(** ** One block *)

(** The memory between two scans: no block is marked with a scan to come. *)
Definition seen_ok (m : tool_memory) : Prop :=
  (forall b blk, bheap m !! b = Some blk -> 0 <= b_seen blk <= scan_clock m) /\ 0 <= scan_clock m.

Lemma chain_entries_spec m p cs n :
  chain (bnexts m) p cs -> (length cs <= n)%nat ->
  exists ens, chain_entries n m p = Some ens /\ Forall2 (fun a en => eheap m !! a = Some en) cs ens.
Proof.
  revert p n. induction cs as [|a cs IH]; intros p n Hc Hn; cbn in Hc.
  - subst p. exists []. by destruct n.
  - destruct Hc as (-> & nx & Hk & Hc). destruct n as [|n]; [cbn in Hn; lia|]. cbn [chain_entries].
    apply view_lookup in Hk as (en & Hen & <-). rewrite Hen. cbn [mbind option_bind].
    destruct (IH _ n Hc) as (ens & -> & Hens); [cbn in Hn; lia|]. cbn [mbind option_bind].
    exists (en :: ens). split; [done|]. by constructor.
Qed.

(** What a scan sees of an item. *)
Definition seen_entry (x : addr * item) (en : tool_memory_entry) : Prop := e_id en = it_id x.2.

Definition with_text (d : bytes) (L : list (addr * item)) : list (addr * item) :=
  filter (fun x => it_dsml x.2 = d) L.

Lemma rep_pairs_nodup m L : rep m L -> NoDup L.
Proof. intros H. eapply NoDup_fmap_1, r_nodup, H. Qed.

Lemma Forall2_impl_l {A B} (P Q : A -> B -> Prop) l k :
  Forall2 P l k -> (forall x y, x ∈ l -> P x y -> Q x y) -> Forall2 Q l k.
Proof.
  induction 1 as [|x y l k Hxy _ IH]; intros HPQ; [done|]. constructor; [apply HPQ; [left|done]|].
  apply IH. intros x' y' Hx'. apply HPQ. by right.
Qed.

(** The entries of a block are the items with its text. *)
Lemma block_entries_spec m L b blk :
  rep m L -> bheap m !! b = Some blk ->
  exists ens xs, block_entries m blk = Some ens /\ xs ≡ₚ with_text (b_dsml blk) L /\ Forall2 seen_entry xs ens.
Proof.
  intros H Hb. destruct (r_block _ _ H b blk Hb) as (_ & _ & cs & Hc & Hn & _ & _ & Hm).
  assert (Hcs : forall a, a ∈ cs -> exists it, (a, it) ∈ L /\ it_dsml it = b_dsml blk).
  { intros a (id & sz & Ha)%Hm. assert (Hin : a ∈ L.*1) by (apply (r_dom _ _ H); by eexists).
    apply list_elem_of_fmap in Hin as ([a' it] & -> & Hin). cbn [fst] in *. exists it. split; [done|].
    destruct (r_item _ _ H a' it Hin) as (b' & blk' & Ha' & _ & Hb' & Hd). congruence. }
  unfold block_entries. destruct (chain_entries_spec m _ cs (size (eheap m)) Hc) as (ens & -> & Hens).
  { rewrite (rep_size _ _ H), <- (length_fmap fst). apply submseteq_length, NoDup_submseteq; [done|].
    intros a (it & Hin & _)%Hcs. apply list_elem_of_fmap. by exists (a, it). }
  assert (Hxs : exists xs, xs.*1 = cs /\ Forall (fun x => x ∈ with_text (b_dsml blk) L) xs).
  { clear Hens Hc Hn Hm. induction cs as [|a cs IH]; [by exists []|].
    destruct IH as (xs & <- & Hxs); [intros a' Ha'; apply Hcs; by right|].
    destruct (Hcs a) as (it & Hin & Hd); [left|]. exists ((a, it) :: xs). split; [done|]. constructor; [|done].
    apply list_elem_of_filter. by split. }
  destruct Hxs as (xs & <- & Hxs). exists ens, xs. split; [done|]. rewrite Forall_forall in Hxs. split.
  - apply NoDup_Permutation; [by eapply NoDup_fmap_1|by eapply NoDup_filter, rep_pairs_nodup|].
    intros [a it]. split; [by apply Hxs|]. intros [Hd Hin]%list_elem_of_filter. cbn [snd] in Hd.
    destruct (r_item _ _ H a it Hin) as (b' & blk' & Ha & _ & Hb' & Hd').
    assert (b' = b) as -> by (eapply rep_block_inj; [exact H|exact Hb'|exact Hb|congruence]).
    assert (Hac : a ∈ xs.*1) by (apply Hm; eauto).
    apply list_elem_of_fmap in Hac as ([a' it'] & Ea & Hin'). cbn [fst] in Ea. subst a'.
    pose proof (Hxs _ Hin') as [_ Hin'']%list_elem_of_filter. by rewrite (rep_unique _ _ _ _ _ H Hin Hin'').
  - apply Forall2_fmap_l in Hens. eapply Forall2_impl_l; [exact Hens|].
    intros [a it] en Hx Hen. pose proof (Hxs _ Hx) as [_ Hin]%list_elem_of_filter.
    destruct (r_item _ _ H a it Hin) as (b' & blk' & Ha & _). apply view_lookup in Ha as (en' & Hen' & Hv).
    cbn in Hen. assert (en' = en) as -> by congruence. by injection Hv.
Qed.

(** Marking a block changes nothing the representation speaks of. *)
Lemma seen_rep m L b blk scan :
  rep m L -> bheap m !! b = Some blk ->
  exists m', upd_block b (with_seen scan) m = Some m' /\ rep m' L /\ kept m m' /\
    bheap m' = <[b := with_seen scan blk]> (bheap m) /\ eheap m' = eheap m /\
    by_block m' = by_block m /\ scan_clock m' = scan_clock m.
Proof.
  intros H Hb. rewrite (upd_block_spec _ _ _ _ Hb). set (m' := set_heaps _ _ _ m).
  exists m'. split; [done|]. split; [|by split_and!].
  assert (Hbl : forall a d, (exists x, bheap m' !! a = Some x /\ b_dsml x = d) <-> (exists x, bheap m !! a = Some x /\ b_dsml x = d)).
  { intros a d. cbn. destruct (decide (a = b)) as [->|Ha].
    - rewrite lookup_insert_eq, Hb. split; intros (x & [= <-] & <-); by eexists.
    - by rewrite lookup_insert_ne by congruence. }
  split; try apply H.
  - intros a it Hin. destruct (r_item _ _ H a it Hin) as (b' & blk' & H1 & H2 & H3 & H4).
    destruct (proj2 (Hbl b' (it_dsml it))) as (x & Hx1 & Hx2); [by exists blk'|]. by exists b', x.
  - intros d a. rewrite Hbl. apply (r_blocks _ _ H).
  - intros a x. cbn. destruct (decide (a = b)) as [->|Ha].
    + rewrite lookup_insert_eq. intros [= <-]. apply (r_block _ _ H b blk Hb).
    + rewrite lookup_insert_ne by congruence. apply (r_block _ _ H).
  - intros a [Ha|Ha]; apply (r_fresh _ _ H); [by left|]. right. revert Ha. cbn.
    destruct (decide (a = b)) as [->|Hab]; [by rewrite Hb|by rewrite lookup_insert_ne by congruence].
Qed.

(** The marks of scan [scan] are on the blocks with a text in [ts]. *)
Definition marked (m : tool_memory) (scan : Z) (ts : list bytes) : Prop :=
  forall b blk, bheap m !! b = Some blk -> (b_seen blk = scan <-> b_dsml blk ∈ ts) /\ 0 <= b_seen blk <= scan.

(** The items with a text in [ts]. *)
Definition with_texts (ts : list bytes) (L : list (addr * item)) : list (addr * item) :=
  filter (fun x => it_dsml x.2 ∈ ts) L.

Lemma with_texts_absent d ts L : (forall x, x ∈ L -> it_dsml x.2 = d -> d ∈ ts) -> with_texts (d :: ts) L = with_texts ts L.
Proof.
  unfold with_texts. induction L as [|x L IH]; intros H; [done|]. rewrite !filter_cons, IH by (intros y Hy; apply H; by right).
  destruct (decide (it_dsml x.2 ∈ ts)) as [Ht|Ht]; [by rewrite decide_True by by right|].
  rewrite decide_False; [done|]. rewrite elem_of_cons. intros [E|E]; [|done]. apply Ht. rewrite E. apply (H x); [left|done].
Qed.

Lemma with_texts_fresh d ts L : d ∉ ts -> with_texts (d :: ts) L ≡ₚ with_texts ts L ++ with_text d L.
Proof.
  intros Hd. unfold with_texts, with_text. induction L as [|x L IH]; [done|]. rewrite !filter_cons.
  destruct (decide (it_dsml x.2 ∈ ts)) as [Ht|Ht].
  - rewrite decide_True by by right. rewrite decide_False by congruence. cbn. by rewrite IH.
  - destruct (decide (it_dsml x.2 = d)) as [E|E].
    + rewrite decide_True by (rewrite E; left). rewrite IH. by rewrite Permutation_middle.
    + rewrite decide_False; [done|]. rewrite elem_of_cons. intros []; done.
Qed.

Lemma visit_spec m L scan ts d :
  rep m L -> d <> [] -> marked m scan ts ->
  exists m' r, visit_block m scan d = Some (m', r) /\ rep m' L /\ kept m m' /\ eheap m' = eheap m /\
    scan_clock m' = scan_clock m /\ marked m' scan (d :: ts) /\
    match r with
    | None => with_texts (d :: ts) L = with_texts ts L
    | Some blk => b_dsml blk = d /\ b_len blk = zlen d /\ d ∉ ts /\
        exists ens xs, block_entries m' blk = Some ens /\ (xs ≡ₚ with_text d L) /\ Forall2 seen_entry xs ens
    end.
Proof.
  intros H Hd Hm. unfold visit_block.
  assert (Hfind : tool_memory_find_block_locked m d = index_of (by_block m) !! d)
    by (unfold tool_memory_find_block_locked, index_of; destruct (by_block m), d; done).
  rewrite Hfind. destruct (index_of (by_block m) !! d) as [b|] eqn:Ei.
  - apply (r_blocks _ _ H) in Ei as (blk & Hb & Hbd). rewrite Hb. cbn [mbind option_bind].
    destruct (Z.eqb_spec (b_seen blk) scan) as [Es|Es].
    + exists m, None. apply (proj1 (Hm b blk Hb)) in Es. rewrite Hbd in Es.
      split_and!; try done.
      * intros b' blk' Hb'. destruct (Hm b' blk' Hb') as [-> Hr]. split; [|done]. rewrite elem_of_cons.
        split; [by right|]. intros [->|]; done.
      * by apply with_texts_absent.
    + destruct (seen_rep m L b blk scan H Hb) as (m1 & -> & H1 & K1 & Eb & Ee & _ & Ec). cbn [mbind option_bind].
      exists m1, (Some blk). split; [done|]. split; [done|]. split; [done|]. split; [done|]. split; [done|].
      assert (Hnot : d ∉ ts) by (rewrite <- Hbd; by rewrite <- (proj1 (Hm b blk Hb))).
      pose proof (Hm b blk Hb) as [_ Hr]. split.
      * intros b' blk'. rewrite Eb. destruct (decide (b' = b)) as [->|Hne].
        -- rewrite lookup_insert_eq. intros [= <-]. cbn. rewrite Hbd. split; [|lia]. split; [left|done].
        -- rewrite lookup_insert_ne by congruence. intros Hb'. destruct (Hm b' blk' Hb') as [-> Hr']. split; [|done]. rewrite elem_of_cons. split; [by right|].
           intros [E|]; [|done]. exfalso. apply Hne. eapply rep_block_inj; [exact H|exact Hb'|exact Hb|congruence].
      * split; [done|]. destruct (r_block _ _ H b blk Hb) as (Hl & _). split; [by rewrite Hl, Hbd|]. split; [done|].
        destruct (block_entries_spec m L b blk H Hb) as (ens & xs & He & Hx & Hf). rewrite Hbd in Hx.
        exists ens, xs. split; [|done]. unfold block_entries in *. rewrite Ee. clear -He Ee.
        revert He. generalize (size (eheap m)) (b_entries blk). intros n. revert ens.
        induction n as [|n IH]; intros ens [e|]; cbn [chain_entries]; try done. rewrite Ee.
        destruct (eheap m !! e) as [en|]; [|done]. cbn [mbind option_bind].
        destruct (chain_entries n m (e_block_next en)) as [l|] eqn:El; [|done]. by rewrite (IH l _ El).
  - exists m, None. split_and!; try done.
    + intros b' blk' Hb'. destruct (Hm b' blk' Hb') as [-> Hr]. split; [|done]. rewrite elem_of_cons. split; [by right|].
      intros [E|]; [|done]. exfalso.
      assert (E' : index_of (by_block m) !! d = Some b') by (apply (r_blocks _ _ H); eauto). congruence.
    + apply with_texts_absent. intros [a it] Hin E. cbn [snd] in E. exfalso.
      destruct (r_item _ _ H a it Hin) as (b & blk & _ & _ & Hb & Hbd).
      assert (E' : index_of (by_block m) !! d = Some b) by (apply (r_blocks _ _ H); exists blk; split; [done|congruence]). congruence.
Qed.

(** ** The two scans *)

Definition entry_bytes (x : addr * item) : bytes :=
  ds4_kvstore_le_put32 (zlen (it_id x.2)) ++ ds4_kvstore_le_put32 (zlen (it_dsml x.2)) ++ it_id x.2 ++ it_dsml x.2.

Definition entry_total (x : addr * item) : Z := 8 + zlen (it_id x.2) + zlen (it_dsml x.2).
Definition entries_total (xs : list (addr * item)) : Z := foldr (fun x n => entry_total x + n) 0 xs.

(** Items the loader accepts. *)
Definition savable (x : addr * item) : Prop :=
  zlen (it_id x.2) <= 256 /\ zlen (it_dsml x.2) <= DS4_TOOL_MEMORY_MAX_BYTES /\
  no_nul (it_id x.2) /\ no_nul (it_dsml x.2).

Lemma entries_total_app xs ys : entries_total (xs ++ ys) = entries_total xs + entries_total ys.
Proof. induction xs as [|x xs IH]; cbn; [done|]. unfold entries_total in *. cbn. lia. Qed.

Lemma entries_total_perm xs ys : xs ≡ₚ ys -> entries_total xs = entries_total ys.
Proof. unfold entries_total. induction 1; cbn; lia. Qed.

Lemma entry_total_pos x : 0 < entry_total x.
Proof. unfold entry_total. pose proof (zlen_nonneg (it_id x.2)). pose proof (zlen_nonneg (it_dsml x.2)). lia. Qed.

Lemma entries_total_nonneg xs : 0 <= entries_total xs.
Proof. induction xs as [|x xs IH]; [done|]. pose proof (entry_total_pos x). unfold entries_total in *. cbn. lia. Qed.

Lemma zlen_entries xs : zlen (flat_map entry_bytes xs) = entries_total xs.
Proof.
  induction xs as [|x xs IH]; [done|]. cbn [flat_map]. unfold entries_total in *. cbn [foldr]. rewrite zlen_app, IH.
  unfold entry_bytes, entry_total. rewrite !zlen_app. rewrite !zlen_put32. lia.
Qed.

Lemma with_texts_ext ts ts' L : (forall d, d ∈ ts <-> d ∈ ts') -> with_texts ts L = with_texts ts' L.
Proof. intros H. apply list_filter_iff. intros x. apply H. Qed.

Lemma with_texts_sub ts L : exists r, L ≡ₚ with_texts ts L ++ r.
Proof.
  exists (filter (fun x => ~ it_dsml x.2 ∈ ts) L). symmetry. apply filter_app_complement.
Qed.

Lemma Permutation_zlen {A} (l k : list A) : l ≡ₚ k -> zlen l = zlen k.
Proof. intros H. unfold zlen. by rewrite H. Qed.

Lemma block_text_ne p start rest :
  find_next_dsml_tool_block p = Some (start, rest) -> take (offset start rest) start <> [].
Proof.
  intros [H1 _]%find_next_some. unfold offset. destruct start; [cbn in H1; lia|].
  destruct (length (z :: start) - length rest)%nat eqn:E; [lia|done].
Qed.

Section one_block.
Context (blk : tool_memory_block) (d : bytes) (L : list (addr * item)).
Context (Hbd : b_dsml blk = d) (Hbl : b_len blk = zlen d).
Context (Hok : Forall savable L).

Lemma block_too_long xs ens : Forall2 seen_entry xs ens -> xs ≡ₚ with_text d L -> Forall (fun en => map_too_long blk en = false) ens.
Proof using Hbl Hok.
  intros Hf Hp. assert (Hx : Forall (fun x => savable x /\ it_dsml x.2 = d) xs).
  { rewrite Hp. unfold with_text. apply Forall_forall. intros x [E Hin]%list_elem_of_filter. split; [|done].
    rewrite Forall_forall in Hok. by apply Hok. }
  clear Hp. induction Hf as [|x en xs ens Hs _ IH]; [constructor|]. apply Forall_cons in Hx as [[(Hx1 & Hx2 & _) Hx3] Hx].
  constructor; [|by apply IH]. unfold map_too_long. rewrite Hs, Hbl, <- Hx3. apply orb_false_iff. rewrite !Z.ltb_ge.
  unfold DS4_TOOL_MEMORY_MAX_BYTES, UINT32_MAX in *. lia.
Qed.

Lemma measure_block xs ens c b :
  Forall2 seen_entry xs ens -> xs ≡ₚ with_text d L -> 0 <= c -> 0 <= b ->
  c + zlen xs <= UINT32_MAX -> b + entries_total xs <= UINT64_MAX ->
  fold_left (measure_entry blk) ens (Some (c, b)) = Some (c + zlen xs, b + entries_total xs).
Proof using Hbl Hok.
  intros Hf Hp. pose proof (block_too_long _ _ Hf Hp) as Hl.
  assert (Hx : Forall (fun x => it_dsml x.2 = d) xs).
  { rewrite Hp. apply Forall_forall. by intros x [E _]%list_elem_of_filter. }
  clear Hp. revert c b. induction Hf as [|x en xs ens Hs _ IH]; intros c b Hc Hb Hn Ht; cbn [fold_left].
  - by rewrite !Z.add_0_r.
  - apply Forall_cons in Hl as [Hl1 Hl], Hx as [Hx1 Hx]. unfold entries_total in *. cbn [foldr] in *. rewrite zlen_cons in *.
    pose proof (zlen_nonneg xs). pose proof (entries_total_nonneg xs) as Ht0. unfold entries_total in Ht0.
    pose proof (zlen_nonneg (it_id x.2)). pose proof (zlen_nonneg (it_dsml x.2)).
    unfold entry_total in Ht at 1. unfold measure_entry at 2. cbn [mbind option_bind]. rewrite Hl1.
    unfold seen_entry in Hs. rewrite !Hs, Hbl, <- Hx1. destruct (Z.eqb_spec c UINT32_MAX); [lia|].
    rewrite (proj2 (Z.ltb_ge _ _)), (proj2 (Z.ltb_ge _ _)), (proj2 (Z.ltb_ge _ _)) by lia. cbn [orb].
    rewrite IH by (try done; lia). unfold entry_total at 2. f_equal. f_equal; lia.
Qed.

Lemma write_block xs ens :
  Forall2 seen_entry xs ens -> xs ≡ₚ with_text d L -> flat_map (write_entry blk) ens = flat_map entry_bytes xs.
Proof using Hbd Hbl Hok.
  intros Hf Hp. pose proof (block_too_long _ _ Hf Hp) as Hl.
  assert (Hx : Forall (fun x => it_dsml x.2 = d /\ savable x) xs).
  { rewrite Hp. apply Forall_forall. intros x [E Hin]%list_elem_of_filter. split; [done|]. rewrite Forall_forall in Hok. by apply Hok. }
  clear Hp. induction Hf as [|x en xs ens Hs _ IH]; [done|]. apply Forall_cons in Hl as [Hl1 Hl], Hx as [[Hx1 (Hx2 & Hx3 & _)] Hx].
  cbn [flat_map]. rewrite IH by done. f_equal. unfold write_entry, entry_bytes. rewrite Hl1, Hs, Hbl, Hbd, <- Hx1.
  pose proof (zlen_nonneg (it_id x.2)). pose proof (zlen_nonneg (it_dsml x.2)). unfold DS4_TOOL_MEMORY_MAX_BYTES in *.
  unfold u32. rewrite !wrap_small by (unfold in_u; lia). done.
Qed.
End one_block.

Section scan.
Context (L : list (addr * item)).
Context (Hok : Forall savable L) (Hn : zlen L <= UINT32_MAX) (Ht : 8 + entries_total L <= UINT64_MAX).

Definition scanned (fuel : nat) (p : bytes) (ts : list bytes) : list bytes := rev (block_texts fuel p) ++ ts.

Lemma scanned_step fuel p ts start rest :
  find_next_dsml_tool_block p = Some (start, rest) ->
  scanned (S fuel) p ts = scanned fuel rest (take (offset start rest) start :: ts).
Proof using. intros E. unfold scanned. cbn [block_texts]. rewrite E. cbn [rev]. by rewrite <- app_assoc. Qed.

Lemma measure_loop_spec fuel m scan ts p :
  rep m L -> marked m scan ts -> (length p < fuel)%nat ->
  exists m', measure_loop fuel m scan p (zlen (with_texts ts L), 8 + entries_total (with_texts ts L))
      = Some (m', Some (zlen (with_texts (scanned fuel p ts) L), 8 + entries_total (with_texts (scanned fuel p ts) L))) /\
    rep m' L /\ kept m m' /\ scan_clock m' = scan_clock m /\ marked m' scan (scanned fuel p ts).
Proof using All.
  revert m ts p. induction fuel as [|fuel IH]; intros m ts p H Hm Hf; [lia|]. cbn [measure_loop].
  destruct (find_next_dsml_tool_block p) as [[start rest]|] eqn:E.
  2: { exists m. unfold scanned. cbn [block_texts]. rewrite E. by split_and!. }
  rewrite (scanned_step _ _ _ _ _ E). pose proof (find_next_some _ _ _ E) as [Hl1 Hl2]. pose proof (block_text_ne _ _ _ E) as Hne.
  set (d := take (offset start rest) start) in *.
  destruct (visit_spec m L scan ts d H Hne Hm) as (m1 & r & -> & H1 & K1 & _ & E1 & Hm1 & Hr). cbn [mbind option_bind].
  destruct (IH m1 (d :: ts) rest H1 Hm1) as (m2 & E2 & H2 & K2 & Ec2 & Hm2); [lia|].
  exists m2. split; [|split_and!; [done|by etrans|congruence|done]].
  destruct r as [blk|]; [|by rewrite <- Hr].
  destruct Hr as (Hbd & Hbl & Hnot & ens & xs & -> & Hp & Hs). cbn [mbind option_bind].
  pose proof (with_texts_fresh d ts L Hnot) as Hw. pose proof (entries_total_nonneg (with_texts ts L)).
  pose proof (zlen_nonneg (with_texts ts L)). destruct (with_texts_sub (d :: ts) L) as [rst Hsub].
  assert (Ez : zlen (with_texts (d :: ts) L) = zlen (with_texts ts L) + zlen xs)
    by (rewrite (Permutation_zlen _ _ Hw), zlen_app, (Permutation_zlen _ _ Hp); done).
  assert (Et : entries_total (with_texts (d :: ts) L) = entries_total (with_texts ts L) + entries_total xs)
    by (rewrite (entries_total_perm _ _ Hw), entries_total_app, (entries_total_perm _ _ Hp); done).
  pose proof (Permutation_zlen _ _ Hsub) as Ez'. pose proof (entries_total_perm _ _ Hsub) as Et'. rewrite zlen_app in Ez'.
  rewrite entries_total_app in Et'. pose proof (zlen_nonneg rst). pose proof (entries_total_nonneg rst).
  rewrite (measure_block blk d L Hbl Hok xs) by (done || lia).
  rewrite <- Z.add_assoc, <- Ez, <- Et. exact E2.
Qed.

Lemma write_loop_spec fuel m scan ts p hdr ys :
  rep m L -> marked m scan ts -> (length p < fuel)%nat -> ys ≡ₚ with_texts ts L ->
  exists m' ys', write_loop fuel m scan p (hdr ++ flat_map entry_bytes ys) = Some (m', hdr ++ flat_map entry_bytes ys') /\
    ys' ≡ₚ with_texts (scanned fuel p ts) L /\
    rep m' L /\ kept m m' /\ scan_clock m' = scan_clock m /\ marked m' scan (scanned fuel p ts).
Proof using Hok.
  revert m ts p ys. induction fuel as [|fuel IH]; intros m ts p ys H Hm Hf Hy; [lia|]. cbn [write_loop].
  destruct (find_next_dsml_tool_block p) as [[start rest]|] eqn:E.
  2: { exists m, ys. unfold scanned. cbn [block_texts]. rewrite E. by split_and!. }
  rewrite (scanned_step _ _ _ _ _ E). pose proof (find_next_some _ _ _ E) as [Hl1 Hl2]. pose proof (block_text_ne _ _ _ E) as Hne.
  set (d := take (offset start rest) start) in *.
  destruct (visit_spec m L scan ts d H Hne Hm) as (m1 & r & -> & H1 & K1 & _ & E1 & Hm1 & Hr). cbn [mbind option_bind].
  destruct r as [blk|].
  - destruct Hr as (Hbd & Hbl & Hnot & ens & xs & -> & Hp & Hs). cbn [mbind option_bind].
    rewrite (write_block blk d L Hbd Hbl Hok xs ens Hs Hp), <- app_assoc, <- flat_map_app.
    destruct (IH m1 (d :: ts) rest (ys ++ xs) H1 Hm1) as (m2 & ys' & E2 & Hy2 & H2 & K2 & Ec2 & Hm2); [lia| |].
    { rewrite Hy, Hp. by rewrite with_texts_fresh by done. }
    exists m2, ys'. split; [exact E2|]. split_and!; [done..|by etrans|congruence|done].
  - destruct (IH m1 (d :: ts) rest ys H1 Hm1) as (m2 & ys' & E2 & Hy2 & H2 & K2 & Ec2 & Hm2); [lia|by rewrite Hr|].
    exists m2, ys'. split; [exact E2|]. split_and!; [done..|by etrans|congruence|done].
Qed.
End scan.

(** ** Writing *)

(** The items with a text among the blocks of the transcript. *)
Definition saved (text : bytes) (L : list (addr * item)) : list (addr * item) := with_texts (transcript_blocks text) L.

Lemma scanned_saved text L : with_texts (scanned (S (length text)) text []) L = saved text L.
Proof.
  apply with_texts_ext. intros d. unfold scanned. rewrite app_nil_r. unfold transcript_blocks.
  by rewrite !list_elem_of_In, <- in_rev.
Qed.

Lemma with_texts_nil L : with_texts [] L = [].
Proof.
  unfold with_texts. induction L as [|x L IH]; [done|]. rewrite filter_cons, decide_False; [done|apply not_elem_of_nil].
Qed.

Lemma next_scan_rep m L : rep m L -> rep (next_scan m) L.
Proof. intros []. by split. Qed.

Lemma next_scan_kept m : kept m (next_scan m).
Proof. by split. Qed.

Lemma next_scan_marked m : seen_ok m -> scan_clock m + 1 < 2 ^ 64 ->
  marked (next_scan m) (scan_clock (next_scan m)) [] /\ scan_clock (next_scan m) = scan_clock m + 1.
Proof.
  intros [Hs H0] Hc. cbn. unfold u64. rewrite wrap_small by (unfold in_u; lia). split; [|done].
  intros b blk Hb. cbn in Hb. specialize (Hs b blk Hb). rewrite elem_of_nil. split; [split; [lia|done]|lia].
Qed.

Lemma marked_seen m scan ts : marked m scan ts -> scan_clock m = scan -> 0 <= scan -> seen_ok m.
Proof. intros Hm E H0. split; [|lia]. intros b blk Hb. rewrite E. by apply (Hm b blk). Qed.

(** Bounds under which the counters do not overflow. *)
Definition savable_memory (m : tool_memory) (L : list (addr * item)) : Prop :=
  rep m L /\ seen_ok m /\ Forall savable L /\ zlen L <= 2 ^ 31 /\ scan_clock m + 2 < 2 ^ 64.

Lemma entries_total_bound L : Forall savable L -> entries_total L <= zlen L * 2 ^ 30.
Proof.
  induction 1 as [|x L (H1 & H2 & _) _ IH]; [done|]. unfold entries_total in *. cbn [foldr]. rewrite zlen_cons.
  assert (entry_total x <= 2 ^ 30) by (unfold entry_total, DS4_TOOL_MEMORY_MAX_BYTES in *; lia). lia.
Qed.

Lemma measure_spec m L text : savable_memory m L ->
  exists m', kv_tool_map_measure_locked m text
      = Some (m', Some (zlen (saved text L), match saved text L with [] => 0 | _ => 8 + entries_total (saved text L) end)) /\
    rep m' L /\ kept m m' /\ seen_ok m' /\ scan_clock m' = scan_clock m + 1.
Proof.
  intros (H & Hs & Hok & Hl & Hc). destruct (next_scan_marked m Hs) as [Hm Ec]; [lia|].
  pose proof (entries_total_bound L Hok). unfold kv_tool_map_measure_locked.
  destruct (measure_loop_spec L Hok) with (fuel := S (length text)) (m := next_scan m) (scan := scan_clock (next_scan m)) (ts := @nil bytes) (p := text)
    as (m' & E & H' & K' & Ec' & Hm'); [unfold UINT32_MAX; lia|unfold UINT64_MAX; lia|by apply next_scan_rep|done|lia|].
  rewrite with_texts_nil in E. change (zlen [], 8 + entries_total []) with (0, KV_TOOL_MAP_HEADER) in E. rewrite E.
  cbn [mbind option_bind option_map fst snd]. rewrite scanned_saved. exists m'. split.
  - destruct (saved text L) as [|x xs]; [done|]. destruct (Z.eqb_spec (zlen (x :: xs)) 0) as [E0|]; [|done].
    rewrite zlen_cons in E0. pose proof (zlen_nonneg xs). lia.
  - split; [done|]. split; [destruct K'; by split|]. split; [|lia]. eapply marked_seen; [exact Hm'|done|]. destruct Hs. lia.
Qed.

(** The bytes of the map of the given items. *)
Definition map_bytes (xs : list (addr * item)) : bytes :=
  match xs with [] => [] | _ => tool_map_header (zlen xs) ++ flat_map entry_bytes xs end.

Lemma zlen_map_bytes xs : zlen (map_bytes xs) = match xs with [] => 0 | _ => 8 + entries_total xs end.
Proof. destruct xs as [|x xs]; [done|]. unfold map_bytes. rewrite zlen_app, zlen_entries. done. Qed.

Lemma write_spec m L text : savable_memory m L -> text <> [] ->
  exists m' xs, kv_tool_map_write false m text = Some (m', Some (map_bytes xs, zlen (map_bytes xs))) /\
    xs ≡ₚ saved text L /\ rep m' L /\ kept m m' /\ seen_ok m' /\ scan_clock m <= scan_clock m' <= scan_clock m + 2.
Proof.
  intros Hsm Ht. pose proof Hsm as (H & Hs & Hok & Hl & Hc). unfold kv_tool_map_write. destruct text as [|c0 text]; [done|].
  destruct (measure_spec m L (c0 :: text) Hsm) as (m1 & -> & H1 & K1 & S1 & C1). cbn [mbind option_bind].
  destruct (Z.eqb_spec (zlen (saved (c0 :: text) L)) 0) as [E0|E0].
  - exists m1, []. assert (En : saved (c0 :: text) L = []) by by apply length_zero_iff_nil; unfold zlen in E0; lia.
    rewrite En. split; [done|]. split; [done|]. split_and!; try done; lia.
  - destruct (next_scan_marked m1 S1) as [Hm Ec]; [lia|].
    destruct (write_loop_spec L Hok (S (length (c0 :: text))) (next_scan m1) (scan_clock (next_scan m1)) [] (c0 :: text)
      (tool_map_header (zlen (saved (c0 :: text) L))) []) as (m2 & xs & E2 & Hp & H2 & K2 & Ec2 & Hm2);
      [by apply next_scan_rep|done|lia|by rewrite with_texts_nil|].
    cbn [flat_map] in E2. rewrite app_nil_r in E2. rewrite E2. cbn [mbind option_bind]. rewrite scanned_saved in Hp.
    exists m2, xs. split.
    + rewrite zlen_map_bytes. rewrite <- (Permutation_zlen _ _ Hp) in *. rewrite <- (entries_total_perm _ _ Hp).
      destruct xs as [|x xs]; [done|]. apply Permutation_length in Hp. destruct (saved (c0 :: text) L); [done|]. done.
    + split; [done|]. split; [done|]. split; [etrans; [exact K1|]; etrans; [apply next_scan_kept|exact K2]|].
      split; [|rewrite Ec2; lia]. eapply marked_seen; [exact Hm2|done|]. destruct Hs. lia.
Qed.

(** ** Loading *)

Definition from_disk (x : addr * item) : item := mkItem (it_id x.2) (it_dsml x.2) TOOL_MEMORY_DISK.

Lemma fread_app n a p : zlen a = n -> fread n (a ++ p) = (a, p).
Proof.
  intros <-. unfold fread, zlen. rewrite Nat2Z.id. by rewrite take_app_length, drop_app_length.
Qed.

Lemma zlen_ne {A} (l : list A) : l <> [] -> 0 < zlen l.
Proof. destruct l; [done|]. intros _. rewrite zlen_cons. pose proof (zlen_nonneg l). lia. Qed.

Lemma load_entry n m x p k :
  savable x -> item_ok x.2 ->
  load_entries (S n) m None (entry_bytes x ++ p) k =
    (m ← tool_memory_put_locked m (it_id x.2) (it_dsml x.2) TOOL_MEMORY_DISK; load_entries n m None p (k + 1)).
Proof.
  intros (H1 & H2 & H3 & H4) (H5 & H6 & _). unfold entry_bytes. cbn [load_entries].
  pose proof (zlen_ne _ H5). pose proof (zlen_ne _ H6). unfold DS4_TOOL_MEMORY_MAX_BYTES in *.
  set (a := ds4_kvstore_le_put32 (zlen (it_id x.2))). set (b := ds4_kvstore_le_put32 (zlen (it_dsml x.2))).
  replace ((a ++ b ++ it_id x.2 ++ it_dsml x.2) ++ p) with ((a ++ b) ++ it_id x.2 ++ it_dsml x.2 ++ p)
    by (by rewrite <- !app_assoc).
  rewrite fread_app by done. change (negb (zlen (a ++ b) =? 8)) with false. cbv iota beta zeta.
  assert (Ea : ds4_kvstore_le_get32 (a ++ b) = zlen (it_id x.2)) by (apply le_get_put32; unfold in_u; lia).
  assert (Eb : ds4_kvstore_le_get32 (drop 4 (a ++ b)) = zlen (it_dsml x.2)).
  { change (drop 4 (a ++ b)) with b. rewrite <- (app_nil_r b). apply le_get_put32. unfold in_u. lia. }
  rewrite Ea, Eb. unfold DS4_TOOL_MEMORY_MAX_BYTES.
  destruct (Z.eqb_spec (zlen (it_id x.2)) 0); [lia|]. destruct (Z.ltb_spec 256 (zlen (it_id x.2))); [lia|].
  destruct (Z.eqb_spec (zlen (it_dsml x.2)) 0); [lia|].
  destruct (Z.ltb_spec (512 * 1024 * 1024) (zlen (it_dsml x.2))); [lia|]. cbn [orb].
  rewrite fread_app by done. rewrite fread_app by done. rewrite !Z.eqb_refl. cbn [andb negb is_wanted].
  rewrite !cstr_no_nul by done. unfold tool_memory_put_source. destruct (it_id x.2); [done|]. by destruct (it_dsml x.2).
Qed.

Lemma lru_bytes_app_r l1 l2 : lru_bytes l2 <= lru_bytes (l1 ++ l2).
Proof.
  induction l1 as [|it l1 IH]; cbn [app lru_bytes]; [lia|]. unfold entry_size, block_size, sizeof_entry, sizeof_block.
  pose proof (zlen_nonneg (it_id it)). pose proof (zlen_nonneg (it_dsml it)). destruct (bool_decide _); lia.
Qed.

Lemma not_over_app maxe maxb l1 l2 : lru_over maxe maxb (l1 ++ l2) = false -> lru_over maxe maxb l2 = false.
Proof.
  unfold lru_over. rewrite !orb_false_iff, !Z.ltb_ge, zlen_app. pose proof (lru_bytes_app_r l1 l2).
  pose proof (zlen_nonneg l1). lia.
Qed.

Lemma prune_fits maxe maxb l : lru_over maxe maxb l = false -> lru_prune maxe maxb l = l.
Proof. intros E. unfold lru_prune. destruct (length l); cbn [lru_prune_n]; [done|]. by rewrite E. Qed.

Lemma load_entries_spec maxe maxb xs m l k :
  maxb <= 2 ^ 62 -> represents maxe maxb m l -> Forall savable xs -> Forall (fun x => item_ok x.2) xs ->
  NoDup ((fun x => it_id x.2) <$> xs) -> (forall x it, x ∈ xs -> it ∈ l -> it_id it <> it_id x.2) ->
  lru_over maxe maxb (rev (from_disk <$> xs) ++ l) = false ->
  exists m', load_entries (length xs) m None (flat_map entry_bytes xs) k = Some (m', k + zlen xs) /\
    represents maxe maxb m' (rev (from_disk <$> xs) ++ l).
Proof.
  intros Hb. revert m l k. induction xs as [|x xs IH]; intros m l k H Hs Hi Hn Hd Ho.
  - exists m. cbn. by rewrite Z.add_0_r.
  - apply Forall_cons in Hs as [Hx Hs], Hi as [Hix Hi]. cbn [fmap list_fmap] in Hn. apply NoDup_cons in Hn as [Hxn Hn].
    cbn [flat_map length]. rewrite load_entry by done. cbn [fmap list_fmap rev] in *. rewrite <- app_assoc in *. cbn [app] in *.
    pose proof Hix as (Hi1 & Hi2 & Hi3 & Hi4).
    destruct (put_represents maxe maxb Hb m l _ _ TOOL_MEMORY_DISK H Hi1 Hi2 Hi3 Hi4) as (m1 & -> & H1). cbn [mbind option_bind].
    assert (El : lru_put maxe maxb l (it_id x.2) (it_dsml x.2) TOOL_MEMORY_DISK = from_disk x :: l).
    { unfold lru_put, put_source. destruct (lru_absent (it_id x.2) l) as [-> ->]; [intros it Hit; by apply Hd; [left|]|].
      apply prune_fits. by apply not_over_app in Ho. }
    rewrite El in H1. destruct (IH m1 (from_disk x :: l) (k + 1) H1 Hs Hi Hn) as (m2 & -> & H2); [|exact Ho|].
    + intros y it Hy [->|Hit]%elem_of_cons; [|by apply Hd; [right|]]. cbn. intros E. apply Hxn. apply list_elem_of_fmap. by exists y.
    + exists m2. split; [|exact H2]. rewrite zlen_cons. do 2 f_equal. lia.
Qed.

(** ** The round trip *)

Lemma rep_ids_nodup m L : rep m L -> NoDup ((fun x => it_id x.2) <$> L).
Proof.
  intros H. apply NoDup_fmap_2_strong; [|by eapply rep_pairs_nodup]. intros [a it] [a' it'] Hx Hy E. cbn [snd] in E.
  assert (H1 : index_of (by_id m) !! it_id it = Some a) by (apply (r_ids _ _ H); eauto).
  assert (H2 : index_of (by_id m) !! it_id it = Some a') by (apply (r_ids _ _ H); eauto).
  assert (a' = a) as -> by congruence. by rewrite (rep_unique _ _ _ _ _ H Hx Hy).
Qed.

Lemma lru_bytes_disk xs : lru_bytes (from_disk <$> xs) = lru_bytes xs.*2.
Proof.
  induction xs as [|x xs IH]; [done|]. cbn [fmap list_fmap lru_bytes from_disk it_id it_dsml snd]. unfold fmap in *.
  rewrite IH. assert (E : map it_dsml (map from_disk xs) = map it_dsml (map snd xs)) by (by rewrite !map_map).
  change (list_fmap _ _ it_dsml (list_fmap _ _ from_disk xs)) with (map it_dsml (map from_disk xs)).
  change (list_fmap _ _ it_dsml (list_fmap _ _ snd xs)) with (map it_dsml (map snd xs)). by rewrite E.
Qed.

Lemma fits_saved maxe maxb xs text L :
  xs ≡ₚ saved text L -> lru_over maxe maxb L.*2 = false -> lru_over maxe maxb (rev (from_disk <$> xs) ++ []) = false.
Proof.
  intros Hp Ho. rewrite app_nil_r. destruct (with_texts_sub (transcript_blocks text) L) as [r Hr].
  apply (not_over_app maxe maxb r.*2). revert Ho. unfold lru_over. rewrite !orb_false_iff, !Z.ltb_ge.
  assert (E : r.*2 ++ rev (from_disk <$> xs) ≡ₚ r.*2 ++ (from_disk <$> xs)) by (by rewrite <- Permutation_rev).
  rewrite (Permutation_zlen _ _ E), (lru_bytes_perm _ _ E).
  assert (El : forall k, lru_bytes (k ++ (from_disk <$> xs)) = lru_bytes (k ++ xs.*2)).
  { assert (Et : it_dsml <$> (from_disk <$> xs) = it_dsml <$> xs.*2) by (by rewrite <- !list_fmap_compose).
    intros k. induction k as [|it k IH]; [apply lru_bytes_disk|]. cbn [app lru_bytes]. by rewrite IH, !fmap_app, Et. }
  assert (Hl : r.*2 ++ xs.*2 ≡ₚ L.*2).
  { rewrite <- fmap_app. apply fmap_Permutation. rewrite Hp. unfold saved. by rewrite Permutation_app_comm, <- Hr. }
  rewrite El, (lru_bytes_perm _ _ Hl), <- (Permutation_zlen _ _ Hl), !zlen_app, !zlen_fmap. done.
Qed.

(** Id and text of an item the loader accepts. *)
Definition item_savable (it : item) : Prop :=
  zlen (it_id it) <= 256 /\ zlen (it_dsml it) <= DS4_TOOL_MEMORY_MAX_BYTES /\ no_nul (it_id it) /\ no_nul (it_dsml it).

(** The list holds the text for the id. *)
Definition stored (l : list item) (id d : bytes) : Prop := exists it, it ∈ l /\ it_id it = id /\ it_dsml it = d.

Lemma stored_saved xs text L id d :
  xs ≡ₚ saved text L ->
  stored (rev (from_disk <$> xs) ++ []) id d <-> stored L.*2 id d /\ d ∈ transcript_blocks text.
Proof.
  intros Hp. rewrite app_nil_r. unfold stored. split.
  - intros (it & Hin & <- & <-). rewrite list_elem_of_In, <- in_rev, <- list_elem_of_In in Hin.
    apply list_elem_of_fmap in Hin as (x & -> & Hx). rewrite Hp in Hx. apply list_elem_of_filter in Hx as [Ht Hx].
    split; [|done]. exists x.2. split; [|done]. apply list_elem_of_fmap. by exists x.
  - intros [(it & Hin & <- & <-) Ht]. apply list_elem_of_fmap in Hin as (x & -> & Hx). exists (from_disk x). split; [|done].
    rewrite list_elem_of_In, <- in_rev, <- list_elem_of_In. apply list_elem_of_fmap. exists x. split; [done|].
    rewrite Hp. apply list_elem_of_filter. by split.
Qed.

Lemma load_map_bytes maxe maxb f xs :
  maxb <= 2 ^ 62 -> represents maxe maxb f [] -> Forall savable xs -> Forall (fun x => item_ok x.2) xs ->
  NoDup ((fun x => it_id x.2) <$> xs) -> lru_over maxe maxb (rev (from_disk <$> xs) ++ []) = false -> zlen xs <= 2 ^ 31 ->
  exists m', kv_tool_map_load_from_pos false f None (map_bytes xs) = Some (m', zlen xs) /\
    represents maxe maxb m' (rev (from_disk <$> xs) ++ []).
Proof.
  intros Hb H Hs Hi Hn Ho Hl. unfold kv_tool_map_load_from_pos. destruct (decide (xs = [])) as [->|Hne]; [by exists f|].
  assert (Em : map_bytes xs = tool_map_header (zlen xs) ++ flat_map entry_bytes xs) by by destruct xs.
  rewrite Em, fread_app by done. change (negb (zlen (tool_map_header (zlen xs)) =? KV_TOOL_MAP_HEADER)) with false.
  change (take 4 (tool_map_header (zlen xs))) with [ch "K"; ch "T"; ch "M"; KV_TOOL_MAP_VERSION].
  rewrite (proj2 (bytes_eqb_eq _ _)) by done. cbn [negb]. pose proof (zlen_ne _ Hne).
  assert (Ec : ds4_kvstore_le_get32 (drop 4 (tool_map_header (zlen xs))) = zlen xs).
  { change (drop 4 (tool_map_header (zlen xs))) with (ds4_kvstore_le_put32 (zlen xs)).
    rewrite <- (app_nil_r (ds4_kvstore_le_put32 _)). apply le_get_put32. unfold in_u. lia. }
  rewrite Ec, (rs_entries _ _ _ _ H). pose proof Ho as Ho'. apply orb_false_iff in Ho' as [Ho'%Z.ltb_ge _].
  rewrite app_nil_r in Ho'. unfold zlen in Ho' at 1. rewrite length_rev, length_fmap in Ho'. fold (zlen xs) in Ho'.
  rewrite (proj2 (Z.ltb_ge _ _)) by lia. unfold zlen at 1. rewrite Nat2Z.id.
  apply (load_entries_spec maxe maxb xs f [] 0); try done. intros x it _ Hit. by apply not_elem_of_nil in Hit.
Qed.

Lemma map_roundtrip maxe maxb m l f text :
  represents maxe maxb m l -> seen_ok m -> scan_clock m + 2 < 2 ^ 64 ->
  maxe <= 2 ^ 31 -> maxb <= 2 ^ 62 -> Forall item_savable l -> text <> [] -> represents maxe maxb f [] ->
  exists m1 m2 data m3 l3,
    kv_tool_map_write false m text = Some (m1, Some (data, zlen data)) /\ represents maxe maxb m1 l /\ seen_ok m1 /\
    kv_tool_map_serialized_size false m text = Some (m2, Some (zlen data)) /\
    kv_tool_map_load_from_pos false f None data = Some (m3, zlen l3) /\ represents maxe maxb m3 l3 /\
    (forall id d, stored l3 id d <-> stored l id d /\ d ∈ transcript_blocks text) /\
    Forall (fun it => it_source it = TOOL_MEMORY_DISK) l3.
Proof.
  intros [(L & H & <-) He Hby Hw] Hs Hc Hme Hmb Hsv Ht Hf.
  assert (Hsl : Forall savable L) by (rewrite Forall_fmap in Hsv; exact Hsv).
  assert (Hz : zlen L <= 2 ^ 31).
  { destruct Hw as [E|[Hw%Z.ltb_ge _]%orb_false_iff]; [|by rewrite zlen_fmap in Hw; lia]. by destruct L. }
  assert (Hsm : savable_memory m L) by by split_and!.
  destruct (write_spec m L text Hsm Ht) as (m1 & xs & E1 & Hp & H1 & K1 & S1 & _).
  destruct (measure_spec m L text Hsm) as (m2 & E2 & _). destruct (with_texts_sub (transcript_blocks text) L) as [r Hr].
  assert (HLp : L ≡ₚ xs ++ r) by (rewrite Hp; exact Hr).
  assert (Hx1 : Forall savable xs /\ Forall (fun x => item_ok x.2) xs /\ NoDup ((fun x => it_id x.2) <$> xs)).
  { split; [by rewrite HLp, Forall_app in Hsl; destruct Hsl|]. split.
    - pose proof (r_ok _ _ H) as Hok. apply Forall_forall. intros x Hx. revert Hok. rewrite Forall_forall. intros Hok. apply Hok, list_elem_of_fmap.
      exists x. split; [done|]. rewrite HLp. apply elem_of_app. by left.
    - pose proof (rep_ids_nodup _ _ H) as Hn. rewrite HLp, fmap_app in Hn. by apply NoDup_app in Hn as (Hn & _). }
  destruct Hx1 as (Hx1 & Hx2 & Hx3).
  assert (Hz2 : zlen xs <= 2 ^ 31) by (rewrite (Permutation_zlen _ _ HLp), zlen_app in Hz; pose proof (zlen_nonneg r); lia).
  assert (Hload : exists m3, kv_tool_map_load_from_pos false f None (map_bytes xs) = Some (m3, zlen xs) /\
    represents maxe maxb m3 (rev (from_disk <$> xs) ++ [])).
  { destruct Hw as [E|Ho]; [|by apply load_map_bytes; try done; eapply fits_saved].
    destruct L; [|done]. apply Permutation_nil_r in Hp as ->. by exists f. }
  destruct Hload as (m3 & E3 & H3). exists m1, m2, (map_bytes xs), m3, (rev (from_disk <$> xs) ++ []).
  destruct (kept_limits _ _ K1) as [Kl1 Kl2]. split; [done|]. split.
  { split; [by exists L|congruence|congruence|done]. }
  split; [done|]. split.
  { unfold kv_tool_map_serialized_size. destruct text; [done|]. rewrite E2. cbn [mbind option_bind option_map snd].
    rewrite zlen_map_bytes, <- (entries_total_perm _ _ Hp). do 3 f_equal. apply Permutation_length in Hp.
    by destruct xs, (saved (z :: text) L). }
  split; [|split; [done|split]].
  - rewrite E3. do 2 f_equal. rewrite app_nil_r. unfold zlen. by rewrite length_rev, length_fmap.
  - intros id d. by apply stored_saved.
  - rewrite app_nil_r. apply Forall_rev, Forall_fmap, Forall_forall. done.
Qed.

(**  Saving the tool map of a transcript behind a checkpoint and loading it into
    an empty memory restores exactly the ids whose text occurs as a block of the
    transcript, each with its text byte for byte; the size announced before equals
    the bytes written, and saving leaves what the memory holds as it is. *)
Lemma tool_map_roundtrip maxe maxb m l f text :
  represents maxe maxb m l -> seen_ok m -> scan_clock m + 2 < 2 ^ 64 ->
  maxe <= 2 ^ 31 -> maxb <= 2 ^ 62 -> Forall item_savable l -> text <> [] -> represents maxe maxb f [] ->
  exists m1 m2 data m3 l3,
    kv_tool_map_write false m text = Some (m1, Some (data, zlen data)) /\ represents maxe maxb m1 l /\ seen_ok m1 /\
    kv_tool_map_serialized_size false m text = Some (m2, Some (zlen data)) /\
    kv_tool_map_load_from_pos false f None data = Some (m3, zlen l3) /\ represents maxe maxb m3 l3 /\
    (forall id d, stored l3 id d <-> stored l id d /\ d ∈ transcript_blocks text) /\
    Forall (fun it => it_source it = TOOL_MEMORY_DISK) l3.
Proof. apply map_roundtrip. Qed.
