(* ===== verification/ToolRestart.v ===== *)
(** * ToolRestart: tool calls survive a restart (ds4_server.c, ds4_kvstore.c)

    The KV store with the hooks of the tool map: a checkpoint stored by one
    process restores, in the next one, the tokens and the tool memory.  Concrete
    runs of the tool memory. *)

From S2P Require Import Prelude Ctype KvHeader Fs KvStore KvFile KvSession KvLoad KvSafe KvRound.
From S2P Require Import Json JsonFacts JsonRequest Dsml DsmlFacts.
From stdpp Require Import gmap.
From S2P Require Import ToolMemory ToolMemoryFacts ToolMemoryRep ToolMemoryOps ToolMemorySpec ToolMap ToolMapFacts.
#[local] Open Scope Z_scope.

Definition KV_EXT_TOOL_MAP : Z := 1.

(** The callbacks on memory [m]; what a call changes in it are the marks of scans. *)
Definition kv_cache_tool_map_hooks (off : bool) (m : tool_memory) : trailer_hooks := {|
  hk_ext_flag := KV_EXT_TOOL_MAP;
  hk_serialized_size := Some (fun text => '(_, r) ← kv_tool_map_serialized_size off m text; r);
  hk_write := Some (fun text => '(_, r) ← kv_tool_map_write off m text; option_map fst r);
  hk_load := true
|}.

(** The load callback: it reads from where the stream stands. *)
Definition kv_cache_tool_map_load_cb (off : bool) (f : tool_memory) (wanted : option (list bytes)) (w : world)
    (fp : option stream) : option (tool_memory * Z) :=
  match fp with
  | None => Some (f, 0)
  | Some st => c ← w_files w !! st_path st; kv_tool_map_load_from_pos off f wanted (drop (st_pos st) c)
  end.

(** What a restart needs of the memory that is saved. *)
Record map_ready (maxe maxb : Z) (m : tool_memory) (l : list item) : Prop := mkMapReady {
  mr_represents : represents maxe maxb m l;
  mr_seen : seen_ok m;
  mr_clock : scan_clock m + 2 < 2 ^ 64;
  mr_entries : maxe <= 2 ^ 31;
  mr_bytes : maxb <= 2 ^ 62;
  mr_savable : Forall item_savable l
}.

Lemma hooks_trailer maxe maxb m l f text :
  map_ready maxe maxb m l -> represents maxe maxb f [] -> text <> [] ->
  exists data f' l', trailer_is (Some (kv_cache_tool_map_hooks false m)) text data /\
    kv_tool_map_load_from_pos false f None data = Some (f', zlen l') /\ represents maxe maxb f' l' /\
    (forall id d, stored l' id d <-> stored l id d /\ d ∈ transcript_blocks text).
Proof.
  intros [H Hs Hc He Hb Hsv] Hf Ht.
  destruct (map_roundtrip maxe maxb m l f text H Hs Hc He Hb Hsv Ht Hf)
    as (m1 & m2 & data & f' & l' & E1 & _ & _ & E2 & E3 & H3 & Hst & _).
  exists data, f', l'. split; [|done]. split; [| |done].
  - cbn [kv_trailer_serialized_size kv_cache_tool_map_hooks hk_serialized_size]. by rewrite E2.
  - cbn [kv_cache_tool_map_hooks hk_write]. by rewrite E1.
Qed.

Section restart.
Context {E : Engine} {EL : EngineLaws}.

(** C3.  After a restart nothing the checkpoint speaks of is lost.  A server opens
    its cache directory and stores a session; the next process opens the directory
    with the same options, whose start-up eviction removes nothing, and loads for a
    prompt that continues the text.  It yields the session's tokens, and the load
    hook fills the empty tool memory of the new process with exactly the ids whose
    text occurs in the stored transcript.  No call fails, no other file of the
    directory reads as a checkpoint, and nothing else writes there in between. *)
Theorem restart_restores exp2 pid dir budget_mb reject opt session session' toks payload reason suffix w maxe maxb m l f :
  let kc0 := configured_store dir budget_mb reject opt in
  quiet w -> order_ok w -> dir <> [] -> dir_empty kc0 w ->
  (eg_routed_quant_bits = 2 \/ eg_routed_quant_bits = 4) ->
  eg_tokens session = Some toks -> eg_stage_payload session = Some payload ->
  let text := ds4_kvstore_render_tokens_text toks in
  0 < zlen toks <= INT_MAX -> o_min_tokens opt <= zlen toks ->
  zlen text <= UINT32_MAX -> 0 <= eg_ctx session <= eg_ctx session' -> eg_ctx session' <= INT_MAX ->
  map_ready maxe maxb m l -> represents maxe maxb f [] -> cstr text <> [] ->
  exists data, trailer_is (Some (kv_cache_tool_map_hooks false m)) (cstr text) data /\
  ((ds4_kvstore_file_size_fits (Some kc0) (zlen text) (zlen payload) (zlen data)).1.1 = true ->
   let '((opened, kc), w0) := ds4_kvstore_open exp2 (Some dir) budget_mb reject opt w in
   let '((stored_ok, _), w1) := ds4_kvstore_store_live_prefix exp2 pid kc session (Some toks) (zlen toks) reason
                                  (Some (kv_cache_tool_map_hooks false m)) w0 in
   let '((reopened, kc'), w2) := ds4_kvstore_open exp2 (Some dir) budget_mb reject opt w1 in
   (opened, stored_ok, reopened) = (true, true, true) /\
   let lo := (ds4_kvstore_try_load_text kc' session' (Some (text ++ suffix)) (Some (kv_cache_tool_map_hooks false f)) w2).1 in
   lo_loaded lo = zlen toks /\ eg_tokens (lo_session lo) = Some toks /\
   lo_prompt lo = toks ++ eg_tokenize_rendered_chat suffix /\
   exists f' l', kv_cache_tool_map_load_cb false f None w2 (lo_hook lo) = Some (f', zlen l') /\
     represents maxe maxb f' l' /\
     forall id d, stored l' id d <-> stored l id d /\ d ∈ transcript_blocks (cstr text)).
Proof using EL.
  intros kc0 Hq Ho Hdn Hd Hqb Htoks Hstage text Hlen Hmin Htext Hctx Hctx' Hm Hf Hne. subst text.
  destruct (hooks_trailer maxe maxb m l f _ Hm Hf Hne) as (data & f' & l' & Htr & Hload & H' & Hst).
  exists data. split; [exact Htr|]. intros Hfit. destruct (fits_sizes _ _ _ _ Hfit) as (Hp64 & Hsz & Hbudget).
  destruct (run_open exp2 dir budget_mb reject opt w Hq Hdn) as (kc & w0 & -> & Hq0 & Ef0 & Eo0 & Hdir & He & Hopt & Hb).
  { intros _. change (total_size (KvEvict.listed kc0 w) <= kc_budget_bytes kc0). rewrite dir_empty_listed by done. apply (wrap_range 64). lia. }
  destruct (store_leaves exp2 pid kc session toks payload reason (Some (kv_cache_tool_map_hooks false m)) data w0) as
    (kc1 & w1 & -> & Hq1 & Ho1 & Hdir1 & _ & _ & Hal); try done.
  { intros x. rewrite Eo0. apply Ho. }
  { intros n Hn. rewrite Ef0, Hdir. by apply Hd. }
  { by rewrite Hopt. }
  { lia. }
  { unfold ds4_kvstore_file_size_fits in *. by rewrite Hb. }
  rewrite <- Hdir in Hdn. rewrite <- Hdir.
  destruct (reopen_keeps exp2 budget_mb reject opt kc session toks payload reason _ data w1 Hq1 Hdn Hal) as
    (kc2 & w2 & -> & Hq2 & Hdir2 & He2 & Hopt2 & Hal2).
  { rewrite Hdir. exact Hbudget. }
  split; [done|].
  destruct (stored_loads kc kc2 session session' toks payload reason (Some (kv_cache_tool_map_hooks false m))
    (Some (kv_cache_tool_map_hooks false f)) data suffix w2) as (H1 & H2 & H3 & H4); try done.
  { by rewrite Hopt2. }
  { pose proof (zlen_nonneg data). lia. }
  split; [exact H1|]. split; [exact H2|]. split; [exact H3|].
  exists f', l'. split; [|done]. unfold hook_reads in H4. cbn [kv_cache_tool_map_hooks hk_load andb] in H4.
  destruct (Z.ltb_spec 0 (zlen data)) as [_|Hz].
  - destruct H4 as (st & c & -> & Hc & Hdr). cbn [kv_cache_tool_map_load_cb]. rewrite Hc. cbn [mbind option_bind]. by rewrite Hdr.
  - rewrite H4. cbn [kv_cache_tool_map_load_cb]. assert (data = []) as -> by (apply length_zero_iff_nil; unfold zlen in Hz; lia).
    exact Hload.
Qed.
End restart.

(** ** A concrete memory *)

Definition demo_call (id : bytes) : tool_call := mkToolCall (Some id) (Some (bs "read")) (Some (bs "{}")).
Definition demo_block : bytes := bs "<tool_calls>read</tool_calls>".
Definition demo_block2 : bytes := bs "<tool_calls>list</tool_calls>".

(** Four ids for three places: the oldest goes. *)
Definition demo_requests : list request :=
  [PutSource (bs "old") demo_block2 TOOL_MEMORY_DISK;
   Remember (mkCalls [demo_call (bs "a"); demo_call (bs "b")] (Some demo_block));
   PutSource (bs "c") demo_block2 TOOL_MEMORY_DISK;
   Attach [mkCalls [demo_call (bs "b"); demo_call (bs "a")] None;
           mkCalls [demo_call (bs "a"); demo_call (bs "c")] None;
           mkCalls [demo_call (bs "old")] None]].

Definition demo_items : list item := (lru_serve_all 3 4096 [] demo_requests).1.

Definition demo_memory : tool_memory :=
  match serve_all (tool_memory_empty 3 4096) demo_requests with Some (m, _) => m | None => tool_memory_empty 3 4096 end.

(** The two calls of one turn are replayed together; calls of different turns and a
    forgotten id are not. *)
Example demo_answers :
  (lru_serve_all 3 4096 [] demo_requests).2 =
  [(stats_zero, []); (stats_zero, []); (stats_zero, []);
   (mkStats 1 0 2 1,
    [mkCalls [demo_call (bs "b"); demo_call (bs "a")] (Some demo_block);
     mkCalls [demo_call (bs "a"); demo_call (bs "c")] None; mkCalls [demo_call (bs "old")] None])].
Proof. vm_compute. reflexivity. Qed.

Lemma demo_requests_ok : Forall request_ok demo_requests.
Proof. repeat constructor. Qed.

Lemma demo_represents : represents 3 4096 demo_memory demo_items.
Proof.
  destruct (serve_all_spec 3 4096 ltac:(lia) demo_requests _ [] (empty_represents 3 4096) demo_requests_ok) as (m & E & H).
  unfold demo_memory. by rewrite E.
Qed.

Lemma demo_seen : seen_ok demo_memory.
Proof.
  assert (Hm : map_Forall (fun _ blk => 0 <= b_seen blk <= scan_clock demo_memory) (bheap demo_memory)).
  { apply (bool_decide_unpack _). vm_compute. exact I. }
  split; [|by vm_compute]. intros b blk Hb. by apply (Hm b blk).
Qed.

Lemma demo_savable : Forall item_savable demo_items.
Proof. unfold item_savable, no_nul. apply (bool_decide_unpack _). vm_compute. exact I. Qed.

Lemma demo_ready : map_ready 3 4096 demo_memory demo_items.
Proof. split; [apply demo_represents|apply demo_seen|by vm_compute|lia|lia|apply demo_savable]. Qed.

Lemma tool_memory_refines_lru_witness :
  Forall request_ok demo_requests /\
  exists m, serve_all (tool_memory_empty 3 4096) demo_requests = Some (m, (lru_serve_all 3 4096 [] demo_requests).2).
Proof.
  split; [repeat constructor|].
  destruct (tool_memory_refines_lru 3 4096 demo_requests ltac:(vm_compute; discriminate) demo_requests_ok) as (m & E & _).
  exists m. exact E.
Defined.

Lemma attach_exact_witness :
  represents 3 4096 demo_memory demo_items /\
  exists m' st' calls', attach_message demo_memory stats_zero (mkCalls [demo_call (bs "b"); demo_call (bs "a")] None)
    = Some (m', st', calls') /\ tcs_raw_dsml calls' = Some demo_block.
Proof.
  split; [apply demo_represents|].
  destruct (attach_exact 3 4096 demo_memory demo_items stats_zero (mkCalls [demo_call (bs "b"); demo_call (bs "a")] None)
    demo_block ltac:(lia) demo_represents eq_refl ltac:(discriminate)) as (m' & st' & calls' & E & _ & H).
  exists m', st', calls'. split; [exact E|]. apply H.
  constructor; [|constructor; [|constructor]]; (split; [vm_compute; discriminate|]); eexists; (split; [vm_compute; reflexivity|]);
    vm_compute; reflexivity.
Defined.

Definition demo_transcript : bytes := bs "ok" ++ demo_block ++ bs " and " ++ demo_block.

Lemma tool_map_roundtrip_witness :
  represents 3 4096 demo_memory demo_items /\
  exists data f' l', kv_tool_map_load_from_pos false (tool_memory_empty 3 4096) None data = Some (f', zlen l') /\
    stored l' (bs "a") demo_block /\ stored l' (bs "b") demo_block /\ ~ stored l' (bs "c") demo_block2.
Proof.
  split; [apply demo_represents|]. destruct demo_ready as [H Hs Hc He Hb Hv].
  destruct (tool_map_roundtrip 3 4096 demo_memory demo_items (tool_memory_empty 3 4096) demo_transcript
    H Hs Hc He Hb Hv ltac:(discriminate) (empty_represents 3 4096)) as (m1 & m2 & data & m3 & l3 & _ & _ & _ & _ & E & _ & Hst & _).
  exists data, m3, l3. split; [exact E|]. rewrite !Hst. unfold stored.
  split; [|split].
  1,2: split; [|apply (bool_decide_unpack _); vm_compute; exact I].
  - exists (mkItem (bs "a") demo_block TOOL_MEMORY_RAM). split; [|split; reflexivity]. vm_compute. repeat constructor.
  - exists (mkItem (bs "b") demo_block TOOL_MEMORY_RAM). split; [|split; reflexivity]. vm_compute. repeat constructor.
  - intros [_ Hin]. revert Hin. apply (bool_decide_unpack _). vm_compute. exact I.
Defined.

Definition demo_tool_session : demo_session := mkDemo demo_transcript 4096 true.

Definition demo_options : options := mkOptions 1 30000 10 0 0.

Lemma restart_restores_witness :
  map_ready 3 4096 demo_memory demo_items /\
  let text := @ds4_kvstore_render_tokens_text demo_engine demo_transcript in
  let '((opened, kc), w0) := ds4_kvstore_open (fun _ => d_one) (Some (bs "/kv")) 1 false demo_options demo_world in
  let '((stored_ok, _), w1) := @ds4_kvstore_store_live_prefix demo_engine (fun _ => d_one) (bs "42") kc demo_tool_session
    (Some demo_transcript) (zlen demo_transcript) (Some (bs "cold")) (Some (kv_cache_tool_map_hooks false demo_memory)) w0 in
  let '((reopened, kc'), w2) := ds4_kvstore_open (fun _ => d_one) (Some (bs "/kv")) 1 false demo_options w1 in
  (opened, stored_ok, reopened) = (true, true, true) /\
  let lo := (@ds4_kvstore_try_load_text demo_engine kc' (mkDemo [] 4096 false)
               (Some (text ++ bs " there")) (Some (kv_cache_tool_map_hooks false (tool_memory_empty 3 4096))) w2).1 in
  lo_loaded lo = zlen demo_transcript /\ @eg_tokens demo_engine (lo_session lo) = Some demo_transcript /\
  lo_prompt lo = demo_transcript ++ @eg_tokenize_rendered_chat demo_engine (bs " there") /\
  exists f' l', kv_cache_tool_map_load_cb false (tool_memory_empty 3 4096) None w2 (lo_hook lo) = Some (f', zlen l') /\
    represents 3 4096 f' l' /\
    forall id d, stored l' id d <-> stored demo_items id d /\ d ∈ transcript_blocks (cstr text).
Proof.
  split; [apply demo_ready|].
  assert (H := @restart_restores demo_engine _ (fun _ => d_one) (bs "42") (bs "/kv") 1 false demo_options demo_tool_session
    (mkDemo [] 4096 false) demo_transcript (concat (map ds4_kvstore_le_put32 demo_transcript)) (Some (bs "cold")) (bs " there")
    demo_world 3 4096 demo_memory demo_items (tool_memory_empty 3 4096)).
  cbv zeta in H |- *. edestruct H as (data & Htr & Hrun); clear H; [..|].
  1-15: try (vm_compute; first [reflexivity | left; reflexivity | intuition discriminate]).
  - intros name _. unfold KvEvict.name_entry. cbn. by destruct (ds4_kvstore_sha_hex_name name).
  - apply demo_ready.
  - apply (empty_represents 3 4096).
  - match type of Hrun with ?A -> _ => assert (Hfit : A) end.
    { pose proof (ti_size _ _ _ Htr) as Hz.
      match type of Hz with ?l = _ => let v := eval vm_compute in l in assert (Hv : l = v) by (vm_compute; reflexivity); rewrite Hv in Hz end.
      injection Hz as <-. vm_compute. reflexivity. }
    exact (Hrun Hfit).
Defined.

(** The run: the file is written, and the next process knows the two calls. *)
Example restart_run :
  let '((_, kc), w0) := ds4_kvstore_open (fun _ => d_one) (Some (bs "/kv")) 1 false demo_options demo_world in
  let '((ok, _), w1) := @ds4_kvstore_store_live_prefix demo_engine (fun _ => d_one) (bs "42") kc demo_tool_session
    (Some demo_transcript) (zlen demo_transcript) (Some (bs "cold")) (Some (kv_cache_tool_map_hooks false demo_memory)) w0 in
  let '((_, kc'), w2) := ds4_kvstore_open (fun _ => d_one) (Some (bs "/kv")) 1 false demo_options w1 in
  let f := tool_memory_empty 3 4096 in
  let lo := (@ds4_kvstore_try_load_text demo_engine kc' (mkDemo [] 4096 false)
               (Some (demo_transcript ++ bs " there")) (Some (kv_cache_tool_map_hooks false f)) w2).1 in
  match kv_cache_tool_map_load_cb false f None w2 (lo_hook lo) with
  | Some (f, n) => (ok, lo_loaded lo, n, tool_memory_has_id false f (bs "a"), tool_memory_has_id false f (bs "c"))
  | None => (false, 0, 0, false, false)
  end = (true, zlen demo_transcript, 2, true, false).
Proof. vm_compute. reflexivity. Qed.
