(* ===== verification/Dist.v ===== *)
(** * Dist: the distributed protocol, from the wire to the route (ds4_distributed.c)

    The integers of a frame travel in network byte order.  A connection is the
    bytes the peer sends before it closes.  The registry of workers, the search
    for a route, and the route as it travels with the work. *)

From S2P Require Import Prelude Ctype KvHeader.

Definition DS4_DIST_MAGIC : Z := 0x44533444.
Definition DS4_DIST_MSG_HELLO : Z := 1.
Definition DS4_DIST_MSG_WORK : Z := 3.
Definition DS4_DIST_MAX_MODEL_NAME : Z := 127.
Definition DS4_DIST_ROUTE_F_OUTPUT_LOGITS : Z := 1.
Definition DS4_DIST_ROUTE_RETURN_UPSTREAM : Z := 1.
Definition NI_MAXHOST : Z := 1025.

(** ** The wire *)

(** [htonl] stored in memory, and [ntohl] of what is read, on a little-endian host. *)
Definition wire32 (v : Z) : bytes := rev (ds4_kvstore_le_put32 v).
Definition unwire32 (b : bytes) : Z := ds4_kvstore_le_get32 (rev b).

(** A record of 32-bit fields, and field [i] of one. *)
Definition fields_to_wire (fs : list Z) : bytes := flat_map wire32 fs.
Definition field_at (p : bytes) (i : nat) : Z := unwire32 (take 4 (drop (4 * i) p)).

Record ds4_dist_hello_fixed := mkHello {
  h_model_id : Z; h_quant_bits : Z; h_layer_start : Z; h_layer_end : Z; h_has_output : Z;
  h_has_hidden : Z; h_ctx_size : Z; h_n_layers : Z; h_listen_port : Z; h_model_name_len : Z
}.

Definition hello_fields (h : ds4_dist_hello_fixed) : list Z :=
  [h_model_id h; h_quant_bits h; h_layer_start h; h_layer_end h; h_has_output h;
   h_has_hidden h; h_ctx_size h; h_n_layers h; h_listen_port h; h_model_name_len h].

Definition dist_hello_to_wire (h : ds4_dist_hello_fixed) : bytes := fields_to_wire (hello_fields h).
Definition dist_hello_from_wire (p : bytes) : ds4_dist_hello_fixed :=
  let f := field_at p in
  mkHello (f 0%nat) (f 1%nat) (f 2%nat) (f 3%nat) (f 4%nat) (f 5%nat) (f 6%nat) (f 7%nat) (f 8%nat) (f 9%nat).

Record ds4_dist_route_fixed := mkRouteFixed {
  rf_host_len : Z; rf_port : Z; rf_layer_start : Z; rf_layer_end : Z; rf_flags : Z
}.

Definition dist_route_to_wire (r : ds4_dist_route_fixed) : bytes :=
  fields_to_wire [rf_host_len r; rf_port r; rf_layer_start r; rf_layer_end r; rf_flags r].
Definition dist_route_from_wire (p : bytes) : ds4_dist_route_fixed :=
  let f := field_at p in mkRouteFixed (f 0%nat) (f 1%nat) (f 2%nat) (f 3%nat) (f 4%nat).

Record ds4_dist_route_return_fixed := mkReturnFixed { rr_kind : Z; rr_host_len : Z; rr_port : Z }.

Definition dist_route_return_to_wire (r : ds4_dist_route_return_fixed) : bytes :=
  fields_to_wire [rr_kind r; rr_host_len r; rr_port r].
Definition dist_route_return_from_wire (p : bytes) : ds4_dist_route_return_fixed :=
  let f := field_at p in mkReturnFixed (f 0%nat) (f 1%nat) (f 2%nat).

Definition dist_bytes_have_nul (p : bytes) : bool := existsb (fun c => c =? 0) p.

(** [1] with the bytes and what follows, or [0] when the peer closes before. *)
Definition dist_read_full (n : Z) (p : bytes) : option (bytes * bytes) :=
  if zlen p <? n then None else Some (take (Z.to_nat n) p, drop (Z.to_nat n) p).

Definition dist_write_frame_header (type bytes : Z) : list Z := fields_to_wire [DS4_DIST_MAGIC; type; bytes].

(** The three return values of the readers. *)
Inductive received (A : Type) :=
| Received (a : A) (rest : bytes)
| Closed
| Malformed.
Arguments Received {A}.
Arguments Closed {A}.
Arguments Malformed {A}.

Definition dist_read_frame_header (p : bytes) : received (Z * Z) :=
  match dist_read_full 12 p with
  | None => Closed
  | Some (h, p) =>
      if negb (field_at h 0 =? DS4_DIST_MAGIC) then Malformed
      else Received (field_at h 1, field_at h 2) p
  end.

(** ** Greeting *)

Definition HELLO_BYTES : Z := 40.

(** A worker's assignment: its options, resolved against the model. *)
Record ds4_distributed_layers := mkLayers { l_set : bool; l_start : Z; l_end : Z; l_has_output : bool }.

Definition dist_resolved_layer_end (l : ds4_distributed_layers) (n_layers : Z) : Z :=
  if l_has_output l then u32 (n_layers - 1) else l_end l.

Definition bool_u32 (b : bool) : Z := if b then 1 else 0.

Definition dist_send_hello (n_layers model_id quant_bits : Z) (model_name : option bytes) (l : ds4_distributed_layers)
    (ctx_size listen_port : Z) : bytes :=
  let name := cstr (default (bs "unknown") model_name) in
  let name := take (Z.to_nat DS4_DIST_MAX_MODEL_NAME) name in
  let h := mkHello (u32 model_id) (u32 quant_bits) (l_start l) (dist_resolved_layer_end l n_layers)
             (bool_u32 (l_has_output l)) 1 (if 0 <? ctx_size then u32 ctx_size else 0) n_layers listen_port (zlen name) in
  dist_write_frame_header DS4_DIST_MSG_HELLO (HELLO_BYTES + zlen name) ++ dist_hello_to_wire h ++ name.

Definition dist_recv_hello (p : bytes) : received (ds4_dist_hello_fixed * bytes) :=
  match dist_read_frame_header p with
  | Closed => Closed
  | Malformed => Malformed
  | Received (type, bytes) p =>
      if negb (type =? DS4_DIST_MSG_HELLO) then Malformed
      else if (bytes <? HELLO_BYTES) || (HELLO_BYTES + DS4_DIST_MAX_MODEL_NAME <? bytes) then Malformed
      else
        match dist_read_full HELLO_BYTES p with
        | None => Closed
        | Some (w, p) =>
            let wire := dist_hello_from_wire w in
            let remaining := bytes - HELLO_BYTES in
            if negb (h_model_name_len wire =? remaining) || (DS4_DIST_MAX_MODEL_NAME <? h_model_name_len wire)
            then Malformed
            else if h_model_name_len wire =? 0 then Received (wire, []) p
            else
              match dist_read_full (h_model_name_len wire) p with
              | None => Closed
              | Some (name, p) => if dist_bytes_have_nul name then Malformed else Received (wire, name) p
              end
        end
  end.

(** ** The registry *)

Record ds4_dist_worker_entry := mkWorker {
  w_fd : Z; w_peer_host : bytes; w_peer_port : bytes; w_model_name : bytes;
  w_model_id : Z; w_quant_bits : Z; w_layer_start : Z; w_layer_end : Z;
  w_has_output : Z; w_has_hidden : Z; w_ctx_size : Z; w_n_layers : Z; w_listen_port : Z
}.

Record ds4_dist_coordinator_state := mkCoordinator {
  cs_model_id : Z; cs_n_layers : Z; cs_local_start : Z; cs_local_end : Z; cs_ctx_size : Z;
  cs_local_has_output : bool; cs_local_can_output_head : bool; cs_use_control_for_work : bool;
  cs_activation_bits : Z; cs_generation : Z; cs_workers : list ds4_dist_worker_entry; cs_shutting_down : bool
}.

Definition set_workers (ws : list ds4_dist_worker_entry) (st : ds4_dist_coordinator_state) : ds4_dist_coordinator_state :=
  mkCoordinator (cs_model_id st) (cs_n_layers st) (cs_local_start st) (cs_local_end st) (cs_ctx_size st)
    (cs_local_has_output st) (cs_local_can_output_head st) (cs_use_control_for_work st) (cs_activation_bits st)
    (u64 (cs_generation st + 1)) ws (cs_shutting_down st).

(** Why a worker is turned away. *)
Inductive reject :=
| ModelIdMismatch | ModelNameMismatch | LayerCountMismatch | BadQuantBits | BadOutputFlag | BadHiddenFlag
| BadLayerRange | OutputNeedsFinalLayer | ContextTooSmall | BadListenPort.

(** The checks of [dist_coordinator_client_main]; [expected] is the model name. *)
Definition hello_reject (st : ds4_dist_coordinator_state) (expected : bytes) (hello : ds4_dist_hello_fixed)
    (model_name : bytes) : option reject :=
  if negb (h_model_id hello =? cs_model_id st) then Some ModelIdMismatch
  else if negb (bytes_eqb model_name expected) then Some ModelNameMismatch
  else if negb (h_n_layers hello =? cs_n_layers st) then Some LayerCountMismatch
  else if negb (h_quant_bits hello =? 2) && negb (h_quant_bits hello =? 4) then Some BadQuantBits
  else if 1 <? h_has_output hello then Some BadOutputFlag
  else if 1 <? h_has_hidden hello then Some BadHiddenFlag
  else if (h_n_layers hello <=? h_layer_start hello) || (h_n_layers hello <=? h_layer_end hello) ||
          (h_layer_end hello <? h_layer_start hello) then Some BadLayerRange
  else if negb (h_has_output hello =? 0) && negb (u32 (h_layer_end hello + 1) =? h_n_layers hello)
  then Some OutputNeedsFinalLayer
  else if negb (cs_ctx_size st =? 0) && (h_ctx_size hello <? cs_ctx_size st) then Some ContextTooSmall
  else if (h_listen_port hello =? 0) || (65535 <? h_listen_port hello) then Some BadListenPort
  else None.

(** A connection that names the same slice again. *)
Definition is_stale (peer_host : bytes) (hello : ds4_dist_hello_fixed) (old : ds4_dist_worker_entry) : bool :=
  bytes_eqb (w_peer_host old) peer_host && (w_model_id old =? h_model_id hello) &&
  (w_layer_start old =? h_layer_start hello) && (w_layer_end old =? h_layer_end hello) &&
  (w_has_output old =? h_has_output hello).

Definition dist_coordinator_add_worker (st : ds4_dist_coordinator_state) (fd : Z) (peer_host peer_port : bytes)
    (hello : ds4_dist_hello_fixed) (model_name : bytes) : ds4_dist_coordinator_state :=
  if cs_shutting_down st then st
  else
    let entry := mkWorker fd peer_host peer_port model_name (h_model_id hello) (h_quant_bits hello)
                   (h_layer_start hello) (h_layer_end hello) (h_has_output hello) (h_has_hidden hello)
                   (h_ctx_size hello) (h_n_layers hello) (h_listen_port hello) in
    set_workers (entry :: List.filter (fun old => negb (is_stale peer_host hello old)) (cs_workers st)) st.

(** The first entry that satisfies [p] is unlinked. *)
Fixpoint unlink_first (p : ds4_dist_worker_entry -> bool) (ws : list ds4_dist_worker_entry)
  : option (list ds4_dist_worker_entry) :=
  match ws with
  | [] => None
  | w :: ws' => if p w then Some ws' else cons w <$> unlink_first p ws'
  end.

Definition dist_coordinator_remove_worker (st : ds4_dist_coordinator_state) (fd : Z) : ds4_dist_coordinator_state :=
  match unlink_first (fun w => w_fd w =? fd) (cs_workers st) with
  | Some ws => set_workers ws st
  | None => st
  end.

(** The connection thread until it starts to wait: the reply to the greeting. *)
Definition dist_coordinator_client_main (st : ds4_dist_coordinator_state) (expected : bytes) (fd : Z)
    (peer_host peer_port p : bytes) : ds4_dist_coordinator_state * option reject :=
  match dist_recv_hello p with
  | Received (hello, model_name) _ =>
      match hello_reject st expected hello model_name with
      | Some r => (st, Some r)
      | None => (dist_coordinator_add_worker st fd peer_host peer_port hello model_name, None)
      end
  | _ => (st, None)
  end.

(** ** Route planning *)

Record ds4_dist_route_entry := mkRouteEntry {
  re_host : bytes; re_port : Z; re_layer_start : Z; re_layer_end : Z; re_flags : Z; re_fd : Z
}.

Record ds4_dist_route_plan := mkPlan { p_entry : list ds4_dist_route_entry; p_blob : bytes }.

Definition plan_zero : ds4_dist_route_plan := mkPlan [] [].

Definition dist_worker_route_cmp (a b : ds4_dist_worker_entry) : Z :=
  if w_layer_start a <? w_layer_start b then -1
  else if w_layer_start b <? w_layer_start a then 1
  else if negb (w_has_output a =? w_has_output b) then (if negb (w_has_output a =? 0) then -1 else 1)
  else if w_layer_end b <? w_layer_end a then -1
  else if w_layer_end a <? w_layer_end b then 1
  else 0.

Definition dist_worker_route_candidate_ok (st : ds4_dist_coordinator_state) (w : ds4_dist_worker_entry) (last : Z) : bool :=
  let needs_hidden := (w_layer_end w <? last) || (w_has_output w =? 0) in
  if needs_hidden && (w_has_hidden w =? 0) then false
  else if (last <=? w_layer_end w) && (w_has_output w =? 0) && negb (cs_local_can_output_head st) then false
  else true.

(** A path to the last layer, or the first layer no worker takes. *)
Inductive found := Path (path : list ds4_dist_worker_entry) | Missing (layer : Z).

Fixpoint dist_route_search_workers (fuel : nat) (st : ds4_dist_coordinator_state)
    (workers : list ds4_dist_worker_entry) (next last missing : Z) : option found :=
  match fuel with
  | O => None
  | S fuel' =>
      let stop saw_start missing := Some (Missing (if negb saw_start && (missing <? next) then next else missing)) in
      (fix scan (ws : list ds4_dist_worker_entry) (saw_start : bool) (missing : Z) : option found :=
         match ws with
         | [] => stop saw_start missing
         | w :: ws' =>
             if w_layer_start w <? next then scan ws' saw_start missing
             else if next <? w_layer_start w then stop saw_start missing
             else if negb (dist_worker_route_candidate_ok st w last) then scan ws' true missing
             else if last <=? w_layer_end w then Some (Path [w])
             else
               let child := u32 (w_layer_end w + 1) in
               r ← dist_route_search_workers fuel' st workers child last child;
               match r with
               | Path path => Some (Path (w :: path))
               | Missing child => scan ws' true (if missing <? child then child else missing)
               end
         end) workers false missing
  end.

Inductive plan_error := NotAtLayerZero | MissingLayer (layer : Z) | DupFailed | InvalidHost | TooLarge | OutOfFuel.

Definition dist_route_plan_append_blob (plan : ds4_dist_route_plan) (entry : ds4_dist_route_entry)
  : plan_error + ds4_dist_route_plan :=
  let host_len := zlen (re_host entry) in
  if (host_len =? 0) || (NI_MAXHOST <=? host_len) then inl InvalidHost
  else
    let add := 20 + host_len in
    if (UINT32_MAX <? add) || (UINT32_MAX - add <? zlen (p_blob plan)) then inl TooLarge
    else
      inr (mkPlan (p_entry plan)
             (p_blob plan ++
              dist_route_to_wire (mkRouteFixed host_len (re_port entry) (re_layer_start entry) (re_layer_end entry)
                                    (re_flags entry)) ++ re_host entry)).

Definition dist_route_plan_append_return_upstream (plan : ds4_dist_route_plan) : plan_error + ds4_dist_route_plan :=
  if UINT32_MAX - 12 <? zlen (p_blob plan) then inl TooLarge
  else inr (mkPlan (p_entry plan)
              (p_blob plan ++ dist_route_return_to_wire (mkReturnFixed DS4_DIST_ROUTE_RETURN_UPSTREAM 0 0))).

Section planning.
(** [qsort] with [dist_worker_route_cmp], and [dup]. *)
Context (qsort : list ds4_dist_worker_entry -> list ds4_dist_worker_entry) (dup : Z -> option Z).

Definition route_entry_of (w : ds4_dist_worker_entry) (fd : Z) : ds4_dist_route_entry :=
  mkRouteEntry (w_peer_host w) (w_listen_port w) (w_layer_start w) (w_layer_end w)
    (if w_has_output w =? 0 then 0 else DS4_DIST_ROUTE_F_OUTPUT_LOGITS) fd.

(** The entries of the path, appended one by one. *)
Fixpoint build_entries (st : ds4_dist_coordinator_state) (path : list ds4_dist_worker_entry) (plan : ds4_dist_route_plan)
  : plan_error + ds4_dist_route_plan :=
  match path with
  | [] => inr plan
  | w :: path' =>
      let fd := if cs_use_control_for_work st && (zlen (p_entry plan) =? 0) then dup (w_fd w) else Some (-1) in
      match fd with
      | None => inl DupFailed
      | Some fd =>
          let entry := route_entry_of w fd in
          match dist_route_plan_append_blob (mkPlan (p_entry plan ++ [entry]) (p_blob plan)) entry with
          | inl e => inl e
          | inr plan => build_entries st path' plan
          end
      end
  end.

(** The plan and the generation of the registry it is for. *)
Definition dist_coordinator_build_route_plan (st : ds4_dist_coordinator_state)
  : plan_error + (ds4_dist_route_plan * Z) :=
  let workers := qsort (cs_workers st) in
  let last := u32 (cs_n_layers st - 1) in
  if negb (cs_local_start st =? 0) then inl NotAtLayerZero
  else if (cs_local_end st =? last) && (cs_local_has_output st || cs_local_can_output_head st)
  then inr (plan_zero, cs_generation st)
  else
    let next := u32 (cs_local_end st + 1) in
    match dist_route_search_workers (Z.to_nat (cs_n_layers st) + 1) st workers next last next with
    | None => inl OutOfFuel
    | Some (Missing layer) => inl (MissingLayer layer)
    | Some (Path path) =>
        match build_entries st path plan_zero with
        | inl e => inl e
        | inr plan =>
            if zlen (p_entry plan) =? 0 then inr (plan, cs_generation st)
            else match dist_route_plan_append_return_upstream plan with
                 | inl e => inl e
                 | inr plan => inr (plan, cs_generation st)
                 end
        end
    end.
End planning.

Definition dist_route_entry_matches_worker (route : ds4_dist_route_entry) (w : ds4_dist_worker_entry) : bool :=
  let route_has_output := negb (Z.land (re_flags route) DS4_DIST_ROUTE_F_OUTPUT_LOGITS =? 0) in
  (re_port route =? w_listen_port w) && bytes_eqb (re_host route) (w_peer_host w) &&
  (re_layer_start route =? w_layer_start w) && (re_layer_end route =? w_layer_end w) &&
  Bool.eqb route_has_output (negb (w_has_output w =? 0)).

(** The remaining workers, and whether one was removed. *)
Fixpoint forget_entries (entries : list ds4_dist_route_entry) (ws : list ds4_dist_worker_entry) (removed_any : bool)
  : list ds4_dist_worker_entry * bool :=
  match entries with
  | [] => (ws, removed_any)
  | e :: entries' =>
      match unlink_first (dist_route_entry_matches_worker e) ws with
      | Some ws' => forget_entries entries' ws' true
      | None => forget_entries entries' ws removed_any
      end
  end.

Definition dist_coordinator_forget_route_workers (st : ds4_dist_coordinator_state) (plan : ds4_dist_route_plan)
  : ds4_dist_coordinator_state :=
  let '(ws, removed_any) := forget_entries (p_entry plan) (cs_workers st) false in
  if removed_any then set_workers ws st else st.

(** ** Reading a route *)

(** A record at the front of what remains, and the rest; [None]: truncated. *)
Definition route_fixed_at (p : bytes) : option (ds4_dist_route_fixed * bytes) :=
  if zlen p <? 20 then None else Some (dist_route_from_wire p, drop 20 p).

Definition route_return_at (p : bytes) : option (ds4_dist_route_return_fixed * bytes) :=
  if zlen p <? 12 then None else Some (dist_route_return_from_wire p, drop 12 p).

Definition host_bytes (len : Z) (p : bytes) : bytes := take (Z.to_nat len) p.
Definition behind_host (len : Z) (p : bytes) : bytes := drop (Z.to_nat len) p.

(** [n] entries remain, the target is [i] further on; [None] is [false]. *)
Fixpoint get_entry_loop (n : nat) (i : Z) (p : bytes) : option ds4_dist_route_entry :=
  match n with
  | O => None
  | S n' =>
      '(fixed, p) ← route_fixed_at p;
      let host_len := rf_host_len fixed in
      if (host_len =? 0) || (NI_MAXHOST <=? host_len) || (zlen p <? host_len) then None
      else if dist_bytes_have_nul (host_bytes host_len p) then None
      else if i =? 0 then
        Some (mkRouteEntry (host_bytes host_len p) (rf_port fixed) (rf_layer_start fixed) (rf_layer_end fixed)
                (rf_flags fixed) (-1))
      else get_entry_loop n' (i - 1) (behind_host host_len p)
  end.

Definition dist_route_get_entry (blob : bytes) (route_count target_index : Z) : option ds4_dist_route_entry :=
  if route_count <=? target_index then None else get_entry_loop (Z.to_nat route_count) target_index blob.

Record ds4_dist_route_return := mkReturn { rt_host : bytes; rt_port : Z; rt_kind : Z }.

Fixpoint return_target_loop (n : nat) (p : bytes) : option ds4_dist_route_return :=
  match n with
  | O =>
      '(fixed, p) ← route_return_at p;
      let host_len := rr_host_len fixed in
      if (NI_MAXHOST <=? host_len) || (zlen p <? host_len) then None
      else if dist_bytes_have_nul (host_bytes host_len p) then None
      else if negb (zlen (behind_host host_len p) =? 0) then None
      else Some (mkReturn (host_bytes host_len p) (rr_port fixed) (rr_kind fixed))
  | S n' =>
      '(fixed, p) ← route_fixed_at p;
      let host_len := rf_host_len fixed in
      if zlen p <? host_len then None
      else if dist_bytes_have_nul (host_bytes host_len p) then None
      else return_target_loop n' (behind_host host_len p)
  end.

Definition dist_route_get_return_target (blob : bytes) (route_count : Z) : option ds4_dist_route_return :=
  if route_count =? 0 then None else return_target_loop (Z.to_nat route_count) blob.

(** [prev_end] is [None] for the first entry. *)
Fixpoint validate_loop (n : nat) (n_layers : Z) (prev_end : option Z) (p : bytes) : bool :=
  match n with
  | O =>
      match route_return_at p with
      | None => false
      | Some (ret, p) =>
          let host_len := rr_host_len ret in
          if (NI_MAXHOST <=? host_len) || (zlen p <? host_len) then false
          else if dist_bytes_have_nul (host_bytes host_len p) then false
          else if negb (rr_kind ret =? DS4_DIST_ROUTE_RETURN_UPSTREAM) then false
          else if negb (host_len =? 0) || negb (rr_port ret =? 0) then false
          else zlen (behind_host host_len p) =? 0
      end
  | S n' =>
      match route_fixed_at p with
      | None => false
      | Some (fixed, p) =>
          let host_len := rf_host_len fixed in
          if (host_len =? 0) || (NI_MAXHOST <=? host_len) || (zlen p <? host_len) then false
          else if dist_bytes_have_nul (host_bytes host_len p) then false
          else if (rf_port fixed =? 0) || (65535 <? rf_port fixed) then false
          else if (n_layers <=? rf_layer_start fixed) || (n_layers <=? rf_layer_end fixed) ||
                  (rf_layer_end fixed <? rf_layer_start fixed) then false
          else if negb (Z.land (rf_flags fixed) (Z.lxor UINT32_MAX DS4_DIST_ROUTE_F_OUTPUT_LOGITS) =? 0) then false
          else if negb (Z.land (rf_flags fixed) DS4_DIST_ROUTE_F_OUTPUT_LOGITS =? 0) &&
                  negb (u32 (rf_layer_end fixed + 1) =? n_layers) then false
          else if match prev_end with Some e => negb (rf_layer_start fixed =? u32 (e + 1)) | None => false end then false
          else validate_loop n' n_layers (Some (rf_layer_end fixed)) (behind_host host_len p)
      end
  end.

Definition dist_route_validate_blob (blob : bytes) (route_count n_layers : Z) : bool :=
  if route_count =? 0 then zlen blob =? 0 else validate_loop (Z.to_nat route_count) n_layers None blob.

(** * frames, greetings and routes as they travel *)

(** ** Fields *)

Lemma wire32_length v : length (wire32 v) = 4%nat.
Proof. unfold wire32. by rewrite length_rev. Qed.

Lemma unwire_wire v : in_u 32 v -> unwire32 (wire32 v) = v.
Proof.
  intros Hv. unfold unwire32, wire32. rewrite rev_involutive, <- (app_nil_r (ds4_kvstore_le_put32 v)). by apply le_get_put32.
Qed.

Lemma wire_unwire b : length b = 4%nat -> bytes_ok b -> wire32 (unwire32 b) = b.
Proof.
  intros Hl Hb. unfold unwire32, wire32. rewrite le_put_get32; [apply rev_involutive|by rewrite length_rev|by apply Forall_rev].
Qed.

Lemma unwire_range b : bytes_ok b -> in_u 32 (unwire32 b).
Proof. intros Hb. apply le_get32_range. by apply Forall_rev. Qed.

Lemma fields_length fs : length (fields_to_wire fs) = (4 * length fs)%nat.
Proof. induction fs as [|f fs IH]; [done|]. unfold fields_to_wire in *. cbn [flat_map]. rewrite length_app, wire32_length, IH. cbn. lia. Qed.

Lemma zlen_fields fs : zlen (fields_to_wire fs) = 4 * zlen fs.
Proof. unfold zlen. rewrite fields_length. lia. Qed.

Lemma field_at_fields fs p i : Forall (in_u 32) fs -> (i < length fs)%nat -> field_at (fields_to_wire fs ++ p) i = nth i fs 0.
Proof.
  intros Hf. revert i. induction Hf as [|f fs Hfv _ IH]; intros i Hi; [cbn in Hi; lia|].
  unfold fields_to_wire in *. cbn [flat_map]. rewrite <- app_assoc. unfold field_at in *. destruct i as [|i].
  - change (4 * 0)%nat with 0%nat. rewrite drop_0. cbn [nth]. rewrite (take_app_length' (wire32 f)) by (by rewrite wire32_length). by apply unwire_wire.
  - replace (4 * S i)%nat with (length (wire32 f) + 4 * i)%nat by (rewrite wire32_length; lia).
    rewrite <- drop_drop, drop_app_length. cbn [nth]. apply IH. cbn in Hi. lia.
Qed.

(** The bytes of a record are those of its fields. *)
Lemma fields_of_bytes n p : length p = (4 * n)%nat -> bytes_ok p -> fields_to_wire (field_at p <$> seq 0 n) = p.
Proof.
  revert p. induction n as [|n IH]; intros p Hl Hp; [by destruct p|].
  assert (Hsplit : p = take 4 p ++ drop 4 p) by (by rewrite take_drop).
  cbn [seq fmap list_fmap]. unfold fields_to_wire in *. cbn [flat_map].
  assert (E0 : wire32 (field_at p 0) = take 4 p).
  { unfold field_at. change (4 * 0)%nat with 0%nat. rewrite drop_0. apply wire_unwire; [rewrite length_take; lia|by apply Forall_take]. }
  rewrite E0. rewrite Hsplit at 3. f_equal. rewrite <- (IH (drop 4 p)); [|rewrite length_drop; lia|by apply Forall_drop].
  f_equal. rewrite <- fmap_S_seq, <- list_fmap_compose. apply list_fmap_ext. intros _ i _. unfold compose, field_at.
  rewrite drop_drop. do 3 f_equal. lia.
Qed.

Lemma field_range p i : bytes_ok p -> in_u 32 (field_at p i).
Proof. intros Hp. apply unwire_range. by apply Forall_take, Forall_drop. Qed.

Lemma have_nul_iff p : dist_bytes_have_nul p = false <-> no_nul p.
Proof.
  unfold dist_bytes_have_nul, no_nul. induction p as [|c p IH]; cbn; [split; [constructor|done]|].
  rewrite orb_false_iff, Z.eqb_neq, IH. split; [intros []; by constructor|intros H; by inversion H].
Qed.

Lemma read_full_app a p : dist_read_full (zlen a) (a ++ p) = Some (a, p).
Proof.
  unfold dist_read_full. rewrite zlen_app. pose proof (zlen_nonneg p). rewrite (proj2 (Z.ltb_ge _ _)) by lia.
  unfold zlen. rewrite Nat2Z.id, take_app_length, drop_app_length. done.
Qed.

(** ** Frames and greetings *)

Lemma read_frame_header type bytes p :
  in_u 32 type -> in_u 32 bytes ->
  dist_read_frame_header (dist_write_frame_header type bytes ++ p) = Received (type, bytes) p.
Proof.
  intros Ht Hb. unfold dist_read_frame_header. set (h := dist_write_frame_header type bytes).
  change 12 with (zlen h) at 1. rewrite read_full_app. unfold h, dist_write_frame_header.
  rewrite <- (app_nil_r (fields_to_wire _)). rewrite !field_at_fields by (try (cbn; lia); repeat apply Forall_cons_2; done || by vm_compute).
  done.
Qed.

Definition hello_ok (h : ds4_dist_hello_fixed) : Prop := Forall (in_u 32) (hello_fields h).

Lemma hello_wire_back h p : hello_ok h -> dist_hello_from_wire (dist_hello_to_wire h ++ p) = h.
Proof.
  intros Hh. unfold dist_hello_from_wire, dist_hello_to_wire.
  rewrite !field_at_fields by (try done; cbn; lia). by destruct h.
Qed.

(** What a worker sends is what the coordinator reads. *)
Lemma hello_roundtrip n_layers model_id quant_bits name l ctx_size listen_port rest :
  in_u 32 n_layers -> in_u 32 listen_port -> in_u 32 (l_start l) -> in_u 32 (l_end l) ->
  exists h, dist_recv_hello (dist_send_hello n_layers model_id quant_bits name l ctx_size listen_port ++ rest)
      = Received (h, take 127 (cstr (default (bs "unknown") name))) rest /\
    h_n_layers h = n_layers /\ h_layer_start h = l_start l /\ h_layer_end h = dist_resolved_layer_end l n_layers /\
    h_has_output h = bool_u32 (l_has_output l) /\ h_has_hidden h = 1 /\ h_listen_port h = listen_port /\
    h_model_id h = u32 model_id /\ h_quant_bits h = u32 quant_bits /\ h_ctx_size h = if 0 <? ctx_size then u32 ctx_size else 0.
Proof.
  intros Hn Hp Hs He. unfold dist_send_hello. change (Z.to_nat DS4_DIST_MAX_MODEL_NAME) with 127%nat.
  set (nm := take 127 (cstr (default (bs "unknown") name))). set (h := mkHello _ _ _ _ _ _ _ _ _ _). exists h.
  assert (Hnm : 0 <= zlen nm <= 127).
  { split; [apply zlen_nonneg|]. unfold zlen, nm. rewrite length_take. lia. }
  assert (Hok : hello_ok h).
  { unfold hello_ok, h, hello_fields. cbn [h_model_id h_quant_bits h_layer_start h_layer_end h_has_output h_has_hidden h_ctx_size h_n_layers
      h_listen_port h_model_name_len]. repeat apply Forall_cons_2; try done; try apply u32_range.
    - unfold dist_resolved_layer_end. destruct (l_has_output l); [apply u32_range|done].
    - destruct (l_has_output l); by vm_compute.
    - destruct (0 <? ctx_size); [apply u32_range|by vm_compute].
    - unfold in_u. lia. }
  split; [|by split_and!]. unfold dist_recv_hello. rewrite <- !app_assoc, read_frame_header;
    [|by vm_compute|unfold in_u, HELLO_BYTES; lia].
  change (negb (DS4_DIST_MSG_HELLO =? DS4_DIST_MSG_HELLO)) with false. cbv iota.
  rewrite (proj2 (Z.ltb_ge (HELLO_BYTES + zlen nm) _)), (proj2 (Z.ltb_ge _ (HELLO_BYTES + zlen nm)))
    by (unfold HELLO_BYTES, DS4_DIST_MAX_MODEL_NAME; lia). cbn [orb].
  change HELLO_BYTES with (zlen (dist_hello_to_wire h)) at 1. rewrite read_full_app.
  rewrite <- (app_nil_r (dist_hello_to_wire h)), hello_wire_back by done. cbn [h_model_name_len h].
  replace (HELLO_BYTES + zlen nm - HELLO_BYTES) with (zlen nm) by lia. rewrite Z.eqb_refl. cbn [negb orb].
  rewrite (proj2 (Z.ltb_ge _ _)) by (unfold DS4_DIST_MAX_MODEL_NAME; lia).
  destruct (Z.eqb_spec (zlen nm) 0) as [E|_].
  - assert (nm = []) as -> by (apply length_zero_iff_nil; unfold zlen in E; lia). done.
  - rewrite read_full_app. assert (Hno : no_nul nm) by (apply Forall_take, no_nul_cstr).
    by rewrite (proj2 (have_nul_iff nm) Hno).
Qed.

(** ** Routes on the wire *)

(** A hop as the workers accept it. *)
Record hop_ok (n_layers : Z) (e : ds4_dist_route_entry) : Prop := mkHopOk {
  ho_host : re_host e <> [];
  ho_len : zlen (re_host e) < NI_MAXHOST;
  ho_nul : no_nul (re_host e);
  ho_bytes : bytes_ok (re_host e);
  ho_port : 1 <= re_port e <= 65535;
  ho_range : 0 <= re_layer_start e <= re_layer_end e;
  ho_end : re_layer_end e < n_layers;
  ho_flags : re_flags e = 0 \/ re_flags e = 1 /\ re_layer_end e + 1 = n_layers;
  ho_fd : re_fd e = -1
}.

(** Each hop starts behind the one before. *)
Fixpoint contiguous (prev_end : option Z) (es : list ds4_dist_route_entry) : Prop :=
  match es with
  | [] => True
  | e :: es' => match prev_end with Some p => re_layer_start e = p + 1 | None => True end /\ contiguous (Some (re_layer_end e)) es'
  end.

Definition hop_bytes (e : ds4_dist_route_entry) : bytes :=
  dist_route_to_wire (mkRouteFixed (zlen (re_host e)) (re_port e) (re_layer_start e) (re_layer_end e) (re_flags e)) ++ re_host e.

Definition upstream_bytes : bytes := dist_route_return_to_wire (mkReturnFixed DS4_DIST_ROUTE_RETURN_UPSTREAM 0 0).
Definition route_bytes (es : list ds4_dist_route_entry) : bytes := flat_map hop_bytes es ++ upstream_bytes.

Definition hop_fixed (e : ds4_dist_route_entry) : ds4_dist_route_fixed :=
  mkRouteFixed (zlen (re_host e)) (re_port e) (re_layer_start e) (re_layer_end e) (re_flags e).

Lemma zlen_hop_bytes e : zlen (hop_bytes e) = 20 + zlen (re_host e).
Proof. unfold hop_bytes, dist_route_to_wire. by rewrite zlen_app, zlen_fields. Qed.

Lemma zlen_upstream : zlen upstream_bytes = 12.
Proof. reflexivity. Qed.

#[local] Set Default Proof Using "Type*".

Section routes.
Context (n_layers : Z) (Hn : 0 < n_layers < 2 ^ 32).

Lemma hop_at e p : hop_ok n_layers e -> route_fixed_at (hop_bytes e ++ p) = Some (hop_fixed e, re_host e ++ p).
Proof.
  intros []. unfold route_fixed_at. rewrite zlen_app, zlen_hop_bytes. pose proof (zlen_nonneg p). pose proof (zlen_nonneg (re_host e)).
  rewrite (proj2 (Z.ltb_ge _ _)) by lia. unfold NI_MAXHOST in *. do 2 f_equal.
  - unfold hop_bytes, dist_route_to_wire, dist_route_from_wire. rewrite <- app_assoc.
    rewrite !field_at_fields; [done|..]; try (cbn; lia); cbn; repeat apply Forall_cons_2; unfold in_u; try done; try lia;
      destruct ho_flags0 as [-> | [-> _]]; lia.
Qed.

Lemma upstream_at p : route_return_at (upstream_bytes ++ p) = Some (mkReturnFixed DS4_DIST_ROUTE_RETURN_UPSTREAM 0 0, p).
Proof.
  unfold route_return_at. rewrite zlen_app, zlen_upstream. pose proof (zlen_nonneg p).
  rewrite (proj2 (Z.ltb_ge _ _)) by lia. reflexivity.
Qed.

Lemma host_split e p : host_bytes (zlen (re_host e)) (re_host e ++ p) = re_host e /\ behind_host (zlen (re_host e)) (re_host e ++ p) = p.
Proof. unfold host_bytes, behind_host, zlen. by rewrite Nat2Z.id, take_app_length, drop_app_length. Qed.

(** The checks every reader makes of a hop's host. *)
Lemma hop_host_checks e p : hop_ok n_layers e ->
  (zlen (re_host e) =? 0) = false /\ (NI_MAXHOST <=? zlen (re_host e)) = false /\
  (zlen (re_host e ++ p) <? zlen (re_host e)) = false /\
  dist_bytes_have_nul (re_host e) = false.
Proof.
  intros []. rewrite Z.eqb_neq, Z.leb_gt, Z.ltb_ge, zlen_app, have_nul_iff. pose proof (zlen_nonneg p).
  split; [|split; [lia|split; [lia|done]]]. intros E. apply ho_host0, length_zero_iff_nil. unfold zlen in E. lia.
Qed.

Lemma validate_hops es prev :
  Forall (hop_ok n_layers) es -> contiguous prev es ->
  match prev with Some e => 0 <= e < n_layers | None => True end ->
  validate_loop (length es) n_layers prev (route_bytes es) = true.
Proof.
  intros Hes. revert prev. induction Hes as [|e es He _ IH]; intros prev Hc Hp; cbn [length validate_loop].
  - unfold route_bytes. cbn [flat_map app]. rewrite <- (app_nil_r upstream_bytes), upstream_at. reflexivity.
  - destruct Hc as [Hs Hc]. unfold route_bytes. cbn [flat_map]. rewrite <- !app_assoc, hop_at by done. fold (route_bytes es).
    cbv zeta. cbn [hop_fixed rf_host_len rf_port rf_layer_start rf_layer_end rf_flags].
    destruct (hop_host_checks e (route_bytes es) He) as (-> & -> & -> & Hnul). destruct (host_split e (route_bytes es)) as [-> ->].
    rewrite Hnul. destruct He. cbn [orb].
    rewrite (proj2 (Z.eqb_neq (re_port e) 0)), (proj2 (Z.ltb_ge 65535 _)) by lia.
    rewrite (proj2 (Z.leb_gt n_layers (re_layer_start e))), (proj2 (Z.leb_gt n_layers (re_layer_end e))), (proj2 (Z.ltb_ge (re_layer_end e) _)) by lia.
    cbn [orb]. assert (Hu : forall x, 0 <= x < n_layers -> u32 (x + 1) = x + 1) by (intros x Hx; apply wrap_small; unfold in_u; lia).
    rewrite Hu by lia.
    assert (Hf : negb (Z.land (re_flags e) (Z.lxor UINT32_MAX DS4_DIST_ROUTE_F_OUTPUT_LOGITS) =? 0) = false /\
      negb (Z.land (re_flags e) DS4_DIST_ROUTE_F_OUTPUT_LOGITS =? 0) && negb (re_layer_end e + 1 =? n_layers) = false).
    { destruct ho_flags0 as [-> | [-> ->]]; [done|]. by rewrite (Z.eqb_refl n_layers). }
    destruct Hf as [-> ->]. assert (Hpv : match prev with Some p0 => negb (re_layer_start e =? u32 (p0 + 1)) | None => false end = false).
    { destruct prev as [p0|]; [|done]. by rewrite Hu, Hs, Z.eqb_refl. }
    rewrite Hpv. apply IH; [done|lia].
Qed.

Lemma land_flags f : in_u 32 f -> Z.land f (Z.lxor UINT32_MAX DS4_DIST_ROUTE_F_OUTPUT_LOGITS) = 0 -> f = 0 \/ f = 1.
Proof.
  intros Hf H. assert (E : f = Z.land f 1).
  { rewrite <- (Z.lor_0_r (Z.land f 1)), <- H, <- Z.land_lor_distr_r.
    change (Z.lor 1 (Z.lxor UINT32_MAX DS4_DIST_ROUTE_F_OUTPUT_LOGITS)) with (Z.ones 32).
    rewrite Z.land_ones by lia. symmetry. apply Z.mod_small. unfold in_u in Hf. lia. }
  assert (Hm : Z.land f 1 = f mod 2) by exact (Z.land_ones f 1 ltac:(lia)).
  pose proof (Z.mod_pos_bound f 2). lia.
Qed.

(** A record read is the record's bytes. *)
Lemma route_fixed_inv p fixed rest : route_fixed_at p = Some (fixed, rest) -> bytes_ok p ->
  p = dist_route_to_wire fixed ++ rest /\ bytes_ok rest /\
  in_u 32 (rf_host_len fixed) /\ in_u 32 (rf_port fixed) /\ in_u 32 (rf_layer_start fixed) /\ in_u 32 (rf_layer_end fixed) /\ in_u 32 (rf_flags fixed).
Proof.
  unfold route_fixed_at. destruct (Z.ltb_spec (zlen p) 20) as [|Hl]; [done|]. intros [= <- <-] Hp.
  split; [|split; [by apply Forall_drop|split_and!; by apply field_range]].
  rewrite <- (take_drop 20 p) at 1. f_equal.
  rewrite <- (fields_of_bytes 5 (take 20 p)); [|rewrite length_take; unfold zlen in Hl; lia|by apply Forall_take].
  unfold dist_route_to_wire, dist_route_from_wire. cbn [seq fmap list_fmap rf_host_len rf_port rf_layer_start rf_layer_end rf_flags].
  unfold field_at. rewrite !skipn_firstn_comm, !firstn_firstn. reflexivity.
Qed.

Lemma validate_inv k prev p :
  validate_loop k n_layers prev p = true -> bytes_ok p ->
  match prev with Some e => 0 <= e < n_layers | None => True end ->
  exists es, length es = k /\ p = route_bytes es /\ Forall (hop_ok n_layers) es /\ contiguous prev es.
Proof.
  revert prev p. induction k as [|k IH]; intros prev p H Hp Hpv; cbn [validate_loop] in H.
  - exists []. split; [done|]. split; [|done]. destruct (route_return_at p) as [[ret rest]|] eqn:Er; [|done].
    unfold route_return_at in Er. destruct (Z.ltb_spec (zlen p) 12) as [|Hl]; [done|]. injection Er as <- <-.
    destruct (_ || _); [done|]. destruct (dist_bytes_have_nul _); [done|].
    destruct (rr_kind _ =? _) eqn:E1; [|done]. destruct (rr_host_len _ =? 0) eqn:E2; [|done]. destruct (rr_port _ =? 0) eqn:E3; [|done].
    cbn [negb orb] in H. apply Z.eqb_eq in E1, E2, E3. rewrite E2 in H. unfold behind_host in H. rewrite drop_0 in H. apply Z.eqb_eq in H.
    assert (Hnil : drop 12 p = []) by (apply length_zero_iff_nil; unfold zlen in H; lia).
    rewrite <- (take_drop 12 p) at 1. rewrite Hnil, app_nil_r.
    rewrite <- (fields_of_bytes 3 (take 12 p)); [|rewrite length_take; unfold zlen in Hl; lia|by apply Forall_take].
    unfold route_bytes, upstream_bytes, dist_route_return_to_wire. cbn [flat_map app seq fmap list_fmap rr_kind rr_host_len rr_port].
    unfold dist_route_return_from_wire in E1, E2, E3. cbn [rr_kind rr_host_len rr_port] in *. unfold field_at in *.
    rewrite !skipn_firstn_comm, !firstn_firstn. cbn [Nat.sub Nat.mul Nat.min Nat.add] in *. by rewrite E1, E2, E3.
  - destruct (route_fixed_at p) as [[fixed q]|] eqn:Er; [|done]. apply route_fixed_inv in Er as (-> & Hq & R1 & R2 & R3 & R4 & R5); [|done].
    destruct ((_ =? 0) || _ || _) eqn:E1; [done|]. destruct (dist_bytes_have_nul _) eqn:E2; [done|].
    destruct ((rf_port fixed =? 0) || _) eqn:E3; [done|]. destruct ((n_layers <=? _) || _ || _) eqn:E4; [done|].
    destruct (negb (Z.land _ (Z.lxor _ _) =? 0)) eqn:E5; [done|]. destruct (negb (Z.land _ DS4_DIST_ROUTE_F_OUTPUT_LOGITS =? 0) && _) eqn:E6; [done|].
    destruct (match prev with Some _ => _ | None => _ end) eqn:E7; [done|].
    apply orb_false_iff in E1 as [[E1a%Z.eqb_neq E1b%Z.leb_gt]%orb_false_iff E1c%Z.ltb_ge].
    apply orb_false_iff in E3 as [E3a%Z.eqb_neq E3b%Z.ltb_ge].
    apply orb_false_iff in E4 as [[E4a%Z.leb_gt E4b%Z.leb_gt]%orb_false_iff E4c%Z.ltb_ge].
    apply negb_false_iff, Z.eqb_eq, land_flags in E5; [|done]. apply have_nul_iff in E2. unfold in_u in *.
    set (len := rf_host_len fixed) in *. set (host := host_bytes len q) in *.
    assert (Hhl : zlen host = len) by (unfold host, host_bytes, zlen; rewrite length_take; unfold zlen in E1c; lia).
    assert (Hsplit : q = host ++ behind_host len q) by (unfold host, host_bytes, behind_host; by rewrite take_drop).
    destruct (IH (Some (rf_layer_end fixed)) (behind_host len q) H) as (es & Hlen & Hb & Hok & Hc);
      [by apply Forall_drop|lia|].
    exists (mkRouteEntry host (rf_port fixed) (rf_layer_start fixed) (rf_layer_end fixed) (rf_flags fixed) (-1) :: es).
    split; [cbn; by rewrite Hlen|]. split; [|split].
    + unfold route_bytes in *. cbn [flat_map]. unfold hop_bytes at 1. cbn [re_host re_port re_layer_start re_layer_end re_flags].
      rewrite Hhl. rewrite <- !app_assoc, <- Hb, <- Hsplit. by destruct fixed.
    + constructor; [|done]. split; cbn; try done; try lia.
      * intros E. rewrite E in Hhl. cbn in Hhl. unfold zlen in Hhl. cbn in Hhl. lia.
      * by apply Forall_take.
      * destruct E5 as [->|Ef]; [by left|right]. split; [done|]. rewrite Ef in E6. cbn in E6. apply negb_false_iff, Z.eqb_eq in E6.
        rewrite <- E6. symmetry. apply wrap_small. unfold in_u. lia.
    + cbn. split; [|done]. destruct prev as [e|]; [|done]. apply negb_false_iff, Z.eqb_eq in E7. rewrite E7. apply wrap_small.
      unfold in_u. lia.
Qed.

Lemma get_entry_hops es i p :
  Forall (hop_ok n_layers) es -> 0 <= i ->
  get_entry_loop (length es) i (flat_map hop_bytes es ++ p) = es !! Z.to_nat i.
Proof.
  intros Hes. revert i. induction Hes as [|e es He _ IH]; intros i Hi; cbn [length get_entry_loop]; [done|].
  cbn [flat_map]. rewrite <- app_assoc, hop_at by done. cbn [mbind option_bind]. cbv zeta.
  cbn [hop_fixed rf_host_len rf_port rf_layer_start rf_layer_end rf_flags].
  destruct (hop_host_checks e (flat_map hop_bytes es ++ p) He) as (-> & -> & -> & Hnul).
  destruct (host_split e (flat_map hop_bytes es ++ p)) as [-> ->]. rewrite Hnul. cbn [orb].
  destruct (Z.eqb_spec i 0) as [->|Hne].
  - cbn. destruct He as [_ _ _ _ _ _ _ _ Hfd]. destruct e; cbn in *. by subst.
  - rewrite IH by lia. replace (Z.to_nat i) with (S (Z.to_nat (i - 1))) by lia. done.
Qed.

Lemma return_target_hops es :
  Forall (hop_ok n_layers) es ->
  return_target_loop (length es) (route_bytes es) = Some (mkReturn [] 0 DS4_DIST_ROUTE_RETURN_UPSTREAM).
Proof.
  unfold route_bytes. induction 1 as [|e es He _ IH]; cbn [length return_target_loop].
  - cbn [flat_map app]. rewrite <- (app_nil_r upstream_bytes), upstream_at. reflexivity.
  - cbn [flat_map]. rewrite <- !app_assoc, hop_at by done. cbn [mbind option_bind]. cbv zeta.
    cbn [hop_fixed rf_host_len]. destruct (hop_host_checks e (flat_map hop_bytes es ++ upstream_bytes) He) as (_ & _ & -> & Hnul).
    destruct (host_split e (flat_map hop_bytes es ++ upstream_bytes)) as [-> ->]. by rewrite Hnul.
Qed.
End routes.
