(* ===== verification/DistRoute.v ===== *)
(** * DistRoute: the registry and the routes planned from it

    The search finds a chain of slices to the last layer exactly if there is one,
    and names the first layer no chain reaches otherwise; a planned route is
    accepted by every worker on it. *)

From S2P Require Import Prelude Ctype KvHeader Dist.
From stdpp Require Import sorting.

#[local] Open Scope Z_scope.

#[local] Set Default Proof Using "Type*".

(** ** Searching *)

Section search.
Context (st : ds4_dist_coordinator_state) (workers : list ds4_dist_worker_entry) (last : Z).

Definition candidate (w : ds4_dist_worker_entry) : Prop :=
  w ∈ workers /\ dist_worker_route_candidate_ok st w last = true.

(** A chain of workers from layer [next] to the last. *)
Inductive chain : Z -> list ds4_dist_worker_entry -> Prop :=
| chain_last next w : candidate w -> w_layer_start w = next -> last <= w_layer_end w -> chain next [w]
| chain_hop next w path : candidate w -> w_layer_start w = next -> w_layer_end w < last ->
    chain (w_layer_end w + 1) path -> chain next (w :: path).

(** Chains of workers lead from [next] to just before layer [k]. *)
Inductive reaches : Z -> Z -> Prop :=
| reaches_here next : reaches next next
| reaches_hop next w k : candidate w -> w_layer_start w = next -> w_layer_end w < last ->
    reaches (w_layer_end w + 1) k -> reaches next k.

Definition starts_sorted (ws : list ds4_dist_worker_entry) : Prop :=
  StronglySorted (fun a b => w_layer_start a <= w_layer_start b) ws.

Context (Hsorted : starts_sorted workers).
Context (Hrange : Forall (fun w => 0 <= w_layer_start w <= w_layer_end w) workers).
Context (Hlast : 0 <= last < 2 ^ 32 - 1).

(** What the workers in [ws] offer at [next]. *)
Definition through (ws : list ds4_dist_worker_entry) (next : Z) : Prop :=
  exists w path, w ∈ ws /\ chain next (w :: path).

Definition reaches_through (ws : list ds4_dist_worker_entry) (next k : Z) : Prop :=
  k = next \/ exists w, w ∈ ws /\ candidate w /\ w_layer_start w = next /\ w_layer_end w < last /\ reaches (w_layer_end w + 1) k.

Lemma chain_head next path : chain next path -> exists w p, path = w :: p /\ candidate w /\ w_layer_start w = next.
Proof. destruct 1; eauto. Qed.

Lemma chain_tail next w path : chain next (w :: path) -> w_layer_end w < last -> chain (w_layer_end w + 1) path.
Proof. inversion 1; subst; [lia|done]. Qed.

Lemma reaches_iff next k : reaches next k <-> reaches_through workers next k.
Proof.
  split.
  - destruct 1 as [|next w k Hc Hs He Hr]; [by left|]. right. exists w. split_and!; try done. apply Hc.
  - intros [->|(w & _ & Hc & Hs & He & Hr)]; [constructor|]. by eapply reaches_hop.
Qed.

(** The outcome of a search from [next]. *)
Definition outcome (next : Z) (r : found) : Prop :=
  match r with
  | Path path => chain next path
  | Missing k => (forall path, ~ chain next path) /\ reaches next k /\ next <= k /\ forall k', reaches next k' -> k' <= k
  end.

Lemma reaches_le next k : reaches next k -> next <= k.
Proof.
  induction 1 as [|next w k [Hin _] Hs _ _ IH]; [lia|]. rewrite Forall_forall in Hrange. specialize (Hrange w Hin). lia.
Qed.

(** Where the scan stops, the workers seen are all that start at [next]. *)
Lemma scan_done past ws next m :
  workers = past ++ ws -> (forall w, w ∈ ws -> w_layer_start w <> next) ->
  (forall path w, w ∈ past -> ~ chain next (w :: path)) ->
  reaches next m -> next <= m -> (forall k, reaches_through past next k -> k <= m) ->
  outcome next (Missing m).
Proof.
  intros E Hout Hno Hr Hle Hmax.
  assert (Hin : forall w, candidate w -> w_layer_start w = next -> w ∈ past).
  { intros w [Hw _] Hs. rewrite E in Hw. apply elem_of_app in Hw as [Hw|Hw]; [done|]. by destruct (Hout w Hw). }
  split_and!; [|done|done|].
  - intros path Hc. destruct (chain_head _ _ Hc) as (w & p & -> & Hw & Hs). apply (Hno p w); [by apply Hin|done].
  - intros k Hk. apply reaches_iff in Hk as [->|(w & _ & Hw & Hs & He & Hk)]; [done|].
    apply Hmax. right. exists w. split; [by apply Hin|done].
Qed.

Lemma search_outcome fuel next :
  0 <= next -> (Z.to_nat (last + 1 - next) < fuel)%nat ->
  exists r, dist_route_search_workers fuel st workers next last next = Some r /\ outcome next r.
Proof.
  revert next. induction fuel as [|fuel IH]; intros next Hn Hf; [lia|]. cbn [dist_route_search_workers].
  assert (Hscan : forall ws past saw m, workers = past ++ ws ->
    (forall path w, w ∈ past -> ~ chain next (w :: path)) ->
    reaches next m -> next <= m -> (forall k, reaches_through past next k -> k <= m) ->
    exists r, (fix scan (ws : list ds4_dist_worker_entry) (saw_start : bool) (missing : Z) : option found :=
         match ws with
         | [] => Some (Missing (if negb saw_start && (missing <? next) then next else missing))
         | w :: ws' =>
             if w_layer_start w <? next then scan ws' saw_start missing
             else if next <? w_layer_start w then Some (Missing (if negb saw_start && (missing <? next) then next else missing))
             else if negb (dist_worker_route_candidate_ok st w last) then scan ws' true missing
             else if last <=? w_layer_end w then Some (Path [w])
             else
               r ← dist_route_search_workers fuel st workers (u32 (w_layer_end w + 1)) last (u32 (w_layer_end w + 1));
               match r with
               | Path path => Some (Path (w :: path))
               | Missing child => scan ws' true (if missing <? child then child else missing)
               end
         end) ws saw m = Some r /\ outcome next r).
  { intros ws. induction ws as [|w ws IHs]; intros past saw m E Hno Hr Hle Hmax.
    - exists (Missing m). rewrite (proj2 (Z.ltb_ge m next) Hle), andb_false_r. split; [done|].
      eapply scan_done; try done. by intros w ?%not_elem_of_nil.
    - assert (Hw : w ∈ workers) by (rewrite E; apply elem_of_app; right; left).
      assert (Hwr : 0 <= w_layer_start w <= w_layer_end w) by (rewrite Forall_forall in Hrange; by apply Hrange).
      assert (E' : workers = (past ++ [w]) ++ ws) by (by rewrite <- app_assoc).
      destruct (Z.ltb_spec (w_layer_start w) next) as [Hlt|Hge].
      { apply (IHs (past ++ [w])); try done.
        - intros path w' [Hw'| ->%list_elem_of_singleton]%elem_of_app; [by apply Hno|].
          intros Hc. destruct (chain_head _ _ Hc) as (? & ? & [= <- <-] & _ & Hs). lia.
        - intros k [->|(w' & [Hw'| ->%list_elem_of_singleton]%elem_of_app & Hc & Hs & Hk)]; [done| |lia].
          apply Hmax. right. by exists w'. }
      destruct (Z.ltb_spec next (w_layer_start w)) as [Hlt|Hge'].
      { exists (Missing m). rewrite (proj2 (Z.ltb_ge m next) Hle), andb_false_r. split; [done|].
        eapply (scan_done past (w :: ws)); try done. intros w' Hw'. pose proof Hsorted as Hso. unfold starts_sorted in Hso. rewrite E in Hso.
        apply StronglySorted_app_1_r in Hso. apply StronglySorted_inv in Hso as [_ Hso]. rewrite Forall_forall in Hso.
        apply elem_of_cons in Hw' as [->|Hw']; [lia|]. specialize (Hso w' Hw'). lia. }
      assert (Hstart : w_layer_start w = next) by lia.
      destruct (dist_worker_route_candidate_ok st w last) eqn:Eok; cbn [negb].
      2: { apply (IHs (past ++ [w])); try done.
        - intros path w' [Hw'| ->%list_elem_of_singleton]%elem_of_app; [by apply Hno|].
          intros Hc. destruct (chain_head _ _ Hc) as (? & ? & [= <- <-] & [_ Hx] & _). congruence.
        - intros k [->|(w' & [Hw'| ->%list_elem_of_singleton]%elem_of_app & Hc & Hs & Hk)]; [done| |destruct Hc; congruence].
          apply Hmax. right. by exists w'. }
      assert (Hcand : candidate w) by by split.
      destruct (Z.leb_spec last (w_layer_end w)) as [Hend|Hend].
      { exists (Path [w]). split; [done|]. by apply chain_last. }
      assert (Eu : u32 (w_layer_end w + 1) = w_layer_end w + 1) by (apply wrap_small; unfold in_u; lia). rewrite Eu.
      destruct (IH (w_layer_end w + 1)) as (r & -> & Hr'); [lia|lia|]. cbn [mbind option_bind]. destruct r as [path|child].
      { exists (Path (w :: path)). split; [done|]. by apply chain_hop. }
      destruct Hr' as (Hnone & Hrch & Hlech & Hmaxch). apply (IHs (past ++ [w])); try done.
      + intros path w' [Hw'| ->%list_elem_of_singleton]%elem_of_app; [by apply Hno|].
        intros Hc. apply (Hnone path). by apply (chain_tail next).
      + destruct (Z.ltb_spec m child); [|done]. by eapply reaches_hop.
      + destruct (Z.ltb_spec m child); lia.
      + intros k [->|(w' & [Hw'| ->%list_elem_of_singleton]%elem_of_app & Hc & Hs & Hk)].
        * destruct (Z.ltb_spec m child); lia.
        * assert (k <= m) by (apply Hmax; right; by exists w'). destruct (Z.ltb_spec m child); lia.
        * assert (k <= child) by (by apply Hmaxch, Hk). destruct (Z.ltb_spec m child); lia. }
  apply (Hscan workers [] false next); try done.
  - by intros path w ?%not_elem_of_nil.
  - constructor.
  - intros k [->|(w & ?%not_elem_of_nil & _)]; [lia|done].
Qed.
End search.

(** ** The registry *)

(** A host name as [getnameinfo] gives it. *)
Definition host_ok (h : bytes) : Prop := h <> [] /\ zlen h < NI_MAXHOST /\ no_nul h /\ bytes_ok h.

Record worker_ok (st : ds4_dist_coordinator_state) (w : ds4_dist_worker_entry) : Prop := mkWorkerOk {
  wo_host : host_ok (w_peer_host w);
  wo_model : w_model_id w = cs_model_id st;
  wo_layers : w_n_layers w = cs_n_layers st;
  wo_range : 0 <= w_layer_start w <= w_layer_end w;
  wo_end : w_layer_end w < cs_n_layers st;
  wo_output : w_has_output w = 0 \/ w_has_output w = 1 /\ w_layer_end w + 1 = cs_n_layers st;
  wo_hidden : w_has_hidden w = 0 \/ w_has_hidden w = 1;
  wo_quant : w_quant_bits w = 2 \/ w_quant_bits w = 4;
  wo_ctx : cs_ctx_size st = 0 \/ cs_ctx_size st <= w_ctx_size w;
  wo_port : 1 <= w_listen_port w <= 65535
}.

(** What identifies a slice. *)
Definition slice_key (w : ds4_dist_worker_entry) : bytes * Z * Z * Z * Z :=
  (w_peer_host w, w_model_id w, w_layer_start w, w_layer_end w, w_has_output w).

Definition registry_ok (st : ds4_dist_coordinator_state) : Prop :=
  Forall (worker_ok st) (cs_workers st) /\ NoDup (slice_key <$> cs_workers st).

(** What happens to the registry. *)
Inductive event :=
| WorkerJoins (fd : Z) (host port greeting : bytes)
| WorkerLeaves (fd : Z)
| RouteFails (plan : ds4_dist_route_plan).

Definition registry_step (expected : bytes) (st : ds4_dist_coordinator_state) (e : event) : ds4_dist_coordinator_state :=
  match e with
  | WorkerJoins fd host port greeting => (dist_coordinator_client_main st expected fd host port greeting).1
  | WorkerLeaves fd => dist_coordinator_remove_worker st fd
  | RouteFails plan => dist_coordinator_forget_route_workers st plan
  end.

Definition event_ok (e : event) : Prop :=
  match e with WorkerJoins _ host _ greeting => host_ok host /\ bytes_ok greeting | _ => True end.

Lemma read_full_ok n p a r : dist_read_full n p = Some (a, r) -> bytes_ok p -> bytes_ok a /\ bytes_ok r.
Proof.
  unfold dist_read_full. destruct (_ <? _); [done|]. intros [= <- <-] Hp. split; [by apply Forall_take|by apply Forall_drop].
Qed.

Lemma hello_from_ok p : bytes_ok p -> hello_ok (dist_hello_from_wire p).
Proof. intros Hp. unfold hello_ok, hello_fields, dist_hello_from_wire. cbn. repeat apply Forall_cons_2; try done; by apply field_range. Qed.

Lemma recv_hello_ok p h name rest : dist_recv_hello p = Received (h, name) rest -> bytes_ok p -> hello_ok h.
Proof.
  unfold dist_recv_hello, dist_read_frame_header. intros H Hp.
  destruct (dist_read_full 12 p) as [[hd p1]|] eqn:E1; [|done]. apply read_full_ok in E1 as [_ Hp1]; [|done].
  destruct (negb _); [done|]. destruct (negb _); [done|]. destruct (_ || _); [done|].
  destruct (dist_read_full HELLO_BYTES p1) as [[w p2]|] eqn:E2; [|done]. apply read_full_ok in E2 as [Hw _]; [|done].
  destruct (_ || _); [done|]. destruct (_ =? 0).
  - injection H as <- <- <-. by apply hello_from_ok.
  - destruct (dist_read_full _ p2) as [[nm p3]|]; [|done]. destruct (dist_bytes_have_nul nm); [done|].
    injection H as <- <- <-. by apply hello_from_ok.
Qed.

Definition hello_worker (fd : Z) (host port : bytes) (h : ds4_dist_hello_fixed) (name : bytes) : ds4_dist_worker_entry :=
  mkWorker fd host port name (h_model_id h) (h_quant_bits h) (h_layer_start h) (h_layer_end h) (h_has_output h)
    (h_has_hidden h) (h_ctx_size h) (h_n_layers h) (h_listen_port h).

Lemma admitted_ok st expected fd host port h name :
  in_u 32 (cs_n_layers st) -> hello_ok h -> host_ok host -> hello_reject st expected h name = None ->
  worker_ok st (hello_worker fd host port h name).
Proof.
  intros Hn Hh Hho H. unfold hello_ok, hello_fields in Hh. rewrite !Forall_cons in Hh.
  destruct Hh as (_ & _ & Hs & He & Ho & Hhi & _ & _ & Hp & _). unfold in_u in *. unfold hello_reject in H.
  destruct (Z.eqb_spec (h_model_id h) (cs_model_id st)); [|done]. destruct (bytes_eqb _ _); [|done].
  destruct (Z.eqb_spec (h_n_layers h) (cs_n_layers st)) as [Hl|]; [|done]. cbn [negb] in H.
  destruct (negb (h_quant_bits h =? 2) && negb (h_quant_bits h =? 4)) eqn:Eq; [done|].
  destruct (Z.ltb_spec 1 (h_has_output h)); [done|]. destruct (Z.ltb_spec 1 (h_has_hidden h)); [done|].
  destruct ((h_n_layers h <=? h_layer_start h) || _ || _) eqn:Er; [done|].
  destruct (negb (h_has_output h =? 0) && _) eqn:Eo; [done|]. destruct (negb (cs_ctx_size st =? 0) && _) eqn:Ec; [done|].
  destruct ((h_listen_port h =? 0) || _) eqn:Epp; [done|].
  apply orb_false_iff in Er as [[E1%Z.leb_gt E2%Z.leb_gt]%orb_false_iff E3%Z.ltb_ge].
  apply orb_false_iff in Epp as [E4%Z.eqb_neq E5%Z.ltb_ge].
  apply andb_false_iff in Eq, Eo, Ec. rewrite !negb_false_iff, !Z.eqb_eq in *. rewrite Z.ltb_ge in Ec.
  split; cbn; try done; try lia.
  destruct (Z.eq_dec (h_has_output h) 0) as [->|Hno]; [by left|right]. split; [lia|]. destruct Eo as [|Eo]; [lia|].
  rewrite <- Hl, <- Eo. symmetry. apply wrap_small. unfold in_u. lia.
Qed.

Lemma stale_key fd host port h name w :
  is_stale host h w = true <-> slice_key w = slice_key (hello_worker fd host port h name).
Proof.
  unfold is_stale, slice_key, hello_worker. cbn. rewrite !andb_true_iff, bytes_eqb_eq, !Z.eqb_eq. split.
  - by intros ((((-> & ->) & ->) & ->) & ->).
  - by intros [= -> -> -> -> ->].
Qed.

Lemma unlink_first_split p ws ws' : unlink_first p ws = Some ws' ->
  exists l w r, ws = l ++ w :: r /\ ws' = l ++ r /\ p w = true.
Proof.
  revert ws'. induction ws as [|w ws IH]; intros ws'; cbn; [done|]. destruct (p w) eqn:E.
  - intros [= <-]. by exists [], w, ws.
  - destruct (unlink_first p ws) as [x|]; [|done]. intros [= <-]. destruct (IH x eq_refl) as (l & w0 & r & -> & -> & Hp).
    by exists (w :: l), w0, r.
Qed.

Lemma registry_sublist st ws : registry_ok st -> (exists l r w, cs_workers st = l ++ w :: r /\ ws = l ++ r) ->
  Forall (worker_ok st) ws /\ NoDup (slice_key <$> ws).
Proof.
  intros [Ho Hn] (l & r & w & E & ->). rewrite E in *. rewrite Forall_app, Forall_cons in Ho. rewrite fmap_app, fmap_cons in Hn.
  rewrite Forall_app, fmap_app. split; [tauto|]. apply NoDup_app in Hn as (H1 & H2 & [H3 H4]%NoDup_cons).
  apply NoDup_app. split; [done|]. split; [|done]. intros x Hx Hx'. apply (H2 x Hx). by right.
Qed.

Lemma forget_entries_sub es ws removed : exists k, ws ≡ₚ (forget_entries es ws removed).1 ++ k.
Proof.
  revert ws removed. induction es as [|e es IH]; intros ws removed; cbn; [exists []; by rewrite app_nil_r|].
  destruct (unlink_first _ ws) as [ws'|] eqn:E; [|apply IH]. apply unlink_first_split in E as (l & w & r & -> & -> & _).
  destruct (IH (l ++ r) true) as [k Hk]. exists (k ++ [w]). rewrite app_assoc, <- Hk. rewrite <- app_assoc. by rewrite <- Permutation_cons_append.
Qed.

Lemma set_workers_ok st ws : Forall (worker_ok st) ws /\ NoDup (slice_key <$> ws) -> registry_ok (set_workers ws st).
Proof.
  intros [H1 H2]. split; [|done]. eapply Forall_impl; [exact H1|]. intros w []. by split.
Qed.

Lemma registry_step_ok expected st e :
  in_u 32 (cs_n_layers st) -> registry_ok st -> event_ok e -> registry_ok (registry_step expected st e).
Proof.
  intros Hn H He. pose proof H as [Ho Hnd]. destruct e as [fd host port greeting|fd|plan]; cbn [registry_step].
  - destruct He as [Hho Hb]. unfold dist_coordinator_client_main. destruct (dist_recv_hello greeting) as [[h name] rest| |] eqn:Er; [|done..].
    apply recv_hello_ok in Er; [|done]. destruct (hello_reject _ _ _ _) eqn:Ej; [done|]. cbn [fst].
    unfold dist_coordinator_add_worker. destruct (cs_shutting_down st); [done|]. apply set_workers_ok.
    fold (hello_worker fd host port h name). split.
    + constructor; [by eapply admitted_ok|]. apply Forall_forall. intros w Hw. rewrite list_elem_of_In, filter_In in Hw.
      rewrite Forall_forall in Ho. apply Ho. apply list_elem_of_In. apply Hw.
    + cbn. apply NoDup_cons. split.
      * intros Hin. apply list_elem_of_fmap in Hin as (w & Ek & Hw). rewrite list_elem_of_In, filter_In in Hw.
        destruct Hw as [_ Hw]. apply negb_true_iff in Hw. rewrite <- not_true_iff_false in Hw. apply Hw. by apply (stale_key fd host port h name).
      * clear -Hnd. induction (cs_workers st) as [|w ws IH]; [done|]. cbn in *. apply NoDup_cons in Hnd as [Hx Hnd].
        destruct (negb (is_stale host h w)); [|by apply IH]. cbn. apply NoDup_cons. split; [|by apply IH].
        intros Hin. apply Hx. apply list_elem_of_fmap in Hin as (w' & -> & Hw). rewrite list_elem_of_In, filter_In in Hw.
        apply list_elem_of_fmap. exists w'. split; [done|]. apply list_elem_of_In, Hw.
  - unfold dist_coordinator_remove_worker. destruct (unlink_first _ _) as [ws|] eqn:E; [|done]. apply set_workers_ok.
    apply (registry_sublist st ws H). apply unlink_first_split in E as (l & w & r & E1 & E2 & _). by exists l, r, w.
  - unfold dist_coordinator_forget_route_workers. pose proof (forget_entries_sub (p_entry plan) (cs_workers st) false) as [k Hk].
    destruct (forget_entries _ _ _) as [ws removed]. cbn [fst] in Hk. destruct removed; [|done]. apply set_workers_ok. split.
    + rewrite Hk, Forall_app in Ho. apply Ho.
    + rewrite Hk, fmap_app in Hnd. by apply NoDup_app in Hnd as [Hnd _].
Qed.

Lemma registry_step_config expected st e :
  let st' := registry_step expected st e in
  cs_n_layers st' = cs_n_layers st /\ cs_model_id st' = cs_model_id st /\
  (st' = st \/ cs_generation st' = u64 (cs_generation st + 1)).
Proof.
  destruct e as [fd host port greeting|fd|plan]; cbn.
  - unfold dist_coordinator_client_main. destruct (dist_recv_hello greeting) as [[h name] rest| |]; [|split_and!; auto..].
    destruct (hello_reject _ _ _ _); [split_and!; auto|]. cbn. unfold dist_coordinator_add_worker.
    destruct (cs_shutting_down st); split_and!; auto.
  - unfold dist_coordinator_remove_worker. destruct (unlink_first _ _); split_and!; auto.
  - unfold dist_coordinator_forget_route_workers. destruct (forget_entries _ _ _) as [ws []]; split_and!; auto.
Qed.

Lemma registry_fold_ok expected events st :
  in_u 32 (cs_n_layers st) -> registry_ok st -> Forall event_ok events ->
  registry_ok (fold_left (registry_step expected) events st).
Proof.
  intros Hn H He. revert st Hn H. induction He as [|e events Hev _ IH]; intros st Hn H; [done|]. cbn [fold_left].
  apply IH; [|by apply registry_step_ok]. by destruct (registry_step_config expected st e) as (-> & _).
Qed.

(** C20.  Whatever workers join, leave or are forgotten, the registry holds only
    workers that fit the model, with slices inside it, at most one per host and
    slice; and every change of the registry changes its generation, so a plan made
    for another registry is noticed. *)
Theorem registry_invariant expected st events :
  in_u 32 (cs_n_layers st) -> cs_workers st = [] -> Forall event_ok events ->
  registry_ok (fold_left (registry_step expected) events st) /\
  forall e, let st1 := fold_left (registry_step expected) events st in let st2 := registry_step expected st1 e in
    cs_workers st2 <> cs_workers st1 -> cs_generation st2 = u64 (cs_generation st1 + 1).
Proof.
  intros Hn Hw He.
  split.
  - apply registry_fold_ok; [done| |done]. split; rewrite Hw; [constructor|apply NoDup_nil_2].
  - intros e st1 st2 Hne. destruct (registry_step_config expected st1 e) as (_ & _ & [E|E]); [|done].
    fold st2 in E. by rewrite E in Hne.
Qed.

(** ** The plan *)

Definition hop_of (w : ds4_dist_worker_entry) : ds4_dist_route_entry := route_entry_of w (-1).
Definition clear_fd (e : ds4_dist_route_entry) : ds4_dist_route_entry :=
  mkRouteEntry (re_host e) (re_port e) (re_layer_start e) (re_layer_end e) (re_flags e) (-1).

Lemma chain_elems st ws ws' last next path :
  (forall w, w ∈ ws <-> w ∈ ws') -> chain st ws last next path -> chain st ws' last next path.
Proof.
  intros Hw. induction 1 as [next w [Hc Hk] Hs He|next w path [Hc Hk] Hs He _ IH].
  - apply chain_last; try done. split; [by apply Hw|done].
  - apply chain_hop; try done. split; [by apply Hw|done].
Qed.

Lemma reaches_elems st ws ws' last next k :
  (forall w, w ∈ ws <-> w ∈ ws') -> reaches st ws last next k -> reaches st ws' last next k.
Proof.
  intros Hw. induction 1 as [|next w k [Hc Hk] Hs He _ IH]; [constructor|].
  eapply reaches_hop; try done. split; [by apply Hw|done].
Qed.

(** The flag is a flag, and the comparison an order, on registered workers. *)
Definition output_flag (w : ds4_dist_worker_entry) : Prop := w_has_output w = 0 \/ w_has_output w = 1.

Section plan.
Context (st : ds4_dist_coordinator_state) (qsort : list ds4_dist_worker_entry -> list ds4_dist_worker_entry).
Context (dup : Z -> option Z).
Context (qsort_perm : forall ws, qsort ws ≡ₚ ws).
Context (qsort_sorted : forall ws, Forall output_flag ws -> StronglySorted (fun a b => dist_worker_route_cmp a b <= 0) (qsort ws)).
Context (Hn : 0 < cs_n_layers st <= 2 ^ 20).
Context (Hok : Forall (worker_ok st) (cs_workers st)).

Local Abbreviation last_layer := (cs_n_layers st - 1).
Local Abbreviation route := (chain st (cs_workers st) last_layer).

Lemma cmp_starts a b : dist_worker_route_cmp a b <= 0 -> w_layer_start a <= w_layer_start b.
Proof using.
  unfold dist_worker_route_cmp. destruct (Z.ltb_spec (w_layer_start a) (w_layer_start b)); [lia|].
  destruct (Z.ltb_spec (w_layer_start b) (w_layer_start a)); lia.
Qed.

Lemma sorted_starts ws : Forall output_flag ws -> starts_sorted (qsort ws).
Proof.
  intros Hws. unfold starts_sorted. pose proof (qsort_sorted ws Hws) as H. induction H as [|w l H IH Hw]; [constructor|].
  constructor; [done|]. eapply Forall_impl; [exact Hw|]. intros x. apply cmp_starts.
Qed.

Lemma candidate_ok w : candidate st (cs_workers st) last_layer w -> worker_ok st w.
Proof. intros [Hw _]. rewrite Forall_forall in Hok. by apply Hok. Qed.

Lemma hop_of_ok w : worker_ok st w -> hop_ok (cs_n_layers st) (hop_of w).
Proof.
  intros [(H1 & H2 & H3 & H4) _ _ Hr He Ho _ _ _ Hp]. unfold hop_of, route_entry_of. split; cbn; try done.
  destruct Ho as [->|[-> Ho]]; [by left|by right].
Qed.

Lemma route_hops next path : route next path ->
  Forall (hop_ok (cs_n_layers st)) (hop_of <$> path) /\ contiguous (Some (next - 1)) (hop_of <$> path) /\
  zlen path <= cs_n_layers st - next /\
  (exists e, last (hop_of <$> path) = Some e /\ re_layer_end e = last_layer).
Proof.
  induction 1 as [next w Hc Hs He|next w path Hc Hs He Hp (IH1 & IH2 & IH3 & e & IH4 & IH5)];
    pose proof (candidate_ok w Hc) as Hw; pose proof (hop_of_ok w Hw) as Hh; destruct Hw as [_ _ _ Hr Hend _ _ _ _ _].
  - split; [by constructor|]. split; [cbn; split; [lia|done]|]. split; [unfold zlen; cbn; lia|].
    exists (hop_of w). split; [done|]. cbn. lia.
  - split; [by constructor|]. split.
    + cbn. split; [lia|]. by replace (w_layer_end w) with (w_layer_end w + 1 - 1) by lia.
    + rewrite zlen_cons. split; [lia|]. exists e. split; [|done]. destruct path as [|w' path]; [by inversion Hp|]. exact IH4.
Qed.

Lemma append_blob_ok w fd plan :
  worker_ok st w -> zlen (p_blob plan) + 1045 <= UINT32_MAX ->
  dist_route_plan_append_blob plan (route_entry_of w fd) = inr (mkPlan (p_entry plan) (p_blob plan ++ hop_bytes (hop_of w))).
Proof.
  intros [(H1 & H2 & _ & _) _ _ _ _ _ _ _ _ _] Hb. unfold dist_route_plan_append_blob, NI_MAXHOST, UINT32_MAX in *. cbn [re_host route_entry_of].
  assert (0 < zlen (w_peer_host w)).
  { pose proof (zlen_nonneg (w_peer_host w)). destruct (decide (zlen (w_peer_host w) = 0)) as [E|]; [|lia]. exfalso.
    apply H1, length_zero_iff_nil. unfold zlen in E. lia. }
  rewrite (proj2 (Z.eqb_neq _ _)), (proj2 (Z.leb_gt _ _)) by lia. cbn [orb].
  rewrite (proj2 (Z.ltb_ge _ _)), (proj2 (Z.ltb_ge _ _)) by lia. reflexivity.
Qed.

Lemma zlen_hop_of w : worker_ok st w -> zlen (hop_bytes (hop_of w)) <= 1045.
Proof. intros Hw. rewrite zlen_hop_bytes. destruct (hop_of_ok w Hw). unfold NI_MAXHOST in *. lia. Qed.

(** The hops behind the first. *)
Lemma build_rest path plan :
  Forall (worker_ok st) path -> p_entry plan <> [] -> zlen (p_blob plan) + 1045 * zlen path <= UINT32_MAX ->
  build_entries dup st path plan =
    inr (mkPlan (p_entry plan ++ (hop_of <$> path)) (p_blob plan ++ flat_map hop_bytes (hop_of <$> path))).
Proof.
  intros Hp. revert plan. induction Hp as [|w path Hw _ IH]; intros plan Hne Hb; cbn [build_entries].
  - destruct plan. cbn. by rewrite !app_nil_r.
  - assert (E : (zlen (p_entry plan) =? 0) = false).
    { apply Z.eqb_neq. destruct (p_entry plan) as [|x l]; [done|]. rewrite zlen_cons. pose proof (zlen_nonneg l). lia. }
    rewrite E, andb_false_r. rewrite zlen_cons in Hb. pose proof (zlen_nonneg path).
    rewrite append_blob_ok by (done || cbn; lia). cbn [p_entry p_blob].
    rewrite IH; cbn [p_entry p_blob].
    + cbn [fmap list_fmap flat_map]. by rewrite <- !app_assoc.
    + by destruct (p_entry plan).
    + rewrite zlen_app. pose proof (zlen_hop_of w Hw). lia.
Qed.

Lemma build_route w path :
  Forall (worker_ok st) (w :: path) -> 1045 * zlen (w :: path) <= UINT32_MAX ->
  match build_entries dup st (w :: path) plan_zero with
  | inr plan => clear_fd <$> p_entry plan = hop_of <$> w :: path /\ p_blob plan = flat_map hop_bytes (hop_of <$> w :: path)
  | inl e => e = DupFailed /\ cs_use_control_for_work st = true
  end.
Proof.
  intros [Hw Hp]%Forall_cons Hb. cbn [build_entries]. change (zlen (p_entry plan_zero) =? 0) with true. rewrite andb_true_r.
  rewrite zlen_cons in Hb. pose proof (zlen_nonneg path).
  destruct (if cs_use_control_for_work st then _ else _) as [fd|] eqn:Efd.
  2: { by destruct (cs_use_control_for_work st). }
  rewrite append_blob_ok by (done || cbn; lia). cbn [p_entry p_blob plan_zero app].
  rewrite build_rest; cbn [p_entry p_blob]; [|done|done|].
  - split; [|done]. cbn. f_equal. rewrite <- list_fmap_compose. apply list_fmap_ext. by intros _ x _.
  - pose proof (zlen_hop_of w Hw). lia.
Qed.

(** What a worker makes of a plan. *)
Definition plan_accepted (plan : ds4_dist_route_plan) (hops : list ds4_dist_route_entry) : Prop :=
  dist_route_validate_blob (p_blob plan) (zlen hops) (cs_n_layers st) = true /\
  (forall i, 0 <= i < zlen hops -> dist_route_get_entry (p_blob plan) (zlen hops) i = hops !! Z.to_nat i) /\
  dist_route_get_return_target (p_blob plan) (zlen hops) = Some (mkReturn [] 0 DS4_DIST_ROUTE_RETURN_UPSTREAM).

Lemma route_bytes_accepted plan hops prev :
  hops <> [] -> Forall (hop_ok (cs_n_layers st)) hops -> contiguous prev hops -> p_blob plan = route_bytes hops ->
  plan_accepted plan hops.
Proof.
  intros Hne Hh Hc Hb. unfold plan_accepted. rewrite Hb.
  assert (Hz : 0 < zlen hops) by (destruct hops as [|e l]; [done|]; rewrite zlen_cons; pose proof (zlen_nonneg l); lia).
  split; [|split].
  - unfold dist_route_validate_blob. rewrite (proj2 (Z.eqb_neq _ _)) by lia. unfold zlen. rewrite Nat2Z.id.
    apply validate_hops; [lia|done| |done]. destruct hops as [|e l]; [done|]. destruct Hc as [_ Hc]. by split.
  - intros i Hi. unfold dist_route_get_entry. rewrite (proj2 (Z.leb_gt _ _)) by lia. unfold zlen at 1. rewrite Nat2Z.id.
    apply (get_entry_hops (cs_n_layers st)); [lia|done|lia].
  - unfold dist_route_get_return_target. rewrite (proj2 (Z.eqb_neq _ _)) by lia. unfold zlen. rewrite Nat2Z.id.
    apply (return_target_hops (cs_n_layers st)); [lia|done].
Qed.

(** A finished plan: nothing to do remotely, or a complete route. *)
Definition plan_correct (plan : ds4_dist_route_plan) : Prop :=
  p_entry plan = [] /\ p_blob plan = [] /\ cs_local_end st = last_layer /\ cs_local_has_output st || cs_local_can_output_head st = true \/
  exists path, route (cs_local_end st + 1) path /\ clear_fd <$> p_entry plan = hop_of <$> path /\ path <> [] /\
    contiguous (Some (cs_local_end st)) (hop_of <$> path) /\
    (exists e, last (hop_of <$> path) = Some e /\ re_layer_end e = last_layer) /\
    plan_accepted plan (hop_of <$> path).

Lemma build_plan_outcome :
  cs_local_start st = 0 -> 0 <= cs_local_end st < cs_n_layers st ->
  match dist_coordinator_build_route_plan qsort dup st with
  | inr (plan, gen) => gen = cs_generation st /\ plan_correct plan
  | inl (MissingLayer k) =>
      (forall path, ~ route (cs_local_end st + 1) path) /\
      reaches st (cs_workers st) last_layer (cs_local_end st + 1) k /\
      forall k', reaches st (cs_workers st) last_layer (cs_local_end st + 1) k' -> k' <= k
  | inl e => e = DupFailed /\ cs_use_control_for_work st = true
  end.
Proof.
  intros Hs Hl. unfold dist_coordinator_build_route_plan. rewrite Hs. cbn [Z.eqb negb].
  assert (Eu : u32 (cs_n_layers st - 1) = last_layer) by (apply wrap_small; unfold in_u; lia). rewrite Eu.
  assert (Eu' : u32 (cs_local_end st + 1) = cs_local_end st + 1) by (apply wrap_small; unfold in_u; lia). rewrite Eu'.
  destruct ((cs_local_end st =? last_layer) && _) eqn:E0.
  { apply andb_true_iff in E0 as [E0%Z.eqb_eq E1]. split; [done|]. by left. }
  assert (Hel : forall w, w ∈ qsort (cs_workers st) <-> w ∈ cs_workers st) by (intros w; by rewrite qsort_perm).
  destruct (search_outcome st (qsort (cs_workers st)) last_layer) with (fuel := (Z.to_nat (cs_n_layers st) + 1)%nat) (next := cs_local_end st + 1)
    as (r & -> & Hr); [apply sorted_starts| |lia|lia|lia|].
  { eapply Forall_impl; [exact Hok|]. intros w []. unfold output_flag. tauto. }
  { apply Forall_forall. intros w Hw%Hel. rewrite Forall_forall in Hok. apply (wo_range _ _ (Hok w Hw)). }
  destruct r as [path|k].
  2: { destruct Hr as (H1 & H2 & _ & H3). split; [|split].
    - intros path Hp. apply (H1 path). eapply chain_elems; [|exact Hp]. intros w. by rewrite Hel.
    - by eapply reaches_elems.
    - intros k' Hk. apply H3. eapply reaches_elems; [|exact Hk]. intros w. by rewrite Hel. }
  cbn [outcome] in Hr. apply (chain_elems _ _ _ _ _ _ Hel) in Hr. destruct (route_hops _ _ Hr) as (Hh & Hc & Hz & Hlast).
  replace (cs_local_end st + 1 - 1) with (cs_local_end st) in Hc by lia.
  destruct path as [|w path]; [by inversion Hr|].
  assert (Hwp : Forall (worker_ok st) (w :: path)).
  { clear -Hr Hok Hn. remember (w :: path) as p eqn:Ep. clear Ep. induction Hr as [next x Hc|next x p Hc _ _ _ IH];
      (constructor; [by apply candidate_ok|try done]). }
  pose proof (build_route w path Hwp) as Hb. destruct (build_entries dup st (w :: path) plan_zero) as [e|plan].
  { destruct Hb as [-> Hb]; [unfold UINT32_MAX; lia|]. by split. }
  destruct Hb as [He Hbl]; [unfold UINT32_MAX; lia|].
  assert (Hsz : zlen (p_blob plan) <= 1045 * zlen (w :: path)).
  { rewrite Hbl. clear -Hwp Hok Hn. induction Hwp as [|x l Hx _ IH]; [done|]. rewrite fmap_cons. cbn [flat_map]. rewrite zlen_app, zlen_cons.
    pose proof (zlen_hop_of x Hx). lia. }
  assert (E1 : (zlen (p_entry plan) =? 0) = false).
  { apply Z.eqb_neq. destruct (p_entry plan) as [|x l]; [done|]. rewrite zlen_cons. pose proof (zlen_nonneg l). lia. }
  rewrite E1. unfold dist_route_plan_append_return_upstream. rewrite (proj2 (Z.ltb_ge _ _)) by (unfold UINT32_MAX; lia).
  split; [done|]. right. exists (w :: path). split; [done|]. split; [done|]. split; [done|]. split; [done|]. split; [done|].
  eapply route_bytes_accepted; [done|exact Hh|exact Hc|]. cbn [p_blob]. by rewrite Hbl.
Qed.
End plan.

(** C4.  Planning a route: whatever order [qsort] leaves equal workers in, the
    planner either finds a complete route, or names the first layer no chain of
    workers reaches when there is no route at all.  A route takes up where the
    coordinator's own layers end, covers every layer to the last once and in order,
    and every worker on it accepts the bytes that travel with the work and reads
    from them the same hops; besides, only a refused [dup] stops a plan. *)
Theorem route_plan_correct st qsort dup :
  (forall ws, qsort ws ≡ₚ ws) ->
  (forall ws, Forall output_flag ws -> StronglySorted (fun a b => dist_worker_route_cmp a b <= 0) (qsort ws)) ->
  registry_ok st -> 0 < cs_n_layers st <= 2 ^ 20 -> cs_local_start st = 0 -> 0 <= cs_local_end st < cs_n_layers st ->
  let next := cs_local_end st + 1 in
  let last_layer := cs_n_layers st - 1 in
  match dist_coordinator_build_route_plan qsort dup st with
  | inr (plan, gen) => gen = cs_generation st /\ plan_correct st plan
  | inl (MissingLayer k) =>
      (forall path, ~ chain st (cs_workers st) last_layer next path) /\
      reaches st (cs_workers st) last_layer next k /\
      forall k', reaches st (cs_workers st) last_layer next k' -> k' <= k
  | inl e => e = DupFailed /\ cs_use_control_for_work st = true
  end.
Proof. intros Hp Hso [Hok _] Hn Hs Hl. by apply build_plan_outcome. Qed.

(**  The check of a route accepts exactly the routes: one or more hops with a
    host, a port, a slice inside the model, each starting where the one before
    ended, the output head only at the last layer, then the return address, and
    nothing behind it. *)
Lemma validate_route_iff n_layers count p :
  0 < n_layers < 2 ^ 32 -> 0 < count -> bytes_ok p ->
  dist_route_validate_blob p count n_layers = true <->
  exists hops, zlen hops = count /\ p = route_bytes hops /\ Forall (hop_ok n_layers) hops /\ contiguous None hops.
Proof.
  intros Hn Hc Hp. unfold dist_route_validate_blob. rewrite (proj2 (Z.eqb_neq _ _)) by lia. split.
  - intros H. destruct (validate_inv n_layers Hn (Z.to_nat count) None p H Hp I) as (es & Hl & H1 & H2 & H3).
    exists es. split; [unfold zlen; lia|done].
  - intros (hops & Hl & -> & Hh & Hco). unfold zlen in Hl. rewrite <- Hl, Nat2Z.id. by apply validate_hops.
Qed.

(** * a small cluster *)

#[local] Open Scope Z_scope.

(** The order of [dist_worker_route_cmp] on flags: by the start, then the workers
    with the output head, then the longer slice. *)
Definition route_le (a b : ds4_dist_worker_entry) : Prop :=
  w_layer_start a < w_layer_start b \/
  w_layer_start a = w_layer_start b /\
  (w_has_output b < w_has_output a \/ w_has_output a = w_has_output b /\ w_layer_end b <= w_layer_end a).

#[local] Instance route_le_dec : RelDecision route_le.
Proof. intros a b. unfold route_le. apply _. Defined.

#[local] Instance route_le_total : Total route_le.
Proof. intros a b. unfold route_le. lia. Qed.

#[local] Instance route_le_trans : Transitive route_le.
Proof. intros a b c. unfold route_le. lia. Qed.

Lemma route_le_cmp a b : output_flag a -> output_flag b -> route_le a b -> dist_worker_route_cmp a b <= 0.
Proof.
  unfold route_le, output_flag, dist_worker_route_cmp. intros Ha Hb H.
  destruct (Z.ltb_spec (w_layer_start a) (w_layer_start b)); [lia|]. destruct (Z.ltb_spec (w_layer_start b) (w_layer_start a)); [lia|].
  destruct (Z.eqb_spec (w_has_output a) (w_has_output b)); cbn [negb].
  - destruct (Z.ltb_spec (w_layer_end b) (w_layer_end a)); [lia|]. destruct (Z.ltb_spec (w_layer_end a) (w_layer_end b)); lia.
  - destruct (Z.eqb_spec (w_has_output a) 0); cbn [negb]; lia.
Qed.

(** A sort as [qsort] promises. *)
Definition demo_sort : list ds4_dist_worker_entry -> list ds4_dist_worker_entry := merge_sort route_le.

Lemma demo_sort_perm ws : demo_sort ws ≡ₚ ws.
Proof. apply merge_sort_Permutation. Qed.

Lemma demo_sort_sorted ws : Forall output_flag ws -> StronglySorted (fun a b => dist_worker_route_cmp a b <= 0) (demo_sort ws).
Proof.
  intros Hf. assert (Hf' : Forall output_flag (demo_sort ws)) by (by rewrite demo_sort_perm).
  pose proof (StronglySorted_merge_sort route_le ws) as Hs. fold (demo_sort ws) in Hs.
  induction Hs as [|a l Hs IH Ha]; [constructor|]. apply Forall_cons in Hf' as [Hfa Hfl]. constructor; [by apply IH|].
  rewrite Forall_forall in *. intros x Hx. apply route_le_cmp; [done|by apply Hfl|by apply Ha].
Qed.

(** ** A cluster of three workers for the layers 2 to 9 *)

Definition demo_coordinator : ds4_dist_coordinator_state :=
  mkCoordinator 7 10 0 1 4096 false false false 16 0 [] false.

Definition demo_greeting (first last : Z) (output : bool) (port : Z) : bytes :=
  dist_send_hello 10 7 4 (Some (bs "deepseek")) (mkLayers true first last output) 8192 port.

Definition demo_events : list event :=
  [WorkerJoins 5 (bs "10.0.0.1") (bs "4000") (demo_greeting 2 6 false 9001);
   WorkerJoins 6 (bs "10.0.0.2") (bs "4001") (demo_greeting 5 0 true 9002);
   WorkerJoins 7 (bs "10.0.0.3") (bs "4002") (demo_greeting 2 4 false 9003);
   WorkerJoins 8 (bs "10.0.0.3") (bs "4003") (demo_greeting 8 3 false 9003)].

Definition demo_cluster : ds4_dist_coordinator_state := fold_left (registry_step (bs "deepseek")) demo_events demo_coordinator.

Lemma demo_events_ok : Forall event_ok demo_events.
Proof. repeat constructor; try done; apply (bool_decide_unpack _); vm_compute; exact I. Qed.

(** A slice that ends before it starts is refused; the route backs out of the
    longer slice at layer 2, behind which nobody starts. *)
Example demo_cluster_slices :
  (fun w => (w_fd w, w_layer_start w, w_layer_end w)) <$> cs_workers demo_cluster = [(7, 2, 4); (6, 5, 9); (5, 2, 6)].
Proof. vm_compute. reflexivity. Qed.

Example demo_plan_hops :
  (fun r => (fun e => (re_port e, re_layer_start e, re_layer_end e, re_flags e)) <$> p_entry r.1) <$>
    (match dist_coordinator_build_route_plan demo_sort Some demo_cluster with inr r => Some r | inl _ => None end) =
  Some [(9003, 2, 4, 0); (9002, 5, 9, 1)].
Proof. vm_compute. reflexivity. Qed.

(** Without the worker at the end the first layer nobody takes is the seventh. *)
Example demo_plan_missing :
  dist_coordinator_build_route_plan demo_sort Some (dist_coordinator_remove_worker demo_cluster 6) = inl (MissingLayer 7).
Proof. vm_compute. reflexivity. Qed.

Lemma demo_cluster_ok : registry_ok demo_cluster.
Proof. apply registry_fold_ok; [unfold in_u; cbn; lia|by split; constructor|apply demo_events_ok]. Qed.

Lemma registry_invariant_witness :
  registry_ok demo_cluster /\
  cs_generation (registry_step (bs "deepseek") demo_cluster (WorkerLeaves 6)) = u64 (cs_generation demo_cluster + 1).
Proof.
  destruct (registry_invariant (bs "deepseek") demo_coordinator demo_events) as [H1 H2].
  - unfold in_u. cbn. lia.
  - reflexivity.
  - apply demo_events_ok.
  - split; [exact H1|]. apply (H2 (WorkerLeaves 6)). vm_compute. discriminate.
Defined.

Lemma route_plan_correct_witness :
  match dist_coordinator_build_route_plan demo_sort Some demo_cluster with
  | inr (plan, gen) => gen = 3 /\ plan_correct demo_cluster plan
  | inl _ => False
  end.
Proof.
  pose proof (route_plan_correct demo_cluster demo_sort Some demo_sort_perm demo_sort_sorted demo_cluster_ok) as H.
  assert (E : match dist_coordinator_build_route_plan demo_sort Some demo_cluster with inr (_, g) => g = 3 | _ => False end)
    by (vm_compute; reflexivity).
  destruct (dist_coordinator_build_route_plan demo_sort Some demo_cluster) as [e|[plan gen]]; [exact E|]. split; [exact E|].
  apply H; vm_compute; try discriminate; try reflexivity; split; try discriminate; reflexivity.
Defined.

(** Two hops behind layer 1. *)
Definition demo_route : list ds4_dist_route_entry :=
  [mkRouteEntry (bs "10.0.0.3") 9003 2 4 0 (-1); mkRouteEntry (bs "10.0.0.2") 9002 5 9 1 (-1)].

Lemma validate_route_iff_witness :
  exists hops, zlen hops = 2 /\ route_bytes demo_route = route_bytes hops /\ Forall (hop_ok 10) hops /\ contiguous None hops.
Proof.
  apply (validate_route_iff 10 2 (route_bytes demo_route)).
  - lia.
  - lia.
  - apply (bool_decide_unpack _). vm_compute. exact I.
  - vm_compute. reflexivity.
Defined.
