(* ===== verification/Slice.v ===== *)
(** * Slice: a session that evaluates a range of layers (ds4.c)

    The checks, the timeline and the loop over the layers of a slice.  The graph on
    the device is the class [Graph]: what one layer makes of the hidden state and of
    its own cache, the embedding and the output head; floats are 32-bit patterns. *)

From S2P Require Import Prelude Ctype.

(** Commands sent to the device between [begin] and [end] run completely, or fail
    and leave anything in the caches. *)
Class Graph := {
  layer_cache : Type;
  device : Type;
  DS4_N_LAYER : Z;
  DS4_HC_DIM : Z;
  DS4_N_VOCAB : Z;
  gpu_commands : device -> bool * device;
  gpu_torn : device -> (Z -> layer_cache) -> Z -> layer_cache;
  gpu_clear : Z -> layer_cache;
  graph_embed : list Z -> list Z;
  graph_layer : Z -> Z -> list Z -> list Z -> layer_cache -> layer_cache * list Z;
  graph_output_head : list Z -> list Z;
  graph_whole : Z -> list Z -> (Z -> layer_cache) -> (Z -> layer_cache) * list Z
}.

(** The shapes the sizes on the wire rely on. *)
Class GraphLaws `{Graph} := {
  n_layer_range : 0 < DS4_N_LAYER <= 2 ^ 20;
  hc_dim_pos : 0 < DS4_HC_DIM < 2 ^ 32;
  n_vocab_range : 0 < DS4_N_VOCAB < 2 ^ 30;
  embed_shape toks : zlen (graph_embed toks) = zlen toks * DS4_HC_DIM /\ Forall (in_u 32) (graph_embed toks);
  layer_shape il pos0 toks hc c : zlen hc = zlen toks * DS4_HC_DIM -> Forall (in_u 32) hc ->
    zlen (graph_layer il pos0 toks hc c).2 = zlen toks * DS4_HC_DIM /\ Forall (in_u 32) (graph_layer il pos0 toks hc c).2;
  head_shape hc : zlen (graph_output_head hc) = DS4_N_VOCAB /\ Forall (in_u 32) (graph_output_head hc)
}.

(** The weights a process has loaded, and its backend. *)
Record ds4_engine := mkEngine {
  en_backend : bytes; en_cpu : bool;
  en_layer_has_required : Z -> bool; en_token_embd : bool; en_output_head : bool
}.

Section slice.
Context `{Graph}.

Record slice_session := mkSlice {
  ss_ctx_size : Z; ss_prefill_cap : Z; ss_raw_cap : Z;
  ss_checkpoint : list Z; ss_checkpoint_valid : bool; ss_mtp_draft_valid : bool;
  ss_device : device; ss_cache : Z -> layer_cache
}.

Definition set_graph (s : slice_session) (d : device) (c : Z -> layer_cache) : slice_session :=
  mkSlice (ss_ctx_size s) (ss_prefill_cap s) (ss_raw_cap s) (ss_checkpoint s) (ss_checkpoint_valid s)
    (ss_mtp_draft_valid s) d c.

Definition set_checkpoint_valid (v : bool) (s : slice_session) : slice_session :=
  mkSlice (ss_ctx_size s) (ss_prefill_cap s) (ss_raw_cap s) (ss_checkpoint s) v
    (ss_mtp_draft_valid s) (ss_device s) (ss_cache s).

Definition weights_layers_bound (e : ds4_engine) (layer_start layer_end : Z) : bool :=
  if DS4_N_LAYER <=? layer_start then false
  else
    let layer_end := if layer_end =? UINT32_MAX then DS4_N_LAYER - 1 else layer_end in
    if (DS4_N_LAYER <=? layer_end) || (layer_end <? layer_start) then false
    else forallb (fun i => en_layer_has_required e (layer_start + Z.of_nat i)) (seq 0 (Z.to_nat (layer_end - layer_start + 1))).

Definition ds4_session_invalidate (s : slice_session) : slice_session :=
  mkSlice (ss_ctx_size s) (ss_prefill_cap s) (ss_raw_cap s) [] false false (ss_device s) (ss_cache s).

(** Success or the message, and the session. *)
Definition ds4_session_layer_slice_reset (e : ds4_engine) (s : slice_session) : option bytes * slice_session :=
  let s := ds4_session_invalidate s in
  let (ok, d) := gpu_commands (ss_device s) in
  if en_cpu e then (None, set_graph s (ss_device s) gpu_clear)
  else if negb ok then
    (Some (en_backend e ++ bs " layer-slice state reset failed"), set_graph s d (gpu_torn d (ss_cache s)))
  else (None, set_graph s d gpu_clear).

Definition ds4_session_slice_check_timeline (s : slice_session) (toks : list Z) (pos0 : Z) : option bytes :=
  let n_tokens := zlen toks in
  if n_tokens =? 0 then Some (bs "invalid layer-slice token span")
  else
    let ctx_size := u32 (ss_ctx_size s) in
    if (INT_MAX <? pos0) || (INT_MAX <? n_tokens) || (ctx_size <? pos0) || (u32 (ctx_size - pos0) <? n_tokens)
    then Some (bs "layer-slice token span exceeds context")
    else if negb (ss_checkpoint_valid s) then
      if negb (pos0 =? 0) then Some (bs "layer-slice session needs reset before pos " ++ dec pos0) else None
    else if negb (u32 (zlen (ss_checkpoint s)) =? pos0) then
      Some (bs "layer-slice KV position mismatch: have " ++ dec_int (zlen (ss_checkpoint s)) ++ bs " want " ++ dec pos0)
    else None.

Definition ds4_session_slice_commit_timeline (s : slice_session) (toks : list Z) : slice_session :=
  mkSlice (ss_ctx_size s) (ss_prefill_cap s) (ss_raw_cap s) (ss_checkpoint s ++ toks) true false
    (ss_device s) (ss_cache s).

(** One [for] over the layers; each reads and writes its own cache. *)
Fixpoint slice_layers (n : nat) (il pos0 : Z) (toks hc : list Z) (cache : Z -> layer_cache) : (Z -> layer_cache) * list Z :=
  match n with
  | O => (cache, hc)
  | S n' =>
      let (c, hc) := graph_layer il pos0 toks hc (cache il) in
      slice_layers n' (il + 1) pos0 toks hc (fun j => if j =? il then c else cache j)
  end.

(** The last token's row of the hidden state. *)
Definition last_hc (n_tokens : Z) (hc : list Z) : list Z :=
  take (Z.to_nat DS4_HC_DIM) (drop (Z.to_nat ((n_tokens - 1) * DS4_HC_DIM)) hc).

Definition ds4_session_eval_output_head_from_hc (e : ds4_engine) (s : slice_session) (hc : list Z) (n_tokens : Z)
  : sresult (list Z) * slice_session :=
  if n_tokens =? 0 then (SErr (bs "invalid output-head hidden-state input"), s)
  else if negb (en_output_head e) then (SErr (bs "output head is not loaded"), s)
  else
    let logits := graph_output_head (last_hc n_tokens hc) in
    if en_cpu e then (SOk logits, s)
    else
      let (ok, d) := gpu_commands (ss_device s) in
      let s := set_graph s d (ss_cache s) in
      if negb ok then (SErr (en_backend e ++ bs " output-head hidden-state evaluation failed"), s)
      else (SOk logits, s).

(** The checks before the device is used. *)
Definition slice_refused (e : ds4_engine) (s : slice_session) (toks : list Z) (pos0 layer_start layer_end : Z)
    (input_hc output_logits : bool) : option bytes :=
  if (layer_end <? layer_start) || (DS4_N_LAYER <=? layer_end) then
    Some (bs "invalid layer-slice layer range " ++ dec layer_start ++ bs ":" ++ dec layer_end)
  else if negb (layer_start =? 0) && negb input_hc then
    Some (bs "layer-slice layer " ++ dec layer_start ++ bs " requires input hidden-state")
  else if output_logits && negb (u32 (layer_end + 1) =? DS4_N_LAYER) then
    Some (bs "layer-slice logits require final transformer layer")
  else if negb (weights_layers_bound e layer_start layer_end) then
    Some (bs "requested layer slice " ++ dec layer_start ++ bs ":" ++ dec layer_end ++ bs " is not loaded")
  else if negb input_hc && negb (en_token_embd e) then Some (bs "token embedding is not loaded")
  else if output_logits && negb (en_output_head e) then Some (bs "output head is not loaded")
  else ds4_session_slice_check_timeline s toks pos0.

(** The commands of one evaluation: [run] is what they compute when they succeed. *)
Definition slice_commands (e : ds4_engine) (s : slice_session) (toks : list Z) (what : bytes)
    (run : (Z -> layer_cache) -> (Z -> layer_cache) * (option (list Z) * option (list Z)))
  : sresult (option (list Z) * option (list Z)) * slice_session :=
  let (ok, d) := gpu_commands (ss_device s) in
  if negb ok then
    (SErr (en_backend e ++ what), set_checkpoint_valid false (set_graph s d (gpu_torn d (ss_cache s))))
  else
    let (c, out) := run (ss_cache s) in
    (SOk out, ds4_session_slice_commit_timeline (set_graph s d c) toks).

(** [output_hc]: the caller wants the hidden state; [output_logits]: the logits. *)
Definition ds4_session_eval_layer_slice (e : ds4_engine) (s : slice_session) (toks : list Z) (pos0 layer_start layer_end : Z)
    (input_hc : option (list Z)) (output_hc output_logits : bool)
  : sresult (option (list Z) * option (list Z)) * slice_session :=
  match slice_refused e s toks pos0 layer_start layer_end (bool_decide (is_Some input_hc)) output_logits with
  | Some m => (SErr m, s)
  | None =>
      let n_tokens := zlen toks in
      if en_cpu e then (SErr (bs "layer slices require the graph backend"), set_checkpoint_valid false s)
      else if ss_prefill_cap s <? n_tokens then
        (SErr (bs "layer-slice chunk " ++ dec n_tokens ++ bs " exceeds prefill cap " ++ dec (ss_prefill_cap s)), s)
      else if negb (bool_decide (is_Some input_hc)) && negb output_hc && output_logits && (layer_start =? 0)
              && (u32 (layer_end + 1) =? DS4_N_LAYER) then
        slice_commands e s toks (bs " layer-slice full evaluation failed")
          (fun cache => let (c, logits) := graph_whole pos0 toks cache in (c, (None, Some logits)))
      else
        let decode := (n_tokens =? 1) && (0 <? pos0) in
        if decode && (ss_raw_cap s =? 0) then
          (SErr (en_backend e ++ bs " layer-slice decode has no raw KV cache"), set_checkpoint_valid false s)
        else
          slice_commands e s toks (if decode then bs " layer-slice decode failed" else bs " layer-slice failed")
            (fun cache =>
               let hc := default (graph_embed toks) input_hc in
               let (c, hc) := slice_layers (Z.to_nat (layer_end - layer_start + 1)) layer_start pos0 toks hc cache in
               (c, (if output_hc then Some hc else None,
                    if output_logits then Some (graph_output_head (last_hc n_tokens hc)) else None)))
  end.
End slice.

(** * Slices compose, and keep to their own layers *)

#[local] Set Default Proof Using "Type*".

Section slice.
Context `{GraphLaws}.
Implicit Types (cache : Z -> layer_cache) (s : slice_session).

(** One slice after the other is one slice. *)
Lemma slice_layers_app n m il pos0 toks hc cache :
  slice_layers (n + m) il pos0 toks hc cache =
  let (c, hc) := slice_layers n il pos0 toks hc cache in slice_layers m (il + Z.of_nat n) pos0 toks hc c.
Proof.
  revert il hc cache. induction n as [|n IH]; intros il hc cache; cbn [slice_layers Nat.add].
  - by rewrite Z.add_0_r.
  - destruct (graph_layer il pos0 toks hc (cache il)) as [c hc']. rewrite IH.
    destruct (slice_layers n (il + 1) pos0 toks hc' _) as [c' hc'']. f_equal. lia.
Qed.

Lemma slice_layers_outside n : forall il pos0 toks hc cache j,
  j < il \/ il + Z.of_nat n <= j -> (slice_layers n il pos0 toks hc cache).1 j = cache j.
Proof.
  induction n as [|n IH]; intros il pos0 toks hc cache j Hj; cbn [slice_layers]; [done|].
  destruct (graph_layer il pos0 toks hc (cache il)) as [c hc']. rewrite IH by lia. by rewrite (proj2 (Z.eqb_neq j il)) by lia.
Qed.

(** Caches that agree on the slice give the same hidden state, and agree on the
    slice afterwards. *)
Lemma slice_layers_local n : forall il pos0 toks hc c1 c2,
  (forall j, il <= j < il + Z.of_nat n -> c1 j = c2 j) ->
  (slice_layers n il pos0 toks hc c1).2 = (slice_layers n il pos0 toks hc c2).2 /\
  (forall j, il <= j < il + Z.of_nat n -> (slice_layers n il pos0 toks hc c1).1 j = (slice_layers n il pos0 toks hc c2).1 j).
Proof.
  induction n as [|n IH]; intros il pos0 toks hc c1 c2 Hc; cbn [slice_layers]; [split; [done|intros j Hj; cbn; lia]|].
  rewrite (Hc il) by lia. destruct (graph_layer il pos0 toks hc (c2 il)) as [c hc'].
  destruct (IH (il + 1) pos0 toks hc' (fun j => if j =? il then c else c1 j) (fun j => if j =? il then c else c2 j)) as [Hh Hj].
  { intros j Hj. destruct (Z.eqb_spec j il); [done|]. apply Hc. lia. }
  split; [done|]. intros j Hjr. destruct (decide (j = il)) as [->|Hne]; [|apply Hj; lia].
  rewrite !slice_layers_outside by lia. by rewrite Z.eqb_refl.
Qed.

(** Shapes. *)
Definition hc_ok (n_tokens : Z) (hc : list Z) : Prop := zlen hc = n_tokens * DS4_HC_DIM /\ Forall (in_u 32) hc.

Lemma slice_layers_shape n : forall il pos0 toks hc cache,
  hc_ok (zlen toks) hc -> hc_ok (zlen toks) (slice_layers n il pos0 toks hc cache).2.
Proof.
  induction n as [|n IH]; intros il pos0 toks hc cache [Hz Hr]; cbn [slice_layers]; [done|].
  pose proof (layer_shape il pos0 toks hc (cache il) Hz Hr) as Hs. destruct (graph_layer il pos0 toks hc (cache il)) as [c hc'].
  by apply IH.
Qed.

(** ** A slice that is evaluated *)

(** The session's limits. *)
Record session_fits (ctx cap : Z) (s : slice_session) : Prop := mkSessionFits {
  sf_ctx : ss_ctx_size s = ctx;
  sf_cap : cap <= ss_prefill_cap s;
  sf_raw : ss_raw_cap s <> 0
}.

(** A span of tokens that fits. *)
Record span_fits (ctx cap pos0 : Z) (toks : list Z) : Prop := mkSpanFits {
  sp_ctx : ctx <= INT_MAX;
  sp_pos : 0 <= pos0;
  sp_some : toks <> [];
  sp_end : pos0 + zlen toks <= ctx;
  sp_cap : zlen toks <= cap;
  sp_tokens : Forall (fun t => 0 <= t < DS4_N_VOCAB) toks
}.

(** The session holds [T], and the caches of its layers are those of [R]. *)
Record in_step (s : slice_session) (first last : Z) (T : list Z) (R : Z -> layer_cache) : Prop := mkInStep {
  is_tokens : ss_checkpoint s = T;
  is_valid : ss_checkpoint_valid s = true \/ T = [];
  is_cache : forall il, first <= il <= last -> ss_cache s il = R il
}.

(** What an engine needs for a slice. *)
Record engine_has (e : ds4_engine) (first last : Z) : Prop := mkEngineHas {
  eh_gpu : en_cpu e = false;
  eh_range : 0 <= first <= last;
  eh_last : last < DS4_N_LAYER;
  eh_layers : forall il, first <= il <= last -> en_layer_has_required e il = true;
  eh_embd : first = 0 -> en_token_embd e = true
}.

Lemma layers_bound e first last : engine_has e first last -> weights_layers_bound e first last = true.
Proof.
  intros [_ Hr Hl Hb _]. unfold weights_layers_bound. pose proof n_layer_range as Hn.
  rewrite (proj2 (Z.leb_gt _ _)) by lia. rewrite (proj2 (Z.eqb_neq last UINT32_MAX)) by (unfold UINT32_MAX; lia).
  rewrite (proj2 (Z.leb_gt DS4_N_LAYER last)), (proj2 (Z.ltb_ge last first)) by lia. cbn [orb]. apply forallb_forall.
  intros i Hi%in_seq. apply Hb. lia.
Qed.

Lemma timeline_passes ctx cap s pos0 toks T :
  session_fits ctx cap s -> span_fits ctx cap pos0 toks -> ss_checkpoint s = T -> ss_checkpoint_valid s = true \/ T = [] -> zlen T = pos0 ->
  ds4_session_slice_check_timeline s toks pos0 = None.
Proof.
  intros [Hc _ _] [Hi Hp Hs He _ _] HT Hv Hl. unfold ds4_session_slice_check_timeline. rewrite Hc, HT.
  assert (Hz : 0 < zlen toks) by (destruct toks; [done|rewrite zlen_cons; pose proof (zlen_nonneg toks); lia]).
  rewrite (proj2 (Z.eqb_neq _ _)) by lia. unfold u32, INT_MAX in *. rewrite !wrap_small by (unfold in_u; lia).
  repeat (rewrite (proj2 (Z.ltb_ge _ _)) by lia). cbn [orb].
  destruct (ss_checkpoint_valid s) eqn:Ev; cbn [negb].
  - by rewrite (proj2 (Z.eqb_eq _ _) Hl).
  - destruct Hv as [|Hv]; [done|]. rewrite Hv in Hl. change (zlen []) with 0 in Hl. by rewrite <- Hl.
Qed.

Section runs.
Variables ctx cap : Z.
Hypothesis device_works : forall d, (gpu_commands d).1 = true.

(** The device computes the slice, and the timeline grows. *)
Lemma eval_slice_runs e s toks pos0 first last input (out logits : bool) T R :
  engine_has e first last -> session_fits ctx cap s -> span_fits ctx cap pos0 toks -> in_step s first last T R -> zlen T = pos0 ->
  (first = 0 <-> input = None) -> (logits = true -> last + 1 = DS4_N_LAYER /\ en_output_head e = true) ->
  (input = None -> out = true) ->
  let hc := default (graph_embed toks) input in
  let '(R', hc') := slice_layers (Z.to_nat (last - first + 1)) first pos0 toks hc R in
  exists s', ds4_session_eval_layer_slice e s toks pos0 first last input out logits =
      (SOk (if out then Some hc' else None, if logits then Some (graph_output_head (last_hc (zlen toks) hc')) else None), s') /\
    session_fits ctx cap s' /\ ss_checkpoint_valid s' = true /\ in_step s' first last (T ++ toks) R'.
Proof.
  intros He Hs Hp [HT Hv HR] Hl Hin Hlog Hout hc.
  pose proof (slice_layers_local (Z.to_nat (last - first + 1)) first pos0 toks hc (ss_cache s) R) as Hloc.
  destruct (slice_layers _ _ _ _ _ R) as [R' hc'] eqn:ER. unfold ds4_session_eval_layer_slice, slice_refused.
  pose proof (eh_range _ _ _ He) as Hr. pose proof (eh_last _ _ _ He) as Hlast. pose proof n_layer_range as Hn.
  rewrite (proj2 (Z.ltb_ge last first)), (proj2 (Z.leb_gt DS4_N_LAYER last)) by lia. cbn [orb].
  assert (E1 : negb (first =? 0) && negb (bool_decide (is_Some input)) = false).
  { destruct (Z.eqb_spec first 0) as [|Hf]; [done|]. destruct input; [by rewrite (bool_decide_eq_true_2 (is_Some (Some _))) by eauto|].
    by destruct (proj2 Hin eq_refl). }
  rewrite E1. assert (E2 : u32 (last + 1) = last + 1) by (apply wrap_small; unfold in_u; lia). rewrite E2.
  assert (E3 : logits && negb (last + 1 =? DS4_N_LAYER) = false).
  { destruct logits; [|done]. destruct (Hlog eq_refl) as [E _]. by rewrite (proj2 (Z.eqb_eq _ _) E). }
  rewrite E3, layers_bound by done. cbn [negb].
  assert (E4 : negb (bool_decide (is_Some input)) && negb (en_token_embd e) = false).
  { destruct input; [by rewrite (bool_decide_eq_true_2 (is_Some (Some _))) by eauto|]. rewrite (eh_embd _ _ _ He) by (by apply Hin). by rewrite andb_false_r. }
  rewrite E4. assert (E5 : logits && negb (en_output_head e) = false) by (destruct logits; [|done]; by rewrite (proj2 (Hlog eq_refl))).
  rewrite E5, (timeline_passes ctx cap s pos0 toks T) by done. rewrite (eh_gpu _ _ _ He).
  rewrite (proj2 (Z.ltb_ge _ _)) by (destruct Hs, Hp; lia).
  assert (E6 : negb (bool_decide (is_Some input)) && negb out = false).
  { destruct input; [by rewrite (bool_decide_eq_true_2 (is_Some (Some _))) by eauto|]. by rewrite Hout, andb_false_r. }
  rewrite E6. cbn [andb]. rewrite (proj2 (Z.eqb_neq (ss_raw_cap s) 0)) by (by destruct Hs). rewrite andb_false_r.
  unfold slice_commands. pose proof (device_works (ss_device s)) as Hd. destruct (gpu_commands (ss_device s)) as [ok d]. cbn in Hd. subst ok. cbn [negb].
  fold hc. destruct (slice_layers _ _ _ _ hc (ss_cache s)) as [c hc''] eqn:Ec. destruct Hloc as [Hh Hj].
  { intros j Hj. apply HR. lia. }
  cbn in Hh, Hj. subst hc''. eexists. split; [done|]. split; [|split].
  - destruct Hs. by constructor.
  - done.
  - constructor; [by cbn; rewrite HT|by left|]. intros il Hil. apply Hj. lia.
Qed.

Lemma reset_runs e s first last : engine_has e first last -> session_fits ctx cap s ->
  exists s', ds4_session_layer_slice_reset e s = (None, s') /\ session_fits ctx cap s' /\ in_step s' first last [] gpu_clear.
Proof.
  intros He Hs. unfold ds4_session_layer_slice_reset. cbn [ss_device ds4_session_invalidate].
  pose proof (device_works (ss_device s)) as Hd. destruct (gpu_commands (ss_device s)) as [ok d]. cbn in Hd. subst ok.
  rewrite (eh_gpu _ _ _ He). cbn [negb]. eexists. split; [done|]. split; [destruct Hs; by constructor|].
  constructor; [done|by right|done].
Qed.
End runs.
End slice.
