(* ===== verification/DistActivation.v ===== *)
(** * DistActivation: hidden states on the wire (ds4_distributed.c)

    What a connection accepts, and the packing of float activations into 32, 16 or
    8 bits.  A [float] is its 32-bit pattern; the 8-bit conversion computes in IEEE
    binary32 through the Standard Library's [SpecFloat]. *)

From S2P Require Import Prelude Ctype KvHeader Dist.
From Stdlib Require Import Floats.SpecFloat.

(** ** Writing to a connection *)

(** What has been sent, and how much more the peer takes before a [send] fails;
    [None]: it takes everything. *)
Record sink := mkSink { sk_sent : bytes; sk_room : option Z }.

Definition dist_write_full (sk : sink) (buf : bytes) : bool * sink :=
  match sk_room sk with
  | None => (true, mkSink (sk_sent sk ++ buf) None)
  | Some room =>
      if zlen buf <=? room then (true, mkSink (sk_sent sk ++ buf) (Some (room - zlen buf)))
      else (false, mkSink (sk_sent sk ++ take (Z.to_nat room) buf) (Some 0))
  end.

(** Sending one thing after another, as long as it works. *)
Notation "'send' sk := m ; k" := (let '(ok, sk) := m in if negb ok then (false, sk) else k)
  (at level 10, sk name, m at level 100, k at level 200) : c_scope.
Open Scope c_scope.

(** ** Floats in memory *)

Definition floats_bytes (fs : list Z) : bytes := flat_map ds4_kvstore_le_put32 fs.

(** The [float]s of a buffer; a rest shorter than one is not looked at. *)
Fixpoint bytes_floats (p : bytes) : list Z :=
  match p with
  | a :: b :: c :: d :: p' => ds4_kvstore_le_get32 [a; b; c; d] :: bytes_floats p'
  | _ => []
  end.

Definition sf_of_bits (b : Z) : spec_float :=
  let s := Z.testbit b 31 in
  let e := Z.land (Z.shiftr b 23) 255 in
  let m := Z.land b 8388607 in
  if e =? 255 then (if m =? 0 then S754_infinity s else S754_nan)
  else if e =? 0 then (match m with Zpos p => S754_finite s p (-149) | _ => S754_zero s end)
  else match m + 8388608 with Zpos p => S754_finite s p (e - 150) | _ => S754_zero s end.

Definition sign_bit (s : bool) : Z := if s then 2147483648 else 0.

Definition bits_of_sf (f : spec_float) : Z :=
  match f with
  | S754_zero s => sign_bit s
  | S754_infinity s => sign_bit s + 2139095040
  | S754_nan => 2143289344
  | S754_finite s m e =>
      if Zpos m <? 8388608 then sign_bit s + Zpos m
      else sign_bit s + Z.shiftl (e + 150) 23 + (Zpos m - 8388608)
  end.

(** [z * 2^e] as a [float] literal. *)
Definition f_lit (z e : Z) : spec_float := binary_normalize 24 128 z e false.
Definition f_mul : spec_float -> spec_float -> spec_float := SFmul 24 128.
Definition f_add : spec_float -> spec_float -> spec_float := SFadd 24 128.
Definition f_sub : spec_float -> spec_float -> spec_float := SFsub 24 128.
Definition f_div : spec_float -> spec_float -> spec_float := SFdiv 24 128.

(** [(int)floorf(f)]. *)
Definition f_floor (f : spec_float) : Z :=
  match f with
  | S754_finite s m e => Z.shiftl (if s then Zneg m else Zpos m) e
  | _ => 0
  end.

(** ** 16 bits *)

Definition dist_f32_to_f16 (f : Z) : Z :=
  let sign := Z.land (Z.shiftr f 16) 32768 in
  let exp := Z.land (Z.shiftr f 23) 255 - 127 + 15 in
  let mant := Z.land f 8388607 in
  if exp <=? 0 then
    if exp <? -10 then sign
    else
      let mant := Z.lor mant 8388608 in
      let shift := 14 - exp in
      let half_mant := Z.shiftr mant shift in
      let round_bit := Z.land (Z.shiftr mant (shift - 1)) 1 in
      let sticky := Z.land mant (Z.shiftl 1 (shift - 1) - 1) in
      let half_mant := if negb (round_bit =? 0) && (negb (sticky =? 0) || negb (Z.land half_mant 1 =? 0))
                       then half_mant + 1 else half_mant in
      wrap 16 (Z.lor sign half_mant)
  else if 31 <=? exp then
    if (Z.land (Z.shiftr f 23) 255 =? 255) && negb (mant =? 0) then Z.lor sign 32256 else Z.lor sign 31744
  else
    let half := Z.lor (Z.lor sign (Z.shiftl exp 10)) (Z.shiftr mant 13) in
    let round := Z.land mant 8191 in
    let half := if (4096 <? round) || (round =? 4096) && negb (Z.land half 1 =? 0) then half + 1 else half in
    wrap 16 half.

(** The [while] shifts a subnormal significand up to its leading bit; ten bits are
    enough. *)
Fixpoint f16_normalize (fuel : nat) (mant exp : Z) : Z * Z :=
  match fuel with
  | O => (mant, exp)
  | S fuel' => if Z.land mant 1024 =? 0 then f16_normalize fuel' (u32 (Z.shiftl mant 1)) (exp - 1) else (mant, exp)
  end.

Definition dist_f16_to_f32 (h : Z) : Z :=
  let sign := u32 (Z.shiftl (Z.land h 32768) 16) in
  let exp := Z.land (Z.shiftr h 10) 31 in
  let mant := Z.land h 1023 in
  if exp =? 0 then
    if mant =? 0 then sign
    else
      let (mant, exp) := f16_normalize 10 mant 1 in
      let mant := Z.land mant 1023 in
      Z.lor (Z.lor sign (u32 (Z.shiftl (exp + 127 - 15) 23))) (u32 (Z.shiftl mant 13))
  else if exp =? 31 then Z.lor (Z.lor sign 2139095040) (u32 (Z.shiftl mant 13))
  else Z.lor (Z.lor sign (u32 (Z.shiftl (exp + 127 - 15) 23))) (u32 (Z.shiftl mant 13)).

(** ** 8 bits: one sign, four exponent and three significand bits *)

(** [(int)floorf(a * 512.0f + 0.5f)], at most 7. *)
Definition f8_subnormal (sign : Z) (a : spec_float) : Z :=
  let mant := f_floor (f_add (f_mul a (f_lit 512 0)) (f_lit 1 (-1))) in
  if mant <=? 0 then sign
  else let mant := if 7 <? mant then 7 else mant in Z.lor sign mant.

Definition dist_f32_to_f8_e4m3 (f : Z) : Z :=
  let sign := if Z.testbit f 31 then 128 else 0 in
  let a := SFabs (sf_of_bits f) in
  if SFeqb a (f_lit 0 0) then sign
  else if negb (match a with S754_finite _ _ _ => true | S754_zero _ => true | _ => false end) || SFleb (f_lit 240 0) a
  then Z.lor sign 119
  else if SFltb a (f_lit 1 (-9)) then f8_subnormal sign a
  else
    let exp2 := (SFfrexp 24 128 a).2 in
    let exp := exp2 - 1 + 7 in
    if exp <=? 0 then f8_subnormal sign a
    else
      let base := SFldexp 24 128 (f_lit 1 0) (exp2 - 1) in
      let mant := f_floor (f_add (f_mul (f_sub (f_div a base) (f_lit 1 0)) (f_lit 8 0)) (f_lit 1 (-1))) in
      let '(mant, exp) := if 8 <=? mant then (0, exp + 1) else (mant, exp) in
      if 15 <=? exp then Z.lor sign 119
      else u8 (Z.lor (Z.lor sign (u8 (Z.shiftl exp 3))) (u8 mant)).

Definition dist_f8_e4m3_to_f32 (h : Z) : Z :=
  let sign := if negb (Z.land h 128 =? 0) then f_lit (-1) 0 else f_lit 1 0 in
  let exp := Z.land (Z.shiftr h 3) 15 in
  let mant := Z.land h 7 in
  if exp =? 0 then bits_of_sf (f_mul (f_mul sign (f_lit mant 0)) (f_lit 1 (-9)))
  else if 15 <=? exp then bits_of_sf (f_mul sign (f_lit 240 0))
  else
    bits_of_sf (f_mul sign (SFldexp 24 128 (f_add (f_lit 1 0) (f_div (f_lit mant 0) (f_lit 8 0))) (exp - 7))).

(** ** Sizes *)

Definition DS4_DIST_ACTIVATION_BITS_DEFAULT : Z := 32.

Definition dist_activation_bits_or_default (bits : Z) : Z :=
  if bits =? 0 then DS4_DIST_ACTIVATION_BITS_DEFAULT else bits.

Definition dist_activation_bits_valid (bits : Z) : bool :=
  let bits := dist_activation_bits_or_default bits in
  (bits =? 32) || (bits =? 16) || (bits =? 8).

Definition dist_activation_wire_bytes (bits values : Z) : option Z :=
  let bits := dist_activation_bits_or_default bits in
  if negb (dist_activation_bits_valid bits) || negb (bits mod 8 =? 0) then None
  else
    let bytes := u64 (values * (bits / 8)) in
    if UINT32_MAX <? bytes then None else Some bytes.

Definition dist_activation_values_from_wire_bytes (bits bytes : Z) : option Z :=
  let bits := dist_activation_bits_or_default bits in
  if negb (dist_activation_bits_valid bits) || negb (bits mod 8 =? 0) then None
  else
    let bytes_per_value := bits / 8 in
    if (bytes_per_value =? 0) || negb (bytes mod bytes_per_value =? 0) then None
    else Some (bytes / bytes_per_value).

Definition dist_activation_wire_bytes_from_f32_bytes (bits f32_bytes : Z) : option Z :=
  if negb (f32_bytes mod 4 =? 0) then None else dist_activation_wire_bytes bits (f32_bytes / 4).

(** ** Packing *)

Definition le16 (v : Z) : bytes := [u8 v; u8 (Z.shiftr v 8)].

(** One value in the buffer [dst]. *)
Definition pack_value (bits v : Z) : bytes :=
  if bits =? 16 then le16 (dist_f32_to_f16 v) else [dist_f32_to_f8_e4m3 v].

(** [src] holds the values from [done] on; every round packs at least one. *)
Fixpoint pack_chunks (fuel : nat) (sk : sink) (src : list Z) (cap bits : Z) : bool * sink :=
  match fuel with
  | O => (true, sk)
  | S fuel' =>
      if zlen src <=? 0 then (true, sk)
      else
        let n := if cap <? zlen src then cap else zlen src in
        send sk := dist_write_full sk (flat_map (pack_value bits) (take (Z.to_nat n) src));
        pack_chunks fuel' sk (drop (Z.to_nat n) src) cap bits
  end.

(** [mem] says whether an allocation of that size succeeds. *)
Definition dist_write_activation_payload (mem : Z -> bool) (sk : sink) (src : list Z) (bits : Z) : bool * sink :=
  let values := zlen src in
  let bits := dist_activation_bits_or_default bits in
  if negb (dist_activation_bits_valid bits) then (false, sk)
  else if values =? 0 then (true, sk)
  else if bits =? 32 then
    match dist_activation_wire_bytes bits values with
    | None => (false, sk)
    | Some bytes => dist_write_full sk (take (Z.to_nat bytes) (floats_bytes src))
    end
  else
    let max_values := 1024 * 1024 in
    let cap := if values <? max_values then values else max_values in
    if negb (mem (cap * (bits / 8))) then (false, sk)
    else pack_chunks (length src) sk src cap bits.

Fixpoint unpack16 (p : bytes) : list Z :=
  match p with
  | a :: b :: p' => dist_f16_to_f32 (a + 256 * b) :: unpack16 p'
  | _ => []
  end.

(** The message, or the values of the buffer, which holds [wire_bytes] bytes. *)
Definition dist_decode_activation_payload (mem : Z -> bool) (wire : bytes) (bits : Z) : sresult (list Z) :=
  let bits := dist_activation_bits_or_default bits in
  if negb (dist_activation_bits_valid bits) then
    SErr (bs "invalid distributed activation width: " ++ dec bits ++ bs " bits")
  else
    match dist_activation_values_from_wire_bytes bits (zlen wire) with
    | None => SErr (bs "invalid distributed activation payload size")
    | Some values =>
        let f32_bytes := u64 (values * 4) in
        if UINT32_MAX <? f32_bytes then SErr (bs "distributed activation payload is too large")
        else if bits =? 32 then SOk (bytes_floats wire)
        else if negb (f32_bytes =? 0) && negb (mem f32_bytes) then
          SErr (bs "out of memory decoding distributed activations")
        else if bits =? 16 then SOk (unpack16 wire)
        else SOk (map dist_f8_e4m3_to_f32 wire)
    end.

(** * What a hidden state is after the wire

    Packing and unpacking is [quant] of every value, for every width; at 32 bits it is
    the identity, and the 8-bit code survives it. *)

(** ** Ranges *)

Lemma lor_in_u w a b : 0 <= w -> in_u w a -> in_u w b -> in_u w (Z.lor a b).
Proof.
  intros Hw [Ha Ha'] [Hb Hb']. assert (H0 : 0 <= Z.lor a b) by (by apply Z.lor_nonneg). split; [done|].
  destruct (decide (Z.lor a b = 0)) as [->|Hn]; [apply Z.pow_pos_nonneg; lia|].
  apply Z.log2_lt_pow2; [lia|]. rewrite Z.log2_lor by done.
  assert (H : forall x, 0 <= x < 2 ^ w -> x = 0 \/ Z.log2 x < w).
  { intros x [Hx Hx']. destruct (decide (x = 0)); [by left|]. right. apply Z.log2_lt_pow2; lia. }
  assert (Hpos : 0 < w \/ w = 0) by lia. destruct Hpos as [Hpos| ->].
  - destruct (H a), (H b); subst; try done; change (Z.log2 0) with 0; lia.
  - change (2 ^ 0) with 1 in *. assert (a = 0) as -> by lia. assert (b = 0) as -> by lia. done.
Qed.

Lemma land_bit x k : 0 <= k -> Z.land x (2 ^ k) = 0 \/ Z.land x (2 ^ k) = 2 ^ k.
Proof.
  intros Hk. destruct (Z.testbit x k) eqn:E; [right|left]; apply Z.bits_inj'; intros n Hn; rewrite Z.land_spec.
  - rewrite Z.pow2_bits_eqb by done. destruct (Z.eqb_spec k n) as [->|]; [by rewrite E|apply andb_false_r].
  - rewrite Z.pow2_bits_eqb, Z.bits_0 by done. destruct (Z.eqb_spec k n) as [->|]; [by rewrite E|apply andb_false_r].
Qed.

Lemma land_in_u w a b : 0 <= a -> in_u w b -> in_u w (Z.land a b).
Proof.
  intros Ha [Hb Hb']. assert (0 <= Z.land a b) by (apply Z.land_nonneg; lia). split; [done|].
  assert (Z.land a b <= b); [|lia]. rewrite Z.land_comm. 
  replace b with (Z.land b a + Z.ldiff b a) at 2.
  - assert (0 <= Z.ldiff b a) by (apply Z.ldiff_nonneg; lia). lia.
  - rewrite Z.add_nocarry_lxor.
    + apply Z.bits_inj'. intros n Hn. rewrite Z.lxor_spec, Z.land_spec, Z.ldiff_spec. by destruct (Z.testbit b n), (Z.testbit a n).
    + apply Z.bits_inj'. intros n Hn. rewrite !Z.land_spec, Z.ldiff_spec, Z.bits_0. by destruct (Z.testbit b n), (Z.testbit a n).
Qed.

Lemma f32_to_f16_range f : in_u 16 (dist_f32_to_f16 f).
Proof.
  unfold dist_f32_to_f16. cbv zeta.
  assert (Hs : in_u 16 (Z.land (Z.shiftr f 16) 32768)).
  { change 32768 with (2 ^ 15). destruct (land_bit (Z.shiftr f 16) 15) as [->| ->]; by vm_compute. }
  repeat case_match; try (apply wrap_range; lia); try done; by apply lor_in_u.
Qed.

Lemma f16_to_f32_range h : 0 <= h -> in_u 32 (dist_f16_to_f32 h).
Proof.
  intros Hh. unfold dist_f16_to_f32. cbv zeta. pose proof (fun x => wrap_range 32 x ltac:(lia)) as Hw.
  repeat case_match; try (by apply Hw); repeat apply lor_in_u; try lia; try apply Hw. by vm_compute.
Qed.

(** A property of all bytes, computed. *)
Fixpoint all_bits (k : nat) (h : Z) (p : Z -> bool) : bool :=
  match k with
  | O => p h
  | S k' => all_bits k' (2 * h) p && all_bits k' (2 * h + 1) p
  end.

Lemma all_bits_spec k p : forall h, all_bits k h p = true -> forall x, h * 2 ^ Z.of_nat k <= x < (h + 1) * 2 ^ Z.of_nat k -> p x = true.
Proof.
  induction k as [|k IH]; intros h H x Hx; cbn [all_bits] in H.
  - change (2 ^ Z.of_nat 0) with 1 in Hx. by replace x with h by lia.
  - apply andb_true_iff in H as [H1 H2]. rewrite Nat2Z.inj_succ, Z.pow_succ_r in Hx by lia.
    destruct (Z.lt_ge_cases x ((2 * h + 1) * 2 ^ Z.of_nat k)); [apply (IH _ H1)|apply (IH _ H2)]; lia.
Qed.

Lemma all_bytes p : all_bits 8 0 p = true -> forall b, byte_ok b -> p b = true.
Proof. intros H b Hb. apply (all_bits_spec 8 p 0 H). unfold byte_ok in Hb. change (2 ^ Z.of_nat 8) with 256. lia. Qed.

Lemma f8_to_f32_range h : byte_ok h -> in_u 32 (dist_f8_e4m3_to_f32 h).
Proof.
  intros Hh. pose proof (all_bytes (fun h => in_u_b 32 (dist_f8_e4m3_to_f32 h)) ltac:(vm_compute; reflexivity) h Hh) as H.
  unfold in_u_b in H. unfold in_u. bool_lia.
Qed.

(** Every code the packing can produce comes back from its own value. *)
Lemma f8_code_back h : byte_ok h -> Z.land h 120 <> 120 -> dist_f32_to_f8_e4m3 (dist_f8_e4m3_to_f32 h) = h.
Proof.
  intros Hh Hn.
  pose proof (all_bytes (fun h => (Z.land h 120 =? 120) || (dist_f32_to_f8_e4m3 (dist_f8_e4m3_to_f32 h) =? h)) ltac:(vm_compute; reflexivity) h Hh) as H.
  cbn beta in H. apply orb_true_iff in H as [H|H]; apply Z.eqb_eq in H; congruence.
Qed.

Lemma lor_byte_ok a b : byte_ok a -> byte_ok b -> byte_ok (Z.lor a b).
Proof. intros Ha Hb. by apply (lor_in_u 8). Qed.

Lemma f8_subnormal_ok sign a : byte_ok sign -> byte_ok (f8_subnormal sign a).
Proof.
  intros Hs. unfold f8_subnormal. destruct (Z.leb_spec (f_floor (f_add (f_mul a (f_lit 512 0)) (f_lit 1 (-1)))) 0); [done|].
  apply lor_byte_ok; [done|]. destruct (Z.ltb_spec 7 (f_floor (f_add (f_mul a (f_lit 512 0)) (f_lit 1 (-1))))); unfold byte_ok; lia.
Qed.

Lemma f32_to_f8_range f : byte_ok (dist_f32_to_f8_e4m3 f).
Proof.
  unfold dist_f32_to_f8_e4m3. cbv zeta.
  assert (Hs : byte_ok (if Z.testbit f 31 then 128 else 0)) by (unfold byte_ok; destruct (Z.testbit f 31); lia).
  assert (H119 : byte_ok (Z.lor (if Z.testbit f 31 then 128 else 0) 119)) by (apply lor_byte_ok; [done|unfold byte_ok; lia]).
  pose proof (fun a => f8_subnormal_ok _ a Hs) as Hsub.
  repeat case_match; try done; try apply Hsub; apply u8_range.
Qed.

(** ** Memory *)

Lemma bytes_floats_app fs p : Forall (in_u 32) fs -> bytes_floats (floats_bytes fs ++ p) = fs ++ bytes_floats p.
Proof.
  induction 1 as [|f fs Hf _ IH]; [done|]. cbn [floats_bytes flat_map app]. unfold floats_bytes in IH. 
  cbn [ds4_kvstore_le_put32 app]. cbn [bytes_floats]. rewrite IH. f_equal.
  pose proof (le_get_put32 f [] Hf) as H. cbn [ds4_kvstore_le_put32 app] in H. exact H.
Qed.

Lemma bytes_floats_back fs : Forall (in_u 32) fs -> bytes_floats (floats_bytes fs) = fs.
Proof. intros H. rewrite <- (app_nil_r (floats_bytes fs)), bytes_floats_app by done. cbn [bytes_floats]. apply app_nil_r. Qed.

Lemma zlen_floats fs : zlen (floats_bytes fs) = zlen fs * 4.
Proof. unfold floats_bytes. induction fs as [|f fs IH]; [done|]. cbn [flat_map]. rewrite zlen_app, IH, zlen_put32, zlen_cons. lia. Qed.

(** ** Packing *)

Definition quant (bits v : Z) : Z :=
  let bits := dist_activation_bits_or_default bits in
  if bits =? 32 then v
  else if bits =? 16 then dist_f16_to_f32 (dist_f32_to_f16 v)
  else dist_f8_e4m3_to_f32 (dist_f32_to_f8_e4m3 v).

Definition packed (bits : Z) (fs : list Z) : bytes :=
  let bits := dist_activation_bits_or_default bits in
  if bits =? 32 then floats_bytes fs else flat_map (pack_value bits) fs.

Lemma valid_cases bits : dist_activation_bits_valid bits = true ->
  dist_activation_bits_or_default bits = 32 \/ dist_activation_bits_or_default bits = 16 \/ dist_activation_bits_or_default bits = 8.
Proof. unfold dist_activation_bits_valid. intros [[H|H]%orb_true_iff|H]%orb_true_iff; bool_lia. Qed.

Lemma valid_default bits : dist_activation_bits_valid (dist_activation_bits_or_default bits) = dist_activation_bits_valid bits.
Proof. unfold dist_activation_bits_valid, dist_activation_bits_or_default. by destruct (bits =? 0) eqn:E; cbn; rewrite ?E. Qed.

Lemma default_idem bits : dist_activation_bits_or_default (dist_activation_bits_or_default bits) = dist_activation_bits_or_default bits.
Proof. unfold dist_activation_bits_or_default. by destruct (bits =? 0) eqn:E; cbn; rewrite ?E. Qed.

Lemma quant_range bits v : in_u 32 v -> in_u 32 (quant bits v).
Proof.
  intros Hv. unfold quant. cbv zeta. repeat case_match; [done| |].
  - apply f16_to_f32_range, f32_to_f16_range.
  - apply f8_to_f32_range, f32_to_f8_range.
Qed.

Lemma quant_all_range bits fs : Forall (in_u 32) fs -> Forall (in_u 32) (map (quant bits) fs).
Proof. induction 1 as [|v fs Hv _ IH]; cbn [map]; constructor; [by apply quant_range|done]. Qed.

(** At full width nothing changes. *)
Lemma quant_32 fs : map (quant 32) fs = fs.
Proof. induction fs as [|f fs IH]; [done|]. cbn [map]. by rewrite IH. Qed.

(** Bytes per value. *)
Definition float_width (bits : Z) : Z := dist_activation_bits_or_default bits / 8.

Lemma float_width_pos bits : dist_activation_bits_valid bits = true -> 1 <= float_width bits <= 4.
Proof. intros H. unfold float_width. destruct (valid_cases bits H) as [->|[->| ->]]; split; vm_compute; discriminate. Qed.

Lemma zlen_packed bits fs : dist_activation_bits_valid bits = true -> zlen (packed bits fs) = zlen fs * float_width bits.
Proof.
  intros H. unfold packed, float_width. destruct (valid_cases bits H) as [E|[E|E]]; rewrite E; cbn [Z.eqb Pos.eqb].
  - apply zlen_floats.
  - induction fs as [|f fs IH]; [done|]. cbn [flat_map]. rewrite zlen_app, IH, zlen_cons. change (zlen (pack_value 16 f)) with 2. change (16 / 8) with 2. lia.
  - induction fs as [|f fs IH]; [done|]. cbn [flat_map]. rewrite zlen_app, IH, zlen_cons. change (zlen (pack_value 8 f)) with 1. change (8 / 8) with 1. lia.
Qed.

Lemma wire_bytes_valid bits values : dist_activation_bits_valid bits = true -> 0 <= values -> values * 4 <= UINT32_MAX ->
  dist_activation_wire_bytes bits values = Some (values * float_width bits).
Proof.
  intros H Hv Hm. unfold dist_activation_wire_bytes, float_width. rewrite valid_default, H. cbn [negb orb].
  pose proof (float_width_pos bits H) as Hb. unfold float_width in Hb. unfold UINT32_MAX in *.
  assert (E : (dist_activation_bits_or_default bits mod 8 =? 0) = true) by (destruct (valid_cases bits H) as [->|[->| ->]]; done).
  rewrite E. cbn [negb]. unfold u64. rewrite wrap_small by (unfold in_u; nia). by rewrite (proj2 (Z.ltb_ge _ _)) by nia.
Qed.

Lemma wire_bytes_f32 bits values : dist_activation_bits_valid bits = true -> 0 <= values -> values * 4 <= UINT32_MAX ->
  dist_activation_wire_bytes_from_f32_bytes bits (values * 4) = Some (values * float_width bits).
Proof.
  intros H Hv Hm. unfold dist_activation_wire_bytes_from_f32_bytes. rewrite Z.mod_mul, Z.div_mul by lia. by apply wire_bytes_valid.
Qed.

Lemma values_from_wire bits values : dist_activation_bits_valid bits = true ->
  dist_activation_values_from_wire_bytes bits (values * float_width bits) = Some values.
Proof.
  intros H. unfold dist_activation_values_from_wire_bytes. rewrite valid_default, H. pose proof (float_width_pos bits H) as Hb.
  fold (float_width bits). rewrite (proj2 (Z.eqb_neq (float_width bits) 0)) by lia. rewrite Z.mod_mul, Z.div_mul by lia.
  unfold float_width in *. destruct (valid_cases bits H) as [->|[->| ->]]; done.
Qed.

(** ** Writing to a connection that takes everything *)

Definition open_sink (b : bytes) : sink := mkSink b None.

Lemma write_open b buf : dist_write_full (open_sink b) buf = (true, open_sink (b ++ buf)).
Proof. done. Qed.

Lemma flat_map_split {A B} (f : A -> list B) n l : flat_map f l = flat_map f (take n l) ++ flat_map f (drop n l).
Proof. rewrite <- flat_map_app, take_drop. done. Qed.

Lemma pack_chunks_open fuel : forall src b cap bits, (length src <= fuel)%nat -> 0 < cap ->
  pack_chunks fuel (open_sink b) src cap bits = (true, open_sink (b ++ flat_map (pack_value bits) src)).
Proof.
  induction fuel as [|fuel IH]; intros src b cap bits Hf Hc; cbn [pack_chunks].
  { destruct src; [|cbn in Hf; lia]. cbn. by rewrite app_nil_r. }
  destruct (Z.leb_spec (zlen src) 0) as [H0|H0].
  { assert (src = []) as -> by (apply zlen_zero_nil; pose proof (zlen_nonneg src); lia). cbn. by rewrite app_nil_r. }
  set (n := Z.to_nat _). rewrite write_open. cbn [negb]. rewrite IH; [|rewrite length_drop|done].
  - rewrite <- app_assoc, <- flat_map_split. done.
  - assert (1 <= n)%nat; [|unfold zlen in H0; lia]. unfold n. destruct (Z.ltb_spec cap (zlen src)); lia.
Qed.

Lemma write_payload_open mem b fs bits :
  (forall n, mem n = true) -> dist_activation_bits_valid bits = true -> zlen fs * 4 <= UINT32_MAX ->
  dist_write_activation_payload mem (open_sink b) fs bits = (true, open_sink (b ++ packed bits fs)).
Proof.
  intros Hmem Hv Hm. unfold dist_write_activation_payload. rewrite valid_default, Hv. cbn [negb].
  pose proof (zlen_nonneg fs) as Hn. destruct (Z.eqb_spec (zlen fs) 0) as [E|E].
  { apply zlen_zero_nil in E as ->. unfold packed. destruct (_ =? 32); cbn; by rewrite app_nil_r. }
  unfold packed. destruct (valid_cases bits Hv) as [E'|[E'|E']]; rewrite E'; cbn [Z.eqb Pos.eqb].
  - rewrite wire_bytes_valid by done. unfold float_width. change (dist_activation_bits_or_default 32 / 8) with 4.
    rewrite write_open. rewrite take_ge; [done|]. pose proof (zlen_floats fs) as H. unfold zlen in *. lia.
  - rewrite Hmem. cbn [negb]. rewrite pack_chunks_open; [done|lia|]. destruct (_ <? _); lia.
  - rewrite Hmem. cbn [negb]. rewrite pack_chunks_open; [done|lia|]. destruct (_ <? _); lia.
Qed.

(** ** Reading it back *)

Lemma le16_value v : in_u 16 v -> u8 v + 256 * u8 (Z.shiftr v 8) = v.
Proof. intros Hv. unfold u8, wrap, in_u in *. rewrite Z.shiftr_div_pow2 by lia. change (2 ^ 8) with 256. zdiv_lia. Qed.

Lemma unpack16_packed fs : unpack16 (flat_map (pack_value 16) fs) = map (quant 16) fs.
Proof.
  induction fs as [|f fs IH]; [done|]. cbn [flat_map map]. unfold pack_value at 1. cbn [Z.eqb Pos.eqb le16 app unpack16].
  rewrite IH, le16_value by apply f32_to_f16_range. done.
Qed.

Lemma unpack8_packed fs : map dist_f8_e4m3_to_f32 (flat_map (pack_value 8) fs) = map (quant 8) fs.
Proof. induction fs as [|f fs IH]; [done|]. cbn [flat_map]. rewrite map_app, IH. done. Qed.

Lemma decode_packed mem fs bits :
  (forall n, mem n = true) -> dist_activation_bits_valid bits = true -> Forall (in_u 32) fs -> zlen fs * 4 <= UINT32_MAX ->
  dist_decode_activation_payload mem (packed bits fs) bits = SOk (map (quant bits) fs).
Proof.
  intros Hmem Hv Hf Hm. unfold dist_decode_activation_payload. rewrite valid_default, Hv. cbn [negb].
  rewrite zlen_packed by done. replace (float_width bits) with (float_width (dist_activation_bits_or_default bits))
    by (unfold float_width; by rewrite default_idem). rewrite values_from_wire by (by rewrite valid_default).
  pose proof (zlen_nonneg fs) as Hn. unfold u64. rewrite wrap_small by (unfold in_u, UINT32_MAX in *; lia).
  rewrite (proj2 (Z.ltb_ge _ _)) by done. rewrite Hmem, andb_false_r. unfold packed.
  destruct (valid_cases bits Hv) as [E|[E|E]]; rewrite E; cbn [Z.eqb Pos.eqb].
  - rewrite bytes_floats_back by done. f_equal. rewrite <- (quant_32 fs) at 1. apply map_ext. intros v. unfold quant. by rewrite E.
  - rewrite unpack16_packed. f_equal. apply map_ext. intros v. unfold quant. by rewrite E.
  - rewrite unpack8_packed. f_equal. apply map_ext. intros v. unfold quant. by rewrite E.
Qed.
