(* ===== verification/DistFrame.v ===== *)
(** * DistFrame: the frames of distributed work (ds4_distributed.c)

    The hash of a token prefix, the fixed records of work, results and telemetry in
    network byte order, and the two frames with everything behind their records. *)

From S2P Require Import Prelude Ctype KvHeader Dist DistActivation.

Definition DS4_DIST_MSG_RESULT : Z := 4.
Definition DS4_DIST_WORK_F_INPUT_HC : Z := 1.
Definition DS4_DIST_WORK_F_OUTPUT_LOGITS : Z := 2.
Definition DS4_DIST_WORK_F_RESET_SESSION : Z := 4.
Definition DS4_DIST_WORK_F_ACK_ONLY : Z := 8.
Definition DS4_DIST_WORK_F_VALID_MASK : Z :=
  Z.lor (Z.lor DS4_DIST_WORK_F_INPUT_HC DS4_DIST_WORK_F_OUTPUT_LOGITS)
    (Z.lor DS4_DIST_WORK_F_RESET_SESSION DS4_DIST_WORK_F_ACK_ONLY).
Definition DS4_DIST_RESULT_ACK : Z := 0.
Definition DS4_DIST_RESULT_HIDDEN_STATE : Z := 1.
Definition DS4_DIST_RESULT_LOGITS : Z := 2.

(** ** The hash of a prefix *)

Definition DS4_DIST_TOKEN_HASH_INIT : Z := 1469598103934665603.
Definition DS4_DIST_TOKEN_HASH_PRIME : Z := 1099511628211.

Definition dist_token_hash_update (h token : Z) : Z :=
  let t := u32 token in
  fold_left (fun h i => u64 (Z.lxor h (Z.land (Z.shiftr t (i * 8)) 255) * DS4_DIST_TOKEN_HASH_PRIME)) [0; 1; 2; 3] h.

Definition dist_token_hash_update_span (h : Z) (toks : list Z) : Z := fold_left dist_token_hash_update toks h.

Definition dist_token_hash_prefix (toks : list Z) : Z := dist_token_hash_update_span DS4_DIST_TOKEN_HASH_INIT toks.

Definition dist_u64_from_halves (hi lo : Z) : Z := Z.lor (Z.shiftl hi 32) lo.
Definition dist_u64_to_halves (v : Z) : Z * Z := (u32 (Z.shiftr v 32), u32 v).

(** ** Fixed records *)

Record ds4_dist_work_fixed := mkWork {
  wk_model_id : Z; wk_session_hi : Z; wk_session_lo : Z; wk_request_hi : Z; wk_request_lo : Z;
  wk_prefix_hash_hi : Z; wk_prefix_hash_lo : Z; wk_result_hash_hi : Z; wk_result_hash_lo : Z;
  wk_pos0 : Z; wk_n_tokens : Z; wk_layer_start : Z; wk_layer_end : Z; wk_flags : Z;
  wk_token_bytes : Z; wk_input_hc_bytes : Z; wk_input_hc_bits : Z;
  wk_route_count : Z; wk_route_index : Z; wk_route_bytes : Z
}.

Definition WORK_BYTES : Z := 80.

Definition work_fields (w : ds4_dist_work_fixed) : list Z :=
  [wk_model_id w; wk_session_hi w; wk_session_lo w; wk_request_hi w; wk_request_lo w;
   wk_prefix_hash_hi w; wk_prefix_hash_lo w; wk_result_hash_hi w; wk_result_hash_lo w;
   wk_pos0 w; wk_n_tokens w; wk_layer_start w; wk_layer_end w; wk_flags w;
   wk_token_bytes w; wk_input_hc_bytes w; wk_input_hc_bits w;
   wk_route_count w; wk_route_index w; wk_route_bytes w].

Definition dist_work_to_wire (w : ds4_dist_work_fixed) : bytes := fields_to_wire (work_fields w).
Definition dist_work_from_wire (p : bytes) : ds4_dist_work_fixed :=
  let f := field_at p in
  mkWork (f 0%nat) (f 1%nat) (f 2%nat) (f 3%nat) (f 4%nat) (f 5%nat) (f 6%nat) (f 7%nat) (f 8%nat) (f 9%nat)
    (f 10%nat) (f 11%nat) (f 12%nat) (f 13%nat) (f 14%nat) (f 15%nat) (f 16%nat) (f 17%nat) (f 18%nat) (f 19%nat).

Record ds4_dist_result_fixed := mkResult {
  rs_request_hi : Z; rs_request_lo : Z; rs_result_hash_hi : Z; rs_result_hash_lo : Z; rs_status : Z;
  rs_result_kind : Z; rs_telemetry_count : Z; rs_telemetry_bytes : Z; rs_payload_bytes : Z; rs_payload_bits : Z
}.

Definition RESULT_BYTES : Z := 40.

Definition result_fields (r : ds4_dist_result_fixed) : list Z :=
  [rs_request_hi r; rs_request_lo r; rs_result_hash_hi r; rs_result_hash_lo r; rs_status r;
   rs_result_kind r; rs_telemetry_count r; rs_telemetry_bytes r; rs_payload_bytes r; rs_payload_bits r].

Definition dist_result_to_wire (r : ds4_dist_result_fixed) : bytes := fields_to_wire (result_fields r).
Definition dist_result_from_wire (p : bytes) : ds4_dist_result_fixed :=
  let f := field_at p in
  mkResult (f 0%nat) (f 1%nat) (f 2%nat) (f 3%nat) (f 4%nat) (f 5%nat) (f 6%nat) (f 7%nat) (f 8%nat) (f 9%nat).

Record ds4_dist_telemetry_fixed := mkTelemetry {
  tl_layer_start : Z; tl_layer_end : Z; tl_route_index : Z; tl_pos0 : Z; tl_n_tokens : Z;
  tl_eval_usec : Z; tl_downstream_wait_usec : Z; tl_forward_send_usec : Z; tl_input_bytes : Z; tl_output_bytes : Z
}.

Definition TELEMETRY_BYTES : Z := 40.

Definition telemetry_fields (t : ds4_dist_telemetry_fixed) : list Z :=
  [tl_layer_start t; tl_layer_end t; tl_route_index t; tl_pos0 t; tl_n_tokens t;
   tl_eval_usec t; tl_downstream_wait_usec t; tl_forward_send_usec t; tl_input_bytes t; tl_output_bytes t].

Definition dist_telemetry_to_wire (t : ds4_dist_telemetry_fixed) : bytes := fields_to_wire (telemetry_fields t).
Definition dist_telemetry_from_wire (p : bytes) : ds4_dist_telemetry_fixed :=
  let f := field_at p in
  mkTelemetry (f 0%nat) (f 1%nat) (f 2%nat) (f 3%nat) (f 4%nat) (f 5%nat) (f 6%nat) (f 7%nat) (f 8%nat) (f 9%nat).

(** ** Sending *)

Section frames.
Variable mem : Z -> bool.

(** [input_hc] is [None] for a null pointer. *)
Definition dist_send_work_frame (sk : sink) (work : ds4_dist_work_fixed) (toks : list Z)
    (input_hc : option (list Z)) (route_blob : option bytes) : bool * sink :=
  if wk_n_tokens work =? 0 then (false, sk)
  else
    let token_bytes := wk_n_tokens work * 4 in
    if (UINT32_MAX <? token_bytes) || negb (wk_token_bytes work =? token_bytes) then (false, sk)
    else if negb (wk_input_hc_bytes work =? 0) && bool_decide (input_hc = None) then (false, sk)
    else if negb (wk_route_bytes work =? 0) && bool_decide (route_blob = None) then (false, sk)
    else
      match (if wk_input_hc_bytes work =? 0 then Some 0
             else dist_activation_values_from_wire_bytes (wk_input_hc_bits work) (wk_input_hc_bytes work)) with
      | None => (false, sk)
      | Some input_hc_values =>
          let frame_bytes := WORK_BYTES + wk_token_bytes work + wk_input_hc_bytes work + wk_route_bytes work in
          if UINT32_MAX <? frame_bytes then (false, sk)
          else
            send sk := dist_write_full sk (dist_write_frame_header DS4_DIST_MSG_WORK frame_bytes);
            send sk := dist_write_full sk (dist_work_to_wire work);
            send sk := dist_write_full sk (flat_map (fun t => wire32 (u32 t)) (take (Z.to_nat (wk_n_tokens work)) toks));
            send sk := (if wk_input_hc_bytes work =? 0 then (true, sk)
                        else dist_write_activation_payload mem sk
                               (take (Z.to_nat input_hc_values) (default [] input_hc)) (wk_input_hc_bits work));
            if wk_route_bytes work =? 0 then (true, sk)
            else dist_write_full sk (take (Z.to_nat (wk_route_bytes work)) (default [] route_blob))
      end.

(** The payload is [payload_bytes] of memory, [None] for a null pointer. *)
Definition dist_send_work_result (sk : sink) (request_id result_hash status result_kind payload_bits : Z)
    (telemetry : list ds4_dist_telemetry_fixed) (payload : option bytes) : bool * sink :=
  let payload_bytes := zlen (default [] payload) in
  match (if (status =? 0) && (result_kind =? DS4_DIST_RESULT_HIDDEN_STATE) then
           let bits := dist_activation_bits_or_default payload_bits in
           if negb (dist_activation_bits_valid bits) || negb (payload_bytes mod 4 =? 0) then None
           else wire_payload_bytes ← dist_activation_wire_bytes bits (payload_bytes / 4); Some (bits, wire_payload_bytes)
         else if (status =? 0) && (result_kind =? DS4_DIST_RESULT_LOGITS) then Some (32, payload_bytes)
         else Some (0, payload_bytes)) with
  | None => (false, sk)
  | Some (payload_bits, wire_payload_bytes) =>
      let telemetry_bytes := zlen telemetry * TELEMETRY_BYTES in
      if UINT32_MAX <? telemetry_bytes then (false, sk)
      else
        let frame_bytes := RESULT_BYTES + telemetry_bytes + wire_payload_bytes in
        if UINT32_MAX <? frame_bytes then (false, sk)
        else
          let (request_hi, request_lo) := dist_u64_to_halves request_id in
          let (hash_hi, hash_lo) := dist_u64_to_halves (if status =? 0 then result_hash else 0) in
          let r := mkResult request_hi request_lo hash_hi hash_lo status result_kind (zlen telemetry) telemetry_bytes
                     wire_payload_bytes payload_bits in
          send sk := dist_write_full sk (dist_write_frame_header DS4_DIST_MSG_RESULT frame_bytes);
          send sk := dist_write_full sk (dist_result_to_wire r);
          send sk := dist_write_full sk (flat_map dist_telemetry_to_wire telemetry);
          if (status =? 0) && (result_kind =? DS4_DIST_RESULT_HIDDEN_STATE) && negb (wire_payload_bytes =? 0) then
            dist_write_activation_payload mem sk (bytes_floats (default [] payload)) payload_bits
          else if negb (payload_bytes =? 0) then dist_write_full sk (default [] payload)
          else (true, sk)
  end.

Definition dist_send_work_error (sk : sink) (request_id : Z) (msg : bytes) : bool * sink :=
  dist_send_work_result sk request_id 0 1 0 0 [] (Some (cstr msg)).

(** ** Receiving a result *)

(** The three return values; the text of a transport error is a local message. *)
Inductive result_received :=
| RecvResult (kind result_hash : Z) (payload : bytes)
| RecvTransport
| RecvRemote (msg : bytes).

(** What [dist_discard_bytes] leaves. *)
Definition dist_discard_bytes (n : Z) (p : bytes) : bytes := drop (Z.to_nat n) p.

(** [errlen - 1] bytes of a worker's message fit. *)
Definition ERR_CAP : Z := 255.

Definition dist_recv_result_alloc (debug : bool) (request_id : Z) (p : bytes) : result_received * bytes :=
  match dist_read_frame_header p with
  | Closed => (RecvTransport, [])
  | Malformed => (RecvTransport, drop 12 p)
  | Received (type, bytes) p =>
      if negb (type =? DS4_DIST_MSG_RESULT) || (bytes <? RESULT_BYTES) then
        (RecvTransport, dist_discard_bytes bytes p)
      else
        match dist_read_full RESULT_BYTES p with
        | None => (RecvTransport, [])
        | Some (w, p) =>
            let result := dist_result_from_wire w in
            let got_request := dist_u64_from_halves (rs_request_hi result) (rs_request_lo result) in
            let got_hash := dist_u64_from_halves (rs_result_hash_hi result) (rs_result_hash_lo result) in
            let body_bytes := bytes - RESULT_BYTES in
            if negb (rs_telemetry_bytes result mod TELEMETRY_BYTES =? 0) ||
               negb (rs_telemetry_count result =? rs_telemetry_bytes result / TELEMETRY_BYTES) ||
               (body_bytes <? rs_telemetry_bytes result) ||
               negb (rs_payload_bytes result =? body_bytes - rs_telemetry_bytes result) then
              (RecvTransport, dist_discard_bytes body_bytes p)
            else if negb (got_request =? request_id) then (RecvTransport, dist_discard_bytes body_bytes p)
            else if negb (rs_telemetry_bytes result =? 0) && debug && negb (mem (rs_telemetry_bytes result)) then
              (RecvTransport, dist_discard_bytes (rs_telemetry_bytes result) p)
            else
              match dist_read_full (rs_telemetry_bytes result) p with
              | None => (RecvTransport, [])
              | Some (_, p) =>
                  if negb (rs_payload_bytes result =? 0) && negb (mem (rs_payload_bytes result)) then
                    (RecvTransport, dist_discard_bytes (rs_payload_bytes result) p)
                  else
                    match dist_read_full (rs_payload_bytes result) p with
                    | None => (RecvTransport, [])
                    | Some (buf, p) =>
                        if negb (rs_status result =? 0) then
                          (RecvRemote (if rs_payload_bytes result =? 0 then bs "distributed worker returned an error"
                                       else take (Z.to_nat ERR_CAP) buf), p)
                        else if (rs_result_kind result =? DS4_DIST_RESULT_HIDDEN_STATE) && negb (rs_payload_bytes result =? 0)
                        then
                          match dist_decode_activation_payload mem buf (rs_payload_bits result) with
                          | SErr _ => (RecvTransport, p)
                          | SOk decoded => (RecvResult (rs_result_kind result) got_hash (floats_bytes decoded), p)
                          end
                        else (RecvResult (rs_result_kind result) got_hash buf, p)
                    end
              end
        end
  end.
End frames.

(** * Frames of work and results, written and read back *)

(** ** Fixed records *)

Definition work_ok (w : ds4_dist_work_fixed) : Prop := Forall (in_u 32) (work_fields w).
Definition result_ok (r : ds4_dist_result_fixed) : Prop := Forall (in_u 32) (result_fields r).

Ltac wire_back H := unfold field_at in *; fold field_at in *; rewrite !field_at_fields by (done || (cbn; lia)).

Lemma work_wire_back w p : work_ok w -> dist_work_from_wire (dist_work_to_wire w ++ p) = w.
Proof. intros H. unfold dist_work_from_wire, dist_work_to_wire. rewrite !field_at_fields by (done || (cbn; lia)). by destruct w. Qed.

Lemma result_wire_back r p : result_ok r -> dist_result_from_wire (dist_result_to_wire r ++ p) = r.
Proof. intros H. unfold dist_result_from_wire, dist_result_to_wire. rewrite !field_at_fields by (done || (cbn; lia)). by destruct r. Qed.

Lemma zlen_work w : zlen (dist_work_to_wire w) = WORK_BYTES.
Proof. unfold dist_work_to_wire. by rewrite zlen_fields. Qed.

Lemma zlen_result r : zlen (dist_result_to_wire r) = RESULT_BYTES.
Proof. unfold dist_result_to_wire. by rewrite zlen_fields. Qed.

Lemma zlen_telemetry t : zlen (dist_telemetry_to_wire t) = TELEMETRY_BYTES.
Proof. unfold dist_telemetry_to_wire. by rewrite zlen_fields. Qed.

Lemma halves_range v : in_u 32 (dist_u64_to_halves v).1 /\ in_u 32 (dist_u64_to_halves v).2.
Proof. split; apply u32_range. Qed.

Lemma halves_back v : in_u 64 v -> dist_u64_from_halves (dist_u64_to_halves v).1 (dist_u64_to_halves v).2 = v.
Proof.
  intros Hv. unfold dist_u64_from_halves, dist_u64_to_halves. cbn [fst snd]. unfold u32, wrap, in_u in *.
  rewrite Z.shiftr_div_pow2, Z.shiftl_mul_pow2 by lia. rewrite (Z.mod_small (v / 2 ^ 32)) by zdiv_lia.
  rewrite lor_add by (try apply Z.mod_pos_bound; lia). zdiv_lia.
Qed.

Lemma zlen_header type n : zlen (dist_write_frame_header type n) = 12.
Proof. unfold dist_write_frame_header. by rewrite zlen_fields. Qed.

(** ** Work *)

Definition token_bytes (toks : list Z) : bytes := flat_map (fun t => wire32 (u32 t)) toks.

Lemma zlen_token_bytes toks : zlen (token_bytes toks) = zlen toks * 4.
Proof.
  unfold token_bytes. induction toks as [|t toks IH]; [done|]. cbn [flat_map]. rewrite zlen_app, IH, zlen_cons.
  unfold zlen at 1. rewrite wire32_length. lia.
Qed.

(** What is behind the record, and the whole frame. *)
Definition work_body (bits : Z) (toks hc : list Z) (route : bytes) : bytes := token_bytes toks ++ packed bits hc ++ route.
Definition work_frame (work : ds4_dist_work_fixed) (toks hc : list Z) (route : bytes) : bytes :=
  let payload := dist_work_to_wire work ++ work_body (wk_input_hc_bits work) toks hc route in
  dist_write_frame_header DS4_DIST_MSG_WORK (zlen payload) ++ payload.

(** A record that tells the truth about what is behind it. *)
Record work_sizes (work : ds4_dist_work_fixed) (toks hc : list Z) (route : bytes) : Prop := mkWorkSizes {
  wz_bits : dist_activation_bits_valid (wk_input_hc_bits work) = true;
  wz_n : wk_n_tokens work = zlen toks;
  wz_pos : toks <> [];
  wz_token : wk_token_bytes work = zlen toks * 4;
  wz_hc : wk_input_hc_bytes work = zlen hc * float_width (wk_input_hc_bits work);
  wz_route : wk_route_bytes work = zlen route;
  wz_fits : WORK_BYTES + zlen toks * 4 + zlen hc * 4 + zlen route <= UINT32_MAX
}.

Lemma zlen_work_body bits toks hc route : dist_activation_bits_valid bits = true ->
  zlen (work_body bits toks hc route) = zlen toks * 4 + zlen hc * float_width bits + zlen route.
Proof. intros H. unfold work_body. rewrite !zlen_app, zlen_token_bytes, zlen_packed by done. lia. Qed.

Lemma zlen_nonnil {A} (l : list A) : l <> [] -> 0 < zlen l.
Proof. destruct l; [done|]. intros _. rewrite zlen_cons. pose proof (zlen_nonneg l). lia. Qed.

(** One [send] after another to a connection that takes everything. *)
Ltac send_step := rewrite write_open; cbv beta iota; cbn [negb].

Lemma write_input_open mem b fs bits n :
  (forall n, mem n = true) -> dist_activation_bits_valid bits = true -> zlen fs * 4 <= UINT32_MAX ->
  n = zlen fs * float_width bits ->
  (if n =? 0 then (true, open_sink b) else dist_write_activation_payload mem (open_sink b) fs bits) = (true, open_sink (b ++ packed bits fs)).
Proof.
  intros Hmem Hb Hm ->. pose proof (float_width_pos _ Hb). destruct (Z.eqb_spec (zlen fs * float_width bits) 0) as [E|E].
  - assert (fs = []) as -> by (apply zlen_zero_nil; pose proof (zlen_nonneg fs); nia).
    unfold packed. destruct (_ =? 32); cbn; by rewrite app_nil_r.
  - by apply write_payload_open.
Qed.

Lemma take_zlen {A} (l : list A) : take (Z.to_nat (zlen l)) l = l.
Proof. apply take_ge. unfold zlen. lia. Qed.

Lemma send_work_open mem b work toks hc route :
  (forall n, mem n = true) -> work_sizes work toks hc route ->
  dist_send_work_frame mem (open_sink b) work toks (Some hc) (Some route) = (true, open_sink (b ++ work_frame work toks hc route)).
Proof.
  intros Hmem [Hb Hn Hp Ht Hh Hr Hfit]. unfold dist_send_work_frame. cbv zeta. pose proof (zlen_nonnil toks Hp) as Hz.
  pose proof (zlen_nonneg hc) as Hz2. pose proof (zlen_nonneg route) as Hz3. pose proof (float_width_pos _ Hb) as Hvb.
  change WORK_BYTES with 80 in *. unfold UINT32_MAX in *. rewrite Hn, Ht, Hr. rewrite (proj2 (Z.eqb_neq (zlen toks) 0)) by lia.
  rewrite (proj2 (Z.ltb_ge 4294967295 (zlen toks * 4))) by lia. rewrite Z.eqb_refl. cbn [negb orb].
  rewrite !(bool_decide_eq_false_2 (Some _ = None)) by done. rewrite !andb_false_r. cbv iota.
  set (payload := dist_work_to_wire work ++ work_body (wk_input_hc_bits work) toks hc route).
  assert (Hpl : 80 + zlen toks * 4 + wk_input_hc_bytes work + zlen route = zlen payload).
  { unfold payload. rewrite zlen_app, zlen_work, zlen_work_body, Hh by done. change WORK_BYTES with 80. lia. }
  assert (Hfit2 : zlen payload <= 4294967295) by (rewrite <- Hpl, Hh; nia).
  assert (Ev : (if wk_input_hc_bytes work =? 0 then Some 0
     else dist_activation_values_from_wire_bytes (wk_input_hc_bits work) (wk_input_hc_bytes work)) = Some (zlen hc)).
  { destruct (Z.eqb_spec (wk_input_hc_bytes work) 0) as [E|E]; [f_equal; nia|]. rewrite Hh. by apply values_from_wire. }
  rewrite Ev, Hpl. rewrite (proj2 (Z.ltb_ge _ _)) by done. do 2 send_step. rewrite take_zlen. fold (token_bytes toks). send_step.
  rewrite take_zlen. change (default [] (Some hc)) with hc; change (default [] (Some route)) with route. rewrite write_input_open by (done || unfold UINT32_MAX; lia). cbv beta iota. cbn [negb].
  rewrite take_zlen. unfold work_frame, work_body. fold (work_body (wk_input_hc_bits work) toks hc route). fold payload.
  destruct (Z.eqb_spec (zlen route) 0) as [E|E]; [apply zlen_zero_nil in E as E'|rewrite write_open]; do 2 f_equal.
  - unfold payload, work_body. rewrite E', !app_nil_r, <- !app_assoc. done.
  - unfold payload, work_body. rewrite <- !app_assoc. done.
Qed.

(** ** Results *)

(** The record of an answer (status 0) or an error (status 1) with [tb] bytes of telemetry and [wire] bytes of payload. *)
Definition answer_record (status request_id result_hash kind bits : Z) (tb wire : bytes) : ds4_dist_result_fixed :=
  mkResult (dist_u64_to_halves request_id).1 (dist_u64_to_halves request_id).2
    (dist_u64_to_halves result_hash).1 (dist_u64_to_halves result_hash).2 status kind
    (zlen tb / TELEMETRY_BYTES) (zlen tb) (zlen wire) bits.

Definition answer_frame (status request_id result_hash kind bits : Z) (tb wire : bytes) : bytes :=
  dist_write_frame_header DS4_DIST_MSG_RESULT (RESULT_BYTES + zlen tb + zlen wire) ++
  dist_result_to_wire (answer_record status request_id result_hash kind bits tb wire) ++ tb ++ wire.

(** Sizes an answer must have: telemetry of whole records, all of it countable. *)
Record answer_ok (kind bits : Z) (tb wire : bytes) : Prop := mkAnswerOk {
  an_kind : in_u 32 kind;
  an_bits : in_u 32 bits;
  an_telemetry : zlen tb mod TELEMETRY_BYTES = 0;
  an_fits : RESULT_BYTES + zlen tb + zlen wire <= UINT32_MAX
}.

Lemma answer_record_ok status request_id result_hash kind bits tb wire :
  in_u 32 status -> answer_ok kind bits tb wire -> result_ok (answer_record status request_id result_hash kind bits tb wire).
Proof.
  intros Hst [Hk Hb Ht Hf]. pose proof (halves_range request_id) as [? ?]. pose proof (halves_range result_hash) as [? ?].
  pose proof (zlen_nonneg tb). pose proof (zlen_nonneg wire). change RESULT_BYTES with 40 in *. change TELEMETRY_BYTES with 40 in *.
  unfold UINT32_MAX in *. unfold result_ok, result_fields, answer_record. cbn [rs_request_hi rs_request_lo rs_result_hash_hi rs_result_hash_lo
    rs_status rs_result_kind rs_telemetry_count rs_telemetry_bytes rs_payload_bytes rs_payload_bits].
  change TELEMETRY_BYTES with 40. repeat apply Forall_cons_2; try done; unfold in_u; zdiv_lia.
Qed.

(** The metadata checks pass. *)
Lemma answer_checks kind bits tb wire : answer_ok kind bits tb wire ->
  (zlen tb mod TELEMETRY_BYTES =? 0) = true /\ (RESULT_BYTES + zlen tb + zlen wire - RESULT_BYTES <? zlen tb) = false /\
  (zlen wire =? RESULT_BYTES + zlen tb + zlen wire - RESULT_BYTES - zlen tb) = true /\
  (RESULT_BYTES + zlen tb + zlen wire <? RESULT_BYTES) = false /\ in_u 32 (RESULT_BYTES + zlen tb + zlen wire).
Proof.
  intros [Hk Hb Ht Hf]. pose proof (zlen_nonneg tb). pose proof (zlen_nonneg wire). unfold UINT32_MAX, in_u in *.
  change RESULT_BYTES with 40 in *. rewrite Ht. split_and!; first [done | apply Z.ltb_ge; lia | apply Z.eqb_eq; lia | lia].
Qed.

(** What a worker answers when its slice is the last one: the logits, the packed
    hidden state, or a bare acknowledgement. *)
Definition answer_wire (kind bits : Z) (fs : list Z) : bytes :=
  if kind =? DS4_DIST_RESULT_HIDDEN_STATE then packed bits fs else floats_bytes fs.

Definition answer_bits (kind bits : Z) : Z :=
  if kind =? DS4_DIST_RESULT_HIDDEN_STATE then dist_activation_bits_or_default bits
  else if kind =? DS4_DIST_RESULT_LOGITS then 32 else 0.

Definition value_kind (kind : Z) : Prop :=
  kind = DS4_DIST_RESULT_HIDDEN_STATE \/ kind = DS4_DIST_RESULT_LOGITS \/ kind = DS4_DIST_RESULT_ACK.

Lemma packed_default bits fs : packed (dist_activation_bits_or_default bits) fs = packed bits fs.
Proof. unfold packed. by rewrite default_idem. Qed.

Lemma float_width_default bits : float_width (dist_activation_bits_or_default bits) = float_width bits.
Proof. unfold float_width. by rewrite default_idem. Qed.

Lemma default_range bits : dist_activation_bits_valid bits = true -> in_u 32 (dist_activation_bits_or_default bits).
Proof. intros H. destruct (valid_cases bits H) as [->|[->| ->]]; done. Qed.

Lemma zlen_answer_wire kind bits fs : dist_activation_bits_valid bits = true -> zlen (answer_wire kind bits fs) <= zlen fs * 4.
Proof.
  intros Hb. unfold answer_wire. pose proof (float_width_pos _ Hb). pose proof (zlen_nonneg fs).
  destruct (_ =? _); [rewrite zlen_packed by done; nia|rewrite zlen_floats; lia].
Qed.

Lemma answer_bits_range kind bits : dist_activation_bits_valid bits = true -> in_u 32 (answer_bits kind bits).
Proof. intros Hb. unfold answer_bits. destruct (kind =? _); [by apply default_range|by destruct (kind =? _)]. Qed.

Lemma send_result_open mem b request_id result_hash kind pbits bits t fs payload :
  default [] payload = floats_bytes fs -> (kind = DS4_DIST_RESULT_HIDDEN_STATE -> pbits = dist_activation_bits_or_default bits) ->
  (forall n, mem n = true) -> value_kind kind -> dist_activation_bits_valid bits = true -> Forall (in_u 32) fs ->
  RESULT_BYTES + TELEMETRY_BYTES + zlen fs * 4 <= UINT32_MAX ->
  dist_send_work_result mem (open_sink b) request_id result_hash 0 kind pbits [t] payload =
  (true, open_sink (b ++ answer_frame 0 request_id result_hash kind (answer_bits kind bits) (dist_telemetry_to_wire t) (answer_wire kind bits fs))).
Proof.
  intros Epl Hpb Hmem Hk Hb Hfs Hfit. unfold dist_send_work_result, answer_frame, answer_record. cbv zeta.
  rewrite Epl, zlen_floats, zlen_telemetry.
  pose proof (zlen_nonneg fs) as Hn. pose proof (float_width_pos _ Hb) as Hvb. change TELEMETRY_BYTES with 40 in *. change RESULT_BYTES with 40 in *.
  unfold UINT32_MAX in *. change (zlen [t] * 40) with 40. change (4294967295 <? 40) with false. change (40 / 40) with 1. change (zlen [t]) with 1.
  change (0 =? 0) with true. cbn [andb]. change (flat_map dist_telemetry_to_wire [t]) with (dist_telemetry_to_wire t ++ []). rewrite app_nil_r.
  unfold answer_wire, answer_bits. destruct Hk as [-> | [-> | ->]].
  - rewrite (Hpb eq_refl). change (DS4_DIST_RESULT_HIDDEN_STATE =? DS4_DIST_RESULT_HIDDEN_STATE) with true. cbv iota.
    rewrite !valid_default, Hb, Z.mod_mul, Z.div_mul, default_idem by lia.
    change (negb true || negb (0 =? 0)) with false. cbv iota. rewrite wire_bytes_valid by (rewrite ?valid_default; (done || unfold UINT32_MAX; lia)).
    rewrite float_width_default. cbn [mbind option_bind]. rewrite zlen_packed by done.
    rewrite (proj2 (Z.ltb_ge _ _)) by nia. destruct (dist_u64_to_halves request_id) as [rh rl], (dist_u64_to_halves result_hash) as [hh hl].
    cbn [fst snd]. do 3 send_step. rewrite bytes_floats_back by done.
    assert (Hw : forall b, (if zlen fs * float_width bits =? 0 then (true, open_sink b) else
        dist_write_activation_payload mem (open_sink b) fs (dist_activation_bits_or_default bits)) = (true, open_sink (b ++ packed bits fs))).
    { intros b0. rewrite <- packed_default, <- float_width_default. apply write_input_open; try done; [by rewrite valid_default|unfold UINT32_MAX; lia]. }
    destruct (Z.eqb_spec (zlen fs * float_width bits) 0) as [E|E]; cbn [negb].
    + assert (fs = []) as -> by (apply zlen_zero_nil; nia). change (negb (zlen (@nil Z) * 4 =? 0)) with false. cbv iota.
      assert (packed bits [] = []) as -> by (unfold packed; by destruct (_ =? 32)). by rewrite app_nil_r, <- !app_assoc.
    + rewrite Hw. by rewrite <- !app_assoc.
  - change (DS4_DIST_RESULT_LOGITS =? DS4_DIST_RESULT_HIDDEN_STATE) with false. change (DS4_DIST_RESULT_LOGITS =? DS4_DIST_RESULT_LOGITS) with true.
    cbv iota. rewrite zlen_floats. rewrite (proj2 (Z.ltb_ge _ _)) by lia.
    destruct (dist_u64_to_halves request_id) as [rh rl], (dist_u64_to_halves result_hash) as [hh hl].
    cbn [fst snd]. do 3 send_step. cbn [andb].
    destruct (Z.eqb_spec (zlen fs * 4) 0) as [E|E]; cbn [negb].
    + assert (fs = []) as -> by (apply zlen_zero_nil; lia). rewrite <- !app_assoc, app_nil_r. done.
    + rewrite write_open. by rewrite <- !app_assoc.
  - change (DS4_DIST_RESULT_ACK =? DS4_DIST_RESULT_HIDDEN_STATE) with false. change (DS4_DIST_RESULT_ACK =? DS4_DIST_RESULT_LOGITS) with false.
    cbv iota. rewrite zlen_floats. rewrite (proj2 (Z.ltb_ge _ _)) by lia.
    destruct (dist_u64_to_halves request_id) as [rh rl], (dist_u64_to_halves result_hash) as [hh hl].
    cbn [fst snd]. do 3 send_step. cbn [andb].
    destruct (Z.eqb_spec (zlen fs * 4) 0) as [E|E]; cbn [negb].
    + assert (fs = []) as -> by (apply zlen_zero_nil; lia). rewrite <- !app_assoc, app_nil_r. done.
    + rewrite write_open. by rewrite <- !app_assoc.
Qed.

(** ** The answer read back *)

Definition received_values (kind bits : Z) (fs : list Z) : list Z :=
  if kind =? DS4_DIST_RESULT_HIDDEN_STATE then map (quant bits) fs else fs.

Lemma quant_default bits v : quant (dist_activation_bits_or_default bits) v = quant bits v.
Proof. unfold quant. by rewrite default_idem. Qed.

Lemma decode_answer mem bits fs :
  (forall n, mem n = true) -> dist_activation_bits_valid bits = true -> Forall (in_u 32) fs -> zlen fs * 4 <= UINT32_MAX ->
  dist_decode_activation_payload mem (packed bits fs) (dist_activation_bits_or_default bits) = SOk (map (quant bits) fs).
Proof.
  intros Hmem Hb Hf Hm. rewrite <- packed_default, decode_packed by (rewrite ?valid_default; done).
  f_equal. apply map_ext. intros v. apply quant_default.
Qed.

Lemma value_kind_range kind : value_kind kind -> in_u 32 kind.
Proof. by intros [-> | [-> | ->]]. Qed.

Lemma answer_value_ok kind bits tb fs :
  value_kind kind -> dist_activation_bits_valid bits = true -> zlen tb mod TELEMETRY_BYTES = 0 ->
  RESULT_BYTES + zlen tb + zlen fs * 4 <= UINT32_MAX -> answer_ok kind (answer_bits kind bits) tb (answer_wire kind bits fs).
Proof.
  intros Hk Hb Ht Hf. constructor; [by apply value_kind_range| |done|].
  - by apply answer_bits_range.
  - pose proof (zlen_answer_wire kind bits fs Hb). lia.
Qed.

Lemma answer_header status request_id result_hash kind bits tb wire p : answer_ok kind bits tb wire ->
  dist_read_frame_header (answer_frame status request_id result_hash kind bits tb wire ++ p) =
  Received (DS4_DIST_MSG_RESULT, RESULT_BYTES + zlen tb + zlen wire)
    (dist_result_to_wire (answer_record status request_id result_hash kind bits tb wire) ++ tb ++ wire ++ p).
Proof.
  intros Ha. destruct (answer_checks _ _ _ _ Ha) as (_ & _ & _ & _ & Hr). unfold answer_frame.
  rewrite <- !app_assoc. by rewrite read_frame_header.
Qed.

Lemma read_record status request_id result_hash kind bits tb wire p : in_u 32 status -> answer_ok kind bits tb wire ->
  exists w, dist_read_full RESULT_BYTES (dist_result_to_wire (answer_record status request_id result_hash kind bits tb wire) ++ p) = Some (w, p) /\
    dist_result_from_wire w = answer_record status request_id result_hash kind bits tb wire.
Proof.
  intros Hst Ha. exists (dist_result_to_wire (answer_record status request_id result_hash kind bits tb wire)). split.
  - rewrite <- (zlen_result (answer_record status request_id result_hash kind bits tb wire)). apply read_full_app.
  - rewrite <- (app_nil_r (dist_result_to_wire _)). apply result_wire_back. by apply answer_record_ok.
Qed.

Lemma recv_answer mem debug request_id result_hash kind bits tb fs p :
  (forall n, mem n = true) -> value_kind kind -> dist_activation_bits_valid bits = true -> Forall (in_u 32) fs ->
  in_u 64 request_id -> in_u 64 result_hash -> zlen tb mod TELEMETRY_BYTES = 0 ->
  RESULT_BYTES + zlen tb + zlen fs * 4 <= UINT32_MAX ->
  dist_recv_result_alloc mem debug request_id
    (answer_frame 0 request_id result_hash kind (answer_bits kind bits) tb (answer_wire kind bits fs) ++ p) =
  (RecvResult kind result_hash (floats_bytes (received_values kind bits fs)), p).
Proof.
  intros Hmem Hk Hb Hfs Hq Hh Ht Hfit. pose proof (answer_value_ok kind bits tb fs Hk Hb Ht Hfit) as Ha.
  unfold dist_recv_result_alloc. rewrite answer_header by done. cbv beta iota.
  destruct (answer_checks _ _ _ _ Ha) as (C1 & C2 & C3 & C4 & _).
  change (DS4_DIST_MSG_RESULT =? DS4_DIST_MSG_RESULT) with true. rewrite C4. cbn [negb orb].
  destruct (read_record 0 request_id result_hash kind (answer_bits kind bits) tb (answer_wire kind bits fs) (tb ++ answer_wire kind bits fs ++ p) ltac:(done) Ha)
    as (w & -> & Ew). cbv beta iota zeta. rewrite Ew. unfold answer_record. cbn [rs_request_hi rs_request_lo rs_result_hash_hi rs_result_hash_lo
    rs_status rs_result_kind rs_telemetry_count rs_telemetry_bytes rs_payload_bytes rs_payload_bits].
  rewrite !halves_back by done. rewrite C1, C2, C3, !Z.eqb_refl. cbn [negb orb]. rewrite !Hmem. cbn [negb]. rewrite !andb_false_r.
  rewrite !read_full_app. cbv beta iota. change (negb (0 =? 0)) with false. cbv iota.
  unfold answer_wire, answer_bits, received_values.
  destruct Hk as [-> | [-> | ->]].
  - change (DS4_DIST_RESULT_HIDDEN_STATE =? DS4_DIST_RESULT_HIDDEN_STATE) with true. cbn [andb].
    destruct (Z.eqb_spec (zlen (packed bits fs)) 0) as [E|E]; cbn [negb].
    + rewrite zlen_packed in E by done. pose proof (float_width_pos _ Hb). assert (fs = []) as -> by (apply zlen_zero_nil; pose proof (zlen_nonneg fs); nia).
      f_equal. f_equal. unfold packed. by destruct (_ =? 32).
    + rewrite decode_answer; [done|done|done|done|]. pose proof (zlen_nonneg tb). change RESULT_BYTES with 40 in Hfit. lia.
  - done.
  - done.
Qed.

(** ** Errors *)

Lemma halves_zero : dist_u64_to_halves 0 = (0, 0).
Proof. reflexivity. Qed.

Lemma send_error_open mem b request_id msg : no_nul msg -> msg <> [] -> RESULT_BYTES + zlen msg <= UINT32_MAX ->
  dist_send_work_error mem (open_sink b) request_id msg = (true, open_sink (b ++ answer_frame 1 request_id 0 0 0 [] msg)).
Proof.
  intros Hn Hne Hfit. unfold dist_send_work_error, dist_send_work_result. rewrite cstr_no_nul by done. cbv zeta.
  change (default [] (Some msg)) with msg. change (1 =? 0) with false. cbn [andb]. cbv iota beta.
  change (zlen [] * TELEMETRY_BYTES) with 0. change (zlen (@nil ds4_dist_telemetry_fixed)) with 0. change (UINT32_MAX <? 0) with false. cbv iota.
  rewrite (proj2 (Z.ltb_ge _ _)) by lia. unfold answer_frame, answer_record. rewrite halves_zero.
  destruct (dist_u64_to_halves request_id) as [rh rl]. cbn [fst snd flat_map]. do 3 send_step.
  pose proof (zlen_nonnil _ Hne). rewrite (proj2 (Z.eqb_neq (zlen msg) 0)) by lia. cbn [negb]. rewrite write_open.
  change (zlen []) with 0. change (0 / TELEMETRY_BYTES) with 0. by rewrite <- !app_assoc.
Qed.

Lemma error_ok tb msg : zlen tb mod TELEMETRY_BYTES = 0 -> RESULT_BYTES + zlen tb + zlen msg <= UINT32_MAX -> answer_ok 0 0 tb msg.
Proof. intros Ht Hf. by constructor. Qed.

Lemma recv_error mem debug request_id tb msg p :
  (forall n, mem n = true) -> in_u 64 request_id -> zlen tb mod TELEMETRY_BYTES = 0 -> RESULT_BYTES + zlen tb + zlen msg <= UINT32_MAX ->
  exists text, dist_recv_result_alloc mem debug request_id (answer_frame 1 request_id 0 0 0 tb msg ++ p) = (RecvRemote text, p).
Proof.
  intros Hmem Hq Ht Hfit. pose proof (error_ok tb msg Ht Hfit) as Ha.
  unfold dist_recv_result_alloc. rewrite answer_header by done. cbv beta iota.
  destruct (answer_checks _ _ _ _ Ha) as (C1 & C2 & C3 & C4 & _).
  change (DS4_DIST_MSG_RESULT =? DS4_DIST_MSG_RESULT) with true. rewrite C4. cbn [negb orb].
  destruct (read_record 1 request_id 0 0 0 tb msg (tb ++ msg ++ p) ltac:(done) Ha) as (w & -> & Ew). cbv beta iota zeta. rewrite Ew. unfold answer_record.
  cbn [rs_request_hi rs_request_lo rs_result_hash_hi rs_result_hash_lo
    rs_status rs_result_kind rs_telemetry_count rs_telemetry_bytes rs_payload_bytes rs_payload_bits].
  rewrite !halves_back by done. rewrite C1, C2, C3, !Z.eqb_refl. cbn [negb orb]. rewrite !Hmem. cbn [negb]. rewrite !andb_false_r.
  rewrite !read_full_app. cbv beta iota. change (negb (1 =? 0)) with true. cbv iota. by eexists.
Qed.
