(* ===== verification/DistWorker.v ===== *)
(** * DistWorker: a worker executes its slice of a request (ds4_distributed.c)

    The sessions of a worker, the checks of a work frame, the evaluation, and what
    leaves the worker: an error or a result upstream, or the frame for the next hop.
    Parameters: the allocator, the creation of a session, opening a connection with
    its relay thread, the wording of a rejected route, and what the clock measures. *)

From S2P Require Import Prelude Ctype KvHeader Dist Slice DistActivation DistFrame.

(** ** The connections of a worker *)

(** A forwarded request waits for its answer; its [downstream_t0] is a clock value. *)
Record ds4_dist_pending_request := mkPending { pr_request_id : Z; pr_telemetry : ds4_dist_telemetry_fixed }.

(** [fw_pending] is the list from [pending_head] to [pending_tail]. *)
Record ds4_dist_worker_forwarder := mkForwarder {
  fw_host : bytes; fw_port : Z; fw_fd : sink;
  fw_pending : list ds4_dist_pending_request; fw_pending_depth : Z; fw_closing : bool
}.

Record ds4_dist_worker_upstream := mkUpstream {
  up_fd : sink; up_forwarders : list ds4_dist_worker_forwarder
}.

Definition set_up_fd (sk : sink) (up : ds4_dist_worker_upstream) : ds4_dist_worker_upstream :=
  mkUpstream sk (up_forwarders up).

(** [shutdown(fd, SHUT_RDWR)]: nothing more can be sent. *)
Definition c_shutdown (sk : sink) : sink := mkSink (sk_sent sk) (Some 0).

Definition set_pending (q : list ds4_dist_pending_request) (fw : ds4_dist_worker_forwarder) : ds4_dist_worker_forwarder :=
  mkForwarder (fw_host fw) (fw_port fw) (fw_fd fw) q (fw_pending_depth fw) (fw_closing fw).
Definition set_fw_fd (sk : sink) (fw : ds4_dist_worker_forwarder) : ds4_dist_worker_forwarder :=
  mkForwarder (fw_host fw) (fw_port fw) sk (fw_pending fw) (fw_pending_depth fw) (fw_closing fw).

Inductive enqueued := Enqueued (fw : ds4_dist_worker_forwarder) | Refused | Waits.

(** [Waits]: the thread sleeps until the relay takes a request off the queue. *)
Definition dist_worker_forwarder_enqueue_request (mem : Z -> bool) (fw : ds4_dist_worker_forwarder) (request_id : Z)
    (telemetry : ds4_dist_telemetry_fixed) : enqueued :=
  if negb (fw_closing fw) && negb (fw_pending_depth fw =? 0) && (fw_pending_depth fw <=? zlen (fw_pending fw)) then Waits
  else if fw_closing fw then Refused
  else if negb (mem 64) then Refused
  else Enqueued (set_pending (fw_pending fw ++ [mkPending request_id telemetry]) fw).

Definition dist_worker_forwarder_pop_request (fw : ds4_dist_worker_forwarder)
  : option (ds4_dist_pending_request * ds4_dist_worker_forwarder) :=
  match fw_pending fw with
  | [] => None
  | node :: q => Some (node, set_pending q fw)
  end.

(** The first request with the id leaves the queue. *)
Fixpoint unlink_request (request_id : Z) (q : list ds4_dist_pending_request) : list ds4_dist_pending_request :=
  match q with
  | [] => []
  | node :: q' => if pr_request_id node =? request_id then q' else node :: unlink_request request_id q'
  end.

Definition dist_worker_forwarder_remove_request (fw : ds4_dist_worker_forwarder) (request_id : Z) : ds4_dist_worker_forwarder :=
  set_pending (unlink_request request_id (fw_pending fw)) fw.

Definition set_send_usec (usec : Z) (t : ds4_dist_telemetry_fixed) : ds4_dist_telemetry_fixed :=
  mkTelemetry (tl_layer_start t) (tl_layer_end t) (tl_route_index t) (tl_pos0 t) (tl_n_tokens t)
    (tl_eval_usec t) (tl_downstream_wait_usec t) usec (tl_input_bytes t) (tl_output_bytes t).

Fixpoint note_first (request_id usec : Z) (q : list ds4_dist_pending_request) : list ds4_dist_pending_request :=
  match q with
  | [] => []
  | node :: q' =>
      if pr_request_id node =? request_id then mkPending (pr_request_id node) (set_send_usec usec (pr_telemetry node)) :: q'
      else node :: note_first request_id usec q'
  end.

Definition dist_worker_forwarder_note_send_done (fw : ds4_dist_worker_forwarder) (request_id usec : Z) : ds4_dist_worker_forwarder :=
  set_pending (note_first request_id usec (fw_pending fw)) fw.

Definition dist_worker_forwarder_close_queue (fw : ds4_dist_worker_forwarder) : ds4_dist_worker_forwarder :=
  mkForwarder (fw_host fw) (fw_port fw) (fw_fd fw) (fw_pending fw) (fw_pending_depth fw) true.

(** One stage of the handler: go on, answer with an error, or drop the connection. *)
Inductive stage (A : Type) := Go (a : A) | Refuse (msg : bytes) | Drop.
Arguments Go {A}.
Arguments Refuse {A}.
Arguments Drop {A}.

Definition stage_bind {A B} (m : stage A) (k : A -> stage B) : stage B :=
  match m with Go a => k a | Refuse msg => Refuse msg | Drop => Drop end.

Notation "'let?' x := m 'in' k" := (stage_bind m (fun x => k)) (at level 10, x pattern, m at level 100, k at level 200).
Notation "'refuse' b 'with' m ';' k" := (if b then Refuse m else k) (at level 10, b at level 100, m at level 100, k at level 200).

(** What the process sees of the rest of the system. *)
Class WorkerEnv `{Graph} := {
  we_mem : Z -> bool;
  we_session_create : option slice_session;
  we_connect : bytes -> Z -> sresult sink;
  we_forward_window : Z;
  we_route_text : bytes -> Z -> bytes;
  we_eval_usec : Z;
  we_send_usec : Z
}.

Section worker.
Context `{WorkerEnv}.

(** ** Sessions *)

Record ds4_dist_worker_session := mkWorkerSession {
  wse_session_id : Z; wse_token_hash : Z; wse_token_hash_valid : bool; wse_session : slice_session
}.

Record ds4_dist_worker_state := mkWorkerState {
  wst_engine : ds4_engine; wst_model_id : Z; wst_layer_start : Z; wst_layer_end : Z; wst_has_output : bool;
  wst_ctx_size : Z; wst_sessions : list ds4_dist_worker_session
}.

Definition set_sessions (l : list ds4_dist_worker_session) (st : ds4_dist_worker_state) : ds4_dist_worker_state :=
  mkWorkerState (wst_engine st) (wst_model_id st) (wst_layer_start st) (wst_layer_end st) (wst_has_output st)
    (wst_ctx_size st) l.

Definition dist_worker_find_session_locked (st : ds4_dist_worker_state) (session_id : Z) : option ds4_dist_worker_session :=
  List.find (fun it => wse_session_id it =? session_id) (wst_sessions st).

Definition dist_worker_get_session_locked (st : ds4_dist_worker_state) (session_id : Z)
  : sresult ds4_dist_worker_session * ds4_dist_worker_state :=
  match dist_worker_find_session_locked st session_id with
  | Some it => (SOk it, st)
  | None =>
      if negb (we_mem 40) then (SErr (bs "out of memory creating distributed session"), st)
      else
        match we_session_create with
        | None => (SErr (bs "failed to create distributed worker session"), st)
        | Some s =>
            let entry := mkWorkerSession session_id 0 false s in
            (SOk entry, set_sessions (entry :: wst_sessions st) st)
        end
  end.

(** The session is changed in place: the entry with that id. *)
Fixpoint replace_session (it : ds4_dist_worker_session) (l : list ds4_dist_worker_session) : list ds4_dist_worker_session :=
  match l with
  | [] => []
  | x :: l' => if wse_session_id x =? wse_session_id it then it :: l' else x :: replace_session it l'
  end.

Definition put_session (it : ds4_dist_worker_session) (st : ds4_dist_worker_state) : ds4_dist_worker_state :=
  set_sessions (replace_session it (wst_sessions st)) st.

(** ** Forwarding *)

Definition same_endpoint (host : bytes) (port : Z) (fw : ds4_dist_worker_forwarder) : bool :=
  (fw_port fw =? port) && bytes_eqb (fw_host fw) host.

Fixpoint replace_forwarder (fw : ds4_dist_worker_forwarder) (l : list ds4_dist_worker_forwarder) : list ds4_dist_worker_forwarder :=
  match l with
  | [] => []
  | x :: l' => if same_endpoint (fw_host fw) (fw_port fw) x then fw :: l' else x :: replace_forwarder fw l'
  end.

Definition put_forwarder (fw : ds4_dist_worker_forwarder) (up : ds4_dist_worker_upstream) : ds4_dist_worker_upstream :=
  mkUpstream (up_fd up) (replace_forwarder fw (up_forwarders up)).

Definition dist_worker_get_forwarder (up : ds4_dist_worker_upstream) (host : bytes) (port : Z)
  : sresult ds4_dist_worker_forwarder * ds4_dist_worker_upstream :=
  match List.find (same_endpoint host port) (up_forwarders up) with
  | Some fw => (SOk fw, up)
  | None =>
      match we_connect host port with
      | SErr m => (SErr m, up)
      | SOk fd =>
          if negb (we_mem 1264) then (SErr (bs "out of memory creating worker-to-worker forwarder"), up)
          else
            let fw := mkForwarder host port fd [] we_forward_window false in
            (SOk fw, mkUpstream (up_fd up) (fw :: up_forwarders up))
      end
  end.

(** What a handler returns: 1 after an answer, -1 when the connection is lost. *)
Inductive worker_rc := Rc (rc : Z) | Waiting.

Definition rc_sent (ok : bool) : worker_rc := Rc (if ok then 1 else -1).

Definition dist_worker_upstream_send_work_error (up : ds4_dist_worker_upstream) (request_id : Z) (msg : bytes)
  : worker_rc * ds4_dist_worker_upstream :=
  let (ok, sk) := dist_send_work_error we_mem (up_fd up) request_id msg in (rc_sent ok, set_up_fd sk up).

Definition dist_worker_upstream_send_work_result (up : ds4_dist_worker_upstream)
    (request_id result_hash status result_kind payload_bits : Z) (telemetry : list ds4_dist_telemetry_fixed)
    (payload : option bytes) : worker_rc * ds4_dist_worker_upstream :=
  let (ok, sk) := dist_send_work_result we_mem (up_fd up) request_id result_hash status result_kind payload_bits telemetry payload in
  (rc_sent ok, set_up_fd sk up).

(** The record for the next hop. *)
Definition forwarded_work (work : ds4_dist_work_fixed) (next : ds4_dist_route_entry) (input_hc_bytes : Z) : ds4_dist_work_fixed :=
  let flags := Z.lor (wk_flags work) DS4_DIST_WORK_F_INPUT_HC in
  let flags := if negb (Z.land (re_flags next) DS4_DIST_ROUTE_F_OUTPUT_LOGITS =? 0)
               then Z.lor flags DS4_DIST_WORK_F_OUTPUT_LOGITS
               else Z.land flags (Z.lxor UINT32_MAX DS4_DIST_WORK_F_OUTPUT_LOGITS) in
  mkWork (wk_model_id work) (wk_session_hi work) (wk_session_lo work) (wk_request_hi work) (wk_request_lo work)
    (wk_prefix_hash_hi work) (wk_prefix_hash_lo work) (wk_result_hash_hi work) (wk_result_hash_lo work)
    (wk_pos0 work) (wk_n_tokens work) (re_layer_start next) (re_layer_end next) flags
    (wk_token_bytes work) input_hc_bytes (dist_activation_bits_or_default (wk_input_hc_bits work))
    (wk_route_count work) (u32 (wk_route_index work + 1)) (wk_route_bytes work).

Definition dist_forward_work_to_next (up : ds4_dist_worker_upstream) (next : ds4_dist_route_entry)
    (work : ds4_dist_work_fixed) (toks hidden_hc : list Z) (hidden_hc_bytes : Z)
    (telemetry : ds4_dist_telemetry_fixed) (route_blob : bytes) : worker_rc * ds4_dist_worker_upstream :=
  let request_id := dist_u64_from_halves (wk_request_hi work) (wk_request_lo work) in
  match dist_worker_get_forwarder up (re_host next) (re_port next) with
  | (SErr m, up) => dist_worker_upstream_send_work_error up request_id m
  | (SOk fw, up) =>
      match dist_activation_wire_bytes_from_f32_bytes (dist_activation_bits_or_default (wk_input_hc_bits work)) hidden_hc_bytes with
      | None => dist_worker_upstream_send_work_error up request_id (bs "invalid forwarded hidden-state size")
      | Some input_hc_bytes =>
          let forwarded := forwarded_work work next input_hc_bytes in
          match dist_worker_forwarder_enqueue_request we_mem fw request_id telemetry with
          | Waits => (Waiting, up)
          | Refused => dist_worker_upstream_send_work_error up request_id (bs "out of memory tracking forwarded request")
          | Enqueued fw =>
              let (ok, sk) := dist_send_work_frame we_mem (fw_fd fw) forwarded toks (Some hidden_hc) (Some route_blob) in
              let fw := dist_worker_forwarder_note_send_done (set_fw_fd sk fw) request_id we_send_usec in
              if negb ok then
                let fw := dist_worker_forwarder_remove_request fw request_id in
                let up := put_forwarder (set_fw_fd (c_shutdown (fw_fd fw)) fw) up in
                let (rc, up) := dist_worker_upstream_send_work_error up request_id (bs "failed to forward distributed work") in
                (rc, set_up_fd (c_shutdown (up_fd up)) up)
              else (Rc 1, put_forwarder fw up)
          end
      end
  end.

(** ** The checks of a frame *)

Definition flag (work : ds4_dist_work_fixed) (f : Z) : bool := negb (Z.land (wk_flags work) f =? 0).

Definition work_checks (st : ds4_dist_worker_state) (work : ds4_dist_work_fixed) (remaining : Z) : stage unit :=
  let output_logits := flag work DS4_DIST_WORK_F_OUTPUT_LOGITS in
  let input_hc_present := flag work DS4_DIST_WORK_F_INPUT_HC in
  refuse negb (wk_token_bytes work =? wk_n_tokens work * 4) ||
         negb (wk_token_bytes work + wk_input_hc_bytes work + wk_route_bytes work =? remaining)
    with bs "invalid distributed WORK payload sizes";
  refuse wk_route_count work =? 0 with bs "WORK frame is missing distributed route";
  refuse wk_route_count work <=? wk_route_index work with bs "invalid distributed WORK route metadata";
  refuse negb (wk_model_id work =? wst_model_id st)
    with bs "model id mismatch: work=" ++ dec (wk_model_id work) ++ bs " worker=" ++ dec (wst_model_id st);
  refuse negb (wk_layer_start work =? wst_layer_start st) || negb (wk_layer_end work =? wst_layer_end st)
    with bs "worker is assigned layers " ++ dec (wst_layer_start st) ++ bs ":" ++ dec (wst_layer_end st) ++
         bs " but request asked for " ++ dec (wk_layer_start work) ++ bs ":" ++ dec (wk_layer_end work);
  refuse flag work (Z.lxor UINT32_MAX DS4_DIST_WORK_F_VALID_MASK) with bs "invalid distributed WORK flags";
  refuse wk_n_tokens work =? 0 with bs "WORK frame has no tokens";
  refuse (u32 (wst_ctx_size st) <? wk_pos0 work) || (u32 (u32 (wst_ctx_size st) - wk_pos0 work) <? wk_n_tokens work)
    with bs "WORK token span exceeds worker context";
  refuse input_hc_present && (wk_layer_start work =? 0) with bs "layer 0 WORK must not provide input hidden-state";
  refuse negb input_hc_present && negb (wk_layer_start work =? 0) with bs "nonzero layer WORK requires input hidden-state";
  refuse output_logits && negb (wst_has_output st) with bs "worker was not assigned the output head";
  refuse output_logits && negb (u32 (wk_layer_end work + 1) =? DS4_N_LAYER) with bs "WORK logits require final transformer layer";
  Go ().

(** [dist_mem_read]: [len] bytes of what remains. *)
Definition dist_mem_read (p : bytes) (len : Z) : option (bytes * bytes) :=
  if zlen p <? len then None else Some (take (Z.to_nat len) p, drop (Z.to_nat len) p).

Fixpoint work_tokens (n : nat) (p : bytes) : stage (list Z * bytes) :=
  match n with
  | O => Go ([], p)
  | S n' =>
      match dist_mem_read p 4 with
      | None => Drop
      | Some (wire_token, p) =>
          let token := unwire32 wire_token in
          refuse (INT_MAX <? token) || (u32 DS4_N_VOCAB <=? token) with bs "WORK token id is outside the model vocabulary";
          let? (toks, p) := work_tokens n' p in Go (token :: toks, p)
      end
  end.

(** The bytes of the hidden state, still packed, when the frame has one. *)
Definition work_input (work : ds4_dist_work_fixed) (p : bytes) : stage (option bytes * bytes) :=
  let expected_hc_values := u64 (wk_n_tokens work * DS4_HC_DIM) in
  let input_hc_bits := dist_activation_bits_or_default (wk_input_hc_bits work) in
  refuse UINT32_MAX <? u64 (expected_hc_values * 4) with bs "distributed hidden-state payload is too large";
  if flag work DS4_DIST_WORK_F_INPUT_HC then
    match (if dist_activation_bits_valid input_hc_bits
           then dist_activation_wire_bytes input_hc_bits expected_hc_values else None) with
    | None => Refuse (bs "invalid distributed activation width")
    | Some expected_hc_wire_bytes =>
        refuse negb (wk_input_hc_bytes work =? expected_hc_wire_bytes)
          with bs "input hidden-state size does not match token span";
        match dist_mem_read p (wk_input_hc_bytes work) with
        | None => Drop
        | Some (wire, p) => Go (Some wire, p)
        end
    end
  else
    refuse negb (wk_input_hc_bytes work =? 0) with bs "WORK frame has hidden bytes without input flag";
    Go (None, p).

Definition has_next (work : ds4_dist_work_fixed) : bool := u32 (wk_route_index work + 1) <? wk_route_count work.

(** The route, and the next hop on it. *)
Definition work_route (work : ds4_dist_work_fixed) (p : bytes) : stage (bytes * option ds4_dist_route_entry) :=
  refuse negb (wk_route_bytes work =? 0) && negb (we_mem (wk_route_bytes work)) with bs "out of memory reading distributed route";
  match dist_mem_read p (wk_route_bytes work) with
  | None => Drop
  | Some (route_blob, _) =>
      let output_logits := flag work DS4_DIST_WORK_F_OUTPUT_LOGITS in
      let bad := we_route_text route_blob (wk_route_count work) in
      refuse negb (dist_route_validate_blob route_blob (wk_route_count work) DS4_N_LAYER) with bad;
      match dist_route_get_entry route_blob (wk_route_count work) (wk_route_index work) with
      | None => Refuse bad
      | Some current =>
          refuse negb (re_layer_start current =? wk_layer_start work) || negb (re_layer_end current =? wk_layer_end work)
            with bs "WORK layer range does not match route entry";
          refuse negb (Bool.eqb (negb (Z.land (re_flags current) DS4_DIST_ROUTE_F_OUTPUT_LOGITS =? 0)) output_logits)
            with bs "WORK logits flag does not match route entry";
          if has_next work then
            match dist_route_get_entry route_blob (wk_route_count work) (u32 (wk_route_index work + 1)) with
            | None => Refuse bad
            | Some next =>
                refuse output_logits with bs "non-final route entry requested logits";
                Go (route_blob, Some next)
            end
          else
            match dist_route_get_return_target route_blob (wk_route_count work) with
            | None => Refuse bad
            | Some ret =>
                refuse negb (rt_kind ret =? DS4_DIST_ROUTE_RETURN_UPSTREAM) with bs "unsupported final result destination";
                Go (route_blob, None)
            end
      end
  end.

(** ** The evaluation *)

(** The hash of what the session holds, computed when it is not known. *)
Definition session_hash (it : ds4_dist_worker_session) : ds4_dist_worker_session :=
  if wse_token_hash_valid it then it
  else mkWorkerSession (wse_session_id it) (dist_token_hash_prefix (ss_checkpoint (wse_session it))) true (wse_session it).

(** The part under the lock: the answer of the session, and the worker. *)
Definition work_eval (st : ds4_dist_worker_state) (work : ds4_dist_work_fixed) (toks : list Z) (input_hc : option (list Z))
    (produce_hidden local_output_logits : bool)
  : sresult (option (list Z) * option (list Z)) * ds4_dist_worker_state :=
  let session_id := dist_u64_from_halves (wk_session_hi work) (wk_session_lo work) in
  let prefix_hash := dist_u64_from_halves (wk_prefix_hash_hi work) (wk_prefix_hash_lo work) in
  let result_hash := dist_u64_from_halves (wk_result_hash_hi work) (wk_result_hash_lo work) in
  match dist_worker_get_session_locked st session_id with
  | (SErr m, st) => (SErr m, st)
  | (SOk it, st) =>
      let '(failed, it) :=
        if flag work DS4_DIST_WORK_F_RESET_SESSION then
          match ds4_session_layer_slice_reset (wst_engine st) (wse_session it) with
          | (Some m, s) => (Some m, mkWorkerSession (wse_session_id it) (wse_token_hash it) (wse_token_hash_valid it) s)
          | (None, s) => (None, mkWorkerSession (wse_session_id it) DS4_DIST_TOKEN_HASH_INIT true s)
          end
        else (None, session_hash it) in
      match failed with
      | Some m => (SErr m, put_session it st)
      | None =>
          if negb (wse_token_hash it =? prefix_hash) then (SErr (bs "worker KV prefix hash mismatch"), put_session it st)
          else
            let '(r, s) := ds4_session_eval_layer_slice (wst_engine st) (wse_session it) toks (wk_pos0 work)
                             (wk_layer_start work) (wk_layer_end work) input_hc produce_hidden local_output_logits in
            match r with
            | SErr m => (SErr m, put_session (mkWorkerSession (wse_session_id it) (wse_token_hash it) false s) st)
            | SOk out => (SOk out, put_session (mkWorkerSession (wse_session_id it) result_hash true s) st)
            end
      end
  end.

Definition work_telemetry (work : ds4_dist_work_fixed) (output_bytes : Z) : ds4_dist_telemetry_fixed :=
  mkTelemetry (wk_layer_start work) (wk_layer_end work) (wk_route_index work) (wk_pos0 work) (wk_n_tokens work)
    we_eval_usec 0 0 (u32 (wk_token_bytes work + wk_input_hc_bytes work)) output_bytes.

(** Everything that is read and checked before the session is looked at. *)
Definition work_parse (st : ds4_dist_worker_state) (work : ds4_dist_work_fixed) (p : bytes)
  : stage (list Z * option bytes * bytes * option ds4_dist_route_entry) :=
  let? _ := work_checks st work (zlen p) in
  refuse negb (we_mem (wk_n_tokens work * 4)) with bs "out of memory reading WORK tokens";
  let? (toks, p) := work_tokens (Z.to_nat (wk_n_tokens work)) p in
  refuse negb (dist_token_hash_update_span (dist_u64_from_halves (wk_prefix_hash_hi work) (wk_prefix_hash_lo work)) toks =?
               dist_u64_from_halves (wk_result_hash_hi work) (wk_result_hash_lo work))
    with bs "WORK token prefix hash metadata mismatch";
  let? (wire, p) := work_input work p in
  let? (route_blob, next) := work_route work p in
  Go (toks, wire, route_blob, next).

Definition work_decode (work : ds4_dist_work_fixed) (wire : option bytes) : stage (option (list Z)) :=
  match wire with
  | None => Go None
  | Some wire =>
      match dist_decode_activation_payload we_mem wire (dist_activation_bits_or_default (wk_input_hc_bits work)) with
      | SErr m => Refuse m
      | SOk hc =>
          refuse negb (zlen hc * 4 =? u32 (u64 (u64 (wk_n_tokens work * DS4_HC_DIM) * 4)))
            with bs "decoded input hidden-state size does not match token span";
          Go (Some hc)
      end
  end.

Definition dist_worker_process_work_payload (st : ds4_dist_worker_state) (up : ds4_dist_worker_upstream) (payload : bytes)
  : worker_rc * ds4_dist_worker_state * ds4_dist_worker_upstream :=
  let answer := fun (st : ds4_dist_worker_state) (r : worker_rc * ds4_dist_worker_upstream) => (r.1, st, r.2) in
  match dist_mem_read payload WORK_BYTES with
  | None => answer st (dist_worker_upstream_send_work_error up 0 (bs "truncated distributed WORK frame"))
  | Some (w, p) =>
      let work := dist_work_from_wire w in
      let request_id := dist_u64_from_halves (wk_request_hi work) (wk_request_lo work) in
      let fail := fun (st : ds4_dist_worker_state) (msg : bytes) =>
                    answer st (dist_worker_upstream_send_work_error up request_id msg) in
      match work_parse st work p with
      | Refuse msg => fail st msg
      | Drop => (Rc (-1), st, up)
      | Go (toks, wire, route_blob, next) =>
          let final_ack_only := flag work DS4_DIST_WORK_F_ACK_ONLY && negb (has_next work) in
          let local_output_logits := flag work DS4_DIST_WORK_F_OUTPUT_LOGITS && negb (has_next work) && negb final_ack_only in
          let produce_hidden := negb local_output_logits && negb final_ack_only in
          let result_kind := if final_ack_only then DS4_DIST_RESULT_ACK
                             else if local_output_logits then DS4_DIST_RESULT_LOGITS else DS4_DIST_RESULT_HIDDEN_STATE in
          let expected_hc_bytes := u32 (u64 (u64 (wk_n_tokens work * DS4_HC_DIM) * 4)) in
          let result_bytes := if final_ack_only then 0
                              else if local_output_logits then u32 (DS4_N_VOCAB * 4) else expected_hc_bytes in
          let input_hc_bits := dist_activation_bits_or_default (wk_input_hc_bits work) in
          if negb (result_bytes =? 0) && negb (we_mem result_bytes) then
            fail st (bs "out of memory allocating distributed result")
          else
            match work_decode work wire with
            | Drop => (Rc (-1), st, up)
            | Refuse msg => fail st msg
            | Go input_hc =>
                match work_eval st work toks input_hc produce_hidden local_output_logits with
                | (SErr m, st) => fail st m
                | (SOk (hidden, logits), st) =>
                    match (if result_kind =? DS4_DIST_RESULT_HIDDEN_STATE
                           then dist_activation_wire_bytes_from_f32_bytes input_hc_bits result_bytes else Some result_bytes) with
                    | None => fail st (bs "invalid output hidden-state size")
                    | Some result_wire_bytes =>
                        let telemetry := work_telemetry work result_wire_bytes in
                        match next with
                        | Some next =>
                            answer st (dist_forward_work_to_next up next work toks (default [] hidden) result_bytes telemetry route_blob)
                        | None =>
                            let result := if final_ack_only then None
                                          else Some (floats_bytes (default [] (if local_output_logits then logits else hidden))) in
                            answer st (dist_worker_upstream_send_work_result up request_id
                              (dist_u64_from_halves (wk_result_hash_hi work) (wk_result_hash_lo work)) 0 result_kind
                              (if result_kind =? DS4_DIST_RESULT_HIDDEN_STATE then input_hc_bits else 32) [telemetry] result)
                        end
                    end
                end
            end
      end
  end.

(** [p] is what still comes on the connection. *)
Definition dist_worker_handle_work (st : ds4_dist_worker_state) (up : ds4_dist_worker_upstream) (n_bytes : Z) (p : bytes)
  : worker_rc * ds4_dist_worker_state * ds4_dist_worker_upstream * bytes :=
  if negb (we_mem n_bytes) then
    let (rc, up) := dist_worker_upstream_send_work_error up 0 (bs "out of memory reading distributed WORK frame") in
    (rc, st, up, dist_discard_bytes n_bytes p)
  else
    match dist_read_full n_bytes p with
    | None => (Rc 0, st, up, [])
    | Some (payload, p) => (dist_worker_process_work_payload st up payload, p)
    end.
End worker.

(** * Answers travel back through the hops (ds4_distributed.c)

    The thread a worker starts for every next hop: it matches each result with the
    request at the head of the queue, adds its own telemetry, and passes it on. *)

Section relay.
Context `{WorkerEnv}.

Definition RELAY_CHUNK : Z := 1024 * 1024.

(** [remaining] bytes from downstream to upstream, a buffer at a time. *)
Fixpoint relay_copy (fuel : nat) (remaining : Z) (p : bytes) (sk : sink) : bool * bytes * sink :=
  match fuel with
  | O => (true, p, sk)
  | S fuel' =>
      if remaining <=? 0 then (true, p, sk)
      else
        let n := if remaining <? RELAY_CHUNK then remaining else RELAY_CHUNK in
        match dist_read_full n p with
        | None => (false, [], sk)
        | Some (buf, p) =>
            let (ok, sk) := dist_write_full sk buf in
            if negb ok then (false, p, sk) else relay_copy fuel' (remaining - n) p sk
        end
  end.

Definition set_wait_usec (usec : Z) (t : ds4_dist_telemetry_fixed) : ds4_dist_telemetry_fixed :=
  mkTelemetry (tl_layer_start t) (tl_layer_end t) (tl_route_index t) (tl_pos0 t) (tl_n_tokens t)
    (tl_eval_usec t) usec (tl_forward_send_usec t) (tl_input_bytes t) (tl_output_bytes t).

(** The request at the head, if any, is answered with an error. *)
Definition relay_fail (fw : ds4_dist_worker_forwarder) (up : ds4_dist_worker_upstream) (msg : bytes)
  : ds4_dist_worker_forwarder * ds4_dist_worker_upstream :=
  match dist_worker_forwarder_pop_request fw with
  | None => (fw, up)
  | Some (node, fw) => (fw, (dist_worker_upstream_send_work_error up (pr_request_id node) msg).2)
  end.

(** The frame for upstream: its header, the result with one telemetry more, the
    telemetry of the hops behind, this hop's, the payload. *)
Definition relay_result (up : ds4_dist_worker_upstream) (result : ds4_dist_result_fixed) (local : ds4_dist_telemetry_fixed)
    (p : bytes) : bool * bytes * ds4_dist_worker_upstream :=
  let out_telemetry_bytes := rs_telemetry_bytes result + TELEMETRY_BYTES in
  let out := mkResult (rs_request_hi result) (rs_request_lo result) (rs_result_hash_hi result) (rs_result_hash_lo result)
               (rs_status result) (rs_result_kind result) (u32 (rs_telemetry_count result + 1)) out_telemetry_bytes
               (rs_payload_bytes result) (rs_payload_bits result) in
  let frame_bytes := RESULT_BYTES + out_telemetry_bytes + rs_payload_bytes result in
  let (ok, sk) := dist_write_full (up_fd up) (dist_write_frame_header DS4_DIST_MSG_RESULT frame_bytes) in
  let (ok, sk) := if ok then dist_write_full sk (dist_result_to_wire out) else (false, sk) in
  let '(ok, p, sk) := if ok then relay_copy (length p) (rs_telemetry_bytes result) p sk else (false, p, sk) in
  let (ok, sk) := if ok then dist_write_full sk (dist_telemetry_to_wire local) else (false, sk) in
  let '(ok, p, sk) := if ok then relay_copy (length p) (rs_payload_bytes result) p sk else (false, p, sk) in
  (ok, p, set_up_fd sk up).

(** One round of the loop; [true]: go on.  [wait_usec] is what the clock measured. *)
Definition relay_step (wait_usec : Z) (fw : ds4_dist_worker_forwarder) (up : ds4_dist_worker_upstream) (p : bytes)
  : bool * ds4_dist_worker_forwarder * ds4_dist_worker_upstream * bytes :=
  let stop := fun (r : ds4_dist_worker_forwarder * ds4_dist_worker_upstream) (p : bytes) => (false, r.1, r.2, p) in
  match dist_read_frame_header p with
  | Closed => stop (relay_fail fw up (bs "next worker closed connection")) []
  | Malformed => stop (relay_fail fw up (bs "next worker closed connection")) (drop 12 p)
  | Received (type, bytes) p =>
      if negb (type =? DS4_DIST_MSG_RESULT) || (bytes <? RESULT_BYTES) then
        stop (relay_fail fw up (bs "next worker did not return valid RESULT")) (dist_discard_bytes bytes p)
      else
        match dist_read_full RESULT_BYTES p with
        | None => stop (relay_fail fw up (bs "next worker closed while returning RESULT")) []
        | Some (w, p) =>
            let result := dist_result_from_wire w in
            let got_request := dist_u64_from_halves (rs_request_hi result) (rs_request_lo result) in
            let body_bytes := bytes - RESULT_BYTES in
            if negb (rs_telemetry_bytes result mod TELEMETRY_BYTES =? 0) ||
               negb (rs_telemetry_count result =? rs_telemetry_bytes result / TELEMETRY_BYTES) ||
               (body_bytes <? rs_telemetry_bytes result) ||
               negb (rs_payload_bytes result =? body_bytes - rs_telemetry_bytes result) then
              stop (relay_fail fw up (bs "next worker RESULT metadata mismatch")) (dist_discard_bytes body_bytes p)
            else
              match dist_worker_forwarder_pop_request fw with
              | None => stop (fw, up) (dist_discard_bytes body_bytes p)
              | Some (node, fw) =>
                  let expected_request := pr_request_id node in
                  let fail := fun msg => stop (fw, (dist_worker_upstream_send_work_error up expected_request msg).2)
                                           (dist_discard_bytes body_bytes p) in
                  if negb (got_request =? expected_request) then fail (bs "next worker RESULT metadata mismatch")
                  else
                    let out_telemetry_bytes := rs_telemetry_bytes result + TELEMETRY_BYTES in
                    if (UINT32_MAX <? out_telemetry_bytes) || (u32 (rs_telemetry_count result + 1) =? 0) then
                      fail (bs "distributed telemetry chain is too large")
                    else if UINT32_MAX <? RESULT_BYTES + out_telemetry_bytes + rs_payload_bytes result then
                      fail (bs "distributed RESULT frame is too large")
                    else
                      let '(ok, p, up) := relay_result up result (set_wait_usec wait_usec (pr_telemetry node)) p in
                      (ok, fw, up, p)
              end
        end
  end.

(** The loop ends by itself when the next hop closes; every round reads a header.
    [wait_usec] is what the clock measured in each round. *)
Fixpoint relay_loop (fuel : nat) (wait_usec : nat -> Z) (fw : ds4_dist_worker_forwarder) (up : ds4_dist_worker_upstream) (p : bytes)
  : ds4_dist_worker_forwarder * ds4_dist_worker_upstream :=
  match fuel with
  | O => (fw, up)
  | S fuel' =>
      let '(go_on, fw, up, p) := relay_step (wait_usec fuel') fw up p in
      if go_on then relay_loop fuel' wait_usec fw up p
      else (dist_worker_forwarder_close_queue fw, set_up_fd (c_shutdown (up_fd up)) up)
  end.

Definition dist_worker_forwarder_relay_main (wait_usec : nat -> Z) (fw : ds4_dist_worker_forwarder) (up : ds4_dist_worker_upstream) (p : bytes)
  : ds4_dist_worker_forwarder * ds4_dist_worker_upstream :=
  if negb (we_mem RELAY_CHUNK) then (fw, set_up_fd (c_shutdown (up_fd up)) up)
  else relay_loop (S (length p)) wait_usec fw up p.
End relay.
