(* ===== verification/DistWorkerFacts.v ===== *)
(** * DistWorkerFacts: a worker that accepts its work

    On machines where nothing fails: the session of the request is found or made,
    evaluated and kept in step; the frame of a coordinator passes every check. *)

From S2P Require Import Prelude Ctype KvHeader Dist Slice DistActivation DistFrame DistWorker.

#[local] Set Default Proof Using "Type*".

(** Memory, devices, connections and new sessions as wished for. *)
Class Healthy `{WorkerEnv} (ctx cap : Z) : Prop := {
  he_mem n : we_mem n = true;
  he_device d : (gpu_commands d).1 = true;
  he_connect host port : we_connect host port = SOk (open_sink []);
  he_window : 0 <= we_forward_window;
  he_create : exists s, we_session_create = Some s /\ session_fits ctx cap s /\ ss_checkpoint s = []
}.

Section worker.
Context `{HG : Graph} `{HL : !GraphLaws} `{HE : !WorkerEnv}.
Variables ctx cap : Z.
Context `{HH : !Healthy ctx cap}.
Implicit Types (st : ds4_dist_worker_state) (R : Z -> layer_cache).

(** A worker that has the slice of hop [e] of model [m]. *)
Record worker_serves (m : Z) (e : ds4_dist_route_entry) (st : ds4_dist_worker_state) : Prop := mkServes {
  sv_model : wst_model_id st = m;
  sv_start : wst_layer_start st = re_layer_start e;
  sv_end : wst_layer_end st = re_layer_end e;
  sv_output : re_flags e = 1 -> wst_has_output st = true /\ en_output_head (wst_engine st) = true;
  sv_ctx : wst_ctx_size st = ctx;
  sv_engine : engine_has (wst_engine st) (re_layer_start e) (re_layer_end e);
  sv_sessions : Forall (fun it => session_fits ctx cap (wse_session it)) (wst_sessions st)
}.

(** Its session [sid] holds the tokens [T] and knows their hash. *)
Definition session_in_step (sid : Z) (e : ds4_dist_route_entry) (T : list Z) (R : Z -> layer_cache) (st : ds4_dist_worker_state) : Prop :=
  exists it, dist_worker_find_session_locked st sid = Some it /\
    (wse_token_hash_valid it = true -> wse_token_hash it = dist_token_hash_prefix T) /\
    in_step (wse_session it) (re_layer_start e) (re_layer_end e) T R.

(** ** Sessions *)

Lemma find_session_id st sid it : dist_worker_find_session_locked st sid = Some it -> wse_session_id it = sid.
Proof. intros H. apply find_some in H as [_ H]. by apply Z.eqb_eq. Qed.

Lemma find_replaced l it it0 :
  List.find (fun x => wse_session_id x =? wse_session_id it) l = Some it0 ->
  List.find (fun x => wse_session_id x =? wse_session_id it) (replace_session it l) = Some it.
Proof.
  induction l as [|x l IH]; cbn [List.find replace_session]; [done|]. destruct (wse_session_id x =? wse_session_id it) eqn:E; intros Hf; cbn [List.find].
  - by rewrite Z.eqb_refl.
  - rewrite E. by apply IH.
Qed.

Lemma replace_all (P : ds4_dist_worker_session -> Prop) it l : Forall P l -> P it -> Forall P (replace_session it l).
Proof. intros Hl Hi. induction Hl as [|x l Hx Hl IH]; cbn [replace_session]; [constructor|]. destruct (_ =? _); by constructor. Qed.

Lemma put_serves m e it st : worker_serves m e st -> session_fits ctx cap (wse_session it) -> worker_serves m e (put_session it st).
Proof. intros [] Hs. constructor; try done. cbn. by apply replace_all. Qed.

Lemma put_found it it0 st : dist_worker_find_session_locked st (wse_session_id it) = Some it0 ->
  dist_worker_find_session_locked (put_session it st) (wse_session_id it) = Some it.
Proof. apply find_replaced. Qed.

(** The session is there, or there is one now. *)
Lemma get_session_runs m e st sid : worker_serves m e st ->
  exists it st', dist_worker_get_session_locked st sid = (SOk it, st') /\ worker_serves m e st' /\
    dist_worker_find_session_locked st' sid = Some it /\ wse_session_id it = sid /\ session_fits ctx cap (wse_session it) /\
    (forall it0, dist_worker_find_session_locked st sid = Some it0 -> it0 = it).
Proof.
  intros Hs. unfold dist_worker_get_session_locked. destruct (dist_worker_find_session_locked st sid) as [it|] eqn:Ef.
  - exists it, st. split_and!; try done; [by eapply find_session_id| |by intros it0 [= ->]].
    apply find_some in Ef as [Hin _]. by apply (proj1 (List.Forall_forall _ _) (sv_sessions _ _ _ Hs)).
  - rewrite he_mem. cbn [negb]. destruct he_create as (s & -> & Hfit & _). eexists _, _. split; [done|]. split_and!; try done.
    + destruct Hs. constructor; try done. cbn. by constructor.
    + cbn. by rewrite Z.eqb_refl.
Qed.

(** ** Hashes *)

Lemma hash_prefix_app T toks : dist_token_hash_prefix (T ++ toks) = dist_token_hash_update_span (dist_token_hash_prefix T) toks.
Proof. unfold dist_token_hash_prefix, dist_token_hash_update_span. by rewrite fold_left_app. Qed.

Lemma hash_update_range h t : in_u 64 (dist_token_hash_update h t).
Proof. unfold dist_token_hash_update. cbn [fold_left]. apply u64_range. Qed.

Lemma hash_span_range toks : forall h, in_u 64 h -> in_u 64 (dist_token_hash_update_span h toks).
Proof. induction toks as [|t toks IH]; intros h Hh; [done|]. cbn. apply IH, hash_update_range. Qed.

Lemma hash_prefix_range T : in_u 64 (dist_token_hash_prefix T).
Proof. apply hash_span_range. done. Qed.

Lemma session_hash_known sid e T R it : 
  (wse_token_hash_valid it = true -> wse_token_hash it = dist_token_hash_prefix T) ->
  in_step (wse_session it) (re_layer_start e) (re_layer_end e) T R -> wse_session_id it = sid ->
  wse_token_hash (session_hash it) = dist_token_hash_prefix T /\ wse_session (session_hash it) = wse_session it /\ wse_session_id (session_hash it) = sid.
Proof.
  intros Hh [HT _ _] Hid. unfold session_hash. destruct (wse_token_hash_valid it); [split_and!; [by apply Hh|done|done]|]. cbn. by rewrite HT.
Qed.

(** ** The evaluation *)

(** The identity of a request, as its record says it. *)
Record work_names (work : ds4_dist_work_fixed) (sid : Z) (T toks : list Z) (e : ds4_dist_route_entry) : Prop := mkNames {
  wn_session : dist_u64_from_halves (wk_session_hi work) (wk_session_lo work) = sid;
  wn_prefix : dist_u64_from_halves (wk_prefix_hash_hi work) (wk_prefix_hash_lo work) = dist_token_hash_prefix T;
  wn_result : dist_u64_from_halves (wk_result_hash_hi work) (wk_result_hash_lo work) = dist_token_hash_prefix (T ++ toks);
  wn_pos : wk_pos0 work = zlen T;
  wn_start : wk_layer_start work = re_layer_start e;
  wn_end : wk_layer_end work = re_layer_end e
}.

(** Where the request starts from: an empty session, or one in step. *)
Definition starts_from (reset : bool) (sid : Z) (e : ds4_dist_route_entry) (T : list Z) (R : Z -> layer_cache) (st : ds4_dist_worker_state) : Prop :=
  if reset then T = [] /\ (forall il, re_layer_start e <= il <= re_layer_end e -> R il = gpu_clear il)
  else session_in_step sid e T R st.

Lemma work_eval_runs m e st work toks hc (ph lg : bool) sid T R :
  worker_serves m e st -> work_names work sid T toks e -> span_fits ctx cap (zlen T) toks -> re_layer_start e <> 0 ->
  starts_from (flag work DS4_DIST_WORK_F_RESET_SESSION) sid e T R st ->
  (lg = true -> re_layer_end e + 1 = DS4_N_LAYER /\ re_flags e = 1) ->
  let '(R', hc') := slice_layers (Z.to_nat (re_layer_end e - re_layer_start e + 1)) (re_layer_start e) (zlen T) toks hc R in
  exists st', work_eval st work toks (Some hc) ph lg =
      (SOk (if ph then Some hc' else None, if lg then Some (graph_output_head (last_hc (zlen toks) hc')) else None), st') /\
    worker_serves m e st' /\ session_in_step sid e (T ++ toks) R' st'.
Proof.
  intros Hs [Hsid Hpre Hres Hpos Hst Hen] Hspan Hnz Hstart Hlg. unfold work_eval. rewrite Hsid, Hpre, Hres, Hpos, Hst, Hen.
  destruct (get_session_runs m e st sid Hs) as (it & st1 & -> & Hs1 & Hf1 & Hid & Hfit & Hsame).
  set (prep := if flag work _ then _ else _).
  assert (Hprep : exists it1, prep = (None, it1) /\ wse_session_id it1 = sid /\ wse_token_hash it1 = dist_token_hash_prefix T /\
            session_fits ctx cap (wse_session it1) /\ in_step (wse_session it1) (re_layer_start e) (re_layer_end e) T R).
  { unfold prep. destruct (flag work _); cbn [starts_from] in Hstart.
    - destruct Hstart as [-> HR]. destruct (reset_runs ctx cap he_device (wst_engine st1) (wse_session it) _ _ (sv_engine _ _ _ Hs1) Hfit) as (s & -> & Hf & Hi).
      eexists. split_and!; [done|done|done|done|]. destruct Hi as [Ht Hv Hc]. constructor; [done|done|]. intros il Hil. by rewrite Hc, HR.
    - destruct Hstart as (it0 & Hf0 & Hh0 & Hi0). rewrite (Hsame it0 Hf0) in *.
      destruct (session_hash_known sid e T R it Hh0 Hi0 Hid) as (Ha & Hb & Hc). eexists. split; [done|]. rewrite Hb. by split_and!. }
  clearbody prep. destruct Hprep as (it1 & -> & Hid1 & Hh1 & Hfit1 & Hin1). rewrite (proj2 (Z.eqb_eq _ _) Hh1). cbn [negb].
  pose proof (eval_slice_runs ctx cap he_device (wst_engine st1) (wse_session it1) toks (zlen T) (re_layer_start e) (re_layer_end e) (Some hc) ph lg T R
    (sv_engine _ _ _ Hs1) Hfit1 Hspan Hin1 eq_refl) as Hev. change (default (graph_embed toks) (Some hc)) with hc in Hev. cbv zeta in Hev.
  destruct (slice_layers _ _ _ _ hc R) as [R' hc'] eqn:ER. cbv beta iota in Hev. destruct Hev as (s' & -> & Hf' & Hv' & Hi').
  - split; [by intros E0; destruct Hnz|done].
  - intros Hl. destruct (Hlg Hl) as [Hend Hfl]. split; [done|]. by apply (sv_output _ _ _ Hs1).
  - done.
  - eexists. split; [done|]. split; [by apply put_serves|].
    eexists. split; [|split].
    + pose proof (put_found (mkWorkerSession (wse_session_id it1) (dist_token_hash_prefix (T ++ toks)) true s') it st1) as Hput.
      cbn [wse_session_id] in Hput. rewrite Hid1 in *. by apply Hput.
    + done.
    + exact Hi'.
Qed.

(** ** The checks *)

Definition frame_flags (reset ack out : bool) : Z := 1 + (if out then 2 else 0) + (if reset then 4 else 0) + (if ack then 8 else 0).

(** The logits are asked of a hop that has the head. *)
Definition hop_logits (e : ds4_dist_route_entry) : bool := re_flags e =? 1.

(** The bytes of a route tell every worker the same hops. *)
Record route_reads (route : bytes) (hops : list ds4_dist_route_entry) : Prop := mkRouteReads {
  rr_valid : dist_route_validate_blob route (zlen hops) DS4_N_LAYER = true;
  rr_entries : forall i, 0 <= i < zlen hops -> dist_route_get_entry route (zlen hops) i = hops !! Z.to_nat i;
  rr_target : dist_route_get_return_target route (zlen hops) = Some (mkReturn [] 0 DS4_DIST_ROUTE_RETURN_UPSTREAM)
}.

(** The record of the frame for hop [i]. *)
Record work_for (m : Z) (hops : list ds4_dist_route_entry) (i : nat) (e : ds4_dist_route_entry) (reset ack : bool)
    (work : ds4_dist_work_fixed) : Prop := mkWorkFor {
  wf_model : wk_model_id work = m;
  wf_flags : wk_flags work = frame_flags reset ack (hop_logits e);
  wf_count : wk_route_count work = zlen hops;
  wf_index : wk_route_index work = Z.of_nat i;
  wf_hop : hops !! i = Some e;
  wf_small : zlen hops < 2 ^ 31
}.

Lemma frame_flag_cases reset ack out work : wk_flags work = frame_flags reset ack out ->
  flag work DS4_DIST_WORK_F_INPUT_HC = true /\ flag work DS4_DIST_WORK_F_OUTPUT_LOGITS = out /\
  flag work DS4_DIST_WORK_F_RESET_SESSION = reset /\ flag work DS4_DIST_WORK_F_ACK_ONLY = ack /\
  flag work (Z.lxor UINT32_MAX DS4_DIST_WORK_F_VALID_MASK) = false.
Proof. unfold flag. intros ->. by destruct reset, ack, out. Qed.

Lemma tokens_read toks p : Forall (fun t => 0 <= t < DS4_N_VOCAB) toks ->
  work_tokens (length toks) (token_bytes toks ++ p) = Go (toks, p).
Proof.
  pose proof n_vocab_range as Hv. induction 1 as [|t toks Ht _ IH]; [done|]. cbn [length work_tokens token_bytes flat_map].
  fold (token_bytes toks). rewrite <- app_assoc. unfold dist_mem_read, u32. rewrite !(wrap_small 32 t), (wrap_small 32 DS4_N_VOCAB) by (unfold in_u; lia).
  assert (Hl : zlen (wire32 t) = 4) by (unfold zlen; by rewrite wire32_length).
  rewrite zlen_app, Hl. pose proof (zlen_nonneg (token_bytes toks ++ p)). rewrite (proj2 (Z.ltb_ge _ _)) by lia.
  change (Z.to_nat 4) with 4%nat. rewrite take_app_length', drop_app_length' by (by rewrite wire32_length).
  rewrite unwire_wire by (unfold in_u; lia). unfold INT_MAX.
  rewrite (proj2 (Z.ltb_ge _ _)), (proj2 (Z.leb_gt _ _)) by lia. cbn [orb]. by rewrite IH.
Qed.

Lemma mem_read_app a p : dist_mem_read (a ++ p) (zlen a) = Some (a, p).
Proof. apply (read_full_app a p). Qed.

Lemma next_hop (hops : list ds4_dist_route_entry) (i : nat) work : zlen hops < 2 ^ 31 -> wk_route_count work = zlen hops -> wk_route_index work = Z.of_nat i ->
  (i < length hops)%nat -> u32 (wk_route_index work + 1) = Z.of_nat (S i) /\ has_next work = bool_decide (is_Some (hops !! S i)).
Proof.
  intros Hz Hc Hi Hl. unfold has_next. rewrite Hi, Hc. unfold u32. rewrite wrap_small by (unfold in_u, zlen in *; lia). split; [lia|].
  destruct (Z.ltb_spec (Z.of_nat i + 1) (zlen hops)); symmetry; [apply bool_decide_eq_true, lookup_lt_is_Some|apply bool_decide_eq_false; rewrite lookup_lt_is_Some]; unfold zlen in *; lia.
Qed.

Lemma hop_logits_flag n e : hop_ok n e -> negb (Z.land (re_flags e) DS4_DIST_ROUTE_F_OUTPUT_LOGITS =? 0) = hop_logits e.
Proof. intros He. unfold hop_logits. destruct (ho_flags _ _ He) as [-> | [-> _]]; done. Qed.

(** A hop with another behind it does not end at the last layer. *)
Lemma next_no_logits n prev hops i e e' : contiguous prev hops -> Forall (hop_ok n) hops -> hops !! i = Some e -> hops !! S i = Some e' ->
  hop_logits e = false /\ re_layer_start e' = re_layer_end e + 1.
Proof.
  revert prev i. induction hops as [|x hops IH]; intros prev i Hc Ho Hi Hn; [done|]. destruct Hc as [_ Hc]. inversion Ho as [|? ? Hx Ho']; subst.
  destruct i as [|i]; [|by eapply IH]. injection Hi as ->. destruct hops as [|y hops]; [done|]. injection Hn as ->. destruct Hc as [Hc _].
  inversion Ho' as [|? ? Hy _]; subst. split; [|done]. unfold hop_logits. destruct (ho_flags _ _ Hx) as [-> |[_ Hend]]; [done|].
  pose proof (ho_range _ _ Hy); pose proof (ho_end _ _ Hy); lia.
Qed.

Lemma work_parse_runs m hops i e prev reset ack st work toks hc route T sid :
  worker_serves m e st -> work_for m hops i e reset ack work -> work_names work sid T toks e ->
  work_sizes work toks hc route -> span_fits ctx cap (zlen T) toks -> hc_ok (zlen toks) hc ->
  route_reads route hops -> Forall (hop_ok DS4_N_LAYER) hops -> contiguous prev hops -> re_layer_start e <> 0 ->
  work_parse st work (work_body (wk_input_hc_bits work) toks hc route) = Go (toks, Some (packed (wk_input_hc_bits work) hc), route, hops !! S i).
Proof.
  intros Hs [Hm Hfl Hcount Hidx Hhop Hsmall] [Hsid Hpre Hres Hpos Hst Hen] Hz Hspan [Hhl Hhr] [Hval Hent Htgt] Hops Hcont Hnz.
  destruct (frame_flag_cases _ _ _ _ Hfl) as (F1 & F2 & F3 & F4 & F5). pose proof (lookup_lt_Some _ _ _ Hhop) as Hlt.
  destruct (next_hop hops i work Hsmall Hcount Hidx Hlt) as [Hnext Hhas].
  pose proof (Forall_lookup_1 _ _ _ _ Hops Hhop) as Hok. pose proof n_layer_range as Hnl. pose proof hc_dim_pos as Hdim.
  destruct Hz as [Zb Zn Zp Zt Zh Zr Zf]. pose proof (float_width_pos _ Zb) as Hvb. pose proof (zlen_nonneg T) as HzT. pose proof (zlen_nonneg route) as Hzr.
  pose proof (zlen_nonneg hc) as Hzh. pose proof (zlen_nonnil _ Zp) as Hzt. change WORK_BYTES with 80 in *. unfold UINT32_MAX in Zf.
  assert (Hlast : hop_logits e = true -> re_layer_end e + 1 = DS4_N_LAYER /\ re_flags e = 1).
  { unfold hop_logits. intros Hl%Z.eqb_eq. destruct (ho_flags _ _ Hok) as [E|[_ E]]; [congruence|done]. }
  unfold work_parse, work_checks. rewrite F1, F2, F5. rewrite zlen_work_body by done. rewrite Zt, Zn, Zh, Zr, !Z.eqb_refl. cbn [negb orb].
  rewrite Hcount, Hidx. rewrite (proj2 (Z.eqb_neq (zlen hops) 0)), (proj2 (Z.leb_gt (zlen hops) (Z.of_nat i))) by (unfold zlen; lia).
  rewrite Hm, (sv_model _ _ _ Hs), Hst, Hen, (sv_start _ _ _ Hs), (sv_end _ _ _ Hs), !Z.eqb_refl. cbn [negb orb].
  rewrite (proj2 (Z.eqb_neq (zlen toks) 0)) by lia. rewrite (sv_ctx _ _ _ Hs), Hpos.
  assert (Hctx : 0 <= zlen T + zlen toks <= ctx /\ ctx <= INT_MAX) by (destruct Hspan; lia). unfold INT_MAX in Hctx.
  unfold u32 at 1 2 3. rewrite !(wrap_small 32 ctx) by (unfold in_u; lia). rewrite (wrap_small 32 (ctx - zlen T)) by (unfold in_u; lia).
  rewrite (proj2 (Z.ltb_ge ctx (zlen T))), (proj2 (Z.ltb_ge (ctx - zlen T) (zlen toks))) by lia. cbn [orb].
  rewrite (proj2 (Z.eqb_neq (re_layer_start e) 0)) by done. cbn [andb negb].
  assert (Ho : hop_logits e && negb (wst_has_output st) = false).
  { destruct (hop_logits e) eqn:El; [|done]. by rewrite (proj1 (sv_output _ _ _ Hs (proj2 (Hlast eq_refl)))). }
  assert (Ho2 : hop_logits e && negb (u32 (re_layer_end e + 1) =? DS4_N_LAYER) = false).
  { destruct (hop_logits e) eqn:El; [|done]. destruct (Hlast eq_refl) as [E _]. unfold u32. rewrite wrap_small by (unfold in_u; lia). by rewrite (proj2 (Z.eqb_eq _ _) E). }
  rewrite Ho, Ho2. cbn [stage_bind]. rewrite he_mem. cbn [negb].
  unfold work_body. unfold zlen at 1. rewrite Nat2Z.id, tokens_read by (by destruct Hspan). cbn [stage_bind].
  rewrite Hpre, Hres, hash_prefix_app, Z.eqb_refl. cbn [negb].
  unfold work_input. rewrite Zn, F1. unfold u64. rewrite !(wrap_small 64 (zlen toks * DS4_HC_DIM)) by (unfold in_u; lia).
  rewrite wrap_small by (unfold in_u; lia). rewrite (proj2 (Z.ltb_ge _ _)) by (unfold UINT32_MAX; lia).
  rewrite valid_default, Zb, <- Hhl, wire_bytes_valid by (rewrite ?valid_default; (done || unfold UINT32_MAX; lia)).
  rewrite float_width_default, Zh, Z.eqb_refl. cbn [negb]. rewrite <- (zlen_packed (wk_input_hc_bits work) hc Zb), mem_read_app. cbn [stage_bind].
  unfold work_route. rewrite he_mem, andb_false_r, Zr. rewrite <- (app_nil_r route) at 1. rewrite mem_read_app. cbv beta iota zeta.
  rewrite Hcount, Hval. cbn [negb]. rewrite Hidx, Hent by (unfold zlen; lia). rewrite Nat2Z.id, Hhop, Hst, Hen, !Z.eqb_refl. cbn [negb orb].
  rewrite F2, (hop_logits_flag _ _ Hok), Bool.eqb_reflx. cbn [negb]. rewrite Hhas.
  rewrite Hidx in Hnext. destruct (hops !! S i) as [e'|] eqn:En.
  - rewrite bool_decide_eq_true_2 by eauto. rewrite Hnext, Hent by (apply lookup_lt_Some in En; unfold zlen; lia). rewrite Nat2Z.id, En.
    destruct (next_no_logits _ _ _ _ _ _ Hcont Hops Hhop En) as [-> _]. done.
  - rewrite bool_decide_eq_false_2 by (intros [? ?]; done). rewrite Htgt. done.
Qed.

(** ** What leaves the worker *)

Definition idle (fw : ds4_dist_worker_forwarder) : Prop :=
  (exists b, fw_fd fw = open_sink b) /\ fw_pending fw = [] /\ fw_closing fw = false /\ 0 <= fw_pending_depth fw.

Definition sent_on (host : bytes) (port : Z) (up : ds4_dist_worker_upstream) : bytes :=
  match List.find (same_endpoint host port) (up_forwarders up) with Some fw => sk_sent (fw_fd fw) | None => [] end.

Lemma same_endpoint_refl fw : same_endpoint (fw_host fw) (fw_port fw) fw = true.
Proof. unfold same_endpoint. by rewrite Z.eqb_refl, (proj2 (bytes_eqb_eq _ _) eq_refl). Qed.

Lemma same_endpoint_true host port fw : same_endpoint host port fw = true -> fw_host fw = host /\ fw_port fw = port.
Proof. unfold same_endpoint. intros [H1%Z.eqb_eq H2%bytes_eqb_eq]%andb_true_iff. done. Qed.

(** An idle connection to the hop, kept from before or new. *)
Lemma get_forwarder_runs up host port : Forall idle (up_forwarders up) ->
  exists fw up', dist_worker_get_forwarder up host port = (SOk fw, up') /\ up_fd up' = up_fd up /\ Forall idle (up_forwarders up') /\ idle fw /\
    fw_host fw = host /\ fw_port fw = port /\ List.find (same_endpoint host port) (up_forwarders up') = Some fw /\
    sk_sent (fw_fd fw) = sent_on host port up.
Proof.
  intros Hi. unfold dist_worker_get_forwarder, sent_on. destruct (List.find _ _) as [fw|] eqn:Ef.
  - exists fw, up. pose proof Ef as Ef'. apply find_some in Ef' as [Hin Hs]. apply same_endpoint_true in Hs as [H1 H2]. split_and!; try done.
    by apply (proj1 (List.Forall_forall _ _) Hi).
  - rewrite he_connect, he_mem. cbn [negb]. eexists _, _. split; [done|].
    assert (Hid : idle (mkForwarder host port (open_sink []) [] we_forward_window false)).
    { split; [by eexists|]. split_and!; try done. apply he_window. }
    split_and!; try done; [by constructor|]. cbn [up_forwarders List.find].
    pose proof (same_endpoint_refl (mkForwarder host port (open_sink []) [] we_forward_window false)) as Hr. cbn [fw_host fw_port] in Hr. by rewrite Hr.
Qed.

Lemma find_put_forwarder l fw fw0 : List.find (same_endpoint (fw_host fw) (fw_port fw)) l = Some fw0 ->
  List.find (same_endpoint (fw_host fw) (fw_port fw)) (replace_forwarder fw l) = Some fw.
Proof.
  induction l as [|x l IH]; cbn [List.find replace_forwarder]; [done|]. destruct (same_endpoint (fw_host fw) (fw_port fw) x) eqn:E; intros Hf; cbn [List.find].
  - by rewrite same_endpoint_refl.
  - rewrite E. by apply IH.
Qed.

(** Putting the first one back twice is putting it back once. *)
Lemma put_forwarder_twice l fw fw' : fw_host fw = fw_host fw' -> fw_port fw = fw_port fw' ->
  replace_forwarder fw' (replace_forwarder fw l) = replace_forwarder fw' l.
Proof.
  intros Hh Hp. induction l as [|x l IH]; cbn [replace_forwarder]; [done|]. rewrite Hh, Hp.
  destruct (same_endpoint (fw_host fw') (fw_port fw') x) eqn:E; cbn [replace_forwarder].
  - pose proof (same_endpoint_refl fw) as Hr. rewrite Hh, Hp in Hr. by rewrite Hr.
  - by rewrite E, IH.
Qed.

Lemma replace_forwarder_all (P : ds4_dist_worker_forwarder -> Prop) fw l : Forall P l -> P fw -> Forall P (replace_forwarder fw l).
Proof. intros Hl Hf. induction Hl as [|x l Hx Hl IH]; cbn [replace_forwarder]; [constructor|]. destruct (same_endpoint _ _ x); by constructor. Qed.

(** The record for the next hop. *)
Definition next_work (work : ds4_dist_work_fixed) (next : ds4_dist_route_entry) (hc : list Z) : ds4_dist_work_fixed :=
  forwarded_work work next (zlen hc * float_width (wk_input_hc_bits work)).

Lemma forward_runs up next work toks hc t route :
  Forall idle (up_forwarders up) -> work_sizes (next_work work next hc) toks hc route -> dist_activation_bits_valid (wk_input_hc_bits work) = true ->
  exists up0 fw b t', dist_forward_work_to_next up next work toks hc (zlen hc * 4) t route = (Rc 1, put_forwarder fw up0) /\
    up_fd up0 = up_fd up /\ Forall idle (up_forwarders up0) /\ fw_host fw = re_host next /\ fw_port fw = re_port next /\
    (exists fw0, List.find (same_endpoint (re_host next) (re_port next)) (up_forwarders up0) = Some fw0) /\
    b = sent_on (re_host next) (re_port next) up /\ fw_fd fw = open_sink (b ++ work_frame (next_work work next hc) toks hc route) /\
    fw_pending fw = [mkPending (dist_u64_from_halves (wk_request_hi work) (wk_request_lo work)) t'] /\
    fw_closing fw = false /\ 0 <= fw_pending_depth fw.
Proof.
  intros Hi Hz Hb. unfold dist_forward_work_to_next.
  destruct (get_forwarder_runs up (re_host next) (re_port next) Hi) as (fw & up0 & -> & Hfd & Hi0 & ((b & Hbk) & Hq & Hcl & Hd) & Hh & Hp & Hf & Hsent).
  pose proof (zlen_nonneg hc). pose proof (wz_fits _ _ _ _ Hz) as Hfit. pose proof (zlen_nonneg toks). pose proof (zlen_nonneg route). change WORK_BYTES with 80 in Hfit.
  rewrite wire_bytes_f32 by (rewrite ?valid_default; (done || lia)). rewrite float_width_default.
  unfold dist_worker_forwarder_enqueue_request. rewrite Hcl, Hq, he_mem. cbn [negb andb].
  assert (Hw : negb (fw_pending_depth fw =? 0) && (fw_pending_depth fw <=? zlen (@nil ds4_dist_pending_request)) = false).
  { change (zlen []) with 0. destruct (Z.eqb_spec (fw_pending_depth fw) 0); [done|]. cbn. apply Z.leb_gt. lia. }
  rewrite Hw. fold (next_work work next hc). cbn [set_pending fw_fd app]. rewrite Hbk, send_work_open by (done || apply he_mem). cbn [negb].
  eexists up0, _, b, _. split; [done|]. split; [done|]. split; [done|]. split; [by cbn|]. split; [by cbn|]. split; [by eexists|].
  split; [by rewrite <- Hsent, Hbk|]. split; [done|]. split; [|done].
  cbn [dist_worker_forwarder_note_send_done set_pending fw_pending set_fw_fd note_first pr_request_id].
  rewrite Z.eqb_refl. done.
Qed.

(** ** A frame from the connection to the answer *)

Definition request_of (work : ds4_dist_work_fixed) : Z := dist_u64_from_halves (wk_request_hi work) (wk_request_lo work).

(** A frame that passes every check of a worker before its session is looked at. *)
Record accepted (m : Z) (hops : list ds4_dist_route_entry) (i : nat) (e : ds4_dist_route_entry) (reset ack : bool) (sid : Z)
    (T toks hc : list Z) (route : bytes) (work : ds4_dist_work_fixed) (st : ds4_dist_worker_state) : Prop := mkAccepted {
  ac_serves : worker_serves m e st;
  ac_for : work_for m hops i e reset ack work;
  ac_names : work_names work sid T toks e;
  ac_sizes : work_sizes work toks hc route;
  ac_span : span_fits ctx cap (zlen T) toks;
  ac_hc : hc_ok (zlen toks) hc;
  ac_route : route_reads route hops;
  ac_hops : Forall (hop_ok DS4_N_LAYER) hops;
  ac_contiguous : exists prev, contiguous prev hops;
  ac_remote : re_layer_start e <> 0;
  ac_ok : work_ok work;
  ac_vocab : RESULT_BYTES + TELEMETRY_BYTES + DS4_N_VOCAB * 4 <= UINT32_MAX
}.

(** What the hop computes of a hidden state that came over the wire. *)
Definition hop_slice (bits : Z) (e : ds4_dist_route_entry) (T toks hc : list Z) (R : Z -> layer_cache) : (Z -> layer_cache) * list Z :=
  slice_layers (Z.to_nat (re_layer_end e - re_layer_start e + 1)) (re_layer_start e) (zlen T) toks (map (quant bits) hc) R.

Lemma decode_runs work hc toks route : work_sizes work toks hc route -> hc_ok (zlen toks) hc ->
  work_decode work (Some (packed (wk_input_hc_bits work) hc)) = Go (Some (map (quant (wk_input_hc_bits work)) hc)).
Proof.
  intros [Zb Zn Zp Zt Zh Zr Zf] [Hl Hr]. unfold work_decode. pose proof (zlen_nonneg hc). pose proof (zlen_nonneg toks). pose proof (zlen_nonneg route).
  change WORK_BYTES with 80 in *. unfold UINT32_MAX in Zf.
  rewrite decode_answer by (done || apply he_mem || (unfold UINT32_MAX; lia)). rewrite zlen_map, Zn, <- Hl. unfold u32, u64.
  rewrite !(wrap_small 64) by (unfold in_u; rewrite ?wrap_small; unfold in_u; lia). rewrite wrap_small by (unfold in_u; lia). by rewrite Z.eqb_refl.
Qed.

(** What the last hop answers: the hidden state or the logits, or only that it is
    done. *)
Definition answer_kind (ack logits : bool) : Z :=
  if ack then DS4_DIST_RESULT_ACK else if logits then DS4_DIST_RESULT_LOGITS else DS4_DIST_RESULT_HIDDEN_STATE.
Definition answer_values (ack logits : bool) (toks hc : list Z) : list Z :=
  if ack then [] else if logits then graph_output_head (last_hc (zlen toks) hc) else hc.

Lemma answer_kind_ok ack logits : value_kind (answer_kind ack logits).
Proof. unfold answer_kind, value_kind. destruct ack, logits; auto. Qed.

Lemma answer_values_range ack logits toks hc : Forall (in_u 32) hc -> Forall (in_u 32) (answer_values ack logits toks hc).
Proof. intros Hc. unfold answer_values. destruct ack; [constructor|]. destruct logits; [apply head_shape|done]. Qed.

Lemma process_runs m hops i e reset ack sid T toks hc route R work st up b :
  accepted m hops i e reset ack sid T toks hc route work st -> starts_from reset sid e T R st -> Forall idle (up_forwarders up) -> up_fd up = open_sink b ->
  let bits := wk_input_hc_bits work in
  let '(R', hc') := hop_slice bits e T toks hc R in
  exists st' t,
    worker_serves m e st' /\ session_in_step sid e (T ++ toks) R' st' /\ hc_ok (zlen toks) hc' /\
    dist_worker_process_work_payload st up (dist_work_to_wire work ++ work_body bits toks hc route) =
    match hops !! S i with
    | Some next =>
        let r := dist_forward_work_to_next up next work toks hc' (zlen hc' * 4) t route in (r.1, st', r.2)
    | None =>
        let kind := answer_kind ack (hop_logits e) in
        let values := answer_values ack (hop_logits e) toks hc' in
        (Rc 1, st', set_up_fd (open_sink (b ++ answer_frame 0 (request_of work) (dist_token_hash_prefix (T ++ toks)) kind (answer_bits kind bits)
           (dist_telemetry_to_wire t) (answer_wire kind bits values))) up)
    end.
Proof.
  intros [Hs Hfor Hnames Hz Hspan Hhc Hroute Hops [prev Hcont] Hnz Hok Hvoc] Hstart Hidle Hup bits.
  pose proof (proj2 Hhc) as Hr0. pose proof (proj1 Hhc) as Hl0. pose proof n_vocab_range as Hnv.
  pose proof (frame_flag_cases _ _ _ _ (wf_flags _ _ _ _ _ _ _ Hfor)) as (F1 & F2 & F3 & F4 & F5).
  pose proof (wf_hop _ _ _ _ _ _ _ Hfor) as Hhop. pose proof (lookup_lt_Some _ _ _ Hhop) as Hlt.
  destruct (next_hop hops i work (wf_small _ _ _ _ _ _ _ Hfor) (wf_count _ _ _ _ _ _ _ Hfor) (wf_index _ _ _ _ _ _ _ Hfor) Hlt) as [_ Hhas].
  pose proof (Forall_lookup_1 _ _ _ _ Hops Hhop) as Hhok.
  assert (Hqc : hc_ok (zlen toks) (map (quant bits) hc)) by (split; [by rewrite zlen_map|by apply quant_all_range]).
  assert (Hlast : hop_logits e = true -> re_layer_end e + 1 = DS4_N_LAYER /\ re_flags e = 1).
  { unfold hop_logits. intros Hl%Z.eqb_eq. destruct (ho_flags _ _ Hhok) as [E|[_ E]]; [congruence|done]. }
  set (fin := ack && negb (has_next work)). set (lg := hop_logits e && negb (has_next work) && negb fin).
  pose proof (work_eval_runs m e st work toks (map (quant bits) hc) (negb lg && negb fin) lg sid T R Hs Hnames Hspan Hnz) as Hev.
  rewrite F3 in Hev. specialize (Hev Hstart ltac:(intros [[Hx _]%andb_true_iff _]%andb_true_iff; by apply Hlast)).
  pose proof (slice_layers_shape (Z.to_nat (re_layer_end e - re_layer_start e + 1)) (re_layer_start e) (zlen T) toks _ R Hqc) as Hsh.
  unfold hop_slice. fold bits in Hev. destruct (slice_layers _ _ _ _ _ R) as [R' hc'] eqn:ER. cbn [snd] in Hsh.
  destruct Hev as (st' & Hev & Hs' & Hin'). exists st', (work_telemetry work (if fin then 0 else if lg then DS4_N_VOCAB * 4 else zlen hc' * float_width bits)).
  split; [done|]. split; [done|]. split; [done|].
  unfold dist_worker_process_work_payload. rewrite <- (zlen_work work), mem_read_app. cbv beta iota zeta.
  rewrite <- (app_nil_r (dist_work_to_wire work)), work_wire_back by done.
  unfold bits. rewrite (work_parse_runs m hops i e prev reset ack st work toks hc route T sid) by done. cbv beta iota.
  rewrite he_mem, andb_false_r, (decode_runs work hc toks route) by done. rewrite F2, F4. cbv zeta. fold fin. fold lg bits.
  rewrite Hev. pose proof (wz_n _ _ _ _ Hz) as Hn. pose proof (wz_fits _ _ _ _ Hz) as Hfit. pose proof (wz_bits _ _ _ _ Hz) as Hb. fold bits in Hb.
  pose proof (zlen_nonneg hc). pose proof (zlen_nonneg toks). pose proof (zlen_nonneg route). change WORK_BYTES with 80 in *. unfold UINT32_MAX in Hfit.
  assert (Ehc : u32 (u64 (u64 (wk_n_tokens work * DS4_HC_DIM) * 4)) = zlen hc' * 4).
  { rewrite Hn, (proj1 Hsh), <- Hl0. unfold u64, u32. rewrite !(wrap_small 64) by (unfold in_u; rewrite ?wrap_small; unfold in_u; lia).
    by rewrite wrap_small by (unfold in_u; lia). }
  rewrite Ehc. assert (Evoc : u32 (DS4_N_VOCAB * 4) = DS4_N_VOCAB * 4) by (apply wrap_small; unfold in_u; lia). rewrite Evoc.
  assert (Hzhc : zlen hc' = zlen hc) by (rewrite (proj1 Hsh); lia).
  destruct (hops !! S i) as [next|] eqn:En.
  - assert (Hfin : fin = false) by (unfold fin; rewrite Hhas, bool_decide_eq_true_2 by eauto; apply andb_false_r).
    assert (Hlg : lg = false) by (unfold lg; rewrite Hhas, bool_decide_eq_true_2 by eauto; by rewrite andb_false_r). rewrite Hfin, Hlg. cbn [negb andb].
    change (DS4_DIST_RESULT_HIDDEN_STATE =? DS4_DIST_RESULT_HIDDEN_STATE) with true. cbv iota.
    rewrite wire_bytes_f32 by (rewrite ?valid_default; (done || unfold UINT32_MAX; lia)). rewrite float_width_default. done.
  - assert (Hnn : negb (has_next work) = true) by (rewrite Hhas, bool_decide_eq_false_2 by (intros [? ?]; done); done).
    assert (Hfin : fin = ack) by (unfold fin; by rewrite Hnn, andb_true_r). assert (Hlg : lg = hop_logits e && negb ack) by (unfold lg; by rewrite Hfin, Hnn, andb_true_r).
    rewrite Hfin, Hlg. pose proof (wn_result _ _ _ _ _ Hnames) as Hres.
    assert (Hlen : zlen (answer_values ack (hop_logits e) toks hc') * 4 + RESULT_BYTES + TELEMETRY_BYTES <= UINT32_MAX).
    { change RESULT_BYTES with 40 in *. change TELEMETRY_BYTES with 40 in *. unfold UINT32_MAX, answer_values in *. destruct ack; [change (zlen []) with 0; lia|].
      destruct (hop_logits e); [rewrite (proj1 (head_shape _)); lia|lia]. }
    pose proof (answer_values_range ack (hop_logits e) toks hc' (proj2 Hsh)) as Hval.
    assert (Hans : forall kind pbits payload, kind = answer_kind ack (hop_logits e) -> default [] payload = floats_bytes (answer_values ack (hop_logits e) toks hc') ->
      (kind = DS4_DIST_RESULT_HIDDEN_STATE -> pbits = dist_activation_bits_or_default bits) -> forall t,
      dist_worker_upstream_send_work_result up (request_of work) (dist_u64_from_halves (wk_result_hash_hi work) (wk_result_hash_lo work)) 0 kind pbits [t] payload =
      (Rc 1, set_up_fd (open_sink (b ++ answer_frame 0 (request_of work) (dist_token_hash_prefix (T ++ toks)) (answer_kind ack (hop_logits e))
         (answer_bits (answer_kind ack (hop_logits e)) bits) (dist_telemetry_to_wire t)
         (answer_wire (answer_kind ack (hop_logits e)) bits (answer_values ack (hop_logits e) toks hc')))) up)).
    { intros kind pbits payload -> Epl Hpb t. unfold dist_worker_upstream_send_work_result. rewrite Hup, Hres.
      rewrite (send_result_open _ _ _ _ _ _ bits t (answer_values ack (hop_logits e) toks hc')); [done|done|done|apply he_mem|apply answer_kind_ok|done|done|lia]. }
    unfold answer_kind, answer_values in *. destruct ack; [|destruct (hop_logits e) eqn:El]; cbn [negb andb]; cbv iota.
    + rewrite ?andb_false_r. change (DS4_DIST_RESULT_ACK =? DS4_DIST_RESULT_HIDDEN_STATE) with false. cbv iota. by rewrite Hans.
    + change (DS4_DIST_RESULT_LOGITS =? DS4_DIST_RESULT_HIDDEN_STATE) with false. cbv iota. by rewrite Hans.
    + change (DS4_DIST_RESULT_HIDDEN_STATE =? DS4_DIST_RESULT_HIDDEN_STATE) with true. cbv iota.
      rewrite wire_bytes_f32 by (rewrite ?valid_default; (done || unfold UINT32_MAX; lia)). rewrite float_width_default. by rewrite Hans.
Qed.

(** ** A worker that is not in step *)

(** The hash of what the session of the request holds; a new one is empty. *)
Definition known_hash (sid : Z) (st : ds4_dist_worker_state) : Z :=
  match dist_worker_find_session_locked st sid with
  | Some it => wse_token_hash (session_hash it)
  | None => DS4_DIST_TOKEN_HASH_INIT
  end.

Definition mismatch : bytes := bs "worker KV prefix hash mismatch".

Lemma session_hash_same it : wse_session (session_hash it) = wse_session it /\ wse_session_id (session_hash it) = wse_session_id it.
Proof. unfold session_hash. by destruct (wse_token_hash_valid it). Qed.

Lemma get_session_hash m e st sid : worker_serves m e st ->
  exists it st', dist_worker_get_session_locked st sid = (SOk it, st') /\ worker_serves m e st' /\ session_fits ctx cap (wse_session it) /\
    wse_token_hash (session_hash it) = known_hash sid st.
Proof.
  intros Hs. unfold known_hash, dist_worker_get_session_locked. destruct (dist_worker_find_session_locked st sid) as [it|] eqn:Ef.
  - exists it, st. split_and!; try done. apply find_some in Ef as [Hin _]. by apply (proj1 (List.Forall_forall _ _) (sv_sessions _ _ _ Hs)).
  - rewrite he_mem. cbn [negb]. destruct he_create as (s & -> & Hfit & Hempty). eexists _, _. split; [done|]. split_and!; [|done|].
    + destruct Hs. constructor; try done. cbn. by constructor.
    + cbn. by rewrite Hempty.
Qed.

(** It answers with an error, and stays as it is. *)
Lemma process_refuses m hops i e ack sid T toks hc route work st up b :
  accepted m hops i e false ack sid T toks hc route work st -> known_hash sid st <> dist_token_hash_prefix T -> up_fd up = open_sink b ->
  exists st', worker_serves m e st' /\
    dist_worker_process_work_payload st up (dist_work_to_wire work ++ work_body (wk_input_hc_bits work) toks hc route) =
    (Rc 1, st', set_up_fd (open_sink (b ++ answer_frame 1 (request_of work) 0 0 0 [] mismatch)) up).
Proof.
  intros [Hs Hfor Hnames Hz Hspan Hhc Hroute Hops [prev Hcont] Hnz Hok Hvoc] Hno Hup.
  pose proof (frame_flag_cases _ _ _ _ (wf_flags _ _ _ _ _ _ _ Hfor)) as (F1 & F2 & F3 & F4 & F5).
  destruct (get_session_hash m e st sid Hs) as (it & st1 & Hget & Hs1 & Hfit & Hknown).
  exists (put_session (session_hash it) st1). destruct (session_hash_same it) as [Hse _].
  split; [apply put_serves; [done|by rewrite Hse]|].
  unfold dist_worker_process_work_payload. rewrite <- (zlen_work work), mem_read_app. cbv beta iota zeta.
  rewrite <- (app_nil_r (dist_work_to_wire work)), work_wire_back by done.
  rewrite (work_parse_runs m hops i e prev false ack st work toks hc route T sid) by done. cbv beta iota.
  rewrite he_mem, andb_false_r, (decode_runs work hc toks route) by done. cbv beta iota.
  unfold work_eval. rewrite (wn_session _ _ _ _ _ Hnames), (wn_prefix _ _ _ _ _ Hnames), Hget, F3. cbv beta iota.
  rewrite Hknown, (proj2 (Z.eqb_neq _ _) Hno). cbn [negb]. cbv beta iota.
  unfold dist_worker_upstream_send_work_error. rewrite Hup, send_error_open; [done|by apply (bool_decide_unpack _)|done|by vm_compute].
Qed.
End worker.
