(* ===== verification/DistSpan.v ===== *)
(** * DistSpan: a span of tokens, and the machines of a route (ds4_distributed.c)

    The coordinator evaluates a span: its own layers, then the request to the first hop of the route, then the answer.
    The workers are behind [exchange]: what comes back for the bytes sent to the first
    of them.  Failures keep their return code; their local messages do not travel. *)

From S2P Require Import Prelude Ctype KvHeader Dist Slice DistActivation DistFrame DistWorker.

Section span.
Context `{Graph}.
Variable mem : Z -> bool.
Variable net : Type.
Variable exchange : net -> bytes -> bytes * net.

(** A route, and the connection to its first hop. *)
Definition first_entry (plan : ds4_dist_route_plan) : option ds4_dist_route_entry := head (p_entry plan).

Definition remote_work (st : ds4_dist_coordinator_state) (plan : ds4_dist_route_plan) (first : ds4_dist_route_entry)
    (n_tokens pos0 session_id request_id prefix_hash result_hash : Z) (reset_session ack_only : bool)
    (wire_hidden_hc_bytes : Z) : ds4_dist_work_fixed :=
  let (session_hi, session_lo) := dist_u64_to_halves session_id in
  let (request_hi, request_lo) := dist_u64_to_halves request_id in
  let (prefix_hi, prefix_lo) := dist_u64_to_halves prefix_hash in
  let (result_hi, result_lo) := dist_u64_to_halves result_hash in
  let flags := DS4_DIST_WORK_F_INPUT_HC in
  let flags := if reset_session then Z.lor flags DS4_DIST_WORK_F_RESET_SESSION else flags in
  let flags := if ack_only then Z.lor flags DS4_DIST_WORK_F_ACK_ONLY else flags in
  let flags := if negb (Z.land (re_flags first) DS4_DIST_ROUTE_F_OUTPUT_LOGITS =? 0)
               then Z.lor flags DS4_DIST_WORK_F_OUTPUT_LOGITS else flags in
  mkWork (cs_model_id st) session_hi session_lo request_hi request_lo prefix_hi prefix_lo result_hi result_lo
    pos0 n_tokens (re_layer_start first) (re_layer_end first) flags (u32 (n_tokens * 4)) wire_hidden_hc_bytes
    (cs_activation_bits st) (zlen (p_entry plan)) 0 (zlen (p_blob plan)).

Definition dist_coordinator_send_remote_work_on_fd (st : ds4_dist_coordinator_state) (plan : ds4_dist_route_plan) (fd : sink)
    (toks : list Z) (pos0 session_id request_id prefix_hash result_hash : Z) (reset_session ack_only : bool)
    (hidden_hc : list Z) (hidden_hc_bytes : Z) : bool * sink :=
  match first_entry plan with
  | None => (false, fd)
  | Some first =>
      match dist_activation_wire_bytes_from_f32_bytes (cs_activation_bits st) hidden_hc_bytes with
      | None => (false, fd)
      | Some wire_hidden_hc_bytes =>
          dist_send_work_frame mem fd
            (remote_work st plan first (zlen toks) pos0 session_id request_id prefix_hash result_hash reset_session ack_only
               wire_hidden_hc_bytes)
            toks (Some hidden_hc) (Some (p_blob plan))
      end
  end.

(** 0 with the logits, or the code. *)
Inductive span_result := SpanOk (logits : list Z) | SpanFailed (rc : Z).

Definition dist_coordinator_eval_remote_on_fd (debug : bool) (st : ds4_dist_coordinator_state) (e : ds4_engine) (s : slice_session)
    (plan : ds4_dist_route_plan) (fd : sink) (n : net) (toks : list Z)
    (pos0 session_id request_id prefix_hash expected_result_hash : Z) (reset_session : bool)
    (hidden_hc : list Z) (hidden_hc_bytes : Z) : span_result * slice_session * sink * net :=
  let (ok, fd') := dist_coordinator_send_remote_work_on_fd st plan fd toks pos0 session_id request_id prefix_hash
                     expected_result_hash reset_session false hidden_hc hidden_hc_bytes in
  let (answer, n) := exchange n (drop (length (sk_sent fd)) (sk_sent fd')) in
  if negb ok then (SpanFailed 1, s, fd', n)
  else
    match (dist_recv_result_alloc mem debug request_id answer).1 with
    | RecvTransport => (SpanFailed 1, s, fd', n)
    | RecvRemote _ => (SpanFailed 2, s, fd', n)
    | RecvResult kind result_hash payload =>
        if negb (result_hash =? expected_result_hash) then (SpanFailed 1, s, fd', n)
        else
          let logits_bytes := u32 (DS4_N_VOCAB * 4) in
          if (kind =? DS4_DIST_RESULT_LOGITS) && (zlen payload =? logits_bytes) then
            (SpanOk (bytes_floats payload), s, fd', n)
          else if (kind =? DS4_DIST_RESULT_HIDDEN_STATE) && (zlen payload =? hidden_hc_bytes) then
            match ds4_session_eval_output_head_from_hc e s (bytes_floats payload) (zlen toks) with
            | (SOk logits, s) => (SpanOk logits, s, fd', n)
            | (SErr _, s) => (SpanFailed 1, s, fd', n)
            end
          else (SpanFailed 1, s, fd', n)
    end.

(** The hash of the first [n_tokens] the session holds. *)
Definition dist_session_token_hash_prefix (s : slice_session) (n_tokens : Z) : option Z :=
  if zlen (ss_checkpoint s) <? n_tokens then None
  else Some (dist_token_hash_prefix (take (Z.to_nat n_tokens) (ss_checkpoint s))).

Definition dist_coordinator_eval_span (debug : bool) (st : ds4_dist_coordinator_state) (e : ds4_engine) (s : slice_session)
    (plan : ds4_dist_route_plan) (fd : sink) (n : net) (toks : list Z) (pos0 session_id request_id : Z) (reset_session : bool)
  : span_result * slice_session * sink * net :=
  let n_tokens := zlen toks in
  let hidden_bytes := u64 (u64 (n_tokens * DS4_HC_DIM) * 4) in
  let failed := fun s => (SpanFailed 1, s, fd, n) in
  if UINT32_MAX <? hidden_bytes then failed s
  else
    match (if reset_session then if negb (pos0 =? 0) then None else Some DS4_DIST_TOKEN_HASH_INIT
           else dist_session_token_hash_prefix s pos0) with
    | None => failed s
    | Some prefix_hash =>
        let result_hash := dist_token_hash_update_span prefix_hash toks in
        let local_logits := zlen (p_entry plan) =? 0 in
        if negb local_logits && negb (mem hidden_bytes) then failed s
        else
          let '(reset_failed, s) := if reset_session then ds4_session_layer_slice_reset e s else (None, s) in
          if bool_decide (is_Some reset_failed) then failed s
          else if match first_entry plan with Some first => re_fd first <? 0 | None => false end then failed s
          else
            match ds4_session_eval_layer_slice e s toks pos0 (cs_local_start st) (cs_local_end st) None
                    (negb local_logits) local_logits with
            | (SErr _, s) => failed s
            | (SOk (hidden, logits), s) =>
                if local_logits then (SpanOk (default [] logits), s, fd, n)
                else
                  dist_coordinator_eval_remote_on_fd debug st e s plan fd n toks pos0 session_id request_id prefix_hash
                    result_hash reset_session (default [] hidden) hidden_bytes
            end
    end.
End span.

(** * The machines of a route, connected

    Each worker reads a work frame from its connection, and what it forwards reaches
    the next machine, whose answer comes back through the relay. *)

Section cluster.
Context `{WorkerEnv}.

(** A worker, where it listens, and the connection the work comes on. *)
Record node := mkNode { nd_host : bytes; nd_port : Z; nd_state : ds4_dist_worker_state; nd_up : ds4_dist_worker_upstream }.

Definition forwarder_to (next : node) (up : ds4_dist_worker_upstream) : option ds4_dist_worker_forwarder :=
  List.find (same_endpoint (nd_host next) (nd_port next)) (up_forwarders up).

Definition sent_to (next : node) (up : ds4_dist_worker_upstream) : bytes :=
  match forwarder_to next up with Some fw => sk_sent (fw_fd fw) | None => [] end.

(** What [up] has received since [old]. *)
Definition new_bytes (old new : sink) : bytes := drop (length (sk_sent old)) (sk_sent new).

(** A round of [dist_worker_read_loop] for a work frame. *)
Definition dist_worker_read_work (st : ds4_dist_worker_state) (up : ds4_dist_worker_upstream) (p : bytes)
  : ds4_dist_worker_state * ds4_dist_worker_upstream :=
  match dist_read_frame_header p with
  | Received (type, n_bytes) p =>
      if type =? DS4_DIST_MSG_WORK then
        let '(_, st, up, _) := dist_worker_handle_work st up n_bytes p in (st, up)
      else (st, up)
  | _ => (st, up)
  end.

(** The answer to the bytes that reach the first machine. *)
Fixpoint serve (wait_usec : Z) (nodes : list node) (p : bytes) : bytes * list node :=
  match nodes with
  | [] => ([], [])
  | nd :: rest =>
      let (st, up) := dist_worker_read_work (nd_state nd) (nd_up nd) p in
      let back := fun up rest => (new_bytes (up_fd (nd_up nd)) (up_fd up), mkNode (nd_host nd) (nd_port nd) st up :: rest) in
      match rest with
      | [] => back up rest
      | next :: _ =>
          match forwarder_to next up with
          | None => back up rest
          | Some fw =>
              match drop (length (sent_to next (nd_up nd))) (sk_sent (fw_fd fw)) with
              | [] => back up rest
              | forwarded =>
                  let (answer, rest) := serve wait_usec rest forwarded in
                  let '(_, fw, up, _) := relay_step wait_usec fw up answer in
                  back (put_forwarder fw up) rest
              end
          end
      end
  end.

(** The connection of the coordinator: nothing sent, nothing answered. *)
Definition exchange (wait_usec : Z) (nodes : list node) (p : bytes) : bytes * list node :=
  match p with
  | [] => ([], nodes)
  | _ => serve wait_usec nodes p
  end.
End cluster.
