(* ===== verification/DistClusterFacts.v ===== *)
(** * DistClusterFacts: an answer passes the hops of a route

    The relay gives an answer on as it came, with one record of telemetry more, and
    takes the request it belongs to off the queue. *)

From S2P Require Import Prelude Ctype KvHeader Dist Slice DistActivation DistFrame DistWorker DistWorkerFacts DistSpan.

Section relay.
Context `{WorkerEnv}.

Lemma relay_copy_open fuel : forall a p b, (length a <= fuel)%nat ->
  relay_copy fuel (zlen a) (a ++ p) (open_sink b) = (true, p, open_sink (b ++ a)).
Proof.
  induction fuel as [|fuel IH]; intros a p b Hf; cbn [relay_copy].
  { destruct a; [|cbn in Hf; lia]. by rewrite app_nil_r. }
  destruct (Z.leb_spec (zlen a) 0) as [Hz|Hz].
  { assert (a = []) as -> by (apply zlen_zero_nil; pose proof (zlen_nonneg a); lia). by rewrite app_nil_r. }
  set (n := if _ <? _ then _ else _). assert (Hn : 0 < n <= zlen a) by (unfold n, RELAY_CHUNK; destruct (Z.ltb_spec (zlen a) (1024 * 1024)); lia).
  clearbody n. rewrite <- (take_drop (Z.to_nat n) a) at 1. rewrite <- app_assoc.
  assert (En : n = zlen (take (Z.to_nat n) a)) by (rewrite zlen_take; lia).
  pose proof (read_full_app (take (Z.to_nat n) a) (drop (Z.to_nat n) a ++ p)) as Hr. rewrite <- En in Hr.
  rewrite Hr. cbv beta iota. rewrite write_open. cbn [negb].
  replace (zlen a - n) with (zlen (drop (Z.to_nat n) a)) by (rewrite zlen_drop; lia).
  rewrite IH by (rewrite length_drop; lia). rewrite <- app_assoc, take_drop. done.
Qed.

Lemma relay_step_answer wait_usec fw up b node q status request_id result_hash kind bits tb wire p :
  fw_pending fw = node :: q -> pr_request_id node = request_id -> in_u 32 status -> in_u 64 request_id -> in_u 64 result_hash ->
  answer_ok kind bits tb wire -> RESULT_BYTES + zlen tb + TELEMETRY_BYTES + zlen wire <= UINT32_MAX ->
  up_fd up = open_sink b ->
  relay_step wait_usec fw up (answer_frame status request_id result_hash kind bits tb wire ++ p) =
  (true, set_pending q fw,
   set_up_fd (open_sink (b ++ answer_frame status request_id result_hash kind bits
     (tb ++ dist_telemetry_to_wire (set_wait_usec wait_usec (pr_telemetry node))) wire)) up, p).
Proof.
  intros Hq Hid Hstatus Hr Hh Ha Hfit Hup. unfold relay_step. rewrite answer_header by done. cbv beta iota zeta.
  destruct (answer_checks _ _ _ _ Ha) as (C1 & C2 & C3 & C4 & _).
  change (DS4_DIST_MSG_RESULT =? DS4_DIST_MSG_RESULT) with true. rewrite C4. cbn [negb orb].
  destruct (read_record status request_id result_hash kind bits tb wire (tb ++ wire ++ p) Hstatus Ha) as (w & -> & Ew). cbv beta iota. rewrite Ew.
  unfold dist_worker_forwarder_pop_request. rewrite Hq. unfold relay_result, answer_record. cbn [rs_request_hi rs_request_lo rs_result_hash_hi rs_result_hash_lo
    rs_status rs_result_kind rs_telemetry_count rs_telemetry_bytes rs_payload_bytes rs_payload_bits].
  rewrite !halves_back by done. rewrite C1, C2, C3, Hid, !Z.eqb_refl. cbn [negb orb].
  pose proof (zlen_nonneg tb). pose proof (zlen_nonneg wire). pose proof (an_telemetry _ _ _ _ Ha) as Ht.
  change RESULT_BYTES with 40 in *. change TELEMETRY_BYTES with 40 in *. unfold UINT32_MAX in *.
  assert (Hc : u32 (zlen tb / 40 + 1) = (zlen tb + 40) / 40).
  { unfold u32. rewrite wrap_small by (unfold in_u; zdiv_lia). zdiv_lia. }
  rewrite Hc. rewrite (proj2 (Z.eqb_neq ((zlen tb + 40) / 40) 0)) by zdiv_lia.
  rewrite (proj2 (Z.ltb_ge _ (zlen tb + 40))) by lia. cbn [orb]. rewrite (proj2 (Z.ltb_ge _ _)) by lia.
  rewrite Hup. rewrite write_open. cbv beta iota. rewrite write_open. cbv beta iota.
  rewrite relay_copy_open by (rewrite length_app; lia). cbv beta iota. rewrite write_open. cbv beta iota.
  rewrite relay_copy_open by (rewrite length_app; lia). cbv beta iota.
  do 4 f_equal. unfold answer_frame, answer_record. rewrite zlen_app, zlen_telemetry. change TELEMETRY_BYTES with 40. change RESULT_BYTES with 40.
  rewrite <- !app_assoc. replace (40 + (zlen tb + 40) + zlen wire) with (40 + (zlen tb + 40) + zlen wire) by lia. done.
Qed.
End relay.

(** * The answer of a route is that of its layers

    The frame passes from hop to hop, each machine evaluates its slice, and the last
    one's answer comes back through all of them. *)

#[local] Set Default Proof Using "Type*".

Section cluster.
Context `{HG : Graph} `{HL : !GraphLaws} `{HE : !WorkerEnv}.
Variables ctx cap : Z.
Context `{HH : !Healthy ctx cap}.
Implicit Types (R : Z -> layer_cache).

(** A machine that is hop [e] of model [m], its connections quiet. *)
Record node_at (m : Z) (e : ds4_dist_route_entry) (nd : node) : Prop := mkNodeAt {
  na_host : nd_host nd = re_host e;
  na_port : nd_port nd = re_port e;
  na_serves : worker_serves ctx cap m e (nd_state nd);
  na_up : exists b, up_fd (nd_up nd) = open_sink b;
  na_idle : Forall idle (up_forwarders (nd_up nd))
}.

(** The hidden state through the hops, packed before each. *)
Fixpoint pipeline (bits : Z) (hops : list ds4_dist_route_entry) (T toks hc : list Z) (R : Z -> layer_cache) : (Z -> layer_cache) * list Z :=
  match hops with
  | [] => (R, hc)
  | e :: hops => let (R, hc) := hop_slice bits e T toks hc R in pipeline bits hops T toks hc R
  end.

Lemma read_work_runs st up work toks hc route : work_sizes work toks hc route -> work_ok work ->
  dist_worker_read_work st up (work_frame work toks hc route) =
  let '(_, st, up) := dist_worker_process_work_payload st up (dist_work_to_wire work ++ work_body (wk_input_hc_bits work) toks hc route) in (st, up).
Proof.
  intros [Zb Zn Zp Zt Zh Zr Zf] Hok. unfold dist_worker_read_work, work_frame. cbv zeta. set (payload := dist_work_to_wire work ++ _).
  assert (Hz : in_u 32 (zlen payload)).
  { unfold payload. rewrite zlen_app, zlen_work, zlen_work_body by done. pose proof (float_width_pos _ Zb). pose proof (zlen_nonneg toks).
    pose proof (zlen_nonneg hc). pose proof (zlen_nonneg route). change WORK_BYTES with 80 in *. unfold UINT32_MAX, in_u in *. nia. }
  rewrite read_frame_header by done. change (DS4_DIST_MSG_WORK =? DS4_DIST_MSG_WORK) with true. cbv iota beta.
  unfold dist_worker_handle_work. rewrite he_mem. cbn [negb]. pose proof (read_full_app payload []) as Hr. rewrite app_nil_r in Hr. rewrite Hr. cbv beta iota.
  by destruct (dist_worker_process_work_payload st up payload) as [[? ?] ?].
Qed.

Lemma new_bytes_app b a : new_bytes (open_sink b) (open_sink (b ++ a)) = a.
Proof. unfold new_bytes. cbn. apply drop_app_length. Qed.

(** ** The record for the next hop *)

Lemma next_work_ok n work next hc : work_ok work -> hop_ok n next -> n <= 2 ^ 20 -> zlen hc * float_width (wk_input_hc_bits work) <= UINT32_MAX ->
  dist_activation_bits_valid (wk_input_hc_bits work) = true -> work_ok (next_work work next hc).
Proof.
  intros Hw Hn Hl Hz Hb. unfold work_ok, work_fields in *. unfold next_work, forwarded_work. cbn [wk_model_id wk_session_hi wk_session_lo wk_request_hi wk_request_lo
    wk_prefix_hash_hi wk_prefix_hash_lo wk_result_hash_hi wk_result_hash_lo wk_pos0 wk_n_tokens wk_layer_start wk_layer_end wk_flags wk_token_bytes
    wk_input_hc_bytes wk_input_hc_bits wk_route_count wk_route_index wk_route_bytes].
  rewrite !List.Forall_cons_iff in Hw. destruct_and? Hw. pose proof (ho_range _ _ Hn). pose proof (ho_end _ _ Hn). pose proof (float_width_pos _ Hb). pose proof (zlen_nonneg hc).
  repeat apply Forall_cons_2; try done; try (unfold in_u, UINT32_MAX in *; nia).
  - destruct (negb _); [apply lor_in_u; [lia| |done]; by apply lor_in_u|].
    apply land_in_u; [|by vm_compute]. apply Z.lor_nonneg. unfold in_u, DS4_DIST_WORK_F_INPUT_HC in *. lia.
  - by apply default_range.
  - apply u32_range.
Qed.

Lemma flags_next reset ack (out : bool) (next : ds4_dist_route_entry) n : hop_ok n next ->
  (if negb (Z.land (re_flags next) DS4_DIST_ROUTE_F_OUTPUT_LOGITS =? 0)
   then Z.lor (Z.lor (frame_flags reset ack out) DS4_DIST_WORK_F_INPUT_HC) DS4_DIST_WORK_F_OUTPUT_LOGITS
   else Z.land (Z.lor (frame_flags reset ack out) DS4_DIST_WORK_F_INPUT_HC) (Z.lxor UINT32_MAX DS4_DIST_WORK_F_OUTPUT_LOGITS)) =
  frame_flags reset ack (hop_logits next).
Proof. intros Hn. rewrite (hop_logits_flag _ _ Hn). by destruct (hop_logits next), reset, ack, out. Qed.

Lemma quant_next bits : map (quant (dist_activation_bits_or_default bits)) = map (quant bits).
Proof. unfold quant. by rewrite default_idem. Qed.

(** The next machine accepts what this one forwards. *)
Lemma next_accepted m hops i e next reset ack sid T toks hc hc' route work st st' :
  accepted ctx cap m hops i e reset ack sid T toks hc route work st -> hops !! S i = Some next ->
  hc_ok (zlen toks) hc' -> worker_serves ctx cap m next st' ->
  accepted ctx cap m hops (S i) next reset ack sid T toks hc' route (next_work work next hc') st'.
Proof.
  intros [Hs Hfor Hnames Hz Hspan Hhc Hroute Hops [prev Hcont] Hnz Hok Hvoc] Hnext Hhc' Hs'.
  pose proof n_layer_range as Hnl. pose proof (lookup_lt_Some _ _ _ Hnext) as Hlt.
  pose proof (Forall_lookup_1 _ _ _ _ Hops Hnext) as Hnok. pose proof (wf_hop _ _ _ _ _ _ _ Hfor) as Hhop.
  destruct (next_no_logits _ _ _ _ _ _ Hcont Hops Hhop Hnext) as [Hno Hadj].
  destruct (next_hop hops i work (wf_small _ _ _ _ _ _ _ Hfor) (wf_count _ _ _ _ _ _ _ Hfor) (wf_index _ _ _ _ _ _ _ Hfor) ltac:(lia)) as [Hidx _].
  destruct Hfor as [Fm Ff Fc Fi Fh Fs]. destruct Hnames as [Ns Np Nr Npos Nst Nen]. destruct Hz as [Zb Zn Zp Zt Zh Zr Zf].
  assert (Hlen : zlen hc' = zlen hc) by (rewrite (proj1 Hhc'), (proj1 Hhc); done). pose proof (float_width_pos _ Zb). pose proof (zlen_nonneg hc).
  pose proof (zlen_nonneg toks). pose proof (zlen_nonneg route). change WORK_BYTES with 80 in *. unfold UINT32_MAX in Zf.
  constructor; try done.
  - constructor; try done. cbn [next_work forwarded_work wk_flags]. rewrite Ff. by eapply flags_next.
  - constructor; cbn [next_work forwarded_work wk_input_hc_bits wk_n_tokens wk_token_bytes wk_input_hc_bytes wk_route_bytes]; try done.
    + by rewrite valid_default.
    + by rewrite float_width_default.
    + change WORK_BYTES with 80. unfold UINT32_MAX. lia.
  - by exists prev.
  - pose proof (ho_range _ _ (Forall_lookup_1 _ _ _ _ Hops Hhop)). lia.
  - eapply next_work_ok; try done; [lia|]. rewrite Hlen. unfold UINT32_MAX. nia.
Qed.

(** ** The whole route *)

(** The last hop's answer. *)
Fixpoint route_logits (hops : list ds4_dist_route_entry) : bool :=
  match hops with
  | [] => false
  | [e] => hop_logits e
  | _ :: hops => route_logits hops
  end.

Definition route_kind (ack : bool) (hops : list ds4_dist_route_entry) : Z := answer_kind ack (route_logits hops).
Definition route_values (ack : bool) (hops : list ds4_dist_route_entry) (toks hc : list Z) : list Z :=
  answer_values ack (route_logits hops) toks hc.

(** The hops behind [e] have later layers. *)
Definition contiguous_route (e : ds4_dist_route_entry) (hops : list ds4_dist_route_entry) : Prop :=
  re_layer_start e <= re_layer_end e /\ Forall (fun e' => re_layer_end e < re_layer_start e') hops.

Lemma hop_slice_outside bits e T toks hc R il : re_layer_start e <= re_layer_end e -> il < re_layer_start e \/ re_layer_end e < il ->
  (hop_slice bits e T toks hc R).1 il = R il.
Proof. intros He Hil. unfold hop_slice. apply slice_layers_outside. lia. Qed.

(** The layers of later hops. *)
Lemma later_start prev hops e : contiguous prev (e :: hops) -> Forall (hop_ok DS4_N_LAYER) (e :: hops) ->
  Forall (fun e' => re_layer_end e < re_layer_start e') hops.
Proof.
  revert prev e. induction hops as [|x hops IH]; intros prev e Hc Ho; [constructor|]. destruct Hc as [_ Hc]. inversion Ho as [|? ? He Ho']; subst.
  pose proof (IH _ _ Hc Ho') as Hx. destruct Hc as [Hc _]. inversion Ho' as [|? ? Hxok _]; subst. pose proof (ho_range _ _ Hxok).
  constructor; [lia|]. clear -Hx Hc H. induction Hx; constructor; [lia|done].
Qed.

Lemma in_step_ext s first last T R R' : in_step s first last T R -> (forall il, first <= il <= last -> R' il = R il) -> in_step s first last T R'.
Proof. intros [Ht Hv Hc] HR. constructor; [done|done|]. intros il Hil. by rewrite Hc, HR. Qed.

Lemma starts_from_ext reset sid e T R R' st : starts_from reset sid e T R st ->
  (forall il, re_layer_start e <= il <= re_layer_end e -> R' il = R il) -> starts_from reset sid e T R' st.
Proof.
  unfold starts_from. destruct reset.
  - intros [HT HR] Hext. split; [done|]. intros il Hil. by rewrite Hext, HR.
  - intros (it & Hf & Hh & Hi) Hext. exists it. split_and!; [done|done|]. by eapply in_step_ext.
Qed.

Lemma session_in_step_ext sid e T R R' st : session_in_step sid e T R st ->
  (forall il, re_layer_start e <= il <= re_layer_end e -> R' il = R il) -> session_in_step sid e T R' st.
Proof. apply (starts_from_ext false). Qed.

Lemma pipeline_outside bits hops T toks : forall hc R il, Forall (fun e => re_layer_start e <= re_layer_end e /\ (il < re_layer_start e \/ re_layer_end e < il)) hops ->
  (pipeline bits hops T toks hc R).1 il = R il.
Proof.
  induction hops as [|e hops IH]; intros hc R il Hf; [done|]. inversion Hf as [|? ? [He Hil] Hf']; subst. cbn [pipeline].
  pose proof (hop_slice_outside bits e T toks hc R il He Hil) as Ho. destruct (hop_slice bits e T toks hc R) as [R1 hc1]. by rewrite IH.
Qed.

Lemma hop_slice_default bits e T toks hc R : hop_slice (dist_activation_bits_or_default bits) e T toks hc R = hop_slice bits e T toks hc R.
Proof. unfold hop_slice. by rewrite quant_next. Qed.

Lemma pipeline_default bits hops T toks : forall hc R, pipeline (dist_activation_bits_or_default bits) hops T toks hc R = pipeline bits hops T toks hc R.
Proof.
  induction hops as [|e hops IH]; intros hc R; [done|]. cbn [pipeline]. rewrite hop_slice_default. destruct (hop_slice bits e T toks hc R). apply IH.
Qed.

Lemma answer_default request_id result_hash kind bits tb vs :
  answer_frame 0 request_id result_hash kind (answer_bits kind (dist_activation_bits_or_default bits)) tb (answer_wire kind (dist_activation_bits_or_default bits) vs) =
  answer_frame 0 request_id result_hash kind (answer_bits kind bits) tb (answer_wire kind bits vs).
Proof. unfold answer_bits, answer_wire. by rewrite default_idem, packed_default. Qed.

Lemma request_range work : work_ok work -> in_u 64 (request_of work).
Proof.
  unfold work_ok, work_fields. rewrite !List.Forall_cons_iff. intros Hw. destruct_and? Hw. unfold request_of, dist_u64_from_halves, in_u in *.
  rewrite Z.shiftl_mul_pow2, lor_add by lia. lia.
Qed.

(** Where the connections of a machine stand after it has forwarded and relayed. *)
Lemma relayed_idle l fw : Forall idle l -> (exists b, fw_fd fw = open_sink b) -> fw_closing fw = false -> 0 <= fw_pending_depth fw ->
  Forall idle (replace_forwarder (set_pending [] fw) (replace_forwarder fw l)).
Proof.
  intros Hl Hb Hc Hd. rewrite put_forwarder_twice by done. by apply replace_forwarder_all.
Qed.

(** One machine, and the rest of the route. *)
Lemma serve_cons wait_usec nd rest p :
  serve wait_usec (nd :: rest) p =
  let (st, up) := dist_worker_read_work (nd_state nd) (nd_up nd) p in
  let back := fun up rest => (new_bytes (up_fd (nd_up nd)) (up_fd up), mkNode (nd_host nd) (nd_port nd) st up :: rest) in
  match rest with
  | [] => back up rest
  | next :: _ =>
      match forwarder_to next up with
      | None => back up rest
      | Some fw =>
          match drop (length (sent_to next (nd_up nd))) (sk_sent (fw_fd fw)) with
          | [] => back up rest
          | forwarded =>
              let (answer, rest) := serve wait_usec rest forwarded in
              let '(_, fw, up, _) := relay_step wait_usec fw up answer in back (put_forwarder fw up) rest
          end
      end
  end.
Proof. reflexivity. Qed.

Lemma contiguous_drop hops : forall prev i, contiguous prev hops -> exists prev', contiguous prev' (drop i hops).
Proof.
  induction hops as [|e hops IH]; intros prev i Hc; [exists None; by rewrite drop_nil|].
  destruct i as [|i]; [by exists prev|]. destruct Hc as [_ Hc]. cbn [drop]. by eapply IH.
Qed.

Lemma Forall2_starts_ext reset sid T R R' hs nodes :
  Forall2 (fun e nd => starts_from reset sid e T R (nd_state nd)) hs nodes ->
  Forall (fun e => forall il, re_layer_start e <= il <= re_layer_end e -> R' il = R il) hs ->
  Forall2 (fun e nd => starts_from reset sid e T R' (nd_state nd)) hs nodes.
Proof.
  induction 1 as [|e nd hs nodes H _ IH]; intros Hf; [constructor|]. inversion Hf as [|? ? He Hf']; subst.
  constructor; [by eapply starts_from_ext|by apply IH].
Qed.

Lemma work_frame_cons work toks hc route : exists c frame, work_frame work toks hc route = c :: frame.
Proof.
  destruct (work_frame work toks hc route) as [|c frame] eqn:E; [|by exists c, frame]. exfalso.
  apply (f_equal zlen) in E. unfold work_frame in E. cbv zeta in E. rewrite zlen_app, zlen_header in E. change (zlen []) with 0 in E.
  match type of E with _ + zlen ?l = 0 => pose proof (zlen_nonneg l) end. lia.
Qed.

(** A machine with another behind it: it evaluates, and passes on whatever answer the
    rest of the route gives. *)
Lemma serve_forwards wait_usec m hops i e next reset ack sid T toks hc route R work nd nd' :
  accepted ctx cap m hops i e reset ack sid T toks hc route work (nd_state nd) -> starts_from reset sid e T R (nd_state nd) ->
  node_at m e nd -> node_at m next nd' -> hops !! S i = Some next ->
  let '(R1, hc1) := hop_slice (wk_input_hc_bits work) e T toks hc R in
  exists st' t, hc_ok (zlen toks) hc1 /\ session_in_step sid e (T ++ toks) R1 st' /\
    forall rest nodes' status hash kind bits tb wire,
      serve wait_usec (nd' :: rest) (work_frame (next_work work next hc1) toks hc1 route) =
        (answer_frame status (request_of work) hash kind bits tb wire, nodes') ->
      in_u 32 status -> in_u 64 hash -> answer_ok kind bits tb wire -> RESULT_BYTES + zlen tb + TELEMETRY_BYTES + zlen wire <= UINT32_MAX ->
      exists nd1, node_at m e nd1 /\ nd_state nd1 = st' /\
        serve wait_usec (nd :: nd' :: rest) (work_frame work toks hc route) =
        (answer_frame status (request_of work) hash kind bits (tb ++ dist_telemetry_to_wire t) wire, nd1 :: nodes').
Proof.
  intros Ha Hstart [Nh Np Ns (b & Nup) Nidle] Hnd' En.
  pose proof (process_runs ctx cap m hops i e reset ack sid T toks hc route R work (nd_state nd) (nd_up nd) b Ha Hstart Nidle Nup) as Hproc. cbv zeta in Hproc.
  destruct (hop_slice (wk_input_hc_bits work) e T toks hc R) as [R1 hc1]. destruct Hproc as (st' & t & Hs' & Hin' & Hhc1 & Hproc).
  pose proof (next_accepted m hops i e next reset ack sid T toks hc hc1 route work (nd_state nd) (nd_state nd') Ha En Hhc1 (na_serves _ _ _ Hnd')) as Hacc.
  destruct Ha as [Hs Hfor Hnames Hz Hspan Hhc Hroute Hops [prev Hcont] Hnz Hok Hvoc].
  destruct (forward_runs ctx cap (nd_up nd) next work toks hc1 t route Nidle (ac_sizes _ _ _ _ _ _ _ _ _ _ _ _ _ _ _ Hacc) (wz_bits _ _ _ _ Hz))
    as (up0 & fw & b0 & t' & Hfwd & Hupfd & Hidle0 & Hfh & Hfp & (fw0 & Hfind) & Hb0 & Hfd & Hpend & Hclos & Hdep).
  exists st', (set_wait_usec wait_usec t'). split; [done|]. split; [done|]. intros rest nodes' status hash kind bits tb wire Hserve Hst Hhash Hans Hfit.
  rewrite serve_cons, read_work_runs by done. rewrite Hproc, En. cbv zeta. rewrite Hfwd. cbn [fst snd].
  assert (Hto : forwarder_to nd' (put_forwarder fw up0) = Some fw).
  { unfold forwarder_to. rewrite (na_host _ _ _ Hnd'), (na_port _ _ _ Hnd'), <- Hfh, <- Hfp. eapply find_put_forwarder. rewrite Hfh, Hfp. exact Hfind. }
  assert (Hsent : sent_to nd' (nd_up nd) = b0).
  { rewrite Hb0. unfold sent_to, forwarder_to, sent_on. by rewrite (na_host _ _ _ Hnd'), (na_port _ _ _ Hnd'). }
  rewrite Hto, Hsent, Hfd. cbn [sk_sent open_sink]. rewrite drop_app_length.
  destruct (work_frame_cons (next_work work next hc1) toks hc1 route) as (c0 & frame & Eframe). rewrite Eframe in Hserve. rewrite Eframe. rewrite Hserve.
  rewrite <- (app_nil_r (answer_frame _ _ _ _ _ _ _)).
  rewrite (relay_step_answer wait_usec fw (put_forwarder fw up0) b (mkPending (request_of work) t') [] status (request_of work));
    [|exact Hpend|done|done|by apply request_range|done|done|done|by cbn [put_forwarder up_fd]; rewrite Hupfd].
  unfold put_forwarder, set_up_fd. cbn [up_fd up_forwarders pr_telemetry]. rewrite Nup, new_bytes_app.
  eexists. split; [|split; [|reflexivity]]; [|done]. constructor; try done; cbn [nd_up up_fd up_forwarders]; [by eexists|].
  by apply relayed_idle; [|eexists| |].
Qed.

Lemma drop_hop {A} (l : list A) i x y r : drop i l = x :: y :: r -> l !! S i = Some y /\ drop (S i) l = y :: r.
Proof.
  intros H. split.
  - replace (S i) with (i + 1)%nat by lia. rewrite <- lookup_drop, H. done.
  - replace (S i) with (i + 1)%nat by lia. rewrite <- drop_drop, H. done.
Qed.

Lemma later_ext bits e T toks hc R hops : contiguous_route e hops -> 
  Forall (fun x => forall il, re_layer_start x <= il <= re_layer_end x -> (hop_slice bits e T toks hc R).1 il = R il) hops.
Proof.
  intros [He Hl]. induction Hl as [|x l Hx _ IH]; constructor; [|done]. intros il Hil. apply hop_slice_outside; lia.
Qed.

(** What is known of a hop and the ones behind it. *)
Lemma hop_facts m hops i e reset ack sid T toks hc route work st : accepted ctx cap m hops i e reset ack sid T toks hc route work st ->
  drop i hops = e :: drop (S i) hops /\ contiguous_route e (drop (S i) hops) /\ Forall (hop_ok DS4_N_LAYER) (drop (S i) hops).
Proof.
  intros Ha. pose proof (wf_hop _ _ _ _ _ _ _ (ac_for _ _ _ _ _ _ _ _ _ _ _ _ _ _ _ Ha)) as Hhop. pose proof (drop_S _ _ _ Hhop) as Ed.
  pose proof (ac_hops _ _ _ _ _ _ _ _ _ _ _ _ _ _ _ Ha) as Hops. destruct (ac_contiguous _ _ _ _ _ _ _ _ _ _ _ _ _ _ _ Ha) as [prev Hc].
  destruct (contiguous_drop hops prev i Hc) as [prev' Hcd]. rewrite Ed in Hcd.
  assert (Hd : Forall (hop_ok DS4_N_LAYER) (e :: drop (S i) hops)) by (rewrite <- Ed; by apply Forall_drop).
  split; [done|]. split; [|by inversion Hd]. split; [|by eapply later_start].
  pose proof (ho_range _ _ (Forall_lookup_1 _ _ _ _ Hops Hhop)). lia.
Qed.

Lemma pipeline_before bits e hs T toks hc R il : contiguous_route e hs -> Forall (hop_ok DS4_N_LAYER) hs -> il <= re_layer_end e ->
  (pipeline bits hs T toks hc R).1 il = R il.
Proof.
  intros [_ Hl] Ho Hil. apply pipeline_outside. revert Ho. induction Hl as [|x l Hx _ IH]; intros Ho; [constructor|].
  inversion Ho as [|? ? Hxo Ho']; subst. pose proof (ho_range _ _ Hxo). constructor; [lia|by apply IH].
Qed.

(** Telemetry that is complete and fits. *)
Lemma telemetry_fits (hs : list ds4_dist_route_entry) (tb : bytes) : zlen tb = TELEMETRY_BYTES * zlen hs -> zlen tb mod TELEMETRY_BYTES = 0.
Proof. intros ->. rewrite Z.mul_comm. by apply Z.mod_mul. Qed.

Lemma serve_runs wait_usec m hops reset ack sid T toks route :
  forall rest nd i e hc R work,
  accepted ctx cap m hops i e reset ack sid T toks hc route work (nd_state nd) ->
  Forall2 (node_at m) (drop i hops) (nd :: rest) ->
  Forall2 (fun e nd => starts_from reset sid e T R (nd_state nd)) (drop i hops) (nd :: rest) ->
  RESULT_BYTES + TELEMETRY_BYTES * zlen (drop i hops) + 4 * zlen hc <= UINT32_MAX ->
  RESULT_BYTES + TELEMETRY_BYTES * zlen (drop i hops) + 4 * DS4_N_VOCAB <= UINT32_MAX ->
  let bits := wk_input_hc_bits work in
  let hs := drop i hops in
  let '(R', hc') := pipeline bits hs T toks hc R in
  exists tb nodes',
    serve wait_usec (nd :: rest) (work_frame work toks hc route) =
      (answer_frame 0 (request_of work) (dist_token_hash_prefix (T ++ toks)) (route_kind ack hs) (answer_bits (route_kind ack hs) bits) tb
         (answer_wire (route_kind ack hs) bits (route_values ack hs toks hc')), nodes') /\
    zlen tb = TELEMETRY_BYTES * zlen hs /\ hc_ok (zlen toks) hc' /\
    Forall2 (node_at m) hs nodes' /\ Forall2 (fun e nd => session_in_step sid e (T ++ toks) R' (nd_state nd)) hs nodes'.
Proof.
  induction rest as [|nd' rest IH]; intros nd i e hc R work Ha Hn Hst Hfit Hfit2 bits hs; destruct (hop_facts _ _ _ _ _ _ _ _ _ _ _ _ _ Ha) as (Ehs & Hcr & Hoks);
    unfold hs; rewrite Ehs in *; inversion Hn as [|? ? ? ? Hnd Hnrest]; subst; inversion Hst as [|? ? ? ? Hst1 Hstrest]; subst; cbn [pipeline].
  - (* the last hop *)
    destruct Hnd as [Nh Np Ns (b & Nup) Nidle].
    pose proof (process_runs ctx cap m hops i e reset ack sid T toks hc route R work (nd_state nd) (nd_up nd) b Ha Hst1 Nidle Nup) as Hproc. cbv zeta in Hproc.
    fold bits in Hproc. destruct (hop_slice bits e T toks hc R) as [R1 hc1]. destruct Hproc as (st' & t & Hs' & Hin' & Hhc1 & Hproc).
    destruct Ha as [Hs Hfor Hnames Hz Hspan Hhc Hroute Hops Hcont Hnz Hok Hvoc].
    rewrite serve_cons, read_work_runs by done. fold bits. rewrite Hproc. cbv beta iota zeta.
    inversion Hnrest as [E|]. assert (En : hops !! S i = None).
    { apply lookup_ge_None. symmetry in E. apply (f_equal length) in E. rewrite length_drop in E. cbn in E. lia. }
    rewrite En. cbn [pipeline]. cbv zeta beta iota. unfold set_up_fd. cbn [up_fd]. rewrite Nup, new_bytes_app.
    exists (dist_telemetry_to_wire t). eexists. split; [|split; [|split; [|split]]].
    + unfold route_kind, route_values. cbn [route_logits]. reflexivity.
    + by rewrite zlen_telemetry.
    + done.
    + constructor; [|done]. constructor; try done. cbn. by eexists.
    + constructor; [|done]. done.
  - (* a hop with another behind it *)
    destruct (drop (S i) hops) as [|next hs'] eqn:Enext; [by inversion Hnrest|]. destruct (drop_hop _ _ _ _ _ Ehs) as [En _].
    pose proof (Forall2_starts_ext _ _ _ _ _ _ _ Hstrest (later_ext bits e T toks hc R _ Hcr)) as Hstrest1.
    inversion Hnrest as [|? ? ? ? Hnd' _]; subst.
    pose proof (serve_forwards wait_usec m hops i e next reset ack sid T toks hc route R work nd nd' Ha Hst1 Hnd Hnd' En) as Hfw. fold bits in Hfw.
    destruct (hop_slice bits e T toks hc R) as [R1 hc1]. cbn [fst] in Hstrest1. destruct Hfw as (st' & t & Hhc1 & Hin' & Hfw).
    pose proof (next_accepted m hops i e next reset ack sid T toks hc hc1 route work (nd_state nd) (nd_state nd') Ha En Hhc1 (na_serves _ _ _ Hnd')) as Hacc.
    assert (Hz1 : zlen hc1 = zlen hc) by (rewrite (proj1 Hhc1), (proj1 (ac_hc _ _ _ _ _ _ _ _ _ _ _ _ _ _ _ Ha)); done).
    rewrite zlen_cons in Hfit, Hfit2 |- *. change RESULT_BYTES with 40 in *. change TELEMETRY_BYTES with 40 in *.
    specialize (IH nd' (S i) next hc1 R1 (next_work work next hc1) Hacc). rewrite Enext in IH.
    specialize (IH Hnrest Hstrest1 ltac:(lia) ltac:(lia)). cbv zeta in IH. change (wk_input_hc_bits (next_work work next hc1)) with (dist_activation_bits_or_default bits) in IH.
    rewrite pipeline_default in IH. pose proof (fun il => pipeline_before bits e (next :: hs') T toks hc1 R1 il Hcr Hoks) as Hpo.
    destruct (pipeline bits (next :: hs') T toks hc1 R1) as [R' hc']. cbn [fst] in Hpo.
    destruct IH as (tb & nodes' & Hserve & Htb & Hhc' & Hn' & Hss'). rewrite answer_default in Hserve.
    set (kind := route_kind ack (next :: hs')) in *. set (vs := route_values ack (next :: hs') toks hc') in *.
    pose proof (ac_sizes _ _ _ _ _ _ _ _ _ _ _ _ _ _ _ Ha) as Hz. pose proof (wz_bits _ _ _ _ Hz) as Hb. fold bits in Hb.
    assert (Hvs : 40 + zlen tb + 40 + zlen (answer_wire kind bits vs) <= UINT32_MAX).
    { rewrite Htb. change TELEMETRY_BYTES with 40. pose proof (zlen_answer_wire kind bits vs Hb). unfold vs, route_values, answer_values in *.
      destruct ack; [change (zlen []) with 0 in *; pose proof (zlen_nonneg hc); lia|].
      destruct (route_logits (next :: hs')); [rewrite (proj1 (head_shape _)) in *; lia|]. rewrite (proj1 Hhc') in *. rewrite (proj1 Hhc1) in Hz1. lia. }
    destruct (Hfw rest nodes' 0 (dist_token_hash_prefix (T ++ toks)) kind (answer_bits kind bits) tb (answer_wire kind bits vs) Hserve) as (nd1 & Hnd1 & Est & Hs1).
    + done.
    + apply hash_prefix_range.
    + constructor; [|by apply answer_bits_range|by eapply telemetry_fits|change RESULT_BYTES with 40; lia].
      apply value_kind_range, answer_kind_ok.
    + change RESULT_BYTES with 40. change TELEMETRY_BYTES with 40. exact Hvs.
    + exists (tb ++ dist_telemetry_to_wire t), (nd1 :: nodes'). rewrite Hs1. split; [|split; [|split; [|split]]].
      * unfold kind, vs, route_kind, route_values. cbn [route_logits]. reflexivity.
      * rewrite zlen_app, zlen_telemetry, Htb. change TELEMETRY_BYTES with 40. lia.
      * done.
      * by constructor.
      * constructor; [|done]. rewrite Est. eapply session_in_step_ext; [exact Hin'|]. intros il Hil. apply Hpo. lia.
Qed.

(** ** A route with a machine that is not in step *)

(** In step, or holding something else. *)
Definition in_step_or_lost (sid : Z) (T : list Z) R (e : ds4_dist_route_entry) (nd : node) : Prop :=
  session_in_step sid e T R (nd_state nd) \/ known_hash sid (nd_state nd) <> dist_token_hash_prefix T.
Definition lost (sid : Z) (T : list Z) (nd : node) : Prop := known_hash sid (nd_state nd) <> dist_token_hash_prefix T.

(** The machine that refuses hears nothing from the ones behind it. *)
Lemma back_alone (nd : node) wait_usec (rest : list node) st up p :
  dist_worker_read_work (nd_state nd) (nd_up nd) p = (st, set_up_fd up (nd_up nd)) ->
  serve wait_usec (nd :: rest) p = (new_bytes (up_fd (nd_up nd)) up, mkNode (nd_host nd) (nd_port nd) st (set_up_fd up (nd_up nd)) :: rest).
Proof.
  intros Hr. rewrite serve_cons, Hr. cbv zeta. destruct rest as [|next rest]; [done|].
  change (forwarder_to next (set_up_fd up (nd_up nd))) with (forwarder_to next (nd_up nd)). unfold sent_to.
  destruct (forwarder_to next (nd_up nd)) as [fw|]; [|done]. by rewrite drop_all.
Qed.

Lemma serve_refuses wait_usec m hops ack sid T toks route :
  forall rest nd i e hc R work,
  accepted ctx cap m hops i e false ack sid T toks hc route work (nd_state nd) ->
  Forall2 (node_at m) (drop i hops) (nd :: rest) ->
  Forall2 (in_step_or_lost sid T R) (drop i hops) (nd :: rest) -> Exists (lost sid T) (nd :: rest) ->
  RESULT_BYTES + TELEMETRY_BYTES * zlen (drop i hops) + zlen mismatch <= UINT32_MAX ->
  exists tb nodes',
    serve wait_usec (nd :: rest) (work_frame work toks hc route) = (answer_frame 1 (request_of work) 0 0 0 tb mismatch, nodes') /\
    zlen tb mod TELEMETRY_BYTES = 0 /\ zlen tb + TELEMETRY_BYTES <= TELEMETRY_BYTES * zlen (drop i hops) /\
    Forall2 (node_at m) (drop i hops) nodes'.
Proof.
  induction rest as [|nd' rest IH]; intros nd i e hc R work Ha Hn Hst Hex Hfit;
    destruct (hop_facts _ _ _ _ _ _ _ _ _ _ _ _ _ Ha) as (Ehs & Hcr & _); rewrite Ehs in *;
    inversion Hn as [|? ? ? ? Hnd Hnrest]; subst; inversion Hst as [|? ? ? ? Hst1 Hstrest]; subst.
  all: destruct (Z.eq_dec (known_hash sid (nd_state nd)) (dist_token_hash_prefix T)) as [Heq|Hne].
  2, 4: (* it is the one that refuses *)
    destruct Hnd as [Nh Np Ns (b & Nup) Nidle];
    destruct (process_refuses ctx cap m hops i e ack sid T toks hc route work (nd_state nd) (nd_up nd) b Ha Hne Nup) as (st' & Hs' & Hproc);
    exists []; eexists; split;
    [rewrite (back_alone nd wait_usec _ st' (open_sink (b ++ answer_frame 1 (request_of work) 0 0 0 [] mismatch)));
       [rewrite Nup, new_bytes_app; reflexivity|
        rewrite read_work_runs by apply Ha; by rewrite Hproc]|];
    split; [done|]; split; [rewrite zlen_cons; pose proof (zlen_nonneg (drop (S i) hops)); change (zlen []) with 0; change TELEMETRY_BYTES with 40; lia|];
    constructor; [|done]; constructor; try done; cbn; by eexists.
  - inversion Hex as [? ? Hl|? ? Hl]; subst; [done|inversion Hl].
  - inversion Hex as [? ? Hl|? ? Hl]; subst; [done|].
    destruct Hst1 as [Hst1|Hl1]; [|done].
    destruct (drop (S i) hops) as [|next hs'] eqn:Enext; [by inversion Hnrest|]. destruct (drop_hop _ _ _ _ _ Ehs) as [En _].
    inversion Hnrest as [|? ? ? ? Hnd' _]; subst.
    pose proof (later_ext (wk_input_hc_bits work) e T toks hc R _ Hcr) as Hle.
    pose proof (serve_forwards wait_usec m hops i e next false ack sid T toks hc route R work nd nd' Ha Hst1 Hnd Hnd' En) as Hfw.
    destruct (hop_slice (wk_input_hc_bits work) e T toks hc R) as [R1 hc1]. cbn [fst] in Hle. destruct Hfw as (st' & t & Hhc1 & Hin' & Hfw).
    assert (Hstrest1 : Forall2 (in_step_or_lost sid T R1) (next :: hs') (nd' :: rest)).
    { clear -Hstrest Hle HL HE HH. induction Hstrest as [|x y l l' Hx _ IH]; [constructor|]. inversion Hle as [|? ? Hx1 Hl]; subst.
      constructor; [|by apply IH]. destruct Hx as [Hx|Hx]; [left|by right]. by eapply session_in_step_ext. }
    pose proof (next_accepted m hops i e next false ack sid T toks hc hc1 route work (nd_state nd) (nd_state nd') Ha En Hhc1 (na_serves _ _ _ Hnd')) as Hacc.
    specialize (IH nd' (S i) next hc1 R1 (next_work work next hc1) Hacc). rewrite Enext in IH. rewrite zlen_cons in Hfit |- *.
    change RESULT_BYTES with 40 in *. change TELEMETRY_BYTES with 40 in *.
    destruct (IH Hnrest Hstrest1 Hl ltac:(lia)) as (tb & nodes' & Hserve & Htb & Hle2 & Hn').
    destruct (Hfw rest nodes' 1 0 0 0 tb mismatch Hserve) as (nd1 & Hnd1 & Est & Hs1); [done|done|..].
    + apply error_ok; [done|]. change RESULT_BYTES with 40. lia.
    + change RESULT_BYTES with 40. change TELEMETRY_BYTES with 40. lia.
    + exists (tb ++ dist_telemetry_to_wire t), (nd1 :: nodes'). rewrite Hs1. split; [done|]. rewrite zlen_app, zlen_telemetry. change TELEMETRY_BYTES with 40.
      split; [|split; [lia|by constructor]]. replace (zlen tb + 40) with (zlen tb + 1 * 40) by lia. by rewrite Z.mod_add.
Qed.
End cluster.
