(* ===== verification/DistSpanFacts.v ===== *)
(** * DistSpanFacts: a distributed span is a local one

    The coordinator and the machines of a route compute what one machine would, with
    the hidden state packed between them; at 32 bits, exactly what it would.  All of
    them stay in step, so that the next span may follow. *)

From S2P Require Import Prelude Ctype KvHeader Dist Slice DistActivation DistFrame DistWorker DistWorkerFacts DistClusterFacts DistSpan.

#[local] Set Default Proof Using "Type*".

Section span.
Context `{HG : Graph} `{HL : !GraphLaws} `{HE : !WorkerEnv}.
Variables ctx cap : Z.
Context `{HH : !Healthy ctx cap}.
Implicit Types (R : Z -> layer_cache).

(** ** What one machine computes *)

(** The hidden state of [toks] behind [T] through all layers, and its logits. *)
Definition whole_model (T toks : list Z) (R : Z -> layer_cache) : (Z -> layer_cache) * list Z :=
  let (R, hc) := slice_layers (Z.to_nat DS4_N_LAYER) 0 (zlen T) toks (graph_embed toks) R in
  (R, graph_output_head (last_hc (zlen toks) hc)).

(** The same with the first [local_end + 1] layers here and the rest on the hops. *)
Definition route_model (bits local_end : Z) (hops : list ds4_dist_route_entry) (T toks : list Z) (R : Z -> layer_cache)
  : (Z -> layer_cache) * list Z :=
  let (R, hc) := slice_layers (Z.to_nat (local_end + 1)) 0 (zlen T) toks (graph_embed toks) R in
  let (R, hc) := pipeline bits hops T toks hc R in
  (R, graph_output_head (last_hc (zlen toks) (if route_logits hops then hc else map (quant bits) hc))).

(** Where the hops end. *)
Fixpoint route_end (local_end : Z) (hops : list ds4_dist_route_entry) : Z :=
  match hops with
  | [] => local_end
  | e :: hops => route_end (re_layer_end e) hops
  end.

Lemma pipeline_32 hops T toks : forall local_end hc R,
  contiguous (Some local_end) hops -> Forall (hop_ok DS4_N_LAYER) hops -> -1 <= local_end ->
  pipeline 32 hops T toks hc R = slice_layers (Z.to_nat (route_end local_end hops - local_end)) (local_end + 1) (zlen T) toks hc R /\
  local_end <= route_end local_end hops.
Proof.
  induction hops as [|e hops IH]; intros local_end hc R Hc Ho Hl; cbn [pipeline route_end].
  { rewrite Z.sub_diag. split; [done|lia]. }
  destruct Hc as [Hs Hc]. inversion Ho as [|? ? He Ho']; subst. pose proof (ho_range _ _ He) as Hr. unfold hop_slice. rewrite quant_32.
  destruct (slice_layers _ (re_layer_start e) _ _ hc R) as [R1 hc1] eqn:E1. destruct (IH (re_layer_end e) hc1 R1 Hc Ho' ltac:(lia)) as [-> Hle].
  split; [|lia].
  replace (Z.to_nat (route_end (re_layer_end e) hops - local_end)) with
    (Z.to_nat (re_layer_end e - re_layer_start e + 1) + Z.to_nat (route_end (re_layer_end e) hops - re_layer_end e))%nat by lia.
  rewrite slice_layers_app, <- Hs, E1. f_equal. lia.
Qed.

(** Splitting the model over machines changes nothing at full width. *)
Lemma route_model_32 local_end hops T toks R :
  contiguous (Some local_end) hops -> Forall (hop_ok DS4_N_LAYER) hops -> 0 <= local_end -> route_end local_end hops = DS4_N_LAYER - 1 ->
  route_model 32 local_end hops T toks R = whole_model T toks R.
Proof.
  intros Hc Ho Hl He. unfold route_model, whole_model.
  replace (Z.to_nat DS4_N_LAYER) with (Z.to_nat (local_end + 1) + Z.to_nat (DS4_N_LAYER - 1 - local_end))%nat
    by (destruct (pipeline_32 hops T toks local_end [] R Hc Ho ltac:(lia)) as [_ Hle]; lia).
  rewrite slice_layers_app. destruct (slice_layers _ 0 _ _ _ R) as [R1 hc1].
  destruct (pipeline_32 hops T toks local_end hc1 R1 Hc Ho ltac:(lia)) as [-> _]. rewrite He.
  replace (0 + Z.of_nat (Z.to_nat (local_end + 1))) with (local_end + 1) by lia.
  destruct (slice_layers _ (local_end + 1) _ _ hc1 R1) as [R2 hc2]. rewrite quant_32. by destruct (route_logits hops).
Qed.

(** ** The cluster *)

(** The coordinator's side of a route, and the sizes that fit its frames. *)
Record plan_for (st : ds4_dist_coordinator_state) (e : ds4_engine) (plan : ds4_dist_route_plan) (hops : list ds4_dist_route_entry) : Prop := mkPlanFor {
  pf_local : cs_local_start st = 0;
  pf_end : 0 <= cs_local_end st;
  pf_model : in_u 32 (cs_model_id st);
  pf_bits : dist_activation_bits_valid (cs_activation_bits st) = true;
  pf_engine : engine_has e 0 (cs_local_end st);
  pf_head : route_logits hops = false -> en_output_head e = true;
  pf_hops : hops <> [];
  pf_entries : length (p_entry plan) = length hops;
  pf_first : exists first h, head (p_entry plan) = Some first /\ head hops = Some h /\ 0 <= re_fd first /\
    re_layer_start first = re_layer_start h /\ re_layer_end first = re_layer_end h /\ re_flags first = re_flags h;
  pf_last d d' : re_flags (List.last (p_entry plan) d) = re_flags (List.last hops d');
  pf_route : route_reads (p_blob plan) hops;
  pf_ok : Forall (hop_ok DS4_N_LAYER) hops;
  pf_contiguous : contiguous (Some (cs_local_end st)) hops;
  pf_small : zlen hops < 2 ^ 31
}.

Record frames_fit (hops : list ds4_dist_route_entry) (plan : ds4_dist_route_plan) (toks : list Z) : Prop := mkFramesFit {
  ff_work : WORK_BYTES + zlen toks * 4 + zlen toks * DS4_HC_DIM * 4 + zlen (p_blob plan) <= UINT32_MAX;
  ff_hidden : RESULT_BYTES + TELEMETRY_BYTES * zlen hops + 4 * (zlen toks * DS4_HC_DIM) <= UINT32_MAX;
  ff_logits : RESULT_BYTES + TELEMETRY_BYTES * zlen hops + 4 * DS4_N_VOCAB <= UINT32_MAX;
  ff_error : RESULT_BYTES + TELEMETRY_BYTES * zlen hops + zlen mismatch <= UINT32_MAX
}.

(** The machines, whatever their sessions hold. *)
Definition cluster_up (st : ds4_dist_coordinator_state) (hops : list ds4_dist_route_entry) (s : slice_session) (fd : sink) (nodes : list node) : Prop :=
  session_fits ctx cap s /\ (exists b, fd = open_sink b) /\ Forall2 (node_at ctx cap (cs_model_id st)) hops nodes.

(** All of them hold [T], and together the caches [R]. *)
Definition synced (st : ds4_dist_coordinator_state) (hops : list ds4_dist_route_entry) (sid : Z) (T : list Z) (R : Z -> layer_cache)
    (s : slice_session) (nodes : list node) : Prop :=
  in_step s 0 (cs_local_end st) T R /\ Forall2 (fun e nd => session_in_step sid e T R (nd_state nd)) hops nodes.

(** A span starts over, or follows what is there. *)
Definition span_from (reset : bool) (st : ds4_dist_coordinator_state) (hops : list ds4_dist_route_entry) (sid : Z) (T : list Z) (R : Z -> layer_cache)
    (s : slice_session) (nodes : list node) : Prop :=
  if reset then T = [] /\ R = gpu_clear else synced st hops sid T R s nodes.

(** ** The request of the coordinator *)

Lemma remote_flags (reset ack : bool) (h : ds4_dist_route_entry) n : hop_ok n h ->
  (let flags := DS4_DIST_WORK_F_INPUT_HC in
   let flags := if reset then Z.lor flags DS4_DIST_WORK_F_RESET_SESSION else flags in
   let flags := if ack then Z.lor flags DS4_DIST_WORK_F_ACK_ONLY else flags in
   if negb (Z.land (re_flags h) DS4_DIST_ROUTE_F_OUTPUT_LOGITS =? 0) then Z.lor flags DS4_DIST_WORK_F_OUTPUT_LOGITS else flags) =
  frame_flags reset ack (hop_logits h).
Proof. intros Hn. rewrite (hop_logits_flag _ _ Hn). by destruct (hop_logits h), reset, ack. Qed.

Lemma frame_flags_range reset ack out : in_u 32 (frame_flags reset ack out).
Proof. by destruct reset, ack, out. Qed.

Lemma valid_range bits : dist_activation_bits_valid bits = true -> in_u 32 bits.
Proof.
  intros H. destruct (valid_cases bits H) as [E|[E|E]]; unfold dist_activation_bits_or_default in E; destruct (Z.eqb_spec bits 0) as [->|]; try done; by subst.
Qed.

(** The first machine accepts the request. *)
Lemma first_accepted st e plan hops h nd first toks sid request_id reset ack T hc :
  plan_for st e plan hops -> frames_fit hops plan toks -> head (p_entry plan) = Some first -> head hops = Some h ->
  re_layer_start first = re_layer_start h -> re_layer_end first = re_layer_end h -> re_flags first = re_flags h ->
  span_fits ctx cap (zlen T) toks -> in_u 64 sid -> in_u 64 request_id -> hc_ok (zlen toks) hc ->
  node_at ctx cap (cs_model_id st) h nd ->
  accepted ctx cap (cs_model_id st) hops 0 h reset ack sid T toks hc (p_blob plan)
    (remote_work st plan first (zlen toks) (zlen T) sid request_id (dist_token_hash_prefix T) (dist_token_hash_prefix (T ++ toks)) reset ack
       (zlen hc * float_width (cs_activation_bits st))) (nd_state nd).
Proof.
  intros [P1 P2 P3 P4 P5 P6 P7 P8 P9 P9' P10 P11 P12 P13] [F1 F2 F3 _] Hf Hh E1 E2 E3 Hspan Hsid Hreq Hhc Hnd.
  destruct hops as [|h' hops]; [done|]. injection Hh as ->. inversion P11 as [|? ? Hhok _]; subst. pose proof (ho_range _ _ Hhok) as Hr. pose proof (ho_end _ _ Hhok) as He.
  pose proof n_layer_range as Hnl. pose proof n_vocab_range as Hnv. pose proof hc_dim_pos as Hdim. pose proof (float_width_pos _ P4) as Hvb.
  pose proof (zlen_nonneg T) as HzT. pose proof (zlen_nonnil _ (sp_some _ _ _ _ Hspan)) as Hzt. pose proof (zlen_nonneg (p_blob plan)) as Hzb. pose proof (zlen_nonneg hc) as Hzh.
  assert (Hctx : zlen T + zlen toks <= INT_MAX) by (destruct Hspan; lia). unfold INT_MAX in Hctx.
  rewrite <- (proj1 Hhc) in F1, F2. change WORK_BYTES with 80 in *. change RESULT_BYTES with 40 in *. change TELEMETRY_BYTES with 40 in *. unfold UINT32_MAX in *.
  pose proof (halves_back sid Hsid) as Hb1. pose proof (halves_back request_id Hreq) as Hb2.
  pose proof (halves_back _ (hash_prefix_range T)) as Hb3. pose proof (halves_back _ (hash_prefix_range (T ++ toks))) as Hb4.
  pose proof (halves_range sid) as [Hr1 Hr1']. pose proof (halves_range request_id) as [Hr2 Hr2'].
  pose proof (halves_range (dist_token_hash_prefix T)) as [Hr3 Hr3']. pose proof (halves_range (dist_token_hash_prefix (T ++ toks))) as [Hr4 Hr4'].
  unfold remote_work. destruct (dist_u64_to_halves sid) as [sh sl], (dist_u64_to_halves request_id) as [qh ql],
    (dist_u64_to_halves (dist_token_hash_prefix T)) as [ph pl], (dist_u64_to_halves (dist_token_hash_prefix (T ++ toks))) as [rh rl]. cbn [fst snd] in *.
  assert (Hlenp : zlen (p_entry plan) = zlen (h :: hops)) by (unfold zlen; by rewrite P8).
  assert (Htok : u32 (zlen toks * 4) = zlen toks * 4) by (apply wrap_small; unfold in_u; lia).
  pose proof (remote_flags reset ack h _ Hhok) as Hflags. cbv zeta in Hflags. rewrite E1, E2, E3, Hflags, Hlenp, Htok.
  constructor; try done.
  - by apply na_serves.
  - constructor; cbn [wk_input_hc_bits wk_n_tokens wk_token_bytes wk_input_hc_bytes wk_route_bytes]; try done;
      first [by apply (sp_some _ _ _ _ Hspan)|change WORK_BYTES with 80; unfold UINT32_MAX; lia].
  - by exists (Some (cs_local_end st)).
  - destruct P12 as [P12 _]. lia.
  - unfold work_ok, work_fields. cbn [wk_model_id wk_session_hi wk_session_lo wk_request_hi wk_request_lo
      wk_prefix_hash_hi wk_prefix_hash_lo wk_result_hash_hi wk_result_hash_lo wk_pos0 wk_n_tokens wk_layer_start wk_layer_end wk_flags wk_token_bytes
      wk_input_hc_bytes wk_input_hc_bits wk_route_count wk_route_index wk_route_bytes].
    pose proof (frame_flags_range reset ack (hop_logits h)). pose proof (valid_range _ P4). pose proof (zlen_nonneg (h :: hops)).
    repeat apply Forall_cons_2; try done; unfold in_u in *; nia.
  - change RESULT_BYTES with 40. change TELEMETRY_BYTES with 40. rewrite zlen_cons in F3. pose proof (zlen_nonneg hops). unfold UINT32_MAX. lia.
Qed.

(** ** The span *)

Lemma output_head_runs e s hc (toks : list Z) : en_cpu e = false -> en_output_head e = true -> toks <> [] ->
  exists s', ds4_session_eval_output_head_from_hc e s hc (zlen toks) = (SOk (graph_output_head (last_hc (zlen toks) hc)), s') /\
    ss_ctx_size s' = ss_ctx_size s /\ ss_prefill_cap s' = ss_prefill_cap s /\ ss_raw_cap s' = ss_raw_cap s /\
    ss_checkpoint s' = ss_checkpoint s /\ ss_checkpoint_valid s' = ss_checkpoint_valid s /\ ss_cache s' = ss_cache s.
Proof.
  intros Hc Ho Ht. unfold ds4_session_eval_output_head_from_hc. pose proof (zlen_nonnil _ Ht). rewrite (proj2 (Z.eqb_neq _ _)) by lia.
  rewrite Ho, Hc. cbn [negb]. pose proof (he_device (ss_device s)) as Hd. destruct (gpu_commands (ss_device s)) as [ok d]. cbn in Hd. subst ok.
  by eexists.
Qed.

(** The coordinator's own session before a span. *)
Definition coordinator_from (reset : bool) (st : ds4_dist_coordinator_state) (T : list Z) (R : Z -> layer_cache) (s : slice_session) : Prop :=
  if reset then T = [] /\ R = gpu_clear else in_step s 0 (cs_local_end st) T R.

Lemma coordinator_part (reset : bool) st hops sid T R s nodes : span_from reset st hops sid T R s nodes -> coordinator_from reset st T R s.
Proof. destruct reset; [done|]. by intros [? ?]. Qed.

Lemma prepared e st T R s (reset : bool) :
  engine_has e 0 (cs_local_end st) -> session_fits ctx cap s -> coordinator_from reset st T R s ->
  (if reset then if negb (zlen T =? 0) then None else Some DS4_DIST_TOKEN_HASH_INIT else dist_session_token_hash_prefix s (zlen T)) =
    Some (dist_token_hash_prefix T) /\
  exists s1, (if reset then ds4_session_layer_slice_reset e s else (None, s)) = (None, s1) /\ session_fits ctx cap s1 /\ in_step s1 0 (cs_local_end st) T R.
Proof.
  intros He Hs Hf. destruct reset; cbn [coordinator_from] in Hf.
  - destruct Hf as [-> ->]. split; [done|]. destruct (reset_runs ctx cap he_device e s 0 (cs_local_end st) He Hs) as (s1 & -> & H1 & H2). by exists s1.
  - rename Hf into Hi. split; [|by exists s]. unfold dist_session_token_hash_prefix. rewrite (is_tokens _ _ _ _ _ Hi), Z.ltb_irrefl. by rewrite take_zlen.
Qed.

Lemma later_hops st hops : contiguous (Some (cs_local_end st)) hops -> Forall (hop_ok DS4_N_LAYER) hops ->
  Forall (fun e => cs_local_end st < re_layer_start e /\ re_layer_start e <= re_layer_end e) hops.
Proof.
  intros Hc Ho. destruct hops as [|e hops]; [constructor|]. inversion Ho as [|? ? He Ho']; subst. pose proof (ho_range _ _ He).
  pose proof (later_start ctx cap _ _ _ Hc Ho) as Hl. destruct Hc as [Hs _]. constructor; [lia|].
  clear -Hl Hs H Ho'. induction Hl as [|x l Hx _ IH]; [constructor|]. inversion Ho' as [|? ? Hxo Ho'']; subst. pose proof (ho_range _ _ Hxo).
  constructor; [lia|by apply IH].
Qed.

Lemma span_starts (reset : bool) st hops sid T R s nodes R1 : Forall2 (node_at ctx cap (cs_model_id st)) hops nodes ->
  span_from reset st hops sid T R s nodes -> contiguous (Some (cs_local_end st)) hops -> Forall (hop_ok DS4_N_LAYER) hops ->
  (forall il, cs_local_end st < il -> R1 il = R il) ->
  Forall2 (fun e nd => starts_from reset sid e T R1 (nd_state nd)) hops nodes.
Proof.
  intros Hn Hf Hc Ho HR.
  pose proof (later_hops st hops Hc Ho) as Hstarts.
  assert (H0 : Forall2 (fun e nd => starts_from reset sid e T R (nd_state nd)) hops nodes).
  { destruct reset; cbn [span_from] in Hf; [|by destruct Hf]. destruct Hf as [-> ->]. clear -Hn. induction Hn; constructor; done. }
  apply (Forall2_starts_ext ctx cap _ _ _ R); [exact H0|]. clear -Hstarts HR. induction Hstarts as [|e l [He _] _ IH]; constructor; [|done]. intros il Hil. apply HR. lia.
Qed.

Lemma exchange_frame wait_usec nodes work toks hc route : exchange wait_usec nodes (work_frame work toks hc route) = serve wait_usec nodes (work_frame work toks hc route).
Proof.
  unfold exchange. destruct (work_frame work toks hc route) as [|c frame] eqn:E; [|done]. exfalso.
  apply (f_equal zlen) in E. unfold work_frame in E. cbv zeta in E. rewrite zlen_app, zlen_header in E. change (zlen []) with 0 in E.
  match type of E with _ + zlen ?l = 0 => pose proof (zlen_nonneg l) end. lia.
Qed.

(** What the coordinator makes of an answer. *)
Definition span_answer (debug : bool) (e : ds4_engine) (s : slice_session) (fd : sink) (nodes : list node) (n_tokens request_id expected hidden_bytes : Z)
    (answer : bytes) : span_result * slice_session * sink * list node :=
  match (dist_recv_result_alloc we_mem debug request_id answer).1 with
  | RecvTransport => (SpanFailed 1, s, fd, nodes)
  | RecvRemote _ => (SpanFailed 2, s, fd, nodes)
  | RecvResult kind result_hash payload =>
      if negb (result_hash =? expected) then (SpanFailed 1, s, fd, nodes)
      else if (kind =? DS4_DIST_RESULT_LOGITS) && (zlen payload =? u32 (DS4_N_VOCAB * 4)) then (SpanOk (bytes_floats payload), s, fd, nodes)
      else if (kind =? DS4_DIST_RESULT_HIDDEN_STATE) && (zlen payload =? hidden_bytes) then
        match ds4_session_eval_output_head_from_hc e s (bytes_floats payload) n_tokens with
        | (SOk logits, s) => (SpanOk logits, s, fd, nodes)
        | (SErr _, s) => (SpanFailed 1, s, fd, nodes)
        end
      else (SpanFailed 1, s, fd, nodes)
  end.

(** Its own slice, and the request it sends. *)
Lemma span_asks debug wait_usec st e s plan hops b nodes toks sid request_id (reset : bool) T R :
  plan_for st e plan hops -> frames_fit hops plan toks -> session_fits ctx cap s -> Forall2 (node_at ctx cap (cs_model_id st)) hops nodes ->
  coordinator_from reset st T R s -> span_fits ctx cap (zlen T) toks -> in_u 64 sid -> in_u 64 request_id ->
  let '(R1, hc1) := slice_layers (Z.to_nat (cs_local_end st + 1)) 0 (zlen T) toks (graph_embed toks) R in
  hc_ok (zlen toks) hc1 /\ (forall il, cs_local_end st < il -> R1 il = R il) /\
  exists s2 work b2 nd rest h hops',
    hops = h :: hops' /\ nodes = nd :: rest /\ session_fits ctx cap s2 /\ in_step s2 0 (cs_local_end st) (T ++ toks) R1 /\
    accepted ctx cap (cs_model_id st) hops 0 h reset false sid T toks hc1 (p_blob plan) work (nd_state nd) /\
    wk_input_hc_bits work = cs_activation_bits st /\ request_of work = request_id /\
    forall answer nodes', serve wait_usec nodes (work_frame work toks hc1 (p_blob plan)) = (answer, nodes') ->
      dist_coordinator_eval_span we_mem (list node) (exchange wait_usec) debug st e s plan (open_sink b) nodes toks (zlen T) sid request_id reset =
      span_answer debug e s2 (open_sink b2) nodes' (zlen toks) request_id (dist_token_hash_prefix (T ++ toks)) (zlen hc1 * 4) answer.
Proof.
  intros Hp Hff Hs Hn Hfrom Hspan Hsid Hreq. pose proof Hp as [P1 P2 P3 P4 P5 P6 P7 P8 (first & h & Hf & Hh & Hfd & E1 & E2 & E3) P9' P10 P11 P12 P13].
  destruct (prepared e st T R s reset P5 Hs Hfrom) as [Hhash (s1 & Hreset & Hs1 & Hi1)].
  pose proof hc_dim_pos as Hdim. pose proof (zlen_nonneg toks) as Hzt. pose proof (zlen_nonneg (p_blob plan)) as Hzb.
  pose proof Hff as [F1 _ _ _]. change WORK_BYTES with 80 in F1.
  assert (Ehb : u64 (u64 (zlen toks * DS4_HC_DIM) * 4) = zlen toks * DS4_HC_DIM * 4).
  { unfold u64, UINT32_MAX in *. rewrite !wrap_small; unfold in_u; [lia|nia|]. rewrite wrap_small; unfold in_u; nia. }
  assert (Hne : (zlen (p_entry plan) =? 0) = false).
  { apply Z.eqb_neq. unfold zlen. rewrite P8. destruct hops; [done|cbn; lia]. }
  pose proof (eval_slice_runs ctx cap he_device e s1 toks (zlen T) 0 (cs_local_end st) None true false T R P5 Hs1 Hspan Hi1 eq_refl) as Hev.
  cbv zeta in Hev. change (default (graph_embed toks) None) with (graph_embed toks) in Hev. rewrite Z.sub_0_r in Hev.
  pose proof (slice_layers_shape (Z.to_nat (cs_local_end st + 1)) 0 (zlen T) toks (graph_embed toks) R (embed_shape toks)) as Hsh.
  pose proof (slice_layers_outside (Z.to_nat (cs_local_end st + 1)) 0 (zlen T) toks (graph_embed toks) R) as Hout.
  destruct (slice_layers (Z.to_nat (cs_local_end st + 1)) 0 (zlen T) toks (graph_embed toks) R) as [R1 hc1] eqn:Eloc. cbn [snd fst] in Hsh, Hout.
  destruct Hev as (s2 & Hev & Hs2 & _ & Hi2); [done|done|done|].
  split; [done|]. split; [intros il Hil; apply Hout; lia|].
  destruct nodes as [|nd rest]; [inversion Hn; subst; done|]. destruct hops as [|h' hops]; [done|]. injection Hh as ->.
  inversion Hn as [|? ? ? ? Hnd _]; subst.
  pose proof (first_accepted st e plan (h :: hops) h nd first toks sid request_id reset false T hc1 Hp Hff Hf eq_refl E1 E2 E3 Hspan Hsid Hreq Hsh Hnd) as Hacc.
  set (work := remote_work _ _ _ _ _ _ _ _ _ _ _ _) in *.
  exists s2, work, (b ++ work_frame work toks hc1 (p_blob plan)), nd, rest, h, hops. split_and!; try done.
  { unfold request_of, work, remote_work, dist_u64_to_halves. cbn [wk_request_hi wk_request_lo]. apply (halves_back request_id Hreq). }
  intros answer nodes' Hserve.
  unfold dist_coordinator_eval_span. cbv zeta. rewrite Ehb. rewrite (proj2 (Z.ltb_ge _ _)) by (unfold UINT32_MAX in *; lia).
  rewrite Hhash, Hne, he_mem, Hreset. cbn [negb andb]. rewrite (bool_decide_eq_false_2 (is_Some None)) by (by intros [? ?]).
  unfold first_entry at 1. rewrite Hf, (proj2 (Z.ltb_ge _ _)) by done. rewrite P1, Hev. change (default [] (Some hc1)) with hc1. cbv beta iota.
  unfold dist_coordinator_eval_remote_on_fd, dist_coordinator_send_remote_work_on_fd, first_entry. rewrite Hf.
  rewrite <- (proj1 Hsh), wire_bytes_f32 by (rewrite ?(proj1 Hsh); (done || apply zlen_nonneg || (rewrite <- (proj1 Hsh) in *; unfold UINT32_MAX in *; lia) || nia)).
  rewrite <- hash_prefix_app. fold work.
  rewrite send_work_open by (apply he_mem || by apply (ac_sizes _ _ _ _ _ _ _ _ _ _ _ _ _ _ _ Hacc)). cbv beta iota. cbn [sk_sent open_sink].
  by rewrite drop_app_length, exchange_frame, Hserve.
Qed.

Lemma span_runs debug wait_usec st e s plan hops fd nodes toks sid request_id reset T R :
  plan_for st e plan hops -> frames_fit hops plan toks -> cluster_up st hops s fd nodes -> span_from reset st hops sid T R s nodes ->
  span_fits ctx cap (zlen T) toks -> in_u 64 sid -> in_u 64 request_id ->
  let '(R', logits) := route_model (cs_activation_bits st) (cs_local_end st) hops T toks R in
  exists s' fd' nodes',
    dist_coordinator_eval_span we_mem (list node) (exchange wait_usec) debug st e s plan fd nodes toks (zlen T) sid request_id reset =
      (SpanOk logits, s', fd', nodes') /\
    cluster_up st hops s' fd' nodes' /\ synced st hops sid (T ++ toks) R' s' nodes'.
Proof.
  intros Hp Hff (Hs & (b & ->) & Hn) Hfrom Hspan Hsid Hreq.
  pose proof (span_asks debug wait_usec st e s plan hops b nodes toks sid request_id reset T R Hp Hff Hs Hn (coordinator_part _ _ _ _ _ _ _ _ Hfrom) Hspan Hsid Hreq) as Hask.
  pose proof Hp as [P1 P2 P3 P4 P5 P6 P7 P8 P9 P9' P10 P11 P12 P13]. pose proof n_vocab_range as Hnv. pose proof hc_dim_pos as Hdim. pose proof (zlen_nonneg hops) as Hzh.
  pose proof Hff as [_ F2 F3 _]. unfold route_model.
  destruct (slice_layers (Z.to_nat (cs_local_end st + 1)) 0 (zlen T) toks (graph_embed toks) R) as [R1 hc1].
  destruct Hask as (Hsh & Hout & s2 & work & b2 & nd & rest & h & hops' & Eh & En & Hs2 & Hi2 & Hacc & Ebits & Ereq & Hask).
  pose proof (span_starts reset st hops sid T R s nodes R1 Hn Hfrom P12 P11 Hout) as Hst.
  rewrite <- (proj1 Hsh) in F2. rewrite En in Hn, Hst.
  pose proof (serve_runs ctx cap wait_usec (cs_model_id st) hops reset false sid T toks (p_blob plan) rest nd 0 h hc1 R1 work Hacc Hn Hst F2 F3) as Hserve.
  cbv zeta in Hserve. change (drop 0 hops) with hops in Hserve. rewrite Ebits, Ereq, <- En in Hserve.
  pose proof (pipeline_outside ctx cap (cs_activation_bits st) hops T toks hc1 R1) as Hpo.
  destruct (pipeline (cs_activation_bits st) hops T toks hc1 R1) as [R2 hc2]. cbn [fst] in Hpo.
  destruct Hserve as (tb & nodes' & Hserve & Htb & Hhc2 & Hn' & Hss').
  rewrite (Hask _ _ Hserve). unfold span_answer. change RESULT_BYTES with 40 in *. change TELEMETRY_BYTES with 40 in *.
  set (kind := route_kind false hops). set (vs := route_values false hops toks hc2).
  assert (Hkind : value_kind kind) by apply answer_kind_ok.
  assert (Hvs : Forall (in_u 32) vs) by (apply (answer_values_range ctx cap), Hhc2).
  assert (Hvz : 40 + 40 * zlen hops + zlen vs * 4 <= UINT32_MAX).
  { unfold vs, route_values, answer_values. destruct (route_logits _); [rewrite (proj1 (head_shape _)); lia|rewrite (proj1 Hhc2), <- (proj1 Hsh); lia]. }
  rewrite <- (app_nil_r (answer_frame _ _ _ _ _ _ _)), recv_answer;
    [|apply he_mem|done|done|done|done|apply hash_prefix_range|change TELEMETRY_BYTES with 40; rewrite Htb, Z.mul_comm; by apply Z.mod_mul|rewrite Htb; change RESULT_BYTES with 40; lia].
  cbn [fst]. rewrite Z.eqb_refl. cbn [negb]. rewrite zlen_floats, bytes_floats_back by (unfold received_values; destruct (kind =? DS4_DIST_RESULT_HIDDEN_STATE); [by apply quant_all_range|done]).
  assert (Hsync : in_step s2 0 (cs_local_end st) (T ++ toks) R2).
  { apply (in_step_ext ctx cap _ _ _ _ R1); [exact Hi2|]. intros il Hil. apply Hpo.
    pose proof (later_hops st hops P12 P11) as Hl. clear -Hl Hil. induction Hl as [|x l [Hx1 Hx2] _ IH]; constructor; [lia|done]. }
  unfold kind, vs, route_kind, route_values, answer_kind, answer_values, received_values in *. destruct (route_logits hops) eqn:Elog.
  - change (DS4_DIST_RESULT_LOGITS =? DS4_DIST_RESULT_HIDDEN_STATE) with false. change (DS4_DIST_RESULT_LOGITS =? DS4_DIST_RESULT_LOGITS) with true. cbv iota.
    rewrite (proj1 (head_shape _)). unfold u32. rewrite wrap_small by (unfold in_u; lia). rewrite Z.eqb_refl. cbn [andb].
    eexists _, _, _. split; [done|]. split; [|done]. split; [done|]. split; [by eexists|done].
  - change (DS4_DIST_RESULT_HIDDEN_STATE =? DS4_DIST_RESULT_LOGITS) with false. change (DS4_DIST_RESULT_HIDDEN_STATE =? DS4_DIST_RESULT_HIDDEN_STATE) with true. cbv iota. cbn [andb].
    rewrite zlen_map, (proj1 Hhc2), <- (proj1 Hsh), Z.eqb_refl.
    destruct (output_head_runs e s2 (map (quant (cs_activation_bits st)) hc2) toks (eh_gpu _ _ _ P5) (P6 eq_refl) (sp_some _ _ _ _ Hspan))
      as (s3 & -> & Q1 & Q2 & Q3 & Q4 & Q5 & Q6).
    eexists _, _, _. split; [done|]. split; [|split].
    + split; [|split; [by eexists|done]]. destruct Hs2. constructor; by rewrite ?Q1, ?Q2, ?Q3.
    + destruct Hsync. constructor; by rewrite ?Q4, ?Q5, ?Q6.
    + done.
Qed.

(** A machine that is not in step makes the span fail, and nothing else. *)
Lemma span_refused debug wait_usec st e s plan hops fd nodes toks sid request_id T R :
  plan_for st e plan hops -> frames_fit hops plan toks -> cluster_up st hops s fd nodes ->
  in_step s 0 (cs_local_end st) T R -> Forall2 (in_step_or_lost sid T R) hops nodes -> Exists (lost sid T) nodes ->
  span_fits ctx cap (zlen T) toks -> in_u 64 sid -> in_u 64 request_id ->
  exists s' fd' nodes',
    dist_coordinator_eval_span we_mem (list node) (exchange wait_usec) debug st e s plan fd nodes toks (zlen T) sid request_id false =
      (SpanFailed 2, s', fd', nodes') /\ cluster_up st hops s' fd' nodes'.
Proof.
  intros Hp Hff (Hs & (b & ->) & Hn) Hi Hst Hex Hspan Hsid Hreq.
  pose proof (span_asks debug wait_usec st e s plan hops b nodes toks sid request_id false T R Hp Hff Hs Hn Hi Hspan Hsid Hreq) as Hask.
  destruct (slice_layers (Z.to_nat (cs_local_end st + 1)) 0 (zlen T) toks (graph_embed toks) R) as [R1 hc1].
  destruct Hask as (Hsh & Hout & s2 & work & b2 & nd & rest & h & hops' & Eh & En & Hs2 & Hi2 & Hacc & Ebits & Ereq & Hask).
  assert (Hst1 : Forall2 (in_step_or_lost sid T R1) hops nodes).
  { pose proof (later_hops st hops (pf_contiguous _ _ _ _ Hp) (pf_ok _ _ _ _ Hp)) as Hl. clear -Hst Hl Hout HL HE HH.
    induction Hst as [|x y l l' Hx _ IH]; [constructor|]. inversion Hl as [|? ? [Hx1 Hx2] Hl']; subst.
    constructor; [|by apply IH]. destruct Hx as [Hx|Hx]; [left|by right]. apply (session_in_step_ext ctx cap _ _ _ R); [done|]. intros il Hil. apply Hout. lia. }
  rewrite En in Hn, Hst1, Hex. pose proof (ff_error _ _ _ Hff) as Hm.
  change RESULT_BYTES with 40 in *. change TELEMETRY_BYTES with 40 in *.
  destruct (serve_refuses ctx cap wait_usec (cs_model_id st) hops false sid T toks (p_blob plan) rest nd 0 h hc1 R1 work Hacc Hn Hst1 Hex Hm)
    as (tb & nodes' & Hserve & Htb & Hle & Hn').
  rewrite <- En, Ereq in Hserve. rewrite (Hask _ _ Hserve). unfold span_answer.
  destruct (recv_error we_mem debug request_id tb mismatch [] (fun n => he_mem n) Hreq Htb) as (text & Er).
  { change RESULT_BYTES with 40. change (drop 0 hops) with hops in Hle. change TELEMETRY_BYTES with 40 in Hle. lia. }
  rewrite app_nil_r in Er. rewrite Er. cbn [fst].
  eexists _, _, _. split; [done|]. split; [done|]. split; [by eexists|done].
Qed.
End span.
