(* ===== verification/DistPipe.v ===== *)
(** * DistPipe: the pipelined prefill (ds4_distributed.c)

    A long prompt goes down the route a chunk after another while the coordinator
    evaluates its own layers of the next: three threads share a ring of chunks to send,
    the connection to the first hop and the count of the answers.  A thread takes a step
    between two places where it locks, blocks or touches the connection; a wait on a
    condition ends when the condition holds, since each change of it is signalled.
    Which of the threads that can go on does so is [po_schedule].  What comes back for a
    request is there when it has been sent, and is read whenever the reader runs.
    Reports of progress, timings and the release of memory are left out. *)

From S2P Require Import Prelude Ctype KvHeader Dist Slice DistActivation DistFrame DistWorker DistSpan.

(** The environment and the options of the prefill, whether its two threads start, and
    how a run that begins with a request interleaves. *)
Record prefill_options := mkPrefillOptions {
  po_disable_pipeline : bool;
  po_disable_ack_only : bool;
  (** What [strtol] reads when the whole text is a number. *)
  po_send_depth : option Z;
  po_prefill_window : Z;
  (** [Some None] does not parse. *)
  po_env_window : option (option Z);
  po_start_reader : bool;
  po_start_sender : bool;
  po_schedule : Z -> nat -> nat
}.

Record ds4_dist_prefill_send_slot := mkSendSlot {
  sl_pos : Z; sl_n_tokens : Z; sl_hidden_bytes : Z; sl_request_id : Z; sl_prefix_hash : Z; sl_result_hash : Z;
  sl_reset_session : bool; sl_ack_only : bool; sl_hidden : list Z
}.

Definition slot_zero : ds4_dist_prefill_send_slot := mkSendSlot 0 0 0 0 0 0 false false [].
Definition set_hidden (hc : list Z) (sl : ds4_dist_prefill_send_slot) : ds4_dist_prefill_send_slot :=
  mkSendSlot (sl_pos sl) (sl_n_tokens sl) (sl_hidden_bytes sl) (sl_request_id sl) (sl_prefix_hash sl) (sl_result_hash sl)
    (sl_reset_session sl) (sl_ack_only sl) hc.

(** Where the sender is: before the queue, at the head slot, after sending it, before
    [shutdown], ended. *)
Inductive sender_pc := SWait | SSend | SSent (ok : bool) | SShut | SEnd.

Record ds4_dist_prefill_sender := mkSender {
  sn_pc : sender_pc; sn_slots : list ds4_dist_prefill_send_slot; sn_head : Z; sn_tail : Z; sn_queued : Z;
  sn_producer_done : bool; sn_stop : bool; sn_rc : Z
}.

(** Where the reader is: before an answer, before telling of it, before [shutdown], before
    telling of the failure, ended. *)
Inductive reader_pc := RRecv | RTell | RShut | RStop | REnd.

Record ds4_dist_prefill_result_reader := mkReader {
  rd_pc : reader_pc; rd_index : Z; rd_rc : Z; rd_completed : Z; rd_done : bool; rd_final_kind : Z; rd_final_payload : bytes
}.

(** Where the caller's thread is: at the top of the loop, before a slot, with one, before
    handing it over, after that; behind the loop, in the [shutdown] of a cancel, at the
    two joins, returning. *)
Inductive main_pc := MTop | MAcquire | MFill | MEnqueue | MNext | MLeave | MShut | MJoinSender | MJoinReader | MEnd.

Record prefill_main `{Graph} := mkMain {
  mn_pc : main_pc; mn_session : slice_session; mn_pos : Z; mn_submitted : Z; mn_prefix_hash : Z; mn_request_id : Z; mn_slot : Z; mn_rc : Z
}.
Arguments mkMain {H}.

(** The connection: what is written, what has come back unread, and whether either side
    has closed it. *)
Record prefill_line (net : Type) := mkLine { ln_fd : sink; ln_inbox : bytes; ln_closed : bool; ln_net : net }.
Arguments mkLine {net}.
Arguments ln_fd {net}.
Arguments ln_inbox {net}.
Arguments ln_closed {net}.
Arguments ln_net {net}.

Record prefill_pipe `{Graph} (net : Type) := mkPipe {
  pp_main : prefill_main; pp_sender : ds4_dist_prefill_sender; pp_reader : ds4_dist_prefill_result_reader; pp_line : prefill_line net
}.
Arguments mkPipe {H net}.
Arguments pp_main {H net}.
Arguments pp_sender {H net}.
Arguments pp_reader {H net}.
Arguments pp_line {H net}.

Definition DS4_DIST_RECV_REMOTE_ERROR : Z := 2.

(** [shutdown(fd, SHUT_RDWR)]: nothing more is sent; what has arrived can be read. *)
Definition shutdown {net} (l : prefill_line net) : prefill_line net :=
  mkLine (mkSink (sk_sent (ln_fd l)) (Some 0)) (ln_inbox l) true (ln_net l).

Section main_setters.
Context `{Graph}.
Definition main_to (pc : main_pc) (m : prefill_main) : prefill_main :=
  mkMain pc (mn_session m) (mn_pos m) (mn_submitted m) (mn_prefix_hash m) (mn_request_id m) (mn_slot m) (mn_rc m).
(** [rc = ...; break;] *)
Definition main_fails (m : prefill_main) : prefill_main :=
  mkMain MLeave (mn_session m) (mn_pos m) (mn_submitted m) (mn_prefix_hash m) (mn_request_id m) (mn_slot m) 1.
End main_setters.

Definition sender_to (pc : sender_pc) (s : ds4_dist_prefill_sender) : ds4_dist_prefill_sender :=
  mkSender pc (sn_slots s) (sn_head s) (sn_tail s) (sn_queued s) (sn_producer_done s) (sn_stop s) (sn_rc s).
Definition set_slots (slots : list ds4_dist_prefill_send_slot) (s : ds4_dist_prefill_sender) : ds4_dist_prefill_sender :=
  mkSender (sn_pc s) slots (sn_head s) (sn_tail s) (sn_queued s) (sn_producer_done s) (sn_stop s) (sn_rc s).
Definition slot_at (i : Z) (s : ds4_dist_prefill_sender) : ds4_dist_prefill_send_slot := default slot_zero (sn_slots s !! Z.to_nat i).
Definition put_slot (i : Z) (sl : ds4_dist_prefill_send_slot) (s : ds4_dist_prefill_sender) : ds4_dist_prefill_sender :=
  set_slots (<[Z.to_nat i := sl]> (sn_slots s)) s.
Definition slot_count (s : ds4_dist_prefill_sender) : Z := zlen (sn_slots s).

Definition reader_to (pc : reader_pc) (r : ds4_dist_prefill_result_reader) : ds4_dist_prefill_result_reader :=
  mkReader pc (rd_index r) (rd_rc r) (rd_completed r) (rd_done r) (rd_final_kind r) (rd_final_payload r).

(** The slot at the tail; [Some None]: the sender stopped; [None]: the call waits. *)
Definition dist_prefill_sender_acquire_slot (s : ds4_dist_prefill_sender) : option (option Z) :=
  if negb (sn_stop s) && (sn_queued s =? slot_count s) then None
  else if sn_stop s || negb (sn_rc s =? 0) then Some None
  else Some (Some (sn_tail s)).
(** [None]: the sender stopped. *)
Definition dist_prefill_sender_enqueue_slot (s : ds4_dist_prefill_sender) : option ds4_dist_prefill_sender :=
  if sn_stop s || negb (sn_rc s =? 0) then None
  else Some (mkSender (sn_pc s) (sn_slots s) (sn_head s) (u32 (sn_tail s + 1) mod slot_count s) (u32 (sn_queued s + 1))
               (sn_producer_done s) (sn_stop s) (sn_rc s)).
Definition dist_prefill_sender_finish (s : ds4_dist_prefill_sender) : ds4_dist_prefill_sender :=
  mkSender (sn_pc s) (sn_slots s) (sn_head s) (sn_tail s) (sn_queued s) true (sn_stop s) (sn_rc s).
(** The part of [dist_prefill_sender_cancel] under the lock. *)
Definition dist_prefill_sender_cancel (s : ds4_dist_prefill_sender) : ds4_dist_prefill_sender :=
  mkSender (sn_pc s) (sn_slots s) (sn_head s) (sn_tail s) (sn_queued s) true true (sn_rc s).
Definition dist_prefill_reader_signal_progress (completed : Z) (done : bool) (r : ds4_dist_prefill_result_reader)
  : ds4_dist_prefill_result_reader :=
  mkReader (rd_pc r) (rd_index r) (rd_rc r) (if rd_completed r <? completed then completed else rd_completed r) (done || rd_done r)
    (rd_final_kind r) (rd_final_payload r).

(** Whether there is room for another chunk; [None]: the call waits. *)
Definition dist_prefill_reader_wait_flow_window (r : ds4_dist_prefill_result_reader) (submitted window : Z) : option bool :=
  if window =? 0 then Some true
  else
    let has_room := submitted <? u32 (rd_completed r + window) in
    if rd_done r || has_room then Some (negb (rd_done r) && has_room) else None.

Definition dist_prefill_send_depth (po : prefill_options) (chunk_count : Z) : Z :=
  let depth := match po_send_depth po with
               | Some v => if (1 <=? v) && (v <=? 8) then v else 2
               | None => 2
               end in
  let depth := if negb (chunk_count =? 0) && (chunk_count <? depth) then chunk_count else depth in
  if depth =? 0 then 1 else depth.

Definition dist_coordinator_prefill_window (po : prefill_options) (plan : ds4_dist_route_plan) (chunk_count : Z) : option Z :=
  match (if po_prefill_window po =? 0 then default (Some 0) (po_env_window po) else Some (po_prefill_window po)) with
  | None => None
  | Some requested =>
      if 64 <? requested then None
      else
        let requested := if requested =? 0 then
                           let remote := zlen (p_entry plan) + 2 in
                           let remote := if remote <? 2 then 2 else remote in
                           if 8 <? remote then 8 else remote
                         else requested in
        let requested := if negb (chunk_count =? 0) && (chunk_count <? requested) then chunk_count else requested in
        Some (if requested =? 0 then 1 else requested)
  end.

(** [expected_hashes], a chunk at a time. *)
Fixpoint prefill_hashes (count : nat) (prompt : list Z) (span_end chunk_cap hash_pos hash : Z) : list Z :=
  match count with
  | O => []
  | S count =>
      let remaining := span_end - hash_pos in
      let chunk := if remaining <? chunk_cap then remaining else chunk_cap in
      let hash := dist_token_hash_update_span hash (take (Z.to_nat chunk) (drop (Z.to_nat hash_pos) prompt)) in
      hash :: prefill_hashes count prompt span_end chunk_cap (hash_pos + chunk) hash
  end.

Section pipe.
Context `{Graph}.
Variable mem : Z -> bool.
Variable net : Type.
Variable exchange : net -> bytes -> bytes * net.
Variable debug : bool.
Variable e : ds4_engine.
Variable po : prefill_options.

Abbreviation pipe := (prefill_pipe net).

Section call.
Variables (st : ds4_dist_coordinator_state) (plan : ds4_dist_route_plan) (prompt : list Z).
Variables (span_start n_tokens : Z) (reset_first_chunk : bool) (chunk_cap session_id first_request_id flow_window : Z).
Variable expected_hashes : list Z.

Definition chunk_count : Z := u32 (n_tokens + chunk_cap - 1) / chunk_cap.
Definition span_end : Z := span_start + n_tokens.
Definition chunk_at (pos : Z) : Z := let remaining := span_end - pos in if remaining <? chunk_cap then remaining else chunk_cap.
Definition prompt_span (pos n : Z) : list Z := take (Z.to_nat n) (drop (Z.to_nat pos) prompt).
Definition logits_bytes : Z := u32 (DS4_N_VOCAB * 4).
Definition hidden_bytes64 (chunk : Z) : Z := u64 (u64 (chunk * DS4_HC_DIM) * 4).

(** ** The caller's thread *)

(** Its own layers of the chunk at [pos]; [None]: a call failed. *)
Definition fill_chunk (s : slice_session) (pos : Z) : option (list Z) * slice_session :=
  let '(reset_failed, s) := if (pos =? span_start) && reset_first_chunk then ds4_session_layer_slice_reset e s else (None, s) in
  if bool_decide (is_Some reset_failed) then (None, s)
  else
    match ds4_session_eval_layer_slice e s (prompt_span pos (chunk_at pos)) pos (cs_local_start st) (cs_local_end st) None true false with
    | (SErr _, s) => (None, s)
    | (SOk (hidden, _), s) => (Some (default [] hidden), s)
    end.

Definition fill_slot (m : prefill_main) (hidden : list Z) : ds4_dist_prefill_send_slot :=
  let pos := mn_pos m in
  let chunk := chunk_at pos in
  mkSendSlot pos chunk (u32 (hidden_bytes64 chunk)) (mn_request_id m) (mn_prefix_hash m)
    (default 0 (expected_hashes !! Z.to_nat (mn_submitted m))) (reset_first_chunk && (pos =? span_start))
    (negb (po_disable_ack_only po) && (pos + chunk <? span_end)) hidden.

Definition main_step (p : pipe) : option pipe :=
  let m := pp_main p in let s := pp_sender p in let r := pp_reader p in let l := pp_line p in
  let go := fun m s l => Some (mkPipe m s r l) in
  match mn_pc m with
  | MTop =>
      if span_end <=? mn_pos m then go (main_to MLeave m) s l
      else
        match dist_prefill_reader_wait_flow_window r (mn_submitted m) flow_window with
        | None => None
        | Some false => go (main_fails m) s l
        | Some true => go (main_to MAcquire m) s l
        end
  | MAcquire =>
      match dist_prefill_sender_acquire_slot s with
      | None => None
      | Some None => go (main_fails m) s l
      | Some (Some slot) =>
          go (mkMain MFill (mn_session m) (mn_pos m) (mn_submitted m) (mn_prefix_hash m) (mn_request_id m) slot (mn_rc m)) s l
      end
  | MFill =>
      let (hidden, session) := fill_chunk (mn_session m) (mn_pos m) in
      let m := mkMain MEnqueue session (mn_pos m) (mn_submitted m) (mn_prefix_hash m) (mn_request_id m) (mn_slot m) (mn_rc m) in
      match hidden with
      | None => go (main_fails m) s l
      | Some hc => go m (put_slot (mn_slot m) (set_hidden hc (slot_at (mn_slot m) s)) s) l
      end
  | MEnqueue =>
      let s := put_slot (mn_slot m) (fill_slot m (sl_hidden (slot_at (mn_slot m) s))) s in
      match dist_prefill_sender_enqueue_slot s with
      | None => go (main_fails m) s l
      | Some s => go (main_to MNext m) s l
      end
  | MNext =>
      go (mkMain MTop (mn_session m) (mn_pos m + chunk_at (mn_pos m)) (u32 (mn_submitted m + 1)) (sl_result_hash (slot_at (mn_slot m) s))
            (u64 (mn_request_id m + 1)) (mn_slot m) (mn_rc m)) s l
  | MLeave =>
      if mn_rc m =? 0 then go (main_to MJoinSender m) (dist_prefill_sender_finish s) l
      else go (main_to MShut m) (dist_prefill_sender_cancel s) l
  | MShut => go (main_to MJoinSender m) s (shutdown l)
  | MJoinSender =>
      match sn_pc s with
      | SEnd =>
          let rc := if (mn_rc m =? 0) && negb (sn_rc s =? 0) then 1 else mn_rc m in
          go (mkMain MJoinReader (mn_session m) (mn_pos m) (mn_submitted m) (mn_prefix_hash m) (mn_request_id m) (mn_slot m) rc) s
             (if rc =? 0 then l else shutdown l)
      | _ => None
      end
  | MJoinReader =>
      match rd_pc r with
      | REnd => go (main_to MEnd m) s l
      | _ => None
      end
  | MEnd => None
  end.

(** ** [dist_prefill_sender_main] *)

(** The request for a slot, and what comes back for it. *)
Definition send_chunk (sl : ds4_dist_prefill_send_slot) (fd : sink) (n : net) : bool * bytes * sink * net :=
  let (ok, fd') := dist_coordinator_send_remote_work_on_fd mem st plan fd (prompt_span (sl_pos sl) (sl_n_tokens sl)) (sl_pos sl) session_id
                     (sl_request_id sl) (sl_prefix_hash sl) (sl_result_hash sl) (sl_reset_session sl) (sl_ack_only sl)
                     (sl_hidden sl) (sl_hidden_bytes sl) in
  let (answer, n) := exchange n (drop (length (sk_sent fd)) (sk_sent fd')) in
  (ok, answer, fd', n).

Definition sender_step (p : pipe) : option pipe :=
  let s := pp_sender p in let l := pp_line p in
  let go := fun s l => Some (mkPipe (pp_main p) s (pp_reader p) l) in
  match sn_pc s with
  | SWait =>
      if negb (sn_stop s) && (sn_queued s =? 0) && negb (sn_producer_done s) then None
      else if sn_stop s || ((sn_queued s =? 0) && sn_producer_done s) then go (sender_to SEnd s) l
      else go (sender_to SSend s) l
  | SSend =>
      (* a request that went out whole and has no answer: the machine hung up *)
      let '(ok, answer, fd, n) := send_chunk (slot_at (sn_head s) s) (ln_fd l) (ln_net l) in
      go (sender_to (SSent ok) s) (mkLine fd (ln_inbox l ++ answer) (ln_closed l || (ok && bool_decide (answer = []))) n)
  | SSent false =>
      go (mkSender SShut (sn_slots s) (sn_head s) (sn_tail s) (sn_queued s) (sn_producer_done s) true 1) l
  | SSent true =>
      go (mkSender SWait (sn_slots s) (u32 (sn_head s + 1) mod slot_count s) (sn_tail s) (u32 (sn_queued s - 1))
            (sn_producer_done s) (sn_stop s) (sn_rc s)) l
  | SShut => go (sender_to SEnd s) (shutdown l)
  | SEnd => None
  end.

(** ** [dist_prefill_result_reader_main] *)

(** The checks on the answer for chunk [i]: its kind and payload, or the code. *)
Definition accept_answer (i : Z) (received : result_received) : Z + Z * bytes :=
  match received with
  | RecvTransport => inl 1
  | RecvRemote _ => inl DS4_DIST_RECV_REMOTE_ERROR
  | RecvResult kind result_hash payload =>
      if negb (result_hash =? default 0 (expected_hashes !! Z.to_nat i)) then inl 1
      else
        let pos0 := u32 (i * chunk_cap) in
        let remaining := u32 (n_tokens - pos0) in
        let chunk := if remaining <? chunk_cap then remaining else chunk_cap in
        let hidden_bytes := hidden_bytes64 chunk in
        let final_chunk := i + 1 =? chunk_count in
        let valid_ack := negb final_chunk && (kind =? DS4_DIST_RESULT_ACK) && (zlen payload =? 0) in
        let valid_logits := (kind =? DS4_DIST_RESULT_LOGITS) && (zlen payload =? logits_bytes) in
        let allow_hidden := match p_entry plan with
                            | [] => false
                            | first :: _ => Z.land (re_flags (List.last (p_entry plan) first)) DS4_DIST_ROUTE_F_OUTPUT_LOGITS =? 0
                            end in
        let valid_hidden := allow_hidden && (hidden_bytes <=? UINT32_MAX) && (kind =? DS4_DIST_RESULT_HIDDEN_STATE) &&
                            (zlen payload =? u32 hidden_bytes) in
        if valid_ack || valid_logits || valid_hidden then inr (kind, payload) else inl 1
  end.

Definition reader_step (p : pipe) : option pipe :=
  let r := pp_reader p in let l := pp_line p in
  let go := fun r l => Some (mkPipe (pp_main p) (pp_sender p) r l) in
  match rd_pc r with
  | RRecv =>
      if bool_decide (ln_inbox l = []) && negb (ln_closed l) then None
      else
        let (received, inbox) := dist_recv_result_alloc mem debug (u64 (first_request_id + rd_index r)) (ln_inbox l) in
        let l := mkLine (ln_fd l) inbox (ln_closed l) (ln_net l) in
        match accept_answer (rd_index r) received with
        | inl rc => go (mkReader RShut (rd_index r) rc (rd_completed r) (rd_done r) (rd_final_kind r) (rd_final_payload r)) l
        | inr (kind, payload) =>
            let final_chunk := rd_index r + 1 =? chunk_count in
            go (mkReader RTell (rd_index r + 1) (rd_rc r) (rd_completed r) (rd_done r)
                  (if final_chunk then kind else rd_final_kind r) (if final_chunk then payload else rd_final_payload r)) l
        end
  | RTell =>
      let final_chunk := rd_index r =? chunk_count in
      go (dist_prefill_reader_signal_progress (rd_index r) final_chunk (reader_to (if final_chunk then REnd else RRecv) r)) l
  | RShut => go (reader_to RStop r) (shutdown l)
  | RStop => go (dist_prefill_reader_signal_progress (rd_index r) true (reader_to REnd r)) l
  | REnd => None
  end.

(** ** A run *)

Definition or_else {A} (x y : option A) : option A := match x with Some _ => x | None => y end.

(** A step of the thread [k] asks for, of another one if that is blocked. *)
Definition pipe_step (k : nat) (p : pipe) : option pipe :=
  match (k mod 3)%nat with
  | O => or_else (main_step p) (or_else (sender_step p) (reader_step p))
  | 1%nat => or_else (sender_step p) (or_else (reader_step p) (main_step p))
  | _ => or_else (reader_step p) (or_else (main_step p) (sender_step p))
  end.

Fixpoint pipe_run (fuel : nat) (p : pipe) : pipe :=
  match fuel with
  | O => p
  | S fuel =>
      match pipe_step (po_schedule po first_request_id fuel) p with
      | Some p => pipe_run fuel p
      | None => p
      end
  end.

(** A chunk takes the caller five steps, the sender three and the reader two. *)
Definition pipe_fuel : nat := Z.to_nat (10 * chunk_count + 12).

(** Behind the joins. *)
Definition prefill_result (p : pipe) : Z * option (list Z) * slice_session :=
  let s := mn_session (pp_main p) in
  let r := pp_reader p in
  match mn_pc (pp_main p) with
  | MEnd =>
      if negb (rd_rc r =? 0) then (rd_rc r, None, s)
      else if negb (mn_rc (pp_main p) =? 0) then (1, None, s)
      else if (rd_final_kind r =? DS4_DIST_RESULT_LOGITS) && (zlen (rd_final_payload r) =? logits_bytes) then
        (0, Some (bytes_floats (rd_final_payload r)), s)
      else if (rd_final_kind r =? DS4_DIST_RESULT_HIDDEN_STATE) && negb (zlen (rd_final_payload r) =? 0) then
        let last_pos := u32 ((chunk_count - 1) * chunk_cap) in
        match ds4_session_eval_output_head_from_hc e s (bytes_floats (rd_final_payload r)) (u32 (n_tokens - last_pos)) with
        | (SOk logits, s) => (0, Some logits, s)
        | (SErr _, s) => (1, None, s)
        end
      else (1, None, s)
  | _ => (1, None, s) (* the threads are stuck: no call returns here *)
  end.

Definition pipe_start (slots : Z) (s : slice_session) (fd : sink) (n : net) : pipe :=
  mkPipe (mkMain MTop s span_start 0 (dist_token_hash_prefix (take (Z.to_nat span_start) prompt)) first_request_id 0 0)
    (mkSender SWait (replicate (Z.to_nat slots) slot_zero) 0 0 0 false false 0)
    (mkReader RRecv 0 0 0 false 0 []) (mkLine fd [] false n).
End call.

(** 0 with the logits or the code, the requests used, and what the call changed. *)
Definition dist_coordinator_prefill_prompt_pipelined (st : ds4_dist_coordinator_state) (s : slice_session) (plan : ds4_dist_route_plan)
    (fd : sink) (n : net) (prompt : list Z) (span_start n_tokens : Z) (reset_first_chunk : bool) (chunk_cap session_id request_id : Z)
  : Z * option (list Z) * Z * slice_session * sink * net :=
  let failed := fun fd => (1, None, request_id, s, fd, n) in
  if (zlen prompt <? span_start) || (n_tokens =? 0) || (zlen prompt - span_start <? n_tokens) then failed fd
  else
    let count := chunk_count n_tokens chunk_cap in
    let max_hidden_bytes := hidden_bytes64 chunk_cap in
    if UINT32_MAX <? max_hidden_bytes then failed fd
    else
      match dist_coordinator_prefill_window po plan count with
      | None => failed fd
      | Some flow_window =>
          let slots := dist_prefill_send_depth po count in
          if negb (mem (slots * 56)) || negb (mem max_hidden_bytes) then failed fd
          else if negb (mem (count * 8)) then failed fd
          else if negb (po_start_reader po) then failed fd
          else if negb (po_start_sender po) then failed (mkSink (sk_sent fd) (Some 0))
          else
            let expected := prefill_hashes (Z.to_nat count) prompt (span_start + n_tokens) chunk_cap span_start
                              (dist_token_hash_prefix (take (Z.to_nat span_start) prompt)) in
            let p := pipe_run st plan prompt span_start n_tokens reset_first_chunk chunk_cap session_id request_id flow_window expected
                       (pipe_fuel n_tokens chunk_cap)
                       (pipe_start prompt span_start request_id slots s fd n) in
            let '(rc, logits, s) := prefill_result n_tokens chunk_cap p in
            (rc, logits, mn_request_id (pp_main p), s, ln_fd (pp_line p), ln_net (pp_line p))
      end.
End pipe.
