(* ===== verification/DistPipeFacts.v ===== *)
(** * DistPipeFacts: the threads of a pipelined prefill always finish, with the last answer

    Whatever the interleaving: the ring holds the chunks that are evaluated and not yet
    sent, the connection the answers that are not yet read, and one of the threads can go
    on until all have ended.  What the threads need of a chunk (that its evaluation, its
    request and its answer go well) is [chunk_steps]; the machines of a route have it. *)

From S2P Require Import Prelude Ctype KvHeader Dist Slice DistActivation DistFrame DistWorker DistWorkerFacts DistSpan DistClusterFacts DistSpanFacts DistPipe.

#[local] Set Default Proof Using "All".

Lemma mod_near a b d : 0 < d -> a < b < a + d -> a mod d <> b mod d.
Proof.
  intros Hd Hab E. pose proof (Z.div_mod a d ltac:(lia)). pose proof (Z.div_mod b d ltac:(lia)).
  assert (b - a = d * (b / d - a / d)) by lia. destruct (Z.lt_trichotomy (b / d - a / d) 0) as [|[E0|]]; [nia|rewrite E0 in *; lia|nia].
Qed.

Lemma mod_next a d : 0 < d -> d < 2 ^ 31 -> u32 (a mod d + 1) mod d = (a + 1) mod d.
Proof.
  intros Hd Hs. pose proof (Z.mod_pos_bound a d Hd). unfold u32. rewrite wrap_small by (unfold in_u; lia). by rewrite Z.add_mod_idemp_l by lia.
Qed.

Lemma u64_next a b : u64 (u64 (a + b) + 1) = u64 (a + (b + 1)).
Proof. unfold u64, wrap. rewrite Z.add_mod_idemp_l by done. f_equal. lia. Qed.

Section threads.
Context `{HG : Graph}.
Variables (mem : Z -> bool) (net : Type) (exchange : net -> bytes -> bytes * net) (debug : bool) (e : ds4_engine) (po : prefill_options).
Variables (st : ds4_dist_coordinator_state) (plan : ds4_dist_route_plan) (prompt : list Z).
Variables (span_start n_tokens : Z) (reset : bool) (cap sid req0 W : Z).
Variable expected : list Z.

(** What is known of chunk [i] of [N]: where it starts, the hash before it, its hidden
    state, the answer; the session and the machines before it. *)
Variable N : nat.
Variables (posn hash : nat -> Z) (hidden : nat -> list Z) (answer_of : nat -> Z * bytes).
Variables (local_at : nat -> slice_session -> Prop) (net_at : nat -> net -> Prop) (is_answer : nat -> bytes -> Prop).

Abbreviation Step_main := (main_step net e po st prompt span_start n_tokens reset cap W expected).
Abbreviation Step_sender := (sender_step mem net exchange st plan prompt sid).
Abbreviation Step_reader := (reader_step mem net debug plan n_tokens cap req0 expected).

Definition slot_of (i : nat) : ds4_dist_prefill_send_slot :=
  let pos := posn i in
  let chunk := chunk_at span_start n_tokens cap pos in
  mkSendSlot pos chunk (u32 (hidden_bytes64 chunk)) (u64 (req0 + Z.of_nat i)) (hash i) (hash (S i)) (reset && (pos =? span_start))
    (negb (po_disable_ack_only po) && (pos + chunk <? span_end span_start n_tokens)) (hidden i).

(** Each chunk goes well. *)
Record chunk_steps : Prop := mkChunkSteps {
  ck_start : posn 0 = span_start;
  ck_inside i : (i < N)%nat -> posn i < span_end span_start n_tokens;
  ck_next i : (i < N)%nat -> posn (S i) = posn i + chunk_at span_start n_tokens cap (posn i);
  ck_end : posn N = span_end span_start n_tokens;
  ck_expected i : (i < N)%nat -> expected !! i = Some (hash (S i));
  ck_fill i s : (i < N)%nat -> local_at i s ->
    exists s', fill_chunk e st prompt span_start n_tokens reset cap s (posn i) = (Some (hidden i), s') /\ local_at (S i) s';
  ck_send i b n : (i < N)%nat -> net_at i n ->
    exists b' a n', send_chunk mem net exchange st plan prompt sid (slot_of i) (open_sink b) n = (true, a, open_sink b', n') /\
      is_answer i a /\ net_at (S i) n';
  ck_recv i a q : (i < N)%nat -> is_answer i a ->
    a <> [] /\ exists received, dist_recv_result_alloc mem debug (u64 (req0 + Z.of_nat i)) (a ++ q) = (received, q) /\
      accept_answer plan n_tokens cap expected (Z.of_nat i) received = inr (answer_of i)
}.

Context (HC : chunk_steps) (HN : (0 < N)%nat) (HNmax : Z.of_nat N < 2 ^ 31) (Hcount : chunk_count n_tokens cap = Z.of_nat N).
Variable D : Z.
Context (HD : 1 <= D <= 8) (HW : 1 <= W <= 64) (Hreq0 : in_u 64 req0).

(** The answers for the [k] chunks from [i] on. *)
Fixpoint answers (k i : nat) (p : bytes) : Prop :=
  match k with
  | O => p = []
  | S k => exists a q, p = a ++ q /\ is_answer i a /\ answers k (S i) q
  end.

Lemma answers_snoc k : forall i p a, answers k i p -> is_answer (i + k) a -> answers (S k) i (p ++ a).
Proof.
  induction k as [|k IH]; intros i p a Hp Ha.
  - cbn in Hp. subst p. exists a, []. rewrite Nat.add_0_r in Ha. by rewrite app_nil_r.
  - destruct Hp as (a0 & q & -> & Ha0 & Hq). exists a0, (q ++ a). rewrite app_assoc. split_and!; [done|done|].
    apply (IH (S i)); [done|]. by replace (S i + k)%nat with (i + S k)%nat by lia.
Qed.

(** ** The invariant *)

(** The chunks the caller's thread has evaluated, and those it has handed over. *)
Definition evaluated (pc : main_pc) (s : nat) : nat := match pc with MEnqueue | MNext => S s | _ => s end.
Definition handed (pc : main_pc) (s : nat) : nat := match pc with MNext => S s | _ => s end.
Definition stage_ok (pc : main_pc) (s : nat) : Prop :=
  match pc with
  | MTop => (s <= N)%nat
  | MAcquire | MFill | MEnqueue | MNext => (s < N)%nat
  | MLeave | MJoinSender | MJoinReader | MEnd => s = N
  | MShut => False
  end.
Definition has_left (pc : main_pc) : bool := match pc with MJoinSender | MJoinReader | MEnd => true | _ => false end.

Record main_at (s : nat) (m : prefill_main) : Prop := mkMainAt {
  ma_rc : mn_rc m = 0;
  ma_pos : mn_pos m = posn s;
  ma_submitted : mn_submitted m = Z.of_nat s;
  ma_hash : mn_prefix_hash m = hash s;
  ma_request : mn_request_id m = u64 (req0 + Z.of_nat s);
  ma_local : local_at (evaluated (mn_pc m) s) (mn_session m);
  ma_stage : stage_ok (mn_pc m) s
}.

(** The ring with the chunks from [h] up to [t]. *)
Record ring_at (h t : nat) (sn : ds4_dist_prefill_sender) : Prop := mkRingAt {
  ra_count : slot_count sn = D;
  ra_order : (h <= t)%nat /\ Z.of_nat t <= Z.of_nat h + D;
  ra_head : sn_head sn = Z.of_nat h mod D;
  ra_tail : sn_tail sn = Z.of_nat t mod D;
  ra_queued : sn_queued sn = Z.of_nat t - Z.of_nat h;
  ra_slots k : (h <= k < t)%nat -> slot_at (Z.of_nat k mod D) sn = slot_of k;
  ra_going : sn_stop sn = false /\ sn_rc sn = 0
}.

(** The slot the caller's thread works on. *)
Definition slot_ready (s h : nat) (m : prefill_main) (sn : ds4_dist_prefill_sender) : Prop :=
  match mn_pc m with
  | MFill => mn_slot m = Z.of_nat s mod D /\ Z.of_nat s < Z.of_nat h + D
  | MEnqueue => mn_slot m = Z.of_nat s mod D /\ Z.of_nat s < Z.of_nat h + D /\ sl_hidden (slot_at (mn_slot m) sn) = hidden s
  | MNext => slot_at (mn_slot m) sn = slot_of s
  | _ => True
  end.

(** The requests the sender has sent. *)
Definition sent (pc : sender_pc) (h : nat) : nat := match pc with SSent _ => S h | _ => h end.
Definition sender_ok (pc : sender_pc) (h t : nat) (left : bool) : Prop :=
  match pc with
  | SWait => True
  | SSend | SSent true => (h < t)%nat
  | SEnd => left = true /\ h = N
  | SSent false | SShut => False
  end.

(** The reader with [i] answers. *)
Record reader_at (i : nat) (r : ds4_dist_prefill_result_reader) : Prop := mkReaderAt {
  ea_rc : rd_rc r = 0;
  ea_index : rd_index r = Z.of_nat i;
  ea_stage : match rd_pc r with
             | RRecv => (i < N)%nat /\ rd_completed r = Z.of_nat i /\ rd_done r = false
             | RTell => (0 < i <= N)%nat /\ rd_completed r = Z.of_nat i - 1 /\ rd_done r = false
             | REnd => i = N /\ rd_done r = true
             | RShut | RStop => False
             end;
  ea_final : i = N -> (rd_final_kind r, rd_final_payload r) = answer_of (N - 1)
}.

Record line_at (i j : nat) (l : prefill_line net) : Prop := mkLineAt {
  la_open : exists b, ln_fd l = open_sink b;
  la_closed : ln_closed l = false;
  la_net : net_at j (ln_net l);
  la_order : (i <= j)%nat;
  la_inbox : answers (j - i) i (ln_inbox l)
}.

Record pipe_at (s h i : nat) (p : prefill_pipe net) : Prop := mkPipeAt {
  pi_main : main_at s (pp_main p);
  pi_ring : ring_at h (handed (mn_pc (pp_main p)) s) (pp_sender p);
  pi_slot : slot_ready s h (pp_main p) (pp_sender p);
  pi_sender : sender_ok (sn_pc (pp_sender p)) h (handed (mn_pc (pp_main p)) s) (has_left (mn_pc (pp_main p)));
  pi_left : sn_producer_done (pp_sender p) = has_left (mn_pc (pp_main p));
  pi_joined : match mn_pc (pp_main p) with
              | MJoinReader => sn_pc (pp_sender p) = SEnd
              | MEnd => sn_pc (pp_sender p) = SEnd /\ rd_pc (pp_reader p) = REnd
              | _ => True
              end;
  pi_reader : reader_at i (pp_reader p);
  pi_line : line_at i (sent (sn_pc (pp_sender p)) h) (pp_line p)
}.

(** The steps that are left. *)
Definition main_left (pc : main_pc) (s : nat) : nat :=
  5 * (N - s) + match pc with MTop => 5 | MAcquire | MLeave => 4 | MFill | MShut | MJoinSender => 3 | MEnqueue | MJoinReader => 2 | MNext | MEnd => 1 end.
Definition sender_left (pc : sender_pc) (h : nat) : nat :=
  3 * (N - h) + match pc with SWait => 3 | SSend => 2 | SSent _ | SShut => 1 | SEnd => 0 end.
Definition reader_left (pc : reader_pc) (i : nat) : nat :=
  2 * (N - i) + match pc with RRecv => 2 | RTell => 3 | RShut | RStop => 1 | REnd => 0 end.
Definition steps_left (p : prefill_pipe net) (s h i : nat) : nat :=
  main_left (mn_pc (pp_main p)) s + sender_left (sn_pc (pp_sender p)) h + reader_left (rd_pc (pp_reader p)) i.

(** [p] goes on to a state that is as good, with fewer steps left. *)
Definition goes_on (p : prefill_pipe net) (left : nat) : Prop :=
  exists s h i, pipe_at s h i p /\ (steps_left p s h i < left)%nat.

Lemma slot_in_ring k : 0 <= Z.of_nat k mod D < D.
Proof. apply Z.mod_pos_bound. lia. Qed.

Lemma slot_put k sl sn : slot_count sn = D -> 0 <= k < D -> slot_at k (put_slot k sl sn) = sl.
Proof.
  intros Hc Hk. unfold slot_at, put_slot, set_slots. cbn [sn_slots]. unfold slot_count, zlen in Hc. rewrite list_lookup_insert_eq by lia. done.
Qed.

Lemma slot_put_other k j sl sn : 0 <= k -> 0 <= j -> k <> j -> slot_at j (put_slot k sl sn) = slot_at j sn.
Proof. intros Hk Hj Hne. unfold slot_at, put_slot, set_slots. cbn [sn_slots]. by rewrite list_lookup_insert_ne by lia. Qed.

(** Writing the slot behind the tail changes none that is queued. *)
Lemma ring_put h t sl sn : ring_at h t sn -> Z.of_nat t < Z.of_nat h + D -> ring_at h t (put_slot (Z.of_nat t mod D) sl sn).
Proof.
  intros [R1 [R2 R2'] R3 R4 R5 R6 R7] Hroom. constructor; try done.
  - unfold slot_count, put_slot, set_slots in *. cbn [sn_slots]. unfold zlen in *. by rewrite length_insert.
  - intros k Hk. rewrite slot_put_other; [by apply R6|apply slot_in_ring|apply slot_in_ring|]. apply not_eq_sym, mod_near; lia.
Qed.

(** ** The caller's thread *)

Lemma counts s h i p : pipe_at s h i p -> (i <= sent (sn_pc (pp_sender p)) h <= handed (mn_pc (pp_main p)) s)%nat.
Proof.
  intros [_ [_ [R2 _] _ _ _ _ _] _ Hsend _ _ _ [_ _ _ L4 _]]. split; [done|]. destruct (sn_pc (pp_sender p)) as [| |[]| |]; cbn in *; lia.
Qed.

Lemma inside_count s : posn s < span_end span_start n_tokens -> (s <= N)%nat -> (s < N)%nat.
Proof. intros Hp Hs. destruct (Nat.eq_dec s N) as [->|]; [|lia]. rewrite (ck_end HC) in Hp. lia. Qed.

Ltac on_main := cbn [pp_main pp_sender pp_reader pp_line mn_pc mn_session mn_pos mn_submitted mn_prefix_hash mn_request_id mn_slot mn_rc
  stage_ok handed evaluated has_left main_to main_fails] in *.
Ltac fewer := unfold steps_left, main_left; cbn; lia.

Lemma main_goes s h i p p' : pipe_at s h i p -> Step_main p = Some p' -> goes_on p' (steps_left p s h i).
Proof.
  intros Hp Hstep. pose proof (counts _ _ _ _ Hp) as Hc. destruct Hp as [[M1 M2 M3 M4 M5 M6 M7] Hring Hslot Hsend Hleft Hjoin Hread Hline].
  destruct p as [[pc ses pos sub ph rq sl rc] sn rd ln]. unfold main_step, slot_ready in *. on_main. subst. pose proof Hring as [R1 [R2 R2'] R3 R4 R5 R6 [R7 R8]].
  pose proof Hread as [E1 E2 E3 E4].
  destruct pc; on_main; try done.
  - (* top *)
    destruct (Z.leb_spec (span_end span_start n_tokens) (posn s)) as [Hpos|Hpos].
    + injection Hstep as <-. assert (s = N) by (destruct (decide (s = N)); [done|]; pose proof (ck_inside HC s); lia).
      exists s, h, i. split; [|fewer]. by constructor.
    + pose proof (inside_count s Hpos M7) as Hs. assert (rd_done rd = false) as Hd.
      { destruct (rd_pc rd); try done; try (by destruct E3 as (_ & _ & ?)). destruct E3 as [-> _]. lia. }
      unfold dist_prefill_reader_wait_flow_window in Hstep. rewrite Hd, (proj2 (Z.eqb_neq W 0)) in Hstep by lia. cbn [orb andb negb] in Hstep.
      destruct (_ <? _); [|done]. injection Hstep as <-. exists s, h, i. split; [|fewer]. by constructor.
  - (* a slot *)
    unfold dist_prefill_sender_acquire_slot in Hstep. rewrite R7, R8, R1, R5 in Hstep. cbn in Hstep. destruct (Z.eqb_spec (Z.of_nat s - Z.of_nat h) D) as [|Hroom]; [done|]. injection Hstep as <-.
    exists s, h, i. split; [|fewer]. constructor; try done. split; [done|]. lia.
  - (* its own layers *)
    destruct Hslot as [-> Hroom]. destruct (ck_fill HC s ses M7 M6) as (s' & Hf & Hl). rewrite Hf in Hstep. injection Hstep as <-.
    exists s, h, i. split; [|fewer]. constructor; try done; [by apply ring_put|].
    split; [done|]. split; [done|]. on_main. by rewrite slot_put by (done || apply slot_in_ring).
  - (* handing it over *)
    destruct Hslot as (-> & Hroom & Hhid). set (sl := fill_slot _ _ _ _ _ _ _ _) in Hstep.
    assert (Esl : sl = slot_of s).
    { unfold sl, fill_slot, slot_of. on_main. rewrite Hhid. rewrite Nat2Z.id, (ck_expected HC s M7). done. }
    clearbody sl. subst sl. pose proof (ring_put h s (slot_of s) sn Hring Hroom) as [P1 [P2 P2'] P3 P4 P5 P6 [P7 P8]].
    unfold dist_prefill_sender_enqueue_slot in Hstep. rewrite P7, P8 in Hstep. cbn [orb negb Z.eqb] in Hstep. injection Hstep as <-.
    exists s, h, i. split; [|fewer]. constructor; try done; on_main.
    + constructor; cbn [sn_head sn_tail sn_queued sn_stop sn_rc]; try done; [lia|..].
      * rewrite R4, P1, mod_next by lia. f_equal. lia.
      * rewrite R5. unfold u32. rewrite wrap_small by (unfold in_u; lia). lia.
      * intros k Hk. destruct (Nat.eq_dec k s) as [->|]; [|apply P6; lia]. apply (slot_put _ _ sn R1 (slot_in_ring s)).
    + unfold slot_ready. on_main. apply (slot_put _ _ sn R1 (slot_in_ring s)).
    + destruct (sn_pc sn) as [| |[]| |] eqn:Epc; cbn in Hsend |- *; rewrite ?Epc; cbn; try done; lia.
  - (* the next chunk *)
    injection Hstep as <-. exists (S s), h, i. split; [|unfold steps_left, main_left; cbn; lia]. constructor; try done; on_main. constructor; on_main; try done.
    + by rewrite (ck_next HC s M7).
    + unfold u32. rewrite wrap_small by (unfold in_u; lia). lia.
    + by rewrite Hslot.
    + rewrite u64_next. f_equal. lia.
  - (* behind the loop *)
    subst s. cbn in Hstep. injection Hstep as <-. exists N, h, i. split; [|fewer]. constructor; try done; on_main.
    destruct (sn_pc sn) as [| |[]| |] eqn:Epc; cbn in Hsend |- *; rewrite ?Epc; cbn; done || lia.
  - (* the sender has ended *)
    subst s. destruct (sn_pc sn) eqn:Epc; try done. rewrite R8 in Hstep. cbn in Hstep. injection Hstep as <-. exists N, h, i. split; [|fewer]. constructor; try done; on_main.
    all: by rewrite Epc.
  - (* the reader has ended *)
    subst s. destruct (rd_pc rd) eqn:Erd; try done. injection Hstep as <-. exists N, h, i. split; [|fewer]. constructor; try done.
Qed.

(** ** The sender and the reader *)

Lemma sender_goes s h i p p' : pipe_at s h i p -> Step_sender p = Some p' -> goes_on p' (steps_left p s h i).
Proof.
  intros [Hmain Hring Hslot Hsend Hleft Hjoin Hread Hline] Hstep. pose proof Hring as [R1 [R2 R2'] R3 R4 R5 R6 [R7 R8]]. pose proof (ma_stage _ _ Hmain) as Hst.
  destruct p as [m sn rd ln], sn as [pc slots hd tl qd pd sp rc]. unfold sender_step in Hstep. cbn [pp_main pp_sender pp_reader pp_line sn_pc sn_slots sn_head sn_tail sn_queued sn_producer_done sn_stop sn_rc] in *. subst.
  assert (Hbound : (handed (mn_pc m) s <= N)%nat) by (destruct (mn_pc m); cbn in *; lia || done).
  destruct pc as [| |[]| |]; cbn in Hsend; try done.
  - (* before the queue *)
    destruct (Z.eqb_spec (Z.of_nat (handed (mn_pc m) s) - Z.of_nat h) 0) as [E|E]; cbn [negb andb orb] in Hstep.
    + destruct (has_left (mn_pc m)) eqn:El; [|done]. injection Hstep as <-. exists s, h, i.
      split; [|unfold steps_left, sender_left; cbn; lia]. constructor; try done; cbn.
      * rewrite El. split; [done|]. destruct (mn_pc m); cbn in *; lia || done.
      * destruct (mn_pc m); try done; by destruct Hjoin.
    + injection Hstep as <-. exists s, h, i. split; [|unfold steps_left, sender_left; cbn; lia]. constructor; try done; cbn; [lia|].
      destruct (mn_pc m); try done; by destruct Hjoin.
  - (* at the head *)
    rewrite (R6 h ltac:(lia)) in Hstep. destruct Hline as [(b & L1) L2 L3 L4 L5]. destruct ln as [fd inbox closed n]. cbn [ln_fd ln_inbox ln_closed ln_net sent] in *. subst fd closed.
    destruct (ck_send HC h b n ltac:(lia) L3) as (b' & a & n' & Hs & Ha & Hn'). rewrite Hs in Hstep. cbv beta iota in Hstep.
    destruct (ck_recv HC h a [] ltac:(lia) Ha) as [Hne _]. rewrite bool_decide_eq_false_2 in Hstep by done. cbn [andb orb] in Hstep. injection Hstep as <-.
    exists s, h, i. split; [|unfold steps_left, sender_left; cbn; lia]. constructor; try done; cbn.
    { destruct (mn_pc m); try done; by destruct Hjoin. }
    constructor; cbn; [by eexists|done|done|lia|]. replace (S h - i)%nat with (S (h - i)) by lia. apply answers_snoc; [done|]. by replace (i + (h - i))%nat with h by lia.
  - (* after sending *)
    injection Hstep as <-. exists s, (S h), i. split; [|unfold steps_left, sender_left; cbn; lia]. constructor; try done; cbn.
    + constructor; cbn [sn_head sn_tail sn_queued sn_stop sn_rc]; try done; [lia| | |].
      * change (slot_count _) with (zlen slots) in *. rewrite R1, mod_next by lia. f_equal. lia.
      * unfold u32. rewrite wrap_small by (unfold in_u; lia). lia.
      * intros k Hk. apply R6. lia.
    + unfold slot_ready in *. cbn in *. destruct (mn_pc m); try done; [destruct Hslot as [? ?]; split; [done|lia]|destruct Hslot as (? & ? & ?); split_and!; [done|lia|done]].
    + destruct (mn_pc m); try done; by destruct Hjoin.
Qed.

Lemma reader_goes s h i p p' : pipe_at s h i p -> Step_reader p = Some p' -> goes_on p' (steps_left p s h i).
Proof.
  intros Hp Hstep. pose proof (counts _ _ _ _ Hp) as Hc. destruct Hp as [Hmain Hring Hslot Hsend Hleft Hjoin [E1 E2 E3 E4] Hline]. pose proof (ma_stage _ _ Hmain) as Hst.
  destruct p as [m sn rd ln], rd as [pc ix rc cp dn fk fp]. unfold reader_step in Hstep. cbn [pp_main pp_sender pp_reader pp_line rd_pc rd_index rd_rc rd_completed rd_done rd_final_kind rd_final_payload] in *. subst.
  assert (Hj : forall r, match mn_pc m with MJoinReader => sn_pc sn = SEnd | MEnd => sn_pc sn = SEnd /\ pc = REnd | _ => True end -> pc <> REnd ->
    match mn_pc m with MJoinReader => sn_pc sn = SEnd | MEnd => sn_pc sn = SEnd /\ r = REnd | _ => True end) by (intros r; destruct (mn_pc m); try done; by intros [_ ->]).
  destruct pc; try done.
  - (* an answer *)
    destruct E3 as (Hi & -> & ->). destruct Hline as [L1 L2 L3 L4 L5]. destruct ln as [fd inbox closed n]. cbn [ln_fd ln_inbox ln_closed ln_net] in *. subst closed.
    destruct (sent (sn_pc sn) h - i)%nat as [|k] eqn:Ek.
    { cbn in L5. subst inbox. done. }
    destruct L5 as (a & q & -> & Ha & Hq). destruct (ck_recv HC i a q Hi Ha) as (Hne & received & Hr & Hacc).
    rewrite bool_decide_eq_false_2 in Hstep by (by destruct a). cbn [andb] in Hstep. rewrite Hr, Hacc in Hstep. destruct (answer_of i) as [kind payload] eqn:Ea.
    injection Hstep as <-. exists s, h, (S i). split; [|unfold steps_left, reader_left; cbn; lia]. constructor; try done; cbn; [by apply Hj| |].
    + constructor; cbn; [done|lia|split; [lia|]; split; [lia|done]|]. intros <-. rewrite Hcount, (proj2 (Z.eqb_eq _ _)) by lia. rewrite <- Ea. f_equal. lia.
    + constructor; cbn; [done|done|done|lia|]. by replace (sent (sn_pc sn) h - S i)%nat with k by lia.
  - (* its progress *)
    destruct E3 as (Hi & -> & ->). rewrite Hcount in Hstep. injection Hstep as <-. exists s, h, i.
    assert (Hcp : (if Z.of_nat i - 1 <? Z.of_nat i then Z.of_nat i else Z.of_nat i - 1) = Z.of_nat i) by (destruct (Z.ltb_spec (Z.of_nat i - 1) (Z.of_nat i)); lia).
    destruct (Z.eqb_spec (Z.of_nat i) (Z.of_nat N)) as [E|E]; (split; [|unfold steps_left, reader_left; cbn; lia]); constructor; try done; cbn; try (by apply Hj); constructor; cbn; rewrite ?Hcp; try done;
      split; lia || done || split; done.
Qed.

(** ** No deadlock *)

Lemma main_blocked s h i p : pipe_at s h i p -> Step_main p = None ->
  match mn_pc (pp_main p) with
  | MTop => (i < s)%nat /\ (s < N)%nat
  | MAcquire => (h < s)%nat
  | MJoinSender => sn_pc (pp_sender p) <> SEnd
  | MJoinReader => rd_pc (pp_reader p) <> REnd
  | MEnd => True
  | _ => False
  end \/ rd_pc (pp_reader p) = RTell.
Proof.
  intros [[M1 M2 M3 M4 M5 M6 M7] Hring Hslot Hsend Hleft Hjoin [E1 E2 E3 E4] Hline] Hn.
  destruct p as [[pc ses pos sub ph rq sl rc] sn rd ln]. unfold main_step, slot_ready in *. on_main. subst. destruct Hring as [R1 [R2 R2'] R3 R4 R5 R6 [R7 R8]]. destruct pc; on_main; try done.
  - destruct (Z.leb_spec (span_end span_start n_tokens) (posn s)) as [|Hpos]; [done|]. pose proof (inside_count s Hpos M7) as Hs. unfold dist_prefill_reader_wait_flow_window in Hn. rewrite (proj2 (Z.eqb_neq W 0)) in Hn by lia. destruct (rd_done rd) eqn:Ed; [done|]. cbn [orb andb negb] in Hn.
    destruct (Z.ltb_spec (Z.of_nat s) (u32 (rd_completed rd + W))) as [|Hw]; [done|].
    destruct (rd_pc rd); try done; [|by right|by destruct E3]. destruct E3 as (Hi & Hc & _). left. split; [|done].
    unfold u32 in Hw. rewrite wrap_small in Hw by (unfold in_u; lia). lia.
  - unfold dist_prefill_sender_acquire_slot in Hn. rewrite R7, R8, R1, R5 in Hn. cbn in Hn. destruct (Z.eqb_spec (Z.of_nat s - Z.of_nat h) D); [left; lia|done].
  - destruct (fill_chunk _ _ _ _ _ _ _ _ _) as [[] ?]; done.
  - unfold dist_prefill_sender_enqueue_slot in Hn. cbn in Hn. by rewrite R7, R8 in Hn.
  - left. destruct (sn_pc sn); done.
  - left. destruct (rd_pc rd); done.
  - by left.
Qed.

Lemma sender_blocked s h i p : pipe_at s h i p -> Step_sender p = None ->
  sent (sn_pc (pp_sender p)) h = h /\ (sn_pc (pp_sender p) = SEnd \/ h = handed (mn_pc (pp_main p)) s /\ has_left (mn_pc (pp_main p)) = false).
Proof.
  intros [_ [R1 [R2 R2'] R3 R4 R5 R6 [R7 R8]] _ Hsend Hleft _ _ _] Hn. unfold sender_step in Hn. rewrite R7, R5, Hleft in Hn.
  destruct (sn_pc (pp_sender p)) as [| |[]| |] eqn:Epc; try done; [|by destruct (send_chunk _ _ _ _ _ _ _ _ _ _) as [[[? ?] ?] ?]|by split; [|left]].
  cbn [negb andb orb] in Hn. destruct (Z.eqb_spec (Z.of_nat (handed (mn_pc (pp_main p)) s) - Z.of_nat h) 0); [|done].
  split; [done|]. right. split; [lia|]. by destruct (has_left _).
Qed.

Lemma reader_blocked s h i p : pipe_at s h i p -> Step_reader p = None ->
  rd_pc (pp_reader p) = REnd \/ rd_pc (pp_reader p) = RRecv /\ (i < N)%nat /\ i = sent (sn_pc (pp_sender p)) h.
Proof.
  intros Hp Hn. pose proof (counts _ _ _ _ Hp) as Hc. destruct Hp as [_ _ _ _ _ _ [E1 E2 E3 E4] [L1 L2 L3 L4 L5]]. unfold reader_step in Hn.
  destruct (rd_pc (pp_reader p)) eqn:Epc; try done; [|by left]. right. destruct E3 as (Hi & _). split_and!; [done|done|]. rewrite L2, E2 in Hn. cbn [negb] in Hn. rewrite andb_true_r in Hn.
  destruct (sent (sn_pc (pp_sender p)) h - i)%nat as [|k] eqn:Ek; [lia|]. destruct L5 as (a & q & E & Ha & Hq). rewrite E in Hn.
  destruct (ck_recv HC i a q Hi Ha) as (Hne & received & Hr & Hacc). rewrite bool_decide_eq_false_2 in Hn by (by destruct a).
  rewrite Hr, Hacc in Hn. by destruct (answer_of i).
Qed.

Lemma no_deadlock s h i p : pipe_at s h i p -> Step_main p = None -> Step_sender p = None -> Step_reader p = None -> mn_pc (pp_main p) = MEnd.
Proof.
  intros Hp Hm Hs Hr. pose proof (counts _ _ _ _ Hp) as Hc. pose proof (ma_stage _ _ (pi_main _ _ _ _ Hp)) as Hst. pose proof (pi_joined _ _ _ _ Hp) as Hj. pose proof (pi_sender _ _ _ _ Hp) as Hso.
  apply (main_blocked _ _ _ _ Hp) in Hm. destruct (sender_blocked _ _ _ _ Hp Hs) as [Es Hs']. apply (reader_blocked _ _ _ _ Hp) in Hr. rewrite Es in *.
  destruct Hm as [Hm|Hm]; [|destruct Hr as [Hr|[Hr _]]; by rewrite Hr in Hm].
  destruct (mn_pc (pp_main p)) eqn:Epc; cbn [handed has_left stage_ok] in *; try done.
  - destruct Hs' as [Hs'|[-> _]]; [by rewrite Hs' in Hso; destruct Hso|]. destruct Hr as [Hr|(_ & _ & ->)]; [|lia].
    pose proof (ea_stage _ _ (pi_reader _ _ _ _ Hp)) as He. rewrite Hr in He. lia.
  - destruct Hs' as [Hs'|[-> _]]; [by rewrite Hs' in Hso; destruct Hso|lia].
  - by destruct Hs' as [Hs'|[_ Hs']].
  - rewrite Hj in Hso. destruct Hso as [_ ->]. destruct Hr as [Hr|(_ & ? & ->)]; [done|lia].
Qed.

(** ** The run *)

Abbreviation Step := (pipe_step mem net exchange debug e po st plan prompt span_start n_tokens reset cap sid req0 W expected).

Lemma step_goes k s h i p p' : pipe_at s h i p -> Step k p = Some p' -> goes_on p' (steps_left p s h i).
Proof.
  intros Hp Hs. pose proof (main_goes s h i p p' Hp) as H1. pose proof (sender_goes s h i p p' Hp) as H2. pose proof (reader_goes s h i p p' Hp) as H3.
  unfold pipe_step, or_else in Hs. destruct (Step_main p), (Step_sender p), (Step_reader p), (k mod 3)%nat as [|[]]; try discriminate; injection Hs as ->; auto.
Qed.

Lemma step_ends k s h i p : pipe_at s h i p -> Step k p = None -> mn_pc (pp_main p) = MEnd.
Proof.
  intros Hp Hs. apply (no_deadlock s h i p Hp); unfold pipe_step, or_else in Hs; destruct (Step_main p), (Step_sender p), (Step_reader p), (k mod 3)%nat as [|[]]; done.
Qed.

(** Every run comes to its end, whatever the schedule. *)
Lemma run_ends fuel : forall s h i p, pipe_at s h i p -> (steps_left p s h i < fuel)%nat ->
  let p' := pipe_run mem net exchange debug e po st plan prompt span_start n_tokens reset cap sid req0 W expected fuel p in
  mn_pc (pp_main p') = MEnd /\ exists s h i, pipe_at s h i p'.
Proof.
  induction fuel as [|fuel IH]; intros s h i p Hp Hf; [lia|]. cbn [pipe_run].
  destruct (Step (po_schedule po req0 fuel) p) as [p1|] eqn:Es.
  - destruct (step_goes _ _ _ _ _ _ Hp Es) as (s' & h' & i' & Hp' & Hl). apply (IH s' h' i'); [done|lia].
  - split; [by eapply step_ends|by exists s, h, i].
Qed.

(** What the joined threads leave: the last answer, the session and the machines behind
    the last chunk, the connection open. *)
Lemma run_result s n b : local_at 0 s -> net_at 0 n -> dist_token_hash_prefix (take (Z.to_nat span_start) prompt) = hash 0 ->
  let p := pipe_run mem net exchange debug e po st plan prompt span_start n_tokens reset cap sid req0 W expected (pipe_fuel n_tokens cap)
             (pipe_start net prompt span_start req0 D s (open_sink b) n) in
  mn_pc (pp_main p) = MEnd /\ mn_rc (pp_main p) = 0 /\ rd_rc (pp_reader p) = 0 /\ in_u 64 (mn_request_id (pp_main p)) /\
  (rd_final_kind (pp_reader p), rd_final_payload (pp_reader p)) = answer_of (N - 1) /\
  local_at N (mn_session (pp_main p)) /\ net_at N (ln_net (pp_line p)) /\ exists b', ln_fd (pp_line p) = open_sink b'.
Proof.
  intros Hl Hn Hh p.
  assert (H0 : pipe_at 0 0 0 (pipe_start net prompt span_start req0 D s (open_sink b) n)).
  { constructor; try done; cbn.
    - constructor; cbn; try done; [by rewrite (ck_start HC)|rewrite Z.add_0_r; symmetry; apply wrap_small; exact Hreq0|lia].
    - constructor; cbn; try done; [unfold slot_count, zlen; cbn; rewrite length_replicate; lia|lia|lia].
    - constructor; cbn; [done|done|split_and!; (done || lia)|lia].
    - constructor; cbn; [by eexists|done|done|lia|done]. }
  destruct (run_ends (pipe_fuel n_tokens cap) 0 0 0 _ H0) as (Hend & s1 & h1 & i1 & Hp1).
  { unfold pipe_fuel. rewrite Hcount. unfold steps_left, main_left, sender_left, reader_left. cbn. lia. }
  fold p in Hend, Hp1. split; [done|]. destruct Hp1 as [[M1 M2 M3 M4 M5 M6 M7] _ _ Hsend _ Hjoin [E1 E2 E3 E4] [L1 L2 L3 L4 L5]].
  rewrite Hend in *. destruct Hjoin as [Hj1 Hj2]. rewrite Hj1 in *. rewrite Hj2 in *. cbn in M6, M7, Hsend, L3. destruct Hsend as [_ ->]. destruct E3 as [-> _]. subst s1.
  split_and!; try done; [rewrite M5; apply u64_range|by apply E4].
Qed.
End threads.

(** * The chunks of a prompt *)

#[local] Set Default Proof Using "Type*".

(** A list in pieces of [n]. *)
Fixpoint pieces {A} (fuel : nat) (n : Z) (l : list A) : list (list A) :=
  match fuel, l with
  | O, _ | _, [] => []
  | S fuel, _ => let k := Z.to_nat (Z.min (zlen l) n) in take k l :: pieces fuel n (drop k l)
  end.

Definition chunks {A} (n : Z) (l : list A) : list (list A) := pieces (length l) n l.

Lemma pieces_fuel {A} n fuel : forall l : list A, 0 < n -> (length l <= fuel)%nat -> pieces fuel n l = chunks n l.
Proof.
  assert (H : 0 < n -> forall f1 f2 (l : list A), (length l <= f1)%nat -> (length l <= f2)%nat -> pieces f1 n l = pieces f2 n l).
  { intros Hn. induction f1 as [|f1 IH]; intros [|f2] [|x l] H1 H2; cbn in H1, H2; try done; try lia. cbn [pieces].
    f_equal. apply IH; rewrite length_drop; cbn [length]; unfold zlen; cbn [length]; lia. }
  intros l Hn Hl. by apply H.
Qed.

Lemma chunks_cons {A} n (l : list A) : 0 < n -> l <> [] -> chunks n l = take (Z.to_nat n) l :: chunks n (drop (Z.to_nat n) l).
Proof.
  intros Hn Hl. destruct l as [|x l]; [done|]. unfold chunks at 1. change (length (x :: l)) with (S (length l)). cbn [pieces]. set (l0 := x :: l).
  assert (Hk : take (Z.to_nat (Z.min (zlen l0) n)) l0 = take (Z.to_nat n) l0 /\ drop (Z.to_nat (Z.min (zlen l0) n)) l0 = drop (Z.to_nat n) l0).
  { unfold zlen. destruct (Z.le_ge_cases n (Z.of_nat (length l0))); [by rewrite Z.min_r by lia|]. rewrite Z.min_l, Nat2Z.id by lia.
    by rewrite !take_ge, !drop_ge by lia. }
  destruct Hk as [-> ->]. f_equal. apply pieces_fuel; [done|]. rewrite length_drop. unfold l0. cbn [length]. lia.
Qed.

Lemma chunks_lookup {A} n i : 0 < n -> forall l : list A,
  chunks n l !! i = if decide (i * Z.to_nat n < length l)%nat then Some (take (Z.to_nat n) (drop (i * Z.to_nat n) l)) else None.
Proof.
  intros Hn. induction i as [|i IH]; intros l; (destruct (decide (l = [])) as [->|Hl]; [by rewrite decide_False by (cbn; lia)|]); rewrite chunks_cons by done; cbn [lookup list_lookup].
  - rewrite decide_True; [done|]. destruct l; [done|cbn; lia].
  - rewrite IH, length_drop, drop_drop. destruct (decide _), (decide _); try lia; [|done]. do 3 f_equal.
Qed.

Lemma chunks_concat {A} n i : 0 < n -> forall l : list A, concat (take i (chunks n l)) = take (i * Z.to_nat n) l.
Proof.
  intros Hn. induction i as [|i IH]; intros l; [by rewrite take_0|]. destruct (decide (l = [])) as [->|Hl]; [by rewrite take_nil|].
  rewrite chunks_cons by done. cbn [take concat]. rewrite IH. replace (S i * Z.to_nat n)%nat with (Z.to_nat n + i * Z.to_nat n)%nat by lia.
  apply take_take_drop.
Qed.

Section local.
Context `{HG : Graph}.

(** One machine that evaluates [chunks] behind [T]: its caches and its last logits. *)
Fixpoint local_run (T : list Z) (chunks : list (list Z)) (R : Z -> layer_cache) (logits : list Z) : (Z -> layer_cache) * list Z :=
  match chunks with
  | [] => (R, logits)
  | c :: chunks => let (R, logits) := whole_model T c R in local_run (T ++ c) chunks R logits
  end.

Lemma local_run_logits T chunks R l l' : chunks <> [] -> local_run T chunks R l = local_run T chunks R l'.
Proof. destruct chunks as [|c chunks]; [done|]. cbn [local_run]. by destruct (whole_model T c R). Qed.

Lemma local_run_snoc T chunks c : forall R l, 
  local_run T (chunks ++ [c]) R l = whole_model (T ++ concat chunks) c (local_run T chunks R l).1.
Proof.
  revert T. induction chunks as [|c' chunks IH]; intros T R l; cbn [local_run app concat].
  - rewrite app_nil_r. cbn [fst]. by destruct (whole_model T c R).
  - destruct (whole_model T c' R) as [R1 l1]. by rewrite IH, app_assoc.
Qed.

(** One machine that evaluates [toks] from nothing, [n] at a time. *)
Definition local_replay (n : Z) (toks : list Z) : (Z -> layer_cache) * list Z :=
  local_run [] (chunks n toks) gpu_clear [].
End local.

(** A transcript that fits. *)
Record transcript_fits `{Graph} (ctx : Z) (T : list Z) : Prop := mkTranscriptFits {
  tf_max : ctx <= INT_MAX;
  tf_fits : zlen T <= ctx;
  tf_tokens : Forall (fun t => 0 <= t < DS4_N_VOCAB) T
}.

(** The options let the pipeline start: its threads do, and the window is in range. *)
Definition pipeline_starts (po : prefill_options) : Prop :=
  po_start_reader po = true /\ po_start_sender po = true /\
  match (if po_prefill_window po =? 0 then default (Some 0) (po_env_window po) else Some (po_prefill_window po)) with
  | Some requested => 0 <= requested <= 64
  | None => False
  end.

Lemma window_starts po plan count : pipeline_starts po -> 0 < count -> exists W, dist_coordinator_prefill_window po plan count = Some W /\ 1 <= W <= 64.
Proof.
  intros (_ & _ & Hw) Hc. unfold dist_coordinator_prefill_window. destruct (if _ =? _ then _ else _) as [r|]; [|done].
  rewrite (proj2 (Z.ltb_ge 64 r)) by lia. eexists. split; [done|].
  assert (H1 : 1 <= (if r =? 0 then if 8 <? (if zlen (p_entry plan) + 2 <? 2 then 2 else zlen (p_entry plan) + 2) then 8
     else if zlen (p_entry plan) + 2 <? 2 then 2 else zlen (p_entry plan) + 2 else r) <= 64).
  { destruct (Z.eqb_spec r 0); [|lia]. destruct (Z.ltb_spec (zlen (p_entry plan) + 2) 2); [done|].
    destruct (Z.ltb_spec 8 (zlen (p_entry plan) + 2)); lia. }
  set (w := if r =? 0 then _ else _) in *. clearbody w. destruct (negb (count =? 0) && (count <? w)) eqn:E.
  - apply andb_true_iff in E as [_ E]. apply Z.ltb_lt in E. rewrite (proj2 (Z.eqb_neq count 0)) by lia. lia.
  - rewrite (proj2 (Z.eqb_neq w 0)) by lia. lia.
Qed.

Lemma depth_range po count : 0 < count -> 1 <= dist_prefill_send_depth po count <= 8.
Proof.
  intros Hc. unfold dist_prefill_send_depth. rewrite (proj2 (Z.eqb_neq count 0)) by lia. cbn [negb andb].
  assert (H1 : 1 <= match po_send_depth po with Some v => if (1 <=? v) && (v <=? 8) then v else 2 | None => 2 end <= 8).
  { destruct (po_send_depth po) as [v|]; [|lia]. destruct (Z.leb_spec 1 v), (Z.leb_spec v 8); cbn; lia. }
  set (d := match po_send_depth po with Some _ => _ | None => _ end) in *. clearbody d. destruct (Z.ltb_spec count d).
  - rewrite (proj2 (Z.eqb_neq count 0)) by lia. lia.
  - rewrite (proj2 (Z.eqb_neq d 0)) by lia. lia.
Qed.

(** The prefill capacity of a session does not change. *)
Section caps.
Context `{HG : Graph}.
Variable e : ds4_engine.

Lemma reset_cap s : ss_prefill_cap (ds4_session_layer_slice_reset e s).2 = ss_prefill_cap s.
Proof. unfold ds4_session_layer_slice_reset. destruct (gpu_commands _) as [ok d]. by destruct (en_cpu e), ok. Qed.

Lemma commands_cap s toks what run : ss_prefill_cap (slice_commands e s toks what run).2 = ss_prefill_cap s.
Proof. unfold slice_commands. destruct (gpu_commands _) as [ok d], ok; [|done]. cbn [negb]. by destruct (run _). Qed.

Lemma eval_slice_cap s toks pos0 a b i o l : ss_prefill_cap (ds4_session_eval_layer_slice e s toks pos0 a b i o l).2 = ss_prefill_cap s.
Proof. unfold ds4_session_eval_layer_slice. repeat case_match; try done; apply commands_cap. Qed.

Lemma head_cap s hc k : ss_prefill_cap (ds4_session_eval_output_head_from_hc e s hc k).2 = ss_prefill_cap s.
Proof. unfold ds4_session_eval_output_head_from_hc. repeat case_match; done. Qed.
End caps.

(** * The chunks of a prompt on a route *)

Section route.
Context `{HG : Graph} `{HL : !GraphLaws} `{HE : !WorkerEnv}.
Variables ctx cap : Z.
Context `{HH : !Healthy ctx cap}.
Variables (wait_usec : Z) (debug : bool) (e : ds4_engine) (po : prefill_options).
Variables (st : ds4_dist_coordinator_state) (plan : ds4_dist_route_plan) (hops : list ds4_dist_route_entry).
(** [toks] behind [T], [n] at a time, from the caches [R0]. *)
Variables (T toks : list Z) (n : Z) (reset : bool) (sid req0 pcap : Z) (R0 : Z -> layer_cache).
Context (Hplan : plan_for st e plan hops) (Hend : route_end (cs_local_end st) hops = DS4_N_LAYER - 1) (Hbits : cs_activation_bits st = 32).
Context (Hframes : forall toks, zlen toks <= cap -> frames_fit hops plan toks).
Context (Hn : 0 < n <= cap) (Hfit : transcript_fits ctx (T ++ toks)) (Hlong : n < zlen toks) (Hsid : in_u 64 sid).

Abbreviation prompt := (T ++ toks).
Definition c_at (i : nat) : list Z := take (Z.to_nat n) (drop (i * Z.to_nat n) toks).
Definition upto (i : nat) : list Z := T ++ take (i * Z.to_nat n) toks.
Definition caches (i : nat) : Z -> layer_cache := (local_run T (take i (chunks n toks)) R0 []).1.
Definition n_chunks : nat := length (chunks n toks).

Lemma chunk_here i : (i < n_chunks)%nat -> chunks n toks !! i = Some (c_at i) /\ (i * Z.to_nat n < length toks)%nat.
Proof.
  intros Hi. apply lookup_lt_is_Some in Hi as [c Hc]. pose proof Hc as Hc'. rewrite chunks_lookup in Hc by lia.
  destruct (decide _); [|done]. injection Hc as <-. done.
Qed.

Lemma chunk_none i : (length toks <= i * Z.to_nat n)%nat -> (n_chunks <= i)%nat.
Proof. intros Hi. apply lookup_ge_None. rewrite chunks_lookup by lia. by rewrite decide_False by lia. Qed.

Lemma chunks_cover : (length toks <= n_chunks * Z.to_nat n)%nat.
Proof.
  pose proof (chunks_lookup n n_chunks (proj1 Hn) toks) as Hl. rewrite lookup_ge_None_2 in Hl by done. destruct (decide _); [done|lia].
Qed.

Lemma upto_S i : upto (S i) = upto i ++ c_at i.
Proof. unfold upto, c_at. rewrite <- app_assoc, take_take_drop. do 2 f_equal. lia. Qed.

Lemma upto_0 : upto 0 = T.
Proof. unfold upto. by rewrite take_0, app_nil_r. Qed.

Lemma upto_end : upto n_chunks = prompt.
Proof. unfold upto. by rewrite take_ge by apply chunks_cover. Qed.

Lemma run_S i : (i < n_chunks)%nat -> local_run T (take (S i) (chunks n toks)) R0 [] = whole_model (upto i) (c_at i) (caches i).
Proof.
  intros Hi. destruct (chunk_here i Hi) as [Hc _]. rewrite (take_S_r _ _ _ Hc), local_run_snoc, chunks_concat by lia. done.
Qed.

Lemma zlen_upto i : (i <= n_chunks)%nat -> zlen (upto i) = zlen T + Z.min (Z.of_nat i * n) (zlen toks).
Proof. intros Hi. unfold upto. rewrite zlen_app. f_equal. unfold zlen. rewrite length_take. lia. Qed.

Lemma zlen_c i : (i < n_chunks)%nat -> zlen (c_at i) = Z.min n (zlen toks - Z.of_nat i * n) /\ 0 < zlen (c_at i) /\ Z.of_nat i * n < zlen toks.
Proof.
  intros Hi. destruct (chunk_here i Hi) as [_ Hlt]. unfold c_at, zlen. rewrite length_take, length_drop. lia.
Qed.

Lemma span_bound : zlen T + zlen toks <= ctx /\ zlen T + zlen toks < 2 ^ 31.
Proof. pose proof (tf_max _ _ Hfit) as Hm. pose proof (tf_fits _ _ Hfit) as Hf. rewrite zlen_app in Hf. unfold INT_MAX in Hm. lia. Qed.

Lemma count_chunks : chunk_count (zlen toks) n = Z.of_nat n_chunks /\ (0 < n_chunks)%nat /\ Z.of_nat n_chunks < 2 ^ 31.
Proof.
  pose proof chunks_cover as Hc. pose proof span_bound as [_ Hb]. pose proof (zlen_nonneg T).
  assert (H0 : (0 < n_chunks)%nat) by (destruct n_chunks; [cbn in Hc; unfold zlen in Hlong; lia|lia]).
  destruct (zlen_c (n_chunks - 1) ltac:(lia)) as (_ & _ & Hl). assert (Hc' : zlen toks <= Z.of_nat n_chunks * n) by (unfold zlen; lia).
  replace (Z.of_nat (n_chunks - 1)) with (Z.of_nat n_chunks - 1) in Hl by lia.
  split; [|split; [done|nia]]. unfold chunk_count, u32. rewrite wrap_small by (unfold in_u; lia).
  symmetry. apply (Z.div_unique_pos _ _ _ (zlen toks + n - 1 - n * Z.of_nat n_chunks)); nia.
Qed.

(** Where the chunks are. *)
Lemma at_start i : (i <= n_chunks)%nat -> (zlen (upto i) =? zlen T) = (i =? 0)%nat.
Proof.
  intros Hi. rewrite zlen_upto by done. destruct i as [|i]; [rewrite Z.min_l by (pose proof (zlen_nonneg toks); lia); by rewrite Z.add_0_r, Z.eqb_refl|].
  apply Z.eqb_neq. pose proof (zlen_nonneg T). nia.
Qed.

Lemma chunk_size i : (i < n_chunks)%nat -> chunk_at (zlen T) (zlen toks) n (zlen (upto i)) = zlen (c_at i).
Proof.
  intros Hi. destruct (zlen_c i Hi) as (-> & _ & Hl). rewrite zlen_upto by lia. rewrite Z.min_l by lia. unfold chunk_at, span_end.
  replace (zlen T + zlen toks - (zlen T + Z.of_nat i * n)) with (zlen toks - Z.of_nat i * n) by lia.
  destruct (Z.ltb_spec (zlen toks - Z.of_nat i * n) n); lia.
Qed.

Lemma chunk_tokens i : (i < n_chunks)%nat -> prompt_span prompt (zlen (upto i)) (zlen (c_at i)) = c_at i.
Proof.
  intros Hi. destruct (zlen_c i Hi) as (_ & _ & Hl). rewrite zlen_upto by lia. rewrite Z.min_l by lia. unfold prompt_span.
  replace (Z.to_nat (zlen T + Z.of_nat i * n)) with (length T + i * Z.to_nat n)%nat by (unfold zlen; lia).
  rewrite <- drop_drop, drop_app_length. unfold zlen, c_at. rewrite Nat2Z.id, length_take. by rewrite <- take_take, (take_ge (drop _ _) (length _)) by lia.
Qed.

Lemma next_position i : zlen (upto (S i)) = zlen (upto i) + zlen (c_at i).
Proof. by rewrite upto_S, zlen_app. Qed.

Lemma chunk_fits i : (i < n_chunks)%nat -> span_fits ctx cap (zlen (upto i)) (c_at i).
Proof.
  intros Hi. destruct (zlen_c i Hi) as (Hz & Hz' & Hl). destruct Hfit as [H1 H2 H3]. rewrite zlen_app in H2.
  constructor; [done|apply zlen_nonneg| |rewrite zlen_upto by lia; lia|lia|].
  - intros E. rewrite E in Hz'. done.
  - apply Forall_take, Forall_drop. by apply Forall_app in H3 as [_ H3].
Qed.

Lemma expected_at i : (i < n_chunks)%nat ->
  prefill_hashes n_chunks prompt (span_end (zlen T) (zlen toks)) n (zlen T) (dist_token_hash_prefix T) !! i = Some (dist_token_hash_prefix (upto (S i))).
Proof.
  assert (H : forall k j i, (j + k = n_chunks)%nat -> (i < k)%nat ->
    prefill_hashes k prompt (span_end (zlen T) (zlen toks)) n (zlen (upto j)) (dist_token_hash_prefix (upto j)) !! i = Some (dist_token_hash_prefix (upto (S (j + i))))).
  { induction k as [|k IH]; intros j i' Hj Hi'; [lia|]. cbn [prefill_hashes].
    assert (Hlt : (j < n_chunks)%nat) by lia. pose proof (chunk_size j Hlt) as Hs. unfold chunk_at in Hs. rewrite Hs.
    pose proof (chunk_tokens j Hlt) as Ht. unfold prompt_span in Ht. rewrite Ht, <- hash_prefix_app, <- upto_S, <- next_position.
    destruct i' as [|i']; cbn [lookup list_lookup]; [by rewrite Nat.add_0_r|]. rewrite IH by lia. do 3 f_equal. lia. }
  intros Hi. pose proof (H n_chunks 0%nat i ltac:(lia) Hi) as H0. rewrite upto_0 in H0. exact H0.
Qed.

(** ** What is computed for a chunk *)

Definition here (i : nat) : (Z -> layer_cache) * list Z :=
  slice_layers (Z.to_nat (cs_local_end st + 1)) 0 (zlen (upto i)) (c_at i) (graph_embed (c_at i)) (caches i).
Definition beyond (i : nat) : (Z -> layer_cache) * list Z := pipeline 32 hops (upto i) (c_at i) (here i).2 (here i).1.

Lemma beyond_all i : (i < n_chunks)%nat -> (beyond i).1 = caches (S i) /\ (whole_model (upto i) (c_at i) (caches i)).2 = graph_output_head (last_hc (zlen (c_at i)) (beyond i).2).
Proof.
  intros Hi. unfold caches at 1. rewrite run_S by done. rewrite <- (route_model_32 ctx cap (cs_local_end st) hops) by (apply Hplan || done).
  unfold route_model, beyond, here. destruct (slice_layers _ _ _ _ _ _) as [R1 hc1]. cbn [fst snd]. destruct (pipeline _ _ _ _ _ _) as [R2 hc2]. cbn [fst snd].
  rewrite quant_32. by destruct (route_logits hops).
Qed.

Lemma here_shape i : hc_ok (zlen (c_at i)) (here i).2.
Proof. apply slice_layers_shape, embed_shape. Qed.

Lemma here_later i il : cs_local_end st < il -> (here i).1 il = caches i il.
Proof. intros Hil. apply slice_layers_outside. pose proof (pf_end _ _ _ _ Hplan). lia. Qed.

Lemma beyond_before i il : il <= cs_local_end st -> (beyond i).1 il = (here i).1 il.
Proof.
  intros Hil. apply (pipeline_outside ctx cap). pose proof (later_hops ctx cap st hops (pf_contiguous _ _ _ _ Hplan) (pf_ok _ _ _ _ Hplan)) as Hl.
  clear -Hl Hil. induction Hl as [|x l [? ?] _ IH]; constructor; [lia|done].
Qed.

(** ** The interface *)

Definition first_reset (i : nat) : bool := reset && (i =? 0)%nat.
Definition local_at (i : nat) (s : slice_session) : Prop :=
  session_fits ctx cap s /\ ss_prefill_cap s = pcap /\ coordinator_from (first_reset i) st (upto i) (caches i) s.
Definition net_at (i : nat) (nodes : list node) : Prop :=
  Forall2 (node_at ctx cap (cs_model_id st)) hops nodes /\
  Forall2 (fun h nd => starts_from (first_reset i) sid h (upto i) (caches i) (nd_state nd)) hops nodes.
Definition acked (i : nat) : bool := negb (po_disable_ack_only po) && (S i <? n_chunks)%nat.
Definition answer_kind_at (i : nat) : Z := route_kind (acked i) hops.
Definition answer_values_at (i : nat) : list Z := route_values (acked i) hops (c_at i) (beyond i).2.
Definition is_answer (i : nat) (a : bytes) : Prop := exists tb, zlen tb = TELEMETRY_BYTES * zlen hops /\
  a = answer_frame 0 (u64 (req0 + Z.of_nat i)) (dist_token_hash_prefix (upto (S i))) (answer_kind_at i) (answer_bits (answer_kind_at i) 32) tb
        (answer_wire (answer_kind_at i) 32 (answer_values_at i)).
Definition answer_of (i : nat) : Z * bytes := (answer_kind_at i, floats_bytes (answer_values_at i)).


Lemma fill_runs i s : (i < n_chunks)%nat -> local_at i s ->
  exists s', fill_chunk e st prompt (zlen T) (zlen toks) reset n s (zlen (upto i)) = (Some (here i).2, s') /\ local_at (S i) s'.
Proof.
  intros Hi (Hs & Hcap & Hfrom). pose proof Hplan as [P1 P2 P3 P4 P5 P6 P7 P8 P9 P9' P10 P11 P12 P13].
  destruct (prepared ctx cap e st (upto i) (caches i) s (first_reset i) P5 Hs Hfrom) as [_ (s1 & Hreset & Hs1 & Hi1)].
  assert (Hcap1 : ss_prefill_cap s1 = pcap).
  { rewrite <- Hcap. pose proof (reset_cap e s) as Hr. destruct (first_reset i); [by rewrite Hreset in Hr|by injection Hreset as <-]. }
  unfold fill_chunk. rewrite at_start, andb_comm by lia. fold (first_reset i). rewrite Hreset. cbv beta iota. rewrite bool_decide_eq_false_2 by (by intros [? ?]).
  rewrite chunk_size, chunk_tokens by done. rewrite P1.
  pose proof (eval_slice_runs ctx cap he_device e s1 (c_at i) (zlen (upto i)) 0 (cs_local_end st) None true false (upto i) (caches i) P5 Hs1 (chunk_fits i Hi) Hi1 eq_refl) as Hev.
  cbv zeta in Hev. change (default (graph_embed (c_at i)) None) with (graph_embed (c_at i)) in Hev. rewrite Z.sub_0_r in Hev. fold (here i) in Hev.
  pose proof (eval_slice_cap e s1 (c_at i) (zlen (upto i)) 0 (cs_local_end st) None true false) as Hcap2.
  pose proof (beyond_before i) as Hb. destruct (beyond_all i Hi) as [Hall _]. destruct (here i) as [R1 hc1] eqn:Eh. destruct Hev as (s2 & Hev & Hs2 & _ & Hi2); [done|done|done|].
  rewrite Hev in Hcap2 |- *. cbn [fst snd default] in *. exists s2. split; [done|]. split; [done|]. split; [by rewrite Hcap2|].
  unfold first_reset. cbn [Nat.eqb]. rewrite andb_false_r. cbn [coordinator_from]. rewrite upto_S.
  apply (in_step_ext ctx cap _ _ _ _ R1); [exact Hi2|]. intros il Hil. rewrite <- Hall. apply Hb. lia.
Qed.

Definition chunk_slot : nat -> ds4_dist_prefill_send_slot :=
  slot_of po (zlen T) (zlen toks) reset n req0 (fun i => zlen (upto i)) (fun i => dist_token_hash_prefix (upto i)) (fun i => (here i).2).

Lemma more_chunks i : (i < n_chunks)%nat -> (zlen (upto i) + zlen (c_at i) <? span_end (zlen T) (zlen toks)) = (S i <? n_chunks)%nat.
Proof.
  intros Hi. rewrite <- next_position, zlen_upto by lia. unfold span_end. pose proof chunks_cover as Hc. apply Bool.eq_true_iff_eq. rewrite Z.ltb_lt, Nat.ltb_lt.
  assert (Hz : zlen toks <= Z.of_nat n_chunks * n) by (unfold zlen; lia). split; intros Hlt.
  - destruct (decide (S i = n_chunks)) as [E|]; [|lia]. rewrite E in Hlt. lia.
  - destruct (zlen_c (S i) Hlt) as (_ & _ & Hl). lia.
Qed.

Lemma chunk_frames i : (i < n_chunks)%nat -> frames_fit hops plan (c_at i).
Proof. intros Hi. apply Hframes. apply (chunk_fits i Hi). Qed.

Lemma hidden_bytes i : (i < n_chunks)%nat -> hidden_bytes64 (zlen (c_at i)) = zlen (here i).2 * 4 /\ zlen (here i).2 * 4 <= UINT32_MAX.
Proof.
  intros Hi. rewrite (proj1 (here_shape i)). destruct (chunk_frames i Hi) as [F1 _ _ _]. pose proof hc_dim_pos. pose proof (zlen_nonneg (c_at i)). pose proof (zlen_nonneg (p_blob plan)).
  change WORK_BYTES with 80 in F1. unfold hidden_bytes64, u64, UINT32_MAX in *. rewrite !wrap_small; unfold in_u; [split; nia|nia|]. rewrite wrap_small; unfold in_u; nia.
Qed.

Lemma send_runs i b nodes : (i < n_chunks)%nat -> net_at i nodes ->
  exists b' a nodes', send_chunk we_mem (list node) (exchange wait_usec) st plan prompt sid (chunk_slot i) (open_sink b) nodes = (true, a, open_sink b', nodes') /\
    is_answer i a /\ net_at (S i) nodes'.
Proof.
  intros Hi [Hnodes Hfrom]. pose proof Hplan as [P1 P2 P3 P4 P5 P6 P7 P8 (first & h & Hf & Hh & Hfd & E1 & E2 & E3) P9' P10 P11 P12 P13].
  pose proof (chunk_frames i Hi) as Hff. destruct (hidden_bytes i Hi) as [Ehb Hhb]. pose proof (here_shape i) as Hsh.
  assert (exists hs, hops = h :: hs) as [hs Ehops] by (clear -Hh; destruct hops; [done|]; injection Hh as ->; by eexists).
  destruct nodes as [|nd rest]; [by rewrite Ehops in Hnodes; inversion Hnodes|].
  assert (Hnd : node_at ctx cap (cs_model_id st) h nd) by (rewrite Ehops in Hnodes; by inversion Hnodes).
  pose proof (first_accepted ctx cap st e plan hops h nd first (c_at i) sid (u64 (req0 + Z.of_nat i)) (first_reset i) (acked i) (upto i) (here i).2
    Hplan Hff Hf ltac:(by rewrite Ehops) E1 E2 E3 (chunk_fits i Hi) Hsid (u64_range _) Hsh Hnd) as Hacc.
  set (work := remote_work _ _ _ _ _ _ _ _ _ _ _ _) in Hacc.
  assert (Hsend : dist_coordinator_send_remote_work_on_fd we_mem st plan (open_sink b) (c_at i) (zlen (upto i)) sid (u64 (req0 + Z.of_nat i))
      (dist_token_hash_prefix (upto i)) (dist_token_hash_prefix (upto (S i))) (first_reset i) (acked i) (here i).2 (zlen (here i).2 * 4) =
    (true, open_sink (b ++ work_frame work (c_at i) (here i).2 (p_blob plan)))).
  { unfold dist_coordinator_send_remote_work_on_fd, first_entry. rewrite Hf, wire_bytes_f32 by (done || apply zlen_nonneg).
    rewrite upto_S. fold work. apply send_work_open; [apply he_mem|apply Hacc]. }
  assert (Hst : Forall2 (fun h nd => starts_from (first_reset i) sid h (upto i) (here i).1 (nd_state nd)) hops (nd :: rest)).
  { eapply (Forall2_starts_ext ctx cap); [exact Hfrom|]. refine (List.Forall_impl _ _ (later_hops ctx cap st hops P12 P11)).
    intros x [Hx _] il Hil. apply here_later. lia. }
  assert (Ebits : wk_input_hc_bits work = 32) by (unfold work, remote_work, dist_u64_to_halves; cbn; exact Hbits).
  assert (Ereq : request_of work = u64 (req0 + Z.of_nat i)).
  { unfold request_of, work, remote_work, dist_u64_to_halves. cbn [wk_request_hi wk_request_lo]. apply (halves_back _ (u64_range _)). }
  pose proof (serve_runs ctx cap wait_usec (cs_model_id st) hops (first_reset i) (acked i) sid (upto i) (c_at i) (p_blob plan) rest nd 0 h (here i).2 (here i).1 work Hacc Hnodes Hst) as Hserve.
  destruct Hff as [_ F2 F3 _]. rewrite <- (proj1 Hsh) in F2. specialize (Hserve F2 F3). cbv zeta in Hserve. change (drop 0 hops) with hops in Hserve. rewrite Ebits, Ereq in Hserve.
  fold (beyond i) in Hserve. destruct (beyond_all i Hi) as [Hall _]. unfold is_answer, answer_kind_at, answer_values_at, net_at. destruct (beyond i) as [R2 hc2] eqn:Eb. cbn [fst snd] in *.
  destruct Hserve as (tb & nodes' & Hserve & Htb & Hhc2 & Hn' & Hss').
  unfold send_chunk, chunk_slot, slot_of. cbn [sl_pos sl_n_tokens sl_request_id sl_prefix_hash sl_result_hash sl_reset_session sl_ack_only sl_hidden sl_hidden_bytes].
  rewrite chunk_size, chunk_tokens, at_start, more_chunks by (done || lia). fold (acked i). fold (first_reset i).
  rewrite Ehb. unfold u32. rewrite wrap_small by (unfold in_u, UINT32_MAX in *; pose proof (zlen_nonneg (here i).2); lia). rewrite Hsend. cbn [sk_sent open_sink].
  rewrite drop_app_length, (exchange_frame ctx cap), Hserve. eexists _, _, nodes'. split; [done|]. split; [exists tb; split; [done|]; by rewrite upto_S|].
  split; [done|]. unfold first_reset. cbn [Nat.eqb]. rewrite andb_false_r, upto_S, <- Hall. exact Hss'.
Qed.

Abbreviation hashes := (prefill_hashes n_chunks prompt (span_end (zlen T) (zlen toks)) n (zlen T) (dist_token_hash_prefix T)).

Lemma route_logits_last hs d : hs <> [] -> route_logits hs = hop_logits (List.last hs d).
Proof. induction hs as [|x hs IH]; [done|]. intros _. destruct hs as [|y hs]; [done|]. by apply IH. Qed.

Lemma take_zlen_prefix {A} (l k : list A) : take (Z.to_nat (zlen l)) (l ++ k) = l.
Proof. unfold zlen. rewrite Nat2Z.id. apply take_app_length. Qed.

Lemma last_Forall {A} (P : A -> Prop) l d : Forall P l -> l <> [] -> P (List.last l d).
Proof. induction 1 as [|x l Hx Hl IH]; [done|]. intros _. destruct l as [|y l]; [done|]. by apply IH. Qed.

Lemma beyond_shape i : hc_ok (zlen (c_at i)) (beyond i).2.
Proof.
  unfold beyond. pose proof Hplan as [P1 P2 P3 P4 P5 P6 P7 P8 P9 P9' P10 P11 P12 P13].
  destruct (pipeline_32 ctx cap hops (upto i) (c_at i) (cs_local_end st) (here i).2 (here i).1 P12 P11 ltac:(lia)) as [-> _].
  apply slice_layers_shape, here_shape.
Qed.

Lemma allows_hidden :
  match p_entry plan with
  | [] => false
  | first :: _ => Z.land (re_flags (List.last (p_entry plan) first)) DS4_DIST_ROUTE_F_OUTPUT_LOGITS =? 0
  end = negb (route_logits hops).
Proof.
  pose proof Hplan as [P1 P2 P3 P4 P5 P6 P7 P8 (first & h & Hf & Hh & _) P9' P10 P11 P12 P13]. destruct (p_entry plan) as [|x l] eqn:Ep; [done|]. rewrite <- Ep in *.
  rewrite (P9' x h), (route_logits_last hops h P7).
  assert (Hl : hop_ok DS4_N_LAYER (List.last hops h)).
  { by apply last_Forall. }
  by rewrite <- (hop_logits_flag _ _ Hl), negb_involutive.
Qed.

Lemma recv_runs i a q : (i < n_chunks)%nat -> is_answer i a ->
  a <> [] /\ exists received, dist_recv_result_alloc we_mem debug (u64 (req0 + Z.of_nat i)) (a ++ q) = (received, q) /\
    accept_answer plan (zlen toks) n hashes (Z.of_nat i) received = inr (answer_of i).
Proof.
  intros Hi (tb & Htb & ->). pose proof (chunk_frames i Hi) as [_ F2 F3 _]. pose proof n_vocab_range as Hnv. pose proof (zlen_nonneg hops) as Hzh.
  change RESULT_BYTES with 40 in *. change TELEMETRY_BYTES with 40 in *.
  pose proof (beyond_shape i) as Hbs.
  assert (Hvs : Forall (in_u 32) (answer_values_at i)) by (apply (answer_values_range ctx cap), Hbs).
  assert (Hvz : 40 + 40 * zlen hops + zlen (answer_values_at i) * 4 <= UINT32_MAX).
  { unfold answer_values_at, route_values, answer_values. destruct (acked i); [change (zlen []) with 0; lia|].
    destruct (route_logits hops); [rewrite (proj1 (head_shape _)); lia|rewrite (proj1 Hbs); lia]. }
  split.
  { intros E. apply (f_equal zlen) in E. unfold answer_frame in E. rewrite zlen_app, zlen_header in E. change (zlen []) with 0 in E.
    match type of E with _ + zlen ?l = 0 => pose proof (zlen_nonneg l) end. lia. }
  eexists. split.
  { apply recv_answer; [apply he_mem|apply answer_kind_ok|done|done|apply u64_range|apply hash_prefix_range|
      change TELEMETRY_BYTES with 40; rewrite Htb, Z.mul_comm; by apply Z.mod_mul|rewrite Htb; change RESULT_BYTES with 40; lia]. }
  assert (Er : received_values (answer_kind_at i) 32 (answer_values_at i) = answer_values_at i) by (unfold received_values; destruct (_ =? _); [apply quant_32|done]).
  rewrite Er. unfold accept_answer. rewrite Nat2Z.id, (expected_at i Hi). cbn [default]. rewrite Z.eqb_refl. cbn [negb].
  destruct count_chunks as (-> & _ & Hmax). destruct (zlen_c i Hi) as (Hz & Hz0 & Hl). pose proof span_bound as [_ Hb]. pose proof (zlen_nonneg T).
  assert (E1 : u32 (Z.of_nat i * n) = Z.of_nat i * n) by (unfold u32; apply wrap_small; unfold in_u; lia).
  assert (E2 : u32 (zlen toks - Z.of_nat i * n) = zlen toks - Z.of_nat i * n) by (unfold u32; apply wrap_small; unfold in_u; lia).
  rewrite E1, E2. replace (if zlen toks - Z.of_nat i * n <? n then zlen toks - Z.of_nat i * n else n) with (zlen (c_at i)) by (destruct (Z.ltb_spec (zlen toks - Z.of_nat i * n) n); lia).
  destruct (hidden_bytes i Hi) as [-> Hhb]. rewrite allows_hidden, zlen_floats. cbv zeta.
  replace (Z.of_nat i + 1 =? Z.of_nat n_chunks) with (negb (S i <? n_chunks)%nat) by (destruct (Nat.ltb_spec (S i) n_chunks); cbn; symmetry; [apply Z.eqb_neq|apply Z.eqb_eq]; lia).
  assert (Hok : forall b, b = true -> (if b then inr (answer_kind_at i, floats_bytes (answer_values_at i)) else inl 1) = inr (answer_of i)) by (by intros ? ->).
  apply Hok. unfold answer_kind_at, answer_values_at, route_kind, route_values, answer_kind, answer_values, acked.
  destruct (S i <? n_chunks)%nat; [destruct (negb (po_disable_ack_only po)); [done|]|rewrite andb_false_r]; cbn [andb negb orb].
  all: destruct (route_logits hops); cbn [negb andb].
  all: rewrite ?(proj1 (head_shape _)), ?(proj1 Hbs), <- ?(proj1 (here_shape i)).
  all: change (DS4_DIST_RESULT_LOGITS =? DS4_DIST_RESULT_LOGITS) with true; change (DS4_DIST_RESULT_HIDDEN_STATE =? DS4_DIST_RESULT_HIDDEN_STATE) with true; cbn [andb].
  all: unfold logits_bytes, u32; rewrite ?wrap_small by (unfold in_u, UINT32_MAX in *; pose proof (zlen_nonneg (here i).2); lia).
  all: rewrite ?Z.eqb_refl, ?(proj2 (Z.leb_le _ _)) by done; cbn [andb]; by rewrite ?orb_true_r.
Qed.

Lemma steps_ok : chunk_steps we_mem (list node) (exchange wait_usec) debug e po st plan prompt (zlen T) (zlen toks) reset n sid req0 hashes n_chunks
  (fun i => zlen (upto i)) (fun i => dist_token_hash_prefix (upto i)) (fun i => (here i).2) answer_of local_at net_at is_answer.
Proof.
  constructor.
  - by rewrite upto_0.
  - intros i Hi. destruct (zlen_c i Hi) as (_ & _ & Hl). rewrite zlen_upto by lia. unfold span_end. lia.
  - intros i Hi. by rewrite chunk_size, next_position.
  - rewrite upto_end, zlen_app. done.
  - apply expected_at.
  - apply fill_runs.
  - apply send_runs.
  - apply recv_runs.
Qed.

(** What the last answer gives. *)
Lemma result_runs p : (n_chunks <> 0)%nat -> mn_pc (pp_main p) = MEnd -> mn_rc (pp_main p) = 0 -> rd_rc (pp_reader p) = 0 ->
  (rd_final_kind (pp_reader p), rd_final_payload (pp_reader p)) = answer_of (n_chunks - 1) -> local_at n_chunks (mn_session (pp_main p)) ->
  exists s', prefill_result (list node) e (zlen toks) n p = (0, Some (whole_model (upto (n_chunks - 1)) (c_at (n_chunks - 1)) (caches (n_chunks - 1))).2, s') /\
    session_fits ctx cap s' /\ ss_prefill_cap s' = pcap /\ in_step s' 0 (cs_local_end st) prompt (caches n_chunks).
Proof.
  intros Hnz Hpc Hrc Hrd Hans (Hs & Hcap & Hfrom). assert (Hi : (n_chunks - 1 < n_chunks)%nat) by lia. set (i := (n_chunks - 1)%nat) in *.
  assert (Hack : acked i = false) by (unfold acked; rewrite (proj2 (Nat.ltb_ge _ _)) by lia; apply andb_false_r).
  assert (Hstep : in_step (mn_session (pp_main p)) 0 (cs_local_end st) prompt (caches n_chunks)).
  { unfold first_reset in Hfrom. rewrite (proj2 (Nat.eqb_neq _ _)), andb_false_r, upto_end in Hfrom by done. done. }
  destruct (beyond_all i Hi) as [_ ->]. pose proof (beyond_shape i) as Hbs. pose proof n_vocab_range as Hnv. pose proof hc_dim_pos as Hdim.
  destruct (zlen_c i Hi) as (Hz & Hz0 & Hl). destruct (hidden_bytes i Hi) as [_ Hhb]. rewrite (proj1 (here_shape i)) in Hhb. pose proof span_bound as [_ Hb]. pose proof (zlen_nonneg T).
  unfold prefill_result. rewrite Hpc, Hrd, Hrc. cbn [Z.eqb negb]. injection Hans as -> ->. unfold answer_kind_at, answer_values_at, route_kind, route_values, answer_kind, answer_values. rewrite Hack.
  destruct (route_logits hops) eqn:Elog.
  - change (DS4_DIST_RESULT_LOGITS =? DS4_DIST_RESULT_LOGITS) with true. rewrite zlen_floats, (proj1 (head_shape _)). unfold logits_bytes, u32. rewrite wrap_small by (unfold in_u; lia).
    rewrite Z.eqb_refl. cbn [andb]. rewrite bytes_floats_back by apply head_shape. by eexists.
  - change (DS4_DIST_RESULT_HIDDEN_STATE =? DS4_DIST_RESULT_LOGITS) with false. change (DS4_DIST_RESULT_HIDDEN_STATE =? DS4_DIST_RESULT_HIDDEN_STATE) with true. cbn [andb].
    rewrite zlen_floats, (proj1 Hbs), (proj2 (Z.eqb_neq _ _)) by nia. cbn [negb]. rewrite bytes_floats_back by apply Hbs.
    destruct count_chunks as (-> & _ & _). cbv zeta. replace (Z.of_nat n_chunks - 1) with (Z.of_nat i) by lia.
    assert (E1 : u32 (Z.of_nat i * n) = Z.of_nat i * n) by (unfold u32; apply wrap_small; unfold in_u; lia).
    assert (E3 : zlen (c_at i) = zlen toks - Z.of_nat i * n).
    { pose proof chunks_cover as Hc. assert (zlen toks <= Z.of_nat n_chunks * n) by (unfold zlen; lia).
      assert (Z.of_nat n_chunks = Z.of_nat i + 1) as En by (unfold i; lia). rewrite En in *. lia. }
    assert (E2 : u32 (zlen toks - Z.of_nat i * n) = zlen (c_at i)) by (unfold u32; rewrite wrap_small by (unfold in_u; lia); lia).
    rewrite E1, E2.
    destruct (output_head_runs ctx cap e (mn_session (pp_main p)) (beyond i).2 (c_at i) (eh_gpu _ _ _ (pf_engine _ _ _ _ Hplan)) (pf_head _ _ _ _ Hplan Elog) (sp_some _ _ _ _ (chunk_fits i Hi)))
      as (s3 & -> & Q1 & Q2 & Q3 & Q4 & Q5 & Q6).
    exists s3. split; [done|]. destruct Hs, Hstep. split_and!; [constructor; by rewrite ?Q1, ?Q2, ?Q3|by rewrite Q2|constructor; by rewrite ?Q4, ?Q5, ?Q6].
Qed.

Lemma pipelined_runs b s nodes l : pipeline_starts po -> in_u 64 req0 -> ss_prefill_cap s = pcap -> cluster_up ctx cap st hops s (open_sink b) nodes ->
  span_from reset st hops sid T R0 s nodes ->
  let '(R', logits) := local_run T (chunks n toks) R0 l in
  exists req' s' fd' nodes',
    dist_coordinator_prefill_prompt_pipelined we_mem (list node) (exchange wait_usec) debug e po st s plan (open_sink b) nodes prompt (zlen T) (zlen toks) reset n sid req0 =
      (0, Some logits, req', s', fd', nodes') /\
    in_u 64 req' /\ ss_prefill_cap s' = pcap /\ cluster_up ctx cap st hops s' fd' nodes' /\ synced st hops sid prompt R' s' nodes'.
Proof.
  intros Hpo Hreq Hcap (Hs & _ & Hnodes) Hfrom. destruct count_chunks as (Hcount & Hpos & Hmax). pose proof Hpo as (Ho1 & Ho2 & _).
  rewrite (local_run_logits _ _ _ l []) by (intros E; unfold n_chunks in Hpos; rewrite E in Hpos; cbn in Hpos; lia).
  destruct (window_starts po plan (Z.of_nat n_chunks) Hpo ltac:(lia)) as (W & HW & HWr). pose proof (depth_range po (Z.of_nat n_chunks) ltac:(lia)) as HDr.
  set (D := dist_prefill_send_depth po (Z.of_nat n_chunks)) in *.
  assert (Hl0 : local_at 0 s).
  { split; [done|]. split; [done|]. unfold first_reset. cbn [Nat.eqb]. rewrite andb_true_r. rewrite upto_0. exact (coordinator_part ctx cap _ _ _ _ _ _ _ _ Hfrom). }
  assert (Hn0 : net_at 0 nodes).
  { split; [done|]. unfold first_reset. cbn [Nat.eqb]. rewrite andb_true_r, upto_0. change (caches 0) with R0.
    apply (span_starts ctx cap reset st hops sid T R0 s nodes R0); try done; [apply Hplan|apply Hplan]. }
  pose proof (run_result we_mem (list node) (exchange wait_usec) debug e po st plan prompt (zlen T) (zlen toks) reset n sid req0 W hashes n_chunks
    _ _ _ _ _ _ _ steps_ok Hpos Hmax Hcount D HDr HWr Hreq s nodes b Hl0 Hn0) as Hrun.
  rewrite take_zlen_prefix in Hrun. specialize (Hrun ltac:(by rewrite upto_0)). cbv zeta in Hrun.
  unfold dist_coordinator_prefill_prompt_pipelined. rewrite Hcount, HW, Nat2Z.id, take_zlen_prefix. fold D.
  change (span_end (zlen T) (zlen toks)) with (zlen T + zlen toks) in Hrun. set (p := pipe_run _ _ _ _ _ _ _ _ _ _ _ _ _ _ _ _ _ _ _) in *. clearbody p.
  destruct Hrun as (H1 & H2 & H3 & H4 & H5 & H6 & H7 & b' & H8).
  destruct (result_runs p ltac:(lia) H1 H2 H3 H5 H6) as (s' & -> & Hs' & Hcap' & Hi'). rewrite H8.
  rewrite !he_mem, Ho1, Ho2. cbn [negb orb].
  destruct (hidden_bytes 0 Hpos) as [Ehb Hhb]. destruct (zlen_c 0 Hpos) as (Hz & _ & _). rewrite Z.mul_0_l, Z.sub_0_r, Z.min_l in Hz by lia. rewrite Hz in Ehb. rewrite Ehb.
  rewrite zlen_app, (proj2 (Z.ltb_ge _ (zlen T))), (proj2 (Z.eqb_neq (zlen toks) 0)), (proj2 (Z.ltb_ge (zlen T + zlen toks - zlen T) _)), (proj2 (Z.ltb_ge UINT32_MAX _)) by lia. cbn [orb].
  assert (Eall : take n_chunks (chunks n toks) = take (S (n_chunks - 1)) (chunks n toks)) by (f_equal; lia).
  pose proof (run_S (n_chunks - 1) ltac:(lia)) as Er. rewrite <- Eall, take_ge in Er by done. rewrite Er.
  assert (Ec : caches n_chunks = (whole_model (upto (n_chunks - 1)) (c_at (n_chunks - 1)) (caches (n_chunks - 1))).1) by (rewrite <- Er; unfold caches; by rewrite take_ge by done).
  rewrite Ec in Hi'. destruct H7 as [Hn' Hst'].
  assert (Hst : Forall2 (fun h nd => session_in_step sid h prompt (caches n_chunks) (nd_state nd)) hops (ln_net (pp_line p))).
  { unfold first_reset in Hst'. rewrite (proj2 (Nat.eqb_neq n_chunks 0)), andb_false_r, upto_end in Hst' by lia. exact Hst'. }
  rewrite Ec in Hst. destruct (whole_model _ _ _) as [R' logits]. cbn [fst snd] in *.
  eexists _, s', _, _. split; [done|]. split; [done|]. split; [done|]. split; [|by split]. split; [done|]. split; [by eexists|done].
Qed.
End route.
