(* ===== verification/DistSession.v ===== *)
(** * DistSession: a distributed session follows a transcript (ds4_distributed.c)

    Prefilling a prompt in chunks, evaluating a token, and replaying the transcript
    on a fresh route when that fails.  A prompt of more than a chunk is pipelined
    unless the environment says otherwise.  Parameters besides those of the span and of
    the pipeline: the order [qsort] gives equal workers and [dup] of the planner, and the
    configured chunk. *)

From S2P Require Import Prelude Ctype KvHeader Dist Slice DistActivation DistFrame DistWorker DistWorkerFacts DistSpan DistClusterFacts DistSpanFacts DistPipe DistPipeFacts.

(** What the session's calls change: the coordinator's own session, its connections
    by descriptor, the workers behind them, and the caller's [logits]. *)
Record dist_world `{Graph} (net : Type) := mkWorld {
  dw_session : slice_session; dw_conns : Z -> sink; dw_net : net; dw_logits : list Z
}.
Arguments mkWorld {H net}.
Arguments dw_session {H net}.
Arguments dw_conns {H net}.
Arguments dw_net {H net}.
Arguments dw_logits {H net}.

Record ds4_dist_session := mkDistSession {
  ds_state : ds4_dist_coordinator_state; ds_plan : ds4_dist_route_plan; ds_plan_ready : bool; ds_plan_generation : Z;
  ds_session_id : Z; ds_request_id : Z
}.

Definition set_plan (plan : ds4_dist_route_plan) (ready : bool) (generation : Z) (d : ds4_dist_session) : ds4_dist_session :=
  mkDistSession (ds_state d) plan ready generation (ds_session_id d) (ds_request_id d).
Definition set_coordinator (st : ds4_dist_coordinator_state) (d : ds4_dist_session) : ds4_dist_session :=
  mkDistSession st (ds_plan d) (ds_plan_ready d) (ds_plan_generation d) (ds_session_id d) (ds_request_id d).
Definition set_request (id : Z) (d : ds4_dist_session) : ds4_dist_session :=
  mkDistSession (ds_state d) (ds_plan d) (ds_plan_ready d) (ds_plan_generation d) (ds_session_id d) id.

Section session.
Context `{Graph}.
Variable mem : Z -> bool.
Variable net : Type.
Variable exchange : net -> bytes -> bytes * net.
Variable debug : bool.
Variable e : ds4_engine.
Variable qsort : list ds4_dist_worker_entry -> list ds4_dist_worker_entry.
Variable dup : Z -> option Z.
(** [--prefill-chunk], 0 when not given, and the environment's: [Some None] does not
    parse. *)
Variable prefill_chunk : Z.
Variable env_chunk : option (option Z).
Variable po : prefill_options.

Abbreviation world := (dist_world net).

(** The span over the connection of the first hop: 0, or the code. *)
Definition session_span (st : ds4_dist_coordinator_state) (plan : ds4_dist_route_plan) (toks : list Z) (pos0 session_id request_id : Z)
    (reset_session : bool) (w : world) : Z * world :=
  let fd := match first_entry plan with Some first => re_fd first | None => -1 end in
  let '(r, s, sk, n) := dist_coordinator_eval_span mem net exchange debug st e (dw_session w) plan (dw_conns w fd) (dw_net w)
                          toks pos0 session_id request_id reset_session in
  let conns := fun k => if k =? fd then sk else dw_conns w k in
  match r with
  | SpanOk logits => (0, mkWorld s conns n logits)
  | SpanFailed rc => (rc, mkWorld s conns n (dw_logits w))
  end.

(** The pipelined prefill over that connection: the code, the requests used, and the world. *)
Definition session_pipeline (st : ds4_dist_coordinator_state) (plan : ds4_dist_route_plan) (prompt : list Z) (span_start n_tokens : Z)
    (reset_first_chunk : bool) (chunk_cap session_id request_id : Z) (w : world) : Z * Z * world :=
  let fd := match first_entry plan with Some first => re_fd first | None => -1 end in
  let '(rc, logits, request_id, s, sk, n) := dist_coordinator_prefill_prompt_pipelined mem net exchange debug e po st (dw_session w) plan
    (dw_conns w fd) (dw_net w) prompt span_start n_tokens reset_first_chunk chunk_cap session_id request_id in
  (rc, request_id, mkWorld s (fun k => if k =? fd then sk else dw_conns w k) n (default (dw_logits w) logits)).

Definition dist_coordinator_prefill_chunk_cap (s : slice_session) : option Z :=
  if ss_prefill_cap s <=? 0 then None
  else
    match (if prefill_chunk =? 0 then default (Some 0) env_chunk else Some prefill_chunk) with
    | None => None
    | Some requested =>
        let requested := if requested =? 0 then ss_prefill_cap s else requested in
        if ss_prefill_cap s <? requested then None else Some requested
    end.

Definition dist_coordinator_can_pipeline_prefill (st : ds4_dist_coordinator_state) (plan : ds4_dist_route_plan) (n_tokens chunk_cap : Z) : bool :=
  if po_disable_pipeline po then false
  else if (chunk_cap =? 0) || (n_tokens <=? chunk_cap) then false
  else
    match p_entry plan with
    | [] => false
    | first :: _ =>
        let final := List.last (p_entry plan) first in
        if re_fd first <? 0 then false
        else if Z.land (re_flags final) DS4_DIST_ROUTE_F_OUTPUT_LOGITS =? 0
        then (u32 (re_layer_end final + 1) =? cs_n_layers st) && cs_local_can_output_head st
        else true
    end.

(** [while (pos < len)]: a chunk at a time, with [first_reset] the session starts over
    at position 0.  Every round takes at least one token. *)
Fixpoint prefill_chunks (fuel : nat) (st : ds4_dist_coordinator_state) (plan : ds4_dist_route_plan) (prompt : list Z)
    (chunk_cap pos session_id request_id : Z) (first_reset : bool) (w : world) : Z * Z * world :=
  match fuel with
  | O => (0, request_id, w)
  | S fuel' =>
      if zlen prompt <=? pos then (0, request_id, w)
      else
        let remaining := zlen prompt - pos in
        let chunk := if remaining <? chunk_cap then remaining else chunk_cap in
        let '(rc, w) := session_span st plan (take (Z.to_nat chunk) (drop (Z.to_nat pos) prompt)) pos session_id request_id
                          (first_reset && (pos =? 0)) w in
        if negb (rc =? 0) then (rc, u64 (request_id + 1), w)
        else prefill_chunks fuel' st plan prompt chunk_cap (pos + chunk) session_id (u64 (request_id + 1)) first_reset w
  end.

Definition dist_coordinator_prefill_prompt (st : ds4_dist_coordinator_state) (plan : ds4_dist_route_plan) (prompt : list Z)
    (session_id request_id : Z) (w : world) : Z * Z * world :=
  match dist_coordinator_prefill_chunk_cap (dw_session w) with
  | None => (1, request_id, w)
  | Some chunk_cap =>
      if dist_coordinator_can_pipeline_prefill st plan (zlen prompt) chunk_cap then
        session_pipeline st plan prompt 0 (zlen prompt) true chunk_cap session_id request_id w
      else prefill_chunks (length prompt) st plan prompt chunk_cap 0 session_id request_id true w
  end.

(** A plan for the workers there are; [None]: none. *)
Definition dist_coordinator_ensure_route (st : ds4_dist_coordinator_state) : option (ds4_dist_route_plan * Z) :=
  match dist_coordinator_build_route_plan qsort dup st with
  | inr r => Some r
  | inl _ => None
  end.

(** [forget_route]: the workers of the route are dropped before a new one is planned.
    The plan that failed to be replaced is empty. *)
Definition dist_coordinator_rebuild_from_transcript (d : ds4_dist_session) (transcript : list Z) (forget_route : bool) (w : world)
  : Z * ds4_dist_session * world :=
  let d := if forget_route then set_plan plan_zero (ds_plan_ready d) (ds_plan_generation d)
                                 (set_coordinator (dist_coordinator_forget_route_workers (ds_state d) (ds_plan d)) d) else d in
  match (if forget_route || (zlen (p_entry (ds_plan d)) =? 0) then
           match dist_coordinator_ensure_route (ds_state d) with
           | None => None
           | Some (plan, generation) => Some (set_plan plan (ds_plan_ready d) generation d)
           end
         else Some d) with
  | None => (1, set_plan plan_zero (ds_plan_ready d) (ds_plan_generation d) d, w)
  | Some d =>
      let '(rc, request_id, w) := dist_coordinator_prefill_prompt (ds_state d) (ds_plan d) transcript (ds_session_id d) (ds_request_id d) w in
      (if rc =? 0 then 0 else 1, set_request request_id d, w)
  end.

Definition dist_session_ensure_route (d : ds4_dist_session) : bool * ds4_dist_session :=
  if ds_plan_ready d && (ds_plan_generation d =? cs_generation (ds_state d)) then (true, d)
  else
    match dist_coordinator_ensure_route (ds_state d) with
    | None => (false, set_plan plan_zero false 0 d)
    | Some (plan, generation) => (true, set_plan plan true generation d)
    end.

(** After a failure: replay everything, or give up the route. *)
Definition recover (d : ds4_dist_session) (transcript : list Z) (failed : Z) (w : world) : Z * ds4_dist_session * world :=
  let '(rc, d, w) := dist_coordinator_rebuild_from_transcript d transcript (negb (failed =? DS4_DIST_RECV_REMOTE_ERROR)) w in
  if negb (rc =? 0) then (1, set_plan (ds_plan d) false 0 d, w)
  else (0, set_plan (ds_plan d) true (ds_plan_generation d) d, w).

Definition ds4_dist_session_eval (d : ds4_dist_session) (checkpoint : list Z) (token : Z) (w : world) : Z * ds4_dist_session * world :=
  match dist_session_ensure_route d with
  | (false, d) => (1, d, w)
  | (true, d) =>
      let transcript := checkpoint ++ [token] in
      let '(rc, w) := session_span (ds_state d) (ds_plan d) [token] (zlen checkpoint) (ds_session_id d) (ds_request_id d) false w in
      let d := set_request (u64 (ds_request_id d + 1)) d in
      if negb (rc =? 0) then recover d transcript rc w else (0, d, w)
  end.

(** [checkpoint] is [None] when the owner has no valid one. *)
Definition ds4_dist_session_sync (d : ds4_dist_session) (checkpoint : option (list Z)) (prompt : list Z) (w : world)
  : Z * ds4_dist_session * world :=
  if zlen prompt =? 0 then (1, d, w)
  else
    match dist_session_ensure_route d with
    | (false, d) => (1, d, w)
    | (true, d) =>
        let finish := fun (r : Z * Z * world) =>
          let '(rc, request_id, w) := r in
          let d := set_request request_id d in
          if negb (rc =? 0) then recover d prompt rc w else (0, d, w) in
        match checkpoint with
        | Some c =>
            if (zlen c <=? zlen prompt) && bool_decide (take (length c) prompt = c) then
              if zlen c =? zlen prompt then (0, d, w)
              else
                match dist_coordinator_prefill_chunk_cap (dw_session w) with
                | None => (1, d, w)
                | Some chunk_cap =>
                    let suffix := zlen prompt - zlen c in
                    finish (if dist_coordinator_can_pipeline_prefill (ds_state d) (ds_plan d) suffix chunk_cap then
                              session_pipeline (ds_state d) (ds_plan d) prompt (zlen c) suffix false chunk_cap
                                (ds_session_id d) (ds_request_id d) w
                            else prefill_chunks (length prompt) (ds_state d) (ds_plan d) prompt chunk_cap (zlen c)
                                   (ds_session_id d) (ds_request_id d) false w)
                end
            else finish (dist_coordinator_prefill_prompt (ds_state d) (ds_plan d) prompt (ds_session_id d) (ds_request_id d) w)
        | None => finish (dist_coordinator_prefill_prompt (ds_state d) (ds_plan d) prompt (ds_session_id d) (ds_request_id d) w)
        end
    end.
End session.

(** * a distributed session is a local one

    A prompt in chunks, a token behind it, and the replay of the transcript when a
    machine no longer holds what it held. *)

#[local] Set Default Proof Using "Type*".

Section session.
Context `{HG : Graph} `{HL : !GraphLaws} `{HE : !WorkerEnv}.
Variables ctx cap : Z.
Context `{HH : !Healthy ctx cap}.
Variables (wait_usec : Z) (debug : bool) (e : ds4_engine).
Variable qsort : list ds4_dist_worker_entry -> list ds4_dist_worker_entry.
Variable dup : Z -> option Z.
Variables prefill_chunk n : Z.
Variable env_chunk : option (option Z).
Variable po : prefill_options.
(** Either the pipeline is off or it can start. *)
Context (Hpo : po_disable_pipeline po = true \/ pipeline_starts po).
Implicit Types (R : Z -> layer_cache) (w : dist_world (list node)) (st : ds4_dist_coordinator_state).

Abbreviation run_span := (session_span we_mem (list node) (exchange wait_usec) debug e).
Abbreviation run_chunks := (prefill_chunks we_mem (list node) (exchange wait_usec) debug e).
Abbreviation run_pipeline := (session_pipeline we_mem (list node) (exchange wait_usec) debug e po).
Abbreviation run_prompt := (dist_coordinator_prefill_prompt we_mem (list node) (exchange wait_usec) debug e prefill_chunk env_chunk po).
Abbreviation run_eval := (ds4_dist_session_eval we_mem (list node) (exchange wait_usec) debug e qsort dup prefill_chunk env_chunk po).
Abbreviation run_sync := (ds4_dist_session_sync we_mem (list node) (exchange wait_usec) debug e qsort dup prefill_chunk env_chunk po).

(** The connection of the first hop. *)
Definition route_fd (plan : ds4_dist_route_plan) : Z := match first_entry plan with Some first => re_fd first | None => -1 end.

(** The machines are up, and the plan reaches them. *)
Record world_up st (plan : ds4_dist_route_plan) (hops : list ds4_dist_route_entry) w : Prop := mkWorldUp {
  wu_plan : plan_for st e plan hops;
  wu_end : route_end (cs_local_end st) hops = DS4_N_LAYER - 1;
  wu_bits : cs_activation_bits st = 32;
  wu_up : cluster_up ctx cap st hops (dw_session w) (dw_conns w (route_fd plan)) (dw_net w);
  wu_frames : forall toks, zlen toks <= cap -> frames_fit hops plan toks;
  wu_chunk : dist_coordinator_prefill_chunk_cap prefill_chunk env_chunk (dw_session w) = Some n /\ 0 < n <= cap
}.

(** Every machine holds [T], and the caches are those of one machine. *)
Definition world_synced st hops sid T R w : Prop := synced st hops sid T R (dw_session w) (dw_net w).

(** ** A span *)

Lemma span_cap st s plan fd nodes toks pos0 sid request_id reset :
  ss_prefill_cap (dist_coordinator_eval_span we_mem (list node) (exchange wait_usec) debug st e s plan fd nodes toks pos0 sid request_id reset).1.1.2 = ss_prefill_cap s.
Proof.
  unfold dist_coordinator_eval_span. cbv zeta. destruct (_ <? _); [done|]. destruct (if reset then _ else _); [|done]. destruct (_ && _); [done|].
  pose proof (reset_cap e s) as Hr. destruct (if reset then _ else _) as [rf s1] eqn:Es.
  assert (H1 : ss_prefill_cap s1 = ss_prefill_cap s) by (destruct reset; [rewrite Es in Hr; exact Hr|by injection Es as _ <-]). rewrite <- H1. clear Hr Es H1.
  destruct (bool_decide _); [done|]. destruct (match first_entry plan with Some first => re_fd first <? 0 | None => false end); [done|].
  pose proof (eval_slice_cap e s1 toks pos0 (cs_local_start st) (cs_local_end st) None (negb (zlen (p_entry plan) =? 0)) (zlen (p_entry plan) =? 0)) as He.
  destruct (ds4_session_eval_layer_slice _ _ _ _ _ _ _ _ _) as [[[hidden logits]|m] s2]; cbn [snd] in He; [|done]. destruct (_ =? 0); [done|]. rewrite <- He.
  unfold dist_coordinator_eval_remote_on_fd. destruct (dist_coordinator_send_remote_work_on_fd _ _ _ _ _ _ _ _ _ _ _ _ _) as [ok fd'].
  destruct (exchange _ _ _) as [answer nodes']. destruct ok; [|done]. cbn [negb]. destruct (dist_recv_result_alloc _ _ _ _).1; try done.
  destruct (negb _); [done|]. destruct (_ && _); [done|]. destruct (_ && _); [|done].
  pose proof (head_cap e s2 (bytes_floats payload) (zlen toks)) as Hh. by destruct (ds4_session_eval_output_head_from_hc _ _ _ _) as [[?|?] ?].
Qed.

Lemma chunk_cap_same s s' : ss_prefill_cap s' = ss_prefill_cap s ->
  dist_coordinator_prefill_chunk_cap prefill_chunk env_chunk s' = dist_coordinator_prefill_chunk_cap prefill_chunk env_chunk s.
Proof. unfold dist_coordinator_prefill_chunk_cap. by intros ->. Qed.

Lemma span_ok (reset : bool) st plan hops sid request_id T toks R w :
  world_up st plan hops w -> (if reset then T = [] /\ R = gpu_clear else world_synced st hops sid T R w) ->
  span_fits ctx cap (zlen T) toks -> in_u 64 sid -> in_u 64 request_id ->
  let '(R', logits) := whole_model T toks R in
  exists w', run_span st plan toks (zlen T) sid request_id reset w = (0, w') /\ world_up st plan hops w' /\
    world_synced st hops sid (T ++ toks) R' w' /\ dw_logits w' = logits.
Proof.
  intros [Hp He Hb Hu Hf Hc] Hfrom Hspan Hsid Hreq.
  rewrite <- (route_model_32 ctx cap (cs_local_end st) hops) by apply Hp || done. rewrite <- Hb.
  pose proof (span_runs ctx cap debug wait_usec st e (dw_session w) plan hops (dw_conns w (route_fd plan)) (dw_net w) toks sid request_id reset T R Hp) as Hr.
  specialize (Hr ltac:(apply Hf, Hspan) Hu Hfrom Hspan Hsid Hreq).
  destruct (route_model _ _ _ _ _ _) as [R' logits]. destruct Hr as (s' & fd' & nodes' & Hr & Hu' & Hs').
  pose proof (span_cap st (dw_session w) plan (dw_conns w (route_fd plan)) (dw_net w) toks (zlen T) sid request_id reset) as Hcap. rewrite Hr in Hcap. cbn [fst snd] in Hcap.
  unfold session_span. fold (route_fd plan). rewrite Hr. eexists. split; [done|]. split; [|by split].
  constructor; try done; cbn [dw_session dw_conns dw_net]; [by rewrite Z.eqb_refl|]. by rewrite (chunk_cap_same _ _ Hcap).
Qed.

Lemma span_lost st plan hops sid request_id T toks R w :
  world_up st plan hops w -> in_step (dw_session w) 0 (cs_local_end st) T R ->
  Forall2 (in_step_or_lost sid T R) hops (dw_net w) -> Exists (lost sid T) (dw_net w) ->
  span_fits ctx cap (zlen T) toks -> in_u 64 sid -> in_u 64 request_id ->
  exists w', run_span st plan toks (zlen T) sid request_id false w = (2, w') /\ world_up st plan hops w'.
Proof.
  intros [Hp He Hb Hu Hf Hc] Hi Hst Hex Hspan Hsid Hreq.
  destruct (span_refused ctx cap debug wait_usec st e (dw_session w) plan hops (dw_conns w (route_fd plan)) (dw_net w) toks sid request_id T R Hp
    ltac:(apply Hf, Hspan) Hu Hi Hst Hex Hspan Hsid Hreq) as (s' & fd' & nodes' & Hr & Hu').
  pose proof (span_cap st (dw_session w) plan (dw_conns w (route_fd plan)) (dw_net w) toks (zlen T) sid request_id false) as Hcap. rewrite Hr in Hcap. cbn [fst snd] in Hcap.
  unfold session_span. fold (route_fd plan). rewrite Hr. eexists. split; [done|].
  constructor; try done; cbn [dw_session dw_conns dw_net]; [by rewrite Z.eqb_refl|]. by rewrite (chunk_cap_same _ _ Hcap).
Qed.

(** ** Chunks *)

Lemma piece_fits T toks k : transcript_fits ctx (T ++ toks) -> toks <> [] -> 0 < k -> k <= cap -> k <= zlen toks -> span_fits ctx cap (zlen T) (take (Z.to_nat k) toks).
Proof.
  intros [H1 H2 H3] Hne Hk Hc Hz. rewrite zlen_app in H2. apply Forall_app in H3 as [_ H3].
  assert (Hl : zlen (take (Z.to_nat k) toks) = k) by (rewrite zlen_take; lia).
  constructor; try done; [apply zlen_nonneg| |lia|lia|by apply Forall_take]. intros E. rewrite E in Hl. change (zlen []) with 0 in Hl. lia.
Qed.

Lemma chunks_run st plan hops sid : in_u 64 sid -> forall fuel T toks (first_reset : bool) request_id R w,
  (length toks <= fuel)%nat -> in_u 64 request_id -> transcript_fits ctx (T ++ toks) -> world_up st plan hops w ->
  (if first_reset && (zlen T =? 0) then T = [] /\ R = gpu_clear /\ toks <> [] else world_synced st hops sid T R w) ->
  let '(R', logits) := local_run T (pieces fuel n toks) R (dw_logits w) in
  exists request_id' w', run_chunks fuel st plan (T ++ toks) n (zlen T) sid request_id first_reset w = (0, request_id', w') /\
    in_u 64 request_id' /\ world_up st plan hops w' /\ world_synced st hops sid (T ++ toks) R' w' /\ dw_logits w' = logits.
Proof.
  intros Hsid. induction fuel as [|fuel IH]; intros T toks first_reset request_id R w Hl Hreq Hfit Hw Hfrom.
  - destruct toks; [|cbn in Hl; lia]. cbn [pieces local_run prefill_chunks]. exists request_id, w. rewrite app_nil_r.
    split_and!; try done. destruct (first_reset && _); [by destruct Hfrom as (_ & _ & ?)|done].
  - cbn [prefill_chunks]. rewrite zlen_app. destruct toks as [|t toks].
    { rewrite (proj2 (Z.leb_le _ _)) by (change (zlen []) with 0; lia). cbn [pieces local_run]. exists request_id, w. rewrite app_nil_r.
      split_and!; try done. destruct (first_reset && _); [by destruct Hfrom as (_ & _ & ?)|done]. }
    set (l := t :: toks) in *. assert (Hz : 0 < zlen l) by (unfold l; rewrite zlen_cons; pose proof (zlen_nonneg toks); lia).
    rewrite (proj2 (Z.leb_gt _ _)) by lia. replace (zlen T + zlen l - zlen T) with (zlen l) by lia.
    replace (if zlen l <? n then zlen l else n) with (Z.min (zlen l) n) by (destruct (Z.ltb_spec (zlen l) n); lia).
    change (pieces (S fuel) n l) with (take (Z.to_nat (Z.min (zlen l) n)) l :: pieces fuel n (drop (Z.to_nat (Z.min (zlen l) n)) l)).
    destruct (wu_chunk _ _ _ _ Hw) as [_ Hn]. set (k := Z.min (zlen l) n). assert (Hk : 0 < k <= cap /\ k <= zlen l) by (unfold k; lia).
    replace (drop (Z.to_nat (zlen T)) (T ++ l)) with l by (symmetry; apply drop_app_length'; unfold zlen; lia). cbn [local_run].
    pose proof (piece_fits T l k Hfit ltac:(done) ltac:(lia) ltac:(lia) ltac:(lia)) as Hspan.
    assert (Hfrom1 : if first_reset && (zlen T =? 0) then T = [] /\ R = gpu_clear else world_synced st hops sid T R w).
    { destruct (first_reset && _); [by destruct Hfrom as (? & ? & _)|done]. }
    pose proof (span_ok (first_reset && (zlen T =? 0)) st plan hops sid request_id T _ R w Hw Hfrom1 Hspan Hsid Hreq) as Hs.
    destruct (whole_model T _ R) as [R1 logits1]. destruct Hs as (w1 & -> & Hw1 & Hs1 & El). cbn [negb Z.eqb].
    assert (Hlen : zlen (T ++ take (Z.to_nat k) l) = zlen T + k) by (rewrite zlen_app, zlen_take; lia).
    assert (Eall : (T ++ take (Z.to_nat k) l) ++ drop (Z.to_nat k) l = T ++ l) by (by rewrite <- app_assoc, take_drop).
    assert (Hreset : first_reset && (zlen (T ++ take (Z.to_nat k) l) =? 0) = false).
    { rewrite Hlen, (proj2 (Z.eqb_neq _ _)) by (pose proof (zlen_nonneg T); lia). apply andb_false_r. }
    specialize (IH (T ++ take (Z.to_nat k) l) (drop (Z.to_nat k) l) first_reset (u64 (request_id + 1)) R1 w1).
    rewrite Eall, Hlen, El in IH. rewrite <- Hlen, Hreset, Hlen in IH. apply IH; try done; [|apply u64_range].
    rewrite length_drop. unfold zlen in *. lia.
Qed.

(** The same through the pipeline. *)
Lemma pipeline_run st plan hops sid T toks (reset : bool) request_id R w :
  in_u 64 sid -> in_u 64 request_id -> transcript_fits ctx (T ++ toks) -> n < zlen toks -> pipeline_starts po -> world_up st plan hops w ->
  (if reset then T = [] /\ R = gpu_clear else world_synced st hops sid T R w) ->
  let '(R', logits) := local_run T (chunks n toks) R (dw_logits w) in
  exists request_id' w', run_pipeline st plan (T ++ toks) (zlen T) (zlen toks) reset n sid request_id w = (0, request_id', w') /\
    in_u 64 request_id' /\ world_up st plan hops w' /\ world_synced st hops sid (T ++ toks) R' w' /\ dw_logits w' = logits.
Proof.
  intros Hsid Hreq Hfit Hlong Hst [Hp He Hb Hu Hf [Hc Hn]] Hfrom. pose proof Hu as (Hs & (b & Eb) & Hnodes).
  pose proof (pipelined_runs ctx cap wait_usec debug e po st plan hops T toks n reset sid request_id (ss_prefill_cap (dw_session w)) R Hp He Hb Hf Hn Hfit Hlong Hsid
    b (dw_session w) (dw_net w) (dw_logits w) Hst Hreq eq_refl) as Hr.
  rewrite Eb in Hu. specialize (Hr Hu Hfrom). unfold session_pipeline. fold (route_fd plan). rewrite Eb.
  destruct (local_run _ _ _ _) as [R' logits]. destruct Hr as (req' & s' & fd' & nodes' & Hr & Hreq' & Hcap & Hu' & Hs'). rewrite Hr.
  eexists _, _. split; [done|]. split; [done|]. split; [|by split].
  constructor; try done; cbn [dw_session dw_conns dw_net]; [by rewrite Z.eqb_refl|]. by rewrite (chunk_cap_same _ _ Hcap).
Qed.

Lemma can_pipeline_long st plan k : dist_coordinator_can_pipeline_prefill po st plan k n = true -> n < k /\ pipeline_starts po.
Proof.
  unfold dist_coordinator_can_pipeline_prefill. destruct Hpo as [-> | Hst]; [done|]. destruct (po_disable_pipeline po); [done|].
  destruct ((n =? 0) || (k <=? n)) eqn:E; [done|]. apply orb_false_iff in E as [_ E]. apply Z.leb_gt in E. done.
Qed.

(** A prompt behind what is held, or from nothing. *)
Lemma suffix_run st plan hops sid T toks (reset : bool) request_id R w :
  in_u 64 sid -> in_u 64 request_id -> transcript_fits ctx (T ++ toks) -> world_up st plan hops w ->
  (if reset then T = [] /\ R = gpu_clear /\ toks <> [] else world_synced st hops sid T R w) ->
  let '(R', logits) := local_run T (chunks n toks) R (dw_logits w) in
  exists request_id' w',
    (if dist_coordinator_can_pipeline_prefill po st plan (zlen toks) n then run_pipeline st plan (T ++ toks) (zlen T) (zlen toks) reset n sid request_id w
     else run_chunks (length (T ++ toks)) st plan (T ++ toks) n (zlen T) sid request_id reset w) = (0, request_id', w') /\
    in_u 64 request_id' /\ world_up st plan hops w' /\ world_synced st hops sid (T ++ toks) R' w' /\ dw_logits w' = logits.
Proof.
  intros Hsid Hreq Hfit Hw Hfrom. destruct (wu_chunk _ _ _ _ Hw) as [_ Hn]. destruct (dist_coordinator_can_pipeline_prefill _ _ _ _ _) eqn:Ec.
  - apply can_pipeline_long in Ec as [Hlong Hst]. apply pipeline_run; try done. destruct reset; [by destruct Hfrom as (? & ? & _)|done].
  - rewrite <- (pieces_fuel n (length (T ++ toks)) toks) by (rewrite ?length_app; lia). apply chunks_run; try done; [rewrite length_app; lia|].
    destruct reset; [|done]. destruct Hfrom as (-> & ? & ?). done.
Qed.

(** A prompt from nothing. *)
Lemma prompt_run st plan hops sid request_id prompt w : in_u 64 sid -> in_u 64 request_id -> prompt <> [] -> transcript_fits ctx prompt -> world_up st plan hops w ->
  let '(R, logits) := local_replay n prompt in
  exists request_id' w', run_prompt st plan prompt sid request_id w = (0, request_id', w') /\ in_u 64 request_id' /\
    world_up st plan hops w' /\ world_synced st hops sid prompt R w' /\ dw_logits w' = logits.
Proof.
  intros Hsid Hreq Hne Hfit Hw. unfold dist_coordinator_prefill_prompt, local_replay. destruct (wu_chunk _ _ _ _ Hw) as [-> Hn].
  pose proof (suffix_run st plan hops sid [] prompt true request_id gpu_clear w Hsid Hreq Hfit Hw ltac:(done)) as Hr.
  rewrite (local_run_logits _ _ _ (dw_logits w) []) in Hr; [exact Hr|]. rewrite chunks_cons by (lia || done). done.
Qed.

(** ** The calls of the session *)

(** A session whose route is current. *)
Record session_up (d : ds4_dist_session) (hops : list ds4_dist_route_entry) w : Prop := mkSessionUp {
  su_ready : ds_plan_ready d = true;
  su_current : ds_plan_generation d = cs_generation (ds_state d);
  su_session : in_u 64 (ds_session_id d);
  su_request : in_u 64 (ds_request_id d);
  su_world : world_up (ds_state d) (ds_plan d) hops w
}.

(** The transcript is [T] everywhere, with the caches [R]. *)
Definition session_holds (d : ds4_dist_session) (hops : list ds4_dist_route_entry) (T : list Z) R w : Prop :=
  world_synced (ds_state d) hops (ds_session_id d) T R w.

(** The coordinator holds [T]; some machine holds something else, the others [T]. *)
Definition session_lost (d : ds4_dist_session) (hops : list ds4_dist_route_entry) (T : list Z) R w : Prop :=
  in_step (dw_session w) 0 (cs_local_end (ds_state d)) T R /\ Forall2 (in_step_or_lost (ds_session_id d) T R) hops (dw_net w) /\
  Exists (lost (ds_session_id d) T) (dw_net w).

(** A call that ended like one machine in [local]. *)
Definition ends_as (r : Z * ds4_dist_session * dist_world (list node)) (hops : list ds4_dist_route_entry) (T : list Z)
    (local : (Z -> layer_cache) * list Z) : Prop :=
  let '(rc, d, w) := r in
  rc = 0 /\ session_up d hops w /\ session_holds d hops T local.1 w /\ dw_logits w = local.2.

Lemma route_current d hops w : session_up d hops w -> dist_session_ensure_route qsort dup d = (true, d).
Proof. intros [Hr Hc _ _ _]. unfold dist_session_ensure_route. by rewrite Hr, Hc, Z.eqb_refl. Qed.

Lemma set_request_up d hops w w' id : session_up d hops w -> in_u 64 id -> world_up (ds_state d) (ds_plan d) hops w' -> session_up (set_request id d) hops w'.
Proof. intros [H1 H2 H3 H4 H5] Hid Hw. by constructor. Qed.

(** Replaying on the same route. *)
Lemma recover_runs d hops prompt w : session_up d hops w -> prompt <> [] -> transcript_fits ctx prompt ->
  ends_as (recover we_mem (list node) (exchange wait_usec) debug e qsort dup prefill_chunk env_chunk po d prompt DS4_DIST_RECV_REMOTE_ERROR w)
    hops prompt (local_replay n prompt).
Proof.
  intros Hd Hne Hfit. pose proof Hd as [H1 H2 H3 H4 H5].
  pose proof (prompt_run (ds_state d) (ds_plan d) hops (ds_session_id d) (ds_request_id d) prompt w H3 H4 Hne Hfit H5) as Hp.
  destruct (local_replay n prompt) as [R logits]. destruct Hp as (req & w' & Hp & Hreq & Hw' & Hs' & El).
  unfold recover, dist_coordinator_rebuild_from_transcript. rewrite Z.eqb_refl. cbn [negb orb].
  assert (Hz : (zlen (p_entry (ds_plan d)) =? 0) = false).
  { apply Z.eqb_neq. pose proof (pf_entries _ _ _ _ (wu_plan _ _ _ _ H5)) as He. pose proof (pf_hops _ _ _ _ (wu_plan _ _ _ _ H5)).
    unfold zlen. rewrite He. destruct hops; [done|cbn; lia]. }
  rewrite Hz, Hp. cbn [Z.eqb negb]. split; [done|]. split; [by constructor|]. by split.
Qed.

(** A token behind [T]. *)
Lemma eval_synced d hops T token R w : session_up d hops w -> transcript_fits ctx (T ++ [token]) -> session_holds d hops T R w ->
  ends_as (run_eval d T token w) hops (T ++ [token]) (whole_model T [token] R).
Proof.
  intros Hd Hfit Hs. pose proof Hd as [H1 H2 H3 H4 H5]. destruct (wu_chunk _ _ _ _ H5) as [_ Hn].
  pose proof (piece_fits T [token] 1 Hfit ltac:(done) ltac:(lia) ltac:(lia) ltac:(done)) as Hspan. change (take (Z.to_nat 1) [token]) with [token] in Hspan.
  pose proof (span_ok false (ds_state d) (ds_plan d) hops (ds_session_id d) (ds_request_id d) T [token] R w H5 Hs Hspan H3 H4) as Hr.
  destruct (whole_model T [token] R) as [R' logits]. destruct Hr as (w' & Hr & Hw' & Hs' & El).
  unfold ds4_dist_session_eval. rewrite (route_current d hops w Hd), Hr. cbn [Z.eqb negb].
  split; [done|]. split; [eapply set_request_up; [done|apply u64_range|done]|]. by split.
Qed.

Lemma eval_lost d hops T token R w : session_up d hops w -> transcript_fits ctx (T ++ [token]) -> session_lost d hops T R w ->
  ends_as (run_eval d T token w) hops (T ++ [token]) (local_replay n (T ++ [token])).
Proof.
  intros Hd Hfit (Hi & Hst & Hex). pose proof Hd as [H1 H2 H3 H4 H5]. destruct (wu_chunk _ _ _ _ H5) as [_ Hn].
  pose proof (piece_fits T [token] 1 Hfit ltac:(done) ltac:(lia) ltac:(lia) ltac:(done)) as Hspan. change (take (Z.to_nat 1) [token]) with [token] in Hspan.
  destruct (span_lost (ds_state d) (ds_plan d) hops (ds_session_id d) (ds_request_id d) T [token] R w H5 Hi Hst Hex Hspan H3 H4) as (w' & Hr & Hw').
  unfold ds4_dist_session_eval. rewrite (route_current d hops w Hd), Hr. change (negb (2 =? 0)) with true. cbv iota.
  apply recover_runs; [|by destruct T|done]. eapply set_request_up; [done|apply u64_range|done].
Qed.

(** C5. One token evaluated by a distributed session is that token evaluated on one
    machine.  When every machine of the route holds the transcript, the call succeeds
    with the logits one machine computes from the same caches.  When some worker has
    lost its session, or holds other tokens, its hash check fails the span and the
    session replays the whole transcript over the same route, chunk by chunk or through
    the pipeline (whose threads start, under any schedule), which gives the logits
    one machine computes by evaluating it from nothing.  Either way all machines then
    hold the longer transcript and the route stays current. *)
Theorem distributed_eval d hops T token R w : session_up d hops w -> transcript_fits ctx (T ++ [token]) ->
  (session_holds d hops T R w -> ends_as (run_eval d T token w) hops (T ++ [token]) (whole_model T [token] R)) /\
  (session_lost d hops T R w -> ends_as (run_eval d T token w) hops (T ++ [token]) (local_replay n (T ++ [token]))).
Proof. intros Hd Hfit. split; [by apply eval_synced|by apply eval_lost]. Qed.

(** The chunks fail at the first one. *)
Lemma chunks_lost d hops T toks R w : session_up d hops w -> transcript_fits ctx (T ++ toks) -> toks <> [] -> session_lost d hops T R w ->
  exists request_id' w', run_chunks (length (T ++ toks)) (ds_state d) (ds_plan d) (T ++ toks) n (zlen T) (ds_session_id d) (ds_request_id d) false w = (2, request_id', w') /\
    in_u 64 request_id' /\ world_up (ds_state d) (ds_plan d) hops w'.
Proof.
  intros Hd Hfit Hne (Hi & Hst & Hex). pose proof Hd as [H1 H2 H3 H4 H5]. destruct (wu_chunk _ _ _ _ H5) as [_ Hn].
  pose proof (zlen_nonnil _ Hne) as Hz. destruct (length (T ++ toks)) as [|fuel] eqn:El; [rewrite length_app in El; destruct toks; [done|cbn in El; lia]|].
  cbn [prefill_chunks]. rewrite zlen_app, (proj2 (Z.leb_gt _ _)) by lia. cbn [andb].
  replace (zlen T + zlen toks - zlen T) with (zlen toks) by lia.
  replace (if zlen toks <? n then zlen toks else n) with (Z.min (zlen toks) n) by (destruct (Z.ltb_spec (zlen toks) n); lia).
  replace (drop (Z.to_nat (zlen T)) (T ++ toks)) with toks by (symmetry; apply drop_app_length'; unfold zlen; lia).
  pose proof (piece_fits T toks (Z.min (zlen toks) n) Hfit ltac:(done) ltac:(lia) ltac:(lia) ltac:(lia)) as Hspan.
  destruct (span_lost (ds_state d) (ds_plan d) hops (ds_session_id d) (ds_request_id d) T _ R w H5 Hi Hst Hex Hspan H3 H4) as (w' & -> & Hw').
  change (negb (2 =? 0)) with true. cbv iota. eexists _, w'. split; [done|]. split; [apply u64_range|done].
Qed.

Lemma prefix_test (T prompt : list Z) : bool_decide (T `prefix_of` prompt) = (zlen T <=? zlen prompt) && bool_decide (take (length T) prompt = T).
Proof.
  case_bool_decide as Hp.
  - destruct Hp as [toks ->]. rewrite zlen_app, (proj2 (Z.leb_le _ _)) by (pose proof (zlen_nonneg toks); lia). rewrite take_app_length. by rewrite bool_decide_eq_true_2.
  - symmetry. apply andb_false_intro2, bool_decide_eq_false. intros E. apply Hp. exists (drop (length T) prompt). rewrite <- E at 1. by rewrite take_drop.
Qed.

Lemma not_pipelined st plan k : po_disable_pipeline po = true \/ k <= n -> dist_coordinator_can_pipeline_prefill po st plan k n = false.
Proof.
  unfold dist_coordinator_can_pipeline_prefill. intros [-> |Hk]; [done|]. destruct (po_disable_pipeline po); [done|]. by rewrite (proj2 (Z.leb_le k n)), orb_true_r.
Qed.

(** C17. A prompt synchronised to a distributed session is the prompt evaluated on one
    machine, in chunks of the configured size, for every interleaving of the pipelined
    prefill, which takes over when more than a chunk is to be evaluated and the
    environment does not disable it; its threads are then assumed to start, and its
    window to be at most 64.  Only the new tokens are evaluated when every
    machine holds a prefix of the prompt; everything from nothing when the session has
    no such prefix.  When some machine turns out to hold something else, the session
    replays everything over the same route, which works when the new tokens are at most
    a chunk or the pipeline is disabled: a pipelined prefill that fails has shut its
    connection, over which nothing can be replayed ([lost_while_pipelined]). *)
Theorem distributed_sync d hops T toks R w : session_up d hops w -> transcript_fits ctx (T ++ toks) -> T ++ toks <> [] ->
  (session_holds d hops T R w -> ends_as (run_sync d (Some T) (T ++ toks) w) hops (T ++ toks) (local_run T (chunks n toks) R (dw_logits w))) /\
  (forall checkpoint, (forall c, checkpoint = Some c -> ~ c `prefix_of` (T ++ toks)) ->
     ends_as (run_sync d checkpoint (T ++ toks) w) hops (T ++ toks) (local_replay n (T ++ toks))) /\
  (session_lost d hops T R w -> toks <> [] -> po_disable_pipeline po = true \/ zlen toks <= n ->
     ends_as (run_sync d (Some T) (T ++ toks) w) hops (T ++ toks) (local_replay n (T ++ toks))).
Proof.
  intros Hd Hfit Hne. pose proof Hd as [H1 H2 H3 H4 H5]. destruct (wu_chunk _ _ _ _ H5) as [Hcap Hn].
  unfold ds4_dist_session_sync. pose proof (zlen_nonnil _ Hne) as Hz. rewrite (proj2 (Z.eqb_neq (zlen (T ++ toks)) 0)) by lia.
  rewrite (route_current d hops w Hd), Hcap. rewrite <- prefix_test, bool_decide_eq_true_2 by (by exists toks).
  rewrite zlen_app. replace (zlen T + zlen toks - zlen T) with (zlen toks) by lia. split_and!.
  - intros Hs. destruct (Z.eqb_spec (zlen T) (zlen T + zlen toks)) as [E|E].
    + assert (toks = []) as -> by (destruct toks; [done|rewrite zlen_cons in E; pose proof (zlen_nonneg toks); lia]). rewrite app_nil_r. by split_and!.
    + pose proof (suffix_run (ds_state d) (ds_plan d) hops (ds_session_id d) T toks false (ds_request_id d) R w H3 H4 Hfit H5 Hs) as Hr.
      destruct (local_run _ _ _ _) as [R' logits]. destruct Hr as (req & w' & -> & Hreq & Hw' & Hs' & El). cbn [Z.eqb negb].
      split; [done|]. split; [by eapply set_request_up|]. by split.
  - intros checkpoint Hc. pose proof (prompt_run (ds_state d) (ds_plan d) hops (ds_session_id d) (ds_request_id d) (T ++ toks) w H3 H4 Hne Hfit H5) as Hp.
    destruct (local_replay n (T ++ toks)) as [R' logits]. destruct Hp as (req & w' & Hp & Hreq & Hw' & Hs' & El).
    assert (Hend : ends_as (0, set_request req d, w') hops (T ++ toks) (R', logits)) by (split; [done|]; split; [by eapply set_request_up|]; by split).
    destruct checkpoint as [c|]; [|by rewrite Hp]. rewrite <- zlen_app, <- prefix_test, bool_decide_eq_false_2 by (by apply Hc). by rewrite Hp.
  - intros Hl Hnt Hoff. pose proof (zlen_nonnil _ Hnt). rewrite (proj2 (Z.eqb_neq (zlen T) _)) by lia. rewrite (not_pipelined _ _ _ Hoff).
    destruct (chunks_lost d hops T toks R w Hd Hfit Hnt Hl) as (req & w' & -> & Hreq & Hw'). change (negb (2 =? 0)) with true. cbv iota.
    apply recover_runs; [by eapply set_request_up|done|done].
Qed.
End session.
