(* ===== verification/DistSpanExample.v ===== *)
(** * DistSpanExample: two workers behind a coordinator *)

From S2P Require Import Prelude Ctype KvHeader Dist Slice DistActivation DistFrame DistWorker DistWorkerFacts DistSpan DistClusterFacts DistSpanFacts DistPipe DistPipeFacts DistSession.

(** ** A graph of four layers

    A layer keeps the sums of what it has seen, and each value depends on them. *)

Definition sum (l : list Z) : Z := fold_left (fun a x => u32 (a + x)) l 0.

#[local] Instance small_graph : Graph := {
  layer_cache := list Z;
  device := unit;
  DS4_N_LAYER := 4;
  DS4_HC_DIM := 2;
  DS4_N_VOCAB := 3;
  gpu_commands d := (true, d);
  gpu_torn _ c := c;
  gpu_clear _ := [];
  graph_embed toks := flat_map (fun t => [u32 t; u32 (t + 1)]) toks;
  graph_layer il pos0 toks hc c := (c ++ [sum hc], map (fun x => u32 (3 * x + il + sum c)) hc);
  graph_output_head hc := [u32 (sum hc); u32 (sum hc + 1); u32 (5 * sum hc)];
  graph_whole pos0 toks c := (c, [0; 0; 0])
}.

#[local] Instance small_laws : GraphLaws.
Proof.
  constructor; cbn.
  - done.
  - done.
  - done.
  - induction toks as [|t toks [IH1 IH2]]; cbn; [done|]. split; [|by do 2 (constructor; [apply u32_range|])].
    rewrite !zlen_cons. lia.
  - intros il pos0 toks hc c Hl _. split; [by rewrite zlen_map|]. apply Forall_map. apply Forall_true. intros x. apply u32_range.
  - intros hc. split; [done|]. do 3 (constructor; [apply u32_range|]); constructor.
Qed.

Definition small_engine : ds4_engine := mkEngine (bs "Metal") false (fun _ => true) true true.
Definition small_session (T : list Z) : slice_session := mkSlice 64 4 1 T true false tt (fun _ => []).

#[local] Instance small_env : WorkerEnv := {
  we_mem _ := true;
  we_session_create := Some (small_session []);
  we_connect _ _ := SOk (mkSink [] None);
  we_forward_window := 4;
  we_route_text _ _ := [];
  we_eval_usec := 7;
  we_send_usec := 2
}.

#[local] Instance small_healthy : Healthy 64 4.
Proof. constructor; try done. by eexists. Qed.

(** ** The cluster *)

Definition small_hops : list ds4_dist_route_entry :=
  [mkRouteEntry (bs "10.0.0.1") 9001 2 2 0 (-1); mkRouteEntry (bs "10.0.0.2") 9002 3 3 1 (-1)].

Definition small_plan : ds4_dist_route_plan :=
  mkPlan [mkRouteEntry (bs "10.0.0.1") 9001 2 2 0 5; mkRouteEntry (bs "10.0.0.2") 9002 3 3 1 6] (route_bytes small_hops).

Definition small_state : ds4_dist_coordinator_state := mkCoordinator 7 4 0 1 64 false false false 32 3 [] false.

Definition small_dist : ds4_dist_session := mkDistSession small_state small_plan true 3 77 1.

(** A worker with [sessions]. *)
Definition small_node (host : bytes) (port first last : Z) (sessions : list ds4_dist_worker_session) : node :=
  mkNode host port (mkWorkerState small_engine 7 first last (last =? 3) 64 sessions) (mkUpstream (mkSink [] None) []).

Definition small_world (T : list Z) (sessions : list ds4_dist_worker_session) : dist_world (list node) :=
  mkWorld (small_session T) (fun _ => mkSink [] None)
    [small_node (bs "10.0.0.1") 9001 2 2 sessions; small_node (bs "10.0.0.2") 9002 3 3 sessions] [].

Definition holding (T : list Z) : list ds4_dist_worker_session := [mkWorkerSession 77 (dist_token_hash_prefix T) true (small_session T)].

(** The pipeline as it is by default, under a schedule. *)
Definition small_options (schedule : nat -> nat) : prefill_options := mkPrefillOptions false false None 0 None true true (fun _ => schedule).
Definition pipeline_off : prefill_options := mkPrefillOptions true false None 0 None true true (fun _ k => k).

Definition small_eval := ds4_dist_session_eval we_mem (list node) (exchange 0) false small_engine (fun ws => ws) (fun fd => Some fd) 0 None.
Definition small_sync := ds4_dist_session_sync we_mem (list node) (exchange 0) false small_engine (fun ws => ws) (fun fd => Some fd) 0 None.
Abbreviation by_turns := (small_options (fun k => k)).

(** The logits of one machine. *)
Example small_local_logits : (whole_model [1; 0] [2] (fun _ => [])).2 = [441; 442; 2205].
Proof. vm_compute. reflexivity. Qed.

(** ** What the theorems ask *)

Lemma small_hops_ok : Forall (hop_ok 4) small_hops.
Proof. repeat constructor; try done; cbn; try lia; (by right || by left). Qed.

Lemma small_engine_has first last : 0 <= first <= last -> last < 4 -> engine_has small_engine first last.
Proof. by constructor. Qed.

Lemma small_route : route_reads (route_bytes small_hops) small_hops.
Proof.
  constructor; [by vm_compute| |by vm_compute]. intros i Hi. change (zlen small_hops) with 2 in *.
  assert (i = 0 \/ i = 1) as [-> | ->] by lia; by vm_compute.
Qed.

Lemma small_plan_for : plan_for small_state small_engine small_plan small_hops.
Proof.
  constructor; try done; [|exact small_route|exact small_hops_ok].
  eexists _, _. by split_and!.
Qed.

Lemma small_frames toks : zlen toks <= 4 -> frames_fit small_hops small_plan toks.
Proof.
  intros Hz. pose proof (zlen_nonneg toks). unfold small_plan. change (p_blob _) with (route_bytes small_hops).
  assert (Hr : zlen (route_bytes small_hops) <= 1000) by (apply (bool_decide_unpack _); vm_compute; exact I).
  constructor; cbn [p_blob]; change (zlen small_hops) with 2; change (zlen mismatch) with 30;
    change DS4_HC_DIM with 2; change DS4_N_VOCAB with 3; unfold WORK_BYTES, RESULT_BYTES, TELEMETRY_BYTES, UINT32_MAX; lia.
Qed.

Lemma small_serves first last flags host port (sessions : list ds4_dist_worker_session) : 0 <= first <= last -> last < 4 -> (flags = 1 -> last = 3) ->
  Forall (fun it => session_fits 64 4 (wse_session it)) sessions ->
  node_at 64 4 7 (mkRouteEntry host port first last flags (-1)) (small_node host port first last sessions).
Proof.
  intros Hr Hl Hf Hs. constructor; try done; [constructor; try done|by eexists]. 
  cbn. intros E. by rewrite (Hf E).
Qed.

Lemma small_up T (sessions : list ds4_dist_worker_session) : Forall (fun it => session_fits 64 4 (wse_session it)) sessions ->
  session_up 64 4 small_engine 0 4 None small_dist small_hops (small_world T sessions).
Proof.
  intros Hs. constructor; try done. constructor; try done; [exact small_plan_for| |exact small_frames].
  split; [by constructor|]. split; [by eexists|]. do 2 (constructor; [by apply small_serves|]). constructor.
Qed.

Lemma small_fits T : Forall (fun t => 0 <= t < 3) T -> zlen T <= 64 -> transcript_fits 64 T.
Proof. by constructor. Qed.

Lemma holding_fits T : Forall (fun it => session_fits 64 4 (wse_session it)) (holding T).
Proof. by repeat constructor. Qed.

Lemma small_in_step first last T : in_step (small_session T) first last T gpu_clear.
Proof. constructor; [done|by left|done]. Qed.

Lemma small_holds T : session_holds small_dist small_hops T gpu_clear (small_world T (holding T)).
Proof.
  split; [apply small_in_step|]. repeat constructor; (eexists; split; [done|]; split; [done|apply small_in_step]).
Qed.

Lemma small_lost T : dist_token_hash_prefix T <> DS4_DIST_TOKEN_HASH_INIT -> session_lost small_dist small_hops T gpu_clear (small_world T []).
Proof.
  intros Hh. split; [apply small_in_step|]. split; [do 2 (constructor; [right; by apply not_eq_sym|]); constructor|]. constructor. by apply not_eq_sym.
Qed.

Lemma small_starts : po_disable_pipeline by_turns = true \/ pipeline_starts by_turns.
Proof. by right. Defined.

(** A token on a cluster that is in step, and on one whose workers restarted. *)
Lemma distributed_eval_witness :
  ends_as 64 4 small_engine 0 4 None (small_eval by_turns small_dist [1; 0] 2 (small_world [1; 0] (holding [1; 0]))) small_hops ([1; 0] ++ [2]) (whole_model [1; 0] [2] gpu_clear) /\
  ends_as 64 4 small_engine 0 4 None (small_eval by_turns small_dist [1; 0] 2 (small_world [1; 0] [])) small_hops ([1; 0] ++ [2]) (local_replay 4 ([1; 0] ++ [2])).
Proof.
  assert (Hf : transcript_fits 64 ([1; 0] ++ [2])) by (apply small_fits; [by repeat constructor|done]).
  split.
  - exact (proj1 (distributed_eval 64 4 0 false small_engine _ _ 0 4 None by_turns small_starts small_dist small_hops [1; 0] 2 gpu_clear _ (small_up _ _ (holding_fits _)) Hf) (small_holds _)).
  - refine (proj2 (distributed_eval 64 4 0 false small_engine _ _ 0 4 None by_turns small_starts small_dist small_hops [1; 0] 2 gpu_clear _ (small_up _ [] (List.Forall_nil _)) Hf) _).
    apply small_lost. vm_compute. discriminate.
Defined.

(** A prompt through the pipeline: behind what is held, and from nothing; and one of a
    chunk on a cluster whose workers restarted. *)
Lemma distributed_sync_witness :
  ends_as 64 4 small_engine 0 4 None (small_sync by_turns small_dist (Some [1; 0]) ([1; 0] ++ [2; 1; 1; 0; 2; 2]) (small_world [1; 0] (holding [1; 0]))) small_hops
    ([1; 0] ++ [2; 1; 1; 0; 2; 2]) (local_run [1; 0] (chunks 4 [2; 1; 1; 0; 2; 2]) gpu_clear (dw_logits (small_world [1; 0] (holding [1; 0])))) /\
  ends_as 64 4 small_engine 0 4 None (small_sync by_turns small_dist None ([] ++ [1; 0; 2; 1; 1]) (small_world [] [])) small_hops
    ([] ++ [1; 0; 2; 1; 1]) (local_replay 4 ([] ++ [1; 0; 2; 1; 1])) /\
  ends_as 64 4 small_engine 0 4 None (small_sync by_turns small_dist (Some [1; 0]) ([1; 0] ++ [2; 1; 1]) (small_world [1; 0] [])) small_hops
    ([1; 0] ++ [2; 1; 1]) (local_replay 4 ([1; 0] ++ [2; 1; 1])).
Proof.
  assert (Hf1 : transcript_fits 64 ([1; 0] ++ [2; 1; 1; 0; 2; 2])) by (apply small_fits; [by repeat constructor|done]).
  assert (Hf2 : transcript_fits 64 ([] ++ [1; 0; 2; 1; 1])) by (apply small_fits; [by repeat constructor|done]).
  assert (Hf3 : transcript_fits 64 ([1; 0] ++ [2; 1; 1])) by (apply small_fits; [by repeat constructor|done]).
  assert (Hn1 : [1; 0] ++ [2; 1; 1; 0; 2; 2] <> []) by discriminate. assert (Hn2 : [] ++ [1; 0; 2; 1; 1] <> []) by discriminate.
  assert (Hn3 : [1; 0] ++ [2; 1; 1] <> []) by discriminate.
  split; [|split].
  - exact (proj1 (distributed_sync 64 4 0 false small_engine _ _ 0 4 None by_turns small_starts small_dist small_hops _ _ gpu_clear _ (small_up _ _ (holding_fits _)) Hf1 Hn1) (small_holds _)).
  - refine (proj1 (proj2 (distributed_sync 64 4 0 false small_engine _ _ 0 4 None by_turns small_starts small_dist small_hops _ _ gpu_clear _ (small_up _ [] (List.Forall_nil _)) Hf2 Hn2)) None _).
    discriminate.
  - refine (proj2 (proj2 (distributed_sync 64 4 0 false small_engine _ _ 0 4 None by_turns small_starts small_dist small_hops _ _ gpu_clear _ (small_up _ [] (List.Forall_nil _)) Hf3 Hn3)) _ _ _).
    + apply small_lost. vm_compute. discriminate.
    + discriminate.
    + by right.
Defined.

(** What they come to. *)
Example small_logits :
  (let '(rc, _, w) := small_eval by_turns small_dist [1; 0] 2 (small_world [1; 0] []) in (rc, dw_logits w)) = (0, [441; 442; 2205]) /\
  (let '(rc, _, w) := small_sync by_turns small_dist None [1; 0; 2; 1; 1; 0] (small_world [1; 0] []) in (rc, dw_logits w)) = (0, (local_replay 4 [1; 0; 2; 1; 1; 0]).2).
Proof. vm_compute. done. Qed.

(** Any other schedule gives the same: the caller first, the reader first, some mixture. *)
Example small_schedules :
  forallb (fun schedule =>
      let '(rc, _, w) := small_sync (small_options schedule) small_dist None [1; 0; 2; 1; 1; 0; 2; 2; 0; 1; 2; 0; 1] (small_world [1; 0] []) in
      bool_decide (rc = 0 /\ dw_logits w = (local_replay 4 [1; 0; 2; 1; 1; 0; 2; 2; 0; 1; 2; 0; 1]).2))
    [fun _ => 0%nat; fun _ => 1%nat; fun _ => 2%nat; fun k => (k * k / 3)%nat] = true.
Proof. vm_compute. done. Qed.

(** Workers that restarted, behind a prompt with more than a chunk of new tokens: the
    reader shuts the connection on the first refusal, [sync] takes it for a worker's
    error that leaves the route usable, and its replay fails.  Without the pipeline the
    same prompt is replayed. *)
Example lost_while_pipelined :
  (small_sync by_turns small_dist (Some [1; 0]) [1; 0; 2; 1; 1; 0; 2; 2] (small_world [1; 0] [])).1.1 = 1 /\
  (small_sync pipeline_off small_dist (Some [1; 0]) [1; 0; 2; 1; 1; 0; 2; 2] (small_world [1; 0] [])).1.1 = 0.
Proof. vm_compute. done. Qed.
