(* ===== verification/Gguf.v ===== *)
(** * Gguf: the model loader of ds4.c

    The byte cursor, the metadata walk, the tensor directory and the typed
    getters.  The mapping of the file is a list of bytes; a read that leaves it
    is the result [COob], which the theorems exclude.  A [ds4_str] points into
    the mapping, which never changes: it is its bytes.  Words are read with
    [memcpy] on a little-endian host.  Messages of a failed cursor carry the
    position, and [ds4_die] ends the process with them. *)

From S2P Require Import Prelude KvHeader Ctype.

(** ** The cursor *)

Record cursor := mkCursor {
  c_base : bytes;
  c_size : Z;
  c_pos : Z;
  c_error : option (bytes * Z)      (** the first message and its position *)
}.

Inductive cres (A : Type) : Type :=
| CRet (a : A) (c : cursor)
| CFail (c : cursor)
| COob                                (** a read outside the mapping *)
| CStuck.                             (** loop fuel ran out *)
Arguments CRet {A} a c.
Arguments CFail {A} c.
Arguments COob {A}.
Arguments CStuck {A}.

Definition cbind {A B} (r : cres A) (k : A -> cursor -> cres B) : cres B :=
  match r with
  | CRet a c => k a c
  | CFail c => CFail c
  | COob => COob
  | CStuck => CStuck
  end.

Declare Scope cursor_scope.
Delimit Scope cursor_scope with cur.
Notation "'scan' x , c <- m ; k" := (cbind m (fun x c => k))
  (at level 10, x name, c name, m at level 100, k at level 200) : cursor_scope.

Definition set_pos (c : cursor) (p : Z) : cursor := mkCursor (c_base c) (c_size c) p (c_error c).

Definition cursor_error (c : cursor) (msg : bytes) : cursor :=
  match c_error c with
  | None => mkCursor (c_base c) (c_size c) (c_pos c) (Some (msg, c_pos c))
  | Some _ => c
  end.

Definition cursor_has (c : cursor) (n : Z) : bool * cursor :=
  if (c_size c <? n) || (c_size c - n <? c_pos c)
  then (false, cursor_error c (bs "truncated GGUF file"))
  else (true, c).

(** The [n] bytes at [base + pos]. *)
Definition mem_read (base : bytes) (pos n : Z) : option bytes :=
  if (0 <=? pos) && (pos + n <=? zlen base) then Some (take (Z.to_nat n) (drop (Z.to_nat pos) base)) else None.

Definition cursor_read (c : cursor) (n : Z) : cres bytes :=
  let '(ok, c) := cursor_has c n in
  if negb ok then CFail c
  else match mem_read (c_base c) (c_pos c) n with
       | None => COob
       | Some b => CRet b (set_pos c (u64 (c_pos c + n)))
       end.

Definition cursor_skip (c : cursor) (n : Z) : cres unit :=
  let '(ok, c) := cursor_has c n in
  if negb ok then CFail c else CRet tt (set_pos c (u64 (c_pos c + n))).

Definition cursor_u32 (c : cursor) : cres Z :=
  (scan b, c <- cursor_read c 4; CRet (ds4_kvstore_le_get32 b) c)%cur.

Definition cursor_u64 (c : cursor) : cres Z :=
  (scan b, c <- cursor_read c 8; CRet (kv_le_get64 b) c)%cur.

Definition cursor_string (c : cursor) : cres bytes :=
  (scan len, c <- cursor_u64 c;
   let '(ok, c) := cursor_has c len in
   if negb ok then CFail c
   else match mem_read (c_base c) (c_pos c) len with
        | None => COob
        | Some s => CRet s (set_pos c (u64 (c_pos c + len)))
        end)%cur.

Definition align_up (value alignment : Z) : Z :=
  let rem := value mod alignment in
  if rem =? 0 then value else u64 (u64 (value + alignment) - rem).

(** ** Value and tensor types *)

Definition GGUF_VALUE_UINT8 : Z := 0.
Definition GGUF_VALUE_INT8 : Z := 1.
Definition GGUF_VALUE_UINT16 : Z := 2.
Definition GGUF_VALUE_INT16 : Z := 3.
Definition GGUF_VALUE_UINT32 : Z := 4.
Definition GGUF_VALUE_INT32 : Z := 5.
Definition GGUF_VALUE_FLOAT32 : Z := 6.
Definition GGUF_VALUE_BOOL : Z := 7.
Definition GGUF_VALUE_STRING : Z := 8.
Definition GGUF_VALUE_ARRAY : Z := 9.
Definition GGUF_VALUE_UINT64 : Z := 10.
Definition GGUF_VALUE_INT64 : Z := 11.
Definition GGUF_VALUE_FLOAT64 : Z := 12.

Record gguf_type_info := mkTypeInfo { ti_name : bytes; ti_block_elems : Z; ti_block_bytes : Z }.

Definition gguf_types : list (Z * gguf_type_info) := [
  (0, mkTypeInfo (bs "f32") 1 4);
  (1, mkTypeInfo (bs "f16") 1 2);
  (2, mkTypeInfo (bs "q4_0") 32 18);
  (3, mkTypeInfo (bs "q4_1") 32 20);
  (6, mkTypeInfo (bs "q5_0") 32 22);
  (7, mkTypeInfo (bs "q5_1") 32 24);
  (8, mkTypeInfo (bs "q8_0") 32 34);
  (9, mkTypeInfo (bs "q8_1") 32 40);
  (10, mkTypeInfo (bs "q2_k") 256 84);
  (11, mkTypeInfo (bs "q3_k") 256 110);
  (12, mkTypeInfo (bs "q4_k") 256 144);
  (13, mkTypeInfo (bs "q5_k") 256 176);
  (14, mkTypeInfo (bs "q6_k") 256 210);
  (15, mkTypeInfo (bs "q8_k") 256 292);
  (16, mkTypeInfo (bs "iq2_xxs") 256 66);
  (17, mkTypeInfo (bs "iq2_xs") 256 74);
  (18, mkTypeInfo (bs "iq3_xxs") 256 98);
  (19, mkTypeInfo (bs "iq1_s") 256 110);
  (20, mkTypeInfo (bs "iq4_nl") 256 50);
  (21, mkTypeInfo (bs "iq3_s") 256 110);
  (22, mkTypeInfo (bs "iq2_s") 256 82);
  (23, mkTypeInfo (bs "iq4_xs") 256 136);
  (24, mkTypeInfo (bs "i8") 1 1);
  (25, mkTypeInfo (bs "i16") 1 2);
  (26, mkTypeInfo (bs "i32") 1 4);
  (27, mkTypeInfo (bs "i64") 1 8);
  (28, mkTypeInfo (bs "f64") 1 8);
  (29, mkTypeInfo (bs "iq1_m") 256 56);
  (30, mkTypeInfo (bs "bf16") 1 2)
].

Definition scalar_value_size (type : Z) : Z :=
  if (type =? GGUF_VALUE_UINT8) || (type =? GGUF_VALUE_INT8) || (type =? GGUF_VALUE_BOOL) then 1
  else if (type =? GGUF_VALUE_UINT16) || (type =? GGUF_VALUE_INT16) then 2
  else if (type =? GGUF_VALUE_UINT32) || (type =? GGUF_VALUE_INT32) || (type =? GGUF_VALUE_FLOAT32) then 4
  else if (type =? GGUF_VALUE_UINT64) || (type =? GGUF_VALUE_INT64) || (type =? GGUF_VALUE_FLOAT64) then 8
  else 0.

Definition assoc_z {A} (k : Z) (l : list (Z * A)) : option A :=
  option_map snd (List.find (fun p => fst p =? k) l).

(** A type above the table or in one of its gaps has no entry. *)
Definition tensor_type (type : Z) : option gguf_type_info := assoc_z type gguf_types.

Definition tensor_type_name (type : Z) : bytes :=
  match tensor_type type with Some info => ti_name info | None => bs "unknown" end.

Definition tensor_nbytes (type elements : Z) : option Z :=
  match tensor_type type with
  | None => None
  | Some info =>
      if ti_block_elems info =? 0 then None
      else
        let blocks := u64 (u64 (elements + ti_block_elems info) - 1) / ti_block_elems info in
        if UINT64_MAX / ti_block_bytes info <? blocks then None
        else Some (u64 (blocks * ti_block_bytes info))
  end.

(** ** Skipping a metadata value *)

Fixpoint skip_items (skip : cursor -> cres unit) (fuel : nat) (i len : Z) (c : cursor) : cres unit :=
  if i <? len then
    match fuel with
    | O => CStuck
    | S fuel' => (scan u, c <- skip c; skip_items skip fuel' (i + 1) len c)%cur
    end
  else CRet tt c.

(** [left] is [9 - depth]: the check [depth > 8] is [left = 0]. *)
Fixpoint skip_value (left : nat) (type : Z) (c : cursor) : cres unit :=
  match left with
  | O => CFail (cursor_error c (bs "metadata array nesting is too deep"))
  | S left' =>
      let scalar := scalar_value_size type in
      if negb (scalar =? 0) then cursor_skip c scalar
      else if type =? GGUF_VALUE_STRING then
        (scan s, c <- cursor_string c; CRet tt c)%cur
      else if type =? GGUF_VALUE_ARRAY then
        (scan item_type, c <- cursor_u32 c;
         scan len, c <- cursor_u64 c;
         let item_size := scalar_value_size item_type in
         if negb (item_size =? 0) then
           if UINT64_MAX / item_size <? len
           then CFail (cursor_error c (bs "metadata array is too large"))
           else cursor_skip c (u64 (len * item_size))
         else skip_items (skip_value left' item_type) (S (length (c_base c))) 0 len c)%cur
      else CFail (cursor_error c (bs "unknown GGUF metadata type"))
  end.

(** ** The model *)

Record ds4_kv := mkKv { kv_key : bytes; kv_type : Z; kv_value_pos : Z }.

Record ds4_tensor := mkTensor {
  t_name : bytes;
  t_ndim : Z;
  t_dim : list Z;              (** the first [ndim] of the eight *)
  t_type : Z;
  t_rel_offset : Z;
  t_abs_offset : Z;
  t_elements : Z;
  t_bytes : Z
}.

Record ds4_model := mkModel {
  m_map : bytes;
  m_size : Z;
  m_version : Z;
  m_n_kv : Z;
  m_n_tensors : Z;
  m_alignment : Z;
  m_tensor_data_pos : Z;
  m_max_tensor_bytes : Z;
  m_kv : list ds4_kv;
  m_tensors : list ds4_tensor
}.

Definition cursor_at (m : ds4_model) (pos : Z) : cursor := mkCursor (m_map m) (m_size m) pos None.

Definition set_kv (m : ds4_model) (kv : list ds4_kv) : ds4_model :=
  mkModel (m_map m) (m_size m) (m_version m) (m_n_kv m) (m_n_tensors m) (m_alignment m)
    (m_tensor_data_pos m) (m_max_tensor_bytes m) kv (m_tensors m).
Definition set_alignment (m : ds4_model) (a : Z) : ds4_model :=
  mkModel (m_map m) (m_size m) (m_version m) (m_n_kv m) (m_n_tensors m) a
    (m_tensor_data_pos m) (m_max_tensor_bytes m) (m_kv m) (m_tensors m).
Definition set_tensors (m : ds4_model) (data_pos max_bytes : Z) (ts : list ds4_tensor) : ds4_model :=
  mkModel (m_map m) (m_size m) (m_version m) (m_n_kv m) (m_n_tensors m) (m_alignment m)
    data_pos max_bytes (m_kv m) ts.

Definition ds4_streq (s z : bytes) : bool := bytes_eqb s z.

Definition model_find_kv (m : ds4_model) (key : bytes) : option ds4_kv :=
  List.find (fun kv => ds4_streq (kv_key kv) key) (m_kv m).

Definition model_find_tensor (m : ds4_model) (name : bytes) : option ds4_tensor :=
  List.find (fun t => ds4_streq (t_name t) name) (m_tensors m).

(** A getter's result: the value, or [false]. *)
Definition got {A} (r : cres A) : option A := match r with CRet a _ => Some a | _ => None end.

(** The key when it has the wanted type, and a cursor at its value. *)
Definition typed_kv (m : ds4_model) (key : bytes) (type : Z) : option cursor :=
  match model_find_kv m key with
  | None => None
  | Some kv => if negb (kv_type kv =? type) then None else Some (cursor_at m (kv_value_pos kv))
  end.

Definition model_get_string (m : ds4_model) (key : bytes) : option bytes :=
  c ← typed_kv m key GGUF_VALUE_STRING; got (cursor_string c).

Definition model_get_u32 (m : ds4_model) (key : bytes) : option Z :=
  c ← typed_kv m key GGUF_VALUE_UINT32; got (cursor_u32 c).

Definition model_get_u64 (m : ds4_model) (key : bytes) : option Z :=
  c ← typed_kv m key GGUF_VALUE_UINT64; got (cursor_u64 c).

Definition model_get_u64_compat (m : ds4_model) (key : bytes) : option Z :=
  match model_find_kv m key with
  | None => None
  | Some kv =>
      let c := cursor_at m (kv_value_pos kv) in
      if kv_type kv =? GGUF_VALUE_UINT64 then got (cursor_u64 c)
      else if kv_type kv =? GGUF_VALUE_UINT32 then got (cursor_u32 c)
      else None
  end.

Definition model_get_bool (m : ds4_model) (key : bytes) : option bool :=
  c ← typed_kv m key GGUF_VALUE_BOOL;
  match cursor_read c 1 with CRet b _ => Some (negb (bytes_eqb b [0])) | _ => None end.

Record ds4_array_ref := mkArray { ar_type : Z; ar_len : Z; ar_data_pos : Z }.

Definition model_get_array (m : ds4_model) (key : bytes) : option ds4_array_ref :=
  c ← typed_kv m key GGUF_VALUE_ARRAY;
  match (scan type, c <- cursor_u32 c; scan len, c <- cursor_u64 c;
         CRet (mkArray type len (c_pos c)) c)%cur with
  | CRet a _ => Some a
  | _ => None
  end.

(** ** Loading *)

Inductive lres (A : Type) : Type :=
| LDone (a : A)
| LDie (msg : bytes)
| LOob
| LStuck.
Arguments LDone {A} a.
Arguments LDie {A} msg.
Arguments LOob {A}.
Arguments LStuck {A}.

Definition lbind {A B} (r : lres A) (k : A -> lres B) : lres B :=
  match r with
  | LDone a => k a
  | LDie m => LDie m
  | LOob => LOob
  | LStuck => LStuck
  end.

Notation "'load' x <- m ; k" := (lbind m (fun x => k))
  (at level 10, x pattern, m at level 100, k at level 200) : cursor_scope.

Definition error_text (c : cursor) : bytes :=
  match c_error c with Some (msg, pos) => msg ++ bs " at byte " ++ dec pos | None => [] end.

(** [if (!cursor_x(c, ...)) ds4_die(c->error)]. *)
Definition or_die {A} (r : cres A) : lres (A * cursor) :=
  match r with
  | CRet a c => LDone (a, c)
  | CFail c => LDie (error_text c)
  | COob => LOob
  | CStuck => LStuck
  end.

Definition read_alignment (m : ds4_model) (key : bytes) (type pos : Z) : lres ds4_model :=
  if ds4_streq key (bs "general.alignment") && (type =? GGUF_VALUE_UINT32) then
    match cursor_u32 (cursor_at m pos) with
    | CRet alignment _ => LDone (if negb (alignment =? 0) then set_alignment m alignment else m)
    | CFail _ => LDone m
    | COob => LOob
    | CStuck => LStuck
    end
  else LDone m.

(** One record of the metadata table: the body of the loop of [parse_metadata]. *)
Definition parse_kv (m : ds4_model) (c : cursor) : lres (ds4_model * cursor) :=
  (load (key, c) <- or_die (cursor_string c);
   load (type, c) <- or_die (cursor_u32 c);
   load m <- read_alignment m key type (c_pos c);
   let kv := mkKv key type (c_pos c) in
   load (_, c) <- or_die (skip_value 9 type c);
   LDone (set_kv m (m_kv m ++ [kv]), c))%cur.

(** [for (i = 0; i < n; i++) body]: every body reads at least one byte, so the
    length of the mapping is fuel enough. *)
Fixpoint for_count {S} (body : S -> cursor -> lres (S * cursor)) (fuel : nat) (i n : Z) (s : S) (c : cursor)
  : lres (S * cursor) :=
  if i <? n then
    match fuel with
    | O => LStuck
    | Datatypes.S fuel' => (load (s, c) <- body s c; for_count body fuel' (i + 1) n s c)%cur
    end
  else LDone (s, c).

(** The two tables are [calloc]ed: [alloc n size] tells whether that succeeds. *)
Definition allocator := Z -> Z -> bool.

Definition parse_metadata (alloc : allocator) (m : ds4_model) (c : cursor) : lres (ds4_model * cursor) :=
  if negb (alloc (m_n_kv m) 32) then LDie (bs "out of memory while allocating metadata table")
  else for_count parse_kv (S (length (m_map m))) 0 (m_n_kv m) (set_alignment m 32) c.

Fixpoint parse_dims (n : nat) (elements : Z) (dims : list Z) (c : cursor) : lres (Z * list Z * cursor) :=
  match n with
  | O => LDone (elements, dims, c)
  | S n' =>
      (load (d, c) <- or_die (cursor_u64 c);
       if negb (d =? 0) && (UINT64_MAX / d <? elements)
       then LDie (bs "tensor element count overflow")
       else parse_dims n' (u64 (elements * d)) (dims ++ [d]) c)%cur
  end.

Definition DS4_MAX_DIMS : Z := 8.

(** One entry of the tensor directory; an unsupported type leaves [bytes] zero. *)
Definition parse_tensor (c : cursor) : lres (ds4_tensor * cursor) :=
  (load (name, c) <- or_die (cursor_string c);
   load (ndim, c) <- or_die (cursor_u32 c);
   if (ndim =? 0) || (DS4_MAX_DIMS <? ndim)
   then LDie (bs "tensor has an unsupported number of dimensions")
   else
     load (elements, dims, c) <- parse_dims (Z.to_nat ndim) 1 [] c;
     load (type, c) <- or_die (cursor_u32 c);
     load (rel, c) <- or_die (cursor_u64 c);
     let nbytes := match tensor_nbytes type elements with Some b => b | None => 0 end in
     LDone (mkTensor name ndim dims type rel 0 elements nbytes, c))%cur.

Definition parse_directory_entry (ts : list ds4_tensor) (c : cursor) : lres (list ds4_tensor * cursor) :=
  (load (t, c) <- parse_tensor c; LDone (ts ++ [t], c))%cur.

Definition set_abs_offset (t : ds4_tensor) (abs : Z) : ds4_tensor :=
  mkTensor (t_name t) (t_ndim t) (t_dim t) (t_type t) (t_rel_offset t) abs (t_elements t) (t_bytes t).

Fixpoint place_tensors (size data_pos max_bytes : Z) (ts : list ds4_tensor)
  : lres (list ds4_tensor * Z) :=
  match ts with
  | [] => LDone ([], max_bytes)
  | t :: ts' =>
      if UINT64_MAX - data_pos <? t_rel_offset t then LDie (bs "tensor offset overflow")
      else
        let abs := u64 (data_pos + t_rel_offset t) in
        if negb (t_bytes t =? 0) && ((size <? abs) || (size - abs <? t_bytes t))
        then LDie (bs "tensor points outside GGUF file")
        else
          let max_bytes := if max_bytes <? t_bytes t then t_bytes t else max_bytes in
          (load (rest, mx) <- place_tensors size data_pos max_bytes ts';
           LDone (set_abs_offset t abs :: rest, mx))%cur
  end.

Definition parse_tensors (alloc : allocator) (m : ds4_model) (c : cursor) : lres ds4_model :=
  if negb (alloc (m_n_tensors m) 128) then LDie (bs "out of memory while allocating tensor table")
  else
    (load (ts, c) <- for_count parse_directory_entry (S (length (m_map m))) 0 (m_n_tensors m) [] c;
     let data_pos := align_up (c_pos c) (m_alignment m) in
     load (ts, mx) <- place_tensors (m_size m) data_pos (m_max_tensor_bytes m) ts;
     LDone (set_tensors m data_pos mx ts))%cur.

Definition DS4_GGUF_MAGIC : Z := 0x46554747.

(** [None]: the file cannot be opened. *)
Definition model_open (alloc : allocator) (file : option bytes) : lres ds4_model :=
  match file with
  | None => LDie (bs "cannot open model")
  | Some map =>
      if zlen map <? 32 then LDie (bs "model file is too small to be GGUF")
      else
        let m0 := mkModel map (zlen map) 0 0 0 0 0 0 [] [] in
        (load (magic, c) <- or_die (cursor_u32 (cursor_at m0 0));
         if negb (magic =? DS4_GGUF_MAGIC) then LDie (bs "model is not a GGUF file")
         else
           load (version, c) <- or_die (cursor_u32 c);
           load (n_tensors, c) <- or_die (cursor_u64 c);
           load (n_kv, c) <- or_die (cursor_u64 c);
           if negb (version =? 3) then LDie (bs "only GGUF v3 is supported")
           else
             load (m, c) <- parse_metadata alloc (mkModel map (zlen map) version n_kv n_tensors 0 0 0 [] []) c;
             parse_tensors alloc m c)%cur
  end.
