(* ===== verification/GgufFormat.v ===== *)
(** * GgufFormat: the GGUF byte format and what each reader of it accepts

    The values, metadata records and tensor records of GGUF v3 as data with
    their encoding.  [reads f P] says that the cursor function [f] accepts
    exactly the byte strings [P] describes, consumes them, and otherwise fails
    with a message: it never reads outside the mapping and never runs out of
    fuel.  [loads] is the same for the functions that end the process. *)

From S2P Require Import Prelude KvHeader Ctype Gguf.

(** ** The format *)

Inductive gval : Type :=
| GScalar (type : Z) (payload : bytes)
| GString (s : bytes)
| GArray (item n : Z) (payload : bytes)        (** scalars, stored together *)
| GList (item : Z) (items : list gval).        (** strings or arrays *)

Definition gtype (v : gval) : Z :=
  match v with
  | GScalar t _ => t
  | GString _ => GGUF_VALUE_STRING
  | GArray _ _ _ | GList _ _ => GGUF_VALUE_ARRAY
  end.

Definition enc_string (s : bytes) : bytes := kv_le_put64 (zlen s) ++ s.

Fixpoint enc_val (v : gval) : bytes :=
  match v with
  | GScalar _ p => p
  | GString s => enc_string s
  | GArray item n p => ds4_kvstore_le_put32 item ++ kv_le_put64 n ++ p
  | GList item vs => ds4_kvstore_le_put32 item ++ kv_le_put64 (zlen vs) ++ concat (map enc_val vs)
  end.

(** Well-formed with at most [left] levels. *)
Fixpoint gval_ok (left : nat) (v : gval) : Prop :=
  match left with
  | O => False
  | S left' =>
      match v with
      | GScalar t p => scalar_value_size t <> 0 /\ zlen p = scalar_value_size t
      | GString s => in_u 64 (zlen s)
      | GArray item n p =>
          in_u 32 item /\ scalar_value_size item <> 0 /\ in_u 64 n /\ zlen p = n * scalar_value_size item
      | GList item vs =>
          in_u 32 item /\ scalar_value_size item = 0 /\ in_u 64 (zlen vs) /\
          Forall (fun v => gtype v = item /\ gval_ok left' v) vs
      end
  end.

Lemma zlen_put64 v : zlen (kv_le_put64 v) = 8.
Proof. reflexivity. Qed.

(** ** Cursors over one mapping *)

(** A mapped file: bytes, of a length an [off_t] can hold. *)
Class Mapping (M : bytes) : Prop := { map_ok : bytes_ok M; map_size : zlen M < 2 ^ 63 }.

Section Map.
Context {M : bytes} {MM : Mapping M}.
#[local] Set Default Proof Using "All".

Definition cur_ok (c : cursor) : Prop :=
  c_base c = M /\ c_size c = zlen M /\ 0 <= c_pos c <= zlen M /\ c_error c = None.

(** The bytes the cursor has not read. *)
Definition rem (c : cursor) : bytes := drop (Z.to_nat (c_pos c)) M.

Definition adv (c : cursor) (n : Z) : cursor := set_pos c (c_pos c + n).

(** At one cursor: the accepted strings are consumed, anything else is refused. *)
Definition reads_at {A} (c : cursor) (f : cursor -> cres A) (P : A -> bytes -> Prop) : Prop :=
  (forall a b rest, P a b -> rem c = b ++ rest -> f c = CRet a (adv c (zlen b))) /\
  match f c with
  | CRet a c' => exists b rest, P a b /\ rem c = b ++ rest /\ c' = adv c (zlen b)
  | CFail c' => c_error c' <> None
  | COob | CStuck => False
  end.

Definition reads {A} (f : cursor -> cres A) (P : Z -> A -> bytes -> Prop) : Prop :=
  forall c, cur_ok c -> reads_at c f (P (c_pos c)).

Definition loads_at {A} (c : cursor) (f : cursor -> lres (A * cursor)) (P : A -> bytes -> Prop) : Prop :=
  (forall a b rest, P a b -> rem c = b ++ rest -> f c = LDone (a, adv c (zlen b))) /\
  match f c with
  | LDone (a, c') => exists b rest, P a b /\ rem c = b ++ rest /\ c' = adv c (zlen b)
  | LDie _ => True
  | LOob | LStuck => False
  end.

Definition loads {A} (f : cursor -> lres (A * cursor)) (P : Z -> A -> bytes -> Prop) : Prop :=
  forall c, cur_ok c -> loads_at c f (P (c_pos c)).

Lemma M_ok : bytes_ok M.
Proof. apply map_ok. Qed.

Lemma M_size : zlen M < 2 ^ 63.
Proof. apply map_size. Qed.

Lemma rem_length c : cur_ok c -> zlen (rem c) = zlen M - c_pos c.
Proof. intros (_ & _ & ? & _). unfold rem. rewrite zlen_drop. lia. Qed.

Lemma rem_ok c : bytes_ok (rem c).
Proof. apply Forall_drop, map_ok. Qed.

Lemma adv_step c b rest : cur_ok c -> rem c = b ++ rest ->
  cur_ok (adv c (zlen b)) /\ rem (adv c (zlen b)) = rest /\ c_pos c + zlen b <= zlen M.
Proof.
  intros Hc E. pose proof (rem_length c Hc) as L. rewrite E, zlen_app in L.
  destruct Hc as (B & S & P & Er). pose proof (zlen_nonneg b). pose proof (zlen_nonneg rest).
  split; [|split].
  - unfold cur_ok, adv. cbn. repeat split; try done; lia.
  - unfold rem, adv. cbn. rewrite Z2Nat.inj_add by lia. rewrite <- drop_drop.
    fold (rem c). rewrite E. unfold zlen. by rewrite Nat2Z.id, drop_app_length.
  - lia.
Qed.

Lemma adv_adv c a b : adv (adv c a) b = adv c (a + b).
Proof. unfold adv, set_pos. cbn. f_equal. lia. Qed.

Lemma adv_0 c : adv c 0 = c.
Proof. destruct c. unfold adv, set_pos. cbn. f_equal. lia. Qed.

Lemma rem_unique c b1 r1 b2 r2 : rem c = b1 ++ r1 -> rem c = b2 ++ r2 -> zlen b1 = zlen b2 -> b1 = b2 /\ r1 = r2.
Proof. intros E1 E2 L. rewrite E1 in E2. unfold zlen in L. apply app_inj_1 in E2; [done | lia]. Qed.

(** *** Composition *)

Lemma reads_at_weaken {A} c (f : cursor -> cres A) (P Q : A -> bytes -> Prop) :
  reads_at c f P -> (forall a b, P a b <-> Q a b) -> reads_at c f Q.
Proof.
  intros [H1 H2] HPQ. split.
  - intros a b rest HQ. apply H1. by apply HPQ.
  - destruct (f c); try done. destruct H2 as (b & rest & HP & ?). exists b, rest. by rewrite <- HPQ.
Qed.

Lemma reads_weaken {A} (f : cursor -> cres A) (P Q : Z -> A -> bytes -> Prop) :
  reads f P -> (forall p a b, P p a b <-> Q p a b) -> reads f Q.
Proof. intros H HPQ c Hc. eapply reads_at_weaken; [exact (H c Hc) | apply HPQ]. Qed.

Lemma reads_bind_at {A B} c (f : cursor -> cres A) (g : A -> cursor -> cres B) (P : A -> bytes -> Prop)
  (Q : A -> Z -> B -> bytes -> Prop) :
  cur_ok c -> reads_at c f P ->
  (forall a b rest, P a b -> rem c = b ++ rest ->
     reads_at (adv c (zlen b)) (g a) (Q a (c_pos c + zlen b))) ->
  reads_at c (fun c => cbind (f c) g)
    (fun r b => exists a b1 b2, b = b1 ++ b2 /\ P a b1 /\ Q a (c_pos c + zlen b1) r b2).
Proof.
  intros Hc [F1 F2] Hg. split.
  - intros r b rest (a & b1 & b2 & -> & HP & HQ) E. rewrite <- app_assoc in E.
    rewrite (F1 a b1 (b2 ++ rest) HP E). cbn [cbind].
    destruct (adv_step c b1 _ Hc E) as (Hc' & R & _).
    destruct (Hg a _ _ HP E) as [G1 _]. rewrite (G1 r b2 rest HQ R), adv_adv, zlen_app. done.
  - destruct (f c) as [a c'| c' | |]; cbn [cbind]; try done.
    destruct F2 as (b1 & rest1 & HP & E & ->).
    destruct (adv_step c b1 _ Hc E) as (Hc' & R & _).
    destruct (Hg a _ _ HP E) as [_ G2]. destruct (g a (adv c (zlen b1))) as [r c''| | |]; try done.
    destruct G2 as (b2 & rest & HQ & E2 & ->). exists (b1 ++ b2), rest. split; [|split].
    + exists a, b1, b2. done.
    + rewrite <- app_assoc, <- E2, R. done.
    + by rewrite adv_adv, zlen_app.
Qed.

Lemma reads_bind {A B} (f : cursor -> cres A) (g : A -> cursor -> cres B) P Q :
  reads f P -> (forall a p b, P p a b -> reads (g a) (Q a)) ->
  reads (fun c => cbind (f c) g)
        (fun p r b => exists a b1 b2, b = b1 ++ b2 /\ P p a b1 /\ Q a (p + zlen b1) r b2).
Proof.
  intros Hf Hg c Hc. apply (reads_bind_at c f g (P (c_pos c)) Q Hc (Hf c Hc)).
  intros a b rest HP E. destruct (adv_step c b rest Hc E) as (Hc' & _ & _). exact (Hg a _ _ HP _ Hc').
Qed.

Lemma reads_fail {A} (msg : bytes) : reads (fun c => @CFail A (cursor_error c msg)) (fun _ _ _ => False).
Proof. intros c (_ & _ & _ & E). split; [done|]. unfold cursor_error. by rewrite E. Qed.

Lemma reads_ret {A} (a : A) : reads (fun c => CRet a c) (fun _ x b => x = a /\ b = []).
Proof.
  intros c Hc. split.
  - intros x b rest [-> ->] _. by rewrite zlen_nil, adv_0.
  - exists [], (rem c). by rewrite zlen_nil, adv_0.
Qed.

Lemma loads_of_reads {A} (f : cursor -> cres A) P : reads f P -> loads (fun c => or_die (f c)) P.
Proof.
  intros H c Hc. destruct (H c Hc) as [H1 H2]. split.
  - intros a b rest HP E. by rewrite (H1 a b rest HP E).
  - by destruct (f c).
Qed.

Lemma loads_bind_at {A B} c (f : cursor -> lres (A * cursor)) (g : A -> cursor -> lres (B * cursor))
  (P : A -> bytes -> Prop) (Q : A -> Z -> B -> bytes -> Prop) :
  cur_ok c -> loads_at c f P ->
  (forall a b rest, P a b -> rem c = b ++ rest ->
     loads_at (adv c (zlen b)) (g a) (Q a (c_pos c + zlen b))) ->
  loads_at c (fun c => lbind (f c) (fun '(a, c) => g a c))
    (fun r b => exists a b1 b2, b = b1 ++ b2 /\ P a b1 /\ Q a (c_pos c + zlen b1) r b2).
Proof.
  intros Hc [F1 F2] Hg. split.
  - intros r b rest (a & b1 & b2 & -> & HP & HQ) E. rewrite <- app_assoc in E.
    rewrite (F1 a b1 (b2 ++ rest) HP E). cbn [lbind].
    destruct (adv_step c b1 _ Hc E) as (Hc' & R & _).
    destruct (Hg a _ _ HP E) as [G1 _]. rewrite (G1 r b2 rest HQ R), adv_adv, zlen_app. done.
  - destruct (f c) as [[a c']| m | |]; cbn [lbind]; try done.
    destruct F2 as (b1 & rest1 & HP & E & ->).
    destruct (adv_step c b1 _ Hc E) as (Hc' & R & _).
    destruct (Hg a _ _ HP E) as [_ G2]. destruct (g a (adv c (zlen b1))) as [[r c'']| | |]; try done.
    destruct G2 as (b2 & rest & HQ & E2 & ->). exists (b1 ++ b2), rest. split; [|split].
    + exists a, b1, b2. done.
    + rewrite <- app_assoc, <- E2, R. done.
    + by rewrite adv_adv, zlen_app.
Qed.

Lemma loads_bind {A B} (f : cursor -> lres (A * cursor)) (g : A -> cursor -> lres (B * cursor)) P Q :
  loads f P -> (forall a p b, P p a b -> loads (g a) (Q a)) ->
  loads (fun c => lbind (f c) (fun '(a, c) => g a c))
        (fun p r b => exists a b1 b2, b = b1 ++ b2 /\ P p a b1 /\ Q a (p + zlen b1) r b2).
Proof.
  intros Hf Hg c Hc. apply (loads_bind_at c f g (P (c_pos c)) Q Hc (Hf c Hc)).
  intros a b rest HP E. destruct (adv_step c b rest Hc E) as (Hc' & _ & _). exact (Hg a _ _ HP _ Hc').
Qed.

Lemma loads_at_weaken {A} c (f : cursor -> lres (A * cursor)) (P Q : A -> bytes -> Prop) :
  loads_at c f P -> (forall a b, P a b <-> Q a b) -> loads_at c f Q.
Proof.
  intros [H1 H2] HPQ. split.
  - intros a b rest HQ. apply H1. by apply HPQ.
  - destruct (f c) as [[a c']| | |]; try done. destruct H2 as (b & rest & HP & ?). exists b, rest.
    by rewrite <- HPQ.
Qed.

Lemma loads_weaken {A} (f : cursor -> lres (A * cursor)) (P Q : Z -> A -> bytes -> Prop) :
  loads f P -> (forall p a b, P p a b <-> Q p a b) -> loads f Q.
Proof. intros H HPQ c Hc. eapply loads_at_weaken; [exact (H c Hc) | apply HPQ]. Qed.

Lemma loads_ret {A} (a : A) : loads (fun c => LDone (a, c)) (fun _ x b => x = a /\ b = []).
Proof.
  intros c Hc. split.
  - intros x b rest [-> ->] _. by rewrite zlen_nil, adv_0.
  - exists [], (rem c). by rewrite zlen_nil, adv_0.
Qed.

Lemma loads_die {A} (m : bytes) : loads (fun c => @LDie (A * cursor) m) (fun _ _ _ => False).
Proof. intros c Hc. split; done. Qed.

(** *** Counted loops *)

(** [n] steps of the loop body, reading [b]. *)
Inductive lrun {S} (P : S -> Z -> S -> bytes -> Prop) : Z -> S -> Z -> S -> bytes -> Prop :=
| lrun_nil s p : lrun P 0 s p s []
| lrun_cons n s p s1 b1 s2 b2 :
    0 <= n -> P s p s1 b1 -> lrun P n s1 (p + zlen b1) s2 b2 -> lrun P (n + 1) s p s2 (b1 ++ b2).

Lemma lrun_zero {S} (P : S -> Z -> S -> bytes -> Prop) n s p s' b : lrun P n s p s' b -> n = 0 -> s' = s /\ b = [].
Proof using. clear. intros []; [done | lia]. Qed.

Lemma lrun_inv {S} (P : S -> Z -> S -> bytes -> Prop) n s p s' b : lrun P n s p s' b -> 0 < n ->
  exists s1 b1 b2, b = b1 ++ b2 /\ P s p s1 b1 /\ lrun P (n - 1) s1 (p + zlen b1) s' b2.
Proof using.
  clear. intros [] Hn; [lia|]. exists s1, b1, b2. replace (n0 + 1 - 1) with n0 by lia. done.
Qed.

Lemma for_count_loads_at {S} (Inv : S -> Prop) (body : S -> cursor -> lres (S * cursor))
  (P : S -> Z -> S -> bytes -> Prop) :
  (forall s, Inv s -> loads (body s) (P s)) ->
  (forall s p s' b, Inv s -> P s p s' b -> Inv s' /\ 0 < zlen b) ->
  forall fuel i n s c, Inv s -> cur_ok c -> (length (rem c) < fuel)%nat -> i <= n ->
    loads_at c (for_count body fuel i n s) (fun s' b => lrun P (n - i) s (c_pos c) s' b).
Proof.
  intros Hbody Hinv fuel. induction fuel as [|fuel IH]; intros i n s c Hs Hc Hf Hi; [lia|].
  unfold loads_at. cbn [for_count]. destruct (Z.ltb_spec i n) as [Hlt|Hge].
  - assert (H : loads_at c (fun c => lbind (body s c) (fun '(s, c) => for_count body fuel (i + 1) n s c))
                  (fun s' b => exists a b1 b2, b = b1 ++ b2 /\ P s (c_pos c) a b1 /\
                      lrun P (n - (i + 1)) a (c_pos c + zlen b1) s' b2)).
    { refine (loads_bind_at c (body s) (for_count body fuel (i + 1) n) _
                (fun a p s' b => lrun P (n - (i + 1)) a p s' b) Hc (Hbody s Hs c Hc) _).
      intros a b rest HP R. destruct (adv_step c b rest Hc R) as (Hc' & R' & _).
      destruct (Hinv _ _ _ _ Hs HP) as [Ha Hb]. apply IH; [done | done | | lia].
      rewrite R'. rewrite R, length_app in Hf. unfold zlen in Hb. lia. }
    eapply loads_at_weaken in H; [exact H|]. intros s' b. cbn beta. split.
    + intros (a & b1 & b2 & -> & HP & HR). replace (n - i) with (n - (i + 1) + 1) by lia.
      eapply lrun_cons; [lia | exact HP | exact HR].
    + intros HR. apply lrun_inv in HR as (s1 & b1 & b2 & -> & HP & HR); [|lia].
      replace (n - (i + 1)) with (n - i - 1) by lia. eauto 8.
  - split.
    + intros s' b rest HR R. apply lrun_zero in HR as [-> ->]; [|lia]. by rewrite zlen_nil, adv_0.
    + exists [], (rem c). rewrite zlen_nil, adv_0. split; [|done]. replace (n - i) with 0 by lia. constructor.
Qed.

(** *** The primitive readers *)

Lemma cursor_has_spec c n : cur_ok c -> 0 <= n ->
  (n <= zlen (rem c) /\ cursor_has c n = (true, c)) \/
  (zlen (rem c) < n /\ exists c', cursor_has c n = (false, c') /\ c_error c' <> None).
Proof.
  intros Hc Hn. pose proof (rem_length c Hc). destruct Hc as (B & S & P & Er).
  unfold cursor_has, cursor_error. rewrite S, Er.
  destruct ((zlen M <? n) || (zlen M - n <? c_pos c)) eqn:E.
  - right. split; [apply orb_true_iff in E as [E|E]; bool_lia|]. eexists. by split.
  - left. bool_props. split; [lia | done].
Qed.

(** A guarded read at the cursor. *)
Lemma guarded_read c n : cur_ok c -> 0 <= n <= zlen (rem c) ->
  exists b rest, rem c = b ++ rest /\ zlen b = n /\ mem_read (c_base c) (c_pos c) n = Some b /\
                 set_pos c (u64 (c_pos c + n)) = adv c n.
Proof.
  intros Hc Hn. pose proof (rem_length c Hc) as L. destruct Hc as (B & S & P & Er).
  exists (take (Z.to_nat n) (rem c)), (drop (Z.to_nat n) (rem c)).
  split; [by rewrite take_drop|]. split; [rewrite zlen_take; lia|]. split.
  - unfold mem_read. rewrite B. replace (0 <=? c_pos c) with true by (symmetry; apply Z.leb_le; lia).
    replace (c_pos c + n <=? zlen M) with true by (symmetry; apply Z.leb_le; lia). done.
  - unfold adv. unfold u64. rewrite wrap_small; [done|]. unfold in_u. pose proof M_size. lia.
Qed.

Lemma cursor_read_reads n : 0 <= n -> reads (fun c => cursor_read c n) (fun _ b b' => b = b' /\ zlen b = n).
Proof.
  intros Hn c Hc. unfold reads_at, cursor_read.
  destruct (cursor_has_spec c n Hc Hn) as [[L E]|(L & c' & E & Er)]; rewrite E; cbn [negb].
  - destruct (guarded_read c n Hc) as (b & rest & R & Lb & E' & Ea); [lia|]. rewrite E', Ea. split.
    + intros a b0 rest0 [-> L0] R0. destruct (rem_unique c _ _ _ _ R R0) as [-> _]; [lia|]. by rewrite L0.
    + exists b, rest. by rewrite Lb.
  - split; [|done]. intros a b rest [-> L0] R. rewrite R, zlen_app in L. pose proof (zlen_nonneg rest). lia.
Qed.

Lemma cursor_skip_reads n : 0 <= n -> reads (fun c => cursor_skip c n) (fun _ _ b => zlen b = n).
Proof.
  intros Hn c Hc. unfold reads_at, cursor_skip.
  destruct (cursor_has_spec c n Hc Hn) as [[L E]|(L & c' & E & Er)]; rewrite E; cbn [negb].
  - destruct (guarded_read c n Hc) as (b & rest & R & Lb & _ & Ea); [lia|]. rewrite Ea. split.
    + intros [] b0 rest0 L0 R0. by rewrite L0.
    + exists b, rest. by rewrite Lb.
  - split; [|done]. intros a b rest L0 R. rewrite R, zlen_app in L. pose proof (zlen_nonneg rest). lia.
Qed.

(** Reading [n] bytes and decoding them. *)
Lemma word_reads (n : Z) (get : bytes -> Z) (put : Z -> bytes) (w : Z) :
  0 <= n ->
  (forall v, in_u w v -> get (put v) = v /\ zlen (put v) = n) ->
  (forall p, zlen p = n -> bytes_ok p -> put (get p) = p /\ in_u w (get p)) ->
  reads (fun c => cbind (cursor_read c n) (fun b c => CRet (get b) c)) (fun _ v b => in_u w v /\ b = put v).
Proof.
  intros Hn Hput Hget c Hc.
  destruct (reads_bind _ _ _ _ (cursor_read_reads n Hn) (fun b _ _ _ => reads_ret (get b)) c Hc) as [H1 H2].
  split.
  - intros v b rest [Hv ->] R. destruct (Hput v Hv) as [G L]. apply H1 with rest; [|done].
    exists (put v), (put v), []. rewrite app_nil_r, G. done.
  - destruct (cursor_read c n) as [b0 c0| | |]; cbn [cbind] in *; try done.
    destruct H2 as (b & rest & (a & b1 & b2 & Eb & [-> L] & -> & ->) & R & Ec).
    rewrite app_nil_r in Eb. subst b1. exists b, rest. split; [|done].
    assert (bytes_ok b) by (pose proof (rem_ok c) as O; rewrite R in O; by apply Forall_app in O as [? _]).
    destruct (Hget b L H) as [G I]. by rewrite G.
Qed.

Lemma cursor_u32_reads : reads cursor_u32 (fun _ v b => in_u 32 v /\ b = ds4_kvstore_le_put32 v).
Proof.
  apply word_reads; [lia | |].
  - intros v Hv. split; [|done]. rewrite <- (app_nil_r (ds4_kvstore_le_put32 v)). by apply le_get_put32.
  - intros p L O. unfold zlen in L. split; [apply le_put_get32; [lia | done] | by apply le_get32_range].
Qed.

Lemma cursor_u64_reads : reads cursor_u64 (fun _ v b => in_u 64 v /\ b = kv_le_put64 v).
Proof.
  apply word_reads; [lia | |].
  - intros v Hv. split; [|done]. rewrite <- (app_nil_r (kv_le_put64 v)). by apply le_get_put64.
  - intros p L O. unfold zlen in L. split; [apply le_put_get64; [lia | done] | apply le_get64_range; [lia | done]].
Qed.

Lemma cursor_string_reads : reads cursor_string (fun _ s b => in_u 64 (zlen s) /\ b = enc_string s).
Proof.
  eapply reads_weaken.
  - apply (reads_bind cursor_u64 (fun len c => cursor_read c len) _
             (fun len _ s b => s = b /\ zlen s = len) cursor_u64_reads).
    intros len p b [Hlen _]. apply cursor_read_reads, Hlen.
  - unfold enc_string. intros p s b. split.
    + intros (len & b1 & b2 & -> & [Hlen ->] & -> & ->). done.
    + intros [Hs ->]. exists (zlen s), (kv_le_put64 (zlen s)), s. done.
Qed.

(** *** Values *)

(** What [skip_value] accepts as one value of a type. *)
Definition value_bytes (left : nat) (type : Z) (b : bytes) : Prop :=
  exists v, gval_ok left v /\ gtype v = type /\ b = enc_val v.

Definition items_bytes (P : bytes -> Prop) (n : Z) (b : bytes) : Prop :=
  exists bl, b = concat bl /\ zlen bl = n /\ Forall P bl.

Lemma skip_items_reads_at (sk : cursor -> cres unit) (P : bytes -> Prop) :
  reads sk (fun _ _ b => P b) -> (forall b, P b -> 0 < zlen b) ->
  forall fuel i len c, cur_ok c -> (length (rem c) < fuel)%nat -> i <= len ->
    reads_at c (skip_items sk fuel i len) (fun _ b => items_bytes P (len - i) b).
Proof.
  intros Hsk Hpos fuel. induction fuel as [|fuel IH]; intros i len c Hc Hf Hi; [lia|].
  destruct (Z.ltb_spec i len) as [Hlt|Hge].
  - assert (E : forall c, skip_items sk (S fuel) i len c
                  = cbind (sk c) (fun _ c => skip_items sk fuel (i + 1) len c)).
    { intros c0. cbn [skip_items]. destruct (Z.ltb_spec i len); [done | lia]. }
    assert (H : reads_at c (fun c => cbind (sk c) (fun _ c => skip_items sk fuel (i + 1) len c))
                  (fun _ b => exists a b1 b2, b = b1 ++ b2 /\ P b1 /\
                      (fun (_ : unit) (_ : Z) (_ : unit) b => items_bytes P (len - (i + 1)) b)
                        a (c_pos c + zlen b1) tt b2)).
    { refine (reads_bind_at c sk (fun _ => skip_items sk fuel (i + 1) len) _
                (fun _ _ _ b => items_bytes P (len - (i + 1)) b) Hc (Hsk c Hc) _).
      intros [] b rest HP R. destruct (adv_step c b rest Hc R) as (Hc' & R' & _).
      apply IH; [done | | lia]. rewrite R'. rewrite R, length_app in Hf.
      specialize (Hpos b HP). unfold zlen in Hpos. lia. }
    destruct H as [H1 H2]. unfold reads_at. rewrite E. split.
    + intros [] b rest (bl & -> & L & HF) R. destruct bl as [|b1 bl]; [rewrite zlen_nil in L; lia|].
      apply Forall_cons_iff in HF as [Hb1 Hbl]. rewrite zlen_cons in L. apply (H1 tt _ rest); [|done].
      exists tt, b1, (concat bl). split; [done|]. split; [done|]. exists bl. split; [done|]. split; [lia | done].
    + destruct (cbind _ _) as [[] c'| | |]; try done.
      destruct H2 as (b & rest & (a & b1 & b2 & -> & Hb1 & bl & -> & L & HF) & R & ->).
      exists (b1 ++ concat bl), rest. split; [|done]. exists (b1 :: bl). split; [done|].
      rewrite zlen_cons. split; [lia | by constructor].
  - assert (E : skip_items sk (S fuel) i len c = CRet tt c).
    { cbn [skip_items]. destruct (Z.ltb_spec i len); [lia | done]. }
    unfold reads_at. rewrite E. split.
    + intros [] b rest (bl & -> & L & HF) R. assert (bl = []) as -> by (apply zlen_zero_nil; pose proof (zlen_nonneg bl); lia).
      cbn. by rewrite zlen_nil, adv_0.
    + exists [], (rem c). split; [|by rewrite zlen_nil, adv_0]. exists []. rewrite zlen_nil. split; [done|]. split; [lia | done].
Qed.

Lemma items_values left item n b :
  items_bytes (value_bytes left item) n b <->
  exists vs, zlen vs = n /\ b = concat (map enc_val vs) /\ Forall (fun v => gtype v = item /\ gval_ok left v) vs.
Proof using.
  clear. split.
  - intros (bl & -> & L & HF). revert n L. induction HF as [|b1 bl (v & Hok & Ht & ->) _ IH]; intros n L.
    + exists []. done.
    + rewrite zlen_cons in L. destruct (IH (n - 1)) as (vs & Lv & E & Hvs); [lia|].
      exists (v :: vs). rewrite zlen_cons. split; [lia|]. split; [cbn; by rewrite E | by constructor].
  - intros (vs & L & -> & HF). exists (map enc_val vs). rewrite zlen_map. split; [done|]. split; [done|].
    apply Forall_map. eapply Forall_impl; [|exact HF]. intros v [Ht Hok]. by exists v.
Qed.

Lemma value_bytes_pos left type b : scalar_value_size type = 0 -> value_bytes left type b -> 0 < zlen b.
Proof using.
  clear. intros Hs (v & Hok & Ht & ->). destruct left; [done|].
  destruct v; cbn [gval_ok gtype enc_val] in *.
  - subst. destruct Hok. lia.
  - unfold enc_string. rewrite zlen_app, zlen_put64. pose proof (zlen_nonneg s). lia.
  - rewrite !zlen_app, zlen_put64, zlen_put32. pose proof (zlen_nonneg payload). lia.
  - rewrite !zlen_app, zlen_put64, zlen_put32. pose proof (zlen_nonneg (concat (map enc_val items))). lia.
Qed.

Lemma value_bytes_scalar left type b : scalar_value_size type <> 0 ->
  value_bytes (S left) type b <-> zlen b = scalar_value_size type.
Proof using.
  clear. intros Hs. split.
  - intros (v & Hok & <- & ->). destruct v; cbn [gval_ok gtype enc_val] in *; [by destruct Hok | done..].
  - intros L. by exists (GScalar type b).
Qed.

Lemma value_bytes_string left b :
  value_bytes (S left) GGUF_VALUE_STRING b <-> exists s, in_u 64 (zlen s) /\ b = enc_string s.
Proof using.
  clear. split.
  - intros (v & Hok & Ht & ->). destruct v; cbn [gval_ok gtype enc_val] in *; [subst; by destruct Hok | eauto | done..].
  - intros (s & Hs & ->). by exists (GString s).
Qed.

(** An array's bytes: its item type, its count, and the items. *)
Definition array_body (left : nat) (item n : Z) (b : bytes) : Prop :=
  if negb (scalar_value_size item =? 0) then zlen b = n * scalar_value_size item
  else items_bytes (value_bytes left item) n b.

Lemma value_bytes_array left b :
  value_bytes (S left) GGUF_VALUE_ARRAY b <->
  exists item n body, in_u 32 item /\ in_u 64 n /\ array_body left item n body /\
    b = ds4_kvstore_le_put32 item ++ kv_le_put64 n ++ body.
Proof using.
  clear. unfold array_body. split.
  - intros (v & Hok & Ht & ->). destruct v as [t p|s|item n p|item vs]; cbn [gval_ok gtype enc_val] in *;
      [subst; by destruct Hok | done | |].
    + destruct Hok as (Hi & Hs & Hn & Hp). exists item, n, p.
      destruct (Z.eqb_spec (scalar_value_size item) 0); done.
    + destruct Hok as (Hi & Hs & Hn & Hv). exists item, (zlen vs), (concat (map enc_val vs)). rewrite Hs.
      split; [done|]; split; [done|]; split; [apply items_values; eauto | done].
  - intros (item & n & body & Hi & Hn & Hb & ->).
    destruct (Z.eqb_spec (scalar_value_size item) 0) as [E|E]; cbn [negb] in Hb.
    + apply items_values in Hb as (vs & <- & -> & Hv). by exists (GList item vs).
    + by exists (GArray item n body).
Qed.

Lemma scalar_size_range type : 0 <= scalar_value_size type <= 8.
Proof using. unfold scalar_value_size. repeat case_match; lia. Qed.

Lemma scalar_cases type : scalar_value_size type <> 0 -> 1 <= scalar_value_size type <= 8.
Proof using. pose proof (scalar_size_range type). lia. Qed.

Lemma skip_value_reads left : forall type, reads (skip_value left type) (fun _ _ b => value_bytes left type b).
Proof.
  induction left as [|left IH]; intros type.
  - eapply reads_weaken; [apply reads_fail|]. intros p u b. cbn. split; [done|]. by intros (v & Hok & _).
  - cbn [skip_value]. destruct (Z.eqb_spec (scalar_value_size type) 0) as [E0|E0]; cbn [negb].
    2: { eapply reads_weaken; [apply cursor_skip_reads, scalar_size_range|]. intros p u b. cbn.
         by rewrite value_bytes_scalar. }
    destruct (Z.eqb_spec type GGUF_VALUE_STRING) as [->|Es].
    { eapply reads_weaken.
      - apply (reads_bind cursor_string (fun _ c => CRet tt c) _ (fun _ _ _ b => b = []) cursor_string_reads).
        intros s p b _. eapply reads_weaken; [apply (reads_ret tt)|]. intros p' [] b'. cbn. split; [by intros [_ ->] | by intros ->].
      - intros p u b. cbn beta. rewrite value_bytes_string. split.
        + intros (s & b1 & b2 & -> & [Hs ->] & ->). rewrite app_nil_r. eauto.
        + intros (s & Hs & ->). exists s, (enc_string s), []. by rewrite app_nil_r. }
    destruct (Z.eqb_spec type GGUF_VALUE_ARRAY) as [->|Ea].
    2: { eapply reads_weaken; [apply reads_fail|]. intros p u b. cbn. split; [done|].
         intros (v & Hok & Ht & ->). destruct v; cbn [gval_ok gtype] in *; try congruence. subst. by destruct Hok. }
    eapply reads_weaken.
    + refine (reads_bind cursor_u32 _ _
               (fun item p' _ b => exists n b1 b2, b = b1 ++ b2 /\ (in_u 64 n /\ b1 = kv_le_put64 n) /\
                                   array_body left item n b2) cursor_u32_reads _).
      intros item p b _.
      refine (reads_bind cursor_u64 _ _ (fun n _ _ b => array_body left item n b) cursor_u64_reads _).
      intros n p' b' [Hn _]. unfold array_body.
      destruct (Z.eqb_spec (scalar_value_size item) 0) as [E|E]; cbn [negb].
      * intros c Hc. pose proof (value_bytes_pos left item) as Hpos. destruct Hc as (Bc & Hc').
        pose proof (skip_items_reads_at _ _ (IH item) (fun b => Hpos b E) (S (length (c_base c))) 0 n c) as H.
        rewrite Z.sub_0_r in H. apply H; [by split | | unfold in_u in Hn; lia].
        rewrite Bc. unfold rem. rewrite length_drop. lia.
      * pose proof (scalar_cases item E). destruct (Z.ltb_spec (UINT64_MAX / scalar_value_size item) n).
        -- intros c Hc. destruct (reads_fail (A := unit) (bs "metadata array is too large") c Hc) as [_ Hf].
           split; [|exact Hf]. intros [] b2 rest L R. exfalso. pose proof (rem_length c Hc) as Lr.
           rewrite R, zlen_app in Lr. pose proof (zlen_nonneg rest). destruct Hc as (_ & _ & Hp & _).
           assert (UINT64_MAX < n * scalar_value_size item).
           { rewrite Z.mul_comm. apply Z.lt_nge. intros Hle. apply Z.div_le_mono with (c := scalar_value_size item) in Hle; [|lia].
             rewrite Z.mul_comm, Z.div_mul in Hle by lia. lia. }
           unfold UINT64_MAX in *. pose proof M_size. lia.
        -- eapply reads_weaken; [apply cursor_skip_reads, u64_range|]. intros q u b2. cbn beta.
           unfold u64. rewrite wrap_small; [done|]. unfold in_u in *. unfold UINT64_MAX in *.
           assert (n * scalar_value_size item <= 18446744073709551615); [|nia].
           transitivity (18446744073709551615 / scalar_value_size item * scalar_value_size item); [nia | zdiv_lia].
    + intros p u b. cbn beta. rewrite value_bytes_array. split.
      * intros (item & ? & ? & -> & [Hi ->] & n & ? & body & -> & [Hn ->] & Hb). eauto 8.
      * intros (item & n & body & Hi & Hn & Hb & ->). exists item, (ds4_kvstore_le_put32 item), (kv_le_put64 n ++ body).
        split; [done|]. split; [done|]. exists n, (kv_le_put64 n), body. done.
Qed.

End Map.

Arguments cur_ok M c : clear implicits.
Arguments rem M c : clear implicits.
Arguments reads_at M {A} c f P.
Arguments reads M {A} f P.
Arguments loads_at M {A} c f P.
Arguments loads M {A} f P.
