(* ===== verification/GgufLoad.v ===== *)
(** * GgufLoad: what [model_open] accepts and what it yields

    A GGUF v3 document is a list of metadata records and a list of tensor
    records.  [model_open] succeeds exactly on the files that start with the
    encoding of a well-formed document whose tensors lie inside the file, and
    its model is the one the document describes. *)

From S2P Require Import Prelude KvHeader Ctype Gguf GgufFormat.

(** ** Documents *)

Record gkv := mkGkv { g_key : bytes; g_val : gval }.

Definition enc_kv (k : gkv) : bytes :=
  enc_string (g_key k) ++ ds4_kvstore_le_put32 (gtype (g_val k)) ++ enc_val (g_val k).

Definition gkv_ok (k : gkv) : Prop :=
  in_u 64 (zlen (g_key k)) /\ in_u 32 (gtype (g_val k)) /\ gval_ok 9 (g_val k).

Record gtensor := mkGtensor { gt_name : bytes; gt_dims : list Z; gt_type : Z; gt_rel : Z }.

Definition enc_tensor (t : gtensor) : bytes :=
  enc_string (gt_name t) ++ ds4_kvstore_le_put32 (zlen (gt_dims t)) ++
  concat (map kv_le_put64 (gt_dims t)) ++ ds4_kvstore_le_put32 (gt_type t) ++ kv_le_put64 (gt_rel t).

(** Every product of leading dimensions fits in 64 bits. *)
Fixpoint dims_fit (e : Z) (dims : list Z) : Prop :=
  match dims with
  | [] => True
  | d :: dims' => in_u 64 d /\ e * d <= UINT64_MAX /\ dims_fit (e * d) dims'
  end.

Definition gtensor_ok (t : gtensor) : Prop :=
  in_u 64 (zlen (gt_name t)) /\ 1 <= zlen (gt_dims t) <= 8 /\ dims_fit 1 (gt_dims t) /\
  in_u 32 (gt_type t) /\ in_u 64 (gt_rel t).

Record gdoc := mkGdoc { g_kvs : list gkv; g_tensors : list gtensor }.

Definition enc_doc (d : gdoc) : bytes :=
  ds4_kvstore_le_put32 DS4_GGUF_MAGIC ++ ds4_kvstore_le_put32 3 ++
  kv_le_put64 (zlen (g_tensors d)) ++ kv_le_put64 (zlen (g_kvs d)) ++
  concat (map enc_kv (g_kvs d)) ++ concat (map enc_tensor (g_tensors d)).

Definition gdoc_ok (d : gdoc) : Prop :=
  in_u 64 (zlen (g_tensors d)) /\ in_u 64 (zlen (g_kvs d)) /\
  Forall gkv_ok (g_kvs d) /\ Forall gtensor_ok (g_tensors d).

(** ** The model a document describes *)

Fixpoint kv_table (p : Z) (ks : list gkv) : list ds4_kv :=
  match ks with
  | [] => []
  | k :: ks' => mkKv (g_key k) (gtype (g_val k)) (p + zlen (enc_string (g_key k)) + 4)
                :: kv_table (p + zlen (enc_kv k)) ks'
  end.

Definition kv_alignment (a : Z) (k : gkv) : Z :=
  if bytes_eqb (g_key k) (bs "general.alignment") && (gtype (g_val k) =? GGUF_VALUE_UINT32) then
    let v := ds4_kvstore_le_get32 (enc_val (g_val k)) in
    if negb (v =? 0) then v else a
  else a.

Definition doc_alignment (d : gdoc) : Z := fold_left kv_alignment (g_kvs d) 32.

(** The alignment rounds up. *)
Definition round_up (v a : Z) : Z := (v + a - 1) / a * a.

Definition doc_data_pos (d : gdoc) : Z := round_up (zlen (enc_doc d)) (doc_alignment d).

Definition elements_of (dims : list Z) : Z := fold_left Z.mul dims 1.

(** The entry of the directory before it is placed. *)
Definition tensor_entry (t : gtensor) : ds4_tensor :=
  mkTensor (gt_name t) (zlen (gt_dims t)) (gt_dims t) (gt_type t) (gt_rel t) 0 (elements_of (gt_dims t))
    (default 0 (tensor_nbytes (gt_type t) (elements_of (gt_dims t)))).

Definition placed (data_pos : Z) (t : ds4_tensor) : ds4_tensor := set_abs_offset t (data_pos + t_rel_offset t).

(** Where the tensor may lie. *)
Definition inside (size data_pos : Z) (t : ds4_tensor) : Prop :=
  data_pos + t_rel_offset t <= UINT64_MAX /\
  (t_bytes t <> 0 -> data_pos + t_rel_offset t + t_bytes t <= size).

Definition model_of (d : gdoc) (file : bytes) : ds4_model :=
  let ts := map (fun t => placed (doc_data_pos d) (tensor_entry t)) (g_tensors d) in
  mkModel file (zlen file) 3 (zlen (g_kvs d)) (zlen (g_tensors d)) (doc_alignment d) (doc_data_pos d)
    (fold_left Z.max (map t_bytes ts) 0) (kv_table 24 (g_kvs d)) ts.

(** ** Arithmetic *)

Lemma align_up_round v a : 0 <= v -> 0 < a -> v + a < 2 ^ 64 -> align_up v a = round_up v a.
Proof.
  intros Hv Ha Hs. unfold align_up, round_up, u64.
  pose proof (Z.div_mod v a ltac:(lia)). pose proof (Z.mod_pos_bound v a Ha).
  destruct (Z.eqb_spec (v mod a) 0).
  - replace (v + a - 1) with (v / a * a + (a - 1)) by lia.
    rewrite Z.add_comm, Z.div_add, Z.div_small by lia. lia.
  - rewrite !wrap_small by (unfold in_u; rewrite ?wrap_small by (unfold in_u; lia); lia).
    replace (v + a - 1) with (v mod a - 1 + (v / a + 1) * a) by lia.
    rewrite Z.div_add, Z.div_small by lia. lia.
Qed.

Lemma round_up_spec v a : 0 < a -> v <= round_up v a < v + a /\ (a | round_up v a).
Proof.
  intros Ha. unfold round_up. split; [|by apply Z.divide_factor_r].
  pose proof (Z.div_mod (v + a - 1) a ltac:(lia)). pose proof (Z.mod_pos_bound (v + a - 1) a Ha). lia.
Qed.

Lemma kv_alignment_range a k : bytes_ok (enc_val (g_val k)) -> 0 < a < 2 ^ 32 -> 0 < kv_alignment a k < 2 ^ 32.
Proof.
  intros Hv Ha. unfold kv_alignment.
  destruct (bytes_eqb _ _ && _); [|done].
  pose proof (le_get32_range _ Hv) as R. unfold in_u in R. destruct (Z.eqb_spec (ds4_kvstore_le_get32 (enc_val (g_val k))) 0); cbn; lia.
Qed.

Lemma alignment_range ks : forall a, bytes_ok (concat (map enc_kv ks)) -> 0 < a < 2 ^ 32 ->
  0 < fold_left kv_alignment ks a < 2 ^ 32.
Proof.
  induction ks as [|k ks IH]; intros a Hb Ha; cbn [fold_left map concat] in *; [done|].
  apply Forall_app in Hb as [Hk Hks]. apply IH; [done|]. apply kv_alignment_range; [|done].
  unfold enc_kv in Hk. by apply Forall_app in Hk as [_ [_ Hk]%Forall_app].
Qed.

(** ** The metadata table *)

Section Map.
Context {M : bytes} {MM : Mapping M}.
#[local] Set Default Proof Using "All".

#[local] Abbreviation Cok := (cur_ok M).
#[local] Abbreviation Rem := (rem M).
#[local] Abbreviation Loads := (loads M).
#[local] Abbreviation Loads_at := (loads_at M).

Definition on_map (m : ds4_model) : Prop := m_map m = M /\ m_size m = zlen M.

Lemma cursor_at_ok m c : on_map m -> Cok c -> Cok (cursor_at m (c_pos c)) /\ Rem (cursor_at m (c_pos c)) = Rem c.
Proof. intros [Hm Hs] (_ & _ & Hp & _). unfold cursor_at, cur_ok, rem. cbn. by rewrite Hm, Hs. Qed.

(** The alignment record reads the value before it is skipped. *)
Lemma read_alignment_spec m c key type : on_map m -> Cok c -> exists m1,
  read_alignment m key type (c_pos c) = LDone m1 /\
  (forall v rest, gval_ok 9 v -> gtype v = type -> Rem c = enc_val v ++ rest ->
     m1 = set_alignment m (kv_alignment (m_alignment m) (mkGkv key v))).
Proof.
  intros Hm Hc. unfold read_alignment, kv_alignment, ds4_streq. cbn [g_key g_val].
  assert (Hid : set_alignment m (m_alignment m) = m) by (by destruct m).
  destruct (bytes_eqb key (bs "general.alignment")); cbn [andb].
  2: { exists m. split; [done|]. intros v rest _ _ _. by rewrite Hid. }
  destruct (Z.eqb_spec type GGUF_VALUE_UINT32) as [->|Ht].
  2: { exists m. split; [done|]. intros v rest _ Hv _. rewrite Hv.
       destruct (Z.eqb_spec type GGUF_VALUE_UINT32); [done|]. by rewrite Hid. }
  destruct (cursor_at_ok m c Hm Hc) as [Hc' R].
  destruct (cursor_u32_reads _ Hc') as [U1 U2].
  destruct (cursor_u32 (cursor_at m (c_pos c))) as [a c1|c1| |]; [| |done|done].
  - destruct U2 as (b & rest1 & [Ha ->] & R1 & _). rewrite R in R1.
    eexists. split; [done|]. intros v rest Hv Ht E. rewrite Ht, Z.eqb_refl.
    rewrite E in R1. assert (Hl : ds4_kvstore_le_get32 (enc_val v) = a).
    { destruct v; cbn [gtype gval_ok enc_val] in *; [|by inversion Ht..]. subst. destruct Hv as [_ Hp].
      change (zlen payload = 4) in Hp. unfold zlen in Hp.
      apply app_inj_1 in R1 as [-> _]; [|cbn; lia].
      rewrite <- (app_nil_r (ds4_kvstore_le_put32 a)). by apply le_get_put32. }
    rewrite Hl. destruct (Z.eqb_spec a 0); cbn [negb]; [by rewrite Hid | done].
  - exists m. split; [done|]. intros v rest Hv Ht E. exfalso.
    destruct v; cbn [gtype gval_ok enc_val] in *; [|by inversion Ht..]. subst. destruct Hv as [_ Hp].
    change (zlen payload = 4) in Hp.
    destruct (le_get32_range payload) as [A B].
    { pose proof (rem_ok c) as O. rewrite E in O. by apply Forall_app in O as [? _]. }
    assert (payload = ds4_kvstore_le_put32 (ds4_kvstore_le_get32 payload)) as Ep.
    { symmetry. apply le_put_get32; [unfold zlen in Hp; lia|].
      pose proof (rem_ok c) as O. rewrite E in O. by apply Forall_app in O as [? _]. }
    rewrite Ep in E. rewrite <- R in E. specialize (U1 _ _ rest (conj (conj A B) eq_refl) E). done.
Qed.

(** The model after one more record at position [p]. *)
Definition add_kv (m : ds4_model) (p : Z) (k : gkv) : ds4_model :=
  set_kv (set_alignment m (kv_alignment (m_alignment m) k)) (m_kv m ++ kv_table p [k]).

Lemma parse_kv_loads m : on_map m ->
  Loads (parse_kv m) (fun p m' b => exists k, gkv_ok k /\ b = enc_kv k /\ m' = add_kv m p k).
Proof.
  intros Hm. unfold parse_kv.
  assert (Hval : forall key type, in_u 64 (zlen key) -> in_u 32 type ->
    Loads (fun c => (load m <- read_alignment m key type (c_pos c);
             load (_, c0) <- or_die (skip_value 9 type c);
             LDone (set_kv m (m_kv m ++ [mkKv key type (c_pos c)]), c0))%cur)
      (fun p m' b => exists v, gval_ok 9 v /\ gtype v = type /\ b = enc_val v /\
         m' = add_kv m (p - zlen (enc_string key) - 4) (mkGkv key v))).
  { intros key type Hk Ht c Hc. destruct (read_alignment_spec m c key type Hm Hc) as (m1 & E1 & Hm1).
    unfold loads_at. rewrite E1. cbn [lbind].
    destruct (skip_value_reads 9 type c Hc) as [S1 S2].
    assert (Hadd : forall v rest, gval_ok 9 v -> gtype v = type -> Rem c = enc_val v ++ rest ->
      set_kv m1 (m_kv m1 ++ [mkKv key type (c_pos c)])
      = add_kv m (c_pos c - zlen (enc_string key) - 4) (mkGkv key v)).
    { intros v rest Hv Hty E. rewrite (Hm1 v rest Hv Hty E). unfold add_kv. cbn [m_kv set_alignment kv_table g_key g_val].
      rewrite Hty. do 3 f_equal. f_equal. lia. }
    split.
    - intros m' b rest (v & Hv & Hty & -> & ->) E.
      rewrite (S1 tt (enc_val v) rest) by (done || by exists v). cbn [or_die lbind].
      by rewrite (Hadd v rest).
    - destruct (skip_value 9 type c) as [[] c'|c'| |]; cbn [or_die lbind]; try done.
      destruct S2 as (b & rest & (v & Hv & Hty & ->) & E & ->).
      exists (enc_val v), rest. split; [|done]. exists v. by rewrite (Hadd v rest). }
  eapply loads_weaken.
  - refine (loads_bind (fun c => or_die (cursor_string c)) _ _ _
              (loads_of_reads _ _ (cursor_string_reads)) _).
    intros key p b [Hk ->].
    refine (loads_bind (fun c => or_die (cursor_u32 c)) _ _ _
              (loads_of_reads _ _ (cursor_u32_reads)) _).
    intros type p' b' [Ht ->]. exact (Hval key type Hk Ht).
  - intros p m' b. cbn beta. split.
    + intros (key & ? & ? & -> & [Hk ->] & type & ? & ? & -> & [Ht ->] & v & Hv & Hty & -> & ->).
      exists (mkGkv key v). unfold gkv_ok, enc_kv. cbn [g_key g_val]. rewrite Hty. split; [done|]. split; [done|].
      rewrite zlen_put32. f_equal. lia.
    + intros ([key v] & (Hk & Ht & Hv) & -> & ->). unfold enc_kv in *. cbn [g_key g_val] in *.
      exists key, (enc_string key), (ds4_kvstore_le_put32 (gtype v) ++ enc_val v). split; [done|]. split; [done|].
      exists (gtype v), (ds4_kvstore_le_put32 (gtype v)), (enc_val v). split; [done|]. split; [done|].
      exists v. split; [done|]. split; [done|]. split; [done|]. rewrite zlen_put32. f_equal. lia.
Qed.

Definition add_kvs (m : ds4_model) (p : Z) (ks : list gkv) : ds4_model :=
  set_kv (set_alignment m (fold_left kv_alignment ks (m_alignment m))) (m_kv m ++ kv_table p ks).

Definition kv_step (m : ds4_model) (p : Z) (m' : ds4_model) (b : bytes) : Prop :=
  exists k, gkv_ok k /\ b = enc_kv k /\ m' = add_kv m p k.

Lemma add_kvs_cons m p k ks : add_kvs (add_kv m p k) (p + zlen (enc_kv k)) ks = add_kvs m p (k :: ks).
Proof using. clear. unfold add_kvs, add_kv. cbn. by rewrite <- app_assoc. Qed.

Lemma kv_run n m p m' b : lrun kv_step n m p m' b <->
  exists ks, zlen ks = n /\ Forall gkv_ok ks /\ b = concat (map enc_kv ks) /\ m' = add_kvs m p ks.
Proof using.
  clear. split.
  - induction 1 as [m p | n m p m1 b1 m2 b2 Hn (k & Hk & -> & ->) _ (ks & L & Hks & -> & ->)].
    + exists []. repeat split; [constructor|]. unfold add_kvs. cbn. rewrite app_nil_r. by destruct m.
    + exists (k :: ks). rewrite zlen_cons. split; [lia|]. split; [by constructor|]. split; [done|].
      by rewrite add_kvs_cons.
  - intros (ks & <- & Hks & -> & ->). revert m p. induction Hks as [|k ks Hk _ IH]; intros m p.
    + replace (add_kvs m p []) with m; [constructor|]. unfold add_kvs. cbn. rewrite app_nil_r. by destruct m.
    + rewrite zlen_cons, Z.add_comm, <- add_kvs_cons. cbn [map concat].
      eapply lrun_cons; [apply zlen_nonneg | by exists k | apply IH].
Qed.

Lemma enc_string_pos s : 8 <= zlen (enc_string s).
Proof using. clear. unfold enc_string. rewrite zlen_app, zlen_put64. pose proof (zlen_nonneg s). lia. Qed.

Lemma parse_kvs_loads n m c : on_map m -> Cok c -> 0 <= n ->
  Loads_at c (for_count parse_kv (S (length M)) 0 n m)
    (fun m' b => exists ks, zlen ks = n /\ Forall gkv_ok ks /\ b = concat (map enc_kv ks) /\
                            m' = add_kvs m (c_pos c) ks).
Proof.
  intros Hm Hc Hn. eapply loads_at_weaken.
  - apply (for_count_loads_at on_map parse_kv kv_step); [| | exact Hm | exact Hc | | exact Hn].
    + intros m0 Hm0. by apply parse_kv_loads.
    + intros m0 p m1 b [B S] (k & _ & -> & ->). split; [done|]. unfold enc_kv. rewrite zlen_app.
      pose proof (enc_string_pos (g_key k)). pose proof (zlen_nonneg (ds4_kvstore_le_put32 (gtype (g_val k)) ++ enc_val (g_val k))). lia.
    + unfold rem. rewrite length_drop. lia.
  - intros m' b. rewrite Z.sub_0_r. apply kv_run.
Qed.

(** ** The tensor directory *)

Lemma dims_fit_bytes n : forall e acc, 0 <= e <= UINT64_MAX ->
  Loads (parse_dims n e acc)
    (fun _ r b => exists dims, length dims = n /\ dims_fit e dims /\ b = concat (map kv_le_put64 dims) /\
                               r = (fold_left Z.mul dims e, acc ++ dims)).
Proof.
  induction n as [|n IH]; intros e acc He.
  - eapply loads_weaken; [apply (loads_ret (e, acc))|]. intros p r b. cbn. split.
    + intros [-> ->]. exists []. by rewrite app_nil_r.
    + intros ([|] & L & _ & -> & ->); [|done]. by rewrite app_nil_r.
  - cbn [parse_dims]. eapply loads_weaken.
    + refine (loads_bind (fun c => or_die (cursor_u64 c)) _ _
        (fun d _ r b => e * d <= UINT64_MAX /\ exists dims, length dims = n /\ dims_fit (e * d) dims /\
            b = concat (map kv_le_put64 dims) /\ r = (fold_left Z.mul dims (e * d), (acc ++ [d]) ++ dims))
        (loads_of_reads _ _ cursor_u64_reads) _).
      intros d p b [Hd ->]. unfold in_u in Hd.
      destruct (negb (d =? 0) && (UINT64_MAX / d <? e)) eqn:E.
      * eapply loads_weaken; [apply loads_die|]. intros q r b. cbn. split; [done|]. intros [Hm _]. bool_props.
        pose proof (Z.div_le_lower_bound UINT64_MAX d e ltac:(lia)). lia.
      * assert (Hm : e * d <= UINT64_MAX).
        { apply andb_false_iff in E as [E|E]; bool_props; [subst; unfold UINT64_MAX; lia|].
          destruct (Z.eqb_spec d 0) as [->|]; [unfold UINT64_MAX; lia|].
          transitivity (UINT64_MAX / d * d); [nia | zdiv_lia]. }
        eapply loads_weaken; [apply (IH (u64 (e * d)) (acc ++ [d]))|].
        -- pose proof (u64_range (e * d)). unfold UINT64_MAX. lia.
        -- intros q r b. unfold u64. rewrite wrap_small by (unfold in_u, UINT64_MAX in *; nia). split; [done | by intros [_ ?]].
    + intros p r b. cbn beta. split.
      * intros (d & ? & ? & -> & [Hd ->] & Hm & dims & L & Hf & -> & ->). exists (d :: dims).
        cbn [length dims_fit map concat fold_left]. rewrite <- app_assoc. split; [by rewrite L|]. done.
      * intros ([|d dims] & L & Hf & -> & ->); [done|]. cbn [length dims_fit map concat fold_left] in *.
        injection L as L. destruct Hf as (Hd & Hm & Hf). exists d, (kv_le_put64 d), (concat (map kv_le_put64 dims)).
        split; [done|]. split; [done|]. split; [done|]. exists dims. rewrite <- app_assoc. done.
Qed.

(** The end of an entry: type and offset. *)
Lemma tensor_tail_loads name ndim elements dims :
  Loads (fun c => (load (type, c) <- or_die (cursor_u32 c);
                   load (rel, c) <- or_die (cursor_u64 c);
                   let nbytes := match tensor_nbytes type elements with Some b => b | None => 0 end in
                   LDone (mkTensor name ndim dims type rel 0 elements nbytes, c))%cur)
    (fun _ t b => exists type rel, in_u 32 type /\ in_u 64 rel /\
       b = ds4_kvstore_le_put32 type ++ kv_le_put64 rel /\
       t = mkTensor name ndim dims type rel 0 elements (default 0 (tensor_nbytes type elements))).
Proof.
  eapply loads_weaken.
  - refine (loads_bind (fun c => or_die (cursor_u32 c)) _ _
      (fun type _ t b => exists rel, in_u 64 rel /\ b = kv_le_put64 rel /\
         t = mkTensor name ndim dims type rel 0 elements (default 0 (tensor_nbytes type elements)))
      (loads_of_reads _ _ cursor_u32_reads) _).
    intros type p b _. eapply loads_weaken.
    + refine (loads_bind (fun c => or_die (cursor_u64 c)) _ _ (fun rel _ t b =>
           t = mkTensor name ndim dims type rel 0 elements (default 0 (tensor_nbytes type elements)) /\ b = [])
           (loads_of_reads _ _ cursor_u64_reads) _).
      intros rel q b' _. apply loads_ret.
    + intros q t b'. cbn beta. split.
      * intros (rel & ? & ? & -> & [Hr ->] & -> & ->). rewrite app_nil_r. eauto.
      * intros (rel & Hr & -> & ->). exists rel, (kv_le_put64 rel), []. by rewrite app_nil_r.
  - intros p t b. cbn beta. split.
    + intros (type & ? & ? & -> & [Ht ->] & rel & Hr & -> & ->). eauto 8.
    + intros (type & rel & Ht & Hr & -> & ->). exists type. do 2 eexists. eauto 8.
Qed.

Lemma parse_tensor_loads :
  Loads parse_tensor (fun _ t b => exists gt, gtensor_ok gt /\ b = enc_tensor gt /\ t = tensor_entry gt).
Proof.
  unfold parse_tensor. eapply loads_weaken.
  - refine (loads_bind (fun c => or_die (cursor_string c)) _ _
      (fun name _ t b => exists dims type rel, let gt := mkGtensor name dims type rel in
         b = ds4_kvstore_le_put32 (zlen dims) ++ concat (map kv_le_put64 dims) ++
             ds4_kvstore_le_put32 type ++ kv_le_put64 rel /\
         1 <= zlen dims <= 8 /\ dims_fit 1 dims /\ in_u 32 type /\ in_u 64 rel /\ t = tensor_entry gt)
      (loads_of_reads _ _ cursor_string_reads) _).
    intros name p1 b1 [Hname _]. eapply loads_weaken.
    + refine (loads_bind (fun c => or_die (cursor_u32 c)) _ _
        (fun ndim p t b => 1 <= ndim <= 8 /\ exists dims type rel, let gt := mkGtensor name dims type rel in
           zlen dims = ndim /\
           b = concat (map kv_le_put64 dims) ++ ds4_kvstore_le_put32 type ++ kv_le_put64 rel /\
           dims_fit 1 dims /\ in_u 32 type /\ in_u 64 rel /\ t = tensor_entry gt)
        (loads_of_reads _ _ cursor_u32_reads) _).
      intros ndim p2 b2 [Hnd _]. unfold in_u, DS4_MAX_DIMS in Hnd |- *.
      destruct ((ndim =? 0) || (8 <? ndim)) eqn:E.
      * eapply loads_weaken; [apply loads_die|]. intros p t b. cbn beta. split; [done|]. intros [? _].
        apply orb_true_iff in E as [E|E]; bool_lia.
      * bool_props. eapply loads_weaken.
        -- refine (loads_bind (parse_dims (Z.to_nat ndim) 1 []) _ _
             (fun r _ t b => exists type rel, in_u 32 type /\ in_u 64 rel /\
                b = ds4_kvstore_le_put32 type ++ kv_le_put64 rel /\
                t = mkTensor name ndim (snd r) type rel 0 (fst r) (default 0 (tensor_nbytes type (fst r))))
             (dims_fit_bytes (Z.to_nat ndim) 1 [] _) _); [unfold UINT64_MAX; lia|].
           intros [elements dims] p3 b3 _. apply tensor_tail_loads.
        -- intros p t b. cbn beta. unfold tensor_entry, elements_of. split.
           ++ intros (? & ? & ? & -> & (dims & L & Hf & -> & ->) & type & rel & Ht & Hr & -> & ->).
              split; [lia|]. assert (zlen dims = ndim) as <- by (unfold zlen; lia).
              exists dims, type, rel. done.
           ++ intros (_ & dims & type & rel & <- & -> & Hf & Ht & Hr & ->).
              exists (elements_of dims, dims), (concat (map kv_le_put64 dims)). eexists. split; [done|].
              split; [exists dims; split; [unfold zlen; lia | done]|]. exists type, rel. done.
    + intros p t b. cbn beta zeta. split.
      * intros (ndim & ? & ? & -> & [Hnd ->] & Hr & dims & type & rel & <- & -> & ?). exists dims, type, rel. done.
      * intros (dims & type & rel & -> & Hd & ?). exists (zlen dims). do 2 eexists. split; [done|].
        split; [split; [unfold in_u; lia | done]|]. split; [done|]. exists dims, type, rel. done.
  - intros p t b. cbn beta zeta. unfold gtensor_ok, enc_tensor. split.
    + intros (name & ? & ? & -> & [Hn ->] & dims & type & rel & -> & Hd & Hf & Ht & Hr & ->).
      exists (mkGtensor name dims type rel). done.
    + intros ([name dims type rel] & (Hn & Hd & Hf & Ht & Hr) & -> & ->). cbn [gt_name gt_dims gt_type gt_rel] in *.
      do 3 eexists. split; [done|]. split; [done|]. exists dims, type, rel. done.
Qed.

Definition entry_step (ts : list ds4_tensor) (_ : Z) (ts' : list ds4_tensor) (b : bytes) : Prop :=
  exists gt, gtensor_ok gt /\ b = enc_tensor gt /\ ts' = ts ++ [tensor_entry gt].

Lemma entry_run n ts p ts' b : lrun entry_step n ts p ts' b <->
  exists gts, zlen gts = n /\ Forall gtensor_ok gts /\ b = concat (map enc_tensor gts) /\
              ts' = ts ++ map tensor_entry gts.
Proof using.
  clear. split.
  - induction 1 as [ts p | n ts p ts1 b1 ts2 b2 Hn (g & Hg & -> & ->) _ (gs & L & Hgs & -> & ->)].
    + exists []. rewrite app_nil_r. repeat split. constructor.
    + exists (g :: gs). rewrite zlen_cons. split; [lia|]. split; [by constructor|]. split; [done|].
      by rewrite <- app_assoc.
  - intros (gs & <- & Hgs & -> & ->). revert ts p. induction Hgs as [|g gs Hg _ IH]; intros ts p.
    + rewrite app_nil_r. constructor.
    + rewrite zlen_cons, Z.add_comm. cbn [map concat].
      replace (ts ++ tensor_entry g :: map tensor_entry gs) with ((ts ++ [tensor_entry g]) ++ map tensor_entry gs)
        by by rewrite <- app_assoc.
      eapply lrun_cons; [apply zlen_nonneg | by exists g | apply IH].
Qed.

Lemma parse_directory_loads n : 0 <= n ->
  Loads (for_count parse_directory_entry (S (length M)) 0 n [])
    (fun _ ts b => exists gts, zlen gts = n /\ Forall gtensor_ok gts /\ b = concat (map enc_tensor gts) /\
                             ts = map tensor_entry gts).
Proof.
  intros Hn c Hc. eapply loads_at_weaken.
  - apply (for_count_loads_at (fun _ => True) parse_directory_entry entry_step); [| | done | exact Hc | | exact Hn].
    + intros ts _. unfold parse_directory_entry. eapply loads_weaken.
      * refine (loads_bind parse_tensor _ _ (fun t _ ts' b => b = [] /\ ts' = ts ++ [t]) parse_tensor_loads _).
        intros t p b _. eapply loads_weaken; [apply loads_ret|]. intros q ts' b'. cbn. split; intros [? ?]; done.
      * intros p ts' b. unfold entry_step. split.
        -- intros (t & ? & ? & -> & (g & Hg & -> & ->) & -> & ->). rewrite app_nil_r. eauto.
        -- intros (g & Hg & -> & ->). do 2 eexists. exists []. rewrite app_nil_r. eauto 8.
    + intros ts p ts' b _ (g & _ & -> & _). split; [done|]. unfold enc_tensor. rewrite zlen_app.
      pose proof (enc_string_pos (gt_name g)).
      match goal with |- 0 < _ + ?z => assert (0 <= z) by apply zlen_nonneg end. lia.
    + unfold rem. rewrite length_drop. lia.
  - intros ts b. rewrite Z.sub_0_r. apply entry_run.
Qed.

End Map.

(** ** Placing the tensors *)

#[export] Instance inside_dec size p t : Decision (inside size p t).
Proof. unfold inside. apply _. Defined.

Lemma nbytes_range type elements b : tensor_nbytes type elements = Some b -> in_u 64 b.
Proof.
  unfold tensor_nbytes. intros H. repeat case_match; simplify_eq. apply u64_range.
Qed.

Lemma entry_ranges g : gtensor_ok g -> 0 <= t_rel_offset (tensor_entry g) /\ 0 <= t_bytes (tensor_entry g).
Proof.
  intros (_ & _ & _ & _ & Hr). unfold in_u in Hr. cbn. split; [lia|].
  destruct (tensor_nbytes _ _) eqn:E; cbn; [|lia]. apply nbytes_range in E. unfold in_u in E. lia.
Qed.

Lemma place_tensors_spec size p ts : forall mx,
  0 <= p -> 0 <= size < 2 ^ 64 -> Forall (fun t => 0 <= t_rel_offset t /\ 0 <= t_bytes t) ts ->
  (Forall (inside size p) ts ->
     place_tensors size p mx ts = LDone (map (placed p) ts, fold_left Z.max (map t_bytes ts) mx)) /\
  (~ Forall (inside size p) ts -> exists msg, place_tensors size p mx ts = LDie msg).
Proof.
  induction ts as [|t ts IH]; intros mx Hp Hsz Hts; [split; [done|]; intros H; by destruct H|].
  apply Forall_cons_iff in Hts as [[Hr Hb] Hts]. cbn [place_tensors map fold_left].
  destruct (Z.ltb_spec (UINT64_MAX - p) (t_rel_offset t)).
  { split; [|eauto]. intros [[? _] _]%Forall_cons_iff. lia. }
  replace (u64 (p + t_rel_offset t)) with (p + t_rel_offset t)
    by (unfold u64; rewrite wrap_small; [done | unfold in_u, UINT64_MAX in *; lia]).
  destruct (negb (t_bytes t =? 0) && _) eqn:E.
  { split; [|eauto]. intros [[? Hin] _]%Forall_cons_iff. bool_props.
    match goal with H : _ || _ = true |- _ => apply orb_true_iff in H as [H|H] end; bool_props; specialize (Hin ltac:(done)); lia. }
  assert (Ht : inside size p t).
  { split; [lia|]. intros Hnz. apply andb_false_iff in E as [E|E]; bool_props; [done | lia]. }
  replace (if mx <? t_bytes t then t_bytes t else mx) with (Z.max mx (t_bytes t)) by (destruct (Z.ltb_spec mx (t_bytes t)); lia).
  destruct (IH (Z.max mx (t_bytes t)) Hp Hsz Hts) as [I1 I2]. split.
  - intros [_ Hin]%Forall_cons_iff. by rewrite (I1 Hin).
  - intros Hn. destruct I2 as [msg ->]; [|by exists msg]. intros Hin. apply Hn. by constructor.
Qed.

(** ** The loader *)

Section Open.
Context {file : bytes} {MM : Mapping file}.
#[local] Set Default Proof Using "All".
Variable alloc : allocator.

(** The condition under which the file is accepted as [d]. *)
Definition accepts (d : gdoc) : Prop :=
  gdoc_ok d /\ 32 <= zlen file /\ (exists rest, file = enc_doc d ++ rest) /\
  alloc (zlen (g_kvs d)) 32 = true /\ alloc (zlen (g_tensors d)) 128 = true /\
  Forall (fun t => inside (zlen file) (doc_data_pos d) (tensor_entry t)) (g_tensors d).

Definition header_model (n_kv n_tensors : Z) : ds4_model :=
  mkModel file (zlen file) 3 n_kv n_tensors 0 0 0 [] [].

(** The loader up to the end of the directory, as one reader. *)
Definition read_directory (m : ds4_model) (c : cursor) : lres (ds4_model * list ds4_tensor * cursor) :=
  if negb (alloc (m_n_tensors m) 128) then LDie (bs "out of memory while allocating tensor table")
  else (load (ts, c) <- for_count parse_directory_entry (S (length (m_map m))) 0 (m_n_tensors m) [] c;
        LDone (m, ts, c))%cur.

Definition read_body (n_kv n_tensors : Z) (c : cursor) : lres (ds4_model * list ds4_tensor * cursor) :=
  (load (m, c) <- parse_metadata alloc (header_model n_kv n_tensors) c; read_directory m c)%cur.

Definition read_header (c : cursor) : lres (ds4_model * list ds4_tensor * cursor) :=
  (load (magic, c) <- or_die (cursor_u32 c);
   if negb (magic =? DS4_GGUF_MAGIC) then LDie (bs "model is not a GGUF file")
   else
     load (version, c) <- or_die (cursor_u32 c);
     load (n_tensors, c) <- or_die (cursor_u64 c);
     load (n_kv, c) <- or_die (cursor_u64 c);
     if negb (version =? 3) then LDie (bs "only GGUF v3 is supported")
     else read_body n_kv n_tensors c)%cur.

Definition finish (r : ds4_model * list ds4_tensor * cursor) : lres ds4_model :=
  let '(m, ts, c) := r in
  let data_pos := align_up (c_pos c) (m_alignment m) in
  (load (ts, mx) <- place_tensors (m_size m) data_pos (m_max_tensor_bytes m) ts;
   LDone (set_tensors m data_pos mx ts))%cur.

Lemma model_open_finish : 32 <= zlen file ->
  model_open alloc (Some file) = lbind (read_header (mkCursor file (zlen file) 0 None)) finish.
Proof.
  intros Hl. unfold model_open, read_header. destruct (Z.ltb_spec (zlen file) 32); [lia|].
  change (cursor_at _ 0) with (mkCursor file (zlen file) 0 None).
  destruct (or_die (cursor_u32 _)) as [[magic c1]| | |]; cbn [lbind]; try done.
  destruct (negb (magic =? _)); cbn [lbind]; [done|].
  destruct (or_die (cursor_u32 c1)) as [[version c2]| | |]; cbn [lbind]; try done.
  destruct (or_die (cursor_u64 c2)) as [[nt c3]| | |]; cbn [lbind]; try done.
  destruct (or_die (cursor_u64 c3)) as [[nk c4]| | |]; cbn [lbind]; try done.
  destruct (Z.eqb_spec version 3) as [->|]; cbn [negb lbind]; [|done].
  unfold read_body. fold (header_model nk nt).
  destruct (parse_metadata _ _ c4) as [[m c5]| | |]; cbn [lbind]; try done.
  unfold parse_tensors, read_directory. destruct (negb (alloc _ _)); cbn [lbind]; [done|].
  destruct (for_count _ _ _ _ _ _) as [[ts c6]| | |]; cbn [lbind]; done.
Qed.

Definition dir_bytes (m : ds4_model) (r : ds4_model * list ds4_tensor) (b : bytes) : Prop :=
  alloc (m_n_tensors m) 128 = true /\ exists gts, zlen gts = m_n_tensors m /\ Forall gtensor_ok gts /\
    b = concat (map enc_tensor gts) /\ r = (m, map tensor_entry gts).

Lemma read_directory_loads m : on_map (M := file) m -> 0 <= m_n_tensors m ->
  loads file (read_directory m) (fun _ => dir_bytes m).
Proof.
  intros [Hm _] Hn. unfold read_directory, dir_bytes. destruct (alloc (m_n_tensors m) 128); cbn [negb].
  2: { eapply loads_weaken; [apply loads_die|]. intros p r b. cbn beta. split; [done | by intros [? _]]. }
  rewrite Hm. eapply loads_weaken.
  - refine (loads_bind (for_count parse_directory_entry (S (length file)) 0 (m_n_tensors m) []) _ _
             (fun ts _ r b => r = (m, ts) /\ b = []) (parse_directory_loads _ Hn) _).
    intros ts p b _. apply (loads_ret (m, ts)).
  - intros p r b. cbn beta. split.
    + intros (ts & ? & ? & -> & (gts & L & Hg & -> & ->) & -> & ->). rewrite app_nil_r. eauto 8.
    + intros (_ & gts & L & Hg & -> & ->). do 2 eexists. exists []. rewrite app_nil_r. eauto 10.
Qed.

Definition meta_model (n_kv n_tensors : Z) (ks : list gkv) : ds4_model :=
  add_kvs (set_alignment (header_model n_kv n_tensors) 32) 24 ks.

Definition body_bytes (n_kv n_tensors : Z) (r : ds4_model * list ds4_tensor) (b : bytes) : Prop :=
  alloc n_kv 32 = true /\ exists ks b1 b2, b = b1 ++ b2 /\ zlen ks = n_kv /\ Forall gkv_ok ks /\
    b1 = concat (map enc_kv ks) /\ dir_bytes (meta_model n_kv n_tensors ks) r b2.

Lemma read_body_loads n_kv n_tensors c : cur_ok file c -> c_pos c = 24 -> 0 <= n_kv -> 0 <= n_tensors ->
  loads_at file c (read_body n_kv n_tensors) (body_bytes n_kv n_tensors).
Proof.
  intros Hc Hp Hk Ht. unfold read_body, body_bytes, parse_metadata. cbn [m_n_kv header_model m_map].
  destruct (alloc n_kv 32); cbn [negb].
  2: { eapply loads_at_weaken; [by apply (loads_die (M := file))|]. intros r b. cbn beta. split; [done | by intros [? _]]. }
  eapply loads_at_weaken.
  - refine (loads_bind_at c (for_count parse_kv (S (length file)) 0 n_kv (set_alignment (header_model n_kv n_tensors) 32))
              read_directory _ (fun m _ => dir_bytes m) Hc (parse_kvs_loads n_kv _ c _ Hc Hk) _); [done|].
    intros m b rest (ks & L & Hks & -> & ->) R. destruct (adv_step c _ _ Hc R) as (Hc' & _ & _).
    apply (read_directory_loads (add_kvs _ _ ks)); done.
  - intros r b. cbn beta. rewrite Hp. split.
    + intros (m & b1 & b2 & -> & (ks & L & Hks & -> & ->) & HD). eauto 10.
    + intros (_ & ks & b1 & b2 & -> & L & Hks & -> & HD). do 3 eexists. split; [done|]. split; [|exact HD].
      exists ks. split; [done|]. split; [done|]. by split.
Qed.

Definition doc_bytes (r : ds4_model * list ds4_tensor) (b : bytes) : Prop :=
  exists d, gdoc_ok d /\ b = enc_doc d /\ alloc (zlen (g_kvs d)) 32 = true /\ alloc (zlen (g_tensors d)) 128 = true /\
    r = (meta_model (zlen (g_kvs d)) (zlen (g_tensors d)) (g_kvs d), map tensor_entry (g_tensors d)).

Lemma body_doc r b : doc_bytes r b <->
  exists n_tensors n_kv b', in_u 64 n_tensors /\ in_u 64 n_kv /\
    b = ds4_kvstore_le_put32 DS4_GGUF_MAGIC ++ ds4_kvstore_le_put32 3 ++ kv_le_put64 n_tensors ++ kv_le_put64 n_kv ++ b' /\
    body_bytes n_kv n_tensors r b'.
Proof using.
  clear. unfold doc_bytes, body_bytes, dir_bytes, enc_doc, gdoc_ok. split.
  - intros (d & (Ht & Hk & Hks & Hts) & -> & A1 & A2 & ->). exists (zlen (g_tensors d)), (zlen (g_kvs d)).
    eexists. split; [done|]. split; [done|].
    split; [done|]. split; [done|]. exists (g_kvs d). do 2 eexists. split; [done|]. split; [done|]. split; [done|].
    split; [done|]. cbn. eauto 8.
  - intros (nt & nk & b' & Ht & Hk & -> & A1 & ks & b1 & b2 & -> & Lk & Hks & -> & A2 & gts & L & Hg & -> & ->).
    cbn in L. subst nt nk. exists (mkGdoc ks gts). done.
Qed.

Lemma start_ok : cur_ok file (mkCursor file (zlen file) 0 None).
Proof. unfold cur_ok. cbn. pose proof (zlen_nonneg file). repeat split; lia. Qed.

Lemma read_header_loads : loads_at file (mkCursor file (zlen file) 0 None) read_header doc_bytes.
Proof.
  pose proof start_ok as Hc0. unfold read_header. eapply loads_at_weaken.
  - refine (loads_bind_at _ (fun c => or_die (cursor_u32 c)) _ _
      (fun magic _ r b => magic = DS4_GGUF_MAGIC /\ exists version b1 b2, b = b1 ++ b2 /\
         (in_u 32 version /\ b1 = ds4_kvstore_le_put32 version) /\
         exists nt b3 b4, b2 = b3 ++ b4 /\ (in_u 64 nt /\ b3 = kv_le_put64 nt) /\
         exists nk b5 b6, b4 = b5 ++ b6 /\ (in_u 64 nk /\ b5 = kv_le_put64 nk) /\
         version = 3 /\ body_bytes nk nt r b6)
      Hc0 (loads_of_reads _ _ cursor_u32_reads _ Hc0) _).
    intros magic b1 r1 [_ ->] R1. destruct (adv_step _ _ _ Hc0 R1) as (Hc1 & _ & _).
    destruct (Z.eqb_spec magic DS4_GGUF_MAGIC) as [->|]; cbn [negb].
    2: { eapply loads_at_weaken; [by apply (loads_die (M := file))|]. intros r b. cbn beta. split; [done | by intros [? _]]. }
    eapply loads_at_weaken; [|intros r b; split; [by intros H; split; [|exact H] | by intros [_ H]]].
    refine (loads_bind_at _ (fun c => or_die (cursor_u32 c)) _ _
       (fun version _ r b => exists nt b3 b4, b = b3 ++ b4 /\ (in_u 64 nt /\ b3 = kv_le_put64 nt) /\
         exists nk b5 b6, b4 = b5 ++ b6 /\ (in_u 64 nk /\ b5 = kv_le_put64 nk) /\
         version = 3 /\ body_bytes nk nt r b6) Hc1 (loads_of_reads _ _ cursor_u32_reads _ Hc1) _).
    intros version b2 r2 [_ ->] R2. destruct (adv_step _ _ _ Hc1 R2) as (Hc2 & _ & _).
    refine (loads_bind_at _ (fun c => or_die (cursor_u64 c)) _ _
       (fun nt _ r b => exists nk b5 b6, b = b5 ++ b6 /\ (in_u 64 nk /\ b5 = kv_le_put64 nk) /\
         version = 3 /\ body_bytes nk nt r b6) Hc2 (loads_of_reads _ _ cursor_u64_reads _ Hc2) _).
    intros nt b3 r3 [Hnt ->] R3. destruct (adv_step _ _ _ Hc2 R3) as (Hc3 & _ & _).
    refine (loads_bind_at _ (fun c => or_die (cursor_u64 c)) _ _
       (fun nk _ r b => version = 3 /\ body_bytes nk nt r b) Hc3 (loads_of_reads _ _ cursor_u64_reads _ Hc3) _).
    intros nk b4 r4 [Hnk ->] R4. destruct (adv_step _ _ _ Hc3 R4) as (Hc4 & _ & _).
    destruct (Z.eqb_spec version 3) as [->|]; cbn [negb].
    2: { eapply loads_at_weaken; [by apply (loads_die (M := file))|]. intros r b. cbn beta. split; [done | by intros [? _]]. }
    eapply loads_at_weaken; [|intros r b; split; [by intros H; split; [|exact H] | by intros [_ H]]].
    unfold in_u in *. apply read_body_loads; [done | reflexivity | lia | lia].
  - intros r b. cbn beta. rewrite body_doc. split.
    + intros (m & ? & ? & -> & [Hm ->] & -> & v & ? & ? & -> & [Hv ->] & nt & ? & ? & -> & [Hnt ->] & nk & ? & ? & -> & [Hnk ->] & -> & HB).
      eauto 10.
    + intros (nt & nk & b' & Hnt & Hnk & -> & HB).
      exists DS4_GGUF_MAGIC. do 2 eexists. split; [done|]. split; [by split|]. split; [done|].
      exists 3. do 2 eexists. split; [done|]. split; [by split|].
      exists nt. do 2 eexists. split; [done|]. split; [by split|].
      exists nk. do 2 eexists. split; [done|]. by split.
Qed.

(** The last stage on a document's directory. *)
Lemma finish_doc d rest : gdoc_ok d -> file = enc_doc d ++ rest ->
  let r := (meta_model (zlen (g_kvs d)) (zlen (g_tensors d)) (g_kvs d), map tensor_entry (g_tensors d),
            adv (mkCursor file (zlen file) 0 None) (zlen (enc_doc d))) in
  let fits := Forall (fun t => inside (zlen file) (doc_data_pos d) (tensor_entry t)) (g_tensors d) in
  (fits -> finish r = LDone (model_of d file)) /\ (~ fits -> exists msg, finish r = LDie msg).
Proof.
  intros (_ & _ & Hks & Hts) E r fits. subst r. unfold finish, fits, adv, meta_model, add_kvs.
  cbn [c_pos set_pos m_alignment set_kv set_alignment m_size m_max_tensor_bytes header_model m_kv].
  fold (doc_alignment d). rewrite Z.add_0_l.
  assert (Hb : bytes_ok (concat (map enc_kv (g_kvs d)))).
  { pose proof (map_ok (M := file)) as O. rewrite E in O. apply Forall_app in O as [O _].
    unfold enc_doc in O. rewrite !Forall_app in O. apply O. }
  pose proof (alignment_range (g_kvs d) 32 Hb ltac:(lia)) as Ha. fold (doc_alignment d) in Ha.
  assert (Hs : zlen (enc_doc d) <= zlen file) by (pose proof (f_equal zlen E) as El; rewrite zlen_app in El; pose proof (zlen_nonneg rest); lia).
  pose proof (map_size (M := file)). pose proof (zlen_nonneg (enc_doc d)).
  rewrite align_up_round by lia. fold (doc_data_pos d).
  pose proof (round_up_spec (zlen (enc_doc d)) (doc_alignment d) ltac:(lia)) as [Hr _]. fold (doc_data_pos d) in Hr.
  destruct (place_tensors_spec (zlen file) (doc_data_pos d) (map tensor_entry (g_tensors d)) 0) as [P1 P2];
    [lia | lia | |].
  { apply Forall_map. eapply Forall_impl; [|exact Hts]. intros g. apply entry_ranges. }
  rewrite Forall_map in P1, P2. split.
  - intros Hf. rewrite P1 by exact Hf. cbn [lbind]. unfold model_of, set_tensors. cbn.
    rewrite !map_map. cbn. done.
  - intros Hf. destruct (P2 Hf) as [msg ->]. by exists msg.
Qed.

Lemma model_open_cases :
  (exists d, accepts d /\ model_open alloc (Some file) = LDone (model_of d file)) \/
  ((forall d, ~ accepts d) /\ exists msg, model_open alloc (Some file) = LDie msg).
Proof.
  destruct (Z.ltb_spec (zlen file) 32) as [Hl|Hl].
  { right. split; [intros d (_ & ? & _); lia|]. unfold model_open. destruct (Z.ltb_spec (zlen file) 32); [eauto | lia]. }
  rewrite model_open_finish by done. destruct read_header_loads as [H1 H2].
  destruct (read_header _) as [[r c]|msg| |] eqn:E; cbn [lbind] in *; [| |done|done].
  - destruct H2 as (b & rest & (d & Hd & -> & A1 & A2 & ->) & R & ->). change (rem file _) with file in R.
    destruct (finish_doc d rest Hd R) as [F1 F2].
    destruct (decide (Forall (fun t => inside (zlen file) (doc_data_pos d) (tensor_entry t)) (g_tensors d))) as [Hf|Hf].
    + left. exists d. split; [|by apply F1]. repeat (split; [done|]). split; [by exists rest|]. done.
    + right. split; [|by apply F2]. intros d' (Hd' & _ & [rest' R'] & A1' & A2' & Hf').
      assert (Hdoc : doc_bytes (meta_model (zlen (g_kvs d')) (zlen (g_tensors d')) (g_kvs d'), map tensor_entry (g_tensors d'))
                       (enc_doc d')) by by exists d'.
      specialize (H1 _ _ rest' Hdoc R'). destruct (F2 Hf) as [msg Hm].
      destruct (finish_doc d' rest' Hd' R') as [F1' _]. cbv zeta in F1', Hm.
      assert (Hinj : forall x y, LDone x = LDone y -> finish x = finish y) by congruence.
      apply Hinj in H1. rewrite Hm in H1. rewrite <- H1 in F1'. by specialize (F1' Hf').
  - right. split; [|by exists msg]. intros d (Hd & _ & [rest R] & A1 & A2 & _).
    assert (Hdoc : doc_bytes (meta_model (zlen (g_kvs d)) (zlen (g_tensors d)) (g_kvs d), map tensor_entry (g_tensors d))
                     (enc_doc d)) by by exists d.
    specialize (H1 _ _ rest Hdoc R). done.
Qed.

Lemma model_open_accepts d : accepts d -> model_open alloc (Some file) = LDone (model_of d file).
Proof.
  intros (Hd & Hl & [rest R] & A1 & A2 & Hf). rewrite model_open_finish by done.
  destruct read_header_loads as [H1 _].
  assert (Hdoc : doc_bytes (meta_model (zlen (g_kvs d)) (zlen (g_tensors d)) (g_kvs d), map tensor_entry (g_tensors d))
                   (enc_doc d)) by by exists d.
  specialize (H1 _ _ rest Hdoc R). destruct (finish_doc d rest Hd R) as [F1 _]. cbv zeta in F1.
  rewrite H1. cbn [lbind]. by apply F1.
Qed.

(** C15. For a mapped file of bytes shorter than 2^63 and every allocator,
    [model_open] succeeds exactly when the file starts with the encoding of a
    well-formed GGUF v3 document (nesting at most eight levels, one to eight
    dimensions whose products fit 64 bits) whose tables can be allocated and
    whose tensors lie inside the file; the model is then the one the document
    describes: keys with the positions of their values, tensors with their
    absolute offsets and sizes, the alignment of the last alignment record.  In
    every other case it dies with a message.  It never reads outside the mapping
    and its loops end. *)
Theorem model_open_spec :
  (forall m, model_open alloc (Some file) = LDone m <-> exists d, accepts d /\ m = model_of d file) /\
  ((forall d, ~ accepts d) -> exists msg, model_open alloc (Some file) = LDie msg).
Proof.
  split.
  - intros m. split.
    + intros Hm. destruct model_open_cases as [(d & Hd & E)|(_ & msg & E)]; rewrite E in Hm; [|done].
      exists d. split; [done | congruence].
    + intros (d & Hd & ->). by apply model_open_accepts.
  - intros Hn. destruct model_open_cases as [(d & Hd & _)|(_ & Hmsg)]; [by destruct (Hn d) | done].
Qed.

(** ** The getters on a loaded model *)

Definition doc_find (d : gdoc) (key : bytes) : option gval :=
  option_map g_val (List.find (fun k => bytes_eqb (g_key k) key) (g_kvs d)).

Lemma kv_table_find key ks : forall p,
  match List.find (fun k => bytes_eqb (g_key k) key) ks with
  | None => List.find (fun kv => bytes_eqb (kv_key kv) key) (kv_table p ks) = None
  | Some k => exists pre post, ks = pre ++ k :: post /\
      List.find (fun kv => bytes_eqb (kv_key kv) key) (kv_table p ks)
      = Some (mkKv (g_key k) (gtype (g_val k)) (p + zlen (concat (map enc_kv pre)) + zlen (enc_string (g_key k)) + 4))
  end.
Proof using.
  clear. induction ks as [|k ks IH]; intros p; [done|]. cbn [List.find kv_table kv_key].
  destruct (bytes_eqb (g_key k) key).
  - exists [], ks. split; [done|]. cbn [map concat]. rewrite (@zlen_nil Z). do 2 f_equal. lia.
  - specialize (IH (p + zlen (enc_kv k))). destruct (List.find _ ks) as [k'|].
    + destruct IH as (pre & post & -> & E). exists (k :: pre), post. split; [done|]. rewrite E.
      cbn [map concat]. rewrite zlen_app. do 2 f_equal. lia.
    + done.
Qed.

(** The value of a key, under a cursor. *)
Lemma find_value d key : accepts d ->
  match doc_find d key with
  | None => model_find_kv (model_of d file) key = None
  | Some v => gval_ok 9 v /\ bytes_ok (enc_val v) /\ exists kv rest,
      model_find_kv (model_of d file) key = Some kv /\ kv_type kv = gtype v /\
      cur_ok file (cursor_at (model_of d file) (kv_value_pos kv)) /\
      rem file (cursor_at (model_of d file) (kv_value_pos kv)) = enc_val v ++ rest
  end.
Proof.
  intros ((_ & _ & Hks & _) & _ & [rest R] & _). unfold doc_find, model_find_kv, ds4_streq. cbn [m_kv model_of].
  pose proof (kv_table_find key (g_kvs d) 24) as H. destruct (List.find _ (g_kvs d)) as [k|]; [|exact H].
  destruct H as (pre & post & E & F). cbn [option_map]. rewrite E in Hks.
  apply Forall_app in Hks as [_ [Hk _]%Forall_cons_iff]. destruct Hk as (Hk1 & Hk2 & Hk3).
  set (front := ds4_kvstore_le_put32 DS4_GGUF_MAGIC ++ ds4_kvstore_le_put32 3 ++ kv_le_put64 (zlen (g_tensors d)) ++
                kv_le_put64 (zlen (g_kvs d)) ++ concat (map enc_kv pre) ++
                enc_string (g_key k) ++ ds4_kvstore_le_put32 (gtype (g_val k))).
  set (back := concat (map enc_kv post) ++ concat (map enc_tensor (g_tensors d)) ++ rest).
  assert (Ef : file = front ++ enc_val (g_val k) ++ back).
  { rewrite R at 1. unfold enc_doc, front, back. rewrite E at 2. rewrite map_app, concat_app. cbn [map concat].
    unfold enc_kv at 2. by rewrite <- !app_assoc. }
  assert (Lf : zlen front = 24 + zlen (concat (map enc_kv pre)) + zlen (enc_string (g_key k)) + 4).
  { unfold front. rewrite !zlen_app, !zlen_put32, !zlen_put64. lia. }
  split; [done|]. split.
  { pose proof (map_ok (M := file)) as O. rewrite Ef in O. rewrite !Forall_app in O. apply O. }
  eexists _, back. split; [exact F|]. split; [done|]. cbn [kv_value_pos]. unfold cursor_at. cbn [m_map m_size model_of].
  rewrite <- Lf. clearbody front back. split.
  - unfold cur_ok. cbn [c_base c_size c_pos c_error]. pose proof (f_equal zlen Ef) as L. rewrite !zlen_app in L.
    pose proof (zlen_nonneg front). pose proof (zlen_nonneg (enc_val (g_val k))). pose proof (zlen_nonneg back).
    repeat split; lia.
  - unfold rem. cbn [c_pos]. rewrite Ef. unfold zlen. by rewrite Nat2Z.id, drop_app_length.
Qed.

(** Reading the first bytes under a cursor. *)
Lemma got_u32 c p rest : cur_ok file c -> rem file c = p ++ rest -> zlen p = 4 -> bytes_ok p ->
  cursor_u32 c = CRet (ds4_kvstore_le_get32 p) (adv c 4).
Proof.
  intros Hc R L O. destruct (cursor_u32_reads c Hc) as [H _].
  rewrite <- (le_put_get32 p) in R by (done || unfold zlen in L; lia).
  exact (H _ _ rest (conj (le_get32_range p O) eq_refl) R).
Qed.

Lemma got_u64 c p rest : cur_ok file c -> rem file c = p ++ rest -> zlen p = 8 -> bytes_ok p ->
  cursor_u64 c = CRet (kv_le_get64 p) (adv c 8).
Proof.
  intros Hc R L O. destruct (cursor_u64_reads c Hc) as [H _].
  assert (length p = 8%nat) by (unfold zlen in L; lia).
  rewrite <- (le_put_get64 p) in R by done.
  exact (H _ _ rest (conj (le_get64_range p ltac:(done) O) eq_refl) R).
Qed.

(** What a value is as a number, a string, a flag or an array. *)
Definition as_u32 (v : gval) : option Z :=
  match v with GScalar t p => if t =? GGUF_VALUE_UINT32 then Some (ds4_kvstore_le_get32 p) else None | _ => None end.
Definition as_u64 (v : gval) : option Z :=
  match v with GScalar t p => if t =? GGUF_VALUE_UINT64 then Some (kv_le_get64 p) else None | _ => None end.
Definition as_string (v : gval) : option bytes := match v with GString s => Some s | _ => None end.
Definition as_bool (v : gval) : option bool :=
  match v with GScalar t p => if t =? GGUF_VALUE_BOOL then Some (negb (bytes_eqb p [0])) else None | _ => None end.

Definition first_some {A} (x y : option A) : option A := match x with Some a => Some a | None => y end.

(** C40. On a loaded model every getter answers from the document: the value of
    the first record of that key if it has the wanted type, and [false]
    otherwise; the read behind it cannot fail any more. *)
Theorem getters_correct d key : accepts d ->
  let m := model_of d file in
  model_get_u32 m key = (doc_find d key ≫= as_u32) /\
  model_get_u64 m key = (doc_find d key ≫= as_u64) /\
  model_get_u64_compat m key = (v ← doc_find d key; first_some (as_u64 v) (as_u32 v)) /\
  model_get_string m key = (doc_find d key ≫= as_string) /\
  model_get_bool m key = (doc_find d key ≫= as_bool).
Proof.
  intros Hd m. subst m. pose proof (find_value d key Hd) as H.
  unfold model_get_u32, model_get_u64, model_get_u64_compat, model_get_string, model_get_bool, typed_kv.
  destruct (doc_find d key) as [v|]; cbn [mbind option_bind].
  2: { rewrite H. done. }
  destruct H as (Hv & O & kv & rest & -> & Ht & Hc & R). rewrite Ht. set (c := cursor_at _ _) in *.
  destruct v as [t p|s|item n p|item vs]; cbn [gtype gval_ok enc_val as_u32 as_u64 as_string as_bool] in *.
  2: { destruct (cursor_string_reads c Hc) as [S _]. rewrite Z.eqb_refl. cbn [negb mbind option_bind]. rewrite (S s _ rest (conj Hv eq_refl) R). done. }
  2: done.
  2: done.
  destruct Hv as [Hs Hp]. cbn [first_some].
  destruct (Z.eqb_spec t GGUF_VALUE_UINT32) as [->|N32].
  { change (scalar_value_size _) with 4 in Hp. cbn [negb mbind option_bind]. rewrite (got_u32 c p rest Hc R Hp O). done. }
  destruct (Z.eqb_spec t GGUF_VALUE_UINT64) as [->|N64].
  { change (scalar_value_size _) with 8 in Hp. cbn [negb mbind option_bind]. rewrite (got_u64 c p rest Hc R Hp O). done. }
  destruct (Z.eqb_spec t GGUF_VALUE_STRING) as [->|Ns]; [done|].
  destruct (Z.eqb_spec t GGUF_VALUE_BOOL) as [->|Nb]; cbn [negb mbind option_bind first_some]; [|done].
  change (scalar_value_size _) with 1 in Hp.
  destruct (cursor_read_reads 1 ltac:(lia) c Hc) as [B _]. by rewrite (B p p rest (conj eq_refl Hp) R).
Qed.

End Open.

(** ** Sizes *)

Definition blocks_of (elements block : Z) : Z := (elements + block - 1) / block.

Lemma gguf_types_sane type info : tensor_type type = Some info ->
  1 <= ti_block_elems info <= 256 /\ 1 <= ti_block_bytes info <= 292.
Proof.
  assert (H : forallb (fun p => (1 <=? ti_block_elems (snd p)) && (ti_block_elems (snd p) <=? 256) &&
                          (1 <=? ti_block_bytes (snd p)) && (ti_block_bytes (snd p) <=? 292)) gguf_types = true)
    by (vm_compute; reflexivity).
  unfold tensor_type, assoc_z. destruct (List.find _ gguf_types) as [[k i]|] eqn:E; [|done].
  intros [= ->]. apply List.find_some in E as [E _]. apply (proj1 (List.forallb_forall _ _) H) in E.
  cbn [snd] in E. bool_lia.
Qed.

Lemma tensor_nbytes_exact type info elements b :
  tensor_type type = Some info -> 0 <= elements -> elements + ti_block_elems info <= 2 ^ 64 ->
  tensor_nbytes type elements = Some b -> b = blocks_of elements (ti_block_elems info) * ti_block_bytes info.
Proof.
  intros Ht He Hs. unfold tensor_nbytes. rewrite Ht. pose proof (gguf_types_sane _ _ Ht) as [Hb1 Hb2].
  destruct (Z.eqb_spec (ti_block_elems info) 0); [lia|]. fold (blocks_of elements (ti_block_elems info)).
  assert (E : u64 (u64 (elements + ti_block_elems info) - 1) = elements + ti_block_elems info - 1).
  { destruct (Z.eq_dec (elements + ti_block_elems info) (2 ^ 64)) as [->|]; [reflexivity|].
    unfold u64. rewrite !wrap_small by (unfold in_u; rewrite ?wrap_small by (unfold in_u; lia); lia). done. }
  rewrite E. fold (blocks_of elements (ti_block_elems info)).
  destruct (Z.ltb_spec (UINT64_MAX / ti_block_bytes info) (blocks_of elements (ti_block_elems info))); [done|].
  intros [= <-]. unfold u64. apply wrap_small. unfold in_u, UINT64_MAX in *.
  assert (0 <= blocks_of elements (ti_block_elems info)) by (unfold blocks_of; apply Z.div_pos; lia).
  split; [nia|]. assert (18446744073709551615 / ti_block_bytes info * ti_block_bytes info <= 18446744073709551615) by zdiv_lia. nia.
Qed.

Lemma fold_max_ge l : forall a x, x ∈ l -> x <= fold_left Z.max l a.
Proof.
  assert (H : forall l a, a <= fold_left Z.max l a).
  { induction l0 as [|y l0 IH]; intros a; cbn; [lia|]. etransitivity; [|apply IH]. lia. }
  induction l as [|y l IH]; intros a x Hx; [by apply elem_of_nil in Hx|]. cbn.
  apply elem_of_cons in Hx as [->|Hx]; [|by apply IH]. etransitivity; [|apply H]. lia.
Qed.

Lemma dims_fit_range dims : forall e, 0 <= e <= UINT64_MAX -> dims_fit e dims -> 0 <= fold_left Z.mul dims e <= UINT64_MAX.
Proof.
  induction dims as [|d dims IH]; intros e He Hf; [done|]. destruct Hf as (Hd & Hm & Hf). cbn.
  apply IH; [|done]. unfold in_u in Hd. nia.
Qed.

(** C22. After a successful load every tensor with a size lies inside the file, is
    no larger than the recorded maximum, has a known type, and, when its element
    count plus a block does not exceed 2^64, its size is exactly its number of
    blocks times the bytes of a block. *)
Theorem loaded_tensors_inside file `{!Mapping file} alloc m t :
  model_open alloc (Some file) = LDone m -> t ∈ m_tensors m -> t_bytes t <> 0 ->
  0 <= t_abs_offset t /\ t_abs_offset t + t_bytes t <= zlen file /\ 0 < t_bytes t <= m_max_tensor_bytes m /\
  exists info, tensor_type (t_type t) = Some info /\
    (t_elements t + ti_block_elems info <= 2 ^ 64 ->
     t_bytes t = blocks_of (t_elements t) (ti_block_elems info) * ti_block_bytes info).
Proof.
  intros Hm Ht Hb. destruct (model_open_cases (file := file) alloc) as [(d & Hd & E)|(_ & msg & E)]; rewrite E in Hm; [|done].
  injection Hm as <-. cbn [m_tensors m_max_tensor_bytes model_of] in *.
  destruct Hd as ((_ & _ & _ & Hts) & _ & [rest R] & _ & _ & Hin).
  assert (Hmax : t_bytes t <= fold_left Z.max (map t_bytes (map (fun t => placed (doc_data_pos d) (tensor_entry t)) (g_tensors d))) 0).
  { apply fold_max_ge, list_elem_of_In, in_map. by apply list_elem_of_In. }
  apply list_elem_of_In, in_map_iff in Ht as (g & <- & Hg). apply list_elem_of_In in Hg.
  pose proof (Forall_elem _ _ _ Hts Hg) as Hg1. pose proof (Forall_elem _ _ _ Hin Hg) as [Hi1 Hi2].
  pose proof (entry_ranges g Hg1) as [Hr Hb0]. cbn [t_abs_offset t_bytes t_type t_elements placed set_abs_offset] in *.
  assert (0 <= doc_data_pos d).
  { unfold doc_data_pos. assert (Ha : 0 < doc_alignment d < 2 ^ 32).
    { apply alignment_range; [|lia]. pose proof (map_ok (M := file)) as O. rewrite R in O. apply Forall_app in O as [O _].
      unfold enc_doc in O. rewrite !Forall_app in O. apply O. }
    pose proof (round_up_spec (zlen (enc_doc d)) (doc_alignment d) ltac:(lia)) as [? _].
    pose proof (zlen_nonneg (enc_doc d)). lia. }
  split; [lia|]. split; [by apply Hi2|]. split; [lia|].
  cbn [tensor_entry t_bytes t_type t_elements] in *.
  destruct (tensor_nbytes (gt_type g) (elements_of (gt_dims g))) as [b|] eqn:En; [|done]. cbn [default from_option id] in *.
  destruct (tensor_type (gt_type g)) as [info|] eqn:Et; [|by unfold tensor_nbytes in En; rewrite Et in En].
  exists info. split; [done|]. intros Hs. eapply tensor_nbytes_exact; [exact Et | | exact Hs | exact En].
  destruct Hg1 as (_ & _ & Hf & _). apply (dims_fit_range _ 1 ltac:(unfold UINT64_MAX; lia)) in Hf. unfold elements_of. lia.
Qed.

(** An element count within a block of 2^64 wraps to a size of zero, and the
    bounds of such a tensor are not checked. *)
Example nbytes_wraps : tensor_nbytes 8 UINT64_MAX = Some 0.
Proof. reflexivity. Qed.

(** ** A file *)

#[export] Instance gval_ok_dec left : forall v, Decision (gval_ok left v).
Proof.
  induction left as [|left IH]; intros v; cbn; [apply _|]. destruct v; try apply _.
Defined.

#[export] Instance dims_fit_dec dims : forall e, Decision (dims_fit e dims).
Proof. induction dims as [|d dims IH]; intros e; cbn; [apply _|]. repeat (apply and_dec; [apply _|]). apply IH. Defined.

#[export] Instance gdoc_ok_dec d : Decision (gdoc_ok d).
Proof. unfold gdoc_ok, gkv_ok, gtensor_ok. apply _. Defined.

Definition demo_doc : gdoc := mkGdoc
  [mkGkv (bs "general.alignment") (GScalar 4 [64; 0; 0; 0]);
   mkGkv (bs "name") (GString (bs "ds4"));
   mkGkv (bs "tags") (GList 8 [GString (bs "a"); GString (bs "bc")]);
   mkGkv (bs "n") (GScalar 4 [7; 1; 0; 0])]
  [mkGtensor (bs "w") [2; 3] 0 0; mkGtensor (bs "q") [33] 8 64].

Definition demo_file : bytes := enc_doc demo_doc ++ replicate 200 0.

#[export] Instance demo_mapping : Mapping demo_file.
Proof. split; [|vm_compute; reflexivity]. apply (bool_decide_unpack _). vm_compute. exact I. Qed.

Definition alloc_any : allocator := fun _ _ => true.

Lemma demo_accepts : accepts (file := demo_file) alloc_any demo_doc.
Proof.
  split; [|split; [|split; [|split; [|split]]]].
  - apply (bool_decide_unpack _). vm_compute. exact I.
  - by vm_compute.
  - by exists (replicate 200 0).
  - done.
  - done.
  - apply (bool_decide_unpack _). vm_compute. exact I.
Qed.

Lemma model_open_spec_witness :
  accepts (file := demo_file) alloc_any demo_doc /\
  model_open alloc_any (Some demo_file) = LDone (model_of demo_doc demo_file).
Proof.
  split; [exact demo_accepts|].
  apply (proj2 (proj1 (@model_open_spec demo_file demo_mapping alloc_any) (model_of demo_doc demo_file))).
  exists demo_doc. split; [exact demo_accepts | reflexivity].
Defined.

Lemma getters_correct_witness :
  model_get_u32 (model_of demo_doc demo_file) (bs "n") = Some 263 /\
  model_get_string (model_of demo_doc demo_file) (bs "name") = Some (bs "ds4").
Proof.
  split.
  - exact (proj1 (@getters_correct demo_file demo_mapping alloc_any demo_doc (bs "n") demo_accepts)).
  - exact (proj1 (proj2 (proj2 (proj2 (@getters_correct demo_file demo_mapping alloc_any demo_doc (bs "name") demo_accepts))))).
Defined.

Definition demo_tensor : ds4_tensor := placed (doc_data_pos demo_doc) (tensor_entry (mkGtensor (bs "q") [33] 8 64)).

Lemma loaded_tensors_inside_witness :
  model_open alloc_any (Some demo_file) = LDone (model_of demo_doc demo_file) /\
  t_abs_offset demo_tensor + t_bytes demo_tensor <= zlen demo_file.
Proof.
  assert (E : model_open alloc_any (Some demo_file) = LDone (model_of demo_doc demo_file)) by (vm_compute; reflexivity).
  split; [exact E|].
  refine (proj1 (proj2 (@loaded_tensors_inside demo_file demo_mapping alloc_any _ demo_tensor E _ _))).
  - apply elem_of_cons. right. apply elem_of_cons. by left.
  - by vm_compute.
Defined.
