(* ===== verification/StrTable.v ===== *)
(** * StrTable: the open-addressed string table of ds4.c

    [str_i32_table] maps strings to ints by FNV-1a hashing and linear probing;
    its capacity is a power of two.  It implements a finite map as long as it is
    not full, which [table_init]'s capacity guarantees for the number of entries
    it is told to expect. *)

From S2P Require Import Prelude.

(** ** The table *)

Definition hash_bytes (p : bytes) : Z :=
  fold_left (fun h c => u64 (Z.lxor h c * 1099511628211)) p 1469598103934665603.

(** An entry with [used] set. *)
Record str_i32_entry := mkEntryS { se_key : bytes; se_value : Z }.

Record str_i32_table := mkTable {
  tb_entry : list (option str_i32_entry);
  tb_cap : Z;
  tb_used : Z
}.

(** [while (p < n) p <<= 1]: the shift drops the top bit of a [uint64_t]. *)
Fixpoint next_pow2_loop (fuel : nat) (p n : Z) : option Z :=
  if p <? n then
    match fuel with O => None | S fuel' => next_pow2_loop fuel' (u64 (Z.shiftl p 1)) n end
  else Some p.

Definition next_pow2 (n : Z) : option Z := next_pow2_loop 64 1 n.

(** [None]: the doubling does not end. *)
Definition table_init (expected : Z) : option str_i32_table :=
  cap ← next_pow2 (u64 (u64 (expected * 2) + 16));
  Some (mkTable (replicate (Z.to_nat cap) None) cap 0).

Definition ds4_str_eq (a b : bytes) : bool := bytes_eqb a b.

(** The probing loop of both operations: the slot where it stops, and whether
    the key was found there. *)
Fixpoint table_probe (fuel : nat) (t : str_i32_table) (i : Z) (key : bytes) : option (Z * option str_i32_entry) :=
  match fuel with
  | O => None
  | S fuel' =>
      match tb_entry t !! Z.to_nat i with
      | None => None
      | Some None => Some (i, None)
      | Some (Some e) =>
          if ds4_str_eq (se_key e) key then Some (i, Some e)
          else table_probe fuel' t (Z.land (i + 1) (tb_cap t - 1)) key
      end
  end.

Definition table_start (t : str_i32_table) (key : bytes) : Z := Z.land (hash_bytes key) (tb_cap t - 1).

Definition table_put (t : str_i32_table) (key : bytes) (value : Z) : option str_i32_table :=
  match table_probe (S (length (tb_entry t))) t (table_start t key) key with
  | None => None
  | Some (i, Some e) =>
      Some (mkTable (<[Z.to_nat i := Some (mkEntryS (se_key e) value)]> (tb_entry t)) (tb_cap t) (tb_used t))
  | Some (i, None) =>
      Some (mkTable (<[Z.to_nat i := Some (mkEntryS key value)]> (tb_entry t)) (tb_cap t) (tb_used t + 1))
  end.

(** The outer [None]: the loop does not end; the inner one is [false]. *)
Definition table_get (t : str_i32_table) (key : bytes) : option (option Z) :=
  if tb_cap t =? 0 then Some None
  else match table_probe (S (length (tb_entry t))) t (table_start t key) key with
       | None => None
       | Some (_, Some e) => Some (Some (se_value e))
       | Some (_, None) => Some None
       end.

(** ** Capacity *)

Lemma next_pow2_loop_spec fuel : forall k n, (k + fuel = 63)%nat -> n <= 2 ^ 63 ->
  (forall j : nat, (j < k)%nat -> 2 ^ Z.of_nat j < n) ->
  exists j : nat, (j <= 63)%nat /\ next_pow2_loop fuel (2 ^ Z.of_nat k) n = Some (2 ^ Z.of_nat j) /\ n <= 2 ^ Z.of_nat j.
Proof.
  induction fuel as [|fuel IH]; intros k n Hk Hn Hlow; cbn [next_pow2_loop].
  - assert (k = 63%nat) as -> by lia. exists 63%nat. split; [lia|].
    destruct (Z.ltb_spec (2 ^ Z.of_nat 63) n); [lia | done].
  - destruct (Z.ltb_spec (2 ^ Z.of_nat k) n); [|exists k; split; [lia | done]].
    replace (u64 (Z.shiftl (2 ^ Z.of_nat k) 1)) with (2 ^ Z.of_nat (S k)).
    + apply IH; [lia | done|]. intros j Hj. destruct (Nat.eq_dec j k) as [->|]; [done | apply Hlow; lia].
    + rewrite Z.shiftl_mul_pow2 by lia. unfold u64. rewrite wrap_small.
      * rewrite Nat2Z.inj_succ, Z.pow_succ_r by lia. lia.
      * unfold in_u. rewrite <- Z.pow_add_r by lia. split; [apply Z.pow_nonneg; lia | apply Z.pow_lt_mono_r; lia].
Qed.

Lemma next_pow2_loop_mono f n : forall p r, next_pow2_loop f p n = Some r -> next_pow2_loop (S f) p n = Some r.
Proof.
  induction f as [|f IH]; intros p r; cbn [next_pow2_loop]; destruct (Z.ltb p n); try done.
  intros H. apply IH in H. exact H.
Qed.

Lemma next_pow2_spec n : n <= 2 ^ 63 -> exists j : nat, (j <= 63)%nat /\ next_pow2 n = Some (2 ^ Z.of_nat j) /\ n <= 2 ^ Z.of_nat j.
Proof.
  intros Hn. destruct (next_pow2_loop_spec 63 0 n) as (j & Hj & E & Hle); [done | done | lia|].
  exists j. split; [done|]. split; [|done]. unfold next_pow2. by apply next_pow2_loop_mono.
Qed.

(** ** The table as a map *)

(** Slot [j] of the probe sequence of a key. *)
Definition slot (t : str_i32_table) (key : bytes) (j : nat) : nat :=
  (Z.to_nat (hash_bytes key) + j) mod length (tb_entry t).

Definition filled (t : str_i32_table) (i : nat) : Prop := exists e, tb_entry t !! i = Some (Some e).

(** Well-formed: a power of two of slots, every entry reachable by probing over
    filled slots, no key twice. *)
Record table_wf (t : str_i32_table) : Prop := {
  wf_cap : exists k : nat, tb_cap t = 2 ^ Z.of_nat k /\ Z.of_nat (length (tb_entry t)) = tb_cap t;
  wf_used : tb_used t = zlen (omap id (tb_entry t));
  wf_probe i e : tb_entry t !! i = Some (Some e) ->
    exists j, i = slot t (se_key e) j /\ (j < length (tb_entry t))%nat /\ forall j', (j' < j)%nat -> filled t (slot t (se_key e) j');
  wf_unique i i' e e' : tb_entry t !! i = Some (Some e) -> tb_entry t !! i' = Some (Some e') ->
    se_key e = se_key e' -> i = i'
}.

(** [t] represents the map [m]. *)
Definition represents (t : str_i32_table) (m : gmap bytes Z) : Prop :=
  table_wf t /\
  forall k v, m !! k = Some v <-> exists i, tb_entry t !! i = Some (Some (mkEntryS k v)).

Lemma hash_bytes_range p : 0 <= hash_bytes p < 2 ^ 64.
Proof.
  unfold hash_bytes. assert (H : forall l h, 0 <= h < 2 ^ 64 -> 0 <= fold_left (fun h c => u64 (Z.lxor h c * 1099511628211)) l h < 2 ^ 64).
  { induction l as [|c l IH]; intros h Hh; [done|]. cbn. apply IH, u64_range. }
  apply H. lia.
Qed.

Section Probe.
Context (t : str_i32_table) (W : table_wf t).
#[local] Set Default Proof Using "All".

#[local] Abbreviation cap := (length (tb_entry t)).

Lemma cap_pos : (0 < cap)%nat.
Proof. destruct (wf_cap t W) as (k & E & L). assert (0 < 2 ^ Z.of_nat k) by (apply Z.pow_pos_nonneg; lia). lia. Qed.

Lemma mask_mod x : 0 <= x -> Z.to_nat (Z.land x (tb_cap t - 1)) = (Z.to_nat x mod cap)%nat.
Proof.
  intros Hx. destruct (wf_cap t W) as (k & E & L).
  replace (tb_cap t - 1) with (Z.ones (Z.of_nat k)) by (rewrite Z.ones_equiv, E; lia).
  rewrite Z.land_ones, <- E by lia. pose proof cap_pos. rewrite <- L.
  rewrite Z2Nat.inj_mod by lia. by rewrite Nat2Z.id.
Qed.

Lemma mask_nonneg x : 0 <= x -> 0 <= Z.land x (tb_cap t - 1).
Proof. intros. apply Z.land_nonneg. by left. Qed.

(** The probe from slot [j] on, when the slots before hold other keys. *)
Lemma table_probe_spec key fuel : forall j i, Z.to_nat i = slot t key j -> 0 <= i ->
  (exists d, (d < fuel)%nat /\ tb_entry t !! slot t key (j + d) = Some None) ->
  exists d, (d < fuel)%nat /\
    (forall d', (d' < d)%nat -> exists e, tb_entry t !! slot t key (j + d') = Some (Some e) /\ se_key e <> key) /\
    ((tb_entry t !! slot t key (j + d) = Some None /\
      table_probe fuel t i key = Some (Z.of_nat (slot t key (j + d)), None)) \/
     exists e, tb_entry t !! slot t key (j + d) = Some (Some e) /\ se_key e = key /\
      table_probe fuel t i key = Some (Z.of_nat (slot t key (j + d)), Some e)).
Proof.
  induction fuel as [|fuel IH]; intros j i Hi Hi0 (d & Hd & Hfree); [lia|].
  cbn [table_probe]. rewrite Hi. pose proof cap_pos as Hc.
  destruct (tb_entry t !! slot t key j) as [[e|]|] eqn:E.
  - unfold ds4_str_eq. destruct (bytes_eqb (se_key e) key) eqn:Ek.
    + apply bytes_eqb_eq in Ek. exists 0%nat. rewrite Nat.add_0_r. split; [lia|]. split; [lia|]. right.
      exists e. split; [done|]. split; [done|]. by rewrite <- Hi, Z2Nat.id.
    + assert (Hk : se_key e <> key) by (intros Hk; apply bytes_eqb_eq in Hk; congruence).
      destruct d as [|d]; [rewrite Nat.add_0_r in Hfree; congruence|].
      destruct (IH (S j) (Z.land (i + 1) (tb_cap t - 1))) as (d0 & Hd0 & Hother & Hres).
      * rewrite mask_mod by lia. rewrite Z2Nat.inj_add, Hi by lia. unfold slot.
        change (Z.to_nat 1) with 1%nat. rewrite Nat.Div0.add_mod_idemp_l. f_equal. lia.
      * apply mask_nonneg. lia.
      * exists d. split; [lia|]. by replace (S j + d)%nat with (j + S d)%nat by lia.
      * exists (S d0). split; [lia|]. replace (j + S d0)%nat with (S j + d0)%nat by lia. split; [|exact Hres].
        intros [|d'] Hd'; [rewrite Nat.add_0_r; eauto|]. replace (j + S d')%nat with (S j + d')%nat by lia.
        apply Hother. lia.
  - exists 0%nat. rewrite Nat.add_0_r. split; [lia|]. split; [lia|]. left. split; [done|]. by rewrite <- Hi, Z2Nat.id.
  - exfalso. apply lookup_ge_None in E. unfold slot in E. pose proof (Nat.mod_upper_bound (Z.to_nat (hash_bytes key) + j) cap). lia.
Qed.

Lemma start_slot key : Z.to_nat (table_start t key) = slot t key 0 /\ 0 <= table_start t key.
Proof.
  pose proof (hash_bytes_range key). unfold table_start, slot. rewrite Nat.add_0_r. split.
  - apply mask_mod. lia.
  - apply mask_nonneg. lia.
Qed.

(** A free slot is on every probe sequence. *)
Lemma slot_onto key i : (i < cap)%nat -> exists j, (j < cap)%nat /\ slot t key j = i.
Proof.
  intros Hi. pose proof cap_pos as Hc. set (h := (Z.to_nat (hash_bytes key) mod cap)%nat).
  pose proof (Nat.mod_upper_bound (Z.to_nat (hash_bytes key)) cap ltac:(lia)) as Hh. fold h in Hh.
  assert (E : forall j, slot t key j = ((h + j) mod cap)%nat).
  { intros j. unfold slot, h. by rewrite Nat.Div0.add_mod_idemp_l. }
  destruct (le_lt_dec h i).
  - exists (i - h)%nat. split; [lia|]. rewrite E. rewrite Nat.mod_small; lia.
  - exists (cap + i - h)%nat. split; [lia|]. rewrite E. replace (h + (cap + i - h))%nat with (i + 1 * cap)%nat by lia.
    rewrite Nat.Div0.mod_add. by apply Nat.mod_small.
Qed.

Lemma free_slot : tb_used t < tb_cap t -> exists i, tb_entry t !! i = Some None.
Proof.
  intros Hu. destruct (wf_cap t W) as (_ & _ & L). rewrite (wf_used t W), <- L in Hu. clear L.
  induction (tb_entry t) as [|[e|] l IH]; cbn in *.
  - unfold zlen in Hu. cbn in Hu. lia.
  - rewrite zlen_cons in Hu. destruct IH as [i Hi]; [lia|]. by exists (S i).
  - by exists 0%nat.
Qed.

(** What the probe of both operations finds. *)
Lemma probe_result key : tb_used t < tb_cap t ->
  (exists i e, table_probe (S cap) t (table_start t key) key = Some (Z.of_nat i, Some e) /\
     tb_entry t !! i = Some (Some e) /\ se_key e = key) \/
  (exists j, table_probe (S cap) t (table_start t key) key = Some (Z.of_nat (slot t key j), None) /\
     tb_entry t !! slot t key j = Some None /\ (j < cap)%nat /\ (forall j', (j' < j)%nat -> filled t (slot t key j')) /\
     forall i e, tb_entry t !! i = Some (Some e) -> se_key e <> key).
Proof.
  intros Hu. destruct (free_slot Hu) as [f Hf]. destruct (start_slot key) as [S1 S2].
  destruct (slot_onto key f) as (jf & Hjf & Ejf); [by apply lookup_lt_Some in Hf|].
  destruct (table_probe_spec key (S cap) 0 (table_start t key) S1 S2) as (d & Hd & Hother & Hres).
  { exists jf. cbn [Nat.add]. rewrite Ejf. split; [lia | done]. }
  cbn [Nat.add] in *. destruct Hres as [[Hn E]|(e & He & Hk & E)]; [right | left; eauto].
  exists d. split; [exact E|]. split; [exact Hn|].
  assert (Hdj : (d <= jf)%nat).
  { destruct (le_lt_dec d jf); [done|]. destruct (Hother jf) as (e & He & _); [lia|]. rewrite Ejf in He. congruence. }
  split; [lia|]. split.
  - intros j' Hj'. destruct (Hother j' Hj') as (e & He & _). by exists e.
  - intros i e He Hk. destruct (wf_probe t W i e He) as (j & -> & Hj & Hfill). rewrite Hk in *.
    destruct (lt_eq_lt_dec j d) as [[Hlt| ->]|Hgt].
    + destruct (Hother j Hlt) as (e' & He' & Hne). congruence.
    + congruence.
    + destruct (Hfill d Hgt) as [e' He']. congruence.
Qed.

End Probe.

(** ** The operations *)

Lemma represents_lookup t m i e : represents t m -> tb_entry t !! i = Some (Some e) -> m !! se_key e = Some (se_value e).
Proof. intros [_ H] He. apply H. exists i. by destruct e. Qed.

Lemma represents_absent t m key : represents t m ->
  (forall i e, tb_entry t !! i = Some (Some e) -> se_key e <> key) -> m !! key = None.
Proof.
  intros [_ H] Hno. destruct (m !! key) as [v|] eqn:E; [|done]. apply H in E as [i Hi]. by destruct (Hno _ _ Hi).
Qed.

Lemma table_get_spec t m key : represents t m -> tb_used t < tb_cap t -> table_get t key = Some (m !! key).
Proof.
  intros R Hu. destruct R as [W Hm]. unfold table_get. destruct (wf_cap t W) as (k & E & L).
  assert (0 < 2 ^ Z.of_nat k) by (apply Z.pow_pos_nonneg; lia). destruct (Z.eqb_spec (tb_cap t) 0); [lia|].
  destruct (probe_result t W key Hu) as [(i & e & -> & He & <-)|(j & -> & _ & _ & _ & Hno)].
  - f_equal. symmetry. exact (represents_lookup t m i e (conj W Hm) He).
  - f_equal. symmetry. exact (represents_absent t m key (conj W Hm) Hno).
Qed.

Lemma omap_insert_length (l : list (option str_i32_entry)) i (x : option str_i32_entry) (y : str_i32_entry) :
  l !! i = Some x -> zlen (omap id (<[i := Some y]> l)) = zlen (omap id l) + (match x with None => 1 | Some _ => 0 end).
Proof.
  revert i. induction l as [|a l IH]; intros [|i] Hi; [done|done| |].
  - injection Hi as ->. unfold zlen. destruct x; cbn; lia.
  - cbn in Hi. specialize (IH i Hi). change (<[S i := Some y]> (a :: l)) with (a :: <[i := Some y]> l).
    destruct a as [a|]; csimpl; rewrite ?zlen_cons; lia.
Qed.

(** Writing an entry of the key into a slot its probe reaches. *)
Lemma table_write_wf t key value j : table_wf t -> (j < length (tb_entry t))%nat ->
  (forall j', (j' < j)%nat -> filled t (slot t key j')) ->
  (forall i e, tb_entry t !! i = Some (Some e) -> se_key e = key <-> i = slot t key j) ->
  let t' := mkTable (<[slot t key j := Some (mkEntryS key value)]> (tb_entry t)) (tb_cap t)
              (tb_used t + match tb_entry t !! slot t key j with Some (Some _) => 0 | _ => 1 end) in
  table_wf t' /\ (forall k v, (exists i, tb_entry t' !! i = Some (Some (mkEntryS k v))) <->
     (k = key /\ v = value) \/ (k <> key /\ exists i, tb_entry t !! i = Some (Some (mkEntryS k v)))).
Proof.
  intros W Hj Hfill Huniq t'. set (s := slot t key j) in *.
  pose proof (cap_pos t W) as Hc.
  assert (Hs : (s < length (tb_entry t))%nat) by (apply Nat.mod_upper_bound; lia).
  destruct (lookup_lt_is_Some_2 _ _ Hs) as [x Hx].
  assert (Hslot : forall k j, slot t' k j = slot t k j) by (intros; unfold slot; subst t'; cbn; by rewrite length_insert).
  assert (Hget : forall i e, tb_entry t' !! i = Some (Some e) <->
             (i = s /\ e = mkEntryS key value) \/ (i <> s /\ tb_entry t !! i = Some (Some e))).
  { intros i e. subst t'. cbn. destruct (decide (i = s)) as [->|Hne].
    - rewrite list_lookup_insert_eq by done. naive_solver.
    - rewrite list_lookup_insert_ne by done. naive_solver. }
  assert (Hfilled : forall i, filled t i -> filled t' i).
  { intros i [e He]. destruct (decide (i = s)) as [->|Hne]; [eexists; apply Hget; by left|].
    exists e. apply Hget. by right. }
  split; [split|].
  - subst t'. cbn. rewrite length_insert. exact (wf_cap t W).
  - subst t'. cbn [tb_used tb_entry]. rewrite (omap_insert_length _ _ x), Hx by done. rewrite (wf_used t W). by destruct x.
  - assert (Hlen : length (tb_entry t') = length (tb_entry t)) by (subst t'; apply length_insert).
    intros i e He. rewrite Hlen. apply Hget in He as [[-> ->]|[Hne He]]; cbn [se_key].
    + exists j. rewrite Hslot. split; [done|]. split; [done|]. intros j' Hj'. rewrite Hslot. apply Hfilled. by apply Hfill.
    + destruct (wf_probe t W i e He) as (j0 & E & Hj0 & Hf0). exists j0. rewrite Hslot. split; [done|].
      split; [done|]. intros j' Hj'. rewrite Hslot. apply Hfilled. by apply Hf0.
  - intros i i' e e' He He' Hk. apply Hget in He as [[-> ->]|[Hne He]]; apply Hget in He' as [[-> ->]|[Hne' He']]; cbn in Hk.
    + done.
    + symmetry in Hk. by apply (Huniq _ _ He') in Hk.
    + by apply (Huniq _ _ He) in Hk.
    + exact (wf_unique t W i i' e e' He He' Hk).
  - intros k v. split.
    + intros [i Hi]. apply Hget in Hi as [[-> Hi]|[Hne Hi]]; [injection Hi as -> ->; by left|]. right. split; [|eauto].
      intros ->. apply Hne. exact (proj1 (Huniq _ _ Hi) eq_refl).
    + intros [[-> ->]|[Hne [i Hi]]]; [exists s; apply Hget; by left|]. exists i. apply Hget. right. split; [|done].
      intros ->. apply Hne. exact (proj2 (Huniq _ _ Hi) eq_refl).
Qed.

Lemma table_put_spec t m key value : represents t m -> tb_used t < tb_cap t ->
  exists t', table_put t key value = Some t' /\ represents t' (<[key := value]> m) /\ tb_cap t' = tb_cap t /\
    tb_used t' = tb_used t + match m !! key with None => 1 | Some _ => 0 end.
Proof.
  intros [W Hm] Hu. unfold table_put.
  assert (Hfin : forall j, (j < length (tb_entry t))%nat -> (forall j', (j' < j)%nat -> filled t (slot t key j')) ->
    (forall i e, tb_entry t !! i = Some (Some e) -> se_key e = key <-> i = slot t key j) ->
    represents (mkTable (<[slot t key j := Some (mkEntryS key value)]> (tb_entry t)) (tb_cap t)
      (tb_used t + match tb_entry t !! slot t key j with Some (Some _) => 0 | _ => 1 end)) (<[key := value]> m)).
  { intros j Hj Hf Huq. destruct (table_write_wf t key value j W Hj Hf Huq) as [W' Hget]. split; [exact W'|].
    intros k v. rewrite Hget, lookup_insert_Some, <- Hm. naive_solver. }
  destruct (probe_result t W key Hu) as [(i & e & -> & He & Hk)|(j & -> & Hn & Hj & Hf & Hno)].
  - destruct (wf_probe t W i e He) as (j & Ei & Hj & Hf). rewrite Hk in Ei, Hf.
    rewrite Nat2Z.id. pose proof (represents_lookup t m i e (conj W Hm) He) as Hl. rewrite Hk in *.
    eexists. split; [done|]. rewrite Hl, Z.add_0_r. split; [|done].
    specialize (Hfin j Hj Hf). rewrite <- Ei, He, Z.add_0_r in Hfin. apply Hfin.
    intros i' e' He'. split; [intros Hk'; apply (wf_unique t W i' i e' e He' He); congruence | intros ->; congruence].
  - rewrite Nat2Z.id. eexists. split; [done|]. rewrite (represents_absent t m key (conj W Hm) Hno). split; [|done].
    specialize (Hfin j Hj Hf). rewrite Hn in Hfin. apply Hfin.
    intros i' e' He'. split; [intros Hk'; by destruct (Hno i' e' He') | intros ->; congruence].
Qed.

Lemma table_init_spec expected : 0 <= expected -> expected * 2 + 16 <= 2 ^ 63 ->
  exists t, table_init expected = Some t /\ represents t ∅ /\ tb_used t = 0 /\ expected * 2 + 16 <= tb_cap t.
Proof.
  intros H0 H1. unfold table_init, u64.
  rewrite !wrap_small by (unfold in_u; rewrite ?wrap_small by (unfold in_u; lia); lia).
  destruct (next_pow2_spec (expected * 2 + 16) H1) as (j & Hj & -> & Hle). cbn [mbind option_bind].
  eexists. split; [done|]. split; [|done]. split; [split|]; cbn [tb_entry tb_cap tb_used].
  - exists j. split; [done|]. rewrite length_replicate. rewrite Z2Nat.id by lia. done.
  - generalize (Z.to_nat (2 ^ Z.of_nat j)). induction n; cbn; [done | exact IHn].
  - intros i e He. apply lookup_replicate in He as [He _]. done.
  - intros i i' e e' He. apply lookup_replicate in He as [He _]. done.
  - intros k v. rewrite lookup_empty. split; [done|]. intros [i He]. apply lookup_replicate in He as [He _]. done.
Qed.

(** A sequence of insertions, as the tokenizer makes them. *)
Fixpoint table_put_all (t : str_i32_table) (l : list (bytes * Z)) : option str_i32_table :=
  match l with
  | [] => Some t
  | (k, v) :: l' => t ← table_put t k v; table_put_all t l'
  end.

Definition map_put_all (m : gmap bytes Z) (l : list (bytes * Z)) : gmap bytes Z :=
  fold_left (fun m kv => <[fst kv := snd kv]> m) l m.

Lemma table_put_all_spec l : forall t m, represents t m -> tb_used t + zlen l < tb_cap t ->
  exists t', table_put_all t l = Some t' /\ represents t' (map_put_all m l) /\ tb_cap t' = tb_cap t /\ tb_used t' < tb_cap t'.
Proof.
  induction l as [|[k v] l IH]; intros t m R Hu.
  - rewrite zlen_nil in Hu. exists t. split; [done|]. split; [done|]. split; [done | lia].
  - rewrite zlen_cons in Hu. pose proof (zlen_nonneg l).
    destruct (table_put_spec t m k v R) as (t1 & E & R1 & C1 & U1); [lia|].
    cbn [table_put_all]. rewrite E. cbn [mbind option_bind].
    destruct (IH t1 (<[k := v]> m) R1) as (t2 & E2 & R2 & C2 & U2); [rewrite C1, U1; destruct (m !! k); lia|].
    exists t2. rewrite E2. split; [done|]. split; [exact R2|]. split; [congruence | done].
Qed.

(** C35. The string table is a finite map: initialised for [expected] entries and
    filled by at most that many insertions, it ends every probe, and looking up
    any key gives the value of its last insertion, or nothing if there was none. *)
Theorem table_refines_map expected (l : list (bytes * Z)) :
  0 <= expected -> expected * 2 + 16 <= 2 ^ 63 -> zlen l <= expected ->
  exists t0 t, table_init expected = Some t0 /\ table_put_all t0 l = Some t /\
    forall key, table_get t key = Some (map_put_all ∅ l !! key).
Proof.
  intros H0 H1 Hl. destruct (table_init_spec expected H0 H1) as (t0 & E0 & R0 & U0 & C0).
  destruct (table_put_all_spec l t0 ∅ R0) as (t & E & R & C & U); [lia|].
  exists t0, t. split; [done|]. split; [done|]. intros key. by apply table_get_spec.
Qed.

Lemma table_refines_map_witness :
  exists t0 t, table_init 3 = Some t0 /\ table_put_all t0 [(bs "a", 1); (bs "b", 2); (bs "a", 3)] = Some t /\
    table_get t (bs "a") = Some (Some 3).
Proof.
  destruct (table_refines_map 3 [(bs "a", 1); (bs "b", 2); (bs "a", 3)]) as (t0 & t & E0 & E & H); [lia | lia | done|].
  exists t0, t. split; [exact E0|]. split; [exact E|]. rewrite H. vm_compute. reflexivity.
Defined.
