(* ===== verification/Bpe.v ===== *)
(** * Bpe: the tokenizer and the chat prompt of ds4.c

    Byte-level BPE: a piece of text is spelled in printable characters, adjacent
    symbols are merged by rank, and the symbols are looked up in the vocabulary.
    Positions in the text are relative: a function that reads at [text + pos]
    takes the bytes from there to the end.  [None] is a hash probe or a loop that
    does not end. *)

From S2P Require Import Prelude Ctype Think StrTable.

(** ** Code points *)

Definition utf8_put (cp : Z) : bytes :=
  if cp <=? 0x7f then [u8 cp]
  else if cp <=? 0x7ff then [u8 (Z.lor 0xc0 (Z.shiftr cp 6)); u8 (Z.lor 0x80 (Z.land cp 0x3f))]
  else if cp <=? 0xffff then
    [u8 (Z.lor 0xe0 (Z.shiftr cp 12)); u8 (Z.lor 0x80 (Z.land (Z.shiftr cp 6) 0x3f)); u8 (Z.lor 0x80 (Z.land cp 0x3f))]
  else
    [u8 (Z.lor 0xf0 (Z.shiftr cp 18)); u8 (Z.lor 0x80 (Z.land (Z.shiftr cp 12) 0x3f));
     u8 (Z.lor 0x80 (Z.land (Z.shiftr cp 6) 0x3f)); u8 (Z.lor 0x80 (Z.land cp 0x3f))].

Definition printable (b : Z) : bool :=
  ((33 <=? b) && (b <=? 126)) || ((161 <=? b) && (b <=? 172)) || (174 <=? b).

(** [for (x = 0; x < 256; x++)] over the values that are not printable. *)
Fixpoint byte_to_codepoint_loop (fuel : nat) (x n b : Z) : Z :=
  match fuel with
  | O => b
  | S fuel' =>
      if printable x then byte_to_codepoint_loop fuel' (x + 1) n b
      else if x =? b then 256 + n
      else byte_to_codepoint_loop fuel' (x + 1) (n + 1) b
  end.

Definition gpt2_byte_to_codepoint (b : Z) : Z :=
  if printable b then b else byte_to_codepoint_loop 256 0 0 b.

Definition byte_encode (b : bytes) : bytes := flat_map (fun c => utf8_put (gpt2_byte_to_codepoint c)) b.

Fixpoint codepoint_to_byte_loop (fuel : nat) (b n cp : Z) : option Z :=
  match fuel with
  | O => None
  | S fuel' =>
      if printable b then codepoint_to_byte_loop fuel' (b + 1) n cp
      else if cp =? 256 + n then Some b
      else codepoint_to_byte_loop fuel' (b + 1) (n + 1) cp
  end.

(** [None] is [-1]. *)
Definition gpt2_codepoint_to_byte (cp : Z) : option Z :=
  if printable cp && (cp <=? 255) then Some cp else codepoint_to_byte_loop 256 0 0 cp.

Definition utf8_len_from_first_byte (c : Z) : nat :=
  if c <? 0x80 then 1
  else if Z.land c 0xe0 =? 0xc0 then 2
  else if Z.land c 0xf0 =? 0xe0 then 3
  else if Z.land c 0xf8 =? 0xf0 then 4
  else 1.

(** ** The vocabulary *)

Record ds4_vocab := mkVocab {
  vc_token : list bytes;
  vc_bos_id : Z;
  vc_eos_id : Z;
  vc_user_id : Z;
  vc_assistant_id : Z;
  vc_think_start_id : Z;
  vc_think_end_id : Z;
  vc_dsml_id : Z;
  vc_token_to_id : str_i32_table;
  vc_merge_rank : str_i32_table
}.

Abbreviation tokens := (list Z).

(** ** Merging *)

(** Length of the character at the start of [s]. *)
Definition utf8_char_len (s : bytes) : nat :=
  match s with
  | [] => 1
  | c :: _ => let n := utf8_len_from_first_byte c in if (length s <? n)%nat then 1 else n
  end.

Fixpoint split_symbols (fuel : nat) (encoded : bytes) : list bytes :=
  match fuel with
  | O => []
  | S fuel' =>
      match encoded with
      | [] => []
      | _ => let n := utf8_char_len encoded in take n encoded :: split_symbols fuel' (drop n encoded)
      end
  end.

(** The rank of a merge, [-1] when there is none. *)
Definition bpe_rank (v : ds4_vocab) (a b : bytes) : option Z :=
  r ← table_get (vc_merge_rank v) (a ++ [ch " "] ++ b);
  Some (match r with Some rank => rank | None => -1 end).

Definition INT32_MAX : Z := 2147483647.

(** The first pair of the lowest rank from symbol [i] on. *)
Fixpoint best_pair (v : ds4_vocab) (i : nat) (sym : list bytes) (best_i : option nat) (best_rank : Z) : option (option nat) :=
  match sym with
  | a :: (b :: _) as rest =>
      rank ← bpe_rank v a b;
      if (0 <=? rank) && (rank <? best_rank) then best_pair v (S i) rest (Some i) rank
      else best_pair v (S i) rest best_i best_rank
  | _ => Some best_i
  end.

Definition merge_at (i : nat) (sym : list bytes) : list bytes :=
  match drop i sym with
  | a :: b :: rest => take i sym ++ (a ++ b) :: rest
  | _ => sym
  end.

Fixpoint merge_loop (v : ds4_vocab) (fuel : nat) (sym : list bytes) : option (list bytes) :=
  match fuel with
  | O => None
  | S fuel' =>
      best ← best_pair v 0 sym None INT32_MAX;
      match best with
      | None => Some sym
      | Some i => merge_loop v fuel' (merge_at i sym)
      end
  end.

(** The bytes of a symbol that are tokens by themselves. *)
Fixpoint emit_bytes (v : ds4_vocab) (s : bytes) : option tokens :=
  match s with
  | [] => Some []
  | c :: s' =>
      t ← table_get (vc_token_to_id v) [c];
      rest ← emit_bytes v s';
      Some (match t with Some token => token :: rest | None => rest end)
  end.

Definition emit_symbol (v : ds4_vocab) (s : bytes) : option tokens :=
  t ← table_get (vc_token_to_id v) s;
  match t with Some token => Some [token] | None => emit_bytes v s end.

Fixpoint emit_symbols (v : ds4_vocab) (sym : list bytes) : option tokens :=
  match sym with
  | [] => Some []
  | s :: sym' => t ← emit_symbol v s; rest ← emit_symbols v sym'; Some (t ++ rest)
  end.

Definition bpe_emit_piece (v : ds4_vocab) (raw_piece : bytes) : option tokens :=
  let encoded := byte_encode raw_piece in
  let sym := split_symbols (length encoded) encoded in
  sym ← merge_loop v (S (length sym)) sym;
  emit_symbols v sym.

(** ** Pre-tokenization *)

Definition ascii_alpha (c : Z) : bool :=
  ((ch "A" <=? c) && (c <=? ch "Z")) || ((ch "a" <=? c) && (c <=? ch "z")).
Definition ascii_digit (c : Z) : bool := (ch "0" <=? c) && (c <=? ch "9").
Definition ascii_space (c : Z) : bool :=
  (c =? 32) || (c =? 9) || (c =? 10) || (c =? 13) || (c =? 11) || (c =? 12).
Definition ascii_newline (c : Z) : bool := (c =? 10) || (c =? 13).
Definition joyai_ascii_punct_symbol (c : Z) : bool :=
  ((ch "!" <=? c) && (c <=? ch "/")) || ((ch ":" <=? c) && (c <=? ch "@")) ||
  ((ch "[" <=? c) && (c <=? ch "`")) || ((ch "{" <=? c) && (c <=? ch "~")).
Definition utf8_is_cjk_hira_kata (cp : Z) : bool :=
  ((0x4e00 <=? cp) && (cp <=? 0x9fa5)) || ((0x3040 <=? cp) && (cp <=? 0x309f)) ||
  ((0x30a0 <=? cp) && (cp <=? 0x30ff)).

(** The byte [i] places on. *)
Definition at_off (s : bytes) (i : nat) : Z := nth i s 0.

Definition utf8_peek_one (s : bytes) : Z :=
  let c0 := at_off s 0 in
  let n := utf8_char_len s in
  if (n =? 1)%nat then c0
  else if (n =? 2)%nat then Z.lor (Z.shiftl (Z.land c0 0x1f) 6) (Z.land (at_off s 1) 0x3f)
  else if (n =? 3)%nat then
    Z.lor (Z.lor (Z.shiftl (Z.land c0 0x0f) 12) (Z.shiftl (Z.land (at_off s 1) 0x3f) 6)) (Z.land (at_off s 2) 0x3f)
  else
    Z.lor (Z.lor (Z.lor (Z.shiftl (Z.land c0 0x07) 18) (Z.shiftl (Z.land (at_off s 1) 0x3f) 12))
             (Z.shiftl (Z.land (at_off s 2) 0x3f) 6)) (Z.land (at_off s 3) 0x3f).

Definition joyai_letter_like_at (s : bytes) : bool :=
  let c := at_off s 0 in if c <? 128 then ascii_alpha c else true.

Definition joyai_cjk_at (s : bytes) : bool :=
  if at_off s 0 <? 128 then false else utf8_is_cjk_hira_kata (utf8_peek_one s).

(** [while (pos < len && p(text, pos)) pos = next_utf8_char(text, len, pos)]:
    the bytes passed. *)
Fixpoint consume_chars (fuel : nat) (p : bytes -> bool) (s : bytes) : nat :=
  match fuel with
  | O => 0
  | S fuel' =>
      match s with
      | [] => 0
      | _ => if p s then let n := utf8_char_len s in (n + consume_chars fuel' p (drop n s))%nat else 0%nat
      end
  end.

Definition joyai_consume_letters (s : bytes) : nat := consume_chars (length s) joyai_letter_like_at s.

(** [while (pos < len && p(text[pos])) pos++]. *)
Definition run (p : Z -> bool) (s : bytes) : nat := span_len p s.

(** The blanks at the start: how many, and the end of the last newline. *)
Fixpoint scan_space (s : bytes) (p last_newline_end : nat) : nat * nat :=
  match s with
  | sc :: s' => if ascii_space sc
                then scan_space s' (S p) (if ascii_newline sc then S p else last_newline_end)
                else (p, last_newline_end)
  | [] => (p, last_newline_end)
  end.

(** The end of the word at the start of [s], before the progress guard. *)
Definition word_len (s : bytes) : nat :=
  let c := at_off s 0 in
  if ascii_digit c then Nat.min 3 (run ascii_digit s)
  else if joyai_cjk_at s then
    let n := utf8_char_len s in (n + consume_chars (length s) joyai_cjk_at (drop n s))%nat
  else if joyai_ascii_punct_symbol c && (1 <? length s)%nat && ascii_alpha (at_off s 1) then
    S (run ascii_alpha (drop 1 s))
  else if joyai_letter_like_at s then joyai_consume_letters s
  else if negb (ascii_newline c) && negb (joyai_ascii_punct_symbol c) && (1 <? length s)%nat &&
          joyai_letter_like_at (drop 1 s) then
    S (joyai_consume_letters (drop 1 s))
  else if (c =? 32) && (1 <? length s)%nat && joyai_ascii_punct_symbol (at_off s 1) then
    let n := S (run joyai_ascii_punct_symbol (drop 1 s)) in (n + run ascii_newline (drop n s))%nat
  else if joyai_ascii_punct_symbol c then
    let n := run joyai_ascii_punct_symbol s in (n + run ascii_newline (drop n s))%nat
  else if ascii_space c then
    let '(p, last_newline_end) := scan_space s 0 0 in
    if negb (last_newline_end =? 0)%nat then last_newline_end
    else if (p <? length s)%nat && (1 <? p)%nat &&
            (joyai_letter_like_at (drop p s) || joyai_ascii_punct_symbol (at_off s p))
    then (p - 1)%nat
    else p
  else utf8_char_len s.

Definition piece_len (s : bytes) : nat :=
  let n := word_len s in if (n =? 0)%nat then utf8_char_len s else n.

Fixpoint tokenize_loop (v : ds4_vocab) (fuel : nat) (s : bytes) : option tokens :=
  match s with
  | [] => Some []
  | _ =>
      match fuel with
      | O => None
      | S fuel' =>
          let n := piece_len s in
          t ← bpe_emit_piece v (take n s);
          rest ← tokenize_loop v fuel' (drop n s);
          Some (t ++ rest)
      end
  end.

(** [text] is a C string. *)
Definition bpe_tokenize_text (v : ds4_vocab) (text : bytes) : option tokens :=
  tokenize_loop v (length (cstr text)) (cstr text).

(** ** Rendered chats and messages *)

Definition BOS_TEXT : bytes := bs "<｜begin▁of▁sentence｜>".
Definition EOS_TEXT : bytes := bs "<｜end▁of▁sentence｜>".
Definition USER_TEXT : bytes := bs "<｜User｜>".
Definition ASSISTANT_TEXT : bytes := bs "<｜Assistant｜>".
Definition THINK_START_TEXT : bytes := bs "<think>".
Definition THINK_END_TEXT : bytes := bs "</think>".
Definition DSML_TEXT : bytes := bs "｜DSML｜".

Definition specials (v : ds4_vocab) : list (bytes * Z) := [
  (BOS_TEXT, vc_bos_id v);
  (EOS_TEXT, vc_eos_id v);
  (USER_TEXT, vc_user_id v);
  (ASSISTANT_TEXT, vc_assistant_id v);
  (THINK_START_TEXT, vc_think_start_id v);
  (THINK_END_TEXT, vc_think_end_id v);
  (DSML_TEXT, vc_dsml_id v)
].

(** The token and the length of the special text at the start of [p]. *)
Definition special_token_at (v : ds4_vocab) (p : bytes) : option (Z * nat) :=
  option_map (fun st => (snd st, length (fst st))) (List.find (fun st => starts_with (fst st) p) (specials v)).

Definition tokenize_span (v : ds4_vocab) (span : bytes) : option tokens :=
  match span with [] => Some [] | _ => bpe_tokenize_text v span end.

(** [span] is the text since the last special token. *)
Fixpoint rendered_loop (v : ds4_vocab) (fuel : nat) (span p : bytes) : option tokens :=
  match p with
  | [] => tokenize_span v span
  | c :: p' =>
      match fuel with
      | O => None
      | S fuel' =>
          match special_token_at v p with
          | Some (token, len) =>
              t ← tokenize_span v span;
              rest ← rendered_loop v fuel' [] (drop len p);
              Some (t ++ token :: rest)
          | None => rendered_loop v fuel' (span ++ [c]) p'
          end
      end
  end.

Definition tokenize_rendered_chat_vocab (v : ds4_vocab) (text : option bytes) : option tokens :=
  let text := cstr (default [] text) in rendered_loop v (length text) [] text.

Definition TOOL_RESULT_END : bytes := bs "</tool_result>".

Fixpoint tool_result_loop (v : ds4_vocab) (span p : bytes) : option tokens :=
  match p with
  | [] => tokenize_span v span
  | c :: p' =>
      if starts_with TOOL_RESULT_END p then
        t ← tokenize_span v span;
        esc ← bpe_tokenize_text v (bs "&lt;");
        rest ← tool_result_loop v [] p';
        Some (t ++ esc ++ rest)
      else tool_result_loop v (span ++ [c]) p'
  end.

Definition bpe_tokenize_tool_result_text (v : ds4_vocab) (content : option bytes) : option tokens :=
  tool_result_loop v [] (cstr (default [] content)).

Definition think_token (v : ds4_vocab) (mode : ds4_think_mode) : Z :=
  if ds4_think_mode_enabled mode then vc_think_start_id v else vc_think_end_id v.

Definition encode_chat_prompt (v : ds4_vocab) (system : option bytes) (prompt : bytes) (mode : ds4_think_mode)
  : option tokens :=
  prefix ← (match mode with
            | DS4_THINK_MAX => bpe_tokenize_text v DS4_REASONING_EFFORT_MAX_PREFIX
            | _ => Some [] end);
  sys ← (match system with
         | Some s => if (strlen s =? 0) then Some [] else bpe_tokenize_text v s
         | None => Some [] end);
  user ← bpe_tokenize_text v prompt;
  Some ([vc_bos_id v] ++ prefix ++ sys ++ [vc_user_id v] ++ user ++ [vc_assistant_id v; think_token v mode]).

Definition str_is (s : bytes) (lit : string) : bool := bytes_eqb (cstr s) (bs lit).

Definition ds4_chat_append_message (v : ds4_vocab) (toks : tokens) (role content : option bytes) : option tokens :=
  let role := default (bs "user") role in
  let content := default [] content in
  if str_is role "system" || str_is role "developer" then
    t ← bpe_tokenize_text v content; Some (toks ++ t)
  else if str_is role "assistant" then
    let think := if negb (starts_with (bs "<think>") (cstr content)) && negb (starts_with (bs "</think>") (cstr content))
                 then [vc_think_end_id v] else [] in
    t ← bpe_tokenize_text v content; Some (toks ++ [vc_assistant_id v] ++ think ++ t)
  else if str_is role "tool" || str_is role "function" then
    a ← bpe_tokenize_text v (bs "<tool_result>");
    t ← bpe_tokenize_tool_result_text v (Some content);
    b ← bpe_tokenize_text v (bs "</tool_result>");
    Some (toks ++ [vc_user_id v] ++ a ++ t ++ b)
  else
    t ← bpe_tokenize_text v content; Some (toks ++ [vc_user_id v] ++ t).

Definition ds4_chat_append_assistant_prefix (v : ds4_vocab) (toks : tokens) (mode : ds4_think_mode) : tokens :=
  toks ++ [vc_assistant_id v; think_token v mode].

(** ** Back to text *)

(** The code point at the start of [s], and the bytes it takes. *)
Definition utf8_decode_one (s : bytes) : Z * nat :=
  let c := at_off s 0 in
  let len := length s in
  if (c <? 0x80) || (len <=? 1)%nat then (c, 1%nat)
  else if (Z.land c 0xe0 =? 0xc0) && (1 <? len)%nat then
    (Z.lor (Z.shiftl (Z.land c 0x1f) 6) (Z.land (at_off s 1) 0x3f), 2%nat)
  else if (Z.land c 0xf0 =? 0xe0) && (2 <? len)%nat then
    (Z.lor (Z.lor (Z.shiftl (Z.land c 0x0f) 12) (Z.shiftl (Z.land (at_off s 1) 0x3f) 6)) (Z.land (at_off s 2) 0x3f), 3%nat)
  else if (Z.land c 0xf8 =? 0xf0) && (3 <? len)%nat then
    (Z.lor (Z.lor (Z.lor (Z.shiftl (Z.land c 0x07) 18) (Z.shiftl (Z.land (at_off s 1) 0x3f) 12))
             (Z.shiftl (Z.land (at_off s 2) 0x3f) 6)) (Z.land (at_off s 3) 0x3f), 4%nat)
  else (c, 1%nat).

Definition BAR : bytes := [0xef; 0xbd; 0x9c].

Definition vocab_token_is_literal_special (s : bytes) : bool := contains BAR s.

Fixpoint token_text_loop (fuel : nat) (s : bytes) : bytes :=
  match fuel with
  | O => []
  | S fuel' =>
      match s with
      | [] => []
      | _ =>
          let '(cp, n) := utf8_decode_one s in
          let rest := token_text_loop fuel' (drop n s) in
          match gpt2_codepoint_to_byte cp with Some b => u8 b :: rest | None => rest end
      end
  end.

Definition ds4_token_text (v : ds4_vocab) (token : Z) : bytes :=
  if (token <? 0) || (zlen (vc_token v) <=? token) then []
  else
    let s := nth (Z.to_nat token) (vc_token v) [] in
    if vocab_token_is_literal_special s then s else token_text_loop (length s) s.

(** The text of a sequence of tokens. *)
Definition tokens_text (v : ds4_vocab) (t : tokens) : bytes := flat_map (ds4_token_text v) t.
