(* ===== verification/BpeFacts.v ===== *)
(** * BpeFacts: tokenization loses nothing and injects nothing

    Under the conditions a byte-level BPE vocabulary meets, the tokens of a text
    spell that text, and text never becomes a control token. *)

From S2P Require Import Prelude Ctype Think StrTable Bpe.

(** ** Facts about all bytes, by computation *)

Lemma byte_forall (P : Z -> bool) : forallb P (map Z.of_nat (seq 0 256)) = true -> forall b, byte_ok b -> P b = true.
Proof.
  intros H b Hb. apply (proj1 (List.forallb_forall _ _) H). apply in_map_iff. exists (Z.to_nat b).
  unfold byte_ok in Hb. split; [lia|]. apply in_seq. lia.
Qed.

(** The spelling of one byte. *)
Definition byte_unit (b : Z) : bytes := utf8_put (gpt2_byte_to_codepoint b).

Definition unit_check (b : Z) : bool :=
  let cp := gpt2_byte_to_codepoint b in
  forallb (fun c => negb (c =? 0xef) && (0 <=? c) && (c <? 256)) (byte_unit b) &&
  bool_decide (gpt2_codepoint_to_byte cp = Some b) &&
  match byte_unit b with
  | [c] => (c <? 128) && (c =? cp)
  | [c; d] => (128 <=? c) && (Z.land c 0xe0 =? 0xc0) &&
              (Z.lor (Z.shiftl (Z.land c 0x1f) 6) (Z.land d 0x3f) =? cp)
  | _ => false
  end.

Lemma unit_checked b : byte_ok b -> unit_check b = true.
Proof. apply byte_forall. vm_compute. reflexivity. Qed.

Inductive unit_shape (b : Z) : bytes -> Prop :=
| unit_one : gpt2_byte_to_codepoint b < 128 -> unit_shape b [gpt2_byte_to_codepoint b]
| unit_two c d : 128 <= c -> Z.land c 0xe0 = 0xc0 ->
    Z.lor (Z.shiftl (Z.land c 0x1f) 6) (Z.land d 0x3f) = gpt2_byte_to_codepoint b -> unit_shape b [c; d].

Lemma byte_unit_shape b : byte_ok b -> unit_shape b (byte_unit b).
Proof.
  intros Hb. pose proof (unit_checked b Hb) as H. unfold unit_check in H. apply andb_true_iff in H as [_ H].
  destruct (byte_unit b) as [|c [|d [|? ?]]]; try done; bool_props; subst; constructor; lia.
Qed.

Lemma byte_unit_back b : byte_ok b -> gpt2_codepoint_to_byte (gpt2_byte_to_codepoint b) = Some b.
Proof.
  intros Hb. pose proof (unit_checked b Hb) as H. unfold unit_check in H. bool_props. done.
Qed.

Lemma byte_unit_no_bar b : byte_ok b -> Forall (fun c => c <> 0xef) (byte_unit b).
Proof.
  intros Hb. pose proof (unit_checked b Hb) as H. unfold unit_check in H. apply andb_true_iff in H as [[H _]%andb_true_iff _].
  apply Forall_intro. intros c Hc. apply list_elem_of_In in Hc. apply (proj1 (List.forallb_forall _ _) H) in Hc. bool_lia.
Qed.

Lemma byte_encode_cons b u : byte_encode (b :: u) = byte_unit b ++ byte_encode u.
Proof. reflexivity. Qed.

Lemma byte_encode_app a b : byte_encode (a ++ b) = byte_encode a ++ byte_encode b.
Proof. apply flat_map_app. Qed.

(** ** Decoding a spelling *)

Lemma decode_unit b rest : byte_ok b ->
  utf8_decode_one (byte_unit b ++ rest) = (gpt2_byte_to_codepoint b, length (byte_unit b)).
Proof.
  intros Hb. destruct (byte_unit_shape b Hb) as [Hc|c d Hc Hl Hcp]; unfold utf8_decode_one; cbn [app at_off nth length].
  - destruct (Z.ltb_spec (gpt2_byte_to_codepoint b) 0x80); [done | lia].
  - destruct (Z.ltb_spec c 0x80); [lia|]. cbn [orb Nat.leb]. rewrite Hl, Hcp. done.
Qed.

Lemma byte_unit_nonempty b : byte_ok b -> (0 < length (byte_unit b))%nat.
Proof. intros Hb. destruct (byte_unit_shape b Hb); cbn; lia. Qed.

Lemma token_text_encode u : forall fuel, bytes_ok u -> (length (byte_encode u) <= fuel)%nat ->
  token_text_loop fuel (byte_encode u) = u.
Proof.
  induction u as [|b u IH]; intros fuel Hu Hf; [by destruct fuel|].
  apply Forall_cons_iff in Hu as [Hb Hu]. rewrite byte_encode_cons in *. rewrite length_app in Hf.
  pose proof (byte_unit_nonempty b Hb). destruct fuel as [|fuel]; [lia|]. cbn [token_text_loop].
  rewrite decode_unit by done. rewrite drop_app_length, byte_unit_back, IH by (done || lia).
  assert (u8 b = b) as -> by (apply wrap_small; unfold in_u; unfold byte_ok in Hb; lia).
  destruct (byte_unit b); [cbn in *; lia | done].
Qed.

Lemma encode_no_bar u : bytes_ok u -> contains BAR (byte_encode u) = false.
Proof.
  intros Hu. destruct (contains BAR (byte_encode u)) eqn:E; [|done]. apply contains_infix in E as (x & y & E).
  assert (H : Forall (fun c => c <> 0xef) (byte_encode u)).
  { clear E. induction Hu as [|b u Hb _ IH]; [constructor|]. rewrite byte_encode_cons. apply Forall_app.
    split; [by apply byte_unit_no_bar | done]. }
  rewrite E in H. apply Forall_app in H as [_ [H _]%Forall_cons_iff]. done.
Qed.

(** ** Splitting into symbols *)

Lemma char_len_unit b rest : byte_ok b -> utf8_char_len (byte_unit b ++ rest) = length (byte_unit b).
Proof.
  intros Hb. destruct (byte_unit_shape b Hb) as [Hc|c d Hc Hl Hcp]; unfold utf8_char_len, utf8_len_from_first_byte; cbn [app length].
  - destruct (Z.ltb_spec (gpt2_byte_to_codepoint b) 0x80); [done | lia].
  - destruct (Z.ltb_spec c 0x80); [lia|]. rewrite Hl. done.
Qed.

Lemma split_encode u : forall fuel, bytes_ok u -> (length (byte_encode u) <= fuel)%nat ->
  split_symbols fuel (byte_encode u) = map (fun b => byte_encode [b]) u.
Proof.
  induction u as [|b u IH]; intros fuel Hu Hf; [by destruct fuel|].
  apply Forall_cons_iff in Hu as [Hb Hu]. rewrite byte_encode_cons in *. rewrite length_app in Hf.
  pose proof (byte_unit_nonempty b Hb). destruct fuel as [|fuel]; [lia|]. cbn [split_symbols map].
  rewrite char_len_unit, take_app_length, drop_app_length, IH by (done || lia).
  rewrite byte_encode_cons. cbn [byte_encode flat_map]. rewrite app_nil_r.
  destruct (byte_unit b); [cbn in *; lia | done].
Qed.

(** ** The vocabulary *)

(** What a byte-level BPE vocabulary guarantees: the tables represent maps and
    are not full, a token's id leads back to its text, every byte has a token,
    every merge produces a token, and the special tokens spell their texts. *)
Class VocabOk (v : ds4_vocab) (tm mm : gmap bytes Z) : Prop := {
  vo_tok : represents (vc_token_to_id v) tm;
  vo_tok_room : tb_used (vc_token_to_id v) < tb_cap (vc_token_to_id v);
  vo_merge : represents (vc_merge_rank v) mm;
  vo_merge_room : tb_used (vc_merge_rank v) < tb_cap (vc_merge_rank v);
  vo_id s id : tm !! s = Some id -> 0 <= id < zlen (vc_token v) /\ nth (Z.to_nat id) (vc_token v) [] = s;
  vo_byte b : byte_ok b -> is_Some (tm !! byte_unit b);
  vo_merged a b r : mm !! (a ++ [ch " "] ++ b) = Some r -> 0 <= r -> is_Some (tm !! (a ++ b));
  vo_special s id : (s, id) ∈ specials v -> 0 <= id < zlen (vc_token v) /\ nth (Z.to_nat id) (vc_token v) [] = s
}.

Section Vocab.
Context {v : ds4_vocab} {tm mm : gmap bytes Z} {VO : VocabOk v tm mm}.
#[local] Set Default Proof Using "All".

Lemma token_get s : table_get (vc_token_to_id v) s = Some (tm !! s).
Proof. apply table_get_spec; [apply vo_tok | apply vo_tok_room]. Qed.

Lemma merge_get s : table_get (vc_merge_rank v) s = Some (mm !! s).
Proof. apply table_get_spec; [apply vo_merge | apply vo_merge_room]. Qed.

Lemma bpe_rank_spec a b : bpe_rank v a b = Some (default (-1) (mm !! (a ++ [ch " "] ++ b))).
Proof. unfold bpe_rank. rewrite merge_get. cbn [mbind option_bind]. by destruct (mm !! _). Qed.

(** A token that text can become: the spelling of some bytes. *)
Definition plain (id : Z) (u : bytes) : Prop :=
  0 <= id < zlen (vc_token v) /\ bytes_ok u /\ nth (Z.to_nat id) (vc_token v) [] = byte_encode u.

Lemma plain_text id u : plain id u -> ds4_token_text v id = u.
Proof.
  intros (Hid & Hu & E). unfold ds4_token_text. rewrite E.
  destruct (Z.ltb_spec id 0); [lia|]. destruct (Z.leb_spec (zlen (vc_token v)) id); [lia|]. cbn [orb].
  unfold vocab_token_is_literal_special. rewrite encode_no_bar by done. by apply token_text_encode.
Qed.

(** The tokens of the control texts. *)
Definition control (id : Z) : Prop :=
  id ∈ [vc_bos_id v; vc_eos_id v; vc_user_id v; vc_assistant_id v; vc_dsml_id v].

Lemma control_text id : control id -> exists s, contains BAR s = true /\ nth (Z.to_nat id) (vc_token v) [] = s.
Proof.
  intros H. assert (Hs : exists s, (s, id) ∈ specials v /\ contains BAR s = true).
  { unfold control in H. unfold specials.
    repeat (apply elem_of_cons in H as [->|H]); [| | | | | by apply elem_of_nil in H];
      eexists; (split; [repeat (apply elem_of_cons; (by left) || right) |]); vm_compute; reflexivity. }
  destruct Hs as (s & Hs & Hb). exists s. split; [done|]. by apply (vo_special s id).
Qed.

Lemma plain_not_control id u : plain id u -> ~ control id.
Proof.
  intros (_ & Hu & E) Hc. destruct (control_text id Hc) as (s & Hb & Es). rewrite E in Es. subst s.
  by rewrite encode_no_bar in Hb.
Qed.

(** ** Merging *)

Lemma best_pair_total sym : forall i best rank, exists r, best_pair v i sym best rank = Some r.
Proof.
  induction sym as [|a sym IH]; intros i best rank; [by eexists|].
  destruct sym as [|b rest]; [by eexists|]. cbn [best_pair]. rewrite bpe_rank_spec. cbn [mbind option_bind].
  case_match; apply IH.
Qed.

(** The chosen pair has a merge. *)
Lemma best_pair_pick sym : forall i best rank j, best_pair v i sym best rank = Some (Some j) ->
  best = Some j \/ exists k a b rest, j = (i + k)%nat /\ drop k sym = a :: b :: rest /\ is_Some (tm !! (a ++ b)).
Proof.
  induction sym as [|a sym IH]; intros i best rank j H; [injection H as ->; by left|].
  destruct sym as [|b rest]; [injection H as ->; by left|].
  cbn [best_pair] in H. rewrite bpe_rank_spec in H. cbn [mbind option_bind] in H.
  destruct (mm !! (a ++ [ch " "] ++ b)) as [r|] eqn:E; cbn [default from_option id] in H.
  - destruct ((0 <=? r) && (r <? rank)) eqn:Er.
    + apply IH in H as [H|(k & a' & b' & rest' & -> & D & Hs)].
      * injection H as <-. right. exists 0%nat, a, b, rest. split; [lia|]. split; [done|]. bool_props.
        exact (vo_merged a b r E ltac:(lia)).
      * right. exists (S k), a', b', rest'. split; [lia | done].
    + apply IH in H as [H|(k & a' & b' & rest' & -> & D & Hs)]; [by left|].
      right. exists (S k), a', b', rest'. split; [lia | done].
  - apply IH in H as [H|(k & a' & b' & rest' & -> & D & Hs)]; [by left|].
    right. exists (S k), a', b', rest'. split; [lia | done].
Qed.

(** The symbols spell the pieces [us], and each is a token. *)
Definition spells (sym : list bytes) (us : list bytes) : Prop :=
  sym = map byte_encode us /\ Forall bytes_ok us /\ Forall (fun s => is_Some (tm !! s)) sym.

Lemma merge_spells sym us i a b rest : spells sym us -> drop i sym = a :: b :: rest -> is_Some (tm !! (a ++ b)) ->
  exists us', spells (merge_at i sym) us' /\ concat us' = concat us /\ S (length (merge_at i sym)) = length sym.
Proof.
  intros (-> & Hu & Ht) D Hs. rewrite skipn_map in D.
  destruct (drop i us) as [|ua [|ub urest]] eqn:Du; [done|done|]. cbn [map] in D. injection D as <- <- <-.
  exists (take i us ++ (ua ++ ub) :: urest). unfold merge_at. rewrite skipn_map, Du. cbn [map].
  assert (E : us = take i us ++ ua :: ub :: urest) by (rewrite <- Du; by rewrite take_drop).
  split; [|split].
  - split; [|split].
    + rewrite map_app, <- firstn_map. cbn [map]. by rewrite byte_encode_app.
    + rewrite E in Hu. apply Forall_app in Hu as [H1 [H2 [H3 H4]%Forall_cons_iff]%Forall_cons_iff].
      apply Forall_app. split; [done|]. constructor; [by apply Forall_app | done].
    + rewrite E, map_app in Ht. cbn [map] in Ht. rewrite firstn_map.
      apply Forall_app in Ht as [H1 [H2 [H3 H4]%Forall_cons_iff]%Forall_cons_iff].
      apply Forall_app. split; [done | by constructor].
  - rewrite E at 2. rewrite !concat_app. cbn [concat]. by rewrite <- app_assoc.
  - rewrite E at 2. rewrite firstn_map, map_app, !length_app. cbn [map length]. rewrite !length_map. lia.
Qed.

Lemma merge_loop_spells fuel : forall sym us, spells sym us -> (length sym < fuel)%nat ->
  exists sym' us', merge_loop v fuel sym = Some sym' /\ spells sym' us' /\ concat us' = concat us.
Proof.
  induction fuel as [|fuel IH]; intros sym us H Hf; [lia|]. cbn [merge_loop].
  destruct (best_pair_total sym 0 None INT32_MAX) as [best E]. rewrite E. cbn [mbind option_bind].
  destruct best as [j|]; [|eauto].
  apply best_pair_pick in E as [E|(k & a & b & rest & -> & D & Hs)]; [done|].
  destruct (merge_spells sym us k a b rest H D Hs) as (us1 & H1 & C1 & L1). cbn [Nat.add].
  destruct (IH _ _ H1) as (sym' & us' & E' & H' & C'); [lia|]. exists sym', us'. split; [done|]. split; [done | congruence].
Qed.

Lemma emit_spells sym : forall us, spells sym us ->
  exists t, emit_symbols v sym = Some t /\ Forall2 plain t us.
Proof.
  induction sym as [|s sym IH]; intros us (E & Hu & Ht).
  - destruct us; [|done]. exists []. split; [done | constructor].
  - destruct us as [|u us]; [done|]. injection E as -> ->.
    apply Forall_cons_iff in Hu as [Hu Hus]. apply Forall_cons_iff in Ht as [[id Hid] Hts].
    destruct (IH us) as (t & Et & Ft); [by split|].
    cbn [emit_symbols]. unfold emit_symbol. rewrite token_get, Hid. cbn [mbind option_bind]. rewrite Et. cbn [mbind option_bind].
    exists (id :: t). split; [done|]. constructor; [|done]. destruct (vo_id _ _ Hid) as [R N]. done.
Qed.

(** Plain tokens spelling a text. *)
Definition spelled (t : tokens) (text : bytes) : Prop := exists us, Forall2 plain t us /\ concat us = text.

Lemma spelled_app t1 t2 s1 s2 : spelled t1 s1 -> spelled t2 s2 -> spelled (t1 ++ t2) (s1 ++ s2).
Proof.
  intros (u1 & F1 & <-) (u2 & F2 & <-). exists (u1 ++ u2). split; [by apply Forall2_app | by rewrite concat_app].
Qed.

Lemma spelled_nil : spelled [] [].
Proof. exists []. split; [constructor | done]. Qed.

Lemma spelled_text t s : spelled t s -> tokens_text v t = s.
Proof.
  intros (us & F & <-). unfold tokens_text. induction F as [|id u t us Hp _ IH]; [done|]. cbn.
  by rewrite (plain_text id u Hp), IH.
Qed.

Lemma spelled_no_control t s : spelled t s -> Forall (fun id => ~ control id) t.
Proof.
  intros (us & F & _). induction F as [|id u t us Hp _ IH]; constructor; [by eapply plain_not_control | done].
Qed.

Lemma bpe_emit_piece_spelled piece : bytes_ok piece -> exists t, bpe_emit_piece v piece = Some t /\ spelled t piece.
Proof.
  intros Hp. unfold bpe_emit_piece. rewrite split_encode by done.
  assert (H : spells (map (fun b => byte_encode [b]) piece) (map (fun b => [b]) piece)).
  { split; [by rewrite map_map|]. split.
    - apply Forall_map. eapply Forall_impl; [|exact Hp]. intros b Hb. constructor; [exact Hb | constructor].
    - apply Forall_map. eapply Forall_impl; [|exact Hp]. intros b Hb.
      rewrite byte_encode_cons. cbn [byte_encode flat_map]. rewrite app_nil_r. by apply vo_byte. }
  destruct (merge_loop_spells (S (length (map (fun b => byte_encode [b]) piece))) _ _ H) as (sym' & us' & E & H' & C); [lia|].
  rewrite E. cbn [mbind option_bind]. destruct (emit_spells sym' us' H') as (t & Et & Ft).
  exists t. split; [done|]. exists us'. split; [done|]. rewrite C.
  clear. induction piece as [|b piece IH]; [done|]. cbn. by rewrite IH.
Qed.

(** ** Pieces *)

Lemma char_len_bounds s : s <> [] -> (1 <= utf8_char_len s <= length s)%nat.
Proof using.
  clear. destruct s as [|c s]; [done|]. intros _. unfold utf8_char_len, utf8_len_from_first_byte.
  destruct (Nat.ltb_spec (length (c :: s)) (if c <? 0x80 then 1 else if Z.land c 0xe0 =? 0xc0 then 2 else
    if Z.land c 0xf0 =? 0xe0 then 3 else if Z.land c 0xf8 =? 0xf0 then 4 else 1)); cbn [length] in *; repeat case_match; lia.
Qed.

Lemma consume_chars_le p fuel : forall s, (consume_chars fuel p s <= length s)%nat.
Proof using.
  clear. induction fuel as [|fuel IH]; intros s; cbn [consume_chars]; [lia|]. destruct s as [|c s]; [done|].
  destruct (p (c :: s)); [|lia]. pose proof (char_len_bounds (c :: s) ltac:(done)).
  specialize (IH (drop (utf8_char_len (c :: s)) (c :: s))). rewrite length_drop in IH. lia.
Qed.

Lemma run_le p s : (run p s <= length s)%nat.
Proof using. apply span_len_le. Qed.

Lemma scan_space_bounds s : forall p l q l', (l <= p)%nat -> scan_space s p l = (q, l') ->
  (p <= q <= p + length s)%nat /\ (l' <= q)%nat.
Proof using.
  clear. induction s as [|c s IH]; intros p l q l' Hl H; cbn [scan_space length] in *; [injection H as <- <-; lia|].
  destruct (ascii_space c); [|injection H as <- <-; lia]. apply IH in H; [lia|]. destruct (ascii_newline c); lia.
Qed.

Lemma word_len_le s : s <> [] -> (word_len s <= length s)%nat.
Proof using.
  clear. intros Hs. unfold word_len.
  pose proof (char_len_bounds s Hs) as Hc.
  pose proof (run_le ascii_digit s). pose proof (run_le joyai_ascii_punct_symbol s).
  pose proof (run_le ascii_alpha (drop 1 s)) as R1. pose proof (run_le joyai_ascii_punct_symbol (drop 1 s)) as R2.
  pose proof (consume_chars_le joyai_cjk_at (length s) (drop (utf8_char_len s) s)) as R3.
  pose proof (consume_chars_le joyai_letter_like_at (length s) s) as R4.
  pose proof (consume_chars_le joyai_letter_like_at (length (drop 1 s)) (drop 1 s)) as R5.
  pose proof (run_le ascii_newline (drop (run joyai_ascii_punct_symbol s) s)) as R6.
  pose proof (run_le ascii_newline (drop (S (run joyai_ascii_punct_symbol (drop 1 s))) s)) as R7.
  rewrite !length_drop in *. destruct (scan_space s 0 0) as [q l'] eqn:Es.
  apply scan_space_bounds in Es; [|lia]. unfold joyai_consume_letters. cbv zeta. rewrite !length_drop.
  repeat case_match; lia.
Qed.

Lemma piece_len_bounds s : s <> [] -> (1 <= piece_len s <= length s)%nat.
Proof using.
  clear. intros Hs. unfold piece_len. pose proof (word_len_le s Hs). pose proof (char_len_bounds s Hs).
  destruct (Nat.eqb_spec (word_len s) 0); lia.
Qed.

Lemma tokenize_loop_spelled fuel : forall s, bytes_ok s -> (length s <= fuel)%nat ->
  exists t, tokenize_loop v fuel s = Some t /\ spelled t s.
Proof.
  induction fuel as [|fuel IH]; intros s Hs Hf.
  - destruct s; [|cbn in Hf; lia]. exists []. split; [done | apply spelled_nil].
  - destruct s as [|c s']; [exists []; split; [done | apply spelled_nil]|].
    set (s := c :: s') in *. pose proof (piece_len_bounds s ltac:(done)) as Hp.
    change (tokenize_loop v (S fuel) s) with
      (t ← bpe_emit_piece v (take (piece_len s) s); rest ← tokenize_loop v fuel (drop (piece_len s) s); Some (t ++ rest)).
    destruct (Forall_take_drop _ (piece_len s) s Hs) as [H1 H2].
    destruct (bpe_emit_piece_spelled _ H1) as (t1 & E1 & S1).
    destruct (IH (drop (piece_len s) s) H2) as (t2 & E2 & S2); [rewrite length_drop; lia|].
    rewrite E1. cbn [mbind option_bind]. rewrite E2. cbn [mbind option_bind]. exists (t1 ++ t2). split; [done|].
    rewrite <- (take_drop (piece_len s) s) at 1. by apply spelled_app.
Qed.

Lemma cstr_ok b : bytes_ok b -> bytes_ok (cstr b).
Proof using.
  clear. induction 1 as [|c b Hc _ IH]; cbn; [constructor|]. destruct (c =? 0); [constructor | by constructor].
Qed.

Lemma tokenize_spelled text : bytes_ok text -> exists t, bpe_tokenize_text v text = Some t /\ spelled t (cstr text).
Proof. intros H. apply tokenize_loop_spelled; [by apply cstr_ok | lia]. Qed.

Lemma tokenize_span_spelled span : bytes_ok span -> no_nul span ->
  exists t, tokenize_span v span = Some t /\ spelled t span.
Proof.
  intros H Hn. destruct span as [|c s]; [exists []; split; [done | apply spelled_nil]|].
  destruct (tokenize_spelled (c :: s) H) as (t & E & S). rewrite cstr_no_nul in S by done. by exists t.
Qed.

(** ** Special tokens in rendered text *)

Lemma ascii_text s : Forall (fun c => 33 <= c <= 126) s -> contains BAR s = false /\ token_text_loop (length s) s = s.
Proof using.
  clear. intros H. split.
  - destruct (contains BAR s) eqn:E; [|done]. apply contains_infix in E as (x & y & ->).
    apply Forall_app in H as [_ [H _]%Forall_cons_iff]. lia.
  - assert (Hu : byte_encode s = s).
    { induction H as [|c s Hc _ IH]; [done|]. rewrite byte_encode_cons, IH.
      assert (byte_unit c = [c]) as ->; [|done]. unfold byte_unit, gpt2_byte_to_codepoint, printable.
      replace ((33 <=? c) && (c <=? 126)) with true by (symmetry; apply andb_true_iff; lia). cbn [orb].
      unfold utf8_put. destruct (Z.leb_spec c 0x7f); [|lia]. f_equal. apply wrap_small. unfold in_u. lia. }
    rewrite <- Hu at 2. apply token_text_encode; [|by rewrite Hu].
    eapply Forall_impl; [|exact H]. intros c Hc. unfold byte_ok. cbn in Hc. lia.
Qed.

Lemma special_texts s id : (s, id) ∈ specials v ->
  (contains BAR s = true \/ Forall (fun c => 33 <= c <= 126) s) /\ bytes_ok s /\ (0 < length s)%nat.
Proof using.
  clear. unfold specials. intros H.
  repeat (apply elem_of_cons in H as [[= -> ->]|H]); [.. | by apply elem_of_nil in H];
    (split; [(left; vm_compute; reflexivity) || (right; apply (bool_decide_unpack _); vm_compute; exact I) |
     split; [apply bs_ok | cbn; lia]]).
Qed.

Lemma special_text s id : (s, id) ∈ specials v -> ds4_token_text v id = s.
Proof.
  intros H. destruct (vo_special s id H) as [R E]. destruct (special_texts s id H) as [Hs _].
  unfold ds4_token_text. rewrite E. destruct (Z.ltb_spec id 0); [lia|].
  destruct (Z.leb_spec (zlen (vc_token v)) id); [lia|]. cbn [orb]. unfold vocab_token_is_literal_special.
  destruct Hs as [->|Hs]; [done|]. destruct (ascii_text s Hs) as [-> ->]. done.
Qed.

Lemma tokens_text_app a b : tokens_text v (a ++ b) = tokens_text v a ++ tokens_text v b.
Proof using. apply flat_map_app. Qed.

Lemma special_at_spec p token len : special_token_at v p = Some (token, len) ->
  exists s rest, (s, token) ∈ specials v /\ len = length s /\ p = s ++ rest.
Proof using.
  clear. unfold special_token_at. destruct (List.find _ _) as [[s id]|] eqn:E; [|done]. intros [= <- <-].
  apply List.find_some in E as [Hin Hs]. cbn [fst] in Hs. apply starts_with_prefix in Hs as [rest ->].
  exists s, rest. split; [by apply list_elem_of_In | done].
Qed.

Lemma rendered_loop_text fuel : forall span p, bytes_ok (span ++ p) -> no_nul (span ++ p) -> (length p <= fuel)%nat ->
  exists t, rendered_loop v fuel span p = Some t /\ tokens_text v t = span ++ p.
Proof.
  induction fuel as [|fuel IH]; intros span p Hb Hn Hf.
  - destruct p; [|cbn in Hf; lia]. rewrite app_nil_r in *. cbn.
    destruct (tokenize_span_spelled span Hb Hn) as (t & E & S). exists t. split; [done | by apply spelled_text].
  - destruct p as [|c p'].
    + rewrite app_nil_r in *. cbn. destruct (tokenize_span_spelled span Hb Hn) as (t & E & S).
      exists t. split; [done | by apply spelled_text].
    + cbn [rendered_loop]. destruct (special_token_at v (c :: p')) as [[token len]|] eqn:Es.
      * apply special_at_spec in Es as (s & rest & Hin & -> & Ep). rewrite Ep in *. rewrite drop_app_length.
        destruct (special_texts s token Hin) as (_ & _ & Hl).
        apply Forall_app in Hb as [Hb1 [Hb2 Hb3]%Forall_app]. apply no_nul_app in Hn as [Hn1 [Hn2 Hn3]%no_nul_app].
        destruct (tokenize_span_spelled span Hb1 Hn1) as (t1 & E1 & S1). rewrite E1. cbn [mbind option_bind].
        destruct (IH [] rest) as (t2 & E2 & S2); [done | done | rewrite length_app in Hf; lia |].
        rewrite E2. cbn [mbind option_bind]. exists (t1 ++ token :: t2). split; [done|].
        rewrite tokens_text_app, (spelled_text t1 span S1). f_equal.
        change (tokens_text v (token :: t2)) with (ds4_token_text v token ++ tokens_text v t2).
        by rewrite (special_text s token Hin), S2.
      * destruct (IH (span ++ [c]) p') as (t & E & S); [by rewrite <- app_assoc | by rewrite <- app_assoc | cbn in Hf; lia |].
        exists t. split; [done|]. by rewrite S, <- app_assoc.
Qed.

(** ** Tool results *)

(** The content as it is tokenized: the first character of every closing
    sentinel is escaped. *)
Fixpoint escape_tool_result (p : bytes) : bytes :=
  match p with
  | [] => []
  | c :: p' => if starts_with TOOL_RESULT_END p then bs "&lt;" ++ escape_tool_result p' else c :: escape_tool_result p'
  end.

Lemma starts_with_escape w : forall p, Forall (fun c => c <> ch "&" /\ c <> ch "<") w ->
  starts_with w (escape_tool_result p) = true -> starts_with w p = true.
Proof using.
  clear. induction w as [|x w IH]; intros p Hw H; [done|]. apply Forall_cons_iff in Hw as [[Hx1 Hx2] Hw].
  destruct p as [|c p]; [done|]. cbn [escape_tool_result] in H.
  destruct (starts_with TOOL_RESULT_END (c :: p)).
  - cbn [bs app starts_with] in H. apply andb_true_iff in H as [H _]. apply Z.eqb_eq in H. congruence.
  - cbn [starts_with] in *. apply andb_true_iff in H as [H1 H2]. rewrite H1. by apply IH.
Qed.

Lemma escape_no_end p : contains TOOL_RESULT_END (escape_tool_result p) = false.
Proof using.
  clear. destruct (contains _ _) eqn:E; [|done]. apply contains_infix in E as (a & b & E). exfalso.
  revert a E. induction p as [|c p IH]; intros a E; [by destruct a|].
  cbn [escape_tool_result] in E. destruct (starts_with TOOL_RESULT_END (c :: p)) eqn:Es.
  - destruct a as [|a0 [|a1 [|a2 [|a3 a]]]]; cbn [bs app] in E; try (injection E; intros; discriminate).
    injection E as _ _ _ _ E. by apply (IH a).
  - destruct a as [|a0 a]; [|injection E as _ E; by apply (IH a)].
    assert (H : starts_with TOOL_RESULT_END (c :: escape_tool_result p) = true) by (rewrite E; exact (starts_with_app TOOL_RESULT_END b)).
    unfold TOOL_RESULT_END in H, Es. cbn [bs starts_with] in H, Es.
    apply andb_true_iff in H as [H1 H2]. rewrite H1 in Es. cbn [andb] in Es.
    change (starts_with (bs "/tool_result>") (escape_tool_result p) = true) in H2.
    apply starts_with_escape in H2; [|apply (bool_decide_unpack _); vm_compute; exact I].
    change (starts_with (bs "/tool_result>") p = false) in Es. congruence.
Qed.

Lemma escape_ok p : bytes_ok p -> bytes_ok (escape_tool_result p).
Proof using.
  clear. induction 1 as [|c p Hc _ IH]; [constructor|]. cbn [escape_tool_result].
  case_match; [apply Forall_app; split; [apply bs_ok | done] | by constructor].
Qed.

Lemma tool_result_loop_spelled p : forall span, bytes_ok (span ++ p) -> no_nul (span ++ p) ->
  exists t, tool_result_loop v span p = Some t /\ spelled t (span ++ escape_tool_result p).
Proof.
  induction p as [|c p IH]; intros span Hb Hn.
  - rewrite app_nil_r in Hb, Hn. cbn. rewrite app_nil_r. by apply tokenize_span_spelled.
  - cbn [tool_result_loop escape_tool_result]. destruct (starts_with TOOL_RESULT_END (c :: p)) eqn:Es.
    + apply Forall_app in Hb as [Hb1 Hb2]. apply no_nul_app in Hn as [Hn1 Hn2].
      apply Forall_cons_iff in Hb2 as [_ Hb2]. apply Forall_cons_iff in Hn2 as [_ Hn2].
      destruct (tokenize_span_spelled span Hb1 Hn1) as (t1 & E1 & S1).
      destruct (tokenize_spelled (bs "&lt;") (bs_ok _)) as (t2 & E2 & S2).
      destruct (IH [] Hb2 Hn2) as (t3 & E3 & S3).
      rewrite E1. cbn [mbind option_bind]. rewrite E2. cbn [mbind option_bind]. rewrite E3. cbn [mbind option_bind].
      exists (t1 ++ t2 ++ t3). split; [done|]. apply spelled_app; [done|]. by apply spelled_app.
    + destruct (IH (span ++ [c])) as (t & E & S); [by rewrite <- app_assoc | by rewrite <- app_assoc|].
      exists t. split; [done|]. by rewrite <- app_assoc in S.
Qed.

(** C12. Tokenization is lossless and cannot inject control tokens: with a
    byte-level vocabulary, for every text, well-formed UTF-8 or not, the tokens
    of the text spell it again, byte for byte up to its NUL, and none of them is
    the begin, end, user, assistant or DSML token, even when the text contains
    the spelling of one.  Every hash probe and every loop ends. *)
Theorem bpe_lossless text : bytes_ok text ->
  exists t, bpe_tokenize_text v text = Some t /\ tokens_text v t = cstr text /\ Forall (fun id => ~ control id) t.
Proof.
  intros H. destruct (tokenize_spelled text H) as (t & E & S). exists t. split; [done|].
  split; [by apply spelled_text | by eapply spelled_no_control].
Qed.

(** A rendered chat is tokenized without loss as well: special texts become
    their tokens, and the tokens spell the rendered text again. *)
Lemma rendered_chat_lossless text : bytes_ok text ->
  exists t, tokenize_rendered_chat_vocab v (Some text) = Some t /\ tokens_text v t = cstr text.
Proof.
  intros H. unfold tokenize_rendered_chat_vocab. cbn [default from_option id].
  apply (rendered_loop_text (length (cstr text)) [] (cstr text)); [by apply cstr_ok | apply no_nul_cstr | done].
Qed.

(** A message becomes its role's control tokens and text that holds none.  A
    tool result is wrapped so that the closing sentinel ends it: inside, every
    sentinel is escaped, so that the wrapped content contains none, and nothing
    else is changed. *)
Lemma append_message_spec toks role content : bytes_ok content ->
  exists t text, ds4_chat_append_message v toks (Some role) (Some content) = Some t /\
    Forall (fun id => ~ control id) text /\
    if str_is role "system" || str_is role "developer" then
      t = toks ++ text /\ tokens_text v text = cstr content
    else if str_is role "assistant" then
      exists think, think ∈ [[]; [vc_think_end_id v]] /\
        t = toks ++ [vc_assistant_id v] ++ think ++ text /\ tokens_text v text = cstr content
    else if str_is role "tool" || str_is role "function" then
      exists inner, t = toks ++ [vc_user_id v] ++ text /\
        tokens_text v text = bs "<tool_result>" ++ inner ++ bs "</tool_result>" /\
        inner = escape_tool_result (cstr content) /\ contains TOOL_RESULT_END inner = false
    else t = toks ++ [vc_user_id v] ++ text /\ tokens_text v text = cstr content.
Proof.
  intros H. destruct (tokenize_spelled content H) as (tc & Ec & Sc).
  pose proof (spelled_text _ _ Sc) as Tc. pose proof (spelled_no_control _ _ Sc) as Nc.
  unfold ds4_chat_append_message. cbn [default from_option id].
  destruct (str_is role "system" || str_is role "developer").
  { rewrite Ec. cbn [mbind option_bind]. eauto 8. }
  destruct (str_is role "assistant").
  { rewrite Ec. cbn [mbind option_bind]. eexists _, tc. split; [done|]. split; [done|]. eexists. split; [|done].
    case_match; [right; left | left]. }
  destruct (str_is role "tool" || str_is role "function").
  2: { rewrite Ec. cbn [mbind option_bind]. eauto 8. }
  destruct (tokenize_spelled (bs "<tool_result>") (bs_ok _)) as (ta & Ea & Sa).
  destruct (tokenize_spelled (bs "</tool_result>") (bs_ok _)) as (tb & Eb & Sb).
  destruct (tool_result_loop_spelled (cstr content) []) as (tm' & Em & Sm); [by apply cstr_ok | apply no_nul_cstr|].
  unfold bpe_tokenize_tool_result_text. cbn [default from_option id].
  rewrite Ea. cbn [mbind option_bind]. rewrite Em. cbn [mbind option_bind]. rewrite Eb. cbn [mbind option_bind].
  assert (S : spelled (ta ++ tm' ++ tb) (bs "<tool_result>" ++ escape_tool_result (cstr content) ++ bs "</tool_result>")).
  { apply spelled_app; [done|]. by apply spelled_app. }
  eexists _, (ta ++ tm' ++ tb). split; [done|]. split; [by eapply spelled_no_control|].
  exists (escape_tool_result (cstr content)). split; [done|]. split; [by apply spelled_text|]. split; [done | apply escape_no_end].
Qed.

End Vocab.
