(* ===== verification/Vocab.v ===== *)
(** * Vocab: loading the vocabulary from a model file (ds4.c)

    [vocab_load] fills the tokenizer's tables from the GGUF arrays.  On an
    accepted file it succeeds exactly when the special tokens are there, and the
    vocabulary is then fit for lossless tokenization as soon as its tokens and
    merges form a byte-level BPE. *)

From S2P Require Import Prelude KvHeader Ctype Gguf GgufFormat GgufLoad Think StrTable Bpe BpeFacts.

(** A probe or a doubling that does not end. *)
Definition ends {A} (x : option A) : lres A := match x with Some a => LDone a | None => LStuck end.

(** [for (i = 0; i < n; i++)]: the strings of an array into a table. *)
Fixpoint load_strings (n : nat) (i : Z) (c : cursor) (acc : list bytes) (t : str_i32_table)
  : lres (list bytes * str_i32_table) :=
  match n with
  | O => LDone (acc, t)
  | S n' =>
      (load (s, c) <- or_die (cursor_string c);
       load t <- ends (table_put t s (i32 i));
       load_strings n' (i + 1) c (acc ++ [s]) t)%cur
  end.

Definition vocab_lookup (t : str_i32_table) (text : bytes) : lres Z :=
  (load r <- ends (table_get t (cstr text));
   match r with
   | Some token => LDone token
   | None => LDie (bs "required tokenizer token is missing: " ++ text)
   end)%cur.

Definition vocab_load (alloc : allocator) (m : ds4_model) : lres ds4_vocab :=
  match model_get_array m (bs "tokenizer.ggml.tokens") with
  | Some tokens =>
      if negb (ar_type tokens =? GGUF_VALUE_STRING) || (INT32_MAX <? ar_len tokens)
      then LDie (bs "GGUF tokenizer token table is missing or invalid")
      else
        match model_get_array m (bs "tokenizer.ggml.merges") with
        | Some merges =>
            if negb (ar_type merges =? GGUF_VALUE_STRING)
            then LDie (bs "GGUF tokenizer merge table is missing or invalid")
            else if negb (alloc (ar_len tokens) 16) then LDie (bs "out of memory")
            else
              (load t0 <- ends (table_init (ar_len tokens));
               if negb (alloc (tb_cap t0) 32) then LDie (bs "out of memory")
               else
                 load (toks, t) <- load_strings (Z.to_nat (ar_len tokens)) 0 (cursor_at m (ar_data_pos tokens)) [] t0;
                 load r0 <- ends (table_init (ar_len merges));
                 if negb (alloc (tb_cap r0) 32) then LDie (bs "out of memory")
                 else
                   load (_, r) <- load_strings (Z.to_nat (ar_len merges)) 0 (cursor_at m (ar_data_pos merges)) [] r0;
                   load bos <- vocab_lookup t BOS_TEXT;
                   load eos <- vocab_lookup t EOS_TEXT;
                   load user <- vocab_lookup t USER_TEXT;
                   load assistant <- vocab_lookup t ASSISTANT_TEXT;
                   load think_start <- vocab_lookup t THINK_START_TEXT;
                   load think_end <- vocab_lookup t THINK_END_TEXT;
                   load dsml <- vocab_lookup t DSML_TEXT;
                   LDone (mkVocab toks bos eos user assistant think_start think_end dsml t r))%cur
        | None => LDie (bs "GGUF tokenizer merge table is missing or invalid")
        end
  | None => LDie (bs "GGUF tokenizer token table is missing or invalid")
  end.

(** ** The tables *)

(** The entries the loops insert, in order. *)
Fixpoint numbered (i : Z) (l : list bytes) : list (bytes * Z) :=
  match l with [] => [] | s :: l' => (s, i32 i) :: numbered (i + 1) l' end.

Lemma numbered_length l : forall i, zlen (numbered i l) = zlen l.
Proof. induction l as [|s l IH]; intros i; [done|]. cbn [numbered]. by rewrite !zlen_cons, IH. Qed.

Lemma map_put_all_app l k : forall m, map_put_all m (l ++ k) = map_put_all (map_put_all m l) k.
Proof. intros m. apply fold_left_app. Qed.

(** The last position of a string in the list, if it occurs. *)
Lemma numbered_lookup l : forall i (m : gmap bytes Z) s v, 0 <= i -> i + zlen l <= 2 ^ 31 ->
  map_put_all m (numbered i l) !! s = Some v ->
  ((s ∉ l) /\ m !! s = Some v) \/ (i <= v < i + zlen l /\ l !! Z.to_nat (v - i) = Some s).
Proof.
  induction l as [|x l IH]; intros i m s v Hi Hl H; [left; split; [apply not_elem_of_nil | done]|].
  rewrite zlen_cons in *. pose proof (zlen_nonneg l). cbn [numbered map_put_all fold_left fst snd] in H.
  fold (map_put_all (<[x := i32 i]> m) (numbered (i + 1) l)) in H.
  apply IH in H as [[Hn H]|[Hr H]]; [| | lia | lia].
  - apply lookup_insert_Some in H as [[-> <-]|[Hne H]].
    + right. rewrite i32_small by lia. rewrite Z.sub_diag. split; [lia | done].
    + left. split; [|done]. apply not_elem_of_cons. done.
  - right. split; [lia|]. replace (Z.to_nat (v - i)) with (S (Z.to_nat (v - (i + 1)))) by lia. done.
Qed.

Lemma numbered_mem l : forall i (m : gmap bytes Z) s, s ∈ l \/ is_Some (m !! s) -> is_Some (map_put_all m (numbered i l) !! s).
Proof.
  induction l as [|x l IH]; intros i m s H; cbn [numbered map_put_all fold_left fst snd].
  - destruct H as [H|H]; [by apply elem_of_nil in H | done].
  - apply IH. destruct (decide (x = s)) as [->|Hne]; [right; rewrite lookup_insert_eq; by eexists|].
    rewrite lookup_insert_ne by done. destruct H as [[->|H]%elem_of_cons|H]; [done | by left | by right].
Qed.

Section Load.
Context {file : bytes} {MM : Mapping file}.
#[local] Set Default Proof Using "All".

Lemma load_strings_spec l : forall i c acc t m rest, cur_ok file c -> Forall (fun s => in_u 64 (zlen s)) l ->
  rem file c = concat (map enc_string l) ++ rest ->
  represents t m -> tb_used t + zlen l < tb_cap t ->
  exists t', load_strings (length l) i c acc t = LDone (acc ++ l, t') /\
    represents t' (map_put_all m (numbered i l)) /\ tb_used t' < tb_cap t'.
Proof.
  induction l as [|s l IH]; intros i c acc t m rest Hc Hl R Hr Hu.
  - exists t. rewrite app_nil_r. split; [done|]. split; [done|]. rewrite zlen_nil in Hu. lia.
  - apply Forall_cons_iff in Hl as [Hs Hl]. rewrite zlen_cons in Hu. pose proof (zlen_nonneg l).
    cbn [map concat] in R. rewrite <- app_assoc in R. cbn [load_strings length].
    destruct (cursor_string_reads c Hc) as [S1 _]. rewrite (S1 s _ _ (conj Hs eq_refl) R). cbn [or_die lbind].
    destruct (table_put_spec t m s (i32 i) Hr) as (t1 & E1 & R1 & C1 & U1); [lia|]. rewrite E1. cbn [ends lbind].
    destruct (adv_step c _ _ Hc R) as (Hc' & R' & _).
    destruct (IH (i + 1) _ (acc ++ [s]) t1 _ rest Hc' Hl R' R1) as (t' & E & R2 & U2).
    { rewrite C1, U1. destruct (m !! s); lia. }
    exists t'. rewrite E, <- app_assoc. done.
Qed.

Lemma vocab_lookup_spec t m text : represents t m -> tb_used t < tb_cap t -> no_nul text ->
  vocab_lookup t text = match m !! text with
                        | Some token => LDone token
                        | None => LDie (bs "required tokenizer token is missing: " ++ text) end.
Proof.
  intros R U N. unfold vocab_lookup. rewrite cstr_no_nul, (table_get_spec t m text R U) by done. cbn [ends lbind]. done.
Qed.

(** An array of strings behind its key. *)
Lemma string_array d alloc key l : accepts (file := file) alloc d ->
  doc_find d key = Some (GList GGUF_VALUE_STRING (map GString l)) ->
  exists pos rest, model_get_array (model_of d file) key = Some (mkArray GGUF_VALUE_STRING (zlen l) pos) /\
    cur_ok file (cursor_at (model_of d file) pos) /\
    rem file (cursor_at (model_of d file) pos) = concat (map enc_string l) ++ rest /\
    Forall (fun s => in_u 64 (zlen s)) l /\ in_u 64 (zlen l) /\ zlen l * 8 <= zlen file.
Proof.
  intros Hd Hf. pose proof (find_value alloc d key Hd) as H. rewrite Hf in H.
  destruct H as (Hv & _ & kv & rest & E & Ht & Hc & R). unfold model_get_array, typed_kv. rewrite E, Ht.
  cbn [gtype]. rewrite Z.eqb_refl. cbn [negb mbind option_bind]. set (c := cursor_at _ (kv_value_pos kv)) in *.
  cbn [enc_val] in R. rewrite zlen_map, map_map in R. rewrite <- !app_assoc in R.
  destruct Hv as (Hi & Hs & Hn & Hvs). rewrite zlen_map in Hn. rewrite Forall_map in Hvs.
  assert (Hl : Forall (fun s => in_u 64 (zlen s)) l) by (eapply Forall_impl; [|exact Hvs]; by intros s [_ Hs']).
  destruct (cursor_u32_reads c Hc) as [U1 _]. rewrite (U1 _ _ _ (conj Hi eq_refl) R). cbn [cbind].
  destruct (adv_step c _ _ Hc R) as (Hc1 & R1 & _).
  destruct (cursor_u64_reads _ Hc1) as [U2 _]. rewrite (U2 _ _ _ (conj Hn eq_refl) R1). cbn [cbind].
  destruct (adv_step _ _ _ Hc1 R1) as (Hc2 & R2 & Hle).
  eexists _, rest. split; [done|].
  assert (Ec : cursor_at (model_of d file) (c_pos (adv (adv c (zlen (ds4_kvstore_le_put32 GGUF_VALUE_STRING))) (zlen (kv_le_put64 (zlen l)))))
               = adv (adv c (zlen (ds4_kvstore_le_put32 GGUF_VALUE_STRING))) (zlen (kv_le_put64 (zlen l)))) by reflexivity.
  rewrite Ec. split; [done|]. split; [exact R2|]. split; [done|]. split; [done|].
  pose proof (rem_length _ Hc2) as L. rewrite R2, zlen_app in L. destruct Hc2 as (_ & _ & Hp & _).
  assert (zlen l * 8 <= zlen (concat (map (fun s => enc_val (GString s)) l))); [|pose proof (zlen_nonneg rest); lia].
  clear. induction l as [|s l IH]; [done|]. cbn [map concat]. rewrite zlen_cons, zlen_app.
  change (enc_val (GString s)) with (enc_string s). pose proof (enc_string_pos s). lia.
Qed.

(** The token and merge lists a document carries. *)
Definition doc_tokens (d : gdoc) (toks merges : list bytes) : Prop :=
  doc_find d (bs "tokenizer.ggml.tokens") = Some (GList GGUF_VALUE_STRING (map GString toks)) /\
  doc_find d (bs "tokenizer.ggml.merges") = Some (GList GGUF_VALUE_STRING (map GString merges)) /\
  zlen toks <= INT32_MAX.

(** The texts [vocab_load] looks up. *)
Definition special_names : list bytes :=
  [BOS_TEXT; EOS_TEXT; USER_TEXT; ASSISTANT_TEXT; THINK_START_TEXT; THINK_END_TEXT; DSML_TEXT].

Lemma special_names_no_nul s : s ∈ special_names -> no_nul s.
Proof using.
  clear. unfold special_names. intros H.
  repeat (apply elem_of_cons in H as [->|H]); [.. | by apply elem_of_nil in H];
    apply (bool_decide_unpack _); vm_compute; exact I.
Qed.

Definition token_map (toks : list bytes) : gmap bytes Z := map_put_all ∅ (numbered 0 toks).

(** What is loaded. *)
Definition loaded (toks merges : list bytes) (v : ds4_vocab) : Prop :=
  vc_token v = toks /\
  represents (vc_token_to_id v) (token_map toks) /\ tb_used (vc_token_to_id v) < tb_cap (vc_token_to_id v) /\
  represents (vc_merge_rank v) (token_map merges) /\ tb_used (vc_merge_rank v) < tb_cap (vc_merge_rank v) /\
  (forall s id, (s, id) ∈ specials v -> token_map toks !! s = Some id).

Lemma vocab_load_loaded d alloc toks merges : accepts (file := file) alloc d -> doc_tokens d toks merges ->
  (forall n s, alloc n s = true) -> Forall (fun s => s ∈ toks) special_names ->
  exists v, vocab_load alloc (model_of d file) = LDone v /\ loaded toks merges v.
Proof.
  intros Hd (Ht & Hm & Hlen) Ha Hsp.
  destruct (string_array d alloc _ toks Hd Ht) as (p1 & r1 & E1 & C1 & R1 & L1 & N1 & _).
  destruct (string_array d alloc _ merges Hd Hm) as (p2 & r2 & E2 & C2 & R2 & L2 & N2 & M2).
  pose proof (map_size (M := file)) as Hsz. pose proof (zlen_nonneg toks). pose proof (zlen_nonneg merges).
  unfold vocab_load. rewrite E1, E2. cbn [ar_type ar_len ar_data_pos].
  destruct (Z.ltb_spec INT32_MAX (zlen toks)); [lia|]. rewrite !Z.eqb_refl, !Ha. cbn [negb orb].
  unfold INT32_MAX in *.
  destruct (table_init_spec (zlen toks)) as (t0 & I1 & S1 & U1 & K1); [lia | lia|].
  destruct (table_init_spec (zlen merges)) as (r0 & I2 & S2 & U2 & K2); [lia | lia|].
  rewrite I1. cbn [ends lbind]. rewrite Ha. cbn [negb].
  destruct (load_strings_spec toks 0 _ [] t0 ∅ r1 C1 L1 R1 S1) as (t & T1 & T2 & T3); [lia|].
  destruct (load_strings_spec merges 0 _ [] r0 ∅ r2 C2 L2 R2 S2) as (r & G1 & G2 & G3); [lia|].
  unfold zlen at 1. rewrite Nat2Z.id, T1. cbn [lbind]. rewrite I2. cbn [ends lbind]. rewrite Ha. cbn [negb].
  unfold zlen at 1. rewrite Nat2Z.id, G1. cbn [lbind app].
  assert (Hl : forall s, s ∈ special_names -> exists id, vocab_lookup t s = LDone id /\ token_map toks !! s = Some id).
  { intros s Hs. rewrite (vocab_lookup_spec t _ s T2 T3 (special_names_no_nul s Hs)).
    destruct (numbered_mem toks 0 ∅ s) as [id Hid]; [left; exact (Forall_elem _ _ _ Hsp Hs)|].
    exists id. unfold token_map. by rewrite Hid. }
  destruct (Hl BOS_TEXT ltac:(by left)) as (i1 & -> & J1).
  destruct (Hl EOS_TEXT ltac:(by right; left)) as (i2 & -> & J2).
  destruct (Hl USER_TEXT ltac:(by do 2 right; left)) as (i3 & -> & J3).
  destruct (Hl ASSISTANT_TEXT ltac:(by do 3 right; left)) as (i4 & -> & J4).
  destruct (Hl THINK_START_TEXT ltac:(by do 4 right; left)) as (i5 & -> & J5).
  destruct (Hl THINK_END_TEXT ltac:(by do 5 right; left)) as (i6 & -> & J6).
  destruct (Hl DSML_TEXT ltac:(by do 6 right; left)) as (i7 & -> & J7).
  cbn [lbind]. eexists. split; [done|]. unfold loaded, specials. cbn.
  split; [done|]. split; [done|]. split; [done|]. split; [done|]. split; [done|].
  intros s id H'. repeat (apply elem_of_cons in H' as [[= -> ->]|H']; [done|]). by apply elem_of_nil in H'.
Qed.

End Load.

(** The tokens and merges of a byte-level BPE. *)
Definition byte_level (toks merges : list bytes) : Prop :=
  (forall b, byte_ok b -> byte_unit b ∈ toks) /\
  (forall a b, a ++ [ch " "] ++ b ∈ merges -> a ++ b ∈ toks) /\
  Forall (fun s => s ∈ toks) special_names /\ zlen merges <= INT32_MAX.

Lemma loaded_ok toks merges v : loaded toks merges v -> byte_level toks merges -> zlen toks <= INT32_MAX ->
  VocabOk v (token_map toks) (token_map merges).
Proof.
  intros (Ev & R1 & U1 & R2 & U2 & Hsp) (Hb & Hm & _ & Lm) Lt. unfold INT32_MAX in *.
  assert (Hid : forall s id, token_map toks !! s = Some id -> 0 <= id < zlen (vc_token v) /\ nth (Z.to_nat id) (vc_token v) [] = s).
  { intros s id H. rewrite Ev. apply numbered_lookup in H as [[_ H]|[Hr H]]; [| | lia | lia]; [by rewrite lookup_empty in H|].
    rewrite Z.sub_0_r in H. split; [lia|]. by apply nth_lookup_Some. }
  split; try done.
  - intros b H. apply numbered_mem. left. by apply Hb.
  - intros a b r H _. apply numbered_mem. left. apply Hm.
    apply numbered_lookup in H as [[_ H]|[Hr H]]; [| | lia | lia]; [by rewrite lookup_empty in H|].
    by apply list_elem_of_lookup_2 in H.
  - intros s id H. by apply Hid, Hsp.
Qed.

(** C30. From file to text: when the loader accepts a file whose token and merge
    arrays form a byte-level BPE with the seven special tokens, the vocabulary
    loads, and with it every text is tokenized without loss and without control
    tokens. *)
Theorem loaded_vocab_lossless file `{!Mapping file} alloc d toks merges text :
  accepts (file := file) alloc d -> doc_tokens d toks merges -> byte_level toks merges ->
  (forall n s, alloc n s = true) -> bytes_ok text ->
  exists m v t, model_open alloc (Some file) = LDone m /\ vocab_load alloc m = LDone v /\
    bpe_tokenize_text v text = Some t /\ tokens_text v t = cstr text /\ Forall (fun id => ~ control (v := v) id) t.
Proof.
  intros Hd Ht Hb Ha Htext. exists (model_of d file).
  destruct (vocab_load_loaded d alloc toks merges Hd Ht Ha (proj1 (proj2 (proj2 Hb)))) as (v & E & L).
  pose proof (loaded_ok toks merges v L Hb (proj2 (proj2 Ht))) as VO.
  destruct (tokenize_spelled (VO := VO) text Htext) as (t & Et & S). exists v, t.
  split; [by apply model_open_accepts|]. split; [done|]. split; [done|].
  split; [by apply (spelled_text (VO := VO)) | by eapply (spelled_no_control (VO := VO))].
Qed.

(** ** A small vocabulary *)

Definition demo_tokens : list bytes :=
  special_names ++ map (fun i => byte_unit (Z.of_nat i)) (seq 0 256) ++ [bs "hi"].
Definition demo_merges : list bytes := [bs "h i"].

Definition demo_vdoc : gdoc := mkGdoc
  [mkGkv (bs "tokenizer.ggml.tokens") (GList 8 (map GString demo_tokens));
   mkGkv (bs "tokenizer.ggml.merges") (GList 8 (map GString demo_merges))] [].

Definition demo_vfile : bytes := enc_doc demo_vdoc.

#[export] Instance demo_vmapping : Mapping demo_vfile.
Proof. split; [|vm_compute; reflexivity]. apply (bool_decide_unpack _). vm_compute. exact I. Qed.

Lemma demo_vaccepts : accepts (file := demo_vfile) alloc_any demo_vdoc.
Proof.
  split; [|split; [|split; [|split; [|split]]]].
  - apply (bool_decide_unpack _). vm_compute. exact I.
  - by vm_compute.
  - exists []. by rewrite app_nil_r.
  - done.
  - done.
  - constructor.
Qed.

Lemma demo_doc_tokens : doc_tokens demo_vdoc demo_tokens demo_merges.
Proof. split; [|split]; [vm_compute; reflexivity | vm_compute; reflexivity | by vm_compute]. Qed.

Lemma demo_byte_level : byte_level demo_tokens demo_merges.
Proof.
  split; [|split; [|split]].
  - intros b Hb. apply elem_of_app. right. apply elem_of_app. left. apply list_elem_of_In, in_map_iff.
    exists (Z.to_nat b). unfold byte_ok in Hb. rewrite Z2Nat.id by lia. split; [done|]. apply in_seq. lia.
  - intros a b H. apply elem_of_cons in H as [H|H]; [|by apply elem_of_nil in H].
    apply elem_of_app. right. apply elem_of_app. right. apply elem_of_cons. left.
    destruct a as [|a0 [|a1 [|a2 a]]]; cbn in H; try discriminate; [by injection H as -> -> | by injection H; intros; destruct a].
  - apply Forall_intro. intros s Hs. apply elem_of_app. by left.
  - by vm_compute.
Qed.

Definition vocab_or_empty (r : lres ds4_vocab) : ds4_vocab :=
  match r with LDone v => v | _ => mkVocab [] 0 0 0 0 0 0 0 (mkTable [] 0 0) (mkTable [] 0 0) end.

Definition demo_vocab : ds4_vocab := vocab_or_empty (vocab_load alloc_any (model_of demo_vdoc demo_vfile)).

Lemma demo_vocab_loaded : VocabOk demo_vocab (token_map demo_tokens) (token_map demo_merges).
Proof.
  destruct (vocab_load_loaded (file := demo_vfile) demo_vdoc alloc_any demo_tokens demo_merges demo_vaccepts demo_doc_tokens)
    as (v & E & L); [intros; reflexivity | apply demo_byte_level|].
  assert (Ev : demo_vocab = v) by exact (f_equal vocab_or_empty E).
  rewrite Ev. exact (loaded_ok _ _ _ L demo_byte_level (proj2 (proj2 demo_doc_tokens))).
Qed.

#[export] Instance demo_vocab_ok : VocabOk demo_vocab (token_map demo_tokens) (token_map demo_merges) :=
  demo_vocab_loaded.

Definition demo_text : bytes := bs "hi <｜User｜> 42;" ++ [10; 255].

(** The control text is spelled out, the merge is used. *)
Example demo_tokenized : option_map (fun t => (length t, take 3 t)) (bpe_tokenize_text demo_vocab demo_text) = Some (20%nat, [263; 39; 67]).
Proof. vm_compute. reflexivity. Qed.

Lemma bpe_lossless_witness :
  exists t, bpe_tokenize_text demo_vocab demo_text = Some t /\ tokens_text demo_vocab t = cstr demo_text /\
    Forall (fun id => ~ control (v := demo_vocab) id) t.
Proof. apply (@bpe_lossless _ _ _ demo_vocab_ok demo_text). apply (bool_decide_unpack _). vm_compute. exact I. Defined.

Lemma rendered_chat_lossless_witness :
  exists t, tokenize_rendered_chat_vocab demo_vocab (Some demo_text) = Some t /\ tokens_text demo_vocab t = cstr demo_text.
Proof. apply (@rendered_chat_lossless _ _ _ demo_vocab_ok demo_text). apply (bool_decide_unpack _). vm_compute. exact I. Defined.

Definition demo_content : bytes := bs "x</tool_result>y".

Lemma append_message_spec_witness :
  exists t text inner, ds4_chat_append_message demo_vocab [] (Some (bs "tool")) (Some demo_content) = Some t /\
    t = [vc_user_id demo_vocab] ++ text /\
    tokens_text demo_vocab text = bs "<tool_result>" ++ inner ++ bs "</tool_result>" /\ inner = bs "x&lt;/tool_result>y".
Proof.
  destruct (@append_message_spec _ _ _ demo_vocab_ok [] (bs "tool") demo_content) as (t & text & E & _ & inner & Et & Tt & Ei & _).
  - apply bs_ok.
  - exists t, text, inner. rewrite Ei. split; [exact E|]. split; [exact Et|]. rewrite Ei in Tt. split; [exact Tt|]. vm_compute. reflexivity.
Defined.

Lemma loaded_vocab_lossless_witness :
  exists m v t, model_open alloc_any (Some demo_vfile) = LDone m /\ vocab_load alloc_any m = LDone v /\
    bpe_tokenize_text v demo_text = Some t /\ tokens_text v t = cstr demo_text /\
    Forall (fun id => ~ control (v := v) id) t.
Proof.
  apply (@loaded_vocab_lossless demo_vfile demo_vmapping alloc_any demo_vdoc demo_tokens demo_merges demo_text
           demo_vaccepts demo_doc_tokens demo_byte_level).
  - intros n s. reflexivity.
  - apply (bool_decide_unpack _). vm_compute. exact I.
Defined.
