(* ===== verification/AgentFile.v ===== *)
(** * AgentFile: the file tools of the terminal agent (ds4_agent.c)

    Reading a file in pages, writing one, replacing a unique piece of one, and
    searching one.  The worker's share of the state is where [more] goes on. *)

From S2P Require Import Prelude Ctype TcLines Fs.

(** ** Arguments of a tool call *)

Record agent_tool_arg := mkToolArg { ta_name : option bytes; ta_value : option bytes; ta_is_string : bool }.

Record agent_tool_call := mkToolCall { tc_name : option bytes; tc_args : list agent_tool_arg }.

(** [strcmp(a, b) == 0] *)
Definition c_streq (a b : bytes) : bool := bytes_eqb (cstr a) (cstr b).

(** The value as the C string the tools see. *)
Fixpoint arg_value_loop (args : list agent_tool_arg) (name : bytes) : option bytes :=
  match args with
  | [] => None
  | a :: args =>
      match ta_name a with
      | Some n => if c_streq n name then Some (cstr (default [] (ta_value a))) else arg_value_loop args name
      | None => arg_value_loop args name
      end
  end.

Definition agent_tool_arg_value (call : agent_tool_call) (name : string) : option bytes :=
  arg_value_loop (tc_args call) (bs name).

(** [strtol(s, &end, 10)]: the value and what is left; [None] when [end == s]. *)
Definition strtol_end (s : bytes) : option (Z * bytes) :=
  let p := drop (span_len isspace s) s in
  let '(neg, p) := match p with
                   | c :: p' => if c =? ch "-" then (true, p') else if c =? ch "+" then (false, p') else (false, p)
                   | [] => (false, [])
                   end in
  let n := span_len isdigit p in
  if (n =? 0)%nat then None
  else
    let v := digits_value 0 (take n p) in
    Some (if neg then Z.max (- INT64_MAX - 1) (- v) else Z.min INT64_MAX v, drop n p).

Definition is_tail_blank (c : Z) : bool := (c =? 32) || (c =? 9) || (c =? 13) || (c =? 10).

Definition agent_parse_int_default (s : option bytes) (def min max : Z) : Z :=
  match s with
  | None | Some [] => def
  | Some s =>
      match strtol_end s with
      | None => def
      | Some (v, e) =>
          match drop (span_len is_tail_blank e) e with
          | _ :: _ => def
          | [] => let v := if v <? min then min else v in if max <? v then max else v
          end
      end
  end.

(** [strcasecmp(a, b) == 0] *)
Definition c_strcaseeq (a : bytes) (b : string) : bool := bytes_eqb (tolower <$> cstr a) (tolower <$> bs b).

Definition agent_parse_bool_default (s : option bytes) (def : bool) : bool :=
  match s with
  | None | Some [] => def
  | Some s =>
      if c_strcaseeq s "true" || c_strcaseeq s "yes" || c_streq s (bs "1") then true
      else if c_strcaseeq s "false" || c_strcaseeq s "no" || c_streq s (bs "0") then false
      else def
  end.

(** ** Lines *)

Definition AGENT_FILE_MAX_BYTES : Z := 16 * 1024 * 1024.
Definition AGENT_READ_DEFAULT_LINES : Z := 500.
Definition AGENT_EDIT_UPTO_MIN_PREFIX_BYTES : Z := 64.
Definition AGENT_EDIT_UPTO_MIN_PREFIX_LINES : Z := 2.

(** A line is cut as the tool compressor cuts it; the growing array of spans is
    the list of them. *)
Abbreviation agent_line_span := ds4_tc_line.

Fixpoint agent_split_loop (fuel : nat) (data : bytes) (pos : nat) (spans : list agent_line_span)
  : list agent_line_span :=
  match fuel with
  | O => spans
  | S fuel =>
      if (pos <? length data)%nat then
        let sp := tc_line_at data pos in agent_split_loop fuel data (ln_end sp) (spans ++ [sp])
      else spans
  end.

(** Every pass takes a byte. *)
Definition agent_split_lines (data : bytes) : list agent_line_span := agent_split_loop (length data) data 0 [].

(** [snprintf(buf, n, "%s", s)] *)
Definition c_snprintf (n : nat) (s : bytes) : bytes := take (n - 1) s.

Definition PATH_MAX_ : nat := Z.to_nat 4096.
(** The blocks a file is read in. *)
Definition READ_BLOCK : nat := Z.to_nat 8192.
Definition nl : bytes := [10].

(** [default] is the result behind the last line. *)
Fixpoint line_for_offset_loop (spans : list agent_line_span) (offset : nat) (i last_ : Z) : Z :=
  match spans with
  | [] => last_
  | sp :: spans => if (offset <? ln_end sp)%nat then i + 1 else line_for_offset_loop spans offset (i + 1) last_
  end.

Definition agent_line_for_offset (spans : list agent_line_span) (offset : nat) : Z :=
  match spans with
  | [] => 1
  | _ => line_for_offset_loop spans offset 0 (zlen spans)
  end.

(** First and last old line touched, and by how much the later ones move. *)
Definition agent_old_new_line_effect (old_data new_data : bytes) (edit_offset replaced_len : nat)
  : option (Z * Z * Z) :=
  let old_spans := agent_split_lines old_data in
  let new_spans := agent_split_lines new_data in
  match old_spans with
  | [] => None
  | _ =>
      let old_last := if (0 <? replaced_len)%nat then (edit_offset + replaced_len - 1)%nat else edit_offset in
      let old_last := if (length old_data <=? old_last)%nat
                      then (if (length old_data =? 0)%nat then 0 else length old_data - 1)%nat else old_last in
      Some (agent_line_for_offset old_spans edit_offset, agent_line_for_offset old_spans old_last,
            zlen new_spans - zlen old_spans)
  end.

(** ** Reports *)

Definition numbered_line (data : bytes) (sp : agent_line_span) (line : Z) : bytes :=
  dec_int line ++ bs " " ++ line_content data sp ++ nl.

(** [agent_edit_result_append_line] for the lines [first..last_]. *)
Definition append_lines (data : bytes) (spans : list agent_line_span) (first last_ : Z) : bytes :=
  concat (imap (fun i sp => numbered_line data sp (first + Z.of_nat i))
    (take (Z.to_nat (last_ - first + 1)) (drop (Z.to_nat (first - 1)) spans))).

Definition CONTEXT_BEFORE : Z := 5.
Definition CONTEXT_AFTER : Z := 8.
Definition EDITED_CONTEXT_HEAD : Z := 18.
Definition EDITED_CONTEXT_TAIL : Z := 18.

Definition agent_edit_result_append_context (path data : bytes) (anchor_start anchor_end : Z) : bytes :=
  let spans := agent_split_lines data in
  let n := zlen spans in
  if n <=? 0 then []
  else
    let anchor_start := if anchor_start <? 1 then 1 else anchor_start in
    let anchor_start := if n <? anchor_start then n else anchor_start in
    let anchor_end := if anchor_end <? anchor_start then anchor_start else anchor_end in
    let anchor_end := if n <? anchor_end then n else anchor_end in
    let ctx_start := anchor_start - CONTEXT_BEFORE in
    let ctx_start := if ctx_start <? 1 then 1 else ctx_start in
    let ctx_end := anchor_end + CONTEXT_AFTER in
    let ctx_end := if n <? ctx_end then n else ctx_end in
    let hdr := c_snprintf (PATH_MAX_ + 160)
      (bs "Current file around edit: " ++ path ++ bs " lines " ++ dec_int ctx_start ++ bs "-" ++
       dec_int ctx_end ++ bs " of " ++ dec_int n ++ nl) in
    let edited_lines := anchor_end - anchor_start + 1 in
    hdr ++
    (if edited_lines <=? EDITED_CONTEXT_HEAD + EDITED_CONTEXT_TAIL then append_lines data spans ctx_start ctx_end
     else
       let head_end := anchor_start + EDITED_CONTEXT_HEAD - 1 in
       let tail_start := anchor_end - EDITED_CONTEXT_TAIL + 1 in
       append_lines data spans ctx_start head_end ++
       c_snprintf (PATH_MAX_ + 160)
         (bs "... " ++ dec_int (tail_start - head_end - 1) ++ bs " edited lines omitted ..." ++ nl) ++
       append_lines data spans tail_start ctx_end).

(** [%+d] *)
Definition dec_signed (n : Z) : bytes := if n <? 0 then dec_int n else ch "+" :: dec_int n.

Definition agent_edit_result (path : bytes) (start_line end_line delta : Z) (new_data kind : bytes) : bytes :=
  let touched := (0 <? start_line) && (start_line <=? end_line) in
  c_snprintf (PATH_MAX_ + 180) (bs "Edited " ++ path ++ bs " using " ++ kind ++ nl) ++
  (if touched then
     bs "Touched old lines " ++ dec_int start_line ++ bs "-" ++ dec_int end_line ++
     bs "; current post-edit context follows." ++ nl ++
     (if delta =? 0 then []
      else
        bs "Line shift: old lines after " ++ dec_int end_line ++ bs " moved by " ++ dec_signed delta ++
        bs " (old line " ++ dec_int (end_line + 1) ++ bs " is now line " ++ dec_int (end_line + 1 + delta) ++
        bs "). Re-read before relying on old line numbers there." ++ nl)
   else []) ++
  (if touched then
     let new_anchor_end := end_line + delta in
     let new_anchor_end := if new_anchor_end <? start_line then start_line else new_anchor_end in
     agent_edit_result_append_context path new_data start_line new_anchor_end
   else []).

(** ** Searching for a piece *)

(** The loop [for (i = 0; i <= last; i++)]. *)
Fixpoint memmem_loop (count : nat) (hay needle : bytes) (i : nat) : option nat :=
  match count with
  | O => None
  | S count => if starts_with needle (drop i hay) then Some i else memmem_loop count hay needle (S i)
  end.

Definition agent_memmem_simple (hay needle : bytes) : option nat :=
  match needle with
  | [] => Some O
  | _ =>
      if (length hay <? length needle)%nat then None
      else memmem_loop (S (length hay - length needle)) hay needle 0
  end.

Definition agent_find_unique (data needle : bytes) (label : string) : nat + bytes :=
  match needle with
  | [] => inr (bs label ++ bs " anchor is empty")
  | _ =>
      match agent_memmem_simple data needle with
      | None => inr (bs label ++ bs " anchor not found")
      | Some first =>
          let after_first := S first in
          match (if (after_first <=? length data)%nat
                 then agent_memmem_simple (drop after_first data) needle else None) with
          | Some _ => inr (bs label ++ bs " anchor is not unique")
          | None => inl first
          end
      end
  end.

(** From offset [start] on. *)
Definition agent_find_unique_after (data : bytes) (start : nat) (needle : bytes) (label : string) : nat + bytes :=
  match needle with
  | [] => inr (bs label ++ bs " anchor is empty")
  | _ =>
      if (length data <? start)%nat then inr (bs label ++ bs " search starts outside file")
      else
        match agent_memmem_simple (drop start data) needle with
        | None => inr (bs label ++ bs " anchor not found after old head")
        | Some k =>
            let first := (start + k)%nat in
            let after_first := S first in
            match (if (after_first <=? length data)%nat
                   then agent_memmem_simple (drop after_first data) needle else None) with
            | Some _ => inr (bs label ++ bs " anchor is not unique after old head")
            | None => inl first
            end
        end
  end.

Definition agent_span_has_nonspace (s : bytes) : bool := existsb (fun c => negb (isspace c)) s.

Definition upto_marker : bytes := bs "[upto]".

Definition is_crlf (c : Z) : bool := (c =? 10) || (c =? 13).

Record old_span := mkOldSpan { os_offset : nat; os_len : nat; os_anchored : bool }.

Definition agent_edit_find_old_span (data old : bytes) : old_span + bytes :=
  match find_sub upto_marker old with
  | None =>
      match agent_find_unique data old "old text" with
      | inr e => inr e
      | inl m => inl (mkOldSpan m (length old) false)
      end
  | Some upto =>
      let tail := drop (length upto_marker) upto in
      match find_sub upto_marker tail with
      | Some _ => inr (bs "old text contains more than one [upto] marker")
      | None =>
          let head := take (length old - length upto) old in
          let tail := drop (span_len is_crlf tail) tail in
          if negb (agent_span_has_nonspace tail)
          then inr (bs "old text after [upto] must include a unique tail anchor")
          else
            match agent_find_unique data head "old head" with
            | inr e => inr e
            | inl head_pos =>
                match agent_find_unique_after data (head_pos + length head) tail "old tail" with
                | inr e => inr e
                | inl tail_pos => inl (mkOldSpan head_pos (tail_pos - head_pos + length tail) true)
                end
            end
      end
  end.

(** ** The tools *)

(** The worker's record of where [more] continues. *)
Record agent_more := mkMore { more_path : bytes; more_next_line : Z; more_bare : bool; more_valid : bool }.

Definition agent_worker_set_more (path : option bytes) (next_line : Z) (bare : bool) : agent_more :=
  mkMore (c_snprintf PATH_MAX_ (default [] path)) next_line bare
         (match path with Some (_ :: _) => 0 <? next_line | _ => false end).

(** The first line of a page. *)
Definition read_header (path : bytes) (first end_idx n count : Z) : bytes :=
  c_snprintf (PATH_MAX_ + 160)
    (path ++ bs ": lines " ++ dec_int first ++ bs "-" ++ dec_int end_idx ++ bs " of " ++ dec_int n ++
     (if end_idx <? n then
        bs "; continue_offset=" ++ dec_int (end_idx + 1) ++ bs "; call more with count=" ++ dec_int count ++
        bs " to read the next chunk"
      else []) ++ nl).

(** The page of [data] that [agent_read_range] prints and the next value of the
    worker's record; [None] when the sum of two [int]s overflows. *)
Definition agent_read_page (path data : bytes) (start_line max_lines : Z) (whole_file bare : bool)
  : option (bytes * agent_more) :=
  let spans := agent_split_lines data in
  let n := zlen spans in
  let start_line := if start_line <? 1 then 1 else start_line in
  let start_idx := start_line - 1 in
  let start_idx := if n <? start_idx then n else start_idx in
  let max_lines := if whole_file then n - start_idx
                   else if max_lines <=? 0 then AGENT_READ_DEFAULT_LINES else max_lines in
  let end_idx := start_idx + max_lines in
  if INT_MAX <? end_idx then None
  else
    let end_idx := if n <? end_idx then n else end_idx in
    let count := if 0 <? max_lines then max_lines else AGENT_READ_DEFAULT_LINES in
    let out :=
      if bare then
        let from := match spans !! Z.to_nat start_idx with Some sp => ln_start sp | None => length data end in
        let to := if start_idx <? end_idx
                  then match spans !! Z.to_nat (end_idx - 1) with Some sp => ln_end sp | None => from end
                  else from in
        let body := take (to - from) (drop from data) in
        body ++ (if List.last body 10 =? 10 then [] else nl) ++
        (if end_idx <? n then
           bs "[Read truncated at line " ++ dec_int end_idx ++ bs " of " ++ dec_int n ++
           bs ". continue_offset=" ++ dec_int (end_idx + 1) ++ bs ". Call more with count=" ++ dec_int count ++
           bs " to read the next chunk.]" ++ nl
         else [])
      else
        read_header path (if n =? 0 then 0 else start_idx + 1) end_idx n count ++
        append_lines data spans (start_idx + 1) end_idx in
    Some (out, if end_idx <? n then agent_worker_set_more (Some path) (end_idx + 1) bare
               else agent_worker_set_more None 0 false).

Definition tool_error (msg : bytes) : bytes := bs "Tool error: " ++ msg ++ nl.

(** [fread] with the stream's error indicator. *)
Definition c_fread_ferror (st : stream) (n : nat) : IO (bytes * bool * stream) :=
  let! f := next_fault in
  let! fs := get_files in
  let got := transferred f (take n (drop (st_pos st) (default [] (fs !! st_path st)))) in
  ret (got, match f with Some k => (k <? n)%nat | None => false end,
       mkStream (st_path st) (st_pos st + length got) (st_buf st)).

(** [fstat] of a stream's file. *)
Definition c_fstat (st : stream) : IO (option Z) := c_stat (st_path st).

Section Tools.
(** [strerror(errno)] after a failed call. *)
Context (strerror : world -> bytes).

Definition c_strerror : IO bytes := fun w => (strerror w, w).

Definition file_too_large (path : bytes) : bytes :=
  bs "file too large: " ++ path ++ bs " exceeds " ++ dec_int AGENT_FILE_MAX_BYTES ++ bs " bytes".

Fixpoint agent_read_loop (fuel : nat) (path : bytes) (errlen : nat) (fp : stream) (buf : bytes)
  : IO (bytes + bytes) :=
  match fuel with
  | O => ret (inr [])
  | S fuel =>
      let! (tmp, failed, fp) := c_fread_ferror fp READ_BLOCK in
      if negb (zlen tmp =? 0) && (AGENT_FILE_MAX_BYTES <? zlen buf + zlen tmp) then
        let! _ := c_fclose fp in
        ret (inr (c_snprintf errlen (file_too_large path)))
      else
        let buf := buf ++ tmp in
        if (length tmp <? READ_BLOCK)%nat then
          if failed : bool then
            let! e := c_strerror in
            let! _ := c_fclose fp in
            ret (inr (c_snprintf errlen (bs "read " ++ path ++ bs ": " ++ e)))
          else
            let! _ := c_fclose fp in
            ret (inl buf)
        else agent_read_loop fuel path errlen fp buf
  end.

(** 2048 full passes reach the limit; one more ends the loop. *)
Definition read_fuel : nat := Z.to_nat 2050.

(** The bytes, or the message. *)
Definition agent_read_file_bytes (path : bytes) (errlen : nat) : IO (bytes + bytes) :=
  let! fp := c_fopen_rb path in
  match fp with
  | None => let! e := c_strerror in ret (inr (c_snprintf errlen (bs "open " ++ path ++ bs ": " ++ e)))
  | Some fp =>
      let! st_size := c_fstat fp in
      if (match st_size with Some n => AGENT_FILE_MAX_BYTES <? n | None => false end) then
        let! _ := c_fclose fp in
        ret (inr (c_snprintf errlen (file_too_large path)))
      else agent_read_loop read_fuel path errlen fp []
  end.

(** [None]: the overflow of [agent_read_page]. *)
Definition agent_read_range (w : agent_more) (path : option bytes) (start_line max_lines : Z)
    (whole_file bare set_more : bool) : IO (option (bytes * agent_more)) :=
  match path with
  | None | Some [] => ret (Some (bs "Tool error: read requires path" ++ nl, w))
  | Some path =>
      let! r := agent_read_file_bytes path 256 in
      ret (match r with
           | inr e => Some (tool_error e, w)
           | inl data =>
               match agent_read_page path data start_line max_lines whole_file bare with
               | None => None
               | Some (out, w') => Some (out, if set_more then w' else w)
               end
           end)
  end.

Definition agent_tool_read (w : agent_more) (call : agent_tool_call) : IO (option (bytes * agent_more)) :=
  let path := agent_tool_arg_value call "path" in
  let whole := agent_parse_bool_default (agent_tool_arg_value call "whole") false in
  let start := agent_parse_int_default (agent_tool_arg_value call "start_line") 1 1 INT_MAX in
  let count := agent_parse_int_default (agent_tool_arg_value call "max_lines") AGENT_READ_DEFAULT_LINES 1 INT_MAX in
  let raw := agent_parse_bool_default (agent_tool_arg_value call "raw") false in
  agent_read_range w path start count whole raw true.

Definition agent_tool_more (w : agent_more) (call : agent_tool_call) : IO (option (bytes * agent_more)) :=
  let count := agent_parse_int_default (agent_tool_arg_value call "count") AGENT_READ_DEFAULT_LINES 1 INT_MAX in
  if negb (more_valid w) then ret (Some (bs "Tool error: no previous output to continue" ++ nl, w))
  else agent_read_range w (Some (more_path w)) (more_next_line w) count false (more_bare w) true.

Definition agent_tool_write (call : agent_tool_call) : IO bytes :=
  match agent_tool_arg_value call "path" with
  | None | Some [] => ret (bs "Tool error: write requires path" ++ nl)
  | Some path =>
      match agent_tool_arg_value call "content" with
      | None => ret (bs "Tool error: write requires content" ++ nl)
      | Some [] => ret (bs "Tool error: write requires non-empty content" ++ nl)
      | Some content =>
          let! fp := c_fopen_wb path in
          match fp with
          | None => let! e := c_strerror in ret (bs "Tool error: open for write failed: " ++ e ++ nl)
          | Some fp =>
              let! (ok, fp) := c_fwrite fp content in
              let! closed := c_fclose fp in
              if negb ok || negb closed then
                let! e := c_strerror in ret (bs "Tool error: write failed: " ++ e ++ nl)
              else
                ret (c_snprintf (PATH_MAX_ + 160)
                  (bs "Wrote " ++ dec (zlen content) ++ bs " bytes to " ++ path ++ nl))
          end
      end
  end.

Definition agent_write_file_bytes (path data : bytes) (errlen : nat) : IO (option bytes) :=
  let! fp := c_fopen_wb path in
  match fp with
  | None => let! e := c_strerror in ret (Some (c_snprintf errlen (bs "open " ++ path ++ bs ": " ++ e)))
  | Some fp =>
      let! (ok, fp) := c_fwrite fp data in
      if negb ok then
        let! e := c_strerror in
        let! _ := c_fclose fp in
        ret (Some (c_snprintf errlen (bs "write " ++ path ++ bs ": " ++ e)))
      else
        let! closed := c_fclose fp in
        if negb closed then
          let! e := c_strerror in ret (Some (c_snprintf errlen (bs "close " ++ path ++ bs ": " ++ e)))
        else ret None
  end.

Definition agent_apply_file_splice (path data : bytes) (offset remove_len : nat) (insert : option bytes)
    (kind : bytes) : IO bytes :=
  let insert := default [] insert in
  let remove_len := if (length data - offset <? remove_len)%nat then (length data - offset)%nat else remove_len in
  let out := take offset data ++ insert ++ drop (offset + remove_len) data in
  let! rc := agent_write_file_bytes path out 256 in
  match rc with
  | Some e => ret (tool_error e)
  | None =>
      let '(start_line, end_line, delta) :=
        default (0, 0, 0) (agent_old_new_line_effect data out offset remove_len) in
      ret (agent_edit_result path start_line end_line delta out kind)
  end.

Definition agent_tool_edit (call : agent_tool_call) : IO bytes :=
  match agent_tool_arg_value call "path" with
  | None | Some [] => ret (bs "Tool error: edit requires path" ++ nl)
  | Some path =>
      let old := agent_tool_arg_value call "old" in
      let new_text := agent_tool_arg_value call "new" in
      match old with
      | None | Some [] => ret (bs "Tool error: edit requires non-empty old text" ++ nl)
      | Some old =>
          match new_text with
          | None => ret (bs "Tool error: edit requires new text" ++ nl)
          | Some new_text =>
              let! r := agent_read_file_bytes path 256 in
              match r with
              | inr e => ret (tool_error e)
              | inl data =>
                  match agent_edit_find_old_span data old with
                  | inr e => ret (tool_error e)
                  | inl sp =>
                      agent_apply_file_splice path data (os_offset sp) (os_len sp) (Some new_text)
                        (if os_anchored sp then bs "anchored old/new replacement" else bs "old/new replacement")
                  end
              end
          end
      end
  end.

(** The check made while the call is still being written. *)
Definition agent_preflight_edit_old (call : agent_tool_call) (errlen : nat) : IO (option bytes) :=
  match agent_tool_arg_value call "path" with
  | None | Some [] => ret None
  | Some path =>
      match agent_tool_arg_value call "old" with
      | None | Some [] => ret (Some (c_snprintf errlen (bs "edit requires non-empty old text")))
      | Some old =>
          let! r := agent_read_file_bytes path errlen in
          ret (match r with
               | inr e => Some e
               | inl data =>
                   match agent_edit_find_old_span data old with
                   | inr e => Some (c_snprintf errlen e)
                   | inl _ => None
                   end
               end)
      end
  end.

End Tools.

(** ** Lines: facts *)

(** The spans are those of the compressor's splitter with enough memory. *)
Lemma agent_split_loop_tc fuel data pos lines :
  lns_v <$> ds4_tc_split_loop fuel (fun _ => true) data pos lines =
  Some (agent_split_loop fuel data pos (lns_v lines)).
Proof.
  revert pos lines. induction fuel as [|fuel IH]; intros pos lines; cbn [ds4_tc_split_loop agent_split_loop]; [done|].
  destruct (pos <? length data)%nat; [|done]. unfold ds4_tc_lines_push.
  destruct (zlen (lns_v lines) =? lns_cap lines); cbn; by rewrite IH.
Qed.

Lemma agent_split_tc data : ds4_tc_split_lines (fun _ => true) data = Some (agent_split_lines data).
Proof. apply (agent_split_loop_tc (length data) data 0 ds4_tc_lines_zero). Qed.

Lemma agent_split_facts data :
  concat (line_text data <$> agent_split_lines data) = data /\
  Forall (line_ok data) (agent_split_lines data) /\ chain 0 (agent_split_lines data) (length data).
Proof. pose proof (split_lines_correct (fun _ => true) data) as H. by rewrite agent_split_tc in H. Qed.

(** ** Occurrences *)

Definition occurs (data needle : bytes) (i : nat) : Prop := needle `prefix_of` drop i data.

(** [needle] is in [data] at [i] and nowhere else. *)
Definition only_at (data needle : bytes) (i : nat) : Prop :=
  occurs data needle i /\ forall j, occurs data needle j -> j = i.

(** At [i] and nowhere else from [start] on. *)
Definition only_after (data needle : bytes) (start i : nat) : Prop :=
  (start <= i)%nat /\ occurs data needle i /\ forall j, (start <= j)%nat -> occurs data needle j -> j = i.

Lemma occurs_bound data needle i :
  needle <> [] -> occurs data needle i -> (i + length needle <= length data)%nat.
Proof.
  intros Hn H. pose proof (prefix_length _ _ H) as Hl. rewrite length_drop in Hl.
  destruct needle; [done|]. cbn [length] in *. lia.
Qed.

Lemma needle_drop data needle s i : occurs (drop s data) needle i <-> occurs data needle (s + i).
Proof. unfold occurs. by rewrite drop_drop. Qed.

Lemma occurs_split data needle i :
  occurs data needle i -> data = take i data ++ needle ++ drop (i + length needle) data.
Proof.
  intros [k Hk]. rewrite <- (take_drop i data) at 1. f_equal.
  replace (drop (i + length needle) data) with (drop (length needle) (drop i data)) by (by rewrite drop_drop).
  by rewrite Hk, drop_app_length.
Qed.

Lemma memmem_loop_spec count hay needle i :
  match memmem_loop count hay needle i with
  | Some k => (i <= k < i + count)%nat /\ occurs hay needle k /\ forall j, (i <= j < k)%nat -> ~ occurs hay needle j
  | None => forall j, (i <= j < i + count)%nat -> ~ occurs hay needle j
  end.
Proof.
  revert i. induction count as [|count IH]; intros i; cbn [memmem_loop]; [intros; lia|].
  destruct (starts_with needle (drop i hay)) eqn:E.
  - apply starts_with_prefix in E. split_and!; [lia..|done|]. intros; lia.
  - assert (Hi : ~ occurs hay needle i) by (intros H; apply starts_with_prefix in H; congruence).
    specialize (IH (S i)). destruct (memmem_loop count hay needle (S i)) as [k|].
    + destruct IH as (? & ? & Hj). split_and!; [lia..|done|]. intros j ?.
      destruct (decide (j = i)) as [->|]; [done|]. apply Hj. lia.
    + intros j ?. destruct (decide (j = i)) as [->|]; [done|]. apply IH. lia.
Qed.

(** The first occurrence. *)
Lemma memmem_spec hay needle :
  needle <> [] ->
  match agent_memmem_simple hay needle with
  | Some k => occurs hay needle k /\ forall j, occurs hay needle j -> (k <= j)%nat
  | None => forall j, ~ occurs hay needle j
  end.
Proof.
  intros Hn. unfold agent_memmem_simple. destruct needle as [|x n]; [done|]. set (needle := x :: n) in *.
  destruct (Nat.ltb_spec (length hay) (length needle)) as [Hlt|Hge].
  - intros j Hj. apply occurs_bound in Hj; [lia|done].
  - pose proof (memmem_loop_spec (S (length hay - length needle)) hay needle 0) as H.
    destruct (memmem_loop _ hay needle 0) as [k|].
    + destruct H as (? & ? & Hj). split; [done|]. intros j Ho. destruct (le_lt_dec k j); [done|].
      exfalso. apply (Hj j); [lia|done].
    + intros j Ho. pose proof (occurs_bound _ _ _ Hn Ho). apply (H j); [lia|done].
Qed.

(** [second] of the uniqueness checks: no occurrence behind the first. *)
Lemma second_spec data needle first :
  needle <> [] -> (first < length data)%nat ->
  (if (S first <=? length data)%nat then agent_memmem_simple (drop (S first) data) needle else None) = None
  <-> forall j, (first < j)%nat -> ~ occurs data needle j.
Proof.
  intros Hn Hf. destruct (Nat.leb_spec (S first) (length data)); [|lia].
  pose proof (memmem_spec (drop (S first) data) needle Hn) as Hm.
  destruct (agent_memmem_simple _ needle) as [k|].
  - split; [done|]. intros Hj. destruct Hm as [Hm _]. apply needle_drop in Hm. exfalso. eapply Hj; [|exact Hm]. lia.
  - split; [|done]. intros _ j Hj Ho. apply (Hm (j - S first)%nat). apply needle_drop.
    by replace (S first + (j - S first))%nat with j by lia.
Qed.

Lemma find_unique_after_spec data start needle label i :
  (start <= length data)%nat ->
  agent_find_unique_after data start needle label = inl i <-> needle <> [] /\ only_after data needle start i.
Proof.
  intros Hs. unfold agent_find_unique_after, only_after. destruct needle as [|x n]; [split; [done|by intros []]|].
  set (needle := x :: n). assert (Hn : needle <> []) by done.
  destruct (Nat.ltb_spec (length data) start); [lia|].
  pose proof (memmem_spec (drop start data) needle Hn) as Hm.
  destruct (agent_memmem_simple (drop start data) needle) as [k|].
  - destruct Hm as [Hk Hmin]. apply needle_drop in Hk.
    pose proof (occurs_bound _ _ _ Hn Hk). cbn [length] in *.
    pose proof (second_spec data needle (start + k) Hn ltac:(cbn in *; lia)) as H2.
    destruct (if (_ <=? _)%nat then _ else None) as [m|].
    + split; [done|]. intros (_ & Hsi & Hi & Hu). assert (start + k = i)%nat as <- by (apply Hu; [lia|done]).
      assert (Some m = None) by (apply H2; intros j Hj Ho; pose proof (Hu j ltac:(lia) Ho); lia). done.
    + split.
      * intros [= <-]. split_and!; [done|lia|done|]. intros j Hj Ho.
        assert (k <= j - start)%nat.
        { apply Hmin. apply needle_drop. by replace (start + (j - start))%nat with j by lia. }
        destruct (decide (j = start + k)%nat); [done|]. exfalso. eapply H2; [done| |exact Ho]. lia.
      * intros (_ & Hsi & Hi & Hu). f_equal. apply Hu; [lia|done].
  - split; [done|]. intros (_ & Hsi & Hi & _). exfalso. apply (Hm (i - start)%nat). apply needle_drop.
    by replace (start + (i - start))%nat with i by lia.
Qed.

Lemma find_unique_spec data needle label i :
  agent_find_unique data needle label = inl i <-> needle <> [] /\ only_at data needle i.
Proof.
  pose proof (find_unique_after_spec data 0 needle label i ltac:(lia)) as H.
  assert (E : agent_find_unique data needle label = inl i <-> agent_find_unique_after data 0 needle label = inl i).
  { unfold agent_find_unique, agent_find_unique_after. destruct needle as [|x n]; [done|].
    change (length data <? 0)%nat with false. rewrite drop_0. cbn [Nat.add].
    destruct (agent_memmem_simple data (x :: n)); [|by split].
    destruct (if (_ <=? _)%nat then _ else _); by split. }
  rewrite E, H. unfold only_after, only_at. split.
  - intros (? & _ & ? & Hu). split_and!; [done..|]. intros j. apply Hu. lia.
  - intros (? & ? & Hu). split_and!; [done|lia|done|]. intros j _. apply Hu.
Qed.

(** ** Which piece an edit names *)

(** What the text [old] of an edit stands for in a file: either the one place
    where it occurs or, with exactly one [upto] marker in it, the stretch from
    the one place of its head to the end of the one place of its tail behind the
    head, the tail without its leading newlines. *)
Inductive edit_target (data : bytes) : bytes -> old_span -> Prop :=
| target_exact old i :
    (forall j, ~ occurs old upto_marker j) -> old <> [] -> only_at data old i ->
    edit_target data old (mkOldSpan i (length old) false)
| target_anchored head newlines tail h t :
    only_at (head ++ upto_marker ++ newlines ++ tail) upto_marker (length head) ->
    Forall (fun c => is_crlf c = true) newlines ->
    (match tail with c :: _ => is_crlf c = false | [] => True end) ->
    agent_span_has_nonspace tail = true ->
    head <> [] -> only_at data head h ->
    only_after data tail (h + length head) t ->
    edit_target data (head ++ upto_marker ++ newlines ++ tail)
      (mkOldSpan h (t + length tail - h) true).

Lemma find_sub_occurs needle text :
  match find_sub needle text with
  | Some r => exists pre, text = pre ++ r /\ occurs text needle (length pre) /\
                          forall j, (j < length pre)%nat -> ~ occurs text needle j
  | None => forall j, (j <= length text)%nat -> ~ occurs text needle j
  end.
Proof.
  induction text as [|x t IH]; cbn [find_sub].
  - destruct (starts_with needle []) eqn:E.
    + apply starts_with_prefix in E. exists []. split_and!; [done|done|]. intros j Hj. cbn in Hj. lia.
    + intros j _ H. assert (starts_with needle [] = true); [|congruence].
      apply starts_with_prefix. unfold occurs in H. by rewrite drop_nil in H.
  - destruct (starts_with needle (x :: t)) eqn:E.
    + apply starts_with_prefix in E. exists []. split_and!; [done|done|]. intros j Hj. cbn in Hj. lia.
    + assert (H0 : ~ occurs (x :: t) needle 0) by (unfold occurs; rewrite drop_0, <- starts_with_prefix, E; done).
      destruct (find_sub needle t) as [r|].
      * destruct IH as (pre & -> & Ho & Hj). exists (x :: pre). split_and!; [done|done|].
        intros [|j] Hlt; [done|]. apply Hj. cbn in Hlt. lia.
      * intros [|j] Hle; [done|]. apply IH. cbn in Hle. lia.
Qed.

Lemma upto_occurs_lookup data i :
  occurs data upto_marker i -> data !! i = Some 91 /\
  forall k, (0 < k < 6)%nat -> exists c, data !! (i + k)%nat = Some c /\ c <> 91.
Proof.
  intros [r Hr].
  assert (Hl : forall k, data !! (i + k)%nat = (upto_marker ++ r) !! k) by (intros; by rewrite <- lookup_drop, Hr).
  split; [by rewrite <- (Nat.add_0_r i), Hl|].
  intros k Hk. rewrite Hl. do 6 (destruct k as [|k]; [first [lia | by eexists]|]). lia.
Qed.

(** The marker does not overlap itself. *)
Lemma upto_no_overlap data i j :
  occurs data upto_marker i -> occurs data upto_marker j -> (i < j)%nat -> (i + 6 <= j)%nat.
Proof.
  intros Hi Hj Hlt. destruct (le_lt_dec (i + 6) j); [done|]. exfalso.
  destruct (upto_occurs_lookup _ _ Hi) as [_ Hk]. destruct (upto_occurs_lookup _ _ Hj) as [Hc _].
  destruct (Hk (j - i)%nat) as (c & Hc' & Hne); [lia|].
  replace (i + (j - i))%nat with j in Hc' by lia. congruence.
Qed.

Lemma drop_crlf_split (l : bytes) :
  exists newlines, l = newlines ++ drop (span_len is_crlf l) l /\
    Forall (fun c => is_crlf c = true) newlines /\
    match drop (span_len is_crlf l) l with c :: _ => is_crlf c = false | [] => True end.
Proof.
  exists (take (span_len is_crlf l) l). split_and!; [by rewrite take_drop|apply span_len_forall|].
  destruct (drop (span_len is_crlf l) l) as [|c r] eqn:E; [done|].
  apply (span_len_stop is_crlf l c). rewrite <- (Nat.add_0_r (span_len _ _)), <- lookup_drop, E. done.
Qed.

Lemma span_len_crlf (nls tail : bytes) :
  Forall (fun c => is_crlf c = true) nls ->
  (match tail with c :: _ => is_crlf c = false | [] => True end) ->
  span_len is_crlf (nls ++ tail) = length nls.
Proof.
  intros Hn Ht. induction Hn as [|c l Hc _ IH]; cbn; [|by rewrite Hc, IH].
  destruct tail as [|c l]; [done|]. cbn. by rewrite Ht.
Qed.

(** Exactly one marker, and it is the one [strstr] finds. *)
Lemma upto_once old head rest :
  find_sub upto_marker old = Some (upto_marker ++ rest) -> old = head ++ upto_marker ++ rest ->
  find_sub upto_marker rest = None <-> only_at old upto_marker (length head).
Proof.
  intros Hf He. pose proof (find_sub_occurs upto_marker old) as H1. rewrite Hf in H1.
  destruct H1 as (pre & Hp & Ho & Hb).
  assert (pre = head) as -> by (rewrite He in Hp; by apply app_inv_tail in Hp).
  pose proof (find_sub_occurs upto_marker rest) as H2.
  assert (Hrest : forall j, occurs rest upto_marker j <-> occurs old upto_marker (length head + 6 + j)).
  { intros j. unfold occurs. rewrite He, app_assoc, drop_app_ge by (rewrite length_app; cbn; lia).
    rewrite length_app. change (length upto_marker) with 6%nat.
    by replace (length head + 6 + j - (length head + 6))%nat with j by lia. }
  split.
  - intros Hn. rewrite Hn in H2. split; [done|]. intros j Hj.
    destruct (Nat.lt_trichotomy j (length head)) as [Hlt|[|Hgt]]; [by apply Hb in Hj|done|].
    pose proof (upto_no_overlap _ _ _ Ho Hj Hgt) as H6. exfalso.
    apply (H2 (j - (length head + 6))%nat).
    + apply occurs_bound in Hj; [|done]. rewrite He, !length_app in Hj. change (length upto_marker) with 6%nat in Hj. lia.
    + apply Hrest. by replace (length head + 6 + (j - (length head + 6)))%nat with j by lia.
  - intros [_ Hu]. destruct (find_sub upto_marker rest) as [r|]; [|done].
    destruct H2 as (pre & _ & Hr & _). apply Hrest, Hu in Hr. lia.
Qed.

Lemma target_exact_iff data old sp :
  (forall j, ~ occurs old upto_marker j) ->
  edit_target data old sp <-> exists i, old <> [] /\ only_at data old i /\ sp = mkOldSpan i (length old) false.
Proof.
  intros Hno. split.
  - intros Ht. inversion Ht as [old' i _ Hn Hi|head nls tail h t Hone]; subst; [by exists i|].
    exfalso. eapply Hno. apply Hone.
  - intros (i & ? & ? & ->). by apply target_exact.
Qed.

Lemma target_anchored_iff data head rest sp :
  only_at (head ++ upto_marker ++ rest) upto_marker (length head) ->
  let tail := drop (span_len is_crlf rest) rest in
  edit_target data (head ++ upto_marker ++ rest) sp <->
  agent_span_has_nonspace tail = true /\ head <> [] /\
  exists h t, only_at data head h /\ only_after data tail (h + length head) t /\
              sp = mkOldSpan h (t + length tail - h) true.
Proof.
  intros Hone tail. split.
  - remember (head ++ upto_marker ++ rest) as old eqn:E1. intros Ht.
    destruct Ht as [old i Hno|head' nls tail' h t [Ho' _] Hnls Hst Hsp Hhn Hh Ht'].
    { exfalso. eapply Hno. apply Hone. }
    apply Hone in Ho'. apply app_inj_1 in E1 as [-> E1]; [|done].
    apply app_inv_head in E1. assert (tail = tail') as ->.
    { unfold tail. by rewrite <- E1, span_len_crlf, drop_app_length. }
    split_and!; [done..|]. by exists h, t.
  - intros (Hsp & Hn & h & t & Hh & Ht & ->). destruct (drop_crlf_split rest) as (nls & Er & Hnls & Hstart).
    fold tail in Er, Hstart. clearbody tail. subst rest. by apply target_anchored.
Qed.

Lemma anchored_span_spec data head tail sp :
  match agent_find_unique data head "old head" with
  | inr e => inr e
  | inl head_pos =>
      match agent_find_unique_after data (head_pos + length head) tail "old tail" with
      | inr e => inr e
      | inl tail_pos => inl (mkOldSpan head_pos (tail_pos - head_pos + length tail) true)
      end
  end = (inl sp : old_span + bytes) <->
  head <> [] /\ tail <> [] /\
  exists h t, only_at data head h /\ only_after data tail (h + length head) t /\
              sp = mkOldSpan h (t + length tail - h) true.
Proof.
  assert (Harith : forall h t : nat, (h <= t)%nat -> (t - h + length tail = t + length tail - h)%nat) by (intros; lia).
  split.
  - destruct (agent_find_unique data head _) as [h|] eqn:Hh; [|done].
    destruct (agent_find_unique_after _ _ _ _) as [t|] eqn:Ht; [|done]. intros [= <-].
    apply find_unique_spec in Hh as [Hhn Hh]. pose proof (occurs_bound _ _ _ Hhn (proj1 Hh)) as Hb.
    apply find_unique_after_spec in Ht as [Htn Ht]; [|done]. split_and!; [done..|]. exists h, t.
    rewrite Harith by (destruct Ht; lia). done.
  - intros (Hhn & Htn & h & t & Hh & Ht & ->). pose proof (occurs_bound _ _ _ Hhn (proj1 Hh)) as Hb.
    rewrite (proj2 (find_unique_spec data head "old head" h)) by done.
    rewrite (proj2 (find_unique_after_spec data _ tail "old tail" t Hb)) by done.
    rewrite Harith by (destruct Ht; lia). done.
Qed.

(** The search finds exactly the piece the edit names. *)
Lemma find_old_span_spec data old sp :
  agent_edit_find_old_span data old = inl sp <-> edit_target data old sp.
Proof.
  unfold agent_edit_find_old_span. pose proof (find_sub_occurs upto_marker old) as Hs.
  destruct (find_sub upto_marker old) as [up|] eqn:Hf.
  - pose proof (find_sub_sound _ _ _ Hf) as [[rest ->] [head Eo]].
    rewrite drop_app_length. replace (take (length old - length (upto_marker ++ rest)) old) with head.
    2:{ rewrite Eo, length_app. replace (_ - _)%nat with (length head) by lia. by rewrite take_app_length. }
    pose proof (upto_once old head rest Hf Eo) as Honce. subst old.
    destruct (find_sub upto_marker rest) as [r|] eqn:H2.
    + split; [done|]. intros Ht. exfalso. assert (Some r = None); [|done]. apply Honce.
      assert (Hocc : occurs (head ++ upto_marker ++ rest) upto_marker (length head)).
      { unfold occurs. rewrite drop_app_length. by exists rest. }
      remember (head ++ upto_marker ++ rest) as old.
      destruct Ht as [old i Hno|head' nls tail h t Hone]; [by apply Hno in Hocc|].
      by rewrite (proj2 Hone _ Hocc).
    + rewrite (target_anchored_iff data head rest sp) by (by apply Honce).
      destruct (agent_span_has_nonspace _) eqn:Hsp; cbn [negb]; [|split; [done|by intros []]].
      rewrite anchored_span_spec. split; intros H; [tauto|]. destruct H as (_ & ? & ?). split_and!; [done| |done].
      by intros E; rewrite E in Hsp.
  - assert (Hno : forall j, ~ occurs old upto_marker j).
    { intros j Hj. pose proof (occurs_bound old upto_marker j ltac:(done) Hj). apply (Hs j); [lia|exact Hj]. }
    rewrite target_exact_iff by done. split.
    + destruct (agent_find_unique data old _) as [i|] eqn:Hi; [|done]. intros [= <-].
      apply find_unique_spec in Hi as [Hn Hi]. by exists i.
    + intros (i & Hn & Hi & ->). by rewrite (proj2 (find_unique_spec data old "old text" i)).
Qed.

(** ** Runs of the tools *)

(** A run that leaves no trace in the files. *)
Definition still (w w' : world) : Prop := w_files w' = w_files w /\ w_hist w' = w_hist w.

Lemma still_trans w1 w2 w3 : still w1 w2 -> still w2 w3 -> still w1 w3.
Proof. intros [] []. split; congruence. Qed.

Lemma still_since (I : files -> Prop) w w' : still w w' -> I (w_files w) -> since (w_hist w) I w'.
Proof. intros [Hf <-] HI. apply since_start. by rewrite Hf. Qed.

Lemma since_still (base : list files) (I : files -> Prop) w w' : still w w' -> since base I w -> since base I w'.
Proof. intros [Hf Hh]. unfold since. by rewrite Hf, Hh. Qed.

Lemma still_fault w f w' : next_fault w = (f, w') -> still w w'.
Proof. intros E. split; [by eapply fault_files|by eapply fault_hist]. Qed.

Lemma still_fopen_rb p w r w' : c_fopen_rb p w = (r, w') -> still w w'.
Proof.
  unfold c_fopen_rb. intros H. run_inv H as f w1 E. apply still_fault in E.
  run_inv H as fs w2 E2. injection E2 as <- <-. by injection H as <- <-.
Qed.

Lemma still_fstat st w r w' : c_fstat st w = (r, w') -> still w w'.
Proof.
  unfold c_fstat, c_stat. intros H. run_inv H as f w1 E. apply still_fault in E.
  run_inv H as fs w2 E2. injection E2 as <- <-. by injection H as <- <-.
Qed.

Lemma still_fclose st w r w' : st_buf st = [] -> c_fclose st w = (r, w') -> still w w'.
Proof.
  unfold c_fclose, st_flush. intros Hb H. run_inv H as [ok st'] w1 E. injection H as <- <-.
  run_inv E as f w2 E2. apply still_fault in E2. rewrite Hb, transferred_nil in E.
  run_inv E as u w3 E3. injection E3 as <- <-. by injection E as <- <- <-.
Qed.

Lemma take_more {A} (p n : nat) (c : list A) : take p c ++ take n (drop p c) = take (p + n) c.
Proof.
  rewrite <- (take_drop p (take (p + n) c)), take_take, Nat.min_l by lia. f_equal.
  rewrite skipn_firstn_comm. f_equal. lia.
Qed.

(** A block of the file, short without the error flag only at its end. *)
Lemma fread_ferror_inv st n w got err st' w' c :
  c_fread_ferror st n w = ((got, err, st'), w') -> w_files w !! st_path st = Some c ->
  still w w' /\ st_path st' = st_path st /\ st_buf st' = st_buf st /\ st_pos st' = (st_pos st + length got)%nat /\
  got `prefix_of` drop (st_pos st) c /\
  ((length got < n)%nat -> err = false -> got = drop (st_pos st) c).
Proof.
  unfold c_fread_ferror. intros H Hc. run_inv H as f w1 E. apply still_fault in E.
  run_inv H as fs w2 E2. injection E2 as <- <-. rewrite (proj1 E), Hc in H. injection H as <- <- <- <-.
  cbn [default st_path st_buf st_pos]. split_and!; [done..| |].
  - destruct f as [k|]; cbn [transferred]; rewrite ?take_take; apply prefix_take.
  - destruct f as [k|]; cbn [transferred]; rewrite ?length_take, ?length_drop; intros Hlt Herr.
    + apply Nat.ltb_ge in Herr. rewrite take_take. apply take_ge. rewrite length_drop. lia.
    + apply take_ge. rewrite length_drop. lia.
Qed.

Section ToolRuns.
Context (strerror : world -> bytes).

Lemma read_loop_inv fuel path errlen fp buf w r w' c :
  w_files w !! st_path fp = Some c -> st_buf fp = [] -> (st_pos fp <= length c)%nat -> buf = take (st_pos fp) c ->
  agent_read_loop strerror fuel path errlen fp buf w = (r, w') ->
  still w w' /\ forall d, r = inl d -> d = c.
Proof.
  revert fp buf w. induction fuel as [|fuel IH]; intros fp buf w Hc Hb Hp -> H; [by injection H as <- <-|].
  cbn [agent_read_loop] in H. run_inv H as [[tmp err] fp1] w1 E1.
  apply (fread_ferror_inv _ _ _ _ _ _ _ _ E1) in Hc as Hr. destruct Hr as (Hs & Hpath & Hb1 & Hpos & [rest Hpre] & Hshort).
  assert (Htake : take (st_pos fp) c ++ tmp = take (st_pos fp1) c).
  { rewrite Hpos, <- take_more. by rewrite Hpre, take_app_length. }
  rewrite Hb in Hb1. destruct (_ && _).
  { run_inv H as b w2 E2. apply still_fclose in E2; [|done]. injection H as <- <-. split; [by eapply still_trans|done]. }
  destruct (Nat.ltb_spec (length tmp) READ_BLOCK).
  - destruct err.
    + run_inv H as e w2 E2. injection E2 as <- <-. run_inv H as b w3 E3. apply still_fclose in E3; [|done].
      injection H as <- <-. split; [by eapply still_trans|done].
    + run_inv H as b w3 E3. apply still_fclose in E3; [|done]. injection H as <- <-.
      split; [by eapply still_trans|]. intros d [= <-]. rewrite Hshort by done. apply take_drop.
  - apply IH in H; [destruct H; split; [by eapply still_trans|done]| |done| |done].
    + rewrite (proj1 Hs), Hpath. done.
    + apply (f_equal length) in Hpre. rewrite length_drop, length_app in Hpre. lia.
Qed.

Lemma read_file_inv path errlen w r w' :
  agent_read_file_bytes strerror path errlen w = (r, w') ->
  still w w' /\ forall d, r = inl d -> w_files w !! path = Some d.
Proof.
  unfold agent_read_file_bytes. intros H. run_inv H as fp w1 E1. pose proof (still_fopen_rb _ _ _ _ E1) as Hs.
  apply fopen_rb_inv in E1 as [_ Hst]. destruct fp as [fp|].
  - destruct (Hst fp eq_refl) as [-> [c Hc]]. run_inv H as sz w2 E2. apply still_fstat in E2.
    destruct (match sz with Some _ => _ | None => _ end).
    + run_inv H as b w3 E3. apply still_fclose in E3; [|done]. injection H as <- <-.
      split; [repeat (eapply still_trans; [eassumption|])|]; done.
    + apply (read_loop_inv _ _ _ _ _ _ _ _ c) in H as [Hs3 Hd].
      * split; [repeat (eapply still_trans; [eassumption|]); done|]. intros d Hr. by rewrite (Hd d Hr).
      * cbn. by rewrite (proj1 E2), (proj1 Hs).
      * done.
      * cbn. lia.
      * done.
  - run_inv H as e w2 E2. injection E2 as <- <-. injection H as <- <-. done.
Qed.

Lemma read_loop_run fuel path errlen fp w c :
  quiet w -> w_files w !! st_path fp = Some c -> st_buf fp = [] -> (st_pos fp <= length c)%nat ->
  zlen c <= AGENT_FILE_MAX_BYTES -> (length c - st_pos fp < fuel * READ_BLOCK)%nat ->
  agent_read_loop strerror fuel path errlen fp (take (st_pos fp) c) w = (inl c, w).
Proof.
  intros Hq Hc. revert fp Hc. induction fuel as [|fuel IH]; intros fp Hc Hb Hp Hsz Hf; [lia|].
  cbn [agent_read_loop]. set (got := take READ_BLOCK (drop (st_pos fp) c)).
  assert (Hrd : c_fread_ferror fp READ_BLOCK w =
    ((got, false, mkStream (st_path fp) (st_pos fp + length got) (st_buf fp)), w)).
  { unfold c_fread_ferror, io_bind, get_files. by rewrite run_fault, Hc. }
  rewrite (run_bind _ _ _ _ _ Hrd). cbn [fst snd].
  assert (Htake : take (st_pos fp) c ++ got = take (st_pos fp + length got) c).
  { rewrite <- take_more. unfold got. by rewrite take_length_take. }
  assert (Hle : (length got <= length c - st_pos fp)%nat) by (unfold got; rewrite length_take, length_drop; lia).
  rewrite andb_false_intro2.
  2:{ apply Z.ltb_ge. rewrite <- zlen_app, Htake. unfold zlen in *. rewrite length_take. lia. }
  rewrite Htake. destruct (Nat.ltb_spec (length got) READ_BLOCK) as [Hlt|Hge].
  - rewrite (run_bind _ _ w true w) by (apply run_fclose_clean; done). unfold ret. do 2 f_equal.
    apply take_ge. unfold got in *. rewrite length_take, length_drop in *. lia.
  - apply (IH (mkStream (st_path fp) (st_pos fp + length got) (st_buf fp))); cbn; try done; lia.
Qed.

Lemma read_file_run path errlen w c :
  quiet w -> w_files w !! path = Some c -> zlen c <= AGENT_FILE_MAX_BYTES ->
  agent_read_file_bytes strerror path errlen w = (inl c, w).
Proof.
  intros Hq Hc Hsz. unfold agent_read_file_bytes. unfold io_bind at 1. rewrite run_fopen_rb, Hc by done.
  unfold io_bind at 1. unfold c_fstat. cbn [st_path]. rewrite run_stat, Hc by done. cbn [fmap option_fmap option_map].
  destruct (Z.ltb_spec AGENT_FILE_MAX_BYTES (zlen c)); [lia|].
  apply (read_loop_run read_fuel path errlen (mkStream path 0 []) w c); try done; cbn [st_pos]; [lia|].
  unfold zlen, AGENT_FILE_MAX_BYTES, read_fuel, READ_BLOCK in *. lia.
Qed.

(** ** Writing *)

(** The file [path] holds a prefix of [data]; the others are as before. *)
Definition rewriting (old : files) (path data : bytes) (fs : files) : Prop :=
  fs = old \/ exists k, fs = <[path := take k data]> old.

Lemma write_at_start data k : file_write_at [] 0 (take k data) = take k data.
Proof. unfold file_write_at. cbn. by rewrite drop_nil, app_nil_r. Qed.

(** Moving buffered bytes into a file opened for writing. *)
Lemma commit_rewriting old path data k w u w' :
  w_files w = <[path := []]> old -> since (w_hist w) (rewriting old path data) w ->
  st_commit (mkStream path 0 data) (take k data) w = (u, w') ->
  since (w_hist w) (rewriting old path data) w' /\ w_files w' = <[path := take k data]> old.
Proof.
  intros Hf Hw H. assert (Hw' : w_files w' = <[path := take k data]> old).
  { rewrite (commit_files _ _ _ _ _ [] H) by (cbn; rewrite Hf; apply lookup_insert_eq). cbn [st_path st_pos].
    destruct (take k data) as [|x d] eqn:Ek; [done|]. rewrite <- Ek, write_at_start, Hf. apply insert_insert_eq. }
  split; [|done]. unfold st_commit in H. destruct (take k data) eqn:Ek; injection H as <- <-; [done|].
  exists [w_files w]. cbn. split; [done|]. constructor; [|constructor; [|done]].
  - cbn in Hw'. rewrite Hw'. right. exists k. by rewrite Ek.
  - rewrite Hf. right. exists 0%nat. done.
Qed.

Lemma transferred_take f (data : bytes) : exists k, transferred f data = take k data.
Proof. destruct f as [k|]; [by exists k|]. exists (length data). by rewrite firstn_all. Qed.

Lemma fopen_wb_rewriting path data w r w' :
  c_fopen_wb path w = (r, w') ->
  since (w_hist w) (rewriting (w_files w) path data) w' /\
  match r with
  | None => still w w'
  | Some st => st = mkStream path 0 [] /\ w_files w' = <[path := []]> (w_files w)
  end.
Proof.
  unfold c_fopen_wb. intros H. run_inv H as f w1 E. apply still_fault in E. destruct f as [k|].
  - injection H as <- <-. split; [|done]. apply still_since; [done|by left].
  - run_inv H as u w2 E2. injection E2 as <- <-. injection H as <- <-. cbn [w_files].
    destruct E as [Ef Eh]. rewrite Ef. split; [|done]. exists [w_files w]. cbn. rewrite Eh. split; [done|].
    constructor; [right; by exists 0%nat|]. constructor; [by left|done].
Qed.

(** The write and the close of a freshly truncated file. *)
Lemma fwrite_fclose_rewriting old path data w ok st1 w1 closed w2 :
  w_files w = <[path := []]> old -> since (w_hist w) (rewriting old path data) w ->
  c_fwrite (mkStream path 0 []) data w = ((ok, st1), w1) -> c_fclose st1 w1 = (closed, w2) ->
  since (w_hist w) (rewriting old path data) w2 /\
  (ok && closed = true -> w_files w2 = <[path := data]> old).
Proof.
  intros Hf Hw H1 H2. unfold c_fwrite in H1. run_inv H1 as f1 w3 E3. apply still_fault in E3.
  assert (Hf3 : w_files w3 = <[path := []]> old) by (by rewrite (proj1 E3)).
  assert (Hw3 : since (w_hist w3) (rewriting old path data) w3).
  { apply since_start. rewrite Hf3. right. by exists 0%nat. }
  rewrite <- (proj2 E3). destruct f1 as [k|]; cbn [st_path st_pos st_buf app] in H1.
  - run_inv H1 as u w4 E4. injection H1 as <- <- <-. apply still_fclose in H2; [|done].
    apply (commit_rewriting old path data k) in E4 as [Hw4 _]; [|done..]. split; [by eapply since_still|done].
  - injection H1 as <- <- <-. unfold c_fclose, st_flush in H2. run_inv H2 as [b st'] w4 E4.
    injection H2 as <- <-. run_inv E4 as f2 w5 E5. apply still_fault in E5.
    assert (Hf5 : w_files w5 = <[path := []]> old) by (by rewrite (proj1 E5)).
    assert (Hw5 : since (w_hist w5) (rewriting old path data) w5).
    { apply since_start. rewrite Hf5. right. by exists 0%nat. }
    rewrite <- (proj2 E5). cbn [st_buf] in E4. destruct (transferred_take f2 data) as [k Ek]. rewrite Ek in E4.
    run_inv E4 as u w6 E6. injection E4 as <- <- <-.
    apply (commit_rewriting old path data k) in E6 as [Hw6 Hf6]; [|done..]. split; [done|].
    intros Hok. apply andb_true_iff in Hok as [_ Hok]. apply bool_decide_eq_true in Hok as ->.
    cbn [transferred] in Ek. by rewrite Hf6, <- Ek.
Qed.

Lemma write_file_inv path data errlen w r w' :
  agent_write_file_bytes strerror path data errlen w = (r, w') ->
  since (w_hist w) (rewriting (w_files w) path data) w' /\
  (r = None -> w_files w' = <[path := data]> (w_files w)).
Proof.
  unfold agent_write_file_bytes. intros H. run_inv H as fp w1 E1.
  apply (fopen_wb_rewriting _ data) in E1 as [Hw1 Hfp]. destruct fp as [fp|].
  2:{ run_inv H as e w2 E2. injection E2 as <- <-. by injection H as <- <-. }
  destruct Hfp as [-> Hf1]. run_inv H as [ok fp] w2 E2.
  assert (Hs1 : since (w_hist w1) (rewriting (w_files w) path data) w1).
  { apply since_start. rewrite Hf1. right. by exists 0%nat. }
  destruct ok; cbn [negb] in H.
  - run_inv H as closed w3 E3.
    destruct (fwrite_fclose_rewriting _ _ _ _ _ _ _ _ _ Hf1 Hs1 E2 E3) as [Hw3 Hf3].
    pose proof (since_trans _ _ _ _ Hw1 Hw3). destruct closed; cbn [negb] in H.
    + injection H as <- <-. split; [done|]. intros _. by apply Hf3.
    + run_inv H as e w4 E4. injection E4 as <- <-. by injection H as <- <-.
  - run_inv H as e w3 E3. injection E3 as <- <-. run_inv H as closed w3 E3. injection H as <- <-.
    destruct (fwrite_fclose_rewriting _ _ _ _ _ _ _ _ _ Hf1 Hs1 E2 E3) as [Hw3 _].
    split; [by eapply since_trans|done].
Qed.

Lemma write_file_run path data errlen w :
  quiet w -> exists w', agent_write_file_bytes strerror path data errlen w = (None, w').
Proof.
  intros Hq. unfold agent_write_file_bytes.
  destruct (run_fopen_wb w path Hq) as (w1 & E1 & Hq1 & Hf1 & _). unfold io_bind at 1. rewrite E1.
  unfold io_bind at 1. rewrite run_fwrite by done. cbn [negb st_path st_pos st_buf app].
  destruct (run_fflush w1 (mkStream path 0 data) []) as (w2 & E2 & _).
  { done. } { cbn. rewrite Hf1. apply lookup_insert_eq. }
  unfold c_fclose, io_bind. change (st_flush (mkStream path 0 data) w1) with (c_fflush (mkStream path 0 data) w1).
  rewrite E2. by exists w2.
Qed.

(** ** The edit tool *)

Definition splice (data : bytes) (sp : old_span) (new_text : bytes) : bytes :=
  take (os_offset sp) data ++ new_text ++ drop (os_offset sp + os_len sp) data.

Lemma target_bound data old sp :
  edit_target data old sp -> (os_offset sp + os_len sp <= length data)%nat.
Proof.
  intros [old' i _ Hn [Hi _]|head nls tail h t _ _ _ Hsp Hn [Hh _] [Hle [Ht _]]]; cbn.
  - by apply occurs_bound.
  - apply occurs_bound in Ht; [lia|]. by intros ->.
Qed.

Definition is_tool_error (res : bytes) : bool := starts_with (bs "Tool error: ") res.
Definition is_edited (res : bytes) : bool := starts_with (bs "Edited ") res.

Lemma edit_result_edited path s e d data kind : is_edited (agent_edit_result path s e d data kind) = true.
Proof.
  unfold is_edited, agent_edit_result, c_snprintf. apply starts_with_prefix. rewrite take_app_ge.
  - rewrite <- app_assoc. by eexists.
  - unfold PATH_MAX_. cbn [length bs]. lia.
Qed.

Lemma tool_error_error e : is_tool_error (tool_error e) = true.
Proof. unfold is_tool_error, tool_error. apply starts_with_app. Qed.

Lemma tool_error_not_edited res : is_tool_error res = true -> is_edited res = false.
Proof.
  unfold is_tool_error, is_edited. destruct res as [|c res]; [done|]. cbn [starts_with bs].
  intros H. apply andb_true_iff in H as [H _]. apply Z.eqb_eq in H as <-. done.
Qed.

Lemma file_splice_inv path data sp new_text kind w res w' :
  (os_offset sp + os_len sp <= length data)%nat ->
  agent_apply_file_splice strerror path data (os_offset sp) (os_len sp) (Some new_text) kind w = (res, w') ->
  since (w_hist w) (rewriting (w_files w) path (splice data sp new_text)) w' /\
  (is_edited res = true -> w_files w' = <[path := splice data sp new_text]> (w_files w)) /\
  (is_edited res = false -> is_tool_error res = true) /\ (quiet w -> is_edited res = true).
Proof.
  unfold agent_apply_file_splice. intros Hb H. change (default [] (Some new_text)) with new_text in H.
  destruct (Nat.ltb_spec (length data - os_offset sp) (os_len sp)) as [|_]; [lia|].
  run_inv H as rc w1 E1. pose proof (write_file_inv _ _ _ _ _ _ E1) as [Hs Hf]. destruct rc as [e|].
  - injection H as <- <-. split_and!; [done| |intros _; apply tool_error_error|].
    + by rewrite tool_error_not_edited by apply tool_error_error.
    + intros Hq. destruct (write_file_run path (splice data sp new_text) 256 w Hq) as [w2 E2].
      unfold splice in E2. by rewrite E1 in E2.
  - destruct (default _ _) as [[s e] d]. injection H as <- <-. rewrite edit_result_edited.
    split_and!; [done|intros _; by apply Hf|done..].
Qed.

(** What the edit tool promises for a file that holds [data]: no state on the way
    differs from the old files except in that the edited file may hold a prefix
    of the result; success is reported only when the piece [old] names is
    replaced by [new]; any other answer is a tool error.  When no call fails and
    the file is within the limit, the tool succeeds exactly when [old] names a
    piece, and otherwise nothing is written. *)
Definition edit_spec (path data old new_text : bytes) (w : world) (res : bytes) (w' : world) : Prop :=
  since (w_hist w) (fun fs => fs = w_files w \/
    exists sp, edit_target data old sp /\ rewriting (w_files w) path (splice data sp new_text) fs) w' /\
  (is_edited res = true -> exists sp, edit_target data old sp /\
     w_files w' = <[path := splice data sp new_text]> (w_files w)) /\
  (is_edited res = false -> is_tool_error res = true) /\
  (quiet w -> zlen data <= AGENT_FILE_MAX_BYTES ->
     (is_edited res = true <-> exists sp, edit_target data old sp) /\
     (is_edited res = false -> still w w')).

Lemma edit_refused path data old new_text w res w' :
  is_tool_error res = true -> still w w' ->
  (quiet w -> zlen data <= AGENT_FILE_MAX_BYTES -> forall sp, ~ edit_target data old sp) ->
  edit_spec path data old new_text w res w'.
Proof.
  intros He Hs Hno. unfold edit_spec. rewrite (tool_error_not_edited res He). split_and!; [|done..|].
  - apply still_since; [done|by left].
  - intros Hq Hsz. split; [|done]. split; [done|]. intros [sp Hsp]. by apply (Hno Hq Hsz) in Hsp.
Qed.

Lemma target_nonempty data old sp : edit_target data old sp -> old <> [].
Proof. intros [old' i _ Hn _|head nls tail h t _ _ _ _ Hn _ _]; [done|]. by destruct head. Qed.

(** C7. The edit tool on an existing file keeps its promise [edit_spec], whichever
    calls fail.  It reports success only when the file is the old one with exactly
    the piece replaced that [old] names (the one place of the plain text, or head
    to tail around an [upto] marker); any other answer is a tool error.  When no
    call fails and the file is within the limit, it succeeds exactly when [old]
    names a piece, and otherwise nothing is written.  A failed write is an error
    too, but the file is written in place and may then be cut short: at every
    moment it is the old one or, once a piece is named, a beginning of the result.
    No other file ever changes. *)
Theorem edit_exact call w path old new_text data :
  agent_tool_arg_value call "path" = Some path -> agent_tool_arg_value call "old" = Some old ->
  agent_tool_arg_value call "new" = Some new_text -> path <> [] ->
  w_files w !! path = Some data ->
  let '(res, w') := agent_tool_edit strerror call w in
  edit_spec path data old new_text w res w'.
Proof.
  intros Hpath Hold Hnew Hpn Hc. destruct (agent_tool_edit strerror call w) as [res w'] eqn:H.
  unfold agent_tool_edit in H. rewrite Hpath, Hold, Hnew in H. destruct path as [|x p]; [done|]. set (path := x :: p) in *.
  destruct old as [|y o].
  { injection H as <- <-. apply edit_refused; [done..|]. intros _ _ sp Hsp. by apply target_nonempty in Hsp. }
  set (old := y :: o) in *. run_inv H as r w1 E1. pose proof (read_file_inv _ _ _ _ _ E1) as [Hs1 Hd].
  destruct r as [d|e].
  - specialize (Hd d eq_refl). assert (d = data) as -> by congruence.
    pose proof (find_old_span_spec data old) as Hspec. destruct (agent_edit_find_old_span data old) as [sp|e].
    + assert (Hsp : edit_target data old sp) by (by apply Hspec).
      apply file_splice_inv in H as (Hw & Hed & Herr & Hq); [|by eapply target_bound].
      destruct Hs1 as [Hf1 Hh1]. rewrite Hf1, Hh1 in *. unfold edit_spec. split_and!; [|eauto|done|].
      * eapply since_weaken; [|exact Hw]. intros fs Hfs. right. eauto.
      * intros Hqw Hsz. rewrite (read_file_run path 256 w data) in E1 by done. injection E1 as <-.
        rewrite Hq by done. split; [|done]. split; [eauto|done].
    + injection H as <- <-. apply edit_refused; [apply tool_error_error|done|].
      intros _ _ sp Hsp. by apply Hspec in Hsp.
  - injection H as <- <-. apply edit_refused; [apply tool_error_error|done|]. intros Hq Hsz.
    by rewrite (read_file_run path 256 w data) in E1.
Qed.

(** ** Reading on *)

(** [more] calls for as long as there is something to continue. *)
Fixpoint read_rest (m : agent_more) (calls : list agent_tool_call) : IO (option (list bytes * agent_more)) :=
  match calls with
  | [] => ret (Some ([], m))
  | c :: calls =>
      if more_valid m then
        let! r := agent_tool_more strerror m c in
        match r with
        | None => ret None
        | Some (out, m) =>
            let! r := read_rest m calls in
            ret (match r with Some (outs, m) => Some (out :: outs, m) | None => None end)
        end
      else ret (Some ([], m))
  end.

(** The number of lines a [more] call asks for. *)
Definition more_count (c : agent_tool_call) : Z :=
  agent_parse_int_default (agent_tool_arg_value c "count") AGENT_READ_DEFAULT_LINES 1 INT_MAX.

Lemma parse_int_range s def min max : min <= def <= max -> min <= agent_parse_int_default s def min max <= max.
Proof.
  intros Hd. unfold agent_parse_int_default. destruct s as [[|c s]|]; [done| |done].
  destruct (strtol_end (c :: s)) as [[v e]|]; [|done]. destruct (drop _ e); [|done]. cbv zeta.
  destruct (Z.ltb_spec v min); [destruct (Z.ltb_spec max min)|destruct (Z.ltb_spec max v)]; lia.
Qed.

Lemma append_lines_app data spans a b c :
  1 <= a -> a - 1 <= b -> b <= c -> b <= zlen spans ->
  append_lines data spans a b ++ append_lines data spans (b + 1) c = append_lines data spans a c.
Proof.
  intros Ha Hab Hbc Hn. unfold append_lines. rewrite <- concat_app. f_equal.
  rewrite <- (take_drop (Z.to_nat (b - a + 1)) (take (Z.to_nat (c - a + 1)) (drop (Z.to_nat (a - 1)) spans))).
  rewrite imap_app, take_take, Nat.min_l by lia. f_equal.
  rewrite skipn_firstn_comm, drop_drop. unfold zlen in Hn.
  rewrite length_take, length_drop, Nat.min_l by lia.
  replace (Z.to_nat (c - a + 1) - Z.to_nat (b - a + 1))%nat with (Z.to_nat (c - (b + 1) + 1)) by lia.
  replace (Z.to_nat (a - 1) + Z.to_nat (b - a + 1))%nat with (Z.to_nat (b + 1 - 1)) by lia.
  apply imap_ext. intros i sp _. cbn. f_equal. lia.
Qed.

(** One page without the decoration of [raw]. *)
Lemma read_page_plain path data start count n :
  n = zlen (agent_split_lines data) -> 1 <= start -> 1 <= count -> n + count <= INT_MAX ->
  let from := Z.min n (start - 1) in
  let stop := Z.min n (start - 1 + count) in
  agent_read_page path data start count false false =
  Some (read_header path (if n =? 0 then 0 else from + 1) stop n count ++
        append_lines data (agent_split_lines data) (from + 1) stop,
        if stop <? n then agent_worker_set_more (Some path) (stop + 1) false
        else agent_worker_set_more None 0 false).
Proof.
  intros -> Hs Hc Hov from stop. unfold agent_read_page. set (n := zlen (agent_split_lines data)) in *.
  assert (0 <= n) by apply zlen_nonneg.
  destruct (Z.ltb_spec start 1); [lia|]. destruct (Z.leb_spec count 0); [lia|].
  assert (Efrom : (if n <? start - 1 then n else start - 1) = from) by (destruct (Z.ltb_spec n (start - 1)); lia).
  rewrite Efrom. destruct (Z.ltb_spec INT_MAX (from + count)); [lia|].
  assert (Estop : (if n <? from + count then n else from + count) = stop)
    by (destruct (Z.ltb_spec n (from + count)); lia).
  rewrite Estop. destruct (Z.ltb_spec 0 count); [done|lia].
Qed.

(** The worker's record when the lines up to [stop] of [n] are shown. *)
Definition more_at (path : bytes) (n stop : Z) : agent_more :=
  if stop <? n then agent_worker_set_more (Some path) (stop + 1) false else agent_worker_set_more None 0 false.

Lemma set_more_valid path l bare :
  path <> [] -> more_valid (agent_worker_set_more (Some path) l bare) = (0 <? l).
Proof. by destruct path. Qed.

Lemma more_at_valid path n stop :
  path <> [] -> 0 <= stop -> more_valid (more_at path n stop) = (stop <? n).
Proof.
  intros Hp Hs. unfold more_at. destruct (stop <? n); [|done]. rewrite set_more_valid by done. apply Z.ltb_lt. lia.
Qed.

Lemma more_at_lt path n stop :
  path <> [] -> (length path < PATH_MAX_)%nat -> 0 <= stop < n -> more_at path n stop = mkMore path (stop + 1) false true.
Proof.
  intros Hp Hl Hs. unfold more_at, agent_worker_set_more. destruct (Z.ltb_spec stop n); [|lia].
  change (default [] (Some path)) with path. unfold c_snprintf. rewrite take_ge by lia. f_equal.
  destruct path; [done|]. apply Z.ltb_lt. lia.
Qed.

(** A header and the lines below it. *)
Definition is_header (path : bytes) (n : Z) (page : bytes * bytes) : Prop :=
  exists first last_ count, page.1 = read_header path first last_ n count.

Definition total (counts : list Z) : Z := foldr Z.add 0 counts.

Lemma more_count_range c : 1 <= more_count c <= INT_MAX.
Proof. apply parse_int_range. unfold AGENT_READ_DEFAULT_LINES, INT_MAX. lia. Qed.

Lemma total_nonneg calls : 0 <= total (more_count <$> calls).
Proof.
  induction calls as [|c cs IH]; [done|]. pose proof (more_count_range c).
  change (total (more_count <$> c :: cs)) with (more_count c + total (more_count <$> cs)). lia.
Qed.

Lemma append_lines_none data spans a b : b < a -> append_lines data spans a b = [].
Proof. intros H. unfold append_lines. by replace (Z.to_nat (b - a + 1)) with 0%nat by lia. Qed.

Section pages.
Context (w : world) (path data : bytes).
Let spans := agent_split_lines data.
Let n := zlen spans.
Context (Hq : quiet w) (Hc : w_files w !! path = Some data) (Hsz : zlen data <= AGENT_FILE_MAX_BYTES).
Context (Hpn : path <> []) (Hpl : (length path < PATH_MAX_)%nat).

Lemma more_page stop c :
  0 <= stop < n -> n + more_count c <= INT_MAX ->
  let stop' := Z.min n (stop + more_count c) in
  exists head, agent_tool_more strerror (more_at path n stop) c w =
    (Some (head ++ append_lines data spans (stop + 1) stop', more_at path n stop'), w) /\
    is_header path n (head, append_lines data spans (stop + 1) stop').
Proof using Hq Hc Hsz Hpn Hpl.
  intros Hs Hov stop'. pose proof (more_count_range c).
  rewrite (more_at_lt path n stop) by (done || lia). unfold agent_tool_more.
  cbn [more_path more_next_line more_bare more_valid negb]. unfold agent_read_range. destruct path as [|x p]; [done|].
  unfold io_bind. rewrite (read_file_run (x :: p) 256 w data) by done. cbn [fst snd].
  fold (more_count c). rewrite (read_page_plain _ data (stop + 1) (more_count c) n) by (done || lia).
  replace (stop + 1 - 1) with stop by lia. rewrite (Z.min_r n stop) by lia. fold stop'.
  eexists. split; [unfold more_at; fold spans; reflexivity|]. do 3 eexists. reflexivity.
Qed.

Lemma read_rest_pages calls stop :
  0 <= stop <= n -> Forall (fun c => n + more_count c <= INT_MAX) calls ->
  let stop' := Z.min n (stop + total (more_count <$> calls)) in
  exists pages, read_rest (more_at path n stop) calls w =
      (Some ((fun page => page.1 ++ page.2) <$> pages, more_at path n stop'), w) /\
    Forall (is_header path n) pages /\ concat pages.*2 = append_lines data spans (stop + 1) stop'.
Proof using Hq Hc Hsz Hpn Hpl.
  revert stop. induction calls as [|c calls IH]; intros stop Hs Hov stop'.
  - exists []. unfold stop'. cbn. rewrite Z.add_0_r, Z.min_r, append_lines_none by lia. done.
  - apply Forall_cons_iff in Hov as [Hov Hovs].
    pose proof (total_nonneg calls) as Htot. pose proof (more_count_range c) as Hpos.
    change (total (more_count <$> c :: calls)) with (more_count c + total (more_count <$> calls)) in stop'.
    cbn [read_rest]. rewrite more_at_valid by (done || lia).
    destruct (Z.ltb_spec stop n).
    + destruct (more_page stop c ltac:(lia) Hov) as (head & Hrun & Hhead). set (s1 := Z.min n (stop + more_count c)) in *.
      destruct (IH s1 ltac:(lia) Hovs) as (pages & Hrest & Hheads & Hcat).
      assert (Es : Z.min n (s1 + total (more_count <$> calls)) = stop') by lia. rewrite Es in *.
      exists ((head, append_lines data spans (stop + 1) s1) :: pages). split_and!.
      * unfold io_bind at 1. rewrite Hrun. unfold io_bind. by rewrite Hrest.
      * by constructor.
      * cbn. rewrite Hcat. apply append_lines_app; lia.
    + assert (stop' = stop) as -> by lia. exists []. split_and!; [done|done|]. by rewrite append_lines_none by lia.
Qed.
End pages.

(** C23. Reading a file in pages: after a [read] from line [start] and any number
    of [more] calls, with nothing failing in between, the pages are each a header
    and lines, and the lines of all pages put together are the numbered lines
    from [start] up to as many as were asked for, each once and in order; once
    enough are asked for they reach the end of the file, and the worker's record
    offers no continuation. *)
Theorem read_pages w path data m0 call calls :
  quiet w -> w_files w !! path = Some data -> zlen data <= AGENT_FILE_MAX_BYTES ->
  path <> [] -> (length path < PATH_MAX_)%nat ->
  agent_tool_arg_value call "path" = Some path -> agent_tool_arg_value call "whole" = None ->
  agent_tool_arg_value call "raw" = None ->
  let spans := agent_split_lines data in
  let n := zlen spans in
  let start := agent_parse_int_default (agent_tool_arg_value call "start_line") 1 1 INT_MAX in
  let count := agent_parse_int_default (agent_tool_arg_value call "max_lines") AGENT_READ_DEFAULT_LINES 1 INT_MAX in
  n + count <= INT_MAX -> Forall (fun c => n + more_count c <= INT_MAX) calls ->
  let stop := Z.min n (start - 1 + count + total (more_count <$> calls)) in
  exists pages m1 m2 head body,
    agent_tool_read strerror m0 call w = (Some (head ++ body, m1), w) /\
    read_rest m1 calls w = (Some ((fun page => page.1 ++ page.2) <$> pages, m2), w) /\
    Forall (is_header path n) ((head, body) :: pages) /\
    concat ((head, body) :: pages).*2 = append_lines data spans start stop /\
    more_valid m2 = (stop <? n).
Proof.
  intros Hq Hc Hsz Hpn Hpl Hpath Hwhole Hraw spans n start count Hov Hovs stop.
  assert (Hst : 1 <= start <= INT_MAX) by (apply parse_int_range; unfold INT_MAX; lia).
  assert (Hct : 1 <= count <= INT_MAX) by (apply parse_int_range; unfold INT_MAX, AGENT_READ_DEFAULT_LINES; lia).
  assert (Hn : 0 <= n) by apply zlen_nonneg.
  set (s1 := Z.min n (start - 1 + count)).
  destruct (read_rest_pages w path data Hq Hc Hsz Hpn Hpl calls s1 ltac:(unfold n, spans in *; lia) Hovs) as (pages & Hrest & Hheads & Hcat).
  fold spans n in Hrest, Hheads, Hcat.
  pose proof (total_nonneg calls) as Htot.
  assert (Es : Z.min n (s1 + total (more_count <$> calls)) = stop) by lia. rewrite Es in *.
  exists pages, (more_at path n s1), (more_at path n stop). do 2 eexists. split_and!.
  - unfold agent_tool_read. rewrite Hpath, Hwhole, Hraw. unfold agent_read_range. destruct path as [|x p]; [done|].
    unfold io_bind. rewrite (read_file_run (x :: p) 256 w data) by done. cbn [fst snd agent_parse_bool_default].
    fold start count. rewrite (read_page_plain _ data start count n) by (done || lia). reflexivity.
  - exact Hrest.
  - constructor; [|done]. do 3 eexists. reflexivity.
  - cbn [fmap list_fmap map concat snd]. rewrite Hcat.
    destruct (Z.le_gt_cases (start - 1) n).
    + rewrite Z.min_r, Z.sub_add by lia. apply append_lines_app; lia.
    + assert (s1 = n) by lia. assert (stop = n) by lia. by rewrite !append_lines_none by lia.
  - apply more_at_valid; [done|lia].
Qed.
End ToolRuns.
