(* ===== verification/AgentSearch.v ===== *)
(** * AgentSearch: searching one file for the agent's search tool (ds4_agent.c)

    [fnmatch] and a compiled POSIX expression are parameters. *)

From stdpp Require Import sorting.
From S2P Require Import Prelude Ctype TcLines Fs AgentFile.

Section Search.
(** [fnmatch(pattern, name, 0) == 0] and [regexec(&ctx->regex, line, 0, NULL, 0) == 0] *)
Context (fnmatch : bytes -> bytes -> bool) (regexec : bytes -> bool).

Record agent_search_ctx := mkSearchCtx {
  sc_query : bytes;
  sc_glob : option bytes;
  sc_use_regex : bool;
  sc_case_sensitive : bool;
  sc_context : Z;
  sc_max_results : Z
}.

(** [results] and [out] *)
Record search_state := mkSearch { ss_results : Z; ss_out : bytes }.

Definition fold_byte (case_sensitive : bool) (c : Z) : Z := if case_sensitive then c else tolower c.

(** The outer loop, [i + qn <= n]. *)
Fixpoint literal_loop (count : nat) (s q : bytes) (case_sensitive : bool) (i : nat) : bool :=
  match count with
  | O => false
  | S count =>
      if starts_with (fold_byte case_sensitive <$> q) (fold_byte case_sensitive <$> drop i s) then true
      else literal_loop count s q case_sensitive (S i)
  end.

Definition agent_literal_match (s q : bytes) (case_sensitive : bool) : bool :=
  match q with
  | [] => true
  | _ =>
      if (length s <? length q)%nat then false
      else literal_loop (S (length s - length q)) s q case_sensitive 0
  end.

Definition agent_search_line_matches (ctx : agent_search_ctx) (line : bytes) : bool :=
  if sc_use_regex ctx then regexec (cstr line)
  else agent_literal_match line (sc_query ctx) (sc_case_sensitive ctx).

Definition agent_search_emit_line (data : bytes) (sp : agent_line_span) (line_no : Z) : bytes :=
  bs "  " ++ dec_int line_no ++ bs " " ++ line_content data sp ++ nl.

(** The lines [from..to], numbered from 0. *)
Definition emit_lines (data : bytes) (spans : list agent_line_span) (from to : Z) : bytes :=
  concat (imap (fun i sp => agent_search_emit_line data sp (from + Z.of_nat i + 1))
    (take (Z.to_nat (to - from + 1)) (drop (Z.to_nat from) spans))).

Record search_pass := mkPass { sp_out : bytes; sp_printed : bool; sp_last : Z; sp_results : Z }.

(** [rest] are the spans from [i] on. *)
Fixpoint search_loop (ctx : agent_search_ctx) (path data : bytes) (spans rest : list agent_line_span) (i : Z)
    (st : search_pass) : search_pass :=
  match rest with
  | [] => st
  | sp :: rest =>
      if sp_results st <? sc_max_results ctx then
        if negb (agent_search_line_matches ctx (line_content data sp)) then
          search_loop ctx path data spans rest (i + 1) st
        else
          let out := if sp_printed st then sp_out st else sp_out st ++ path ++ nl in
          let from := i - sc_context ctx in
          let to := i + sc_context ctx in
          let from := if from <? 0 then 0 else from in
          let to := if zlen spans <=? to then zlen spans - 1 else to in
          let from := if from <=? sp_last st then sp_last st + 1 else from in
          let last_ := if from <=? to then to else sp_last st in
          search_loop ctx path data spans rest (i + 1)
            (mkPass (out ++ emit_lines data spans from to) true last_ (sp_results st + 1))
      else st
  end.

(** [strrchr(path, '/')] *)
Definition base_name (path : bytes) : bytes :=
  let r := reverse path in
  reverse (take (span_len (fun c => negb (c =? slash)) r) r).

(** The text of the file, if it is to be searched. *)
Definition agent_search_data (ctx : agent_search_ctx) (path data : bytes) (st : search_state) : search_state :=
  if bool_decide (0 ∈ data) then st
  else
    let spans := agent_split_lines data in
    let p := search_loop ctx path data spans spans 0 (mkPass (ss_out st) false (-1) (ss_results st)) in
    mkSearch (sp_results p) (sp_out p ++ if sp_printed p then nl else []).

Definition agent_search_file (strerror : world -> bytes) (ctx : agent_search_ctx) (path : bytes)
    (st : search_state) : IO search_state :=
  if sc_max_results ctx <=? ss_results st then ret st
  else if (match sc_glob ctx with
           | Some (c :: g) => negb (fnmatch (c :: g) (base_name path)) && negb (fnmatch (c :: g) path)
           | _ => false
           end) then ret st
  else
    let! r := agent_read_file_bytes strerror path 256 in
    ret (match r with inr _ => st | inl data => agent_search_data ctx path data st end).

(** ** The lines a search prints *)

(** The matching lines. *)
Fixpoint match_lines (ctx : agent_search_ctx) (data : bytes) (rest : list agent_line_span) (i : Z) : list Z :=
  match rest with
  | [] => []
  | sp :: rest =>
      (if agent_search_line_matches ctx (line_content data sp) then [i] else []) ++
      match_lines ctx data rest (i + 1)
  end.

Definition in_window (ctx : agent_search_ctx) (n i j : Z) : Prop :=
  0 <= j < n /\ i - sc_context ctx <= j <= i + sc_context ctx.

(** The 0-based lines [from..to]. *)
Definition line_range (from to : Z) : list Z := (fun k => from + Z.of_nat k) <$> seq 0 (Z.to_nat (to - from + 1)).

Definition line_entry (data : bytes) (spans : list agent_line_span) (j : Z) : bytes :=
  match spans !! Z.to_nat j with
  | Some sp => agent_search_emit_line data sp (j + 1)
  | None => []
  end.

Lemma emit_lines_range data spans from to :
  0 <= from -> to < zlen spans ->
  emit_lines data spans from to = concat (line_entry data spans <$> line_range from to).
Proof.
  intros Hf Ht. unfold emit_lines, line_range. f_equal. rewrite <- list_fmap_compose. apply list_eq. intros k.
  rewrite list_lookup_imap, list_lookup_fmap. destruct (decide (k < Z.to_nat (to - from + 1))%nat) as [Hk|Hk].
  - rewrite lookup_take, decide_True, lookup_drop by done. rewrite lookup_seq_lt by done. cbn.
    unfold zlen in Ht. destruct (lookup_lt_is_Some_2 spans (Z.to_nat from + k)) as [sp Hsp]; [lia|].
    rewrite Hsp. cbn. unfold line_entry. replace (Z.to_nat (from + Z.of_nat k)) with (Z.to_nat from + k)%nat by lia.
    rewrite Hsp. reflexivity.
  - rewrite lookup_take_ge, lookup_seq_ge by lia. done.
Qed.

Lemma elem_of_line_range from to j : j ∈ line_range from to <-> from <= j <= to.
Proof.
  unfold line_range. rewrite list_elem_of_fmap. split.
  - intros (k & -> & Hk). apply elem_of_seq in Hk. lia.
  - intros Hj. exists (Z.to_nat (j - from)). split; [lia|]. apply elem_of_seq. lia.
Qed.

Lemma line_range_sorted from to : StronglySorted Z.lt (line_range from to).
Proof.
  unfold line_range. generalize 0%nat as s. induction (Z.to_nat (to - from + 1)) as [|m IH]; intros s; cbn; [constructor|].
  constructor; [apply IH|]. apply list.Forall_forall. intros x Hx. apply list_elem_of_fmap in Hx as (k & -> & Hk).
  apply elem_of_seq in Hk. lia.
Qed.

Lemma sorted_app (l k : list Z) m :
  StronglySorted Z.lt l -> StronglySorted Z.lt k ->
  (forall x, x ∈ l -> x <= m) -> (forall y, y ∈ k -> m < y) -> StronglySorted Z.lt (l ++ k).
Proof.
  intros Hl Hk Hlm Hkm. induction Hl as [|x l Hs IH Hx]; [done|]. cbn. constructor.
  - apply IH. intros y Hy. apply Hlm. by right.
  - apply Forall_app. split; [done|]. apply list.Forall_forall. intros y Hy.
    specialize (Hlm x ltac:(left)). specialize (Hkm y Hy). lia.
Qed.

(** What a pass over the first lines has printed: [M] are the matches it counted,
    [L] the lines. *)
Record pass_ok (ctx : agent_search_ctx) (path data : bytes) (spans : list agent_line_span) (base : bytes) (r0 i : Z)
    (M L : list Z) (st : search_pass) : Prop := {
  po_out : sp_out st = base ++ (if sp_printed st then path ++ nl else []) ++ concat (line_entry data spans <$> L);
  po_printed : sp_printed st = negb (bool_decide (M = []));
  po_results : sp_results st = r0 + zlen M;
  po_sorted : StronglySorted Z.lt L;
  po_bound : forall j, j ∈ L -> j <= sp_last st;
  po_match : forall m, m ∈ M -> 0 <= m < i;
  po_lines : forall j, j ∈ L <-> exists m, m ∈ M /\ in_window ctx (zlen spans) m j;
  po_last : (M = [] /\ sp_last st = -1) \/
    exists m, m ∈ M /\ (forall m', m' ∈ M -> m' <= m) /\ sp_last st = Z.min (zlen spans - 1) (m + sc_context ctx)
}.

Lemma pass_match ctx path data spans base r0 i M L st sp from to :
  0 <= sc_context ctx -> 0 <= i < zlen spans ->
  from = Z.max (Z.max 0 (i - sc_context ctx)) (sp_last st + 1) ->
  to = Z.min (zlen spans - 1) (i + sc_context ctx) ->
  pass_ok ctx path data spans base r0 i M L st ->
  sp_out sp = (if sp_printed st then sp_out st else sp_out st ++ path ++ nl) ++ emit_lines data spans from to ->
  sp_printed sp = true -> sp_last sp = (if from <=? to then to else sp_last st) ->
  sp_results sp = sp_results st + 1 ->
  pass_ok ctx path data spans base r0 (i + 1) (M ++ [i]) (L ++ line_range from to) sp.
Proof.
  intros Hc Hi Ef Et H Eo Ep El Er.
  assert (Hlast : sp_last sp = to /\ sp_last st <= to).
  { rewrite El. destruct (po_last _ _ _ _ _ _ _ _ _ _ H) as [[_ Hl]|(m & Hm & _ & Hl)].
    - destruct (Z.leb_spec from to); lia.
    - apply (po_match _ _ _ _ _ _ _ _ _ _ H) in Hm. destruct (Z.leb_spec from to); lia. }
  split.
  - rewrite Eo, (po_out _ _ _ _ _ _ _ _ _ _ H), Ep, fmap_app, concat_app, emit_lines_range by lia.
    destruct (sp_printed st) eqn:Epr; [by rewrite <- !app_assoc|].
    pose proof (po_printed _ _ _ _ _ _ _ _ _ _ H) as HM. rewrite Epr in HM. symmetry in HM.
    apply negb_false_iff, bool_decide_eq_true in HM.
    assert (L = []) as ->.
    { destruct L as [|j L]; [done|]. destruct (proj1 (po_lines _ _ _ _ _ _ _ _ _ _ H j) ltac:(left)) as (m & Hm & _).
      rewrite HM in Hm. by apply not_elem_of_nil in Hm. }
    cbn. by rewrite !app_nil_r, <- !app_assoc.
  - rewrite Ep, bool_decide_eq_false_2; [done|by destruct M].
  - rewrite Er, (po_results _ _ _ _ _ _ _ _ _ _ H), zlen_app. change (zlen [i]) with 1. lia.
  - apply (sorted_app _ _ (sp_last st)); [apply (po_sorted _ _ _ _ _ _ _ _ _ _ H)|apply line_range_sorted|
      apply (po_bound _ _ _ _ _ _ _ _ _ _ H)|]. intros y Hy. apply elem_of_line_range in Hy. lia.
  - intros j Hj. rewrite (proj1 Hlast). apply elem_of_app in Hj as [Hj|Hj].
    + apply (po_bound _ _ _ _ _ _ _ _ _ _ H) in Hj. lia.
    + apply elem_of_line_range in Hj. lia.
  - intros m Hm. apply elem_of_app in Hm as [Hm|Hm].
    + apply (po_match _ _ _ _ _ _ _ _ _ _ H) in Hm. lia.
    + apply list_elem_of_singleton in Hm. lia.
  - intros j. rewrite elem_of_app, (po_lines _ _ _ _ _ _ _ _ _ _ H), elem_of_line_range. unfold in_window. split.
    + intros [(m & Hm & Hw)|Hw].
      * exists m. split; [apply elem_of_app; by left|done].
      * exists i. split; [apply elem_of_app; right; by apply list_elem_of_singleton|lia].
    + intros (m & Hm & Hw). apply elem_of_app in Hm as [Hm|Hm]; [left; by exists m|].
      apply list_elem_of_singleton in Hm as ->.
      destruct (Z.le_gt_cases j (sp_last st)); [|right; lia]. left.
      destruct (po_last _ _ _ _ _ _ _ _ _ _ H) as [[_ Hl]|(m & Hm & _ & Hl)]; [lia|]. exists m. split; [done|].
      apply (po_match _ _ _ _ _ _ _ _ _ _ H) in Hm. lia.
  - right. exists i. split_and!; [apply elem_of_app; right; by apply list_elem_of_singleton| |lia].
    intros m' Hm. apply elem_of_app in Hm as [Hm|Hm].
    + apply (po_match _ _ _ _ _ _ _ _ _ _ H) in Hm. lia.
    + apply list_elem_of_singleton in Hm. lia.
Qed.

Lemma pass_skip ctx path data spans base r0 i M L st :
  pass_ok ctx path data spans base r0 i M L st -> pass_ok ctx path data spans base r0 (i + 1) M L st.
Proof. intros []. split; try done. intros m Hm. specialize (po_match0 m Hm). lia. Qed.

Lemma search_loop_ok ctx path data spans rest base r0 i M L st :
  0 <= sc_context ctx -> 0 <= i -> i + zlen rest = zlen spans ->
  pass_ok ctx path data spans base r0 i M L st ->
  exists L', pass_ok ctx path data spans base r0 (zlen spans)
    (M ++ take (Z.to_nat (sc_max_results ctx - sp_results st)) (match_lines ctx data rest i)) L'
    (search_loop ctx path data spans rest i st).
Proof.
  intros Hc. revert i M L st. induction rest as [|sp rest IH]; intros i M L st Hi Hn H.
  - exists L. cbn. rewrite take_nil, app_nil_r. change (zlen []) with 0 in Hn.
    by replace (zlen spans) with i by lia.
  - rewrite zlen_cons in Hn. pose proof (zlen_nonneg rest). cbn [search_loop match_lines].
    destruct (Z.ltb_spec (sp_results st) (sc_max_results ctx)) as [Hlt|Hge].
    + destruct (agent_search_line_matches ctx (line_content data sp)); cbn [negb app].
      * replace (Z.to_nat (sc_max_results ctx - sp_results st))
          with (S (Z.to_nat (sc_max_results ctx - (sp_results st + 1)))) by lia.
        cbn [take]. rewrite cons_middle, app_assoc.
        assert (Ef : (if (if i - sc_context ctx <? 0 then 0 else i - sc_context ctx) <=? sp_last st then sp_last st + 1
                      else if i - sc_context ctx <? 0 then 0 else i - sc_context ctx) =
                     Z.max (Z.max 0 (i - sc_context ctx)) (sp_last st + 1)).
        { destruct (Z.ltb_spec (i - sc_context ctx) 0); [destruct (Z.leb_spec 0 (sp_last st))|
            destruct (Z.leb_spec (i - sc_context ctx) (sp_last st))]; lia. }
        assert (Et : (if zlen spans <=? i + sc_context ctx then zlen spans - 1 else i + sc_context ctx) =
                     Z.min (zlen spans - 1) (i + sc_context ctx)).
        { destruct (Z.leb_spec (zlen spans) (i + sc_context ctx)); lia. }
        rewrite Ef, Et. match goal with |- context [search_loop ctx path data spans rest (i + 1) ?p] => set (p' := p) end.
        change (sp_results st + 1) with (sp_results p'). eapply (IH (i + 1) (M ++ [i]) _ p'); [lia|lia|].
        eapply (pass_match ctx path data spans base r0 i M L st p'); [done|lia|reflexivity|reflexivity|exact H|done..].
      * eapply IH; [lia|lia|]. by apply pass_skip.
    + exists L. replace (Z.to_nat (sc_max_results ctx - sp_results st)) with 0%nat by lia.
      rewrite take_0, app_nil_r. destruct H. split; try done. intros m Hm. specialize (po_match0 m Hm). lia.
Qed.

(** Searching one file: the matches counted are the first ones, as many as
    the limit still allows; the lines printed below the file's name are exactly
    the lines within [context] of one of them, each once, numbered from 1 and in
    ascending order; a file with a NUL byte is passed over. *)
Lemma search_prints_windows ctx path data st :
  0 <= sc_context ctx ->
  let spans := agent_split_lines data in
  let found := take (Z.to_nat (sc_max_results ctx - ss_results st)) (match_lines ctx data spans 0) in
  let st' := agent_search_data ctx path data st in
  if bool_decide (0 ∈ data) then st' = st
  else exists L,
    ss_out st' = ss_out st ++ (match found with
                               | [] => []
                               | _ => path ++ nl ++ concat (line_entry data spans <$> L) ++ nl
                               end) /\
    ss_results st' = ss_results st + zlen found /\ StronglySorted Z.lt L /\
    (forall j, j ∈ L <-> exists m, m ∈ found /\ in_window ctx (zlen spans) m j).
Proof.
  intros Hc spans found st'. unfold st', agent_search_data. case_bool_decide; [done|]. fold spans.
  set (p0 := mkPass (ss_out st) false (-1) (ss_results st)).
  destruct (search_loop_ok ctx path data spans spans (ss_out st) (ss_results st) 0 [] [] p0) as [L HL]; [done|lia|lia| |].
  { split; cbn; try done; [by rewrite app_nil_r|rewrite Z.add_0_r; done|constructor| | | |by left];
      try (intros m Hm; by apply not_elem_of_nil in Hm).
    intros j. split; [intros Hm; by apply not_elem_of_nil in Hm|]. intros (m & Hm & _). by apply not_elem_of_nil in Hm. }
  exists L. cbn [app] in HL. change (sp_results p0) with (ss_results st) in HL. fold found in HL. destruct HL.
  cbn [ss_out ss_results]. split_and!; [|done..].
  rewrite po_out0, po_printed0. destruct found as [|m f] eqn:Ef; cbn [negb bool_decide].
  - assert (L = []) as ->; [|by rewrite bool_decide_eq_true_2, !app_nil_r].
    destruct L as [|j L]; [done|]. destruct (proj1 (po_lines0 j) ltac:(left)) as (m & Hm & _). by apply not_elem_of_nil in Hm.
  - rewrite bool_decide_eq_false_2 by done. cbn [negb]. by rewrite <- !app_assoc.
Qed.
End Search.
