(* ===== verification/AgentGuard.v ===== *)
(** * AgentGuard: how the agent notices that it goes round in circles (ds4_agent.c)

    Inside one answer, the repetition detector and the window of recent tokens;
    between tool rounds, the loop guard. *)

From S2P Require Import Prelude Ctype Sha Fs AgentFile.
From Stdlib Require Import Floats.SpecFloat.

(** ** Repeated lines *)

Definition AGENT_REP_WINDOW : Z := 32.
Definition AGENT_REP_MAX_PERIOD : Z := 4.
Definition AGENT_REP_MIN_CYCLES : Z := 5.
Definition AGENT_REP_WARN_CYCLES : Z := 3.
Definition AGENT_REP_MIN_LINE_LEN : Z := 4.
Definition AGENT_REP_FNV_OFFSET : Z := 1469598103934665603.
Definition AGENT_REP_FNV_PRIME : Z := 1099511628211.

(** The ring [rp_h], the number of lines pushed, the hash and the number of the
    current line's bytes that are no space. *)
Record agent_repetition_detector := mkRep { rp_h : list Z; rp_count : Z; rp_cur : Z; rp_cur_sig : Z }.

Definition AGENT_REP_INIT : agent_repetition_detector :=
  mkRep (replicate 32 0) 0 AGENT_REP_FNV_OFFSET 0.

Definition agent_rep_line_back (d : agent_repetition_detector) (back : Z) : Z :=
  rp_h d !!! Z.to_nat ((rp_count d - 1 - back) mod AGENT_REP_WINDOW).

(** [while (m < limit && line_back(m) == line_back(m + period)) m++]; every pass
    raises [m]. *)
Fixpoint rep_match (fuel : nat) (d : agent_repetition_detector) (limit period m : Z) : Z :=
  match fuel with
  | O => m
  | S fuel =>
      if (m <? limit) && (agent_rep_line_back d m =? agent_rep_line_back d (m + period))
      then rep_match fuel d limit period (m + 1) else m
  end.

Definition rep_period (d : agent_repetition_detector) (avail best period : Z) : Z :=
  if avail <? 2 * period then best
  else
    let limit := avail - period in
    let m := rep_match (Z.to_nat limit) d limit period 0 in
    let reps := m / period + 1 in
    if best <? reps then reps else best.

Definition agent_repetition_cycles (d : agent_repetition_detector) : Z :=
  let avail := if rp_count d <? AGENT_REP_WINDOW then rp_count d else AGENT_REP_WINDOW in
  fold_left (rep_period d avail) [1; 2; 3; 4] 1.

(** One byte; [worst] is the highest count so far. *)
Definition rep_byte (st : agent_repetition_detector * Z) (c : Z) : agent_repetition_detector * Z :=
  let '(d, worst) := st in
  if c =? 10 then
    let '(d, worst) :=
      if AGENT_REP_MIN_LINE_LEN <=? rp_cur_sig d then
        let d := mkRep (<[Z.to_nat (rp_count d mod AGENT_REP_WINDOW) := rp_cur d]> (rp_h d)) (rp_count d + 1)
                       (rp_cur d) (rp_cur_sig d) in
        let cycles := agent_repetition_cycles d in
        (d, if worst <? cycles then cycles else worst)
      else (d, worst) in
    (mkRep (rp_h d) (rp_count d) AGENT_REP_FNV_OFFSET 0, worst)
  else if negb (isspace c) then
    (mkRep (rp_h d) (rp_count d) (u64 (Z.lxor (rp_cur d) c * AGENT_REP_FNV_PRIME)) (rp_cur_sig d + 1), worst)
  else (d, worst).

Definition agent_repetition_feed (d : agent_repetition_detector) (text : bytes) : agent_repetition_detector * Z :=
  fold_left rep_byte text (d, 0).

(** ** Recent tokens *)

Definition AGENT_REPEAT_WINDOW : Z := 256.

Record agent_recent_tokens := mkRecent { rt_t : list Z; rt_count : Z }.

Definition recent_zero : agent_recent_tokens := mkRecent (replicate 256 0) 0.

Definition agent_recent_tokens_push (r : agent_recent_tokens) (token : Z) : agent_recent_tokens :=
  mkRecent (<[Z.to_nat (rt_count r mod AGENT_REPEAT_WINDOW) := token]> (rt_t r)) (rt_count r + 1).

Definition recent_len (r : agent_recent_tokens) : Z :=
  if rt_count r <? AGENT_REPEAT_WINDOW then rt_count r else AGENT_REPEAT_WINDOW.

(** One pass of the loops that put an id into [out] unless it is there. *)
Definition add_unseen (out : list Z) (t : Z) : list Z := if bool_decide (t ∈ out) then out else out ++ [t].

Definition agent_recent_tokens_unique (r : agent_recent_tokens) : list Z :=
  fold_left add_unseen (take (Z.to_nat (recent_len r)) (rt_t r)) [].

(** ** Noise in tool results *)

Definition AGENT_NOISE_MAX_LINE_BYTES : Z := 400.

(** [0.70f] *)
Definition AGENT_NOISE_MIN_PRINTABLE : spec_float := S754_finite false 11744051 (-24).

Definition is_printable (c : Z) : bool := (c =? 9) || ((32 <=? c) && negb (c =? 127)).

(** [(float)n] of a count below 2^24 *)
Definition float_of (n : Z) : spec_float := binary_normalize 24 128 n 0 false.

Definition agent_line_is_noise (line : bytes) : bool :=
  if AGENT_NOISE_MAX_LINE_BYTES <? zlen line then true
  else if starts_with (bs "Binary files ") line then true
  else if (length line =? 0)%nat then false
  else
    let printable := zlen (List.filter is_printable line) in
    SFltb (SFdiv 24 128 (float_of printable) (float_of (zlen line))) AGENT_NOISE_MIN_PRINTABLE.

Definition elided_note (elided : Z) : bytes :=
  bs "[... " ++ dec_int elided ++ bs " noise/binary line" ++ (if elided =? 1 then [] else bs "s") ++ bs " elided ...]" ++ nl.

(** The loop over the lines of [p]; every pass takes a byte. *)
Fixpoint elide_loop (fuel : nat) (p out : bytes) (elided : Z) (changed : bool) : bytes * Z * bool :=
  match fuel, p with
  | O, _ | _, [] => (out, elided, changed)
  | S fuel, _ =>
      let len := span_len (fun c => negb (c =? 10)) p in
      let line := take len p in
      let '(out, elided, changed) :=
        if agent_line_is_noise line then (out, elided + 1, true)
        else ((if elided =? 0 then out else out ++ elided_note elided) ++ line ++ nl, 0, changed) in
      match drop len p with
      | [] => (out, elided, changed)
      | _ :: p => elide_loop fuel p out elided changed
      end
  end.

(** [None]: nothing to elide, the caller keeps the text. *)
Definition agent_elide_noise_lines (s : bytes) : option bytes :=
  match cstr s with
  | [] => None
  | text =>
      let '(out, elided, changed) := elide_loop (length text) text [] 0 false in
      let out := if elided =? 0 then out else out ++ elided_note elided in
      if changed : bool then Some out else None
  end.

(** ** Tokens that would repeat a sequence *)

Definition AGENT_NGRAM_BAN_CONTEXT : Z := 3.
Definition AGENT_NGRAM_BAN_MAX : Z := 64.

(** The window in the order of time: [seq[n - 1 - back]]. *)
Definition recent_seq (r : agent_recent_tokens) : list Z :=
  let n := recent_len r in
  (fun k => rt_t r !!! Z.to_nat ((rt_count r - 1 - (n - 1 - Z.of_nat k)) mod AGENT_REPEAT_WINDOW))
    <$> seq 0 (Z.to_nat n).

(** [rest] is the window from [i] on; the loop ends when no token follows the
    three compared. *)
Fixpoint ngram_loop (rest tail : list Z) (eos_token : Z) (cap : Z) (out : list Z) : list Z :=
  match rest with
  | a :: (b :: c :: cand :: _) as rest' =>
      if zlen out <? cap then
        if negb (bool_decide ([a; b; c] = tail)) then ngram_loop rest' tail eos_token cap out
        else if cand =? eos_token then ngram_loop rest' tail eos_token cap out
        else ngram_loop rest' tail eos_token cap (add_unseen out cand)
      else out
  | _ => out
  end.

Definition agent_ngram_ban_candidates (r : agent_recent_tokens) (eos_token : Z) (cap : Z) : list Z :=
  let n := recent_len r in
  if n <? AGENT_NGRAM_BAN_CONTEXT + 1 then []
  else
    let seq := recent_seq r in
    ngram_loop seq (drop (Z.to_nat (n - AGENT_NGRAM_BAN_CONTEXT)) seq) eos_token cap [].

(** ** The loop guard *)


(** The prefixes the [strncmp]s compare. *)
Definition is_noise_filter (s : bytes) : bool :=
  existsb (fun p => starts_with (bs p) s)
    ["| cat -A"; "| awk 'NF"; "| grep -v '^$"; "| grep -v ^''"; "| wc -l"]%string.

Definition bar : Z := ch "|".

(** Every pass takes a byte of [s]. *)
Fixpoint fingerprint_loop (fuel : nat) (s buf : bytes) : bytes :=
  match fuel, s with
  | S fuel, c :: s' =>
      if 255 <=? zlen buf then buf
      else if is_noise_filter s then
        fingerprint_loop fuel (drop (span_len (fun c => negb (c =? bar) && negb (c =? 10)) s') s') buf
      else if isspace c then
        fingerprint_loop fuel (drop (span_len isspace s') s')
          (if (zlen buf =? 0) || negb (List.last buf 0 =? 32) then buf ++ [32] else buf)
      else fingerprint_loop fuel s' (buf ++ [c])
  | _, _ => buf
  end.

(** [while (len > 0 && isspace(buf[len - 1])) len--] *)
Definition trim_end (s : bytes) : bytes := let r := reverse s in reverse (drop (span_len isspace r) r).

Definition agent_fingerprint_command (cmd : bytes) (out_cap : nat) : bytes :=
  take (out_cap - 1) (trim_end (fingerprint_loop (length cmd) cmd [])).

Definition b01 (b : bool) : bytes := if b then bs "1" else bs "0".

Definition read_fingerprint (path_sha : bytes) (start_line max_lines : Z) (whole raw : bool) : bytes :=
  bs "read|p=" ++ path_sha ++ bs "|s=" ++ dec_int start_line ++ bs "|n=" ++ dec_int max_lines ++
  bs "|w=" ++ b01 whole ++ bs "|r=" ++ b01 raw.

(** The range a [read] call asks for: first line, number of lines, whole, raw. *)
Definition read_range_of (call : agent_tool_call) : Z * Z * bool * bool :=
  let whole := agent_parse_bool_default (agent_tool_arg_value call "whole") false in
  let raw := agent_parse_bool_default (agent_tool_arg_value call "raw") false in
  let start_line := agent_parse_int_default (agent_tool_arg_value call "start_line") 1 1 INT_MAX in
  let parsed := agent_parse_int_default (agent_tool_arg_value call "max_lines") AGENT_READ_DEFAULT_LINES 1 INT_MAX in
  (start_line, if whole then 0 else parsed, whole, raw).

Definition name_is (name : bytes) (s : string) : bool := c_streq name (bs s).

(** [None]: the call is not tracked. *)
Definition agent_loop_guard_fingerprint_call (call : agent_tool_call) (out_cap : nat) : option bytes :=
  match tc_name call with
  | None => None
  | Some name =>
      if bool_decide (cstr name = []) then None
      else if name_is name "read" then
        match agent_tool_arg_value call "path" with
        | None | Some [] => None
        | Some path =>
            let '(start_line, max_lines, whole, raw) := read_range_of call in
            let out := read_fingerprint (sha1_hex path) start_line max_lines whole raw in
            if (out_cap <=? length out)%nat then None else Some out
        end
      else
        let command :=
          if name_is name "bash" then agent_tool_arg_value call "command"
          else if name_is name "search" then agent_tool_arg_value call "query"
          else if name_is name "grep" || name_is name "find" then agent_tool_arg_value call "command"
          else None in
        match command with
        | None | Some [] => None
        | Some command =>
            match agent_fingerprint_command command out_cap with [] => None | out => Some out end
        end
  end.








(** ** The end of a long output *)

Record agent_tail_capture := mkTail { tl_buf : list Z; tl_cap : nat; tl_start : nat; tl_len : nat; tl_total : Z }.

(** [memcpy(buf + pos, s, n)] *)
Definition tail_copy (buf : list Z) (pos : nat) (s : bytes) : list Z := list_inserts pos s buf.

(** The overwriting loop; every pass takes a byte. *)
Fixpoint tail_wrap (fuel : nat) (t : agent_tail_capture) (s : bytes) : agent_tail_capture :=
  match fuel, s with
  | S fuel, _ :: _ =>
      let pos := ((tl_start t + tl_len t) mod tl_cap t)%nat in
      let right := (tl_cap t - pos)%nat in
      let chunk := if (length s <? right)%nat then length s else right in
      tail_wrap fuel (mkTail (tail_copy (tl_buf t) pos (take chunk s)) (tl_cap t)
                             ((tl_start t + chunk) mod tl_cap t) (tl_len t) (tl_total t)) (drop chunk s)
  | _, _ => t
  end.

(** [block] is the uninitialised memory of the first allocation. *)
Definition agent_tail_capture_append (block : list Z) (t : agent_tail_capture) (s : bytes) : agent_tail_capture :=
  match s with
  | [] => t
  | _ =>
      let cap := tl_cap t in
      let n := length s in
      if (cap =? 0)%nat then t
      else
        let buf := match tl_buf t with [] => take cap block | b => b end in
        let total := tl_total t + zlen s in
        if (cap <=? n)%nat then mkTail (tail_copy buf 0 (drop (n - cap) s)) cap 0 cap total
        else
          let '(t, s) :=
            if (tl_len t <? cap)%nat then
              let free_tail := (cap - tl_len t)%nat in
              let first := if (n <? free_tail)%nat then n else free_tail in
              let pos := ((tl_start t + tl_len t) mod cap)%nat in
              let right := (cap - pos)%nat in
              let chunk := if (first <? right)%nat then first else right in
              let buf := tail_copy buf pos (take chunk s) in
              let buf := if (chunk <? first)%nat then tail_copy buf 0 (take (first - chunk) (drop chunk s)) else buf in
              (mkTail buf cap (tl_start t) (tl_len t + first) total, drop first s)
            else (mkTail buf cap (tl_start t) (tl_len t) total, s) in
          tail_wrap (length s) t s
  end.

Definition agent_tail_capture_take (t : agent_tail_capture) : bytes :=
  let n := tl_len t in
  let right := (tl_cap t - tl_start t)%nat in
  let first := if (n <? right)%nat then n else right in
  take first (drop (tl_start t) (tl_buf t)) ++ take (n - first) (tl_buf t).

(** ** What the repetition detector decides *)

(** The lines completed by a newline; [cur] is the current one. *)
Fixpoint completed (cur text : bytes) : list bytes :=
  match text with
  | [] => []
  | c :: text => if c =? 10 then cur :: completed [] text else completed (cur ++ [c]) text
  end.

(** The line that is still open. *)
Fixpoint open_line (cur text : bytes) : bytes :=
  match text with
  | [] => cur
  | c :: text => if c =? 10 then open_line [] text else open_line (cur ++ [c]) text
  end.

Definition visible (line : bytes) : bytes := List.filter (fun c => negb (isspace c)) line.

Definition line_hash (line : bytes) : Z :=
  fold_left (fun h c => u64 (Z.lxor h c * AGENT_REP_FNV_PRIME)) (visible line) AGENT_REP_FNV_OFFSET.

Definition significant (line : bytes) : bool := AGENT_REP_MIN_LINE_LEN <=? zlen (visible line).

(** The hashes of the significant lines, the latest first. *)
Definition line_hashes (text : bytes) : list Z :=
  reverse (line_hash <$> List.filter significant (completed [] text)).

(** The latest lines are [k] copies of a block of [p] lines. *)
Definition repeats (hs : list Z) (p k : nat) : Prop :=
  exists block, length block = p /\ concat (replicate k block) `prefix_of` hs.

Lemma repeats_periodic hs p k :
  (0 < k)%nat ->
  repeats hs p k <->
  (k * p <= length hs)%nat /\ forall j, (j < (k - 1) * p)%nat -> hs !! j = hs !! (j + p)%nat.
Proof.
  intros Hk. revert hs. induction k as [|k IH]; intros hs; [lia|]. destruct k as [|k].
  - split.
    + intros (block & <- & [r ->]). cbn. rewrite app_nil_r, length_app. split; [lia|]. intros; lia.
    + intros [Hl _]. exists (take p hs). split; [rewrite length_take; lia|]. cbn. rewrite app_nil_r. apply prefix_take.
  - specialize (IH ltac:(lia)). split.
    + intros (block & Hb & Hp). pose proof Hp as [r Hr]. cbn [replicate concat] in Hr.
      rewrite <- app_assoc in Hr.
      assert (Hrest : repeats (drop p hs) p (S k)).
      { exists block. split; [done|]. rewrite Hr, <- Hb, drop_app_length. by exists r. }
      apply IH in Hrest as [Hl Hj]. rewrite length_drop in Hl. split.
      * apply prefix_length in Hp. cbn [replicate concat] in Hp. rewrite length_app in Hp. lia.
      * intros j Hlt. destruct (le_lt_dec p j) as [Hge|Hsm].
        -- specialize (Hj (j - p)%nat ltac:(lia)). rewrite !lookup_drop in Hj.
           replace (p + (j - p))%nat with j in Hj by lia.
           replace (p + (j - p + p))%nat with (j + p)%nat in Hj by lia. done.
        -- cbn [replicate concat] in Hr. rewrite Hr, lookup_app_l by lia.
           rewrite lookup_app_r by lia. replace (j + p - length block)%nat with j by lia.
           rewrite <- app_assoc, lookup_app_l by lia. done.
    + intros [Hl Hj]. assert (Hrest : repeats (drop p hs) p (S k)).
      { apply IH. rewrite length_drop. split; [lia|]. intros j Hlt. rewrite !lookup_drop.
        rewrite (Hj (p + j)%nat) by lia. f_equal. lia. }
      destruct Hrest as (block & Hb & [r Hr]). exists block. split; [done|].
      assert (Ht : take p hs = block).
      { apply list_eq_same_length with p; [done|rewrite length_take; lia|]. intros i x y Hi Hx Hy.
        rewrite lookup_take, decide_True in Hx by done. rewrite (Hj i) in Hx by lia.
        rewrite Nat.add_comm, <- lookup_drop, Hr in Hx. cbn [replicate concat] in Hx.
        rewrite <- app_assoc, lookup_app_l in Hx by lia. congruence. }
      exists r. rewrite <- (take_drop p hs), Ht, Hr. cbn [replicate concat]. by rewrite <- !app_assoc.
Qed.

(** A ring of [n] cells, keyed by a running count, holds the latest of [hs]. *)
Definition ring_holds (n : Z) (h : list Z) (count : Z) (hs : list Z) : Prop :=
  length h = Z.to_nat n /\ count = zlen hs /\
  forall k, 0 <= k < Z.min n (zlen hs) -> h !!! Z.to_nat ((count - 1 - k) mod n) = hs !!! Z.to_nat k.

Lemma ring_holds_push n h count hs x :
  0 < n -> ring_holds n h count hs ->
  ring_holds n (<[Z.to_nat (count mod n) := x]> h) (count + 1) (x :: hs).
Proof.
  intros Hn (Hl & Hc & Hk). split_and!; [by rewrite length_insert|rewrite zlen_cons; lia|].
  intros k Hlt. rewrite zlen_cons in Hlt. pose proof (zlen_nonneg hs). rewrite !list_lookup_total_alt.
  pose proof (Z.mod_pos_bound count n Hn).
  destruct (decide (k = 0)) as [->|Hk0].
  - replace (count + 1 - 1 - 0) with count by lia. rewrite list_lookup_insert_eq; [done|lia].
  - specialize (Hk (k - 1) ltac:(lia)). rewrite !list_lookup_total_alt in Hk.
    replace (count - 1 - (k - 1)) with (count + 1 - 1 - k) in Hk by lia.
    rewrite list_lookup_insert_ne.
    + rewrite Hk. by replace (Z.to_nat k) with (S (Z.to_nat (k - 1))) by lia.
    + intros E. pose proof (Z.mod_pos_bound (count + 1 - 1 - k) n Hn).
      assert (E' : count mod n = (count + 1 - 1 - k) mod n) by lia.
      pose proof (Z.div_mod count n ltac:(lia)). pose proof (Z.div_mod (count + 1 - 1 - k) n ltac:(lia)).
      assert (Hq : k = n * (count / n - (count + 1 - 1 - k) / n)) by lia.
      destruct (Z.le_gt_cases (count / n - (count + 1 - 1 - k) / n) 0); nia.
Qed.

Definition ring_ok (d : agent_repetition_detector) (hs : list Z) : Prop :=
  ring_holds AGENT_REP_WINDOW (rp_h d) (rp_count d) hs.

Lemma ring_push d hs :
  ring_ok d hs ->
  ring_ok (mkRep (<[Z.to_nat (rp_count d mod AGENT_REP_WINDOW) := rp_cur d]> (rp_h d)) (rp_count d + 1)
                 (rp_cur d) (rp_cur_sig d)) (rp_cur d :: hs).
Proof. by apply ring_holds_push. Qed.

Lemma rep_match_spec fuel d limit p m :
  0 <= m <= limit -> Z.of_nat fuel = limit - m ->
  let r := rep_match fuel d limit p m in
  m <= r <= limit /\ (forall j, m <= j < r -> agent_rep_line_back d j = agent_rep_line_back d (j + p)) /\
  (r < limit -> agent_rep_line_back d r <> agent_rep_line_back d (r + p)).
Proof.
  revert m. induction fuel as [|fuel IH]; intros m Hm Hf; cbn [rep_match].
  - split_and!; [lia..| |]; intros; lia.
  - destruct (Z.ltb_spec m limit); [|lia]. cbn [andb].
    destruct (Z.eqb_spec (agent_rep_line_back d m) (agent_rep_line_back d (m + p))).
    + destruct (IH (m + 1) ltac:(lia) ltac:(lia)) as (H1 & H2 & H3). split_and!; [lia..| |done].
      intros j Hj. destruct (decide (j = m)) as [->|]; [done|]. apply H2. lia.
    + split_and!; [lia..| |done]. intros; lia.
Qed.

Lemma rep_period_spec d avail best p k :
  1 <= p -> 2 <= k ->
  k <= rep_period d avail best p <->
  k <= best \/ (k * p <= avail /\
                forall j, 0 <= j < (k - 1) * p -> agent_rep_line_back d j = agent_rep_line_back d (j + p)).
Proof.
  intros Hp Hk. unfold rep_period. destruct (Z.ltb_spec avail (2 * p)).
  - split; [by left|]. intros [|[? _]]; [done|nia].
  - destruct (rep_match_spec (Z.to_nat (avail - p)) d (avail - p) p 0 ltac:(lia) ltac:(lia)) as (Hr & Heq & Hne).
    set (r := rep_match _ _ _ _ _) in *.
    assert (Hiff : k <= r / p + 1 <-> (k - 1) * p <= r).
    { split; intros; [pose proof (Z.mul_div_le r p); nia|]. assert (k - 1 <= r / p); [|lia].
      apply Z.div_le_lower_bound; lia. }
    assert (Hrun : (k - 1) * p <= r <-> k * p <= avail /\
      forall j, 0 <= j < (k - 1) * p -> agent_rep_line_back d j = agent_rep_line_back d (j + p)).
    { split; [intros; split; [lia|]; intros; apply Heq; lia|]. intros [Ha Hj].
      destruct (Z.le_gt_cases ((k - 1) * p) r); [done|]. exfalso. apply Hne; [lia|]. apply Hj. lia. }
    rewrite <- Hrun, <- Hiff. cbv zeta. destruct (Z.ltb_spec best (r / p + 1)); lia.
Qed.

Lemma cycles_spec d hs k :
  ring_ok d hs -> (2 <= k)%nat ->
  Z.of_nat k <= agent_repetition_cycles d <-> exists p, (1 <= p <= 4)%nat /\ (k * p <= 32)%nat /\ repeats hs p k.
Proof.
  intros (Hl & Hc & Hback) Hk. change (forall k, 0 <= k < Z.min 32 (zlen hs) -> agent_rep_line_back d k = hs !!! Z.to_nat k) in Hback.
  unfold agent_repetition_cycles. set (avail := if _ <? _ then _ else _).
  pose proof (zlen_nonneg hs) as Hz.
  assert (Ha : avail = Z.min 32 (zlen hs)).
  { unfold avail, AGENT_REP_WINDOW. rewrite Hc. destruct (Z.ltb_spec (zlen hs) 32); lia. }
  assert (Hp : forall p, (1 <= p)%nat ->
    (Z.of_nat k * Z.of_nat p <= avail /\ forall j, 0 <= j < (Z.of_nat k - 1) * Z.of_nat p ->
       agent_rep_line_back d j = agent_rep_line_back d (j + Z.of_nat p)) <->
    ((k * p <= 32)%nat /\ repeats hs p k)).
  { intros p Hp1. rewrite repeats_periodic by lia. rewrite Ha. unfold zlen in *. split.
    - intros [Hle Hj]. split; [lia|]. split; [lia|]. intros j Hlt. specialize (Hj (Z.of_nat j) ltac:(nia)).
      rewrite !Hback in Hj by nia. rewrite !list_lookup_total_alt in Hj.
      replace (Z.to_nat (Z.of_nat j + Z.of_nat p)) with (j + p)%nat in Hj by lia. rewrite Nat2Z.id in Hj.
      destruct (lookup_lt_is_Some_2 hs j) as [x Hx]; [nia|]. destruct (lookup_lt_is_Some_2 hs (j + p)) as [y Hy]; [nia|].
      rewrite Hx, Hy in *. cbn in Hj. by subst.
    - intros (Hle & Hle2 & Hj). split; [nia|]. intros j Hlt. rewrite !Hback by nia.
      rewrite !list_lookup_total_alt, (Hj (Z.to_nat j)) by nia. do 2 f_equal. nia. }
  assert (H1 : Z.of_nat k <= 1 <-> False) by lia.
  assert (Hstep : forall best p, (1 <= p)%nat -> Z.of_nat k <= rep_period d avail best (Z.of_nat p) <->
    Z.of_nat k <= best \/ ((k * p <= 32)%nat /\ repeats hs p k)).
  { intros best p Hp1. by rewrite rep_period_spec, Hp by lia. }
  change [1; 2; 3; 4] with (Z.of_nat <$> [1; 2; 3; 4]%nat). cbn [fold_left fmap list_fmap map].
  rewrite !Hstep, H1 by lia. split.
  - intros [[[[[]|H]|H]|H]|H]; [exists 1%nat|exists 2%nat|exists 3%nat|exists 4%nat]; (split; [lia|done]).
  - intros (p & Hr & H). destruct p as [|[|[|[|[|p]]]]]; [lia|tauto..|lia].
Qed.

Lemma completed_snoc cur text c :
  completed cur (text ++ [c]) = completed cur text ++ (if c =? 10 then [open_line cur text] else []).
Proof.
  revert cur. induction text as [|x t IH]; intros cur; cbn; [by destruct (c =? 10)|].
  destruct (x =? 10); cbn; by rewrite IH.
Qed.

Lemma open_line_snoc cur text c :
  open_line cur (text ++ [c]) = if c =? 10 then [] else open_line cur text ++ [c].
Proof.
  revert cur. induction text as [|x t IH]; intros cur; cbn; [by destruct (c =? 10)|].
  destruct (x =? 10); cbn; by rewrite IH.
Qed.

Lemma visible_snoc line c : visible (line ++ [c]) = visible line ++ (if isspace c then [] else [c]).
Proof. unfold visible. rewrite List.filter_app. cbn. by destruct (isspace c). Qed.

Lemma line_hashes_snoc text c :
  line_hashes (text ++ [c]) =
  if (c =? 10) && significant (open_line [] text) then line_hash (open_line [] text) :: line_hashes text
  else line_hashes text.
Proof.
  unfold line_hashes. rewrite completed_snoc. destruct (c =? 10); cbn [andb]; [|by rewrite app_nil_r].
  rewrite List.filter_app. cbn [List.filter]. destruct (significant _); [|by rewrite app_nil_r].
  by rewrite fmap_app, reverse_app.
Qed.

(** The detector's state after a text. *)
Definition rep_ok (d : agent_repetition_detector) (text : bytes) : Prop :=
  ring_ok d (line_hashes text) /\ rp_cur d = line_hash (open_line [] text) /\
  rp_cur_sig d = zlen (visible (open_line [] text)).

Lemma rep_init_ok : rep_ok AGENT_REP_INIT [].
Proof.
  split; [|done]. split_and!; [done|done|]. intros k Hk. change (zlen (line_hashes [])) with 0 in Hk. lia.
Qed.

Lemma line_hash_snoc line c :
  line_hash (line ++ [c]) = if isspace c then line_hash line else u64 (Z.lxor (line_hash line) c * AGENT_REP_FNV_PRIME).
Proof.
  unfold line_hash. rewrite visible_snoc, fold_left_app. by destruct (isspace c).
Qed.

(** One byte: the state follows the text, and the count is raised exactly by a
    newline that completes a significant line. *)
Lemma rep_byte_ok d worst text c :
  rep_ok d text ->
  let '(d', worst') := rep_byte (d, worst) c in
  rep_ok d' (text ++ [c]) /\
  if (c =? 10) && significant (open_line [] text)
  then exists d1, ring_ok d1 (line_hashes (text ++ [c])) /\ worst' = Z.max worst (agent_repetition_cycles d1)
  else worst' = worst.
Proof.
  intros (Hr & Hcur & Hsig). unfold rep_byte, rep_ok. rewrite line_hashes_snoc, open_line_snoc.
  destruct (Z.eqb_spec c 10) as [->|Hc]; cbn [andb].
  - unfold significant. rewrite <- Hsig. destruct (AGENT_REP_MIN_LINE_LEN <=? rp_cur_sig d).
    + pose proof (ring_push _ _ Hr) as Hp. rewrite <- Hcur. set (d1 := mkRep _ _ _ _) in *.
      split; [split; [exact Hp|done]|]. exists d1. split; [done|].
      destruct (Z.ltb_spec worst (agent_repetition_cycles d1)); lia.
    + split; [split; [exact Hr|done]|done].
  - rewrite line_hash_snoc, visible_snoc. destruct (isspace c); cbn [negb].
    + rewrite app_nil_r. done.
    + rewrite zlen_app. split; [|done]. split; [exact Hr|]. cbn [rp_cur rp_cur_sig]. by rewrite Hcur, Hsig.
Qed.

Lemma rep_state_worst text d w1 w2 : (fold_left rep_byte text (d, w1)).1 = (fold_left rep_byte text (d, w2)).1.
Proof.
  revert d w1 w2. induction text as [|c t IH]; intros d w1 w2; [done|]. cbn [fold_left].
  assert (E : (rep_byte (d, w1) c).1 = (rep_byte (d, w2) c).1).
  { unfold rep_byte. destruct (c =? 10); [|by destruct (negb _)]. by destruct (_ <=? _). }
  destruct (rep_byte (d, w1) c) as [d1 v1], (rep_byte (d, w2) c) as [d2 v2]. cbn in E. subst. apply IH.
Qed.

(** What one call of the feed reports, for [k >= 2] copies. *)
Definition reports (before chunk : bytes) (k : nat) : Prop :=
  exists t rest p, chunk = t ++ [10] ++ rest /\ significant (open_line [] (before ++ t)) = true /\
    (1 <= p <= 4)%nat /\ (k * p <= 32)%nat /\ repeats (line_hashes (before ++ t ++ [10])) p k.

Lemma reports_snoc before chunk c k :
  reports before (chunk ++ [c]) k <->
  reports before chunk k \/
  (c = 10 /\ significant (open_line [] (before ++ chunk)) = true /\
   exists p, (1 <= p <= 4)%nat /\ (k * p <= 32)%nat /\ repeats (line_hashes (before ++ chunk ++ [10])) p k).
Proof.
  split.
  - intros (t & rest & p & E & Hs & H). destruct rest as [|x rest _] using rev_ind.
    + rewrite app_nil_r in E. apply app_inj_tail in E as [-> ->]. right. eauto.
    + left. exists t, rest, p. rewrite !app_assoc in E. apply app_inj_tail in E as [-> _].
      by rewrite <- app_assoc.
  - intros [(t & rest & p & -> & H)|(-> & Hs & p & H)].
    + exists t, (rest ++ [c]), p. split; [by rewrite <- !app_assoc|done].
    + exists chunk, [], p. done.
Qed.

Lemma feed_ok d before chunk k :
  rep_ok d before -> (2 <= k)%nat ->
  rep_ok (agent_repetition_feed d chunk).1 (before ++ chunk) /\
  (Z.of_nat k <= (agent_repetition_feed d chunk).2 <-> reports before chunk k).
Proof.
  intros Hd Hk. unfold agent_repetition_feed. induction chunk as [|c chunk [IH1 IH2]] using rev_ind.
  - rewrite app_nil_r. split; [done|]. cbn. split; [lia|]. intros (t & rest & p & E & _). by destruct t.
  - rewrite fold_left_app. destruct (fold_left rep_byte chunk (d, 0)) as [d1 w1]. cbn [fst snd] in *.
    cbn [fold_left]. pose proof (rep_byte_ok d1 w1 (before ++ chunk) c IH1) as H.
    destruct (rep_byte (d1, w1) c) as [d2 w2]. destruct H as [H1 H2]. rewrite <- app_assoc in H1. split; [done|].
    rewrite reports_snoc, <- IH2. cbn [snd]. destruct (Z.eqb_spec c 10) as [->|Hc]; cbn [andb] in H2.
    + destruct (significant _).
      * destruct H2 as (d3 & Hr & ->). rewrite <- app_assoc in Hr. rewrite Z.max_le_iff, (cycles_spec d3 _ k Hr Hk).
        split; (intros [H|H]; [by left|right]); [by split_and!|by destruct H as (_ & _ & H)].
      * subst w2. split; [by left|]. intros [H|(_ & H & _)]; done.
    + subst w2. split; [by left|]. intros [H|[H _]]; done.
Qed.

(** C26. The repetition detector, fed an answer in any pieces, reports [k] or more
    cycles for a piece exactly when some newline in it completes a significant
    line (four bytes or more that are no space) after which the latest significant
    lines of the whole answer, compared by their hashes, are [k] copies of a block
    of one to four lines, as far as 32 lines reach.  The 32-entry ring loses
    nothing of that, and the cut into pieces does not matter. *)
Theorem repetition_exact earlier chunk k :
  (2 <= k)%nat ->
  let d := fold_left (fun d t => (agent_repetition_feed d t).1) earlier AGENT_REP_INIT in
  Z.of_nat k <= (agent_repetition_feed d chunk).2 <-> reports (concat earlier) chunk k.
Proof.
  intros Hk d. assert (Hd : rep_ok d (concat earlier)); [|by apply feed_ok].
  unfold d. clear d. induction earlier as [|t earlier IH] using rev_ind; [apply rep_init_ok|].
  rewrite fold_left_app, concat_app. cbn. rewrite app_nil_r. by apply (feed_ok _ _ t k).
Qed.

(** ** What the n-gram ban bans *)

Definition recent_ok (r : agent_recent_tokens) (hist : list Z) : Prop :=
  ring_holds AGENT_REPEAT_WINDOW (rt_t r) (rt_count r) (reverse hist).

Lemma recent_push_ok r hist t : recent_ok r hist -> recent_ok (agent_recent_tokens_push r t) (hist ++ [t]).
Proof. intros H. unfold recent_ok. rewrite reverse_app. by apply ring_holds_push. Qed.

Lemma recent_zero_ok : recent_ok recent_zero [].
Proof. split_and!; [done|done|]. intros k Hk. change (zlen (reverse [])) with 0 in Hk. lia. Qed.

Lemma recent_pushes_ok hist : recent_ok (fold_left agent_recent_tokens_push hist recent_zero) hist.
Proof.
  induction hist as [|t hist IH] using rev_ind; [apply recent_zero_ok|].
  rewrite fold_left_app. by apply recent_push_ok.
Qed.

(** The last 256 tokens. *)
Definition window (hist : list Z) : list Z := drop (length hist - 256) hist.

Lemma recent_len_window r hist : recent_ok r hist -> recent_len r = zlen (window hist).
Proof.
  intros (_ & Hc & _). unfold recent_len, window, zlen, AGENT_REPEAT_WINDOW in *.
  rewrite length_reverse in Hc. rewrite length_drop. destruct (Z.ltb_spec (rt_count r) 256); lia.
Qed.

Lemma recent_seq_window r hist : recent_ok r hist -> recent_seq r = window hist.
Proof.
  intros H. pose proof (recent_len_window _ _ H) as Hn. destruct H as (_ & Hc & Hk).
  unfold recent_seq. rewrite Hn. apply list_eq. intros i. rewrite list_lookup_fmap. unfold zlen in *.
  rewrite length_reverse in *. rewrite Nat2Z.id. unfold AGENT_REPEAT_WINDOW in *.
  assert (Hw : length (window hist) = Nat.min 256 (length hist)) by (unfold window; rewrite length_drop; lia).
  destruct (decide (i < length (window hist))%nat) as [Hi|Hi].
  - rewrite lookup_seq_lt by done. cbn. rewrite Hk by lia. rewrite list_lookup_total_alt.
    rewrite reverse_lookup by lia.
    replace (length hist - S (Z.to_nat (Z.of_nat (length (window hist)) - 1 - Z.of_nat i)))%nat
      with (length hist - 256 + i)%nat by lia.
    unfold window. rewrite lookup_drop.
    destruct (lookup_lt_is_Some_2 hist (length hist - 256 + i)) as [x Hx]; [lia|]. by rewrite Hx.
  - rewrite lookup_seq_ge by lia. symmetry. apply lookup_ge_None_2. lia.
Qed.

Lemma add_unseen_nodup out t : NoDup out -> NoDup (add_unseen out t).
Proof.
  intros H. unfold add_unseen. case_bool_decide as Ht; [done|]. apply list.NoDup_app. split_and!; [done| |by apply NoDup_singleton].
  intros x Hx Hx'. apply list_elem_of_singleton in Hx'. by subst.
Qed.

Lemma elem_of_add_unseen out t x : x ∈ add_unseen out t <-> x ∈ out \/ x = t.
Proof.
  unfold add_unseen. case_bool_decide as Ht; [|by rewrite elem_of_app, list_elem_of_singleton].
  split; [by left|]. intros [?|Heq]; by subst.
Qed.

Lemma zlen_add_unseen out t : zlen (add_unseen out t) <= zlen out + 1.
Proof. unfold add_unseen. case_bool_decide; zlen_lia. Qed.

(** [gram] occurs in [l]. *)
Definition infix (gram l : list Z) : Prop := exists pre post, l = pre ++ gram ++ post.

Lemma infix_cons gram x l : infix gram (x :: l) <-> gram `prefix_of` x :: l \/ infix gram l.
Proof.
  split.
  - intros (pre & post & E). destruct pre as [|y pre]; [left; by exists post|right].
    injection E as -> ->. by exists pre, post.
  - intros [[post ->]|(pre & post & ->)]; [by exists [], post|by exists (x :: pre), post].
Qed.

Lemma infix_short gram l : (length l < length gram)%nat -> ~ infix gram l.
Proof. intros Hl (pre & post & ->). rewrite !length_app in Hl. lia. Qed.

Lemma ngram_loop_spec rest tail eos cap out :
  length tail = 3%nat -> NoDup out -> zlen out <= cap ->
  let r := ngram_loop rest tail eos cap out in
  NoDup r /\ zlen r <= cap /\
  (forall t, t ∈ r -> t ∈ out \/ (t <> eos /\ infix (tail ++ [t]) rest)) /\
  (zlen r < cap -> forall t, t ∈ out \/ (t <> eos /\ infix (tail ++ [t]) rest) -> t ∈ r).
Proof.
  intros Ht. revert out. induction rest as [|a rest IH]; intros out Hnd Hcap.
  - cbn. split_and!; [done|done|by left|]. intros _ t [|[_ H]]; [done|].
    exfalso. apply infix_short in H; [done|]. rewrite length_app. cbn. lia.
  - destruct rest as [|b [|c [|cand rest]]].
    1-3: cbn; split_and!; [done|done|by left|]; intros _ t [|[_ H]]; [done|];
         exfalso; apply infix_short in H; [done|]; rewrite length_app; cbn; lia.
    remember (b :: c :: cand :: rest) as rest' eqn:Er.
    assert (Hpre : forall t, (tail ++ [t]) `prefix_of` a :: rest' <-> [a; b; c] = tail /\ t = cand).
    { intros t. subst rest'. destruct tail as [|x [|y [|z [|]]]]; try done. cbn. split.
      - intros [k E]. by injection E as -> -> -> ->.
      - intros [[= -> -> ->] ->]. by exists rest. }
    assert (Hgo : forall out', NoDup out' -> zlen out' <= cap ->
      (forall t, t ∈ out' <-> t ∈ out \/ (t <> eos /\ [a; b; c] = tail /\ t = cand)) ->
      let r := ngram_loop rest' tail eos cap out' in
      NoDup r /\ zlen r <= cap /\
      (forall t, t ∈ r -> t ∈ out \/ (t <> eos /\ infix (tail ++ [t]) (a :: rest'))) /\
      (zlen r < cap -> forall t, t ∈ out \/ (t <> eos /\ infix (tail ++ [t]) (a :: rest')) -> t ∈ r)).
    { intros out' Hnd' Hcap' Hout. destruct (IH out' Hnd' Hcap') as (H1 & H2 & H3 & H4). split_and!; [done|done| |].
      - intros t Hin. rewrite infix_cons, Hpre. apply H3 in Hin as [Hin|[? ?]]; [|tauto]. apply Hout in Hin. tauto.
      - intros Hlt t Hin. apply H4; [done|]. rewrite infix_cons, Hpre in Hin. rewrite Hout. tauto. }
    assert (Hdef : ngram_loop (a :: rest') tail eos cap out =
      if zlen out <? cap then
        if negb (bool_decide ([a; b; c] = tail)) then ngram_loop rest' tail eos cap out
        else if cand =? eos then ngram_loop rest' tail eos cap out
        else ngram_loop rest' tail eos cap (add_unseen out cand)
      else out) by (by subst rest').
    rewrite Hdef. destruct (Z.ltb_spec (zlen out) cap).
    + case_bool_decide as Heq; cbn [negb].
      * destruct (Z.eqb_spec cand eos).
        -- apply Hgo; [done..|]. intros t. split; [by left|]. intros [|(? & _ & ?)]; congruence.
        -- apply Hgo; [by apply add_unseen_nodup|pose proof (zlen_add_unseen out cand); lia|].
           intros t. rewrite elem_of_add_unseen. split; intros [|?]; [by left|right; subst; done|by left|right; tauto].
      * apply Hgo; [done..|]. intros t. split; [by left|]. intros [|(_ & ? & _)]; done.
    + split_and!; [done|done|by left|lia].
Qed.

(** The n-gram ban, after any tokens: the candidates are distinct, at most
    [cap], never the end token, and each would complete a sequence of four tokens
    that is already among the last 256; unless the list is full, every token
    other than the end token that would complete one is on it. *)
Lemma ngram_ban_exact hist eos cap :
  0 <= cap ->
  let r := fold_left agent_recent_tokens_push hist recent_zero in
  let win := window hist in
  let last3 := drop (length win - 3) win in
  let ban := agent_ngram_ban_candidates r eos cap in
  NoDup ban /\ zlen ban <= cap /\
  (forall t, t ∈ ban -> t <> eos /\ infix (last3 ++ [t]) win) /\
  (zlen ban < cap -> forall t, t <> eos -> length last3 = 3%nat -> infix (last3 ++ [t]) win -> t ∈ ban).
Proof.
  intros Hcap r win last3 ban. pose proof (recent_pushes_ok hist) as Hr. fold r in Hr.
  unfold ban, agent_ngram_ban_candidates. rewrite (recent_len_window _ _ Hr), (recent_seq_window _ _ Hr). fold win.
  unfold AGENT_NGRAM_BAN_CONTEXT, zlen. destruct (Z.ltb_spec (Z.of_nat (length win)) (3 + 1)) as [Hlt|Hge].
  - split_and!; [constructor|done|intros t Ht; by apply not_elem_of_nil in Ht|].
    intros _ t _ Hl3 Hin. exfalso. apply infix_short in Hin; [done|]. rewrite length_app. cbn. lia.
  - replace (Z.to_nat (Z.of_nat (length win) - 3)) with (length win - 3)%nat by lia. fold last3.
    assert (Hl3 : length last3 = 3%nat) by (unfold last3; rewrite length_drop; lia).
    destruct (ngram_loop_spec win last3 eos cap [] Hl3 ltac:(constructor) Hcap) as (H1 & H2 & H3 & H4).
    split_and!; [done|done| |].
    + intros t Ht. by apply H3 in Ht as [Ht%not_elem_of_nil|].
    + intros Hlt t Ht _ Hin. apply H4; [done|by right].
Qed.


(** ** When the loop guard stops *)




















(** Commands that agree on their first 127 bytes are one command for the guard. *)
Example long_commands_collide :
  let cmd tail_ := mkToolCall (Some (bs "bash"))
    [mkToolArg (Some (bs "command")) (Some (replicate 130 (ch "a") ++ bs tail_)) true] in
  agent_loop_guard_fingerprint_call (cmd " 1"%string) 128 = agent_loop_guard_fingerprint_call (cmd " 2"%string) 128 /\
  agent_loop_guard_fingerprint_call (cmd " 1"%string) 128 <> None.
Proof. vm_compute. split; [reflexivity|discriminate]. Qed.

(** ** The tail of an output *)

(** The buffer shows the last bytes of [text]: it is still filling from the left,
    or it is full and begins at [tl_start]. *)
Definition tail_ok (t : agent_tail_capture) (text : bytes) : Prop :=
  length (tl_buf t) = tl_cap t /\
  ((tl_start t = 0%nat /\ tl_len t = length text /\ (length text < tl_cap t)%nat /\ take (length text) (tl_buf t) = text) \/
   (tl_len t = tl_cap t /\ (tl_start t < tl_cap t)%nat /\ (tl_cap t <= length text)%nat /\
    drop (tl_start t) (tl_buf t) ++ take (tl_start t) (tl_buf t) = drop (length text - tl_cap t) text)).

Lemma tail_copy_app (b1 x b2 : list Z) :
  (length x <= length b2)%nat -> tail_copy (b1 ++ b2) (length b1) x = b1 ++ x ++ drop (length x) b2.
Proof.
  unfold tail_copy. revert b1 b2. induction x as [|y x IH]; intros b1 b2 Hl; cbn [list_inserts length drop app]; [done|].
  destruct b2 as [|z b2]; [cbn in Hl; lia|]. replace (S (length b1)) with (length (b1 ++ [z])) by (rewrite length_app; cbn; lia).
  rewrite (cons_middle z b1 b2), (app_assoc b1 [z] b2), IH by (cbn in Hl; lia). rewrite <- app_assoc.
  rewrite insert_app_r_alt by lia. rewrite Nat.sub_diag. done.
Qed.

Lemma tail_copy_at (buf x : list Z) pos :
  (pos + length x <= length buf)%nat ->
  tail_copy buf pos x = take pos buf ++ x ++ drop (pos + length x) buf.
Proof.
  intros Hl. rewrite <- (take_drop pos buf) at 1.
  assert (Hp : pos = length (take pos buf)) by (rewrite length_take; lia).
  rewrite Hp at 3. rewrite tail_copy_app by (rewrite length_drop; lia). by rewrite drop_drop.
Qed.

Lemma length_tail_copy buf pos x : length (tail_copy buf pos x) = length buf.
Proof. apply length_inserts. Qed.

(** A full buffer takes a piece that fits before its end. *)
Lemma tail_step t text x :
  tl_len t = tl_cap t -> (0 < tl_cap t)%nat -> tail_ok t text -> (length x <= tl_cap t - tl_start t)%nat ->
  tail_ok (mkTail (tail_copy (tl_buf t) (tl_start t) x) (tl_cap t) ((tl_start t + length x) mod tl_cap t)
                  (tl_len t) (tl_total t)) (text ++ x).
Proof.
  intros Hfull Hcap [Hl [(_ & Hlen & Hlt & _)|(_ & Hs & Hge & Hview)]] Hx; [lia|].
  split; cbn [tl_buf tl_cap tl_start tl_len]; [by rewrite length_tail_copy|]. right.
  rewrite length_app. split_and!; [done|apply Nat.mod_upper_bound; lia|lia|].
  rewrite tail_copy_at by lia. set (s := tl_start t) in *. set (buf := tl_buf t) in *. set (cap := tl_cap t) in *.
  assert (Htext : drop (length text + length x - cap) (text ++ x) = drop (length x) (drop s buf ++ take s buf) ++ x).
  { rewrite Hview, drop_drop, drop_app_le by lia. do 2 f_equal. lia. }
  rewrite Htext, (drop_app_le (drop s buf)) by (rewrite length_drop; lia). rewrite drop_drop.
  assert (Hls : length (take s buf) = s) by (rewrite length_take; lia).
  destruct (decide (s + length x = cap)%nat) as [E|E].
  - rewrite E, Nat.Div0.mod_same. cbn [drop take]. rewrite app_nil_r.
    rewrite (drop_ge buf cap) by lia. cbn. by rewrite app_nil_r.
  - rewrite Nat.mod_small by lia. rewrite (app_assoc (take s buf) x).
    rewrite drop_app_length' by (rewrite length_app; lia). rewrite take_app_length' by (rewrite length_app; lia).
    by rewrite <- app_assoc.
Qed.

Lemma tail_wrap_ok fuel t text s :
  tl_len t = tl_cap t -> (0 < tl_cap t)%nat -> tail_ok t text -> (length s <= fuel)%nat ->
  tail_ok (tail_wrap fuel t s) (text ++ s) /\ tl_cap (tail_wrap fuel t s) = tl_cap t /\
  tl_total (tail_wrap fuel t s) = tl_total t.
Proof.
  revert t text s. induction fuel as [|fuel IH]; intros t text s Hfull Hcap Hok Hf.
  - destruct s; [|cbn in Hf; lia]. by rewrite app_nil_r.
  - destruct s as [|c s]; [by rewrite app_nil_r|]. cbn [tail_wrap]. set (s0 := c :: s) in *.
    assert (Hs0 : length s0 = S (length s)) by done.
    assert (Hst : (tl_start t < tl_cap t)%nat) by (destruct Hok as [_ [(_ & ? & ? & _)|(_ & ? & _)]]; lia).
    assert (Hpos : ((tl_start t + tl_len t) mod tl_cap t = tl_start t)%nat).
    { rewrite Hfull. replace (tl_start t + tl_cap t)%nat with (tl_start t + 1 * tl_cap t)%nat by lia.
      rewrite Nat.Div0.mod_add. by apply Nat.mod_small. }
    rewrite Hpos. set (chunk := if (length s0 <? tl_cap t - tl_start t)%nat then length s0 else (tl_cap t - tl_start t)%nat).
    assert (Hchunk : (0 < chunk <= length s0 /\ chunk <= tl_cap t - tl_start t)%nat).
    { unfold chunk. destruct (Nat.ltb_spec (length s0) (tl_cap t - tl_start t)); lia. }
    assert (Hlt : length (take chunk s0) = chunk) by (rewrite length_take; lia).
    pose proof (tail_step t text (take chunk s0) Hfull Hcap Hok ltac:(lia)) as Hstep. rewrite Hlt in Hstep.
    replace (text ++ s0) with ((text ++ take chunk s0) ++ drop chunk s0) by (by rewrite <- app_assoc, take_drop).
    apply (IH (mkTail _ (tl_cap t) _ (tl_len t) (tl_total t))); [done|done|exact Hstep|].
    rewrite length_drop. lia.
Qed.

Lemma tail_fill t text x :
  tl_start t = 0%nat -> tl_len t = length text -> length (tl_buf t) = tl_cap t -> take (length text) (tl_buf t) = text ->
  (length text + length x <= tl_cap t)%nat -> (0 < tl_cap t)%nat ->
  tail_ok (mkTail (tail_copy (tl_buf t) (length text) x) (tl_cap t) 0 (length text + length x) (tl_total t)) (text ++ x).
Proof.
  intros Hs Hlen Hl Hv Hx Hcap. split; cbn [tl_buf tl_cap tl_start tl_len]; [by rewrite length_tail_copy|].
  rewrite length_app, tail_copy_at, Hv by lia. destruct (decide (length text + length x < tl_cap t)%nat).
  - left. split_and!; [done..|]. rewrite app_assoc. apply take_app_length'. by rewrite length_app.
  - right. split_and!; [lia|lia|lia|]. rewrite drop_0, take_0, app_nil_r.
    replace (length text + length x - tl_cap t)%nat with 0%nat by lia.
    rewrite (drop_ge (tl_buf t)) by lia. by rewrite app_nil_r.
Qed.

(** Before the first byte there is no buffer. *)
Definition tail_rep (cap : nat) (t : agent_tail_capture) (text : bytes) : Prop :=
  tl_cap t = cap /\ tl_total t = zlen text /\
  ((text = [] /\ tl_buf t = [] /\ tl_start t = 0%nat /\ tl_len t = 0%nat) \/ tail_ok t text).

Lemma append_rep block cap t text s :
  (0 < cap <= length block)%nat -> tail_rep cap t text ->
  tail_rep cap (agent_tail_capture_append block t s) (text ++ s).
Proof.
  intros Hcap (Ec & Ht & Hrep). destruct s as [|c s]; [by rewrite app_nil_r|].
  unfold agent_tail_capture_append. set (s0 := c :: s). rewrite Ec.
  destruct (Nat.eqb_spec cap 0) as [|_]; [lia|].
  set (buf := match tl_buf t with [] => take cap block | b => b end).
  assert (Hok : tail_ok (mkTail buf cap (tl_start t) (tl_len t) (zlen (text ++ s0))) text).
  { destruct Hrep as [(-> & Hb & Hs & Hl)|Hok].
    - unfold buf. rewrite Hb, Hs, Hl. split; [cbn; rewrite length_take; lia|]. left. cbn. split_and!; (done || lia).
    - assert (buf = tl_buf t) as ->.
      { unfold buf. destruct Hok as [Hl _]. destruct (tl_buf t); [cbn in Hl; lia|done]. }
      by destruct t; cbn in *; subst. }
  rewrite Ht, <- zlen_app. set (total := zlen (text ++ s0)) in *. clearbody buf. destruct (Nat.leb_spec cap (length s0)).
  { split_and!; [done|done|]. right. split; cbn [tl_buf tl_cap tl_start tl_len].
    - rewrite length_tail_copy. by destruct Hok.
    - right. rewrite length_app. split_and!; [done|lia|lia|]. destruct Hok as [Hl _]. cbn in Hl.
      rewrite drop_0, take_0, app_nil_r, tail_copy_at by (rewrite length_drop; lia). rewrite take_0. cbn [app].
      rewrite length_drop. rewrite (drop_ge buf) by lia. rewrite app_nil_r.
      rewrite drop_app_ge by lia. f_equal. lia. }
  destruct (Nat.ltb_spec (tl_len t) cap) as [Hlt|Hge].
  - destruct Hok as [Hl [(Hs & Hlen & Hlt' & Hv)|(Hfull & _)]]; [|cbn in Hfull; lia]. cbn in Hl, Hs, Hlen, Hlt', Hv.
    rewrite Hs, Hlen, Nat.add_0_l, Nat.mod_small by lia. set (first := if (_ <? _)%nat then _ else _).
    assert (Hf : (first = Nat.min (length s0) (cap - length text))%nat).
    { unfold first. destruct (Nat.ltb_spec (length s0) (cap - length text)); lia. }
    assert (Hchunk : (if (first <? cap - length text)%nat then first else (cap - length text)%nat) = first).
    { destruct (Nat.ltb_spec first (cap - length text)); lia. }
    rewrite Hchunk, Nat.ltb_irrefl.
    pose proof (tail_fill (mkTail buf cap 0 (length text) total) text (take first s0) eq_refl eq_refl Hl Hv) as Hfill.
    cbn [tl_buf tl_cap tl_total] in Hfill. rewrite length_take, Nat.min_l in Hfill by lia. specialize (Hfill ltac:(lia) ltac:(lia)).
    replace (text ++ s0) with ((text ++ take first s0) ++ drop first s0) by (by rewrite <- app_assoc, take_drop).
    destruct (drop first s0) as [|y r] eqn:Ed.
    + cbn [length tail_wrap]. rewrite app_nil_r.
      assert (take first s0 = s0) as E.
      { apply take_ge. assert (El : length (drop first s0) = 0%nat) by (by rewrite Ed). rewrite length_drop in El. lia. }
      rewrite E in Hfill |- *. split_and!; [done|done|by right].
    + assert (first = cap - length text)%nat as Ef.
      { assert (El : length (drop first s0) = S (length r)) by (by rewrite Ed). rewrite length_drop in El. lia. }
      rewrite <- Ed. match type of Hfill with tail_ok ?tt _ => set (t1 := tt) in * end.
      assert (Hf1 : tl_len t1 = tl_cap t1) by (cbn; lia). assert (Hc1 : (0 < tl_cap t1)%nat) by (cbn; lia).
      destruct (tail_wrap_ok (length (drop first s0)) t1 _ (drop first s0) Hf1 Hc1 Hfill ltac:(lia)) as (H1 & H2 & H3).
      split_and!; [done| |by right]. rewrite H3. unfold t1. cbn [tl_total]. unfold total. by rewrite <- app_assoc, take_drop.
  - assert (Hlen : tl_len t = cap).
    { destruct Hok as [_ [(_ & Hlen & Hlt & _)|(Hlen & _)]]; cbn in *; lia. }
    match type of Hok with tail_ok ?tt _ => set (t1 := tt) in * end.
    assert (Hc1 : (0 < tl_cap t1)%nat) by (cbn; lia).
    destruct (tail_wrap_ok (length s0) t1 _ s0 Hlen Hc1 Hok ltac:(lia)) as (H1 & H2 & H3).
    split_and!; [done|done|by right].
Qed.

Lemma take_rep cap t text :
  tail_rep cap t text -> agent_tail_capture_take t = drop (length text - cap) text.
Proof.
  intros (Ec & _ & Hrep). unfold agent_tail_capture_take.
  destruct Hrep as [(-> & Hb & Hs & Hl)|[Hl [(Hs & Hlen & Hlt & Hv)|(Hlen & Hs & Hge & Hv)]]].
  - rewrite Hb, Hs, Hl. destruct (0 <? _)%nat; by rewrite !drop_nil, !take_nil.
  - rewrite Hs, Hlen, Nat.sub_0_r, drop_0. destruct (Nat.ltb_spec (length text) (tl_cap t)); [|lia].
    rewrite Nat.sub_diag, take_0, app_nil_r, Hv. by replace (length text - cap)%nat with 0%nat by lia.
  - rewrite Hlen. subst cap. rewrite <- Hv. destruct (Nat.ltb_spec (tl_cap t) (tl_cap t - tl_start t)); [lia|].
    rewrite take_ge by (rewrite length_drop; lia). do 2 f_equal. lia.
Qed.

(** The tail capture, fed in any pieces: what it hands out is exactly the last
    [cap] bytes of everything appended (all of it while it is shorter), and the
    total is the number of bytes appended. *)
Lemma tail_capture_last block cap pieces :
  (0 < cap <= length block)%nat ->
  let t := fold_left (agent_tail_capture_append block) pieces (mkTail [] cap 0 0 0) in
  let text := concat pieces in
  agent_tail_capture_take t = drop (length text - cap) text /\ tl_total t = zlen text.
Proof.
  intros Hcap t text. assert (Hrep : tail_rep cap t text); [|by split; [apply take_rep|apply Hrep]].
  unfold t, text. clear t text. induction pieces as [|s pieces IH] using rev_ind.
  - split_and!; [done|done|by left].
  - rewrite fold_left_app, concat_app. cbn [concat fold_left]. rewrite app_nil_r. by apply append_rep.
Qed.

(** ** What is elided *)

(** The lines of a text; one that is not ended counts unless it is empty. *)
Definition text_lines (text : bytes) : list bytes :=
  completed [] text ++ match open_line [] text with [] => [] | l => [l] end.

(** Every run of noise lines as one note, [elided] of them seen before. *)
Fixpoint elide_lines (lines : list bytes) (elided : Z) : bytes :=
  match lines with
  | [] => if elided =? 0 then [] else elided_note elided
  | l :: lines =>
      if agent_line_is_noise l then elide_lines lines (elided + 1)
      else (if elided =? 0 then [] else elided_note elided) ++ l ++ nl ++ elide_lines lines 0
  end.

Lemma completed_line cur line rest :
  Forall (fun c => c <> 10) line ->
  completed cur (line ++ 10 :: rest) = (cur ++ line) :: completed [] rest /\
  open_line cur (line ++ 10 :: rest) = open_line [] rest.
Proof.
  intros H. revert cur. induction H as [|c line Hc _ IH]; intros cur; cbn; [by rewrite app_nil_r|].
  destruct (Z.eqb_spec c 10); [done|]. destruct (IH (cur ++ [c])) as [-> ->]. by rewrite <- app_assoc.
Qed.

Lemma open_text cur line :
  Forall (fun c => c <> 10) line -> completed cur line = [] /\ open_line cur line = cur ++ line.
Proof.
  intros H. revert cur. induction H as [|c line Hc _ IH]; intros cur; cbn; [by rewrite app_nil_r|].
  destruct (Z.eqb_spec c 10); [done|]. destruct (IH (cur ++ [c])) as [-> ->]. by rewrite <- app_assoc.
Qed.

Lemma no_newline_span p : Forall (fun c => c <> 10) (take (span_len (fun c => negb (c =? 10)) p) p).
Proof.
  eapply list.Forall_impl; [apply span_len_forall|]. intros c H. by apply negb_true_iff, Z.eqb_neq in H.
Qed.

Lemma elide_loop_ok fuel p out elided changed :
  (length p <= fuel)%nat -> 0 <= elided ->
  let '(out', elided', changed') := elide_loop fuel p out elided changed in
  out' ++ (if elided' =? 0 then [] else elided_note elided') = out ++ elide_lines (text_lines p) elided /\
  changed' = changed || existsb agent_line_is_noise (text_lines p).
Proof.
  revert p out elided changed. induction fuel as [|fuel IH]; intros p out elided changed Hf He.
  { destruct p; [|cbn in Hf; lia]. cbn. by rewrite orb_false_r. }
  destruct p as [|c0 p0]; [cbn; by rewrite orb_false_r|]. set (p := c0 :: p0) in *. cbn [elide_loop]. fold p.
  set (len := span_len _ p). pose proof (no_newline_span p) as Hl. fold len in Hl. set (line := take len p) in *.
  pose proof (take_drop len p) as Hp. fold line in Hp. set (step := if agent_line_is_noise line then _ else _).
  assert (Hstep : let '(o, e, ch) := step in 0 <= e /\ ch = changed || agent_line_is_noise line /\
    forall ls, o ++ elide_lines ls e = out ++ elide_lines (line :: ls) elided).
  { unfold step. cbn [elide_lines]. destruct (agent_line_is_noise line).
    - split; [lia|]. split; [by rewrite orb_true_r|done].
    - split; [lia|]. split; [by rewrite orb_false_r|]. intros ls. destruct (elided =? 0); by rewrite <- !app_assoc. }
  clearbody step line. destruct step as [[o e] ch]. destruct Hstep as (He1 & -> & Ho).
  destruct (drop len p) as [|c rest] eqn:Ed.
  - rewrite app_nil_r in Hp. assert (Ht : text_lines p = [line]).
    { unfold text_lines. rewrite <- Hp in *. destruct (open_text [] line Hl) as [-> ->]. cbn [app].
      by destruct line. }
    rewrite Ht. cbn [existsb]. rewrite orb_false_r. split; [|done]. exact (Ho []).
  - assert (c = 10) as ->.
    { assert (Hc : p !! len = Some c) by (rewrite <- (Nat.add_0_r len), <- lookup_drop, Ed; done).
      apply span_len_stop in Hc. by apply negb_false_iff, Z.eqb_eq in Hc. }
    assert (Ht : text_lines p = line :: text_lines rest).
    { unfold text_lines. rewrite <- Hp. destruct (completed_line [] line rest Hl) as [-> ->]. done. }
    rewrite Ht. cbn [existsb]. rewrite orb_assoc. specialize (IH rest o e (changed || agent_line_is_noise line)).
    destruct (elide_loop fuel rest o e _) as [[o' e'] ch']. rewrite <- Ho. apply IH; [|done].
    apply (f_equal length) in Hp. rewrite length_app in Hp. cbn in Hp, Hf. lia.
Qed.

(** A result keeps its clean lines, in order; each run of noise becomes one note. *)
Lemma elide_noise_exact s :
  agent_elide_noise_lines s =
  (if existsb agent_line_is_noise (text_lines (cstr s)) then Some (elide_lines (text_lines (cstr s)) 0) else None).
Proof.
  unfold agent_elide_noise_lines. destruct (cstr s) as [|c t]; [done|]. set (text := c :: t).
  pose proof (elide_loop_ok (length text) text [] 0 false ltac:(done) ltac:(done)) as H.
  destruct (elide_loop _ text [] 0 false) as [[out elided] changed]. destruct H as [H1 ->]. cbn [orb app] in *.
  destruct (existsb _ _); [|done]. f_equal. rewrite <- H1. destruct (elided =? 0); by rewrite ?app_nil_r.
Qed.
