(* ===== verification/AgentContext.v ===== *)
(** * AgentContext: what the agent keeps in its context window (ds4_agent.c)

    Large tool results are remembered with their place in the transcript; under
    pressure the old ones are archived in context blobs and replaced by a stub
    that names the blob, or the whole conversation is compacted into a summary and
    its recent tail. *)

From S2P Require Import Prelude Ctype Sha Fs ContextBlob Bpe AgentFile.

(** ** The chat side of the engine *)

(** The tokens [ds4_chat_append_message] appends for a role and a text, and those
    of [ds4_tokenize_rendered_chat]. *)
Class ChatEngine := {
  ce_message : bytes -> bytes -> tokens;
  ce_rendered : bytes -> tokens
}.

(** The tokenizer is one. *)
#[export] Instance vocab_chat (v : ds4_vocab) : ChatEngine := {|
  ce_message role text := default [] (ds4_chat_append_message v [] (Some role) (Some text));
  ce_rendered text := default [] (tokenize_rendered_chat_vocab v (Some text))
|}.

(** The code the interface stands for only appends. *)
Lemma vocab_chat_appends v toks role text t :
  ds4_chat_append_message v toks (Some role) (Some text) = Some t ->
  t = toks ++ @ce_message (vocab_chat v) role text.
Proof.
  cbn [ce_message vocab_chat]. unfold ds4_chat_append_message. cbn [default].
  repeat case_match_goal; intros H;
    repeat (apply bind_Some in H as (? & ? & H)); injection H as <-;
    repeat match goal with E : _ = Some _ |- _ => rewrite E; clear E; cbn [mbind option_bind] end; done.
Qed.

Section Context_.
Context `{ChatEngine}.
Context {Session : Type}.

(** ** The transcript and the spans of large tool results *)

Definition AGENT_EVICT_MIN_BYTES : Z := 2048.

Record agent_tool_span := mkToolSpan { ts_start : Z; ts_end : Z; ts_text : bytes }.

(** The fields of the worker that this part reads and writes. *)
Record agent_worker := mkAgentWorker {
  aw_session : Session;
  aw_transcript : tokens;
  aw_tool_spans : list agent_tool_span;
  aw_result_tokens : Z;            (** [tool_result_tokens_since_reminder] *)
  aw_reminder_at : Z;              (** [last_system_prompt_reminder_at] *)
  aw_dirty : bool
}.

Definition agent_worker_note_system_prompt_seen (w : agent_worker) : agent_worker :=
  mkAgentWorker (aw_session w) (aw_transcript w) (aw_tool_spans w) 0 (zlen (aw_transcript w)) (aw_dirty w).

Definition agent_worker_track_tool_span (w : agent_worker) (start end_ : Z) (text : bytes) : agent_worker :=
  if (end_ <=? start) || (strlen text <? AGENT_EVICT_MIN_BYTES) then w
  else mkAgentWorker (aw_session w) (aw_transcript w) (aw_tool_spans w ++ [mkToolSpan start end_ (cstr text)])
                     (aw_result_tokens w) (aw_reminder_at w) (aw_dirty w).

Definition agent_worker_clear_tool_spans (w : agent_worker) : agent_worker :=
  mkAgentWorker (aw_session w) (aw_transcript w) [] (aw_result_tokens w) (aw_reminder_at w) (aw_dirty w).

Definition tool_role : bytes := bs "tool".
Definition system_role : bytes := bs "system".

Definition agent_worker_append_tool_result (w : agent_worker) (text : bytes) : agent_worker :=
  let before := zlen (aw_transcript w) in
  let transcript := aw_transcript w ++ ce_message tool_role (cstr text) in
  let w := mkAgentWorker (aw_session w) transcript (aw_tool_spans w)
             (aw_result_tokens w + (zlen transcript - before)) (aw_reminder_at w) (aw_dirty w) in
  agent_worker_track_tool_span w before (zlen transcript) text.

Definition agent_tokens_append_range (dst src : tokens) (start end_ : Z) : tokens :=
  let start := if start <? 0 then 0 else start in
  let end_ := if zlen src <? end_ then zlen src else end_ in
  dst ++ take (Z.to_nat (end_ - start)) (drop (Z.to_nat start) src).

(** ** Eviction *)

Definition AGENT_EVICT_PRESSURE_PERCENT : Z := 70.
Definition AGENT_EVICT_KEEP_RECENT : Z := 4.

Definition agent_worker_should_evict (ctx frontend_port : Z) (w : agent_worker) : bool :=
  if ctx <=? 0 then false
  else if frontend_port <=? 0 then false
  else if zlen (aw_tool_spans w) <=? AGENT_EVICT_KEEP_RECENT then false
  else (ctx * AGENT_EVICT_PRESSURE_PERCENT) / 100 <=? zlen (aw_transcript w).

(** The one line that stands for an archived result. *)
Definition evict_stub (text id : bytes) : bytes :=
  take 255 (bs "[Old tool result (" ++ dec (zlen text) ++ bs " bytes) archived to free context. " ++
            bs "If needed again: retrieve_context_blob id=" ++ id ++ bs "]").

(** The loop over the spans to evict: the rebuilt transcript, how far the old one
    is copied, the number of bodies replaced. *)
Fixpoint evict_loop (sha_block : bytes) (dir : option bytes) (transcript : tokens) (spans : list agent_tool_span)
    (compacted : tokens) (pos evicted : Z) : IO (tokens * Z * Z) :=
  match spans with
  | [] => ret (compacted, pos, evicted)
  | s :: spans =>
      let compacted := agent_tokens_append_range compacted transcript pos (ts_start s) in
      let! r := ds4_context_blob_put_text sha_block dir (ts_text s) in
      match r with
      | inr _ =>
          evict_loop sha_block dir transcript spans
            (agent_tokens_append_range compacted transcript (ts_start s) (ts_end s)) (ts_end s) evicted
      | inl ref =>
          evict_loop sha_block dir transcript spans
            (compacted ++ ce_message tool_role (evict_stub (ts_text s) (br_id ref))) (ts_end s) (evicted + 1)
      end
  end.

(** [agent_worker_sync_tokens]: whether the session now holds the tokens. *)
Context (sync : Session -> tokens -> bool * Session) (invalidate : Session -> Session).

Definition move_span (offset : Z) (s : agent_tool_span) : agent_tool_span :=
  mkToolSpan (ts_start s + offset) (ts_end s + offset) (ts_text s).

(** [reminder] is the text of [agent_build_system_prompt_reminder]. *)
Definition agent_worker_evict_tool_results (sha_block : bytes) (dir : option bytes) (reminder : bytes)
    (w : agent_worker) : IO (bool * agent_worker) :=
  let evict_n := zlen (aw_tool_spans w) - AGENT_EVICT_KEEP_RECENT in
  let transcript := aw_transcript w in
  let! (compacted, pos, evicted) :=
    evict_loop sha_block dir transcript (take (Z.to_nat evict_n) (aw_tool_spans w)) [] 0 0 in
  let offset := zlen compacted - pos in
  let compacted := agent_tokens_append_range compacted transcript pos (zlen transcript) in
  if evicted =? 0 then ret (true, w)
  else
    let '(ok, session) := sync (aw_session w) compacted in
    if negb ok then
      ret (false, mkAgentWorker (invalidate session) transcript (aw_tool_spans w) (aw_result_tokens w)
                                (aw_reminder_at w) (aw_dirty w))
    else
      let spans := move_span offset <$> drop (Z.to_nat evict_n) (aw_tool_spans w) in
      let transcript := compacted ++ ce_rendered reminder in
      ret (true, agent_worker_note_system_prompt_seen
                   (mkAgentWorker session transcript spans (aw_result_tokens w) (aw_reminder_at w) true)).

(** ** Asking for an archived result *)

(** [strtoull(s, &end, 10)]: the value, [None] in it when it is out of range, and
    what is left; a minus sign negates modulo 2^64. *)
Definition strtoull_end (s : bytes) : option (option Z * bytes) :=
  let p := drop (span_len isspace s) s in
  let '(neg, p) := match p with
                   | c :: p' => if c =? ch "-" then (true, p') else if c =? ch "+" then (false, p') else (false, p)
                   | [] => (false, [])
                   end in
  let n := span_len isdigit p in
  if (n =? 0)%nat then None
  else
    let v := digits_value 0 (take n p) in
    Some (if UINT64_MAX <? v then None else Some (if neg then u64 (- v) else v), drop n p).

Definition agent_parse_u64_default (s : option bytes) (def min max : Z) : option Z :=
  match s with
  | None | Some [] => if (min <=? def) && (def <=? max) then Some def else None
  | Some s =>
      match strtoull_end s with
      | Some (Some v, e) =>
          match drop (span_len isspace e) e with
          | _ :: _ => None
          | [] => if (v <? min) || (max <? v) then None else Some v
          end
      | _ => None
      end
  end.

(** What the tool reports; the text of a blob error is its constructor. *)
Inductive retrieve_result : Type :=
| Retrieved (text : bytes)
| RetrieveRefused (msg : bytes)
| RetrieveFailed (e : blob_error).

Definition retrieve_frame (id : bytes) (offset length_ : Z) (range : bytes) : bytes :=
  let range := cstr range in
  c_snprintf 256 (bs "context_blob id=" ++ cstr id ++ bs " offset=" ++ dec offset ++ bs " bytes=" ++ dec (zlen range) ++
                  bs " requested_length=" ++ dec length_ ++ [10] ++ bs "<context_blob_range>" ++ [10]) ++
  range ++ (match range with [] => [] | _ => if List.last range 10 =? 10 then [] else [10] end) ++
  bs "</context_blob_range>" ++ [10].

(** The count is [compression_retrieve_count]. *)
Definition agent_tool_retrieve_context_blob (dir : option bytes) (frontend_port count : Z) (call : agent_tool_call)
  : IO (retrieve_result * Z) :=
  match agent_tool_arg_value call "id" with
  | None | Some [] => ret (RetrieveRefused (tool_error (bs "retrieve_context_blob requires id")), count)
  | Some id =>
      match agent_parse_u64_default (agent_tool_arg_value call "offset") 0 0 UINT64_MAX with
      | None => ret (RetrieveRefused (tool_error (bs "retrieve_context_blob offset must be a non-negative integer")), count)
      | Some offset =>
          match agent_parse_u64_default (agent_tool_arg_value call "length") 20000 1 200000 with
          | None => ret (RetrieveRefused (tool_error (bs "retrieve_context_blob length must be 1..200000")), count)
          | Some length_ =>
              if frontend_port <=? 0 then
                ret (RetrieveRefused (tool_error
                       (bs "retrieve_context_blob HTTP backend unavailable (FRONTEND_PORT not set)")), count)
              else
                let! r := ds4_context_blob_read_range dir (Some id) offset length_ in
                match r with
                | inr e => ret (RetrieveFailed e, count)
                | inl range => ret (Retrieved (retrieve_frame id offset length_ range), u64 (count + 1))
                end
          end
      end
  end.

(** ** Compaction *)

Definition AGENT_COMPACT_SOFT_PERCENT : Z := 85.
Definition AGENT_COMPACT_MIN_FREE_TOKENS : Z := 8192.
Definition AGENT_COMPACT_TAIL_DIVISOR : Z := 10.
Definition AGENT_COMPACT_TAIL_CAP_TOKENS : Z := 50000.
Definition AGENT_COMPACT_SUMMARY_MAX_TOKENS : Z := 4096.

Definition agent_worker_should_compact (ctx : Z) (w : agent_worker) : bool :=
  let used := zlen (aw_transcript w) in
  if (ctx <=? 0) || (used <=? 0) then false
  else if (ctx * AGENT_COMPACT_SOFT_PERCENT) / 100 <=? used then true
  else
    let free_threshold := AGENT_COMPACT_MIN_FREE_TOKENS in
    let proportional := ctx / 4 in
    let free_threshold := if proportional <? free_threshold then proportional else free_threshold in
    ctx - used <=? free_threshold.

Definition agent_special_token_id (rendered : bytes) : Z :=
  match ce_rendered rendered with [t] => t | _ => -1 end.

(** The first [user_id] in the tokens from [i] on. *)
Fixpoint user_from (rest : tokens) (user_id i : Z) : option Z :=
  match rest with
  | [] => None
  | t :: rest => if t =? user_id then Some i else user_from rest user_id (i + 1)
  end.

Definition user_marker : bytes := bs "<｜User｜>".
Definition think_end_marker : bytes := bs "</think>".
Definition dsml_marker : bytes := bs "｜DSML｜".

Definition agent_compact_tail_start (ctx : Z) (transcript : tokens) (bottom sys_len : Z) : Z :=
  let tail_budget := ctx / AGENT_COMPACT_TAIL_DIVISOR in
  let tail_budget := if AGENT_COMPACT_TAIL_CAP_TOKENS <? tail_budget then AGENT_COMPACT_TAIL_CAP_TOKENS else tail_budget in
  let tail_budget := if tail_budget <? 1 then 1 else tail_budget in
  let target := bottom - tail_budget in
  let target := if target <? sys_len then sys_len else target in
  let user_id := agent_special_token_id user_marker in
  if user_id <? 0 then target
  else default target (user_from (take (Z.to_nat (bottom - target)) (drop (Z.to_nat target) transcript)) user_id target).

(** The engine's decoding: greedy choice, evaluation, text and end token; whether
    the user interrupts before the i-th token. *)
Context (argmax : Session -> Z) (eval : Session -> Z -> bool * Session) (token_text : Z -> bytes) (eos : Z)
        (interrupts : nat -> bool).

Inductive compact_error : Type :=
| CompactNoRoom | CompactInterrupted | CompactEngine | CompactEmpty.

(** A [<] that opened a tool call is taken back. *)
Definition unopen (summary : bytes) : bytes :=
  match reverse summary with c :: r => if c =? ch "<" then reverse r else summary | [] => summary end.

Fixpoint summary_loop (count i : nat) (s : Session) (summary : bytes) : (bytes + compact_error) * Session :=
  match count with
  | O => (inl summary, s)
  | S count =>
      if interrupts i then (inr CompactInterrupted, s)
      else
        let token := argmax s in
        if token =? eos then (inl summary, s)
        else if (token =? agent_special_token_id think_end_marker) || (token =? agent_special_token_id dsml_marker) then
          (inl (if token =? agent_special_token_id dsml_marker then unopen summary else summary), s)
        else
          let '(ok, s) := eval s token in
          if negb ok then (inr CompactEngine, s)
          else summary_loop count (S i) s (summary ++ token_text token)
  end.

Definition summary_message (summary : bytes) : bytes :=
  let m := [10; 10] ++ bs "[ds4-agent compacted earlier conversation. Durable task-state summary follows.]" ++ [10] ++
           summary in
  m ++ (if List.last m 0 =? 10 then [] else [10]) ++
  bs "[End compacted summary. Recent conversation continues verbatim below.]" ++ [10; 10].

(** [sys] are the tokens of the system prompt, [prompt] those of the internal
    request for a summary, as they follow the transcript; [sync_interrupted] tells
    the two failures of the first synchronisation apart; [bash_update] is the note
    on running jobs.  [None]: no error. *)
Definition agent_worker_compact (ctx : Z) (sys prompt : tokens) (sync_interrupted : bool) (bash_update : option bytes)
    (w : agent_worker) : option compact_error * agent_worker :=
  let transcript := aw_transcript w in
  let with_session s := mkAgentWorker s transcript (aw_tool_spans w) (aw_result_tokens w) (aw_reminder_at w) (aw_dirty w) in
  let bottom := zlen transcript in
  if bottom <=? 0 then (None, w)
  else if bottom <=? zlen sys then (None, w)
  else
    let prompt := transcript ++ prompt in
    let summary_room := ctx - zlen prompt - 1 in
    if summary_room <? 256 then (Some CompactNoRoom, w)
    else
      let summary_max := if summary_room <? AGENT_COMPACT_SUMMARY_MAX_TOKENS then summary_room
                         else AGENT_COMPACT_SUMMARY_MAX_TOKENS in
      let '(ok, s) := sync (aw_session w) prompt in
      if negb ok then (Some (if sync_interrupted then CompactInterrupted else CompactEngine), with_session (invalidate s))
      else
        let '(r, s) := summary_loop (Z.to_nat summary_max) 0 s [] in
        match r with
        | inr e => (Some e, with_session (invalidate s))
        | inl summary =>
            match cstr summary with
            | [] => (Some CompactEmpty, with_session (invalidate s))
            | summary =>
                let tail_start := agent_compact_tail_start ctx transcript bottom (zlen sys) in
                let compacted := sys ++ ce_message system_role (summary_message summary) in
                let compacted := agent_tokens_append_range compacted transcript tail_start bottom in
                let '(ok, s) := sync s compacted in
                if negb ok then (Some CompactEngine, with_session (invalidate s))
                else
                  let w := mkAgentWorker s compacted (aw_tool_spans w) (aw_result_tokens w) (aw_reminder_at w) (aw_dirty w) in
                  let w := agent_worker_clear_tool_spans (agent_worker_note_system_prompt_seen w) in
                  (None, match bash_update with
                         | Some b =>
                             let w := agent_worker_append_tool_result w b in
                             mkAgentWorker (aw_session w) (aw_transcript w) (aw_tool_spans w) (aw_result_tokens w)
                                           (aw_reminder_at w) true
                         | None => w
                         end)
            end
        end.

(** Before a turn and before a tool's results go on: eviction when it helps, then
    compaction when the window is still too full. *)
Definition agent_worker_compact_if_needed (sha_block : bytes) (dir : option bytes) (reminder : bytes)
    (ctx frontend_port : Z) (sys prompt : agent_worker -> tokens) (sync_interrupted : bool) (bash_update : option bytes)
    (w : agent_worker) : IO (option compact_error * agent_worker) :=
  let! w := if agent_worker_should_evict ctx frontend_port w
            then let! (_, w) := agent_worker_evict_tool_results sha_block dir reminder w in ret w
            else ret w in
  if negb (agent_worker_should_compact ctx w) then ret (None, w)
  else ret (agent_worker_compact ctx (sys w) (prompt w) sync_interrupted bash_update w).

(** [agent_tool_result_fits_context] with its count of tokens; the sum is of [int]s. *)
Definition agent_tool_result_fits_context (ctx : Z) (w : agent_worker) (result : bytes) (reserve_tokens : Z) : bool * Z :=
  let tokens := zlen (aw_transcript w ++ ce_message tool_role (cstr result)) in
  (tokens + reserve_tokens <? ctx, tokens).
End Context_.

(** ** The transcript as pieces *)

#[local] Arguments sha256_hex _ : simpl never.

Section Facts.
Context `{ChatEngine}.
Context {Session : Type}.

Abbreviation worker := (@agent_worker Session).

(** A large tool result behind the tokens that separate it from the one before. *)
Record piece := mkPiece { pc_gap : tokens; pc_text : bytes }.

Definition tool_message (text : bytes) : tokens := ce_message tool_role text.

Definition lay (pieces : list piece) : tokens := concat ((fun p => pc_gap p ++ tool_message (pc_text p)) <$> pieces).

(** The spans of the pieces when the first begins at [pos]. *)
Fixpoint spans_of (pos : Z) (pieces : list piece) : list agent_tool_span :=
  match pieces with
  | [] => []
  | p :: pieces =>
      let start := pos + zlen (pc_gap p) in
      let end_ := start + zlen (tool_message (pc_text p)) in
      mkToolSpan start end_ (pc_text p) :: spans_of end_ pieces
  end.

(** Every span record names the tokens of exactly its text. *)
Definition spans_ok (w : worker) (pre : tokens) (pieces : list piece) (rest : tokens) : Prop :=
  aw_transcript w = pre ++ lay pieces ++ rest /\ aw_tool_spans w = spans_of (zlen pre) pieces.

Lemma lay_app a b : lay (a ++ b) = lay a ++ lay b.
Proof. unfold lay. by rewrite fmap_app, concat_app. Qed.

Lemma spans_of_app pos a b : spans_of pos (a ++ b) = spans_of pos a ++ spans_of (pos + zlen (lay a)) b.
Proof.
  revert pos. induction a as [|p a IH]; intros pos; cbn [app spans_of].
  - change (zlen (lay [])) with 0. by rewrite Z.add_0_r.
  - rewrite IH. cbn [app]. do 3 f_equal. unfold lay. cbn [fmap list_fmap map concat]. rewrite !zlen_app. lia.
Qed.

Lemma spans_of_move pos d pieces : move_span d <$> spans_of pos pieces = spans_of (pos + d) pieces.
Proof.
  revert pos. induction pieces as [|p ps IH]; intros pos; cbn; [done|]. rewrite IH. unfold move_span. cbn.
  f_equal; [|f_equal; lia]. f_equal; lia.
Qed.

Lemma length_spans_of pos pieces : length (spans_of pos pieces) = length pieces.
Proof. revert pos. induction pieces as [|p ps IH]; intros pos; cbn; [done|]. by rewrite IH. Qed.

(** A new tool result joins the pieces when it is large, the rest when it is not. *)
Lemma append_result_ok w pre pieces rest text :
  spans_ok w pre pieces rest ->
  exists pieces' rest', spans_ok (agent_worker_append_tool_result w text) pre pieces' rest'.
Proof.
  intros [Ht Hs]. unfold agent_worker_append_tool_result, agent_worker_track_tool_span, spans_ok.
  destruct (_ || _); cbn [aw_transcript aw_tool_spans].
  - exists pieces, (rest ++ tool_message (cstr text)). by rewrite Ht, <- !app_assoc.
  - exists (pieces ++ [mkPiece rest (cstr text)]), []. rewrite lay_app, spans_of_app, Hs, app_nil_r. split.
    + rewrite Ht. unfold lay at 3. cbn. by rewrite app_nil_r, <- !app_assoc.
    + f_equal. cbn [spans_of pc_gap pc_text]. f_equal. rewrite Ht, !zlen_app. unfold tool_message. f_equal; lia.
Qed.

(** ** What eviction does *)

(** [q] is [p], or [p] with its result archived under its id and a stub in its place. *)
Definition archived (base : bytes) (fs : files) (p q : piece) : Prop :=
  q = p \/
  (q = mkPiece (pc_gap p) (evict_stub (pc_text p) (BLOB_ID_PREFIX ++ sha256_hex (pc_text p))) /\
   fs !! blob_path base (pc_text p) = Some (pc_text p)).

Lemma append_range_middle (dst a b c : tokens) pos end_ :
  pos = zlen a -> end_ = zlen a + zlen b ->
  agent_tokens_append_range dst (a ++ b ++ c) pos end_ = dst ++ b.
Proof.
  intros -> ->. unfold agent_tokens_append_range. rewrite !zlen_app.
  pose proof (zlen_nonneg a). pose proof (zlen_nonneg b). pose proof (zlen_nonneg c).
  destruct (Z.ltb_spec (zlen a) 0); [lia|]. destruct (Z.ltb_spec (zlen a + (zlen b + zlen c)) (zlen a + zlen b)); [lia|].
  f_equal. replace (zlen a + zlen b - zlen a) with (zlen b) by lia. unfold zlen. rewrite !Nat2Z.id.
  by rewrite drop_app_length, take_app_length.
Qed.

Lemma blob_path_inj base t u : blob_path base t = blob_path base u -> sha256_hex t = sha256_hex u.
Proof.
  unfold blob_path. intros E. apply app_inv_head in E. apply app_inv_head in E. by apply app_inv_tail in E.
Qed.

(** One result: its own blob is the only file that changes. *)
Lemma put_piece sha_block base text w r w' :
  length sha_block = 64%nat ->
  ds4_context_blob_put_text sha_block (Some base) text w = (r, w') ->
  (forall q, q <> blob_path base text -> w_files w' !! q = w_files w !! q) /\
  (forall ref, r = inl ref -> br_id ref = BLOB_ID_PREFIX ++ sha256_hex text /\
     ((w_files w !! blob_path base text = None \/ w_files w !! blob_path base text = Some text) ->
      w_files w' !! blob_path base text = Some text)).
Proof.
  intros Hsb E. pose proof (blob_put_facts sha_block (Some base) text w Hsb) as Hp. rewrite E in Hp.
  destruct Hp as [Hs Hr]. apply since_now in Hs as [Hq _]. split; [exact Hq|].
  intros ref ->. destruct (Hr ref eq_refl) as (Hid & _ & _ & Hc). split; [done|].
  change (default [] (Some base)) with base in Hc. intros [Hn|Hn]; by rewrite Hc, Hn.
Qed.

(** The blobs of the pieces are absent or whole. *)
Definition blobs_honest (base : bytes) (fs : files) (pieces : list piece) : Prop :=
  Forall (fun p => fs !! blob_path base (pc_text p) = None \/ fs !! blob_path base (pc_text p) = Some (pc_text p)) pieces.

Definition distinct_hashes (pieces : list piece) : Prop := NoDup ((fun p => sha256_hex (pc_text p)) <$> pieces).

Lemma other_paths base p pieces :
  distinct_hashes (p :: pieces) -> Forall (fun q => blob_path base (pc_text q) <> blob_path base (pc_text p)) pieces.
Proof.
  unfold distinct_hashes. cbn. intros Hnd. apply list.NoDup_cons in Hnd as [Hni _].
  apply list.Forall_forall. intros q Hq E. apply blob_path_inj in E. apply Hni, list_elem_of_fmap. by exists q.
Qed.

Lemma archived_files base fs fs' p q :
  fs' !! blob_path base (pc_text p) = fs !! blob_path base (pc_text p) -> archived base fs p q -> archived base fs' p q.
Proof. intros E [->|[-> Hc]]; [by left|right]. by rewrite E. Qed.

Lemma evict_loop_ok sha_block base pieces a c compacted evicted w :
  length sha_block = 64%nat -> distinct_hashes pieces -> blobs_honest base (w_files w) pieces ->
  exists out evicted' w',
    evict_loop sha_block (Some base) (a ++ lay pieces ++ c) (spans_of (zlen a) pieces) compacted (zlen a) evicted w =
      ((compacted ++ lay out, zlen a + zlen (lay pieces), evicted'), w') /\
    Forall2 (archived base (w_files w')) pieces out /\ evicted <= evicted' /\ (evicted' = evicted -> out = pieces) /\
    (forall q, Forall (fun p => q <> blob_path base (pc_text p)) pieces -> w_files w' !! q = w_files w !! q).
Proof.
  intros Hsb. revert a compacted evicted w. induction pieces as [|p pieces IH]; intros a compacted evicted w Hnd Hh.
  - exists [], evicted, w. cbn [spans_of evict_loop]. change (lay []) with (@nil Z).
    rewrite app_nil_r, Z.add_0_r. split_and!; [done|constructor|lia|done|done].
  - cbn [spans_of evict_loop ts_start ts_end ts_text]. set (m := tool_message (pc_text p)).
    assert (Elay : lay (p :: pieces) = pc_gap p ++ m ++ lay pieces).
    { unfold lay. cbn. by rewrite <- app_assoc. }
    rewrite Elay. replace (a ++ (pc_gap p ++ m ++ lay pieces) ++ c)
      with (a ++ pc_gap p ++ (m ++ lay pieces ++ c)) by (by rewrite <- !app_assoc).
    rewrite append_range_middle by done.
    destruct (ds4_context_blob_put_text sha_block (Some base) (pc_text p) w) as [r w1] eqn:E.
    destruct (put_piece _ _ _ _ _ _ Hsb E) as [Hq Hr]. unfold io_bind at 1. rewrite E.
    assert (Hother := other_paths base p pieces Hnd).
    assert (Hnd' : distinct_hashes pieces) by (by apply list.NoDup_cons in Hnd as [_ ?]).
    apply Forall_cons_iff in Hh as [Hp Hh].
    assert (Hh1 : blobs_honest base (w_files w1) pieces).
    { apply Forall_forall. intros q Hin. apply list_elem_of_In in Hin. unfold blobs_honest in Hh. rewrite list.Forall_forall in Hh, Hother.
      rewrite Hq by (by apply Hother). by apply Hh. }
    replace (zlen a + zlen (pc_gap p) + zlen m) with (zlen (a ++ pc_gap p ++ m)) by (rewrite !zlen_app; lia).
    replace (a ++ pc_gap p ++ m ++ lay pieces ++ c) with ((a ++ pc_gap p ++ m) ++ lay pieces ++ c)
      by (by rewrite <- !app_assoc).
    assert (Hfin : forall body q e, archived base (w_files w1) p q -> lay [q] = pc_gap p ++ body ->
      (evicted < e \/ (e = evicted /\ q = p)) ->
      exists out evicted' w',
        evict_loop sha_block (Some base) ((a ++ pc_gap p ++ m) ++ lay pieces ++ c)
          (spans_of (zlen (a ++ pc_gap p ++ m)) pieces) (compacted ++ pc_gap p ++ body) (zlen (a ++ pc_gap p ++ m)) e w1 =
          ((compacted ++ lay out, zlen a + zlen (pc_gap p ++ m ++ lay pieces), evicted'), w') /\
        Forall2 (archived base (w_files w')) (p :: pieces) out /\ evicted <= evicted' /\
        (evicted' = evicted -> out = p :: pieces) /\
        (forall q, Forall (fun p => q <> blob_path base (pc_text p)) (p :: pieces) -> w_files w' !! q = w_files w !! q)).
    { intros body q e Hqa Hlq He. destruct (IH (a ++ pc_gap p ++ m) (compacted ++ pc_gap p ++ body) e w1 Hnd' Hh1)
        as (out & ev & w2 & Hrun & Harch & Hle & Hsame & Hfs).
      exists (q :: out), ev, w2. split_and!.
      - rewrite Hrun. change (q :: out) with ([q] ++ out). rewrite lay_app, Hlq, !zlen_app, <- !app_assoc. do 3 f_equal. lia.
      - constructor; [|done]. eapply archived_files; [|exact Hqa]. apply Hfs.
        eapply Forall_impl; [|exact Hother]. intros x Hx. by apply not_eq_sym.
      - lia.
      - intros Hev. destruct He as [|[-> ->]]; [lia|]. by rewrite Hsame.
      - intros x Hx. apply Forall_cons_iff in Hx as [Hx1 Hx2]. by rewrite Hfs, Hq. }
    destruct r as [ref|e].
    + destruct (Hr ref eq_refl) as [Hid Hc]. rewrite Hid, <- (app_assoc compacted).
      eapply (Hfin _ (mkPiece (pc_gap p) _) (evicted + 1)); [right; split; [reflexivity|by apply Hc]| |lia].
      unfold lay. cbn. by rewrite app_nil_r.
    + replace (agent_tokens_append_range (compacted ++ pc_gap p) ((a ++ pc_gap p ++ m) ++ lay pieces ++ c)
        (zlen a + zlen (pc_gap p)) (zlen (a ++ pc_gap p ++ m))) with (compacted ++ pc_gap p ++ m).
      * eapply (Hfin m p evicted); [by left| |by right]. unfold lay. cbn. by rewrite app_nil_r.
      * replace ((a ++ pc_gap p ++ m) ++ lay pieces ++ c) with ((a ++ pc_gap p) ++ m ++ (lay pieces ++ c))
          by (by rewrite <- !app_assoc).
        rewrite append_range_middle by (rewrite !zlen_app; lia). by rewrite <- app_assoc.
Qed.

(** What is archived can be asked for: on files that still hold the blob, with
    nothing failing, the tool answers a call that names the stub's id with the
    range of the text it asks for. *)
Definition retrievable (base : bytes) (fs : files) (p q : piece) : Prop :=
  q = p \/
  exists id, q = mkPiece (pc_gap p) (evict_stub (pc_text p) id) /\
    forall w call port count offset n, w_files w = fs -> quiet w -> 0 < port ->
      agent_tool_arg_value call "id" = Some id ->
      agent_parse_u64_default (agent_tool_arg_value call "offset") 0 0 UINT64_MAX = Some offset ->
      agent_parse_u64_default (agent_tool_arg_value call "length") 20000 1 200000 = Some n ->
      read_ok base (pc_text p) offset n ->
      (agent_tool_retrieve_context_blob (Some base) port count call w).1 =
      (Retrieved (retrieve_frame id offset n (range (pc_text p) offset n)), u64 (count + 1)).

Lemma archived_retrievable base fs p q : archived base fs p q -> retrievable base fs p q.
Proof.
  intros [->|[-> Hc]]; [by left|right]. set (id := BLOB_ID_PREFIX ++ sha256_hex (pc_text p)). exists id. split; [done|].
  intros w call port count offset n Hf Hq Hp Hid Ho Hn Hok. rewrite <- Hf in Hc.
  unfold agent_tool_retrieve_context_blob. rewrite Hid. destruct id as [|x i] eqn:Ei; [done|].
  rewrite Ho, Hn. destruct (Z.leb_spec port 0); [lia|]. unfold io_bind. rewrite <- Ei. unfold id.
  by rewrite (read_range_quiet base (pc_text p) offset n w Hq Hok Hc).
Qed.

Lemma lay_cut_append (out kept : list piece) (a rest : tokens) (pieces : list piece) dst :
  dst = a ++ lay out ->
  agent_tokens_append_range dst (a ++ lay pieces ++ (lay kept ++ rest)) (zlen a + zlen (lay pieces))
    (zlen (a ++ lay pieces ++ (lay kept ++ rest))) = a ++ lay out ++ lay kept ++ rest.
Proof.
  intros ->. replace (a ++ lay pieces ++ (lay kept ++ rest)) with ((a ++ lay pieces) ++ (lay kept ++ rest) ++ [])
    by (by rewrite app_nil_r, <- app_assoc).
  rewrite append_range_middle by (rewrite !zlen_app; change (zlen []) with 0; lia). by rewrite <- app_assoc.
Qed.

Section evict.
Context (sync : Session -> tokens -> bool * Session) (invalidate : Session -> Session).

(** The outcome of an eviction: the transcript is untouched and its spans with it
    (always when the rebuilt one cannot be loaded), or the old results are each
    kept or archived in place, the recent ones are kept, the reminder follows, and
    the remaining spans name their texts in the new transcript. *)
Definition evict_outcome (base : bytes) (reminder : bytes) (w : worker) (pre : tokens) (old kept : list piece)
    (rest : tokens) (ok : bool) (w' : worker) (fs : files) : Prop :=
  (aw_transcript w' = aw_transcript w /\ aw_tool_spans w' = aw_tool_spans w) \/
  (ok = true /\ exists out,
     Forall2 (retrievable base fs) old out /\
     spans_ok w' (pre ++ lay out) kept (rest ++ ce_rendered reminder)).

(** C13. Evicting tool results loses nothing: whichever file calls fail, the old
    results beyond the four most recent are each left as they are or replaced by a
    stub naming a blob from which the exact text can be read back, everything else
    of the transcript is copied token by token, and the span records that remain
    still name exactly their texts; if the session cannot be rebuilt the transcript
    and its spans are untouched.  The stored texts must have distinct SHA-256 sums
    and no torn blob of one of them may be there already. *)
Theorem evict_lossless sha_block base reminder w old kept rest world :
  length sha_block = 64%nat ->
  spans_ok w [] (old ++ kept) rest -> length kept = 4%nat ->
  distinct_hashes old -> blobs_honest base (w_files world) old ->
  let '((ok, w'), world') :=
    agent_worker_evict_tool_results sync invalidate sha_block (Some base) reminder w world in
  evict_outcome base reminder w [] old kept rest ok w' (w_files world').
Proof.
  intros Hsb [Ht Hs] Hk Hnd Hh. destruct (agent_worker_evict_tool_results _ _ _ _ _ _ _) as [[ok w'] world'] eqn:E.
  unfold agent_worker_evict_tool_results in E.
  assert (Hn : Z.to_nat (zlen (aw_tool_spans w) - AGENT_EVICT_KEEP_RECENT) = length old).
  { rewrite Hs. unfold zlen, AGENT_EVICT_KEEP_RECENT. rewrite length_spans_of, length_app. lia. }
  rewrite Hn, Hs, spans_of_app in E.
  rewrite <- (length_spans_of (zlen (@nil Z)) old), take_app_length, drop_app_length in E. cbn [app] in Ht.
  rewrite lay_app, <- app_assoc in Ht.
  destruct (evict_loop_ok sha_block base old [] (lay kept ++ rest) [] 0 world Hsb Hnd Hh)
    as (out & ev & w1 & Hrun & Harch & Hle & Hsame & _).
  rewrite Ht in E. unfold io_bind at 1 in E. cbn [app] in Hrun. change (zlen (@nil Z)) with 0 in *.
  rewrite Hrun in E. cbn [fst snd] in E.
  destruct (Z.eqb_spec ev 0) as [Hev|Hev]; [injection E as <- <- <-; by left|].
  pose proof (lay_cut_append out kept [] rest old (lay out) eq_refl) as Hcut. cbn [app] in Hcut.
  change (zlen (@nil Z)) with 0 in Hcut. rewrite Hcut in E.
  destruct (sync (aw_session w) _) as [[|] s]; cbn [negb] in E; injection E as <- <- <-.
  2:{ left. cbn [aw_transcript aw_tool_spans]. by rewrite Ht, Hs, spans_of_app. }
  right. split; [done|]. exists out. split.
  - eapply list.Forall2_impl; [exact Harch|]. intros p q. apply archived_retrievable.
  - unfold spans_ok, agent_worker_note_system_prompt_seen. cbn [aw_transcript aw_tool_spans app]. split.
    + by rewrite <- !app_assoc.
    + rewrite spans_of_move. f_equal. lia.
Qed.
End evict.

(** ** What compaction keeps *)

Lemma user_from_spec rest user_id i :
  match user_from rest user_id i with
  | Some k => i <= k < i + zlen rest /\ rest !! Z.to_nat (k - i) = Some user_id
  | None => user_id ∉ rest
  end.
Proof.
  revert i. induction rest as [|t rest IH]; intros i; cbn [user_from]; [apply not_elem_of_nil|].
  rewrite zlen_cons. pose proof (zlen_nonneg rest). destruct (Z.eqb_spec t user_id) as [->|Hne].
  - split; [lia|]. by rewrite Z.sub_diag.
  - specialize (IH (i + 1)). destruct (user_from rest user_id (i + 1)) as [k|].
    + destruct IH as [? Hk]. split; [lia|]. by replace (Z.to_nat (k - i)) with (S (Z.to_nat (k - (i + 1)))) by lia.
    + by apply not_elem_of_cons.
Qed.

Definition tail_budget (ctx : Z) : Z := Z.max 1 (Z.min AGENT_COMPACT_TAIL_CAP_TOKENS (ctx / AGENT_COMPACT_TAIL_DIVISOR)).

(** The tail begins behind the system prompt and within the budget, at a user
    message if there is one within it. *)
Lemma tail_start_spec ctx transcript bottom sys_len :
  bottom = zlen transcript -> 0 <= sys_len < bottom ->
  let t := agent_compact_tail_start ctx transcript bottom sys_len in
  let target := Z.max sys_len (bottom - tail_budget ctx) in
  let user_id := agent_special_token_id user_marker in
  target <= t < bottom + 1 /\
  (0 <= user_id -> user_id ∈ drop (Z.to_nat target) transcript -> transcript !! Z.to_nat t = Some user_id).
Proof.
  intros -> Hs t target user_id. unfold t, agent_compact_tail_start. fold user_id.
  set (b1 := if AGENT_COMPACT_TAIL_CAP_TOKENS <? ctx / AGENT_COMPACT_TAIL_DIVISOR then _ else _).
  set (b2 := if b1 <? 1 then 1 else b1).
  assert (Hb : b2 = tail_budget ctx).
  { unfold b2, b1, tail_budget. destruct (Z.ltb_spec AGENT_COMPACT_TAIL_CAP_TOKENS (ctx / AGENT_COMPACT_TAIL_DIVISOR)).
    - unfold AGENT_COMPACT_TAIL_CAP_TOKENS in *. destruct (Z.ltb_spec 50000 1); lia.
    - destruct (Z.ltb_spec (ctx / AGENT_COMPACT_TAIL_DIVISOR) 1); lia. }
  rewrite Hb. assert (Htg : (if zlen transcript - tail_budget ctx <? sys_len then sys_len else zlen transcript - tail_budget ctx) = target).
  { unfold target. destruct (Z.ltb_spec (zlen transcript - tail_budget ctx) sys_len); lia. }
  rewrite Htg. assert (Htb : 1 <= tail_budget ctx) by (unfold tail_budget; lia).
  assert (0 <= target < zlen transcript) by (unfold target; lia).
  assert (Hcut : take (Z.to_nat (zlen transcript - target)) (drop (Z.to_nat target) transcript) = drop (Z.to_nat target) transcript).
  { apply take_ge. rewrite length_drop. unfold zlen. lia. }
  rewrite Hcut. destruct (Z.ltb_spec user_id 0); [split; [lia|lia]|].
  pose proof (user_from_spec (drop (Z.to_nat target) transcript) user_id target) as Hu.
  destruct (user_from _ user_id target) as [k|].
  - change (default target (Some k)) with k. destruct Hu as [Hk Hl]. rewrite zlen_drop in Hk by lia. split; [lia|].
    intros _ _. rewrite lookup_drop in Hl. by replace (Z.to_nat target + Z.to_nat (k - target))%nat with (Z.to_nat k) in Hl by lia.
  - change (default target None) with target. split; [lia|]. by intros _ Hin.
Qed.

Section compact.
Context (sync : Session -> tokens -> bool * Session) (invalidate : Session -> Session).
Context (argmax : Session -> Z) (eval : Session -> Z -> bool * Session) (token_text : Z -> bytes) (eos : Z)
        (interrupts : nat -> bool).

(** C24. Compaction either changes nothing of the conversation (the transcript and
    its spans stay as they are on every failure) or leaves exactly the system
    prompt, one message with a non-empty summary, and a tail of the old transcript
    copied token by token: the tail begins behind the system prompt, is no longer
    than the budget, and begins at a user message whenever the last tokens within
    the budget hold one; the old span records are gone, and a note on running jobs
    may follow. *)
Theorem compact_keeps_tail ctx sys prompt sync_interrupted bash_update w :
  let '(err, w') := agent_worker_compact sync invalidate argmax eval token_text eos interrupts ctx sys prompt
                      sync_interrupted bash_update w in
  let bottom := zlen (aw_transcript w) in
  (aw_transcript w' = aw_transcript w /\ aw_tool_spans w' = aw_tool_spans w /\
   (err = None -> bottom <= zlen sys \/ bottom = 0)) \/
  (err = None /\ exists summary tail_start,
     cstr summary = summary /\ summary <> [] /\
     aw_transcript w' = sys ++ ce_message system_role (summary_message summary) ++
                        drop (Z.to_nat tail_start) (aw_transcript w) ++
                        match bash_update with Some b => ce_message tool_role (cstr b) | None => [] end /\
     Z.max (zlen sys) (bottom - tail_budget ctx) <= tail_start <= bottom /\
     (let user_id := agent_special_token_id user_marker in
      0 <= user_id ->
      user_id ∈ drop (Z.to_nat (Z.max (zlen sys) (bottom - tail_budget ctx))) (aw_transcript w) ->
      aw_transcript w !! Z.to_nat tail_start = Some user_id) /\
     (bash_update = None -> aw_tool_spans w' = [])).
Proof.
  destruct (agent_worker_compact _ _ _ _ _ _ _ _ _ _ _ _ _) as [err w'] eqn:E. unfold agent_worker_compact in E.
  set (bottom := zlen (aw_transcript w)) in *.
  destruct (Z.leb_spec bottom 0) as [H0|H0].
  { injection E as <- <-. left. split_and!; [done..|]. right. pose proof (zlen_nonneg (aw_transcript w)). lia. }
  destruct (Z.leb_spec bottom (zlen sys)) as [H1|H1]; [injection E as <- <-; left; split_and!; [done..|by left]|].
  destruct (_ <? 256); [injection E as <- <-; by left|].
  destruct (sync (aw_session w) _) as [[|] s1]; cbn [negb] in E; [|injection E as <- <-; by left].
  destruct (summary_loop _ _ _ _ _ _ _ s1 _) as [[summary|e] s2]; [|injection E as <- <-; by left].
  assert (Hid : cstr (cstr summary) = cstr summary) by (apply cstr_no_nul, no_nul_cstr). destruct (cstr summary) as [|c sm] eqn:Es; [injection E as <- <-; by left|].
  set (summary' := c :: sm) in *.
  destruct (tail_start_spec ctx (aw_transcript w) bottom (zlen sys) eq_refl) as [Hts Hu].
  { split; [apply zlen_nonneg|lia]. }
  set (ts := agent_compact_tail_start ctx (aw_transcript w) bottom (zlen sys)) in *.
  assert (Hrange : agent_tokens_append_range (sys ++ ce_message system_role (summary_message summary')) (aw_transcript w) ts bottom
    = sys ++ ce_message system_role (summary_message summary') ++ drop (Z.to_nat ts) (aw_transcript w)).
  { unfold agent_tokens_append_range. fold bottom. rewrite Z.ltb_irrefl. pose proof (zlen_nonneg sys).
    destruct (Z.ltb_spec ts 0); [lia|]. rewrite <- app_assoc. do 2 f_equal. apply take_ge. rewrite length_drop.
    unfold bottom, zlen. lia. }
  rewrite Hrange in E. destruct (sync s2 _) as [[|] s3]; cbn [negb] in E; [|injection E as <- <-; by left].
  right. injection E as <- <-. split; [done|]. exists summary', ts. split_and!; [exact Hid|done| |lia|lia|exact Hu|].
  - destruct bash_update as [b|]; cbn [aw_transcript]; [|by rewrite app_nil_r].
    unfold agent_worker_append_tool_result, agent_worker_track_tool_span.
    destruct (_ || _); cbn [aw_transcript agent_worker_clear_tool_spans agent_worker_note_system_prompt_seen]; by rewrite <- !app_assoc.
  - intros ->. done.
Qed.
End compact.
End Facts.
