(* ===== verification/AgentDsml.v ===== *)
(** * AgentDsml: the agent's streaming parser of tool calls (ds4_agent.c)

    The generated text is fed byte by byte; a block of calls is recognised when
    its closing tag is complete.  A selector of the edit tool that is already
    unique in the file is cut short while it is being written. *)

From S2P Require Import Prelude Ctype Fs Dsml AgentFile.

(** ** State *)

Inductive agent_dsml_state : Type :=
| AGENT_DSML_SEARCH | AGENT_DSML_STRUCTURAL | AGENT_DSML_PARAM_VALUE | AGENT_DSML_DONE | AGENT_DSML_ERROR.

#[export] Instance dsml_state_eq_dec : EqDecision agent_dsml_state.
Proof. solve_decision. Defined.

Record agent_dsml_parser := mkParser {
  ap_state : agent_dsml_state;
  ap_search_tail : bytes;
  ap_raw : bytes;
  ap_parse_pos : nat;
  ap_current : agent_tool_call;
  ap_param_name : option bytes;
  ap_param_is_string : bool;
  ap_param_value_start : nat;
  ap_param_close_prefix : bool;
  ap_calls : list agent_tool_call;
  ap_error : bytes
}.

Definition no_call : agent_tool_call := mkToolCall None [].

(** A zeroed structure: [AGENT_DSML_SEARCH] is the first state. *)
Definition agent_dsml_parser_reset : agent_dsml_parser :=
  mkParser AGENT_DSML_SEARCH [] [] 0 no_call None false 0 false [] [].

(** The fields that change together. *)
Definition with_state (st : agent_dsml_state) (p : agent_dsml_parser) : agent_dsml_parser :=
  mkParser st (ap_search_tail p) (ap_raw p) (ap_parse_pos p) (ap_current p) (ap_param_name p) (ap_param_is_string p)
           (ap_param_value_start p) (ap_param_close_prefix p) (ap_calls p) (ap_error p).
Definition with_pos (n : nat) (p : agent_dsml_parser) : agent_dsml_parser :=
  mkParser (ap_state p) (ap_search_tail p) (ap_raw p) n (ap_current p) (ap_param_name p) (ap_param_is_string p)
           (ap_param_value_start p) (ap_param_close_prefix p) (ap_calls p) (ap_error p).
Definition with_raw (raw : bytes) (p : agent_dsml_parser) : agent_dsml_parser :=
  mkParser (ap_state p) (ap_search_tail p) raw (ap_parse_pos p) (ap_current p) (ap_param_name p) (ap_param_is_string p)
           (ap_param_value_start p) (ap_param_close_prefix p) (ap_calls p) (ap_error p).
Definition with_current (c : agent_tool_call) (p : agent_dsml_parser) : agent_dsml_parser :=
  mkParser (ap_state p) (ap_search_tail p) (ap_raw p) (ap_parse_pos p) c (ap_param_name p) (ap_param_is_string p)
           (ap_param_value_start p) (ap_param_close_prefix p) (ap_calls p) (ap_error p).
Definition with_param (name : option bytes) (is_string : bool) (p : agent_dsml_parser) : agent_dsml_parser :=
  mkParser (ap_state p) (ap_search_tail p) (ap_raw p) (ap_parse_pos p) (ap_current p) name is_string
           (ap_param_value_start p) (ap_param_close_prefix p) (ap_calls p) (ap_error p).
Definition with_value_start (n : nat) (p : agent_dsml_parser) : agent_dsml_parser :=
  mkParser (ap_state p) (ap_search_tail p) (ap_raw p) (ap_parse_pos p) (ap_current p) (ap_param_name p) (ap_param_is_string p)
           n (ap_param_close_prefix p) (ap_calls p) (ap_error p).
Definition with_close_prefix (b : bool) (p : agent_dsml_parser) : agent_dsml_parser :=
  mkParser (ap_state p) (ap_search_tail p) (ap_raw p) (ap_parse_pos p) (ap_current p) (ap_param_name p) (ap_param_is_string p)
           (ap_param_value_start p) b (ap_calls p) (ap_error p).

(** [agent_tool_call_add_arg] *)
Definition agent_tool_call_add_arg (c : agent_tool_call) (name value : bytes) (is_string : bool) : agent_tool_call :=
  mkToolCall (tc_name c) (tc_args c ++ [mkToolArg (Some name) (Some value) is_string]).

(** [agent_tool_calls_push(&p->calls, &p->current)]: a call without a name stays
    where it is. *)
Definition agent_tool_calls_push (p : agent_dsml_parser) : agent_dsml_parser :=
  match tc_name (ap_current p) with
  | None => p
  | Some _ =>
      mkParser (ap_state p) (ap_search_tail p) (ap_raw p) (ap_parse_pos p) no_call (ap_param_name p) (ap_param_is_string p)
               (ap_param_value_start p) (ap_param_close_prefix p) (ap_calls p ++ [ap_current p]) (ap_error p)
  end.

Definition agent_dsml_set_error (p : agent_dsml_parser) (msg : bytes) : agent_dsml_parser :=
  mkParser AGENT_DSML_ERROR (ap_search_tail p) (ap_raw p) (ap_parse_pos p) (ap_current p) (ap_param_name p)
           (ap_param_is_string p) (ap_param_value_start p) (ap_param_close_prefix p) (ap_calls p) (c_snprintf 160 msg).

(** ** Tags; all texts are C strings *)

Definition quote : Z := 34.
Definition gt : Z := ch ">".
Definition dsml_open : bytes := bs "<｜DSML｜".
Definition dsml_close : bytes := bs "</｜DSML｜".
Definition dsml_bar : bytes := bs "｜".
Definition is_tag_blank (c : Z) : bool := (c =? 32) || (c =? 9) || (c =? 13) || (c =? 10).
Definition skip_blank (s : bytes) : bytes := drop (span_len is_tag_blank s) s.

Definition agent_parse_attr (tag : bytes) (name : string) : option bytes :=
  match find_sub (bs name ++ [ch "="; quote]) tag with
  | None => None
  | Some p =>
      let p := drop (length (bs name) + 2) p in
      match strchr p quote with
      | None => None
      | Some end_ => Some (take (offset p end_) p)
      end
  end.

Definition agent_dsml_open_tag_is (tag : bytes) (name : string) : bool :=
  let prefix := dsml_open ++ bs name in
  starts_with prefix tag &&
  match drop (length prefix) tag with
  | c :: _ => (c =? gt) || is_tag_blank c
  | [] => false
  end.

(** The length of the closing tag at the front of [s]. *)
Definition agent_dsml_close_tag_at (s : bytes) (name : string) : option nat :=
  match strip_prefix (dsml_close ++ bs name) s with
  | None => None
  | Some p =>
      let p := skip_blank p in
      let p := default p (strip_prefix dsml_bar p) in
      let p := skip_blank p in
      match p with
      | c :: p' => if c =? gt then Some (offset s p') else None
      | [] => None
      end
  end.

(** Where the first closing tag begins, and its length; every pass takes a byte. *)
Fixpoint find_close_loop (fuel : nat) (s : bytes) (name : string) (at_ : nat) : option (nat * nat) :=
  match fuel with
  | O => None
  | S fuel =>
      match find_sub dsml_close s with
      | None => None
      | Some p =>
          let at_ := (at_ + offset s p)%nat in
          match agent_dsml_close_tag_at p name with
          | Some n => Some (at_, n)
          | None => find_close_loop fuel (drop 1 p) name (S at_)
          end
      end
  end.

Definition agent_dsml_find_close_tag (s : bytes) (name : string) : option (nat * nat) :=
  find_close_loop (S (length s)) s name 0.

(** [Some complete]: the tail may be, or is, the closing tag of a parameter. *)
Definition agent_dsml_parameter_close_tail (tail : bytes) : option bool :=
  let prefix := bs "</｜DSML｜parameter" in
  if (length tail <=? length prefix)%nat then (if starts_with tail prefix then Some false else None)
  else
    match strip_prefix prefix tail with
    | None => None
    | Some r =>
        let r := skip_blank r in
        if negb (length r =? 0)%nat && (length r <=? length dsml_bar)%nat && starts_with r dsml_bar then Some false
        else
          let r := skip_blank (default r (strip_prefix dsml_bar r)) in
          match r with
          | [] => Some false
          | c :: r' => if (c =? gt) && (length r' =? 0)%nat then Some true else None
          end
    end.

(** The text from the last [<] on. *)
Definition last_lt (value : bytes) : option bytes :=
  let r := reverse value in
  let n := span_len (fun c => negb (c =? ch "<")) r in
  if (n <? length value)%nat then Some (drop (length value - S n) value) else None.

Definition agent_dsml_update_param_close_prefix (p : agent_dsml_parser) : agent_dsml_parser :=
  let flag :=
    if bool_decide (ap_state p <> AGENT_DSML_PARAM_VALUE) || (length (ap_raw p) <=? ap_param_value_start p)%nat then false
    else
      match last_lt (drop (ap_param_value_start p) (ap_raw p)) with
      | None => false
      | Some tail =>
          if (64 <? length tail)%nat then false
          else (length dsml_close <=? length tail)%nat && starts_with dsml_close tail &&
               bool_decide (agent_dsml_parameter_close_tail tail = Some false)
      end in
  with_close_prefix flag p.

(** ** Parsing *)

(** What is left to parse, as a C string. *)
Definition unparsed (p : agent_dsml_parser) : bytes := cstr (drop (ap_parse_pos p) (ap_raw p)).

(** One pass of the loop; [None]: it returns. *)
Definition dsml_step (p : agent_dsml_parser) : agent_dsml_parser * bool :=
  match ap_state p with
  | AGENT_DSML_PARAM_VALUE =>
      let value := cstr (drop (ap_param_value_start p) (ap_raw p)) in
      match agent_dsml_find_close_tag value "parameter" with
      | None => (p, false)
      | Some (len, tag_len) =>
          let p := with_current (agent_tool_call_add_arg (ap_current p) (default [] (ap_param_name p)) (take len value)
                                   (ap_param_is_string p)) p in
          let p := with_close_prefix false (with_param None (ap_param_is_string p) p) in
          (with_state AGENT_DSML_STRUCTURAL (with_pos (ap_param_value_start p + len + tag_len) p), true)
      end
  | AGENT_DSML_STRUCTURAL =>
      let p := with_pos (ap_parse_pos p + span_len is_tag_blank (drop (ap_parse_pos p) (ap_raw p))) p in
      if (length (ap_raw p) <=? ap_parse_pos p)%nat then (p, false)
      else
        let s := unparsed p in
        match agent_dsml_close_tag_at s "tool_calls" with
        | Some close_len =>
            let p := agent_tool_calls_push p in
            (with_state AGENT_DSML_DONE (with_pos (ap_parse_pos p + close_len) p), false)
        | None =>
            match agent_dsml_close_tag_at s "invoke" with
            | Some close_len => let p := agent_tool_calls_push p in (with_pos (ap_parse_pos p + close_len) p, true)
            | None =>
                match strchr s gt with
                | None => (p, false)
                | Some tag_end =>
                    let tag_len := S (offset s tag_end) in
                    let tag := take tag_len s in
                    if agent_dsml_open_tag_is tag "invoke" then
                      match agent_parse_attr tag "name" with
                      | None => (agent_dsml_set_error (with_current no_call p) (bs "tool invoke without name"), false)
                      | Some name => (with_pos (ap_parse_pos p + tag_len) (with_current (mkToolCall (Some name) []) p), true)
                      end
                    else if agent_dsml_open_tag_is tag "parameter" then
                      let is_string := match agent_parse_attr tag "string" with
                                       | Some v => bytes_eqb v (bs "true") | None => false end in
                      let name := agent_parse_attr tag "name" in
                      let p := with_param name is_string p in
                      match name with
                      | None => (agent_dsml_set_error p (bs "tool parameter without name"), false)
                      | Some _ =>
                          let p := with_pos (ap_parse_pos p + tag_len) p in
                          (with_state AGENT_DSML_PARAM_VALUE
                             (with_close_prefix false (with_value_start (ap_parse_pos p) p)), true)
                      end
                    else
                      (agent_dsml_set_error p (bs "unexpected DSML tag: " ++ take 80 tag), false)
                end
            end
        end
  | _ => (p, false)
  end.

(** Every pass that goes on has taken a byte of the text. *)
Fixpoint dsml_parse_loop (fuel : nat) (p : agent_dsml_parser) : agent_dsml_parser :=
  match fuel with
  | O => p
  | S fuel => let '(p, go) := dsml_step p in if go : bool then dsml_parse_loop fuel p else p
  end.

Definition agent_dsml_parse (p : agent_dsml_parser) : agent_dsml_parser := dsml_parse_loop (S (length (ap_raw p))) p.

Definition dsml_start : bytes := bs "<｜DSML｜tool_calls>".

Definition agent_dsml_start (p : agent_dsml_parser) : agent_dsml_parser :=
  mkParser AGENT_DSML_STRUCTURAL [] (ap_raw p ++ dsml_start) (length dsml_start) (ap_current p) (ap_param_name p)
           (ap_param_is_string p) (ap_param_value_start p) (ap_param_close_prefix p) (ap_calls p) (ap_error p).

(** The bytes searched for the opening marker, of which 64 are kept. *)
Definition push_tail (tail : bytes) (c : Z) : bytes :=
  (if (length tail =? 64)%nat then drop 1 tail else tail) ++ [c].

Definition with_tail (t : bytes) (p : agent_dsml_parser) : agent_dsml_parser :=
  mkParser (ap_state p) t (ap_raw p) (ap_parse_pos p) (ap_current p) (ap_param_name p) (ap_param_is_string p)
           (ap_param_value_start p) (ap_param_close_prefix p) (ap_calls p) (ap_error p).

Definition dsml_feed_byte (p : agent_dsml_parser) (c : Z) : agent_dsml_parser :=
  match ap_state p with
  | AGENT_DSML_SEARCH =>
      let p := with_tail (push_tail (ap_search_tail p) c) p in
      let tail := ap_search_tail p in
      if (length dsml_start <=? length tail)%nat && bytes_eqb (drop (length tail - length dsml_start) tail) dsml_start
      then agent_dsml_start p else p
  | _ =>
      let p := agent_dsml_parse (with_raw (ap_raw p ++ [c]) p) in
      match ap_state p with
      | AGENT_DSML_PARAM_VALUE => agent_dsml_update_param_close_prefix p
      | _ => with_close_prefix false p
      end
  end.

Definition agent_dsml_feed (p : agent_dsml_parser) (s : bytes) : agent_dsml_parser :=
  match ap_state p with
  | AGENT_DSML_DONE | AGENT_DSML_ERROR => p
  | _ => fold_left dsml_feed_byte s p
  end.

(** ** Cutting an edit selector short *)

Definition agent_edit_old_may_be_closing_tag (text : bytes) : bool :=
  match skip_blank text with c :: _ => c =? ch "<" | [] => false end.

Definition agent_edit_old_is_only_space (text : bytes) : bool := forallb is_tag_blank text.

(** The count of non-empty lines so far, and whether the current one has text. *)
Definition mature_byte (st : Z * bool) (c : Z) : Z * bool :=
  let '(lines, has_text) := st in
  if c =? 10 then (if has_text : bool then lines + 1 else lines, false)
  else if negb (isspace c) then (lines, true) else (lines, has_text).

Definition agent_edit_old_prefix_mature_for_upto (old : bytes) : bool :=
  if zlen old <? AGENT_EDIT_UPTO_MIN_PREFIX_BYTES then false
  else AGENT_EDIT_UPTO_MIN_PREFIX_LINES <=? (fold_left mature_byte old (0, false)).1.

Definition is_line_blank (c : Z) : bool := (c =? 32) || (c =? 9) || (c =? 13).

Definition agent_edit_old_ready_for_upto (old : bytes) : bool :=
  if (length old =? 0)%nat || contains upto_marker (cstr old) then false
  else if negb (agent_edit_old_prefix_mature_for_upto old) then false
  else
    let r := reverse old in
    match drop (span_len is_line_blank r) r with c :: _ => c =? 10 | [] => false end.

Record agent_edit_upto_forcer := mkForcer { uf_active : bool; uf_done : bool }.

Definition agent_edit_upto_forcer_should_replace (strerror : world -> bytes) (forcer : agent_edit_upto_forcer)
    (p : agent_dsml_parser) (next_text : bytes) : IO (bool * agent_edit_upto_forcer) :=
  let in_edit_old :=
    bool_decide (ap_state p = AGENT_DSML_PARAM_VALUE) &&
    (match tc_name (ap_current p) with Some n => c_streq n (bs "edit") | None => false end) &&
    (match ap_param_name p with Some n => c_streq n (bs "old") | None => false end) in
  if negb in_edit_old then ret (false, mkForcer false false)
  else
    let forcer := if negb (uf_active forcer) then mkForcer true false else forcer in
    if uf_done forcer then ret (false, forcer)
    else if agent_edit_old_may_be_closing_tag next_text || agent_edit_old_is_only_space next_text
    then ret (false, forcer)
    else
      match agent_tool_arg_value (ap_current p) "path" with
      | None | Some [] => ret (false, forcer)
      | Some path =>
          if (length (ap_raw p) <? ap_param_value_start p)%nat then ret (false, forcer)
          else
            let old := drop (ap_param_value_start p) (ap_raw p) in
            if negb (agent_edit_old_ready_for_upto old) then ret (false, forcer)
            else
              let! r := agent_read_file_bytes strerror path 256 in
              match r with
              | inr _ => ret (false, forcer)
              | inl data =>
                  match agent_find_unique data old "old prefix" with
                  | inl _ => ret (true, mkForcer (uf_active forcer) true)
                  | inr _ => ret (false, forcer)
                  end
              end
      end.
