(* ===== verification/AgentDsmlFacts.v ===== *)
(** * AgentDsmlFacts: what the agent's streaming parser reads back

    The text of a block of calls, written the way the model is told to write
    it, is read back as those calls, whatever stands before and after it and
    however the stream is cut. *)

From S2P Require Import Prelude Ctype Fs Dsml AgentFile AgentDsml.

(** ** Calls as the model writes them *)

Record written_param := mkParam { wp_name : bytes; wp_value : bytes; wp_is_string : bool }.
Record written_call := mkWritten { wc_name : bytes; wc_params : list written_param }.

Definition dquote : bytes := [quote].
Definition param_close : bytes := bs "</｜DSML｜parameter>".
Definition invoke_close : bytes := bs "</｜DSML｜invoke>".
Definition calls_close : bytes := bs "</｜DSML｜tool_calls>".

Definition invoke_tag (name : bytes) : bytes := bs "<｜DSML｜invoke name=" ++ dquote ++ name ++ dquote ++ bs ">".
Definition param_tag (p : written_param) : bytes :=
  bs "<｜DSML｜parameter name=" ++ dquote ++ wp_name p ++ dquote ++ bs " string=" ++ dquote ++
  (if wp_is_string p then bs "true" else bs "false") ++ dquote ++ bs ">".

Definition write_param (p : written_param) : bytes := param_tag p ++ wp_value p ++ param_close ++ nl.
Definition write_call (c : written_call) : bytes :=
  invoke_tag (wc_name c) ++ nl ++ concat (write_param <$> wc_params c) ++ invoke_close ++ nl.
Definition write_calls (cs : list written_call) : bytes :=
  dsml_start ++ nl ++ concat (write_call <$> cs) ++ calls_close.

(** The calls they stand for. *)
Definition read_param (p : written_param) : agent_tool_arg :=
  mkToolArg (Some (wp_name p)) (Some (wp_value p)) (wp_is_string p).
Definition read_call (c : written_call) : agent_tool_call :=
  mkToolCall (Some (wc_name c)) (read_param <$> wc_params c).

(** A name fits between quotes; a value does not hold the start of a closing tag. *)
Definition name_ok (n : bytes) : Prop := Forall (fun c => c <> 0 /\ c <> quote /\ c <> gt /\ c <> ch "=") n.
Definition value_ok (v : bytes) : Prop := no_nul v /\ forall j, ~ occurs v dsml_close j.
Definition param_ok (p : written_param) : Prop := name_ok (wp_name p) /\ value_ok (wp_value p).
Definition call_ok (c : written_call) : Prop := name_ok (wc_name c) /\ Forall param_ok (wc_params c).

(** ** Tags that are not complete yet *)

Ltac parser_fields :=
  cbn [ap_state ap_raw ap_parse_pos ap_search_tail ap_current ap_param_name ap_param_is_string
       ap_param_value_start ap_param_close_prefix ap_calls ap_error].

Definition no_gt (s : bytes) : Prop := Forall (fun c => c <> gt) s.

Lemma strchr_none s c : Forall (fun x => x <> c) s -> strchr s c = None.
Proof.
  induction 1 as [|x s Hx _ IH]; cbn; [done|]. destruct (Z.eqb_spec x c); [done|]. exact IH.
Qed.

Lemma strchr_at_first s c r : Forall (fun x => x <> c) s -> strchr (s ++ c :: r) c = Some (c :: r).
Proof.
  induction 1 as [|x s Hx _ IH]; cbn; [by rewrite Z.eqb_refl|]. by destruct (Z.eqb_spec x c).
Qed.

Lemma strip_prefix_gt p s r : strip_prefix p s = Some r -> no_gt s -> no_gt r.
Proof. intros E H. apply strip_prefix_sound in E as ->. by apply Forall_app in H as [_ H]. Qed.

Lemma skip_blank_gt s : no_gt s -> no_gt (skip_blank s).
Proof. intros H. by apply Forall_drop. Qed.

Lemma close_tag_none s name : no_gt s -> agent_dsml_close_tag_at s name = None.
Proof.
  intros H. unfold agent_dsml_close_tag_at. destruct (strip_prefix _ s) as [p|] eqn:E; [|done].
  apply strip_prefix_gt in E; [|done]. apply skip_blank_gt in E.
  assert (Hd : no_gt (default (skip_blank p) (strip_prefix dsml_bar (skip_blank p)))).
  { destruct (strip_prefix dsml_bar (skip_blank p)) as [r|] eqn:Er; [|exact E]. by eapply strip_prefix_gt. }
  apply skip_blank_gt in Hd. destruct (skip_blank (default _ _)) as [|c r]; [done|].
  apply Forall_cons_iff in Hd as [Hc _]. by destruct (Z.eqb_spec c gt).
Qed.

(** The state between two tags, everything parsed. *)
Definition idle (raw : bytes) (cur : agent_tool_call) (pn : option bytes) (iss : bool) (vs : nat)
    (calls : list agent_tool_call) : agent_dsml_parser :=
  mkParser AGENT_DSML_STRUCTURAL [] raw (length raw) cur pn iss vs false calls [].

(** The state inside a tag of which [x] is read. *)
Definition pending (raw x : bytes) (cur : agent_tool_call) (pn : option bytes) (iss : bool) (vs : nat)
    (calls : list agent_tool_call) : agent_dsml_parser :=
  mkParser AGENT_DSML_STRUCTURAL [] (raw ++ x) (length raw) cur pn iss vs false calls [].

Lemma parse_stop p p' : dsml_step p = (p', false) -> agent_dsml_parse p = p'.
Proof. intros E. unfold agent_dsml_parse. cbn [dsml_parse_loop]. by rewrite E. Qed.

Lemma parse_go p p1 p' :
  ap_raw p <> [] -> dsml_step p = (p1, true) -> dsml_step p1 = (p', false) -> agent_dsml_parse p = p'.
Proof.
  intros Hr E1 E2. unfold agent_dsml_parse. destruct (ap_raw p); [done|]. cbn [length dsml_parse_loop].
  by rewrite E1, E2.
Qed.

Lemma idle_step raw cur pn iss vs calls :
  dsml_step (idle raw cur pn iss vs calls) = (idle raw cur pn iss vs calls, false).
Proof.
  unfold dsml_step, idle. cbn [ap_state ap_parse_pos ap_raw with_pos]. rewrite drop_all. cbn [span_len].
  rewrite Nat.add_0_r. destruct (Nat.leb_spec (length raw) (length raw)); [done|lia].
Qed.

(** The pass over an unfinished or finished tag [x] that does not begin with a blank. *)
Lemma tag_unparsed raw x cur pn iss vs calls :
  no_nul x -> unparsed (pending raw x cur pn iss vs calls) = x.
Proof.
  intros Hn. unfold unparsed, pending. cbn [ap_parse_pos ap_raw]. by rewrite drop_app_length, cstr_no_nul.
Qed.

Definition starts_tag (x : bytes) : Prop := match x with c :: _ => is_tag_blank c = false | [] => False end.

Lemma pending_pos raw x cur pn iss vs calls :
  starts_tag x ->
  with_pos (ap_parse_pos (pending raw x cur pn iss vs calls) +
            span_len is_tag_blank (drop (ap_parse_pos (pending raw x cur pn iss vs calls))
                                        (ap_raw (pending raw x cur pn iss vs calls))))
    (pending raw x cur pn iss vs calls) = pending raw x cur pn iss vs calls /\
  (length (raw ++ x) <=? length raw)%nat = false.
Proof.
  intros Hx. unfold pending. cbn [ap_parse_pos ap_raw]. rewrite drop_app_length. destruct x as [|c x]; [done|].
  cbn [span_len]. cbn in Hx. rewrite Hx, Nat.add_0_r. split; [done|]. apply Nat.leb_gt. rewrite length_app. cbn. lia.
Qed.

Lemma pending_step raw x cur pn iss vs calls :
  no_nul x -> no_gt x -> starts_tag x ->
  dsml_step (pending raw x cur pn iss vs calls) = (pending raw x cur pn iss vs calls, false).
Proof.
  intros Hn Hg Hx. destruct (pending_pos raw x cur pn iss vs calls Hx) as [Hp Hl].
  unfold dsml_step. change (ap_state (pending raw x cur pn iss vs calls)) with AGENT_DSML_STRUCTURAL. cbv iota zeta.
  rewrite Hp. change (length (ap_raw (pending raw x cur pn iss vs calls)) <=? ap_parse_pos (pending raw x cur pn iss vs calls))%nat
    with (length (raw ++ x) <=? length raw)%nat. rewrite Hl, tag_unparsed, !close_tag_none, strchr_none by done. done.
Qed.

Lemma feed_structural p c :
  ap_state p = AGENT_DSML_STRUCTURAL ->
  dsml_feed_byte p c =
    (let p := agent_dsml_parse (with_raw (ap_raw p ++ [c]) p) in
     match ap_state p with
     | AGENT_DSML_PARAM_VALUE => agent_dsml_update_param_close_prefix p
     | _ => with_close_prefix false p
     end).
Proof. intros E. unfold dsml_feed_byte. by rewrite E. Qed.

Lemma feed_pending_byte raw x c cur pn iss vs calls :
  no_nul (x ++ [c]) -> no_gt (x ++ [c]) -> starts_tag (x ++ [c]) ->
  dsml_feed_byte (pending raw x cur pn iss vs calls) c = pending raw (x ++ [c]) cur pn iss vs calls.
Proof.
  intros Hn Hg Hx. rewrite feed_structural by done.
  assert (E : with_raw (ap_raw (pending raw x cur pn iss vs calls) ++ [c]) (pending raw x cur pn iss vs calls)
    = pending raw (x ++ [c]) cur pn iss vs calls) by (unfold pending, with_raw; cbn; by rewrite <- app_assoc).
  rewrite E, (parse_stop _ _ (pending_step raw (x ++ [c]) cur pn iss vs calls Hn Hg Hx)). done.
Qed.

Lemma feed_pending raw x y cur pn iss vs calls :
  no_nul (x ++ y) -> no_gt (x ++ y) -> starts_tag (x ++ y) ->
  fold_left dsml_feed_byte y (pending raw x cur pn iss vs calls) = pending raw (x ++ y) cur pn iss vs calls.
Proof.
  revert x. induction y as [|c y IH]; intros x Hn Hg Hx; [by rewrite app_nil_r|]. cbn [fold_left].
  replace (x ++ c :: y) with ((x ++ [c]) ++ y) in * by (by rewrite <- app_assoc).
  rewrite feed_pending_byte; [apply IH; done|..].
  - by apply Forall_app in Hn as [? _].
  - by apply Forall_app in Hg as [? _].
  - destruct x; [|done]. done.
Qed.

(** A whole tag: nothing happens before its [>]. *)
Lemma feed_tag raw body cur pn iss vs calls p1 p' :
  no_nul (body ++ [gt]) -> no_gt body -> starts_tag body ->
  dsml_step (pending raw (body ++ [gt]) cur pn iss vs calls) = (p1, true) -> dsml_step p1 = (p', false) ->
  fold_left dsml_feed_byte (body ++ [gt]) (idle raw cur pn iss vs calls) =
    match ap_state p' with
    | AGENT_DSML_PARAM_VALUE => agent_dsml_update_param_close_prefix p'
    | _ => with_close_prefix false p'
    end.
Proof.
  intros Hn Hg Hx E1 E2. rewrite fold_left_app.
  assert (Hi : idle raw cur pn iss vs calls = pending raw [] cur pn iss vs calls) by (unfold idle, pending; by rewrite app_nil_r).
  rewrite Hi, (feed_pending raw [] body) by (by apply Forall_app in Hn as [? _]). cbn [fold_left app].
  rewrite feed_structural by done.
  assert (E : with_raw (ap_raw (pending raw body cur pn iss vs calls) ++ [gt]) (pending raw body cur pn iss vs calls)
    = pending raw (body ++ [gt]) cur pn iss vs calls) by (unfold pending, with_raw; cbn; by rewrite <- app_assoc).
  rewrite E. erewrite parse_go; [|cbn; by destruct raw, body|exact E1|exact E2]. done.
Qed.

(** ** Attributes *)

Lemma name_no_quote n : name_ok n -> Forall (fun c => c <> quote) n.
Proof. intros H. eapply list.Forall_impl; [exact H|]. by intros c (_ & ? & _). Qed.

Lemma name_no_eq n : name_ok n -> Forall (fun c => c <> ch "=") n.
Proof. intros H. eapply list.Forall_impl; [exact H|]. by intros c (_ & _ & _ & ?). Qed.

Lemma starts_with_name pat s r :
  Forall (fun c => c <> quote) pat -> Forall (fun c => c <> ch "=") s ->
  starts_with (pat ++ [ch "="; quote]) (s ++ quote :: r) = false.
Proof.
  intros Hp. revert s. induction Hp as [|a pat Ha _ IH]; intros s Hs.
  - destruct Hs as [|c s Hc Hs]; [done|]. cbn [app starts_with].
    destruct (Z.eqb_spec (ch "=") c); [congruence|done].
  - destruct Hs as [|c s Hc Hs]; cbn [app starts_with].
    + destruct (Z.eqb_spec a quote); [done|done].
    + rewrite IH by done. by rewrite andb_false_r.
Qed.

Lemma find_sub_cons_false pat c t : starts_with pat (c :: t) = false -> find_sub pat (c :: t) = find_sub pat t.
Proof. intros E. cbn [find_sub]. by rewrite E. Qed.

(** The search for an attribute runs over a name. *)
Lemma find_attr_skip pat s r :
  Forall (fun c => c <> quote) pat -> Forall (fun c => c <> ch "=") s ->
  find_sub (pat ++ [ch "="; quote]) (s ++ quote :: r) = find_sub (pat ++ [ch "="; quote]) (quote :: r).
Proof.
  intros Hp Hs. induction Hs as [|c s Hc Hs IH]; [done|]. cbn [app].
  rewrite find_sub_cons_false; [exact IH|].
  apply (starts_with_name pat (c :: s) r Hp). by constructor.
Qed.

Lemma parse_attr_at tag (name : string) v r :
  find_sub (bs name ++ [ch "="; quote]) tag = Some ((bs name ++ [ch "="; quote]) ++ v ++ quote :: r) ->
  Forall (fun c => c <> quote) v -> agent_parse_attr tag name = Some v.
Proof.
  intros E Hv. unfold agent_parse_attr. rewrite E.
  replace (length (bs name) + 2)%nat with (length (bs name ++ [ch "="; quote])) by (rewrite length_app; done).
  rewrite drop_app_length, strchr_at_first by done. f_equal. unfold offset.
  rewrite length_app. replace (length v + length (quote :: r) - length (quote :: r))%nat with (length v) by lia.
  by rewrite take_app_length.
Qed.

Lemma invoke_name n : name_ok n -> agent_parse_attr (invoke_tag n) "name" = Some n.
Proof. intros Hn. apply (parse_attr_at _ "name" n [gt]); [reflexivity|by apply name_no_quote]. Qed.

Lemma param_name_attr p : name_ok (wp_name p) -> agent_parse_attr (param_tag p) "name" = Some (wp_name p).
Proof.
  intros Hn. eapply (parse_attr_at _ "name" (wp_name p)); [reflexivity|by apply name_no_quote].
Qed.

Lemma param_string_attr p :
  name_ok (wp_name p) ->
  agent_parse_attr (param_tag p) "string" = Some (if wp_is_string p then bs "true" else bs "false").
Proof.
  intros Hn. eapply (parse_attr_at _ "string" _ [gt]); [|by destruct (wp_is_string p); repeat constructor].
  unfold param_tag, dquote. transitivity (find_sub (bs "string" ++ [ch "="; quote])
    (wp_name p ++ quote :: bs " string=" ++ [quote] ++ (if wp_is_string p then bs "true" else bs "false") ++ [quote] ++ bs ">"));
    [reflexivity|].
  rewrite find_attr_skip; [|repeat constructor; done|by apply name_no_eq]. by destruct (wp_is_string p).
Qed.

Lemma name_ok_facts n : name_ok n -> no_nul n /\ no_gt n.
Proof. intros H. split; (eapply list.Forall_impl; [exact H|]); intros c (? & ? & ? & ?); done. Qed.

Ltac solve_forall :=
  repeat first [ assumption | apply Forall_app; split | apply Forall_cons_iff; split | apply Forall_nil; exact I
               | done | (cbn; lia) ].

(** ** Feeding whole tags *)

Lemma feed_blank raw cur pn iss vs calls c :
  is_tag_blank c = true ->
  dsml_feed_byte (idle raw cur pn iss vs calls) c = idle (raw ++ [c]) cur pn iss vs calls.
Proof.
  intros Hc. rewrite feed_structural by done. set (p := with_raw _ _).
  assert (E : dsml_step p = (idle (raw ++ [c]) cur pn iss vs calls, false)).
  { unfold dsml_step, p, with_raw, idle. cbn [ap_state ap_parse_pos ap_raw with_pos]. rewrite drop_app_length.
    cbn [span_len]. rewrite Hc, length_app. cbn [length]. destruct (Nat.leb_spec (length raw + 1) (length raw + 1)); [|lia].
    done. }
  by rewrite (parse_stop _ _ E).
Qed.

(** The pass over a complete opening tag. *)
Lemma open_tag_step raw body cur pn iss vs calls :
  no_nul (body ++ [gt]) -> no_gt body -> starts_tag body ->
  agent_dsml_close_tag_at (body ++ [gt]) "tool_calls" = None ->
  agent_dsml_close_tag_at (body ++ [gt]) "invoke" = None ->
  let p := pending raw (body ++ [gt]) cur pn iss vs calls in
  let tag := body ++ [gt] in
  dsml_step p =
    if agent_dsml_open_tag_is tag "invoke" then
      match agent_parse_attr tag "name" with
      | None => (agent_dsml_set_error (with_current no_call p) (bs "tool invoke without name"), false)
      | Some name => (with_pos (length raw + length tag)%nat (with_current (mkToolCall (Some name) []) p), true)
      end
    else if agent_dsml_open_tag_is tag "parameter" then
      let is_string := match agent_parse_attr tag "string" with
                       | Some v => bytes_eqb v (bs "true") | None => false end in
      let name := agent_parse_attr tag "name" in
      let p := with_param name is_string p in
      match name with
      | None => (agent_dsml_set_error p (bs "tool parameter without name"), false)
      | Some _ => (with_state AGENT_DSML_PARAM_VALUE
                     (with_close_prefix false (with_value_start (length raw + length tag)%nat (with_pos (length raw + length tag)%nat p))), true)
      end
    else (agent_dsml_set_error p (bs "unexpected DSML tag: " ++ take 80 tag), false).
Proof.
  intros Hn Hg Hx Hc1 Hc2 p tag. assert (Hx' : starts_tag (body ++ [gt])) by (by destruct body).
  destruct (pending_pos raw (body ++ [gt]) cur pn iss vs calls Hx') as [Hp Hl].
  unfold dsml_step. change (ap_state p) with AGENT_DSML_STRUCTURAL. cbv iota zeta. unfold p. rewrite Hp.
  change (length (ap_raw (pending raw (body ++ [gt]) cur pn iss vs calls)) <=?
          ap_parse_pos (pending raw (body ++ [gt]) cur pn iss vs calls))%nat
    with (length (raw ++ body ++ [gt]) <=? length raw)%nat. rewrite Hl, tag_unparsed, Hc1, Hc2 by done.
  rewrite strchr_at_first by done.
  assert (Hoff : S (offset (body ++ [gt]) [gt]) = length (body ++ [gt])).
  { unfold offset. rewrite length_app. cbn. lia. }
  rewrite Hoff, take_ge by done. fold tag.
  reflexivity.
Qed.

Lemma feed_invoke raw cur pn iss vs calls n :
  name_ok n ->
  fold_left dsml_feed_byte (invoke_tag n) (idle raw cur pn iss vs calls) =
  idle (raw ++ invoke_tag n) (mkToolCall (Some n) []) pn iss vs calls.
Proof.
  intros Hn. destruct (name_ok_facts n Hn) as [Hn0 Hng]. set (body := bs "<｜DSML｜invoke name=" ++ dquote ++ n ++ dquote).
  assert (Et : invoke_tag n = body ++ [gt]) by (unfold invoke_tag, body; by rewrite <- !app_assoc).
  rewrite Et. assert (Hnn : no_nul (body ++ [gt])). { unfold body, no_nul. solve_forall. }
  assert (Hgg : no_gt body). { unfold body, no_gt. solve_forall. }
  erewrite (feed_tag raw body); [| done | done | done | |].
  2:{ rewrite open_tag_step by done. rewrite <- Et, invoke_name by done. reflexivity. }
  2:{ rewrite <- length_app. exact (idle_step (raw ++ invoke_tag n) (mkToolCall (Some n) []) pn iss vs calls). }
  rewrite <- Et. reflexivity.
Qed.

Lemma feed_close_invoke raw cur name pn iss vs calls :
  tc_name cur = Some name ->
  fold_left dsml_feed_byte invoke_close (idle raw cur pn iss vs calls) =
  idle (raw ++ invoke_close) no_call pn iss vs (calls ++ [cur]).
Proof.
  intros Hc. set (body := bs "</｜DSML｜invoke"). change invoke_close with (body ++ [gt]).
  erewrite (feed_tag raw body); [| by repeat constructor | by repeat constructor | done | |].
  2:{ destruct (pending_pos raw (body ++ [gt]) cur pn iss vs calls eq_refl) as [Hp Hl].
      unfold dsml_step. change (ap_state (pending raw (body ++ [gt]) cur pn iss vs calls)) with AGENT_DSML_STRUCTURAL.
      cbv iota zeta. rewrite Hp.
      change (length (ap_raw (pending raw (body ++ [gt]) cur pn iss vs calls)) <=?
              ap_parse_pos (pending raw (body ++ [gt]) cur pn iss vs calls))%nat
        with (length (raw ++ body ++ [gt]) <=? length raw)%nat.
      rewrite Hl, tag_unparsed by (by repeat constructor).
      change (agent_dsml_close_tag_at (body ++ [gt]) "tool_calls") with (@None nat).
      change (agent_dsml_close_tag_at (body ++ [gt]) "invoke") with (Some (length (body ++ [gt]))).
      unfold agent_tool_calls_push. change (ap_current (pending raw (body ++ [gt]) cur pn iss vs calls)) with cur.
      rewrite Hc. reflexivity. }
  2:{ rewrite <- (idle_step (raw ++ body ++ [gt]) no_call pn iss vs (calls ++ [cur])). f_equal.
      unfold idle, with_pos, pending. parser_fields.
      by rewrite (length_app raw). }
  reflexivity.
Qed.

(** ** Inside a value *)

(** [y] is read of the value and what follows it. *)
Definition in_value (raw y : bytes) (cur : agent_tool_call) (pn : option bytes) (iss flag : bool)
    (calls : list agent_tool_call) : agent_dsml_parser :=
  mkParser AGENT_DSML_PARAM_VALUE [] (raw ++ y) (length raw) cur pn iss (length raw) flag calls [].

Lemma in_value_text raw y : no_nul y -> cstr (drop (length raw) (raw ++ y)) = y.
Proof. intros Hn. by rewrite drop_app_length, cstr_no_nul. Qed.

Lemma update_flag p :
  exists flag, agent_dsml_update_param_close_prefix p = with_close_prefix flag p.
Proof. unfold agent_dsml_update_param_close_prefix. by eexists. Qed.

Lemma feed_value_byte raw y c cur pn iss flag calls :
  no_nul (y ++ [c]) -> agent_dsml_find_close_tag (y ++ [c]) "parameter" = None ->
  exists flag', dsml_feed_byte (in_value raw y cur pn iss flag calls) c = in_value raw (y ++ [c]) cur pn iss flag' calls.
Proof.
  intros Hn Hc. unfold dsml_feed_byte. change (ap_state (in_value raw y cur pn iss flag calls)) with AGENT_DSML_PARAM_VALUE.
  cbv iota zeta. set (p := with_raw _ _).
  assert (Ep : p = in_value raw (y ++ [c]) cur pn iss flag calls) by (unfold p, in_value, with_raw; cbn; by rewrite <- app_assoc).
  assert (E : dsml_step p = (p, false)).
  { rewrite Ep. unfold dsml_step. cbn [ap_state in_value ap_param_value_start ap_raw]. by rewrite in_value_text, Hc. }
  rewrite (parse_stop _ _ E), Ep. change (ap_state (in_value raw (y ++ [c]) cur pn iss flag calls)) with AGENT_DSML_PARAM_VALUE.
  cbv iota. destruct (update_flag (in_value raw (y ++ [c]) cur pn iss flag calls)) as [flag' ->]. by exists flag'.
Qed.

Lemma feed_value raw x y cur pn iss flag calls :
  no_nul (x ++ y) ->
  (forall z, z `prefix_of` y -> z <> [] -> agent_dsml_find_close_tag (x ++ z) "parameter" = None) ->
  exists flag', fold_left dsml_feed_byte y (in_value raw x cur pn iss flag calls) = in_value raw (x ++ y) cur pn iss flag' calls.
Proof.
  revert x flag. induction y as [|c y IH]; intros x flag Hn Hc; [exists flag; by rewrite app_nil_r|]. cbn [fold_left].
  destruct (feed_value_byte raw x c cur pn iss flag calls) as [f1 ->].
  - replace (x ++ c :: y) with ((x ++ [c]) ++ y) in Hn by (by rewrite <- app_assoc). by apply Forall_app in Hn as [? _].
  - apply Hc; [by exists y|done].
  - replace (x ++ c :: y) with ((x ++ [c]) ++ y) in * by (by rewrite <- app_assoc). apply IH; [done|].
    intros z [k ->] Hz. rewrite <- app_assoc. apply Hc; [by exists k|done].
Qed.

Definition lt : Z := ch "<".
Definition one_lt (s : bytes) : Prop := exists r, s = lt :: r /\ Forall (fun c => c <> lt) r.

Lemma one_lt_prefix s t : one_lt s -> t `prefix_of` s -> t = [] \/ one_lt t.
Proof.
  intros (r & -> & Hr) [k E]. destruct t as [|c t]; [by left|right]. injection E as <- ->.
  exists t. split; [done|]. by apply Forall_app in Hr as [? _].
Qed.

(** An opening marker in a value followed by a closing tag is that of the tag. *)
Lemma marker_position m v z j :
  one_lt m -> (z = [] \/ one_lt z) -> (forall i, ~ occurs v m i) -> occurs (v ++ z) m j -> j = length v.
Proof.
  intros (mr & -> & Hmr) Hz Hv Hj. pose proof (occurs_bound (v ++ z) (lt :: mr) j ltac:(done) Hj) as Hb.
  destruct Hj as [k Hk].
  assert (Hlook : forall i, (v ++ z) !! (j + i)%nat = ((lt :: mr) ++ k) !! i) by (intros; by rewrite <- lookup_drop, Hk).
  destruct (Nat.lt_trichotomy j (length v)) as [Hlt|[|Hgt]]; [exfalso|done|exfalso].
  - destruct (le_lt_dec (j + length (lt :: mr)) (length v)) as [Hin|Hout].
    + apply (Hv j). exists (drop (length (lt :: mr)) (drop j v)).
      rewrite <- (take_drop (length (lt :: mr)) (drop j v)) at 1. f_equal.
      apply (f_equal (take (length (lt :: mr)))) in Hk. rewrite take_app_length, drop_app_le in Hk by lia.
      rewrite take_app_le in Hk by (rewrite length_drop; lia). done.
    + destruct Hz as [->|(zr & -> & _)]; [rewrite app_nil_r in Hb; lia|].
      specialize (Hlook (length v - j)%nat). replace (j + (length v - j))%nat with (length v) in Hlook by lia.
      rewrite lookup_app_r, Nat.sub_diag in Hlook by lia. rewrite (lookup_app_l (lt :: mr)) in Hlook by lia.
      replace (length v - j)%nat with (S (length v - j - 1)) in Hlook by lia.
      change (Some lt = mr !! (length v - j - 1)%nat) in Hlook. symmetry in Hlook.
      apply list_elem_of_lookup_2 in Hlook. rewrite list.Forall_forall in Hmr. by apply Hmr in Hlook.
  - specialize (Hlook 0%nat). rewrite Nat.add_0_r, lookup_app_r in Hlook by lia.
    destruct Hz as [->|(zr & -> & Hzr)]; [done|].
    replace (j - length v)%nat with (S (j - length v - 1)) in Hlook by lia.
    change (zr !! (j - length v - 1)%nat = Some lt) in Hlook. apply list_elem_of_lookup_2 in Hlook. rewrite list.Forall_forall in Hzr. by apply Hzr in Hlook.
Qed.

Lemma find_sub_position m v z :
  one_lt m -> (z = [] \/ one_lt z) -> (forall i, ~ occurs v m i) ->
  find_sub m (v ++ z) = if starts_with m z then Some z else None.
Proof.
  intros Hm Hz Hv. pose proof (find_sub_occurs m (v ++ z)) as H. destruct (starts_with m z) eqn:E.
  - apply starts_with_prefix in E as [k ->].
    assert (Ho : occurs (v ++ m ++ k) m (length v)) by (unfold occurs; rewrite drop_app_length; by exists k).
    destruct (find_sub m (v ++ m ++ k)) as [r|].
    + destruct H as (pre & Hp & Hpre & _). pose proof (marker_position m v _ _ Hm Hz Hv Hpre) as Hl.
      apply app_inj_1 in Hp as [_ <-]; done.
    + exfalso. apply (H (length v)); [rewrite length_app; lia|done].
  - destruct (find_sub m (v ++ z)) as [r|]; [|done]. exfalso. destruct H as (pre & Hp & Hpre & _).
    pose proof (marker_position m v z _ Hm Hz Hv Hpre) as Hl. unfold occurs in Hpre. rewrite Hl, drop_app_length in Hpre.
    apply starts_with_prefix in Hpre. congruence.
Qed.

Lemma dsml_close_lt : one_lt dsml_close.
Proof. exists (drop 1 dsml_close). split; [done|]. unfold lt. solve_forall. Qed.

Lemma param_close_lt : one_lt param_close.
Proof. exists (drop 1 param_close). split; [done|]. unfold lt. solve_forall. Qed.

(** No closing tag before the one that follows the value is complete. *)
Lemma value_open v z :
  value_ok v -> z `prefix_of` bs "</｜DSML｜parameter" -> agent_dsml_find_close_tag (v ++ z) "parameter" = None.
Proof.
  intros [_ Hv] Hz. assert (Hz1 : z = [] \/ one_lt z).
  { apply (one_lt_prefix param_close); [apply param_close_lt|]. destruct Hz as [k E]. exists (k ++ [gt]).
    rewrite app_assoc, <- E. done. }
  assert (Hgt : no_gt z).
  { destruct Hz as [k E]. assert (H : no_gt (bs "</｜DSML｜parameter")) by (unfold no_gt; solve_forall).
    rewrite E in H. by apply Forall_app in H as [? _]. }
  unfold agent_dsml_find_close_tag. cbn [find_close_loop].
  rewrite (find_sub_position dsml_close v z dsml_close_lt Hz1 Hv). destruct (starts_with dsml_close z) eqn:E; [|done].
  rewrite close_tag_none by done. destruct Hz1 as [->|(zr & -> & Hzr)]; [done|].
  change (drop 1 (lt :: zr)) with zr.
  destruct (length (v ++ lt :: zr)) as [|n] eqn:El; [done|]. cbn [find_close_loop].
  assert (Hno : find_sub dsml_close zr = None); [|by rewrite Hno].
  pose proof (find_sub_occurs dsml_close zr) as H. destruct (find_sub dsml_close zr) as [r|]; [|done].
  destruct H as (pre & Hp & [k Hk] & _). exfalso. rewrite Hp, drop_app_length in Hk. subst r.
  rewrite Hp in Hzr. apply Forall_app in Hzr as [_ Hr]. by inversion Hr.
Qed.

Lemma value_closed v : value_ok v -> agent_dsml_find_close_tag (v ++ param_close) "parameter" = Some (length v, length param_close).
Proof.
  intros [_ Hv]. unfold agent_dsml_find_close_tag. cbn [find_close_loop].
  rewrite (find_sub_position dsml_close v param_close dsml_close_lt (or_intror param_close_lt) Hv).
  change (starts_with dsml_close param_close) with true. cbv iota.
  change (agent_dsml_close_tag_at param_close "parameter") with (Some (length param_close)). cbv iota.
  do 2 f_equal. unfold offset. rewrite length_app. lia.
Qed.

(** ** Feeding whole calls *)

Lemma value_step_empty raw cur pn iss flag calls :
  dsml_step (in_value raw [] cur pn iss flag calls) = (in_value raw [] cur pn iss flag calls, false).
Proof.
  unfold dsml_step, in_value. cbn [ap_state ap_param_value_start ap_raw].
  assert (E : cstr (drop (length raw) (raw ++ [])) = []) by (rewrite app_nil_r, drop_ge by lia; done).
  by rewrite E.
Qed.

Lemma feed_param_tag raw cur pn iss vs calls p :
  name_ok (wp_name p) ->
  exists flag, fold_left dsml_feed_byte (param_tag p) (idle raw cur pn iss vs calls) =
    in_value (raw ++ param_tag p) [] cur (Some (wp_name p)) (wp_is_string p) flag calls.
Proof.
  intros Hn. destruct (name_ok_facts _ Hn) as [Hn0 Hng].
  set (body := bs "<｜DSML｜parameter name=" ++ dquote ++ wp_name p ++ dquote ++ bs " string=" ++ dquote ++
               (if wp_is_string p then bs "true" else bs "false") ++ dquote).
  assert (Et : param_tag p = body ++ [gt]) by (unfold param_tag, body; by rewrite <- !app_assoc).
  assert (Hs : no_nul (if wp_is_string p then bs "true" else bs "false") /\ no_gt (if wp_is_string p then bs "true" else bs "false")).
  { destruct (wp_is_string p); split; unfold no_nul, no_gt; solve_forall. }
  destruct Hs as [Hs1 Hs2].
  rewrite Et. assert (Hnn : no_nul (body ++ [gt])). { unfold body, no_nul in *. solve_forall. }
  assert (Hgg : no_gt body). { unfold body, no_gt in *. solve_forall. }
  erewrite (feed_tag raw body); [| done | done | done | |].
  2:{ rewrite open_tag_step by done. rewrite <- Et, param_string_attr, param_name_attr by done. reflexivity. }
  2:{ rewrite <- (value_step_empty (raw ++ param_tag p) cur (Some (wp_name p)) (wp_is_string p) false calls). f_equal.
      unfold in_value, with_state, with_close_prefix, with_value_start, with_pos, with_param, pending.
      parser_fields.
      rewrite app_nil_r, <- length_app. by destruct (wp_is_string p). }
  cbn [ap_state in_value]. rewrite <- Et.
  destruct (update_flag (in_value (raw ++ param_tag p) [] cur (Some (wp_name p)) (wp_is_string p) false calls)) as [flag Hf].
  exists flag. rewrite Hf. reflexivity.
Qed.

(** What a prefix holds, the whole holds. *)
Lemma occurs_prefix v n m j : occurs (take n v) m j -> occurs v m j.
Proof. unfold occurs. intros H. etrans; [exact H|]. rewrite skipn_firstn_comm. apply prefix_take. Qed.

Lemma value_ok_take v n : value_ok v -> value_ok (take n v).
Proof. intros [Hn Hv]. split; [by apply Forall_take|]. intros j Hj. by apply (Hv j), (occurs_prefix _ n). Qed.

Definition close_text : bytes := bs "</｜DSML｜parameter".

Lemma value_prefix_open v z :
  value_ok v -> z `prefix_of` v ++ close_text -> agent_dsml_find_close_tag z "parameter" = None.
Proof.
  intros Hv [k E]. destruct (decide (length z <= length v)%nat) as [Hle|Hgt].
  - assert (Ez : z = take (length z) v).
    { rewrite <- (take_app_le v close_text) by done. rewrite E, take_app_length. done. }
    rewrite Ez, <- (app_nil_r (take _ v)). apply value_open; [by apply value_ok_take|by exists close_text].
  - assert (Ez : z = v ++ drop (length v) z).
    { rewrite <- (take_drop (length v) z) at 1. f_equal.
      apply (f_equal (take (length v))) in E. rewrite take_app_length, take_app_le in E by lia. done. }
    rewrite Ez. apply value_open; [done|]. exists k. rewrite Ez, <- app_assoc in E. by apply app_inv_head in E.
Qed.

Lemma feed_value_close raw v cur pn iss flag calls :
  value_ok v ->
  fold_left dsml_feed_byte (v ++ param_close) (in_value raw [] cur (Some pn) iss flag calls) =
  idle (raw ++ v ++ param_close) (agent_tool_call_add_arg cur pn v iss) None iss (length raw) calls.
Proof.
  intros Hv. change param_close with (close_text ++ [gt]). set (cl := close_text).
  assert (Hcl : no_nul cl) by (unfold cl, close_text, no_nul; solve_forall).
  rewrite (app_assoc v cl), fold_left_app.
  destruct (feed_value raw [] (v ++ cl) cur (Some pn) iss flag calls) as [f1 Hf1].
  { cbn. apply Forall_app. split; [apply Hv|done]. }
  { intros z Hz _. by apply (value_prefix_open v). }
  cbn [app] in Hf1. rewrite Hf1. cbn [fold_left]. unfold dsml_feed_byte.
  change (ap_state (in_value raw (v ++ cl) cur (Some pn) iss f1 calls)) with AGENT_DSML_PARAM_VALUE. cbv iota zeta.
  set (p := with_raw _ _).
  assert (Ep : p = in_value raw (v ++ param_close) cur (Some pn) iss f1 calls).
  { unfold p, in_value, with_raw. cbn [ap_raw]. by rewrite <- !app_assoc. }
  assert (Hnn : no_nul (v ++ param_close)).
  { apply Forall_app. split; [apply Hv|]. unfold param_close. solve_forall. }
  erewrite (parse_go p); [| |rewrite Ep; unfold dsml_step; cbn [ap_state in_value ap_param_value_start ap_raw];
    rewrite in_value_text, value_closed by done; reflexivity|].
  2:{ rewrite Ep. cbn. by destruct raw, v. }
  2:{ rewrite <- (idle_step (raw ++ v ++ param_close) (agent_tool_call_add_arg cur pn v iss) None iss (length raw) calls).
      f_equal. unfold idle, with_state, with_close_prefix, with_pos, with_param, with_current, in_value.
      parser_fields.
      rewrite take_app_length, !length_app. change (default [] (Some pn)) with pn. f_equal. lia. }
  cbn [ap_state idle]. by rewrite <- !app_assoc.
Qed.

(** Between two tags with [raw] read, [cur] being built and [calls] done; what
    the last parameter left in its fields does not matter. *)
Definition ready (raw : bytes) (cur : agent_tool_call) (calls : list agent_tool_call) (p : agent_dsml_parser) : Prop :=
  exists pn iss vs, p = idle raw cur pn iss vs calls.

Lemma idle_ready raw cur pn iss vs calls : ready raw cur calls (idle raw cur pn iss vs calls).
Proof. by exists pn, iss, vs. Qed.

Definition feed (s : bytes) (p : agent_dsml_parser) : agent_dsml_parser := fold_left dsml_feed_byte s p.

Lemma feed_app s t p : feed (s ++ t) p = feed t (feed s p).
Proof. apply fold_left_app. Qed.

Lemma ready_nl raw cur calls p : ready raw cur calls p -> ready (raw ++ nl) cur calls (feed nl p).
Proof.
  intros (pn & iss & vs & ->). exists pn, iss, vs. unfold feed. cbn [fold_left nl].
  by rewrite feed_blank.
Qed.

Lemma ready_param raw cur calls p w :
  param_ok w -> ready raw cur calls p ->
  ready (raw ++ write_param w) (mkToolCall (tc_name cur) (tc_args cur ++ [read_param w])) calls (feed (write_param w) p).
Proof.
  intros [Hn Hv] (pn & iss & vs & ->). unfold write_param. rewrite feed_app.
  destruct (feed_param_tag raw cur pn iss vs calls w Hn) as [flag E]. unfold feed at 2. rewrite E.
  rewrite (app_assoc (wp_value w)), feed_app. unfold feed at 2. rewrite feed_value_close by done.
  rewrite !(app_assoc raw). rewrite (app_assoc _ _ nl). apply ready_nl. apply idle_ready.
Qed.

Lemma ready_params raw cur calls p ws :
  Forall param_ok ws -> ready raw cur calls p ->
  ready (raw ++ concat (write_param <$> ws)) (mkToolCall (tc_name cur) (tc_args cur ++ (read_param <$> ws))) calls
        (feed (concat (write_param <$> ws)) p).
Proof.
  intros Hws. revert raw cur p. induction Hws as [|w ws Hw _ IH]; intros raw cur p Hp.
  - cbn. rewrite !app_nil_r. by destruct cur.
  - rewrite !fmap_cons. cbn [concat]. rewrite feed_app, app_assoc.
    apply (ready_param _ _ _ _ w Hw), IH in Hp. cbn [tc_name tc_args] in Hp. by rewrite <- (app_assoc (tc_args cur)) in Hp.
Qed.

Lemma ready_call raw cur calls p c :
  call_ok c -> ready raw cur calls p ->
  ready (raw ++ write_call c) no_call (calls ++ [read_call c]) (feed (write_call c) p).
Proof.
  intros [Hn Hp] (pn & iss & vs & ->). unfold write_call. rewrite !feed_app, !(app_assoc raw).
  unfold feed at 5. rewrite feed_invoke by done.
  assert (H0 : ready (raw ++ invoke_tag (wc_name c)) (mkToolCall (Some (wc_name c)) []) calls
                 (idle (raw ++ invoke_tag (wc_name c)) (mkToolCall (Some (wc_name c)) []) pn iss vs calls))
    by apply idle_ready.
  apply ready_nl, (ready_params _ _ _ _ _ Hp) in H0. destruct H0 as (pn' & iss' & vs' & ->).
  rewrite !app_assoc. apply ready_nl. unfold feed. erewrite feed_close_invoke by done. apply idle_ready.
Qed.

Lemma ready_calls raw calls p cs :
  Forall call_ok cs -> ready raw no_call calls p ->
  ready (raw ++ concat (write_call <$> cs)) no_call (calls ++ (read_call <$> cs)) (feed (concat (write_call <$> cs)) p).
Proof.
  intros Hcs. revert raw calls p. induction Hcs as [|c cs Hc _ IH]; intros raw calls p Hp.
  - cbn. by rewrite !app_nil_r.
  - rewrite !fmap_cons. cbn [concat]. rewrite feed_app, app_assoc.
    apply (ready_call _ _ _ _ c Hc), IH in Hp. by rewrite <- (app_assoc calls) in Hp.
Qed.

(** ** The end of the block, and what follows it *)

(** What the caller reads of the parser. *)
Definition stream_result (p : agent_dsml_parser) : agent_dsml_state * list agent_tool_call * bytes :=
  (ap_state p, ap_calls p, ap_error p).

Lemma ready_close raw calls p :
  ready raw no_call calls p -> stream_result (feed calls_close p) = (AGENT_DSML_DONE, calls, []).
Proof.
  intros (pn & iss & vs & ->). set (body := bs "</｜DSML｜tool_calls"). change calls_close with (body ++ [gt]).
  rewrite feed_app. unfold feed. replace (idle raw no_call pn iss vs calls) with (pending raw [] no_call pn iss vs calls)
    by (unfold idle, pending; by rewrite app_nil_r).
  rewrite (feed_pending raw [] body) by (cbn; try done; unfold no_nul, no_gt; solve_forall).
  cbn [fold_left app]. rewrite feed_structural by done.
  assert (E : with_raw (ap_raw (pending raw body no_call pn iss vs calls) ++ [gt]) (pending raw body no_call pn iss vs calls)
    = pending raw (body ++ [gt]) no_call pn iss vs calls) by (unfold pending, with_raw; cbn; by rewrite <- app_assoc).
  rewrite E. clear E. destruct (pending_pos raw (body ++ [gt]) no_call pn iss vs calls eq_refl) as [Hp Hl].
  erewrite parse_stop; [|unfold dsml_step;
    change (ap_state (pending raw (body ++ [gt]) no_call pn iss vs calls)) with AGENT_DSML_STRUCTURAL; cbv iota zeta;
    rewrite Hp; change (length (ap_raw (pending raw (body ++ [gt]) no_call pn iss vs calls)) <=?
              ap_parse_pos (pending raw (body ++ [gt]) no_call pn iss vs calls))%nat
        with (length (raw ++ body ++ [gt]) <=? length raw)%nat;
    rewrite Hl, tag_unparsed by (by repeat constructor);
    change (agent_dsml_close_tag_at (body ++ [gt]) "tool_calls") with (Some (length (body ++ [gt]))); reflexivity].
  reflexivity.
Qed.

Definition finished (st : agent_dsml_state) : bool :=
  match st with AGENT_DSML_DONE | AGENT_DSML_ERROR => true | _ => false end.

Lemma feed_byte_finished p c : finished (ap_state p) = true -> stream_result (dsml_feed_byte p c) = stream_result p.
Proof.
  intros H. unfold dsml_feed_byte. destruct (ap_state p) eqn:E; try discriminate.
  all: cbv zeta; rewrite (parse_stop (with_raw (ap_raw p ++ [c]) p) (with_raw (ap_raw p ++ [c]) p))
         by (unfold dsml_step; cbn [ap_state with_raw]; by rewrite E).
  all: cbn [ap_state with_raw]; rewrite E; unfold stream_result; cbn [ap_state with_close_prefix with_raw ap_calls ap_error];
         by rewrite E.
Qed.

Lemma feed_finished s p : finished (ap_state p) = true -> stream_result (feed s p) = stream_result p.
Proof.
  revert p. induction s as [|c s IH]; intros p H; [done|]. unfold feed. cbn [fold_left].
  pose proof (feed_byte_finished p c H) as E. rewrite <- E. apply IH.
  assert (Es : ap_state (dsml_feed_byte p c) = ap_state p) by (by injection E). by rewrite Es.
Qed.

Lemma agent_dsml_feed_open p s :
  finished (ap_state p) = false -> agent_dsml_feed p s = feed s p.
Proof. unfold agent_dsml_feed. by destruct (ap_state p). Qed.

Lemma agent_dsml_feed_finished p s : finished (ap_state p) = true -> agent_dsml_feed p s = p.
Proof. unfold agent_dsml_feed. by destruct (ap_state p). Qed.

(** How the stream is cut does not matter. *)
Lemma feed_chunks chunks p :
  stream_result (fold_left agent_dsml_feed chunks p) = stream_result (feed (concat chunks) p).
Proof.
  revert p. induction chunks as [|s chunks IH]; intros p; [done|]. cbn [fold_left concat].
  rewrite IH, feed_app. destruct (finished (ap_state p)) eqn:H.
  - rewrite agent_dsml_feed_finished, <- feed_app by done. rewrite !feed_finished by done. done.
  - by rewrite agent_dsml_feed_open.
Qed.

(** ** Looking for the block *)

Definition tail_of (x : bytes) : bytes := drop (length x - 64) x.

Lemma push_tail_of x c : push_tail (tail_of x) c = tail_of (x ++ [c]).
Proof.
  unfold push_tail, tail_of. rewrite length_drop, length_app. cbn [length].
  destruct (Nat.eqb_spec (length x - (length x - 64)) 64) as [E|E].
  - rewrite drop_drop, drop_app_le by lia. do 2 f_equal. lia.
  - rewrite drop_app_le by lia. do 2 f_equal. lia.
Qed.

(** Searching, [x] seen. *)
Definition searching (x : bytes) : agent_dsml_parser := with_tail (tail_of x) agent_dsml_parser_reset.

Definition ends_with (x y : bytes) : Prop := exists k, x = k ++ y.

Lemma tail_ends x :
  ((length dsml_start <=? length (tail_of x))%nat &&
   bytes_eqb (drop (length (tail_of x) - length dsml_start) (tail_of x)) dsml_start) = true <-> ends_with x dsml_start.
Proof.
  assert (H64 : (length dsml_start <= 64)%nat) by (apply Nat.leb_le; reflexivity).
  rewrite andb_true_iff, Nat.leb_le, bytes_eqb_eq. unfold tail_of. rewrite length_drop, drop_drop. split.
  - intros [Hl E]. exists (take (length x - length dsml_start) x). rewrite <- (take_drop (length x - length dsml_start) x) at 1.
    f_equal. etrans; [|exact E]. f_equal. lia.
  - intros [k ->]. rewrite length_app. split; [lia|].
    replace (length k + length dsml_start - 64 + _)%nat with (length k) by lia. apply drop_app_length.
Qed.

Lemma search_tail x c :
  with_tail (push_tail (ap_search_tail (searching x)) c) (searching x) = searching (x ++ [c]).
Proof. change (ap_search_tail (searching x)) with (tail_of x). by rewrite push_tail_of. Qed.

Lemma search_byte x c :
  ~ ends_with (x ++ [c]) dsml_start -> dsml_feed_byte (searching x) c = searching (x ++ [c]).
Proof.
  intros H. unfold dsml_feed_byte. change (ap_state (searching x)) with AGENT_DSML_SEARCH. cbv iota zeta.
  rewrite search_tail. change (ap_search_tail (searching (x ++ [c]))) with (tail_of (x ++ [c])).
  destruct (_ && _) eqn:E; [|done]. by apply tail_ends in E.
Qed.

Lemma search_found x c :
  ends_with (x ++ [c]) dsml_start -> dsml_feed_byte (searching x) c = agent_dsml_start agent_dsml_parser_reset.
Proof.
  intros H. unfold dsml_feed_byte. change (ap_state (searching x)) with AGENT_DSML_SEARCH. cbv iota zeta.
  rewrite search_tail. change (ap_search_tail (searching (x ++ [c]))) with (tail_of (x ++ [c])).
  destruct (_ && _) eqn:E; [done|]. apply tail_ends in H. congruence.
Qed.

Lemma search_all x y :
  (forall z, z `prefix_of` y -> z <> [] -> ~ ends_with (x ++ z) dsml_start) ->
  feed y (searching x) = searching (x ++ y).
Proof.
  revert x. induction y as [|c y IH]; intros x H; [by rewrite app_nil_r|]. unfold feed. cbn [fold_left].
  rewrite search_byte; [|apply H; [by exists y|done]].
  replace (x ++ c :: y) with ((x ++ [c]) ++ y) by (by rewrite <- app_assoc). apply IH.
  intros z [k ->] Hz. rewrite <- app_assoc. apply H; [by exists k|done].
Qed.

Lemma dsml_start_lt : one_lt dsml_start.
Proof. exists (drop 1 dsml_start). split; [done|]. unfold lt. solve_forall. Qed.

Definition start_text : bytes := bs "<｜DSML｜tool_calls".

(** The block begins where its whole opening tag has been read, not before. *)
Lemma search_start pre :
  (forall j, ~ occurs pre dsml_start j) ->
  feed (pre ++ dsml_start) agent_dsml_parser_reset = agent_dsml_start agent_dsml_parser_reset.
Proof.
  intros Hpre. change agent_dsml_parser_reset with (searching []) at 1.
  change dsml_start with (start_text ++ [gt]) at 1. rewrite (app_assoc pre), feed_app.
  rewrite search_all.
  - cbn [app]. unfold feed. cbn [fold_left]. apply search_found. exists pre. by rewrite <- app_assoc.
  - intros z [k E] _ [q Ez]. cbn [app] in Ez. subst z.
    assert (Ho : occurs (pre ++ start_text) dsml_start (length q)).
    { rewrite E, <- app_assoc. unfold occurs. rewrite drop_app_length. by exists k. }
    assert (Hz : start_text = [] \/ one_lt start_text).
    { apply (one_lt_prefix dsml_start); [apply dsml_start_lt|by exists [gt]]. }
    pose proof (marker_position _ _ _ _ dsml_start_lt Hz Hpre Ho) as Hl.
    apply (f_equal length) in E. change dsml_start with (start_text ++ [gt]) in E. rewrite !length_app in E.
    cbn [length] in E. lia.
Qed.

(** ** The round trip *)

Lemma stream_result_done p cs e : stream_result p = (AGENT_DSML_DONE, cs, e) -> finished (ap_state p) = true.
Proof. unfold stream_result. intros H. apply (f_equal (fun o => o.1.1)) in H. cbn [fst] in H. by rewrite H. Qed.

(** C14. Read in any chunks, text that holds no opening tag, then a block of calls,
    then anything, gives exactly those calls. *)
Theorem dsml_stream_roundtrip chunks pre cs rest :
  (forall j, ~ occurs pre dsml_start j) -> Forall call_ok cs ->
  concat chunks = pre ++ write_calls cs ++ rest ->
  stream_result (fold_left agent_dsml_feed chunks agent_dsml_parser_reset) = (AGENT_DSML_DONE, read_call <$> cs, []).
Proof.
  intros Hpre Hcs E. rewrite feed_chunks, E. unfold write_calls. rewrite <- !app_assoc, (app_assoc pre), feed_app.
  rewrite search_start by done. rewrite !feed_app.
  assert (H0 : ready dsml_start no_call [] (agent_dsml_start agent_dsml_parser_reset)) by apply idle_ready.
  apply ready_nl, (ready_calls _ _ _ cs Hcs), ready_close in H0. cbn [app] in H0.
  rewrite feed_finished; [exact H0|exact (stream_result_done _ _ _ H0)].
Qed.

(** ** Parsing stops by itself *)

Lemma skip_blank_length s : (length (skip_blank s) <= length s)%nat.
Proof. unfold skip_blank. rewrite length_drop. lia. Qed.

Lemma strip_prefix_length p s r : strip_prefix p s = Some r -> (length r <= length s)%nat.
Proof. intros E. apply strip_prefix_sound in E as ->. rewrite length_app. lia. Qed.

Lemma strip_prefix_default_length p s : (length (default s (strip_prefix p s)) <= length s)%nat.
Proof. destruct (strip_prefix p s) as [r|] eqn:E; [by apply strip_prefix_length in E|cbn; lia]. Qed.

Lemma close_tag_bound s name n : agent_dsml_close_tag_at s name = Some n -> (0 < n <= length s)%nat.
Proof.
  unfold agent_dsml_close_tag_at, offset. destruct (strip_prefix _ s) as [p|] eqn:E; [|discriminate].
  apply strip_prefix_length in E.
  pose proof (skip_blank_length p). set (p1 := skip_blank p) in *.
  pose proof (strip_prefix_default_length dsml_bar p1). set (p2 := default p1 _) in *.
  pose proof (skip_blank_length p2). destruct (skip_blank p2) as [|c r]; [discriminate|]. cbn [length] in *.
  destruct (c =? gt); [|discriminate]. intros [= <-]. lia.
Qed.

Lemma find_close_bound fuel s name k at_ n :
  find_close_loop fuel s name k = Some (at_, n) -> (0 < n /\ at_ + n <= k + length s)%nat.
Proof.
  revert s k. induction fuel as [|fuel IH]; intros s k; cbn [find_close_loop]; [discriminate|].
  destruct (find_sub dsml_close s) as [p|] eqn:E; [|discriminate].
  apply find_sub_sound in E as [[r ->] [pre ->]]. unfold offset. rewrite length_app.
  destruct (agent_dsml_close_tag_at (dsml_close ++ r) name) as [m|] eqn:Em.
  - intros [= <- <-]. apply close_tag_bound in Em. lia.
  - intros H. apply IH in H. change (length (drop 1 (dsml_close ++ r))) with (length (drop 1 dsml_close ++ r)) in H.
    rewrite !length_app in H. rewrite length_app. change (length (drop 1 dsml_close)) with 11%nat in H.
    change (length dsml_close) with 12%nat in H |- *. lia.
Qed.

Definition parser_wf (p : agent_dsml_parser) : Prop :=
  (ap_parse_pos p <= length (ap_raw p))%nat /\
  (ap_state p = AGENT_DSML_PARAM_VALUE -> ap_param_value_start p = ap_parse_pos p).

Lemma cstr_length_nat s : (length (cstr s) <= length s)%nat.
Proof. induction s as [|c s IH]; cbn; [lia|]. destruct (c =? 0); cbn; lia. Qed.

Lemma param_value_wf p p' go :
  parser_wf p -> ap_state p = AGENT_DSML_PARAM_VALUE -> dsml_step p = (p', go) ->
  parser_wf p' /\ ap_raw p' = ap_raw p /\ (go = true -> ap_parse_pos p < ap_parse_pos p')%nat.
Proof.
  intros [Hp Hv] Hs. unfold dsml_step. rewrite Hs. cbv zeta. specialize (Hv Hs).
  destruct (agent_dsml_find_close_tag _ _) as [[len n]|] eqn:E; [|intros [= <- <-]; done].
  apply find_close_bound in E. pose proof (cstr_length_nat (drop (ap_param_value_start p) (ap_raw p))) as Hl.
  rewrite length_drop in Hl. intros [= <- <-]. unfold parser_wf.
  cbn [ap_state ap_raw ap_parse_pos with_state with_pos with_close_prefix with_param with_current].
  repeat split; [lia|done|lia].
Qed.

Lemma unparsed_length q : (length (unparsed q) <= length (ap_raw q) - ap_parse_pos q)%nat.
Proof. unfold unparsed. rewrite <- length_drop. apply cstr_length_nat. Qed.

Lemma push_fields q :
  ap_parse_pos (agent_tool_calls_push q) = ap_parse_pos q /\ ap_raw (agent_tool_calls_push q) = ap_raw q /\
  ap_state (agent_tool_calls_push q) = ap_state q.
Proof. unfold agent_tool_calls_push. by destruct (tc_name (ap_current q)). Qed.

Lemma strchr_offset s c r : strchr s c = Some r -> (S (offset s r) <= length s)%nat.
Proof.
  unfold offset. intros H. assert (0 < length r <= length s)%nat; [|lia]. revert H.
  induction s as [|x s IH]; cbn [strchr]; [discriminate|]. destruct (x =? c).
  - intros [= <-]. cbn. lia.
  - intros H. apply IH in H. cbn. lia.
Qed.

Lemma structural_wf p p' go :
  parser_wf p -> ap_state p = AGENT_DSML_STRUCTURAL -> dsml_step p = (p', go) ->
  parser_wf p' /\ ap_raw p' = ap_raw p /\ (go = true -> ap_parse_pos p < ap_parse_pos p')%nat.
Proof.
  intros [Hp _] Hs. unfold dsml_step. rewrite Hs. cbv zeta.
  set (k := span_len is_tag_blank _).
  assert (Hk : (ap_parse_pos p + k <= length (ap_raw p))%nat).
  { pose proof (span_len_le is_tag_blank (drop (ap_parse_pos p) (ap_raw p))) as H. rewrite length_drop in H. lia. }
  set (q := with_pos _ p).
  assert (Hq : ap_parse_pos q = (ap_parse_pos p + k)%nat /\ ap_raw q = ap_raw p /\ ap_state q = AGENT_DSML_STRUCTURAL) by done.
  clearbody q k. destruct Hq as (Hq1 & Hq2 & Hq3). rewrite Hq1, Hq2.
  pose proof (unparsed_length q) as Hu. rewrite Hq1, Hq2 in Hu. destruct (push_fields q) as (Hs1 & Hs2 & Hs3).
  assert (Hqwf : parser_wf q) by (unfold parser_wf; rewrite Hq1, Hq2, Hq3; done).
  destruct (_ <=? _)%nat; [intros [= <- <-]; by rewrite Hq2|].
  destruct (agent_dsml_close_tag_at _ "tool_calls") as [n|] eqn:E1.
  { apply close_tag_bound in E1. intros [= <- <-]. unfold parser_wf.
    cbn [ap_state ap_raw ap_parse_pos with_state with_pos]. rewrite Hs1, Hs2, Hq1, Hq2. repeat split; [lia|done|lia]. }
  destruct (agent_dsml_close_tag_at _ "invoke") as [n|] eqn:E2.
  { apply close_tag_bound in E2. intros [= <- <-]. unfold parser_wf.
    cbn [ap_state ap_raw ap_parse_pos with_state with_pos]. rewrite Hs1, Hs2, Hs3, Hq1, Hq2, Hq3. repeat split; [lia|done|lia]. }
  destruct (strchr _ gt) as [r|] eqn:E3; [|intros [= <- <-]; by rewrite Hq2].
  apply strchr_offset in E3. set (tag_len := S (offset _ r)) in *. set (tag := take tag_len _).
  assert (Herr : forall q' msg, ap_raw q' = ap_raw q -> ap_parse_pos q' = ap_parse_pos q ->
    parser_wf (agent_dsml_set_error q' msg) /\ ap_raw (agent_dsml_set_error q' msg) = ap_raw p).
  { intros q' msg E4 E5. unfold parser_wf. cbn [ap_state ap_raw ap_parse_pos agent_dsml_set_error].
    rewrite E4, E5, Hq1, Hq2. done. }
  destruct (agent_dsml_open_tag_is tag "invoke").
  { destruct (agent_parse_attr tag "name"); intros [= <- <-].
    - unfold parser_wf. cbn [ap_state ap_raw ap_parse_pos with_current with_pos]. rewrite Hq2, Hq3. repeat split; [lia|done|lia].
    - split; [by apply Herr|split; [by apply Herr|done]]. }
  destruct (agent_dsml_open_tag_is tag "parameter").
  { destruct (agent_parse_attr tag "name"); intros [= <- <-].
    - unfold parser_wf. cbn [ap_state ap_raw ap_parse_pos with_state with_close_prefix with_value_start with_param with_pos
        ap_param_value_start]. rewrite Hq2. repeat split; lia.
    - split; [by apply Herr|split; [by apply Herr|done]]. }
  intros [= <- <-]. split; [by apply Herr|split; [by apply Herr|done]].
Qed.

Lemma dsml_step_wf p p' go :
  parser_wf p -> dsml_step p = (p', go) ->
  parser_wf p' /\ ap_raw p' = ap_raw p /\ (go = true -> ap_parse_pos p < ap_parse_pos p')%nat.
Proof.
  intros Hwf H. destruct (ap_state p) eqn:Hs; [|by apply structural_wf|by apply param_value_wf|..];
    unfold dsml_step in H; rewrite Hs in H; injection H as <- <-; done.
Qed.

Lemma parse_loop_fuel f1 f2 p :
  parser_wf p -> (length (ap_raw p) < f1 + ap_parse_pos p)%nat -> (length (ap_raw p) < f2 + ap_parse_pos p)%nat ->
  dsml_parse_loop f1 p = dsml_parse_loop f2 p /\ parser_wf (dsml_parse_loop f1 p).
Proof.
  revert f2 p. induction f1 as [|f1 IH]; intros f2 p Hwf H1 H2; [destruct Hwf; lia|].
  destruct f2 as [|f2]; [destruct Hwf; lia|]. cbn [dsml_parse_loop].
  destruct (dsml_step p) as [p1 go] eqn:E. destruct (dsml_step_wf p p1 go Hwf E) as (Hwf1 & Hr & Hgo).
  destruct go; [|done]. specialize (Hgo eq_refl). apply IH; [done|rewrite Hr; lia..].
Qed.

Lemma parse_wf p : parser_wf p -> parser_wf (agent_dsml_parse p).
Proof. intros H. unfold agent_dsml_parse. by apply (parse_loop_fuel _ (S (length (ap_raw p)))); [|lia..]. Qed.

Lemma feed_byte_wf p c : parser_wf p -> parser_wf (dsml_feed_byte p c).
Proof.
  intros Hwf. unfold dsml_feed_byte.
  assert (Hf : forall b q, parser_wf q -> parser_wf (with_close_prefix b q)) by done.
  assert (Hp : parser_wf (agent_dsml_parse (with_raw (ap_raw p ++ [c]) p))).
  { apply parse_wf. destruct Hwf as [H1 H2]. split; [|exact H2]. cbn [ap_raw ap_parse_pos with_raw].
    rewrite length_app. lia. }
  set (q := agent_dsml_parse _) in *. destruct (ap_state p) eqn:Hs.
  2-5: cbv zeta; destruct (ap_state q); try (by apply Hf); unfold agent_dsml_update_param_close_prefix; by apply Hf.
  cbv zeta. destruct (_ && _); [|by destruct Hwf].
  split; [|done]. cbn [ap_raw ap_parse_pos agent_dsml_start with_tail]. rewrite length_app. lia.
Qed.

(** Whatever the model writes, and however it is cut, no pass of the parser is
    bounded by the fuel: a byte is always worked off to the end. *)
Lemma agent_dsml_parse_terminates chunks c fuel :
  let p := fold_left agent_dsml_feed chunks agent_dsml_parser_reset in
  let q := with_raw (ap_raw p ++ [c]) p in
  (length (ap_raw q) < fuel)%nat -> dsml_parse_loop fuel q = agent_dsml_parse q.
Proof.
  intros p q Hf.
  assert (Hp : parser_wf p).
  { assert (H0 : parser_wf agent_dsml_parser_reset) by done. unfold p. clear p q Hf. revert H0.
    generalize agent_dsml_parser_reset. induction chunks as [|s chunks IH]; intros p H; [done|].
    apply IH. unfold agent_dsml_feed.
    assert (Hs : parser_wf (fold_left dsml_feed_byte s p)).
    { revert p H. induction s as [|b s IHs]; intros p H; [done|]. by apply IHs, feed_byte_wf. }
    by destruct (ap_state p). }
  apply (parse_loop_fuel fuel (S (length (ap_raw q))) q); [|lia..].
  destruct Hp as [H1 H2]. split; [|exact H2]. unfold q. cbn [ap_raw ap_parse_pos with_raw]. rewrite length_app. lia.
Qed.
