(* ===== verification/AgentSage.v ===== *)
(** * AgentSage: when a computed answer may be published (ds4_agent.c)

    Mathematical answers come from a Sage server behind the frontend.  A turn that
    has used it may end only with the report that server validated; the state of
    the turn, the tool that talks to the server, and the parts of the turn loop
    that release or withhold an answer are modelled here. *)

From S2P Require Import Prelude Ctype Json AgentFile.

(** ** Texts in JSON and in a shell command *)

(** [agent_json_escape] of a C string; the buffer is sized for it. *)
Definition agent_escape_char (c : Z) : bytes :=
  if c =? 34 then [92; 34]
  else if c =? 92 then [92; 92]
  else if c =? 10 then [92; ch "n"]
  else if c =? 9 then [92; ch "t"]
  else if c =? 13 then [92; ch "r"]
  else if c =? 8 then [92; ch "b"]
  else if c =? 12 then [92; ch "f"]
  else if c <? 32 then 92 :: ch "u" :: hex4 c
  else [c].

Definition agent_json_escape (s : bytes) : bytes := [34] ++ flat_map agent_escape_char (cstr s) ++ [34].

Definition apostrophe : Z := 39.
Definition shell_quote_char (c : Z) : bytes := if c =? apostrophe then [39; 92; 39; 39] else [c].
Definition agent_shell_quote (s : bytes) : bytes := [39] ++ flat_map shell_quote_char (cstr s) ++ [39].

(** ** Values at the top level of an object *)

(** From behind an opening quotation mark: the text up to the closing one, and
    what follows from it on. *)
Fixpoint scan_string (s : bytes) (escaped : bool) : bytes * bytes :=
  match s with
  | [] => ([], [])
  | c :: r =>
      if negb escaped && (c =? 34) then ([], s)
      else let '(t, rest) := scan_string r (negb escaped && (c =? 92)) in (c :: t, rest)
  end.

Definition is_json_blank (c : Z) : bool := (c =? 32) || (c =? 9) || (c =? 10) || (c =? 13).
Definition skip_json_blank (s : bytes) : bytes := drop (span_len is_json_blank s) s.

(** Every pass takes a byte. *)
Fixpoint top_level_loop (fuel : nat) (key p : bytes) (depth : Z) : option bytes :=
  match fuel with
  | O => None
  | S fuel =>
      match p with
      | [] => None
      | c :: r =>
          if (c =? ch "{") || (c =? ch "[") then top_level_loop fuel key r (depth + 1)
          else if (c =? ch "}") || (c =? ch "]") then top_level_loop fuel key r (depth - 1)
          else if negb (c =? 34) then top_level_loop fuel key r depth
          else
            let '(text, rest) := scan_string r false in
            match rest with
            | [] => None
            | _ :: p =>
                if negb (depth =? 1) || negb (bytes_eqb text key) then top_level_loop fuel key p depth
                else
                  match skip_json_blank p with
                  | d :: q => if d =? ch ":" then Some (skip_json_blank q) else top_level_loop fuel key p depth
                  | [] => top_level_loop fuel key p depth
                  end
            end
      end
  end.

Definition agent_json_top_level_value (json : bytes) (key : string) : option bytes :=
  let json := cstr json in top_level_loop (S (length json)) (bs key) json 0.

Definition json_unescape (c : Z) : option Z :=
  if c =? 34 then Some 34
  else if c =? 92 then Some 92
  else if c =? ch "/" then Some (ch "/")
  else if c =? ch "b" then Some 8
  else if c =? ch "f" then Some 12
  else if c =? ch "n" then Some 10
  else if c =? ch "r" then Some 13
  else if c =? ch "t" then Some 9
  else None.

(** The decoded text up to the closing quotation mark. *)
Fixpoint extract_loop (p : bytes) : option bytes :=
  match p with
  | [] => None
  | c :: r =>
      if c =? 34 then Some []
      else if c =? 92 then
        match r with
        | [] => None
        | e :: r' =>
            match json_unescape e with
            | None => None
            | Some c => (fun t => c :: t) <$> extract_loop r'
            end
        end
      else (fun t => c :: t) <$> extract_loop r
  end.

Definition agent_json_extract_string (json : bytes) (key : string) : option bytes :=
  match agent_json_top_level_value json key with
  | Some (c :: p) => if c =? 34 then extract_loop p else None
  | _ => None
  end.

Definition is_word (c : Z) : bool :=
  isdigit c || ((ch "A" <=? c) && (c <=? ch "Z")) || ((ch "a" <=? c) && (c <=? ch "z")) || (c =? ch "_").

Definition agent_json_extract_bool (json : bytes) (key : string) : bool :=
  match agent_json_top_level_value json key with
  | Some p => starts_with (bs "true") p && match drop 4 p with c :: _ => negb (is_word c) | [] => true end
  | None => false
  end.

(** ** What the server answers *)

Record agent_sage_http_result := mkSageResult {
  sr_content : option bytes;
  sr_contract_version : option bytes;
  sr_run_id : option bytes;
  sr_state : option bytes;
  sr_final_markdown : option bytes;
  sr_is_error : bool;
  sr_publishable : bool;
  sr_authoritative : bool;
  sr_validation_passed : bool;
  sr_report_ready : bool
}.

Definition agent_sage_http_result_parse (json : bytes) : agent_sage_http_result :=
  let text := agent_json_extract_string json in
  let flag := agent_json_extract_bool json in
  mkSageResult (text "content") (text "contractVersion") (text "runId") (text "state") (text "finalMarkdown")
    (flag "isError") (flag "publishable") (flag "authoritative") (flag "validationPassed") (flag "reportReady").

Definition field_is (f : option bytes) (v : bytes) : bool :=
  match f with Some t => c_streq t v | None => false end.

Definition nonempty (f : option bytes) : bool := match f with Some (_ :: _) => true | _ => false end.

Definition agent_sage_http_result_is_ready (r : agent_sage_http_result) (expected_run_id : bytes) : bool :=
  negb (sr_is_error r) && field_is (sr_contract_version r) (bs "sage_result_v2") &&
  field_is (sr_run_id r) expected_run_id && field_is (sr_state r) (bs "ready") &&
  sr_publishable r && sr_authoritative r && sr_validation_passed r && sr_report_ready r &&
  nonempty (cstr <$> sr_final_markdown r).

(** ** The state of a turn *)

Inductive agent_sage_state : Type :=
| AGENT_SAGE_IDLE | AGENT_SAGE_PREPARED | AGENT_SAGE_COMPUTED | AGENT_SAGE_REPAIRING
| AGENT_SAGE_VALIDATED | AGENT_SAGE_PLOTTED | AGENT_SAGE_READY | AGENT_SAGE_FAILED.

#[export] Instance sage_state_eq_dec : EqDecision agent_sage_state.
Proof. solve_decision. Defined.

(** The five flags of a validated report. *)
Record sage_gate := mkGate {
  sg_authoritative : bool;
  sg_validation_passed : bool;
  sg_publishable : bool;
  sg_report_ready : bool;
  sg_final_markdown_ready : bool
}.

Definition gate_open (g : sage_gate) : bool :=
  sg_authoritative g && sg_validation_passed g && sg_publishable g && sg_report_ready g && sg_final_markdown_ready g.

Record agent_sage_turn_state := mkSageTurn {
  st_state : agent_sage_state;
  st_execute_count : Z;
  st_repair_count : Z;
  st_validation_count : Z;
  st_plot_count : Z;
  st_block_count : Z;
  st_used : bool;
  st_gate : sage_gate;
  st_run_id : bytes;
  st_task_type : bytes;
  st_failure_code : bytes
}.

Definition set_sage_state (x : agent_sage_state) (s : agent_sage_turn_state) : agent_sage_turn_state :=
  mkSageTurn x (st_execute_count s) (st_repair_count s) (st_validation_count s) (st_plot_count s) (st_block_count s)
             (st_used s) (st_gate s) (st_run_id s) (st_task_type s) (st_failure_code s).
Definition set_sage_gate (g : sage_gate) (s : agent_sage_turn_state) : agent_sage_turn_state :=
  mkSageTurn (st_state s) (st_execute_count s) (st_repair_count s) (st_validation_count s) (st_plot_count s)
             (st_block_count s) (st_used s) g (st_run_id s) (st_task_type s) (st_failure_code s).
Definition count_call (e r v p : Z) (s : agent_sage_turn_state) : agent_sage_turn_state :=
  mkSageTurn (st_state s) (st_execute_count s + e) (st_repair_count s + r) (st_validation_count s + v)
             (st_plot_count s + p) (st_block_count s) true (st_gate s) (st_run_id s) (st_task_type s) (st_failure_code s).
Definition count_block (s : agent_sage_turn_state) : agent_sage_turn_state :=
  mkSageTurn (st_state s) (st_execute_count s) (st_repair_count s) (st_validation_count s) (st_plot_count s)
             (st_block_count s + 1) (st_used s) (st_gate s) (st_run_id s) (st_task_type s) (st_failure_code s).
Definition set_sage_run (run task : bytes) (s : agent_sage_turn_state) : agent_sage_turn_state :=
  mkSageTurn (st_state s) (st_execute_count s) (st_repair_count s) (st_validation_count s) (st_plot_count s)
             (st_block_count s) (st_used s) (st_gate s) run task (st_failure_code s).

Definition agent_sage_turn_reset : agent_sage_turn_state :=
  mkSageTurn AGENT_SAGE_IDLE 0 0 0 0 0 false (mkGate false false false false false) [] (bs "auto") [].

Definition agent_sage_turn_fail (s : agent_sage_turn_state) (code : bytes) : agent_sage_turn_state :=
  let g := st_gate s in
  mkSageTurn AGENT_SAGE_FAILED (st_execute_count s) (st_repair_count s) (st_validation_count s) (st_plot_count s)
             (st_block_count s) (st_used s)
             (mkGate (sg_authoritative g) (sg_validation_passed g) false (sg_report_ready g) (sg_final_markdown_ready g))
             (st_run_id s) (st_task_type s)
             (c_snprintf 96 (match code with [] => bs "SAGE_FINALIZATION_BLOCKED" | _ => code end)).

(** The names [agent_sage_phase_normalize] can return. *)
Inductive sage_phase : Type := SAGE_PREPARE | SAGE_COMPUTE | SAGE_REPAIR | SAGE_VALIDATE | SAGE_PLOT.

#[export] Instance sage_phase_eq_dec : EqDecision sage_phase.
Proof. solve_decision. Defined.

Definition phase_name (p : sage_phase) : bytes :=
  match p with
  | SAGE_PREPARE => bs "prepare" | SAGE_COMPUTE => bs "compute" | SAGE_REPAIR => bs "repair"
  | SAGE_VALIDATE => bs "validate" | SAGE_PLOT => bs "plot"
  end.

Definition agent_sage_phase_normalize (phase : option bytes) : sage_phase :=
  match phase with
  | None | Some [] => SAGE_COMPUTE
  | Some p =>
      if c_streq p (bs "prepare") then SAGE_PREPARE
      else if c_streq p (bs "compute") then SAGE_COMPUTE
      else if c_streq p (bs "repair") then SAGE_REPAIR
      else if c_streq p (bs "validate") then SAGE_VALIDATE
      else if c_streq p (bs "plot") then SAGE_PLOT
      else SAGE_COMPUTE
  end.

Definition agent_sage_state_name (s : agent_sage_state) : bytes :=
  match s with
  | AGENT_SAGE_IDLE => bs "idle" | AGENT_SAGE_PREPARED => bs "prepared" | AGENT_SAGE_COMPUTED => bs "computed"
  | AGENT_SAGE_REPAIRING => bs "repairing" | AGENT_SAGE_VALIDATED => bs "validated"
  | AGENT_SAGE_PLOTTED => bs "plotted" | AGENT_SAGE_READY => bs "ready" | AGENT_SAGE_FAILED => bs "failed"
  end.

Definition agent_sage_turn_next_phase (s : agent_sage_turn_state) : bytes :=
  match st_state s with
  | AGENT_SAGE_IDLE | AGENT_SAGE_PREPARED => bs "compute"
  | AGENT_SAGE_COMPUTED => bs "validate (or repair)"
  | AGENT_SAGE_REPAIRING => bs "repair, then validate"
  | AGENT_SAGE_VALIDATED | AGENT_SAGE_PLOTTED => bs "plot"
  | AGENT_SAGE_READY => bs "finalize authoritative Markdown"
  | AGENT_SAGE_FAILED => bs "none; stop with the controlled error"
  end.

Definition state_in (s : agent_sage_turn_state) (l : list agent_sage_state) : bool := bool_decide (st_state s ∈ l).

(** [None]: the call is not allowed now, and the state stays. *)
Definition agent_sage_turn_before_call (s : agent_sage_turn_state) (p : sage_phase) : option agent_sage_turn_state :=
  match p with
  | SAGE_COMPUTE =>
      if state_in s [AGENT_SAGE_IDLE; AGENT_SAGE_PREPARED] && (st_execute_count s <? 1)
      then Some (set_sage_state AGENT_SAGE_PREPARED (count_call 1 0 0 0 s)) else None
  | SAGE_REPAIR =>
      if state_in s [AGENT_SAGE_COMPUTED; AGENT_SAGE_REPAIRING] && (st_repair_count s <? 5)
      then Some (set_sage_state AGENT_SAGE_REPAIRING (count_call 0 1 0 0 s)) else None
  | SAGE_VALIDATE =>
      if state_in s [AGENT_SAGE_COMPUTED] && (st_validation_count s <? 1) then Some (count_call 0 0 1 0 s) else None
  | SAGE_PLOT =>
      if state_in s [AGENT_SAGE_VALIDATED; AGENT_SAGE_PLOTTED] && (st_plot_count s <? 3)
      then Some (count_call 0 0 0 1 s) else None
  | SAGE_PREPARE => None
  end.

Definition agent_sage_turn_after_result (s : agent_sage_turn_state) (p : sage_phase) (is_error : bool) (g : sage_gate)
  : agent_sage_turn_state :=
  if is_error then
    match p with
    | SAGE_COMPUTE => set_sage_state AGENT_SAGE_COMPUTED s
    | SAGE_REPAIR =>
        if st_repair_count s <? 5 then set_sage_state AGENT_SAGE_COMPUTED s
        else agent_sage_turn_fail s (bs "SAGE_EXECUTION_FAILED")
    | _ => agent_sage_turn_fail s (bs "SAGE_EXECUTION_FAILED")
    end
  else
    match p with
    | SAGE_COMPUTE | SAGE_REPAIR => set_sage_state AGENT_SAGE_COMPUTED s
    | SAGE_VALIDATE =>
        let s := set_sage_gate g s in
        if negb (gate_open g) then agent_sage_turn_fail s (bs "SAGE_RESULT_NOT_PUBLISHABLE")
        else set_sage_state AGENT_SAGE_READY s
    | SAGE_PLOT =>
        if gate_open g then set_sage_state AGENT_SAGE_READY (set_sage_gate (mkGate true true true true true) s)
        else if 3 <=? st_plot_count s then agent_sage_turn_fail s (bs "SAGE_ARTIFACT_MISSING")
        else set_sage_state AGENT_SAGE_PLOTTED s
    | SAGE_PREPARE => s
    end.

Definition agent_sage_turn_can_finalize (s : agent_sage_turn_state) : bool :=
  bool_decide (st_state s = AGENT_SAGE_READY) && gate_open (st_gate s).

Definition agent_sage_turn_attempt (s : agent_sage_turn_state) : Z :=
  let attempt := st_execute_count s + st_repair_count s in if 0 <? attempt then attempt else 1.

(** ** The tool *)

(** What the worker keeps for it; the clock counts microseconds where the code
    keeps seconds in a [double]. *)
Record sage_worker := mkSageWorker {
  sw_turn : agent_sage_turn_state;
  sw_final_markdown : option bytes;
  sw_turn_sequence : Z;                (** [sage_turn_sequence] *)
  sw_session_sha : bytes;
  sw_prompt : bool;                    (** [sage_prompt] is set *)
  sw_policy_revision : bytes;
  sw_frontend_port : Z;
  sw_consecutive_rounds : Z;
  sw_total_calls : Z;
  sw_turn_start : Z
}.

Definition set_turn (s : agent_sage_turn_state) (w : sage_worker) : sage_worker :=
  mkSageWorker s (sw_final_markdown w) (sw_turn_sequence w) (sw_session_sha w) (sw_prompt w) (sw_policy_revision w)
               (sw_frontend_port w) (sw_consecutive_rounds w) (sw_total_calls w) (sw_turn_start w).
Definition set_markdown (m : option bytes) (w : sage_worker) : sage_worker :=
  mkSageWorker (sw_turn w) m (sw_turn_sequence w) (sw_session_sha w) (sw_prompt w) (sw_policy_revision w)
               (sw_frontend_port w) (sw_consecutive_rounds w) (sw_total_calls w) (sw_turn_start w).
Definition set_sequence (n : Z) (w : sage_worker) : sage_worker :=
  mkSageWorker (sw_turn w) (sw_final_markdown w) n (sw_session_sha w) (sw_prompt w) (sw_policy_revision w)
               (sw_frontend_port w) (sw_consecutive_rounds w) (sw_total_calls w) (sw_turn_start w).
Definition set_rounds (consecutive total start : Z) (w : sage_worker) : sage_worker :=
  mkSageWorker (sw_turn w) (sw_final_markdown w) (sw_turn_sequence w) (sw_session_sha w) (sw_prompt w)
               (sw_policy_revision w) (sw_frontend_port w) consecutive total start.

(** What one start of curl comes to: no command line or no memory for it, no
    pipe, or an exit code ([-1]: it did not exit) with what it printed. *)
Inductive sage_try : Type :=
| TryNoCommand
| TryNoMemory
| TryNoPipe
| TryRan (exit_code : Z) (out : option bytes).

(** What a call meets: the setting of [DS4_SAGE_AUTHORITATIVE_LOOP], the process
    wide number for a run, whether there is memory for the request and for its
    quoted form, and curl, by attempt and command line. *)
Record sage_env := mkSageEnv {
  se_authoritative : bool;
  se_nonce : Z;
  se_body_memory : bool;
  se_quote_memory : bool;
  se_curl : Z -> bytes -> sage_try
}.

Definition agent_sage_turn_ensure_run_id (env : sage_env) (w : sage_worker) : bool * sage_worker :=
  match st_run_id (sw_turn w) with
  | _ :: _ => (true, w)
  | [] =>
      let sequence := u64 (sw_turn_sequence w + 1) in
      let sha := match cstr (sw_session_sha w) with [] => bs "000000000000" | s => s end in
      let id := bs "sage-" ++ take 12 sha ++ bs "-" ++ dec sequence ++ bs "-" ++ dec (u64 (se_nonce env)) in
      (bool_decide (length id < 64)%nat,
       set_sequence sequence (set_turn (set_sage_run (c_snprintf 64 id) (st_task_type (sw_turn w)) (sw_turn w)) w))
  end.

Definition auto_if_empty (s : option bytes) : bytes := match s with Some ((_ :: _) as t) => t | _ => bs "auto" end.

Definition agent_sage_request_body (env : sage_env) (w : sage_worker) (code : bytes) (timeout : Z) (phase : sage_phase)
    (output_mode : option bytes) : option bytes :=
  let run := st_run_id (sw_turn w) in
  match run with
  | [] => None
  | _ =>
      if negb (se_body_memory env) then None
      else Some (json_bytes "{'code':" ++ agent_json_escape code ++
                 json_bytes ",'timeout_sec':" ++ dec_int timeout ++
                 json_bytes ",'task_type':" ++ agent_json_escape (auto_if_empty (Some (st_task_type (sw_turn w)))) ++
                 json_bytes ",'phase':" ++ agent_json_escape (phase_name phase) ++
                 json_bytes ",'output_mode':" ++ agent_json_escape (auto_if_empty output_mode) ++
                 json_bytes ",'sessionId':" ++ agent_json_escape run ++
                 json_bytes ",'runId':" ++ agent_json_escape run ++
                 json_bytes ",'attempt':" ++ dec_int (agent_sage_turn_attempt (sw_turn w)) ++
                 json_bytes ",'policyRevision':" ++ agent_json_escape (sw_policy_revision w) ++ bs "}")
  end.

Definition SAGE_RETRY_MAX_ATTEMPTS : Z := 4.
Definition SAGE_RETRY_BASE_DELAY_US : Z := 500000.

Definition sage_command (port : Z) (body : bytes) (timeout : Z) : bytes :=
  let curl_timeout := timeout + 10 in
  let curl_timeout := if curl_timeout <? 30 then 30 else curl_timeout in
  bs "curl -s -X POST http://127.0.0.1:" ++ dec_int port ++ bs "/api/sage/exec " ++
  bs "-H 'Content-Type: application/json' -d " ++ body ++ bs " --max-time " ++ dec_int curl_timeout ++ bs " 2>/dev/null".

(** The exit codes of curl after which it is tried again. *)
Definition transient (exit_code : Z) : bool :=
  bool_decide (exit_code ∈ [2; 7; 9; 18; 22; 25; 26; 27; 28; 47; 48; 49; 50; 51; 52; 53; 55; 56; 58; 60; 61]).

(** What is published on the way. *)
Inductive sage_event : Type :=
| SageStatus (json : bytes)
| SageCommand (cmd : bytes)
| SageSleep (usec : Z).

(** A status that does not fit its buffer is not sent. *)
Definition sage_status (cap : nat) (json : bytes) : list sage_event :=
  if (length json <? cap)%nat then [SageStatus json] else [].

Definition status_running (w : sage_worker) (authoritative : bool) : bytes :=
  json_bytes "{'runId':'" ++ st_run_id (sw_turn w) ++ json_bytes "','state':'" ++
  agent_sage_state_name (st_state (sw_turn w)) ++ json_bytes "','status':'running','attempt':" ++
  dec_int (agent_sage_turn_attempt (sw_turn w)) ++ json_bytes ",'policyRevision':'" ++ sw_policy_revision w ++
  json_bytes "','mode':'" ++ (if authoritative then bs "authoritative" else bs "legacy") ++ json_bytes "'}".

Definition status_done (w : sage_worker) (state summary : bytes) : bytes :=
  json_bytes "{'runId':'" ++ st_run_id (sw_turn w) ++ json_bytes "','state':'" ++ state ++
  json_bytes "','status':'completed','attempt':" ++ dec_int (agent_sage_turn_attempt (sw_turn w)) ++
  json_bytes ",'policyRevision':'" ++ sw_policy_revision w ++ json_bytes "','summary':'" ++ summary ++ json_bytes "'}".

Definition status_legacy (w : sage_worker) : bytes :=
  json_bytes "{'runId':'" ++ st_run_id (sw_turn w) ++
  json_bytes "','state':'completed','status':'completed','mode':'legacy','summary':'SageMath legacy phase completed.'}".

Definition after_failure (env : sage_env) (phase : sage_phase) (w : sage_worker) : sage_worker :=
  if se_authoritative env
  then set_turn (agent_sage_turn_after_result (sw_turn w) phase true (mkGate false false false false false)) w else w.

(** An answer of the server: the tool's result. *)
Definition sage_answered (env : sage_env) (phase : sage_phase) (w : sage_worker) (out : bytes)
  : bytes * sage_worker * list sage_event :=
  let parsed := agent_sage_http_result_parse out in
  if negb (se_authoritative env) then
    match sr_content parsed with
    | Some content =>
        if negb (sr_is_error parsed) then (content, w, sage_status 512 (status_legacy w))
        else (bs "Tool error: sage legacy computation failed: " ++ content ++ nl, w, [])
    | None => (bs "Tool error: sage legacy computation failed" ++ nl, w, [])
    end
  else
    let run_id := st_run_id (sw_turn w) in
    let contract_v2 := field_is (sr_contract_version parsed) (bs "sage_result_v2") in
    let run_matches := field_is (sr_run_id parsed) run_id in
    let ready := bool_decide (phase = SAGE_VALIDATE) && agent_sage_http_result_is_ready parsed run_id in
    let response_error := sr_is_error parsed || negb contract_v2 || negb run_matches in
    let g := mkGate (sr_authoritative parsed) (sr_validation_passed parsed) (sr_publishable parsed)
                    (sr_report_ready parsed) (nonempty (cstr <$> sr_final_markdown parsed)) in
    let w := set_turn (agent_sage_turn_after_result (sw_turn w) phase response_error g) w in
    if ready then
      let w := set_markdown (sr_final_markdown parsed) w in
      (bs "Sage authoritative report ready." ++ nl, w,
       sage_status 640 (status_done w (bs "ready") (bs "Report SageMath validato.")))
    else if bool_decide (phase = SAGE_VALIDATE) then
      (bs "Tool error: SAGE_RESULT_NOT_PUBLISHABLE" ++ nl,
       set_turn (agent_sage_turn_fail (sw_turn w) (bs "SAGE_RESULT_NOT_PUBLISHABLE")) w, [])
    else
      match sr_content parsed, response_error with
      | Some content, false =>
          (content, w, sage_status 640 (status_done w (agent_sage_state_name (st_state (sw_turn w)))
                                                    (bs "SageMath phase completed.")))
      | _, _ =>
          (bs "Tool error: sage computation failed" ++
           (if negb contract_v2 then bs ": SAGE_RESULT_NOT_PUBLISHABLE"
            else if negb run_matches then bs ": SAGE_RUN_ID_MISMATCH"
            else match sr_content parsed with Some c => bs ": " ++ c | None => [] end) ++ nl, w, [])
      end.

(** All attempts failed. *)
Definition sage_exhausted (env : sage_env) (phase : sage_phase) (w : sage_worker) (exit_code : Z) (result : option bytes)
  : bytes * sage_worker * list sage_event :=
  let w := after_failure env phase w in
  match result with
  | Some out =>
      (bs "Tool error: sage HTTP request failed" ++
       (if 0 <? exit_code then bs " (curl exit " ++ dec_int exit_code ++ bs ")" else []) ++
       (match agent_json_extract_string out "content" with Some c => bs ": " ++ c | None => [] end) ++ nl, w, [])
  | None =>
      (if 0 <? exit_code
       then bs "Tool error: sage HTTP request failed after " ++ dec_int (SAGE_RETRY_MAX_ATTEMPTS - 1) ++
            bs " retries (curl exit " ++ dec_int exit_code ++ bs ")" ++ nl
       else bs "Tool error: sage HTTP backend error (no output)" ++ nl, w, [])
  end.

Definition sage_pause (attempt : Z) : sage_event := SageSleep (Z.shiftl SAGE_RETRY_BASE_DELAY_US (attempt - 1)).

(** The attempts from [attempt] on, [fuel] of them; the last is never repeated. *)
Fixpoint sage_attempts (fuel : nat) (env : sage_env) (phase : sage_phase) (cmd : bytes) (attempt : Z) (w : sage_worker)
  : bytes * sage_worker * list sage_event :=
  match fuel with
  | O => sage_exhausted env phase w (-1) None
  | S fuel =>
      match se_curl env attempt cmd with
      | TryNoCommand => (bs "Tool error: sage HTTP command encoding failed" ++ nl, after_failure env phase w, [])
      | TryNoMemory => (bs "Tool error: sage memory error" ++ nl, after_failure env phase w, [])
      | TryNoPipe =>
          if attempt <? SAGE_RETRY_MAX_ATTEMPTS then
            let '(r, w, ev) := sage_attempts fuel env phase cmd (attempt + 1) w in
            (r, w, SageCommand cmd :: sage_pause attempt :: ev)
          else (bs "Tool error: sage HTTP backend unavailable (popen failed)" ++ nl, after_failure env phase w,
                [SageCommand cmd])
      | TryRan exit_code out =>
          match out with
          | Some text =>
              if exit_code =? 0 then
                let '(r, w, ev) := sage_answered env phase w text in (r, w, SageCommand cmd :: ev)
              else if transient exit_code && (attempt <? SAGE_RETRY_MAX_ATTEMPTS) then
                let '(r, w, ev) := sage_attempts fuel env phase cmd (attempt + 1) w in
                (r, w, SageCommand cmd :: sage_pause attempt :: ev)
              else let '(r, w, ev) := sage_exhausted env phase w exit_code out in (r, w, SageCommand cmd :: ev)
          | None =>
              if transient exit_code && (attempt <? SAGE_RETRY_MAX_ATTEMPTS) then
                let '(r, w, ev) := sage_attempts fuel env phase cmd (attempt + 1) w in
                (r, w, SageCommand cmd :: sage_pause attempt :: ev)
              else let '(r, w, ev) := sage_exhausted env phase w exit_code out in (r, w, SageCommand cmd :: ev)
          end
      end
  end.

Definition agent_tool_sage_via_http (env : sage_env) (w : sage_worker) (call : agent_tool_call)
  : bytes * sage_worker * list sage_event :=
  match agent_tool_arg_value call "code" with
  | None | Some [] => (bs "Tool error: sage requires code" ++ nl, w, [])
  | Some code =>
      if negb (sw_prompt w) || bool_decide (cstr (sw_policy_revision w) = []) then
        (bs "Tool error: SAGE_POLICY_UNAVAILABLE. Run /sage start or /sage-pol start before using SageMath." ++ nl, w, [])
      else if 3 <=? sw_total_calls w then
        (bs "FINAL: Too many sage calls already. DO NOT call sage again. " ++
         bs "Use the results already obtained to produce your analysis." ++ nl, w, [])
      else if 2 <=? sw_consecutive_rounds w then
        (bs "FINAL: Too many consecutive sage calls. DO NOT call sage again. " ++
         bs "Use the results already obtained to produce your analysis." ++ nl, w, [])
      else
        let timeout := agent_parse_int_default (agent_tool_arg_value call "timeout_sec") 60 1 (24 * 3600) in
        let task_type := agent_tool_arg_value call "task_type" in
        let phase := agent_sage_phase_normalize (agent_tool_arg_value call "phase") in
        let output_mode := agent_tool_arg_value call "output_mode" in
        if sw_frontend_port w <=? 0 then
          (bs "Tool error: sage HTTP backend unavailable (FRONTEND_PORT not set)" ++ nl, w, [])
        else
          let allowed := if se_authoritative env then agent_sage_turn_before_call (sw_turn w) phase
                         else Some (sw_turn w) in
          match allowed with
          | None => (tool_error (bs "SAGE_PHASE_TRANSITION_INVALID"), w, [])
          | Some s =>
              let s := if negb (se_authoritative env) ||
                          ((st_execute_count s =? 1) && (st_repair_count s =? 0) && (st_validation_count s =? 0))
                       then set_sage_run (st_run_id s) (c_snprintf 32 (auto_if_empty task_type)) s else s in
              let '(ok, w) := agent_sage_turn_ensure_run_id env (set_turn s w) in
              if negb ok then
                (bs "Tool error: SAGE_RUN_ID_UNAVAILABLE" ++ nl,
                 set_turn (agent_sage_turn_fail (sw_turn w) (bs "SAGE_RUN_ID_UNAVAILABLE")) w, [])
              else
                match agent_sage_request_body env w code timeout phase output_mode with
                | None =>
                    (bs "Tool error: sage request encoding error" ++ nl,
                     set_turn (agent_sage_turn_fail (sw_turn w) (bs "SAGE_REQUEST_ENCODING_FAILED")) w, [])
                | Some body =>
                    if negb (se_quote_memory env) then (bs "Tool error: sage request quoting failed" ++ nl, w, [])
                    else
                      let cmd := sage_command (sw_frontend_port w) (agent_shell_quote body) timeout in
                      let '(r, w', ev) := sage_attempts (Z.to_nat SAGE_RETRY_MAX_ATTEMPTS) env phase cmd 1 w in
                      (r, w', sage_status 512 (status_running w (se_authoritative env)) ++ ev)
                end
          end
  end.

(** ** The rounds of a turn *)

Definition is_sage (c : agent_tool_call) : bool :=
  match tc_name c with Some n => c_streq n (bs "sage") | None => false end.

(** One labelled result of a block. *)
Definition labelled_result (c : agent_tool_call) (res : bytes) (i : Z) : bytes :=
  let res := cstr res in
  c_snprintf 128 (bs "Tool result " ++ dec_int (i + 1) ++ bs " (" ++ cstr (default (bs "unknown") (tc_name c)) ++ bs "):" ++ nl) ++
  res ++ (match res with [] => [] | _ => if List.last res 10 =? 10 then [] else nl end).

(** The other tools report [other] and leave this state alone. *)
Definition agent_execute_tool_calls (other : agent_tool_call -> bytes) (env : sage_env) (w : sage_worker)
    (calls : list agent_tool_call) : bytes * sage_worker * list sage_event :=
  if existsb is_sage calls && negb (length calls =? 1)%nat
  then (bs "Tool error: SAGE_MIXED_TOOL_BLOCK_FORBIDDEN" ++ nl, w, [])
  else
    match calls with
    | [] => (bs "Tool error: empty tool call block" ++ nl, w, [])
    | [c] =>
        if is_sage c then
          let '(res, w, ev) := agent_tool_sage_via_http env w c in (labelled_result c res 0, w, ev)
        else (labelled_result c (other c) 0, w, [])
    | _ => (concat (imap (fun i c => labelled_result c (other c) (Z.of_nat i)) calls), w, [])
    end.

Definition first_is_sage (calls : list agent_tool_call) : bool :=
  match calls with c :: _ => is_sage c | [] => false end.

Definition SECOND : Z := 1000000.

(** The count of Sage rounds, with two readings of the clock; the reason to stop. *)
Definition sage_account (w : sage_worker) (calls : list agent_tool_call) (now1 now2 : Z) : sage_worker * option bytes :=
  if first_is_sage calls then
    let start := if sw_turn_start w <=? 0 then now1 else sw_turn_start w in
    let w := set_rounds (sw_consecutive_rounds w + 1) (sw_total_calls w + 1) start w in
    (w, if 4 <=? sw_consecutive_rounds w then Some (bs "too many consecutive Sage calls (>=4)")
        else if 5 <=? sw_total_calls w then Some (bs "too many total Sage calls (>=5)")
        else if (0 <? sw_turn_start w) && (120 * SECOND <=? now2 - sw_turn_start w)
             then Some (bs "Sage turn exceeded 120s time limit")
        else None)
  else (set_rounds 0 (sw_total_calls w) (sw_turn_start w) w, None).

(** The text to publish, if it may be. *)
Definition agent_sage_publish_authoritative_final (w : sage_worker) : option bytes :=
  if negb (agent_sage_turn_can_finalize (sw_turn w)) then None
  else match cstr <$> sw_final_markdown w with Some ((_ :: _) as m) => Some m | _ => None end.

(** What the model's answer comes to: a block of calls, a block that could not be
    read or was cut off (with the calls read of it), or plain text, and whether
    that passes the checks on invented results.  [RoundResumed]: the user lets a
    guarded loop go on. *)
Inductive sage_round : Type :=
| RoundTools (calls : list agent_tool_call) (env : sage_env) (now1 now2 : Z)
| RoundBroken (calls : list agent_tool_call) (now1 now2 : Z)
| RoundAnswer (text : bytes) (accepted : bool)
| RoundResumed.

Inductive turn_end : Type :=
| TurnPublished (markdown : bytes)
| TurnSageStop (reason : bytes)
| TurnBlocked
| TurnAnswered (text : bytes).

(** After the calls of a round. *)
Definition sage_settle (w : sage_worker) (calls : list agent_tool_call) (now1 now2 : Z) : sage_worker * option turn_end :=
  let '(w, stop) := sage_account w calls now1 now2 in
  match stop with
  | Some reason => (w, Some (TurnSageStop reason))
  | None => (w, TurnPublished <$> agent_sage_publish_authoritative_final w)
  end.

Definition sage_round_step (other : agent_tool_call -> bytes) (w : sage_worker) (r : sage_round)
  : sage_worker * option turn_end :=
  match r with
  | RoundTools calls env now1 now2 =>
      let '(_, w, _) := agent_execute_tool_calls other env w calls in sage_settle w calls now1 now2
  | RoundBroken calls now1 now2 => sage_settle w calls now1 now2
  | RoundAnswer text accepted =>
      let s := sw_turn w in
      if st_used s && negb (agent_sage_turn_can_finalize s) then
        let s := count_block s in
        if (st_block_count s =? 1) && negb (bool_decide (st_state s = AGENT_SAGE_FAILED)) then (set_turn s w, None)
        else (set_turn (agent_sage_turn_fail s (bs "SAGE_FINALIZATION_BLOCKED")) w, Some TurnBlocked)
      else (w, if accepted then Some (TurnAnswered text) else None)
  | RoundResumed => (set_rounds 0 0 0 w, None)
  end.

(** The turn, round by round, until it ends; other guards may cut it anywhere. *)
Fixpoint run_sage_turn (other : agent_tool_call -> bytes) (w : sage_worker) (rounds : list sage_round)
  : sage_worker * option turn_end :=
  match rounds with
  | [] => (w, None)
  | r :: rounds =>
      let '(w, e) := sage_round_step other w r in
      match e with Some e => (w, Some e) | None => run_sage_turn other w rounds end
  end.

Definition sage_turn_start (w : sage_worker) : sage_worker :=
  set_rounds 0 0 0 (set_markdown None (set_turn agent_sage_turn_reset w)).

(** ** The invariant of a turn *)

Record turn_ok (s : agent_sage_turn_state) : Prop := {
  ok_states : st_state s <> AGENT_SAGE_VALIDATED /\ st_state s <> AGENT_SAGE_PLOTTED;
  ok_plot : st_plot_count s = 0;
  ok_execute : 0 <= st_execute_count s <= 1;
  ok_repair : 0 <= st_repair_count s <= 5;
  ok_validation : 0 <= st_validation_count s <= 1;
  ok_computed : st_state s = AGENT_SAGE_IDLE \/ st_state s = AGENT_SAGE_FAILED \/ st_execute_count s = 1;
  ok_ready : st_state s = AGENT_SAGE_READY -> st_validation_count s = 1 /\ gate_open (st_gate s) = true;
  ok_unused : st_used s = false -> st_state s = AGENT_SAGE_IDLE \/ st_state s = AGENT_SAGE_FAILED
}.

Ltac turn_fields :=
  cbn [st_state st_execute_count st_repair_count st_validation_count st_plot_count st_used st_gate set_sage_state set_sage_gate
       count_call count_block set_sage_run agent_sage_turn_fail].

Ltac turn_solve := split; turn_fields; try done; try lia; try tauto; try (right; right; lia); try (split; done).

Lemma fail_ok s code : turn_ok s -> turn_ok (agent_sage_turn_fail s code).
Proof. intros []. turn_solve. Qed.

Lemma run_ok s run task : turn_ok s -> turn_ok (set_sage_run run task s).
Proof. intros []. turn_solve. Qed.

(** A call that is allowed computes, repairs or validates. *)
Lemma before_call_ok s p s' :
  turn_ok s -> agent_sage_turn_before_call s p = Some s' ->
  turn_ok s' /\ st_used s' = true /\ st_execute_count s' = 1 /\
  ((p = SAGE_COMPUTE /\ st_state s' = AGENT_SAGE_PREPARED) \/ (p = SAGE_REPAIR /\ st_state s' = AGENT_SAGE_REPAIRING) \/
   (p = SAGE_VALIDATE /\ st_state s' = AGENT_SAGE_COMPUTED /\ st_validation_count s' = 1)).
Proof.
  intros [] H. unfold agent_sage_turn_before_call, state_in in H. destruct p; [done|..].
  all: destruct (_ && _) eqn:E; [|done]; injection H as <-; apply andb_true_iff in E as [E1 E2];
    apply bool_decide_eq_true in E1; rewrite !elem_of_cons, elem_of_nil in E1; apply Z.ltb_lt in E2.
  - assert (st_execute_count s = 0) by lia. split; [turn_solve|]. turn_fields. split_and!; [done|lia|by left].
  - assert (Hx : st_execute_count s = 1) by (destruct ok_computed0 as [E|[E|E]]; [destruct E1 as [E1|[E1|[]]]; congruence..|done]).
    split; [turn_solve|]. turn_fields. split_and!; [done|lia|right; by left].
  - assert (Hs : st_state s = AGENT_SAGE_COMPUTED) by (by destruct E1 as [|[]]).
    assert (Hx : st_execute_count s = 1) by (destruct ok_computed0 as [E|[E|E]]; congruence || done).
    split; [turn_solve; congruence|]. turn_fields. split_and!; [done|lia|right; right; split_and!; [done..|lia]].
  - exfalso. destruct ok_states0 as [O1 O2]. by destruct E1 as [E1|[E1|[]]].
Qed.

(** The result of such a call. *)
Lemma after_result_ok s p e g :
  turn_ok s -> st_state s <> AGENT_SAGE_READY -> st_execute_count s = 1 -> st_used s = true -> p <> SAGE_PLOT -> p <> SAGE_PREPARE ->
  (p = SAGE_VALIDATE -> st_validation_count s = 1) -> turn_ok (agent_sage_turn_after_result s p e g).
Proof.
  intros Hs Hnr Hx Hu Hp1 Hp2 Hv. unfold agent_sage_turn_after_result.
  assert (Hset : forall st, st <> AGENT_SAGE_VALIDATED -> st <> AGENT_SAGE_PLOTTED -> st <> AGENT_SAGE_READY ->
    turn_ok (set_sage_state st s)).
  { intros st H1 H2 H3. destruct Hs. turn_solve. congruence. }
  destruct e, p; try done; try (by apply Hset); try (by apply fail_ok).
  - destruct (_ <? _); [by apply Hset|by apply fail_ok].
  - cbv zeta. assert (Hg : turn_ok (set_sage_gate g s)) by (destruct Hs; turn_solve).
    destruct (gate_open g) eqn:Eg; cbn [negb]; [|by apply fail_ok]. specialize (Hv eq_refl). destruct Hg. turn_solve. congruence.
Qed.

(** ** Extracted texts are C strings *)

Lemma scan_string_rest s e : no_nul s -> no_nul (scan_string s e).2.
Proof.
  revert e. induction s as [|c s IH]; intros e Hn; [done|]. cbn [scan_string].
  destruct (_ && _); [done|]. apply Forall_cons_iff in Hn as [_ Hn]. specialize (IH (negb e && (c =? 92)) Hn).
  by destruct (scan_string s _).
Qed.

Lemma no_nul_drop n s : no_nul s -> no_nul (drop n s).
Proof. apply Forall_drop. Qed.

Lemma top_level_no_nul fuel key p depth v : no_nul p -> top_level_loop fuel key p depth = Some v -> no_nul v.
Proof.
  revert p depth. induction fuel as [|fuel IH]; intros p depth Hn; cbn [top_level_loop]; [discriminate|].
  destruct p as [|c r]; [discriminate|]. apply Forall_cons_iff in Hn as [_ Hr].
  destruct (_ || _); [by apply IH|]. destruct (_ || _); [by apply IH|]. destruct (negb (c =? 34)); [by apply IH|].
  pose proof (scan_string_rest r false Hr) as Hs. destruct (scan_string r false) as [text [|x p]]; [discriminate|].
  cbn [snd] in Hs. apply Forall_cons_iff in Hs as [_ Hp]. destruct (_ || _); [by apply IH|].
  pose proof (no_nul_drop (span_len is_json_blank p) p Hp) as Hb. fold (skip_json_blank p) in Hb.
  destruct (skip_json_blank p) as [|d q]; [by apply IH|]. destruct (d =? ch ":"); [|by apply IH].
  intros [= <-]. apply Forall_cons_iff in Hb as [_ Hq]. by apply no_nul_drop.
Qed.

Lemma extract_no_nul n s v : (length s <= n)%nat -> no_nul s -> extract_loop s = Some v -> no_nul v.
Proof.
  revert s v. induction n as [|n IH]; intros s v Hl Hn; destruct s as [|c r]; try discriminate; cbn in Hl; [lia|].
  apply Forall_cons_iff in Hn as [Hc Hr]. cbn [extract_loop]. destruct (c =? 34); [intros [= <-]; constructor|].
  destruct (c =? 92).
  - destruct r as [|e r]; [discriminate|]. apply Forall_cons_iff in Hr as [_ Hr]. cbn in Hl.
    destruct (json_unescape e) as [d|] eqn:Ed; [|discriminate]. intros H. apply fmap_Some in H as (t & Ht & ->).
    constructor; [|by apply (IH r); [lia| |]]. unfold json_unescape in Ed. by repeat case_match; simplify_eq.
  - intros H. apply fmap_Some in H as (t & Ht & ->). constructor; [done|]. by apply (IH r); [lia| |].
Qed.

Lemma extract_c_string out key m : agent_json_extract_string out key = Some m -> cstr m = m.
Proof.
  intros H. apply cstr_no_nul. unfold agent_json_extract_string in H.
  destruct (agent_json_top_level_value out key) as [v|] eqn:E; [|done].
  unfold agent_json_top_level_value in E. apply top_level_no_nul in E; [|apply no_nul_cstr].
  destruct v as [|c v]; [done|]. apply Forall_cons_iff in E as [_ Hv]. destruct (c =? 34); [|done].
  by eapply extract_no_nul.
Qed.

Lemma field_is_extract out key v :
  field_is (agent_json_extract_string out key) v = true -> agent_json_extract_string out key = Some (cstr v).
Proof.
  destruct (agent_json_extract_string out key) as [m|] eqn:E; [|done]. cbn [field_is]. unfold c_streq.
  rewrite bytes_eqb_eq, (extract_c_string _ _ _ E). by intros ->.
Qed.

(** ** The tool in a turn *)

Lemma after_failure_ok env p w :
  turn_ok (sw_turn w) -> st_state (sw_turn w) <> AGENT_SAGE_READY -> (se_authoritative env = true -> st_execute_count (sw_turn w) = 1 /\ st_used (sw_turn w) = true /\
     p <> SAGE_PLOT /\ p <> SAGE_PREPARE /\ (p = SAGE_VALIDATE -> st_validation_count (sw_turn w) = 1)) ->
  turn_ok (sw_turn (after_failure env p w)).
Proof.
  intros Hs Hnr Ha. unfold after_failure. destruct (se_authoritative env); [|done].
  destruct (Ha eq_refl) as (H1 & H2 & H3 & H4 & H5). cbn [sw_turn set_turn]. by apply after_result_ok.
Qed.

(** The attempts end in a failure or in an answer of the server. *)
Lemma attempts_cases fuel env p cmd attempt w :
  let w' := (sage_attempts fuel env p cmd attempt w).1.2 in
  w' = after_failure env p w \/
  exists k out, se_curl env k cmd = TryRan 0 (Some out) /\ w' = (sage_answered env p w out).1.2.
Proof.
  revert attempt. induction fuel as [|fuel IH]; intros attempt; [by left|]. cbv zeta. cbn [sage_attempts].
  specialize (IH (attempt + 1)). destruct (sage_attempts fuel env p cmd (attempt + 1) w) as [[r1 w1] ev1].
  destruct (se_curl env attempt cmd) as [| | |exit_code [text|]] eqn:Ec; [by left|by left|..].
  - destruct (_ <? _); [exact IH|by left].
  - destruct (Z.eqb_spec exit_code 0) as [->|_].
    + right. exists attempt, text. split; [done|]. by destruct (sage_answered env p w text) as [[r w'] ev].
    + destruct (_ && _); [exact IH|by left].
  - destruct (_ && _); [exact IH|by left].
Qed.

(** What the server says when a report may be published as [m]: no error, the
    contract's version, the run, the state, every flag. *)
Record report_of (run m out : bytes) : Prop := {
  rp_error : agent_json_extract_bool out "isError" = false;
  rp_contract : agent_json_extract_string out "contractVersion" = Some (bs "sage_result_v2");
  rp_run : agent_json_extract_string out "runId" = Some (cstr run);
  rp_state : agent_json_extract_string out "state" = Some (bs "ready");
  rp_publishable : agent_json_extract_bool out "publishable" = true;
  rp_authoritative : agent_json_extract_bool out "authoritative" = true;
  rp_validated : agent_json_extract_bool out "validationPassed" = true;
  rp_report : agent_json_extract_bool out "reportReady" = true;
  rp_markdown : agent_json_extract_string out "finalMarkdown" = Some m;
  rp_nonempty : m <> []
}.

Lemma after_result_run s p e g : st_run_id (agent_sage_turn_after_result s p e g) = st_run_id s.
Proof.
  unfold agent_sage_turn_after_result. destruct e, p; try done; try (by destruct (_ <? _)).
  - cbv zeta. by destruct (negb (gate_open g)).
  - destruct (gate_open g); [done|]. by destruct (_ <=? _).
Qed.

Lemma after_result_not_ready s p e g :
  st_state s <> AGENT_SAGE_READY -> p <> SAGE_VALIDATE -> p <> SAGE_PLOT ->
  st_state (agent_sage_turn_after_result s p e g) <> AGENT_SAGE_READY.
Proof. intros Hs H1 H2. unfold agent_sage_turn_after_result. destruct e, p; try done. by destruct (_ <? _). Qed.

Lemma after_failure_not_ready s p g :
  st_state s <> AGENT_SAGE_READY -> st_state (agent_sage_turn_after_result s p true g) <> AGENT_SAGE_READY.
Proof. intros H. unfold agent_sage_turn_after_result. destruct p; try done. by destruct (_ <? _). Qed.

Lemma ready_report out run :
  agent_sage_http_result_is_ready (agent_sage_http_result_parse out) run = true -> exists m, report_of run m out.
Proof.
  unfold agent_sage_http_result_is_ready. rewrite !andb_true_iff, negb_true_iff.
  intros ((((((((H1 & H2) & H3) & H4) & H5) & H6) & H7) & H8) & H9).
  cbn [agent_sage_http_result_parse sr_is_error sr_contract_version sr_run_id sr_state sr_publishable sr_authoritative
       sr_validation_passed sr_report_ready sr_final_markdown] in *.
  apply field_is_extract in H2, H3, H4. destruct (agent_json_extract_string out "finalMarkdown") as [m|] eqn:Em; [|done].
  exists m. split; try done. intros ->. done.
Qed.

(** An answer leaves the state well formed; it is ready only after a validation. *)
Lemma answered_ok env p w out :
  turn_ok (sw_turn w) -> st_state (sw_turn w) <> AGENT_SAGE_READY ->
  (se_authoritative env = true -> st_execute_count (sw_turn w) = 1 /\ st_used (sw_turn w) = true /\
     p <> SAGE_PLOT /\ p <> SAGE_PREPARE /\ (p = SAGE_VALIDATE -> st_validation_count (sw_turn w) = 1)) ->
  let w' := (sage_answered env p w out).1.2 in
  turn_ok (sw_turn w') /\ st_run_id (sw_turn w') = st_run_id (sw_turn w) /\
  (st_state (sw_turn w') = AGENT_SAGE_READY ->
     se_authoritative env = true /\ p = SAGE_VALIDATE /\
     exists m, sw_final_markdown w' = Some m /\ report_of (st_run_id (sw_turn w)) m out).
Proof.
  intros Hs Hnr Ha. unfold sage_answered. destruct (se_authoritative env); cbn [negb].
  2:{ destruct (sr_content _); [destruct (negb _)|]; done. }
  destruct (Ha eq_refl) as (H1 & H2 & H3 & H4 & H5). cbv zeta.
  set (r := agent_sage_http_result_parse out). set (g := mkGate _ _ _ _ _).
  set (err := _ || _ || _). set (s1 := agent_sage_turn_after_result (sw_turn w) p err g).
  assert (Hs1 : turn_ok s1) by (by apply after_result_ok).
  assert (Hrun : st_run_id s1 = st_run_id (sw_turn w)) by apply after_result_run.
  destruct (bool_decide_reflect (p = SAGE_VALIDATE)) as [->|Hp]; cbn [andb].
  - destruct (agent_sage_http_result_is_ready r _) eqn:Er; cbn [fst snd sw_turn set_turn set_markdown].
    + split; [done|]. split; [done|]. intros _. split; [done|]. split; [done|].
      destruct (ready_report _ _ Er) as [m Hm]. exists m. split; [apply Hm|done].
    + split; [by apply fail_ok|]. by split.
  - assert (Hst : st_state s1 <> AGENT_SAGE_READY) by (by apply after_result_not_ready).
    destruct (sr_content r), err; cbn [fst snd sw_turn set_turn]; done.
Qed.

(** Before a round: nothing may be published yet. *)
Definition withheld (w : sage_worker) : Prop := turn_ok (sw_turn w) /\ st_state (sw_turn w) <> AGENT_SAGE_READY.

Lemma failed_withheld w code : withheld w -> withheld (set_turn (agent_sage_turn_fail (sw_turn w) code) w).
Proof. intros [H _]. split; [by apply fail_ok|done]. Qed.

Lemma ensure_run_id_ok env w :
  withheld w -> let w' := (agent_sage_turn_ensure_run_id env w).2 in
  withheld w' /\ st_execute_count (sw_turn w') = st_execute_count (sw_turn w) /\
  st_used (sw_turn w') = st_used (sw_turn w) /\ st_validation_count (sw_turn w') = st_validation_count (sw_turn w).
Proof.
  intros [H1 H2]. unfold agent_sage_turn_ensure_run_id. destruct (st_run_id (sw_turn w)); [|done].
  cbn [snd]. split; [|done]. split; [|done]. cbn [sw_turn set_turn set_sequence]. by apply run_ok.
Qed.

Lemma allowed_ok env w p s :
  withheld w ->
  (if se_authoritative env then agent_sage_turn_before_call (sw_turn w) p else Some (sw_turn w)) = Some s ->
  withheld (set_turn s w) /\
  (se_authoritative env = true -> st_execute_count s = 1 /\ st_used s = true /\
     p <> SAGE_PLOT /\ p <> SAGE_PREPARE /\ (p = SAGE_VALIDATE -> st_validation_count s = 1)).
Proof.
  intros [H1 H2] E. destruct (se_authoritative env); [|by injection E as <-].
  destruct (before_call_ok _ _ _ H1 E) as (Hs & Hu & Hx & Hp). split.
  - split; [done|]. cbn [sw_turn set_turn]. by destruct Hp as [[_ ->]|[[_ ->]|(_ & -> & _)]].
  - intros _. by destruct Hp as [[-> _]|[[-> _]|(-> & _ & Hv)]].
Qed.

(** A report that the server allowed in answer to this call. *)
Definition reported (env : sage_env) (call : agent_tool_call) (run m : bytes) : Prop :=
  se_authoritative env = true /\
  agent_sage_phase_normalize (agent_tool_arg_value call "phase") = SAGE_VALIDATE /\
  exists k cmd out, se_curl env k cmd = TryRan 0 (Some out) /\ report_of run m out.

Lemma sage_tool_ok env w call :
  withheld w ->
  let w' := (agent_tool_sage_via_http env w call).1.2 in
  turn_ok (sw_turn w') /\
  (st_state (sw_turn w') = AGENT_SAGE_READY ->
     exists m, sw_final_markdown w' = Some m /\ reported env call (st_run_id (sw_turn w')) m).
Proof.
  intros Hw. assert (Hkeep : forall w', withheld w' -> turn_ok (sw_turn w') /\
    (st_state (sw_turn w') = AGENT_SAGE_READY ->
     exists m, sw_final_markdown w' = Some m /\ reported env call (st_run_id (sw_turn w')) m)) by (by intros w' [H1 H2]).
  unfold agent_tool_sage_via_http.
  destruct (agent_tool_arg_value call "code") as [[|c code]|]; [by apply Hkeep| |by apply Hkeep].
  destruct (_ || _); [by apply Hkeep|]. destruct (3 <=? _); [by apply Hkeep|]. destruct (2 <=? _); [by apply Hkeep|].
  cbv zeta. destruct (_ <=? 0); [by apply Hkeep|]. set (p := agent_sage_phase_normalize _).
  destruct (if se_authoritative env then _ else _) as [s|] eqn:Es; [|by apply Hkeep].
  destruct (allowed_ok _ _ _ _ Hw Es) as [Hs Ha]. set (s1 := if _ || _ then _ else s).
  assert (Hs1 : withheld (set_turn s1 w) /\ st_execute_count s1 = st_execute_count s /\ st_used s1 = st_used s /\
                st_validation_count s1 = st_validation_count s).
  { unfold s1. destruct (_ || _); [|done]. destruct Hs as [Hs Hr]. split; [|done]. split; [by apply run_ok|done]. }
  clearbody s1. destruct Hs1 as (Hs1 & Hx & Hu & Hv). pose proof (ensure_run_id_ok env _ Hs1) as Hr.
  destruct (agent_sage_turn_ensure_run_id env (set_turn s1 w)) as [ok w1]. cbv zeta in Hr. cbn [snd sw_turn set_turn] in Hr.
  destruct Hr as (Hw1 & Hx1 & Hu1 & Hv1). rewrite Hx in Hx1. rewrite Hu in Hu1. rewrite Hv in Hv1.
  destruct ok; cbn [negb]; [|by apply Hkeep, failed_withheld].
  destruct (agent_sage_request_body _ _ _ _ _ _) as [body|]; [|by apply Hkeep, failed_withheld].
  destruct (negb (se_quote_memory env)); [by apply Hkeep|].
  set (cmd := sage_command _ _ _). pose proof (attempts_cases (Z.to_nat SAGE_RETRY_MAX_ATTEMPTS) env p cmd 1 w1) as Hc.
  destruct (sage_attempts _ env p cmd 1 w1) as [[r w2] ev]. cbn [fst snd] in *. cbv zeta in Hc.
  assert (Ha1 : se_authoritative env = true -> st_execute_count (sw_turn w1) = 1 /\ st_used (sw_turn w1) = true /\
     p <> SAGE_PLOT /\ p <> SAGE_PREPARE /\ (p = SAGE_VALIDATE -> st_validation_count (sw_turn w1) = 1)).
  { rewrite Hx1, Hu1, Hv1. exact Ha. }
  destruct Hw1 as [Hok Hnr]. destruct Hc as [->|(k & out & Hk & ->)].
  - apply Hkeep. split; [by apply after_failure_ok|]. unfold after_failure.
    destruct (se_authoritative env); [|done]. by apply after_failure_not_ready.
  - destruct (answered_ok env p w1 out Hok Hnr Ha1) as (H1 & H2 & H3). split; [done|]. intros Hready.
    destruct (H3 Hready) as (Hau & Hp & m & Hm & Hrep). exists m. split; [done|]. rewrite H2.
    split; [done|]. split; [exact Hp|]. by exists k, cmd, out.
Qed.

(** ** A turn *)

(** The round in which the report [m] was allowed. *)
Definition report_round (w' : sage_worker) (m : bytes) (r : sage_round) : Prop :=
  exists call env now1 now2,
    r = RoundTools [call] env now1 now2 /\ is_sage call = true /\ reported env call (st_run_id (sw_turn w')) m.

Lemma execute_ok other env w calls :
  withheld w ->
  let w' := (agent_execute_tool_calls other env w calls).1.2 in
  turn_ok (sw_turn w') /\
  (st_state (sw_turn w') = AGENT_SAGE_READY ->
     exists call m, calls = [call] /\ is_sage call = true /\ sw_final_markdown w' = Some m /\
       reported env call (st_run_id (sw_turn w')) m).
Proof.
  intros Hw. assert (Hkeep : turn_ok (sw_turn w) /\ (st_state (sw_turn w) = AGENT_SAGE_READY ->
     exists call m, calls = [call] /\ is_sage call = true /\ sw_final_markdown w = Some m /\
       reported env call (st_run_id (sw_turn w)) m)) by (by destruct Hw).
  unfold agent_execute_tool_calls. destruct (_ && _); [done|]. destruct calls as [|c [|c2 calls]]; [done| |done].
  destruct (is_sage c) eqn:Ec; [|done]. pose proof (sage_tool_ok env w c Hw) as H. cbv zeta in H.
  destruct (agent_tool_sage_via_http env w c) as [[res w'] ev]. cbn [fst snd] in *. destruct H as [H1 H2].
  split; [done|]. intros Hr. destruct (H2 Hr) as (m & Hm & Hrep). by exists c, m.
Qed.

Lemma settle_turn w calls now1 now2 :
  let '(w', e) := sage_settle w calls now1 now2 in
  sw_turn w' = sw_turn w /\ sw_final_markdown w' = sw_final_markdown w /\
  match e with
  | Some (TurnPublished m) => agent_sage_publish_authoritative_final w = Some m
  | Some (TurnSageStop _) => True
  | Some _ => False
  | None => agent_sage_publish_authoritative_final w = None
  end.
Proof.
  unfold sage_settle, sage_account. destruct (first_is_sage calls).
  - destruct (if 4 <=? _ then _ else _) as [reason|]; [done|]. split; [done|]. split; [done|].
    change (agent_sage_publish_authoritative_final (set_rounds _ _ _ w)) with (agent_sage_publish_authoritative_final w).
    by destruct (agent_sage_publish_authoritative_final w).
  - split; [done|]. split; [done|].
    change (agent_sage_publish_authoritative_final (set_rounds _ _ _ w)) with (agent_sage_publish_authoritative_final w).
    by destruct (agent_sage_publish_authoritative_final w).
Qed.

Lemma published_ready w m :
  agent_sage_publish_authoritative_final w = Some m ->
  st_state (sw_turn w) = AGENT_SAGE_READY /\ m <> [] /\ exists m0, sw_final_markdown w = Some m0 /\ cstr m0 = m.
Proof.
  unfold agent_sage_publish_authoritative_final, agent_sage_turn_can_finalize.
  destruct (bool_decide_reflect (st_state (sw_turn w) = AGENT_SAGE_READY)) as [Hr|]; [|done]. cbn [andb].
  destruct (gate_open _); [|done]. cbn [negb]. destruct (sw_final_markdown w) as [m0|]; [|done]. cbn [fmap option_fmap option_map].
  destruct (cstr m0) as [|c t] eqn:Em; [done|]. intros [= <-]. split; [done|]. split; [done|]. by exists m0.
Qed.

Lemma report_publishes w run m out :
  turn_ok (sw_turn w) -> st_state (sw_turn w) = AGENT_SAGE_READY -> sw_final_markdown w = Some m -> report_of run m out ->
  agent_sage_publish_authoritative_final w = Some m.
Proof.
  intros Hok Hr Hm []. pose proof (extract_c_string _ _ _ rp_markdown0) as Hc.
  unfold agent_sage_publish_authoritative_final, agent_sage_turn_can_finalize. rewrite Hr, Hm.
  destruct (ok_ready _ Hok Hr) as [_ ->]. rewrite bool_decide_eq_true_2 by done.
  cbn [andb negb fmap option_fmap option_map]. rewrite Hc. by destruct m.
Qed.

(** What a round that ends the turn may end it with. *)
Definition end_ok (w : sage_worker) (r : sage_round) (e : turn_end) : Prop :=
  match e with
  | TurnPublished m =>
      m <> [] /\ report_round w m r /\ st_execute_count (sw_turn w) = 1 /\ st_validation_count (sw_turn w) = 1
  | TurnAnswered text => r = RoundAnswer text true /\ st_used (sw_turn w) = false
  | TurnBlocked => st_used (sw_turn w) = true
  | TurnSageStop _ => True
  end.

Lemma withheld_unfinal w : withheld w -> agent_sage_turn_can_finalize (sw_turn w) = false.
Proof. intros [_ H]. unfold agent_sage_turn_can_finalize. by rewrite bool_decide_eq_false_2. Qed.

Lemma sage_round_ok other w r :
  withheld w ->
  let '(w', e) := sage_round_step other w r in
  turn_ok (sw_turn w') /\ match e with Some e => end_ok w' r e | None => withheld w' end.
Proof.
  intros Hw. destruct r as [calls env now1 now2|calls now1 now2|text accepted|]; cbn [sage_round_step].
  - pose proof (execute_ok other env w calls Hw) as He. cbv zeta in He.
    destruct (agent_execute_tool_calls other env w calls) as [[res w1] ev]. cbn [fst snd] in He.
    pose proof (settle_turn w1 calls now1 now2) as Hs. destruct (sage_settle w1 calls now1 now2) as [w' e].
    destruct Hs as (Ht & Hm & He'). destruct He as [Hok Hready]. rewrite Ht. split; [done|].
    destruct e as [[m|reason| |text]|]; try done.
    + destruct (published_ready _ _ He') as (Hr & Hne & m0 & Hm0 & Hc).
      destruct (Hready Hr) as (call & m1 & -> & Hcall & Hm1 & Hrep). assert (m1 = m0) as -> by congruence.
      destruct Hrep as (Ha & Hp & k & cmd & out & Hk & Hrep). pose proof (extract_c_string _ _ _ (rp_markdown _ _ _ Hrep)) as Hcs.
      assert (m0 = m) as -> by congruence. unfold end_ok. rewrite Ht. split; [done|]. split.
      { exists call, env, now1, now2. split; [done|]. split; [done|]. split; [done|]. split; [done|].
        rewrite Ht. by exists k, cmd, out. }
      split; [|by apply (ok_ready _ Hok)]. destruct (ok_computed _ Hok) as [|[|]]; congruence.
    + split; [by rewrite Ht|]. intros Hr. rewrite Ht in Hr. destruct (Hready Hr) as (call & m1 & _ & _ & Hm1 & Hrep).
      destruct Hrep as (_ & _ & k & cmd & out & _ & Hrep).
      pose proof (report_publishes w1 _ _ _ Hok Hr Hm1 Hrep). congruence.
  - pose proof (settle_turn w calls now1 now2) as Hs. destruct (sage_settle w calls now1 now2) as [w' e].
    destruct Hs as (Ht & Hm & He). destruct Hw as [Hok Hnr]. rewrite Ht. split; [done|].
    destruct e as [[m|reason| |text]|]; try done.
    + by apply published_ready in He as [Hr _].
    + split; by rewrite Ht.
  - rewrite withheld_unfinal by done. destruct Hw as [Hok Hnr]. cbn [negb]. rewrite andb_true_r.
    assert (Hblock : turn_ok (count_block (sw_turn w))) by (destruct Hok; turn_solve).
    destruct (st_used (sw_turn w)) eqn:Hu.
    + destruct (_ && _); cbn [sw_turn set_turn]; [by split|]. split; [by apply fail_ok|exact Hu].
    + by destruct accepted.
  - by destruct Hw.
Qed.

(** C8. A turn that uses the Sage server: whatever rounds the model and the server
    make of it, when a report is published it is, byte for byte, the one in an
    answer of the server to a [validate] call of this turn and this run, with
    every flag set, after exactly one computation; and an answer of the model
    itself ends only a turn in which no Sage call was accepted. *)
Theorem sage_publishes_reports other w rounds :
  let '(w', e) := run_sage_turn other (sage_turn_start w) rounds in
  turn_ok (sw_turn w') /\
  match e with Some e => exists r, r ∈ rounds /\ end_ok w' r e | None => withheld w' end.
Proof.
  assert (Hw : withheld (sage_turn_start w)) by (split; [turn_solve|done]).
  revert Hw. generalize (sage_turn_start w). induction rounds as [|r rounds IH]; intros w0 Hw; [by destruct Hw|].
  cbn [run_sage_turn]. pose proof (sage_round_ok other w0 r Hw) as Hr. destruct (sage_round_step other w0 r) as [w1 [e|]].
  - destruct Hr as [Hok He]. split; [done|]. exists r. split; [by left|done].
  - destruct Hr as [_ Hw1]. specialize (IH w1 Hw1). destruct (run_sage_turn other w1 rounds) as [w' [e|]]; [|done].
    destruct IH as (Hok & r' & Hin & He). split; [done|]. exists r'. split; [by right|done].
Qed.

(** ** The shell *)

(** Characters that mean something to the shell outside quotes. *)
Definition shell_special (c : Z) : bool :=
  bool_decide (c ∈ bs "|&;<>()$`*?[#~=%!{}") || (c =? 34) || (c =? 10).

(** A reader of one word of a POSIX shell command, for words without expansions:
    the word and what follows it; [None] when it would expand, or never ends. *)
Fixpoint shell_word (quoted : bool) (s : bytes) : option (bytes * bytes) :=
  match s with
  | [] => if quoted then None else Some ([], [])
  | c :: r =>
      if quoted then
        if c =? apostrophe then shell_word false r
        else (fun '(w, rest) => (c :: w, rest)) <$> shell_word true r
      else if c =? apostrophe then shell_word true r
      else if c =? 92 then
        match r with
        | d :: r' => if d =? 10 then None else (fun '(w, rest) => (d :: w, rest)) <$> shell_word false r'
        | [] => None
        end
      else if (c =? 32) || (c =? 9) then Some ([], s)
      else if shell_special c then None
      else (fun '(w, rest) => (c :: w, rest)) <$> shell_word false r
  end.

Lemma shell_quoted s rest :
  shell_word true (flat_map shell_quote_char s ++ 39 :: 32 :: rest) = Some (s, 32 :: rest).
Proof.
  induction s as [|c s IH]; [done|]. cbn [flat_map]. unfold shell_quote_char at 1.
  destruct (Z.eqb_spec c apostrophe) as [->|Hc].
  - rewrite <- app_assoc. cbn [app shell_word]. change (39 =? apostrophe) with true. change (92 =? apostrophe) with false.
    change (92 =? 92) with true. change (39 =? 10) with false. cbv iota. by rewrite IH.
  - cbn [app shell_word]. destruct (Z.eqb_spec c apostrophe); [done|]. by rewrite IH.
Qed.

(** C27. The text handed to the shell for a request, whatever it contains, is read
    back by the shell as one word, that text, byte for byte. *)
Theorem shell_quote_exact s rest :
  shell_word false (agent_shell_quote s ++ 32 :: rest) = Some (cstr s, 32 :: rest).
Proof. unfold agent_shell_quote. rewrite <- !app_assoc. cbn [app shell_word]. apply shell_quoted. Qed.
