(* ===== verification/AgentExample.v ===== *)
(** * AgentExample: the agent's parts on concrete inputs

    The theorems of the agent files applied to a small file, a small answer, a
    small conversation, and some boundary inputs evaluated. *)

From Stdlib Require Import Sorted.
From S2P Require Import Prelude Ctype Sha Fs ContextBlob Bpe Dsml.
From S2P Require Import AgentFile AgentSearch AgentGuard AgentContext AgentDsml AgentDsmlFacts AgentSage.

(** ** A file with three lines *)

Definition no_error : world -> bytes := fun _ => bs "Input/output error".
Definition demo_path : bytes := bs "f".
Definition demo_text : bytes := bs "one" ++ nl ++ bs "two" ++ nl ++ bs "three" ++ nl.
Definition demo_world : world := mkWorld {[demo_path := demo_text]} [] ∅ [] 7 [] (fun l => l).

Definition arg (name : string) (value : bytes) : agent_tool_arg := mkToolArg (Some (bs name)) (Some value) true.
Definition edit_call : agent_tool_call :=
  mkToolCall (Some (bs "edit")) [arg "path" demo_path; arg "old" (bs "two"); arg "new" (bs "2")].

Lemma demo_file_there : w_files demo_world !! demo_path = Some demo_text.
Proof. apply lookup_singleton_eq. Qed.

Lemma edit_exact_witness :
  let '(res, w') := agent_tool_edit no_error edit_call demo_world in
  edit_spec demo_path demo_text (bs "two") (bs "2") demo_world res w'.
Proof. exact (edit_exact no_error edit_call demo_world demo_path (bs "two") (bs "2") demo_text eq_refl eq_refl eq_refl ltac:(done) demo_file_there). Defined.

Example edit_writes :
  w_files (agent_tool_edit no_error edit_call demo_world).2 !! demo_path = Some (bs "one" ++ nl ++ bs "2" ++ nl ++ bs "three" ++ nl).
Proof. by vm_compute. Qed.

(** Text that occurs twice is refused and the file stays. *)
Example edit_ambiguous :
  let w := mkWorld {[demo_path := bs "a b a"]} [] ∅ [] 7 [] (fun l => l) in
  let call := mkToolCall (Some (bs "edit")) [arg "path" demo_path; arg "old" (bs "a"); arg "new" (bs "c")] in
  is_tool_error (agent_tool_edit no_error call w).1 = true /\
  w_files (agent_tool_edit no_error call w).2 !! demo_path = Some (bs "a b a").
Proof. by vm_compute. Qed.

(** ** Pages *)

Definition read_call_ : agent_tool_call :=
  mkToolCall (Some (bs "read")) [arg "path" demo_path; arg "start_line" (bs "2"); arg "max_lines" (bs "1")].
Definition more_call : agent_tool_call := mkToolCall (Some (bs "more")) [].

(** Line 2, then what is left. *)
Lemma read_pages_witness :
  exists pages m1 m2 head body,
    agent_tool_read no_error (mkMore [] 0 false false) read_call_ demo_world = (Some (head ++ body, m1), demo_world) /\
    read_rest no_error m1 [more_call] demo_world = (Some ((fun page => page.1 ++ page.2) <$> pages, m2), demo_world) /\
    concat ((head, body) :: pages).*2 = append_lines demo_text (agent_split_lines demo_text) 2 3 /\
    more_valid m2 = false.
Proof.
  assert (Hsz : zlen demo_text <= AGENT_FILE_MAX_BYTES) by (vm_compute; congruence).
  assert (Hpl : (length demo_path < PATH_MAX_)%nat) by (apply Nat.ltb_lt; vm_compute; reflexivity).
  pose proof (read_pages no_error demo_world demo_path demo_text (mkMore [] 0 false false) read_call_ [more_call]
    eq_refl demo_file_there Hsz ltac:(done) Hpl eq_refl eq_refl eq_refl) as H. cbv zeta in H.
  destruct H as (pages & m1 & m2 & head & body & H1 & H2 & _ & H3 & H4).
  - vm_compute. congruence.
  - constructor; [vm_compute; congruence|constructor].
  - assert (E1 : agent_parse_int_default (agent_tool_arg_value read_call_ "start_line") 1 1 INT_MAX = 2) by reflexivity.
    assert (E2 : agent_parse_int_default (agent_tool_arg_value read_call_ "max_lines") AGENT_READ_DEFAULT_LINES 1 INT_MAX = 1)
      by reflexivity.
    assert (E3 : total (more_count <$> [more_call]) = 500) by reflexivity.
    assert (E4 : zlen (agent_split_lines demo_text) = 3) by reflexivity.
    rewrite E1, E2, E3, E4 in H3. rewrite E1, E2, E3, E4 in H4.
    exists pages, m1, m2, head, body. split; [exact H1|]. split; [exact H2|]. split; [exact H3|exact H4].
Defined.

(** The last line wanted is beyond [INT_MAX]: undefined in C. *)
Example read_overflow : agent_read_page demo_path demo_text 2 INT_MAX false false = None.
Proof. by vm_compute. Qed.

(** ** Searching *)

Definition demo_search : agent_search_ctx := mkSearchCtx (bs "t") None false false 0 10.
Definition no_glob : bytes -> bytes -> bool := fun _ _ => false.
Definition no_regex : bytes -> bool := fun _ => false.

Lemma search_prints_windows_witness :
  exists L,
    ss_results (agent_search_data no_regex demo_search demo_path demo_text (mkSearch 0 [])) = 2 /\
    StronglySorted Z.lt L /\
    (forall j, j ∈ L <-> exists m, m ∈ [1; 2] /\ in_window demo_search 3 m j).
Proof.
  pose proof (search_prints_windows no_regex demo_search demo_path demo_text (mkSearch 0 []) ltac:(done)) as H.
  cbv zeta in H. destruct (bool_decide_reflect (0 ∈ demo_text)) as [Hb|Hb].
  - exfalso. apply (proj2 (bool_decide_eq_true (0 ∈ demo_text))) in Hb. vm_compute in Hb. discriminate.
  - destruct H as (L & _ & Hr & Hs & HL). exists L. split; [exact Hr|split; [exact Hs|exact HL]].
Defined.

Example search_text :
  ss_out (agent_search_data no_regex demo_search demo_path demo_text (mkSearch 0 [])) =
  bs "f" ++ nl ++ bs "  2 two" ++ nl ++ bs "  3 three" ++ nl ++ nl.
Proof. by vm_compute. Qed.

(** ** Guards *)

Definition looping : bytes := bs "again" ++ nl.

Lemma repetition_exact_witness :
  let d := fold_left (fun d t => (agent_repetition_feed d t).1) [looping; looping] AGENT_REP_INIT in
  reports (concat [looping; looping]) looping 3.
Proof.
  intros d. apply (repetition_exact [looping; looping] looping 3 ltac:(lia)). vm_compute. congruence.
Defined.

Lemma ngram_ban_exact_witness :
  let r := fold_left agent_recent_tokens_push [1; 2; 3; 4; 1; 2; 3] recent_zero in
  agent_ngram_ban_candidates r 0 64 = [4] /\ NoDup (agent_ngram_ban_candidates r 0 64).
Proof.
  split; [by vm_compute|]. exact (proj1 (ngram_ban_exact [1; 2; 3; 4; 1; 2; 3] 0 64 ltac:(done))).
Defined.



Lemma tail_capture_last_witness :
  agent_tail_capture_take (fold_left (agent_tail_capture_append (replicate 4 0)) [bs "abc"; bs "defg"; bs "h"] (mkTail [] 4 0 0 0))
  = bs "efgh".
Proof. exact (proj1 (tail_capture_last (replicate 4 0) 4 [bs "abc"; bs "defg"; bs "h"] ltac:(cbn; lia))). Defined.

(** ** The context window *)

(** A chat engine whose messages are a mark and the bytes of the text. *)
Definition toy_chat : ChatEngine := {| ce_message _ text := 1 :: text; ce_rendered text := text |}.

Definition toy_piece (c : string) : piece := mkPiece [] (bs c).
Definition toy_worker : @agent_worker unit :=
  mkAgentWorker tt (@lay toy_chat [toy_piece "a"; toy_piece "b"; toy_piece "c"; toy_piece "d"; toy_piece "e"])
    (@spans_of toy_chat 0 [toy_piece "a"; toy_piece "b"; toy_piece "c"; toy_piece "d"; toy_piece "e"]) 0 0 false.
Definition toy_sync (s : unit) (t : tokens) : bool * unit := (true, tt).
Definition empty_world : world := mkWorld ∅ [] ∅ [] 7 [] (fun l => l).

(** The oldest of five results goes into a blob. *)
Lemma evict_lossless_witness :
  let '((ok, w'), world') :=
    @agent_worker_evict_tool_results toy_chat unit toy_sync (fun s => s) (replicate 64 0) (Some (bs "b")) [] toy_worker empty_world in
  @evict_outcome toy_chat unit (bs "b") [] toy_worker [] [toy_piece "a"] [toy_piece "b"; toy_piece "c"; toy_piece "d"; toy_piece "e"]
    [] ok w' (w_files world').
Proof.
  refine (@evict_lossless toy_chat unit toy_sync (fun s => s) (replicate 64 0) (bs "b") [] toy_worker [toy_piece "a"]
    [toy_piece "b"; toy_piece "c"; toy_piece "d"; toy_piece "e"] [] empty_world eq_refl (conj eq_refl eq_refl) eq_refl _ _).
  - apply NoDup_singleton.
  - constructor; [left; apply lookup_empty|constructor].
Defined.

(** ** Calls in the stream *)

Definition demo_calls : list written_call :=
  [mkWritten (bs "read") [mkParam (bs "path") (bs "a < b") true; mkParam (bs "max_lines") (bs "3") false]].
Definition demo_stream : bytes := bs "I look." ++ write_calls demo_calls ++ bs " done".

Lemma dsml_stream_roundtrip_witness :
  stream_result (fold_left agent_dsml_feed [take 40 demo_stream; drop 40 demo_stream] agent_dsml_parser_reset) =
  (AGENT_DSML_DONE, read_call <$> demo_calls, []).
Proof.
  refine (dsml_stream_roundtrip [take 40 demo_stream; drop 40 demo_stream] (bs "I look.") demo_calls (bs " done") _ _ _).
  - intros j [k E]. apply (f_equal length) in E. rewrite length_drop, length_app in E.
    change (length dsml_start) with 22%nat in E. cbn in E. lia.
  - unfold demo_calls, call_ok, param_ok, name_ok, value_ok, no_nul.
    repeat first [ apply Forall_cons_iff; split | apply Forall_nil; exact I | split | done ].
    all: intros j [k E]; apply (f_equal length) in E; rewrite length_drop, length_app in E;
      change (length dsml_close) with 12%nat in E; cbn in E; lia.
  - vm_compute. reflexivity.
Defined.

Lemma agent_dsml_parse_terminates_witness :
  let p := fold_left agent_dsml_feed [demo_stream] agent_dsml_parser_reset in
  dsml_parse_loop 1000 (with_raw (ap_raw p ++ [10]) p) = agent_dsml_parse (with_raw (ap_raw p ++ [10]) p).
Proof. apply (agent_dsml_parse_terminates [demo_stream] 10 1000). apply Nat.ltb_lt. vm_compute. reflexivity. Defined.

(** ** A Sage turn *)

Definition sage_report : bytes :=
  json_bytes "{'sageResult':{'publishable':false,'state':'failed'},'content':'legacy content','isError':false,'contractVersion':'sage_result_v2','publishable':true,'authoritative':true,'validationPassed':true,'reportReady':true,'finalMarkdown':'# Exact\n$x=1$','runId':'sage-000000000000-1-1','state':'ready'}".

Definition sage_phase_call (phase : string) : agent_tool_call :=
  mkToolCall (Some (bs "sage")) [arg "code" (bs "1+1"); arg "phase" (bs phase)].

Definition sage_backend : sage_env := mkSageEnv true 1 true true (fun _ _ => TryRan 0 (Some sage_report)).
Definition sage_ready_worker : sage_worker :=
  mkSageWorker agent_sage_turn_reset None 0 [] true (bs "0123") 8080 0 0 0.
Definition sage_call_round (phase : string) (now : Z) : sage_round :=
  RoundTools [sage_phase_call phase] sage_backend now now.
Definition no_others : agent_tool_call -> bytes := fun _ => [].
Definition sage_turn_end (rounds : list sage_round) : option turn_end :=
  (run_sage_turn no_others (sage_turn_start sage_ready_worker) rounds).2.

Example sage_turn_publishes :
  sage_turn_end [sage_call_round "compute" 5; sage_call_round "validate" 6] =
  Some (TurnPublished (bs "# Exact" ++ nl ++ bs "$x=1$")).
Proof. by vm_compute. Qed.

(** Prose is held back, then the turn is blocked. *)
Example sage_turn_blocks :
  sage_turn_end [sage_call_round "compute" 5; RoundAnswer (bs "x = 1") true; RoundAnswer (bs "x = 1") true] = Some TurnBlocked.
Proof. by vm_compute. Qed.

(** A report that arrives after two minutes is not published, though it is valid. *)
Example sage_turn_late :
  sage_turn_end [sage_call_round "compute" 5; sage_call_round "validate" (121 * SECOND)] =
  Some (TurnSageStop (bs "Sage turn exceeded 120s time limit")).
Proof. by vm_compute. Qed.

(** After a repair the validation is refused: it would be the third call in a row. *)
Example sage_turn_repaired :
  sage_turn_end [sage_call_round "compute" 5; sage_call_round "repair" 6; sage_call_round "validate" 7;
                 RoundAnswer [] true; RoundAnswer [] true] = Some TurnBlocked.
Proof. by vm_compute. Qed.
